(* ===== verification/_CoqProject ===== *)
-Q . S2P
Prelude.v
Text.v
BTreeMap.v
Json.v
ReadPolicy.v
ReadCache.v
ReadClient.v
Domain.v
Ratio.v
Challenge.v
Algorithm.v
Bundles.v
Source.v
Deadlines.v
Store.v
Workflow.v
Intent.v
Lease.v
Attempt.v
Payload.v
Admission.v
Acceptance.v
Reconcile.v
Restart.v
Window.v
Snapshot.v
SnapshotStore.v
ActiveCache.v
Propose.v
System.v
Bind.v
Reconciler.v
Ingest.v
Decide.v
Controller.v
Config.v
Commit.v
Startup.v
Rfc3339.v
IdentityStore.v
Identity.v
IdentityHistory.v
Wallet.v
KeyFile.v
MemberApi.v
Account.v
ApiAuth.v
Readiness.v
WriteGate.v
PostLane.v
Claim.v
Transmit.v
Gateway.v
Sends.v
Drive.v
Evidence.v
GatewayService.v
Admin.v
FakeTig.v
Merkle.v
Upload.v
UploadHistory.v
Package.v
SpikeGateway.v
SpikeHistory.v
SpikeTrust.v
Authed.v
SpikeActive.v
