(* ===== verification/Prelude.v ===== *)
(** * TIG mining pool: verification library

    The program is a mining pool for TIG.  It reads TIG's blocks into snapshots
    ([tig-client], [pool-snapshot]), decides what to benchmark
    ([pool-decision], [pool-controller]), and carries each benchmark through
    TIG's protocol -- precommit, benchmark, proof, verification -- as a workflow
    kept in PostgreSQL ([pool-workflow]).  Two processes share that database:
    the controller decides and confirms, the gateway alone writes to TIG.
    Members and their workers reach a third, the member API ([pool-api]), and
    are known to the pool through [pool-identity].  Every
    write costs money or reputation, so the design rests on a few promises: a
    write is recorded before it is sent, at most one write per lane is
    unresolved, a lost answer closes the lane until it is reconciled, an
    accepted precommit is never repeated, and the number of unverified
    benchmarks never exceeds the configured limit.  The library models the
    reading of blocks, the decision rules, the controller, the whole of
    [pool-workflow] with the constraints of the tables it writes, the gateway
    from its start to the requests it sends, the member API's authentication and
    enrollment tickets, the configuration, the identity service and the
    migration job, and proves those promises.  It also models the stand-in for TIG
    the tests run against ([fake-tig]) and the prototype of the member protocol
    ([spike]): uploads, acceptance, proofs, its own gateway and driver.

    ** Files

    Sources are under [src/crates/] unless said otherwise.

    - [Prelude]: [Result] and [?], [for] loops with [?], machine integers with
      checked and saturating operations, shared list lemmas, tactics and hints.
    - [BTreeMap]: Rust's ordered map as a sorted association list.  [Text]: the
      string functions of the standard library.  [Json]: [serde_json::Value] as
      far as the sources read it.
    - [ReadPolicy], [ReadCache], [ReadClient]: [tig-client] -- [limits.rs],
      [cache.rs] and [lib.rs]: the reader's share of the rate budget, the
      response cache, one call with its retries.
    - [Snapshot], [SnapshotStore], [ActiveCache]: [pool-snapshot] -- assembling
      a snapshot of one block, keeping it, and the facts kept of active
      benchmarks.
    - [Domain]: [pool-domain] -- networks, trace ids, the challenge tie draw.
    - [Ratio], [Challenge], [Algorithm], [Bundles], [Source]: the files of
      [pool-decision/src] of the same names.
    - [Deadlines]: [pool-workflow/src/deadlines.rs].
    - [Store]: the tables of [src/migrations] the workflow crate writes.  A
      table is a finite map from its primary key to a row record; [db] is the
      record of the tables; each insert or update runs the table's checks, unique
      indexes, foreign keys and triggers and returns a [SqlError] if one refuses.
    - [Workflow], [Intent], [Lease], [Attempt], [Payload], [Acceptance],
      [Reconcile], [Restart]: the files of [pool-workflow/src] of the same
      names, one definition per function.  [Admission]: [decision.rs].
    - [Window], [Propose], [Bind], [Reconciler], [Ingest], [Decide], [Commit]:
      the files of [pool-controller/src] of the same names ([Commit]: also
      [stub.rs]).  [Controller]: [service.rs], the polling loop that composes
      them.  [Startup]: [main.rs] up to the loop.  [Config]: [pool-config].
    - [Rfc3339], [IdentityStore], [Identity]: [pool-identity] -- the timestamps
      of [lib.rs], the document store and signing strings ([store.rs],
      [keys.rs]), the service ([service.rs], [wire.rs]).  [IdentityHistory]: all
      its calls in any order, with any write failing.  [Wallet]: [wallet.rs], the
      signed login.
    - [MemberApi], [Account], [ApiAuth]: [pool-api] -- the error shape, the
      protocol document and the routes ([error.rs], [protocol.rs], [service.rs]),
      the enrollment tickets ([account.rs]), the authentication of signed
      requests ([auth.rs]).  [KeyFile]: the two files that load a secret,
      [pool-api/src/ticket_key.rs] and [tig-gateway/src/credential.rs].
    - [System]: the transactions of both processes as the labels of one step
      relation, the databases they can reach, and what holds in all of them.
    - [Readiness], [WriteGate], [PostLane], [Claim], [Transmit]: the files of
      [tig-gateway/src] of the same names ([PostLane]: [lane.rs] and
      [write_policy.rs]) -- the nine checks that enable writing, the gate that
      holds their verdict, the pacing of writes, the judgement on one claimed
      intent, one HTTP write.
    - [Gateway]: [tig-gateway/src/drive.rs], the handling of one intent as
      statements of a session; any number of sessions, and any transaction of
      [System], interleave.  [Sends]: the invariant of those worlds and what it
      says about the requests that left for TIG.  [Drive]: the rest of
      [drive.rs], [run_once] and [run_once_benchmarks] as functions, each of which
      is shown to be a run of [Gateway]'s steps.
    - [Evidence]: [evidence.rs], the observations the gate judges.
      [GatewayService]: [service.rs], the start and the loop.
    - [Admin]: [pool-admin/src/main.rs], the migration job.
    - [FakeTig]: [fake-tig/src/lib.rs], the chain the stand-in plays, the
      documents it serves and its routes.
    - [Merkle]: [spike/src/member.rs] -- output records, leaf hashes, the tree and
      its branches.  [Package]: the rest of it, the package a member builds, and
      [active.rs], what the pool builds from an accepted one.
    - [Upload]: [spike/src/pool.rs], uploads, acceptance and slots on a disk whose
      writes may fail.  [UploadHistory]: all its calls in any order.
      [Authed]: [authed.rs], the signed calls over [Upload] and [Identity].
    - [SpikeGateway]: [spike/src/lib.rs], the prototype's gateway and its ledger.
      [SpikeHistory]: all its calls in any order, with any write failing.
      [SpikeTrust]: [trust.rs].  [SpikeActive]: [bin/spike_active.rs], the driver.

    ** How the code is read

    A function of the source that runs SQL is a function from the database to a
    [result] of its answer and the next database.  One PostgreSQL transaction
    is one step: an error leaves the database as it was.  The statements of a
    function that does not open a transaction are separate steps, so where
    another process may run in between the definition takes one database per
    statement ([expire_if_due], the evidence recordings), and [System] lets
    every step start from what was committed last.  Generated values -- row
    ids, the clock, random bytes -- are arguments.  So are SHA-256, the JSON
    printer and the database's text order, which the theorems leave arbitrary
    or constrain to be a total preorder where a newest row is looked for.
    Integers keep their width wherever the code checks, saturates or could
    overflow; block heights in the tables are unbounded [Z], since no statement
    computes with them beyond a successor.

    The identity service keeps documents in files under a writer lock: a call is
    a function in a state monad over the documents, the audit ledger and the
    outcomes the next writes will have (done, failed before the rename, failed
    after it); what a failing call has written stays written.  Any document may
    also fail to read, at any time and for as long as it will, and the call that
    reads it is refused.  A polling loop
    takes the answers of the network and the generated values of each round as a
    list; for the loops of [SpikeActive], which end when their time is up,
    [waiting_ends] says how long a list is enough.  The disks of [Upload] and
    [SpikeGateway] are treated alike, with a torn line and a torn record among the
    ways a write can end; times and byte offsets there stay below [2 ^ 64].  The
    calls on [Upload]'s disk run one at a time, with the removal of accepted objects
    by the retention rule, and files becoming unreadable or readable again, between
    them: the prototype takes no lock, and two requests interleaved inside a call
    are not covered.  Waits of the read client are given by when the thing waited
    for would become ready; the wait for a token runs the shared bucket's own loop,
    which computes in IEEE doubles, against whatever other readers do to it.

    Loops are structural folds, with one exception: Euclid's loop in [Ratio] is
    run with fuel [2 * 128 + 1], which is enough for any two 128-bit numbers
    because a remainder halves every two rounds; [Ratio] proves it equal to
    [Z.gcd].

    ** What is proved

    - The decision rules implement their specifications over exact rationals:
      [select_challenge_refines], [select_algorithm_by_adoption],
      [select_algorithm_track_rates], [select_source_refines],
      [size_bundles_least_aligned]; they return on every input of ordinary size
      ([select_challenge_total], [select_algorithm_total]) and fail only as
      documented ([size_bundles_errors], [ratio_overflow_exact]).
    - The lifecycle: [transitions_follow_lifecycle], [one_winner_per_revision],
      [terminal_is_final], [confirm_precommit_exactly]; the deadline sweep in
      [standing_bands], [expire_if_due_safe], [expire_if_due_live].
    - The write ledger: [create_intent_idempotent], [settle_is_final],
      [begin_iff_lane_free], [ambiguity_closes_the_lane],
      [reconcile_reopens_the_lane], [outcomes_recorded_once], and leases in
      [claim_exactly_when_free].
    - Admission, evidence and payloads: [admission_gated], [admission_live],
      [admission_rebuilds_and_retries], [evidence_is_immutable],
      [payload_roundtrip], [commitment_matches_iff].
    - Recovery: [reconcile_exact] and [own_precommit_never_absent] for a lost
      precommit, [restart_sound] and [restart_catches_up] after a crash,
      [block_gaps_recorded] for missed blocks.
    - The gateway's write path: [evaluate_exact] for the nine checks,
      [permits_counted_and_cleared] and [first_cause_blocks_new_writes] for the
      gate, [slots_paced] for the lane, [precommit_sent_exactly] and
      [commitment_sent_exactly] for the decision to send,
      [reply_reading_exact] for the answer, [found_write_reopens_the_lane] for
      a lost one.
    - The whole system, over every interleaving of transactions:
      [reachable_is_safe], [history_is_kept] (snapshots included), [fenced_out_for_good],
      [accepted_precommit_never_repeated]; and over every interleaving of
      gateways with them: [every_request_on_record] and
      [one_precommit_takes_effect], that of all precommits ever sent for a
      workflow at most one can have taken effect.  The latter two assume that
      attempts are begun by gateway sessions only and always under a lease, as
      in the code ([begin] without a fence has no caller outside tests).
    - The gateway process: a pass is a run of that model ([pass_is_a_run]), so a
      gateway's passes send at most one precommit that can take effect
      ([passes_send_one_precommit]); a pass returns its permits and sends nothing
      past a closed gate ([pass_leaves_the_gate]); the gate opens for exactly the
      deployments that show what it asks for ([gate_opens_exactly], with
      [lossless_fixture_exact] and [canonical_fixture_exact] for the fixtures),
      and a gateway that serves has passed it and serves safely from whatever
      database earlier starts left ([serving_gateway_is_safe]) under an owner no other start has
      ([lease_owner_names_the_start]).
    - The member API: a signed request is accepted exactly when it should be
      ([signed_request_exact]), its id names it for good
      ([request_id_names_one_request]), a revoked credential is refused from then
      on ([revoked_credential_is_refused]); a signed login buys one ticket
      ([login_buys_one_ticket], [ticket_granted_exact],
      [issuing_is_all_or_nothing], [wallet_is_the_account]), says what it is for
      ([login_text_names_its_login]) and when it ends
      ([expiry_has_one_spelling]); every failure has the protocol's shape
      ([every_failure_is_shaped]); secrets are loaded exactly from files that keep
      them ([ticket_key_exact], [api_key_exact]).
    - Migrations: [dry_run_exact], [migrated_once].
    - Reading blocks: [snapshot_is_of_one_block], [persisted_before_decided],
      [coverage_is_exact], [warm_up_completes], [window_exact]; the client keeps
      its promises to TIG and to its caller in [read_budget_is_divided],
      [cache_serves_only_live], [call_ends_in_time].
    - The controller: a proposal can be submitted and stands on the snapshot
      ([proposal_is_constructible], [draw_is_on_record], [pass_errors]); what is
      decided is what was proposed ([decision_is_faithful],
      [usable_block_is_decided]); no height is lost ([no_height_lost]); binding
      and deadlines follow the evidence ([binding_exact],
      [deadlines_spare_the_unresolved]); over any run of polls, nothing is
      admitted from a block that was not reconciled
      ([admission_follows_reconciliation]), every poll is a run of [System]'s
      transactions ([polls_are_a_run]) and the loop survives what a poll meets
      ([polling_goes_on]).
    - Configuration: [validation_exact], [database_url_roundtrip],
      [digest_covers_player_and_offer], [started_controller_is_fit].
    - Identities, through every history of calls and failed writes:
      [authentication_exact], [request_id_is_spent], [ticket_is_spent],
      [answers_are_repeated], [records_are_permanent],
      [security_revocation_stands], [benchmark_has_one_assignment],
      [interrupted_enrollment_completes]; [path_is_its_name] and
      [issued_identifiers_are_valid] for the names of documents,
      [civil_is_the_calendar] for the dates it prints.

    - The stand-in for TIG shows a precommit it took, and the pool's search finds it
      even when the answer was lost ([lost_precommit_is_found]).
    - The prototype: a Merkle branch leads to the root from one leaf only
      ([proof_binds_the_leaf]); acknowledged bytes are kept, an accepted package is
      published whole and finalizing can be retried
      ([acknowledged_bytes_are_kept], [accepted_is_published],
      [finalize_can_be_retried]); work so accepted is taken by the stand-in, its
      commitment and the proof of any sample ([accepted_package_answers_every_sample],
      [accepted_work_is_taken]), and is deleted only when active
      ([retention_deletes_the_active_only]); an upload has one worker and one receipt
      ([only_the_owner_uploads], [upload_has_one_worker], [member_receipt_is_final]).
      Its gateway serializes precommits, records before it sends and confirms what
      TIG shows ([lane_is_serialized], [requests_are_on_record],
      [reconcile_confirms_what_tig_shows], [confirmed_write_is_final]); its breaker
      stays open ([open_breaker_is_final]); its driver sends only what it should and
      spaces it ([every_request_has_its_source], [posts_are_spaced]).

    ** What is not modelled

    Network transport, logging and argument parsing ([main.rs] of the services,
    [pool-telemetry]), the test helpers ([pool-test-support]) and the prototype's
    other command-line tools ([spike_member], [spike_pool], [spike_gateway]) are
    I/O around what is modelled.  A
    reply to a request, the pinned document and the parsed JSON are arguments.
    Hashes, signatures, base64, TOML and URL parsing are third-party code and
    parameters.  Of the member tables only what the modelled statements touch is
    there. *)
From stdpp Require Export base strings list list_numbers numbers sorting option gmap.
From Stdlib Require Export ZArith Lia.

(** ** Results

    Rust's [Result<A, E>] and the [?] operator. *)

Inductive result (E A : Type) : Type :=
| Ok (a : A)
| Err (e : E).
Arguments Ok {E A} a.
Arguments Err {E A} e.

Declare Scope pool_scope.
Delimit Scope pool_scope with pool.
Open Scope pool_scope.

Notation "'let?' x ':=' m 'in' k" :=
  (match m with Ok x => k | Err e => Err e end)
  (at level 10, x pattern, m at level 200, k at level 200,
   format "'[v' 'let?'  x  ':='  m  'in' '/' k ']'") : pool_scope.

#[export] Instance result_eq_dec {E A} `{EqDecision E, EqDecision A} :
  EqDecision (result E A).
Proof. solve_decision. Defined.

Definition is_Ok {E A} (r : result E A) : bool :=
  match r with Ok _ => true | Err _ => false end.

(** [Result::map_err]. *)
Definition map_err {E F A} (f : E -> F) (r : result E A) : result F A :=
  match r with Ok a => Ok a | Err e => Err (f e) end.

(** [Option::ok_or]. *)
Definition ok_or {E A} (o : option A) (e : E) : result E A :=
  match o with Some a => Ok a | None => Err e end.
Lemma ok_or_Ok {E A} (o : option A) (e : E) a : ok_or o e = Ok a -> o = Some a.
Proof. destruct o; simpl; congruence. Qed.

(** A fallible fold: a [for] loop whose body ends in [?]. *)
Fixpoint foldM {E A B} (f : B -> A -> result E B) (acc : B) (l : list A) : result E B :=
  match l with
  | [] => Ok acc
  | x :: l' => let? acc' := f acc x in foldM f acc' l'
  end.

(** [iter().map(f).collect::<Result<Vec<_>, _>>()]. *)
Fixpoint mapM_res {E A B} (f : A -> result E B) (l : list A) : result E (list B) :=
  match l with
  | [] => Ok []
  | x :: l' => let? y := f x in let? ys := mapM_res f l' in Ok (y :: ys)
  end.

(** ** Machine integers

    A w-bit integer is a [Z] with its range; [checked_*] operations return
    [None] out of range and [saturating_*] operations clamp, as in Rust. *)

Definition u32_max : Z := 2 ^ 32 - 1.
Definition u64_max : Z := 2 ^ 64 - 1.
Definition u128_max : Z := 2 ^ 128 - 1.
Definition i32_max : Z := 2 ^ 31 - 1.
Definition i64_max : Z := 2 ^ 63 - 1.
Definition i64_min : Z := - 2 ^ 63.

Definition in_unsigned (max n : Z) : bool := (0 <=? n)%Z && (n <=? max)%Z.
Abbreviation is_u32 := (in_unsigned u32_max).
Abbreviation is_u64 := (in_unsigned u64_max).
Abbreviation is_u128 := (in_unsigned u128_max).
Definition is_i64 (n : Z) : bool := (i64_min <=? n)%Z && (n <=? i64_max)%Z.

(** [checked_add] and [checked_mul] on an unsigned type with maximum [max]. *)
Definition checked_add_u (max a b : Z) : option Z :=
  if (a + b <=? max)%Z then Some (a + b)%Z else None.
Definition checked_mul_u (max a b : Z) : option Z :=
  if (a * b <=? max)%Z then Some (a * b)%Z else None.
(** [saturating_sub] on an unsigned type and on [i64]. *)
Definition saturating_sub_u (a b : Z) : Z := Z.max 0 (a - b).
Definition saturating_sub_i64 (a b : Z) : Z := Z.max i64_min (Z.min i64_max (a - b)).

(** ** Byte strings

    A Rust [String] or [&str] is its UTF-8 byte sequence, one [ascii] per byte;
    [Ord] on strings is the byte-lexicographic order [String.compare]. *)

Definition str_lt (s t : string) : Prop := String.compare s t = Lt.
Definition str_ltb (s t : string) : bool :=
  match String.compare s t with Lt => true | _ => false end.
Definition str_leb (s t : string) : bool :=
  match String.compare s t with Gt => false | _ => true end.
(** The number of [char]s: the bytes that are not UTF-8 continuation bytes. *)
Definition is_continuation (c : Ascii.ascii) : bool :=
  N.eqb (N.land (Ascii.N_of_ascii c) 192) 128.
Fixpoint char_count (s : string) : nat :=
  match s with
  | EmptyString => 0
  | String c s' => (if is_continuation c then 0 else 1) + char_count s'
  end.
(** [s.bytes().all(p)]. *)
Fixpoint all_bytes (p : Ascii.ascii -> bool) (s : string) : bool :=
  match s with
  | EmptyString => true
  | String c s' => p c && all_bytes p s'
  end.
Definition is_ascii_digit (c : Ascii.ascii) : bool :=
  let n := Ascii.N_of_ascii c in N.leb 48 n && N.leb n 57.
Definition is_lower_hex (c : Ascii.ascii) : bool :=
  let n := Ascii.N_of_ascii c in is_ascii_digit c || (N.leb 97 n && N.leb n 102).

(** ** Stable sorting and maxima: [slice::sort_by] and [Iterator::max] *)

Fixpoint insert_by {A} (le : A -> A -> bool) (x : A) (l : list A) : list A :=
  match l with
  | [] => [x]
  | y :: l' => if le x y then x :: y :: l' else y :: insert_by le x l'
  end.
Fixpoint sort_by {A} (le : A -> A -> bool) (l : list A) : list A :=
  match l with
  | [] => []
  | x :: l' => insert_by le x (sort_by le l')
  end.
(** [iter().max()] over integers. *)
Definition max_list (l : list Z) : option Z :=
  match l with
  | [] => None
  | x :: l' => Some (fold_left Z.max l' x)
  end.

(** ** Automation *)

Create HintDb pool.

(** Case analysis on every [match] of a hypothesis, discarding the branches
    that contradict it. *)
Ltac inv_res H :=
  repeat (case_match; simplify_eq/=; try discriminate H; try done).
Ltac destruct_match_in H :=
  match type of H with
  | context [match ?x with _ => _ end] => destruct x eqn:?; simplify_eq/=
  end.
Ltac inv_ok H := repeat (destruct_match_in H; try discriminate H; try done).
(** Boolean side conditions to propositions, then linear arithmetic. *)
Ltac bool_prop :=
  repeat match goal with
  | H : context [andb _ _ = true] |- _ => rewrite andb_true_iff in H
  | H : context [orb _ _ = true] |- _ => rewrite orb_true_iff in H
  | H : context [negb _ = true] |- _ => rewrite negb_true_iff in H
  | H : context [Z.leb _ _ = true] |- _ => rewrite Z.leb_le in H
  | H : context [Z.ltb _ _ = true] |- _ => rewrite Z.ltb_lt in H
  | H : context [Z.eqb _ _ = true] |- _ => rewrite Z.eqb_eq in H
  | H : context [Z.leb _ _ = false] |- _ => rewrite Z.leb_gt in H
  | H : context [Z.ltb _ _ = false] |- _ => rewrite Z.ltb_ge in H
  | H : context [Z.eqb _ _ = false] |- _ => rewrite Z.eqb_neq in H
  | H : _ /\ _ |- _ => destruct H
  end.
(** Case analysis on every integer comparison of the goal. *)
Ltac case_cmp :=
  repeat match goal with
  | |- context [Z.leb ?x ?y] => destruct (Z.leb_spec x y)
  | |- context [Z.ltb ?x ?y] => destruct (Z.ltb_spec x y)
  | |- context [Z.eqb ?x ?y] => destruct (Z.eqb_spec x y)
  end.
Ltac unfold_ints :=
  unfold in_unsigned, is_i64, u32_max, u64_max, u128_max, i32_max, i64_max, i64_min in *.

(** ** Generic lemmas *)

Lemma foldM_app {E A B} (f : B -> A -> result E B) l1 l2 acc :
  foldM f acc (l1 ++ l2) = (let? acc' := foldM f acc l1 in foldM f acc' l2).
Proof. revert acc; induction l1 as [|x l1 IH]; intros acc; simpl; [done|]. by destruct (f acc x). Qed.

(** An invariant of the loop body is an invariant of the loop. *)
Lemma foldM_ind {E A B} (P : B -> Prop) (f : B -> A -> result E B) l acc acc' :
  P acc ->
  (forall b x b', x ∈ l -> P b -> f b x = Ok b' -> P b') ->
  foldM f acc l = Ok acc' -> P acc'.
Proof.
  revert acc; induction l as [|x l IH]; simpl; intros acc H0 Hstep Hf; [by simplify_eq|].
  destruct (f acc x) eqn:Hx; [|done].
  eapply IH; [| |exact Hf].
  - eapply Hstep; [|exact H0|exact Hx]. by left.
  - intros b y b' Hy. apply Hstep. by right.
Qed.

(** The same with the processed prefix, and what is left, in view. *)
Lemma foldM_split_ind {E A B} (P : list A -> B -> Prop) (f : B -> A -> result E B) l acc acc' :
  P [] acc ->
  (forall pre x post b b', l = pre ++ x :: post -> P pre b -> f b x = Ok b' -> P (pre ++ [x]) b') ->
  foldM f acc l = Ok acc' -> P l acc'.
Proof.
  intros H0 Hstep Hf.
  assert (forall post pre b, l = pre ++ post -> P pre b ->
    foldM f b post = Ok acc' -> P l acc') as H; [|by apply (H l [] acc)].
  clear Hf. induction post as [|x post IH]; intros pre b -> HP; simpl.
  - intros. simplify_eq. by rewrite app_nil_r.
  - destruct (f b x) as [b'|] eqn:Hx; [|done]. intros Hf.
    eapply (IH (pre ++ [x])); [by rewrite <- app_assoc| |exact Hf]. by eapply Hstep.
Qed.
Lemma foldM_prefix_ind {E A B} (P : list A -> B -> Prop) (f : B -> A -> result E B) l acc acc' :
  P [] acc ->
  (forall pre x b b', x ∈ l -> P pre b -> f b x = Ok b' -> P (pre ++ [x]) b') ->
  foldM f acc l = Ok acc' -> P l acc'.
Proof.
  intros H0 Hstep. apply foldM_split_ind; [done|].
  intros pre x post b b' ->. apply Hstep. apply elem_of_app. right. by left.
Qed.

(** A loop whose body cannot fail under an invariant it keeps does not fail. *)
Lemma foldM_total_prefix {E A B} (P : list A -> B -> Prop) (f : B -> A -> result E B) l acc :
  P [] acc ->
  (forall pre x post b, l = pre ++ x :: post -> P pre b -> exists b', f b x = Ok b' /\ P (pre ++ [x]) b') ->
  exists acc', foldM f acc l = Ok acc' /\ P l acc'.
Proof.
  intros H0 Hstep. induction l as [|x l IH] using rev_ind; [by exists acc|].
  destruct IH as (b & Hb & HP).
  { intros pre y post b Hl. apply (Hstep pre y (post ++ [x])). by rewrite Hl, <- app_assoc. }
  destruct (Hstep l x [] b) as (b' & Hf & HP'); [done|done|]. exists b'. rewrite foldM_app, Hb. simpl. by rewrite Hf.
Qed.
Lemma foldM_total {E A B} (P : B -> Prop) (f : B -> A -> result E B) l acc :
  P acc -> (forall b x, x ∈ l -> P b -> exists b', f b x = Ok b' /\ P b') ->
  exists acc', foldM f acc l = Ok acc' /\ P acc'.
Proof.
  intros H0 Hstep. apply (foldM_total_prefix (fun _ => P)); [done|].
  intros pre x post b ->. apply Hstep, elem_of_app. right. by left.
Qed.

Lemma list_filter_none {A} (P : A -> Prop) `{forall x, Decision (P x)} (l : list A) :
  (forall x, x ∈ l -> ~ P x) -> filter P l = [].
Proof.
  induction l as [|x l IH]; intros Hl; [done|].
  rewrite filter_cons_False by (apply Hl; by left). apply IH. intros y Hy. apply Hl. by right.
Qed.

Lemma NoDup_map_inj {A B} (f : A -> B) (l : list A) x y :
  NoDup (map f l) -> x ∈ l -> y ∈ l -> f x = f y -> x = y.
Proof.
  intros Hnd Hx Hy E. apply list_elem_of_lookup in Hx as [i Hi], Hy as [j Hj].
  assert (i = j) as ->; [|congruence].
  eapply (NoDup_lookup (map f l) i j (f x)); [done| |].
  - rewrite list_lookup_fmap. by rewrite Hi.
  - rewrite list_lookup_fmap, Hj. simpl. by rewrite E.
Qed.

Lemma mapM_res_Ok {E A B} (f : A -> result E B) l l' :
  mapM_res f l = Ok l' <-> Forall2 (fun x y => f x = Ok y) l l'.
Proof.
  revert l'; induction l as [|x l IH]; simpl; intros l'.
  - split; [intros; by simplify_eq|]. by intros ->%Forall2_nil_inv_l.
  - destruct (f x) as [y|e] eqn:Hx.
    + destruct (mapM_res f l) as [ys|e] eqn:Hl.
      * split; [intros; simplify_eq; constructor; [done|]; by apply IH|].
        intros (y' & ys' & Hy & Hys & ->)%Forall2_cons_inv_l. apply IH in Hys. congruence.
      * split; [done|]. intros (y' & ys' & Hy & Hys & ->)%Forall2_cons_inv_l.
        apply IH in Hys. congruence.
    + split; [done|]. intros (y' & ys' & Hy & Hys & ->)%Forall2_cons_inv_l. congruence.
Qed.

(** *** The byte order on strings *)

Lemma ascii_compare_refl c : Ascii.compare c c = Eq.
Proof. unfold Ascii.compare. apply N.compare_refl. Qed.
Lemma ascii_compare_eq c d : Ascii.compare c d = Eq -> c = d.
Proof. apply Ascii.compare_eq_iff. Qed.

Lemma str_compare_refl s : String.compare s s = Eq.
Proof. induction s as [|c s IH]; simpl; [done|]. by rewrite ascii_compare_refl. Qed.
Lemma str_compare_eq s t : String.compare s t = Eq <-> s = t.
Proof. split; [apply String.compare_eq_iff|]. intros ->. apply str_compare_refl. Qed.
Lemma str_lt_gt s t : String.compare s t = Gt <-> str_lt t s.
Proof.
  unfold str_lt. rewrite String.compare_antisym. by destruct (String.compare t s).
Qed.
Lemma str_lt_irrefl s : ~ str_lt s s.
Proof. unfold str_lt. by rewrite str_compare_refl. Qed.

Lemma str_lt_trans s t u : str_lt s t -> str_lt t u -> str_lt s u.
Proof.
  unfold str_lt. revert t u; induction s as [|c s IH]; intros [|d t] [|e u]; simpl; try done.
  destruct (Ascii.compare c d) eqn:Hcd; destruct (Ascii.compare d e) eqn:Hde; try done.
  - apply ascii_compare_eq in Hcd as ->. rewrite Hde. apply IH.
  - apply ascii_compare_eq in Hcd as ->. by rewrite Hde.
  - apply ascii_compare_eq in Hde as <-. by rewrite Hcd.
  - assert (Ascii.compare c e = Lt) as ->; [|done].
    unfold Ascii.compare in *. rewrite N.compare_lt_iff in *. lia.
Qed.
Lemma str_lt_total s t : str_lt s t \/ s = t \/ str_lt t s.
Proof.
  destruct (String.compare s t) eqn:H.
  - right; left. by apply str_compare_eq.
  - by left.
  - right; right. by apply str_lt_gt.
Qed.
#[export] Instance str_lt_strict : StrictOrder str_lt.
Proof. split; [intros s; apply str_lt_irrefl|]. intros s t u. apply str_lt_trans. Qed.

Lemma str_ltb_spec s t : str_ltb s t = true <-> str_lt s t.
Proof. unfold str_ltb, str_lt. by destruct (String.compare s t). Qed.
Lemma str_leb_spec s t : str_leb s t = true <-> s = t \/ str_lt s t.
Proof.
  unfold str_leb. destruct (String.compare s t) eqn:H.
  - split; [left; by apply str_compare_eq|done].
  - split; [by right|done].
  - split; [done|]. intros [->|H']; [by rewrite str_compare_refl in H|].
    unfold str_lt in H'. congruence.
Qed.
Lemma str_leb_refl s : str_leb s s = true.
Proof. apply str_leb_spec. by left. Qed.
Lemma str_leb_total s t : str_leb s t = true \/ str_leb t s = true.
Proof. rewrite !str_leb_spec. destruct (str_lt_total s t) as [|[|]]; eauto. Qed.
Lemma str_leb_trans s t u :
  str_leb s t = true -> str_leb t u = true -> str_leb s u = true.
Proof.
  rewrite !str_leb_spec. intros [->|H1] [->|H2]; eauto.
  right. by eapply str_lt_trans.
Qed.
Lemma str_leb_antisym s t : str_leb s t = true -> str_leb t s = true -> s = t.
Proof.
  rewrite !str_leb_spec. intros [|H1] [|H2]; eauto.
  destruct (str_lt_irrefl s). by eapply str_lt_trans.
Qed.
#[export] Hint Resolve str_leb_refl : pool.

(** *** Sorting *)

Lemma insert_by_perm {A} (le : A -> A -> bool) x l : insert_by le x l ≡ₚ x :: l.
Proof.
  induction l as [|y l IH]; simpl; [done|]. destruct (le x y); [done|].
  rewrite IH. by constructor.
Qed.
Lemma sort_by_perm {A} (le : A -> A -> bool) l : sort_by le l ≡ₚ l.
Proof. induction l as [|x l IH]; simpl; [done|]. by rewrite insert_by_perm, IH. Qed.
Lemma elem_of_sort_by {A} (le : A -> A -> bool) x l : x ∈ sort_by le l <-> x ∈ l.
Proof. by rewrite sort_by_perm. Qed.
Lemma length_sort_by {A} (le : A -> A -> bool) l : length (sort_by le l) = length l.
Proof. apply Permutation_length, sort_by_perm. Qed.

Section sorting.
Context {A : Type} (le : A -> A -> bool).
Context (Htotal : forall x y, le x y = true \/ le y x = true).
Context (Htrans : forall x y z, le x y = true -> le y z = true -> le x z = true).

Lemma insert_by_sorted x l :
  StronglySorted (fun a b => le a b = true) l ->
  StronglySorted (fun a b => le a b = true) (insert_by le x l).
Proof.
  induction 1 as [|y l Hl IH Hy]; simpl; [repeat constructor|].
  destruct (le x y) eqn:Hxy.
  - constructor; [by constructor|]. constructor; [done|].
    eapply Forall_impl; [exact Hy|]. intros z Hz. by eapply Htrans.
  - constructor; [done|]. rewrite insert_by_perm. constructor; [|done].
    destruct (Htotal x y); congruence.
Qed.
Lemma sort_by_sorted l : StronglySorted (fun a b => le a b = true) (sort_by le l).
Proof. induction l; simpl; [constructor|]. by apply insert_by_sorted. Qed.
(** The first element of a sorted list is a least element. *)
Lemma sort_by_head_least l x l' :
  sort_by le l = x :: l' -> x ∈ l /\ forall y, y ∈ l -> le x y = true.
Proof.
  intros Hs. pose proof (sort_by_sorted l) as Hsorted. rewrite Hs in Hsorted.
  assert (Hperm : x :: l' ≡ₚ l) by (rewrite <- Hs; apply sort_by_perm).
  split; [rewrite <- Hperm; by left|].
  intros y Hy. rewrite <- Hperm in Hy. inversion Hsorted as [|?? _ Hall]; subst.
  apply elem_of_cons in Hy as [->|Hy]; [by destruct (Htotal x x)|].
  rewrite Forall_forall in Hall. by apply Hall.
Qed.
End sorting.

(** *** Maxima *)

Lemma fold_max_spec l x :
  (x <= fold_left Z.max l x)%Z /\
  (forall y, y ∈ l -> (y <= fold_left Z.max l x)%Z) /\
  (fold_left Z.max l x = x \/ fold_left Z.max l x ∈ l).
Proof.
  revert x; induction l as [|y l IH]; intros x; simpl.
  - split_and!; [lia| |by left]. by intros y ?%not_elem_of_nil.
  - destruct (IH (Z.max x y)) as (H1 & H2 & H3). split_and!; [lia| |].
    + intros z [->|Hz]%elem_of_cons; [lia|]. by apply H2.
    + destruct H3 as [H3|H3]; [|right; by right].
      destruct (Z.max_spec x y) as [[_ E]|[_ E]]; rewrite E in *; [right|by left].
      rewrite H3. by left.
Qed.
Lemma max_list_Some l m :
  max_list l = Some m <-> m ∈ l /\ forall y, y ∈ l -> (y <= m)%Z.
Proof.
  destruct l as [|x l]; simpl.
  - split; [done|]. by intros [?%not_elem_of_nil _].
  - destruct (fold_max_spec l x) as (H1 & H2 & H3).
    assert (Hall : forall y, y ∈ x :: l -> (y <= fold_left Z.max l x)%Z).
    { intros y [->|Hy]%elem_of_cons; [done|by apply H2]. }
    assert (Hin : fold_left Z.max l x ∈ x :: l).
    { destruct H3 as [->|H3]; [by left|by right]. }
    split; [intros; by simplify_eq|]. intros [Hm Hle]. f_equal.
    apply Hall in Hm. apply Hle in Hin. lia.
Qed.
Lemma max_list_None l : max_list l = None <-> l = [].
Proof. by destruct l. Qed.
