(* ===== verification/Text.v ===== *)
(** * String operations of the Rust standard library

    The [str] methods the sources use, on byte strings: searching, splitting,
    trimming and the decimal parsers.  [trim] removes ASCII white space, for the
    header texts that can hold no other; [unicode_trim] is [str::trim] on any
    text, reading Unicode's White_Space off the UTF-8 bytes. *)
From stdpp Require Import pretty.
From S2P Require Import Prelude.
Open Scope Z_scope.

(** [str::to_ascii_lowercase]. *)
Definition lower (c : Ascii.ascii) : Ascii.ascii :=
  let k := Ascii.N_of_ascii c in if N.leb 65 k && N.leb k 90 then Ascii.ascii_of_N (k + 32) else c.
Fixpoint to_ascii_lowercase (s : string) : string :=
  match s with
  | EmptyString => EmptyString
  | String c s' => String (lower c) (to_ascii_lowercase s')
  end.
(** [str::eq_ignore_ascii_case]. *)
Definition eq_ignore_ascii_case (s t : string) : bool :=
  String.eqb (to_ascii_lowercase s) (to_ascii_lowercase t).

(** [hay.contains(needle)]. *)
Fixpoint str_contains (needle hay : string) : bool :=
  String.prefix needle hay ||
  match hay with EmptyString => false | String _ hay' => str_contains needle hay' end.

Fixpoint strip_prefix (p s : string) : option string :=
  match p, s with
  | EmptyString, _ => Some s
  | String a p', String b s' => if Ascii.eqb a b then strip_prefix p' s' else None
  | String _ _, EmptyString => None
  end.
Fixpoint rev_string (acc s : string) : string :=
  match s with EmptyString => acc | String c s' => rev_string (String c acc) s' end.
Abbreviation str_rev := (rev_string EmptyString).
Definition strip_suffix (p s : string) : option string := str_rev <$> strip_prefix (str_rev p) (str_rev s).

(** [s.split(c)]: always at least one piece. *)
Fixpoint split_on (c : Ascii.ascii) (s : string) : list string :=
  match s with
  | EmptyString => [EmptyString]
  | String x s' =>
      if Ascii.eqb x c then EmptyString :: split_on c s'
      else match split_on c s' with
           | [] => [String x EmptyString]
           | piece :: rest => String x piece :: rest
           end
  end.
(** The line feed. *)
Definition nl : Ascii.ascii := Ascii.ascii_of_N 10.
(** [str::lines]: pieces ended by a line feed, a carriage return before it
    dropped; no piece after the last line feed. *)
Definition cr : string := String (Ascii.ascii_of_N 13) EmptyString.
Definition drop_empty_last (l : list string) : list string :=
  match last l with Some EmptyString => removelast l | _ => l end.
Definition str_lines (s : string) : list string :=
  map (fun line => default line (strip_suffix cr line)) (drop_empty_last (split_on nl s)).
(** [s.split_once(sep)]. *)
Fixpoint split_once (sep s : string) : option (string * string) :=
  match strip_prefix sep s with
  | Some rest => Some (EmptyString, rest)
  | None =>
      match s with
      | EmptyString => None
      | String c s' => match split_once sep s' with Some (a, b) => Some (String c a, b) | None => None end
      end
  end.

Fixpoint trim_start_matches (p : Ascii.ascii -> bool) (s : string) : string :=
  match s with
  | EmptyString => EmptyString
  | String c s' => if p c then trim_start_matches p s' else s
  end.
Definition trim_end_matches (p : Ascii.ascii -> bool) (s : string) : string :=
  str_rev (trim_start_matches p (str_rev s)).
Definition is_space (c : Ascii.ascii) : bool :=
  let k := Ascii.N_of_ascii c in (N.leb 9 k && N.leb k 13) || N.eqb k 32.
Definition trim (s : string) : string := trim_end_matches is_space (trim_start_matches is_space s).

(** ** Unicode white space *)

Definition byte (c : Ascii.ascii) : Z := Z.of_N (Ascii.N_of_ascii c).
Definition ascii_space (c : Z) : bool := ((9 <=? c) && (c <=? 13)) || (c =? 32).
Definition two_byte_space (c d : Z) : bool := (c =? 194) && ((d =? 133) || (d =? 160)).
Definition three_byte_space (c d e : Z) : bool :=
  ((c =? 225) && (d =? 154) && (e =? 128)) ||
  ((c =? 226) && (d =? 128) && (((128 <=? e) && (e <=? 138)) || (e =? 168) || (e =? 169) || (e =? 175))) ||
  ((c =? 226) && (d =? 129) && (e =? 159)) ||
  ((c =? 227) && (d =? 128) && (e =? 128)).
(** [s.trim_start()]. *)
Fixpoint unicode_trim_start (s : string) : string :=
  match s with
  | EmptyString => EmptyString
  | String c s1 =>
      if ascii_space (byte c) then unicode_trim_start s1
      else match s1 with
      | EmptyString => s
      | String d s2 =>
          if two_byte_space (byte c) (byte d) then unicode_trim_start s2
          else match s2 with
          | EmptyString => s
          | String e s3 => if three_byte_space (byte c) (byte d) (byte e) then unicode_trim_start s3 else s
          end
      end
  end.
Definition is_empty (s : string) : bool := match s with EmptyString => true | String _ _ => false end.
(** [s.trim().is_empty()]: every character is white space. *)
Definition trim_is_empty (s : string) : bool := is_empty (unicode_trim_start s).
(** [s.trim_end()]: what is left before the longest blank suffix.  A suffix that
    starts inside a character is not blank. *)
Fixpoint unicode_trim_end (s : string) : string :=
  if trim_is_empty s then EmptyString
  else match s with EmptyString => EmptyString | String c s' => String c (unicode_trim_end s') end.
Definition unicode_trim (s : string) : string := unicode_trim_end (unicode_trim_start s).
(** [s.contains(char::is_whitespace)]. *)
Fixpoint contains_whitespace (s : string) : bool :=
  match s with
  | EmptyString => false
  | String c s1 =>
      ascii_space (byte c) ||
      (match s1 with
       | String d s2 => two_byte_space (byte c) (byte d) ||
           (match s2 with String e _ => three_byte_space (byte c) (byte d) (byte e) | EmptyString => false end)
       | EmptyString => false
       end) || contains_whitespace s1
  end.

(** [char::to_digit]. *)
Definition to_digit (radix : Z) (c : Ascii.ascii) : option Z :=
  let k := byte c in
  let d := if (48 <=? k) && (k <=? 57) then k - 48
           else if (97 <=? k) && (k <=? 122) then k - 87
           else if (65 <=? k) && (k <=? 90) then k - 55 else radix in
  if d <? radix then Some d else None.

(** [str::parse] at an unsigned type with maximum [max]: an optional plus sign,
    then digits, failing as soon as the value leaves the type. *)
Fixpoint digits_from (max acc : Z) (s : string) : option Z :=
  match s with
  | EmptyString => Some acc
  | String c s' =>
      if is_ascii_digit c then
        let acc' := acc * 10 + (Z.of_N (Ascii.N_of_ascii c) - 48) in
        if acc' <=? max then digits_from max acc' s' else None
      else None
  end.
Definition parse_unsigned (max : Z) (s : string) : option Z :=
  match s with
  | EmptyString => None
  | String c s' =>
      if N.eqb (Ascii.N_of_ascii c) 43
      then match s' with EmptyString => None | _ => digits_from max 0 s' end
      else digits_from max 0 s
  end.
Abbreviation parse_u64 := (parse_unsigned u64_max).
Abbreviation parse_u128 := (parse_unsigned u128_max).

(** ** Lemmas *)

Lemma digits_from_range max s acc n : 0 <= acc <= max -> digits_from max acc s = Some n -> 0 <= n <= max.
Proof.
  revert acc; induction s as [|c s IH]; simpl; intros acc Hacc; [intros [= <-]; done|].
  destruct (is_ascii_digit c) eqn:Hd; [|done].
  destruct (Z.leb_spec (acc * 10 + (Z.of_N (Ascii.N_of_ascii c) - 48)) max); [|done].
  apply IH. unfold is_ascii_digit in Hd. apply andb_true_iff in Hd as [H1%N.leb_le H2%N.leb_le]. lia.
Qed.
Lemma parse_unsigned_range max s n : 0 <= max -> parse_unsigned max s = Some n -> 0 <= n <= max.
Proof.
  intros Hm. destruct s as [|c s]; [done|]. cbn [parse_unsigned].
  destruct (N.eqb (Ascii.N_of_ascii c) 43); [destruct s; [done|]|]; apply digits_from_range; lia.
Qed.

Lemma strip_prefix_Some p s t : strip_prefix p s = Some t <-> s = String.append p t.
Proof.
  revert s; induction p as [|a p IH]; intros s; simpl; [split; [by intros [= ->]|by intros ->]|].
  destruct s as [|b s]; [split; done|]. destruct (Ascii.eqb_spec a b) as [->|Hne].
  - rewrite IH. split; [by intros ->|]. by intros [= ->].
  - split; [done|]. by intros [= ->].
Qed.

Lemma to_ascii_lowercase_idem s : to_ascii_lowercase (to_ascii_lowercase s) = to_ascii_lowercase s.
Proof.
  induction s as [|c s IH]; simpl; [done|]. rewrite IH. f_equal. clear.
  destruct c as [[] [] [] [] [] [] [] []]; reflexivity.
Qed.
Lemma eq_ignore_ascii_case_refl s : eq_ignore_ascii_case s s = true.
Proof. apply String.eqb_refl. Qed.

(** [to_string] on an unsigned integer is digits. *)
Lemma pretty_char_is_digit x : (x < 10)%N -> is_ascii_digit (pretty_N_char x) = true.
Proof.
  intros Hx. assert (x ∈ [0;1;2;3;4;5;6;7;8;9]%N) as Hin.
  { destruct (decide (x = 0 \/ x = 1 \/ x = 2 \/ x = 3 \/ x = 4)%N); [set_solver|].
    assert (x = 5 \/ x = 6 \/ x = 7 \/ x = 8 \/ x = 9)%N by lia. set_solver. }
  repeat (apply elem_of_cons in Hin as [->|Hin]; [by vm_compute|]). by apply not_elem_of_nil in Hin.
Qed.
Lemma pretty_digits (x : N) : all_bytes is_ascii_digit (pretty x) = true.
Proof.
  assert (H : forall s, all_bytes is_ascii_digit s = true -> all_bytes is_ascii_digit (pretty_N_go x s) = true).
  { induction (N.lt_wf_0 x) as [x _ IH]; intros s Hs.
    destruct (decide (x = 0)%N) as [->|Hx]; [by rewrite pretty_N_go_0|].
    rewrite pretty_N_go_step by lia. apply IH; [by apply N.div_lt; lia|]. simpl. by rewrite pretty_char_is_digit by (by apply N.mod_lt). }
  unfold pretty, pretty_N. case_decide; [done|]. by apply H.
Qed.
Lemma all_bytes_impl (p q : Ascii.ascii -> bool) s : (forall c, p c = true -> q c = true) -> all_bytes p s = true -> all_bytes q s = true.
Proof. intros Hpq. induction s as [|c s IH]; [done|]. cbn. rewrite !andb_true_iff. intros [? ?]. auto. Qed.

(** ** Texts put together and split *)

Lemma append_assoc (a b c : string) : String.append (String.append a b) c = String.append a (String.append b c).
Proof. 
  induction a as [|x a IH]; [done|]. change (String x (String.append (String.append a b) c) = String x (String.append a (String.append b c))).
  by rewrite IH.
Qed.
Lemma append_empty s : String.append s "" = s.
Proof. induction s as [|c s IH]; [done|]. change (String.append (String c s) "") with (String c (String.append s "")). by rewrite IH. Qed.
Lemma length_append s t : String.length (String.append s t) = (String.length s + String.length t)%nat.
Proof. induction s as [|c s IH]; [done|]. change (S (String.length (String.append s t)) = S (String.length s + String.length t)). by rewrite IH. Qed.
Lemma all_bytes_app p s t : all_bytes p (String.append s t) = all_bytes p s && all_bytes p t.
Proof. induction s as [|c s IH]; simpl; [done|]. by rewrite IH, andb_assoc. Qed.
Lemma strip_prefix_append p s : strip_prefix p (String.append p s) = Some s.
Proof. by apply strip_prefix_Some. Qed.

Definition avoids (h : Ascii.ascii) (s : string) : Prop := all_bytes (fun c => negb (Ascii.eqb h c)) s = true.
(** A text is split at the first delimiter, when the part before has none. *)
Lemma split_once_append h sep a b : avoids h a ->
  split_once (String h sep) (String.append a (String.append (String h sep) b)) = Some (a, b).
Proof.
  unfold avoids. induction a as [|c a IH]; intros Ha.
  - change (String.append "" ?x) with x. destruct (String.append (String h sep) b) eqn:E; [done|]. cbn [split_once].
    by rewrite <- E, strip_prefix_append.
  - simpl in Ha. apply andb_true_iff in Ha as [Hc Ha]. apply negb_true_iff in Hc.
    change (String.append (String c a) ?x) with (String c (String.append a x)). cbn [split_once strip_prefix].
    by rewrite Hc, (IH Ha).
Qed.
Lemma pretty_avoids h (n : N) : is_ascii_digit h = false -> avoids h (pretty n).
Proof.
  intros Hh. eapply all_bytes_impl; [|apply pretty_digits]. intros c Hc. destruct (Ascii.eqb_spec h c) as [->|]; [congruence|done].
Qed.
Lemma line_inj a b s t : avoids nl a -> avoids nl b ->
  String.append a (String.append (String nl "") s) = String.append b (String.append (String nl "") t) -> a = b /\ s = t.
Proof.
  intros Ha Hb H. pose proof (split_once_append nl "" a s Ha) as E1. pose proof (split_once_append nl "" b t Hb) as E2.
  rewrite H in E1. rewrite E1 in E2. by injection E2.
Qed.
