(* ===== verification/BTreeMap.v ===== *)
(** * Ordered maps

    [std::collections::BTreeMap<String, V>] as a key-sorted association list:
    [get], [insert], [contains_key], the iteration order of [iter()] and
    [keys()], and the [entry(k).or_insert(d)] update.  The sources key every
    [BTreeMap] by a [String], whose [Ord] is the byte order of the prelude.

    The lemmas are the map laws (lookup after insert, extensionality of
    well-formed maps) and the rule that a map built by inserts from the empty
    map is well formed. *)
From S2P Require Import Prelude.

Definition btree (V : Type) : Type := list (string * V).

Definition bt_empty {V} : btree V := [].

Fixpoint bt_get {V} (k : string) (m : btree V) : option V :=
  match m with
  | [] => None
  | (k', v) :: m' => if decide (k = k') then Some v else bt_get k m'
  end.

Fixpoint bt_insert {V} (k : string) (v : V) (m : btree V) : btree V :=
  match m with
  | [] => [(k, v)]
  | (k', v') :: m' =>
      match String.compare k k' with
      | Eq => (k, v) :: m'
      | Lt => (k, v) :: m
      | Gt => (k', v') :: bt_insert k v m'
      end
  end.

Definition bt_contains {V} (k : string) (m : btree V) : bool :=
  match bt_get k m with Some _ => true | None => false end.

Definition bt_keys {V} (m : btree V) : list string := m.*1.

(** The update [entry(k).or_insert(d)] followed by an in-place change by [f]. *)
Definition bt_entry {V} (k : string) (d : V) (f : V -> V) (m : btree V) : btree V :=
  bt_insert k (f (default d (bt_get k m))) m.

(** [iter.collect::<BTreeMap<_, _>>()]: a later duplicate key replaces an
    earlier one. *)
Definition bt_collect {V} (l : list (string * V)) : btree V :=
  fold_left (fun m kv => bt_insert kv.1 kv.2 m) l bt_empty.

(** [m.iter().map(|(k, v)| (k.clone(), f(k, v))).collect()]. *)
Definition bt_map {V W} (f : string -> V -> W) (m : btree V) : btree W :=
  map (fun kv => (kv.1, f kv.1 kv.2)) m.

(** Keys strictly increasing: the representation invariant. *)
Definition bt_wf {V} (m : btree V) : Prop := StronglySorted str_lt (bt_keys m).

Section laws.
Context {V : Type}.
Implicit Types (m : btree V) (k : string) (v : V).

Lemma bt_wf_empty : bt_wf (@bt_empty V).
Proof. constructor. Qed.

Lemma bt_keys_insert k v m k' :
  k' ∈ bt_keys (bt_insert k v m) <-> k' = k \/ k' ∈ bt_keys m.
Proof.
  induction m as [|[k1 v1] m IH]; simpl.
  - unfold bt_keys; simpl. rewrite elem_of_cons, elem_of_nil. tauto.
  - destruct (String.compare k k1) eqn:Hc; unfold bt_keys in *; simpl;
      rewrite ?elem_of_cons, ?IH; try tauto.
    apply str_compare_eq in Hc as ->. tauto.
Qed.

Lemma bt_elem_insert k v m k' v' : (k', v') ∈ bt_insert k v m -> (k' = k /\ v' = v) \/ (k', v') ∈ m.
Proof.
  induction m as [|[k0 v0] m IH]; simpl; [rewrite list_elem_of_singleton; naive_solver|].
  destruct (String.compare k k0); rewrite ?elem_of_cons; naive_solver.
Qed.
Lemma bt_insert_wf k v m : bt_wf m -> bt_wf (bt_insert k v m).
Proof.
  unfold bt_wf. induction m as [|[k1 v1] m IH]; simpl; intros Hwf.
  - repeat constructor.
  - inversion Hwf as [|?? Hm Hk1]; subst.
    destruct (String.compare k k1) eqn:Hc.
    + apply str_compare_eq in Hc as ->. by constructor.
    + constructor; [done|]. constructor; [done|].
      eapply Forall_impl; [exact Hk1|]. intros k2 Hk2. by eapply str_lt_trans.
    + constructor; [by apply IH|]. apply Forall_forall. intros k2.
      change ((bt_insert k v m).*1) with (bt_keys (bt_insert k v m)).
      rewrite bt_keys_insert. rewrite Forall_forall in Hk1. intros [->|Hk2].
      * by apply str_lt_gt.
      * by apply Hk1.
Qed.

Lemma bt_get_insert_eq k v m : bt_get k (bt_insert k v m) = Some v.
Proof.
  induction m as [|[k1 v1] m IH]; simpl; [by rewrite decide_True|].
  destruct (String.compare k k1) eqn:Hc; simpl; rewrite ?(decide_True _ _ (eq_refl k)); try done.
  rewrite decide_False; [done|]. intros ->. by rewrite str_compare_refl in Hc.
Qed.
Lemma bt_get_insert_ne k k' v m : k' <> k -> bt_get k' (bt_insert k v m) = bt_get k' m.
Proof.
  intros Hne. induction m as [|[k1 v1] m IH]; simpl; [by rewrite decide_False|].
  destruct (String.compare k k1) eqn:Hc; simpl.
  - apply str_compare_eq in Hc as ->. by rewrite !decide_False.
  - by rewrite (decide_False (P := k' = k)).
  - case_decide; [done|]. apply IH.
Qed.
Lemma bt_get_insert k k' v m :
  bt_get k' (bt_insert k v m) = if decide (k' = k) then Some v else bt_get k' m.
Proof.
  case_decide; subst; [apply bt_get_insert_eq|by apply bt_get_insert_ne].
Qed.

Lemma bt_get_elem k v m : bt_get k m = Some v -> (k, v) ∈ m.
Proof.
  induction m as [|[k1 v1] m IH]; simpl; [done|].
  case_decide; intros; simplify_eq; [by left|right; by apply IH].
Qed.
Lemma bt_get_None k m : bt_get k m = None <-> k ∉ bt_keys m.
Proof.
  induction m as [|[k1 v1] m IH]; unfold bt_keys in *; simpl.
  - split; [|done]. intros _ ?%not_elem_of_nil. done.
  - rewrite elem_of_cons. case_decide; subst; [|rewrite IH; tauto].
    split; [done|]. intros []. by left.
Qed.
Lemma bt_get_is_Some k m : is_Some (bt_get k m) <-> k ∈ bt_keys m.
Proof.
  destruct (bt_get k m) as [v|] eqn:Hk.
  - split; [intros _|by eexists]. apply bt_get_elem in Hk.
    apply list_elem_of_fmap. by exists (k, v).
  - apply bt_get_None in Hk. split; [by intros []|done].
Qed.

Lemma bt_wf_cons k v m :
  bt_wf ((k, v) :: m) <-> bt_wf m /\ forall k', k' ∈ bt_keys m -> str_lt k k'.
Proof.
  unfold bt_wf; simpl. split.
  - inversion 1 as [|?? Hm Hk]; subst. split; [done|]. intros k' Hk'.
    rewrite Forall_forall in Hk. by apply Hk.
  - intros [Hm Hk]. constructor; [done|]. apply Forall_forall.
    intros k' Hk'. by apply Hk.
Qed.
Lemma bt_elem_get k v m : bt_wf m -> (k, v) ∈ m -> bt_get k m = Some v.
Proof.
  induction m as [|[k1 v1] m IH]; simpl; [by intros _ ?%not_elem_of_nil|].
  rewrite bt_wf_cons. intros [Hm Hk1] [?|Hin]%elem_of_cons; simplify_eq.
  - by rewrite decide_True.
  - rewrite decide_False; [by apply IH|]. intros ->.
    apply (str_lt_irrefl k1), Hk1. apply list_elem_of_fmap. by exists (k1, v).
Qed.
Lemma bt_get_elem_iff k v m : bt_wf m -> bt_get k m = Some v <-> (k, v) ∈ m.
Proof. split; [apply bt_get_elem|by apply bt_elem_get]. Qed.

Lemma bt_keys_NoDup m : bt_wf m -> NoDup (bt_keys m).
Proof.
  unfold bt_wf. induction 1 as [|k l Hl IH Hk]; constructor; [|done].
  rewrite Forall_forall in Hk. intros Hin.
  by apply (str_lt_irrefl k), Hk.
Qed.

(** Two well-formed maps with the same lookups are the same list, so iteration
    order is a function of the contents. *)
Lemma bt_ext (m1 m2 : btree V) :
  bt_wf m1 -> bt_wf m2 -> (forall k, bt_get k m1 = bt_get k m2) -> m1 = m2.
Proof.
  revert m2; induction m1 as [|[k1 v1] m1 IH]; intros [|[k2 v2] m2] H1 H2 Hg; [done| | |].
  - specialize (Hg k2). simpl in Hg. by rewrite decide_True in Hg.
  - specialize (Hg k1). simpl in Hg. by rewrite decide_True in Hg.
  - apply bt_wf_cons in H1 as [H1 Hk1], H2 as [H2 Hk2].
    assert (k1 = k2) as ->.
    { destruct (str_lt_total k1 k2) as [Hlt|[?|Hlt]]; [|done|]; exfalso.
      - pose proof (Hg k1) as Hg1. simpl in Hg1. rewrite decide_True in Hg1 by done.
        rewrite decide_False in Hg1 by (intros ->; by eapply str_lt_irrefl).
        apply (str_lt_irrefl k1). transitivity k2; [done|].
        apply Hk2, bt_get_is_Some. rewrite <- Hg1. by eexists.
      - pose proof (Hg k2) as Hg1. simpl in Hg1.
        rewrite (decide_True (P := k2 = k2)) in Hg1 by done.
        rewrite decide_False in Hg1 by (intros ->; by eapply str_lt_irrefl).
        apply (str_lt_irrefl k2). transitivity k1; [done|].
        apply Hk1, bt_get_is_Some. rewrite Hg1. by eexists. }
    assert (v1 = v2) as ->.
    { specialize (Hg k2). simpl in Hg. rewrite !decide_True in Hg by done. by simplify_eq. }
    f_equal. apply IH; [done..|]. intros k. specialize (Hg k). simpl in Hg.
    case_decide; [|done]. subst.
    assert (forall m, (forall k', k' ∈ bt_keys m -> str_lt k2 k') -> bt_get k2 m = None) as HN.
    { intros m Hm. apply bt_get_None. intros Hin%Hm. by eapply str_lt_irrefl. }
    by rewrite !HN.
Qed.

Lemma bt_collect_wf (l : list (string * V)) : bt_wf (bt_collect l).
Proof.
  unfold bt_collect. assert (forall m, bt_wf m ->
    bt_wf (fold_left (fun m kv => bt_insert kv.1 kv.2 m) l m)) as H; [|apply H, bt_wf_empty].
  induction l as [|kv l IH]; simpl; [done|]. intros m Hm. by apply IH, bt_insert_wf.
Qed.

Lemma bt_collect_keys (l : list (string * V)) k :
  k ∈ bt_keys (bt_collect l) <-> k ∈ l.*1.
Proof.
  unfold bt_collect. assert (forall m, k ∈ bt_keys
    (fold_left (fun m kv => bt_insert kv.1 kv.2 m) l m) <-> k ∈ l.*1 \/ k ∈ bt_keys m) as H.
  { induction l as [|kv l IH]; simpl; intros m; [rewrite elem_of_nil; tauto|].
    rewrite IH, bt_keys_insert, elem_of_cons. tauto. }
  rewrite H. unfold bt_keys, bt_empty; simpl. rewrite elem_of_nil. tauto.
Qed.
End laws.

Lemma bt_map_keys {V W} (f : string -> V -> W) (m : btree V) : bt_keys (bt_map f m) = bt_keys m.
Proof. unfold bt_keys, bt_map. induction m as [|[k v] m IH]; simpl; [done|]. by f_equal. Qed.
Lemma bt_map_wf {V W} (f : string -> V -> W) (m : btree V) : bt_wf m -> bt_wf (bt_map f m).
Proof. unfold bt_wf. by rewrite bt_map_keys. Qed.
Lemma bt_get_map {V W} (f : string -> V -> W) (m : btree V) k :
  bt_get k (bt_map f m) = f k <$> bt_get k m.
Proof.
  induction m as [|[k1 v1] m IH]; simpl; [done|]. case_decide; subst; [done|apply IH].
Qed.

(** Collecting the entries of a map in its own order gives the map back. *)
Lemma bt_insert_last {V} k (v : V) (m : btree V) :
  (forall k', k' ∈ bt_keys m -> str_lt k' k) -> bt_insert k v m = m ++ [(k, v)].
Proof.
  induction m as [|[k1 v1] m IH]; intros Hlt; simpl; [done|].
  assert (String.compare k k1 = Gt) as ->; [|rewrite IH; [done|]; intros k' Hk'; apply Hlt; by right].
  apply str_lt_gt, Hlt. by left.
Qed.
Lemma bt_collect_id {V} (m : btree V) : bt_wf m -> bt_collect m = m.
Proof.
  intros Hwf. unfold bt_collect.
  assert (forall post pre, pre ++ post = m -> fold_left (fun m kv => bt_insert kv.1 kv.2 m) post pre = m) as H;
    [|by apply (H m [])].
  induction post as [|[k v] post IH]; intros pre Hm; simpl; [by rewrite app_nil_r in Hm|].
  rewrite bt_insert_last; [apply IH; rewrite <- app_assoc; exact Hm|].
  intros k' Hk'. unfold bt_wf, bt_keys in *. rewrite <- Hm, fmap_app in Hwf. simpl in Hwf.
  clear -Hwf Hk'. induction pre as [|[k1 v1] pre IH]; simpl in *; [by apply not_elem_of_nil in Hk'|].
  inversion Hwf as [|?? Hs Hall]; subst. apply elem_of_cons in Hk' as [->|Hk']; [|by apply IH].
  rewrite Forall_forall in Hall. apply Hall, elem_of_app. right. by left.
Qed.

#[export] Instance btree_eq_dec {V} `{EqDecision V} : EqDecision (btree V).
Proof. unfold btree. solve_decision. Defined.

#[export] Hint Resolve bt_wf_empty bt_insert_wf bt_collect_wf bt_map_wf : pool.
