(* ===== verification/Json.v ===== *)
(** * JSON values

    The data type [serde_json::Value] and the accessors the sources use on it.
    [serde_json] is third-party code: its type and accessor behaviour are
    modelled because the sources traverse values directly, while its printer
    ([Value::to_string]) stays a parameter wherever it is used.  Objects are
    [BTreeMap]s (the workspace does not enable [preserve_order]). *)
From S2P Require Import Prelude BTreeMap.

(** [serde_json::Number]: a non-negative integer, a negative integer, or a
    double given by its bit pattern. *)
Inductive Number := PosInt (n : Z) | NegInt (n : Z) | Float (bits : Z).

Inductive Value :=
| JNull
| JBool (b : bool)
| JNumber (n : Number)
| JString (s : string)
| JArray (l : list Value)
| JObject (m : list (string * Value)).

#[export] Instance Number_eq_dec : EqDecision Number.
Proof. solve_decision. Defined.
(** [Value]'s equality; the derived principle does not reach into the lists. *)
#[export] Instance Value_eq_dec : EqDecision Value.
Proof.
  refine (fix go (v w : Value) : Decision (v = w) :=
    match v, w with
    | JNull, JNull => left eq_refl
    | JBool a, JBool b => cast_if (decide (a = b))
    | JNumber a, JNumber b => cast_if (decide (a = b))
    | JString a, JString b => cast_if (decide (a = b))
    | JArray a, JArray b => cast_if (@list_eq_dec _ go a b)
    | JObject a, JObject b =>
        cast_if (@list_eq_dec _ (fun a1 b1 => match decide (a1.1 = b1.1), go a1.2 b1.2 with left _, left _ => left _ | _, _ => right _ end) a b)
    | _, _ => right _
    end); try congruence; destruct a1, b1; simpl in *; congruence.
Defined.

(** [Value::get] with a string index. *)
Definition json_get (key : string) (v : Value) : option Value :=
  match v with JObject m => bt_get key m | _ => None end.
Definition json_as_str (v : Value) : option string :=
  match v with JString s => Some s | _ => None end.
Definition json_as_u64 (v : Value) : option Z :=
  match v with JNumber (PosInt n) => Some n | _ => None end.
Definition json_as_i64 (v : Value) : option Z :=
  match v with
  | JNumber (PosInt n) => if (n <=? i64_max)%Z then Some n else None
  | JNumber (NegInt n) => Some n
  | _ => None
  end.
Definition json_as_bool (v : Value) : option bool :=
  match v with JBool b => Some b | _ => None end.
Definition json_as_array (v : Value) : option (list Value) :=
  match v with JArray l => Some l | _ => None end.
Definition json_as_object (v : Value) : option (btree Value) :=
  match v with JObject m => Some m | _ => None end.
Definition json_is_null (v : Value) : bool :=
  match v with JNull => true | _ => false end.
Definition json_is_string (v : Value) : bool :=
  match v with JString _ => true | _ => false end.
Definition json_is_u64 (v : Value) : bool :=
  match v with JNumber (PosInt _) => true | _ => false end.

(** [value.get(k1).and_then(|v| v.get(k2))...]. *)
Fixpoint json_path (keys : list string) (v : Value) : option Value :=
  match keys with
  | [] => Some v
  | k :: keys' => match json_get k v with Some v' => json_path keys' v' | None => None end
  end.

(** [option.and_then(f)]. *)
Definition and_then {A B} (o : option A) (f : A -> option B) : option B :=
  match o with Some a => f a | None => None end.

(** [json!] on an object and on an unsigned integer. *)
Definition json_object (entries : list (string * Value)) : Value := JObject (bt_collect entries).
Definition json_u64 (n : Z) : Value := JNumber (PosInt n).

(** ** Values as serde_json can hold them

    [serde_json]'s own invariants: a non-negative integer is a [u64], a negative
    one an [i64], and an object is a [BTreeMap].  Every value a parser returns
    or a [json!] builds satisfies [json_ok]; theorems that need a bound take it
    as a hypothesis on the document. *)

Fixpoint keys_increasing (l : list string) : bool :=
  match l with
  | k :: ((k' :: _) as l') => str_ltb k k' && keys_increasing l'
  | _ => true
  end.

Fixpoint json_ok (v : Value) : bool :=
  match v with
  | JNumber (PosInt n) => is_u64 n
  | JNumber (NegInt n) => (i64_min <=? n)%Z && (n <? 0)%Z
  | JArray l => forallb json_ok l
  | JObject m => keys_increasing (bt_keys m) && forallb (fun kv => json_ok kv.2) m
  | _ => true
  end.

Lemma str_ltb_lt s t : str_ltb s t = true <-> str_lt s t.
Proof. unfold str_ltb, str_lt. by destruct (String.compare s t). Qed.

Lemma keys_increasing_sorted l : keys_increasing l = true -> StronglySorted str_lt l.
Proof.
  intros H. apply Sorted_StronglySorted; [intros a b c; apply str_lt_trans|].
  induction l as [|k [|k' l] IH]; [constructor|by constructor|].
  simpl in H. apply andb_true_iff in H as [Hk H]. constructor; [by apply IH|].
  constructor. by apply str_ltb_lt.
Qed.

Lemma json_ok_object m : json_ok (JObject m) = true ->
  bt_wf m /\ forall k v, (k, v) ∈ m -> json_ok v = true.
Proof.
  simpl. intros [Hs Hall]%andb_true_iff. split; [by apply keys_increasing_sorted|].
  intros k v Hkv. rewrite forallb_forall in Hall. apply list_elem_of_In in Hkv. apply (Hall _ Hkv).
Qed.
Lemma json_ok_get k v x : json_ok v = true -> json_get k v = Some x -> json_ok x = true.
Proof. destruct v; try done. intros [_ H]%json_ok_object Hg%bt_get_elem. by apply (H k). Qed.
Lemma json_ok_path ks v x : json_ok v = true -> json_path ks v = Some x -> json_ok x = true.
Proof.
  revert v; induction ks as [|k ks IH]; simpl; intros v Hv; [congruence|].
  destruct (json_get k v) as [v'|] eqn:Hk; [|done]. apply IH. by eapply json_ok_get.
Qed.
Lemma json_ok_array l x : json_ok (JArray l) = true -> x ∈ l -> json_ok x = true.
Proof. simpl. rewrite forallb_forall. intros H Hx. apply H. by apply list_elem_of_In. Qed.
Lemma json_ok_u64 v n : json_ok v = true -> json_as_u64 v = Some n -> is_u64 n = true.
Proof. destruct v as [| |[m|m|b]| | |]; try done. simpl. intros H [= <-]. exact H. Qed.
Lemma json_ok_elements v l : json_ok v = true -> json_as_array v = Some l -> Forall (fun x => json_ok x = true) l.
Proof.
  destruct v; try done. intros H [= <-]. apply Forall_forall. intros x. by apply json_ok_array.
Qed.
Lemma json_ok_fields v m : json_ok v = true -> json_as_object v = Some m ->
  bt_wf m /\ forall k x, (k, x) ∈ m -> json_ok x = true.
Proof. destruct v; try done. intros H [= <-]. by apply json_ok_object. Qed.
#[export] Hint Resolve json_ok_get json_ok_path json_ok_u64 : pool.

(** Two-step accessors, as the sources chain them. *)
Lemma and_then_Some {A B} (o : option A) (f : A -> option B) b :
  and_then o f = Some b <-> exists a, o = Some a /\ f a = Some b.
Proof. destruct o; simpl; [|naive_solver]. split; [eauto|]. by intros (a' & [= <-] & ?). Qed.
