(* ===== verification/ReadPolicy.v ===== *)
(** * The read budget: [crates/tig-client/src/limits.rs]

    How one per-IP budget is divided between the processes that read TIG, and
    what a client may be built with.  A [Duration] is its nanoseconds; [usize]
    is 64 bits.  The text parser ([serde_json::from_str]) and the message serde
    gives for a value it refuses are parameters; the derived deserialisers are
    written out, including that serde also accepts a struct as an array of its
    fields in order. *)
From S2P Require Import Prelude BTreeMap Json.
Open Scope Z_scope.

Inductive TigReader := Controller | Gateway.
Definition all_readers : list TigReader := [Controller; Gateway].
Definition reader_as_str (r : TigReader) : string :=
  match r with Controller => "controller" | Gateway => "gateway" end.

Record ReadLimits := MkLimits {
  rl_requests_per_second : Z;
  rl_burst : Z;
  rl_max_concurrent : Z;
  rl_connect_timeout : Z;
  rl_attempt_timeout : Z;
  rl_call_deadline : Z;
  rl_max_backoff : Z;
  rl_max_attempts : Z;
}.

Record ReadPolicy := MkPolicy {
  po_ceiling : ReadLimits;
  po_controller : ReadLimits;
  po_gateway : ReadLimits;
  po_block_poll_interval : Z;
}.

Inductive PolicyError :=
| Unparseable (e : string)
| Missing (path : string)
| WrongType (path expected : string)
| SharesExceedCeiling (rate ceiling_rate burst ceiling_burst concurrent ceiling_concurrent : Z).

(** ** The wire shapes *)

Definition NANOS : Z := 10 ^ 9.
(** [Duration::from_secs]. *)
Definition from_secs (s : Z) : Z := s * NANOS.

(** One field: its name and the largest value of its type. *)
Definition ceiling_fields : list (string * Z) :=
  [("requests_per_second", u32_max); ("burst", u32_max); ("max_concurrent", u64_max);
   ("connect_timeout_seconds", u64_max); ("attempt_timeout_seconds", u64_max);
   ("call_deadline_seconds", u64_max); ("max_backoff_seconds", u64_max); ("max_attempts", u32_max)].
Definition share_fields : list (string * Z) :=
  [("requests_per_second", u32_max); ("burst", u32_max); ("max_concurrent", u64_max)].

Definition uint_at (max : Z) (v : Value) : option Z :=
  match json_as_u64 v with Some n => if n <=? max then Some n else None | None => None end.

(** [#[derive(Deserialize)] #[serde(deny_unknown_fields)]] of a struct whose
    fields are all required unsigned integers: an object with exactly those
    keys, or an array with exactly those elements. *)
Definition deserialize_fields (fields : list (string * Z)) (v : Value) : option (list Z) :=
  match v with
  | JObject m =>
      if forallb (fun k => existsb (String.eqb k) (map fst fields)) (bt_keys m)
      then mapM (fun '(k, max) => and_then (bt_get k m) (uint_at max)) fields
      else None
  | JArray l =>
      if Nat.eqb (length l) (length fields)
      then mapM (fun '((_, max), x) => uint_at max x) (zip fields l)
      else None
  | _ => None
  end.

Definition ceiling_of_wire (v : Value) : option ReadLimits :=
  match deserialize_fields ceiling_fields v with
  | Some [rps; burst; conc; connect; attempt; deadline; backoff; attempts] =>
      Some (MkLimits rps burst conc (from_secs connect) (from_secs attempt) (from_secs deadline)
              (from_secs backoff) attempts)
  | _ => None
  end.
(** [ReadLimits { requests_per_second, burst, max_concurrent, ..ceiling }]. *)
Definition share_of_wire (ceiling : ReadLimits) (v : Value) : option ReadLimits :=
  match deserialize_fields share_fields v with
  | Some [rps; burst; conc] =>
      Some (MkLimits rps burst conc (rl_connect_timeout ceiling) (rl_attempt_timeout ceiling)
              (rl_call_deadline ceiling) (rl_max_backoff ceiling) (rl_max_attempts ceiling))
  | _ => None
  end.

(** ** The policy *)

Definition for_reader (p : ReadPolicy) (r : TigReader) : ReadLimits :=
  match r with Controller => po_controller p | Gateway => po_gateway p end.

(** [iter.sum()] on an unsigned type with maximum [max]: the release profile
    does not enable overflow checks, so the sum wraps. *)
Definition wrapping_sum (max : Z) (l : list Z) : Z := fold_left (fun a x => (a + x) mod (max + 1)) l 0.

Definition over (p : ReadPolicy) (shares : list ReadLimits) : option PolicyError :=
  let rate := wrapping_sum u32_max (map rl_requests_per_second shares) in
  let burst := wrapping_sum u32_max (map rl_burst shares) in
  let concurrent := wrapping_sum u64_max (map rl_max_concurrent shares) in
  let c := po_ceiling p in
  if (rl_requests_per_second c <? rate) || (rl_burst c <? burst) || (rl_max_concurrent c <? concurrent)
  then Some (SharesExceedCeiling rate (rl_requests_per_second c) burst (rl_burst c) concurrent (rl_max_concurrent c))
  else None.

Definition get_section (key path : string) (v : Value) : result PolicyError Value :=
  ok_or (json_get key v) (Missing path).

Section load.
Context (from_str : string -> result string Value) (complaint : Value -> string).

Definition share_of (shares_value : Value) (ceiling : ReadLimits) (r : TigReader) : result PolicyError ReadLimits :=
  let path := String.append "read_limits.reader_shares." (reader_as_str r) in
  let? entry := get_section (reader_as_str r) path shares_value in
  ok_or (share_of_wire ceiling entry)
    (WrongType path (String.append "complete reader share (" (String.append (complaint entry) ")"))).

Definition from_config_json (json : string) : result PolicyError ReadPolicy :=
  let? root := map_err Unparseable (from_str json) in
  let? section := get_section "read_limits" "read_limits" root in
  let? ceiling_value := get_section "pool_ceiling" "read_limits.pool_ceiling" section in
  let? ceiling := ok_or (ceiling_of_wire ceiling_value)
    (WrongType "read_limits.pool_ceiling"
       (String.append "complete ceiling (" (String.append (complaint ceiling_value) ")"))) in
  let? shares_value := get_section "reader_shares" "read_limits.reader_shares" section in
  let? controller := share_of shares_value ceiling Controller in
  let? gateway := share_of shares_value ceiling Gateway in
  let? interval_value :=
    get_section "block_poll_interval_seconds" "read_limits.block_poll_interval_seconds" section in
  let? interval := ok_or (json_as_u64 interval_value)
    (WrongType "read_limits.block_poll_interval_seconds" "non-negative integer") in
  let policy := MkPolicy ceiling controller gateway (from_secs interval) in
  match over policy (map (for_reader policy) all_readers) with
  | Some e => Err e
  | None => Ok policy
  end.
End load.

Definition for_block_poll (p : ReadPolicy) (r : TigReader) : ReadLimits :=
  let interval := po_block_poll_interval p in
  let base := for_reader p r in
  MkLimits (rl_requests_per_second base) (rl_burst base) (rl_max_concurrent base) (rl_connect_timeout base)
    (Z.min (rl_attempt_timeout base) interval) interval (rl_max_backoff base) (rl_max_attempts base).

Definition clamp (p : ReadPolicy) (l : ReadLimits) : ReadLimits :=
  let c := po_ceiling p in
  MkLimits (rl_requests_per_second l) (rl_burst l) (rl_max_concurrent l)
    (Z.min (rl_connect_timeout l) (rl_connect_timeout c)) (Z.min (rl_attempt_timeout l) (rl_attempt_timeout c))
    (Z.min (rl_call_deadline l) (rl_call_deadline c)) (Z.min (rl_max_backoff l) (rl_max_backoff c))
    (rl_max_attempts l).

Definition pinned_max_backoff (p : ReadPolicy) : Z := rl_max_backoff (po_ceiling p).

Definition same_rates (a l : ReadLimits) : bool :=
  (rl_requests_per_second a =? rl_requests_per_second l) && (rl_burst a =? rl_burst l) &&
  (rl_max_concurrent a =? rl_max_concurrent l).
Definition is_entitled_share (p : ReadPolicy) (l : ReadLimits) : bool :=
  existsb (fun r => existsb (fun a => same_rates a l) [for_reader p r; for_block_poll p r]) all_readers.

Definition shares_within_ceiling (p : ReadPolicy) (shares : list ReadLimits) : bool :=
  (wrapping_sum u32_max (map rl_requests_per_second shares) <=? rl_requests_per_second (po_ceiling p)) &&
  (wrapping_sum u32_max (map rl_burst shares) <=? rl_burst (po_ceiling p)) &&
  (wrapping_sum u64_max (map rl_max_concurrent shares) <=? rl_max_concurrent (po_ceiling p)).

(** ** Lemmas *)

Lemma wrapping_sum2 max a b :
  0 <= a <= max -> 0 <= b <= max ->
  wrapping_sum max [a; b] = a + b \/ max < a + b.
Proof.
  intros Ha Hb. unfold wrapping_sum. simpl. destruct (Z.le_gt_cases (a + b) max); [left|by right].
  rewrite (Z.mod_small a), Z.mod_small by lia. lia.
Qed.

Lemma uint_at_range max v n : json_ok v = true -> uint_at max v = Some n -> 0 <= n <= max.
Proof.
  unfold uint_at. destruct (json_as_u64 v) as [m|] eqn:Hm; [|done]. intros Hv.
  destruct (Z.leb_spec m max); [|done]. intros [= <-].
  apply json_ok_u64 in Hm; [|done]. unfold in_unsigned in Hm. bool_prop. lia.
Qed.

Lemma deserialize_bound fields v l :
  json_ok v = true -> deserialize_fields fields v = Some l -> Forall2 (fun f n => 0 <= n <= f.2) fields l.
Proof.
  intros Hv. destruct v as [| | | |xs|m]; try done; simpl.
  - destruct (Nat.eqb_spec (length xs) (length fields)) as [E|]; [|done]. intros Hl%mapM_Some.
    revert xs Hv E l Hl. induction fields as [|[k max] fs IH]; intros [|x xs] Hv E l Hl; simplify_eq/=.
    { inversion Hl. constructor. }
    apply andb_true_iff in Hv as [Hx Hv].
    apply Forall2_cons_inv_l in Hl as (n & l' & Hn & Hl' & ->). constructor; [by eapply uint_at_range|].
    by apply (IH xs Hv).
  - pose proof (json_ok_object _ Hv) as [_ Hm]. destruct (forallb _ _); [|done]. intros Hl%mapM_Some.
    eapply Forall2_impl; [exact Hl|]. intros [k max] n. rewrite and_then_Some. intros (x & Hx & Hn).
    eapply uint_at_range; [|exact Hn]. apply (Hm k). by apply bt_get_elem.
Qed.

(** A share's three rates, within their types; everything else is the
    ceiling's. *)
Lemma share_bounds ceiling v l :
  json_ok v = true -> share_of_wire ceiling v = Some l ->
  0 <= rl_requests_per_second l <= u32_max /\ 0 <= rl_burst l <= u32_max /\
  0 <= rl_max_concurrent l <= u64_max /\
  l = MkLimits (rl_requests_per_second l) (rl_burst l) (rl_max_concurrent l) (rl_connect_timeout ceiling)
        (rl_attempt_timeout ceiling) (rl_call_deadline ceiling) (rl_max_backoff ceiling) (rl_max_attempts ceiling).
Proof.
  intros Hv. unfold share_of_wire. destruct (deserialize_fields share_fields v) as [fs|] eqn:Hd; [|done].
  apply deserialize_bound in Hd; [|done]. unfold share_fields in Hd.
  apply Forall2_cons_inv_l in Hd as (a & fs1 & Ha & Hd & ->).
  apply Forall2_cons_inv_l in Hd as (b & fs2 & Hb & Hd & ->).
  apply Forall2_cons_inv_l in Hd as (c & fs3 & Hc & Hd & ->).
  apply Forall2_nil_inv_l in Hd as ->. intros [= <-]. simpl in *. split_and!; try lia; done.
Qed.

Lemma share_of_Ok cm shares ceiling r l :
  json_ok shares = true -> share_of cm shares ceiling r = Ok l ->
  exists v, json_ok v = true /\ share_of_wire ceiling v = Some l.
Proof.
  intros Hs. unfold share_of, get_section. destruct (json_get _ shares) as [v|] eqn:Hv; [|done]. simpl.
  destruct (share_of_wire ceiling v) eqn:Hw; [|done]. simpl. intros [= <-]. exists v. eauto with pool.
Qed.

Lemma over_None p shares : over p shares = None <-> shares_within_ceiling p shares = true.
Proof.
  unfold over, shares_within_ceiling. rewrite !andb_true_iff, !Z.leb_le.
  repeat match goal with |- context [?x <? ?y] => destruct (Z.ltb_spec x y) end; simpl; split; try done; lia.
Qed.

(** [fits sum ceiling max]: the shares add up to no more than the ceiling, or
    their sum does not fit the integer type it is taken in. *)
Definition fits (sum ceiling max : Z) : Prop := sum <= ceiling \/ max < sum.
Definition looser (a b : ReadLimits) : Prop :=
  rl_connect_timeout b <= rl_connect_timeout a /\ rl_attempt_timeout b <= rl_attempt_timeout a /\
  rl_call_deadline b <= rl_call_deadline a /\ rl_max_backoff b <= rl_max_backoff a.

(** The budget is divided, not handed out twice.  A policy that loads gives the
    two readers rates that add up to at most the pinned ceiling (as long as the
    sum fits the integer it is computed in); limits a client may be built with
    have exactly the rates of some reader's share; and after clamping no
    duration exceeds the pinned one or the one asked for, so the [get-block]
    poll never runs past its interval. *)
Theorem read_budget_is_divided from_str cm json root p :
  from_str json = Ok root -> json_ok root = true -> from_config_json from_str cm json = Ok p ->
  fits (rl_requests_per_second (po_controller p) + rl_requests_per_second (po_gateway p))
    (rl_requests_per_second (po_ceiling p)) u32_max /\
  fits (rl_burst (po_controller p) + rl_burst (po_gateway p)) (rl_burst (po_ceiling p)) u32_max /\
  fits (rl_max_concurrent (po_controller p) + rl_max_concurrent (po_gateway p))
    (rl_max_concurrent (po_ceiling p)) u64_max /\
  (forall l, is_entitled_share p l = true <-> exists r, same_rates (for_reader p r) l = true) /\
  (forall l, looser (po_ceiling p) (clamp p l) /\ looser l (clamp p l)) /\
  (forall r, looser (po_ceiling p) (for_reader p r)) /\
  (forall r, rl_attempt_timeout (for_block_poll p r) <= rl_call_deadline (for_block_poll p r) /\
     rl_call_deadline (for_block_poll p r) = po_block_poll_interval p).
Proof.
  intros Hroot Hok. unfold from_config_json. rewrite Hroot. cbn [map_err].
  unfold get_section. destruct (json_get "read_limits" root) as [sec|] eqn:Hsec; [|done]. cbn [ok_or].
  assert (Hs : json_ok sec = true) by eauto with pool.
  destruct (json_get "pool_ceiling" sec) as [cv|] eqn:Hcv; [|done]. cbn [ok_or].
  destruct (ceiling_of_wire cv) as [c|]; [|done]. cbn [ok_or].
  destruct (json_get "reader_shares" sec) as [sv|] eqn:Hsv; [|done]. cbn [ok_or].
  assert (Hsvok : json_ok sv = true) by eauto with pool.
  destruct (share_of cm sv c Controller) as [ctl|] eqn:H1; [|done].
  destruct (share_of cm sv c Gateway) as [gw|] eqn:H2; [|done].
  destruct (json_get "block_poll_interval_seconds" sec) as [iv|]; [|done]. cbn [ok_or].
  destruct (json_as_u64 iv) as [i|]; [|done]. cbn [ok_or].
  destruct (over _ _) eqn:Hover; [done|]. intros [= <-]. apply over_None in Hover.
  unfold shares_within_ceiling in Hover. simpl in Hover. bool_prop.
  destruct (share_of_Ok _ _ _ _ _ Hsvok H1) as (v1 & Hv1 & (Ha1 & Hb1 & Hc1 & E1)%share_bounds); [|done].
  destruct (share_of_Ok _ _ _ _ _ Hsvok H2) as (v2 & Hv2 & (Ha2 & Hb2 & Hc2 & E2)%share_bounds); [|done].
  simpl. split_and!.
  - destruct (wrapping_sum2 u32_max _ _ Ha1 Ha2); [left; lia|by right].
  - destruct (wrapping_sum2 u32_max _ _ Hb1 Hb2); [left; lia|by right].
  - destruct (wrapping_sum2 u64_max _ _ Hc1 Hc2); [left; lia|by right].
  - intros l. unfold is_entitled_share, all_readers. simpl. unfold same_rates at 2 4. simpl.
    fold (same_rates ctl l) (same_rates gw l).
    rewrite !orb_false_r, !orb_diag, orb_true_iff. split; [intros [?|?]; [by exists Controller|by exists Gateway]|].
    intros [[] ?]; [by left|by right].
  - intros l. unfold looser, clamp. simpl. lia.
  - intros []; simpl; [rewrite E1|rewrite E2]; unfold looser; simpl; lia.
  - intros []; simpl; lia.
Qed.

(** [config/tig_integration.json]'s [read_limits], with the two shares' rates
    as arguments. *)
Definition limits_document (controller gateway : Z) : Value :=
  let n := fun k => JNumber (PosInt k) in
  let share := fun k => JObject [("burst", n 1); ("max_concurrent", n 1); ("requests_per_second", n k)] in
  JObject [("read_limits", JObject
    [("block_poll_interval_seconds", n 15);
     ("pool_ceiling", JObject
        [("attempt_timeout_seconds", n 30); ("burst", n 2); ("call_deadline_seconds", n 300);
         ("connect_timeout_seconds", n 5); ("max_attempts", n 5); ("max_backoff_seconds", n 60);
         ("max_concurrent", n 2); ("requests_per_second", n 2)]);
     ("reader_shares", JObject [("controller", share controller); ("gateway", share gateway)])])].
Definition shipped_policy : ReadPolicy :=
  let share := MkLimits 1 1 1 (from_secs 5) (from_secs 30) (from_secs 300) (from_secs 60) 5 in
  MkPolicy (MkLimits 2 2 2 (from_secs 5) (from_secs 30) (from_secs 300) (from_secs 60) 5)
    share share (from_secs 15).
Example read_budget_is_divided_witness :
  from_config_json (fun _ => Ok (limits_document 1 1)) (fun _ => "") "" = Ok shipped_policy /\
  fits 2 2 u32_max /\ (forall l, looser (po_ceiling shipped_policy) (clamp shipped_policy l)).
Proof.
  assert (H : from_config_json (fun _ => Ok (limits_document 1 1)) (fun _ => "") "" = Ok shipped_policy)
    by (vm_compute; reflexivity).
  destruct (read_budget_is_divided (fun _ => Ok (limits_document 1 1)) (fun _ => "") "" (limits_document 1 1)
    shipped_policy eq_refl eq_refl H) as (Hr & _ & _ & _ & Hc & _). split; [exact H|]. split; [exact Hr|].
  intros l. apply (Hc l).
Defined.

(** Over-allocated shares are refused -- unless their sum wraps: two shares of
    2^31 requests per second add up to zero in a build without overflow checks
    and pass under a ceiling of two. *)
Example shares_over_the_ceiling :
  from_config_json (fun _ => Ok (limits_document 2 1)) (fun _ => "") "" = Err (SharesExceedCeiling 3 2 2 2 2 2) /\
  is_Ok (from_config_json (fun _ => Ok (limits_document (2 ^ 31) (2 ^ 31))) (fun _ => "") "") = true.
Proof. vm_compute. auto. Qed.
