(* ===== verification/ReadCache.v ===== *)
(** * The response cache: [crates/tig-client/src/cache.rs]

    Two permissions are needed before a response is kept: the request must be
    pinned to a block, and the server must allow a lifetime.  The cache is a
    bounded map; [Instant]s and [Duration]s are nanoseconds, and an [Instant]
    past [instant_max], the last one the platform can represent, makes
    [checked_add] fail. *)
From S2P Require Import Prelude Text.
Open Scope Z_scope.

Inductive Caching := For (lifetime : Z) | Never.

Definition COMMA : Ascii.ascii := Ascii.ascii_of_N 44.
Definition SLASH : Ascii.ascii := Ascii.ascii_of_N 47.
Definition QUESTION : Ascii.ascii := Ascii.ascii_of_N 63.
Definition AMPERSAND : Ascii.ascii := Ascii.ascii_of_N 38.

Definition secs (n : Z) : Z := n * 10 ^ 9.

(** The [max-age] loop: the first such directive decides. *)
Fixpoint first_max_age (directives : list string) : Caching :=
  match directives with
  | [] => Never
  | directive :: rest =>
      match strip_prefix "max-age=" directive with
      | Some value =>
          match parse_u64 (trim value) with
          | Some seconds => if seconds =? 0 then Never else For (secs seconds)
          | None => Never
          end
      | None => first_max_age rest
      end
  end.
Definition caching_from_header (header : option string) : Caching :=
  match header with
  | None => Never
  | Some header =>
      let directives := map trim (split_on COMMA (to_ascii_lowercase header)) in
      if existsb (fun d => String.eqb d "no-store" || String.eqb d "no-cache") directives then Never
      else first_max_age directives
  end.

Definition BLOCK_PINNED : list string := ["get-challenges"; "get-algorithms"; "get-opow"].
Definition request_is_cacheable (path_and_query : string) : bool :=
  let '(path, query) := default (path_and_query, "") (split_once "?" path_and_query) in
  let path := trim_start_matches (Ascii.eqb SLASH) path in
  existsb (String.eqb path) BLOCK_PINNED &&
  existsb (fun p => match strip_prefix "block_id=" p with
                    | Some value => negb (String.eqb value "")
                    | None => false
                    end) (split_on AMPERSAND query).

Record Entry := MkEntry { en_body : string; en_expires_at : Z }.
Record ResponseCache := MkCache { rc_entries : gmap string Entry; rc_capacity : nat }.
Definition cache_new (capacity : nat) : ResponseCache := MkCache ∅ capacity.

(** [get]: an expired entry is dropped on the way past. *)
Definition cache_get (url : string) (now : Z) (c : ResponseCache) : option string * ResponseCache :=
  match rc_entries c !! url with
  | Some entry =>
      if now <? en_expires_at entry then (Some (en_body entry), c)
      else (None, MkCache (delete url (rc_entries c)) (rc_capacity c))
  | None => (None, c)
  end.

Section put.
Context (instant_max : Z).
Definition checked_add_instant (now d : Z) : option Z := if now + d <=? instant_max then Some (now + d) else None.

Definition evicted (now : Z) (c : ResponseCache) : gmap string Entry :=
  if (rc_capacity c <=? size (rc_entries c))%nat
  then filter (fun kv => now < en_expires_at kv.2) (rc_entries c)
  else rc_entries c.
Definition cache_put (url body : string) (caching : Caching) (now : Z) (c : ResponseCache) : ResponseCache :=
  match caching with
  | Never => c
  | For lifetime =>
      let entries := evicted now c in
      if (rc_capacity c <=? size entries)%nat && negb (bool_decide (is_Some (entries !! url)))
      then MkCache entries (rc_capacity c)
      else match checked_add_instant now lifetime with
           | None => MkCache entries (rc_capacity c)
           | Some expires_at => MkCache (<[url := MkEntry body expires_at]> entries) (rc_capacity c)
           end
  end.

(** ** Specification *)

(** A use of the cache: what was asked, stored, and when. *)
Inductive CacheOp := OpGet (url : string) (now : Z) | OpPut (url body : string) (caching : Caching) (now : Z).
Definition run_cache (c : ResponseCache) (op : CacheOp) : ResponseCache :=
  match op with
  | OpGet url now => (cache_get url now c).2
  | OpPut url body caching now => cache_put url body caching now c
  end.

(** [body] may be served for [url] at [now]: some response stored for exactly
    that request said so. *)
Definition licensed (ops : list CacheOp) (url body : string) (now : Z) : Prop :=
  exists t d, OpPut url body (For d) t ∈ ops /\ now < t + d.

Definition entries_licensed (ops : list CacheOp) (m : gmap string Entry) : Prop :=
  forall url e, m !! url = Some e -> exists t d, OpPut url (en_body e) (For d) t ∈ ops /\ en_expires_at e = t + d.

(** ** Lemmas *)

Lemma entries_licensed_weaken ops op m : entries_licensed ops m -> entries_licensed (ops ++ [op]) m.
Proof.
  intros H url e He. destruct (H url e He) as (t & d & Hop & E). exists t, d.
  split; [apply elem_of_app; by left|done].
Qed.
Lemma evicted_sub now c : evicted now c ⊆ rc_entries c.
Proof. unfold evicted. destruct (_ <=? _)%nat; [apply map_filter_subseteq|done]. Qed.
Lemma evicted_size now c : (size (evicted now c) <= size (rc_entries c))%nat.
Proof. apply map_subseteq_size, evicted_sub. Qed.

Lemma run_cache_licensed ops op c :
  entries_licensed ops (rc_entries c) -> entries_licensed (ops ++ [op]) (rc_entries (run_cache c op)).
Proof.
  intros H. destruct op as [url now|url body caching now]; simpl.
  - unfold cache_get. destruct (rc_entries c !! url) as [e|] eqn:He; [|by apply entries_licensed_weaken].
    destruct (now <? _); simpl; [by apply entries_licensed_weaken|].
    intros u e' Hu%lookup_delete_Some. apply (entries_licensed_weaken ops _ _ H). by destruct Hu.
  - unfold cache_put. destruct caching as [d|]; [|by apply entries_licensed_weaken].
    assert (Hev : entries_licensed (ops ++ [OpPut url body (For d) now]) (evicted now c)).
    { intros u e Hu. apply (entries_licensed_weaken ops _ _ H). eapply lookup_weaken; [exact Hu|apply evicted_sub]. }
    destruct (_ && _); simpl; [done|]. unfold checked_add_instant. destruct (now + d <=? instant_max); simpl; [|done].
    intros u e. rewrite lookup_insert_Some. intros [[<- <-]|[_ Hu]]; [|by apply Hev].
    exists now, d. simpl. split; [apply elem_of_app; right; by left|done].
Qed.

Lemma run_cache_bounded op c :
  (size (rc_entries c) <= rc_capacity c)%nat ->
  rc_capacity (run_cache c op) = rc_capacity c /\ (size (rc_entries (run_cache c op)) <= rc_capacity c)%nat.
Proof.
  intros Hc. destruct op as [url now|url body caching now]; simpl.
  - unfold cache_get. destruct (rc_entries c !! url); [|done]. destruct (now <? _); [done|]. simpl. split; [done|].
    etrans; [|exact Hc]. apply map_subseteq_size, delete_subseteq.
  - unfold cache_put. destruct caching as [d|]; [|done].
    pose proof (evicted_size now c) as Hev. destruct (_ && _) eqn:Hfull; simpl; [split; [done|lia]|].
    destruct (checked_add_instant now d); simpl; [|split; [done|lia]]. split; [done|].
    apply andb_false_iff in Hfull. rewrite map_size_insert.
    destruct (evicted now c !! url) eqn:Hin; cbn [id]; [lia|].
    destruct Hfull as [Hf%Nat.leb_gt|Hf]; [lia|]. rewrite negb_false_iff, bool_decide_eq_true in Hf. by destruct Hf.
Qed.

Lemma run_caches ops : forall c ops0,
  entries_licensed ops0 (rc_entries c) -> (size (rc_entries c) <= rc_capacity c)%nat ->
  let c' := fold_left run_cache ops c in
  entries_licensed (ops0 ++ ops) (rc_entries c') /\ rc_capacity c' = rc_capacity c /\
  (size (rc_entries c') <= rc_capacity c)%nat.
Proof.
  induction ops as [|op ops IH]; intros c ops0 Hl Hb; simpl; [by rewrite app_nil_r|].
  destruct (run_cache_bounded op c Hb) as [Hcap Hb'].
  destruct (IH (run_cache c op) (ops0 ++ [op])) as (H1 & H2 & H3); [by apply run_cache_licensed|by rewrite Hcap|].
  rewrite <- app_assoc in H1. rewrite Hcap in H2, H3. done.
Qed.
End put.

(** ** Properties *)

(** The cache never serves a stale or foreign body and never outgrows its
    bound.  Whatever was asked and stored before, a body is served at [now]
    only if a response stored for that same request carried it with a lifetime
    that has not run out at [now]; and at most [capacity] responses are held. *)
Theorem cache_serves_only_live instant_max capacity ops url now body c' :
  cache_get url now (fold_left (run_cache instant_max) ops (cache_new capacity)) = (Some body, c') ->
  licensed ops url body now /\ (size (rc_entries c') <= capacity)%nat.
Proof.
  destruct (run_caches instant_max ops (cache_new capacity) []) as (Hl & Hcap & Hb).
  - intros u e. simpl. by rewrite lookup_empty.
  - simpl. rewrite map_size_empty. lia.
  - simpl in *. set (c := fold_left _ _ _) in *. unfold cache_get.
    destruct (rc_entries c !! url) as [e|] eqn:He; [|done].
    destruct (Z.ltb_spec now (en_expires_at e)); [|done]. intros [= <- <-]. split; [|done].
    destruct (Hl url e He) as (t & d & Hin & E). exists t, d. split; [done|lia].
Qed.
Example cache_serves_only_live_witness :
  licensed [OpPut "u" "old" (For 5) 0; OpGet "u" 6; OpPut "u" "new" (For 5) 10] "u" "new" 14.
Proof.
  refine (proj1 (cache_serves_only_live 1000 2 [OpPut "u" "old" (For 5) 0; OpGet "u" 6; OpPut "u" "new" (For 5) 10]
    "u" 14 "new" _ _)). vm_compute. reflexivity.
Defined.

(** Only a request pinned to a block is ever cacheable: its path names one of
    the three block-pinned endpoints and some parameter gives a block. *)
Lemma cacheable_is_pinned request :
  request_is_cacheable request = true ->
  exists path query value, (request = String.append path (String.append "?" query) \/ (request = path /\ query = "")) /\
    trim_start_matches (Ascii.eqb SLASH) path ∈ BLOCK_PINNED /\
    String.append "block_id=" value ∈ split_on AMPERSAND query /\ value <> "".
Proof.
  assert (Hsplit : forall sep s a b, split_once sep s = Some (a, b) -> s = String.append a (String.append sep b)).
  { intros sep s. induction s as [|c s IH]; intros a b; cbn [split_once].
    - destruct (strip_prefix sep "") eqn:Hp; [|done]. intros [= <- <-]. by apply strip_prefix_Some in Hp.
    - destruct (strip_prefix sep (String c s)) eqn:Hp; [intros [= <- <-]; by apply strip_prefix_Some in Hp|].
      destruct (split_once sep s) as [[a' b']|]; [|done]. intros [= <- <-]. simpl. by rewrite (IH a' b'). }
  unfold request_is_cacheable. destruct (split_once "?" request) as [[path query]|] eqn:Hs; simpl default.
  - intros [H1 H2]%andb_true_iff.
    apply existsb_exists in H1 as (p & Hp & E%String.eqb_eq). apply existsb_exists in H2 as (q & Hq & Hv).
    destruct (strip_prefix "block_id=" q) as [value|] eqn:Hst; [|done].
    apply strip_prefix_Some in Hst as ->. exists path, query, value. split; [left; by apply Hsplit|].
    split; [rewrite E; by apply list_elem_of_In|]. split; [by apply list_elem_of_In|].
    intros ->. by rewrite String.eqb_refl in Hv.
  - intros [_ H2]%andb_true_iff. by vm_compute in H2.
Qed.
Example block_read_is_not_cacheable :
  request_is_cacheable "get-block?include_data=true" = false /\
  request_is_cacheable "get-benchmarks?player_id=0x1&block_id=b1" = false /\
  request_is_cacheable "/get-opow?block_id=b1" = true /\ request_is_cacheable "get-opow?block_id=" = false.
Proof. vm_compute. auto. Qed.
