(* ===== verification/ReadClient.v ===== *)
(** * The read client: [crates/tig-client/src/lib.rs]

    The shared token bucket with its server-instructed pause, the registry that
    gives every client of a host the same bucket, and [get_json]: the loop of
    attempts whose every wait is bounded by what is left of the call's budget.

    Time is the nanoseconds of one clock.  What a call waits for -- an in-flight
    slot, an answer, a body -- is given by an [AttemptEnv] per attempt: when the
    thing would become ready, if ever, and with what.  [timeout] then either takes
    it or gives up when its budget has passed, as [tokio]'s does with timers that
    fire on time.  The wait for a token runs the bucket's own loop: the
    environment says when each turn of it is run and what the other readers of the
    host made of the bucket since.  The bucket's lock, which is never held across
    a wait, is taken at once.  The bucket's arithmetic is IEEE double precision,
    computed with the Standard Library's [SpecFloat]. *)
From S2P Require Import Prelude Text Json ReadPolicy ReadCache.
From Stdlib Require Import SpecFloat.
Open Scope Z_scope.

(** ** Errors *)

(** What the text of an [Unavailable] reason is formatted from. *)
Inductive ReadReason :=
| DeadlineReached (at_ : string) (attempt : Z)
| LimiterClosed (e : string)
| CannotReadBody (e : string)
| HttpStatus (status : Z)
| TransportFailed (e : string)
| NoReason.

Inductive ReadError :=
| RdUnavailable (endpoint : string) (attempts : Z) (reason : ReadReason)
| RdRejected (endpoint : string) (status : Z) (body : string)
| RdSchema (endpoint : string) (reason : string).
Definition is_transient (e : ReadError) : bool :=
  match e with RdUnavailable _ _ _ => true | _ => false end.

(** ** The token bucket *)

Definition F64 : Type := spec_float.
Definition f64_add : F64 -> F64 -> F64 := SFadd 53 1024.
Definition f64_sub : F64 -> F64 -> F64 := SFsub 53 1024.
Definition f64_mul : F64 -> F64 -> F64 := SFmul 53 1024.
Definition f64_div : F64 -> F64 -> F64 := SFdiv 53 1024.
(** [f64::from(n)] and [n as f64] on a non-negative integer. *)
Definition f64_from (n : Z) : F64 := binary_normalize 53 1024 n 0 false.
(** [f64::min]: the other operand when one is NaN. *)
Definition f64_min (a b : F64) : F64 :=
  match SFcompare a b with
  | Some Gt => b
  | Some _ => a
  | None => match a with S754_nan => b | _ => a end
  end.
Definition f64_ge (a b : F64) : bool :=
  match SFcompare a b with Some Gt | Some Eq => true | _ => false end.
(** [Duration::as_secs_f64]. *)
Definition as_secs_f64 (d : Z) : F64 :=
  f64_add (f64_from (d / NANOS)) (f64_div (f64_from (d mod NANOS)) (f64_from NANOS)).

Record Bucket := MkBucket { bk_tokens : F64; bk_last_refill : Z; bk_paused_until : option Z }.
(** [Limiter::new]. *)
Definition bucket_new (l : ReadLimits) (now : Z) : Bucket := MkBucket (f64_from (rl_burst l)) now None.

(** [pause_for]: never shortens a pause already in force. *)
Definition pause_for (delay now : Z) (b : Bucket) : Bucket :=
  let until := now + delay in
  MkBucket (bk_tokens b) (bk_last_refill b)
    (Some (match bk_paused_until b with
           | Some existing => if until <? existing then existing else until
           | None => until
           end)).

(** [Duration::from_secs_f64]: to the nearest nanosecond, ties to even; a panic,
    [None], on a negative, infinite or undefined number of seconds and on one
    that does not fit. *)
Definition div_half_even (n d : Z) : Z :=
  let q := n / d in
  match 2 * (n mod d) ?= d with
  | Lt => q
  | Gt => q + 1
  | Eq => if Z.even q then q else q + 1
  end.
Definition from_secs_f64 (x : F64) : option Z :=
  match x with
  | S754_zero _ => Some 0
  | S754_finite false m e =>
      let nanos := if 0 <=? e then Z.pos m * 2 ^ e * NANOS else div_half_even (Z.pos m * NANOS) (2 ^ (- e)) in
      if nanos <? 2 ^ 64 * NANOS then Some nanos else None
  | _ => None
  end.

(** One turn of [take_token]'s loop at [now]: wait out a pause, take a token, or
    sleep until one should be there.  Computing that wait panics when it is not a
    duration, as it is not for a rate of zero. *)
Inductive TokenTurn := Paused (d : Z) (b : Bucket) | Taken (b : Bucket) | Sleep (d : Z) (b : Bucket) | Panics (b : Bucket).
Definition unpaused_turn (l : ReadLimits) (now : Z) (b : Bucket) : TokenTurn :=
  let elapsed := as_secs_f64 (now - bk_last_refill b) in
  let tokens := f64_min (f64_add (bk_tokens b) (f64_mul elapsed (f64_from (rl_requests_per_second l))))
                  (f64_from (rl_burst l)) in
  if f64_ge tokens (f64_from 1) then Taken (MkBucket (f64_sub tokens (f64_from 1)) now None)
  else
    let deficit := f64_sub (f64_from 1) tokens in
    match from_secs_f64 (f64_div deficit (f64_from (rl_requests_per_second l))) with
    | None => Panics (MkBucket tokens now None)
    | Some wait => Sleep wait (MkBucket tokens now None)
    end.
Definition take_token (l : ReadLimits) (now : Z) (b : Bucket) : TokenTurn :=
  match bk_paused_until b with
  | Some until => if now <? until then Paused (until - now) b else unpaused_turn l now b
  | None => unpaused_turn l now b
  end.

(** [timeout(_, take_token())], to give up at [until]: the turns the task is given,
    each after a delay and with what the other readers did to the bucket by then.
    With no turn left it is not run again before the time is up. *)
Definition Others : Type := Z -> Bucket -> Bucket.
Inductive TokenWait := TokenHad | TokenTimedOut | TokenPanicked.
Fixpoint wait_token (l : ReadLimits) (until : Z) (turns : list (Z * Others)) (b : Bucket) (t : Z) : TokenWait * Bucket * Z :=
  match turns with
  | [] => (TokenTimedOut, b, until)
  | (delay, others) :: turns' =>
      let now := t + delay in
      if until <? now then (TokenTimedOut, b, until)
      else
        let sleep d b' := if until <? now + d then (TokenTimedOut, b', until) else wait_token l until turns' b' (now + d) in
        match take_token l now (others now b) with
        | Taken b' => (TokenHad, b', now)
        | Panics b' => (TokenPanicked, b', now)
        | Paused d b' | Sleep d b' => sleep d b'
        end
  end.

(** ** The registry of limiters *)

(** Host and port of a base URL. *)
Definition limiter_key (base_url : string) : string :=
  let '(scheme, rest) := default ("", base_url) (split_once "://" base_url) in
  let host := default rest (head (split_on SLASH rest)) in
  let authority := to_ascii_lowercase (default rest (last (split_on (Ascii.ascii_of_N 64) host))) in
  let scheme := to_ascii_lowercase scheme in
  let default_port := if String.eqb scheme "https" then Some ":443"
                      else if String.eqb scheme "http" then Some ":80" else None in
  match default_port with
  | Some suffix => default authority (strip_suffix suffix authority)
  | None => authority
  end.

(** A registered limiter: its identity, its limits and the clients holding it. *)
Record Registered := MkRegistered { rg_id : N; rg_limits : ReadLimits; rg_clients : nat }.
Abbreviation Registry := (gmap string Registered).

Definition shared_limiter (fresh : N) (base_url : string) (limits : ReadLimits) (reg : Registry)
  : result string (N * Registry) :=
  let live := filter (fun kv => (0 < rg_clients kv.2)%nat) reg in
  let key := limiter_key base_url in
  match live !! key with
  | Some existing =>
      if negb (same_rates (rg_limits existing) limits) then Err key
      else Ok (rg_id existing, <[key := MkRegistered (rg_id existing) (rg_limits existing) (S (rg_clients existing))]> live)
  | None => Ok (fresh, <[key := MkRegistered fresh limits 1]> live)
  end.
(** Dropping a client. *)
Definition release (key : string) (reg : Registry) : Registry :=
  alter (fun r => MkRegistered (rg_id r) (rg_limits r) (pred (rg_clients r))) key reg.

(** [TigReadClient::new] up to the HTTP client: the entitlement check, the
    clamp, and the shared limiter. *)
Definition client_new (fresh : N) (base_url : string) (policy : ReadPolicy) (limits : ReadLimits) (reg : Registry)
  : result string (ReadLimits * N * Registry) :=
  if negb (is_entitled_share policy limits) then Err "not a reader's share of the pinned per-IP budget"
  else
    let limits := clamp policy limits in
    let base_url := trim_end_matches (Ascii.eqb SLASH) base_url in
    let? (id, reg') := shared_limiter fresh base_url limits reg in
    Ok (limits, id, reg').

(** ** Backoff *)

Definition U64 : Z := 2 ^ 64.
(** [jitter_below] at a system clock of [nanos]. *)
Definition jitter_below (cap attempt nanos : Z) : Z :=
  let cap_nanos := cap mod U64 in
  if cap_nanos =? 0 then 0
  else
    let seed := Z.lxor (nanos mod U64) ((attempt * 0x9E3779B97F4A7C15) mod U64) in
    let x := Z.lor seed 1 in
    let x := Z.lxor x (Z.shiftr x 12) in
    let x := Z.lxor x (Z.shiftl x 25 mod U64) in
    let x := Z.lxor x (Z.shiftr x 27) in
    ((x * 0x2545F4914F6CDD1D) mod U64) mod cap_nanos.

Definition MILLIS : Z := 10 ^ 6.
(** [Duration::from_millis(250u64.saturating_mul(2u64.saturating_pow(attempt - 1)))]. *)
Definition exponential (attempt : Z) : Z :=
  Z.min u64_max (250 * Z.min u64_max (2 ^ Z.max 0 (attempt - 1))) * MILLIS.

Definition is_retryable_status (status : Z) : bool :=
  (status =? 408) || (status =? 429) || ((500 <=? status) && (status <? 600)).
Definition is_success (status : Z) : bool := (200 <=? status) && (status <? 300).

(** [body.chars().take(n)]. *)
Fixpoint take_chars (n : nat) (s : string) : string :=
  match s with
  | EmptyString => EmptyString
  | String c s' =>
      if is_continuation c then String c (take_chars n s')
      else match n with O => EmptyString | S n' => String c (take_chars n' s') end
  end.

(** ** One call *)

Record Reply := MkReply {
  re_status : Z;
  re_retry_after : option string;
  re_cache_control : option string;
  re_body : option (Z * result string string);
}.
Record AttemptEnv := MkAttemptEnv {
  ae_turns : list (Z * Others);
  ae_permit : option (Z * result string unit);
  ae_send : option (Z * result string Reply);
  ae_meanwhile : Others;
  ae_system : Z;
}.

(** [tokio::time::timeout]: what comes ready within the budget, and the time. *)
Definition timeout {A} (budget : Z) (op : option (Z * A)) (t : Z) : option A * Z :=
  match op with
  | Some (d, a) => if d <=? budget then (Some a, t + d) else (None, t + budget)
  | None => (None, t + budget)
  end.

(** How a call ends: with its result, or in the panic of a wait for a token. *)
Inductive Outcome := Returned (r : result ReadError Value) | Panicked.
Inductive Step := Done (body : string) | StepRejected (status : Z) (body : string) | Retry (reason : ReadReason) | StepExpired.

(** The state a call threads: the cache and the shared bucket. *)
Record ClientState := MkClientState { cs_cache : ResponseCache; cs_bucket : Bucket }.

Section call.
Context (instant_max : Z) (parse_http_date : string -> option Z) (from_str : string -> result string Value).
Context (base_url : string) (limits : ReadLimits) (pinned_backoff : Z).

Definition parse_retry_after (header : option string) (system_now : Z) : option Z :=
  match header with
  | None => None
  | Some raw =>
      let raw := trim raw in
      match parse_u64 raw with
      | Some seconds => Some (from_secs seconds)
      | None => match parse_http_date raw with
                | Some moment => Some (Z.max 0 (moment - system_now))
                | None => None
                end
      end
  end.

Definition remaining (started t : Z) : Z := Z.max 0 (rl_call_deadline limits - (t - started)).

Section attempt.
Context (url endpoint : string) (cacheable : bool) (started : Z).
Definition expired (attempt : Z) (at_ : string) : ReadError :=
  RdUnavailable endpoint attempt (DeadlineReached at_ attempt).

(** The answer read to its end: what to do next, and when that is. *)
Definition read_reply (reply : Reply) (st : ClientState) (t : Z) : Step * ClientState * Z :=
  let '(body, t') := timeout (remaining started t) (re_body reply) t in
  if is_success (re_status reply) then
    match body with
    | None => (StepExpired, st, t')
    | Some (Ok body) =>
        let caching := caching_from_header (re_cache_control reply) in
        let cache := if cacheable then cache_put instant_max url body caching t' (cs_cache st) else cs_cache st in
        (Done body, MkClientState cache (cs_bucket st), t')
    | Some (Err e) => (Retry (CannotReadBody e), st, t')
    end
  else
    let text := match body with Some (Ok body) => body | _ => "" end in
    (if is_retryable_status (re_status reply) then Retry (HttpStatus (re_status reply))
     else StepRejected (re_status reply) (take_chars 200 text), st, t').

(** One attempt, up to the point where its [Step] is acted on: an early return,
    the panic, or the step with the server's [Retry-After]. *)
Inductive AttemptEnd := Early (e : ReadError) | TokenPanic | Stepped (step : Step) (retry_after : option Z).
Definition run_attempt (env : AttemptEnv) (attempt : Z) (st : ClientState) (t : Z) : AttemptEnd * ClientState * Z :=
  let '(token, bucket, t) := wait_token limits (t + remaining started t) (ae_turns env) (cs_bucket st) t in
  let st := MkClientState (cs_cache st) bucket in
  match token with
  | TokenPanicked => (TokenPanic, st, t)
  | TokenTimedOut => (Early (expired attempt "waiting for a rate-limit token"), st, t)
  | TokenHad =>
      let '(permit, t) := timeout (remaining started t) (ae_permit env) t in
      match permit with
      | None => (Early (expired attempt "waiting for an in-flight slot"), st, t)
      | Some (Err e) => (Early (RdUnavailable endpoint attempt (LimiterClosed e)), st, t)
      | Some (Ok _) =>
          let budget := remaining started t in
          if budget =? 0 then (Early (expired attempt "before the request"), st, t)
          else
            let '(sent, t) := timeout budget (ae_send env) t in
            match sent with
            | None => (Early (expired attempt "during the request"), st, t)
            | Some outcome =>
                let retry_after := match outcome with
                                   | Ok r => if is_retryable_status (re_status r)
                                             then parse_retry_after (re_retry_after r) (ae_system env) else None
                                   | Err _ => None
                                   end in
                let bucket := ae_meanwhile env t (cs_bucket st) in
                let st := MkClientState (cs_cache st)
                            match retry_after with
                            | Some delay => pause_for (Z.min delay pinned_backoff) t bucket
                            | None => bucket
                            end in
                match outcome with
                | Err e => (Stepped (Retry (TransportFailed e)) retry_after, st, t)
                | Ok reply => let '(step, st, t) := read_reply reply st t in (Stepped step retry_after, st, t)
                end
            end
      end
  end.

Definition backoff (env : AttemptEnv) (attempt : Z) (retry_after : option Z) : Z :=
  match retry_after with
  | Some delay => delay
  | None => jitter_below (Z.min (exponential attempt) (rl_max_backoff limits)) attempt (ae_system env)
  end.

Definition parse_body (body : string) : result ReadError Value :=
  map_err (fun e => RdSchema endpoint (String.append "not valid JSON: " e)) (from_str body).

(** The [while attempt < max_attempts] loop, by the attempts left. *)
Fixpoint attempts (env : Z -> AttemptEnv) (left : nat) (attempt : Z) (last_reason : ReadReason)
    (st : ClientState) (t : Z) : Outcome * ClientState * Z :=
  match left with
  | O => (Returned (Err (RdUnavailable endpoint attempt last_reason)), st, t)
  | S left' =>
      let attempt := attempt + 1 in
      match run_attempt (env attempt) attempt st t with
      | (TokenPanic, st, t) => (Panicked, st, t)
      | (Early e, st, t) => (Returned (Err e), st, t)
      | (Stepped (Done body) _, st, t) => (Returned (parse_body body), st, t)
      | (Stepped (StepRejected status body) _, st, t) => (Returned (Err (RdRejected endpoint status body)), st, t)
      | (Stepped StepExpired _, st, t) => (Returned (Err (expired attempt "reading the body")), st, t)
      | (Stepped (Retry reason) retry_after, st, t) =>
          match left' with
          | O => (Returned (Err (RdUnavailable endpoint attempt reason)), st, t)
          | S _ =>
              let wait := backoff (env attempt) attempt retry_after in
              if remaining started t <=? wait then (Returned (Err (expired attempt "before the next backoff")), st, t)
              else attempts env left' attempt reason st (t + wait)
          end
      end
  end.
End attempt.

Definition url_of (path_and_query : string) : string :=
  String.append base_url (String.append "/" (trim_start_matches (Ascii.eqb SLASH) path_and_query)).
Definition endpoint_of (path_and_query : string) : string :=
  default path_and_query (head (split_on QUESTION path_and_query)).
Definition get_json (env : Z -> AttemptEnv) (path_and_query : string) (st : ClientState) (t : Z) : Outcome * ClientState * Z :=
  let url := url_of path_and_query in
  let endpoint := endpoint_of path_and_query in
  let cacheable := request_is_cacheable path_and_query in
  let call st := attempts url endpoint cacheable t env (Z.to_nat (rl_max_attempts limits)) 0 NoReason st t in
  if cacheable then
    let '(hit, cache) := cache_get url t (cs_cache st) in
    let st := MkClientState cache (cs_bucket st) in
    match hit with
    | Some body => (Returned (parse_body endpoint body), st, t)
    | None => call st
    end
  else call st.
End call.

(** ** Specification of a call *)

Definition delay_ok {A} (op : option (Z * A)) : Prop := match op with Some (d, _) => 0 <= d | None => True end.
(** What a reader may do to the bucket's pause by [t]: set one that reaches at most
    [bound] ahead, or leave the one there; and never shorten one in force. *)
Definition pause_bounded (bound t : Z) (b b' : Bucket) : Prop :=
  match bk_paused_until b' with
  | None => forall u, bk_paused_until b = Some u -> u <= t
  | Some u' => (u' <= t + bound \/ bk_paused_until b = Some u') /\
      (forall u, bk_paused_until b = Some u -> u <= u' \/ u <= t)
  end.
Definition others_ok (bound : Z) (f : Others) : Prop := forall t b, pause_bounded bound t b (f t b).
(** Nothing takes negative time, and the other readers keep to the same rule. *)
Definition env_ok (bound : Z) (e : AttemptEnv) : Prop :=
  Forall (fun turn => 0 <= turn.1 /\ others_ok bound turn.2) (ae_turns e) /\ others_ok bound (ae_meanwhile e) /\ delay_ok (ae_permit e) /\
  match ae_send e with Some (d, Ok r) => 0 <= d /\ delay_ok (re_body r) | Some (d, Err _) => 0 <= d | None => True end.

(** The bucket is short of a token, and the time until it has one is no duration. *)
Definition no_wait_for (limits : ReadLimits) (b : Bucket) : Prop :=
  f64_ge (bk_tokens b) (f64_from 1) = false /\
  from_secs_f64 (f64_div (f64_sub (f64_from 1) (bk_tokens b)) (f64_from (rl_requests_per_second limits))) = None.
(** The answers after which a request may be repeated: no answer, 408, 429, a
    server error, or a body that broke off. *)
Definition repeatable (e : AttemptEnv) : Prop :=
  match ae_send e with
  | Some (_, Err _) => True
  | Some (_, Ok r) => is_retryable_status (re_status r) = true \/
      (is_success (re_status r) = true /\ exists d err, re_body r = Some (d, Err err))
  | None => False
  end.
Definition delivered (e : AttemptEnv) (body : string) : Prop :=
  exists d r d', ae_send e = Some (d, Ok r) /\ is_success (re_status r) = true /\ re_body r = Some (d', Ok body).
Definition refused (e : AttemptEnv) (status : Z) : Prop :=
  exists d r, ae_send e = Some (d, Ok r) /\ re_status r = status /\
    is_success status = false /\ is_retryable_status status = false.

(** ** Lemmas *)

Lemma timeout_time {A} budget (op : option (Z * A)) t :
  0 <= budget -> delay_ok op -> t <= (timeout budget op t).2 <= t + budget.
Proof.
  intros Hb. unfold timeout, delay_ok. destruct op as [[d a]|]; simpl; [|lia].
  destruct (Z.leb_spec d budget); simpl; lia.
Qed.
Lemma timeout_Some {A} budget (op : option (Z * A)) t a t' :
  timeout budget op t = (Some a, t') -> exists d, op = Some (d, a).
Proof. unfold timeout. destruct op as [[d x]|]; [|done]. destruct (d <=? budget); [|done]. intros [= <- <-]. eauto. Qed.

Lemma pause_bounded_refl bound t b : pause_bounded bound t b b.
Proof. unfold pause_bounded. destruct (bk_paused_until b) as [u|]; [|done]. split; [by right|]. intros v [= ->]. left. lia. Qed.
Lemma pause_bounded_trans bound t1 t2 a b c :
  t1 <= t2 -> pause_bounded bound t1 a b -> pause_bounded bound t2 b c -> pause_bounded bound t2 a c.
Proof.
  unfold pause_bounded. intros Ht Hab Hbc.
  destruct (bk_paused_until c) as [uc|], (bk_paused_until b) as [ub|].
  - destruct Hab as [G1 G2], Hbc as [H1 H2]. split.
    + destruct H1 as [|[= ->]]; [by left|]. destruct G1; [left; lia|by right].
    + intros u Hu. specialize (G2 u Hu). specialize (H2 ub eq_refl). lia.
  - destruct Hbc as [H1 H2]. split; [destruct H1; [by left|done]|]. intros u Hu%Hab. lia.
  - destruct Hab as [_ G2]. intros u Hu. specialize (G2 u Hu). specialize (Hbc ub eq_refl). lia.
  - intros u Hu%Hab. lia.
Qed.
Lemma pause_for_bounded bound delay t b : 0 <= delay -> pause_bounded bound t b (pause_for (Z.min delay bound) t b).
Proof.
  intros Hd. unfold pause_bounded, pause_for. simpl. destruct (bk_paused_until b) as [u|].
  - destruct (Z.ltb_spec (t + Z.min delay bound) u).
    + split; [by right|]. intros ? [= <-]. lia.
    + split; [left; lia|]. intros ? [= <-]. lia.
  - split; [left; lia|done].
Qed.

(** A turn of the token loop ends a pause only when it is over, and waits forward. *)
Lemma from_secs_f64_nonneg x d : from_secs_f64 x = Some d -> 0 <= d.
Proof.
  unfold from_secs_f64. destruct x as [| | |[] m e]; try done; [intros [= <-]; lia|].
  destruct (Z.leb_spec 0 e) as [He|He]; (destruct (_ <? _); [|done]); intros [= <-].
  - unfold NANOS. pose proof (Z.pow_nonneg 2 e ltac:(lia)). nia.
  - unfold div_half_even. pose proof (Z.pow_pos_nonneg 2 (- e) ltac:(lia) ltac:(lia)).
    pose proof (Z.div_pos (Z.pos m * NANOS) (2 ^ (- e)) ltac:(unfold NANOS; lia) ltac:(lia)).
    destruct (_ ?= _); [destruct (Z.even _)|..]; lia.
Qed.
Lemma take_token_pause bound l now b :
  match take_token l now b with
  | Paused d b' => 0 <= d /\ b' = b
  | Sleep d b' => 0 <= d /\ pause_bounded bound now b b'
  | Taken b' | Panics b' => pause_bounded bound now b b'
  end.
Proof.
  unfold take_token. destruct (bk_paused_until b) as [u|] eqn:Hb; [destruct (Z.ltb_spec now u); [split; [lia|done]|]|];
    unfold unpaused_turn; cbv zeta; (destruct (f64_ge _ _); [|destruct (from_secs_f64 _) eqn:E]);
    try (split; [by eapply from_secs_f64_nonneg|]); unfold pause_bounded; simpl; rewrite Hb; try done; by intros ? [= <-].
Qed.
Lemma wait_token_bounds bound l until turns : Forall (fun turn => 0 <= turn.1 /\ others_ok bound turn.2) turns -> forall b t, t <= until ->
  let '(_, b', t') := wait_token l until turns b t in t <= t' <= until /\ pause_bounded bound t' b b'.
Proof.
  induction 1 as [|[d f] turns [Hd Hf] _ IH]; intros b t Ht; cbn [wait_token]; [split; [lia|apply pause_bounded_refl]|]. simpl in Hd, Hf.
  destruct (Z.ltb_spec until (t + d)); [split; [lia|apply pause_bounded_refl]|].
  pose proof (Hf (t + d) b) as Ho. pose proof (take_token_pause bound l (t + d) (f (t + d) b)) as Hp.
  destruct (take_token l (t + d) (f (t + d) b)) as [w b'|b'|w b'|b'].
  - destruct Hp as [Hw ->]. destruct (Z.ltb_spec until (t + d + w)); [split; [lia|]; eapply pause_bounded_trans; [|exact Ho|apply pause_bounded_refl]; lia|].
    specialize (IH (f (t + d) b) (t + d + w) ltac:(lia)). destruct (wait_token _ _ _ _ _) as [[r b1] t1]. destruct IH as [? Hb].
    split; [lia|]. eapply pause_bounded_trans; [|exact Ho|exact Hb]. lia.
  - split; [lia|]. eapply pause_bounded_trans; [|exact Ho|exact Hp]. lia.
  - destruct Hp as [Hw Hp]. pose proof (pause_bounded_trans _ _ _ _ _ _ (Z.le_refl _) Ho Hp) as Hop.
    destruct (Z.ltb_spec until (t + d + w)); [split; [lia|]; eapply pause_bounded_trans; [|exact Hop|apply pause_bounded_refl]; lia|].
    specialize (IH b' (t + d + w) ltac:(lia)). destruct (wait_token _ _ _ _ _) as [[r b1] t1]. destruct IH as [? Hb].
    split; [lia|]. eapply pause_bounded_trans; [|exact Hop|exact Hb]. lia.
  - split; [lia|]. eapply pause_bounded_trans; [|exact Ho|exact Hp]. lia.
Qed.

Lemma jitter_below_range cap attempt nanos : 0 <= cap -> 0 <= jitter_below cap attempt nanos <= cap.
Proof.
  intros Hc. unfold jitter_below. destruct (Z.eqb_spec (cap mod U64) 0); [lia|].
  assert (0 < cap mod U64) by (pose proof (Z.mod_pos_bound cap U64 eq_refl); lia).
  match goal with |- 0 <= ?x mod _ <= _ => pose proof (Z.mod_pos_bound x (cap mod U64)) end.
  pose proof (Z.mod_le cap U64 Hc eq_refl). lia.
Qed.

Section call_lemmas.
Context (instant_max : Z) (parse_http_date : string -> option Z) (from_str : string -> result string Value).
Context (limits : ReadLimits) (pinned_backoff : Z).
Context (url endpoint : string) (cacheable : bool) (started : Z).
Context (Hdeadline : 0 <= rl_call_deadline limits) (Hpin : 0 <= pinned_backoff) (Hback : 0 <= rl_max_backoff limits).

Abbreviation D := (started + rl_call_deadline limits).
Abbreviation run := (run_attempt instant_max parse_http_date limits pinned_backoff url endpoint cacheable started).
Abbreviation reply := (read_reply instant_max limits url cacheable started).

Lemma remaining_in_time t : t <= D -> remaining limits started t = D - t.
Proof. unfold remaining. lia. Qed.

(** A bounded wait inside a call keeps the call inside its deadline. *)
Lemma timeout_in_time {A} (op : option (Z * A)) t :
  t <= D -> delay_ok op -> t <= (timeout (remaining limits started t) op t).2 <= D.
Proof. intros Ht Hop. rewrite remaining_in_time by done. pose proof (timeout_time (D - t) op t ltac:(lia) Hop). lia. Qed.

Lemma read_reply_time r st t :
  t <= D -> delay_ok (re_body r) ->
  let '(_, st', t') := reply r st t in t <= t' <= D /\ cs_bucket st' = cs_bucket st.
Proof.
  intros Ht Hb. unfold read_reply. pose proof (timeout_in_time (re_body r) t Ht Hb) as H.
  destruct (timeout _ (re_body r) t) as [body t']. simpl in H.
  destruct (is_success _); [destruct body as [[]|]|]; done.
Qed.

Lemma parse_retry_after_nonneg h s d : parse_retry_after parse_http_date h s = Some d -> 0 <= d.
Proof.
  unfold parse_retry_after. destruct h as [raw|]; [|done]. destruct (parse_u64 (trim raw)) as [n|] eqn:Hp.
  - intros [= <-]. apply parse_unsigned_range in Hp; [|done]. unfold from_secs, NANOS. lia.
  - destruct (parse_http_date _); [|done]. intros [= <-]. lia.
Qed.

Lemma run_attempt_bounds env attempt st t :
  t <= D -> env_ok pinned_backoff env ->
  let '(r, st', t') := run env attempt st t in
  t <= t' <= D /\ pause_bounded pinned_backoff t' (cs_bucket st) (cs_bucket st') /\
  match r with Stepped _ (Some d) => 0 <= d | _ => True end.
Proof.
  intros Ht (Htok & Hmean & Hper & Hsend). unfold run_attempt. rewrite remaining_in_time by done. replace (t + (D - t)) with D by lia.
  pose proof (wait_token_bounds _ limits D (ae_turns env) Htok (cs_bucket st) t Ht) as H1.
  destruct (wait_token _ _ _ _ _) as [[w b1] t1]. destruct H1 as [H1 Hb1]. cbv zeta. cbn [cs_cache cs_bucket].
  destruct w; [|done..].
  pose proof (timeout_in_time _ t1 ltac:(lia) Hper) as H2.
  destruct (timeout _ (ae_permit env) t1) as [permit t2]. simpl in H2.
  assert (Hb2 : pause_bounded pinned_backoff t2 (cs_bucket st) b1) by (eapply pause_bounded_trans; [|exact Hb1|apply pause_bounded_refl]; lia).
  destruct permit as [[?|?]|]; [|split; [lia|done]..].
  destruct (_ =? 0); [split; [lia|done]|].
  assert (Hs : delay_ok (ae_send env)) by (destruct (ae_send env) as [[d []]|]; simpl; tauto).
  pose proof (timeout_in_time _ t2 ltac:(lia) Hs) as H3.
  destruct (timeout _ (ae_send env) t2) as [sent t3] eqn:Hto. simpl in H3.
  destruct sent as [outcome|]; [|split; [lia|]; split; [eapply pause_bounded_trans; [|exact Hb2|apply pause_bounded_refl]; lia|done]].
  apply timeout_Some in Hto as [d Hd]. rewrite Hd in Hsend.
  assert (Hb3 : pause_bounded pinned_backoff t3 (cs_bucket st) (ae_meanwhile env t3 b1))
    by (eapply pause_bounded_trans; [|exact Hb2|apply Hmean]; lia).
  destruct outcome as [r|e]; [|split; [lia|done]]. destruct Hsend as [_ Hbody]. cbv zeta.
  set (ra := if is_retryable_status (re_status r) then _ else None).
  assert (Hra : forall delay, ra = Some delay -> 0 <= delay).
  { intros delay. unfold ra. destruct (is_retryable_status _); [|done]. by apply parse_retry_after_nonneg. }
  set (b4 := match ra with Some delay => _ | None => _ end).
  assert (Hb4 : pause_bounded pinned_backoff t3 (cs_bucket st) b4).
  { unfold b4. destruct ra as [delay|]; [|done]. eapply pause_bounded_trans; [|exact Hb3|by apply pause_for_bounded, Hra]. lia. }
  pose proof (read_reply_time r (MkClientState (cs_cache st) b4) t3 ltac:(lia) Hbody) as Hr.
  destruct (reply r _ t3) as [[step st'] t4]. destruct Hr as [? Eb]. cbn [cs_bucket] in Eb. rewrite Eb.
  split; [lia|]. split; [eapply pause_bounded_trans; [|exact Hb4|apply pause_bounded_refl]; lia|]. destruct ra as [delay|]; [by apply Hra|done].
Qed.

Lemma wait_token_panics until turns : forall b t b' t', wait_token limits until turns b t = (TokenPanicked, b', t') -> no_wait_for limits b'.
Proof.
  induction turns as [|[d f] turns IH]; intros b t b' t'; cbn [wait_token]; [done|]. destruct (until <? t + d); [done|].
  destruct (take_token limits (t + d) (f (t + d) b)) as [w c|c|w c|c] eqn:E; [destruct (_ <? _); [done|by apply IH]|done|destruct (_ <? _); [done|by apply IH]|].
  intros [= <- <-]. unfold take_token in E. assert (Hu : unpaused_turn limits (t + d) (f (t + d) b) = Panics c).
  { destruct (bk_paused_until _); [|done]. by destruct (_ <? _). }
  unfold unpaused_turn in Hu. destruct (f64_ge _ _) eqn:Hge; [done|]. destruct (from_secs_f64 _) eqn:Hw; [done|]. injection Hu as <-. done.
Qed.
Lemma run_attempt_cause env attempt st t : t <= D ->
  match (run env attempt st t).1.1 with
  | TokenPanic => no_wait_for limits (cs_bucket (run env attempt st t).1.2)
  | Early (RdUnavailable ep k _) => ep = endpoint /\ k = attempt
  | Early _ => False
  | Stepped (Done body) _ => delivered env body
  | Stepped (StepRejected status _) _ => refused env status
  | Stepped (Retry _) _ => repeatable env
  | Stepped StepExpired _ => True
  end.
Proof.
  intros Ht. unfold run_attempt. rewrite remaining_in_time by done. replace (t + (D - t)) with D by lia.
  destruct (wait_token _ _ _ _ _) as [[w b1] t1] eqn:Hw. cbv zeta. destruct w; [|done|exact (wait_token_panics _ _ _ _ _ _ Hw)].
  destruct (timeout _ (ae_permit env) t1) as [[[?|?]|] t2]; try done.
  destruct (_ =? 0); [done|].
  destruct (timeout _ (ae_send env) t2) as [[outcome|] t3] eqn:Hto; [|done].
  apply timeout_Some in Hto as [d Hd]. destruct outcome as [r|e]; [|simpl; unfold repeatable; by rewrite Hd].
  match goal with |- context [read_reply _ _ _ _ _ r ?s t3] => generalize s end. intros st0.
  unfold read_reply. destruct (timeout _ (re_body r) t3) as [body t4] eqn:Hb.
  destruct (is_success (re_status r)) eqn:Hs.
  - destruct body as [[body|e]|]; simpl; [| |done]; apply timeout_Some in Hb as [d' Hb].
    + exists d, r, d'. done.
    + unfold repeatable. rewrite Hd. right. eauto.
  - destruct (is_retryable_status (re_status r)) eqn:Hre; simpl.
    + unfold repeatable. rewrite Hd. by left.
    + exists d, r. done.
Qed.

(** Why a call ended with the bucket at [b], of which the attempts past [first] and
    up to [last] were made: every attempt but the last could be repeated. *)
Definition after_retries (env : Z -> AttemptEnv) (first last : Z) (P : Z -> Prop) : Prop :=
  exists k, first < k <= last /\ (forall j, first < j < k -> repeatable (env j)) /\ P k.
Definition ended (env : Z -> AttemptEnv) (first last : Z) (res : Outcome) (b : Bucket) : Prop :=
  match res with
  | Panicked => after_retries env first last (fun _ => no_wait_for limits b)
  | Returned (Ok v) => after_retries env first last (fun k => exists body, delivered (env k) body /\ from_str body = Ok v)
  | Returned (Err (RdSchema ep _)) => ep = endpoint /\
      after_retries env first last (fun k => exists body e, delivered (env k) body /\ from_str body = Err e)
  | Returned (Err (RdRejected ep status _)) => ep = endpoint /\ after_retries env first last (fun k => refused (env k) status)
  | Returned (Err (RdUnavailable ep k _)) => ep = endpoint /\ first <= k <= last /\ (forall j, first < j < k -> repeatable (env j))
  end.
Lemma after_retries_later env first last P : repeatable (env (first + 1)) -> after_retries env (first + 1) last P -> after_retries env first last P.
Proof.
  intros Hr (k & Hk & Hj & H). exists k. split; [lia|]. split; [|done]. intros j Hj'. destruct (Z.eq_dec j (first + 1)) as [->|]; [done|]. apply Hj. lia.
Qed.
Lemma ended_later env first last res b : repeatable (env (first + 1)) ->
  ended env (first + 1) last res b -> ended env first last res b.
Proof.
  intros Hr. destruct res as [[v|[]]|]; simpl; [by apply after_retries_later| | | |by apply after_retries_later].
  - intros (-> & Hk & Hj). split_and!; [done|lia|lia|]. intros j Hj'. destruct (Z.eq_dec j (first + 1)) as [->|]; [done|]. apply Hj. lia.
  - intros [-> H]. split; [done|by apply after_retries_later].
  - intros [-> H]. split; [done|by apply after_retries_later].
Qed.
Lemma ended_now env attempt last (P : Z -> Prop) : attempt + 1 <= last -> P (attempt + 1) -> after_retries env attempt last P.
Proof. intros Hl HP. exists (attempt + 1). split; [lia|]. split; [intros; lia|done]. Qed.

Abbreviation loop := (attempts instant_max parse_http_date from_str limits pinned_backoff url endpoint cacheable started).

Lemma attempts_spec env left : (forall k, env_ok pinned_backoff (env k)) -> forall attempt reason st t,
  t <= D ->
  let '(res, st', t') := loop env left attempt reason st t in
  t <= t' <= D /\ pause_bounded pinned_backoff t' (cs_bucket st) (cs_bucket st') /\ ended env attempt (attempt + Z.of_nat left) res (cs_bucket st').
Proof.
  intros Henv. induction left as [|left IH]; intros attempt reason st t Ht; cbn [attempts].
  { split; [lia|]. split; [apply pause_bounded_refl|]. simpl. split_and!; [done|lia|lia|]. intros. lia. }
  pose proof (run_attempt_bounds (env (attempt + 1)) (attempt + 1) st t Ht (Henv _)) as Hrun.
  pose proof (run_attempt_cause (env (attempt + 1)) (attempt + 1) st t Ht) as Hc.
  destruct (run (env (attempt + 1)) (attempt + 1) st t) as [[r st1] t1]. cbn [fst snd] in Hc.
  destruct Hrun as (H1 & H2 & H3).
  assert (Hun : forall reason' b, ended env attempt (attempt + Z.of_nat (S left)) (Returned (Err (RdUnavailable endpoint (attempt + 1) reason'))) b).
  { intros reason' b. simpl. split_and!; [done|lia|lia|]. intros. lia. }
  destruct r as [e| |[body|status body|reason'|] ra].
  - destruct e; [|done..]. destruct Hc as [-> ->]. split_and!; [lia|lia|done|apply Hun].
  - split_and!; [lia|lia|done|]. apply ended_now; [lia|done].
  - split_and!; [lia|lia|done|]. unfold parse_body. destruct (from_str body) as [v|e] eqn:Hp; simpl; [|split; [done|]]; apply ended_now; eauto; lia.
  - split_and!; [lia|lia|done|]. split; [done|]. apply ended_now; [lia|done].
  - destruct left as [|left]; [split_and!; [lia|lia|done|apply Hun]|].
    destruct (Z.leb_spec (remaining limits started t1) (backoff limits (env (attempt + 1)) (attempt + 1) ra)) as [|Hw]; [split_and!; [lia|lia|done|apply Hun]|].
    set (w := backoff _ _ _ _) in *.
    assert (0 <= w).
    { unfold w, backoff. destruct ra as [d|]; [done|]. apply jitter_below_range.
      unfold exponential, MILLIS, u64_max. lia. }
    rewrite remaining_in_time in Hw by lia.
    specialize (IH (attempt + 1) reason' st1 (t1 + w) ltac:(lia)).
    destruct (loop env (S left) (attempt + 1) reason' st1 (t1 + w)) as [[res st2] t2].
    destruct IH as (? & ? & Hend). split; [lia|]. split; [eapply (pause_bounded_trans _ t1); [lia|done|done]|].
    apply ended_later; [done|]. replace (attempt + Z.of_nat (S (S left))) with (attempt + 1 + Z.of_nat (S left)) by lia. exact Hend.
  - split_and!; [lia|lia|done|apply Hun].
Qed.
End call_lemmas.

(** ** Properties *)

(** C38. A call ends in time and for a reason.  Whatever the network and the server
    do, and whatever the other readers of the host do to the shared limiter within
    the rule below, a call ends within [call_deadline] of being made.  It ends by
    returning, unless the bucket it leaves is short of a token and the time until
    it has one is no duration -- which is what a rate of zero gives,
    [zero_rate_panics] -- where it panics.
    A live cached body of its own URL is returned at once, without a token.
    Otherwise it returns a value only from a delivered 2xx body, a rejection only
    for a 4xx (or other non-retryable) answer, and repeats a request, at most
    [max_attempts] times, only after a transport failure, 408, 429, 5xx or a
    broken body; every error names its own endpoint.  And it keeps the rule it
    relies on: the pause it leaves on the limiter reaches at most the pinned
    backoff past its end or was there before, and a pause in force is not
    shortened. *)
Theorem call_ends_in_time instant_max http_date from_str base_url limits pinned env path st t :
  0 <= rl_call_deadline limits -> 0 <= rl_max_backoff limits -> 0 <= rl_max_attempts limits ->
  (forall k, env_ok pinned (env k)) ->
  let '(res, st', t') := get_json instant_max http_date from_str base_url limits pinned env path st t in
  t <= t' <= t + rl_call_deadline limits /\
  pause_bounded pinned t' (cs_bucket st) (cs_bucket st') /\
  match (if request_is_cacheable path then (cache_get (url_of base_url path) t (cs_cache st)).1 else None) with
  | Some body => res = Returned (parse_body from_str (endpoint_of path) body) /\ t' = t /\ cs_bucket st' = cs_bucket st
  | None => ended from_str limits (endpoint_of path) env 0 (rl_max_attempts limits) res (cs_bucket st')
  end.
Proof.
  intros Hd Hb Hm Henv. unfold get_json. set (url := url_of base_url path). set (endpoint := endpoint_of path).
  assert (Hcall : forall cacheable st0,
    let '(res, st', t') := attempts instant_max http_date from_str limits pinned url endpoint cacheable t env
      (Z.to_nat (rl_max_attempts limits)) 0 NoReason st0 t in
    t <= t' <= t + rl_call_deadline limits /\ pause_bounded pinned t' (cs_bucket st0) (cs_bucket st') /\
    ended from_str limits endpoint env 0 (rl_max_attempts limits) res (cs_bucket st')).
  { intros cacheable st0.
    pose proof (attempts_spec instant_max http_date from_str limits pinned url endpoint cacheable t Hb env
      (Z.to_nat (rl_max_attempts limits)) Henv 0 NoReason st0 t ltac:(lia)) as H. rewrite Z2Nat.id in H by done. exact H. }
  destruct (request_is_cacheable path).
  - destruct (cache_get url t (cs_cache st)) as [[body|] cache]; [split; [lia|]; split; [apply pause_bounded_refl|done]|].
    exact (Hcall true (MkClientState cache (cs_bucket st))).
  - exact (Hcall false st).
Qed.

(** A server that answers 429 with a one-day [Retry-After]. *)
Definition throttling : AttemptEnv :=
  MkAttemptEnv [(0, fun _ b => b)] (Some (0, Ok tt)) (Some (7, Ok (MkReply 429 (Some "86400") None (Some (0, Ok ""))))) (fun _ b => b) 0.
Definition poll_limits : ReadLimits := clamp shipped_policy (for_block_poll shipped_policy Controller).
Definition fresh_client : ClientState := MkClientState (cache_new 64) (bucket_new poll_limits 0).
Lemma throttling_ok bound : env_ok bound throttling.
Proof.
  assert (Hid : others_ok bound (fun _ b => b)) by (intros t b; apply pause_bounded_refl).
  split; [by apply Forall_singleton|]. split; [done|]. simpl. lia.
Qed.
Example call_ends_in_time_witness :
  let '(res, st', t') := get_json 0 (fun _ => None) (fun _ => Err "") "http://x" poll_limits
    (pinned_max_backoff shipped_policy) (fun _ => throttling) "get-block?include_data=true" fresh_client 100 in
  res = Returned (Err (RdUnavailable "get-block" 1 (DeadlineReached "before the next backoff" 1))) /\ t' = 107 /\
  t' <= 100 + rl_call_deadline poll_limits /\ bk_paused_until (cs_bucket st') = Some (107 + from_secs 60).
Proof.
  pose proof (call_ends_in_time 0 (fun _ => None) (fun _ => Err "") "http://x" poll_limits
    (pinned_max_backoff shipped_policy) (fun _ => throttling) "get-block?include_data=true" fresh_client 100
    ltac:(vm_compute; discriminate) ltac:(vm_compute; discriminate) ltac:(vm_compute; discriminate)
    (fun _ => throttling_ok _)) as H.
  destruct (get_json _ _ _ _ _ _ _ _ _ _) as [[res st'] t'] eqn:E. destruct H as ((_ & Hle) & _).
  vm_compute in E. injection E as <- <- <-. split; [reflexivity|]. split; [reflexivity|]. split; [exact Hle|].
  reflexivity.
Defined.

(** No token is handed out while a server-instructed pause is in force. *)
Lemma paused_hands_out_nothing l now b b' u :
  bk_paused_until b = Some u -> take_token l now b = Taken b' -> u <= now.
Proof. unfold take_token. intros ->. destruct (Z.ltb_spec now u); [done|lia]. Qed.

(** A share of zero requests per second passes the load-time check.  The first
    wait for a token on an empty bucket then panics, since the wait it computes is
    infinite, and takes the call with it; a full bucket hides it until then. *)
Definition zero_rate : ReadLimits := MkLimits 0 1 1 0 0 (from_secs 10) 0 1.
Definition call_at_zero_rate (tokens : Z) : Outcome :=
  (get_json 0 (fun _ => None) (fun _ => Err "") "http://x" zero_rate 0 (fun _ => throttling) "get-block"
    (MkClientState (cache_new 64) (MkBucket (f64_from tokens) 0 None)) 0).1.1.
Example zero_rate_panics :
  is_Ok (from_config_json (fun _ => Ok (limits_document 0 1)) (fun _ => "") "") = true /\
  take_token zero_rate 0 (MkBucket (f64_from 0) 0 None) = Panics (MkBucket (f64_from 0) 0 None) /\
  call_at_zero_rate 0 = Panicked /\ call_at_zero_rate 1 <> Panicked /\
  take_token (MkLimits 2 1 1 0 0 0 0 1) 0 (MkBucket (f64_from 0) 0 None) =
    Sleep (NANOS / 2) (MkBucket (f64_from 0) 0 None).
Proof. vm_compute. split_and!; done. Qed.

(** One limiter per host: a client is given the limiter its host already has,
    and only when it agrees with that limiter on every rate. *)
Lemma shared_limiter_agrees fresh url l reg id reg' :
  shared_limiter fresh url l reg = Ok (id, reg') ->
  exists r, reg' !! limiter_key url = Some r /\ rg_id r = id /\ same_rates (rg_limits r) l = true /\
    (forall old, reg !! limiter_key url = Some old -> (0 < rg_clients old)%nat ->
       rg_id old = id /\ rg_limits r = rg_limits old /\ rg_clients r = S (rg_clients old)).
Proof.
  unfold shared_limiter. destruct (filter _ reg !! limiter_key url) as [e|] eqn:He.
  - destruct (same_rates (rg_limits e) l) eqn:Hs; [|done]. simpl. intros [= <- <-].
    eexists. rewrite lookup_insert_eq. split; [reflexivity|]. simpl. split; [done|]. split; [done|].
    intros old Hold Hlive. apply map_lookup_filter_Some in He as [He _]. rewrite Hold in He. by injection He as ->.
  - intros [= <- <-]. eexists. rewrite lookup_insert_eq. split; [reflexivity|]. simpl. split; [done|].
    split; [unfold same_rates; by rewrite !Z.eqb_refl|].
    intros old Hold Hlive. apply map_lookup_filter_None in He as [He|He]; [congruence|].
    by destruct (He old Hold).
Qed.
Example hosts_spelled_differently :
  limiter_key "https://Example.org/api" = "example.org" /\ limiter_key "https://user@example.org:443" = "example.org" /\
  limiter_key "http://example.org:443" = "example.org:443".
Proof. vm_compute. auto. Qed.
