(* ===== verification/Domain.v ===== *)
(** * Shared domain types: [crates/pool-domain]

    The network name, the W3C trace id with its hexadecimal codec, and the
    block-derived challenge-tie draw.  BLAKE3 ([blake3::hash]) and the
    operating system's randomness ([getrandom::fill]) are third-party code and
    appear as parameters. *)
From S2P Require Import Prelude BTreeMap.

(** ** [Network] *)

Inductive Network := Testnet | Mainnet.

#[export] Instance Network_eq_dec : EqDecision Network.
Proof. solve_decision. Defined.
#[export] Instance Network_countable : Countable Network.
Proof.
  refine (inj_countable' (fun n => match n with Testnet => true | Mainnet => false end)
            (fun b : bool => if b then Testnet else Mainnet) _).
  by intros [].
Defined.

Definition Network_as_str (n : Network) : string :=
  match n with Testnet => "testnet" | Mainnet => "mainnet" end.

Definition Network_from_str (s : string) : result string Network :=
  if decide (s = "testnet") then Ok Testnet
  else if decide (s = "mainnet") then Ok Mainnet
  else Err s.

(** ** Bytes and hexadecimal

    A [u8] is a [Z] in [0, 255]; an array [[u8; n]] is a list of them. *)

Definition is_u8 (b : Z) : bool := (0 <=? b)%Z && (b <=? 255)%Z.
Definition bytes_ok (n : nat) (bs : list Z) : Prop :=
  length bs = n /\ Forall (fun b => is_u8 b = true) bs.

Definition byte_of_ascii (c : Ascii.ascii) : Z := Z.of_N (Ascii.N_of_ascii c).
(** [str::as_bytes]. *)
Definition as_bytes (s : string) : list Z :=
  map byte_of_ascii (String.list_ascii_of_string s).
(** The text of bytes that are valid UTF-8. *)
Definition string_of_bytes (l : list Z) : string := String.string_of_list_ascii (map (fun b => Ascii.ascii_of_N (Z.to_N b)) l).

Definition hex_digit (d : Z) : Ascii.ascii :=
  Ascii.ascii_of_N (Z.to_N (if (d <? 10)%Z then 48 + d else 87 + d)).
(** [format!("{b:02x}")] on a byte. *)
Definition hex_byte (b : Z) : string :=
  String (hex_digit (b / 16)) (String (hex_digit (b mod 16)) EmptyString).
(** The fold both [DrawRank::to_hex] and [TraceId::to_hex] write. *)
Fixpoint to_hex (bs : list Z) : string :=
  match bs with
  | [] => EmptyString
  | b :: bs' => String.append (hex_byte b) (to_hex bs')
  end.
(** The value of a lowercase hexadecimal digit, as [u8::from_str_radix] reads it. *)
Definition hex_value (c : Ascii.ascii) : Z :=
  let n := byte_of_ascii c in if (n <=? 57)%Z then n - 48 else n - 87.
Fixpoint parse_pairs (s : string) : list Z :=
  match s with
  | String c1 (String c2 s') => (16 * hex_value c1 + hex_value c2)%Z :: parse_pairs s'
  | _ => []
  end.

(** ** [TraceId] *)

Record TraceId := MkTraceId { trace_bytes : list Z }.
#[export] Instance TraceId_eq_dec : EqDecision TraceId.
Proof. solve_decision. Defined.

Inductive TraceIdError :=
| WrongLength (chars : nat)
| NotLowercaseHex (s : string)
| AllZero
| TraceUnavailable (s : string).

Definition zero16 : list Z := replicate 16 0%Z.

Definition TraceId_to_hex (t : TraceId) : string := to_hex (trace_bytes t).

(** The per-pair [from_str_radix] error branch is unreachable after the
    lowercase-hex test, as the source notes. *)
Definition TraceId_from_str (s : string) : result TraceIdError TraceId :=
  if negb (String.length s =? 32)%nat then Err (WrongLength (char_count s))
  else if negb (all_bytes is_lower_hex s) then Err (NotLowercaseHex s)
  else
    let bytes := parse_pairs s in
    if decide (bytes = zero16) then Err AllZero
    else Ok (MkTraceId bytes).

(** [TraceId::draw] against the outcomes [getrandom::fill] produces, in order:
    bytes or an error.  [None] when every outcome supplied was consumed, i.e.
    the recursion has not returned yet. *)
Fixpoint TraceId_draw (os : list (result string (list Z))) : option (result TraceIdError TraceId) :=
  match os with
  | [] => None
  | Err e :: _ => Some (Err (TraceUnavailable e))
  | Ok bytes :: os' =>
      if decide (bytes = zero16) then TraceId_draw os' else Some (Ok (MkTraceId bytes))
  end.

(** ** The challenge-tie draw *)

Definition CHALLENGE_TIE_DOMAIN : string := "tig-pool-challenge-tie-v1".
Definition newline : string := String (Ascii.ascii_of_N 10) EmptyString.

Record DrawRank := MkDrawRank { rank_bytes : list Z }.
#[export] Instance DrawRank_eq_dec : EqDecision DrawRank.
Proof. solve_decision. Defined.

(** The derived [Ord] of a byte array: lexicographic. *)
Fixpoint bytes_compare (a b : list Z) : comparison :=
  match a, b with
  | [], [] => Eq
  | [], _ :: _ => Lt
  | _ :: _, [] => Gt
  | x :: a', y :: b' => match Z.compare x y with Eq => bytes_compare a' b' | c => c end
  end.
Definition rank_lt (a b : DrawRank) : bool :=
  match bytes_compare (rank_bytes a) (rank_bytes b) with Lt => true | _ => false end.
Definition DrawRank_to_hex (r : DrawRank) : string := to_hex (rank_bytes r).

Definition challenge_tie_preimage (network : Network) (block_id : string) : string :=
  String.append CHALLENGE_TIE_DOMAIN
    (String.append newline (String.append (Network_as_str network)
       (String.append newline block_id))).

Section draw.
Context (blake3 : list Z -> list Z).

Definition challenge_tie_seed (network : Network) (block_id : string) : list Z :=
  blake3 (as_bytes (challenge_tie_preimage network block_id)).

(** The incremental hasher digests the concatenation of its updates. *)
Definition draw_rank_preimage (seed : list Z) (challenge_id : string) : list Z :=
  seed ++ as_bytes newline ++ as_bytes challenge_id.
Definition draw_rank (seed : list Z) (challenge_id : string) : DrawRank :=
  MkDrawRank (blake3 (draw_rank_preimage seed challenge_id)).

Definition draw_ranks (network : Network) (block_id : string) (challenge_ids : list string)
  : btree DrawRank :=
  let seed := challenge_tie_seed network block_id in
  bt_collect (map (fun id => (id, draw_rank seed id)) challenge_ids).
End draw.

(** The big-endian value of a byte string. *)
Fixpoint be_value (bs : list Z) : Z :=
  match bs with
  | [] => 0
  | b :: bs' => b * 256 ^ Z.of_nat (length bs') + be_value bs'
  end.

(** ** Lemmas: hexadecimal *)

Lemma Network_roundtrip n : Network_from_str (Network_as_str n) = Ok n.
Proof. by destruct n. Qed.

Lemma is_u8_spec b : is_u8 b = true <-> (0 <= b <= 255)%Z.
Proof. unfold is_u8. rewrite andb_true_iff, !Z.leb_le. lia. Qed.

Lemma byte_of_ascii_range c : (0 <= byte_of_ascii c <= 255)%Z.
Proof.
  unfold byte_of_ascii. pose proof (Ascii.N_ascii_bounded c). lia.
Qed.

Lemma N_of_hex_digit d :
  (0 <= d < 16)%Z ->
  byte_of_ascii (hex_digit d) = (if (d <? 10)%Z then 48 + d else 87 + d)%Z.
Proof.
  intros Hd. unfold byte_of_ascii, hex_digit.
  rewrite Ascii.N_ascii_embedding; destruct (Z.ltb_spec d 10); lia.
Qed.

Lemma hex_value_digit d : (0 <= d < 16)%Z -> hex_value (hex_digit d) = d.
Proof.
  intros Hd. unfold hex_value. rewrite N_of_hex_digit by done.
  destruct (Z.ltb_spec d 10); [rewrite (proj2 (Z.leb_le _ _)) by lia; lia|].
  rewrite (proj2 (Z.leb_gt _ _)) by lia. lia.
Qed.

Lemma is_lower_hex_spec c :
  is_lower_hex c = true <->
  (48 <= byte_of_ascii c <= 57 \/ 97 <= byte_of_ascii c <= 102)%Z.
Proof.
  unfold is_lower_hex, is_ascii_digit, byte_of_ascii.
  rewrite orb_true_iff, !andb_true_iff, !N.leb_le. lia.
Qed.

Lemma hex_digit_lower d : (0 <= d < 16)%Z -> is_lower_hex (hex_digit d) = true.
Proof.
  intros Hd. apply is_lower_hex_spec. rewrite N_of_hex_digit by done.
  destruct (Z.ltb_spec d 10); lia.
Qed.

Lemma hex_digit_value c : is_lower_hex c = true -> hex_digit (hex_value c) = c.
Proof.
  intros Hc%is_lower_hex_spec. rewrite <- (Ascii.ascii_N_embedding c) at 2.
  unfold hex_digit, hex_value. f_equal. unfold byte_of_ascii in *.
  destruct (Z.leb_spec (Z.of_N (Ascii.N_of_ascii c)) 57).
  - rewrite (proj2 (Z.ltb_lt _ _)) by lia. lia.
  - rewrite (proj2 (Z.ltb_ge _ _)) by lia. lia.
Qed.

Lemma hex_value_range c : is_lower_hex c = true -> (0 <= hex_value c < 16)%Z.
Proof.
  intros Hc%is_lower_hex_spec. unfold hex_value.
  destruct (Z.leb_spec (byte_of_ascii c) 57); lia.
Qed.

Lemma as_bytes_u8 s : Forall (fun b => is_u8 b = true) (as_bytes s).
Proof.
  unfold as_bytes. apply Forall_forall. intros b (c & -> & _)%list_elem_of_fmap. apply is_u8_spec. unfold byte_of_ascii. pose proof (Ascii.N_ascii_bounded c). lia.
Qed.
Lemma string_of_as_bytes s : string_of_bytes (as_bytes s) = s.
Proof.
  unfold string_of_bytes, as_bytes. rewrite map_map. induction s as [|c s IH]; [done|]. simpl. unfold byte_of_ascii at 1. by rewrite N2Z.id, Ascii.ascii_N_embedding, IH.
Qed.
Lemma to_hex_cons b bs :
  to_hex (b :: bs) = String (hex_digit (b / 16)) (String (hex_digit (b mod 16)) (to_hex bs)).
Proof. reflexivity. Qed.
Lemma to_hex_length bs : String.length (to_hex bs) = (2 * length bs)%nat.
Proof. induction bs as [|b bs IH]; [done|]. rewrite to_hex_cons. simpl. rewrite IH. lia. Qed.

Lemma hex_nibbles b : is_u8 b = true -> (0 <= b / 16 < 16 /\ 0 <= b mod 16 < 16)%Z.
Proof.
  intros Hb%is_u8_spec. split; [|by apply Z.mod_pos_bound].
  split; [apply Z.div_pos; lia|]. apply Z.div_lt_upper_bound; lia.
Qed.

Lemma to_hex_lower bs :
  Forall (fun b => is_u8 b = true) bs -> all_bytes is_lower_hex (to_hex bs) = true.
Proof.
  induction 1 as [|b bs Hb Hbs IH]; [done|]. rewrite to_hex_cons. simpl.
  destruct (hex_nibbles b Hb). by rewrite !hex_digit_lower, IH.
Qed.

Lemma parse_to_hex bs :
  Forall (fun b => is_u8 b = true) bs -> parse_pairs (to_hex bs) = bs.
Proof.
  induction 1 as [|b bs Hb Hbs IH]; [done|]. rewrite to_hex_cons. simpl.
  destruct (hex_nibbles b Hb). rewrite !hex_value_digit, IH by done.
  f_equal. pose proof (Z.div_mod b 16). lia.
Qed.

Lemma parse_pairs_hex s : forall n,
  String.length s = (2 * n)%nat -> all_bytes is_lower_hex s = true ->
  to_hex (parse_pairs s) = s /\ bytes_ok n (parse_pairs s).
Proof.
  intros n. revert s. induction n as [|n IH]; intros [|c1 [|c2 s]]; cbn [String.length all_bytes]; try lia.
  - intros _ _. repeat split. constructor.
  - intros Hlen. rewrite !andb_true_iff. cbn [parse_pairs]. intros (H1 & H2 & Hs).
    destruct (IH s ltac:(lia) Hs) as (E & Hl & Hok).
    pose proof (hex_value_range _ H1). pose proof (hex_value_range _ H2).
    assert (Hd : ((16 * hex_value c1 + hex_value c2) / 16 = hex_value c1)%Z).
    { rewrite Z.add_comm, Z.mul_comm, Z.div_add by done. rewrite Z.div_small; lia. }
    assert (Hm : ((16 * hex_value c1 + hex_value c2) mod 16 = hex_value c2)%Z).
    { rewrite Z.add_comm, Z.mul_comm, Z.mod_add by done. apply Z.mod_small; lia. }
    rewrite to_hex_cons, Hd, Hm, !hex_digit_value, E by done. split; [done|].
    split; [simpl; by rewrite Hl|]. constructor; [apply is_u8_spec; lia|done].
Qed.

(** What a [TraceId] value can hold, and that its text parses back. *)
Definition trace_ok (t : TraceId) : Prop := bytes_ok 16 (trace_bytes t) /\ trace_bytes t <> zero16.
Lemma TraceId_hex_parses t : trace_ok t -> TraceId_from_str (TraceId_to_hex t) = Ok t.
Proof.
  destruct t as [bytes]. intros [[Hlen Hok] Hnz]. unfold TraceId_from_str, TraceId_to_hex. simpl in *.
  rewrite to_hex_length, Hlen. simpl. rewrite to_hex_lower, parse_to_hex by done. by rewrite decide_False.
Qed.

(** ** Lemmas: the byte order and the draw *)

Lemma be_value_range bs :
  Forall (fun b => is_u8 b = true) bs ->
  (0 <= be_value bs < 256 ^ Z.of_nat (length bs))%Z.
Proof.
  induction 1 as [|b bs Hb Hbs IH]; simpl; [done|].
  apply is_u8_spec in Hb.
  replace (Z.of_nat (S (length bs))) with (Z.succ (Z.of_nat (length bs))) by lia.
  rewrite Z.pow_succ_r by lia. nia.
Qed.

Lemma bytes_compare_be a b :
  length a = length b ->
  Forall (fun x => is_u8 x = true) a -> Forall (fun x => is_u8 x = true) b ->
  bytes_compare a b = Z.compare (be_value a) (be_value b).
Proof.
  revert b; induction a as [|x a IH]; intros [|y b] Hlen Ha Hb; simpl in *; try lia; [done|].
  apply Forall_cons in Ha as [Hx Ha], Hb as [Hy Hb].
  pose proof (be_value_range a Ha). pose proof (be_value_range b Hb).
  apply is_u8_spec in Hx, Hy.
  assert (Hl : length a = length b) by lia. rewrite Hl in *.
  destruct (Z.compare_spec x y) as [->|Hlt|Hgt].
  - rewrite IH by done. symmetry. apply Z.add_compare_mono_l.
  - symmetry. apply Z.compare_lt_iff. nia.
  - symmetry. apply Z.compare_gt_iff. nia.
Qed.

Lemma bytes_compare_refl a : bytes_compare a a = Eq.
Proof. induction a as [|x a IH]; simpl; [done|]. by rewrite Z.compare_refl. Qed.
Lemma bytes_compare_eq a b : bytes_compare a b = Eq <-> a = b.
Proof.
  split; [|intros ->; apply bytes_compare_refl].
  revert b; induction a as [|x a IH]; intros [|y b]; simpl; try done.
  destruct (Z.compare_spec x y) as [->| |]; try done. intros H. f_equal. by apply IH.
Qed.
Lemma bytes_compare_antisym a b : bytes_compare a b = CompOpp (bytes_compare b a).
Proof.
  revert b; induction a as [|x a IH]; intros [|y b]; simpl; try done.
  rewrite Z.compare_antisym. destruct (y ?= x)%Z; simpl; auto.
Qed.
Lemma bytes_compare_trans a b c :
  bytes_compare a b = Lt -> bytes_compare b c = Lt -> bytes_compare a c = Lt.
Proof.
  revert b c; induction a as [|x a IH]; intros [|y b] [|z c]; simpl; try done.
  destruct (Z.compare_spec x y), (Z.compare_spec y z), (Z.compare_spec x z);
    subst; try done; try lia. apply IH.
Qed.

Lemma as_bytes_inj s t : as_bytes s = as_bytes t -> s = t.
Proof.
  unfold as_bytes. intros H.
  rewrite <- (String.string_of_list_ascii_of_string s), <- (String.string_of_list_ascii_of_string t).
  f_equal. revert H. generalize (String.list_ascii_of_string s) (String.list_ascii_of_string t).
  intros l. induction l as [|c l IH]; intros [|d l']; simpl; try done.
  intros H; injection H as Hc Hl. f_equal; [|by apply IH].
  unfold byte_of_ascii in Hc. rewrite <- (Ascii.ascii_N_embedding c), <- (Ascii.ascii_N_embedding d).
  f_equal. lia.
Qed.

Lemma challenge_tie_preimage_inj n1 b1 n2 b2 :
  challenge_tie_preimage n1 b1 = challenge_tie_preimage n2 b2 -> n1 = n2 /\ b1 = b2.
Proof.
  unfold challenge_tie_preimage, CHALLENGE_TIE_DOMAIN, newline.
  destruct n1, n2; simpl; intros H; by simplify_eq.
Qed.

Lemma draw_rank_preimage_inj s1 c1 s2 c2 :
  length s1 = length s2 ->
  draw_rank_preimage s1 c1 = draw_rank_preimage s2 c2 -> s1 = s2 /\ c1 = c2.
Proof.
  unfold draw_rank_preimage. intros Hl H.
  apply app_inj_1 in H as [-> H]; [|done]. split; [done|].
  apply app_inv_head in H. by apply as_bytes_inj.
Qed.

Lemma bt_collect_map_get {V} (f : string -> V) (ids : list string) id :
  bt_get id (bt_collect (map (fun i => (i, f i)) ids)) =
  if decide (id ∈ ids) then Some (f id) else None.
Proof.
  unfold bt_collect.
  assert (forall m, (forall k v, bt_get k m = Some v -> v = f k) ->
    bt_get id (fold_left (fun m kv => bt_insert kv.1 kv.2 m) (map (fun i => (i, f i)) ids) m) =
    if decide (id ∈ ids) then Some (f id) else bt_get id m) as H.
  { induction ids as [|i ids IH]; intros m Hm; [done|]. cbn [map fold_left fst snd].
    rewrite IH.
    - rewrite bt_get_insert. destruct (decide (id ∈ ids)) as [Hin|Hin].
      + rewrite decide_True; [done|by right].
      + destruct (decide (id = i)) as [->|Hne].
        * rewrite decide_True; [done|by left].
        * rewrite decide_False; [done|]. by intros [?|?]%elem_of_cons.
    - intros k v. rewrite bt_get_insert. destruct (decide (k = i)) as [->|_]; [|apply Hm].
      intros E. by injection E. }
  rewrite H; [done|]. by intros k v.
Qed.

(** ** Properties *)

(** Every byte string a [TraceId] can hold prints to 32 lowercase hexadecimal
    characters that parse back to it, and every text that parses is the one
    spelling its id prints as: no two spellings name one id. *)
Theorem trace_id_roundtrip (bytes : list Z) (s : string) (t : TraceId) :
  (bytes_ok 16 bytes -> bytes <> zero16 ->
     TraceId_from_str (TraceId_to_hex (MkTraceId bytes)) = Ok (MkTraceId bytes)) /\
  (TraceId_from_str s = Ok t ->
     TraceId_to_hex t = s /\ bytes_ok 16 (trace_bytes t) /\ trace_bytes t <> zero16).
Proof.
  split.
  - intros Hok Hnz. by apply TraceId_hex_parses.
  - unfold TraceId_from_str, TraceId_to_hex. destruct (String.length s =? 32)%nat eqn:Hlen; [|done]. apply Nat.eqb_eq in Hlen.
    destruct (all_bytes is_lower_hex s) eqn:Hhex; [|done]. simpl.
    case_decide as Hz; intros; simplify_eq/=.
    destruct (parse_pairs_hex s 16 Hlen Hhex) as [E Hok]. by rewrite E.
Qed.
Example trace_id_roundtrip_witness :
  TraceId_from_str "000f10ff0102030405060708090a0b0c" =
    Ok (MkTraceId [0;15;16;255;1;2;3;4;5;6;7;8;9;10;11;12]%Z) /\
  TraceId_to_hex (MkTraceId [0;15;16;255;1;2;3;4;5;6;7;8;9;10;11;12]%Z) =
    "000f10ff0102030405060708090a0b0c".
Proof.
  pose proof (trace_id_roundtrip [0;15;16;255;1;2;3;4;5;6;7;8;9;10;11;12]%Z
    "000f10ff0102030405060708090a0b0c"
    (MkTraceId [0;15;16;255;1;2;3;4;5;6;7;8;9;10;11;12]%Z)) as [H1 H2].
  split.
  - apply H1; [split; [reflexivity|repeat constructor]|discriminate].
  - apply H2. vm_compute. reflexivity.
Defined.

(** [TraceId::draw] returns the first outcome that is not the all-zero
    sentinel, so a drawn id is never that sentinel. *)
Theorem trace_draw_never_zero os t :
  TraceId_draw os = Some (Ok t) ->
  trace_bytes t <> zero16 /\
  exists zs os', os = replicate zs (Ok zero16) ++ Ok (trace_bytes t) :: os'.
Proof.
  induction os as [|[bytes|e] os IH]; simpl; [done| |done].
  case_decide as Hz; intros H.
  - destruct (IH H) as (Ht & zs & os' & ->). split; [done|].
    exists (S zs), os'. by subst.
  - simplify_eq/=. split; [done|]. by exists 0%nat, os.
Qed.

(** The draw's seed and rank preimages are unambiguous and the rank order is
    the unsigned big-endian order of the 32 bytes: two decisions share a seed
    preimage only when network and anchor block agree, two ranks share a
    preimage only when seed and challenge agree, and the derived byte order of
    two ranks is the order of the integers they spell. *)
Theorem draw_rank_unambiguous n1 b1 n2 b2 (s1 s2 : list Z) (c1 c2 : string) (r1 r2 : DrawRank) :
  (challenge_tie_preimage n1 b1 = challenge_tie_preimage n2 b2 -> n1 = n2 /\ b1 = b2) /\
  (bytes_ok 32 s1 -> bytes_ok 32 s2 ->
     draw_rank_preimage s1 c1 = draw_rank_preimage s2 c2 -> s1 = s2 /\ c1 = c2) /\
  (bytes_ok 32 (rank_bytes r1) -> bytes_ok 32 (rank_bytes r2) ->
     rank_lt r1 r2 = (be_value (rank_bytes r1) <? be_value (rank_bytes r2))%Z).
Proof.
  split_and!.
  - apply challenge_tie_preimage_inj.
  - intros [H1 _] [H2 _]. apply draw_rank_preimage_inj. congruence.
  - intros [H1 Hok1] [H2 Hok2]. unfold rank_lt.
    rewrite bytes_compare_be by (done || congruence).
    unfold Z.ltb. by destruct (Z.compare _ _).
Qed.
