(* ===== verification/Ratio.v ===== *)
(** * Exact rationals: [crates/pool-decision/src/ratio.rs]

    [Ratio] is a non-negative rational with [u128] numerator and denominator,
    kept in lowest terms; every operation is checked.  The reference semantics
    is the standard library's [Q]: [rq r] is the number a ratio denotes, and
    the theorems say each operation computes the exact rational result whenever
    it returns one, and that equal numbers have one representation. *)
From S2P Require Import Prelude.
From Stdlib Require Import QArith Qreduction.
Open Scope Z_scope.

(** ** The Euclidean loop

    [while b != 0 { remainder = a % b; a = b; b = remainder }] with fuel;
    [gcd_loop_terminates] bounds the iterations by twice the bit width. *)
Fixpoint gcd_loop (fuel : nat) (a b : Z) : option Z :=
  if b =? 0 then Some a
  else match fuel with
       | O => None
       | S fuel' => gcd_loop fuel' b (a mod b)
       end.

Definition gcd_fuel (width : nat) : nat := 2 * width + 1.

(** [ratio.rs] [fn gcd]: zero is replaced by one at the end. *)
Definition ratio_gcd (a b : Z) : Z :=
  let a' := default 0 (gcd_loop (gcd_fuel 128) a b) in
  if a' =? 0 then 1 else a'.

Record Ratio := MkRatio { numerator : Z; denominator : Z }.

Inductive RatioError :=
| ZeroDenominator
| Overflow (what : string).

#[export] Instance Ratio_eq_dec : EqDecision Ratio.
Proof. solve_decision. Defined.
#[export] Instance RatioError_eq_dec : EqDecision RatioError.
Proof. solve_decision. Defined.

Definition ratio_ZERO : Ratio := {| numerator := 0; denominator := 1 |}.

Definition ratio_new (n d : Z) : result RatioError Ratio :=
  if d =? 0 then Err ZeroDenominator
  else
    let divisor := ratio_gcd n d in
    Ok {| numerator := n / divisor; denominator := d / divisor |}.

Definition ratio_whole (value : Z) : Ratio := {| numerator := value; denominator := 1 |}.

Definition ratio_is_zero (r : Ratio) : bool := numerator r =? 0.

Definition ratio_checked_add (self other : Ratio) : result RatioError Ratio :=
  let divisor := ratio_gcd (denominator self) (denominator other) in
  let other_scale := denominator other / divisor in
  let? lhs := ok_or (checked_mul_u u128_max (numerator self) other_scale)
                 (Overflow "add: left numerator") in
  let? rhs := ok_or (checked_mul_u u128_max (numerator other) (denominator self / divisor))
                  (Overflow "add: right numerator") in
  let? num := ok_or (checked_add_u u128_max lhs rhs) (Overflow "add: numerator") in
  let? den := ok_or (checked_mul_u u128_max (denominator self) other_scale)
                (Overflow "add: denominator") in
  ratio_new num den.

Definition ratio_checked_mul_int (self : Ratio) (factor : Z) : result RatioError Ratio :=
  let? num := ok_or (checked_mul_u u128_max (numerator self) factor) (Overflow "mul: numerator") in
  ratio_new num (denominator self).

Definition ratio_checked_cmp (self other : Ratio) : result RatioError comparison :=
  let? lhs := ok_or (checked_mul_u u128_max (numerator self) (denominator other))
                 (Overflow "cmp: left") in
  let? rhs := ok_or (checked_mul_u u128_max (numerator other) (denominator self))
                  (Overflow "cmp: right") in
  Ok (lhs ?= rhs).

(** The representation invariant and the number denoted. *)
Definition ratio_wf (r : Ratio) : Prop :=
  0 <= numerator r <= u128_max /\ 0 < denominator r <= u128_max /\
  Z.gcd (numerator r) (denominator r) = 1.
Definition rq (r : Ratio) : Q := Qmake (numerator r) (Z.to_pos (denominator r)).

(** ** The loop terminates and computes the gcd *)

Lemma gcd_loop_terminates (n : nat) : forall a b,
  0 <= a -> 0 <= b < 2 ^ Z.of_nat n -> is_Some (gcd_loop (gcd_fuel n) a b).
Proof.
  unfold gcd_fuel. induction n as [|n IH]; intros a b Ha Hb.
  - simpl. assert (b = 0) as -> by (simpl in Hb; lia). by eexists.
  - replace (2 * S n + 1)%nat with (S (S (2 * n + 1))) by lia. simpl.
    destruct (Z.eqb_spec b 0) as [_|Hb0]; [by eexists|].
    destruct (Z.eqb_spec (a mod b) 0) as [_|Hr0]; [by eexists|].
    pose proof (Z.mod_pos_bound a b ltac:(lia)) as Hr.
    pose proof (Z.mod_pos_bound b (a mod b) ltac:(lia)) as Hr2.
    apply IH; [lia|]. split; [lia|].
    replace (Z.of_nat (S n)) with (Z.succ (Z.of_nat n)) in Hb by lia.
    rewrite Z.pow_succ_r in Hb by lia.
    pose proof (Z.div_mod b (a mod b) Hr0) as Hdm.
    assert (1 <= b / (a mod b)) by (apply Z.div_le_lower_bound; lia). nia.
Qed.

Lemma gcd_loop_correct fuel : forall a b g,
  0 <= a -> 0 <= b -> gcd_loop fuel a b = Some g -> g = Z.gcd a b.
Proof.
  induction fuel as [|fuel IH]; intros a b g Ha Hb; simpl;
    destruct (Z.eqb_spec b 0) as [->|Hb0].
  - intros [= <-]. rewrite Z.gcd_0_r. lia.
  - done.
  - intros [= <-]. rewrite Z.gcd_0_r. lia.
  - intros H%IH; [|lia|apply Z.mod_pos_bound; lia].
    rewrite H, Z.gcd_comm, Z.gcd_mod by done. apply Z.gcd_comm.
Qed.

Lemma gcd_loop_gcd (n : nat) a b :
  0 <= a -> 0 <= b < 2 ^ Z.of_nat n -> gcd_loop (gcd_fuel n) a b = Some (Z.gcd a b).
Proof.
  intros Ha Hb. destruct (gcd_loop_terminates n a b Ha Hb) as [g Hg].
  rewrite Hg. f_equal. eapply gcd_loop_correct; [| |exact Hg]; lia.
Qed.

Lemma ratio_gcd_spec a b :
  0 <= a -> 0 < b <= u128_max -> ratio_gcd a b = Z.gcd a b /\ 0 < Z.gcd a b.
Proof.
  intros Ha Hb. unfold ratio_gcd, u128_max in *.
  rewrite gcd_loop_gcd by (simpl; lia). simpl.
  assert (0 < Z.gcd a b).
  { pose proof (Z.gcd_nonneg a b). enough (Z.gcd a b <> 0) by lia.
    intros H0%Z.gcd_eq_0. lia. }
  destruct (Z.eqb_spec (Z.gcd a b) 0); lia.
Qed.

(** ** Representation lemmas *)

Lemma rq_eq_iff a b :
  ratio_wf a -> ratio_wf b ->
  (rq a == rq b)%Q <-> numerator a * denominator b = numerator b * denominator a.
Proof.
  intros (_ & Ha & _) (_ & Hb & _). unfold Qeq, rq; simpl. by rewrite !Z2Pos.id by lia.
Qed.

Lemma checked_mul_Ok max a b c : checked_mul_u max a b = Some c <-> c = a * b /\ a * b <= max.
Proof.
  unfold checked_mul_u. destruct (Z.leb_spec (a * b) max).
  - split; [intros [= <-]; lia|]. by intros [-> _].
  - split; [done|lia].
Qed.
Lemma checked_add_Ok max a b c : checked_add_u max a b = Some c <-> c = a + b /\ a + b <= max.
Proof.
  unfold checked_add_u. destruct (Z.leb_spec (a + b) max).
  - split; [intros [= <-]; lia|]. by intros [-> _].
  - split; [done|lia].
Qed.

Lemma ratio_new_Ok n d :
  0 <= n <= u128_max -> 0 < d <= u128_max ->
  exists r, ratio_new n d = Ok r /\ ratio_wf r /\ (rq r == Qmake n (Z.to_pos d))%Q.
Proof.
  intros Hn Hd. unfold ratio_new. rewrite (proj2 (Z.eqb_neq d 0)) by lia.
  destruct (ratio_gcd_spec n d ltac:(lia) Hd) as [-> Hg].
  destruct (Z.gcd_divide_l n d) as [n' Hn']. destruct (Z.gcd_divide_r n d) as [d' Hd'].
  set (g := Z.gcd n d) in *. eexists; split; [done|].
  assert (En : n / g = n') by (rewrite Hn'; apply Z.div_mul; lia).
  assert (Ed : d / g = d') by (rewrite Hd'; apply Z.div_mul; lia).
  rewrite En, Ed. assert (0 <= n') by nia. assert (0 < d') by nia. split.
  - unfold ratio_wf; simpl. split_and!; [lia|nia|lia|nia|].
    rewrite <- En, <- Ed. apply Z.gcd_div_gcd; [lia|done].
  - unfold Qeq, rq; simpl. rewrite !Z2Pos.id by lia.
    clearbody g. subst n d. ring.
Qed.

Lemma ratio_new_inv n d r :
  0 <= n <= u128_max -> 0 <= d <= u128_max -> ratio_new n d = Ok r ->
  0 < d /\ ratio_wf r /\ (rq r == Qmake n (Z.to_pos d))%Q.
Proof.
  intros Hn Hd H. destruct (Z.eqb_spec d 0) as [->|Hd0]; [done|].
  destruct (ratio_new_Ok n d Hn ltac:(lia)) as (r' & Hr' & ? & ?).
  rewrite H in Hr'. injection Hr' as ->. split; [lia|done].
Qed.

Lemma ratio_wf_zero : ratio_wf ratio_ZERO.
Proof. by unfold ratio_wf. Qed.
Lemma ratio_wf_whole v : 0 <= v <= u128_max -> ratio_wf (ratio_whole v).
Proof. unfold ratio_wf; simpl. rewrite Z.gcd_1_r. unfold u128_max. lia. Qed.
Lemma rq_zero : (rq ratio_ZERO == 0)%Q.
Proof. done. Qed.
Lemma rq_whole v : (rq (ratio_whole v) == inject_Z v)%Q.
Proof. done. Qed.
Lemma ratio_is_zero_spec r : ratio_is_zero r = true <-> (rq r == 0)%Q.
Proof. unfold ratio_is_zero, Qeq, rq; simpl. rewrite Z.eqb_eq. lia. Qed.
Lemma rq_nonneg r : ratio_wf r -> (0 <= rq r)%Q.
Proof. intros (? & ? & _). unfold Qle, rq; simpl. lia. Qed.

(** Equal numbers are the same pair: reduced terms are canonical. *)
Lemma ratio_canonical a b : ratio_wf a -> ratio_wf b -> (rq a == rq b)%Q -> a = b.
Proof.
  intros Ha Hb He. apply rq_eq_iff in He; [|done..].
  destruct a as [na da], b as [nb db], Ha as (Hna & Hda & Hga), Hb as (Hnb & Hdb & Hgb);
    simpl in *.
  assert (da | db) as D1.
  { apply Z.gauss with na; [|by rewrite Z.gcd_comm]. exists nb. lia. }
  assert (db | da) as D2.
  { apply Z.gauss with nb; [|by rewrite Z.gcd_comm]. exists na. lia. }
  assert (da = db) as -> by (apply Z.divide_antisym_nonneg; (lia || done)).
  f_equal. nia.
Qed.

(** ** Arithmetic *)

(** A reduced ratio is the lowest form of every fraction equal to it. *)
Lemma reduced_divides r n d :
  ratio_wf r -> 0 < d -> numerator r * d = n * denominator r ->
  exists k, 1 <= k /\ d = k * denominator r /\ n = k * numerator r.
Proof.
  intros (Hn & Hd & Hg) Hpos E.
  assert (Hdiv : (denominator r | d)).
  { apply (Z.gauss _ (numerator r)); [exists n; lia|]. by rewrite Z.gcd_comm. }
  destruct Hdiv as [k Hk]. exists k. assert (1 <= k) by nia. split_and!; [done|done|]. nia.
Qed.
Lemma reduced_of_rq r n d :
  ratio_wf r -> 0 < d -> (rq r == inject_Z n / inject_Z d)%Q -> numerator r * d = n * denominator r.
Proof.
  intros (Hn & Hd & _) Hpos E. unfold rq in E.
  assert (Hq : (inject_Z n / inject_Z d == n # Z.to_pos d)%Q) by (rewrite (Qmake_Qdiv n), Z2Pos.id by lia; reflexivity).
  rewrite Hq in E. unfold Qeq in E. simpl in E. rewrite !Z2Pos.id in E by lia. lia.
Qed.

Lemma add_parts da db :
  0 < da <= u128_max -> 0 < db <= u128_max ->
  let g := ratio_gcd da db in
  0 < db / g /\ 0 < da / g /\ (da / g) * db = da * (db / g) /\ da * (db / g) = Z.lcm da db.
Proof.
  intros Hda Hdb g. destruct (ratio_gcd_spec da db ltac:(lia) Hdb) as [Eg Hg].
  fold g in Eg. destruct (Z.gcd_divide_l da db) as [x Hx].
  destruct (Z.gcd_divide_r da db) as [y Hy]. rewrite <- Eg in *.
  assert (E1 : da / g = x) by (rewrite Hx at 1; apply Z.div_mul; lia).
  assert (E2 : db / g = y) by (rewrite Hy at 1; apply Z.div_mul; lia).
  unfold Z.lcm. rewrite <- Eg, E1, E2. split_and!; nia.
Qed.

Lemma ratio_checked_add_Ok a b r :
  ratio_wf a -> ratio_wf b -> ratio_checked_add a b = Ok r ->
  ratio_wf r /\ (rq r == rq a + rq b)%Q.
Proof.
  intros (Hna & Hda & _) (Hnb & Hdb & _).
  destruct a as [na da], b as [nb db]; simpl in *. unfold ratio_checked_add; simpl.
  destruct (add_parts da db Hda Hdb) as (Hs & Ht & Est & _).
  set (g := ratio_gcd da db) in *. set (s := db / g) in *. set (t := da / g) in *.
  destruct (checked_mul_u _ na s) eqn:H1; simpl; [|done].
  destruct (checked_mul_u _ nb t) eqn:H2; simpl; [|done].
  destruct (checked_add_u _ _ _) eqn:H3; simpl; [|done].
  destruct (checked_mul_u _ da s) eqn:H4; simpl; [|done].
  apply checked_mul_Ok in H1 as [-> ?], H2 as [-> ?], H4 as [-> ?].
  apply checked_add_Ok in H3 as [-> ?].
  intros Hnew. apply ratio_new_inv in Hnew as (Hpos & Hwf & Hq); [|nia|nia].
  split; [done|]. rewrite Hq. unfold Qeq, Qplus, rq; simpl.
  rewrite !Pos2Z.inj_mul, !Z2Pos.id by nia.
  replace (nb * da * (da * s)) with (nb * da * ((t * db))) by (rewrite Est; ring).
  nia.
Qed.

Lemma ratio_checked_mul_int_Ok a k r :
  ratio_wf a -> 0 <= k -> ratio_checked_mul_int a k = Ok r ->
  ratio_wf r /\ (rq r == rq a * inject_Z k)%Q.
Proof.
  intros (Hna & Hda & _) Hk. unfold ratio_checked_mul_int.
  destruct (checked_mul_u _ _ _) eqn:H1; simpl; [|done].
  apply checked_mul_Ok in H1 as [-> ?]. intros Hnew.
  apply ratio_new_inv in Hnew as (Hpos & Hwf & Hq); [|nia|nia].
  split; [done|]. rewrite Hq. unfold Qeq, Qmult, rq; simpl.
  by rewrite Pos.mul_1_r.
Qed.

Lemma ratio_checked_cmp_Ok a b c :
  ratio_wf a -> ratio_wf b -> ratio_checked_cmp a b = Ok c -> c = (rq a ?= rq b)%Q.
Proof.
  intros (Hna & Hda & _) (Hnb & Hdb & _). unfold ratio_checked_cmp.
  destruct (checked_mul_u _ (numerator a) _) eqn:H1; simpl; [|done].
  destruct (checked_mul_u _ (numerator b) _) eqn:H2; simpl; [|done].
  apply checked_mul_Ok in H1 as [-> ?], H2 as [-> ?]. intros [= <-].
  unfold Qcompare, rq; simpl. by rewrite !Z2Pos.id by lia.
Qed.

(** *** Results that fit

    [fits D T r]: [r] is [k / D] for some [k] of at most [T].  Sums over a common
    multiple of the denominators stay over it, which is what bounds every
    intermediate of the checked operations. *)
Definition fits (D T : Z) (r : Ratio) : Prop :=
  ratio_wf r /\ exists k, 0 <= k <= T /\ numerator r * D = k * denominator r.

Lemma fits_bounds D T r : 0 < D -> fits D T r -> numerator r <= T /\ denominator r <= D.
Proof.
  intros HD (Hwf & k & Hk & E). destruct (reduced_divides r k D Hwf HD E) as (m & Hm & -> & ->).
  destruct Hwf as (Hn & Hd & _). nia.
Qed.
Lemma fits_mono D T T' r : T <= T' -> fits D T r -> fits D T' r.
Proof. intros Hle (Hwf & k & Hk & E). split; [done|]. exists k. split; [lia|done]. Qed.
Lemma fits_zero D : fits D 0 ratio_ZERO.
Proof. split; [apply ratio_wf_zero|]. exists 0. simpl. lia. Qed.
Lemma fits_whole D v : 0 <= v <= u128_max -> 0 < D -> fits D (D * v) (ratio_whole v).
Proof. intros Hv HD. split; [by apply ratio_wf_whole|]. exists (D * v). simpl. nia. Qed.

Lemma ratio_new_total n d :
  0 <= n <= u128_max -> 0 < d <= u128_max ->
  exists r, ratio_new n d = Ok r /\ ratio_wf r /\ numerator r * d = n * denominator r.
Proof.
  intros Hn Hd. destruct (ratio_new_Ok n d Hn Hd) as (r & Hr & Hwf & E). exists r. split_and!; [done|done|].
  unfold rq, Qeq in E. simpl in E. destruct Hwf as (_ & Hden & _). rewrite !Z2Pos.id in E by lia. lia.
Qed.

Lemma checked_add_fits D T1 T2 a b :
  0 < D <= u128_max -> T1 + T2 <= u128_max -> fits D T1 a -> fits D T2 b ->
  exists r, ratio_checked_add a b = Ok r /\ fits D (T1 + T2) r.
Proof.
  intros HD HT (Hwa & ka & Hka & Ea) (Hwb & kb & Hkb & Eb).
  destruct (reduced_divides a ka D Hwa ltac:(lia) Ea) as (ma & Hma & Da & Na).
  destruct (reduced_divides b kb D Hwb ltac:(lia) Eb) as (mb & Hmb & Db & Nb).
  destruct Hwa as (Hna & Hda & _), Hwb as (Hnb & Hdb & _).
  destruct (add_parts (denominator a) (denominator b) Hda Hdb) as (Hs & Ht & Est & Elcm).
  unfold ratio_checked_add. set (g := ratio_gcd _ _) in *. set (s := denominator b / g) in *. set (t := denominator a / g) in *.
  assert (Hl : (denominator a * s | D)).
  { rewrite Elcm. apply Z.lcm_least; [by exists ma|by exists mb]. }
  destruct Hl as [m Hm]. assert (1 <= m) by nia.
  assert (Hls : ka = m * (numerator a * s)).
  { apply (Z.mul_cancel_r _ _ (denominator a)); [lia|]. rewrite <- Ea, Hm. ring. }
  assert (Hrt : kb = m * (numerator b * t)).
  { apply (Z.mul_cancel_r _ _ (denominator b)); [lia|]. rewrite <- Eb, Hm, <- Est. ring. }
  assert (H1 : checked_mul_u u128_max (numerator a) s = Some (numerator a * s)) by (apply checked_mul_Ok; split; [done|nia]).
  assert (H2 : checked_mul_u u128_max (numerator b) t = Some (numerator b * t)) by (apply checked_mul_Ok; split; [done|nia]).
  assert (H3 : checked_add_u u128_max (numerator a * s) (numerator b * t) = Some (numerator a * s + numerator b * t))
    by (apply checked_add_Ok; split; [done|nia]).
  assert (H4 : checked_mul_u u128_max (denominator a) s = Some (denominator a * s)) by (apply checked_mul_Ok; split; [done|nia]).
  rewrite H1, H2. simpl. rewrite H3. simpl. rewrite H4. simpl.
  destruct (ratio_new_total (numerator a * s + numerator b * t) (denominator a * s)) as (r & Hr & Hwr & Er); [nia|nia|].
  exists r. split; [done|]. split; [done|]. exists (ka + kb). split; [lia|].
  rewrite Hls, Hrt, Hm. rewrite <- Z.mul_add_distr_l, <- Z.mul_assoc, <- Er. ring.
Qed.

(** Ratios of 64-bit parts are always comparable. *)
Definition ratio_u64 (r : Ratio) : Prop := 0 <= numerator r <= u64_max /\ 0 < denominator r <= u64_max.

Lemma cmp_u64 a b : ratio_u64 a -> ratio_u64 b -> exists c, ratio_checked_cmp a b = Ok c.
Proof.
  intros [Ha Ha'] [Hb Hb']. unfold ratio_checked_cmp.
  assert (Hl : checked_mul_u u128_max (numerator a) (denominator b) = Some (numerator a * denominator b)).
  { apply checked_mul_Ok. split; [done|]. unfold u64_max, u128_max in *. nia. }
  assert (Hr : checked_mul_u u128_max (numerator b) (denominator a) = Some (numerator b * denominator a)).
  { apply checked_mul_Ok. split; [done|]. unfold u64_max, u128_max in *. nia. }
  rewrite Hl, Hr. simpl. by eexists.
Qed.

#[export] Hint Resolve ratio_wf_zero ratio_wf_whole : pool.

(** ** Properties *)

(** [Ratio::new] reduces: it refuses exactly a zero denominator, and otherwise
    returns the ratio in lowest terms, within range, that denotes the same
    number; the Euclidean loop inside it returns within its 257 iterations. *)
Theorem ratio_new_exact n d :
  0 <= n <= u128_max -> 0 <= d <= u128_max ->
  (ratio_new n d = Err ZeroDenominator /\ d = 0) \/
  (exists r, ratio_new n d = Ok r /\ ratio_wf r /\ (rq r == Qmake n (Z.to_pos d))%Q /\
             gcd_loop (gcd_fuel 128) n d = Some (Z.gcd n d)).
Proof.
  intros Hn Hd. destruct (Z.eqb_spec d 0) as [->|Hd0]; [by left|right].
  destruct (ratio_new_Ok n d Hn ltac:(lia)) as (r & ? & ? & ?).
  exists r. split_and!; [done..|]. apply gcd_loop_gcd; unfold u128_max in *; simpl; lia.
Qed.
Example ratio_new_exact_witness :
  ratio_new 2 20 = Ok {| numerator := 1; denominator := 10 |} /\
  gcd_loop (gcd_fuel 128) 2 20 = Some (Z.gcd 2 20).
Proof.
  destruct (ratio_new_exact 2 20) as [[_ H]|(r & H & _ & _ & Hg)].
  - split; discriminate.
  - split; discriminate.
  - discriminate H.
  - split; [reflexivity|exact Hg].
Defined.

(** [checked_add], [checked_mul_int] and [checked_cmp] compute the exact
    rational sum, multiple and comparison whenever they return one, keep the
    representation invariant, and comparing equal is being the same pair. *)
Theorem ratio_arithmetic_exact a b k :
  ratio_wf a -> ratio_wf b -> 0 <= k ->
  (forall r, ratio_checked_add a b = Ok r -> ratio_wf r /\ (rq r == rq a + rq b)%Q) /\
  (forall r, ratio_checked_mul_int a k = Ok r -> ratio_wf r /\ (rq r == rq a * inject_Z k)%Q) /\
  (forall c, ratio_checked_cmp a b = Ok c -> c = (rq a ?= rq b)%Q) /\
  (ratio_checked_cmp a b = Ok Eq -> a = b).
Proof.
  intros Ha Hb Hk. split_and!.
  - intros r. by apply ratio_checked_add_Ok.
  - intros r. by apply ratio_checked_mul_int_Ok.
  - intros c. by apply ratio_checked_cmp_Ok.
  - intros H%ratio_checked_cmp_Ok; [|done..]. apply ratio_canonical; [done..|].
    by apply Qeq_alt.
Qed.
Example ratio_arithmetic_exact_witness :
  ratio_checked_add (MkRatio 1 3) (MkRatio 1 6) = Ok (MkRatio 1 2) /\
  (rq (MkRatio 1 2) == rq (MkRatio 1 3) + rq (MkRatio 1 6))%Q.
Proof.
  destruct (ratio_arithmetic_exact (MkRatio 1 3) (MkRatio 1 6) 2) as (H & _).
  - repeat split; vm_compute; discriminate.
  - repeat split; vm_compute; discriminate.
  - discriminate.
  - split; [vm_compute; reflexivity|]. apply H. vm_compute. reflexivity.
Defined.

(** Completeness: an operation fails only by overflow, and exactly when a
    product or sum it forms does not fit in 128 bits.  [checked_cmp] fails iff
    a cross product does not fit; [checked_add] fails iff one of its scaled
    numerators, their sum, or the least common denominator does not fit. *)
Theorem ratio_overflow_exact a b :
  ratio_wf a -> ratio_wf b ->
  ((exists c, ratio_checked_cmp a b = Ok c) <->
     numerator a * denominator b <= u128_max /\ numerator b * denominator a <= u128_max) /\
  ((exists r, ratio_checked_add a b = Ok r) <->
     let l := Z.lcm (denominator a) (denominator b) in
     numerator a * (l / denominator a) + numerator b * (l / denominator b) <= u128_max /\
     l <= u128_max).
Proof.
  intros (Hna & Hda & _) (Hnb & Hdb & _).
  destruct a as [na da], b as [nb db]; simpl in *. split.
  - unfold ratio_checked_cmp, checked_mul_u; simpl.
    destruct (Z.leb_spec (na * db) u128_max); simpl; [|split; [by intros []|lia]].
    destruct (Z.leb_spec (nb * da) u128_max); simpl; [|split; [by intros []|lia]].
    split; [done|]. intros _. by eexists.
  - destruct (add_parts da db Hda Hdb) as (Hs & Ht & Est & El).
    unfold ratio_checked_add; simpl.
    set (g := ratio_gcd da db) in *. set (s := db / g) in *. set (t := da / g) in *.
    assert (Z.lcm da db / da = s) as -> by (rewrite <- El, Z.mul_comm; apply Z.div_mul; lia).
    assert (Z.lcm da db / db = t) as ->
      by (rewrite <- El, <- Est; apply Z.div_mul; lia).
    rewrite <- El. unfold checked_mul_u, checked_add_u.
    destruct (Z.leb_spec (na * s) u128_max); simpl; [|split; [by intros []|nia]].
    destruct (Z.leb_spec (nb * t) u128_max); simpl; [|split; [by intros []|nia]].
    destruct (Z.leb_spec (na * s + nb * t) u128_max); simpl; [|split; [by intros []|lia]].
    destruct (Z.leb_spec (da * s) u128_max); simpl; [|split; [by intros []|lia]].
    split; [done|]. intros _.
    destruct (ratio_new_Ok (na * s + nb * t) (da * s)) as (r & Hr & _); [nia|nia|].
    by exists r.
Qed.
Example ratio_overflow_exact_witness :
  ~ (exists c, ratio_checked_cmp (MkRatio u128_max 1) (MkRatio 1 2) = Ok c) /\
  (exists r, ratio_checked_add (MkRatio 1 3) (MkRatio 1 6) = Ok r).
Proof.
  split.
  - destruct (ratio_overflow_exact (MkRatio u128_max 1) (MkRatio 1 2)) as [H _];
      [repeat split; vm_compute; discriminate..|].
    rewrite H. vm_compute. intros [Hf _]. by apply Hf.
  - destruct (ratio_overflow_exact (MkRatio 1 3) (MkRatio 1 6)) as [_ H];
      [repeat split; vm_compute; discriminate..|].
    apply H. split; vm_compute; discriminate.
Defined.
