(* ===== verification/Challenge.v ===== *)
(** * Challenge selection: [crates/pool-decision/src/challenge.rs]

    Compute compatibility and eligibility, the in-flight projection, the
    projected raw balancing factor, and the recorded tie draw.  The abstract
    specification is over exact rationals: [factor_spec] is the factor of the
    design document written with [Q], [beats] is the order the draw decides
    by, and [select_challenge_refines] says the checked-integer code selects
    the challenge that specification selects. *)
From S2P Require Import Prelude BTreeMap Domain Ratio.
From Stdlib Require Import QArith Qfield.
Open Scope Z_scope.

Inductive OfferedCompute := OfferedCpu (cores : Z) | OfferedGpu.
Inductive ComputeType := ComputeCpu | ComputeGpu.

Definition matches_challenge (o : OfferedCompute) (c : ComputeType) : bool :=
  match o, c with
  | OfferedCpu _, ComputeCpu | OfferedGpu, ComputeGpu => true
  | _, _ => false
  end.

Record Challenge := MkChallenge {
  ch_id : string;
  ch_compute_type : ComputeType;
  ch_active_tracks : list string;
  ch_network_qualifiers_by_track : btree Z;
  ch_tracks_with_source : list string;
}.

Record InFlightBenchmark := MkInFlight {
  if_benchmark_id : string;
  if_challenge_id : string;
  if_algorithm_id : string;
  if_track_id : option string;
  if_num_bundles : Z;
}.

Record TrackStats := MkTrackStats { ts_qualifiers : Z; ts_active_bundles : Z }.

Definition track_rate (s : TrackStats) : result RatioError (option Ratio) :=
  if ts_active_bundles s =? 0 then Ok None
  else match ratio_new (ts_qualifiers s) (ts_active_bundles s) with
       | Ok r => Ok (Some r)
       | Err e => Err e
       end.

Record ChallengeSelectionInput := MkCsi {
  csi_offered_compute : OfferedCompute;
  csi_challenges : list Challenge;
  csi_pool_qualifiers : btree (btree Z);
  csi_in_flight : list InFlightBenchmark;
  csi_algorithm_track_stats : btree (btree TrackStats);
  csi_draw_ranks : btree DrawRank;
}.

Inductive Excluded := IncompatibleComputeType | TrackWithoutSource (track_id : string).
Inductive ProjectionExcluded := TrackUnknown.

Record ChallengeSelection := MkCs {
  cs_considered : list string;
  cs_excluded : btree Excluded;
  cs_qualifier_rate : btree (btree (option Ratio));
  cs_expected_q : btree Ratio;
  cs_projection_excluded : btree ProjectionExcluded;
  cs_expected_addition : btree Ratio;
  cs_projected_raw_factor : btree Ratio;
  cs_tie_candidates : option (list string);
  cs_selected : option string;
}.

Inductive ChallengeError :=
| ChallengeRatio (e : RatioError)
| MissingDrawRank (challenge_id : string).

(** ** Eligibility *)

Definition vec_contains (l : list string) (x : string) : bool := bool_decide (x ∈ l).

Definition challenge_excluded (offered : OfferedCompute) (c : Challenge) : option Excluded :=
  if negb (matches_challenge offered (ch_compute_type c)) then Some IncompatibleComputeType
  else match List.find (fun track => negb (vec_contains (ch_tracks_with_source c) track))
               (ch_active_tracks c) with
       | Some track_id => Some (TrackWithoutSource track_id)
       | None => None
       end.

(** The loop over [input.challenges]. *)
Definition consider (offered : OfferedCompute) (cs : list Challenge)
  : btree Excluded * list Challenge :=
  fold_left
    (fun '(excluded, considered) c =>
       match challenge_excluded offered c with
       | Some why => (bt_insert (ch_id c) why excluded, considered)
       | None => (excluded, considered ++ [c])
       end) cs (bt_empty, []).

(** ** Projection *)

Record Projection := MkProjection {
  pj_rates : btree (btree (option Ratio));
  pj_expected_q : btree Ratio;
  pj_excluded : btree ProjectionExcluded;
  pj_addition : btree Ratio;
}.

Definition projection_empty : Projection :=
  {| pj_rates := bt_empty; pj_expected_q := bt_empty;
     pj_excluded := bt_empty; pj_addition := bt_empty |}.

Definition stats_of (stats : btree (btree TrackStats)) (a t : string) : option TrackStats :=
  match bt_get a stats with Some by_track => bt_get t by_track | None => None end.

(** One iteration of [project]'s loop. *)
Definition project_one (stats : btree (btree TrackStats)) (p : Projection) (b : InFlightBenchmark)
  : result ChallengeError Projection :=
  match if_track_id b with
  | None =>
      Ok {| pj_rates := pj_rates p; pj_expected_q := pj_expected_q p;
            pj_excluded := bt_insert (if_benchmark_id b) TrackUnknown (pj_excluded p);
            pj_addition := pj_addition p |}
  | Some track_id =>
      let? rate := match stats_of stats (if_algorithm_id b) track_id with
                   | Some s => map_err ChallengeRatio (track_rate s)
                   | None => Ok None
                   end in
      let rates := bt_entry (if_algorithm_id b) bt_empty (bt_insert track_id rate) (pj_rates p) in
      let? expected := match rate with
                       | Some r => map_err ChallengeRatio (ratio_checked_mul_int r (if_num_bundles b))
                       | None => Ok ratio_ZERO
                       end in
      let? entry := map_err ChallengeRatio
                      (ratio_checked_add (default ratio_ZERO (bt_get (if_challenge_id b) (pj_addition p)))
                         expected) in
      Ok {| pj_rates := rates;
            pj_expected_q := bt_insert (if_benchmark_id b) expected (pj_expected_q p);
            pj_excluded := pj_excluded p;
            pj_addition := bt_insert (if_challenge_id b) entry (pj_addition p) |}
  end.

Definition project (input : ChallengeSelectionInput) : result ChallengeError Projection :=
  foldM (project_one (csi_algorithm_track_stats input)) projection_empty (csi_in_flight input).

(** ** The factor *)

Definition qualifiers_of (m : option (btree Z)) (track : string) : Z :=
  match m with Some by_track => default 0 (bt_get track by_track) | None => 0 end.

Definition sum_tracks (c : Challenge) (pool_qualifiers : option (btree Z))
  : result RatioError (Z * Z) :=
  foldM (fun '(pool_q, network_q) track =>
           let network := default 0 (bt_get track (ch_network_qualifiers_by_track c)) in
           let? network_q' := ok_or (checked_add_u u128_max network_q network) (Overflow "network_q") in
           let pool := qualifiers_of pool_qualifiers track in
           let? pool_q' := ok_or (checked_add_u u128_max pool_q pool) (Overflow "pool_q") in
           Ok (pool_q', network_q'))
        (0, 0) (ch_active_tracks c).

Definition projected_raw_factor_of (c : Challenge) (pool_qualifiers : option (btree Z))
    (expected_addition : Ratio) : result RatioError Ratio :=
  let? (pool_q, network_q) := sum_tracks c pool_qualifiers in
  let? den := ratio_checked_add (ratio_whole network_q) expected_addition in
  if ratio_is_zero den then Ok ratio_ZERO
  else
    let? num := ratio_checked_add (ratio_whole pool_q) expected_addition in
    let? n := ok_or (checked_mul_u u128_max (numerator num) (denominator den))
                (Overflow "factor numerator") in
    let? d := ok_or (checked_mul_u u128_max (numerator den) (denominator num))
                (Overflow "factor denominator") in
    ratio_new n d.

(** ** Lowest factor and the draw *)

(** The loop of [lowest_factor], with its running best. *)
Definition lowest_step (best : option (Ratio * list string)) (entry : string * Ratio)
  : result RatioError (option (Ratio * list string)) :=
  let '(id, factor) := entry in
  match best with
  | None => Ok (Some (factor, [id]))
  | Some (lowest, ids) =>
      let? c := ratio_checked_cmp factor lowest in
      match c with
      | Lt => Ok (Some (factor, [id]))
      | Eq => Ok (Some (lowest, ids ++ [id]))
      | Gt => Ok (Some (lowest, ids))
      end
  end.

Definition lowest_factor (factors : btree Ratio) : result ChallengeError (option (list string)) :=
  let? best := map_err ChallengeRatio (foldM lowest_step None factors) in
  Ok (snd <$> best).

(** [rank < best_rank || (rank == best_rank && id < best_id)]. *)
Definition draw_better (id : string) (rank : DrawRank) (best_id : string) (best_rank : DrawRank) : bool :=
  rank_lt rank best_rank || (bool_decide (rank = best_rank) && str_ltb id best_id).

Definition resolve_step (draw_ranks : btree DrawRank) (best : option (string * DrawRank))
    (id : string) : result ChallengeError (option (string * DrawRank)) :=
  let? rank := ok_or (bt_get id draw_ranks) (MissingDrawRank id) in
  match best with
  | None => Ok (Some (id, rank))
  | Some (best_id, best_rank) =>
      if draw_better id rank best_id best_rank then Ok (Some (id, rank))
      else Ok (Some (best_id, best_rank))
  end.

Definition resolve_tie (tied : list string) (draw_ranks : btree DrawRank)
  : result ChallengeError string :=
  let? best := foldM (resolve_step draw_ranks) None tied in
  match best with
  | Some (id, _) => Ok id
  | None => Err (MissingDrawRank "")
  end.

(** The [match lowest] of [select_challenge]: one lowest challenge is selected
    outright, several go to the draw. *)
Definition choose (ranks : btree DrawRank) (lowest : option (list string))
  : result ChallengeError (option (list string) * option string) :=
  match lowest with
  | None => Ok (None, None)
  | Some [id] => Ok (None, Some id)
  | Some tied => let? winner := resolve_tie tied ranks in Ok (Some tied, Some winner)
  end.

(** The loop that fills [expected_addition] and [projected_raw_factor]. *)
Definition factor_one (pool_qualifiers : btree (btree Z)) (addition : btree Ratio)
    (acc : btree Ratio * btree Ratio) (c : Challenge)
  : result ChallengeError (btree Ratio * btree Ratio) :=
  let '(expected_addition, factors) := acc in
  let a := default ratio_ZERO (bt_get (ch_id c) addition) in
  let? f := map_err ChallengeRatio
              (projected_raw_factor_of c (bt_get (ch_id c) pool_qualifiers) a) in
  Ok (bt_insert (ch_id c) a expected_addition, bt_insert (ch_id c) f factors).

Definition select_challenge (input : ChallengeSelectionInput)
  : result ChallengeError ChallengeSelection :=
  let '(excluded, considered) := consider (csi_offered_compute input) (csi_challenges input) in
  let? projection := project input in
  let? (expected_addition, factors) :=
    foldM (factor_one (csi_pool_qualifiers input) (pj_addition projection))
      (bt_empty, bt_empty) considered in
  let? lowest := lowest_factor factors in
  let? (tie_candidates, selected) := choose (csi_draw_ranks input) lowest in
  Ok {| cs_considered := map ch_id considered;
        cs_excluded := excluded;
        cs_qualifier_rate := pj_rates projection;
        cs_expected_q := pj_expected_q projection;
        cs_projection_excluded := pj_excluded projection;
        cs_expected_addition := expected_addition;
        cs_projected_raw_factor := factors;
        cs_tie_candidates := tie_candidates;
        cs_selected := selected |}.

(** ** Specification over exact rationals *)

Definition eligible (o : OfferedCompute) (c : Challenge) : bool :=
  match challenge_excluded o c with None => true | Some _ => false end.

Definition rate_spec (stats : btree (btree TrackStats)) (b : InFlightBenchmark) : Q :=
  match if_track_id b with
  | None => 0
  | Some t =>
      match stats_of stats (if_algorithm_id b) t with
      | None => 0
      | Some s => if ts_active_bundles s =? 0 then 0
                  else inject_Z (ts_qualifiers s) / inject_Z (ts_active_bundles s)
      end
  end.

(** [expected_addition[c]]: the sum of [num_bundles * qualifier_rate] over the
    in-flight benchmarks of challenge [c]. *)
Fixpoint addition_spec (stats : btree (btree TrackStats)) (bs : list InFlightBenchmark) (c : string) : Q :=
  match bs with
  | [] => 0
  | b :: bs' =>
      (if decide (if_challenge_id b = c) then rate_spec stats b * inject_Z (if_num_bundles b) else 0)
      + addition_spec stats bs' c
  end.

Fixpoint sum_over (f : string -> Z) (l : list string) : Z :=
  match l with [] => 0 | t :: l' => f t + sum_over f l' end.

Definition factor_spec (input : ChallengeSelectionInput) (c : Challenge) : Q :=
  let add := addition_spec (csi_algorithm_track_stats input) (csi_in_flight input) (ch_id c) in
  let pool := inject_Z (sum_over (qualifiers_of (bt_get (ch_id c) (csi_pool_qualifiers input)))
                          (ch_active_tracks c)) in
  let network := inject_Z (sum_over (qualifiers_of (Some (ch_network_qualifiers_by_track c)))
                             (ch_active_tracks c)) in
  if Qeq_bool (network + add) 0 then 0 else (pool + add) / (network + add).

(** The order in which challenges are preferred. *)
Definition beats (input : ChallengeSelectionInput) (c c' : Challenge) : Prop :=
  (factor_spec input c < factor_spec input c')%Q \/
  ((factor_spec input c == factor_spec input c')%Q /\
   exists r r', bt_get (ch_id c) (csi_draw_ranks input) = Some r /\
                bt_get (ch_id c') (csi_draw_ranks input) = Some r' /\
                draw_better (ch_id c) r (ch_id c') r' = true).

(** The [u128] ranges the Rust types carry. *)
Definition counts_ok (m : btree Z) : Prop := Forall (fun kv => is_u128 kv.2 = true) m.
Definition stats_ok (m : btree (btree TrackStats)) : Prop :=
  Forall (fun kv => Forall (fun kv' => is_u128 (ts_qualifiers kv'.2) &&
                                       is_u128 (ts_active_bundles kv'.2) = true) kv.2) m.
Definition csi_ok (input : ChallengeSelectionInput) : Prop :=
  Forall (fun c => counts_ok (ch_network_qualifiers_by_track c)) (csi_challenges input) /\
  Forall (fun kv => counts_ok kv.2) (csi_pool_qualifiers input) /\
  stats_ok (csi_algorithm_track_stats input) /\
  Forall (fun b => is_u128 (if_num_bundles b) = true) (csi_in_flight input).

(** ** Lemmas *)

Lemma is_u128_range n : is_u128 n = true <-> 0 <= n <= u128_max.
Proof. unfold in_unsigned. rewrite andb_true_iff, !Z.leb_le. done. Qed.

Lemma consider_app o cs ex acc :
  snd (fold_left
    (fun '(excluded, considered) c =>
       match challenge_excluded o c with
       | Some why => (bt_insert (ch_id c) why excluded, considered)
       | None => (excluded, considered ++ [c])
       end) cs (ex, acc)) = acc ++ List.filter (eligible o) cs.
Proof.
  revert ex acc; induction cs as [|c cs IH]; intros ex acc; simpl; [by rewrite app_nil_r|].
  unfold eligible at 1. destruct (challenge_excluded o c); simpl; rewrite IH; [done|].
  by rewrite <- app_assoc.
Qed.
Lemma consider_spec o cs : snd (consider o cs) = List.filter (eligible o) cs.
Proof. unfold consider. by rewrite consider_app. Qed.

Lemma eligible_spec o c :
  eligible o c = true <->
  matches_challenge o (ch_compute_type c) = true /\
  forall t, t ∈ ch_active_tracks c -> t ∈ ch_tracks_with_source c.
Proof.
  unfold eligible, challenge_excluded, vec_contains.
  destruct (matches_challenge _ _); simpl; [|split; [done|by intros [? _]]].
  destruct (List.find _ _) as [t|] eqn:Hf.
  - apply find_some in Hf as [Hin Hn]. apply list_elem_of_In in Hin.
    rewrite negb_true_iff, bool_decide_eq_false in Hn.
    split; [done|]. intros [_ Hall]. by apply Hall in Hin.
  - split; [|done]. intros _. split; [done|]. intros t Ht%list_elem_of_In.
    pose proof (find_none _ _ Hf t Ht) as Hn. simpl in Hn.
    by rewrite negb_false_iff, bool_decide_eq_true in Hn.
Qed.

Lemma track_rate_spec s r :
  0 <= ts_qualifiers s <= u128_max -> 0 <= ts_active_bundles s <= u128_max ->
  track_rate s = Ok r ->
  match r with
  | None => ts_active_bundles s = 0
  | Some r => ts_active_bundles s <> 0 /\ ratio_wf r /\
      (rq r == inject_Z (ts_qualifiers s) / inject_Z (ts_active_bundles s))%Q
  end.
Proof.
  intros Hq Ha. unfold track_rate. destruct (Z.eqb_spec (ts_active_bundles s) 0).
  - by intros [= <-].
  - destruct (ratio_new _ _) as [r'|] eqn:Hn; [|done]. intros [= <-].
    apply ratio_new_inv in Hn as (Hp & Hwf & He); [|done..].
    split_and!; [done..|]. by rewrite He, Qmake_Qdiv, Z2Pos.id by done.
Qed.

Lemma stats_of_ok stats a t s :
  stats_ok stats -> stats_of stats a t = Some s ->
  0 <= ts_qualifiers s <= u128_max /\ 0 <= ts_active_bundles s <= u128_max.
Proof.
  unfold stats_ok, stats_of. intros Hok. destruct (bt_get a stats) as [m|] eqn:Ha; [|done].
  intros Hs. apply bt_get_elem in Ha, Hs.
  rewrite Forall_forall in Hok. specialize (Hok _ Ha). simpl in Hok.
  rewrite Forall_forall in Hok. specialize (Hok _ Hs). simpl in Hok.
  by rewrite andb_true_iff, !is_u128_range in Hok.
Qed.

(** What one benchmark adds to a challenge. *)
Definition contribution (stats : btree (btree TrackStats)) (b : InFlightBenchmark) (c : string) : Q :=
  if decide (if_challenge_id b = c) then rate_spec stats b * inject_Z (if_num_bundles b) else 0.

Definition addition_at (p : Projection) (c : string) : Ratio :=
  default ratio_ZERO (bt_get c (pj_addition p)).

Lemma project_one_spec stats p b p' :
  stats_ok stats -> 0 <= if_num_bundles b ->
  (forall c, ratio_wf (addition_at p c)) ->
  project_one stats p b = Ok p' ->
  forall c, ratio_wf (addition_at p' c) /\
            (rq (addition_at p' c) == rq (addition_at p c) + contribution stats b c)%Q.
Proof.
  intros Hst Hnb Hwf. unfold project_one, contribution, rate_spec.
  destruct (if_track_id b) as [t|] eqn:Ht.
  2:{ intros [= <-] c. split; [apply Hwf|]. unfold addition_at; simpl.
      case_decide; ring. }
  intros H c.
  destruct (match stats_of stats (if_algorithm_id b) t with
            | Some s => map_err ChallengeRatio (track_rate s) | None => Ok None end)
    as [rate|] eqn:Hr; [|done].
  destruct (match rate with
            | Some r => map_err ChallengeRatio (ratio_checked_mul_int r (if_num_bundles b))
            | None => Ok ratio_ZERO end) as [expected|] eqn:He; [|done].
  assert (Hexp : ratio_wf expected /\
    (rq expected == match stats_of stats (if_algorithm_id b) t with
       | None => 0
       | Some s => if ts_active_bundles s =? 0 then 0
                   else inject_Z (ts_qualifiers s) / inject_Z (ts_active_bundles s)
       end * inject_Z (if_num_bundles b))%Q).
  { destruct (stats_of stats _ t) as [s|] eqn:Hs.
    - destruct (stats_of_ok _ _ _ _ Hst Hs).
      destruct (track_rate s) as [rate'|] eqn:Htr; [|done]. injection Hr as <-.
      apply track_rate_spec in Htr; [|done..]. destruct rate' as [r|].
      + destruct Htr as (Hne & Hr & Heq). rewrite (proj2 (Z.eqb_neq _ _) Hne).
        destruct (ratio_checked_mul_int r _) as [e|] eqn:Hm; [|done]. injection He as <-.
        apply ratio_checked_mul_int_Ok in Hm as [? Hm]; [|done..]. by rewrite Hm, Heq.
      + injection He as <-. rewrite Htr, Z.eqb_refl. split; [apply ratio_wf_zero|].
        rewrite rq_zero. ring.
    - injection Hr as <-. injection He as <-. split; [apply ratio_wf_zero|].
      rewrite rq_zero. ring. }
  destruct Hexp as [Hew Heq].
  destruct (ratio_checked_add _ expected) as [entry|] eqn:Ha; simpl in H; [|done].
  injection H as <-. unfold addition_at; simpl. rewrite bt_get_insert.
  apply ratio_checked_add_Ok in Ha as [Haw Ha]; [|apply Hwf|done].
  destruct (decide (c = if_challenge_id b)) as [->|Hne].
  - rewrite decide_True by done. split; [done|]. by rewrite Ha, Heq.
  - rewrite decide_False by congruence. split; [apply Hwf|]. ring.
Qed.

Lemma project_loop_spec stats bs : forall p p',
  stats_ok stats -> Forall (fun b => is_u128 (if_num_bundles b) = true) bs ->
  (forall c, ratio_wf (addition_at p c)) ->
  foldM (project_one stats) p bs = Ok p' ->
  forall c, ratio_wf (addition_at p' c) /\
            (rq (addition_at p' c) == rq (addition_at p c) + addition_spec stats bs c)%Q.
Proof.
  induction bs as [|b bs IH]; intros p p' Hst Hb Hwf; simpl.
  - intros [= <-] c. split; [done|ring].
  - apply Forall_cons in Hb as [Hb Hbs]. apply is_u128_range in Hb.
    destruct (project_one stats p b) as [p1|] eqn:H1; [|done]. intros H c.
    pose proof (project_one_spec _ _ _ _ Hst (proj1 Hb) Hwf H1) as Hs1.
    destruct (IH p1 p' Hst Hbs (fun c => proj1 (Hs1 c)) H c) as [? Heq]. split; [done|].
    rewrite Heq, (proj2 (Hs1 c)). unfold contribution. case_decide; ring.
Qed.

Lemma project_spec input p :
  csi_ok input -> project input = Ok p ->
  forall c, ratio_wf (addition_at p c) /\
    (rq (addition_at p c) == addition_spec (csi_algorithm_track_stats input) (csi_in_flight input) c)%Q.
Proof.
  intros (_ & _ & Hst & Hb) Hp c.
  destruct (project_loop_spec _ _ projection_empty p Hst Hb (fun _ => ratio_wf_zero) Hp c) as [? Heq].
  split; [done|]. rewrite Heq. unfold addition_at; simpl. rewrite rq_zero. ring.
Qed.

Lemma counts_get m k : counts_ok m -> 0 <= default 0 (bt_get k m) <= u128_max.
Proof.
  unfold counts_ok. intros Hm. destruct (bt_get k m) as [v|] eqn:Hk; [|unfold u128_max; simpl; lia].
  apply bt_get_elem in Hk. rewrite Forall_forall in Hm. by apply (Hm _) in Hk; apply is_u128_range.
Qed.

Lemma sum_over_nonneg f l : (forall t, 0 <= f t) -> 0 <= sum_over f l.
Proof. intros Hf. induction l as [|t l IH]; simpl; [done|]. specialize (Hf t). lia. Qed.

Lemma sum_tracks_spec c pq pool_q network_q :
  counts_ok (ch_network_qualifiers_by_track c) ->
  (forall m, pq = Some m -> counts_ok m) ->
  sum_tracks c pq = Ok (pool_q, network_q) ->
  pool_q = sum_over (qualifiers_of pq) (ch_active_tracks c) /\
  network_q = sum_over (qualifiers_of (Some (ch_network_qualifiers_by_track c))) (ch_active_tracks c) /\
  0 <= pool_q <= u128_max /\ 0 <= network_q <= u128_max.
Proof.
  intros Hn Hpq. unfold sum_tracks.
  assert (Hp0 : forall t, 0 <= qualifiers_of pq t).
  { intros t. unfold qualifiers_of. destruct pq as [m|]; [|done]. by apply counts_get, Hpq. }
  assert (forall l p0 n0, 0 <= p0 <= u128_max -> 0 <= n0 <= u128_max ->
    foldM (fun '(pool_q, network_q) track =>
       let? network_q' := ok_or (checked_add_u u128_max network_q
           (default 0 (bt_get track (ch_network_qualifiers_by_track c)))) (Overflow "network_q") in
       let? pool_q' := ok_or (checked_add_u u128_max pool_q (qualifiers_of pq track)) (Overflow "pool_q") in
       Ok (pool_q', network_q')) (p0, n0) l = Ok (pool_q, network_q) ->
    pool_q = p0 + sum_over (qualifiers_of pq) l /\
    network_q = n0 + sum_over (qualifiers_of (Some (ch_network_qualifiers_by_track c))) l /\
    0 <= pool_q <= u128_max /\ 0 <= network_q <= u128_max) as Hloop.
  { induction l as [|t l IH]; simpl; intros p0 n0 Hp Hn0.
    - intros [= <- <-]. lia.
    - pose proof (counts_get _ t Hn) as Hnt. specialize (Hp0 t).
      destruct (checked_add_u u128_max n0 _) as [n1|] eqn:E1; simpl; [|done].
      destruct (checked_add_u u128_max p0 _) as [p1|] eqn:E2; simpl; [|done].
      apply checked_add_Ok in E1 as [-> Hb1], E2 as [-> Hb2]. intros Hf.
      apply IH in Hf; [|lia..]. unfold qualifiers_of in *. lia. }
  intros H. apply Hloop in H; [|unfold u128_max; lia..]. lia.
Qed.

(** Division of two ratios by cross multiplication. *)
Lemma ratio_div_exact num den n d r :
  ratio_wf num -> ratio_wf den -> ratio_is_zero den = false ->
  checked_mul_u u128_max (numerator num) (denominator den) = Some n ->
  checked_mul_u u128_max (numerator den) (denominator num) = Some d ->
  ratio_new n d = Ok r -> ratio_wf r /\ (rq r == rq num / rq den)%Q.
Proof.
  intros (Hn1 & Hn2 & _) (Hd1 & Hd2 & _) Hz E1 E2 Hnew.
  apply Z.eqb_neq in Hz. apply checked_mul_Ok in E1 as [-> ?], E2 as [-> ?].
  apply ratio_new_inv in Hnew as (Hpos & Hwf & Heq); [|nia..].
  split; [done|]. rewrite Heq. unfold rq. rewrite !Qmake_Qdiv.
  rewrite !Z2Pos.id by nia. rewrite !inject_Z_mult. field.
  repeat split; intros E; unfold Qeq in E; simpl in E; lia.
Qed.

Lemma projected_raw_factor_spec input p c f :
  csi_ok input -> c ∈ csi_challenges input -> project input = Ok p ->
  projected_raw_factor_of c (bt_get (ch_id c) (csi_pool_qualifiers input)) (addition_at p (ch_id c)) = Ok f ->
  ratio_wf f /\ (rq f == factor_spec input c)%Q.
Proof.
  intros Hok Hin Hp. destruct (project_spec _ _ Hok Hp (ch_id c)) as [Haw Ha].
  destruct Hok as (Hn & Hpq & _). rewrite Forall_forall in Hn. specialize (Hn _ Hin).
  assert (Hpq' : forall m, bt_get (ch_id c) (csi_pool_qualifiers input) = Some m -> counts_ok m).
  { intros m Hm%bt_get_elem. rewrite Forall_forall in Hpq. by apply (Hpq _ Hm). }
  unfold projected_raw_factor_of, factor_spec.
  destruct (sum_tracks c _) as [[pool_q network_q]|] eqn:Hs; [|done].
  apply sum_tracks_spec in Hs as (<- & <- & Hpool & Hnet); [|done..].
  destruct (ratio_checked_add (ratio_whole network_q) _) as [den|] eqn:Hden; [|done].
  apply ratio_checked_add_Ok in Hden as [Hdw Hden]; [|by apply ratio_wf_whole|done].
  rewrite rq_whole, Ha in Hden.
  destruct (ratio_is_zero den) eqn:Hz.
  - intros [= <-]. apply ratio_is_zero_spec in Hz. rewrite Hden in Hz.
    rewrite (proj2 (Qeq_bool_iff _ _) Hz). split; [apply ratio_wf_zero|done].
  - destruct (ratio_checked_add (ratio_whole pool_q) _) as [num|] eqn:Hnum; [|done].
    apply ratio_checked_add_Ok in Hnum as [Hnw Hnum]; [|by apply ratio_wf_whole|done].
    rewrite rq_whole, Ha in Hnum.
    destruct (checked_mul_u _ (numerator num) _) as [n|] eqn:E1; simpl; [|done].
    destruct (checked_mul_u _ (numerator den) _) as [d|] eqn:E2; simpl; [|done].
    intros Hnew. destruct (ratio_div_exact _ _ _ _ _ Hnw Hdw Hz E1 E2 Hnew) as [Hfw Hf].
    split; [done|]. rewrite Hf, Hnum, Hden.
    destruct (Qeq_bool _ 0) eqn:Hb; [|done]. apply Qeq_bool_iff in Hb.
    rewrite <- Hden in Hb. apply ratio_is_zero_spec in Hb. congruence.
Qed.

(** ** Lowest factor *)

Definition lowest_inv (pre : list (string * Ratio)) (best : option (Ratio * list string)) : Prop :=
  match best with
  | None => pre = []
  | Some (low, ids) =>
      (exists id, (id, low) ∈ pre) /\
      (forall k f, (k, f) ∈ pre -> (rq low <= rq f)%Q) /\
      ids = (filter (fun kf => kf.2 = low) pre).*1
  end.

Lemma lowest_step_inv factors pre x best best' :
  Forall (fun kf => ratio_wf kf.2) factors -> (forall y, y ∈ pre -> y ∈ factors) ->
  x ∈ factors -> lowest_inv pre best -> lowest_step best x = Ok best' ->
  lowest_inv (pre ++ [x]) best'.
Proof.
  rewrite Forall_forall. intros Hwf Hsub Hx Hinv. destruct x as [id f].
  pose proof (Hwf _ Hx) as Hf. simpl in Hf.
  unfold lowest_step. destruct best as [[low ids]|]; simpl.
  2:{ intros [= <-]. simpl in Hinv; subst. simpl. split_and!.
      - exists id. by left.
      - intros k f' [[= -> ->]|[]%not_elem_of_nil]%elem_of_cons. apply Qle_refl.
      - by rewrite filter_cons_True. }
  destruct Hinv as ([idl Hlow] & Hle & ->).
  pose proof (Hwf _ (Hsub _ Hlow)) as Hl. simpl in Hl.
  destruct (ratio_checked_cmp f low) as [c|] eqn:Hc; [|done].
  apply ratio_checked_cmp_Ok in Hc; [|done..]. symmetry in Hc. destruct c; intros [= <-].
  - apply Qeq_alt, ratio_canonical in Hc; [|done..]. subst. split_and!.
    + exists idl. apply elem_of_app. by left.
    + intros k f'. rewrite elem_of_app, list_elem_of_singleton.
      intros [|[= -> ->]]; [by eapply Hle|apply Qle_refl].
    + by rewrite filter_app, fmap_app, filter_cons_True.
  - apply Qlt_alt in Hc. split_and!.
    + exists id. apply elem_of_app. right. by left.
    + intros k f'. rewrite elem_of_app, list_elem_of_singleton.
      intros [Hk|[= -> ->]]; [|apply Qle_refl].
      apply Qlt_le_weak. eapply Qlt_le_trans; [exact Hc|]. by eapply Hle.
    + rewrite filter_app, fmap_app, filter_cons_True by done.
      rewrite list_filter_none; [done|]. intros [k f'] Hk E. simpl in E. subst f'.
      apply Hle in Hk. by apply Qlt_not_le in Hc.
  - assert (rq low < rq f)%Q as Hlt by (by apply Qgt_alt). split_and!.
    + exists idl. apply elem_of_app. by left.
    + intros k f'. rewrite elem_of_app, list_elem_of_singleton.
      intros [Hk|[= -> ->]]; [by eapply Hle|by apply Qlt_le_weak].
    + rewrite filter_app, fmap_app, filter_cons_False; [by rewrite app_nil_r|].
      simpl. intros ->. by apply Qlt_irrefl in Hlt.
Qed.

Lemma lowest_factor_spec factors lowest :
  Forall (fun kf => ratio_wf kf.2) factors -> lowest_factor factors = Ok lowest ->
  match lowest with
  | None => factors = []
  | Some ids => exists low id, (id, low) ∈ factors /\
      (forall k f, (k, f) ∈ factors -> (rq low <= rq f)%Q) /\
      (forall k, k ∈ ids <-> (k, low) ∈ factors)
  end.
Proof.
  intros Hwf. unfold lowest_factor.
  destruct (foldM lowest_step None factors) as [best|] eqn:Hf; simpl; [|done].
  apply (foldM_prefix_ind (fun pre b => (forall y, y ∈ pre -> y ∈ factors) /\ lowest_inv pre b)) in Hf.
  - destruct Hf as [_ Hinv]. intros [= <-]. destruct best as [[low ids]|]; simpl; [|done].
    destruct Hinv as ([id Hid] & Hle & ->). exists low, id. split_and!; [done..|].
    intros k. rewrite list_elem_of_fmap. split.
    + intros ([k' f'] & -> & [Hk Hin]%list_elem_of_filter). simpl in *. by subst.
    + intros Hk. exists (k, low). split; [done|]. by apply list_elem_of_filter.
  - split; [|done]. by intros y ?%not_elem_of_nil.
  - intros pre x b b' Hx [Hsub Hinv] Hs. split.
    + intros y. rewrite elem_of_app, list_elem_of_singleton.
      intros [Hy| ->]; [by apply Hsub|done].
    + by eapply lowest_step_inv.
Qed.

(** ** The draw *)

Lemma rank_lt_trans a b c : rank_lt a b = true -> rank_lt b c = true -> rank_lt a c = true.
Proof.
  unfold rank_lt. destruct (bytes_compare (rank_bytes a) (rank_bytes b)) eqn:E1; try done.
  destruct (bytes_compare (rank_bytes b) (rank_bytes c)) eqn:E2; try done.
  by rewrite (bytes_compare_trans _ _ _ E1 E2).
Qed.
Lemma rank_trichotomy a b : rank_lt a b = true \/ a = b \/ rank_lt b a = true.
Proof.
  unfold rank_lt. destruct (bytes_compare (rank_bytes a) (rank_bytes b)) eqn:E; [right; left|by left|].
  - apply bytes_compare_eq in E. destruct a, b; simpl in *. by subst.
  - right; right. rewrite bytes_compare_antisym, E. done.
Qed.

Lemma draw_better_spec id r id' r' :
  draw_better id r id' r' = true <-> rank_lt r r' = true \/ (r = r' /\ str_lt id id').
Proof. unfold draw_better. rewrite orb_true_iff, andb_true_iff, bool_decide_eq_true, str_ltb_spec. done. Qed.

Lemma draw_better_trans i1 r1 i2 r2 i3 r3 :
  draw_better i1 r1 i2 r2 = true -> draw_better i2 r2 i3 r3 = true -> draw_better i1 r1 i3 r3 = true.
Proof.
  rewrite !draw_better_spec. intros [H1|[-> H1]] [H2|[-> H2]]; eauto using rank_lt_trans, str_lt_trans.
Qed.
Lemma draw_better_total i1 r1 i2 r2 :
  i1 <> i2 -> draw_better i1 r1 i2 r2 = false -> draw_better i2 r2 i1 r1 = true.
Proof.
  intros Hne Hf. rewrite draw_better_spec.
  destruct (rank_trichotomy r2 r1) as [|[->|Hlt]]; [by left|right|].
  - split; [done|]. destruct (str_lt_total i2 i1) as [|[->|Hlt]]; [done..|].
    assert (draw_better i1 r1 i2 r1 = true) by (apply draw_better_spec; eauto). congruence.
  - assert (draw_better i1 r1 i2 r2 = true) by (apply draw_better_spec; eauto). congruence.
Qed.

Lemma resolve_tie_spec tied ranks winner :
  resolve_tie tied ranks = Ok winner ->
  winner ∈ tied /\ exists rw, bt_get winner ranks = Some rw /\
  forall id, id ∈ tied -> id <> winner ->
    exists r, bt_get id ranks = Some r /\ draw_better winner rw id r = true.
Proof.
  unfold resolve_tie. destruct (foldM _ _ tied) as [best|] eqn:Hf; [|done].
  apply (foldM_prefix_ind (fun pre b => match b with
    | None => pre = []
    | Some (w, rw) => w ∈ pre /\ bt_get w ranks = Some rw /\
        forall id, id ∈ pre -> id <> w ->
          exists r, bt_get id ranks = Some r /\ draw_better w rw id r = true
    end)) in Hf; [|done|].
  - destruct best as [[w rw]|]; [|done]. intros [= <-]. destruct Hf as (? & ? & ?). eauto.
  - intros pre id b b' _ Hb. unfold resolve_step.
    destruct (bt_get id ranks) as [r|] eqn:Hr; simpl; [|done].
    destruct b as [[w rw]|]; simpl.
    2:{ intros [= <-]. subst. split_and!; [by left|done|].
        intros i [->|[]%not_elem_of_nil]%elem_of_cons Hne. done. }
    destruct Hb as (Hw & Hrw & Hall). destruct (draw_better id r w rw) eqn:Hd; intros [= <-].
    + split_and!; [apply elem_of_app; right; by left|done|].
      intros i. rewrite elem_of_app, list_elem_of_singleton. intros [Hi| ->] Hne; [|done].
      destruct (decide (i = w)) as [->|Hiw]; [eauto|].
      destruct (Hall i Hi Hiw) as (r' & ? & ?). eauto using draw_better_trans.
    + split_and!; [apply elem_of_app; by left|done|].
      intros i. rewrite elem_of_app, list_elem_of_singleton. intros [Hi| ->] Hne; [by apply Hall|].
      exists r. split; [done|]. by apply draw_better_total.
Qed.

(** ** The whole selection *)

Definition factors_inv (input : ChallengeSelectionInput) (pre : list Challenge)
    (acc : btree Ratio * btree Ratio) : Prop :=
  bt_wf acc.2 /\
  (forall k f, (k, f) ∈ acc.2 ->
     exists c, c ∈ pre /\ ch_id c = k /\ ratio_wf f /\ (rq f == factor_spec input c)%Q) /\
  (forall c, c ∈ pre -> ch_id c ∈ bt_keys acc.2).

Lemma factor_one_inv input p pre c acc acc' :
  csi_ok input -> project input = Ok p -> c ∈ csi_challenges input ->
  factors_inv input pre acc ->
  factor_one (csi_pool_qualifiers input) (pj_addition p) acc c = Ok acc' ->
  factors_inv input (pre ++ [c]) acc'.
Proof.
  intros Hok Hp Hc (Hwf & Hel & Hkeys). destruct acc as [ea fs]. unfold factor_one.
  destruct (projected_raw_factor_of _ _ _) as [f|] eqn:Hf; simpl; [|done]. intros [= <-].
  destruct (projected_raw_factor_spec _ _ _ _ Hok Hc Hp Hf) as [Hfw Hfq]. simpl in *. split_and!.
  - by apply bt_insert_wf.
  - intros k f'. rewrite <- bt_get_elem_iff by (by apply bt_insert_wf). simpl.
    rewrite bt_get_insert. case_decide; intros Hk; simplify_eq.
    + exists c. split_and!; [apply elem_of_app; right; by left|done..].
    + apply bt_get_elem, Hel in Hk as (c' & ? & ? & ?).
      exists c'. split; [apply elem_of_app; by left|done].
  - intros c'. simpl. rewrite elem_of_app, list_elem_of_singleton, bt_keys_insert.
    intros [Hc'| ->]; [right; by apply Hkeys|by left].
Qed.

Lemma factors_spec input p ea fs :
  csi_ok input -> project input = Ok p ->
  foldM (factor_one (csi_pool_qualifiers input) (pj_addition p)) (bt_empty, bt_empty)
    (List.filter (eligible (csi_offered_compute input)) (csi_challenges input)) = Ok (ea, fs) ->
  factors_inv input (List.filter (eligible (csi_offered_compute input)) (csi_challenges input)) (ea, fs).
Proof.
  intros Hok Hp Hf. eapply (foldM_prefix_ind (factors_inv input)); [| |exact Hf].
  - split_and!; [apply bt_wf_empty| |]; simpl.
    + by intros k f ?%not_elem_of_nil.
    + by intros c ?%not_elem_of_nil.
  - intros pre c b b' Hc%list_elem_of_In Hinv Hs. apply filter_In in Hc as [Hc _].
    eapply factor_one_inv; try done. by apply list_elem_of_In.
Qed.

Lemma beats_lowest input (E : list Challenge) ea fs low (ids : list string) c :
  NoDup (map ch_id E) -> factors_inv input E (ea, fs) ->
  (forall k f, (k, f) ∈ fs -> (rq low <= rq f)%Q) ->
  (forall k, k ∈ ids <-> (k, low) ∈ fs) -> ratio_wf low ->
  c ∈ E -> ch_id c ∈ ids ->
  forall c', c' ∈ E -> c' <> c ->
    (factor_spec input c < factor_spec input c')%Q \/
    ((factor_spec input c == factor_spec input c')%Q /\ ch_id c' ∈ ids /\ ch_id c' <> ch_id c).
Proof.
  intros Hnd (Hwf & Hel & Hkeys) Hlow Hids Hlw Hc Hcid c' Hc' Hne. simpl in *.
  assert (Huniq : forall x y, x ∈ E -> y ∈ E -> ch_id x = ch_id y -> x = y)
    by (intros x y; by apply NoDup_map_inj).
  assert (Hfac : forall x, x ∈ E -> exists f, (ch_id x, f) ∈ fs /\ ratio_wf f /\ (rq f == factor_spec input x)%Q).
  { intros x Hx. destruct (proj2 (bt_get_is_Some _ _) (Hkeys x Hx)) as [f Hf].
    apply bt_get_elem in Hf. exists f. destruct (Hel _ _ Hf) as (y & Hy & E1 & ? & ?).
    assert (x = y) as -> by (by apply Huniq). done. }
  destruct (Hel _ _ (proj1 (Hids _) Hcid)) as (y & Hy & E1 & _ & Hlq).
  assert (y = c) as -> by (by apply Huniq).
  destruct (Hfac c' Hc') as (f' & Hf' & Hf'w & Hf'q).
  rewrite <- Hlq, <- Hf'q. destruct (Qle_lt_or_eq _ _ (Hlow _ _ Hf')) as [Hlt|Heq]; [by left|right].
  split; [done|]. apply ratio_canonical in Heq; [|done..]. subst f'.
  split; [by apply Hids|]. intros ?. by apply Hne, Huniq.
Qed.

Lemma NoDup_eligible input :
  NoDup (map ch_id (csi_challenges input)) ->
  NoDup (map ch_id (List.filter (eligible (csi_offered_compute input)) (csi_challenges input))).
Proof.
  generalize (csi_challenges input) as l. intros l. induction l as [|c l IH]; simpl; [constructor|].
  intros [Hc Hl]%NoDup_cons. specialize (IH Hl). destruct (eligible _ c); [|done]. simpl.
  apply NoDup_cons. split; [|done]. contradict Hc.
  apply list_elem_of_In, in_map_iff in Hc as (x & <- & [Hx _]%filter_In).
  apply list_elem_of_In, in_map_iff. by exists x.
Qed.

(** The factor map holds the exact factor of every eligible challenge. *)
Lemma factors_lookup input (E : list Challenge) ea fs c :
  NoDup (map ch_id E) -> factors_inv input E (ea, fs) -> c ∈ E ->
  exists f, bt_get (ch_id c) fs = Some f /\ (rq f == factor_spec input c)%Q.
Proof.
  intros Hnd (Hwf & Hel & Hkeys) Hc. simpl in *.
  destruct (proj2 (bt_get_is_Some _ _) (Hkeys c Hc)) as [f Hg]. exists f.
  split; [done|]. apply bt_get_elem, Hel in Hg as (y & Hy & E1 & _ & Hq).
  assert (c = y) as -> by (by apply (NoDup_map_inj ch_id E)). done.
Qed.

(** Every id of the lowest set names an eligible challenge that no challenge
    undercuts. *)
Lemma pick_lowest input (E : list Challenge) ea fs low id (ids : list string) w :
  NoDup (map ch_id E) -> factors_inv input E (ea, fs) ->
  (id, low) ∈ fs -> (forall k f, (k, f) ∈ fs -> (rq low <= rq f)%Q) ->
  (forall k, k ∈ ids <-> (k, low) ∈ fs) -> w ∈ ids ->
  exists c, c ∈ E /\ ch_id c = w /\ forall c', c' ∈ E -> c' <> c ->
    (factor_spec input c < factor_spec input c')%Q \/
    ((factor_spec input c == factor_spec input c')%Q /\ ch_id c' ∈ ids /\ ch_id c' <> ch_id c).
Proof.
  intros Hnd Hinv Hid Hle Hids Hw. pose proof Hinv as (_ & Hel & _). simpl in Hel.
  destruct (Hel _ _ Hid) as (_ & _ & _ & Hlw & _).
  destruct (Hel _ _ (proj1 (Hids w) Hw)) as (c & Hc & Ecw & _).
  exists c. split_and!; [done..|]. subst w. by eapply beats_lowest.
Qed.

Lemma choose_spec ranks (ids : list string) id t sel :
  id ∈ ids -> choose ranks (Some ids) = Ok (t, sel) ->
  exists w, sel = Some w /\ w ∈ ids /\
  forall i, i ∈ ids -> i <> w -> exists rw r, bt_get w ranks = Some rw /\
    bt_get i ranks = Some r /\ draw_better w rw i r = true.
Proof.
  intros Hid. destruct ids as [|i [|j ids]]; simpl.
  - by apply not_elem_of_nil in Hid.
  - intros [= <- <-]. exists i. split_and!; [done|by left|].
    by intros k ->%list_elem_of_singleton.
  - destruct (resolve_tie _ _) as [w|] eqn:Hw; [|done]. intros [= <- <-].
    destruct (resolve_tie_spec _ _ _ Hw) as (Hwin & rw & Hrw & Hbest).
    exists w. split_and!; [done..|]. intros k Hk Hne.
    destruct (Hbest k Hk Hne) as (r & ? & ?). eauto.
Qed.

Definition in_id_order (ids : list string) : Prop := StronglySorted (fun a b => str_ltb a b = true) ids.
Lemma eligible_in_id_order o (cs : list Challenge) : in_id_order (map ch_id cs) -> in_id_order (map ch_id (List.filter (eligible o) cs)).
Proof.
  unfold in_id_order. induction cs as [|c cs IH]; intros H; [done|]. apply StronglySorted_inv in H as [Hs Hall]. simpl.
  destruct (eligible o c); [|by apply IH]. constructor; [by apply IH|]. rewrite Forall_forall in *.
  intros x (d & <- & [Hd _]%filter_In)%list_elem_of_In%in_map_iff. apply Hall. by apply list_elem_of_In, in_map.
Qed.


(** Two GPU challenges tied at 1/10, one of them projected from an in-flight
    benchmark, and a CPU challenge that does not match the offer. *)
Definition example_input : ChallengeSelectionInput :=
  {| csi_offered_compute := OfferedGpu;
     csi_challenges :=
       [ MkChallenge "c1" ComputeGpu ["t1"; "t2"] [("t1", 20)] ["t2"; "t1"];
         MkChallenge "c2" ComputeGpu ["t1"] [("t1", 29)] ["t1"];
         MkChallenge "c3" ComputeCpu ["t1"] [] ["t1"];
         MkChallenge "c4" ComputeGpu ["t9"] [] [] ];
     csi_pool_qualifiers := [("c1", [("t1", 2)]); ("c2", [("t1", 2)])];
     csi_in_flight := [ MkInFlight "b1" "c2" "a1" (Some "t1") 4; MkInFlight "b2" "c2" "a1" None 9 ];
     csi_algorithm_track_stats := [("a1", [("t1", MkTrackStats 3 12)])];
     csi_draw_ranks := [("c1", MkDrawRank [7; 1]); ("c2", MkDrawRank [3; 9])] |}.

(** Otherwise the recorded order is the input's. *)
Example considered_follows_the_input :
  match select_challenge (MkCsi OfferedGpu (reverse (csi_challenges example_input)) (csi_pool_qualifiers example_input) (csi_in_flight example_input)
    (csi_algorithm_track_stats example_input) (csi_draw_ranks example_input)) with
  | Ok sel => cs_considered sel = ["c2"; "c1"]
  | Err _ => False
  end.
Proof. vm_compute. reflexivity. Qed.

(** ** Totality *)

(** What an in-flight benchmark can add at most, whatever its rate. *)
Definition weight (stats : btree (btree TrackStats)) (b : InFlightBenchmark) : Z :=
  match if_track_id b with
  | None => 0
  | Some t => match stats_of stats (if_algorithm_id b) t with
              | None => 0
              | Some s => if ts_active_bundles s =? 0 then 0 else ts_qualifiers s * if_num_bundles b
              end
  end.
Fixpoint weights (stats : btree (btree TrackStats)) (bs : list InFlightBenchmark) : Z :=
  match bs with [] => 0 | b :: bs' => weight stats b + weights stats bs' end.

(** [D] is a common multiple of the live bundle counts, [Q] bounds every
    challenge's qualifier totals and [A] what the in-flight benchmarks add. *)
Record csi_bounded (D Q A : Z) (input : ChallengeSelectionInput) : Prop := {
  bd_pos : 0 < D /\ 0 <= Q /\ 0 <= A;
  bd_multiple : forall b t s, b ∈ csi_in_flight input -> if_track_id b = Some t ->
    stats_of (csi_algorithm_track_stats input) (if_algorithm_id b) t = Some s ->
    ts_active_bundles s <> 0 -> (ts_active_bundles s | D);
  bd_added : weights (csi_algorithm_track_stats input) (csi_in_flight input) <= A;
  bd_network : forall c, c ∈ csi_challenges input ->
    sum_over (qualifiers_of (Some (ch_network_qualifiers_by_track c))) (ch_active_tracks c) <= Q;
  bd_pool : forall c, c ∈ csi_challenges input ->
    sum_over (qualifiers_of (bt_get (ch_id c) (csi_pool_qualifiers input))) (ch_active_tracks c) <= Q;
  bd_width : D * D * (Q + A) <= u64_max /\ D * D <= u64_max;
  bd_ranked : forall c, c ∈ csi_challenges input -> eligible (csi_offered_compute input) c = true ->
    is_Some (bt_get (ch_id c) (csi_draw_ranks input));
}.

Lemma weight_nonneg stats b : stats_ok stats -> 0 <= if_num_bundles b -> 0 <= weight stats b.
Proof.
  intros Hst Hb. unfold weight. destruct (if_track_id b) as [t|]; [|done].
  destruct (stats_of stats _ t) as [s|] eqn:Hs; [|done]. destruct (stats_of_ok _ _ _ _ Hst Hs) as [Hq _].
  destruct (_ =? 0); [done|]. nia.
Qed.
Lemma weights_app stats l1 l2 : weights stats (l1 ++ l2) = weights stats l1 + weights stats l2.
Proof. induction l1 as [|b l1 IH]; simpl; [done|]. rewrite IH. lia. Qed.
Lemma weights_nonneg stats l : stats_ok stats -> Forall (fun b => is_u128 (if_num_bundles b) = true) l -> 0 <= weights stats l.
Proof.
  intros Hst. induction 1 as [|b l Hb _ IH]; simpl; [done|]. apply is_u128_range in Hb.
  pose proof (weight_nonneg stats b Hst). lia.
Qed.

(** The [expected] of one benchmark exists and fits. *)
Lemma expected_total D stats b t s :
  stats_ok stats -> 0 <= if_num_bundles b -> if_track_id b = Some t ->
  stats_of stats (if_algorithm_id b) t = Some s ->
  (ts_active_bundles s <> 0 -> (ts_active_bundles s | D)) -> 0 < D -> D * weight stats b <= u128_max ->
  exists rate, track_rate s = Ok rate /\
  exists expected, match rate with Some r => ratio_checked_mul_int r (if_num_bundles b) | None => Ok ratio_ZERO end = Ok expected /\
    fits D (D * weight stats b) expected.
Proof.
  intros Hst Hnb Ht Hs Hdiv HD Hw. destruct (stats_of_ok _ _ _ _ Hst Hs) as [Hq Hb].
  unfold weight in *. rewrite Ht, Hs in *. unfold track_rate.
  destruct (Z.eqb_spec (ts_active_bundles s) 0) as [Hz|Hnz].
  - exists None. split; [done|]. exists ratio_ZERO. split; [done|]. rewrite Z.mul_0_r. apply fits_zero.
  - destruct (ratio_new_total (ts_qualifiers s) (ts_active_bundles s)) as (r & Hr & Hwr & Er); [done|lia|].
    rewrite Hr. exists (Some r). split; [done|].
    destruct (reduced_divides r (ts_qualifiers s) (ts_active_bundles s) Hwr ltac:(lia) Er) as (k & Hk & Hden & Hnum).
    destruct (Hdiv Hnz) as [m Hm]. pose proof Hwr as (Hrn & Hrd & _).
    set (w := ts_qualifiers s * if_num_bundles b) in *. assert (Hw0 : 0 <= w) by nia.
    assert (Hkw : w = k * (numerator r * if_num_bundles b)) by (unfold w; rewrite Hnum; ring).
    assert (Hle : 0 <= numerator r * if_num_bundles b <= w) by nia. assert (HwD : w <= D * w) by nia.
    assert (Hmul : checked_mul_u u128_max (numerator r) (if_num_bundles b) = Some (numerator r * if_num_bundles b)).
    { apply checked_mul_Ok. split; [done|]. lia. }
    unfold ratio_checked_mul_int. rewrite Hmul. simpl.
    destruct (ratio_new_total (numerator r * if_num_bundles b) (denominator r)) as (e & He & Hwe & Ee); [lia|done|].
    exists e. split; [done|]. split; [done|]. exists (m * k * (numerator r * if_num_bundles b)).
    assert (Hm1 : 1 <= m) by nia. assert (HmD : m <= D) by nia. split.
    { rewrite <- Z.mul_assoc, <- Hkw. nia. }
    rewrite Hm, Hden. rewrite <- (Z.mul_assoc (m * k)), <- Ee. ring.
Qed.

(** The projection completes, and every challenge's addition fits. *)
Lemma project_total D Q A input :
  csi_ok input -> csi_bounded D Q A input ->
  exists p, project input = Ok p /\ forall c, fits D (D * A) (addition_at p c).
Proof.
  intros (_ & _ & Hst & Hnb) Hbd. destruct (bd_pos _ _ _ _ Hbd) as (HD & HQ & HA).
  pose proof (bd_width _ _ _ _ Hbd) as [Hw Hw']. set (stats := csi_algorithm_track_stats input) in *.
  assert (HDA : D * A <= u128_max) by (unfold u64_max, u128_max in *; nia).
  assert (HDm : D <= u128_max) by (unfold u64_max, u128_max in *; nia).
  unfold project.
  destruct (foldM_total_prefix (fun pre p => forall c, fits D (D * weights stats pre) (addition_at p c))
    (project_one stats) (csi_in_flight input) projection_empty) as (p & Hp & Hfit).
  - intros c. simpl. rewrite Z.mul_0_r. apply fits_zero.
  - intros pre b post p Hl Hinv. rewrite Hl, Forall_app, Forall_cons in Hnb. destruct Hnb as (Hpre & Hb & Hpost).
    apply is_u128_range in Hb as [Hb0 _]. pose proof (weight_nonneg stats b Hst Hb0) as Hwb.
    pose proof (weights_nonneg stats pre Hst Hpre) as Hwp. pose proof (weights_nonneg stats post Hst Hpost) as Hwq.
    pose proof (bd_added _ _ _ _ Hbd) as Hadd. fold stats in Hadd. rewrite Hl, weights_app in Hadd. simpl in Hadd.
    assert (Hsum : weights stats (pre ++ [b]) = weights stats pre + weight stats b) by (rewrite weights_app; simpl; lia).
    assert (Hle : D * weights stats pre + D * weight stats b <= u128_max) by nia.
    assert (Hmono : forall c, fits D (D * weights stats (pre ++ [b])) (addition_at p c)).
    { intros c. eapply fits_mono; [|apply Hinv]. nia. }
    unfold project_one. destruct (if_track_id b) as [t|] eqn:Ht; [|by eexists].
    assert (Hexp : exists rate expected,
      match stats_of stats (if_algorithm_id b) t with Some s => map_err ChallengeRatio (track_rate s) | None => Ok None end = Ok rate /\
      match rate with Some r => map_err ChallengeRatio (ratio_checked_mul_int r (if_num_bundles b)) | None => Ok ratio_ZERO end = Ok expected /\
      fits D (D * weight stats b) expected).
    { destruct (stats_of stats (if_algorithm_id b) t) as [s|] eqn:Hs.
      - destruct (expected_total D stats b t s) as (rate & Hr & e & He & Hfe); try done; [|nia|].
        { apply (bd_multiple _ _ _ _ Hbd b t s); [rewrite Hl; apply elem_of_app; right; by left|done|done]. }
        exists rate, e. rewrite Hr. split; [done|]. split; [|done]. destruct rate; [by rewrite He|]. by injection He as <-.
      - exists None, ratio_ZERO. split_and!; [done|done|]. eapply fits_mono; [|apply fits_zero]. nia. }
    destruct Hexp as (rate & e & -> & He & Hfe). cbn [map_err]. rewrite He.
    destruct (checked_add_fits D (D * weights stats pre) (D * weight stats b)
      (default ratio_ZERO (bt_get (if_challenge_id b) (pj_addition p))) e) as (r & Hr & Hfr); [lia|lia|apply Hinv|done|].
    rewrite Hr. simpl. eexists. split; [reflexivity|]. intros c. unfold addition_at. simpl. rewrite bt_get_insert.
    case_decide; [|apply Hmono]. simpl. rewrite Hsum, Z.mul_add_distr_l. exact Hfr.
  - exists p. split; [done|]. intros c. eapply fits_mono; [|apply Hfit].
    pose proof (bd_added _ _ _ _ Hbd). fold stats in H. nia.
Qed.

(** A challenge's sums fit when their totals do. *)
Lemma sum_tracks_total Q c pq :
  counts_ok (ch_network_qualifiers_by_track c) -> (forall m, pq = Some m -> counts_ok m) -> Q <= u128_max ->
  sum_over (qualifiers_of pq) (ch_active_tracks c) <= Q ->
  sum_over (qualifiers_of (Some (ch_network_qualifiers_by_track c))) (ch_active_tracks c) <= Q ->
  exists pool_q network_q, sum_tracks c pq = Ok (pool_q, network_q) /\ 0 <= pool_q <= Q /\ 0 <= network_q <= Q.
Proof.
  intros Hn Hpq HQ. unfold sum_tracks.
  assert (Hp0 : forall t, 0 <= qualifiers_of pq t).
  { intros t. unfold qualifiers_of. destruct pq as [m|]; [|done]. by apply counts_get, Hpq. }
  assert (Hn0 : forall t, 0 <= qualifiers_of (Some (ch_network_qualifiers_by_track c)) t).
  { intros t. by apply counts_get. }
  set (fp := qualifiers_of pq) in *. set (fn := qualifiers_of (Some _)) in *.
  assert (Hrun : forall l p q, 0 <= p -> 0 <= q -> p + sum_over fp l <= Q -> q + sum_over fn l <= Q ->
    exists p' q', foldM (fun '(pool_q, network_q) track =>
           let network := fn track in
           let? network_q' := ok_or (checked_add_u u128_max network_q network) (Overflow "network_q") in
           let pool := fp track in
           let? pool_q' := ok_or (checked_add_u u128_max pool_q pool) (Overflow "pool_q") in
           Ok (pool_q', network_q')) (p, q) l = Ok (p', q') /\ 0 <= p' <= Q /\ 0 <= q' <= Q).
  { induction l as [|t l IH]; intros p q Hp Hq Hpl Hql; simpl in *; [exists p, q; split; [done|lia]|].
    pose proof (sum_over_nonneg fp l Hp0). pose proof (sum_over_nonneg fn l Hn0).
    specialize (Hp0 t). specialize (Hn0 t).
    assert (E1 : checked_add_u u128_max q (fn t) = Some (q + fn t)) by (apply checked_add_Ok; split; [done|lia]).
    assert (E2 : checked_add_u u128_max p (fp t) = Some (p + fp t)) by (apply checked_add_Ok; split; [done|lia]).
    rewrite E1. simpl. rewrite E2. simpl. apply IH; lia. }
  intros Hsp Hsn. exact (Hrun (ch_active_tracks c) 0 0 ltac:(lia) ltac:(lia) ltac:(lia) ltac:(lia)).
Qed.

(** The factor of a challenge exists and has 64-bit parts. *)
Lemma factor_total D Q A c pq a :
  counts_ok (ch_network_qualifiers_by_track c) -> (forall m, pq = Some m -> counts_ok m) ->
  0 < D -> 0 <= Q -> 0 <= A -> D * D * (Q + A) <= u64_max -> D * D <= u64_max -> fits D (D * A) a ->
  sum_over (qualifiers_of pq) (ch_active_tracks c) <= Q ->
  sum_over (qualifiers_of (Some (ch_network_qualifiers_by_track c))) (ch_active_tracks c) <= Q ->
  exists f, projected_raw_factor_of c pq a = Ok f /\ ratio_u64 f.
Proof.
  intros Hn Hpq HD HQ HA Hw Hw' Ha Hsp Hsn. unfold projected_raw_factor_of.
  assert (HQm : Q <= u128_max) by (unfold u64_max, u128_max in *; nia).
  assert (HDm : D <= u128_max) by (unfold u64_max, u128_max in *; nia).
  set (K := D * (Q + A)) in *. assert (HK : K <= u64_max) by (unfold K; nia).
  destruct (sum_tracks_total Q c pq) as (pool_q & network_q & -> & Hp & Hnet); try done.
  assert (Hadd : forall v, 0 <= v <= Q -> exists r, ratio_checked_add (ratio_whole v) a = Ok r /\ fits D K r).
  { intros v Hv. destruct (checked_add_fits D (D * v) (D * A) (ratio_whole v) a) as (r & Hr & Hfr); try done.
    - unfold K, u64_max, u128_max in *. nia.
    - apply fits_whole; lia.
    - exists r. split; [done|]. eapply fits_mono; [|exact Hfr]. unfold K. nia. }
  destruct (Hadd network_q Hnet) as (den & -> & Hden). destruct (Hadd pool_q Hp) as (num & Hnum & Hfn).
  destruct (ratio_is_zero den) eqn:Hz; [exists ratio_ZERO; split; [done|]; unfold ratio_u64, u64_max; simpl; lia|].
  rewrite Hnum. apply Z.eqb_neq in Hz.
  destruct (fits_bounds D K den HD Hden) as [Hdn Hdd]. destruct (fits_bounds D K num HD Hfn) as [Hnn Hnd].
  pose proof (proj1 Hden) as (Bdn & Bdd & _). pose proof (proj1 Hfn) as (Bnn & Bnd & _).
  assert (HKD : K * D <= u64_max) by (unfold K; nia).
  assert (H1 : 0 <= numerator num * denominator den <= K * D) by nia.
  assert (H2 : 0 < numerator den * denominator num <= K * D) by nia.
  assert (E1 : checked_mul_u u128_max (numerator num) (denominator den) = Some (numerator num * denominator den))
    by (apply checked_mul_Ok; split; [done|unfold u64_max, u128_max in *; lia]).
  assert (E2 : checked_mul_u u128_max (numerator den) (denominator num) = Some (numerator den * denominator num))
    by (apply checked_mul_Ok; split; [done|unfold u64_max, u128_max in *; lia]).
  rewrite E1. simpl. rewrite E2. simpl.
  destruct (ratio_new_total (numerator num * denominator den) (numerator den * denominator num)) as (f & Hf & Hwf & Ef);
    [unfold u64_max, u128_max in *; lia|unfold u64_max, u128_max in *; lia|].
  exists f. split; [done|].
  destruct (reduced_divides f (numerator num * denominator den) (numerator den * denominator num) Hwf ltac:(lia) Ef)
    as (k & Hk & Hkd & Hkn).
  destruct Hwf as (Hfn' & Hfd & _). unfold ratio_u64. nia.
Qed.

Lemma lowest_factor_total (factors : btree Ratio) :
  Forall (fun kf => ratio_u64 kf.2) factors -> exists lowest, lowest_factor factors = Ok lowest.
Proof.
  rewrite Forall_forall. intros Hf. unfold lowest_factor.
  destruct (foldM_total (fun best => forall r ids, best = Some (r, ids) -> ratio_u64 r) lowest_step factors None)
    as (best & Hbest & _); [done| |rewrite Hbest; by eexists].
  intros [[low ids]|] [id f] Hin Hb; simpl; pose proof (Hf _ Hin) as Hu; simpl in Hu.
  - destruct (cmp_u64 f low) as [c Hc]; [done|by eapply Hb|]. rewrite Hc. simpl.
    destruct c; eexists; (split; [reflexivity|]); naive_solver.
  - eexists. split; [reflexivity|]. naive_solver.
Qed.

Lemma resolve_tie_total tied (ranks : btree DrawRank) :
  tied <> [] -> (forall id, id ∈ tied -> is_Some (bt_get id ranks)) -> exists w, resolve_tie tied ranks = Ok w.
Proof.
  intros Hne Hr. unfold resolve_tie.
  destruct (foldM_total_prefix (fun pre best => pre <> [] -> best <> None) (resolve_step ranks) tied None)
    as (best & Hbest & Hsome); [done| |].
  - intros pre id post best -> _. unfold resolve_step.
    destruct (Hr id) as [rank Hrank]; [apply elem_of_app; right; by left|]. rewrite Hrank. simpl.
    destruct best as [[bid brank]|]; [destruct (draw_better _ _ _ _)|]; by eexists.
  - rewrite Hbest. destruct best as [[w rw]|]; [by eexists|]. by destruct (Hsome Hne).
Qed.

(** [select_challenge] never fails on inputs of ordinary size: when the live
    bundle counts have a common multiple [D], the qualifier totals are at most
    [Q], the in-flight benchmarks add at most [A], [D * D * (Q + A)] fits in 64
    bits and every eligible challenge has a draw rank, no checked operation
    overflows, no rank is missing, and a challenge is selected whenever one is
    eligible. *)
Theorem select_challenge_total D Q A input :
  csi_ok input -> csi_bounded D Q A input ->
  exists sel, select_challenge input = Ok sel /\
    (cs_selected sel = None <-> List.filter (eligible (csi_offered_compute input)) (csi_challenges input) = []).
Proof.
  intros Hok Hbd. destruct (project_total D Q A input Hok Hbd) as (p & Hp & Hadd).
  unfold select_challenge. pose proof (consider_spec (csi_offered_compute input) (csi_challenges input)) as Hcons.
  destruct (consider _ _) as [ex considered]. simpl in Hcons. subst considered. rewrite Hp. cbv beta iota.
  set (E := List.filter _ _) in *.
  assert (HE : forall c, c ∈ E -> c ∈ csi_challenges input /\ eligible (csi_offered_compute input) c = true).
  { intros c Hc%list_elem_of_In. unfold E in Hc. apply filter_In in Hc as [Hc He]. by apply list_elem_of_In in Hc. }
  destruct (bd_pos _ _ _ _ Hbd) as (HD & HQ & HA). destruct (bd_width _ _ _ _ Hbd) as [Hw Hw'].
  destruct (foldM_total (fun acc : btree Ratio * btree Ratio => Forall (fun kf => ratio_u64 kf.2) acc.2)
    (factor_one (csi_pool_qualifiers input) (pj_addition p)) E (bt_empty, bt_empty)) as ([ea fs] & Hfs & Hu).
  { constructor. }
  { intros [ea fs] c Hc Hall. simpl in Hall. destruct (HE c Hc) as [Hin _]. unfold factor_one.
    destruct Hok as (Hn & Hpq & _). rewrite Forall_forall in Hn. rewrite Forall_forall in Hpq.
    destruct (factor_total D Q A c (bt_get (ch_id c) (csi_pool_qualifiers input)) (addition_at p (ch_id c))) as (f & Hf & Hfu);
      try done; [by apply Hn|intros m Hm%bt_get_elem; by apply (Hpq _ Hm)|by apply Hbd|by apply Hbd|].
    unfold addition_at in Hf. rewrite Hf. eexists. split; [reflexivity|]. simpl.
    rewrite Forall_forall in Hall. apply Forall_forall. intros [k v] Hkv. apply bt_elem_insert in Hkv as [[-> ->]|Hkv]; [done|by apply (Hall _ Hkv)]. }
  rewrite Hfs. cbv beta iota. pose proof (factors_spec _ _ _ _ Hok Hp Hfs) as (Hwf & Hel & Hkeys). simpl in *. fold E in Hel, Hkeys.
  destruct (lowest_factor_total fs Hu) as [lowest Hl]. rewrite Hl. cbv beta iota.
  apply lowest_factor_spec in Hl.
  2:{ apply Forall_forall. intros [k f] Hk. by destruct (Hel _ _ Hk) as (? & _ & _ & ? & _). }
  destruct lowest as [ids|].
  - destruct Hl as (low & id & Hid & _ & Hids).
    assert (Hranked : forall k, k ∈ ids -> is_Some (bt_get k (csi_draw_ranks input))).
    { intros k Hk%Hids. destruct (Hel _ _ Hk) as (c & Hc & <- & _). destruct (HE c Hc). by apply (bd_ranked _ _ _ _ Hbd). }
    assert (HEne : E <> []).
    { intros HE0. destruct (Hel _ _ Hid) as (c & Hc & _). rewrite HE0 in Hc. by apply not_elem_of_nil in Hc. }
    destruct ids as [|i1 [|i2 ids]]; [by apply Hids, not_elem_of_nil in Hid|by eexists|].
    destruct (resolve_tie_total (i1 :: i2 :: ids) (csi_draw_ranks input)) as [w Hw0]; [done|done|].
    unfold choose. rewrite Hw0. by eexists.
  - simpl. eexists. split; [reflexivity|]. simpl. split; [intros _|done].
    destruct E as [|c E']; [done|]. subst fs. destruct (not_elem_of_nil (ch_id c)). apply Hkeys. by left.
Qed.
Example select_challenge_total_witness :
  csi_bounded 12 60 12 example_input /\ exists sel, select_challenge example_input = Ok sel.
Proof.
  assert (Hbd : csi_bounded 12 60 12 example_input).
  { constructor; unfold u64_max; simpl; try lia.
    - intros b t s. rewrite !elem_of_cons, elem_of_nil. intros [->|[->|[]]]; simpl; [|done].
      intros [= <-]. vm_compute. intros [= <-] _. by exists 1.
    - vm_compute. discriminate.
    - intros c. rewrite !elem_of_cons, elem_of_nil. intros [->|[->|[->|[->|[]]]]]; vm_compute; discriminate.
    - intros c. rewrite !elem_of_cons, elem_of_nil. intros [->|[->|[->|[->|[]]]]]; vm_compute; discriminate.
    - intros c. rewrite !elem_of_cons, elem_of_nil. intros [->|[->|[->|[->|[]]]]]; vm_compute; try discriminate; by eexists. }
  split; [exact Hbd|]. edestruct (select_challenge_total 12 60 12 example_input) as (sel & Hs & _).
  - repeat split; repeat constructor.
  - exact Hbd.
  - exists sel. exact Hs.
Defined.
