(* ===== verification/Algorithm.v ===== *)
(** * Algorithm choice: [crates/pool-decision/src/algorithm.rs]

    The challenge-wide choice by adoption and the track-specific rates.  The
    theorems state the choice (the candidate of greatest adoption, smallest id
    on a tie) and, per track, which rates are compared and that the recorded
    best algorithm has the greatest exact rate, smallest id on a tie. *)
From S2P Require Import Prelude BTreeMap Domain Ratio Challenge.
From Stdlib Require Import QArith.
Open Scope Z_scope.

Record Algorithm := MkAlgorithm {
  al_id : string;
  al_banned : bool;
  al_has_successful_binary : bool;
  al_adoption : Z;
}.

Inductive AlgorithmExcluded := Banned | NoSuccessfulBinary | ZeroAdoption.

Record AlgorithmSelectionInput := MkAsi {
  asi_algorithms : list Algorithm;
  asi_algorithm_track_stats : btree (btree TrackStats);
  asi_active_tracks : list string;
}.

Record AlgorithmSelection := MkAs {
  as_candidates_after_filters : list string;
  as_excluded : btree AlgorithmExcluded;
  as_tie_candidates : option (list string);
  as_selected : option string;
  as_track_qualifier_rate : btree (btree (option Ratio));
  as_best_on_track : btree (option string);
  as_track_rate_tie_candidates : btree (list string);
  as_selected_is_best_on_track : btree bool;
}.

(** ** The filters: one loop over [input.algorithms] *)

Record Filtered := MkFiltered {
  fl_excluded : btree AlgorithmExcluded;
  fl_survivors : list Algorithm;
  fl_candidates : list Algorithm;
}.

Definition filter_one (acc : Filtered) (a : Algorithm) : Filtered :=
  if al_banned a then
    MkFiltered (bt_insert (al_id a) Banned (fl_excluded acc)) (fl_survivors acc) (fl_candidates acc)
  else if negb (al_has_successful_binary a) then
    MkFiltered (bt_insert (al_id a) NoSuccessfulBinary (fl_excluded acc))
      (fl_survivors acc) (fl_candidates acc)
  else
    let survivors := fl_survivors acc ++ [a] in
    if al_adoption a =? 0 then
      MkFiltered (bt_insert (al_id a) ZeroAdoption (fl_excluded acc)) survivors (fl_candidates acc)
    else MkFiltered (fl_excluded acc) survivors (fl_candidates acc ++ [a]).

Definition filter_algorithms (l : list Algorithm) : Filtered :=
  fold_left filter_one l (MkFiltered bt_empty [] []).

Definition by_id (a b : Algorithm) : bool := str_leb (al_id a) (al_id b).

(** ** Track rates *)

Definition track_allowed (active_tracks : list string) (track : string) : bool :=
  match active_tracks with [] => true | _ => vec_contains active_tracks track end.

Definition add_rate (active_tracks : list string) (id : string)
    (rates : btree (btree (option Ratio))) (entry : string * TrackStats)
  : result RatioError (btree (btree (option Ratio))) :=
  let '(track, ts) := entry in
  if negb (track_allowed active_tracks track) then Ok rates
  else let? r := track_rate ts in Ok (bt_entry track bt_empty (bt_insert id r) rates).

Definition add_algorithm (stats : btree (btree TrackStats)) (active_tracks : list string)
    (rates : btree (btree (option Ratio))) (a : Algorithm)
  : result RatioError (btree (btree (option Ratio))) :=
  match bt_get (al_id a) stats with
  | None => Ok rates
  | Some by_track => foldM (add_rate active_tracks (al_id a)) rates by_track
  end.

Definition best_step (best : option (string * Ratio)) (entry : string * option Ratio)
  : result RatioError (option (string * Ratio)) :=
  let '(id, rate) := entry in
  match rate with
  | None => Ok best
  | Some rate =>
      match best with
      | None => Ok (Some (id, rate))
      | Some (best_id, best_rate) =>
          let? c := ratio_checked_cmp rate best_rate in
          match c with
          | Gt => Ok (Some (id, rate))
          | _ => Ok (Some (best_id, best_rate))
          end
      end
  end.

Definition tied_step (best_rate : Ratio) (tied : list string) (entry : string * option Ratio)
  : result RatioError (list string) :=
  let '(id, rate) := entry in
  match rate with
  | None => Ok tied
  | Some rate =>
      let? c := ratio_checked_cmp rate best_rate in
      match c with Eq => Ok (tied ++ [id]) | _ => Ok tied end
  end.

Definition best_on_one_track (acc : btree (option string) * btree (list string))
    (entry : string * btree (option Ratio))
  : result RatioError (btree (option string) * btree (list string)) :=
  let '(best_on_track, ties) := acc in
  let '(track, by_algorithm) := entry in
  let? best := foldM best_step None by_algorithm in
  let? ties' :=
    match best with
    | None => Ok ties
    | Some (_, best_rate) =>
        let? tied := foldM (tied_step best_rate) [] by_algorithm in
        if (1 <? length tied)%nat then Ok (bt_insert track tied ties) else Ok ties
    end in
  Ok (bt_insert track (fst <$> best) best_on_track, ties').

(** An entry for every active track, before any rate. *)
Definition empty_rates (active_tracks : list string) : btree (btree (option Ratio)) :=
  fold_left (fun m track => bt_entry track bt_empty (fun x => x) m) active_tracks bt_empty.

Definition track_rates (candidates : list Algorithm) (stats : btree (btree TrackStats))
    (active_tracks : list string)
  : result RatioError (btree (btree (option Ratio)) * btree (option string) * btree (list string)) :=
  let? rates := foldM (add_algorithm stats active_tracks) (empty_rates active_tracks) candidates in
  let? (best_on_track, ties) := foldM best_on_one_track (bt_empty, bt_empty) rates in
  Ok (rates, best_on_track, ties).

(** ** The selection *)

Definition select_algorithm (input : AlgorithmSelectionInput) : result RatioError AlgorithmSelection :=
  let f := filter_algorithms (asi_algorithms input) in
  let step_one_survivors := sort_by by_id (fl_survivors f) in
  let candidates := sort_by by_id (fl_candidates f) in
  let highest := max_list (map al_adoption candidates) in
  let tied :=
    match highest with
    | Some h => map al_id (List.filter (fun a => al_adoption a =? h) candidates)
    | None => []
    end in
  let selected := head tied in
  let tie_candidates := if (1 <? length tied)%nat then Some tied else None in
  let? (rates, best_on_track, rate_ties) :=
    track_rates step_one_survivors (asi_algorithm_track_stats input) (asi_active_tracks input) in
  let selected_is_best_on_track :=
    bt_map (fun _ best => match best, selected with
                          | Some b, Some s => bool_decide (b = s)
                          | _, _ => false
                          end) best_on_track in
  Ok {| as_candidates_after_filters := map al_id candidates;
        as_excluded := fl_excluded f;
        as_tie_candidates := tie_candidates;
        as_selected := selected;
        as_track_qualifier_rate := rates;
        as_best_on_track := best_on_track;
        as_track_rate_tie_candidates := rate_ties;
        as_selected_is_best_on_track := selected_is_best_on_track |}.

(** ** Specification *)

(** Step 1's keep-set and step 2's candidates. *)
Definition is_survivor (a : Algorithm) : bool := negb (al_banned a) && al_has_successful_binary a.
Definition is_candidate (a : Algorithm) : bool := is_survivor a && negb (al_adoption a =? 0).

(** The rate a survivor [a] has on track [t]: unavailable without active
    bundles, exact otherwise. *)
Definition rate_is (stats : btree (btree TrackStats)) (active : list string) (a t : string)
    (v : option Ratio) : Prop :=
  track_allowed active t = true /\
  exists ts, stats_of stats a t = Some ts /\
    match v with
    | None => ts_active_bundles ts = 0
    | Some r => ts_active_bundles ts <> 0 /\ ratio_wf r /\
        (rq r == inject_Z (ts_qualifiers ts) / inject_Z (ts_active_bundles ts))%Q
    end.

Definition rate_at (rates : btree (btree (option Ratio))) (t a : string) : option (option Ratio) :=
  match bt_get t rates with Some m => bt_get a m | None => None end.

(** ** Lemmas: filters *)

Lemma filter_algorithms_spec l :
  fl_survivors (filter_algorithms l) = List.filter is_survivor l /\
  fl_candidates (filter_algorithms l) = List.filter is_candidate l.
Proof.
  unfold filter_algorithms.
  assert (forall acc, fl_survivors (fold_left filter_one l acc) = fl_survivors acc ++ List.filter is_survivor l /\
    fl_candidates (fold_left filter_one l acc) = fl_candidates acc ++ List.filter is_candidate l) as H.
  { induction l as [|a l IH]; intros acc; simpl; [by rewrite !app_nil_r|].
    destruct (IH (filter_one acc a)) as [-> ->].
    unfold filter_one, is_candidate, is_survivor.
    destruct (al_banned a), (al_has_successful_binary a); simpl; try done.
    destruct (al_adoption a =? 0); simpl; by rewrite <- ?app_assoc. }
  apply (H (MkFiltered bt_empty [] [])).
Qed.

Lemma by_id_total a b : by_id a b = true \/ by_id b a = true.
Proof. apply str_leb_total. Qed.
Lemma by_id_trans a b c : by_id a b = true -> by_id b c = true -> by_id a c = true.
Proof. apply str_leb_trans. Qed.

Lemma filter_sorted {A} (le : A -> A -> bool) (p : A -> bool) l :
  StronglySorted (fun a b => le a b = true) l ->
  StronglySorted (fun a b => le a b = true) (List.filter p l).
Proof.
  induction 1 as [|x l Hl IH Hx]; simpl; [constructor|]. destruct (p x); [|done].
  constructor; [done|]. apply Forall_forall. intros y Hy%list_elem_of_In.
  apply filter_In in Hy as [Hy _]. rewrite Forall_forall in Hx. by apply Hx, list_elem_of_In.
Qed.

(** ** Lemmas: rates *)

Definition rates_sound (stats : btree (btree TrackStats)) (active : list string)
    (survivors : list Algorithm) (rates : btree (btree (option Ratio))) : Prop :=
  forall t a v, rate_at rates t a = Some v ->
    (exists alg, alg ∈ survivors /\ al_id alg = a) /\ rate_is stats active a t v.

Definition rates_wf (rates : btree (btree (option Ratio))) : Prop :=
  bt_wf rates /\ forall t m, bt_get t rates = Some m -> bt_wf m.

Lemma rate_at_entry rates t a r t' a' :
  rate_at (bt_entry t bt_empty (bt_insert a r) rates) t' a' =
  if decide (t' = t /\ a' = a) then Some r else rate_at rates t' a'.
Proof.
  unfold rate_at, bt_entry. rewrite bt_get_insert.
  destruct (decide (t' = t)) as [->|Ht].
  - rewrite bt_get_insert. destruct (decide (a' = a)) as [->|Ha].
    + by rewrite decide_True.
    + rewrite decide_False by intuition congruence. by destruct (bt_get t rates).
  - by rewrite decide_False by intuition congruence.
Qed.

Lemma rates_wf_entry rates t f :
  (forall m, bt_wf m -> bt_wf (f m)) -> rates_wf rates -> rates_wf (bt_entry t bt_empty f rates).
Proof.
  intros Hf [Hwf Hin]. unfold bt_entry. split; [by apply bt_insert_wf|].
  intros t' m. rewrite bt_get_insert. case_decide; [|apply Hin].
  intros [= <-]. apply Hf. destruct (bt_get t rates) as [m'|] eqn:Hm; simpl; [by eapply Hin|].
  apply bt_wf_empty.
Qed.

Lemma empty_rates_spec active :
  rates_wf (empty_rates active) /\ (forall t a, rate_at (empty_rates active) t a = None) /\
  forall t, t ∈ bt_keys (empty_rates active) <-> t ∈ active.
Proof.
  unfold empty_rates.
  assert (forall m, rates_wf m -> (forall t a, rate_at m t a = None) ->
    let m' := fold_left (fun m track => bt_entry track bt_empty (fun x => x) m) active m in
    rates_wf m' /\ (forall t a, rate_at m' t a = None) /\
    forall t, t ∈ bt_keys m' <-> t ∈ active \/ t ∈ bt_keys m) as H.
  { induction active as [|t0 active IH]; intros m Hwf Hn; simpl.
    - split_and!; [done..|]. intros t. rewrite elem_of_nil. tauto.
    - destruct (IH (bt_entry t0 bt_empty (fun x => x) m)) as (H1 & H2 & H3).
      + by apply rates_wf_entry.
      + intros t a. unfold rate_at, bt_entry. rewrite bt_get_insert.
        specialize (Hn t a). unfold rate_at in Hn.
        case_decide; subst; [|done]. by destruct (bt_get t0 m).
      + split_and!; [done..|]. intros t. rewrite H3. unfold bt_entry.
        rewrite bt_keys_insert, elem_of_cons. tauto. }
  destruct (H bt_empty) as (H1 & H2 & H3); [split; [apply bt_wf_empty|done]|done|].
  split_and!; [done..|]. intros t. rewrite H3. unfold bt_keys, bt_empty; simpl.
  rewrite elem_of_nil. tauto.
Qed.

(** What folding one algorithm's stats into the rate table does. *)
Record rates_inv (stats : btree (btree TrackStats)) (active : list string)
    (survivors : list Algorithm) (rates : btree (btree (option Ratio))) : Prop := {
  ri_wf : rates_wf rates;
  ri_sound : rates_sound stats active survivors rates;
  ri_active : forall t, t ∈ active -> t ∈ bt_keys rates;
}.

Lemma add_rate_inv stats active survivors alg rates t ts by_track rates' :
  stats_ok stats -> alg ∈ survivors ->
  bt_get (al_id alg) stats = Some by_track -> bt_get t by_track = Some ts ->
  rates_inv stats active survivors rates ->
  add_rate active (al_id alg) rates (t, ts) = Ok rates' ->
  rates_inv stats active survivors rates' /\
  (track_allowed active t = true -> is_Some (rate_at rates' t (al_id alg))) /\
  (forall t' a', is_Some (rate_at rates t' a') -> is_Some (rate_at rates' t' a')).
Proof.
  intros Hst Hin Ha Ht [Hwf Hs Hact]. unfold add_rate.
  destruct (track_allowed active t) eqn:Hal; simpl; [|intros [= <-]; split; done].
  assert (Hso : stats_of stats (al_id alg) t = Some ts) by (unfold stats_of; by rewrite Ha).
  destruct (stats_of_ok _ _ _ _ Hst Hso).
  destruct (track_rate ts) as [r|] eqn:Hr; [|done]. intros [= <-].
  apply track_rate_spec in Hr; [|done..]. split; [split|split].
  - apply rates_wf_entry; [|done]. intros m. apply bt_insert_wf.
  - intros t' a' v. rewrite rate_at_entry. case_decide as Hd; [|apply Hs].
    destruct Hd as [-> ->]. intros [= <-]. split; [by exists alg|].
    split; [done|]. exists ts. split; [done|]. by destruct r.
  - intros t' Ht'. unfold bt_entry. rewrite bt_keys_insert. right. by apply Hact.
  - intros _. rewrite rate_at_entry, decide_True by done. by eexists.
  - intros t' a' Hsome. rewrite rate_at_entry. case_decide; [by eexists|done].
Qed.

Lemma add_algorithm_inv stats active survivors alg rates rates' :
  stats_ok stats -> (forall a m, bt_get a stats = Some m -> bt_wf m) -> alg ∈ survivors ->
  rates_inv stats active survivors rates ->
  add_algorithm stats active rates alg = Ok rates' ->
  rates_inv stats active survivors rates' /\
  (forall t ts, stats_of stats (al_id alg) t = Some ts -> track_allowed active t = true ->
     is_Some (rate_at rates' t (al_id alg))) /\
  (forall t' a', is_Some (rate_at rates t' a') -> is_Some (rate_at rates' t' a')).
Proof.
  intros Hst Hw Hin Hinv. unfold add_algorithm, stats_of.
  destruct (bt_get (al_id alg) stats) as [by_track|] eqn:Ha.
  2:{ intros [= <-]. by split. }
  intros Hf. eapply (foldM_split_ind (fun pre r =>
    rates_inv stats active survivors r /\
    (forall t ts, (t, ts) ∈ pre -> track_allowed active t = true -> is_Some (rate_at r t (al_id alg))) /\
    (forall t' a', is_Some (rate_at rates t' a') -> is_Some (rate_at r t' a')))) in Hf.
  - destruct Hf as (H1 & H2 & H3). split_and!; [done| |done].
    intros t ts Ht. eapply H2. by apply bt_get_elem.
  - split_and!; [done| |done]. by intros t ts ?%not_elem_of_nil.
  - intros pre [t ts] post b b' Hl (H1 & H2 & H3) Hs.
    assert (bt_get t by_track = Some ts) as Hts.
    { apply bt_elem_get; [by eapply Hw|]. rewrite Hl. apply elem_of_app. right. by left. }
    destruct (add_rate_inv _ _ _ _ _ _ _ _ _ Hst Hin Ha Hts H1 Hs) as (? & ? & Hmono).
    split_and!; [done| |by eauto]. intros t' ts'. rewrite elem_of_app, list_elem_of_singleton.
    intros [Hp|[= -> ->]] Hal; eauto.
Qed.

Lemma rates_inv_mono stats active s1 s2 rates :
  (forall a, a ∈ s1 -> a ∈ s2) -> rates_inv stats active s1 rates -> rates_inv stats active s2 rates.
Proof.
  intros Hsub [? Hs ?]. split; [done| |done]. intros t a v Hv.
  destruct (Hs t a v Hv) as [(alg & ? & ?) ?]. eauto.
Qed.

(** The table of rates is exactly the step-one survivors' rates on the allowed
    tracks. *)
Lemma rates_table stats active survivors rates :
  stats_ok stats -> (forall a m, bt_get a stats = Some m -> bt_wf m) ->
  foldM (add_algorithm stats active) (empty_rates active) survivors = Ok rates ->
  rates_inv stats active survivors rates /\
  forall alg t ts, alg ∈ survivors -> stats_of stats (al_id alg) t = Some ts ->
    track_allowed active t = true -> is_Some (rate_at rates t (al_id alg)).
Proof.
  intros Hst Hw Hf. destruct (empty_rates_spec active) as (He1 & He2 & He3).
  eapply (foldM_prefix_ind (fun pre r => (forall a, a ∈ pre -> a ∈ survivors) /\
    rates_inv stats active survivors r /\
    forall alg t ts, alg ∈ pre -> stats_of stats (al_id alg) t = Some ts ->
      track_allowed active t = true -> is_Some (rate_at r t (al_id alg)))) in Hf.
  - by destruct Hf.
  - split_and!; [by intros ? ?%not_elem_of_nil| |by intros ??? ?%not_elem_of_nil].
    split; [done| |intros; by apply He3]. intros t a v. by rewrite He2.
  - intros pre alg b b' Hin (Hsub & Hb & Hc) Hs.
    destruct (add_algorithm_inv _ _ _ _ _ _ Hst Hw Hin Hb Hs) as (? & Hnew & Hmono).
    split_and!; [|done|].
    + intros a. rewrite elem_of_app, list_elem_of_singleton. intros [| ->]; [by apply Hsub|done].
    + intros alg' t ts. rewrite elem_of_app, list_elem_of_singleton. intros [Hp| ->]; eauto.
Qed.

(** ** Lemmas: the best rate on a track *)

Definition best_inv (pre : list (string * option Ratio)) (best : option (string * Ratio)) : Prop :=
  match best with
  | None => forall k r, (k, r) ∈ pre -> r = None
  | Some (id, rate) => (id, Some rate) ∈ pre /\
      forall k r, (k, Some r) ∈ pre ->
        (rq r < rq rate)%Q \/ ((rq r == rq rate)%Q /\ (k = id \/ str_lt id k))
  end.

Lemma best_step_inv pre k r b b' :
  (forall k' r', (k', Some r') ∈ pre -> ratio_wf r') -> (forall r', r = Some r' -> ratio_wf r') ->
  (forall k' r', (k', r') ∈ pre -> str_lt k' k) ->
  best_inv pre b -> best_step b (k, r) = Ok b' -> best_inv (pre ++ [(k, r)]) b'.
Proof.
  intros Hwf Hr Hlt Hinv. unfold best_step. destruct r as [r|].
  2:{ intros [= <-]. destruct b as [[id rate]|]; simpl in *.
      - destruct Hinv as [Hid Hall]. split; [apply elem_of_app; by left|].
        intros k' r'. rewrite elem_of_app, list_elem_of_singleton. intros [|[=]]; eauto.
      - intros k' r'. rewrite elem_of_app, list_elem_of_singleton. intros [|[= -> ->]]; eauto. }
  specialize (Hr r eq_refl). destruct b as [[id rate]|]; simpl in *.
  2:{ intros [= <-]. simpl. split; [apply elem_of_app; right; by left|].
      intros k' r'. rewrite elem_of_app, list_elem_of_singleton. intros [Hp|[= -> ->]].
      - by apply Hinv in Hp.
      - right. split; [reflexivity|by left]. }
  destruct Hinv as [Hid Hall]. pose proof (Hwf _ _ Hid) as Hw.
  destruct (ratio_checked_cmp r rate) as [c|] eqn:Hc; [|done].
  apply ratio_checked_cmp_Ok in Hc; [|done..]. symmetry in Hc.
  destruct c; intros [= <-]; simpl; (split; [apply elem_of_app; first [by left|right; by left]|]);
    intros k' r'; rewrite elem_of_app, list_elem_of_singleton; intros [Hp|[= -> ->]]; eauto.
  - right. split; [by apply Qeq_alt|]. right. by eapply Hlt.
  - left. apply Qgt_alt in Hc. destruct (Hall _ _ Hp) as [Hl|[He _]].
    + by eapply Qlt_trans.
    + by rewrite He.
  - right. split; [reflexivity|by left].
Qed.

Lemma best_on_track_spec (m : btree (option Ratio)) best :
  bt_wf m -> (forall k r, (k, Some r) ∈ m -> ratio_wf r) ->
  foldM best_step None m = Ok best -> best_inv m best.
Proof.
  intros Hwf Hr Hf. eapply (foldM_split_ind best_inv); [| |exact Hf].
  - by intros k r ?%not_elem_of_nil.
  - intros pre [k r] post b b' Hl Hinv Hs.
    assert (Hpre : forall y, y ∈ pre -> y ∈ m) by (intros y Hy; rewrite Hl; apply elem_of_app; by left).
    eapply best_step_inv; try done.
    + intros k' r' Hk. eapply Hr, Hpre, Hk.
    + intros r' ->. apply (Hr k). rewrite Hl. apply elem_of_app. right. by left.
    + intros k' r' Hk. unfold bt_wf, bt_keys in Hwf. rewrite Hl, fmap_app in Hwf. simpl in Hwf.
      apply StronglySorted_app_1_elem_of with (x1 := k') (x2 := k) in Hwf; [done| |by left].
      apply list_elem_of_fmap. by exists (k', r').
Qed.

Definition table_inv (pre : list (string * btree (option Ratio)))
    (acc : btree (option string) * btree (list string)) : Prop :=
  (forall t b, bt_get t acc.1 = Some b ->
     exists m best, (t, m) ∈ pre /\ foldM best_step None m = Ok best /\ b = fst <$> best) /\
  (forall t m, (t, m) ∈ pre -> t ∈ bt_keys acc.1).

Lemma best_table_spec rates acc :
  foldM best_on_one_track (bt_empty, bt_empty) rates = Ok acc -> table_inv rates acc.
Proof.
  apply foldM_prefix_ind.
  - split; [done|]. by intros t m ?%not_elem_of_nil.
  - intros pre [t m] [bm ties] b' _ [H1 H2] Hs. simpl in *. unfold best_on_one_track in Hs.
    destruct (foldM best_step None m) as [best|] eqn:Hb; [|done].
    assert (b'.1 = bt_insert t (fst <$> best) bm) as E.
    { destruct best as [[id r]|]; [|by simplify_eq/=].
      destruct (foldM (tied_step r) [] m); [|done]. by destruct (1 <? length _)%nat; simplify_eq/=. }
    unfold table_inv. rewrite E. split.
    + intros t' b. rewrite bt_get_insert. case_decide as Ht.
      * intros [= <-]. subst. exists m, best. split; [apply elem_of_app; right; by left|done].
      * intros Hg. destruct (H1 _ _ Hg) as (m' & best' & ? & ? & ?).
        exists m', best'. split; [apply elem_of_app; by left|done].
    + intros t' m'. rewrite elem_of_app, list_elem_of_singleton, bt_keys_insert.
      intros [Hp|[= -> ->]]; [right; by eapply H2|by left].
Qed.

Lemma track_rates_spec survivors stats active rates best ties :
  stats_ok stats -> (forall a m, bt_get a stats = Some m -> bt_wf m) ->
  track_rates survivors stats active = Ok (rates, best, ties) ->
  rates_inv stats active survivors rates /\
  (forall alg t ts, alg ∈ survivors -> stats_of stats (al_id alg) t = Some ts ->
    track_allowed active t = true -> is_Some (rate_at rates t (al_id alg))) /\
  (forall t, t ∈ active -> t ∈ bt_keys best) /\
  (forall t b, bt_get t best = Some b -> exists m bb, bt_get t rates = Some m /\
     b = fst <$> bb /\ best_inv m bb).
Proof.
  intros Hst Hw. unfold track_rates.
  destruct (foldM (add_algorithm _ _) _ _) as [rates'|] eqn:Hr; [|done].
  destruct (foldM best_on_one_track _ _) as [[best' ties']|] eqn:Hb; [|done].
  intros [= <- <- <-]. destruct (rates_table _ _ _ _ Hst Hw Hr) as [Hinv Hcomp].
  pose proof (best_table_spec _ _ Hb) as [Ht1 Ht2]. simpl in *.
  destruct Hinv as [[Hwf Hwfi] Hs Hact]. split_and!; [by split|done| |].
  - intros t Hin%Hact. apply list_elem_of_fmap in Hin as ([t' m] & -> & Hin). by eapply Ht2.
  - intros t b Hg. destruct (Ht1 _ _ Hg) as (m & bb & Hm & Hf & ->).
    apply bt_elem_get in Hm; [|done]. exists m, bb. split_and!; [done..|].
    eapply best_on_track_spec; [by eapply Hwfi| |exact Hf].
    intros k r Hk. apply bt_elem_get in Hk; [|by eapply Hwfi].
    destruct (Hs t k (Some r)) as [_ (_ & ts & _ & _ & ? & _)]; [|done].
    unfold rate_at. by rewrite (Hm : bt_get t rates' = Some m).
Qed.

Lemma rate_is_unique stats active a t v v' :
  rate_is stats active a t v -> rate_is stats active a t v' -> v = v'.
Proof.
  intros (_ & ts & H1 & Hv) (_ & ts' & H2 & Hv'). assert (ts' = ts) as -> by congruence.
  destruct v as [r|], v' as [r'|]; try done; [|tauto..].
  destruct Hv as (_ & Hr & E), Hv' as (_ & Hr' & E'). f_equal.
  apply ratio_canonical; [done..|]. by rewrite E, E'.
Qed.

Lemma elem_of_bfilter {A} (p : A -> bool) x l : x ∈ List.filter p l <-> x ∈ l /\ p x = true.
Proof. by rewrite !list_elem_of_In, filter_In. Qed.

(** The first of the algorithms holding the greatest adoption, in a list sorted
    by id. *)
Lemma first_of_highest l h :
  StronglySorted (fun a b => by_id a b = true) l -> max_list (map al_adoption l) = Some h ->
  exists a tied, List.filter (fun a => al_adoption a =? h) l = a :: tied /\ a ∈ l /\
    forall b, b ∈ l -> al_adoption b < al_adoption a \/
      (al_adoption b = al_adoption a /\ by_id a b = true).
Proof.
  intros Hsorted [Hin Hle]%max_list_Some.
  pose proof (filter_sorted by_id (fun a => al_adoption a =? h) _ Hsorted) as Hfs.
  assert (Hf : forall b, b ∈ List.filter (fun a => al_adoption a =? h) l <-> b ∈ l /\ al_adoption b = h)
    by (intros b; by rewrite elem_of_bfilter, Z.eqb_eq).
  apply list_elem_of_fmap in Hin as (x & Ex & Hx).
  destruct (List.filter _ l) as [|a tied].
  { by destruct (not_elem_of_nil x (proj2 (Hf x) (conj Hx (eq_sym Ex)))). }
  destruct (proj1 (Hf a) ltac:(by left)) as [Ha Hah]. exists a, tied. split_and!; [done..|].
  intros b Hb. assert (al_adoption b <= h) by (apply Hle, list_elem_of_fmap; eauto).
  destruct (decide (al_adoption b = h)) as [Eb|]; [right|left; lia]. split; [congruence|].
  pose proof (proj2 (Hf b) (conj Hb Eb)) as [->|Hbt]%elem_of_cons; [apply str_leb_refl|].
  inversion Hfs as [|?? _ Hall]; subst. rewrite Forall_forall in Hall. by apply (Hall b).
Qed.

(** ** Properties *)

(** The challenge-wide choice.  The candidates recorded are the unbanned
    algorithms with a successful binary and non-zero adoption, in id order; the
    one selected has the greatest adoption among them and, among equals, the
    smallest id; nothing is selected exactly when there is no candidate. *)
Theorem select_algorithm_by_adoption input sel :
  select_algorithm input = Ok sel ->
  as_candidates_after_filters sel ≡ₚ map al_id (List.filter is_candidate (asi_algorithms input)) /\
  StronglySorted (fun a b => str_leb a b = true) (as_candidates_after_filters sel) /\
  match as_selected sel with
  | None => forall a, a ∈ asi_algorithms input -> is_candidate a = false
  | Some id => exists a, a ∈ asi_algorithms input /\ is_candidate a = true /\ al_id a = id /\
      forall b, b ∈ asi_algorithms input -> is_candidate b = true ->
        al_adoption b < al_adoption a \/
        (al_adoption b = al_adoption a /\ str_leb id (al_id b) = true)
  end.
Proof.
  unfold select_algorithm. destruct (filter_algorithms_spec (asi_algorithms input)) as [-> ->].
  destruct (track_rates _ _ _) as [[[rates best] ties]|]; [|done]. intros [= <-]. simpl.
  set (cands := List.filter is_candidate _).
  assert (Hel : forall a, a ∈ sort_by by_id cands <-> a ∈ asi_algorithms input /\ is_candidate a = true)
    by (intros a; rewrite elem_of_sort_by; apply elem_of_bfilter).
  pose proof (sort_by_sorted by_id by_id_total by_id_trans cands) as Hsorted. split_and!.
  - by rewrite sort_by_perm.
  - clear Hel. induction Hsorted as [|x l Hl IH Hx]; simpl; constructor; [done|].
    apply Forall_fmap. exact Hx.
  - destruct (max_list _) as [h|] eqn:Hmax.
    + destruct (first_of_highest _ _ Hsorted Hmax) as (a & tied & -> & Ha & Hbest). simpl.
      apply Hel in Ha as [? ?]. exists a. split_and!; [done..|].
      intros b Hb Hcb. by apply Hbest, Hel.
    + apply max_list_None, fmap_nil_inv in Hmax. intros a Ha.
      destruct (is_candidate a) eqn:Hc; [|done].
      pose proof (proj2 (Hel a) (conj Ha Hc)) as Hin. rewrite Hmax in Hin.
      by apply not_elem_of_nil in Hin.
Qed.
Definition example_algorithms : AlgorithmSelectionInput :=
  {| asi_algorithms :=
       [ MkAlgorithm "a3" false true 40; MkAlgorithm "a0" true true 90;
         MkAlgorithm "a1" false true 40; MkAlgorithm "a2" false true 0;
         MkAlgorithm "a4" false false 70 ];
     asi_algorithm_track_stats :=
       [("a1", [("t1", MkTrackStats 1 4)]); ("a2", [("t1", MkTrackStats 1 2); ("t2", MkTrackStats 5 5)]);
        ("a3", [("t1", MkTrackStats 2 8)])];
     asi_active_tracks := ["t1"; "t3"] |}.

Example select_algorithm_by_adoption_witness :
  exists sel, select_algorithm example_algorithms = Ok sel /\
    as_selected sel = Some "a1" /\ as_tie_candidates sel = Some ["a1"; "a3"] /\
    exists a, a ∈ asi_algorithms example_algorithms /\ al_id a = "a1" /\
      forall b, b ∈ asi_algorithms example_algorithms -> is_candidate b = true ->
        al_adoption b < al_adoption a \/
        (al_adoption b = al_adoption a /\ str_leb "a1" (al_id b) = true).
Proof.
  destruct (select_algorithm example_algorithms) as [sel|] eqn:Hs; [|by vm_compute in Hs].
  destruct (select_algorithm_by_adoption example_algorithms sel Hs) as (_ & _ & H).
  vm_compute in Hs. injection Hs as <-. simpl in H. destruct H as (a & ? & ? & ? & ?).
  eexists. split_and!; [reflexivity..|]. by exists a.
Defined.

(** The track-specific rates.  The table holds a rate exactly for the step-one
    survivors (zero adoption included) with published stats on an allowed
    track, unavailable without active bundles and exact otherwise; every active
    track gets an answer; the recorded best algorithm has the greatest exact
    rate of the track, smallest id on a tie, and is absent exactly when no rate
    is usable; and the flag the bundle rule reads says whether the selected
    algorithm is that best one. *)
Theorem select_algorithm_track_rates input sel :
  stats_ok (asi_algorithm_track_stats input) ->
  (forall a m, bt_get a (asi_algorithm_track_stats input) = Some m -> bt_wf m) ->
  select_algorithm input = Ok sel ->
  (forall t a v, rate_at (as_track_qualifier_rate sel) t a = Some v <->
     (exists alg, alg ∈ asi_algorithms input /\ is_survivor alg = true /\ al_id alg = a) /\
     rate_is (asi_algorithm_track_stats input) (asi_active_tracks input) a t v) /\
  (forall t, t ∈ asi_active_tracks input -> t ∈ bt_keys (as_best_on_track sel)) /\
  (forall t best, bt_get t (as_best_on_track sel) = Some best ->
     match best with
     | None => forall a v, rate_at (as_track_qualifier_rate sel) t a = Some v -> v = None
     | Some id => exists r, rate_at (as_track_qualifier_rate sel) t id = Some (Some r) /\
         forall a r', rate_at (as_track_qualifier_rate sel) t a = Some (Some r') ->
           (rq r' < rq r)%Q \/ ((rq r' == rq r)%Q /\ (a = id \/ str_lt id a))
     end) /\
  (forall t, bt_get t (as_selected_is_best_on_track sel) = Some true <->
     exists id, as_selected sel = Some id /\ bt_get t (as_best_on_track sel) = Some (Some id)).
Proof.
  intros Hst Hw. unfold select_algorithm.
  destruct (filter_algorithms_spec (asi_algorithms input)) as [-> ->].
  destruct (track_rates _ _ _) as [[[rates best] ties]|] eqn:Htr; [|done]. intros [= <-]. simpl.
  destruct (track_rates_spec _ _ _ _ _ _ Hst Hw Htr) as ([[Hwf Hwfi] Hs _] & Hcomp & Hkeys & Hbest).
  assert (Hsv : forall a, a ∈ sort_by by_id (List.filter is_survivor (asi_algorithms input)) <->
    a ∈ asi_algorithms input /\ is_survivor a = true)
    by (intros a; rewrite elem_of_sort_by; apply elem_of_bfilter).
  split_and!; [|done| |].
  - intros t a v. split.
    + intros H. destruct (Hs _ _ _ H) as [(alg & [? ?]%Hsv & ?) ?]. eauto.
    + intros [(alg & Hin & Hsur & <-) Hr]. pose proof Hr as (Hal & ts & Hts & _).
      destruct (Hcomp alg t ts (proj2 (Hsv alg) (conj Hin Hsur)) Hts Hal) as [v' Hv'].
      rewrite Hv'. f_equal. destruct (Hs _ _ _ Hv') as [_ Hr']. by eapply rate_is_unique.
  - intros t b Hb. destruct (Hbest t b Hb) as (m & bb & Hm & -> & Hi). unfold rate_at. rewrite Hm.
    destruct bb as [[id r]|]; simpl in *.
    + destruct Hi as [Hid Hall]. exists r. split; [apply bt_elem_get; [by eapply Hwfi|done]|].
      intros a r' Ha. apply Hall. by apply bt_get_elem.
    + intros a v Ha. by eapply Hi, bt_get_elem.
  - intros t. rewrite bt_get_map. destruct (bt_get t best) as [[b|]|]; simpl.
    + destruct (head _) as [s|]; simpl; [|split; [done|by intros (? & ? & ?)]].
      split; [intros [= ->%bool_decide_eq_true]; eauto|]. intros (id & [= ->] & [= ->]).
      by rewrite bool_decide_eq_true_2.
    + split; [done|]. by intros (? & ? & ?).
    + split; [done|]. by intros (? & ? & ?).
Qed.
Example select_algorithm_track_rates_witness :
  exists sel, select_algorithm example_algorithms = Ok sel /\
    bt_get "t1" (as_best_on_track sel) = Some (Some "a2") /\
    bt_get "t3" (as_best_on_track sel) = Some None /\
    forall a v, rate_at (as_track_qualifier_rate sel) "t3" a = Some v -> v = None.
Proof.
  destruct (select_algorithm example_algorithms) as [sel|] eqn:Hs; [|by vm_compute in Hs].
  destruct (select_algorithm_track_rates example_algorithms sel) as (_ & _ & H & _).
  - repeat constructor.
  - intros a m. simpl. repeat (case_decide; [intros [= <-]; repeat constructor|]). done.
  - exact Hs.
  - specialize (H "t3" None). vm_compute in Hs. injection Hs as <-.
    eexists. split_and!; [reflexivity..|]. apply H. reflexivity.
Defined.

(** ** Totality *)

(** Counts of at most 64 bits, as the block data carries them. *)
Definition stats_u64 (stats : btree (btree TrackStats)) : Prop :=
  Forall (fun kv => Forall (fun kv' => 0 <= ts_qualifiers kv'.2 <= u64_max /\ 0 <= ts_active_bundles kv'.2 <= u64_max) kv.2) stats.
Lemma stats_u64_ok stats : stats_u64 stats -> stats_ok stats.
Proof.
  unfold stats_u64, stats_ok. intros H. eapply Forall_impl; [exact H|]. intros kv Hkv. eapply Forall_impl; [exact Hkv|].
  intros [t ts] [H1 H2]. simpl in *. unfold u64_max in *. apply andb_true_iff. rewrite !is_u128_range. unfold u128_max. lia.
Qed.
Lemma rate_is_u64 stats active a t r :
  stats_u64 stats -> rate_is stats active a t (Some r) -> ratio_u64 r.
Proof.
  intros Hst (_ & ts & Hts & Hnz & Hwf & E). unfold stats_of in Hts.
  destruct (bt_get a stats) as [by_track|] eqn:Ha; [|done]. apply bt_get_elem in Ha, Hts.
  unfold stats_u64 in Hst. rewrite Forall_forall in Hst. specialize (Hst _ Ha). simpl in Hst.
  rewrite Forall_forall in Hst. destruct (Hst _ Hts) as [Hq Hb]. simpl in *.
  apply reduced_of_rq in E; [|done|lia].
  destruct (reduced_divides r (ts_qualifiers ts) (ts_active_bundles ts)) as (k & Hk & Hd & Hn); [done|lia|lia|].
  destruct Hwf as (Hwn & Hwd & _). unfold ratio_u64. nia.
Qed.

Lemma track_rate_total ts : exists r, track_rate ts = Ok r.
Proof.
  unfold track_rate, ratio_new. destruct (Z.eqb_spec (ts_active_bundles ts) 0); [by eexists|].
  by eexists.
Qed.

(** One track's two loops, over rates that fit. *)
Lemma best_on_one_track_total acc t (m : btree (option Ratio)) :
  (forall a r, (a, Some r) ∈ m -> ratio_u64 r) -> exists acc', best_on_one_track acc (t, m) = Ok acc'.
Proof.
  intros Hm. unfold best_on_one_track. destruct acc as [bests ties].
  destruct (foldM_total (fun best => forall id r, best = Some (id, r) -> ratio_u64 r) best_step m None)
    as (best & Hbest & Hsmall); [done| |].
  { intros b [id [r|]] Hin Hb; simpl; [|by exists b]. pose proof (Hm _ _ Hin) as Hr.
    destruct b as [[bid br]|]; [|exists (Some (id, r)); naive_solver].
    destruct (cmp_u64 r br) as [c Hc]; [done|by eapply Hb|]. rewrite Hc. simpl.
    destruct c; eexists; (split; [reflexivity|]); naive_solver. }
  rewrite Hbest. destruct best as [[bid br]|]; [|by eexists]. specialize (Hsmall _ _ eq_refl).
  destruct (foldM_total (fun _ => True) (tied_step br) m []) as (tied & Htied & _); [done| |].
  { intros b [id [r|]] Hin _; simpl; [|by exists b]. destruct (cmp_u64 r br) as [c Hc]; [by eapply Hm|done|].
    rewrite Hc. simpl. destruct c; by eexists. }
  rewrite Htied. destruct (1 <? length tied)%nat; by eexists.
Qed.

(** [select_algorithm] never fails on 64-bit counts: no comparison it makes
    overflows, so every challenge gets an answer. *)
Theorem select_algorithm_total input :
  stats_u64 (asi_algorithm_track_stats input) ->
  (forall a m, bt_get a (asi_algorithm_track_stats input) = Some m -> bt_wf m) ->
  exists sel, select_algorithm input = Ok sel.
Proof.
  intros Hst Hw. unfold select_algorithm. destruct (filter_algorithms_spec (asi_algorithms input)) as [-> ->].
  set (survivors := sort_by by_id _). set (stats := asi_algorithm_track_stats input) in *. unfold track_rates.
  destruct (foldM_total (fun _ => True) (add_algorithm stats (asi_active_tracks input))
    survivors (empty_rates (asi_active_tracks input))) as (rates & Hrates & _); [done| |].
  { intros rates a _ _. unfold add_algorithm. destruct (bt_get (al_id a) stats) as [by_track|]; [|by eexists].
    apply (foldM_total (fun _ => True)); [done|]. intros b [t ts] _ _. unfold add_rate.
    destruct (negb _); [by eexists|]. destruct (track_rate_total ts) as [r ->]. by eexists. }
  rewrite Hrates. destruct (rates_table _ _ _ _ (stats_u64_ok _ Hst) Hw Hrates) as [[[Hwf Hwfi] Hsound _] _].
  destruct (foldM_total (fun _ => True) best_on_one_track rates (bt_empty, bt_empty)) as ([bests ties] & Hb & _); [done| |].
  { intros acc [t m] Hin _. destruct (best_on_one_track_total acc t m) as [acc' Hacc]; [|by exists acc'].
    intros a r Har. apply (bt_elem_get _ _ _ Hwf) in Hin.
    assert (Hat : rate_at rates t a = Some (Some r)).
    { unfold rate_at. rewrite Hin. apply bt_elem_get; [by eapply Hwfi|done]. }
    by eapply rate_is_u64, Hsound. }
  rewrite Hb. simpl. by eexists.
Qed.
Example select_algorithm_total_witness :
  stats_u64 (asi_algorithm_track_stats example_algorithms) /\ exists sel, select_algorithm example_algorithms = Ok sel.
Proof.
  assert (Hu : stats_u64 (asi_algorithm_track_stats example_algorithms))
    by (repeat constructor; simpl; unfold u64_max; lia).
  split; [exact Hu|]. apply (select_algorithm_total example_algorithms); [exact Hu|].
  intros a m. simpl. repeat (case_decide; [intros [= <-]; repeat constructor|]). done.
Defined.
