(* ===== verification/Bundles.v ===== *)
(** * Bundle counts: [crates/pool-decision/src/bundles.rs]

    [size_bundles] against its documented meaning: the smallest count at or
    above the minimum that makes the nonce total a multiple of the cores. *)
From S2P Require Import Prelude BTreeMap Ratio Challenge.
Open Scope Z_scope.

Record TrackSizing := MkTrackSizing {
  tz_num_nonces_per_bundle : Z;
  tz_selected_algorithm_best_on_track : bool;
}.

Record BundleSizingInput := MkBsi {
  bsi_offered_compute : OfferedCompute;
  bsi_min_num_bundles : Z;
  bsi_tracks : btree TrackSizing;
}.

Record Derivation := MkDerivation { dv_gcd_cores_nonces : Z; dv_bundle_multiple : Z }.

Record BundleSizing := MkBundleSizing {
  bz_num_bundles : btree Z;
  bz_derivation : btree Derivation;
}.

Inductive BundleSizingError := ZeroCores | BundleOverflow (track_id : string).

(** [bundles.rs] [fn gcd]: the loop of the ratio module at [u64], without the
    zero guard. *)
Definition bundle_gcd (a b : Z) : Z := default 0 (gcd_loop (gcd_fuel 64) a b).

(** [u64::div_ceil]. *)
Definition div_ceil (a b : Z) : Z := a / b + (if a mod b =? 0 then 0 else 1).

(** The cores of the alignment branch, [None] when the track takes the minimum. *)
Definition aligned_cores (offered : OfferedCompute) (track : TrackSizing) : option Z :=
  match offered, tz_selected_algorithm_best_on_track track with
  | OfferedGpu, _ | OfferedCpu _, false => None
  | OfferedCpu cores, true => Some cores
  end.

Definition size_track (input : BundleSizingInput) (acc : BundleSizing) (entry : string * TrackSizing)
  : result BundleSizingError BundleSizing :=
  let '(track_id, track) := entry in
  match aligned_cores (bsi_offered_compute input) track with
  | None => Ok (MkBundleSizing (bt_insert track_id (bsi_min_num_bundles input) (bz_num_bundles acc))
                  (bz_derivation acc))
  | Some cores =>
      if cores =? 0 then Err ZeroCores
      else
        let divisor := bundle_gcd cores (tz_num_nonces_per_bundle track) in
        let bundle_multiple := cores / divisor in
        let steps := div_ceil (bsi_min_num_bundles input) bundle_multiple in
        let? sized := ok_or (checked_mul_u u64_max steps bundle_multiple) (BundleOverflow track_id) in
        Ok (MkBundleSizing (bt_insert track_id sized (bz_num_bundles acc))
              (bt_insert track_id (MkDerivation divisor bundle_multiple) (bz_derivation acc)))
  end.

Definition size_bundles (input : BundleSizingInput) : result BundleSizingError BundleSizing :=
  foldM (size_track input) (MkBundleSizing bt_empty bt_empty) (bsi_tracks input).

(** ** Specification *)

Definition offered_cores_ok (o : OfferedCompute) : bool :=
  match o with OfferedCpu cores => is_u64 cores | OfferedGpu => true end.
Definition bsi_ok (input : BundleSizingInput) : Prop :=
  offered_cores_ok (bsi_offered_compute input) = true /\ is_u64 (bsi_min_num_bundles input) = true /\
  Forall (fun kv => is_u64 (tz_num_nonces_per_bundle kv.2) = true) (bsi_tracks input).

(** [n] bundles of [nonces] fill [cores] evenly. *)
Definition aligned (cores nonces n : Z) : Prop := (n * nonces) mod cores = 0.
Definition least_aligned (cores nonces min n : Z) : Prop :=
  min <= n /\ aligned cores nonces n /\ forall k, min <= k -> aligned cores nonces k -> n <= k.

(** ** Lemmas *)

Lemma bundle_gcd_spec a b : 0 <= a -> 0 <= b <= u64_max -> bundle_gcd a b = Z.gcd a b.
Proof. intros Ha Hb. unfold bundle_gcd. unfold u64_max in Hb. by rewrite gcd_loop_gcd by (simpl; lia). Qed.

Lemma div_ceil_spec a b : 0 <= a -> 0 < b ->
  a <= div_ceil a b * b /\ forall k, a <= k * b -> div_ceil a b <= k.
Proof.
  intros Ha Hb. unfold div_ceil. pose proof (Z.div_mod a b ltac:(lia)) as Hdm.
  pose proof (Z.mod_pos_bound a b Hb). destruct (Z.eqb_spec (a mod b) 0); split; intros; nia.
Qed.

(** Multiples of [cores / gcd(cores, nonces)] are exactly the aligned counts. *)
Lemma aligned_iff cores nonces n :
  0 < cores -> 0 <= nonces ->
  aligned cores nonces n <-> (cores / Z.gcd cores nonces | n).
Proof.
  intros Hc Hn. unfold aligned. rewrite Z.mod_divide by lia.
  set (g := Z.gcd cores nonces).
  assert (Hg : 0 < g).
  { pose proof (Z.gcd_nonneg cores nonces). enough (g <> 0) by (unfold g in *; lia).
    intros E%Z.gcd_eq_0. lia. }
  destruct (Z.gcd_divide_l cores nonces) as [x Hx]. destruct (Z.gcd_divide_r cores nonces) as [y Hy].
  fold g in Hx, Hy. assert (Ex : cores / g = x) by (rewrite Hx at 1; apply Z.div_mul; lia).
  assert (Ey : nonces / g = y) by (rewrite Hy at 1; apply Z.div_mul; lia).
  rewrite Ex. split.
  - intros [q Hq]. apply Z.gauss with y.
    + exists q. nia.
    + rewrite <- Ex, <- Ey. apply Z.gcd_div_gcd; [lia|done].
  - intros [q ->]. exists (q * y). rewrite Hx, Hy at 1. ring.
Qed.

Lemma sized_least cores nonces min :
  0 < cores <= u64_max -> 0 <= nonces <= u64_max -> 0 <= min ->
  let m := cores / bundle_gcd cores nonces in
  0 < m /\ least_aligned cores nonces min (div_ceil min m * m).
Proof.
  intros Hc Hn Hmin. simpl. rewrite bundle_gcd_spec by lia.
  set (m := cores / Z.gcd cores nonces).
  assert (Hm : 0 < m).
  { unfold m. destruct (Z.gcd_divide_l cores nonces) as [x Hx].
    pose proof (Z.gcd_nonneg cores nonces).
    assert (Z.gcd cores nonces <> 0) by (intros E%Z.gcd_eq_0; lia).
    rewrite Hx at 1. rewrite Z.div_mul by done. nia. }
  destruct (div_ceil_spec min m Hmin Hm) as [Hge Hleast]. split; [done|]. split_and!; [done| |].
  - apply aligned_iff; [lia..|]. by exists (div_ceil min m).
  - intros k Hk Ha. apply aligned_iff in Ha as [q ->]; [|lia..]. fold m in Hk |- *.
    apply Z.mul_le_mono_nonneg_r; [lia|]. by apply Hleast.
Qed.

(** What [size_track] records for one track. *)
Definition track_result (input : BundleSizingInput) (t : string) (tr : TrackSizing) (out : BundleSizing) : Prop :=
  exists n, bt_get t (bz_num_bundles out) = Some n /\
  match aligned_cores (bsi_offered_compute input) tr with
  | None => n = bsi_min_num_bundles input
  | Some cores => cores <> 0 /\ n <= u64_max /\
      least_aligned cores (tz_num_nonces_per_bundle tr) (bsi_min_num_bundles input) n /\
      bt_get t (bz_derivation out) =
        Some (MkDerivation (Z.gcd cores (tz_num_nonces_per_bundle tr))
                (cores / Z.gcd cores (tz_num_nonces_per_bundle tr)))
  end.

Lemma aligned_cores_range input tr cores :
  bsi_ok input -> aligned_cores (bsi_offered_compute input) tr = Some cores -> 0 <= cores <= u64_max.
Proof.
  intros (Ho & _). unfold aligned_cores, offered_cores_ok, in_unsigned in *.
  destruct (bsi_offered_compute input), (tz_selected_algorithm_best_on_track tr); try done.
  intros [= <-]. bool_prop. lia.
Qed.

Lemma size_track_Ok input acc t tr out :
  bsi_ok input -> (t, tr) ∈ bsi_tracks input -> size_track input acc (t, tr) = Ok out ->
  track_result input t tr out /\
  forall t', t' <> t ->
    bt_get t' (bz_num_bundles out) = bt_get t' (bz_num_bundles acc) /\
    bt_get t' (bz_derivation out) = bt_get t' (bz_derivation acc).
Proof.
  intros Hok Hin. unfold size_track, track_result.
  destruct (aligned_cores _ tr) as [cores|] eqn:Hcores.
  - pose proof (aligned_cores_range _ _ _ Hok Hcores) as Hr.
    destruct Hok as (_ & Hmin & Htr). rewrite Forall_forall in Htr. specialize (Htr _ Hin).
    unfold in_unsigned in *. simpl in Htr. bool_prop.
    destruct (Z.eqb_spec cores 0) as [|Hc0]; [done|].
    destruct (sized_least cores (tz_num_nonces_per_bundle tr) (bsi_min_num_bundles input))
      as [Hm Hleast]; [lia..|].
    destruct (checked_mul_u _ _ _) as [n|] eqn:Hn; simpl; [|done].
    apply checked_mul_Ok in Hn as [-> Hmax]. intros [= <-]. simpl. split.
    + eexists. rewrite bt_get_insert_eq. split; [done|]. split_and!; [done..|].
      by rewrite bt_get_insert_eq, bundle_gcd_spec by lia.
    + intros t' Hne. by rewrite !bt_get_insert_ne.
  - intros [= <-]. simpl. split.
    + eexists. by rewrite bt_get_insert_eq.
    + intros t' Hne. by rewrite !bt_get_insert_ne.
Qed.

(** ** Properties *)

(** C31. Every track gets a count.  A GPU offer, or a CPU offer whose selected
    algorithm is not best on the track, takes the minimum; otherwise the count
    is the least one at or above the minimum for which the total nonce count is
    a multiple of the cores, fits in 64 bits, and its derivation is recorded. *)
Theorem size_bundles_least_aligned input out :
  bsi_ok input -> bt_wf (bsi_tracks input) -> size_bundles input = Ok out ->
  forall t tr, bt_get t (bsi_tracks input) = Some tr -> track_result input t tr out.
Proof.
  intros Hok Hwf Hs t tr Ht. apply bt_get_elem in Ht. revert t tr Ht.
  change (forall t tr, (t, tr) ∈ bsi_tracks input -> track_result input t tr out).
  pose proof (bt_keys_NoDup _ Hwf) as Hnd. unfold size_bundles in Hs.
  eapply (foldM_split_ind (fun pre o => forall t tr, (t, tr) ∈ pre -> track_result input t tr o));
    [|intros pre [t tr] post b b' Hl Hinv Hst|exact Hs].
  - by intros t tr ?%not_elem_of_nil.
  - destruct (size_track_Ok _ _ _ _ _ Hok ltac:(rewrite Hl; apply elem_of_app; right; by left) Hst)
      as [Hnew Hother].
    intros t' tr'. rewrite elem_of_app, list_elem_of_singleton. intros [Hp|[= -> ->]]; [|done].
    assert (t' <> t) as Hne.
    { intros ->. unfold bt_keys in Hnd. rewrite Hl, fmap_app, NoDup_app in Hnd.
      destruct Hnd as (_ & Hdis & _). apply (Hdis t); [|by left].
      apply list_elem_of_fmap. by exists (t, tr'). }
    destruct (Hother t' Hne) as [E1 E2], (Hinv t' tr' Hp) as (n & Hn & Hrest).
    exists n. by rewrite E1, E2.
Qed.
Example size_bundles_least_aligned_witness :
  exists out, size_bundles (MkBsi (OfferedCpu 12) 10 [("t1", MkTrackSizing 8 true); ("t2", MkTrackSizing 8 false)])
    = Ok out /\ bt_get "t1" (bz_num_bundles out) = Some 12 /\
  track_result (MkBsi (OfferedCpu 12) 10 [("t1", MkTrackSizing 8 true); ("t2", MkTrackSizing 8 false)])
    "t1" (MkTrackSizing 8 true) out.
Proof.
  eexists. split; [vm_compute; reflexivity|]. split; [reflexivity|].
  refine (size_bundles_least_aligned _ _ _ _ _ "t1" _ _).
  - repeat constructor.
  - repeat constructor.
  - vm_compute. reflexivity.
  - vm_compute. reflexivity.
Defined.

(** The two failures mean what they say: [ZeroCores] comes only from a CPU
    offer of zero cores, and [Overflow] only when no aligned count at or above
    the minimum fits in 64 bits. *)
Theorem size_bundles_errors input e :
  bsi_ok input -> size_bundles input = Err e ->
  match e with
  | ZeroCores => bsi_offered_compute input = OfferedCpu 0
  | BundleOverflow t => exists tr cores, (t, tr) ∈ bsi_tracks input /\
      bsi_offered_compute input = OfferedCpu cores /\ cores <> 0 /\
      forall n, bsi_min_num_bundles input <= n ->
        aligned cores (tz_num_nonces_per_bundle tr) n -> u64_max < n
  end.
Proof.
  intros Hok. unfold size_bundles. generalize (MkBundleSizing bt_empty bt_empty).
  assert (Hsub : forall x, x ∈ bsi_tracks input -> x ∈ bsi_tracks input) by done. revert Hsub.
  generalize (bsi_tracks input) at 1 3. intros l. induction l as [|[t tr] l IH]; intros Hsub acc; [done|].
  cbn [foldM]. destruct (size_track input acc (t, tr)) as [acc'|e'] eqn:Hs.
  { apply IH. intros x Hx. apply Hsub. by right. }
  intros [= <-]. specialize (Hsub (t, tr) ltac:(by left)). unfold size_track in Hs.
  destruct (aligned_cores _ tr) as [cores|] eqn:Hcores; [|done].
  pose proof (aligned_cores_range _ _ _ Hok Hcores) as Hr.
  assert (Hoff : bsi_offered_compute input = OfferedCpu cores).
  { unfold aligned_cores in Hcores. destruct (bsi_offered_compute input), (tz_selected_algorithm_best_on_track tr); congruence. }
  destruct (Z.eqb_spec cores 0) as [->|Hc0]; [by injection Hs as <-|].
  destruct (checked_mul_u _ _ _) as [n|] eqn:Hn; simpl in Hs; [done|]. injection Hs as <-.
  exists tr, cores. split_and!; [done..|].
  destruct Hok as (_ & Hmin & Htr). rewrite Forall_forall in Htr. specialize (Htr _ Hsub).
  unfold in_unsigned in *. simpl in Htr. bool_prop.
  destruct (sized_least cores (tz_num_nonces_per_bundle tr) (bsi_min_num_bundles input))
    as [_ (_ & _ & Hleast)]; [lia..|].
  intros k Hk Ha. specialize (Hleast k Hk Ha). unfold checked_mul_u in Hn.
  destruct (Z.leb_spec (div_ceil (bsi_min_num_bundles input)
    (cores / bundle_gcd cores (tz_num_nonces_per_bundle tr)) *
    (cores / bundle_gcd cores (tz_num_nonces_per_bundle tr))) u64_max); [done|lia].
Qed.
Example size_bundles_errors_witness :
  size_bundles (MkBsi (OfferedCpu 0) 10 [("t1", MkTrackSizing 8 true)]) = Err ZeroCores /\
  forall n, 2 ^ 64 - 1 <= n -> aligned 2 1 n -> u64_max < n.
Proof.
  split.
  - reflexivity.
  - destruct (size_bundles_errors (MkBsi (OfferedCpu 2) (2 ^ 64 - 1) [("t1", MkTrackSizing 1 true)])
      (BundleOverflow "t1")) as (tr & cores & Hin & Hc & _ & H).
    + repeat constructor.
    + vm_compute. reflexivity.
    + apply list_elem_of_singleton in Hin. injection Hin as ->. simpl in Hc. injection Hc as <-. exact H.
Defined.
