(* ===== verification/Source.v ===== *)
(** * Settings source: [crates/pool-decision/src/source.rs]

    [select_source] picks the active benchmark whose hyperparameters and fuel
    budget a precommit copies: the filters of one benchmark, the loop over all
    of them, and the three-level preference among the survivors. *)
From S2P Require Import Prelude BTreeMap Json.
Open Scope Z_scope.

Record SourceBenchmark := MkSourceBenchmark {
  sb_benchmark_id : string;
  sb_algorithm_id : string;
  sb_track_id : string;
  sb_verified : bool;
  sb_fraudulent : bool;
  sb_block_confirmed : Z;
  sb_average_quality_by_bundle : list Z;
  sb_hyperparameters : btree Value;
  sb_fuel_budget : Z;
}.

Inductive SourceExcluded :=
| SrcNotVerified
| SrcFraudulent
| SrcDifferentAlgorithm (algorithm_id : string)
| SrcDifferentTrack (track_id : string)
| SrcNoActiveBundles.

Record SourceSelectionInput := MkSsi {
  ssi_selected_algorithm : string;
  ssi_track : string;
  ssi_active_benchmarks : list SourceBenchmark;
}.

Record SourceSelection := MkSourceSelection {
  ss_excluded : btree SourceExcluded;
  ss_highest_quality : option Z;
  ss_tie_candidates : option (list string);
  ss_source_benchmark : option string;
  ss_hyperparameters : btree Value;
  ss_fuel_budget : option Z;
}.

(** The filters of one benchmark, in the order of the loop body: the reason it
    is set aside, or its best bundle. *)
Definition filter_source (input : SourceSelectionInput) (b : SourceBenchmark) : SourceExcluded + Z :=
  if negb (String.eqb (sb_algorithm_id b) (ssi_selected_algorithm input))
  then inl (SrcDifferentAlgorithm (sb_algorithm_id b))
  else if negb (String.eqb (sb_track_id b) (ssi_track input))
  then inl (SrcDifferentTrack (sb_track_id b))
  else if sb_fraudulent b then inl SrcFraudulent
  else if negb (sb_verified b) then inl SrcNotVerified
  else match max_list (sb_average_quality_by_bundle b) with
       | None => inl SrcNoActiveBundles
       | Some best_bundle => inr best_bundle
       end.

Definition source_step (input : SourceSelectionInput)
    (acc : btree SourceExcluded * list (SourceBenchmark * Z)) (b : SourceBenchmark) :=
  let '(excluded, candidates) := acc in
  match filter_source input b with
  | inl why => (bt_insert (sb_benchmark_id b) why excluded, candidates)
  | inr best_bundle => (excluded, candidates ++ [(b, best_bundle)])
  end.

(** The comparator of [tied.sort_by]: [block_confirmed] descending, then id. *)
Definition source_le (a b : SourceBenchmark) : bool :=
  match Z.compare (sb_block_confirmed b) (sb_block_confirmed a) with
  | Lt => true
  | Gt => false
  | Eq => str_leb (sb_benchmark_id a) (sb_benchmark_id b)
  end.

Definition select_source (input : SourceSelectionInput) : SourceSelection :=
  let '(excluded, candidates) := fold_left (source_step input) (ssi_active_benchmarks input) (bt_empty, []) in
  match max_list (map snd candidates) with
  | None => MkSourceSelection excluded None None None bt_empty None
  | Some highest =>
      let tied := sort_by source_le (map fst (filter (fun c => c.2 = highest) candidates)) in
      let tie_candidates :=
        if (1 <? Z.of_nat (length tied)) then Some (sort_by str_leb (map sb_benchmark_id tied)) else None in
      let winner := head tied in
      MkSourceSelection excluded (Some highest) tie_candidates
        (sb_benchmark_id <$> winner)
        (default bt_empty (sb_hyperparameters <$> winner))
        (sb_fuel_budget <$> winner)
  end.

(** ** Specification *)

(** A candidate: the algorithm's verified, honest benchmark on the track, with
    the best of its bundles. *)
Definition source_candidate (input : SourceSelectionInput) (b : SourceBenchmark) (q : Z) : Prop :=
  b ∈ ssi_active_benchmarks input /\
  sb_algorithm_id b = ssi_selected_algorithm input /\ sb_track_id b = ssi_track input /\
  sb_fraudulent b = false /\ sb_verified b = true /\
  q ∈ sb_average_quality_by_bundle b /\ forall q', q' ∈ sb_average_quality_by_bundle b -> q' <= q.

(** Preference: the better single bundle, then the later confirmation, then
    the smaller id. *)
Definition source_preferred (b : SourceBenchmark) (q : Z) (b' : SourceBenchmark) (q' : Z) : Prop :=
  q' < q \/ q' = q /\
  (sb_block_confirmed b' < sb_block_confirmed b \/
   sb_block_confirmed b' = sb_block_confirmed b /\
   (sb_benchmark_id b = sb_benchmark_id b' \/ str_lt (sb_benchmark_id b) (sb_benchmark_id b'))).

(** ** Lemmas *)

Lemma filter_source_inr input b q :
  b ∈ ssi_active_benchmarks input -> filter_source input b = inr q <-> source_candidate input b q.
Proof.
  intros Hin. unfold filter_source, source_candidate.
  destruct (String.eqb_spec (sb_algorithm_id b) (ssi_selected_algorithm input)); simpl; [|split; [done|naive_solver]].
  destruct (String.eqb_spec (sb_track_id b) (ssi_track input)); simpl; [|split; [done|naive_solver]].
  destruct (sb_fraudulent b); [split; [done|naive_solver]|].
  destruct (sb_verified b); simpl; [|split; [done|naive_solver]].
  destruct (max_list _) as [m|] eqn:Hm.
  - split.
    + intros [= <-]. apply max_list_Some in Hm. naive_solver.
    + intros (_ & _ & _ & _ & _ & Hq). f_equal. apply max_list_Some in Hq. congruence.
  - apply max_list_None in Hm. rewrite Hm. split; [done|]. intros (_ & _ & _ & _ & _ & Hq & _).
    by apply not_elem_of_nil in Hq.
Qed.

Lemma source_loop input l acc :
  snd (fold_left (source_step input) l acc) =
    snd acc ++ omap (fun b => match filter_source input b with inr q => Some (b, q) | inl _ => None end) l.
Proof.
  revert acc. induction l as [|b l IH]; intros [ex cs]; simpl; [by rewrite app_nil_r|].
  destruct (filter_source input b) eqn:Hf; rewrite IH; simpl; [done|]. by rewrite <- app_assoc.
Qed.

Lemma source_loop_candidates input b q :
  (b, q) ∈ snd (fold_left (source_step input) (ssi_active_benchmarks input) (bt_empty, [])) <->
  source_candidate input b q.
Proof.
  rewrite source_loop. simpl. rewrite list_elem_of_omap. split.
  - intros (b' & Hb' & E). destruct (filter_source input b') eqn:Hf; [done|]. injection E as <- <-.
    by apply filter_source_inr.
  - intros Hc. exists b. assert (Hb : b ∈ ssi_active_benchmarks input) by apply Hc. split; [done|].
    apply filter_source_inr in Hc; [|done]. by rewrite Hc.
Qed.

Lemma source_loop_excluded input l acc k :
  NoDup (map sb_benchmark_id l) ->
  bt_get k (fst (fold_left (source_step input) l acc)) =
    match list_find (fun b => sb_benchmark_id b = k) l with
    | Some (_, b) => match filter_source input b with inl why => Some why | inr _ => bt_get k (fst acc) end
    | None => bt_get k (fst acc)
    end.
Proof.
  revert acc. induction l as [|b l IH]; intros [ex cs] Hnd; simpl; [done|].
  inversion Hnd as [|?? Hb Hl]; subst. rewrite IH by done. simpl. case_decide as Hk.
  - subst k. replace (list_find (fun b0 => sb_benchmark_id b0 = sb_benchmark_id b) l) with (@None (nat * SourceBenchmark)).
    + destruct (filter_source input b); simpl; [by rewrite bt_get_insert_eq|done].
    + symmetry. apply list_find_None, Forall_forall. intros x Hx E. apply Hb. rewrite <- E.
      apply list_elem_of_fmap. by exists x.
  - assert (Hsame : bt_get k (match filter_source input b with
        | inl why => (bt_insert (sb_benchmark_id b) why ex, cs) | inr q => (ex, cs ++ [(b, q)]) end).1
        = bt_get k ex).
    { destruct (filter_source input b); simpl; [|done]. by rewrite bt_get_insert_ne by congruence. }
    rewrite Hsame. destruct (list_find _ l) as [[i x]|]; simpl; done.
Qed.

Lemma source_le_total a b : source_le a b = true \/ source_le b a = true.
Proof.
  unfold source_le. rewrite (Z.compare_antisym (sb_block_confirmed b) (sb_block_confirmed a)).
  destruct (sb_block_confirmed b ?= sb_block_confirmed a); simpl; auto using str_leb_total.
Qed.
Lemma source_le_spec a b : source_le a b = true <->
  sb_block_confirmed b < sb_block_confirmed a \/
  sb_block_confirmed b = sb_block_confirmed a /\
  (sb_benchmark_id a = sb_benchmark_id b \/ str_lt (sb_benchmark_id a) (sb_benchmark_id b)).
Proof.
  unfold source_le. destruct (Z.compare_spec (sb_block_confirmed b) (sb_block_confirmed a)) as [E|L|L].
  - rewrite str_leb_spec. intuition lia.
  - intuition lia.
  - split; [done|]. intuition lia.
Qed.
Lemma source_le_trans a b c : source_le a b = true -> source_le b c = true -> source_le a c = true.
Proof.
  rewrite !source_le_spec. intros [H1|[H1 H1']] [H2|[H2 H2']]; [left; lia..|].
  right. split; [lia|]. rewrite <- str_leb_spec in *. by eapply str_leb_trans.
Qed.

(** What the selection computes, with the loop's candidates in view. *)
Lemma select_source_cases input :
  let cs := snd (fold_left (source_step input) (ssi_active_benchmarks input) (bt_empty, [])) in
  (cs = [] /\ ss_source_benchmark (select_source input) = None /\
     ss_highest_quality (select_source input) = None /\ ss_fuel_budget (select_source input) = None /\
     ss_hyperparameters (select_source input) = bt_empty) \/
  exists b q, (b, q) ∈ cs /\ (forall b' q', (b', q') ∈ cs -> source_preferred b q b' q') /\
    ss_source_benchmark (select_source input) = Some (sb_benchmark_id b) /\
    ss_highest_quality (select_source input) = Some q /\
    ss_fuel_budget (select_source input) = Some (sb_fuel_budget b) /\
    ss_hyperparameters (select_source input) = sb_hyperparameters b.
Proof.
  unfold select_source. destruct (fold_left _ _ _) as [ex cs]. simpl.
  destruct (max_list (map snd cs)) as [h|] eqn:Hmax; [right|left].
  2:{ apply max_list_None in Hmax. by destruct cs. }
  apply max_list_Some in Hmax as [Hin Hge]. rewrite list_elem_of_fmap in Hin.
  destruct Hin as ([b0 q0] & -> & Hb0). simpl in *.
  set (tied := map fst (filter (fun c => c.2 = q0) cs)).
  assert (Htied : forall b, b ∈ tied <-> (b, q0) ∈ cs).
  { intros b. unfold tied. rewrite list_elem_of_fmap. split.
    - intros ([b1 q1] & -> & [E ?]%list_elem_of_filter). simpl in E. by subst.
    - intros Hb. exists (b, q0). split; [done|]. by apply list_elem_of_filter. }
  destruct (sort_by source_le tied) as [|b l] eqn:Hs.
  { apply Htied in Hb0. apply (elem_of_sort_by source_le) in Hb0. rewrite Hs in Hb0. by apply not_elem_of_nil in Hb0. }
  destruct (sort_by_head_least source_le source_le_total source_le_trans _ _ _ Hs) as [Hb Hleast].
  exists b, q0. split_and!; try done; [by apply Htied|].
  intros b' q' Hb'. assert (q' <= q0) by (apply Hge, list_elem_of_fmap; by exists (b', q')).
  unfold source_preferred. destruct (Z.eq_dec q' q0) as [->|]; [right|left; lia]. split; [done|].
  apply source_le_spec, Hleast. by apply Htied.
Qed.

(** ** Properties *)

(** [select_source] implements its contract on every input: it names a source
    exactly when a candidate exists, the source it names is a candidate that no
    other is preferred to -- by best single bundle, then latest confirmation,
    then smallest id, never by average -- and the quality, hyperparameters and
    fuel it returns are that benchmark's own. *)
Theorem select_source_refines input :
  match ss_source_benchmark (select_source input) with
  | None => (forall b q, ~ source_candidate input b q) /\
      ss_highest_quality (select_source input) = None /\ ss_fuel_budget (select_source input) = None
  | Some id => exists b q, source_candidate input b q /\ id = sb_benchmark_id b /\
      (forall b' q', source_candidate input b' q' -> source_preferred b q b' q') /\
      ss_highest_quality (select_source input) = Some q /\
      ss_fuel_budget (select_source input) = Some (sb_fuel_budget b) /\
      ss_hyperparameters (select_source input) = sb_hyperparameters b
  end.
Proof.
  destruct (select_source_cases input) as [(Hcs & -> & -> & -> & _)|(b & q & Hb & Hbest & -> & -> & -> & ->)].
  - split; [|done]. intros b q Hc%source_loop_candidates. rewrite Hcs in Hc. by apply not_elem_of_nil in Hc.
  - exists b, q. split_and!; try done; [by apply source_loop_candidates|].
    intros b' q' Hc%source_loop_candidates. by apply Hbest.
Qed.

(** Every active benchmark is accounted for: when ids are distinct, a benchmark
    is in the exclusion record exactly when it is not a candidate, with the
    first filter it failed -- so a fraudulent benchmark is never a candidate,
    whatever its quality. *)
Theorem select_source_excluded input b :
  NoDup (map sb_benchmark_id (ssi_active_benchmarks input)) -> b ∈ ssi_active_benchmarks input ->
  bt_get (sb_benchmark_id b) (ss_excluded (select_source input)) =
    match filter_source input b with inl why => Some why | inr _ => None end /\
  (bt_get (sb_benchmark_id b) (ss_excluded (select_source input)) = None <-> exists q, source_candidate input b q).
Proof.
  intros Hnd Hb.
  assert (E : bt_get (sb_benchmark_id b) (ss_excluded (select_source input)) =
    match filter_source input b with inl why => Some why | inr _ => None end).
  { assert (Hex : ss_excluded (select_source input) =
      fst (fold_left (source_step input) (ssi_active_benchmarks input) (bt_empty, []))).
    { unfold select_source. destruct (fold_left _ _ _) as [ex cs]. simpl. by destruct (max_list _). }
    rewrite Hex, source_loop_excluded by done.
    destruct (list_find _ _) as [[i x]|] eqn:Hf.
    - apply list_find_Some in Hf as (Hx & Hid & _). apply list_elem_of_lookup_2 in Hx.
      rewrite (NoDup_map_inj sb_benchmark_id _ x b Hnd Hx Hb Hid). by destruct (filter_source input b).
    - apply list_find_None in Hf. rewrite Forall_forall in Hf. by destruct (Hf b Hb). }
  split; [done|]. rewrite E. destruct (filter_source input b) as [why|q] eqn:Hf.
  - split; [done|]. intros [q Hq%filter_source_inr]; [congruence|done].
  - split; [|done]. intros _. exists q. by apply filter_source_inr.
Qed.
Example select_source_excluded_witness :
  let b1 := MkSourceBenchmark "b1" "a1" "t1" true true 7 [90] bt_empty 5 in
  let b2 := MkSourceBenchmark "b2" "a1" "t1" true false 7 [10; 50] bt_empty 6 in
  let b3 := MkSourceBenchmark "b3" "a1" "t1" true false 7 [40; 42; 42] bt_empty 7 in
  let input := MkSsi "a1" "t1" [b1; b2; b3] in
  ss_source_benchmark (select_source input) = Some "b2" /\
  bt_get "b1" (ss_excluded (select_source input)) = Some SrcFraudulent.
Proof.
  intros b1 b2 b3 input. split; [reflexivity|].
  refine (proj1 (select_source_excluded input b1 _ _)).
  - apply (bool_decide_unpack _). vm_compute. exact I.
  - by left.
Defined.
