(* ===== verification/Deadlines.v ===== *)
(** * Deadlines: [crates/pool-workflow/src/deadlines.rs]

    The four configured guardrails, the checks a configuration must pass, and
    where a workflow stands against them at a block height. *)
From S2P Require Import Prelude.
Open Scope Z_scope.

(** [struct Guardrails]; [RawGuardrails] has the same four [u32] fields, so the
    record serves for both. *)
Record Guardrails := MkGuardrails {
  max_assignment_age_blocks : Z;
  package_due_age_blocks : Z;
  workflow_expiry_age_blocks : Z;
  proof_reserve_blocks : Z;
}.

Inductive GuardrailError :=
| Malformed (what : string)
| ReserveDoesNotAddUp (package_due reserve expiry : Z)
| AssignmentAfterPackageDue (assignment package_due : Z)
| NotPositive (field : string).

(** The loop over the four named fields. *)
Definition first_zero (g : Guardrails) : option string :=
  fmap (M := option) (fun x : nat * (string * Z) => x.2.1) (list_find (fun fv : string * Z => fv.2 = 0)
    [("max_assignment_age_blocks", max_assignment_age_blocks g);
     ("package_due_age_blocks", package_due_age_blocks g);
     ("workflow_expiry_age_blocks", workflow_expiry_age_blocks g);
     ("proof_reserve_blocks", proof_reserve_blocks g)]).

(** The checks of [Guardrails::from_config_json], after the text is read. *)
Definition validate (g : Guardrails) : result GuardrailError Guardrails :=
  match first_zero g with
  | Some field => Err (NotPositive field)
  | None =>
      let disagree := ReserveDoesNotAddUp (package_due_age_blocks g) (proof_reserve_blocks g)
                        (workflow_expiry_age_blocks g) in
      let? reserved := ok_or (checked_add_u u32_max (package_due_age_blocks g) (proof_reserve_blocks g)) disagree in
      if negb (reserved =? workflow_expiry_age_blocks g) then Err disagree
      else if (package_due_age_blocks g <=? max_assignment_age_blocks g)
      then Err (AssignmentAfterPackageDue (max_assignment_age_blocks g) (package_due_age_blocks g))
      else Ok g
  end.

(** [Guardrails::from_config_json]; [from_str] is serde's reader of the
    [spike.workflow_guardrails] object at [u32] fields. *)
Definition from_config_json (from_str : string -> result string Guardrails) (text : string)
  : result GuardrailError Guardrails :=
  let? raw := map_err Malformed (from_str text) in
  validate raw.

Inductive Standing := Assignable | RunningOut | InProofReserve | Expired_.

#[export] Instance standing_eq_dec : EqDecision Standing.
Proof. solve_decision. Defined.

Record Remaining := MkRemaining {
  age_blocks : Z;
  rem_standing : Standing;
  until_package_due : Z;
  until_expiry : Z;
}.

(** The age in blocks: saturating, never negative, clamped to [u32]. *)
Definition age_of (block_started current_block : Z) : Z :=
  let age := Z.max (saturating_sub_i64 current_block block_started) 0 in
  if is_u32 age then age else u32_max.

Definition standing (g : Guardrails) (block_started current_block : Z) : Remaining :=
  let age := age_of block_started current_block in
  {| age_blocks := age;
     rem_standing :=
       if workflow_expiry_age_blocks g <=? age then Expired_
       else if package_due_age_blocks g <=? age then InProofReserve
       else if max_assignment_age_blocks g <=? age then RunningOut
       else Assignable;
     until_package_due := saturating_sub_u (package_due_age_blocks g) age;
     until_expiry := saturating_sub_u (workflow_expiry_age_blocks g) age |}.

Definition may_assign (g : Guardrails) (block_started current_block : Z) : bool :=
  bool_decide (rem_standing (standing g block_started current_block) = Assignable).

(** ** Specification *)

(** The four fields as [u32] values. *)
Definition guardrails_u32 (g : Guardrails) : Prop :=
  is_u32 (max_assignment_age_blocks g) = true /\ is_u32 (package_due_age_blocks g) = true /\
  is_u32 (workflow_expiry_age_blocks g) = true /\ is_u32 (proof_reserve_blocks g) = true.

(** What a usable configuration satisfies, over the integers. *)
Definition guardrails_ok (g : Guardrails) : Prop :=
  0 < max_assignment_age_blocks g < package_due_age_blocks g /\ 0 < proof_reserve_blocks g /\
  workflow_expiry_age_blocks g = package_due_age_blocks g + proof_reserve_blocks g.

(** The bands in the order a workflow passes through them. *)
Definition standing_rank (s : Standing) : Z :=
  match s with Assignable => 0 | RunningOut => 1 | InProofReserve => 2 | Expired_ => 3 end.

(** ** Lemmas *)

Lemma first_zero_None g : first_zero g = None <->
  max_assignment_age_blocks g <> 0 /\ package_due_age_blocks g <> 0 /\
  workflow_expiry_age_blocks g <> 0 /\ proof_reserve_blocks g <> 0.
Proof.
  unfold first_zero. simpl. repeat (case_decide; simpl in *; [split; [done|]; tauto|]). tauto.
Qed.

Lemma age_of_spec b c :
  is_i64 b = true -> is_i64 c = true -> age_of b c = Z.min u32_max (Z.max 0 (c - b)).
Proof.
  intros Hb Hc. unfold age_of, saturating_sub_i64, in_unsigned. unfold_ints. bool_prop.
  destruct (_ && _) eqn:E; bool_prop; [lia|].
  apply andb_false_iff in E. rewrite !Z.leb_gt in E. lia.
Qed.
Lemma age_of_mono b c c' : c <= c' -> age_of b c <= age_of b c'.
Proof.
  intros Hc. unfold age_of, saturating_sub_i64, in_unsigned. unfold_ints.
  repeat case_match; bool_prop; rewrite ?andb_false_iff, ?Z.leb_gt in *; lia.
Qed.

(** ** Properties *)

(** A configuration loads exactly when every guardrail is positive, assignment
    ends before the package is due, and package deadline plus reserve is the
    expiry age as integers: a sum that only agrees by wrapping is refused. *)
Theorem validate_iff (g : Guardrails) :
  guardrails_u32 g -> (validate g = Ok g <-> guardrails_ok g) /\ (forall g', validate g = Ok g' -> g' = g).
Proof.
  intros (H1 & H2 & H3 & H4). unfold validate, guardrails_ok.
  destruct (first_zero g) eqn:Hz.
  - split; [|done]. split; [done|]. intros Hok. enough (first_zero g = None) by congruence.
    apply first_zero_None. lia.
  - apply first_zero_None in Hz. unfold checked_add_u. unfold_ints. bool_prop.
    destruct (Z.leb_spec (package_due_age_blocks g + proof_reserve_blocks g) (2 ^ 32 - 1)); simpl.
    + destruct (Z.eqb_spec (package_due_age_blocks g + proof_reserve_blocks g) (workflow_expiry_age_blocks g));
        simpl; [|split; [split; [done|lia]|done]].
      destruct (Z.leb_spec (package_due_age_blocks g) (max_assignment_age_blocks g));
        [split; [split; [done|lia]|done]|]. split; [split; [lia|done]|congruence].
    + split; [split; [done|lia]|done].
Qed.
Example validate_iff_witness :
  guardrails_ok (MkGuardrails 60 110 120 10) /\ ~ guardrails_ok (MkGuardrails 60 4294967295 120 121).
Proof.
  split.
  - apply (validate_iff (MkGuardrails 60 110 120 10)); [repeat split|]. reflexivity.
  - intros H. apply (validate_iff (MkGuardrails 60 4294967295 120 121)) in H; [|repeat split]. discriminate H.
Defined.

(** At any two heights, the standing is read off the true age: a height behind
    the start is age zero, the four bands partition the ages at the configured
    thresholds, the blocks left reach zero exactly at the deadlines, and the
    band never moves back as the height advances. *)
Theorem standing_bands g b c :
  guardrails_u32 g -> guardrails_ok g -> is_i64 b = true -> is_i64 c = true ->
  let age := Z.max 0 (c - b) in
  let r := standing g b c in
  (rem_standing r = Assignable <-> age < max_assignment_age_blocks g) /\
  (rem_standing r = RunningOut <-> max_assignment_age_blocks g <= age < package_due_age_blocks g) /\
  (rem_standing r = InProofReserve <-> package_due_age_blocks g <= age < workflow_expiry_age_blocks g) /\
  (rem_standing r = Expired_ <-> workflow_expiry_age_blocks g <= age) /\
  until_package_due r = Z.max 0 (package_due_age_blocks g - age) /\
  until_expiry r = Z.max 0 (workflow_expiry_age_blocks g - age) /\
  may_assign g b c = (age <? max_assignment_age_blocks g) /\
  (forall c', c <= c' -> standing_rank (rem_standing r) <= standing_rank (rem_standing (standing g b c'))).
Proof.
  intros (H1 & H2 & H3 & H4) Hok Hb Hc age r. unfold may_assign. fold r.
  assert (Hage : age_of b c = Z.min u32_max age) by by apply age_of_spec.
  assert (Hm := fun c' => age_of_mono b c c').
  unfold r, standing, saturating_sub_u, guardrails_ok in *. simpl. rewrite Hage in *. unfold_ints. bool_prop.
  split_and!.
  1-4: case_cmp; split; intros; try done; lia.
  1-2: lia.
  - case_cmp; try lia; done.
  - intros c' Hc'. specialize (Hm c' Hc').
    case_cmp; simpl; lia.
Qed.
Example standing_bands_witness :
  let g := MkGuardrails 60 110 120 10 in
  rem_standing (standing g 1000 1115) = InProofReserve /\ rem_standing (standing g 1000 990) = Assignable.
Proof.
  intros g. split.
  - refine (proj2 (proj1 (proj2 (proj2 (standing_bands g 1000 1115 _ _ _ _)))) _); repeat split; simpl; lia.
  - refine (proj2 (proj1 (standing_bands g 1000 990 _ _ _ _)) _); repeat split; simpl; lia.
Defined.
