(* ===== verification/Store.v ===== *)
(** * The workflow database: the tables the sources read and write

    The types of [crates/pool-workflow/src] that are stored, their text codecs,
    and the tables with the constraints [migrations/0002]-[0017] put on them.
    A statement that violates a constraint raises and its transaction leaves
    the database as it was, so every operation is a function from a database
    to a result holding the new one.

    Text columns with a closed set of values are kept at their enumeration; the
    codec lemmas show that reading back what was written is the identity.
    Generated uuids and [now()] are arguments of the statements that use them. *)
From S2P Require Import Prelude BTreeMap Json Domain.
Open Scope Z_scope.

(** ** Enumerations and their text form *)

Inductive Owner := PoolBootstrap | Member.
Inductive WorkflowState :=
| Decided | PrecommitSubmitted | PrecommitConfirmed | BenchmarkSubmitted | BenchmarkConfirmed
| ProofSubmitted | ProofConfirmed | Verified | Stopped | Fraudulent | Failed | Expired.
Inductive WriteKind := Precommit | Benchmark | Proof_.
Inductive IntentState := Prepared | OutcomeUnknown | Confirmed | Rejected.
Inductive AttemptOutcome := Accepted | AttemptRejected | Ambiguous.
Inductive LeaseKind := PrecommitTransmit | ProofBuild | PackageIngest.

#[export] Instance Owner_eq_dec : EqDecision Owner.
Proof. solve_decision. Defined.
#[export] Instance WorkflowState_eq_dec : EqDecision WorkflowState.
Proof. solve_decision. Defined.
#[export] Instance WriteKind_eq_dec : EqDecision WriteKind.
Proof. solve_decision. Defined.
#[export] Instance IntentState_eq_dec : EqDecision IntentState.
Proof. solve_decision. Defined.
#[export] Instance AttemptOutcome_eq_dec : EqDecision AttemptOutcome.
Proof. solve_decision. Defined.
#[export] Instance LeaseKind_eq_dec : EqDecision LeaseKind.
Proof. solve_decision. Defined.

Definition Owner_as_str (o : Owner) : string :=
  match o with PoolBootstrap => "POOL_BOOTSTRAP" | Member => "MEMBER" end.
Definition WorkflowState_as_str (s : WorkflowState) : string :=
  match s with
  | Decided => "DECIDED"
  | PrecommitSubmitted => "PRECOMMIT_SUBMITTED"
  | PrecommitConfirmed => "PRECOMMIT_CONFIRMED"
  | BenchmarkSubmitted => "BENCHMARK_SUBMITTED"
  | BenchmarkConfirmed => "BENCHMARK_CONFIRMED"
  | ProofSubmitted => "PROOF_SUBMITTED"
  | ProofConfirmed => "PROOF_CONFIRMED"
  | Verified => "VERIFIED"
  | Stopped => "STOPPED"
  | Fraudulent => "FRAUDULENT"
  | Expired => "EXPIRED"
  | Failed => "FAILED"
  end.
Definition WriteKind_as_str (k : WriteKind) : string :=
  match k with Precommit => "precommit" | Benchmark => "benchmark" | Proof_ => "proof" end.
Definition IntentState_as_str (s : IntentState) : string :=
  match s with
  | Prepared => "PREPARED" | OutcomeUnknown => "OUTCOME_UNKNOWN"
  | Confirmed => "CONFIRMED" | Rejected => "REJECTED"
  end.
Definition AttemptOutcome_as_str (o : AttemptOutcome) : string :=
  match o with Accepted => "ACCEPTED" | AttemptRejected => "REJECTED" | Ambiguous => "AMBIGUOUS" end.
Definition LeaseKind_as_str (k : LeaseKind) : string :=
  match k with
  | PrecommitTransmit => "PRECOMMIT_TRANSMIT" | ProofBuild => "PROOF_BUILD" | PackageIngest => "PACKAGE_INGEST"
  end.

(** A [match text { lit => Some(variant), .. _ => None }]. *)
Definition parse_arms {A} (arms : list (string * A)) (text : string) : option A :=
  match list_find (fun arm => arm.1 = text) arms with Some (_, arm) => Some arm.2 | None => None end.

Definition Owner_parse : string -> option Owner :=
  parse_arms [("POOL_BOOTSTRAP", PoolBootstrap); ("MEMBER", Member)].
Definition parse_state : string -> option WorkflowState :=
  parse_arms [("DECIDED", Decided);
              ("PRECOMMIT_SUBMITTED", PrecommitSubmitted);
              ("PRECOMMIT_CONFIRMED", PrecommitConfirmed);
              ("BENCHMARK_SUBMITTED", BenchmarkSubmitted);
              ("BENCHMARK_CONFIRMED", BenchmarkConfirmed);
              ("PROOF_SUBMITTED", ProofSubmitted);
              ("PROOF_CONFIRMED", ProofConfirmed);
              ("VERIFIED", Verified);
              ("STOPPED", Stopped);
              ("FRAUDULENT", Fraudulent);
              ("EXPIRED", Expired);
              ("FAILED", Failed)].
Definition WriteKind_parse : string -> option WriteKind :=
  parse_arms [("precommit", Precommit); ("benchmark", Benchmark); ("proof", Proof_)].
Definition IntentState_parse : string -> option IntentState :=
  parse_arms [("PREPARED", Prepared); ("OUTCOME_UNKNOWN", OutcomeUnknown);
              ("CONFIRMED", Confirmed); ("REJECTED", Rejected)].
Definition AttemptOutcome_parse : string -> option AttemptOutcome :=
  parse_arms [("ACCEPTED", Accepted); ("REJECTED", AttemptRejected); ("AMBIGUOUS", Ambiguous)].

(** [WorkflowState::ALL]. *)
Definition all_states : list WorkflowState :=
  [Decided; PrecommitSubmitted; PrecommitConfirmed; BenchmarkSubmitted; BenchmarkConfirmed;
   ProofSubmitted; ProofConfirmed; Verified; Stopped; Fraudulent; Expired; Failed].
Definition is_terminal (s : WorkflowState) : bool :=
  match s with Stopped | Fraudulent | Expired | Failed => true | _ => false end.
Definition is_unfinished_local_work (s : WorkflowState) : bool :=
  negb (is_terminal s) && negb (match s with ProofConfirmed | Verified => true | _ => false end).

Definition POOL_BOOTSTRAP_OWNER : string := "pool-bootstrap".

(** The enumerations as keys of finite maps. *)
Definition lease_tag (k : LeaseKind) : nat :=
  match k with PrecommitTransmit => 0 | ProofBuild => 1 | PackageIngest => 2 end.
Definition lease_untag (n : nat) : LeaseKind :=
  match n with O => PrecommitTransmit | 1%nat => ProofBuild | _ => PackageIngest end.
#[export] Instance LeaseKind_countable : Countable LeaseKind.
Proof. refine (inj_countable' lease_tag lease_untag _). by intros []. Defined.

(** ** Rows *)

Abbreviation Uuid := N.
Abbreviation Bytes := (list Z).

(** [struct Workflow]: one row of [pool.workflow]. *)
Record Workflow := MkWorkflow {
  wf_workflow_id : string;
  wf_network : Network;
  wf_state : WorkflowState;
  wf_revision : Z;
  wf_owner : Owner;
  wf_owner_id : string;
  wf_benchmark_id : option string;
  wf_unverified_from_block : Z;
  wf_unverified_to_block : option Z;
  wf_confirmed_track_id : option string;
  wf_confirmed_settings : option Value;
  wf_precommit_confirmed_block : option Z;
  wf_block_started : option Z;
  wf_confirmed_num_nonces : option Z;
  wf_terminal_reason : option string;
}.

(** [struct WriteIntent] with the [created_at] column it is ordered by. *)
Record WriteIntent := MkIntent {
  in_intent_id : Uuid;
  in_network : Network;
  in_workflow_id : string;
  in_write_kind : WriteKind;
  in_generation : Z;
  in_benchmark_id : option string;
  in_payload_digest : Bytes;
  in_payload_artifact_id : option string;
  in_trace_id : option TraceId;
  in_state : IntentState;
  in_created_at : Z;
}.

(** One row of [pool.tig_write_attempt]. *)
Record AttemptRow := MkAttempt {
  at_attempt_id : Uuid;
  at_intent_id : Uuid;
  at_attempt_no : Z;
  at_network : Network;
  at_write_kind : WriteKind;
  at_benchmark_id : option string;
  at_started_at : Z;
  at_outcome : option AttemptOutcome;
  at_http_status : option Z;
  at_detail : option string;
  at_resolved_at : option Z;
  at_reconciled_at : option Z;
}.

Record RecordedTie := MkTie { rt_candidates : list string; rt_winner : string }.

(** One row of [pool.precommit_decision]. *)
Record DecisionRow := MkDecisionRow {
  dr_decision_id : Uuid;
  dr_network : Network;
  dr_workflow_id : string;
  dr_generation : Z;
  dr_anchor_block_id : string;
  dr_anchor_digest : Bytes;
  dr_anchor_height : Z;
  dr_tie_domain : string;
  dr_tie_draw_ranks : btree Value;
  dr_tie : option RecordedTie;
  dr_selected_challenge : string;
  dr_selected_algorithm : string;
  dr_compute_type : option string;
  dr_track_settings : Value;
  dr_pool_unverified : Z;
  dr_unverified_limit : Z;
  dr_reserve_inputs : Value;
  dr_precommit_reserve : Z;
  dr_config_digest : Bytes;
}.

(** One row of [pool.work_lease], under its key (network, workflow, kind). *)
Record LeaseRow := MkLeaseRow { lr_fence_token : Z; lr_lease_owner : string; lr_lease_until : Z }.
(** One row of [pool.block_snapshot], under its key (network, block, digest). *)
Record SnapshotRow := MkSnapshotRow {
  sr_height : Z; sr_reads_complete : bool; sr_active_cache_ready : bool }.
(** Rows of the three precondition tables, under their primary keys. *)
Record AcceptanceRow := MkAcceptanceRow { ar_package_sha256 : Bytes; ar_stub_origin : bool }.
Record CanonicalRow := MkCanonicalRow {
  cr_workflow_id : string; cr_benchmark_id : string;
  cr_sample_digest : Bytes; cr_payload_digest : Bytes; cr_stub_origin : bool }.
Record CommitmentRow := MkCommitmentRow {
  mr_workflow_id : string; mr_benchmark_id : string; mr_payload_digest : Bytes; mr_stub_origin : bool }.
(** One row of [pool.block_data_gap]; the resolution is recorded whole. *)
Record GapRow := MkGapRow { gr_after_height : Z; gr_observed_height : Z; gr_resolved_at : option Z }.

Record Db := MkDb {
  db_workflow : gmap (Network * string) Workflow;
  db_intent : gmap Uuid WriteIntent;
  db_attempt : gmap Uuid AttemptRow;
  db_decision : gmap Uuid DecisionRow;
  db_lease : gmap (Network * string * LeaseKind) LeaseRow;
  db_snapshot : gmap (Network * string * Bytes) SnapshotRow;
  db_acceptance : gmap (Network * string * string) AcceptanceRow;
  db_canonical : gmap (Network * string) CanonicalRow;
  db_commitment : gmap (Network * string) CommitmentRow;
  db_gap : gmap (Network * Z) GapRow;
}.
Definition empty_db : Db := MkDb ∅ ∅ ∅ ∅ ∅ ∅ ∅ ∅ ∅ ∅.

Definition with_workflow (t : gmap (Network * string) Workflow) (db : Db) : Db :=
  MkDb t (db_intent db) (db_attempt db) (db_decision db) (db_lease db) (db_snapshot db)
       (db_acceptance db) (db_canonical db) (db_commitment db) (db_gap db).
Definition with_intent (t : gmap Uuid WriteIntent) (db : Db) : Db :=
  MkDb (db_workflow db) t (db_attempt db) (db_decision db) (db_lease db) (db_snapshot db)
       (db_acceptance db) (db_canonical db) (db_commitment db) (db_gap db).
Definition with_attempt (t : gmap Uuid AttemptRow) (db : Db) : Db :=
  MkDb (db_workflow db) (db_intent db) t (db_decision db) (db_lease db) (db_snapshot db)
       (db_acceptance db) (db_canonical db) (db_commitment db) (db_gap db).
Definition with_decision (t : gmap Uuid DecisionRow) (db : Db) : Db :=
  MkDb (db_workflow db) (db_intent db) (db_attempt db) t (db_lease db) (db_snapshot db)
       (db_acceptance db) (db_canonical db) (db_commitment db) (db_gap db).
Definition with_lease (t : gmap (Network * string * LeaseKind) LeaseRow) (db : Db) : Db :=
  MkDb (db_workflow db) (db_intent db) (db_attempt db) (db_decision db) t (db_snapshot db)
       (db_acceptance db) (db_canonical db) (db_commitment db) (db_gap db).
Definition with_snapshot (t : gmap (Network * string * Bytes) SnapshotRow) (db : Db) : Db :=
  MkDb (db_workflow db) (db_intent db) (db_attempt db) (db_decision db) (db_lease db) t
       (db_acceptance db) (db_canonical db) (db_commitment db) (db_gap db).
Definition with_acceptance (t : gmap (Network * string * string) AcceptanceRow) (db : Db) : Db :=
  MkDb (db_workflow db) (db_intent db) (db_attempt db) (db_decision db) (db_lease db) (db_snapshot db)
       t (db_canonical db) (db_commitment db) (db_gap db).
Definition with_canonical (t : gmap (Network * string) CanonicalRow) (db : Db) : Db :=
  MkDb (db_workflow db) (db_intent db) (db_attempt db) (db_decision db) (db_lease db) (db_snapshot db)
       (db_acceptance db) t (db_commitment db) (db_gap db).
Definition with_commitment (t : gmap (Network * string) CommitmentRow) (db : Db) : Db :=
  MkDb (db_workflow db) (db_intent db) (db_attempt db) (db_decision db) (db_lease db) (db_snapshot db)
       (db_acceptance db) (db_canonical db) t (db_gap db).
Definition with_gap (t : gmap (Network * Z) GapRow) (db : Db) : Db :=
  MkDb (db_workflow db) (db_intent db) (db_attempt db) (db_decision db) (db_lease db) (db_snapshot db)
       (db_acceptance db) (db_canonical db) (db_commitment db) t.

(** ** Statement errors

    [sqlx::Error::Database]: the constraint it names, when it names one, or a
    raised exception. *)
Inductive DbError :=
| CheckViolation (constraint : string)
| UniqueViolation (constraint : string)
| ForeignKeyViolation (constraint : string)
| RaiseException (what : string)
| OutOfRange (what : string)
| RowNotFound.
#[export] Instance DbError_eq_dec : EqDecision DbError.
Proof. solve_decision. Defined.

(** [db.constraint()]. *)
Definition db_constraint (e : DbError) : option string :=
  match e with
  | CheckViolation c | UniqueViolation c | ForeignKeyViolation c => Some c
  | _ => None
  end.

(** The first named condition that does not hold. *)
Definition first_violation (checks : list (string * bool)) : option string :=
  match list_find (fun c => c.2 = false) checks with Some (_, c) => Some c.1 | None => None end.

(** ** Queries *)

(** [SELECT ... FROM t]: the rows of a table, in no particular order. *)
Definition rows {K A} `{Countable K} (t : gmap K A) : list A := (map_to_list t).*2.
(** [EXISTS (SELECT 1 FROM t WHERE p)]. *)
Definition exists_row {K A} `{Countable K} (p : A -> bool) (t : gmap K A) : bool := existsb p (rows t).

(** ** [pool.workflow] *)

Definition is_none {A} (o : option A) : bool := match o with None => true | Some _ => false end.
Definition opt_all {A} (p : A -> bool) (o : option A) : bool := match o with None => true | Some a => p a end.

Definition wkey (w : Workflow) : Network * string := (wf_network w, wf_workflow_id w).

(** The [CHECK]s of migrations 0006, 0007 and 0016. *)
Definition workflow_checks (w : Workflow) : list (string * bool) :=
  [("workflow_benchmark_id_follows_confirmation",
      match wf_state w with
      | Decided | PrecommitSubmitted => true
      | Expired | Failed => true
      | _ => negb (is_none (wf_benchmark_id w))
      end);
   ("workflow_block_started_non_negative", opt_all (Z.leb 0) (wf_block_started w));
   ("workflow_bootstrap_is_testnet_only",
      bool_decide (wf_owner w <> PoolBootstrap \/ wf_network w = Testnet));
   ("workflow_confirmed_num_nonces_positive", opt_all (Z.ltb 0) (wf_confirmed_num_nonces w));
   ("workflow_confirmed_settings_arrive_together",
      Bool.eqb (is_none (wf_confirmed_track_id w)) (is_none (wf_confirmed_settings w)) &&
      Bool.eqb (is_none (wf_confirmed_track_id w)) (is_none (wf_precommit_confirmed_block w)));
   ("workflow_member_owner_is_not_the_sentinel",
      bool_decide (wf_owner w <> Member \/ wf_owner_id w <> POOL_BOOTSTRAP_OWNER));
   ("workflow_pool_owner_is_the_sentinel",
      bool_decide (wf_owner w <> PoolBootstrap \/ wf_owner_id w = POOL_BOOTSTRAP_OWNER));
   ("workflow_revision_positive", 1 <=? wf_revision w);
   ("workflow_terminal_reason_only_when_terminal",
      is_none (wf_terminal_reason w) || is_terminal (wf_state w));
   ("workflow_unverified_from_non_negative", 0 <=? wf_unverified_from_block w);
   ("workflow_unverified_interval_ordered",
      opt_all (fun to => wf_unverified_from_block w <=? to) (wf_unverified_to_block w))].

(** [workflow_one_per_benchmark]: another row of the network holds the
    benchmark this one names. *)
Definition benchmark_taken (w : Workflow) (db : Db) : bool :=
  match wf_benchmark_id w with
  | None => false
  | Some b => exists_row (fun r => negb (bool_decide (wkey r = wkey w)) &&
                bool_decide (wf_network r = wf_network w) && bool_decide (wf_benchmark_id r = Some b))
                (db_workflow db)
  end.

(** Constraint checks and the unique index, then the row is stored. *)
Definition put_workflow (w : Workflow) (db : Db) : result DbError Db :=
  match first_violation (workflow_checks w) with
  | Some c => Err (CheckViolation c)
  | None =>
      if benchmark_taken w db then Err (UniqueViolation "workflow_one_per_benchmark")
      else Ok (with_workflow (<[wkey w := w]> (db_workflow db)) db)
  end.

(** [INSERT INTO pool.workflow], with the trigger of migration 0007. *)
Definition insert_workflow (w : Workflow) (db : Db) : result DbError Db :=
  if negb (is_none (wf_confirmed_track_id w)) && is_none (wf_block_started w)
  then Err (RaiseException "a confirmed precommit must carry block_started")
  else match db_workflow db !! wkey w with
       | Some _ =>
           match first_violation (workflow_checks w) with
           | Some c => Err (CheckViolation c)
           | None => Err (UniqueViolation "workflow_pkey")
           end
       | None => put_workflow w db
       end.

(** The update trigger, as migration 0016 leaves it. *)
Definition changed {A} `{EqDecision A} (old new : option A) : bool :=
  negb (is_none old) && negb (bool_decide (new = old)).
Definition workflow_trigger (old new : Workflow) : option string :=
  first_violation
    [("owner is immutable",
        bool_decide (wf_owner new = wf_owner old /\ wf_owner_id new = wf_owner_id old));
     ("benchmark_id is immutable", negb (changed (wf_benchmark_id old) (wf_benchmark_id new)));
     ("a confirmed precommit must carry block_started",
        negb (is_none (wf_confirmed_track_id old) && negb (is_none (wf_confirmed_track_id new)) &&
              is_none (wf_block_started new)));
     ("block_started is immutable", negb (changed (wf_block_started old) (wf_block_started new)));
     ("confirmed_num_nonces is immutable",
        negb (changed (wf_confirmed_num_nonces old) (wf_confirmed_num_nonces new)));
     ("revision must advance", wf_revision old <? wf_revision new)].

(** [UPDATE pool.workflow] of one row. *)
Definition update_workflow (old new : Workflow) (db : Db) : result DbError Db :=
  match workflow_trigger old new with
  | Some what => Err (RaiseException what)
  | None => put_workflow new db
  end.

(** ** Reading a workflow row back

    The columns as text, and [row_to_workflow]. *)
Record WorkflowColumns := MkWorkflowColumns {
  wc_network : string; wc_state : string; wc_owner_kind : string; wc_rest : Workflow }.
Definition workflow_columns (w : Workflow) : WorkflowColumns :=
  MkWorkflowColumns (Network_as_str (wf_network w)) (WorkflowState_as_str (wf_state w))
    (Owner_as_str (wf_owner w)) w.

(** ** Lemmas *)

Lemma Owner_roundtrip o : Owner_parse (Owner_as_str o) = Some o.
Proof. by destruct o. Qed.
Lemma WorkflowState_roundtrip s : parse_state (WorkflowState_as_str s) = Some s.
Proof. by destruct s. Qed.
Lemma WriteKind_roundtrip k : WriteKind_parse (WriteKind_as_str k) = Some k.
Proof. by destruct k. Qed.
Lemma IntentState_roundtrip s : IntentState_parse (IntentState_as_str s) = Some s.
Proof. by destruct s. Qed.
Lemma AttemptOutcome_roundtrip o : AttemptOutcome_parse (AttemptOutcome_as_str o) = Some o.
Proof. by destruct o. Qed.
#[export] Hint Rewrite Owner_roundtrip WorkflowState_roundtrip WriteKind_roundtrip IntentState_roundtrip
  AttemptOutcome_roundtrip Network_roundtrip : codec.

Lemma all_states_complete s : s ∈ all_states.
Proof. destruct s; unfold all_states; set_solver. Qed.

Lemma first_violation_None checks :
  first_violation checks = None <-> Forall (fun c => c.2 = true) checks.
Proof.
  unfold first_violation. destruct (list_find _ _) as [[i c]|] eqn:Hf.
  - apply list_find_Some in Hf as (Hi & Hc & _). split; [done|]. intros Hall.
    rewrite Forall_lookup in Hall. specialize (Hall _ _ Hi). simpl in Hall. congruence.
  - apply list_find_None in Hf. split; [|done]. intros _. eapply Forall_impl; [exact Hf|].
    intros [n []]; simpl; congruence.
Qed.

Section queries.
Context {K A : Type} `{Countable K}.

Lemma elem_of_rows (t : gmap K A) x : x ∈ rows t <-> exists k, t !! k = Some x.
Proof.
  unfold rows. rewrite list_elem_of_fmap. split.
  - intros ([k y] & -> & Hk). apply elem_of_map_to_list in Hk. by exists k.
  - intros [k Hk]. exists (k, x). split; [done|]. by apply elem_of_map_to_list.
Qed.

(** Rows that determine their key are distinct. *)
Lemma NoDup_rows (key : A -> K) (t : gmap K A) :
  (forall k x, t !! k = Some x -> key x = k) -> NoDup (rows t).
Proof.
  intros Hkey. apply (NoDup_fmap_1 key). unfold rows.
  replace (key <$> (map_to_list t).*2) with ((map_to_list t).*1); [apply NoDup_fst_map_to_list|].
  rewrite <- list_fmap_compose. apply list_fmap_ext. intros i [k x] Hi. simpl. symmetry.
  apply Hkey, elem_of_map_to_list. by eapply list_elem_of_lookup_2.
Qed.

Lemma exists_row_true (p : A -> bool) (t : gmap K A) :
  exists_row p t = true <-> exists k x, t !! k = Some x /\ p x = true.
Proof.
  unfold exists_row. rewrite existsb_exists. split.
  - intros (x & [k Hk]%list_elem_of_In%elem_of_rows & Hp). eauto.
  - intros (k & x & Hk & Hp). exists x. split; [|done]. apply list_elem_of_In, elem_of_rows. eauto.
Qed.

Lemma exists_row_false (p : A -> bool) (t : gmap K A) :
  exists_row p t = false <-> forall k x, t !! k = Some x -> p x = false.
Proof.
  rewrite <- not_true_iff_false, exists_row_true. split.
  - intros Hn k x Hk. apply not_true_iff_false. intros Hp. apply Hn. eauto.
  - intros Hf (k & x & Hk & Hp). by rewrite (Hf _ _ Hk) in Hp.
Qed.
End queries.

Lemma put_workflow_Ok w db db' :
  put_workflow w db = Ok db' <->
  Forall (fun c => c.2 = true) (workflow_checks w) /\ benchmark_taken w db = false /\
  db' = with_workflow (<[wkey w := w]> (db_workflow db)) db.
Proof.
  unfold put_workflow. rewrite <- first_violation_None.
  destruct (first_violation _); [naive_solver|]. destruct (benchmark_taken w db); naive_solver.
Qed.

Lemma benchmark_taken_false w db b :
  benchmark_taken w db = false -> wf_benchmark_id w = Some b ->
  forall k r, db_workflow db !! k = Some r -> wf_network r = wf_network w ->
    wf_benchmark_id r = Some b -> wkey r = wkey w.
Proof.
  unfold benchmark_taken. intros Ht Hb. rewrite Hb in Ht. rewrite exists_row_false in Ht.
  intros k r Hk Hn Hrb. specialize (Ht k r Hk). rewrite (bool_decide_eq_true_2 (wf_network r = _)) in Ht by done.
  rewrite (bool_decide_eq_true_2 (wf_benchmark_id r = _)) in Ht by done. rewrite !andb_true_r in Ht.
  apply negb_false_iff, bool_decide_eq_true in Ht. done.
Qed.

(** ** [pool.tig_write_attempt] predicates shared by several statements *)

(** An attempt that still occupies its lane: no outcome, or an ambiguous one. *)
Definition outcome_unresolved (o : option AttemptOutcome) : bool :=
  match o with None | Some Ambiguous => true | _ => false end.

(** [unsettled_write_exists!]: a write of the workflow whose fate is unknown. *)
Definition unsettled_write_exists (n : Network) (workflow_id : string) (db : Db) : bool :=
  exists_row (fun a => outcome_unresolved (at_outcome a) &&
      match db_intent db !! at_intent_id a with
      | Some i => bool_decide (in_network i = n) && bool_decide (in_workflow_id i = workflow_id)
      | None => false
      end) (db_attempt db).

(** [intent_has_transmitted_attempt!]: unresolved, ambiguous or accepted. *)
Definition intent_has_transmitted_attempt (intent_id : Uuid) (db : Db) : bool :=
  exists_row (fun a => bool_decide (at_intent_id a = intent_id) &&
      match at_outcome a with None | Some Ambiguous | Some Accepted => true | _ => false end)
    (db_attempt db).

(** [transmitted_precommit_exists!]. *)
Definition transmitted_precommit_exists (n : Network) (workflow_id : string) (db : Db) : bool :=
  exists_row (fun i => bool_decide (in_network i = n) && bool_decide (in_workflow_id i = workflow_id) &&
      bool_decide (in_write_kind i = Precommit) && intent_has_transmitted_attempt (in_intent_id i) db)
    (db_intent db).
