(* ===== verification/Workflow.v ===== *)
(** * The workflow state machine: [crates/pool-workflow/src/workflow.rs]

    Every operation of the module is one transaction over [pool.workflow]:
    read the row under its lock, compare the revision, decide from the row,
    update.  The operations take a database and return the new one, or an
    error and no database (the transaction rolled back). *)
From S2P Require Import Prelude Text BTreeMap Json Domain Deadlines Store.
Open Scope Z_scope.

Record ConfirmedPrecommit := MkConfirmedPrecommit {
  cp_benchmark_id : string;
  cp_num_nonces : option Z;
  cp_num_bundles : option Z;
  cp_block_confirmed : Z;
  cp_block_started : Z;
  cp_track_id : string;
  cp_settings : Value;
}.
Record ConfirmedBenchmark := MkConfirmedBenchmark {
  cb_benchmark_id : string; cb_block_confirmed : Z; cb_stopped : bool }.
Record ConfirmedProof := MkConfirmedProof { cpr_benchmark_id : string; cpr_block_confirmed : Z }.
Record ConfirmedFraud := MkConfirmedFraud { cf_benchmark_id : string; cf_block_confirmed : Z }.

Inductive WorkflowError :=
| WfUnavailable (e : DbError)
| WriteInFlight (network : Network) (workflow_id : string)
| WfNotFound (network : Network) (workflow_id : string)
| StaleRevision (network : Network) (workflow_id : string) (expected found : Z)
| BenchmarkMismatch (network : Network) (workflow_id : string) (owned : option string) (offered : string)
| NotAllowed (network : Network) (workflow_id : string) (from to : string)
| MemberFaultNotAvailable (reason : string)
| TerminalStateContradicted (network : Network) (workflow_id : string) (state : string)
| BenchmarkAlreadyClaimed (network : Network) (benchmark_id : string)
| WfCorrupt (what : string).

(** [row_to_workflow]. *)
Definition row_to_workflow (row : WorkflowColumns) : result WorkflowError Workflow :=
  let? network := map_err (fun _ => WfCorrupt "network") (Network_from_str (wc_network row)) in
  let? state := ok_or (parse_state (wc_state row)) (WfCorrupt "state") in
  let? owner := ok_or (Owner_parse (wc_owner_kind row)) (WfCorrupt "owner_kind") in
  let r := wc_rest row in
  Ok {| wf_workflow_id := wf_workflow_id r; wf_network := network; wf_state := state;
        wf_revision := wf_revision r; wf_owner := owner; wf_owner_id := wf_owner_id r;
        wf_benchmark_id := wf_benchmark_id r;
        wf_unverified_from_block := wf_unverified_from_block r;
        wf_unverified_to_block := wf_unverified_to_block r;
        wf_confirmed_track_id := wf_confirmed_track_id r;
        wf_confirmed_settings := wf_confirmed_settings r;
        wf_precommit_confirmed_block := wf_precommit_confirmed_block r;
        wf_block_started := wf_block_started r;
        wf_confirmed_num_nonces := wf_confirmed_num_nonces r;
        wf_terminal_reason := wf_terminal_reason r |}.

(** ** Creation and reads *)

Definition create (n : Network) (workflow_id : string) (owner : Owner) (owner_id : string)
    (unverified_from_block : Z) (db : Db) : result WorkflowError (Workflow * Db) :=
  let w := MkWorkflow workflow_id n Decided 1 owner owner_id None unverified_from_block
             None None None None None None None in
  let? db' := map_err WfUnavailable (insert_workflow w db) in
  let? w' := row_to_workflow (workflow_columns w) in
  Ok (w', db').

Definition find (n : Network) (workflow_id : string) (db : Db) : result WorkflowError (option Workflow) :=
  match db_workflow db !! (n, workflow_id) with
  | None => Ok None
  | Some row => let? w := row_to_workflow (workflow_columns row) in Ok (Some w)
  end.

(** [for id in ids { if let Some(w) = find(id)? { out.push(w) } }], each read
    against the database of its own moment. *)
Fixpoint find_each (n : Network) (at_ : string -> Db) (ids : list string)
  : result WorkflowError (list Workflow) :=
  match ids with
  | [] => Ok []
  | id :: ids' =>
      let? w := find n id (at_ id) in
      let? ws := find_each n at_ ids' in
      Ok (match w with Some w => w :: ws | None => ws end)
  end.

(** [in_states]: the ids in the database's text order [text_le], then each row
    again. *)
Definition in_states (text_le : string -> string -> bool) (n : Network) (states : list WorkflowState)
    (db : Db) (at_ : string -> Db) : result WorkflowError (list Workflow) :=
  find_each n at_ (sort_by text_le (map wf_workflow_id
    (filter (fun w => wf_network w = n /\ wf_state w ∈ states) (rows (db_workflow db))))).
Definition in_state (text_le : string -> string -> bool) (n : Network) (state : WorkflowState)
    (db : Db) (at_ : string -> Db) := in_states text_le n [state] db at_.
Definition unfinished (text_le : string -> string -> bool) (n : Network) (db : Db) (at_ : string -> Db) :=
  in_states text_le n (filter (fun s => is_unfinished_local_work s = true) all_states) db at_.

(** ** The transition *)

Record Fields := MkFields {
  f_benchmark_id : option string;
  f_block_started : option Z;
  f_confirmed_num_nonces : option Z;
  f_confirmed : option (string * Value * Z);
  f_unverified_to_block : option Z;
  f_terminal_reason : option string;
}.
Definition fields_default : Fields := MkFields None None None None None None.

(** [COALESCE(a, b)]. *)
Definition coalesce {A} (a b : option A) : option A := match a with Some _ => a | None => b end.

(** The [SET] list of the update. *)
Definition set_columns (to : WorkflowState) (f : Fields) (w : Workflow) : Workflow :=
  {| wf_workflow_id := wf_workflow_id w; wf_network := wf_network w; wf_state := to;
     wf_revision := wf_revision w + 1; wf_owner := wf_owner w; wf_owner_id := wf_owner_id w;
     wf_benchmark_id := coalesce (f_benchmark_id f) (wf_benchmark_id w);
     wf_unverified_from_block := wf_unverified_from_block w;
     wf_unverified_to_block := coalesce (wf_unverified_to_block w) (f_unverified_to_block f);
     wf_confirmed_track_id := coalesce ((fun c => c.1.1) <$> f_confirmed f) (wf_confirmed_track_id w);
     wf_confirmed_settings := coalesce ((fun c => c.1.2) <$> f_confirmed f) (wf_confirmed_settings w);
     wf_precommit_confirmed_block := coalesce (snd <$> f_confirmed f) (wf_precommit_confirmed_block w);
     wf_block_started := coalesce (f_block_started f) (wf_block_started w);
     wf_confirmed_num_nonces := coalesce (f_confirmed_num_nonces f) (wf_confirmed_num_nonces w);
     wf_terminal_reason := coalesce (f_terminal_reason f) (wf_terminal_reason w) |}.

Definition transition_guarded (n : Network) (workflow_id : string) (at_revision : Z) (to : WorkflowState)
    (require_no_write_in_flight : bool) (deciding : Workflow -> result WorkflowError Fields) (db : Db)
  : result WorkflowError (Workflow * Db) :=
  match db_workflow db !! (n, workflow_id) with
  | None => Err (WfNotFound n workflow_id)
  | Some row =>
      let? current := row_to_workflow (workflow_columns row) in
      if negb (wf_revision current =? at_revision)
      then Err (StaleRevision n workflow_id at_revision (wf_revision current))
      else
        let? fields := deciding current in
        if require_no_write_in_flight && unsettled_write_exists n workflow_id db
        then Err (WriteInFlight n workflow_id)
        else if i32_max <? at_revision + 1 then Err (WfUnavailable (OutOfRange "integer"))
        else
          let updated := set_columns to fields current in
          let? db' := map_err (fun e =>
              if bool_decide (db_constraint e = Some "workflow_one_per_benchmark")
              then BenchmarkAlreadyClaimed n (default "" (f_benchmark_id fields))
              else WfUnavailable e) (update_workflow current updated db) in
          let? w := row_to_workflow (workflow_columns updated) in
          Ok (w, db')
  end.
Definition transition (n : Network) (workflow_id : string) (at_revision : Z) (to : WorkflowState) :=
  transition_guarded n workflow_id at_revision to false.

Definition expect_benchmark (n : Network) (workflow_id : string) (current : Workflow) (offered : string)
  : result WorkflowError unit :=
  if bool_decide (wf_benchmark_id current = Some offered) then Ok tt
  else Err (BenchmarkMismatch n workflow_id (wf_benchmark_id current) offered).

(** The guard the confirmation closures share. *)
Definition expect_state (n : Network) (workflow_id : string) (current : Workflow)
    (from : list WorkflowState) (to : WorkflowState) : result WorkflowError unit :=
  if is_terminal (wf_state current)
  then Err (TerminalStateContradicted n workflow_id (WorkflowState_as_str (wf_state current)))
  else if bool_decide (wf_state current ∈ from) then Ok tt
  else Err (NotAllowed n workflow_id (WorkflowState_as_str (wf_state current)) (WorkflowState_as_str to)).

Inductive Submitted := SubPrecommit | SubBenchmark | SubProof.

Definition submitted_edge (which : Submitted) : WorkflowState * WorkflowState :=
  match which with
  | SubPrecommit => (Decided, PrecommitSubmitted)
  | SubBenchmark => (PrecommitConfirmed, BenchmarkSubmitted)
  | SubProof => (BenchmarkConfirmed, ProofSubmitted)
  end.

Definition record_submitted (n : Network) (workflow_id : string) (at_revision : Z) (which : Submitted)
    (db : Db) : result WorkflowError (Workflow * Db) :=
  let '(from, to) := submitted_edge which in
  transition n workflow_id at_revision to (fun current =>
    if bool_decide (wf_state current <> from)
    then Err (NotAllowed n workflow_id (WorkflowState_as_str (wf_state current)) (WorkflowState_as_str to))
    else Ok fields_default) db.

Definition confirm_precommit (n : Network) (workflow_id : string) (at_revision : Z)
    (evidence : ConfirmedPrecommit) (db : Db) : result WorkflowError (Workflow * Db) :=
  transition n workflow_id at_revision PrecommitConfirmed (fun current =>
    let? _ := expect_state n workflow_id current [Decided; PrecommitSubmitted] PrecommitConfirmed in
    Ok {| f_benchmark_id := Some (cp_benchmark_id evidence);
          f_block_started := Some (cp_block_started evidence);
          f_confirmed_num_nonces := cp_num_nonces evidence;
          f_confirmed := Some (cp_track_id evidence, cp_settings evidence, cp_block_confirmed evidence);
          f_unverified_to_block := None;
          f_terminal_reason := None |}) db.

(** The reason's section sign is the UTF-8 pair [C2 A7]. *)
Definition section_sign : string :=
  String (Ascii.ascii_of_N 194) (String (Ascii.ascii_of_N 167) EmptyString).
Definition STOPPED_REASON : string :=
  String.append "TIG stopped the benchmark; " (String.append section_sign "7 sends no proof").

Definition confirm_benchmark (n : Network) (workflow_id : string) (at_revision : Z)
    (evidence : ConfirmedBenchmark) (db : Db) : result WorkflowError (Workflow * Db) :=
  let to := if cb_stopped evidence then Stopped else BenchmarkConfirmed in
  let closes := if cb_stopped evidence then Some (cb_block_confirmed evidence) else None in
  transition n workflow_id at_revision to (fun current =>
    let? _ := expect_benchmark n workflow_id current (cb_benchmark_id evidence) in
    let? _ := expect_state n workflow_id current [PrecommitConfirmed; BenchmarkSubmitted] to in
    Ok (MkFields None None None None closes (if cb_stopped evidence then Some STOPPED_REASON else None))) db.

Definition confirm_proof (n : Network) (workflow_id : string) (at_revision : Z)
    (evidence : ConfirmedProof) (db : Db) : result WorkflowError (Workflow * Db) :=
  transition n workflow_id at_revision ProofConfirmed (fun current =>
    let? _ := expect_benchmark n workflow_id current (cpr_benchmark_id evidence) in
    let? _ := expect_state n workflow_id current [BenchmarkConfirmed; ProofSubmitted] ProofConfirmed in
    Ok fields_default) db.

Definition confirm_verified (n : Network) (workflow_id : string) (at_revision : Z)
    (benchmark_id : string) (at_block : Z) (db : Db) : result WorkflowError (Workflow * Db) :=
  transition n workflow_id at_revision Verified (fun current =>
    let? _ := expect_benchmark n workflow_id current benchmark_id in
    let? _ := expect_state n workflow_id current [ProofConfirmed] Verified in
    Ok (MkFields None None None None (Some at_block) None)) db.

Definition confirm_fraud (n : Network) (workflow_id : string) (at_revision : Z)
    (evidence : ConfirmedFraud) (db : Db) : result WorkflowError (Workflow * Db) :=
  transition n workflow_id at_revision Fraudulent (fun current =>
    let? _ := expect_benchmark n workflow_id current (cf_benchmark_id evidence) in
    if is_terminal (wf_state current)
    then Err (TerminalStateContradicted n workflow_id (WorkflowState_as_str (wf_state current)))
    else Ok (MkFields None None None None (Some (cf_block_confirmed evidence))
               (Some "TIG confirmed a fraud entry"))) db.

(** ** Failure and expiry *)

Definition reject_member_fault (reason : string) : result WorkflowError unit :=
  let lowered := to_ascii_lowercase reason in
  if existsb (fun marker => str_contains marker lowered) ["member"; "chargeable"; "slash"]
  then Err (MemberFaultNotAvailable reason)
  else Ok tt.

(** The closure of [fail] and [expire_inner]. *)
Definition end_with (n : Network) (workflow_id : string) (to : WorkflowState) (reason : string) (at_block : Z)
    (current : Workflow) : result WorkflowError Fields :=
  if is_terminal (wf_state current)
  then Err (NotAllowed n workflow_id (WorkflowState_as_str (wf_state current)) (WorkflowState_as_str to))
  else Ok (MkFields None None None None (Some at_block) (Some reason)).

Definition fail (n : Network) (workflow_id : string) (at_revision : Z) (reason : string) (at_block : Z)
    (db : Db) : result WorkflowError (Workflow * Db) :=
  let? _ := reject_member_fault reason in
  transition n workflow_id at_revision Failed (end_with n workflow_id Failed reason at_block) db.

Definition expire_inner (n : Network) (workflow_id : string) (at_revision : Z) (reason : string) (at_block : Z)
    (require_no_write_in_flight : bool) (db : Db) : result WorkflowError (Workflow * Db) :=
  let? _ := reject_member_fault reason in
  transition_guarded n workflow_id at_revision Expired require_no_write_in_flight
    (end_with n workflow_id Expired reason at_block) db.
Definition expire (n : Network) (workflow_id : string) (at_revision : Z) (reason : string) (at_block : Z)
    (db : Db) := expire_inner n workflow_id at_revision reason at_block false db.
Definition expire_unless_a_write_is_in_flight (n : Network) (workflow_id : string) (at_revision : Z)
    (reason : string) (at_block : Z) (db : Db) :=
  expire_inner n workflow_id at_revision reason at_block true db.

Definition EXPIRY_REASON_UNCONFIRMED : string := "workflow_age_120_without_confirmation".
Definition EXPIRY_REASON_NO_PRECOMMIT : string := "workflow_expired_without_precommit".

(** [latest_decision_anchor]: [ORDER BY generation DESC LIMIT 1]. *)
Definition later_decision (best : option DecisionRow) (d : DecisionRow) : option DecisionRow :=
  match best with
  | Some b => if dr_generation b <? dr_generation d then Some d else best
  | None => Some d
  end.
Definition latest_decision_anchor (n : Network) (workflow_id : string) (db : Db) : option Z :=
  dr_anchor_height <$> fold_left later_decision
    (filter (fun d => dr_network d = n /\ dr_workflow_id d = workflow_id) (rows (db_decision db))) None.

(** [expire_if_due]: the row is read in [db_read], the anchor in [db_anchor],
    and the guarded update runs in [db], each possibly later than the one
    before. *)
Definition expire_if_due (guardrails : Guardrails) (n : Network) (workflow_id : string) (current_block : Z)
    (db_read db_anchor db : Db) : result WorkflowError (option Workflow * Db) :=
  let? found := find n workflow_id db_read in
  match found with
  | None => Err (WfNotFound n workflow_id)
  | Some current =>
      if negb (is_unfinished_local_work (wf_state current)) then Ok (None, db)
      else
        let from_block := match wf_block_started current with
                          | Some started => started
                          | None => default (wf_unverified_from_block current)
                                      (latest_decision_anchor n workflow_id db_anchor)
                          end in
        let reason_code := match wf_confirmed_track_id current with
                           | Some _ => EXPIRY_REASON_UNCONFIRMED
                           | None => EXPIRY_REASON_NO_PRECOMMIT
                           end in
        if negb (bool_decide (rem_standing (standing guardrails from_block current_block) = Expired_))
        then Ok (None, db)
        else match expire_unless_a_write_is_in_flight n workflow_id (wf_revision current) reason_code
                     current_block db with
             | Ok (w, db') => Ok (Some w, db')
             | Err (WriteInFlight _ _) => Ok (None, db)
             | Err e => Err e
             end
  end.

(** ** The operations as one alphabet *)

Inductive WorkflowOp :=
| OpSubmitted (which : Submitted)
| OpConfirmPrecommit (evidence : ConfirmedPrecommit)
| OpConfirmBenchmark (evidence : ConfirmedBenchmark)
| OpConfirmProof (evidence : ConfirmedProof)
| OpConfirmVerified (benchmark_id : string) (at_block : Z)
| OpConfirmFraud (evidence : ConfirmedFraud)
| OpFail (reason : string) (at_block : Z)
| OpExpire (reason : string) (at_block : Z) (guarded : bool).

Definition run_op (n : Network) (id : string) (rev : Z) (op : WorkflowOp) (db : Db)
  : result WorkflowError (Workflow * Db) :=
  match op with
  | OpSubmitted which => record_submitted n id rev which db
  | OpConfirmPrecommit ev => confirm_precommit n id rev ev db
  | OpConfirmBenchmark ev => confirm_benchmark n id rev ev db
  | OpConfirmProof ev => confirm_proof n id rev ev db
  | OpConfirmVerified b at_block => confirm_verified n id rev b at_block db
  | OpConfirmFraud ev => confirm_fraud n id rev ev db
  | OpFail reason at_block => fail n id rev reason at_block db
  | OpExpire reason at_block guarded => expire_inner n id rev reason at_block guarded db
  end.

(** ** Specification *)

(** The lifecycle: submissions and confirmations in order, a confirmation with
    or without its recorded submission, and the terminal branches. *)
Inductive edge : WorkflowState -> WorkflowState -> Prop :=
| edge_submit_precommit : edge Decided PrecommitSubmitted
| edge_confirm_precommit s : s ∈ [Decided; PrecommitSubmitted] -> edge s PrecommitConfirmed
| edge_submit_benchmark : edge PrecommitConfirmed BenchmarkSubmitted
| edge_confirm_benchmark s : s ∈ [PrecommitConfirmed; BenchmarkSubmitted] -> edge s BenchmarkConfirmed
| edge_stopped s : s ∈ [PrecommitConfirmed; BenchmarkSubmitted] -> edge s Stopped
| edge_submit_proof : edge BenchmarkConfirmed ProofSubmitted
| edge_confirm_proof s : s ∈ [BenchmarkConfirmed; ProofSubmitted] -> edge s ProofConfirmed
| edge_verified : edge ProofConfirmed Verified
| edge_fraud s : is_terminal s = false -> edge s Fraudulent
| edge_failed s : is_terminal s = false -> edge s Failed
| edge_expired s : is_terminal s = false -> edge s Expired.

(** What a transition never changes. *)
Definition keeps (w w' : Workflow) : Prop :=
  wkey w' = wkey w /\ wf_owner w' = wf_owner w /\ wf_owner_id w' = wf_owner_id w /\
  wf_unverified_from_block w' = wf_unverified_from_block w /\
  (forall b, wf_benchmark_id w = Some b -> wf_benchmark_id w' = Some b) /\
  (forall b, wf_block_started w = Some b -> wf_block_started w' = Some b) /\
  (forall k, wf_confirmed_num_nonces w = Some k -> wf_confirmed_num_nonces w' = Some k) /\
  (forall t, wf_unverified_to_block w = Some t -> wf_unverified_to_block w' = Some t).

(** ** Lemmas *)

Lemma read_row w : row_to_workflow (workflow_columns w) = Ok w.
Proof.
  unfold row_to_workflow, workflow_columns. simpl. autorewrite with codec. simpl. by destruct w.
Qed.

Lemma find_spec n id db : find n id db = Ok (db_workflow db !! (n, id)).
Proof. unfold find. destruct (_ !! _); [by rewrite read_row|done]. Qed.

(** Success of a transition, exactly. *)
Lemma transition_guarded_Ok n id rev to guard deciding db w' db' :
  transition_guarded n id rev to guard deciding db = Ok (w', db') <->
  exists w fields, db_workflow db !! (n, id) = Some w /\ wf_revision w = rev /\ deciding w = Ok fields /\
    (guard = true -> unsettled_write_exists n id db = false) /\ rev + 1 <= i32_max /\
    w' = set_columns to fields w /\ update_workflow w w' db = Ok db'.
Proof.
  unfold transition_guarded. destruct (db_workflow db !! (n, id)) as [w|]; [|naive_solver].
  rewrite read_row. destruct (Z.eqb_spec (wf_revision w) rev) as [Hr|Hr]; simpl; [|naive_solver].
  destruct (deciding w) as [f|] eqn:Hd.
  2:{ split; [done|]. intros (? & ? & [= <-] & _ & ? & _). congruence. }
  destruct (guard && unsettled_write_exists n id db) eqn:Hg.
  { apply andb_true_iff in Hg as [-> Hu]. split; [done|]. intros (? & ? & ? & ? & ? & Hn & ?).
    by rewrite Hn in Hu. }
  assert (Hg' : guard = true -> unsettled_write_exists n id db = false).
  { intros ->. by destruct (unsettled_write_exists n id db). }
  destruct (Z.ltb_spec i32_max (rev + 1)) as [Hlt|Hle].
  { split; [done|]. intros (? & ? & ? & ? & ? & ? & ? & ?). lia. }
  destruct (update_workflow w (set_columns to f w) db) as [d|e] eqn:Hup; simpl; rewrite ?read_row.
  - split.
    + intros [= <- <-]. exists w, f. done.
    + intros (w0 & f0 & [= <-] & _ & Hd0 & _ & _ & -> & Hup0). congruence.
  - split; [by destruct (bool_decide _)|].
    intros (w0 & f0 & [= <-] & _ & Hd0 & _ & _ & -> & Hup0). congruence.
Qed.

Lemma update_workflow_Ok old new db db' :
  update_workflow old new db = Ok db' <->
  workflow_trigger old new = None /\ put_workflow new db = Ok db'.
Proof. unfold update_workflow. destruct (workflow_trigger old new); naive_solver. Qed.

Lemma changed_false {A} `{EqDecision A} (old new : option A) a :
  negb (changed old new) = true -> old = Some a -> new = Some a.
Proof. unfold changed. intros Hc ->. simpl in Hc. rewrite negb_involutive in Hc. by apply bool_decide_eq_true in Hc. Qed.

Lemma set_columns_keeps to f w : workflow_trigger w (set_columns to f w) = None -> keeps w (set_columns to f w).
Proof.
  unfold workflow_trigger. rewrite first_violation_None, !Forall_cons.
  intros (_ & Hb & _ & Hs & Hn & _). simpl in *. unfold keeps. split_and!; try done.
  - intros b. by eapply changed_false.
  - intros b. by eapply changed_false.
  - intros b. by eapply changed_false.
  - simpl. by intros t ->.
Qed.

(** Success of a transition over its whole effect. *)
Lemma transition_effect n id rev to guard deciding db w' db' :
  transition_guarded n id rev to guard deciding db = Ok (w', db') ->
  exists w fields, db_workflow db !! (n, id) = Some w /\ wf_revision w = rev /\ deciding w = Ok fields /\
    (guard = true -> unsettled_write_exists n id db = false) /\ rev + 1 <= i32_max /\
    w' = set_columns to fields w /\ keeps w w' /\
    Forall (fun c => c.2 = true) (workflow_checks w') /\ benchmark_taken w' db = false /\
    db' = with_workflow (<[wkey w' := w']> (db_workflow db)) db.
Proof.
  intros (w & f & Hw & Hr & Hd & Hg & Hi & -> & Hup)%transition_guarded_Ok.
  apply update_workflow_Ok in Hup as [Htr (Hc & Hb & ->)%put_workflow_Ok].
  exists w, f. split_and!; try done. by apply set_columns_keeps.
Qed.

Lemma expect_benchmark_Ok n id w b : expect_benchmark n id w b = Ok tt <-> wf_benchmark_id w = Some b.
Proof. unfold expect_benchmark. case_bool_decide; naive_solver. Qed.
Lemma expect_state_Ok n id w from to :
  expect_state n id w from to = Ok tt <-> is_terminal (wf_state w) = false /\ wf_state w ∈ from.
Proof. unfold expect_state. destruct (is_terminal _); [naive_solver|]. case_bool_decide; naive_solver. Qed.

(** The closure and target of an operation. *)
Definition op_target (op : WorkflowOp) : WorkflowState :=
  match op with
  | OpSubmitted which => (submitted_edge which).2
  | OpConfirmPrecommit _ => PrecommitConfirmed
  | OpConfirmBenchmark ev => if cb_stopped ev then Stopped else BenchmarkConfirmed
  | OpConfirmProof _ => ProofConfirmed
  | OpConfirmVerified _ _ => Verified
  | OpConfirmFraud _ => Fraudulent
  | OpFail _ _ => Failed
  | OpExpire _ _ _ => Expired
  end.
Definition op_guarded (op : WorkflowOp) : bool := match op with OpExpire _ _ g => g | _ => false end.
(** The benchmark an operation's evidence is about. *)
Definition op_benchmark (op : WorkflowOp) : option string :=
  match op with
  | OpConfirmBenchmark ev => Some (cb_benchmark_id ev)
  | OpConfirmProof ev => Some (cpr_benchmark_id ev)
  | OpConfirmVerified b _ => Some b
  | OpConfirmFraud ev => Some (cf_benchmark_id ev)
  | _ => None
  end.
(** The height at which an operation closes the unverified interval. *)
Definition op_closes (op : WorkflowOp) : option Z :=
  match op with
  | OpConfirmBenchmark ev => if cb_stopped ev then Some (cb_block_confirmed ev) else None
  | OpConfirmVerified _ b | OpFail _ b | OpExpire _ b _ => Some b
  | OpConfirmFraud ev => Some (cf_block_confirmed ev)
  | _ => None
  end.
(** The fields an operation's closure sets when it accepts. *)
Definition op_fields (op : WorkflowOp) : Fields :=
  match op with
  | OpConfirmPrecommit ev => MkFields (Some (cp_benchmark_id ev)) (Some (cp_block_started ev)) (cp_num_nonces ev)
      (Some (cp_track_id ev, cp_settings ev, cp_block_confirmed ev)) None None
  | OpConfirmBenchmark ev => MkFields None None None None (op_closes op)
      (if cb_stopped ev then Some STOPPED_REASON else None)
  | OpConfirmVerified _ _ => MkFields None None None None (op_closes op) None
  | OpConfirmFraud _ => MkFields None None None None (op_closes op) (Some "TIG confirmed a fraud entry")
  | OpFail r _ | OpExpire r _ _ => MkFields None None None None (op_closes op) (Some r)
  | _ => fields_default
  end.

(** The routine conjuncts of [run_op_effect]. *)
Ltac effect_case := try first [assumption | reflexivity | by intros ? [= <-] | by constructor].

(** Every operation that succeeds is a transition along an edge. *)
Lemma run_op_effect n id rev op db w' db' :
  run_op n id rev op db = Ok (w', db') ->
  exists w, db_workflow db !! (n, id) = Some w /\ wf_revision w = rev /\
    edge (wf_state w) (op_target op) /\
    (forall b, op_benchmark op = Some b -> wf_benchmark_id w = Some b) /\
    (op_guarded op = true -> unsettled_write_exists n id db = false) /\ rev + 1 <= i32_max /\
    w' = set_columns (op_target op) (op_fields op) w /\ keeps w w' /\
    Forall (fun c => c.2 = true) (workflow_checks w') /\ benchmark_taken w' db = false /\
    db' = with_workflow (<[wkey w' := w']> (db_workflow db)) db.
Proof.
  destruct op as [which|ev|ev|ev|b k|ev|r k|r k g]; simpl;
    unfold record_submitted, confirm_precommit, confirm_benchmark, confirm_proof, confirm_verified,
      confirm_fraud, fail, expire_inner, transition; intros Hrun;
    try (destruct (submitted_edge which) as [from to] eqn:Hse);
    try (destruct (reject_member_fault r); [|done]);
    apply transition_effect in Hrun as (w & f & Hw & Hr & Hd & Hg & Hi & -> & Hk & Hc & Hbt & ->);
    exists w; unfold end_with in Hd;
    try (destruct (expect_benchmark _ _ _ _) as [[]|] eqn:Hb; [apply expect_benchmark_Ok in Hb|done]);
    try (destruct (expect_state _ _ _ _ _) as [[]|] eqn:Hs; [apply expect_state_Ok in Hs as [Hs Hin]|done]).
  - case_bool_decide as Hst; [done|]. injection Hd as <-. split_and!; effect_case.
    rewrite Hst. destruct which; injection Hse as <- <-; constructor.
  - injection Hd as <-. split_and!; effect_case.
  - injection Hd as <-. split_and!; effect_case. destruct (cb_stopped ev); by constructor.
  - injection Hd as <-. split_and!; effect_case.
  - injection Hd as <-. split_and!; effect_case. apply list_elem_of_singleton in Hin. rewrite Hin. constructor.
  - destruct (is_terminal (wf_state w)) eqn:Ht; [done|]. injection Hd as <-. split_and!; effect_case.
  - destruct (is_terminal (wf_state w)) eqn:Ht; [done|]. injection Hd as <-. split_and!; effect_case.
  - destruct (is_terminal (wf_state w)) eqn:Ht; [done|]. injection Hd as <-. split_and!; effect_case.
Qed.

Lemma edge_not_terminal s s' : edge s s' -> is_terminal s = false.
Proof.
  destruct 1 as [|s Hs| |s Hs|s Hs| |s Hs| | | |]; try done;
    rewrite !elem_of_cons in Hs; destruct Hs as [->|[->|Hs]]; try done; by apply not_elem_of_nil in Hs.
Qed.

(** ** The invariant of [pool.workflow] *)

(** The unverified interval is closed exactly here. *)
Definition settled_state (s : WorkflowState) : bool :=
  match s with Verified => true | _ => is_terminal s end.

Record workflow_ok (k : Network * string) (w : Workflow) : Prop := {
  ok_key : wkey w = k;
  ok_checks : Forall (fun c => c.2 = true) (workflow_checks w);
  ok_interval : negb (is_none (wf_unverified_to_block w)) = settled_state (wf_state w);
  ok_confirmed : is_none (wf_confirmed_track_id w) = is_none (wf_benchmark_id w);
  ok_started : is_none (wf_block_started w) = is_none (wf_benchmark_id w);
  ok_unconfirmed : wf_state w ∈ [Decided; PrecommitSubmitted] -> wf_benchmark_id w = None;
  ok_nonces : wf_benchmark_id w = None -> wf_confirmed_num_nonces w = None;
  ok_revision : 1 <= wf_revision w <= i32_max;
}.

Definition one_owner (t : gmap (Network * string) Workflow) : Prop :=
  forall k1 k2 w1 w2 b, t !! k1 = Some w1 -> t !! k2 = Some w2 -> wf_network w1 = wf_network w2 ->
    wf_benchmark_id w1 = Some b -> wf_benchmark_id w2 = Some b -> k1 = k2.

Definition workflows_ok (t : gmap (Network * string) Workflow) : Prop :=
  map_Forall workflow_ok t /\ one_owner t.

(** A stored row leaves the invariant intact when it is itself well formed and
    the unique index admitted it. *)
Lemma workflows_ok_insert db w :
  workflows_ok (db_workflow db) -> workflow_ok (wkey w) w -> benchmark_taken w db = false ->
  workflows_ok (<[wkey w := w]> (db_workflow db)).
Proof.
  intros [Hall Hone] Hw Hbt. split; [by apply map_Forall_insert_2|].
  intros k1 k2 w1 w2 b H1 H2 Hn Hb1 Hb2.
  assert (Hother : forall k r, db_workflow db !! k = Some r -> wf_network r = wf_network w ->
    wf_benchmark_id r = Some b -> wf_benchmark_id w = Some b -> k = wkey w).
  { intros k r Hk Hnet Hrb Hwb. rewrite <- (ok_key _ _ (Hall _ _ Hk)).
    by apply (benchmark_taken_false w db b Hbt Hwb k r). }
  apply lookup_insert_Some in H1 as [[<- <-]|[Hk1 H1]], H2 as [[<- <-]|[Hk2 H2]]; [done| | |by eapply Hone].
  - symmetry. by eapply Hother.
  - by eapply Hother.
Qed.

Lemma create_ok n id o oid from db w' db' :
  workflows_ok (db_workflow db) -> create n id o oid from db = Ok (w', db') ->
  workflows_ok (db_workflow db') /\ db_workflow db !! (n, id) = None /\
  db' = with_workflow (<[(n, id) := w']> (db_workflow db)) db /\
  w' = MkWorkflow id n Decided 1 o oid None from None None None None None None None.
Proof.
  intros Hok. unfold create, insert_workflow. simpl. rewrite read_row.
  destruct (db_workflow db !! _) as [r|] eqn:Hl.
  { by destruct (first_violation _). }
  destruct (put_workflow _ db) as [d|] eqn:Hput; simpl; [|done]. intros [= <- <-].
  apply put_workflow_Ok in Hput as (Hc & Hbt & ->). split_and!; try done. simpl.
  apply workflows_ok_insert; [done| |done]. constructor; try done; unfold i32_max; simpl; lia.
Qed.

Lemma set_columns_ok n id op w :
  workflow_ok (n, id) w -> edge (wf_state w) (op_target op) ->
  (forall b, op_benchmark op = Some b -> wf_benchmark_id w = Some b) ->
  Forall (fun c => c.2 = true) (workflow_checks (set_columns (op_target op) (op_fields op) w)) ->
  wf_revision w + 1 <= i32_max ->
  workflow_ok (n, id) (set_columns (op_target op) (op_fields op) w).
Proof.
  intros [Hk Hc Hint Hconf Hst Hun Hnn Hrev] He Hb Hc' Hi.
  assert (Hnt := edge_not_terminal _ _ He). constructor; simpl; try done; [| | | | |lia].
  - destruct (wf_unverified_to_block w) as [t|] eqn:Ht; simpl in *.
    + assert (Hv : wf_state w = Verified) by (destruct (wf_state w); done). rewrite Hv in He.
      inversion He as [|s Hs| |s Hs|s Hs| |s Hs| | | |]; try done;
        rewrite !elem_of_cons, elem_of_nil in Hs; by destruct Hs as [|[|]].
    + destruct op as [[]|ev|ev|ev|b k|ev|r k|r k g]; simpl; try done. by destruct (cb_stopped ev).
  - destruct op as [[]|ev|ev|ev|b k|ev|r k|r k g]; simpl; done.
  - destruct op as [[]|ev|ev|ev|b k|ev|r k|r k g]; simpl; done.
  - intros Hin. destruct op as [[]|ev|ev|ev|b k|ev|r k|r k g]; simpl in *;
      try (rewrite !elem_of_cons, elem_of_nil in Hin; by destruct Hin as [|[|]]).
    + apply Hun. inversion He; set_solver.
    + destruct (cb_stopped ev); rewrite !elem_of_cons, elem_of_nil in Hin; by destruct Hin as [|[|]].
  - destruct op as [[]|ev|ev|ev|b k|ev|r k|r k g]; simpl; done.
Qed.

Lemma run_op_ok n id rev op db w' db' :
  workflows_ok (db_workflow db) -> run_op n id rev op db = Ok (w', db') -> workflows_ok (db_workflow db').
Proof.
  intros Hok Hrun.
  apply run_op_effect in Hrun as (w & Hw & Hr & He & Hb & _ & Hi & -> & Hk & Hc & Hbt & ->). simpl.
  pose proof (proj1 Hok _ _ Hw) as Hwok.
  apply workflows_ok_insert; [done| |done]. destruct Hk as [Hkey _]. rewrite Hkey, (ok_key _ _ Hwok).
  apply set_columns_ok; try done. lia.
Qed.

(** ** Properties *)

(** C20. Every operation that succeeds moves one existing workflow, at exactly the
    revision the caller read, along an edge of the lifecycle, and advances the
    revision by one.  Its evidence names the workflow's own benchmark.  The
    key, the owner, the interval's start, an already known benchmark, start
    block and nonce count, and the first close of the interval are kept; no
    other row and no other table changes. *)
Theorem transitions_follow_lifecycle n id rev op db w' db' :
  run_op n id rev op db = Ok (w', db') ->
  exists w, db_workflow db !! (n, id) = Some w /\ wf_revision w = rev /\
    wf_revision w' = rev + 1 /\ rev + 1 <= i32_max /\
    edge (wf_state w) (wf_state w') /\ keeps w w' /\
    (forall b, op_benchmark op = Some b -> wf_benchmark_id w = Some b) /\
    db' = with_workflow (<[wkey w := w']> (db_workflow db)) db.
Proof.
  intros (w & Hw & Hr & He & Hb & _ & Hi & -> & Hk & _ & _ & ->)%run_op_effect.
  exists w. split_and!; try done. simpl. by rewrite Hr.
Qed.
Definition sample_db : Db :=
  with_workflow {[ (Testnet, "w1") := MkWorkflow "w1" Testnet PrecommitSubmitted 2 PoolBootstrap POOL_BOOTSTRAP_OWNER
                     None 100 None None None None None None None ]} empty_db.
Definition sample_precommit : ConfirmedPrecommit :=
  MkConfirmedPrecommit "b1" (Some 64) (Some 8) 103 102 "t1" JNull.
Example transitions_follow_lifecycle_witness :
  exists w' db', run_op Testnet "w1" 2 (OpConfirmPrecommit sample_precommit) sample_db = Ok (w', db') /\
  exists w, edge (wf_state w) (wf_state w').
Proof.
  do 2 eexists. split; [vm_compute; reflexivity|].
  edestruct (transitions_follow_lifecycle Testnet "w1" 2 (OpConfirmPrecommit sample_precommit) sample_db)
    as (w & _ & _ & _ & _ & He & _); [vm_compute; reflexivity|].
  exists w. exact He.
Defined.

(** Compare-and-set: of two callers that read the same revision, at most one
    wins.  After any operation succeeds at a revision, every operation still
    presenting that revision is refused. *)
Theorem one_winner_per_revision n id rev op1 op2 db w1 db1 :
  workflows_ok (db_workflow db) -> run_op n id rev op1 db = Ok (w1, db1) ->
  forall w2 db2, run_op n id rev op2 db1 <> Ok (w2, db2).
Proof.
  intros Hok (w & Hw & Hr & _ & _ & _ & _ & -> & _ & _ & _ & ->)%run_op_effect w2 db2
    (v & Hv & Hrv & _)%run_op_effect.
  change (wkey (set_columns (op_target op1) (op_fields op1) w)) with (wkey w) in Hv.
  rewrite (ok_key _ _ (proj1 Hok _ _ Hw)) in Hv. simpl in Hv. rewrite lookup_insert_eq in Hv.
  injection Hv as <-. simpl in Hrv. lia.
Qed.
Lemma sample_db_ok : workflows_ok (db_workflow sample_db).
Proof.
  split.
  - apply map_Forall_singleton. constructor; simpl; first [done | by repeat constructor | unfold i32_max; lia].
  - unfold one_owner. simpl. intros k1 k2 w1 w2 b [<- <-]%lookup_singleton_Some [<- <-]%lookup_singleton_Some. done.
Qed.
Example one_winner_per_revision_witness :
  exists w1 db1, run_op Testnet "w1" 2 (OpConfirmPrecommit sample_precommit) sample_db = Ok (w1, db1) /\
  forall w2 db2, run_op Testnet "w1" 2 (OpFail "rejected" 110) db1 <> Ok (w2, db2).
Proof.
  do 2 eexists. split; [vm_compute; reflexivity|].
  eapply (one_winner_per_revision Testnet "w1" 2 (OpConfirmPrecommit sample_precommit) (OpFail "rejected" 110)
    sample_db); [exact sample_db_ok|vm_compute; reflexivity].
Defined.

(** The terminal branches are final: no operation moves a terminal workflow,
    and confirmed evidence about its own benchmark at its current revision is
    reported as a contradiction rather than applied. *)
Theorem terminal_is_final n id db w op rev :
  db_workflow db !! (n, id) = Some w -> is_terminal (wf_state w) = true ->
  (forall w' db', run_op n id rev op db <> Ok (w', db')) /\
  (rev = wf_revision w -> op_benchmark op <> None -> op_benchmark op = wf_benchmark_id w ->
   run_op n id rev op db = Err (TerminalStateContradicted n id (WorkflowState_as_str (wf_state w)))).
Proof.
  intros Hw Ht. split.
  - intros w' db' (w0 & Hw0 & _ & He%edge_not_terminal & _)%run_op_effect. congruence.
  - intros -> Hsome Hb. destruct op; try done; simpl in *;
      unfold confirm_benchmark, confirm_proof, confirm_verified, confirm_fraud, transition, transition_guarded;
      rewrite Hw, read_row, Z.eqb_refl; simpl;
      rewrite (proj2 (expect_benchmark_Ok n id w _)) by done;
      unfold expect_state; by rewrite Ht.
Qed.
Example terminal_is_final_witness :
  let w := MkWorkflow "w1" Testnet Expired 5 PoolBootstrap POOL_BOOTSTRAP_OWNER
              (Some "b1") 100 (Some 230) None None None (Some 102) None (Some "late") in
  run_op Testnet "w1" 5 (OpConfirmProof (MkConfirmedProof "b1" 231)) (with_workflow {[ (Testnet, "w1") := w ]} empty_db) =
    Err (TerminalStateContradicted Testnet "w1" "EXPIRED").
Proof.
  intros w. refine (proj2 (terminal_is_final Testnet "w1" _ w _ 5 _ _) _ _ _);
    (vm_compute; reflexivity) || done.
Defined.

(** The conditions [confirm_precommit] depends on, for a workflow [w]. *)
Definition may_confirm (n : Network) (id : string) (w : Workflow) (ev : ConfirmedPrecommit) (db : Db) : Prop :=
  wf_state w ∈ [Decided; PrecommitSubmitted] /\ 0 <= cp_block_started ev /\
  (forall k, cp_num_nonces ev = Some k -> 0 < k) /\
  (forall k r, db_workflow db !! k = Some r -> wf_network r = n ->
     wf_benchmark_id r = Some (cp_benchmark_id ev) -> k = (n, id)).

Lemma opt_all_true {A} (p : A -> bool) o : opt_all p o = true <-> forall a, o = Some a -> p a = true.
Proof. destruct o; simpl; naive_solver. Qed.

Lemma confirm_precommit_checks n id w ev :
  workflow_ok (n, id) w -> wf_state w ∈ [Decided; PrecommitSubmitted] ->
  0 <= cp_block_started ev -> (forall k, cp_num_nonces ev = Some k -> 0 < k) ->
  workflow_trigger w (set_columns PrecommitConfirmed (op_fields (OpConfirmPrecommit ev)) w) = None /\
  Forall (fun c => c.2 = true)
    (workflow_checks (set_columns PrecommitConfirmed (op_fields (OpConfirmPrecommit ev)) w)).
Proof.
  intros [Hk Hc Hint Hconf Hst Hun Hnn Hrev] Hin Hb Hn. specialize (Hun Hin). specialize (Hnn Hun).
  assert (Ht : is_terminal (wf_state w) = false).
  { rewrite !elem_of_cons, elem_of_nil in Hin. by destruct Hin as [->|[->|]]. }
  assert (Hto : wf_unverified_to_block w = None).
  { destruct (wf_unverified_to_block w); [|done]. simpl in Hint.
    rewrite !elem_of_cons, elem_of_nil in Hin. by destruct Hin as [E|[E|]]; [rewrite E in Hint..|]. }
  unfold workflow_checks in Hc. rewrite !Forall_cons in Hc. simpl in Hc.
  destruct Hc as (_ & _ & Hboot & _ & _ & Hmem & Hpool & _ & Hreason & Hfrom & _ & _).
  rewrite Ht, orb_false_r in Hreason. destruct (wf_terminal_reason w) eqn:Hr; [done|].
  rewrite Hun in *. destruct (wf_block_started w) eqn:Hbs; [done|].
  split.
  - unfold workflow_trigger. apply first_violation_None. simpl.
    rewrite Hun, Hbs, Hnn. unfold changed. rewrite !Forall_cons. simpl. rewrite !andb_false_r.
    split_and!; try done; [by apply bool_decide_eq_true|apply Z.ltb_lt; lia].
  - unfold workflow_checks. rewrite !Forall_cons. simpl. rewrite Hr, Hto, Hnn. simpl.
    split_and!; try done.
    + by apply Z.leb_le.
    + apply opt_all_true. intros k Hk'. apply Z.ltb_lt. destruct (cp_num_nonces ev) eqn:E; [|done].
      simpl in Hk'. apply Hn. congruence.
    + apply Z.leb_le. lia.
Qed.

Lemma benchmark_untaken w db b :
  map_Forall workflow_ok (db_workflow db) -> wf_benchmark_id w = Some b ->
  (forall k r, db_workflow db !! k = Some r -> wf_network r = wf_network w ->
     wf_benchmark_id r = Some b -> k = wkey w) ->
  benchmark_taken w db = false.
Proof.
  intros Hall Hb Hfree. unfold benchmark_taken. rewrite Hb. apply exists_row_false. intros k r Hk.
  destruct (decide (wf_network r = wf_network w /\ wf_benchmark_id r = Some b)) as [[En Eb]|Hne].
  - rewrite (bool_decide_eq_true_2 (wkey r = wkey w)); [done|].
    rewrite (ok_key _ _ (Hall _ _ Hk)). by apply (Hfree k r).
  - destruct (decide (wf_network r = wf_network w)) as [En|En].
    + rewrite (bool_decide_eq_false_2 (wf_benchmark_id r = _)) by tauto. apply andb_false_r.
    + rewrite (bool_decide_eq_false_2 (wf_network r = _)) by done. by rewrite andb_false_r.
Qed.

(** A confirmed precommit is applied exactly when it can be: the workflow
    exists at the presented revision and still awaits its precommit, the
    evidence is well formed, the benchmark belongs to no other workflow of the
    network, and the revision can advance. *)
Theorem confirm_precommit_exactly n id rev ev db :
  workflows_ok (db_workflow db) ->
  is_Ok (confirm_precommit n id rev ev db) = true <->
  exists w, db_workflow db !! (n, id) = Some w /\ wf_revision w = rev /\ rev + 1 <= i32_max /\
    may_confirm n id w ev db.
Proof.
  intros Hok. split.
  - destruct (confirm_precommit n id rev ev db) as [[w' db']|] eqn:Hrun; [|done]. intros _.
    pose proof (run_op_effect n id rev (OpConfirmPrecommit ev) db w' db' Hrun)
      as (w & Hw & Hr & He & _ & _ & Hi & -> & _ & Hc & Hbt & _).
    exists w. split_and!; try done.
    unfold workflow_checks in Hc. rewrite !Forall_cons in Hc. simpl in Hc.
    destruct Hc as (_ & Hb & _ & Hn & _). split_and!.
    + by inversion He.
    + by apply Z.leb_le.
    + intros k Hk. rewrite Hk in Hn. by apply Z.ltb_lt.
    + intros k r Hk Hnet Hrb. rewrite <- (ok_key _ _ (proj1 Hok _ _ Hk)).
      rewrite <- (ok_key _ _ (proj1 Hok _ _ Hw)).
      assert (Hnw : wf_network w = n) by (apply (f_equal fst (ok_key _ _ (proj1 Hok _ _ Hw)))).
      refine (benchmark_taken_false _ _ (cp_benchmark_id ev) Hbt _ k r Hk _ Hrb); [done|]. simpl. congruence.
  - intros (w & Hw & Hr & Hi & Hin & Hb & Hn & Hfree). pose proof (proj1 Hok _ _ Hw) as Hwok.
    destruct (confirm_precommit_checks n id w ev Hwok Hin Hb Hn) as [Htr Hc].
    set (w' := set_columns PrecommitConfirmed (op_fields (OpConfirmPrecommit ev)) w) in *.
    assert (exists d, confirm_precommit n id rev ev db = Ok (w', d)) as [d ->]; [|done]. eexists.
    apply transition_guarded_Ok. exists w, (op_fields (OpConfirmPrecommit ev)). split_and!; try done.
    + rewrite (proj2 (expect_state_Ok n id w _ PrecommitConfirmed)); [done|]. split; [|done].
      rewrite !elem_of_cons, elem_of_nil in Hin. by destruct Hin as [->|[->|]].
    + apply update_workflow_Ok. split; [exact Htr|]. apply put_workflow_Ok. split_and!; [done| |done].
      apply (benchmark_untaken w' db (cp_benchmark_id ev)); [by apply Hok|done|].
      change (wf_network w') with (fst (wkey w)). change (wkey w') with (wkey w). by rewrite (ok_key _ _ Hwok).
Qed.
Example confirm_precommit_exactly_witness :
  is_Ok (confirm_precommit Testnet "w1" 2 sample_precommit sample_db) = true.
Proof.
  apply (confirm_precommit_exactly Testnet "w1" 2 sample_precommit sample_db sample_db_ok).
  eexists. split; [vm_compute; reflexivity|]. split_and!; [done|done|]. split_and!; simpl; [|done| |].
  - right. by left.
  - intros k [= <-]. done.
  - intros k r [<- <-]%lookup_singleton_Some _ _. done.
Defined.

(** The height [expire_if_due] ages a workflow from. *)
Definition age_basis (n : Network) (id : string) (w : Workflow) (db_anchor : Db) : Z :=
  match wf_block_started w with
  | Some started => started
  | None => default (wf_unverified_from_block w) (latest_decision_anchor n id db_anchor)
  end.
Definition is_due (g : Guardrails) (n : Network) (id : string) (w : Workflow) (now_block : Z) (db_anchor : Db) : Prop :=
  is_unfinished_local_work (wf_state w) = true /\
  rem_standing (standing g (age_basis n id w db_anchor) now_block) = Expired_.

Lemma expiry_reasons_name_no_member : 
  reject_member_fault EXPIRY_REASON_UNCONFIRMED = Ok tt /\ reject_member_fault EXPIRY_REASON_NO_PRECOMMIT = Ok tt.
Proof. split; vm_compute; reflexivity. Qed.

(** The deadline sweep never overrules an unsettled write or newer state, even
    when other transactions run between its reads and its update: it ends a
    workflow only if the row it read was unfinished and past the expiry age,
    the row is still at that revision when the update runs, and no write of
    the workflow is unsettled in that same database.  The ended workflow is
    [Expired], its interval closed no later than the sweep's height. *)
Theorem expire_if_due_safe g n id now_block db_read db_anchor db w' db' :
  expire_if_due g n id now_block db_read db_anchor db = Ok (Some w', db') ->
  exists r w, db_workflow db_read !! (n, id) = Some r /\ is_due g n id r now_block db_anchor /\
    db_workflow db !! (n, id) = Some w /\ wf_revision w = wf_revision r /\
    unsettled_write_exists n id db = false /\ is_terminal (wf_state w) = false /\
    wf_state w' = Expired /\ wf_unverified_to_block w' = coalesce (wf_unverified_to_block w) (Some now_block) /\
    db' = with_workflow (<[wkey w := w']> (db_workflow db)) db.
Proof.
  unfold expire_if_due. rewrite find_spec. destruct (db_workflow db_read !! (n, id)) as [r|]; [|done].
  destruct (is_unfinished_local_work (wf_state r)) eqn:Hu; simpl; [|done].
  case_bool_decide as Hexp; simpl; [|done].
  set (reason := match wf_confirmed_track_id r with Some _ => _ | None => _ end).
  destruct (expire_unless_a_write_is_in_flight _ _ _ _ _ _) as [[w1 d1]|e] eqn:Hrun; [|by destruct e].
  intros [= <- <-].
  destruct (run_op_effect n id (wf_revision r) (OpExpire reason now_block true) db w1 d1 Hrun)
    as (w & Hw & Hr & He%edge_not_terminal & _ & Hg & _ & -> & _ & _ & _ & ->).
  exists r, w. split_and!; try done. by apply Hg.
Qed.
Definition lenient : Guardrails := MkGuardrails 60 110 120 10.
Example expire_if_due_safe_witness :
  exists w' db', expire_if_due lenient Testnet "w1" 230 sample_db sample_db sample_db = Ok (Some w', db') /\
    unsettled_write_exists Testnet "w1" sample_db = false /\ wf_state w' = Expired.
Proof.
  do 2 eexists. split; [vm_compute; reflexivity|].
  edestruct (expire_if_due_safe lenient Testnet "w1" 230 sample_db sample_db sample_db)
    as (r & w & _ & _ & _ & _ & Hu & _ & Hs & _); [vm_compute; reflexivity|]. split; [exact Hu|exact Hs].
Defined.

(** Every operation but the precommit's confirmation writes a row the schema
    accepts, as soon as it may move and closes the interval no earlier than it
    opened. *)
Lemma set_columns_checks k w op :
  workflow_ok k w -> edge (wf_state w) (op_target op) -> (forall ev, op <> OpConfirmPrecommit ev) ->
  (forall b, op_benchmark op = Some b -> wf_benchmark_id w = Some b) ->
  (forall t, op_closes op = Some t -> wf_unverified_from_block w <= t) ->
  let w' := set_columns (op_target op) (op_fields op) w in
  workflow_trigger w w' = None /\ Forall (fun c => c.2 = true) (workflow_checks w').
Proof.
  intros [Hk Hc Hint Hconf Hst Hun Hnn Hrev] He Hop Hb Hto. simpl.
  assert (Hnt := edge_not_terminal _ _ He).
  unfold workflow_checks in Hc. rewrite !Forall_cons in Hc. simpl in Hc.
  destruct Hc as (Hbm & Hbs & Hboot & Hnum & Htog & Hmem & Hpool & Hrv & Hreason & Hfrom & Hord & _).
  rewrite Hnt, orb_false_r in Hreason.
  assert (Hf : f_benchmark_id (op_fields op) = None /\ f_block_started (op_fields op) = None /\
    f_confirmed_num_nonces (op_fields op) = None /\ f_confirmed (op_fields op) = None /\
    f_unverified_to_block (op_fields op) = op_closes op /\
    (f_terminal_reason (op_fields op) = None \/ is_terminal (op_target op) = true)).
  { destruct op as [[]|ev|ev|ev|b t|ev|r t|r t g]; try (by destruct (Hop ev)); simpl; split_and!; try done; try (by left); try (by right).
    destruct (cb_stopped ev); [by right|by left]. }
  destruct Hf as (F1 & F2 & F3 & F4 & F5 & F6).
  split.
  - unfold workflow_trigger. apply first_violation_None. rewrite !Forall_cons. simpl. rewrite F1, F2, F3, F4. simpl.
    unfold changed. rewrite !(bool_decide_eq_true_2 (_ = _)) by done. simpl. rewrite !andb_false_r. simpl.
    split_and!; try done; [by apply bool_decide_eq_true| |apply Z.ltb_lt; lia].
    destruct (wf_confirmed_track_id w), (wf_block_started w), (wf_benchmark_id w); simpl in *; done.
  - unfold workflow_checks. rewrite !Forall_cons. simpl. rewrite F1, F2, F3, F4, F5. simpl.
    split_and!; try done; [|apply Z.leb_le; lia| |].
    + assert (Hbk : forall s, s ∈ [PrecommitConfirmed; BenchmarkSubmitted; BenchmarkConfirmed; ProofSubmitted; ProofConfirmed] ->
        wf_state w = s -> negb (is_none (wf_benchmark_id w)) = true).
      { intros s Hs E. rewrite E in Hbm. rewrite !elem_of_cons, elem_of_nil in Hs. by destruct Hs as [->|[->|[->|[->|[->|]]]]]. }
      clear -He Hb Hbk Hop. destruct op as [[]|ev|ev|ev|b t|ev|r t|r t g]; simpl in *; try done.
      * inversion He; subst; eapply (Hbk (wf_state w)); [|done]; set_solver.
      * inversion He; subst; eapply (Hbk (wf_state w)); [|done]; set_solver.
      * by destruct (Hop ev).
      * rewrite (Hb (cb_benchmark_id ev)) by done. by destruct (cb_stopped ev).
      * by rewrite (Hb (cpr_benchmark_id ev)).
      * by rewrite (Hb b).
      * by rewrite (Hb (cf_benchmark_id ev)).
    + destruct F6 as [F6|F6]; rewrite F6; [|by rewrite orb_true_r]. simpl. by rewrite Hreason.
    + destruct (wf_unverified_to_block w); simpl in *; [done|]. destruct (op_closes op) as [t|]; simpl; [|done].
      apply Z.leb_le. by apply Hto.
Qed.

(** Progress of every operation but the precommit's confirmation: it succeeds
    at the row's revision as soon as its edge, its evidence, its reason and its
    guard allow it. *)
Lemma run_op_progress n id op db w :
  workflows_ok (db_workflow db) -> db_workflow db !! (n, id) = Some w ->
  edge (wf_state w) (op_target op) -> (forall ev, op <> OpConfirmPrecommit ev) ->
  (forall b, op_benchmark op = Some b -> wf_benchmark_id w = Some b) ->
  (forall t, op_closes op = Some t -> wf_unverified_from_block w <= t) ->
  (forall r t, op = OpFail r t \/ (exists g, op = OpExpire r t g) -> reject_member_fault r = Ok tt) ->
  (op_guarded op = true -> unsettled_write_exists n id db = false) -> wf_revision w < i32_max ->
  run_op n id (wf_revision w) op db =
    Ok (set_columns (op_target op) (op_fields op) w,
        with_workflow (<[wkey w := set_columns (op_target op) (op_fields op) w]> (db_workflow db)) db).
Proof.
  intros Hok Hw He Hop Hb Hto Hrej Hg Hrev. pose proof (proj1 Hok _ _ Hw) as Hwok.
  assert (Hnt := edge_not_terminal _ _ He).
  destruct (set_columns_checks _ w op Hwok He Hop Hb Hto) as [Htr Hc].
  set (w' := set_columns (op_target op) (op_fields op) w) in *.
  assert (Hb' : wf_benchmark_id w' = wf_benchmark_id w).
  { destruct op as [[]|ev|ev|ev|b t|ev|r t|r t g]; try done. by destruct (Hop ev). }
  assert (Hup : update_workflow w w' db = Ok (with_workflow (<[wkey w := w']> (db_workflow db)) db)).
  { apply update_workflow_Ok. split; [done|]. apply put_workflow_Ok. split_and!; [done| |done].
    destruct (wf_benchmark_id w) as [b|] eqn:Ewb; [|unfold benchmark_taken; by rewrite Hb'].
    apply (benchmark_untaken _ db b); [by apply Hok|done|].
    intros k r Hkr Hn Hrb. change (k = wkey w). rewrite (ok_key _ _ Hwok). by eapply (proj2 Hok). }
  destruct op as [which|ev|ev|ev|b t|ev|r t|r t g]; simpl;
    unfold record_submitted, confirm_benchmark, confirm_proof, confirm_verified, confirm_fraud, fail, expire_inner, transition;
    try (by destruct (Hop ev)); try (rewrite (Hrej r t) by eauto); try (destruct which; simpl in *);
    apply transition_guarded_Ok; exists w; eexists; split_and!; try done; try lia; simpl in *;
    rewrite ?(proj2 (expect_benchmark_Ok n id w _)) by (by apply Hb);
    try (rewrite (proj2 (expect_state_Ok n id w _ _)); [reflexivity|split; [done|]]);
    unfold end_with; rewrite ?Hnt; try done.
  all: try (inversion He; subst; rewrite bool_decide_eq_false_2 by naive_solver; reflexivity).
  all: try (destruct (cb_stopped ev)); inversion He; subst; done || set_solver.
Qed.

(** And it is live: with no transaction in between, a workflow that is due and
    has no unsettled write is ended, whatever state of unfinished work it is
    in; with an unsettled write it is left for the next sweep. *)
Theorem expire_if_due_live g n id now_block db w :
  workflows_ok (db_workflow db) -> db_workflow db !! (n, id) = Some w ->
  is_due g n id w now_block db -> wf_revision w < i32_max -> wf_unverified_from_block w <= now_block ->
  if unsettled_write_exists n id db
  then expire_if_due g n id now_block db db db = Ok (None, db)
  else exists w' db', expire_if_due g n id now_block db db db = Ok (Some w', db') /\
         wf_state w' = Expired /\ wf_unverified_to_block w' = Some now_block.
Proof.
  intros Hok Hw [Hu Hexp] Hrev Hto. pose proof (proj1 Hok _ _ Hw) as Hwok.
  assert (Hs : is_terminal (wf_state w) = false) by (by destruct (wf_state w)).
  assert (Hopen : wf_unverified_to_block w = None).
  { pose proof (ok_interval _ _ Hwok) as Hi. destruct (wf_unverified_to_block w); [|done].
    simpl in Hi. by destruct (wf_state w). }
  unfold expire_if_due. rewrite find_spec, Hw, Hu. fold (age_basis n id w db).
  rewrite (bool_decide_eq_true_2 _ Hexp). simpl.
  set (reason := match wf_confirmed_track_id w with Some _ => _ | None => _ end).
  assert (Hrej : reject_member_fault reason = Ok tt).
  { destruct expiry_reasons_name_no_member. subst reason. by destruct (wf_confirmed_track_id w). }
  unfold expire_unless_a_write_is_in_flight.
  destruct (unsettled_write_exists n id db) eqn:Huns.
  - unfold expire_inner. rewrite Hrej. unfold transition_guarded. rewrite Hw, read_row, Z.eqb_refl. simpl.
    unfold end_with. by rewrite Hs, Huns.
  - assert (Hrun := run_op_progress n id (OpExpire reason now_block true) db w Hok Hw). simpl in Hrun.
    rewrite Hrun; try done.
    + do 2 eexists. split; [reflexivity|]. split; [done|]. simpl. by rewrite Hopen.
    + by constructor.
    + by intros t [= <-].
    + intros r t [E|[g' E]]; [done|]. by injection E as <- <- <-.
Qed.
Example expire_if_due_live_witness :
  exists w' db', expire_if_due lenient Testnet "w1" 230 sample_db sample_db sample_db = Ok (Some w', db') /\
    wf_state w' = Expired /\ wf_unverified_to_block w' = Some 230.
Proof.
  refine (expire_if_due_live lenient Testnet "w1" 230 sample_db _ sample_db_ok _ _ _ _).
  - vm_compute. reflexivity.
  - split; vm_compute; reflexivity.
  - vm_compute. reflexivity.
  - simpl. lia.
Defined.
