(* ===== verification/Intent.v ===== *)
(** * Write intents: [crates/pool-workflow/src/intent.rs]

    The record that a TIG write was decided on: its creation with the schema's
    preconditions (migrations 0003, 0011, 0015, 0017), the idempotent retry,
    and its settlement. *)
From S2P Require Import Prelude BTreeMap Json Domain Store.
Open Scope Z_scope.

Definition is_benchmark_bound (k : WriteKind) : bool :=
  match k with Precommit => false | Benchmark | Proof_ => true end.

Record NewIntent := MkNewIntent {
  ni_network : Network;
  ni_workflow_id : string;
  ni_write_kind : WriteKind;
  ni_generation : Z;
  ni_benchmark_id : option string;
  ni_payload_digest : Bytes;
  ni_payload_artifact_id : option string;
  ni_trace_id : option TraceId;
}.

Inductive IntentError :=
| InUnavailable (e : DbError)
| InVanished
| PayloadConflict (network : Network) (workflow_id write_kind : string) (generation : Z)
| BenchmarkBinding (write_kind requirement : string)
| InCorrupt (intent_id : Uuid) (reason : string)
| InNotFound (intent_id : Uuid)
| AlreadySettled (intent_id : Uuid) (recorded asked : string).

Inductive SettledOutcome := SettledConfirmed (benchmark_id : string) | SettledRejected.
Definition as_state (o : SettledOutcome) : IntentState :=
  match o with SettledConfirmed _ => Confirmed | SettledRejected => Rejected end.

(** ** The table's rules *)

(** The columns as they are read, and [row_to_intent]. *)
Record IntentColumns := MkIntentColumns {
  ic_network : string; ic_write_kind : string; ic_state : string; ic_trace_id : option string;
  ic_rest : WriteIntent }.
Definition intent_columns (i : WriteIntent) : IntentColumns :=
  MkIntentColumns (Network_as_str (in_network i)) (WriteKind_as_str (in_write_kind i))
    (IntentState_as_str (in_state i)) (TraceId_to_hex <$> in_trace_id i) i.

Definition row_to_intent (row : IntentColumns) : result IntentError WriteIntent :=
  let r := ic_rest row in
  let corrupt reason := InCorrupt (in_intent_id r) reason in
  let? network := map_err (fun _ => corrupt "unknown network") (Network_from_str (ic_network row)) in
  let? write_kind := ok_or (WriteKind_parse (ic_write_kind row)) (corrupt "unknown kind") in
  let? state := ok_or (IntentState_parse (ic_state row)) (corrupt "unknown state") in
  let? trace_id := match ic_trace_id row with
                   | None => Ok None
                   | Some t => let? id := map_err (fun _ => corrupt "stored trace_id does not parse")
                                           (TraceId_from_str t) in Ok (Some id)
                   end in
  if negb (length (in_payload_digest r) =? 32)%nat then Err (corrupt "digest is not 32 bytes")
  else Ok {| in_intent_id := in_intent_id r; in_network := network; in_workflow_id := in_workflow_id r;
             in_write_kind := write_kind; in_generation := in_generation r;
             in_benchmark_id := in_benchmark_id r; in_payload_digest := in_payload_digest r;
             in_payload_artifact_id := in_payload_artifact_id r; in_trace_id := trace_id;
             in_state := state; in_created_at := in_created_at r |}.

(** The [CHECK]s of migrations 0003 and 0017. *)
Definition intent_checks (i : WriteIntent) : list (string * bool) :=
  [("tig_write_intent_benchmark_binding",
      Bool.eqb (is_benchmark_bound (in_write_kind i)) (negb (is_none (in_benchmark_id i))));
   ("tig_write_intent_digest_is_sha256", (length (in_payload_digest i) =? 32)%nat);
   ("tig_write_intent_generation_positive", 1 <=? in_generation i);
   ("tig_write_intent_trace_id_w3c",
      opt_all (fun t => is_Ok (TraceId_from_str (TraceId_to_hex t))) (in_trace_id i))].

Definition has_acceptance (n : Network) (workflow_id benchmark_id : string) (db : Db) : bool :=
  negb (is_none (db_acceptance db !! (n, workflow_id, benchmark_id))).
Definition has_commitment (n : Network) (artifact workflow_id benchmark_id : string) (digest : Bytes) (db : Db) : bool :=
  match db_commitment db !! (n, artifact) with
  | Some c => bool_decide (mr_workflow_id c = workflow_id) && bool_decide (mr_benchmark_id c = benchmark_id) &&
              bool_decide (mr_payload_digest c = digest)
  | None => false
  end.
Definition has_canonical (n : Network) (artifact workflow_id benchmark_id : string) (digest : Bytes) (db : Db) : bool :=
  match db_canonical db !! (n, artifact) with
  | Some p => bool_decide (cr_workflow_id p = workflow_id) && bool_decide (cr_benchmark_id p = benchmark_id) &&
              bool_decide (cr_payload_digest p = digest)
  | None => false
  end.

(** [tig_write_intent_preconditions_hold], as migration 0015 leaves it. *)
Definition intent_preconditions (i : WriteIntent) (db : Db) : option string :=
  let b := default "" (in_benchmark_id i) in
  match in_write_kind i with
  | Precommit => None
  | Benchmark =>
      if negb (negb (is_none (in_benchmark_id i)) && has_acceptance (in_network i) (in_workflow_id i) b db)
      then Some "no durable package acceptance"
      else match in_payload_artifact_id i with
           | None => Some "a benchmark commitment names no built payload"
           | Some a => if has_commitment (in_network i) a (in_workflow_id i) b (in_payload_digest i) db
                       then None else Some "no commitment payload with this digest"
           end
  | Proof_ =>
      match in_payload_artifact_id i with
      | None => Some "a proof write names no canonical payload"
      | Some a => if negb (is_none (in_benchmark_id i)) &&
                     has_canonical (in_network i) a (in_workflow_id i) b (in_payload_digest i) db
                  then None else Some "no canonical payload with this digest"
      end
  end.

(** The key of [tig_write_intent_unique_generation]. *)
Definition same_generation (n : Network) (workflow_id : string) (k : WriteKind) (generation : Z) (i : WriteIntent) : bool :=
  bool_decide (in_network i = n) && bool_decide (in_workflow_id i = workflow_id) &&
  bool_decide (in_write_kind i = k) && bool_decide (in_generation i = generation).
Definition generation_taken (i : WriteIntent) (db : Db) : bool :=
  exists_row (same_generation (in_network i) (in_workflow_id i) (in_write_kind i) (in_generation i)) (db_intent db).

(** The parts of an [INSERT] before any unique index is consulted: the trigger,
    then the checks. *)
Definition intent_admissible (i : WriteIntent) (db : Db) : option DbError :=
  match intent_preconditions i db with
  | Some what => Some (RaiseException what)
  | None => CheckViolation <$> first_violation (intent_checks i)
  end.

(** The parts after the generation index admitted the row: the primary key,
    the foreign key, and the row itself. *)
Definition store_intent (i : WriteIntent) (db : Db) : result DbError Db :=
  match db_intent db !! in_intent_id i with
  | Some _ => Err (UniqueViolation "tig_write_intent_pkey")
  | None =>
      match db_workflow db !! (in_network i, in_workflow_id i) with
      | None => Err (ForeignKeyViolation "tig_write_intent_has_a_workflow")
      | Some _ => Ok (with_intent (<[in_intent_id i := i]> (db_intent db)) db)
      end
  end.

(** [INSERT ... ON CONFLICT (network, workflow_id, write_kind, generation) DO
    NOTHING]: [None] when the key is taken. *)
Definition insert_intent_or_skip (i : WriteIntent) (db : Db) : result DbError (option Db) :=
  match intent_admissible i db with
  | Some e => Err e
  | None => if generation_taken i db then Ok None
            else let? db' := store_intent i db in Ok (Some db')
  end.
(** A plain [INSERT]. *)
Definition insert_intent (i : WriteIntent) (db : Db) : result DbError Db :=
  match intent_admissible i db with
  | Some e => Err e
  | None =>
      match db_intent db !! in_intent_id i with
      | Some _ => Err (UniqueViolation "tig_write_intent_pkey")
      | None => if generation_taken i db then Err (UniqueViolation "tig_write_intent_unique_generation")
                else store_intent i db
      end
  end.

(** The database role a statement runs under. *)
Inductive Role := RoleController | RoleGateway.
#[export] Instance Role_eq_dec : EqDecision Role.
Proof. solve_decision. Defined.

Definition intent_terminal (s : IntentState) : bool := match s with Confirmed | Rejected => true | _ => false end.

(** [UPDATE ... SET state = to] on one row, under the trigger of migration
    0003. *)
Definition set_state (to : IntentState) (i : WriteIntent) : WriteIntent :=
  MkIntent (in_intent_id i) (in_network i) (in_workflow_id i) (in_write_kind i) (in_generation i)
    (in_benchmark_id i) (in_payload_digest i) (in_payload_artifact_id i) (in_trace_id i) to (in_created_at i).
Definition update_intent (role : Role) (to : IntentState) (i : WriteIntent) (db : Db) : result DbError Db :=
  let moves := negb (bool_decide (to = in_state i)) in
  if intent_terminal (in_state i) && moves then Err (RaiseException "terminal")
  else if bool_decide (to = Prepared) && moves then Err (RaiseException "cannot return to PREPARED")
  else if bool_decide (role = RoleGateway) && moves &&
          negb (bool_decide (in_state i = Prepared) && bool_decide (to = OutcomeUnknown))
  then Err (RaiseException "the gateway may only record PREPARED to OUTCOME_UNKNOWN")
  else Ok (with_intent (<[in_intent_id i := set_state to i]> (db_intent db)) db).

(** ** Operations *)

Definition find_intent (n : Network) (workflow_id : string) (k : WriteKind) (generation : Z) (db : Db)
  : result IntentError (option WriteIntent) :=
  match head (filter (fun i => same_generation n workflow_id k generation i = true) (rows (db_intent db))) with
  | None => Ok None
  | Some i => let? i' := row_to_intent (intent_columns i) in Ok (Some i')
  end.

Definition find_by_id (intent_id : Uuid) (db : Db) : result IntentError (option WriteIntent) :=
  match db_intent db !! intent_id with
  | None => Ok None
  | Some i => let? i' := row_to_intent (intent_columns i) in Ok (Some i')
  end.

(** The row a [NewIntent] inserts. *)
Definition intent_of (fresh : Uuid) (now : Z) (new : NewIntent) : WriteIntent :=
  MkIntent fresh (ni_network new) (ni_workflow_id new) (ni_write_kind new) (ni_generation new)
    (ni_benchmark_id new) (ni_payload_digest new) (ni_payload_artifact_id new) (ni_trace_id new) Prepared now.

(** The insert, and the comparison with the recorded intent when the key was
    already taken. *)
Definition record_intent (fresh : Uuid) (now : Z) (new : NewIntent) (db : Db)
  : result IntentError (WriteIntent * Db) :=
  let? inserted := map_err InUnavailable (insert_intent_or_skip (intent_of fresh now new) db) in
  match inserted with
  | Some db' => let? i := row_to_intent (intent_columns (intent_of fresh now new)) in Ok (i, db')
  | None =>
      let? found := find_intent (ni_network new) (ni_workflow_id new) (ni_write_kind new) (ni_generation new) db in
      let? existing := ok_or found InVanished in
      if negb (bool_decide (in_payload_digest existing = ni_payload_digest new)) ||
         negb (bool_decide (in_benchmark_id existing = ni_benchmark_id new)) ||
         negb (bool_decide (in_payload_artifact_id existing = ni_payload_artifact_id new))
      then Err (PayloadConflict (ni_network new) (ni_workflow_id new) (WriteKind_as_str (ni_write_kind new))
                  (ni_generation new))
      else Ok (existing, db)
  end.

Definition create_intent (fresh : Uuid) (now : Z) (new : NewIntent) (db : Db)
  : result IntentError (WriteIntent * Db) :=
  match is_benchmark_bound (ni_write_kind new), ni_benchmark_id new with
  | true, None => Err (BenchmarkBinding (WriteKind_as_str (ni_write_kind new))
                         "must name the TIG benchmark_id their generation is bound to")
  | false, Some _ => Err (BenchmarkBinding (WriteKind_as_str (ni_write_kind new))
                            "have no benchmark to bind to and must not name one")
  | _, _ => record_intent fresh now new db
  end.

(** [ORDER BY created_at, intent_id]. *)
Definition claim_le (a b : WriteIntent) : bool :=
  match Z.compare (in_created_at a) (in_created_at b) with
  | Lt => true | Gt => false | Eq => N.leb (in_intent_id a) (in_intent_id b)
  end.
Definition claimable (n : Network) (k : WriteKind) (db : Db) : result IntentError (list WriteIntent) :=
  mapM_res (fun i => row_to_intent (intent_columns i))
    (sort_by claim_le (filter (fun i => in_network i = n /\ in_write_kind i = k /\
       in_state i ∈ [Prepared; OutcomeUnknown]) (rows (db_intent db)))).

(** [settle]; the controller's statement. *)
Definition settle (role : Role) (intent_id : Uuid) (outcome : SettledOutcome) (db : Db)
  : result IntentError (WriteIntent * Db) :=
  match db_intent db !! intent_id with
  | None => Err (InNotFound intent_id)
  | Some i =>
      if negb (intent_terminal (in_state i)) then
        let? db' := map_err InUnavailable (update_intent role (as_state outcome) i db) in
        let? i' := row_to_intent (intent_columns (set_state (as_state outcome) i)) in
        Ok (i', db')
      else if bool_decide (in_state i = as_state outcome) then
        let? i' := row_to_intent (intent_columns i) in Ok (i', db)
      else Err (AlreadySettled intent_id (IntentState_as_str (in_state i)) (IntentState_as_str (as_state outcome)))
  end.

Record PrecommitSiblings := MkSiblings { newest_generation : Z; sibling_transmitted : bool }.

Definition precommit_siblings (intent : WriteIntent) (db : Db) : PrecommitSiblings :=
  let siblings := filter (fun i => in_network i = in_network intent /\
      in_workflow_id i = in_workflow_id intent /\ in_write_kind i = Precommit) (rows (db_intent db)) in
  {| newest_generation := default (in_generation intent) (max_list (map in_generation siblings));
     sibling_transmitted := existsb (fun i => intent_has_transmitted_attempt (in_intent_id i) db &&
         negb (bool_decide (in_intent_id i = in_intent_id intent))) siblings |}.

(** ** The invariant of [pool.tig_write_intent] *)

Record intent_ok (id : Uuid) (i : WriteIntent) : Prop := {
  iok_key : in_intent_id i = id;
  iok_checks : Forall (fun c => c.2 = true) (intent_checks i);
  iok_trace : forall t, in_trace_id i = Some t -> trace_ok t;
}.
Definition gen_key (i : WriteIntent) : Network * string * WriteKind * Z :=
  (in_network i, in_workflow_id i, in_write_kind i, in_generation i).
Definition intents_ok (t : gmap Uuid WriteIntent) : Prop :=
  map_Forall intent_ok t /\
  forall k1 k2 i1 i2, t !! k1 = Some i1 -> t !! k2 = Some i2 -> gen_key i1 = gen_key i2 -> k1 = k2.

Lemma intents_ok_empty : intents_ok ∅.
Proof. split; [by apply map_Forall_empty|]. intros k1 k2 i1 i2 H. by rewrite lookup_empty in H. Qed.

(** ** Lemmas *)

Lemma same_generation_true n w k g i :
  same_generation n w k g i = true <-> gen_key i = (n, w, k, g).
Proof.
  unfold same_generation, gen_key. rewrite !andb_true_iff, !bool_decide_eq_true. split.
  - by intros [[[-> ->] ->] ->].
  - by intros [= -> -> -> ->].
Qed.
Lemma generation_taken_false i db :
  generation_taken i db = false <-> forall k j, db_intent db !! k = Some j -> gen_key j <> gen_key i.
Proof.
  unfold generation_taken. rewrite exists_row_false. split; intros H k j Hk; specialize (H k j Hk).
  - intros E. apply not_true_iff_false in H. apply H. by apply same_generation_true.
  - apply not_true_iff_false. intros E%same_generation_true. by apply H.
Qed.

Lemma read_intent id i : intent_ok id i -> row_to_intent (intent_columns i) = Ok i.
Proof.
  intros [Hk Hc Ht]. unfold row_to_intent, intent_columns. simpl. autorewrite with codec. simpl.
  unfold intent_checks in Hc. rewrite !Forall_cons in Hc. destruct Hc as (_ & Hd & _). simpl in Hd. rewrite Hd.
  destruct i as [? ? ? ? ? ? ? ? [t|] ? ?]; simpl in *; [|done].
  by rewrite TraceId_hex_parses by (by apply Ht).
Qed.

Lemma find_intent_found db id i :
  intents_ok (db_intent db) -> db_intent db !! id = Some i ->
  find_intent (in_network i) (in_workflow_id i) (in_write_kind i) (in_generation i) db = Ok (Some i).
Proof.
  intros [Hall Huniq] Hi. unfold find_intent.
  set (l := filter _ _).
  assert (Hl : forall j, j ∈ l -> j = i).
  { intros j. unfold l. rewrite list_elem_of_filter. intros [Hg%same_generation_true [k Hk]%elem_of_rows].
    assert (k = id) as -> by (by eapply Huniq). congruence. }
  assert (Hin : i ∈ l).
  { unfold l. rewrite list_elem_of_filter, elem_of_rows. split; [by apply same_generation_true|eauto]. }
  destruct l as [|j l']; [by apply not_elem_of_nil in Hin|]. simpl.
  rewrite (Hl j) by (by left). by rewrite (read_intent _ _ (Hall _ _ Hi)).
Qed.

Lemma store_intent_Ok i db db' :
  store_intent i db = Ok db' <->
  db_intent db !! in_intent_id i = None /\ is_Some (db_workflow db !! (in_network i, in_workflow_id i)) /\
  db' = with_intent (<[in_intent_id i := i]> (db_intent db)) db.
Proof.
  unfold store_intent. destruct (db_intent db !! _); [naive_solver|].
  destruct (db_workflow db !! _) as [w|] eqn:Hw; [naive_solver|].
  split; [done|]. intros (_ & [w Hw'] & _). congruence.
Qed.

Lemma intents_ok_insert i db :
  intents_ok (db_intent db) -> intent_ok (in_intent_id i) i -> generation_taken i db = false ->
  intents_ok (<[in_intent_id i := i]> (db_intent db)).
Proof.
  intros [Hall Huniq] Hi Hg. rewrite generation_taken_false in Hg.
  split; [by apply map_Forall_insert_2|].
  intros k1 k2 i1 i2 [[<- <-]|[Hk1 H1]]%lookup_insert_Some [[<- <-]|[Hk2 H2]]%lookup_insert_Some E;
    [done| | |by eapply Huniq].
  - by destruct (Hg _ _ H2).
  - by destruct (Hg _ _ H1).
Qed.

Lemma intent_admissible_None i db :
  intent_admissible i db = None <->
  intent_preconditions i db = None /\ Forall (fun c => c.2 = true) (intent_checks i).
Proof.
  unfold intent_admissible. rewrite <- first_violation_None.
  destruct (intent_preconditions i db); [naive_solver|]. destruct (first_violation _); naive_solver.
Qed.

(** The two ways a plain or skipping insert stores a row. *)
Lemma insert_intent_or_skip_Some i db db' :
  insert_intent_or_skip i db = Ok (Some db') <->
  intent_admissible i db = None /\ generation_taken i db = false /\ store_intent i db = Ok db'.
Proof.
  unfold insert_intent_or_skip. destruct (intent_admissible i db); [naive_solver|].
  destruct (generation_taken i db); [naive_solver|]. destruct (store_intent i db); naive_solver.
Qed.
Lemma insert_intent_Ok i db db' :
  insert_intent i db = Ok db' <->
  intent_admissible i db = None /\ generation_taken i db = false /\ store_intent i db = Ok db'.
Proof.
  unfold insert_intent. destruct (intent_admissible i db); [naive_solver|].
  destruct (db_intent db !! in_intent_id i) as [j|] eqn:Hj.
  - split; [done|]. intros (_ & _ & (Hn & _)%store_intent_Ok). congruence.
  - destruct (generation_taken i db); naive_solver.
Qed.

Lemma stored_intent_ok i db db' :
  intents_ok (db_intent db) -> (forall t, in_trace_id i = Some t -> trace_ok t) ->
  intent_admissible i db = None -> generation_taken i db = false -> store_intent i db = Ok db' ->
  intent_ok (in_intent_id i) i /\ intents_ok (db_intent db') /\
  db' = with_intent (<[in_intent_id i := i]> (db_intent db)) db /\ db_intent db !! in_intent_id i = None /\
  is_Some (db_workflow db !! (in_network i, in_workflow_id i)).
Proof.
  intros Hok Ht [_ Hc]%intent_admissible_None Hg (Hn & Hw & ->)%store_intent_Ok.
  assert (Hi : intent_ok (in_intent_id i) i) by (by constructor).
  split_and!; try done. simpl. by apply intents_ok_insert.
Qed.

(** What [create_intent] does when it succeeds. *)
Lemma create_intent_effect fresh now new db i db' :
  intents_ok (db_intent db) -> (forall t, ni_trace_id new = Some t -> trace_ok t) ->
  create_intent fresh now new db = Ok (i, db') ->
  is_benchmark_bound (ni_write_kind new) = negb (is_none (ni_benchmark_id new)) /\
  intent_admissible (intent_of fresh now new) db = None /\ intents_ok (db_intent db') /\
  db_intent db' !! in_intent_id i = Some i /\
  gen_key i = (ni_network new, ni_workflow_id new, ni_write_kind new, ni_generation new) /\
  in_payload_digest i = ni_payload_digest new /\ in_benchmark_id i = ni_benchmark_id new /\
  in_payload_artifact_id i = ni_payload_artifact_id new /\
  ((i = intent_of fresh now new /\ generation_taken i db = false /\ store_intent i db = Ok db') \/ db' = db).
Proof.
  intros Hok Ht Hrun.
  assert (Hb : is_benchmark_bound (ni_write_kind new) = negb (is_none (ni_benchmark_id new)) /\
    record_intent fresh now new db = Ok (i, db')).
  { unfold create_intent in Hrun. by destruct (is_benchmark_bound _), (ni_benchmark_id new). }
  destruct Hb as [Hb Hrun']. split; [done|]. unfold record_intent in Hrun'.
  clear Hrun. destruct (insert_intent_or_skip _ db) as [[d|]|e] eqn:Hins; simpl in Hrun'; [| |done].
  - apply insert_intent_or_skip_Some in Hins as (Ha & Hg & Hst).
    destruct (stored_intent_ok (intent_of fresh now new) _ _ Hok Ht Ha Hg Hst) as (Hi & Hok' & -> & _).
    rewrite (read_intent _ _ Hi) in Hrun'. injection Hrun' as <- <-.
    split_and!; try done; [|by left]. simpl. by rewrite lookup_insert_eq.
  - unfold insert_intent_or_skip in Hins. destruct (intent_admissible _ db) eqn:Ha; [done|].
    destruct (generation_taken _ db) eqn:Hg; [|by destruct (store_intent _ db)].
    unfold generation_taken in Hg. apply exists_row_true in Hg as (k & j & Hk & Hj%same_generation_true). simpl in Hj.
    pose proof (find_intent_found db k j Hok Hk) as Hf. injection Hj as Hn Hw Hkd Hgn.
    rewrite Hn, Hw, Hkd, Hgn in Hf. rewrite Hf in Hrun'. simpl in Hrun'.
    destruct (_ || _) eqn:Hcmp; [done|]. injection Hrun' as <- <-.
    rewrite !orb_false_iff, !negb_false_iff, !bool_decide_eq_true in Hcmp. destruct Hcmp as [[? ?] ?].
    split_and!; try done; [|unfold gen_key; congruence|by right].
    pose proof (iok_key _ _ (proj1 Hok _ _ Hk)) as ->. done.
Qed.

Lemma trace_ok_checked (o : option TraceId) :
  (forall t, o = Some t -> trace_ok t) -> opt_all (fun t => is_Ok (TraceId_from_str (TraceId_to_hex t))) o = true.
Proof. destruct o as [t|]; [|done]. intros Ht. simpl. by rewrite TraceId_hex_parses by (by apply Ht). Qed.

(** The admission rules do not look at the id, the time or the trace of the
    row, nor at the intent table. *)
Lemma intent_admissible_retry i j t db :
  intent_admissible i db = None -> gen_key j = gen_key i -> in_benchmark_id j = in_benchmark_id i ->
  in_payload_digest j = in_payload_digest i -> in_payload_artifact_id j = in_payload_artifact_id i ->
  (forall t, in_trace_id j = Some t -> trace_ok t) ->
  intent_admissible j (with_intent t db) = None.
Proof.
  rewrite !intent_admissible_None. unfold gen_key, intent_preconditions, intent_checks, has_acceptance,
    has_commitment, has_canonical. intros [Hp Hc] [= En Ew Ek Eg] Eb Ed Ea Ht. simpl.
  rewrite En, Ew, Ek, Eg, Eb, Ed, Ea. split; [done|]. rewrite !Forall_cons in Hc |- *. simpl in *.
  destruct Hc as (H1 & H2 & H3 & _). split_and!; try done. by apply trace_ok_checked.
Qed.

(** A request that repeats another one up to its trace. *)
Definition same_request (a b : NewIntent) : Prop :=
  (ni_network a, ni_workflow_id a, ni_write_kind a, ni_generation a) =
  (ni_network b, ni_workflow_id b, ni_write_kind b, ni_generation b) /\
  ni_payload_digest a = ni_payload_digest b /\ ni_benchmark_id a = ni_benchmark_id b /\
  ni_payload_artifact_id a = ni_payload_artifact_id b.

Lemma record_intent_again fresh now new db i :
  intents_ok (db_intent db) -> db_intent db !! in_intent_id i = Some i ->
  gen_key i = (ni_network new, ni_workflow_id new, ni_write_kind new, ni_generation new) ->
  in_payload_digest i = ni_payload_digest new -> in_benchmark_id i = ni_benchmark_id new ->
  in_payload_artifact_id i = ni_payload_artifact_id new ->
  intent_admissible (intent_of fresh now new) db = None ->
  record_intent fresh now new db = Ok (i, db).
Proof.
  intros Hok Hi Hg Hd Hb Ha Hadm. unfold record_intent, insert_intent_or_skip. rewrite Hadm.
  assert (generation_taken (intent_of fresh now new) db = true) as ->.
  { unfold generation_taken. apply exists_row_true. exists (in_intent_id i), i. split; [done|].
    by apply same_generation_true. }
  simpl. injection Hg as Hn Hw Hk Hgn. rewrite <- Hn, <- Hw, <- Hk, <- Hgn.
  rewrite (find_intent_found db _ i Hok Hi). simpl.
  by rewrite (bool_decide_eq_true_2 _ Hd), (bool_decide_eq_true_2 _ Hb), (bool_decide_eq_true_2 _ Ha).
Qed.

(** ** Properties *)

(** Recording an intent is exactly-once per (network, workflow, kind,
    generation).  A successful call leaves a row carrying the caller's digest,
    benchmark and artifact; repeating it -- whatever the generated id, the
    clock or the trace -- returns that same row and changes nothing; and a
    request with the same key and another payload never succeeds. *)
Theorem create_intent_idempotent fresh now new db i db' :
  intents_ok (db_intent db) -> (forall t, ni_trace_id new = Some t -> trace_ok t) ->
  create_intent fresh now new db = Ok (i, db') ->
  db_intent db' !! in_intent_id i = Some i /\ in_payload_digest i = ni_payload_digest new /\
  in_benchmark_id i = ni_benchmark_id new /\ in_payload_artifact_id i = ni_payload_artifact_id new /\
  forall fresh' now' new', (forall t, ni_trace_id new' = Some t -> trace_ok t) ->
    (same_request new' new -> create_intent fresh' now' new' db' = Ok (i, db')) /\
    ((ni_network new', ni_workflow_id new', ni_write_kind new', ni_generation new') = gen_key i ->
     ~ same_request new' new -> forall j db2, create_intent fresh' now' new' db' <> Ok (j, db2)).
Proof.
  intros Hok Ht Hrun.
  destruct (create_intent_effect _ _ _ _ _ _ Hok Ht Hrun) as (Hbound & Hadm & Hok' & Hi & Hg & Hd & Hb & Ha & Hdb).
  split_and!; try done. intros fresh' now' new' Ht'. split.
  - intros (Hk & Ed & Eb & Ea). injection Hk as En Ew Ekd Eg. unfold create_intent. rewrite Ekd, Eb, Hbound.
    assert (Hr : record_intent fresh' now' new' db' = Ok (i, db')).
    { apply record_intent_again; try done; [rewrite Hg; congruence|congruence..|].
      assert (Hr : exists t, db' = with_intent t db).
      { destruct Hdb as [(_ & _ & (_ & _ & ->)%store_intent_Ok)| ->]; [by eexists|].
        exists (db_intent db). by destruct db. }
      destruct Hr as [t ->]. eapply intent_admissible_retry; [exact Hadm|..]; try done.
      unfold gen_key. simpl. congruence. }
    destruct (ni_benchmark_id new); simpl; exact Hr.
  - intros Hk Hne j db2 Hrun2.
    destruct (create_intent_effect _ _ _ _ _ _ Hok' Ht' Hrun2) as (_ & _ & Hok2 & Hj & Hgj & Hdj & Hbj & Haj & Hcase).
    apply Hne. assert (i = j) as <-; [|unfold same_request; split_and!; congruence].
    assert (Hij : gen_key j = gen_key i) by congruence.
    destruct Hcase as [(_ & Htaken & _)| ->].
    + rewrite generation_taken_false in Htaken. by destruct (Htaken _ _ Hi).
    + assert (in_intent_id i = in_intent_id j) as E; [|congruence]. by eapply (proj2 Hok').
Qed.
Definition digest_a : Bytes := replicate 32%nat 0%Z.
Definition sample_intent_db : Db :=
  with_workflow {[ (Testnet, "w1") := MkWorkflow "w1" Testnet Decided 1 PoolBootstrap POOL_BOOTSTRAP_OWNER
                     None 100 None None None None None None None ]} empty_db.
Definition sample_new : NewIntent := MkNewIntent Testnet "w1" Precommit 1 None digest_a None None.
Example create_intent_idempotent_witness :
  exists i db', create_intent 1%N 0 sample_new sample_intent_db = Ok (i, db') /\
    create_intent 2%N 9 sample_new db' = Ok (i, db').
Proof.
  do 2 eexists. split; [vm_compute; reflexivity|].
  eapply (create_intent_idempotent 1%N 0 sample_new sample_intent_db).
  - apply intents_ok_empty.
  - done.
  - vm_compute. reflexivity.
  - done.
  - by split_and!.
Defined.

(** A changed payload for a benchmark commitment is refused, but by the
    precondition trigger before the conflict is seen: with one commitment
    payload per benchmark, no second digest satisfies the trigger, so the
    refusal is an [Unavailable], never a [PayloadConflict]. *)
Theorem changed_commitment_is_unavailable fresh now new db a c :
  (forall a1 a2 c1 c2, db_commitment db !! (ni_network new, a1) = Some c1 ->
     db_commitment db !! (ni_network new, a2) = Some c2 ->
     mr_benchmark_id c1 = mr_benchmark_id c2 -> a1 = a2) ->
  ni_write_kind new = Benchmark -> ni_benchmark_id new = Some (mr_benchmark_id c) ->
  db_commitment db !! (ni_network new, a) = Some c -> ni_payload_digest new <> mr_payload_digest c ->
  exists what, create_intent fresh now new db = Err (InUnavailable (RaiseException what)).
Proof.
  intros Hone Hk Hb Hc Hd. unfold create_intent. rewrite Hk, Hb. simpl.
  unfold record_intent, insert_intent_or_skip, intent_admissible, intent_preconditions. simpl. rewrite Hk, Hb. simpl.
  destruct (has_acceptance _ _ _ db); simpl; [|by eexists].
  destruct (ni_payload_artifact_id new) as [a'|]; simpl; [|by eexists].
  destruct (has_commitment _ _ _ _ _ db) eqn:Hhas; simpl; [|by eexists]. exfalso.
  unfold has_commitment in Hhas. destruct (db_commitment db !! (ni_network new, a')) as [c'|] eqn:Hc'; [|done].
  rewrite !andb_true_iff, !bool_decide_eq_true in Hhas. destruct Hhas as [[_ Hbm] Hdg].
  assert (a' = a) as -> by (by eapply Hone). congruence.
Qed.
Example changed_commitment_is_unavailable_witness :
  let db := with_commitment {[ (Testnet, "a1") := MkCommitmentRow "w1" "b1" digest_a false ]}
              (with_acceptance {[ (Testnet, "w1", "b1") := MkAcceptanceRow digest_a false ]} sample_intent_db) in
  exists what, create_intent 5%N 0 (MkNewIntent Testnet "w1" Benchmark 1 (Some "b1") (replicate 32%nat 8%Z) (Some "a1") None) db
    = Err (InUnavailable (RaiseException what)).
Proof.
  intros db. refine (changed_commitment_is_unavailable 5%N 0 (MkNewIntent Testnet "w1" Benchmark 1 (Some "b1") (replicate 32%nat 8%Z) (Some "a1") None)
    db "a1" (MkCommitmentRow "w1" "b1" digest_a false) _ _ _ _ _); try reflexivity; [|vm_compute; discriminate].
  simpl. intros a1 a2 c1 c2 [[= <-] _]%lookup_singleton_Some [[= <-] _]%lookup_singleton_Some _. reflexivity.
Defined.

Lemma update_intent_Ok role to i db db' :
  update_intent role to i db = Ok db' <->
  (to = in_state i \/ intent_terminal (in_state i) = false /\ to <> Prepared /\
     (role = RoleGateway -> in_state i = Prepared /\ to = OutcomeUnknown)) /\
  db' = with_intent (<[in_intent_id i := set_state to i]> (db_intent db)) db.
Proof.
  unfold update_intent. destruct (decide (to = in_state i)) as [->|Hne].
  - rewrite (bool_decide_eq_true_2 (in_state i = in_state i)) by done. simpl. rewrite !andb_false_r. simpl. naive_solver.
  - rewrite (bool_decide_eq_false_2 _ Hne). simpl. rewrite !andb_true_r.
    destruct (intent_terminal (in_state i)) eqn:Ht; [split; [done|naive_solver]|].
    case_bool_decide as Hp; [split; [done|naive_solver]|].
    destruct (bool_decide (role = RoleGateway)) eqn:Hr; simpl.
    + apply bool_decide_eq_true in Hr. destruct (bool_decide (in_state i = Prepared)) eqn:E1;
        destruct (bool_decide (to = OutcomeUnknown)) eqn:E2; simpl;
        rewrite ?bool_decide_eq_true, ?bool_decide_eq_false in *; naive_solver.
    + apply bool_decide_eq_false in Hr. naive_solver.
Qed.

(** What settling an intent did. *)
Lemma settle_Ok role id outcome db i' db' :
  intents_ok (db_intent db) -> settle role id outcome db = Ok (i', db') ->
  exists i, db_intent db !! id = Some i /\ i' = set_state (as_state outcome) i /\
    db' = with_intent (<[id := i']> (db_intent db)) db /\
    (intent_terminal (in_state i) = false -> role = RoleController) /\
    (intent_terminal (in_state i) = true -> as_state outcome = in_state i).
Proof.
  intros Hok. unfold settle. destruct (db_intent db !! id) as [i|] eqn:Hi; [|done].
  pose proof (proj1 Hok _ _ Hi) as Hiok. destruct Hiok as [Hid Hc Ht]. intros Hrun. exists i.
  destruct (intent_terminal (in_state i)) eqn:Hst; simpl in Hrun.
  - case_bool_decide as He; [|done]. rewrite (read_intent id i) in Hrun by done. injection Hrun as <- <-.
    assert (i = set_state (as_state outcome) i) as E by (rewrite <- He; by destruct i).
    split_and!; try done. rewrite insert_id by done. by destruct db.
  - destruct (update_intent _ _ _ _) as [d|] eqn:Hup; [|done]. simpl in Hrun.
    rewrite (read_intent id (set_state (as_state outcome) i)) in Hrun by done.
    injection Hrun as <- <-. apply update_intent_Ok in Hup as [Hcase ->]. rewrite Hid. split_and!; try done.
    intros _. destruct Hcase as [E|(_ & _ & Hg)]; [by rewrite <- E in Hst; destruct outcome|].
    destruct role; [done|]. destruct (Hg eq_refl) as [_ E]. by destruct outcome.
Qed.

(** Settling is final and repeatable.  Once an intent is settled the row holds
    that outcome; settling it again the same way succeeds and changes nothing,
    the other way is reported as [AlreadySettled], by either role; and the
    gateway's role can never settle an open intent. *)
Theorem settle_is_final role id outcome db i' db' :
  intents_ok (db_intent db) -> settle role id outcome db = Ok (i', db') ->
  (exists i, db_intent db !! id = Some i /\ i' = set_state (as_state outcome) i /\
     db' = with_intent (<[id := i']> (db_intent db)) db /\
     (intent_terminal (in_state i) = false -> role = RoleController)) /\
  forall role' outcome', settle role' id outcome' db' =
    if bool_decide (as_state outcome' = as_state outcome) then Ok (i', db')
    else Err (AlreadySettled id (IntentState_as_str (as_state outcome)) (IntentState_as_str (as_state outcome'))).
Proof.
  intros Hok Hrun. destruct (settle_Ok _ _ _ _ _ _ Hok Hrun) as (i & Hi & -> & -> & Hrole & _).
  split; [by exists i|]. pose proof (proj1 Hok _ _ Hi) as Hiok. destruct Hiok as [Hid Hc Ht].
  intros role' outcome'. unfold settle. simpl. rewrite lookup_insert_eq. simpl.
  assert (Hterm : intent_terminal (as_state outcome) = true) by (by destruct outcome). rewrite Hterm. simpl.
  destruct (decide (as_state outcome' = as_state outcome)) as [E|E].
  - rewrite !bool_decide_eq_true_2 by done. by rewrite (read_intent id (set_state (as_state outcome) i)).
  - rewrite !bool_decide_eq_false_2 by done. done.
Qed.
Example settle_is_final_witness :
  let i := intent_of 1%N 0 sample_new in
  let db := with_intent {[ 1%N := i ]} sample_intent_db in
  exists i' db', settle RoleController 1%N (SettledConfirmed "b1") db = Ok (i', db') /\
    settle RoleGateway 1%N SettledRejected db' = Err (AlreadySettled 1%N "CONFIRMED" "REJECTED").
Proof.
  intros i db. do 2 eexists. split; [vm_compute; reflexivity|].
  refine (proj2 (settle_is_final RoleController 1%N (SettledConfirmed "b1") db _ _ _ _) RoleGateway SettledRejected).
  - split.
    + apply map_Forall_singleton. by constructor; [|repeat constructor|].
    + simpl. intros k1 k2 i1 i2 [<- _]%lookup_singleton_Some [<- _]%lookup_singleton_Some _. reflexivity.
  - vm_compute. reflexivity.
Defined.
