(* ===== verification/Lease.v ===== *)
(** * Leases and fences: [crates/pool-workflow/src/lease.rs]

    Times are microseconds on the database's clock, [now()] an argument of
    each statement.  [make_interval] takes its seconds as a double; every
    duration up to 2^53 microseconds is exact there, and the timestamp range is
    checked. *)
From S2P Require Import Prelude BTreeMap Json Domain Store.
Open Scope Z_scope.

Record Lease := MkLease {
  ls_network : Network;
  ls_workflow_id : string;
  ls_kind : LeaseKind;
  ls_fence_token : Z;
  ls_lease_owner : string;
}.
Definition lkey (l : Lease) : Network * string * LeaseKind := (ls_network l, ls_workflow_id l, ls_kind l).

Inductive LeaseError :=
| LsUnavailable (e : DbError)
| StillHeld (network : Network) (workflow_id kind holder : string) (remaining_secs : Z)
| FenceLost (network : Network) (workflow_id kind : string) (presented current : Z)
| ZeroDuration.

Definition micros : Z := 1000000.
(** The end of PostgreSQL's [timestamptz] range. *)
Definition timestamp_end : Z := 9223371331200000000.

(** [GREATEST(0, EXTRACT(EPOCH FROM d)::bigint)]: the cast rounds to nearest. *)
Definition whole_seconds (d : Z) : Z := Z.max 0 ((d + micros / 2) / micros).

Definition claim (n : Network) (workflow_id : string) (kind : LeaseKind) (owner : string) (duration_secs : Z)
    (now : Z) (db : Db) : result LeaseError (Lease * Db) :=
  if duration_secs <=? 0 then Err ZeroDuration
  else
    let key := (n, workflow_id, kind) in
    let until := now + duration_secs * micros in
    if timestamp_end <=? until then Err (LsUnavailable (OutOfRange "timestamp"))
    else if (String.length owner =? 0)%nat then Err (LsUnavailable (CheckViolation "work_lease_owner_not_empty"))
    else match db_lease db !! key with
    | None =>
        match db_workflow db !! (n, workflow_id) with
        | None => Err (LsUnavailable (ForeignKeyViolation "work_lease_has_a_workflow"))
        | Some _ =>
            Ok (MkLease n workflow_id kind 1 owner,
                with_lease (<[key := MkLeaseRow 1 owner until]> (db_lease db)) db)
        end
    | Some row =>
        if (lr_lease_until row <=? now) || String.eqb (lr_lease_owner row) owner then
          if i64_max <? lr_fence_token row + 1 then Err (LsUnavailable (OutOfRange "bigint"))
          else Ok (MkLease n workflow_id kind (lr_fence_token row + 1) owner,
                   with_lease (<[key := MkLeaseRow (lr_fence_token row + 1) owner until]> (db_lease db)) db)
        else Err (StillHeld n workflow_id (LeaseKind_as_str kind) (lr_lease_owner row)
                    (whole_seconds (lr_lease_until row - now)))
    end.

Definition require_fence (l : Lease) (db : Db) : result LeaseError unit :=
  let current := match db_lease db !! lkey l with Some row => lr_fence_token row | None => i64_max end in
  if negb (current =? ls_fence_token l)
  then Err (FenceLost (ls_network l) (ls_workflow_id l) (LeaseKind_as_str (ls_kind l)) (ls_fence_token l) current)
  else Ok tt.

Definition release (l : Lease) (now : Z) (db : Db) : result LeaseError Db :=
  match db_lease db !! lkey l with
  | Some row =>
      if lr_fence_token row =? ls_fence_token l then
        if i64_max <? lr_fence_token row + 1 then Err (LsUnavailable (OutOfRange "bigint"))
        else Ok (with_lease (<[lkey l := MkLeaseRow (lr_fence_token row + 1) (lr_lease_owner row) now]> (db_lease db)) db)
      else Ok db
  | None => Ok db
  end.

(** ** Lemmas *)

Definition leases_ok (t : gmap (Network * string * LeaseKind) LeaseRow) : Prop :=
  map_Forall (fun _ r => 1 <= lr_fence_token r <= i64_max) t.

(** The current fence of a key; zero before the first claim. *)
Definition fence_at (k : Network * string * LeaseKind) (db : Db) : Z :=
  match db_lease db !! k with Some row => lr_fence_token row | None => 0 end.

Lemma claim_Ok n id kind owner secs now db l db' :
  claim n id kind owner secs now db = Ok (l, db') ->
  0 < secs /\ lkey l = (n, id, kind) /\ ls_lease_owner l = owner /\
  ls_fence_token l = fence_at (n, id, kind) db + 1 /\ ls_fence_token l <= i64_max /\
  db' = with_lease (<[(n, id, kind) := MkLeaseRow (ls_fence_token l) owner (now + secs * micros)]> (db_lease db)) db /\
  (forall row, db_lease db !! (n, id, kind) = Some row -> lr_lease_until row <= now \/ lr_lease_owner row = owner).
Proof.
  unfold claim, fence_at. destruct (Z.leb_spec secs 0); [done|]. destruct (_ <=? _); [done|].
  destruct (_ =? _)%nat; [done|]. destruct (db_lease db !! _) as [row|] eqn:Hrow.
  - destruct (_ || _) eqn:Hfree; [|done]. destruct (Z.ltb_spec i64_max (lr_fence_token row + 1)); [done|].
    intros [= <- <-]. simpl. split_and!; try done. intros row' [= <-].
    apply orb_true_iff in Hfree as [Hf|Hf]; [left; lia|right; by apply String.eqb_eq].
  - destruct (db_workflow db !! _); [|done]. intros [= <- <-]. simpl. split_and!; try done; unfold i64_max; lia.
Qed.

Lemma require_fence_Ok l db row :
  db_lease db !! lkey l = Some row -> require_fence l db = Ok tt <-> lr_fence_token row = ls_fence_token l.
Proof.
  intros Hrow. unfold require_fence. rewrite Hrow. destruct (Z.eqb_spec (lr_fence_token row) (ls_fence_token l)); by simpl.
Qed.

(** ** Properties *)

(** A claim takes the work over completely: the new holder's fence is exactly
    one above the previous, it is the fence the row now demands, and every
    lease of the same work issued before -- whoever held it, expired or not --
    is refused from then on, so a late result cannot commit.  Other leases
    are untouched. *)
Theorem claim_fences_out_predecessors n id kind owner secs now db l db' :
  claim n id kind owner secs now db = Ok (l, db') ->
  lkey l = (n, id, kind) /\ ls_fence_token l = fence_at (n, id, kind) db + 1 /\
  require_fence l db' = Ok tt /\
  (forall old, lkey old = (n, id, kind) -> ls_fence_token old <= fence_at (n, id, kind) db ->
     require_fence old db' = Err (FenceLost n id (LeaseKind_as_str kind) (ls_fence_token old) (ls_fence_token l))) /\
  (forall k, k <> (n, id, kind) -> db_lease db' !! k = db_lease db !! k).
Proof.
  intros (Hs & Hk & Ho & Hf & Hmax & -> & _)%claim_Ok. split_and!; try done.
  - rewrite (require_fence_Ok l _ (MkLeaseRow (ls_fence_token l) owner (now + secs * micros))); [done|].
    simpl. by rewrite Hk, lookup_insert_eq.
  - intros old Hko Hle. unfold require_fence. rewrite Hko. simpl. rewrite lookup_insert_eq. simpl.
    destruct (Z.eqb_spec (ls_fence_token l) (ls_fence_token old)); [lia|]. simpl.
    unfold lkey in Hko. by injection Hko as -> -> ->.
  - intros k Hne. simpl. by rewrite lookup_insert_ne.
Qed.
Definition lease_db : Db :=
  with_lease {[ (Testnet, "w1", ProofBuild) := MkLeaseRow 4 "gw-a" 1000 ]} empty_db.
Example claim_fences_out_predecessors_witness :
  exists l db', claim Testnet "w1" ProofBuild "gw-b" 30 1000 lease_db = Ok (l, db') /\
    require_fence (MkLease Testnet "w1" ProofBuild 4 "gw-a") db' =
      Err (FenceLost Testnet "w1" "PROOF_BUILD" 4 5).
Proof.
  do 2 eexists. split; [vm_compute; reflexivity|].
  edestruct (claim_fences_out_predecessors Testnet "w1" ProofBuild "gw-b" 30 1000 lease_db)
    as (_ & _ & _ & Hold & _); [vm_compute; reflexivity|].
  exact (Hold (MkLease Testnet "w1" ProofBuild 4 "gw-a") eq_refl ltac:(vm_compute; discriminate)).
Defined.

(** Who may claim, exactly: while another owner's lease is live the claim is
    refused naming that holder; otherwise -- no lease yet, an expired one, or
    one's own -- it succeeds, short of the counter and clock limits. *)
Theorem claim_exactly_when_free n id kind owner secs now db :
  leases_ok (db_lease db) -> 0 < secs -> owner <> "" -> now + secs * micros < timestamp_end ->
  is_Some (db_workflow db !! (n, id)) -> fence_at (n, id, kind) db < i64_max ->
  match db_lease db !! (n, id, kind) with
  | Some row =>
      if (now <? lr_lease_until row) && negb (String.eqb (lr_lease_owner row) owner)
      then claim n id kind owner secs now db =
             Err (StillHeld n id (LeaseKind_as_str kind) (lr_lease_owner row) (whole_seconds (lr_lease_until row - now)))
      else exists l db', claim n id kind owner secs now db = Ok (l, db')
  | None => exists l db', claim n id kind owner secs now db = Ok (l, db')
  end.
Proof.
  intros Hok Hs Ho Ht [w Hw] Hf. unfold claim, fence_at in *.
  destruct (Z.leb_spec secs 0); [lia|]. destruct (Z.leb_spec timestamp_end (now + secs * micros)); [lia|].
  assert ((String.length owner =? 0)%nat = false) as -> by (by destruct owner).
  destruct (db_lease db !! (n, id, kind)) as [row|] eqn:Hrow; [|rewrite Hw; by do 2 eexists].
  rewrite (Z.leb_antisym now (lr_lease_until row)).
  destruct (now <? lr_lease_until row), (String.eqb (lr_lease_owner row) owner); simpl; try done.
  all: destruct (Z.ltb_spec i64_max (lr_fence_token row + 1)); [lia|]; by do 2 eexists.
Qed.
Example claim_exactly_when_free_witness :
  let db := with_workflow {[ (Testnet, "w1") := MkWorkflow "w1" Testnet Decided 1 PoolBootstrap POOL_BOOTSTRAP_OWNER
              None 100 None None None None None None None ]} lease_db in
  claim Testnet "w1" ProofBuild "gw-b" 30 0 db = Err (StillHeld Testnet "w1" "PROOF_BUILD" "gw-a" 0).
Proof.
  intros db. refine (claim_exactly_when_free Testnet "w1" ProofBuild "gw-b" 30 0 db _ _ _ _ _ _).
  - apply map_Forall_singleton. unfold i64_max. simpl. lia.
  - lia.
  - done.
  - vm_compute. reflexivity.
  - by eexists.
  - vm_compute. reflexivity.
Defined.

(** Releasing gives the work up for good: the releaser's own fence is refused
    afterwards and the row is immediately claimable; releasing a lease that was
    already lost changes nothing. *)
Theorem release_gives_up l now db db' :
  release l now db = Ok db' ->
  (require_fence l db = Ok tt -> is_Some (db_lease db !! lkey l) ->
     (exists e, require_fence l db' = Err e) /\
     exists row, db_lease db' !! lkey l = Some row /\ lr_lease_until row = now /\
       lr_fence_token row = ls_fence_token l + 1) /\
  ((exists e, require_fence l db = Err e) -> db' = db).
Proof.
  unfold release. destruct (db_lease db !! lkey l) as [row|] eqn:Hrow.
  - pose proof (require_fence_Ok l db row Hrow) as Hiff.
    destruct (Z.eqb_spec (lr_fence_token row) (ls_fence_token l)) as [E|E].
    + destruct (_ <? _); [done|]. intros [= <-]. split.
      * intros _ _. split.
        { unfold require_fence. simpl. rewrite lookup_insert_eq. simpl.
          destruct (Z.eqb_spec (lr_fence_token row + 1) (ls_fence_token l)); [lia|]. by eexists. }
        { eexists. simpl. rewrite lookup_insert_eq. split; [done|]. simpl. split; [done|lia]. }
      * intros [e He]. rewrite (proj2 Hiff E) in He. done.
    + intros [= <-]. split; [|done]. intros Hr. by apply Hiff in Hr.
  - intros [= <-]. split; [|done]. by intros _ [x ?].
Qed.
Example release_gives_up_witness :
  exists db', release (MkLease Testnet "w1" ProofBuild 4 "gw-a") 50 lease_db = Ok db' /\
    exists e, require_fence (MkLease Testnet "w1" ProofBuild 4 "gw-a") db' = Err e.
Proof.
  eexists. split; [vm_compute; reflexivity|].
  edestruct (release_gives_up (MkLease Testnet "w1" ProofBuild 4 "gw-a") 50 lease_db) as [H _];
    [vm_compute; reflexivity|].
  apply H; [vm_compute; reflexivity|]. eexists. vm_compute. reflexivity.
Defined.

Lemma claim_leases_ok n id kind owner secs now db l db' :
  leases_ok (db_lease db) -> claim n id kind owner secs now db = Ok (l, db') -> leases_ok (db_lease db').
Proof.
  intros Hok (_ & _ & _ & Hf & Hmax & -> & _)%claim_Ok. apply map_Forall_insert_2; [|done]. simpl.
  unfold fence_at in Hf. destruct (db_lease db !! _) as [row|] eqn:Hrow; [|lia].
  pose proof (Hok _ _ Hrow). simpl in *. lia.
Qed.
Lemma release_leases_ok l now db db' :
  leases_ok (db_lease db) -> release l now db = Ok db' -> leases_ok (db_lease db').
Proof.
  intros Hok. unfold release. destruct (db_lease db !! lkey l) as [row|] eqn:Hrow; [|by intros [= <-]].
  destruct (_ =? _); [|by intros [= <-]]. destruct (Z.ltb_spec i64_max (lr_fence_token row + 1)); [done|].
  intros [= <-]. apply map_Forall_insert_2; [|done]. pose proof (Hok _ _ Hrow). simpl in *. lia.
Qed.
