(* ===== verification/Attempt.v ===== *)
(** * The write-attempt ledger: [crates/pool-workflow/src/attempt.rs]

    An attempt is recorded before its request is sent and its response
    afterwards; the partial unique indexes of migration 0004 make a lane
    exclusive while an attempt in it is unresolved or ambiguous. *)
From S2P Require Import Prelude BTreeMap Json Domain Store Intent Lease.
Open Scope Z_scope.

Record WriteAttempt := MkWriteAttempt {
  wa_attempt_id : Uuid;
  wa_intent_id : Uuid;
  wa_attempt_no : Z;
  wa_outcome : option AttemptOutcome;
  wa_http_status : option Z;
  wa_reconciled : bool;
  wa_age_secs : Z;
}.

Definition is_unresolved (a : WriteAttempt) : bool := outcome_unresolved (wa_outcome a).
Definition has_response (a : WriteAttempt) : bool := negb (is_none (wa_outcome a)).

Inductive AttemptError :=
| AtUnavailable (e : DbError)
| PrecommitLaneOccupied (network : string)
| BenchmarkWriteInFlight (benchmark_id : string)
| AlreadyResolved (attempt_id : Uuid)
| AtFenceLost (reason : LeaseError)
| NotSettled (attempt_id : Uuid)
| NotAmbiguous (attempt_id : Uuid)
| AtCorrupt (attempt_id : Uuid) (reason : string).

Definition PRECOMMIT_LANE_INDEX : string := "tig_write_attempt_one_unresolved_precommit".
Definition BENCHMARK_INDEX : string := "tig_write_attempt_one_unresolved_per_benchmark".

(** ** Reading an attempt *)

(** [EXTRACT(EPOCH FROM d)::bigint]: rounded to nearest, halves away from zero. *)
Definition epoch_secs (d : Z) : Z :=
  if 0 <=? d then (d + micros / 2) / micros else - ((- d + micros / 2) / micros).

(** [row_to_attempt] on the columns [attempt_columns!] selects, the outcome as
    text. *)
Definition row_to_attempt (now : Z) (outcome_text : option string) (a : AttemptRow) : result AttemptError WriteAttempt :=
  let? outcome := match outcome_text with
                  | None => Ok None
                  | Some text => let? o := ok_or (AttemptOutcome_parse text) (AtCorrupt (at_attempt_id a) "unknown outcome") in
                                 Ok (Some o)
                  end in
  Ok (MkWriteAttempt (at_attempt_id a) (at_intent_id a) (at_attempt_no a) outcome (at_http_status a)
        (negb (is_none (at_reconciled_at a))) (epoch_secs (now - at_started_at a))).
Definition read_attempt (now : Z) (a : AttemptRow) : result AttemptError WriteAttempt :=
  row_to_attempt now (AttemptOutcome_as_str <$> at_outcome a) a.

(** ** The table's rules *)

Definition attempt_checks (a : AttemptRow) : list (string * bool) :=
  [("tig_write_attempt_detail_bounded", opt_all (fun d => (char_count d <=? 200)%nat) (at_detail a));
   ("tig_write_attempt_no_positive", 1 <=? at_attempt_no a);
   ("tig_write_attempt_reconciled_is_settled",
      is_none (at_reconciled_at a) ||
      match at_outcome a with Some Accepted | Some AttemptRejected => true | _ => false end);
   ("tig_write_attempt_resolution_consistent",
      Bool.eqb (is_none (at_outcome a)) (is_none (at_resolved_at a)))].

(** Another row that occupies the lane of [a]. *)
Definition same_precommit_lane (a b : AttemptRow) : bool :=
  bool_decide (at_write_kind a = Precommit) && bool_decide (at_write_kind b = Precommit) &&
  bool_decide (at_network a = at_network b).
Definition same_benchmark_lane (a b : AttemptRow) : bool :=
  negb (is_none (at_benchmark_id a)) && bool_decide (at_benchmark_id a = at_benchmark_id b) &&
  bool_decide (at_network a = at_network b).
Definition lane_taken (lane : AttemptRow -> AttemptRow -> bool) (a : AttemptRow) (db : Db) : bool :=
  outcome_unresolved (at_outcome a) &&
  exists_row (fun b => negb (bool_decide (at_attempt_id b = at_attempt_id a)) &&
                outcome_unresolved (at_outcome b) && lane a b) (db_attempt db).
Definition number_taken (a : AttemptRow) (db : Db) : bool :=
  exists_row (fun b => negb (bool_decide (at_attempt_id b = at_attempt_id a)) &&
                bool_decide (at_intent_id b = at_intent_id a) && bool_decide (at_attempt_no b = at_attempt_no a))
    (db_attempt db).

(** Checks and unique indexes, then the row is stored. *)
Definition put_attempt (a : AttemptRow) (db : Db) : result DbError Db :=
  match first_violation (attempt_checks a) with
  | Some c => Err (CheckViolation c)
  | None =>
      if number_taken a db then Err (UniqueViolation "tig_write_attempt_unique_no")
      else if lane_taken same_precommit_lane a db then Err (UniqueViolation PRECOMMIT_LANE_INDEX)
      else if lane_taken same_benchmark_lane a db then Err (UniqueViolation BENCHMARK_INDEX)
      else Ok (with_attempt (<[at_attempt_id a := a]> (db_attempt db)) db)
  end.

(** The [INSERT] both forms of [begin] run: the next number, the trigger that
    copies the intent's identity, then the row. *)
Definition next_attempt_no (intent_id : Uuid) (db : Db) : Z :=
  default 0 (max_list (map at_attempt_no (filter (fun a => at_intent_id a = intent_id) (rows (db_attempt db))))) + 1.
Definition insert_attempt (fresh intent_id : Uuid) (now : Z) (db : Db) : result DbError (AttemptRow * Db) :=
  let no := next_attempt_no intent_id db in
  if i32_max <? no then Err (OutOfRange "integer")
  else match db_intent db !! intent_id with
  | None => Err (RaiseException "no intent")
  | Some i =>
      let a := MkAttempt fresh intent_id no (in_network i) (in_write_kind i) (in_benchmark_id i) now
                 None None None None None in
      match first_violation (attempt_checks a), db_attempt db !! fresh with
      | None, Some _ => Err (UniqueViolation "tig_write_attempt_pkey")
      | _, _ => let? db' := put_attempt a db in Ok (a, db')
      end
  end.

(** [tig_write_attempt_guard] on an update of the outcome columns. *)
Definition attempt_trigger (old new : AttemptRow) : option string :=
  let response_moved := negb (bool_decide (at_http_status new = at_http_status old)) ||
                        negb (bool_decide (at_detail new = at_detail old)) ||
                        negb (bool_decide (at_resolved_at new = at_resolved_at old)) in
  match at_outcome old with
  | Some Accepted | Some AttemptRejected =>
      if negb (bool_decide (at_outcome new = at_outcome old)) || response_moved
      then Some "a definitive outcome is recorded once" else None
  | Some Ambiguous =>
      match at_outcome new with
      | Some Accepted | Some AttemptRejected =>
          if response_moved then Some "reconciliation cannot rewrite the recorded response" else None
      | _ => if negb (bool_decide (at_outcome new = at_outcome old)) || response_moved
             then Some "an ambiguous outcome is settled by reconciliation" else None
      end
  | None => None
  end.
Definition update_attempt (old new : AttemptRow) (db : Db) : result DbError Db :=
  match attempt_trigger old new with
  | Some what => Err (RaiseException what)
  | None => put_attempt new db
  end.

(** ** Operations *)

Definition classify_begin_error (intent_id : Uuid) (db : Db) (e : DbError) : AttemptError :=
  let identity := db_intent db !! intent_id in
  match e with
  | UniqueViolation c =>
      if bool_decide (c = PRECOMMIT_LANE_INDEX)
      then PrecommitLaneOccupied (default "unknown" ((fun i => Network_as_str (in_network i)) <$> identity))
      else if bool_decide (c = BENCHMARK_INDEX)
      then BenchmarkWriteInFlight (default "unknown" (match identity with Some i => in_benchmark_id i | None => None end))
      else AtUnavailable e
  | _ => AtUnavailable e
  end.

Definition begin (fresh intent_id : Uuid) (now : Z) (db : Db) : result AttemptError (WriteAttempt * Db) :=
  match insert_attempt fresh intent_id now db with
  | Ok (a, db') => let? wa := read_attempt now a in Ok (wa, db')
  | Err e => Err (classify_begin_error intent_id db e)
  end.

Definition begin_fenced (fresh intent_id : Uuid) (lease : Lease) (now : Z) (db : Db)
  : result AttemptError (WriteAttempt * Db) :=
  let? _ := map_err AtFenceLost (require_fence lease db) in
  match insert_attempt fresh intent_id now db with
  | Ok (a, db') => let? wa := read_attempt now a in Ok (wa, db')
  | Err e => Err (classify_begin_error intent_id db e)
  end.

(** The row after [resolve] and after [reconcile]. *)
Definition with_response (o : AttemptOutcome) (http_status : option Z) (detail : option string) (now : Z)
    (a : AttemptRow) : AttemptRow :=
  MkAttempt (at_attempt_id a) (at_intent_id a) (at_attempt_no a) (at_network a) (at_write_kind a)
    (at_benchmark_id a) (at_started_at a) (Some o) http_status detail (Some now) (at_reconciled_at a).
Definition with_settlement (o : AttemptOutcome) (now : Z) (a : AttemptRow) : AttemptRow :=
  MkAttempt (at_attempt_id a) (at_intent_id a) (at_attempt_no a) (at_network a) (at_write_kind a)
    (at_benchmark_id a) (at_started_at a) (Some o) (at_http_status a) (at_detail a) (at_resolved_at a) (Some now).

(** The intent's half of an ambiguous [resolve]: only from [PREPARED]. *)
Definition mark_outcome_unknown (role : Role) (intent_id : Uuid) (db : Db) : result DbError Db :=
  match db_intent db !! intent_id with
  | Some i => if bool_decide (in_state i = Prepared) then update_intent role OutcomeUnknown i db else Ok db
  | None => Ok db
  end.

Definition resolve (role : Role) (attempt_id : Uuid) (outcome : AttemptOutcome) (http_status : option Z)
    (detail : option string) (now : Z) (db : Db) : result AttemptError Db :=
  match db_attempt db !! attempt_id with
  | Some a =>
      match at_outcome a with
      | None =>
          let? db1 := map_err AtUnavailable (update_attempt a (with_response outcome http_status detail now a) db) in
          if bool_decide (outcome = Ambiguous)
          then map_err AtUnavailable (mark_outcome_unknown role (at_intent_id a) db1)
          else Ok db1
      | Some _ => Err (AlreadyResolved attempt_id)
      end
  | None => Err (AlreadyResolved attempt_id)
  end.

Definition reconcile (attempt_id : Uuid) (settled : AttemptOutcome) (now : Z) (db : Db) : result AttemptError Db :=
  if bool_decide (settled = Ambiguous) then Err (NotSettled attempt_id)
  else match db_attempt db !! attempt_id with
  | Some a =>
      if bool_decide (at_outcome a = Some Ambiguous)
      then map_err AtUnavailable (update_attempt a (with_settlement settled now a) db)
      else Err (NotAmbiguous attempt_id)
  | None => Err (NotAmbiguous attempt_id)
  end.

Definition attempts_for (intent_id : Uuid) (now : Z) (db : Db) : result AttemptError (list WriteAttempt) :=
  mapM_res (read_attempt now)
    (sort_by (fun a b => at_attempt_no a <=? at_attempt_no b)
       (filter (fun a => at_intent_id a = intent_id) (rows (db_attempt db)))).

Definition has_transmitted_precommit_write (n : Network) (workflow_id : string) (db : Db) : bool :=
  transmitted_precommit_exists n workflow_id db.

(** ** The invariant of [pool.tig_write_attempt] *)

Definition attempt_of_intent (a : AttemptRow) (i : WriteIntent) : Prop :=
  at_network a = in_network i /\ at_write_kind a = in_write_kind i /\ at_benchmark_id a = in_benchmark_id i.

Record attempt_ok (intents : gmap Uuid WriteIntent) (id : Uuid) (a : AttemptRow) : Prop := {
  aok_key : at_attempt_id a = id;
  aok_checks : Forall (fun c => c.2 = true) (attempt_checks a);
  aok_intent : exists i, intents !! at_intent_id a = Some i /\ attempt_of_intent a i;
}.
(** At most one unresolved attempt per lane. *)
Definition lane_exclusive (lane : AttemptRow -> AttemptRow -> bool) (t : gmap Uuid AttemptRow) : Prop :=
  forall k1 k2 a1 a2, t !! k1 = Some a1 -> t !! k2 = Some a2 ->
    outcome_unresolved (at_outcome a1) = true -> outcome_unresolved (at_outcome a2) = true ->
    lane a1 a2 = true -> k1 = k2.
Record attempts_ok (db : Db) : Prop := {
  ats_rows : map_Forall (attempt_ok (db_intent db)) (db_attempt db);
  ats_precommit : lane_exclusive same_precommit_lane (db_attempt db);
  ats_benchmark : lane_exclusive same_benchmark_lane (db_attempt db);
  ats_number : forall k1 k2 a1 a2, db_attempt db !! k1 = Some a1 -> db_attempt db !! k2 = Some a2 ->
    at_intent_id a1 = at_intent_id a2 -> at_attempt_no a1 = at_attempt_no a2 -> k1 = k2;
}.

(** ** Lemmas *)

Lemma read_attempt_Ok now a : read_attempt now a =
  Ok (MkWriteAttempt (at_attempt_id a) (at_intent_id a) (at_attempt_no a) (at_outcome a) (at_http_status a)
        (negb (is_none (at_reconciled_at a))) (epoch_secs (now - at_started_at a))).
Proof.
  unfold read_attempt, row_to_attempt. destruct (at_outcome a) as [o|] eqn:E; simpl; [|done].
  autorewrite with codec. simpl. done.
Qed.

Lemma put_attempt_Ok a db db' :
  put_attempt a db = Ok db' <->
  Forall (fun c => c.2 = true) (attempt_checks a) /\ number_taken a db = false /\
  lane_taken same_precommit_lane a db = false /\ lane_taken same_benchmark_lane a db = false /\
  db' = with_attempt (<[at_attempt_id a := a]> (db_attempt db)) db.
Proof.
  unfold put_attempt. rewrite <- first_violation_None. destruct (first_violation _); [naive_solver|].
  destruct (number_taken a db); [naive_solver|]. destruct (lane_taken same_precommit_lane a db); [naive_solver|].
  destruct (lane_taken same_benchmark_lane a db); naive_solver.
Qed.

Lemma lane_taken_false lane a db :
  lane_taken lane a db = false -> outcome_unresolved (at_outcome a) = true ->
  forall k b, db_attempt db !! k = Some b -> at_attempt_id b <> at_attempt_id a ->
    outcome_unresolved (at_outcome b) = true -> lane a b = false.
Proof.
  unfold lane_taken. intros Hl Hua. rewrite Hua in Hl. simpl in Hl. rewrite exists_row_false in Hl.
  intros k b Hk Hne Hu. specialize (Hl k b Hk). by rewrite (bool_decide_eq_false_2 _ Hne), Hu in Hl.
Qed.

Lemma lane_exclusive_put (lane : AttemptRow -> AttemptRow -> bool) a db :
  (forall x y, lane x y = lane y x) -> (forall k b, db_attempt db !! k = Some b -> at_attempt_id b = k) ->
  lane_exclusive lane (db_attempt db) -> lane_taken lane a db = false ->
  lane_exclusive lane (<[at_attempt_id a := a]> (db_attempt db)).
Proof.
  intros Hsym Hkey Hex Hl k1 k2 a1 a2 [[<- <-]|[Hk1 H1]]%lookup_insert_Some [[<- <-]|[Hk2 H2]]%lookup_insert_Some U1 U2 HL;
    [done| | |by eapply Hex].
  - exfalso. rewrite (lane_taken_false lane a db Hl U1 k2 a2 H2) in HL; [done| |done].
    rewrite (Hkey _ _ H2). congruence.
  - exfalso. rewrite Hsym, (lane_taken_false lane a db Hl U2 k1 a1 H1) in HL; [done| |done].
    rewrite (Hkey _ _ H1). congruence.
Qed.

Lemma same_precommit_lane_sym x y : same_precommit_lane x y = same_precommit_lane y x.
Proof.
  unfold same_precommit_lane. rewrite (andb_comm (bool_decide (at_write_kind x = _))). f_equal.
  apply bool_decide_ext. naive_solver.
Qed.
Lemma same_benchmark_lane_sym x y : same_benchmark_lane x y = same_benchmark_lane y x.
Proof.
  unfold same_benchmark_lane. rewrite (bool_decide_ext (at_network x = _) (at_network y = at_network x)) by naive_solver.
  f_equal. destruct (decide (at_benchmark_id x = at_benchmark_id y)) as [->|E]; [done|].
  rewrite !bool_decide_eq_false_2 by congruence. by rewrite !andb_false_r.
Qed.

(** A stored row leaves the invariant intact. *)
Lemma attempts_ok_put a db db' :
  attempts_ok db -> (exists i, db_intent db !! at_intent_id a = Some i /\ attempt_of_intent a i) ->
  put_attempt a db = Ok db' -> attempts_ok db'.
Proof.
  intros [Hr Hp Hb Hu] Hi (Hc & Hn & Hlp & Hlb & ->)%put_attempt_Ok.
  assert (Hkey : forall k b, db_attempt db !! k = Some b -> at_attempt_id b = k).
  { intros k b Hk. exact (aok_key _ _ _ (Hr _ _ Hk)). }
  constructor; simpl.
  - apply map_Forall_insert_2; [by constructor|done].
  - apply lane_exclusive_put; auto using same_precommit_lane_sym.
  - apply lane_exclusive_put; auto using same_benchmark_lane_sym.
  - unfold number_taken in Hn. rewrite exists_row_false in Hn.
    assert (Hother : forall k b, db_attempt db !! k = Some b -> k <> at_attempt_id a ->
      at_intent_id b = at_intent_id a -> at_attempt_no b <> at_attempt_no a).
    { intros k b Hk Hne Ei Eno. specialize (Hn k b Hk). rewrite (Hkey k b Hk) in Hn.
      by rewrite (bool_decide_eq_false_2 _ Hne), !bool_decide_eq_true_2 in Hn. }
    intros k1 k2 a1 a2 [[<- <-]|[Hk1 H1]]%lookup_insert_Some [[<- <-]|[Hk2 H2]]%lookup_insert_Some Ei Eno;
      [done| | |by eapply Hu].
    + by destruct (Hother k2 a2).
    + by destruct (Hother k1 a1).
Qed.

(** The invariant looks at the intents only through their identities. *)
Lemma attempts_ok_intents db t :
  attempts_ok db ->
  (forall id i, db_intent db !! id = Some i -> exists i', t !! id = Some i' /\ in_network i' = in_network i /\
     in_write_kind i' = in_write_kind i /\ in_benchmark_id i' = in_benchmark_id i) ->
  attempts_ok (with_intent t db).
Proof.
  intros [Hr Hp Hb Hu] Hsame. constructor; simpl; try done.
  intros k a Hk. destruct (Hr k a Hk) as [Hkey Hc (i & Hi & E1 & E2 & E3)]. constructor; [done..|].
  destruct (Hsame _ _ Hi) as (i' & Hi' & F1 & F2 & F3). exists i'. split; [done|]. unfold attempt_of_intent.
  split_and!; congruence.
Qed.

Lemma insert_attempt_Ok fresh id now db a db' :
  insert_attempt fresh id now db = Ok (a, db') ->
  exists i, db_intent db !! id = Some i /\ db_attempt db !! fresh = None /\
    a = MkAttempt fresh id (next_attempt_no id db) (in_network i) (in_write_kind i) (in_benchmark_id i) now
          None None None None None /\
    next_attempt_no id db <= i32_max /\ put_attempt a db = Ok db'.
Proof.
  unfold insert_attempt. destruct (Z.ltb_spec i32_max (next_attempt_no id db)); [done|].
  destruct (db_intent db !! id) as [i|]; [|done]. set (row := MkAttempt _ _ _ _ _ _ _ _ _ _ _ _). intros Hrun.
  exists i. destruct (first_violation (attempt_checks row)) eqn:Hv.
  { unfold put_attempt in Hrun. by rewrite Hv in Hrun. }
  destruct (db_attempt db !! fresh); [done|].
  destruct (put_attempt row db) as [d|] eqn:Hput; [|done]. injection Hrun as <- <-. by split_and!.
Qed.

Lemma insert_attempt_attempts_ok fresh id now db a db' :
  attempts_ok db -> insert_attempt fresh id now db = Ok (a, db') -> attempts_ok db'.
Proof.
  intros Hok (i & Hi & _ & -> & _ & Hput)%insert_attempt_Ok.
  eapply attempts_ok_put; [done| |exact Hput]. exists i. by split.
Qed.

Lemma update_attempt_Ok old new db db' :
  update_attempt old new db = Ok db' <-> attempt_trigger old new = None /\ put_attempt new db = Ok db'.
Proof. unfold update_attempt. destruct (attempt_trigger old new); naive_solver. Qed.

Lemma mark_outcome_unknown_Ok role id db db' :
  mark_outcome_unknown role id db = Ok db' ->
  db' = db \/ exists i, db_intent db !! id = Some i /\ in_state i = Prepared /\
    db' = with_intent (<[in_intent_id i := set_state OutcomeUnknown i]> (db_intent db)) db.
Proof.
  unfold mark_outcome_unknown. destruct (db_intent db !! id) as [i|]; [|intros [= <-]; by left].
  case_bool_decide as Hp; [|intros [= <-]; by left].
  intros [_ ->]%update_intent_Ok. right. by exists i.
Qed.

Lemma resolve_Ok role id o st d now db db' :
  resolve role id o st d now db = Ok db' ->
  exists a db1, db_attempt db !! id = Some a /\ at_outcome a = None /\
    put_attempt (with_response o st d now a) db = Ok db1 /\
    (if bool_decide (o = Ambiguous) then mark_outcome_unknown role (at_intent_id a) db1 = Ok db' else db' = db1).
Proof.
  unfold resolve. destruct (db_attempt db !! id) as [a|]; [|done]. destruct (at_outcome a) eqn:Ho; [done|].
  destruct (update_attempt _ _ db) as [d1|] eqn:Hup; simpl; [|done].
  apply update_attempt_Ok in Hup as [_ Hput]. intros Hrun. exists a, d1. split_and!; try done.
  destruct (bool_decide (o = Ambiguous)); [|congruence].
  destruct (mark_outcome_unknown _ _ d1); [|done]. simpl in Hrun. congruence.
Qed.

Lemma reconcile_Ok id o now db db' :
  reconcile id o now db = Ok db' ->
  exists a, o <> Ambiguous /\ db_attempt db !! id = Some a /\ at_outcome a = Some Ambiguous /\
    put_attempt (with_settlement o now a) db = Ok db'.
Proof.
  unfold reconcile. case_bool_decide as Hne; [done|]. destruct (db_attempt db !! id) as [a|]; [|done].
  case_bool_decide as Ho; [|done]. destruct (update_attempt _ _ db) as [d1|] eqn:Hup; simpl; [|done].
  intros [= <-]. apply update_attempt_Ok in Hup as [_ Hput]. by exists a.
Qed.

Lemma intents_ok_set_state t id i s :
  intents_ok t -> t !! id = Some i -> intents_ok (<[in_intent_id i := set_state s i]> t).
Proof.
  intros [Hall Huniq] Hi. pose proof (Hall _ _ Hi) as [Hid Hc Ht]. rewrite Hid. split.
  - apply map_Forall_insert_2; [by constructor|done].
  - intros k1 k2 i1 i2 [[<- <-]|[Hk1 H1]]%lookup_insert_Some [[<- <-]|[Hk2 H2]]%lookup_insert_Some E;
      [done|by eapply (Huniq id k2 i i2)|by eapply (Huniq k1 id i1 i)|by eapply Huniq].
Qed.

(** Every ledger operation preserves the invariants of both tables. *)
Lemma resolve_preserves role id o st d now db db' :
  intents_ok (db_intent db) -> attempts_ok db -> resolve role id o st d now db = Ok db' ->
  intents_ok (db_intent db') /\ attempts_ok db'.
Proof.
  intros Hiok Hok (a & db1 & Ha & Ho & Hput & Hrest)%resolve_Ok.
  assert (Hok1 : attempts_ok db1).
  { eapply attempts_ok_put; [exact Hok| |exact Hput]. exact (aok_intent _ _ _ (ats_rows _ Hok _ _ Ha)). }
  assert (Hi1 : db_intent db1 = db_intent db) by (by apply put_attempt_Ok in Hput as (_ & _ & _ & _ & ->)).
  destruct (bool_decide (o = Ambiguous)); [|subst db'; by rewrite Hi1].
  apply mark_outcome_unknown_Ok in Hrest as [->|(i & Hi & _ & ->)]; [by rewrite Hi1|].
  rewrite Hi1 in *. pose proof (iok_key _ _ (proj1 Hiok _ _ Hi)) as Hid. split; [by eapply intents_ok_set_state|].
  apply attempts_ok_intents; [done|]. rewrite Hi1. intros id' i' Hi'. rewrite Hid.
  destruct (decide (id' = at_intent_id a)) as [->|Hne].
  - exists (set_state OutcomeUnknown i). rewrite lookup_insert_eq. split; [done|]. by replace i' with i by congruence.
  - exists i'. by rewrite lookup_insert_ne.
Qed.
Lemma reconcile_preserves id o now db db' :
  attempts_ok db -> reconcile id o now db = Ok db' -> attempts_ok db' /\ db_intent db' = db_intent db.
Proof.
  intros Hok (a & _ & Ha & _ & Hput)%reconcile_Ok. split.
  - eapply attempts_ok_put; [exact Hok| |exact Hput]. exact (aok_intent _ _ _ (ats_rows _ Hok _ _ Ha)).
  - by apply put_attempt_Ok in Hput as (_ & _ & _ & _ & ->).
Qed.

(** ** Lanes *)

(** An unresolved attempt occupies the lane an intent's write would use: the
    network's precommit lane, or the benchmark's. *)
Definition occupies (i : WriteIntent) (b : AttemptRow) : Prop :=
  outcome_unresolved (at_outcome b) = true /\ at_network b = in_network i /\
  match in_write_kind i with
  | Precommit => at_write_kind b = Precommit
  | _ => at_benchmark_id b = in_benchmark_id i
  end.
Definition lane_busy (i : WriteIntent) (db : Db) : Prop :=
  exists k b, db_attempt db !! k = Some b /\ occupies i b.
(** The refusal of an occupied lane. *)
Definition lane_error (i : WriteIntent) : AttemptError :=
  match in_write_kind i with
  | Precommit => PrecommitLaneOccupied (Network_as_str (in_network i))
  | _ => BenchmarkWriteInFlight (default "unknown" (in_benchmark_id i))
  end.

Lemma next_attempt_no_fresh id db :
  (forall k b, db_attempt db !! k = Some b -> at_intent_id b = id -> at_attempt_no b < next_attempt_no id db) /\
  (map_Forall (attempt_ok (db_intent db)) (db_attempt db) -> 1 <= next_attempt_no id db).
Proof.
  unfold next_attempt_no. set (l := filter _ _).
  assert (Hl : forall b, b ∈ l <-> at_intent_id b = id /\ exists k, db_attempt db !! k = Some b).
  { intros b. unfold l. by rewrite list_elem_of_filter, elem_of_rows. }
  destruct (max_list (map at_attempt_no l)) as [m|] eqn:Hm; simpl.
  - apply max_list_Some in Hm as [Hin Hmax]. split.
    + intros k b Hk Hb. enough (at_attempt_no b <= m) by lia. apply Hmax, list_elem_of_fmap. exists b.
      split; [done|]. apply Hl. eauto.
    + intros Hok. apply list_elem_of_fmap in Hin as (b & -> & [_ [k Hk]]%Hl).
      pose proof (aok_checks _ _ _ (Hok _ _ Hk)) as Hc. unfold attempt_checks in Hc. rewrite !Forall_cons in Hc.
      simpl in Hc. destruct Hc as (_ & Hno & _). lia.
  - apply max_list_None in Hm. split; [|lia]. intros k b Hk Hb.
    assert (b ∈ l) as Hin by (apply Hl; eauto). destruct l; [by apply not_elem_of_nil in Hin|done].
Qed.

Lemma number_not_taken a db :
  at_attempt_no a = next_attempt_no (at_intent_id a) db -> number_taken a db = false.
Proof.
  intros Hno. unfold number_taken. apply exists_row_false. intros k b Hk.
  apply not_true_iff_false. rewrite !andb_true_iff, !bool_decide_eq_true. intros [[_ Hi] Hn].
  pose proof (proj1 (next_attempt_no_fresh (at_intent_id a) db) k b Hk Hi). lia.
Qed.

Section lanes.
Context (db : Db) (id fresh : Uuid) (now : Z) (i : WriteIntent).
Context (Hi : db_intent db !! id = Some i) (Hiok : intents_ok (db_intent db)) (Hok : attempts_ok db).
Context (Hfresh : db_attempt db !! fresh = None).

(** The row [begin] inserts. *)
Definition begin_row : AttemptRow :=
  MkAttempt fresh id (next_attempt_no id db) (in_network i) (in_write_kind i) (in_benchmark_id i) now
    None None None None None.

Lemma bound_iff : in_write_kind i = Precommit <-> in_benchmark_id i = None.
Proof using Hi Hiok.
  pose proof (iok_checks _ _ (proj1 Hiok _ _ Hi)) as Hc. unfold intent_checks in Hc. rewrite !Forall_cons in Hc.
  simpl in Hc. destruct Hc as [Hc _]. by destruct (in_write_kind i), (in_benchmark_id i).
Qed.

Lemma lane_taken_iff :
  (in_write_kind i = Precommit ->
     lane_taken same_benchmark_lane begin_row db = false /\
     (lane_taken same_precommit_lane begin_row db = true <-> lane_busy i db)) /\
  (in_write_kind i <> Precommit ->
     lane_taken same_precommit_lane begin_row db = false /\
     (lane_taken same_benchmark_lane begin_row db = true <-> lane_busy i db)).
Proof using Hi Hiok Hok Hfresh.
  pose proof bound_iff as Hb.
  assert (Hne : forall k b, db_attempt db !! k = Some b -> at_attempt_id b <> fresh).
  { intros k b Hk. rewrite (aok_key _ _ _ (ats_rows _ Hok _ _ Hk)). congruence. }
  split; intros Hk.
  - apply Hb in Hk as Hnone. split.
    + unfold lane_taken, same_benchmark_lane. simpl. rewrite Hnone. apply exists_row_false. intros. apply andb_false_r.
    + unfold lane_taken, same_precommit_lane, lane_busy, occupies. simpl. rewrite Hk, exists_row_true.
      split; intros (k & b & Hkb & H); exists k, b; (split; [done|]).
      * rewrite !andb_true_iff, !bool_decide_eq_true in H. naive_solver.
      * rewrite (bool_decide_eq_false_2 _ (Hne _ _ Hkb)). destruct H as (-> & -> & ->).
        by rewrite !bool_decide_eq_true_2.
  - split.
    + unfold lane_taken, same_precommit_lane. simpl. rewrite (bool_decide_eq_false_2 _ Hk).
      apply exists_row_false. intros. apply andb_false_r.
    + assert (Hsome : is_none (in_benchmark_id i) = false) by (destruct (in_benchmark_id i); [done|tauto]).
      unfold lane_taken, same_benchmark_lane, lane_busy, occupies. simpl. rewrite Hsome, exists_row_true.
      split; intros (k & b & Hkb & H); exists k, b; (split; [done|]).
      * simpl in H. rewrite !andb_true_iff, !bool_decide_eq_true in H. destruct (in_write_kind i); naive_solver.
      * rewrite (bool_decide_eq_false_2 _ (Hne _ _ Hkb)). destruct H as (-> & -> & Hbm). simpl.
        rewrite (bool_decide_eq_true_2 (in_benchmark_id i = at_benchmark_id b)) by (destruct (in_write_kind i); congruence).
        by rewrite bool_decide_eq_true_2.
Qed.

Lemma begin_row_checks : Forall (fun c => c.2 = true) (attempt_checks begin_row).
Proof using Hok.
  pose proof (proj2 (next_attempt_no_fresh id db) (ats_rows _ Hok)). unfold attempt_checks.
  rewrite !Forall_cons. simpl. split_and!; try done. by apply Z.leb_le.
Qed.

Lemma insert_attempt_cases : next_attempt_no id db <= i32_max ->
  (lane_busy i db /\ begin fresh id now db = Err (lane_error i)) \/
  (~ lane_busy i db /\ insert_attempt fresh id now db =
     Ok (begin_row, with_attempt (<[fresh := begin_row]> (db_attempt db)) db)).
Proof using Hi Hiok Hok Hfresh.
  intros Hno. destruct lane_taken_iff as [Hpre Hbm].
  assert (Hins : insert_attempt fresh id now db = let? db' := put_attempt begin_row db in Ok (begin_row, db')).
  { unfold insert_attempt. destruct (Z.ltb_spec i32_max (next_attempt_no id db)); [lia|]. rewrite Hi. fold begin_row.
    rewrite (proj2 (first_violation_None _) begin_row_checks), Hfresh. done. }
  unfold begin. rewrite Hins. unfold put_attempt.
  rewrite (proj2 (first_violation_None _) begin_row_checks), (number_not_taken begin_row db eq_refl).
  destruct (decide (in_write_kind i = Precommit)) as [Hk|Hk].
  - destruct (Hpre Hk) as [Hf Hiff]. rewrite Hf.
    destruct (lane_taken same_precommit_lane begin_row db) eqn:Ht.
    + left. split; [by apply Hiff|]. simpl. rewrite Hi. unfold lane_error. by rewrite Hk.
    + right. split; [|done]. intros Hbusy%Hiff. done.
  - destruct (Hbm Hk) as [Hf Hiff]. rewrite Hf.
    destruct (lane_taken same_benchmark_lane begin_row db) eqn:Ht.
    + left. split; [by apply Hiff|]. simpl. rewrite Hi. unfold lane_error. by destruct (in_write_kind i).
    + right. split; [|done]. intros Hbusy%Hiff. done.
Qed.
End lanes.

(** ** Properties *)

(** A write may start exactly when its lane is free.  For a recorded intent,
    [begin] records an attempt -- unresolved, numbered after every earlier one,
    carrying the intent's identity -- when no unresolved or ambiguous attempt
    occupies the intent's lane, and otherwise refuses naming the lane. *)
Theorem begin_iff_lane_free fresh id now db i :
  intents_ok (db_intent db) -> attempts_ok db -> db_intent db !! id = Some i ->
  db_attempt db !! fresh = None -> next_attempt_no id db <= i32_max ->
  (lane_busy i db -> begin fresh id now db = Err (lane_error i)) /\
  (~ lane_busy i db -> exists wa, begin fresh id now db =
     Ok (wa, with_attempt (<[fresh := begin_row db id fresh now i]> (db_attempt db)) db) /\
     is_unresolved wa = true /\ has_response wa = false /\
     forall k b, db_attempt db !! k = Some b -> at_intent_id b = id -> at_attempt_no b < wa_attempt_no wa).
Proof.
  intros Hiok Hok Hi Hf Hno.
  destruct (insert_attempt_cases db id fresh now i Hi Hiok Hok Hf Hno) as [[Hb Hr]|[Hb Hr]]; [done|].
  split; [done|]. intros _. unfold begin. rewrite Hr, read_attempt_Ok. eexists. split; [reflexivity|].
  split_and!; [done..|]. apply next_attempt_no_fresh.
Qed.
Definition sample_intent : WriteIntent := intent_of 1%N 0 sample_new.
Definition sample_ledger : Db := with_intent {[ 1%N := sample_intent ]} sample_intent_db.
Lemma sample_ledger_ok : intents_ok (db_intent sample_ledger) /\ attempts_ok sample_ledger.
Proof.
  split.
  - split.
    + apply map_Forall_singleton. by constructor; [|repeat constructor|].
    + simpl. intros k1 k2 i1 i2 [<- _]%lookup_singleton_Some [<- _]%lookup_singleton_Some _. done.
  - constructor; simpl.
    + apply map_Forall_empty.
    + intros k1 k2 a1 a2 H. by rewrite lookup_empty in H.
    + intros k1 k2 a1 a2 H. by rewrite lookup_empty in H.
    + intros k1 k2 a1 a2 H. by rewrite lookup_empty in H.
Qed.
Example begin_iff_lane_free_witness :
  exists wa db', begin 8%N 1%N 500 sample_ledger = Ok (wa, db') /\ is_unresolved wa = true.
Proof.
  destruct (begin_iff_lane_free 8%N 1%N 500 sample_ledger sample_intent) as [_ H].
  - exact (proj1 sample_ledger_ok).
  - exact (proj2 sample_ledger_ok).
  - reflexivity.
  - reflexivity.
  - vm_compute. discriminate.
  - destruct H as (wa & Hrun & Hu & _); [|by eexists _, _].
    intros (k & b & Hk & _). simpl in Hk. by rewrite lookup_empty in Hk.
Defined.

(** The states an attempt's outcome passes through. *)
Inductive outcome_step : option AttemptOutcome -> option AttemptOutcome -> Prop :=
| outcome_same o : outcome_step o o
| outcome_respond o : outcome_step None (Some o)
| outcome_settle o : o <> Ambiguous -> outcome_step (Some Ambiguous) (Some o).

(** The ledger's operations as one alphabet. *)
Inductive LedgerOp :=
| LBegin (fresh intent_id : Uuid) (now : Z)
| LBeginFenced (fresh intent_id : Uuid) (lease : Lease) (now : Z)
| LResolve (attempt_id : Uuid) (outcome : AttemptOutcome) (http_status : option Z) (detail : option string) (now : Z)
| LReconcile (attempt_id : Uuid) (settled : AttemptOutcome) (now : Z).
Definition run_ledger (role : Role) (op : LedgerOp) (db : Db) : result AttemptError Db :=
  match op with
  | LBegin fresh id now => let? x := begin fresh id now db in Ok (snd x)
  | LBeginFenced fresh id lease now => let? x := begin_fenced fresh id lease now db in Ok (snd x)
  | LResolve id o st d now => resolve role id o st d now db
  | LReconcile id o now => reconcile id o now db
  end.

Lemma begin_Ok fresh id now db wa db' :
  begin fresh id now db = Ok (wa, db') -> exists a, insert_attempt fresh id now db = Ok (a, db').
Proof.
  unfold begin. destruct (insert_attempt _ _ _ _) as [[a d]|]; [|done]. rewrite read_attempt_Ok.
  intros [= _ <-]. by exists a.
Qed.
Lemma begin_fenced_Ok fresh id lease now db wa db' :
  begin_fenced fresh id lease now db = Ok (wa, db') ->
  require_fence lease db = Ok tt /\ begin fresh id now db = Ok (wa, db').
Proof. unfold begin_fenced. destruct (require_fence lease db) as [[]|]; [done|]. done. Qed.

(** What a ledger operation leaves of the rows that were there. *)
Definition row_evolves (a a' : AttemptRow) : Prop :=
  at_attempt_id a' = at_attempt_id a /\ at_intent_id a' = at_intent_id a /\ at_attempt_no a' = at_attempt_no a /\
  outcome_step (at_outcome a) (at_outcome a') /\
  (at_outcome a <> None -> at_http_status a' = at_http_status a /\ at_detail a' = at_detail a /\
     at_resolved_at a' = at_resolved_at a).

Lemma put_evolves a a' db db' :
  attempts_ok db -> db_attempt db !! at_attempt_id a = Some a -> row_evolves a a' -> put_attempt a' db = Ok db' ->
  forall k b, db_attempt db !! k = Some b -> exists b', db_attempt db' !! k = Some b' /\ row_evolves b b'.
Proof.
  intros Hok Ha Hev (_ & _ & _ & _ & ->)%put_attempt_Ok k b Hk. simpl. destruct Hev as [Hid Hev].
  destruct (decide (k = at_attempt_id a')) as [->|Hne].
  - exists a'. rewrite lookup_insert_eq. split; [done|]. rewrite Hid in Hk. replace b with a by congruence. by split.
  - exists b. rewrite lookup_insert_ne by done. split; [done|]. split_and!; try done. constructor.
Qed.

Lemma insert_evolves fresh id now db a db' :
  insert_attempt fresh id now db = Ok (a, db') ->
  forall k b, db_attempt db !! k = Some b -> exists b', db_attempt db' !! k = Some b' /\ row_evolves b b'.
Proof.
  intros (i & _ & Hf & -> & _ & (_ & _ & _ & _ & ->)%put_attempt_Ok)%insert_attempt_Ok k b Hk. simpl.
  exists b. rewrite lookup_insert_ne by congruence. split; [done|]. split_and!; try done. constructor.
Qed.

(** What one operation of the ledger does to the rows already there. *)
Lemma run_ledger_evolves role op db db' :
  intents_ok (db_intent db) -> attempts_ok db -> run_ledger role op db = Ok db' ->
  attempts_ok db' /\
  forall k a, db_attempt db !! k = Some a -> exists a', db_attempt db' !! k = Some a' /\ row_evolves a a'.
Proof.
  intros Hiok Hok. destruct op as [fresh id now|fresh id lease now|id o st d now|id o now]; simpl.
  - destruct (begin _ _ _ _) as [[wa d]|] eqn:Hb; [|done]. intros [= <-]. apply begin_Ok in Hb as [a Hins].
    split; [by eapply insert_attempt_attempts_ok|by eapply insert_evolves].
  - destruct (begin_fenced _ _ _ _ _) as [[wa d]|] eqn:Hb; [|done]. intros [= <-].
    apply begin_fenced_Ok in Hb as [_ [a Hins]%begin_Ok].
    split; [by eapply insert_attempt_attempts_ok|by eapply insert_evolves].
  - intros Hrun. split; [by eapply resolve_preserves|].
    apply resolve_Ok in Hrun as (a & db1 & Ha & Ho & Hput & Hrest).
    assert (Hsame : db_attempt db' = db_attempt db1).
    { destruct (bool_decide (o = Ambiguous)); [|by subst].
      by apply mark_outcome_unknown_Ok in Hrest as [->|(i & _ & _ & ->)]. }
    rewrite Hsame. pose proof (aok_key _ _ _ (ats_rows _ Hok _ _ Ha)) as Hid.
    eapply (put_evolves a (with_response o st d now a)); [done|by rewrite Hid| |exact Hput].
    split_and!; simpl; try done. rewrite Ho. constructor.
  - intros Hrun. split; [by eapply reconcile_preserves|].
    apply reconcile_Ok in Hrun as (a & Hne & Ha & Ho & Hput).
    pose proof (aok_key _ _ _ (ats_rows _ Hok _ _ Ha)) as Hid.
    eapply (put_evolves a (with_settlement o now a)); [done|by rewrite Hid| |exact Hput].
    split_and!; simpl; try done. rewrite Ho. by constructor.
Qed.
Lemma outcome_step_trans o1 o2 o3 : outcome_step o1 o2 -> outcome_step o2 o3 -> outcome_step o1 o3.
Proof. do 2 (inversion 1; subst); by constructor. Qed.
#[global] Instance row_evolves_preorder : PreOrder row_evolves.
Proof.
  split; [intros a; split_and!; try done; constructor|].
  intros a b c (H1 & H2 & H3 & H4 & H5) (K1 & K2 & K3 & K4 & K5). split_and!; try congruence.
  - by eapply outcome_step_trans.
  - intros Ha. assert (Hb : at_outcome b <> None) by (inversion H4; congruence).
    specialize (H5 Ha). specialize (K5 Hb). intuition congruence.
Qed.

(** What it does to the intents: at most one leaves [PREPARED] for
    [OUTCOME_UNKNOWN]; no other table changes. *)
Lemma run_ledger_intents role op db db' :
  intents_ok (db_intent db) -> attempts_ok db -> run_ledger role op db = Ok db' ->
  intents_ok (db_intent db') /\ db' = with_intent (db_intent db') (with_attempt (db_attempt db') db) /\
  (forall id i, db_intent db !! id = Some i -> exists s, db_intent db' !! id = Some (set_state s i) /\
    (intent_terminal (in_state i) = true -> s = in_state i)) /\
  (forall id i, db_intent db' !! id = Some i -> is_Some (db_intent db !! id)).
Proof.
  intros Hiok Hok.
  assert (Hsame : forall id i, db_intent db !! id = Some i ->
    exists s, db_intent db !! id = Some (set_state s i) /\ (intent_terminal (in_state i) = true -> s = in_state i)).
  { intros id i Hi. exists (in_state i). split; [|done]. rewrite Hi. by destruct i. }
  assert (Hback : forall id i, db_intent db !! id = Some i -> is_Some (db_intent db !! id)) by (intros id i ->; done).
  destruct op as [fresh id now|fresh id lease now|id o st d now|id o now]; simpl.
  - destruct (begin _ _ _ _) as [[wa d]|] eqn:Hb; [|done]. intros [= <-].
    apply begin_Ok in Hb as [a (i & _ & _ & _ & _ & (_ & _ & _ & _ & ->)%put_attempt_Ok)%insert_attempt_Ok].
    simpl. split_and!; [done|by destruct db|done|done].
  - destruct (begin_fenced _ _ _ _ _) as [[wa d]|] eqn:Hb; [|done]. intros [= <-].
    apply begin_fenced_Ok in Hb as [_ [a (i & _ & _ & _ & _ & (_ & _ & _ & _ & ->)%put_attempt_Ok)%insert_attempt_Ok]%begin_Ok].
    simpl. split_and!; [done|by destruct db|done|done].
  - intros Hrun. split; [by eapply resolve_preserves|].
    apply resolve_Ok in Hrun as (a & db1 & _ & _ & (_ & _ & _ & _ & ->)%put_attempt_Ok & Hrest).
    destruct (bool_decide (o = Ambiguous)); [|subst db'; simpl; by split_and!].
    apply mark_outcome_unknown_Ok in Hrest as [->|(i & Hi & Hp & ->)]; simpl; [by split_and!|].
    split; [done|]. simpl in Hi. rewrite (iok_key _ _ (proj1 Hiok _ _ Hi)). split.
    2:{ intros k j Hj. apply lookup_insert_Some in Hj as [[<- _]|[_ ?]]; by eexists. }
    intros k j Hj.
    destruct (decide (at_intent_id a = k)) as [E|Hne].
    + subst k. rewrite lookup_insert_eq. replace j with i by congruence. exists OutcomeUnknown. split; [done|]. by rewrite Hp.
    + rewrite lookup_insert_ne by done. exists (in_state j). split; [|done]. rewrite Hj. by destruct j.
  - intros (a & _ & _ & _ & (_ & _ & _ & _ & ->)%put_attempt_Ok)%reconcile_Ok.
    simpl. split_and!; [done|by destruct db|done|done].
Qed.

(** A response is recorded once, over any sequence of operations.  No attempt is
    removed or renumbered; an outcome goes from none to a response, and from
    ambiguous to a definitive finding, and never otherwise; once a response
    exists its status, detail and time are never rewritten.  The lanes stay
    exclusive throughout. *)
Theorem outcomes_recorded_once role ops db db' :
  intents_ok (db_intent db) -> attempts_ok db -> foldM (fun d op => run_ledger role op d) db ops = Ok db' ->
  attempts_ok db' /\
  forall k a, db_attempt db !! k = Some a -> exists a', db_attempt db' !! k = Some a' /\ row_evolves a a'.
Proof.
  intros Hiok Hok Hrun.
  enough (H : intents_ok (db_intent db') /\ attempts_ok db' /\
    forall k a, db_attempt db !! k = Some a -> exists a', db_attempt db' !! k = Some a' /\ row_evolves a a') by apply H.
  revert Hrun. apply (foldM_ind (fun d => intents_ok (db_intent d) /\ attempts_ok d /\
    forall k a, db_attempt db !! k = Some a -> exists a', db_attempt d !! k = Some a' /\ row_evolves a a')).
  - split_and!; [done|done|]. intros k a Ha. by exists a.
  - intros d op d' _ (Hi & Ha & Hev) Hop. pose proof (run_ledger_intents _ _ _ _ Hi Ha Hop) as (Hi' & _).
    destruct (run_ledger_evolves _ _ _ _ Hi Ha Hop) as [Ha' Hev']. split_and!; [done|done|].
    intros k a Hk. destruct (Hev k a Hk) as (b & Hb & Hab). destruct (Hev' k b Hb) as (c & Hc & Hbc).
    exists c. split; [done|]. by etransitivity.
Qed.
Example outcomes_recorded_once_witness :
  exists db', foldM (fun d op => run_ledger RoleGateway op d) sample_ledger [LBegin 8%N 1%N 500] = Ok db' /\ attempts_ok db'.
Proof.
  eexists. split; [vm_compute; reflexivity|].
  eapply (outcomes_recorded_once RoleGateway [LBegin 8%N 1%N 500] sample_ledger);
    [exact (proj1 sample_ledger_ok)|exact (proj2 sample_ledger_ok)|vm_compute; reflexivity].
Defined.

Lemma occupied_after_response i a o st d now :
  attempt_of_intent a i -> outcome_unresolved (Some o) = true -> occupies i (with_response o st d now a).
Proof. intros (H1 & H2 & H3) Ho. split_and!; simpl; try done. destruct (in_write_kind i); congruence. Qed.

(** A lost response keeps its lane closed.  When a response is recorded as
    ambiguous, the intent leaves [PREPARED] in the same transaction and no
    write in that lane can start -- not for this intent and not for any other
    intent of the lane. *)
Theorem ambiguity_closes_the_lane role id st d now db db' a i :
  intents_ok (db_intent db) -> attempts_ok db ->
  db_attempt db !! id = Some a -> db_intent db !! at_intent_id a = Some i ->
  resolve role id Ambiguous st d now db = Ok db' ->
  (exists i', db_intent db' !! at_intent_id a = Some i' /\ in_state i' <> Prepared) /\
  forall fresh jid j now', db_intent db' !! jid = Some j ->
    in_network j = in_network i -> in_write_kind j = in_write_kind i -> in_benchmark_id j = in_benchmark_id i ->
    db_attempt db' !! fresh = None -> next_attempt_no jid db' <= i32_max ->
    begin fresh jid now' db' = Err (lane_error j).
Proof.
  intros Hiok Hok Ha Hi Hrun. destruct (resolve_preserves _ _ _ _ _ _ _ _ Hiok Hok Hrun) as [Hiok' Hok'].
  apply resolve_Ok in Hrun as (a0 & db1 & Ha0 & Ho & Hput & Hrest). rewrite bool_decide_eq_true_2 in Hrest by done.
  assert (a0 = a) as -> by congruence.
  pose proof (aok_key _ _ _ (ats_rows _ Hok _ _ Ha)) as Hid.
  destruct (aok_intent _ _ _ (ats_rows _ Hok _ _ Ha)) as (i0 & Hi0 & Hof). assert (i0 = i) as -> by congruence.
  apply put_attempt_Ok in Hput as (_ & _ & _ & _ & ->). simpl in Hrest. rewrite Hid in Hrest.
  pose proof (iok_key _ _ (proj1 Hiok _ _ Hi)) as Hiid.
  assert (Hrow : db_attempt db' !! id = Some (with_response Ambiguous st d now a)).
  { apply mark_outcome_unknown_Ok in Hrest as [->|(x & _ & _ & ->)]; simpl; by rewrite lookup_insert_eq. }
  split.
  - unfold mark_outcome_unknown in Hrest. simpl in Hrest. rewrite Hi in Hrest. case_bool_decide as Hp.
    + apply update_intent_Ok in Hrest as [_ ->]. exists (set_state OutcomeUnknown i). simpl.
      by rewrite Hiid, lookup_insert_eq.
    + injection Hrest as <-. by exists i.
  - intros fresh jid j now' Hj En Ek Eb Hf Hno.
    destruct (insert_attempt_cases db' jid fresh now' j Hj Hiok' Hok' Hf Hno) as [[_ Hr]|[Hnb _]]; [done|].
    destruct Hnb. exists id, (with_response Ambiguous st d now a). split; [done|].
    apply occupied_after_response; [|done]. destruct Hof as (H1 & H2 & H3). unfold attempt_of_intent.
    split_and!; congruence.
Qed.
Definition sample_sent : Db := with_attempt {[ 8%N := begin_row sample_ledger 1%N 8%N 500 sample_intent ]} sample_ledger.
Lemma sample_sent_ok : attempts_ok sample_sent.
Proof.
  constructor; simpl.
  - apply map_Forall_singleton. constructor; [done|by repeat constructor|]. by exists sample_intent.
  - intros k1 k2 a1 a2 [<- _]%lookup_singleton_Some [<- _]%lookup_singleton_Some. done.
  - intros k1 k2 a1 a2 [<- _]%lookup_singleton_Some [<- _]%lookup_singleton_Some. done.
  - intros k1 k2 a1 a2 [<- _]%lookup_singleton_Some [<- _]%lookup_singleton_Some. done.
Qed.
Example ambiguity_closes_the_lane_witness :
  exists db', resolve RoleGateway 8%N Ambiguous None (Some "timeout") 900 sample_sent = Ok db' /\
    begin 9%N 1%N 1000 db' = Err (PrecommitLaneOccupied "testnet").
Proof.
  eexists. split; [vm_compute; reflexivity|].
  edestruct (ambiguity_closes_the_lane RoleGateway 8%N None (Some "timeout") 900 sample_sent) as [_ H].
  - exact (proj1 sample_ledger_ok).
  - exact sample_sent_ok.
  - vm_compute. reflexivity.
  - vm_compute. reflexivity.
  - vm_compute. reflexivity.
  - refine (H 9%N 1%N (set_state OutcomeUnknown sample_intent) 1000 _ _ _ _ _ _);
      try (vm_compute; reflexivity). vm_compute. discriminate.
Defined.

Lemma number_free a a' db :
  attempts_ok db -> db_attempt db !! at_attempt_id a = Some a -> at_attempt_id a' = at_attempt_id a ->
  at_intent_id a' = at_intent_id a -> at_attempt_no a' = at_attempt_no a -> number_taken a' db = false.
Proof.
  intros Hok Ha Hid Hint Hno. apply exists_row_false. intros k b Hk. apply not_true_iff_false.
  rewrite !andb_true_iff, negb_true_iff, bool_decide_eq_false, !bool_decide_eq_true. intros [[Hne Hin] Hn].
  apply Hne. rewrite Hid, (aok_key _ _ _ (ats_rows _ Hok _ _ Hk)). eapply (ats_number _ Hok); [done|done| |]; congruence.
Qed.
Lemma settlement_put a o now db :
  attempts_ok db -> db_attempt db !! at_attempt_id a = Some a -> at_outcome a = Some Ambiguous -> o <> Ambiguous ->
  put_attempt (with_settlement o now a) db =
    Ok (with_attempt (<[at_attempt_id a := with_settlement o now a]> (db_attempt db)) db).
Proof.
  intros Hok Ha Ho Hne. apply put_attempt_Ok.
  pose proof (aok_checks _ _ _ (ats_rows _ Hok _ _ Ha)) as Hc. unfold attempt_checks in Hc |- *.
  rewrite !Forall_cons in Hc |- *. simpl in Hc |- *. rewrite Ho in Hc. destruct Hc as (Hd & Hno & _ & Hres & _).
  assert (Hl : forall lane, lane_taken lane (with_settlement o now a) db = false) by (intros; by destruct o).
  rewrite !Hl. split_and!; try done; [by destruct o|]. by apply (number_free a).
Qed.

(** An unresolved attempt can always be recorded as ambiguous. *)
Lemma ambiguous_put a st d now db :
  attempts_ok db -> db_attempt db !! at_attempt_id a = Some a -> at_outcome a = None ->
  opt_all (fun x => (char_count x <=? 200)%nat) d = true ->
  put_attempt (with_response Ambiguous st d now a) db =
    Ok (with_attempt (<[at_attempt_id a := with_response Ambiguous st d now a]> (db_attempt db)) db).
Proof.
  intros Hok Ha Ho Hd. apply put_attempt_Ok.
  pose proof (aok_checks _ _ _ (ats_rows _ Hok _ _ Ha)) as Hc. unfold attempt_checks in Hc |- *.
  rewrite !Forall_cons in Hc |- *. simpl in Hc |- *. rewrite Ho in Hc. destruct Hc as (_ & Hno & Hrec & _ & _).
  assert (Hl : forall lane, (forall b, lane (with_response Ambiguous st d now a) b = lane a b) ->
    lane_exclusive lane (db_attempt db) -> lane_taken lane (with_response Ambiguous st d now a) db = false).
  { intros lane Hsame Hex. unfold lane_taken. simpl. apply exists_row_false. intros k b Hk. apply not_true_iff_false.
    rewrite !andb_true_iff, negb_true_iff, bool_decide_eq_false, Hsame. intros [[Hne Hu] Hlane].
    apply Hne. rewrite (aok_key _ _ _ (ats_rows _ Hok _ _ Hk)). symmetry. apply (Hex (at_attempt_id a) k a b); try done. by rewrite Ho. }
  rewrite !Hl; [|done|apply Hok|done|apply Hok]. split_and!; try done.
  by apply (number_free a).
Qed.
Lemma gateway_marks_unknown id db : is_Ok (mark_outcome_unknown RoleGateway id db) = true.
Proof.
  unfold mark_outcome_unknown. destruct (db_intent db !! id) as [i|]; [|done]. case_bool_decide as Hp; [|done].
  unfold update_intent. by rewrite Hp.
Qed.

Lemma reconcile_frees id o now db a i :
  intents_ok (db_intent db) -> attempts_ok db -> o <> Ambiguous ->
  db_attempt db !! id = Some a -> at_outcome a = Some Ambiguous -> db_intent db !! at_intent_id a = Some i ->
  let db' := with_attempt (<[id := with_settlement o now a]> (db_attempt db)) db in
  reconcile id o now db = Ok db' /\ ~ lane_busy i db'.
Proof.
  intros Hiok Hok Hne Ha Ho Hi db'. pose proof (aok_key _ _ _ (ats_rows _ Hok _ _ Ha)) as Hid.
  destruct (aok_intent _ _ _ (ats_rows _ Hok _ _ Ha)) as (i0 & Hi0 & Hof). assert (i0 = i) as -> by congruence.
  assert (Hput := settlement_put a o now db Hok ltac:(by rewrite Hid) Ho Hne). rewrite Hid in Hput.
  split.
  { unfold reconcile. rewrite bool_decide_eq_false_2 by done. rewrite Ha, bool_decide_eq_true_2 by done.
    unfold update_attempt, attempt_trigger. rewrite Ho. simpl. rewrite !bool_decide_eq_true_2 by done. simpl.
    rewrite Hput. by destruct o. }
  intros (k & b & Hk & Hu & Hn & Hlane). simpl in Hk.
  apply lookup_insert_Some in Hk as [[<- <-]|[Hk Hb]]; [by destruct o|].
  assert (HuA : outcome_unresolved (at_outcome a) = true) by (by rewrite Ho).
  destruct Hof as (H1 & H2 & H3). destruct (decide (in_write_kind i = Precommit)) as [Ek|Ek].
  - rewrite Ek in Hlane. apply Hk. eapply (ats_precommit _ Hok id k a b); try done.
    unfold same_precommit_lane. rewrite H2, Ek, Hlane, H1, Hn. by rewrite !bool_decide_eq_true_2.
  - assert (Hb' : at_benchmark_id b = in_benchmark_id i) by (by destruct (in_write_kind i)).
    apply Hk. eapply (ats_benchmark _ Hok id k a b); try done.
    pose proof (bound_iff db (at_intent_id a) i Hi Hiok) as Hbi.
    unfold same_benchmark_lane. rewrite H3, Hb', H1, Hn, !bool_decide_eq_true_2 by done.
    destruct (in_benchmark_id i); [done|]. exfalso. by apply Ek, Hbi.
Qed.

(** Reconciliation reopens it: settling an ambiguous attempt always succeeds,
    keeps the recorded response, and leaves the intent's lane free, so the
    next write of the lane can start. *)
Theorem reconcile_reopens_the_lane id o now db a i :
  intents_ok (db_intent db) -> attempts_ok db -> o <> Ambiguous ->
  db_attempt db !! id = Some a -> at_outcome a = Some Ambiguous -> db_intent db !! at_intent_id a = Some i ->
  exists db', reconcile id o now db = Ok db' /\ ~ lane_busy i db' /\
    db' = with_attempt (<[id := with_settlement o now a]> (db_attempt db)) db /\
    forall fresh now', db_attempt db' !! fresh = None -> next_attempt_no (at_intent_id a) db' <= i32_max ->
      is_Ok (begin fresh (at_intent_id a) now' db') = true.
Proof.
  intros Hiok Hok Hne Ha Ho Hi. destruct (reconcile_frees id o now db a i Hiok Hok Hne Ha Ho Hi) as [Hrun Hfree].
  set (db' := with_attempt _ db) in Hrun, Hfree. exists db'. split_and!; try done. intros fresh now' Hf Hno.
  destruct (reconcile_preserves id o now db db' Hok Hrun) as [Hok' Hint].
  destruct (insert_attempt_cases db' (at_intent_id a) fresh now' i) as [[Hb _]|[_ Hins]]; try done.
  unfold begin. by rewrite Hins, read_attempt_Ok.
Qed.
Definition sample_lost : Db :=
  with_attempt {[ 8%N := with_response Ambiguous None None 900 (begin_row sample_ledger 1%N 8%N 500 sample_intent) ]}
    sample_ledger.
Example reconcile_reopens_the_lane_witness :
  exists db', reconcile 8%N AttemptRejected 2000 sample_lost = Ok db' /\ ~ lane_busy sample_intent db'.
Proof.
  edestruct (reconcile_reopens_the_lane 8%N AttemptRejected 2000 sample_lost) as (db' & Hrun & Hfree & _);
    [..|exists db'; split; [exact Hrun|exact Hfree]].
  - exact (proj1 sample_ledger_ok).
  - constructor; simpl.
    + apply map_Forall_singleton. constructor; [done|by repeat constructor|]. by exists sample_intent.
    + intros k1 k2 a1 a2 [<- _]%lookup_singleton_Some [<- _]%lookup_singleton_Some. done.
    + intros k1 k2 a1 a2 [<- _]%lookup_singleton_Some [<- _]%lookup_singleton_Some. done.
    + intros k1 k2 a1 a2 [<- _]%lookup_singleton_Some [<- _]%lookup_singleton_Some. done.
  - discriminate.
  - reflexivity.
  - reflexivity.
  - reflexivity.
Defined.

(** A claimant that lost its lease records nothing: once anyone else has
    claimed the work, an attempt under the old lease is refused as a lost
    fence, whichever lane or intent it names; with the current lease the
    fenced form is exactly [begin]. *)
Theorem stale_holder_cannot_send n wid kind owner secs now db l db1 :
  claim n wid kind owner secs now db = Ok (l, db1) ->
  (forall fresh id now', begin_fenced fresh id l now' db1 = begin fresh id now' db1) /\
  forall old fresh id now', lkey old = (n, wid, kind) -> ls_fence_token old <= fence_at (n, wid, kind) db ->
    begin_fenced fresh id old now' db1 =
      Err (AtFenceLost (FenceLost n wid (LeaseKind_as_str kind) (ls_fence_token old) (ls_fence_token l))).
Proof.
  intros (_ & Hk & _ & Hf & _ & -> & _)%claim_Ok. split.
  - intros fresh id now'. unfold begin_fenced.
    rewrite (fun H => proj2 (require_fence_Ok l _ (MkLeaseRow (ls_fence_token l) owner (now + secs * micros)) H));
      [done| |done].
    simpl. by rewrite Hk, lookup_insert_eq.
  - intros old fresh id now' Hko Hle. unfold begin_fenced, require_fence. rewrite Hko. simpl. rewrite lookup_insert_eq. simpl.
    destruct (Z.eqb_spec (ls_fence_token l) (ls_fence_token old)); [lia|]. simpl. unfold lkey in Hko.
    by injection Hko as -> -> ->.
Qed.
Example stale_holder_cannot_send_witness :
  exists l db1, claim Testnet "w1" ProofBuild "gw-b" 30 1000 lease_db = Ok (l, db1) /\
    begin_fenced 8%N 1%N (MkLease Testnet "w1" ProofBuild 4 "gw-a") 2000 db1 =
      Err (AtFenceLost (FenceLost Testnet "w1" "PROOF_BUILD" 4 5)).
Proof.
  do 2 eexists. split; [vm_compute; reflexivity|].
  edestruct (stale_holder_cannot_send Testnet "w1" ProofBuild "gw-b" 30 1000 lease_db) as [_ H];
    [vm_compute; reflexivity|].
  exact (H (MkLease Testnet "w1" ProofBuild 4 "gw-a") 8%N 1%N 2000 eq_refl ltac:(vm_compute; discriminate)).
Defined.
