(* ===== verification/Payload.v ===== *)
(** * TIG write payloads: [crates/pool-workflow/src/payload.rs]

    The one rendering of a precommit and of a benchmark commitment that the
    controller digests and the gateway sends.  SHA-256 and serde_json's printer
    are third-party and appear as the parameters [sha256] and [to_string]. *)
From S2P Require Import Prelude BTreeMap Json Domain Store.
Open Scope Z_scope.

Record TrackSettings := MkTrackSettings {
  ts_num_bundles : Z;
  ts_fuel_budget : Z;
  ts_hyperparameters : btree Value;
}.
Record PrecommitSubmission := MkSubmission {
  ps_player_id : string;
  ps_block_id : string;
  ps_challenge_id : string;
  ps_algorithm_id : string;
  ps_compute_type : string;
  ps_track_settings : btree TrackSettings;
}.

(** [json!] on an [i64]. *)
Definition json_i64 (n : Z) : Value := JNumber (if 0 <=? n then PosInt n else NegInt n).

Definition track_body (s : TrackSettings) : Value :=
  json_object [("hyperparameters", JObject (bt_collect (ts_hyperparameters s)));
               ("fuel_budget", json_u64 (ts_fuel_budget s));
               ("num_bundles", json_u64 (ts_num_bundles s))].

Definition precommit_body (submission : PrecommitSubmission) : Value :=
  let track_settings := fold_left (fun m kv => bt_insert kv.1 (track_body kv.2) m)
                          (ps_track_settings submission) bt_empty in
  json_object
    [("settings", json_object [("player_id", JString (ps_player_id submission));
                               ("block_id", JString (ps_block_id submission));
                               ("challenge_id", JString (ps_challenge_id submission));
                               ("algorithm_id", JString (ps_algorithm_id submission));
                               ("track_id", JString "")]);
     ("track_settings", JObject track_settings);
     ("compute_type", JString (ps_compute_type submission))].

Definition precommit_digest (sha256 : string -> Bytes) (to_string : Value -> string)
    (submission : PrecommitSubmission) : Bytes := sha256 (to_string (precommit_body submission)).

(** What a recorded decision contributes. *)
Record DecisionPayloadInputs := MkPayloadInputs {
  pi_anchor_block_id : string;
  pi_selected_challenge : string;
  pi_selected_algorithm : string;
  pi_compute_type : string;
  pi_track_settings : Value;
}.

Inductive PayloadError :=
| Shape (track field expected : string)
| NotAnObject
| Commitment (what : string).

(** The closure [number] of [from_decision]. *)
Definition number_field (track_id : string) (settings : Value) (field : string) : result PayloadError Z :=
  ok_or (and_then (json_get field settings) json_as_u64) (Shape track_id field "non-negative integer").

Definition hyperparameters_field (track_id : string) (settings : Value) : result PayloadError (btree Value) :=
  match json_get "hyperparameters" settings with
  | None | Some JNull => Ok bt_empty
  | Some (JObject m) => Ok (bt_collect m)
  | Some _ => Err (Shape track_id "hyperparameters" "object or null")
  end.

Definition track_of (acc : btree TrackSettings) (entry : string * Value) : result PayloadError (btree TrackSettings) :=
  let '(track_id, settings) := entry in
  let? hyperparameters := hyperparameters_field track_id settings in
  let? num_bundles := number_field track_id settings "num_bundles" in
  let? fuel_budget := number_field track_id settings "fuel_budget" in
  Ok (bt_insert track_id (MkTrackSettings num_bundles fuel_budget hyperparameters) acc).

Definition from_decision (player_id : string) (inputs : DecisionPayloadInputs)
  : result PayloadError PrecommitSubmission :=
  let? tracks := ok_or (json_as_object (pi_track_settings inputs)) NotAnObject in
  let? track_settings := foldM track_of bt_empty tracks in
  Ok (MkSubmission player_id (pi_anchor_block_id inputs) (pi_selected_challenge inputs)
        (pi_selected_algorithm inputs) (pi_compute_type inputs) track_settings).

(** ** Benchmark commitments *)

Record BenchmarkSubmission := MkBenchmarkSubmission {
  bs_benchmark_id : string;
  bs_merkle_root : string;
  bs_solution_quality : list Z;
}.

Definition benchmark_body (submission : BenchmarkSubmission) : Value :=
  json_object [("benchmark_id", JString (bs_benchmark_id submission));
               ("stopped", JBool false);
               ("merkle_root", JString (bs_merkle_root submission));
               ("solution_quality", JArray (map json_i64 (bs_solution_quality submission)))].
Definition benchmark_digest (sha256 : string -> Bytes) (to_string : Value -> string)
    (submission : BenchmarkSubmission) : Bytes := sha256 (to_string (benchmark_body submission)).

Definition commitment_matches_confirmed (submission : BenchmarkSubmission) (confirmed_num_nonces : Z)
  : result PayloadError unit :=
  let len := Z.of_nat (length (bs_solution_quality submission)) in
  let found := if is_u64 len then len else u64_max in
  if negb (found =? confirmed_num_nonces) then Err (Commitment "solution_quality length")
  else if negb (String.length (bs_merkle_root submission) =? 64)%nat ||
          negb (all_bytes is_lower_hex (bs_merkle_root submission))
  then Err (Commitment "merkle_root is not 64 lowercase hex characters")
  else Ok tt.

(** ** Specification *)

(** A submission as Rust can hold one: its maps are [BTreeMap]s. *)
Definition submission_wf (s : PrecommitSubmission) : Prop :=
  bt_wf (ps_track_settings s) /\
  Forall (fun kv => bt_wf (ts_hyperparameters kv.2)) (ps_track_settings s).

(** The inputs a body's own [track_settings] and header fields give. *)
Definition inputs_of (s : PrecommitSubmission) : DecisionPayloadInputs :=
  MkPayloadInputs (ps_block_id s) (ps_challenge_id s) (ps_algorithm_id s) (ps_compute_type s)
    (default JNull (json_get "track_settings" (precommit_body s))).

(** ** Lemmas *)

Lemma track_settings_of_body s :
  bt_wf (ps_track_settings s) ->
  json_get "track_settings" (precommit_body s) = Some (JObject (bt_map (fun _ => track_body) (ps_track_settings s))).
Proof.
  intros Hwf. unfold precommit_body.
  change (Some (JObject (fold_left (fun m kv => bt_insert kv.1 (track_body kv.2) m) (ps_track_settings s) bt_empty)) =
    Some (JObject (bt_map (fun _ => track_body) (ps_track_settings s)))).
  do 2 f_equal. rewrite <- (bt_collect_id (bt_map (fun _ => track_body) (ps_track_settings s))) by (by apply bt_map_wf).
  unfold bt_collect, bt_map. generalize (@bt_empty Value). induction (ps_track_settings s) as [|[k v] l IH]; intros m; simpl; [done|].
  apply IH. unfold bt_wf in *. simpl in Hwf. by inversion Hwf.
Qed.

Lemma track_of_body acc k s :
  bt_wf (ts_hyperparameters s) -> track_of acc (k, track_body s) = Ok (bt_insert k s acc).
Proof.
  intros Hwf. unfold track_of, hyperparameters_field, number_field. destruct s as [b f h]. simpl in *.
  by rewrite !bt_collect_id by (done || apply bt_collect_wf).
Qed.

Lemma tracks_of_body (l : btree TrackSettings) acc :
  Forall (fun kv => bt_wf (ts_hyperparameters kv.2)) l ->
  foldM track_of acc (bt_map (fun _ => track_body) l) =
    Ok (fold_left (fun m kv => bt_insert kv.1 kv.2 m) l acc).
Proof.
  revert acc; induction l as [|[k s] l IH]; intros acc Hl; [done|].
  inversion Hl as [|?? Hs Hl']; subst. unfold bt_map. cbn [map foldM fst snd fold_left].
  rewrite track_of_body by done. by apply IH.
Qed.

Lemma from_decision_inputs s : submission_wf s -> from_decision (ps_player_id s) (inputs_of s) = Ok s.
Proof.
  intros [Hwf Hh].
  assert (Hin : pi_track_settings (inputs_of s) = JObject (bt_map (fun _ => track_body) (ps_track_settings s))).
  { change (default JNull (json_get "track_settings" (precommit_body s)) =
      JObject (bt_map (fun _ => track_body) (ps_track_settings s))). by rewrite track_settings_of_body. }
  unfold from_decision. rewrite Hin. cbn [json_as_object ok_or]. rewrite tracks_of_body by done.
  fold (bt_collect (ps_track_settings s)). rewrite bt_collect_id by done. by destruct s.
Qed.

(** ** Properties *)

(** C40. The two sides render the same bytes: rebuilding a submission from the
    decision fields and the track settings of its own body gives the submission
    back, so the digest recorded at admission is the digest of what the gateway
    rebuilds and sends; and the body determines the submission, so two
    submissions with the same body are the same. *)
Theorem payload_roundtrip sha256 to_string s s' :
  submission_wf s ->
  from_decision (ps_player_id s) (inputs_of s) = Ok s /\
  (forall r, from_decision (ps_player_id s) (inputs_of s) = Ok r ->
     precommit_digest sha256 to_string r = precommit_digest sha256 to_string s) /\
  (submission_wf s' -> precommit_body s = precommit_body s' -> s = s').
Proof.
  intros Hwf. pose proof (from_decision_inputs s Hwf) as Hs. split_and!; [done|congruence|].
  intros Hwf' Hbody. pose proof (from_decision_inputs s' Hwf') as Hs'.
  assert (inputs_of s = inputs_of s') as Hin.
  { unfold inputs_of. rewrite Hbody. unfold precommit_body, json_object in Hbody. simpl in Hbody.
    injection Hbody as E1 E2 E3 E4 E5 _. congruence. }
  assert (ps_player_id s = ps_player_id s') as Hp.
  { unfold precommit_body, json_object in Hbody. simpl in Hbody. by injection Hbody. }
  congruence.
Qed.
Definition sample_submission : PrecommitSubmission :=
  MkSubmission "p1" "blk" "c001" "c001_a1" "cpu"
    [("t1", MkTrackSettings 4 1000 [("alpha", json_u64 3)]); ("t2", MkTrackSettings 5 2000 [])].
Example payload_roundtrip_witness :
  from_decision "p1" (inputs_of sample_submission) = Ok sample_submission.
Proof.
  refine (proj1 (payload_roundtrip (fun _ => []) (fun _ => "") sample_submission sample_submission _)).
  split; repeat constructor.
Defined.

(** A commitment is accepted for building exactly when its quality vector has
    the confirmed number of entries and its root is 64 lowercase hexadecimal
    characters. *)
Theorem commitment_matches_iff s n :
  Z.of_nat (length (bs_solution_quality s)) <= u64_max ->
  commitment_matches_confirmed s n = Ok tt <->
  Z.of_nat (length (bs_solution_quality s)) = n /\ String.length (bs_merkle_root s) = 64%nat /\
  all_bytes is_lower_hex (bs_merkle_root s) = true.
Proof.
  intros Hlen. unfold commitment_matches_confirmed, in_unsigned.
  rewrite (proj2 (Z.leb_le 0 _)), (proj2 (Z.leb_le _ u64_max)) by lia. simpl.
  destruct (Z.eqb_spec (Z.of_nat (length (bs_solution_quality s))) n) as [E|E]; simpl; [|naive_solver].
  destruct (Nat.eqb_spec (String.length (bs_merkle_root s)) 64) as [E'|E']; simpl; [|naive_solver].
  destruct (all_bytes is_lower_hex (bs_merkle_root s)); simpl; naive_solver.
Qed.
Definition sample_root : string := to_hex (replicate 32%nat 171).
Example commitment_matches_iff_witness :
  commitment_matches_confirmed (MkBenchmarkSubmission "b1" sample_root [5; -3]) 2 = Ok tt.
Proof. apply commitment_matches_iff; [vm_compute; discriminate|]. split_and!; vm_compute; reflexivity. Defined.
