(* ===== verification/Admission.v ===== *)
(** * Precommit admission: [crates/pool-workflow/src/decision.rs]

    The admission transaction: the recount of unverified workflows, the anchor
    check, the workflow row, the decision row and the precommit intent, all or
    nothing under the serialized lock.  [text_le] is the database's text
    collation, which [ORDER BY ... block_id] uses. *)
From S2P Require Import Prelude Text BTreeMap Json Domain Store Workflow Intent Attempt Payload.
Open Scope Z_scope.

Record AnchorSnapshot := MkAnchor { an_block_id : string; an_content_digest : Bytes; an_height : Z }.
Record RecordedDraw := MkDraw { dw_domain : string; dw_draw_ranks : btree Value; dw_tie : option RecordedTie }.
Record NewDecision := MkNewDecision {
  nd_network : Network;
  nd_workflow_id : string;
  nd_generation : Z;
  nd_anchor : AnchorSnapshot;
  nd_draw : RecordedDraw;
  nd_selected_challenge : string;
  nd_selected_algorithm : string;
  nd_compute_type : string;
  nd_track_settings : Value;
  nd_reserve_inputs : Value;
  nd_precommit_reserve : string;
  nd_config_digest : Bytes;
  nd_payload_digest : Bytes;
  nd_trace_id : option TraceId;
}.
Record AdmittedPrecommit := MkAdmitted {
  ad_decision_id : Uuid; ad_intent : WriteIntent; ad_pool_unverified : Z; ad_unverified_limit : Z }.

Inductive AdmissionError :=
| PrecommitAlreadyTransmitted (network : Network) (workflow_id : string)
| AdUnavailable (e : DbError)
| AdReadBack (e : IntentError)
| AtUnverifiedLimit (pool_unverified unverified_limit : Z)
| AlreadyDecided (network : Network) (workflow_id : string) (generation : Z)
| LimitNotPositive (limit : Z)
| WorkflowSettled (network : Network) (workflow_id state : string)
| StaleAnchor (network : Network) (offered_block_id newest_block_id : string)
| NoUsableSnapshot (network : Network)
| IntentExists (network : Network) (workflow_id : string) (generation : Z)
| ReserveNotCanonical (value reason : string)
| ComputeTypeMissing (network : Network) (workflow_id : string) (generation : Z).

(** [value.starts_with('0')]. *)
Definition starts_with_zero (s : string) : bool :=
  match s with String c _ => N.eqb (Ascii.N_of_ascii c) 48 | EmptyString => false end.

Definition canonical_atoms (value : string) : result AdmissionError unit :=
  if (String.length value =? 0)%nat then Err (ReserveNotCanonical value "it is empty")
  else if negb (all_bytes is_ascii_digit value)
  then Err (ReserveNotCanonical value "it holds something other than base-10 digits")
  else if (78 <? String.length value)%nat
  then Err (ReserveNotCanonical value "it is wider than the column's 78 digits")
  else if (1 <? String.length value)%nat && starts_with_zero value
  then Err (ReserveNotCanonical value "it has a redundant leading zero")
  else Ok tt.

(** [$17::numeric] of a string of digits. *)
Fixpoint atoms_from (acc : Z) (s : string) : Z :=
  match s with
  | EmptyString => acc
  | String c s' => atoms_from (10 * acc + (Z.of_N (Ascii.N_of_ascii c) - 48)) s'
  end.
Definition atoms_value (s : string) : Z := atoms_from 0 s.

(** ** Reads of the transaction *)

(** [ORDER BY height DESC, block_id DESC LIMIT 1] over the usable snapshots. *)
Definition SnapKey : Type := (Network * string * Bytes) * SnapshotRow.
Definition usable (n : Network) (s : SnapKey) : bool :=
  bool_decide (s.1.1.1 = n) && sr_reads_complete s.2 && sr_active_cache_ready s.2.
Definition snapshot_le (text_le : string -> string -> bool) (a b : SnapKey) : bool :=
  match Z.compare (sr_height b.2) (sr_height a.2) with
  | Lt => true | Gt => false | Eq => text_le b.1.1.2 a.1.1.2
  end.
Definition newest_usable (text_le : string -> string -> bool) (n : Network) (db : Db) : option SnapKey :=
  head (sort_by (snapshot_le text_le)
    (filter (fun s => usable n s = true) (map_to_list (db_snapshot db) : list SnapKey))).

Definition require_newest_anchor (text_le : string -> string -> bool) (d : NewDecision) (db : Db)
  : result AdmissionError unit :=
  match newest_usable text_le (nd_network d) db with
  | None => Err (NoUsableSnapshot (nd_network d))
  | Some s =>
      if negb (bool_decide (s.1.1.2 = an_block_id (nd_anchor d))) ||
         negb (bool_decide (s.1.2 = an_content_digest (nd_anchor d)))
      then Err (StaleAnchor (nd_network d) (an_block_id (nd_anchor d)) s.1.1.2)
      else Ok tt
  end.

(** Open unverified intervals of the network. *)
Definition count_unverified (n : Network) (db : Db) : Z :=
  Z.of_nat (length (filter (fun w => wf_network w = n /\ wf_unverified_to_block w = None) (rows (db_workflow db)))).

(** ** [pool.precommit_decision] *)

Definition decision_taken (n : Network) (workflow_id : string) (generation : Z) (db : Db) : bool :=
  exists_row (fun r => bool_decide (dr_network r = n) && bool_decide (dr_workflow_id r = workflow_id) &&
                bool_decide (dr_generation r = generation)) (db_decision db).

Definition decision_row (fresh : Uuid) (d : NewDecision) (pool_unverified unverified_limit : Z) : DecisionRow :=
  MkDecisionRow fresh (nd_network d) (nd_workflow_id d) (nd_generation d)
    (an_block_id (nd_anchor d)) (an_content_digest (nd_anchor d)) (an_height (nd_anchor d))
    (dw_domain (nd_draw d)) (dw_draw_ranks (nd_draw d)) (dw_tie (nd_draw d))
    (nd_selected_challenge d) (nd_selected_algorithm d) (Some (nd_compute_type d)) (nd_track_settings d)
    pool_unverified unverified_limit (nd_reserve_inputs d) (atoms_value (nd_precommit_reserve d))
    (nd_config_digest d).

(** The [CHECK]s of migration 0005. *)
Definition decision_checks (r : DecisionRow) : list (string * bool) :=
  [("precommit_decision_anchor_digest_is_sha256", (length (dr_anchor_digest r) =? 32)%nat);
   ("precommit_decision_anchor_height_non_negative", 0 <=? dr_anchor_height r);
   ("precommit_decision_candidates_are_ranked",
      opt_all (fun t => forallb (fun c => bt_contains c (dr_tie_draw_ranks r)) (rt_candidates t)) (dr_tie r));
   ("precommit_decision_config_digest_is_sha256", (length (dr_config_digest r) =? 32)%nat);
   ("precommit_decision_count_non_negative", 0 <=? dr_pool_unverified r);
   ("precommit_decision_generation_positive", 1 <=? dr_generation r);
   ("precommit_decision_limit_positive", 1 <=? dr_unverified_limit r);
   ("precommit_decision_reserve_non_negative", 0 <=? dr_precommit_reserve r);
   ("precommit_decision_selection_has_a_rank", bt_contains (dr_selected_challenge r) (dr_tie_draw_ranks r));
   ("precommit_decision_tie_winner_is_the_selection",
      opt_all (fun t => String.eqb (rt_winner t) (dr_selected_challenge r)) (dr_tie r));
   ("precommit_decision_under_limit", dr_pool_unverified r <? dr_unverified_limit r);
   ("precommit_decision_winner_is_a_candidate",
      opt_all (fun t => bool_decide (rt_winner t ∈ rt_candidates t)) (dr_tie r))].

Definition COMPUTE_TYPE_MESSAGE : string := "a decision names the compute type it was made for".
(** [length(trim(t)) = 0]. *)
Definition blank (t : string) : bool := all_bytes (fun c => N.eqb (Ascii.N_of_ascii c) 32) t.

(** [INSERT ... ON CONFLICT DO NOTHING], with the trigger of migration 0013
    and the anchor's foreign key. *)
Definition insert_decision (r : DecisionRow) (db : Db) : result DbError (option Db) :=
  if opt_all blank (dr_compute_type r) then Err (RaiseException COMPUTE_TYPE_MESSAGE)
  else match first_violation (decision_checks r) with
  | Some c => Err (CheckViolation c)
  | None =>
      if decision_taken (dr_network r) (dr_workflow_id r) (dr_generation r) db then Ok None
      else match db_decision db !! dr_decision_id r with
      | Some _ => Err (UniqueViolation "precommit_decision_pkey")
      | None =>
          match db_snapshot db !! (dr_network r, dr_anchor_block_id r, dr_anchor_digest r) with
          | None => Err (ForeignKeyViolation "precommit_decision_anchor_is_persisted")
          | Some _ => Ok (Some (with_decision (<[dr_decision_id r := r]> (db_decision db)) db))
          end
      end
  end.

(** [db.message().contains("names the compute type")]. *)
Definition names_compute_type (e : DbError) : bool :=
  match e with RaiseException m => str_contains "names the compute type" m | _ => false end.

(** ** The transaction *)

(** The workflow row of the decision: created with the interval open at the
    anchor, or an existing one that is still [DECIDED]. *)
Definition admit_workflow (d : NewDecision) (db : Db) : result AdmissionError Db :=
  match db_workflow db !! (nd_network d, nd_workflow_id d) with
  | None =>
      map_err AdUnavailable (insert_workflow
        (MkWorkflow (nd_workflow_id d) (nd_network d) Decided 1 PoolBootstrap POOL_BOOTSTRAP_OWNER None
           (an_height (nd_anchor d)) None None None None None None None) db)
  | Some w =>
      if bool_decide (parse_state (WorkflowState_as_str (wf_state w)) = Some Decided) then Ok db
      else Err (WorkflowSettled (nd_network d) (nd_workflow_id d) (WorkflowState_as_str (wf_state w)))
  end.

(** The intent of the decision: inserted unless a precommit was transmitted. *)
Definition admitted_intent (fresh : Uuid) (now : Z) (d : NewDecision) : WriteIntent :=
  MkIntent fresh (nd_network d) (nd_workflow_id d) Precommit (nd_generation d) None (nd_payload_digest d) None
    (nd_trace_id d) Prepared now.
Definition admit_intent (fresh : Uuid) (now : Z) (d : NewDecision) (db : Db) : result AdmissionError (WriteIntent * Db) :=
  if transmitted_precommit_exists (nd_network d) (nd_workflow_id d) db
  then Err (PrecommitAlreadyTransmitted (nd_network d) (nd_workflow_id d))
  else
    let row := admitted_intent fresh now d in
    let? db' := map_err (fun e =>
        if bool_decide (db_constraint e = Some "tig_write_intent_unique_generation")
        then IntentExists (nd_network d) (nd_workflow_id d) (nd_generation d)
        else AdUnavailable e) (insert_intent row db) in
    let? i := map_err AdReadBack (row_to_intent (intent_columns row)) in
    Ok (i, db').

Definition admit_precommit (text_le : string -> string -> bool) (fresh_decision fresh_intent : Uuid) (now : Z)
    (d : NewDecision) (unverified_limit : Z) (db : Db) : result AdmissionError (AdmittedPrecommit * Db) :=
  if unverified_limit <? 1 then Err (LimitNotPositive unverified_limit)
  else
    let? _ := canonical_atoms (nd_precommit_reserve d) in
    if decision_taken (nd_network d) (nd_workflow_id d) (nd_generation d) db
    then Err (AlreadyDecided (nd_network d) (nd_workflow_id d) (nd_generation d))
    else
      let? _ := require_newest_anchor text_le d db in
      let pool_unverified := count_unverified (nd_network d) db in
      if unverified_limit <=? pool_unverified
      then Err (AtUnverifiedLimit pool_unverified unverified_limit)
      else
        let? db1 := admit_workflow d db in
        let? inserted := map_err (fun e =>
            if names_compute_type e then ComputeTypeMissing (nd_network d) (nd_workflow_id d) (nd_generation d)
            else AdUnavailable e)
            (insert_decision (decision_row fresh_decision d pool_unverified unverified_limit) db1) in
        let? db2 := ok_or inserted (AlreadyDecided (nd_network d) (nd_workflow_id d) (nd_generation d)) in
        let? x := admit_intent fresh_intent now d db2 in
        Ok (MkAdmitted fresh_decision (fst x) pool_unverified unverified_limit, snd x).

(** [payload_inputs]. *)
Definition payload_inputs (n : Network) (workflow_id : string) (generation : Z) (db : Db)
  : result AdmissionError (option DecisionPayloadInputs) :=
  match head (filter (fun r => dr_network r = n /\ dr_workflow_id r = workflow_id /\ dr_generation r = generation)
                (rows (db_decision db))) with
  | None => Ok None
  | Some r =>
      let? compute_type := ok_or (dr_compute_type r) (ComputeTypeMissing n workflow_id generation) in
      Ok (Some (MkPayloadInputs (dr_anchor_block_id r) (dr_selected_challenge r) (dr_selected_algorithm r)
                  compute_type (dr_track_settings r)))
  end.

(** ** Lemmas: counting open intervals *)

Definition is_open (n : Network) (w : Workflow) : bool :=
  bool_decide (wf_network w = n) && is_none (wf_unverified_to_block w).
Definition open_count (n : Network) (t : gmap (Network * string) Workflow) : Z :=
  Z.of_nat (length (filter (fun w => is_open n w = true) (rows t))).

Lemma is_open_true n w : is_open n w = true <-> wf_network w = n /\ wf_unverified_to_block w = None.
Proof.
  unfold is_open. rewrite andb_true_iff, bool_decide_eq_true. destruct (wf_unverified_to_block w); simpl; naive_solver.
Qed.
Lemma count_unverified_open n db : count_unverified n db = open_count n (db_workflow db).
Proof.
  unfold count_unverified, open_count. do 2 f_equal. apply list_filter_iff. intros w. by rewrite is_open_true.
Qed.

Lemma open_count_insert n k w t :
  open_count n (<[k := w]> t) = (if is_open n w then 1 else 0) + open_count n (delete k t).
Proof.
  unfold open_count, rows. rewrite <- insert_delete_eq.
  rewrite (map_to_list_insert (delete k t) k w) by apply lookup_delete_eq.
  rewrite fmap_cons, filter_cons. simpl snd.
  case_decide as Ho; [rewrite Ho, length_cons; lia|]. destruct (is_open n w); [done|]. lia.
Qed.
Lemma open_count_fresh n k w t : t !! k = None -> is_open n w = true -> open_count n (<[k := w]> t) = open_count n t + 1.
Proof. intros Hk Ho. rewrite open_count_insert, Ho, delete_id by done. lia. Qed.
Lemma open_count_update n k w w' t :
  t !! k = Some w -> (is_open n w' = true -> is_open n w = true) -> open_count n (<[k := w']> t) <= open_count n t.
Proof.
  intros Hk Hle. rewrite open_count_insert. rewrite <- (insert_id t k w Hk) at 2. rewrite open_count_insert.
  destruct (is_open n w'); [rewrite Hle by done; lia|]. destruct (is_open n w); lia.
Qed.
Lemma open_count_other n k w t :
  t !! k = None -> is_open n w = false -> open_count n (<[k := w]> t) = open_count n t.
Proof. intros Hk Ho. rewrite open_count_insert, Ho, delete_id by done. lia. Qed.

(** ** Lemmas: the anchor *)

Section anchor.
Context (text_le : string -> string -> bool).
Context (Htotal : forall a b, text_le a b = true \/ text_le b a = true).
Context (Htrans : forall a b c, text_le a b = true -> text_le b c = true -> text_le a c = true).

Lemma snapshot_le_total a b : snapshot_le text_le a b = true \/ snapshot_le text_le b a = true.
Proof using Htotal.
  unfold snapshot_le. rewrite (Z.compare_antisym (sr_height b.2) (sr_height a.2)).
  destruct (sr_height b.2 ?= sr_height a.2); simpl; auto.
Qed.
Lemma snapshot_le_trans a b c :
  snapshot_le text_le a b = true -> snapshot_le text_le b c = true -> snapshot_le text_le a c = true.
Proof using Htrans.
  unfold snapshot_le. destruct (Z.compare_spec (sr_height b.2) (sr_height a.2)) as [E|E|E];
    destruct (Z.compare_spec (sr_height c.2) (sr_height b.2)) as [F|F|F]; try done; intros Hab Hbc;
    destruct (Z.compare_spec (sr_height c.2) (sr_height a.2)) as [G|G|G]; try done; try lia.
  by eapply Htrans.
Qed.

(** The newest usable snapshot is usable and none is higher. *)
Lemma newest_usable_spec n db s :
  newest_usable text_le n db = Some s ->
  db_snapshot db !! s.1 = Some s.2 /\ usable n s = true /\
  forall k r, db_snapshot db !! k = Some r -> usable n (k, r) = true -> sr_height r <= sr_height s.2.
Proof using Htotal Htrans.
  unfold newest_usable. set (l := filter _ _). intros Hh.
  destruct (sort_by (snapshot_le text_le) l) as [|x l'] eqn:Hs; [done|]. injection Hh as ->.
  destruct (sort_by_head_least _ snapshot_le_total snapshot_le_trans _ _ _ Hs) as [Hin Hleast].
  unfold l in Hin. apply list_elem_of_filter in Hin as [Hu Hm]. destruct s as [k0 r0].
  apply elem_of_map_to_list in Hm. split_and!; try done.
  intros k r Hk Huk. assert (Hle : snapshot_le text_le (k0, r0) (k, r) = true).
  { apply Hleast. unfold l. apply list_elem_of_filter. split; [done|]. by apply elem_of_map_to_list. }
  unfold snapshot_le in Hle. simpl in *. destruct (Z.compare_spec (sr_height r) (sr_height r0)); done || lia.
Qed.
End anchor.

(** ** Lemmas: the parts of the transaction *)

Lemma insert_decision_Some r db db' :
  insert_decision r db = Ok (Some db') <->
  opt_all blank (dr_compute_type r) = false /\ Forall (fun c => c.2 = true) (decision_checks r) /\
  decision_taken (dr_network r) (dr_workflow_id r) (dr_generation r) db = false /\
  db_decision db !! dr_decision_id r = None /\
  is_Some (db_snapshot db !! (dr_network r, dr_anchor_block_id r, dr_anchor_digest r)) /\
  db' = with_decision (<[dr_decision_id r := r]> (db_decision db)) db.
Proof.
  unfold insert_decision. rewrite <- first_violation_None.
  destruct (opt_all blank _); [naive_solver|]. destruct (first_violation _); [naive_solver|].
  destruct (decision_taken _ _ _ db); [naive_solver|]. destruct (db_decision db !! _); [naive_solver|].
  destruct (db_snapshot db !! _) as [s|]; [naive_solver|].
  split; [done|]. intros (_ & _ & _ & _ & [x Hx] & _). done.
Qed.

(** The workflow part leaves a [DECIDED] workflow and opens at most one
    interval. *)
Lemma admit_workflow_Ok d db db1 :
  workflows_ok (db_workflow db) -> admit_workflow d db = Ok db1 ->
  exists t, db1 = with_workflow t db /\ workflows_ok t /\
    (exists w, t !! (nd_network d, nd_workflow_id d) = Some w /\ wf_state w = Decided) /\
    (t = db_workflow db \/
     db_workflow db !! (nd_network d, nd_workflow_id d) = None /\ exists w, is_open (nd_network d) w = true /\
       t = <[(nd_network d, nd_workflow_id d) := w]> (db_workflow db)).
Proof.
  intros Hok. unfold admit_workflow.
  destruct (db_workflow db !! (nd_network d, nd_workflow_id d)) as [w|] eqn:Hw.
  - rewrite WorkflowState_roundtrip. case_bool_decide as Hs; [|done]. intros [= <-].
    exists (db_workflow db). split; [by destruct db|]. split; [done|]. split; [|by left]. exists w.
    split; [done|]. congruence.
  - set (w := MkWorkflow _ _ _ _ _ _ _ _ _ _ _ _ _ _ _).
    destruct (insert_workflow w db) as [x|] eqn:Hins; simpl; [|done]. intros [= <-].
    assert (Hc : create (nd_network d) (nd_workflow_id d) PoolBootstrap POOL_BOOTSTRAP_OWNER (an_height (nd_anchor d)) db
      = Ok (w, x)).
    { unfold create. fold w. rewrite Hins. simpl. by rewrite read_row. }
    destruct (create_ok _ _ _ _ _ _ _ _ Hok Hc) as (Hok' & _ & -> & _).
    eexists. split; [reflexivity|]. split; [done|]. split.
    + exists w. by rewrite lookup_insert_eq.
    + right. split; [done|]. exists w. split; [|done]. apply is_open_true. done.
Qed.

Lemma admit_intent_Ok fresh now d db i db' :
  intents_ok (db_intent db) -> (forall t, nd_trace_id d = Some t -> trace_ok t) ->
  admit_intent fresh now d db = Ok (i, db') ->
  transmitted_precommit_exists (nd_network d) (nd_workflow_id d) db = false /\
  i = admitted_intent fresh now d /\ intents_ok (db_intent db') /\ db_intent db !! fresh = None /\
  db' = with_intent (<[fresh := i]> (db_intent db)) db.
Proof.
  intros Hok Ht. unfold admit_intent. destruct (transmitted_precommit_exists _ _ db) eqn:Htr; [done|].
  destruct (insert_intent _ db) as [x|] eqn:Hins; simpl; [|by destruct (bool_decide _)].
  apply insert_intent_Ok in Hins as (Ha & Hg & Hst).
  destruct (stored_intent_ok (admitted_intent fresh now d) _ _ Hok Ht Ha Hg Hst) as (Hi & Hok' & -> & Hn & _).
  rewrite (read_intent _ _ Hi). simpl. intros [= <- <-]. by split_and!.
Qed.

(** Everything a successful admission established and did. *)
Lemma admit_precommit_effect text_le fd fi now d limit db a db' :
  workflows_ok (db_workflow db) -> intents_ok (db_intent db) ->
  (forall t, nd_trace_id d = Some t -> trace_ok t) ->
  admit_precommit text_le fd fi now d limit db = Ok (a, db') ->
  exists t,
    1 <= limit /\ canonical_atoms (nd_precommit_reserve d) = Ok tt /\
    decision_taken (nd_network d) (nd_workflow_id d) (nd_generation d) db = false /\
    require_newest_anchor text_le d db = Ok tt /\ count_unverified (nd_network d) db < limit /\
    transmitted_precommit_exists (nd_network d) (nd_workflow_id d) db = false /\
    a = MkAdmitted fd (admitted_intent fi now d) (count_unverified (nd_network d) db) limit /\
    admit_workflow d db = Ok (with_workflow t db) /\
    db_decision db !! fd = None /\ db_intent db !! fi = None /\
    insert_decision (decision_row fd d (count_unverified (nd_network d) db) limit) (with_workflow t db) =
      Ok (Some (with_decision (<[fd := decision_row fd d (count_unverified (nd_network d) db) limit]> (db_decision db))
            (with_workflow t db))) /\
    intents_ok (db_intent db') /\
    db' = with_intent (<[fi := admitted_intent fi now d]> (db_intent db))
            (with_decision (<[fd := decision_row fd d (count_unverified (nd_network d) db) limit]> (db_decision db))
               (with_workflow t db)).
Proof.
  intros Hwok Hiok Ht. unfold admit_precommit. destruct (Z.ltb_spec limit 1); [done|].
  destruct (canonical_atoms _) as [[]|] eqn:Hcan; [|done].
  destruct (decision_taken _ _ _ db) eqn:Hdt; [done|].
  destruct (require_newest_anchor _ _ _) as [[]|] eqn:Hanc; [|done].
  destruct (Z.leb_spec limit (count_unverified (nd_network d) db)); [done|].
  destruct (admit_workflow d db) as [db1|] eqn:Hw; [|done].
  destruct (admit_workflow_Ok _ _ _ Hwok Hw) as (t & -> & _).
  destruct (insert_decision _ _) as [[db2|]|e] eqn:Hins; simpl; [|done|by destruct (names_compute_type e)].
  apply insert_decision_Some in Hins as Hd. destruct Hd as (_ & _ & _ & Hfd & _ & ->).
  destruct (admit_intent _ _ _ _) as [[i db3]|] eqn:Hi; [|done]. intros [= <- <-].
  destruct (admit_intent_Ok _ _ _ (with_decision _ (with_workflow t db)) _ _ Hiok Ht Hi) as (Htr & -> & Hok' & Hfi & ->).
  exists t. split_and!; try done.
Qed.

Lemma require_newest_anchor_Ok text_le d db :
  require_newest_anchor text_le d db = Ok tt <->
  exists s, newest_usable text_le (nd_network d) db = Some s /\
    s.1.1.2 = an_block_id (nd_anchor d) /\ s.1.2 = an_content_digest (nd_anchor d).
Proof.
  unfold require_newest_anchor. destruct (newest_usable _ _ _) as [s|]; [|naive_solver].
  destruct (bool_decide _) eqn:E1; [apply bool_decide_eq_true in E1|apply bool_decide_eq_false in E1]; simpl; [|naive_solver].
  destruct (bool_decide _) eqn:E2; [apply bool_decide_eq_true in E2|apply bool_decide_eq_false in E2]; simpl; naive_solver.
Qed.

(** ** Properties *)

(** C8. Admission is gated and all-or-nothing.  When a precommit is admitted: the
    recount was strictly below the limit and is at most the limit afterwards;
    the anchor is a persisted, usable snapshot and no usable snapshot of the
    network is higher; the reserve is canonical; nothing was decided for this
    generation and no precommit of the workflow can have reached TIG; the
    workflow is [DECIDED]; and exactly one decision row and one [PREPARED]
    intent with the decision's digest were added, to a database otherwise
    changed at most by the workflow's own row. *)
Theorem admission_gated text_le fd fi now d limit db a db' :
  (forall x y, text_le x y = true \/ text_le y x = true) ->
  (forall x y z, text_le x y = true -> text_le y z = true -> text_le x z = true) ->
  workflows_ok (db_workflow db) -> intents_ok (db_intent db) ->
  (forall t, nd_trace_id d = Some t -> trace_ok t) ->
  admit_precommit text_le fd fi now d limit db = Ok (a, db') ->
  let n := nd_network d in let id := nd_workflow_id d in
  0 <= count_unverified n db < limit /\ count_unverified n db' <= limit /\
  canonical_atoms (nd_precommit_reserve d) = Ok tt /\
  (exists s, db_snapshot db !! (n, an_block_id (nd_anchor d), an_content_digest (nd_anchor d)) = Some s /\
     sr_reads_complete s = true /\ sr_active_cache_ready s = true /\
     forall k r, db_snapshot db !! k = Some r -> usable n (k, r) = true -> sr_height r <= sr_height s) /\
  decision_taken n id (nd_generation d) db = false /\ transmitted_precommit_exists n id db = false /\
  (exists w, db_workflow db' !! (n, id) = Some w /\ wf_state w = Decided) /\
  (forall k, k <> (n, id) -> db_workflow db' !! k = db_workflow db !! k) /\
  ad_intent a = admitted_intent fi now d /\
  db' = with_workflow (db_workflow db') (with_intent (<[fi := ad_intent a]> (db_intent db))
          (with_decision (<[fd := decision_row fd d (count_unverified n db) limit]> (db_decision db)) db)).
Proof.
  intros Htot Htrans Hwok Hiok Ht Hrun n id.
  destruct (admit_precommit_effect _ _ _ _ _ _ _ _ _ Hwok Hiok Ht Hrun)
    as (t & Hlim & Hcan & Hdt & Hanc & Hcnt & Htr & -> & Hw & _ & _ & _ & _ & ->).
  destruct (admit_workflow_Ok _ _ _ Hwok Hw) as (t' & E & _ & (w & Hw' & Hdec) & Hcase).
  assert (t' = t) as -> by (by apply (f_equal db_workflow) in E).
  fold n id in Hw', Hcase, Hcnt, Hdt, Htr. split_and!; try done.
  - unfold count_unverified. lia.
  - rewrite !count_unverified_open in *. simpl.
    destruct Hcase as [->|(Hnone & w0 & Hopen & ->)]; [lia|]. rewrite open_count_fresh by done. lia.
  - apply require_newest_anchor_Ok in Hanc as ([k s] & Hs & Hb & Hdg). simpl in Hb, Hdg.
    destruct (newest_usable_spec text_le Htot Htrans _ _ _ Hs) as (Hk & Hu & Hmax). simpl in *.
    unfold usable in Hu. rewrite !andb_true_iff, bool_decide_eq_true in Hu. simpl in Hu. destruct Hu as [[Hn Hr] Ha].
    exists s. destruct k as [[kn kb] kd]. simpl in *. subst. by split_and!.
  - by exists w.
  - intros k Hk. simpl. destruct Hcase as [->|(_ & w0 & _ & ->)]; [done|]. by rewrite lookup_insert_ne.
Qed.
Definition sample_decision : NewDecision :=
  MkNewDecision Testnet "w1" 1 (MkAnchor "blk" digest_a 200)
    (MkDraw "tig-pool-challenge-tie-v1" [("c001", JString "00")] None) "c001" "c001_a1" "cpu"
    (JObject [("t1", track_body (MkTrackSettings 4 1000 []))]) JNull "12000" digest_a digest_a None.
Definition sample_anchor_db : Db :=
  with_snapshot {[ (Testnet, "blk", digest_a) := MkSnapshotRow 200 true true ]} empty_db.
Lemma sample_anchor_db_ok : workflows_ok (db_workflow sample_anchor_db) /\ intents_ok (db_intent sample_anchor_db).
Proof.
  split; [|apply intents_ok_empty]. split; [apply map_Forall_empty|]. intros k1 k2 w1 w2 b H. simpl in H. by rewrite lookup_empty in H.
Qed.
Example admission_gated_witness :
  exists a db', admit_precommit str_leb 1%N 2%N 0 sample_decision 3 sample_anchor_db = Ok (a, db') /\
    count_unverified Testnet db' <= 3.
Proof.
  do 2 eexists. split; [vm_compute; reflexivity|].
  edestruct (admission_gated str_leb 1%N 2%N 0 sample_decision 3 sample_anchor_db) as (_ & H & _).
  - exact str_leb_total.
  - exact str_leb_trans.
  - exact (proj1 sample_anchor_db_ok).
  - exact (proj2 sample_anchor_db_ok).
  - done.
  - vm_compute. reflexivity.
  - exact H.
Defined.

Lemma decision_taken_insert n id g r t db :
  dr_network r = n -> dr_workflow_id r = id -> dr_generation r = g ->
  db_decision db = <[dr_decision_id r := r]> t -> decision_taken n id g db = true.
Proof.
  intros <- <- <- Hdb. unfold decision_taken. rewrite Hdb. apply exists_row_true. exists (dr_decision_id r), r.
  rewrite lookup_insert_eq. split; [done|]. by rewrite !bool_decide_eq_true_2.
Qed.

Lemma decision_rows_unique n id g r t :
  dr_network r = n -> dr_workflow_id r = id -> dr_generation r = g -> t !! dr_decision_id r = None ->
  exists_row (fun r => bool_decide (dr_network r = n) && bool_decide (dr_workflow_id r = id) &&
                bool_decide (dr_generation r = g)) t = false ->
  head (filter (fun r => dr_network r = n /\ dr_workflow_id r = id /\ dr_generation r = g)
    (rows (<[dr_decision_id r := r]> t))) = Some r.
Proof.
  intros Hn Hid Hg Hf Hno. rewrite exists_row_false in Hno.
  set (l := filter _ _).
  assert (Hl : forall x, x ∈ l -> x = r).
  { intros x. unfold l. rewrite list_elem_of_filter, elem_of_rows. intros [(E1 & E2 & E3) [k Hk]].
    apply lookup_insert_Some in Hk as [[_ <-]|[_ Hk]]; [done|]. specialize (Hno k x Hk).
    by rewrite !bool_decide_eq_true_2 in Hno. }
  assert (Hin : r ∈ l).
  { unfold l. rewrite list_elem_of_filter, elem_of_rows. split; [done|]. exists (dr_decision_id r). apply lookup_insert_eq. }
  destruct l as [|x l']; [by apply not_elem_of_nil in Hin|]. simpl. by rewrite (Hl x) by (by left).
Qed.

(** What admission recorded is what the gateway reads back.  After an admission
    the decision's payload inputs are returned verbatim, so the submission the
    gateway rebuilds is the one the controller digested; and presenting the
    same generation again -- whatever the limit, even when the workflow's own
    interval fills the last slot -- is answered [AlreadyDecided]. *)
Theorem admission_rebuilds_and_retries text_le fd fi now d limit db a db' :
  workflows_ok (db_workflow db) -> intents_ok (db_intent db) ->
  (forall t, nd_trace_id d = Some t -> trace_ok t) ->
  admit_precommit text_le fd fi now d limit db = Ok (a, db') ->
  payload_inputs (nd_network d) (nd_workflow_id d) (nd_generation d) db' =
    Ok (Some (MkPayloadInputs (an_block_id (nd_anchor d)) (nd_selected_challenge d) (nd_selected_algorithm d)
                (nd_compute_type d) (nd_track_settings d))) /\
  forall fd' fi' now' limit', 1 <= limit' ->
    admit_precommit text_le fd' fi' now' d limit' db' =
      Err (AlreadyDecided (nd_network d) (nd_workflow_id d) (nd_generation d)).
Proof.
  intros Hwok Hiok Ht Hrun.
  destruct (admit_precommit_effect _ _ _ _ _ _ _ _ _ Hwok Hiok Ht Hrun)
    as (t & _ & Hcan & Hdt & _ & _ & _ & _ & _ & Hfd & _ & _ & _ & ->).
  set (r := decision_row fd d (count_unverified (nd_network d) db) limit). split.
  - unfold payload_inputs. simpl. pose proof (decision_rows_unique (nd_network d) (nd_workflow_id d) (nd_generation d)
      r (db_decision db) eq_refl eq_refl eq_refl Hfd Hdt) as Hh. simpl in Hh. rewrite Hh. done.
  - intros fd' fi' now' limit' Hl. unfold admit_precommit. destruct (Z.ltb_spec limit' 1); [lia|].
    rewrite Hcan. erewrite (decision_taken_insert _ _ _ r); reflexivity.
Qed.
Example admission_rebuilds_and_retries_witness :
  exists a db', admit_precommit str_leb 1%N 2%N 0 sample_decision 3 sample_anchor_db = Ok (a, db') /\
    admit_precommit str_leb 3%N 4%N 9 sample_decision 1 db' = Err (AlreadyDecided Testnet "w1" 1).
Proof.
  do 2 eexists. split; [vm_compute; reflexivity|].
  edestruct (admission_rebuilds_and_retries str_leb 1%N 2%N 0 sample_decision 3 sample_anchor_db) as [_ H].
  - exact (proj1 sample_anchor_db_ok).
  - exact (proj2 sample_anchor_db_ok).
  - done.
  - vm_compute. reflexivity.
  - exact (H 3%N 4%N 9 1 ltac:(lia)).
Defined.

(** ** Canonical amounts *)

Definition digit_value (c : Ascii.ascii) : Z := Z.of_N (Ascii.N_of_ascii c) - 48.
Lemma is_ascii_digit_range c : is_ascii_digit c = true -> 0 <= digit_value c <= 9.
Proof. unfold is_ascii_digit, digit_value. rewrite andb_true_iff, !N.leb_le. lia. Qed.
Lemma digit_value_inj c d : digit_value c = digit_value d -> c = d.
Proof. unfold digit_value. intros E. rewrite <- (Ascii.ascii_N_embedding c), <- (Ascii.ascii_N_embedding d). f_equal. lia. Qed.

Definition pow10 (s : string) : Z := 10 ^ Z.of_nat (String.length s).
Lemma pow10_cons c s : pow10 (String c s) = 10 * pow10 s.
Proof. unfold pow10. simpl String.length. rewrite Nat2Z.inj_succ, Z.pow_succ_r by lia. done. Qed.
Lemma pow10_pos s : 0 < pow10 s.
Proof. unfold pow10. apply Z.pow_pos_nonneg; lia. Qed.

Lemma atoms_from_split acc s : atoms_from acc s = acc * pow10 s + atoms_value s.
Proof.
  unfold atoms_value. revert acc; induction s as [|c s IH]; intros acc; [unfold pow10; simpl; lia|].
  cbn [atoms_from]. rewrite IH, (IH (10 * 0 + _)), pow10_cons. ring.
Qed.
Lemma atoms_value_cons c s : atoms_value (String c s) = digit_value c * pow10 s + atoms_value s.
Proof. unfold atoms_value at 1. cbn [atoms_from]. rewrite atoms_from_split. unfold digit_value. ring. Qed.

Lemma atoms_value_range s : all_bytes is_ascii_digit s = true -> 0 <= atoms_value s < pow10 s.
Proof.
  induction s as [|c s IH]; simpl; [unfold pow10, atoms_value; simpl; lia|].
  rewrite andb_true_iff. intros [Hc Hs]. specialize (IH Hs). apply is_ascii_digit_range in Hc.
  rewrite atoms_value_cons, pow10_cons. nia.
Qed.

Lemma atoms_value_inj s t :
  all_bytes is_ascii_digit s = true -> all_bytes is_ascii_digit t = true ->
  String.length s = String.length t -> atoms_value s = atoms_value t -> s = t.
Proof.
  revert t; induction s as [|c s IH]; intros [|d t]; simpl; try done.
  rewrite !andb_true_iff. intros [Hc Hs] [Hd Ht] [= Hl] Hv.
  pose proof (atoms_value_range s Hs). pose proof (atoms_value_range t Ht).
  assert (Hp : pow10 s = pow10 t) by (unfold pow10; by rewrite Hl).
  rewrite !atoms_value_cons, Hp in Hv. rewrite Hp in *.
  assert (digit_value c = digit_value d) as E by nia.
  f_equal; [by apply digit_value_inj|]. apply IH; try done. nia.
Qed.

Lemma canonical_atoms_Ok s :
  canonical_atoms s = Ok tt <->
  (1 <= String.length s <= 78)%nat /\ all_bytes is_ascii_digit s = true /\
  (starts_with_zero s = true -> String.length s = 1%nat).
Proof.
  unfold canonical_atoms. destruct (Nat.eqb_spec (String.length s) 0); [split; [done|lia]|].
  destruct (all_bytes is_ascii_digit s); simpl; [|split; [done|naive_solver]].
  destruct (Nat.ltb_spec 78 (String.length s)); [split; [done|lia]|].
  destruct (Nat.ltb_spec 1 (String.length s)); simpl.
  - destruct (starts_with_zero s); [split; [done|intros (_ & _ & H1); specialize (H1 eq_refl); lia]|].
    split; [|done]. intros _. split_and!; try done; lia.
  - split; [|done]. intros _. split_and!; try done; lia.
Qed.

(** A canonical string without leading zero is at least a power of ten. *)
Lemma canonical_low s : canonical_atoms s = Ok tt -> (1 < String.length s)%nat -> pow10 s <= 10 * atoms_value s.
Proof.
  intros (Hl & Hd & Hz)%canonical_atoms_Ok Hgt. destruct s as [|c s]; simpl in *; [lia|].
  apply andb_true_iff in Hd as [Hc Hs]. rewrite atoms_value_cons, pow10_cons.
  assert (1 <= digit_value c).
  { apply is_ascii_digit_range in Hc as Hr. enough (digit_value c <> 0) by lia. intros E.
    assert (Ascii.N_of_ascii c = 48%N) as E' by (unfold digit_value in E; lia).
    rewrite E' in Hz. simpl in Hz. specialize (Hz eq_refl). lia. }
  pose proof (atoms_value_range s Hs). pose proof (pow10_pos s). nia.
Qed.

(** Amounts have one spelling.  An accepted reserve denotes an integer that
    fits the column's 78 digits, and two accepted strings denote the same
    integer only when they are the same string: no sign, point, exponent,
    space or leading zero gives a second spelling. *)
Theorem canonical_atoms_unique s t :
  canonical_atoms s = Ok tt -> canonical_atoms t = Ok tt ->
  0 <= atoms_value s < 10 ^ 78 /\ (atoms_value s = atoms_value t -> s = t).
Proof.
  intros Hs Ht. pose proof (proj1 (canonical_atoms_Ok s) Hs) as (Hls & Hds & _).
  pose proof (proj1 (canonical_atoms_Ok t) Ht) as (Hlt & Hdt & _).
  pose proof (atoms_value_range s Hds) as Hrs. pose proof (atoms_value_range t Hdt) as Hrt. split.
  - split; [lia|]. apply Z.lt_le_trans with (pow10 s); [lia|]. unfold pow10. apply Z.pow_le_mono_r; lia.
  - intros Hv. apply atoms_value_inj; try done.
    assert (Hless : forall u v, canonical_atoms v = Ok tt -> (1 <= String.length u)%nat ->
      atoms_value u < pow10 u -> atoms_value u = atoms_value v -> ~ (String.length u < String.length v)%nat).
    { intros u v Hv' Hu Hru Huv Hlen. pose proof (canonical_low v Hv' ltac:(lia)) as Hlow.
      assert (10 * pow10 u <= pow10 v); [|lia]. unfold pow10.
      rewrite <- (Z.pow_succ_r 10) by lia. apply Z.pow_le_mono_r; lia. }
    pose proof (Hless s t Ht ltac:(lia) ltac:(lia) Hv). pose proof (Hless t s Hs ltac:(lia) ltac:(lia) (eq_sym Hv)). lia.
Qed.
Example canonical_atoms_unique_witness :
  atoms_value "12000" = 12000 /\ 0 <= atoms_value "12000" < 10 ^ 78.
Proof. split; [reflexivity|]. apply (canonical_atoms_unique "12000" "12000"); reflexivity. Defined.

(** ** Progress *)

(** What the record of a decision must satisfy by itself. *)
Definition decision_well_formed (d : NewDecision) : Prop :=
  blank (nd_compute_type d) = false /\ 1 <= nd_generation d /\ 0 <= an_height (nd_anchor d) /\
  length (an_content_digest (nd_anchor d)) = 32%nat /\ length (nd_config_digest d) = 32%nat /\
  length (nd_payload_digest d) = 32%nat /\ canonical_atoms (nd_precommit_reserve d) = Ok tt /\
  bt_contains (nd_selected_challenge d) (dw_draw_ranks (nd_draw d)) = true /\
  (forall t, dw_tie (nd_draw d) = Some t -> rt_winner t = nd_selected_challenge d /\ rt_winner t ∈ rt_candidates t /\
     Forall (fun c => bt_contains c (dw_draw_ranks (nd_draw d)) = true) (rt_candidates t)) /\
  (forall t, nd_trace_id d = Some t -> trace_ok t).

Lemma decision_checks_hold fd d c limit :
  decision_well_formed d -> 0 <= c < limit -> Forall (fun x => x.2 = true) (decision_checks (decision_row fd d c limit)).
Proof.
  intros (_ & Hg & Hh & Had & Hcd & _ & Hcan & Hsel & Htie & _) Hc.
  apply canonical_atoms_Ok in Hcan as (_ & Hdig & _). pose proof (atoms_value_range _ Hdig).
  unfold decision_checks. rewrite !Forall_cons. simpl. rewrite Had, Hcd, Hsel.
  split_and!; try done; try (apply Z.leb_le; lia); try (apply Z.ltb_lt; lia);
    destruct (dw_tie (nd_draw d)) as [t|]; simpl; try done; destruct (Htie t eq_refl) as (Hw & Hin & Hr).
  - apply forallb_forall. rewrite Forall_forall in Hr. intros x Hx. apply Hr. by apply list_elem_of_In.
  - by apply String.eqb_eq.
  - by apply bool_decide_eq_true.
Qed.

(** The workflow the decision names can take it: new on testnet, or still
    [DECIDED]. *)
Definition workflow_ready (d : NewDecision) (db : Db) : Prop :=
  match db_workflow db !! (nd_network d, nd_workflow_id d) with
  | None => nd_network d = Testnet
  | Some w => wf_state w = Decided
  end.

Lemma admit_workflow_ready d db :
  decision_well_formed d -> workflow_ready d db -> exists t, admit_workflow d db = Ok (with_workflow t db) /\
    is_Some (t !! (nd_network d, nd_workflow_id d)).
Proof.
  intros (_ & _ & Hh & _) Hr. unfold admit_workflow, workflow_ready in *.
  destruct (db_workflow db !! (nd_network d, nd_workflow_id d)) as [w|] eqn:Hw.
  - rewrite WorkflowState_roundtrip, bool_decide_eq_true_2 by congruence. exists (db_workflow db).
    split; [by destruct db|]. by rewrite Hw.
  - set (w := MkWorkflow _ _ _ _ _ _ _ _ _ _ _ _ _ _ _).
    exists (<[wkey w := w]> (db_workflow db)). split; [|rewrite lookup_insert_eq; by eexists].
    assert (Hput : put_workflow w db = Ok (with_workflow (<[wkey w := w]> (db_workflow db)) db)).
    { apply put_workflow_Ok. split_and!; try done. unfold workflow_checks. rewrite !Forall_cons. simpl.
      split_and!; try done; [apply bool_decide_eq_true; by right|by apply Z.leb_le]. }
    unfold insert_workflow. simpl. change (wkey w) with (nd_network d, nd_workflow_id d) in *.
    rewrite Hw, Hput. done.
Qed.

Lemma admission_progress text_le fd fi now d limit db :
  intents_ok (db_intent db) -> decision_well_formed d -> workflow_ready d db ->
  require_newest_anchor text_le d db = Ok tt ->
  is_Some (db_snapshot db !! (nd_network d, an_block_id (nd_anchor d), an_content_digest (nd_anchor d))) ->
  decision_taken (nd_network d) (nd_workflow_id d) (nd_generation d) db = false ->
  transmitted_precommit_exists (nd_network d) (nd_workflow_id d) db = false ->
  generation_taken (admitted_intent fi now d) db = false ->
  db_decision db !! fd = None -> db_intent db !! fi = None ->
  count_unverified (nd_network d) db < limit ->
  exists a db', admit_precommit text_le fd fi now d limit db = Ok (a, db').
Proof.
  intros Hiok Hwf Hready Hanc Hsnap Hdt Htr Hgt Hfd Hfi Hcnt.
  pose proof Hwf as (Hct & Hg & _ & _ & _ & Hpd & Hcan & _ & _ & Htrace).
  assert (Hc0 : 0 <= count_unverified (nd_network d) db) by (unfold count_unverified; lia).
  destruct (admit_workflow_ready d db Hwf Hready) as (t & Hw & Hwt).
  unfold admit_precommit. destruct (Z.ltb_spec limit 1); [lia|]. rewrite Hcan, Hdt, Hanc.
  destruct (Z.leb_spec limit (count_unverified (nd_network d) db)); [lia|]. rewrite Hw.
  set (r := decision_row fd d (count_unverified (nd_network d) db) limit).
  assert (Hins : insert_decision r (with_workflow t db) =
    Ok (Some (with_decision (<[fd := r]> (db_decision db)) (with_workflow t db)))).
  { apply insert_decision_Some. split_and!; try done. apply decision_checks_hold; [done|lia]. }
  rewrite Hins. simpl. unfold admit_intent.
  change (transmitted_precommit_exists (nd_network d) (nd_workflow_id d)
    (with_decision (<[fd := r]> (db_decision db)) (with_workflow t db))) with
    (transmitted_precommit_exists (nd_network d) (nd_workflow_id d) db). rewrite Htr.
  assert (Hi : intent_ok fi (admitted_intent fi now d)).
  { constructor; [done| |done]. unfold intent_checks. rewrite !Forall_cons. simpl. rewrite Hpd.
    split_and!; try done; [by apply Z.leb_le|by apply trace_ok_checked]. }
  assert (Hint : exists x, insert_intent (admitted_intent fi now d)
    (with_decision (<[fd := r]> (db_decision db)) (with_workflow t db)) = Ok x).
  { eexists. apply insert_intent_Ok. split_and!; [|done|by apply store_intent_Ok].
    apply intent_admissible_None. split; [done|]. apply Hi. }
  destruct Hint as [x ->]. simpl. rewrite (read_intent _ _ Hi). simpl. by do 2 eexists.
Qed.

(** Admission makes progress: a well-formed decision anchored at the newest
    usable snapshot, for a workflow that is new or still [DECIDED] and has
    transmitted nothing, not decided before, is admitted whenever the recount is
    below the limit. *)
Theorem admission_live text_le fd fi now d limit db :
  intents_ok (db_intent db) -> decision_well_formed d -> workflow_ready d db ->
  require_newest_anchor text_le d db = Ok tt ->
  is_Some (db_snapshot db !! (nd_network d, an_block_id (nd_anchor d), an_content_digest (nd_anchor d))) ->
  decision_taken (nd_network d) (nd_workflow_id d) (nd_generation d) db = false ->
  transmitted_precommit_exists (nd_network d) (nd_workflow_id d) db = false ->
  generation_taken (admitted_intent fi now d) db = false ->
  db_decision db !! fd = None -> db_intent db !! fi = None ->
  count_unverified (nd_network d) db < limit ->
  exists a db', admit_precommit text_le fd fi now d limit db = Ok (a, db').
Proof. exact (admission_progress text_le fd fi now d limit db). Qed.
Example admission_live_witness :
  exists a db', admit_precommit str_leb 1%N 2%N 0 sample_decision 3 sample_anchor_db = Ok (a, db').
Proof.
  apply (admission_live str_leb 1%N 2%N 0 sample_decision 3 sample_anchor_db); try reflexivity.
  - exact (proj2 sample_anchor_db_ok).
  - split_and!; try done; vm_compute; discriminate.
  - by eexists.
Defined.
