(* ===== verification/Acceptance.v ===== *)
(** * Write preconditions: [crates/pool-workflow/src/acceptance.rs]

    The immutable records a benchmark or proof intent must cite.  Each
    recording is one statement: an insert that skips a taken key, and a read of
    the row under that key in the statement's own snapshot [snap], which may be
    older than the rows the insert conflicts with. *)
From S2P Require Import Prelude BTreeMap Json Domain Store.
Open Scope Z_scope.

Record PackageAcceptance := MkPackageAcceptance {
  pa_network : Network; pa_workflow_id : string; pa_benchmark_id : string;
  pa_package_sha256 : Bytes; pa_stub_origin : bool }.
Record CanonicalPayload := MkCanonicalPayload {
  cy_network : Network; cy_artifact_id : string; cy_workflow_id : string; cy_benchmark_id : string;
  cy_sample_digest : Bytes; cy_payload_digest : Bytes; cy_stub_origin : bool }.
Record CommitmentPayload := MkCommitmentPayload {
  cm_network : Network; cm_artifact_id : string; cm_workflow_id : string; cm_benchmark_id : string;
  cm_payload_digest : Bytes; cm_stub_origin : bool }.

Inductive AcceptanceError :=
| AcUnavailable (e : DbError)
| AcRetry (what : string)
| AcConflict (network : Network) (workflow_id what : string).

Definition ONE_COMMITMENT_PER_BENCHMARK : string := "commitment_payload_one_per_benchmark".

(** The rows the records are stored as. *)
Definition acceptance_row (p : PackageAcceptance) : AcceptanceRow :=
  MkAcceptanceRow (pa_package_sha256 p) (pa_stub_origin p).
Definition canonical_row (p : CanonicalPayload) : CanonicalRow :=
  MkCanonicalRow (cy_workflow_id p) (cy_benchmark_id p) (cy_sample_digest p) (cy_payload_digest p) (cy_stub_origin p).
Definition commitment_row (p : CommitmentPayload) : CommitmentRow :=
  MkCommitmentRow (cm_workflow_id p) (cm_benchmark_id p) (cm_payload_digest p) (cm_stub_origin p).
#[export] Instance AcceptanceRow_eq_dec : EqDecision AcceptanceRow.
Proof. solve_decision. Defined.
#[export] Instance CanonicalRow_eq_dec : EqDecision CanonicalRow.
Proof. solve_decision. Defined.
#[export] Instance CommitmentRow_eq_dec : EqDecision CommitmentRow.
Proof. solve_decision. Defined.

(** [INSERT ... ON CONFLICT (key) DO NOTHING]: digests checked, then the key,
    then other unique indexes, then the workflow's foreign key; [None] when the
    key was taken. *)
Definition has_workflow (n : Network) (workflow_id : string) (db : Db) : bool :=
  negb (is_none (db_workflow db !! (n, workflow_id))).
Definition digests_ok (ds : list (string * Bytes)) : option string :=
  first_violation (map (fun d => (d.1, (length d.2 =? 32)%nat)) ds).

Definition insert_acceptance (p : PackageAcceptance) (db : Db) : result DbError (option Db) :=
  match digests_ok [("package_acceptance_sha256_is_a_digest", pa_package_sha256 p)] with
  | Some c => Err (CheckViolation c)
  | None =>
      let key := (pa_network p, pa_workflow_id p, pa_benchmark_id p) in
      match db_acceptance db !! key with
      | Some _ => Ok None
      | None => if has_workflow (pa_network p) (pa_workflow_id p) db
                then Ok (Some (with_acceptance (<[key := acceptance_row p]> (db_acceptance db)) db))
                else Err (ForeignKeyViolation "package_acceptance_has_a_workflow")
      end
  end.
Definition insert_canonical (p : CanonicalPayload) (db : Db) : result DbError (option Db) :=
  match digests_ok [("canonical_payload_digest_is_a_digest", cy_payload_digest p);
                    ("canonical_payload_sample_is_a_digest", cy_sample_digest p)] with
  | Some c => Err (CheckViolation c)
  | None =>
      let key := (cy_network p, cy_artifact_id p) in
      match db_canonical db !! key with
      | Some _ => Ok None
      | None => if has_workflow (cy_network p) (cy_workflow_id p) db
                then Ok (Some (with_canonical (<[key := canonical_row p]> (db_canonical db)) db))
                else Err (ForeignKeyViolation "canonical_payload_has_a_workflow")
      end
  end.
(** [commitment_payload_one_per_benchmark]. *)
Definition commitment_taken (n : Network) (benchmark_id : string) (db : Db) : bool :=
  existsb (fun kr => bool_decide (kr.1.1 = n) && String.eqb (mr_benchmark_id kr.2) benchmark_id)
    (map_to_list (db_commitment db)).
Definition insert_commitment (p : CommitmentPayload) (db : Db) : result DbError (option Db) :=
  match digests_ok [("commitment_payload_digest_is_a_digest", cm_payload_digest p)] with
  | Some c => Err (CheckViolation c)
  | None =>
      let key := (cm_network p, cm_artifact_id p) in
      match db_commitment db !! key with
      | Some _ => Ok None
      | None =>
          if commitment_taken (cm_network p) (cm_benchmark_id p) db
          then Err (UniqueViolation ONE_COMMITMENT_PER_BENCHMARK)
          else if has_workflow (cm_network p) (cm_workflow_id p) db
          then Ok (Some (with_commitment (<[key := commitment_row p]> (db_commitment db)) db))
          else Err (ForeignKeyViolation "commitment_payload_has_a_workflow")
      end
  end.

(** The [match row] all three recordings end with: whether a row went in, and
    whether the row the snapshot holds, if any, equals the offered one. *)
Definition conclude {R} `{EqDecision R} (n : Network) (workflow_id what : string) (db : Db)
    (inserted : option Db) (seen : option R) (offered : R) : result AcceptanceError Db :=
  match inserted with
  | Some db' => Ok db'
  | None =>
      match seen with
      | Some r => if bool_decide (r = offered) then Ok db else Err (AcConflict n workflow_id what)
      | None => Err (AcRetry what)
      end
  end.

Definition record_acceptance (p : PackageAcceptance) (snap db : Db) : result AcceptanceError Db :=
  let? inserted := map_err AcUnavailable (insert_acceptance p db) in
  conclude (pa_network p) (pa_workflow_id p) "package acceptance" db inserted
    (db_acceptance snap !! (pa_network p, pa_workflow_id p, pa_benchmark_id p)) (acceptance_row p).

Definition record_canonical_payload (p : CanonicalPayload) (snap db : Db) : result AcceptanceError Db :=
  let? inserted := map_err AcUnavailable (insert_canonical p db) in
  conclude (cy_network p) (cy_workflow_id p) "canonical payload" db inserted
    (db_canonical snap !! (cy_network p, cy_artifact_id p)) (canonical_row p).

Definition record_commitment_payload (p : CommitmentPayload) (snap db : Db) : result AcceptanceError Db :=
  let? inserted := map_err (fun e =>
      if bool_decide (db_constraint e = Some ONE_COMMITMENT_PER_BENCHMARK)
      then AcConflict (cm_network p) (cm_workflow_id p) "commitment payload"
      else AcUnavailable e) (insert_commitment p db) in
  conclude (cm_network p) (cm_workflow_id p) "commitment payload" db inserted
    (db_commitment snap !! (cm_network p, cm_artifact_id p)) (commitment_row p).

(** [benchmark_preconditions_are_stubbed]. *)
Definition benchmark_preconditions_are_stubbed (n : Network) (workflow_id benchmark_id : string) (db : Db) : bool :=
  match db_acceptance db !! (n, workflow_id, benchmark_id) with Some r => ar_stub_origin r | None => false end ||
  existsb (fun kr => bool_decide (kr.1.1 = n) && String.eqb (mr_workflow_id kr.2) workflow_id &&
             String.eqb (mr_benchmark_id kr.2) benchmark_id && mr_stub_origin kr.2)
    (map_to_list (db_commitment db)).

(** ** The three recordings as one alphabet *)

Inductive Evidence :=
| EvAcceptance (p : PackageAcceptance) | EvCanonical (p : CanonicalPayload) | EvCommitment (p : CommitmentPayload).
Definition record_evidence (e : Evidence) (snap db : Db) : result AcceptanceError Db :=
  match e with
  | EvAcceptance p => record_acceptance p snap db
  | EvCanonical p => record_canonical_payload p snap db
  | EvCommitment p => record_commitment_payload p snap db
  end.
(** The record, exactly, is in the database. *)
Definition recorded (e : Evidence) (db : Db) : Prop :=
  match e with
  | EvAcceptance p => db_acceptance db !! (pa_network p, pa_workflow_id p, pa_benchmark_id p) = Some (acceptance_row p)
  | EvCanonical p => db_canonical db !! (cy_network p, cy_artifact_id p) = Some (canonical_row p)
  | EvCommitment p => db_commitment db !! (cm_network p, cm_artifact_id p) = Some (commitment_row p)
  end.
(** Some record is under the same key. *)
Definition key_recorded (e : Evidence) (db : Db) : Prop :=
  match e with
  | EvAcceptance p => is_Some (db_acceptance db !! (pa_network p, pa_workflow_id p, pa_benchmark_id p))
  | EvCanonical p => is_Some (db_canonical db !! (cy_network p, cy_artifact_id p))
  | EvCommitment p => is_Some (db_commitment db !! (cm_network p, cm_artifact_id p))
  end.

(** Evidence only accumulates: every record of [db] is unchanged in [db']. *)
Definition evidence_le (db db' : Db) : Prop :=
  db_acceptance db ⊆ db_acceptance db' /\ db_canonical db ⊆ db_canonical db' /\ db_commitment db ⊆ db_commitment db'.
#[export] Instance evidence_le_preorder : PreOrder evidence_le.
Proof.
  split; [by intros db|]. intros a b c (H1 & H2 & H3) (G1 & G2 & G3). split_and!; by etransitivity.
Qed.
Definition commitments_ok (t : gmap (Network * string) CommitmentRow) : Prop :=
  forall n a1 a2 c1 c2, t !! (n, a1) = Some c1 -> t !! (n, a2) = Some c2 ->
    mr_benchmark_id c1 = mr_benchmark_id c2 -> a1 = a2.

(** ** Lemmas *)

Lemma commitment_taken_false n b db :
  commitment_taken n b db = false <->
  forall a c, db_commitment db !! (n, a) = Some c -> mr_benchmark_id c <> b.
Proof.
  unfold commitment_taken. rewrite <- not_true_iff_false, existsb_exists. split.
  - intros Hn a c Hc E. apply Hn. exists ((n, a), c). split; [by apply list_elem_of_In, elem_of_map_to_list|].
    simpl. rewrite bool_decide_eq_true_2 by done. by apply String.eqb_eq.
  - intros Hf (((n', a) & c) & Hin & H). apply list_elem_of_In, elem_of_map_to_list in Hin. simpl in H.
    rewrite andb_true_iff, bool_decide_eq_true, String.eqb_eq in H. destruct H as [-> E]. by apply (Hf a c).
Qed.

(** A successful recording either stored the record or found it in the
    snapshot. *)
Lemma record_evidence_Ok e snap db db' :
  commitments_ok (db_commitment db) -> record_evidence e snap db = Ok db' ->
  commitments_ok (db_commitment db') /\ evidence_le db db' /\
  (db' = db /\ recorded e snap /\ key_recorded e db \/ recorded e db' /\ ~ key_recorded e db) /\
  exists ta tc tm, db' = with_acceptance ta (with_canonical tc (with_commitment tm db)).
Proof.
  intros Hc. destruct e as [p|p|p]; simpl.
  - unfold record_acceptance, insert_acceptance. destruct (digests_ok _); [done|].
    destruct (db_acceptance db !! _) as [r|] eqn:Hr; simpl.
    + destruct (db_acceptance snap !! _) as [s|] eqn:Hs; [|done]. case_bool_decide as E; [|done]. intros [= <-]. subst s.
      split_and!; try done; [by left; split_and!|]. exists (db_acceptance db), (db_canonical db), (db_commitment db). by destruct db.
    + destruct (has_workflow _ _ db); [|done]. simpl. intros [= <-].
      split_and!; try done; simpl.
      * unfold evidence_le. simpl. split_and!; [by apply insert_subseteq|done..].
      * right. rewrite lookup_insert_eq. split; [done|]. intros [x Hx]. simpl in Hx. congruence.
      * eexists (<[_ := acceptance_row p]> (db_acceptance db)), (db_canonical db), (db_commitment db). reflexivity.
  - unfold record_canonical_payload, insert_canonical. destruct (digests_ok _); [done|].
    destruct (db_canonical db !! _) as [r|] eqn:Hr; simpl.
    + destruct (db_canonical snap !! _) as [s|] eqn:Hs; [|done]. case_bool_decide as E; [|done]. intros [= <-]. subst s.
      split_and!; try done; [by left; split_and!|]. exists (db_acceptance db), (db_canonical db), (db_commitment db). by destruct db.
    + destruct (has_workflow _ _ db); [|done]. simpl. intros [= <-].
      split_and!; try done; simpl.
      * unfold evidence_le. simpl. split_and!; [done|by apply insert_subseteq|done].
      * right. rewrite lookup_insert_eq. split; [done|]. intros [x Hx]. simpl in Hx. congruence.
      * eexists (db_acceptance db), (<[_ := canonical_row p]> (db_canonical db)), (db_commitment db). reflexivity.
  - unfold record_commitment_payload, insert_commitment. destruct (digests_ok _); [done|].
    destruct (db_commitment db !! _) as [r|] eqn:Hr; simpl.
    + destruct (db_commitment snap !! _) as [s|] eqn:Hs; [|done]. case_bool_decide as E; [|done]. intros [= <-]. subst s.
      split_and!; try done; [by left; split_and!|]. exists (db_acceptance db), (db_canonical db), (db_commitment db). by destruct db.
    + destruct (commitment_taken _ _ db) eqn:Ht; [done|]. destruct (has_workflow _ _ db); [|done]. simpl. intros [= <-].
      split_and!; try done; simpl.
      * rewrite commitment_taken_false in Ht. intros n a1 a2 c1 c2.
        rewrite !lookup_insert_Some. intros [[[= <- <-] <-]|[Hk1 H1]] [[E2 <-]|[Hk2 H2]] E.
        { by injection E2. }
        { exfalso. by apply (Ht a2 c2). }
        { injection E2 as <- <-. exfalso. by apply (Ht a1 c1). }
        { by eapply Hc. }
      * unfold evidence_le. simpl. split_and!; [done|done|by apply insert_subseteq].
      * right. rewrite lookup_insert_eq. split; [done|]. intros [x Hx]. simpl in Hx. congruence.
      * eexists (db_acceptance db), (db_canonical db), (<[_ := commitment_row p]> (db_commitment db)). reflexivity.
Qed.

(** ** Properties *)

(** Evidence is immutable.  Nothing a recording does changes or removes a
    record.  A recording that succeeds against an up-to-date snapshot leaves
    exactly the offered record in the database; offering it again, in any later
    database that still holds it, succeeds and changes nothing; offering
    different contents under the same key never succeeds; and a benchmark has at
    most one commitment payload. *)
Theorem evidence_is_immutable e db db' :
  commitments_ok (db_commitment db) -> record_evidence e db db = Ok db' ->
  recorded e db' /\ evidence_le db db' /\ commitments_ok (db_commitment db') /\
  forall later, evidence_le db' later -> commitments_ok (db_commitment later) ->
    (record_evidence e later later = Ok later) /\
    forall e' x, key_recorded e' later -> ~ recorded e' later -> record_evidence e' later later <> Ok x.
Proof.
  intros Hc Hrun. destruct (record_evidence_Ok e db db db' Hc Hrun) as (Hc' & Hle & Hcase & _).
  assert (Hrec : recorded e db') by (destruct Hcase as [(-> & Hr & _)|[Hr _]]; done).
  split_and!; try done. intros later (L1 & L2 & L3) Hcl. split.
  - destruct e as [p|p|p]; simpl in *.
    + assert (Hl := lookup_weaken _ _ _ _ Hrec L1). unfold record_acceptance, insert_acceptance in *.
      destruct (digests_ok _); [done|]. rewrite Hl. simpl. by rewrite bool_decide_eq_true_2.
    + assert (Hl := lookup_weaken _ _ _ _ Hrec L2). unfold record_canonical_payload, insert_canonical in *.
      destruct (digests_ok _); [done|]. rewrite Hl. simpl. by rewrite bool_decide_eq_true_2.
    + assert (Hl := lookup_weaken _ _ _ _ Hrec L3). unfold record_commitment_payload, insert_commitment in *.
      destruct (digests_ok _); [done|]. rewrite Hl. simpl. by rewrite bool_decide_eq_true_2.
  - intros e' x Hkey Hne Hrun'. destruct (record_evidence_Ok e' later later x Hcl Hrun') as (_ & _ & Hcase' & _).
    by destruct Hcase' as [(_ & Hr & _)|[_ Hn]].
Qed.
Definition sample_evidence_db : Db :=
  with_workflow {[ (Testnet, "w1") := MkWorkflow "w1" Testnet PrecommitConfirmed 3 PoolBootstrap POOL_BOOTSTRAP_OWNER
                     (Some "b1") 100 None (Some "t1") (Some JNull) (Some 103) (Some 102) (Some 2) None ]} empty_db.
Example evidence_is_immutable_witness :
  exists db', record_evidence (EvCommitment (MkCommitmentPayload Testnet "a1" "w1" "b1" (replicate 32%nat 0) false))
      sample_evidence_db sample_evidence_db = Ok db' /\
    record_evidence (EvCommitment (MkCommitmentPayload Testnet "a1" "w1" "b1" (replicate 32%nat 0) false)) db' db' = Ok db'.
Proof.
  eexists. split; [vm_compute; reflexivity|].
  edestruct (evidence_is_immutable (EvCommitment (MkCommitmentPayload Testnet "a1" "w1" "b1" (replicate 32%nat 0) false))
    sample_evidence_db) as (_ & _ & Hc & H).
  - intros n a1 a2 c1 c2 Hx. simpl in Hx. by rewrite lookup_empty in Hx.
  - vm_compute. reflexivity.
  - refine (proj1 (H _ _ Hc)). reflexivity.
Defined.
