(* ===== verification/Reconcile.v ===== *)
(** * Precommit reconciliation: [crates/pool-workflow/src/reconcile.rs]

    The search of confirmed records for the precommit the pool submitted.
    serde_json's printer is the parameter [to_string]. *)
From S2P Require Import Prelude BTreeMap Json Payload.
Open Scope Z_scope.

Section reconcile.
Context (to_string : Value -> string).

(** [hyperparameters_match]: both sides rendered to text. *)
Definition render_value (v : Value) : string := match v with JString s => s | other => to_string other end.
Definition render (m : btree Value) : btree string := bt_collect (map (fun kv => (kv.1, render_value kv.2)) m).
Definition hyperparameters_match (a b : btree Value) : bool := bool_decide (render a = render b).

Inductive Reconciliation :=
| NoCandidate
| PendingConfirmation
| ReconciledConfirmed (benchmark_id : string)
| StopForOperator (candidates : list string).

(** [ReconcileError::Shape]. *)
Record ReconcileError := MkShape { re_index : Z; re_reason : string }.

Record Candidate := MkCandidate {
  ca_benchmark_id : string;
  ca_player_id : string;
  ca_block_id : string;
  ca_challenge_id : string;
  ca_algorithm_id : string;
  ca_compute_type : string;
  ca_track_id : string;
  ca_settings : TrackSettings;
  ca_confirmed : bool;
}.

Definition dotted (path key : string) : string := String.append path (String.append "." key).

(** The closures [field] and [number] of [candidate_of]. *)
Definition str_field (index : Z) (parent : Value) (path key : string) : result ReconcileError string :=
  ok_or (and_then (json_get key parent) json_as_str) (MkShape index (String.append "missing " (dotted path key))).
Definition num_field (index : Z) (parent : Value) (path key : string) : result ReconcileError Z :=
  ok_or (and_then (json_get key parent) json_as_u64)
    (MkShape index (String.append "missing or non-numeric " (dotted path key))).

(** A record is confirmed when [state.block_confirmed] is present and not null. *)
Definition block_confirmed (record : Value) : bool :=
  match and_then (json_get "state" record) (json_get "block_confirmed") with
  | Some v => negb (json_is_null v)
  | None => false
  end.

Definition candidate_of (index : Z) (record : Value) : result ReconcileError Candidate :=
  let? benchmark_id := str_field index record "precommit" "benchmark_id" in
  let? settings := ok_or (json_get "settings" record) (MkShape index "missing settings") in
  let? details := ok_or (json_get "details" record) (MkShape index "missing details") in
  let? hyperparameters := match json_get "hyperparameters" details with
                          | None | Some JNull => Ok bt_empty
                          | Some (JObject m) => Ok (bt_collect m)
                          | Some _ => Err (MkShape index "details.hyperparameters is not an object")
                          end in
  let? player_id := str_field index settings "settings" "player_id" in
  let? block_id := str_field index settings "settings" "block_id" in
  let? challenge_id := str_field index settings "settings" "challenge_id" in
  let? algorithm_id := str_field index settings "settings" "algorithm_id" in
  let? compute_type := str_field index details "details" "compute_type" in
  let? track_id := str_field index settings "settings" "track_id" in
  let? num_bundles := num_field index details "details" "num_bundles" in
  let? fuel_budget := num_field index details "details" "fuel_budget" in
  Ok (MkCandidate benchmark_id player_id block_id challenge_id algorithm_id compute_type track_id
        (MkTrackSettings num_bundles fuel_budget hyperparameters) (block_confirmed record)).

Definition candidate_matches (c : Candidate) (submitted : PrecommitSubmission) : bool :=
  String.eqb (ca_player_id c) (ps_player_id submitted) &&
  String.eqb (ca_block_id c) (ps_block_id submitted) &&
  String.eqb (ca_challenge_id c) (ps_challenge_id submitted) &&
  String.eqb (ca_algorithm_id c) (ps_algorithm_id submitted) &&
  String.eqb (ca_compute_type c) (ps_compute_type submitted) &&
  match bt_get (ca_track_id c) (ps_track_settings submitted) with
  | Some offered =>
      (ts_num_bundles offered =? ts_num_bundles (ca_settings c)) &&
      (ts_fuel_budget offered =? ts_fuel_budget (ca_settings c)) &&
      hyperparameters_match (ts_hyperparameters offered) (ts_hyperparameters (ca_settings c))
  | None => false
  end.

(** The loop over the window, with its running index. *)
Fixpoint find_matches (index : Z) (records : list Value) (submitted : PrecommitSubmission)
  : result ReconcileError (list (string * bool)) :=
  match records with
  | [] => Ok []
  | record :: rest =>
      let? candidate := candidate_of index record in
      let? matches := find_matches (index + 1) rest submitted in
      Ok (if candidate_matches candidate submitted
          then (ca_benchmark_id candidate, ca_confirmed candidate) :: matches else matches)
  end.

Definition reconcile_precommit (precommits : list Value) (submitted : PrecommitSubmission)
  : result ReconcileError Reconciliation :=
  let? matches := find_matches 0 precommits submitted in
  match matches with
  | [] => Ok NoCandidate
  | [(benchmark_id, confirmed)] => Ok (if confirmed then ReconciledConfirmed benchmark_id else PendingConfirmation)
  | _ => Ok (StopForOperator (sort_by str_leb (map fst matches)))
  end.

(** ** Specification *)

(** Record [i] of the window reads as [c] and is the submitted precommit. *)
Definition match_at (precommits : list Value) (submitted : PrecommitSubmission) (i : nat) (c : Candidate) : Prop :=
  exists v, precommits !! i = Some v /\ candidate_of (Z.of_nat i) v = Ok c /\ candidate_matches c submitted = true.

(** ** Lemmas *)

Lemma find_matches_Ok l sub : forall base ms, find_matches (Z.of_nat base) l sub = Ok ms ->
  exists cs, Forall2 (fun iv c => candidate_of (Z.of_nat (base + iv.1)) iv.2 = Ok c) (imap pair l) cs /\
    ms = map (fun c => (ca_benchmark_id c, ca_confirmed c)) (filter (fun c => candidate_matches c sub = true) cs).
Proof.
  induction l as [|v l IH]; intros base ms; simpl; [intros [= <-]; by exists []|].
  destruct (candidate_of _ v) as [c|] eqn:Hc; [|done].
  replace (Z.of_nat base + 1) with (Z.of_nat (S base)) by lia.
  destruct (find_matches _ l sub) as [ms'|] eqn:Hm; [|done].
  destruct (IH _ _ Hm) as (cs & Hcs & ->). intros [= <-]. exists (c :: cs). split.
  - constructor; [simpl; by rewrite Nat.add_0_r|]. clear -Hcs.
    replace (imap (pair ∘ S) l) with (map (fun iv => (S iv.1, iv.2)) (imap pair l)).
    + apply Forall2_fmap_l. eapply Forall2_impl; [exact Hcs|]. intros [i v'] c'; simpl. by rewrite Nat.add_succ_r.
    + change (map ?f ?x) with (fmap f x). rewrite fmap_imap. by apply imap_ext.
  - rewrite filter_cons. destruct (candidate_matches c sub) eqn:E; [by rewrite decide_True|by rewrite decide_False].
Qed.

(** Position by position. *)
Lemma find_matches_spec l sub ms :
  find_matches 0 l sub = Ok ms ->
  exists cs, length cs = length l /\
    (forall i v, l !! i = Some v -> exists c, cs !! i = Some c /\ candidate_of (Z.of_nat i) v = Ok c) /\
    ms = map (fun c => (ca_benchmark_id c, ca_confirmed c)) (filter (fun c => candidate_matches c sub = true) cs).
Proof.
  intros (cs & Hcs & ->)%(find_matches_Ok l sub 0). exists cs. split_and!; [|intros i v Hi|done].
  - apply Forall2_length in Hcs. by rewrite length_imap in Hcs.
  - destruct (Forall2_lookup_l _ _ _ i (i, v) Hcs) as (c & Hc & E); [by rewrite list_lookup_imap, Hi|].
    by exists c.
Qed.

Lemma match_at_elem l sub cs c i :
  length cs = length l ->
  (forall i v, l !! i = Some v -> exists c, cs !! i = Some c /\ candidate_of (Z.of_nat i) v = Ok c) ->
  match_at l sub i c <-> cs !! i = Some c /\ candidate_matches c sub = true.
Proof.
  intros Hlen Hcs. unfold match_at. split.
  - intros (v & Hv & Hc & Hm). destruct (Hcs i v Hv) as (c' & Hc' & E). split; [congruence|done].
  - intros [Hi Hm]. destruct (l !! i) as [v|] eqn:Hv.
    + exists v. split; [done|]. destruct (Hcs i v Hv) as (c' & Hc' & E). split; [congruence|done].
    + apply lookup_ge_None in Hv. apply lookup_lt_Some in Hi. lia.
Qed.
End reconcile.

Lemma filter_singleton {A} (P : A -> Prop) `{forall x, Decision (P x)} (l : list A) c :
  filter P l = [c] -> exists i, l !! i = Some c /\ P c /\ forall j x, l !! j = Some x -> P x -> j = i.
Proof.
  induction l as [|x l IH]; [done|]. rewrite filter_cons. case_decide as Hx.
  - intros [= -> Hnil]. exists 0%nat. split_and!; [done..|]. intros [|j] y Hj Hy; [done|]. exfalso.
    apply (not_elem_of_nil y). rewrite <- Hnil. apply list_elem_of_filter. split; [done|].
    by apply (list_elem_of_lookup_2 _ j).
  - intros Hl. destruct (IH Hl) as (i & Hi & Hc & Hu). exists (S i). split_and!; [done..|].
    intros [|j] y Hj Hy; [simpl in Hj; congruence|]. f_equal. by eapply Hu.
Qed.
Lemma filter_two {A} (P : A -> Prop) `{forall x, Decision (P x)} (l : list A) c d r :
  filter P l = c :: d :: r -> exists i j x y, i <> j /\ l !! i = Some x /\ P x /\ l !! j = Some y /\ P y.
Proof.
  induction l as [|x l IH]; [done|]. rewrite filter_cons. case_decide as Hx.
  - intros [= -> Hl]. assert (Hd : d ∈ filter P l) by (rewrite Hl; by left).
    apply list_elem_of_filter in Hd as [Hd [j Hj]%list_elem_of_lookup]. by exists 0%nat, (S j), c, d.
  - intros Hl. destruct (IH Hl) as (i & j & a & b & Hij & Ha & Pa & Hb & Pb).
    exists (S i), (S j), a, b. split_and!; try done. congruence.
Qed.

(** What an answer says about the window. *)
Definition shows (to_string : Value -> string) (l : list Value) (sub : PrecommitSubmission) (r : Reconciliation) : Prop :=
  match r with
  | NoCandidate => forall i c, ~ match_at to_string l sub i c
  | PendingConfirmation => exists i c, match_at to_string l sub i c /\ ca_confirmed c = false /\
      forall j d, match_at to_string l sub j d -> j = i
  | ReconciledConfirmed b => exists i c, match_at to_string l sub i c /\ ca_confirmed c = true /\
      ca_benchmark_id c = b /\ forall j d, match_at to_string l sub j d -> j = i
  | StopForOperator ids => (exists i j c d, i <> j /\ match_at to_string l sub i c /\ match_at to_string l sub j d) /\
      forall b, b ∈ ids <-> exists i c, match_at to_string l sub i c /\ ca_benchmark_id c = b
  end.
Lemma reconcile_shows to_string l sub r : reconcile_precommit to_string l sub = Ok r -> shows to_string l sub r.
Proof.
  unfold reconcile_precommit. destruct (find_matches _ _ _ _) as [ms|] eqn:Hm; [|done].
  destruct (find_matches_spec _ _ _ _ Hm) as (cs & Hlen & Hcs & ->).
  pose proof (fun i c => match_at_elem to_string l sub cs c i Hlen Hcs) as Hat. intros Hr.
  destruct (filter _ cs) as [|c [|d rest]] eqn:Hf; cbn [map fst snd] in Hr.
  - injection Hr as <-. intros i c [Hi Hmt]%Hat.
    apply (not_elem_of_nil c). rewrite <- Hf. apply list_elem_of_filter. split; [done|]. by apply (list_elem_of_lookup_2 _ i).
  - destruct (filter_singleton _ _ _ Hf) as (i & Hi & Pc & Hu).
    destruct (ca_confirmed c) eqn:Hc; injection Hr as <-; exists i, c; split_and!; try done; try (by apply Hat);
      intros j d [Hj Hd]%Hat; by eapply Hu.
  - assert (r = StopForOperator (sort_by str_leb (map fst (map (fun c => (ca_benchmark_id c, ca_confirmed c)) (c :: d :: rest)))))
      as -> by (cbn [map fst snd]; congruence). split.
    + destruct (filter_two _ _ _ _ _ Hf) as (i & j & x & y & Hij & Hx & Px & Hy & Py).
      exists i, j, x, y. split_and!; [done|by apply Hat..].
    + intros b. rewrite elem_of_sort_by.
      rewrite <- Hf, map_map, list_elem_of_fmap. simpl. split.
      * intros (x & -> & [Px [i Hi]%list_elem_of_lookup]%list_elem_of_filter). exists i, x. split; [by apply Hat|done].
      * intros (i & x & [Hi Px]%Hat & <-). exists x. split; [done|]. apply list_elem_of_filter.
        split; [done|]. by apply (list_elem_of_lookup_2 _ i).
Qed.
Lemma find_matches_readable to_string l sub : forall base,
  (forall i v, l !! i = Some v -> is_Ok (candidate_of (base + Z.of_nat i) v) = true) -> is_Ok (find_matches to_string base l sub) = true.
Proof.
  induction l as [|v l IH]; intros base Hall; [done|]. cbn [find_matches]. specialize (Hall 0%nat v eq_refl) as H0. rewrite Z.add_0_r in H0.
  destruct (candidate_of base v); [|done]. specialize (IH (base + 1)). destruct (find_matches _ (base + 1) l sub) as [ms|]; [done|]. apply IH.
  intros i x Hi. specialize (Hall (S i) x Hi). by replace (base + 1 + Z.of_nat i) with (base + Z.of_nat (S i)) by lia.
Qed.
Lemma reconcile_readable to_string l sub : (forall i v, l !! i = Some v -> is_Ok (candidate_of (Z.of_nat i) v) = true) ->
  exists r, reconcile_precommit to_string l sub = Ok r.
Proof.
  intros Hall. unfold reconcile_precommit. pose proof (find_matches_readable to_string l sub 0 Hall) as H.
  destruct (find_matches _ _ _ _) as [ms|]; [|done]. destruct ms as [|[b c] [|? ?]]; by eexists.
Qed.

(** ** Properties *)

(** The search answers exactly what the window shows.  An answer is given
    exactly when every record could be read.  It is [NoCandidate] when no record
    is the submitted precommit, confirmed or not; pending or confirmed when
    exactly one is, with that record's id; and stops for an operator when several
    are, naming all of them -- never choosing among them. *)
Theorem reconcile_exact to_string l sub :
  (is_Ok (reconcile_precommit to_string l sub) = true <-> forall i v, l !! i = Some v -> is_Ok (candidate_of (Z.of_nat i) v) = true) /\
  forall r, reconcile_precommit to_string l sub = Ok r -> shows to_string l sub r.
Proof.
  split; [|apply reconcile_shows]. split.
  - unfold reconcile_precommit. destruct (find_matches _ _ _ _) as [ms|] eqn:Hm; [|done]. intros _ i v Hi.
    destruct (find_matches_spec _ _ _ _ Hm) as (cs & _ & Hcs & _). by destruct (Hcs i v Hi) as (c & _ & ->).
  - intros Hall. by destruct (reconcile_readable to_string l sub Hall) as [r ->].
Qed.

(** The record TIG serves for a submission on track [t]: its own benchmark id,
    the submitted header fields, the selected track's settings with the
    hyperparameters [h], and a confirmation state. *)
Definition tig_record (sub : PrecommitSubmission) (benchmark_id t : string) (s : TrackSettings) (h : btree Value)
    (state : Value) : Value :=
  JObject [("benchmark_id", JString benchmark_id);
           ("settings", JObject [("player_id", JString (ps_player_id sub)); ("block_id", JString (ps_block_id sub));
                                 ("challenge_id", JString (ps_challenge_id sub));
                                 ("algorithm_id", JString (ps_algorithm_id sub)); ("track_id", JString t)]);
           ("details", JObject [("compute_type", JString (ps_compute_type sub)); ("hyperparameters", JObject h);
                                ("num_bundles", json_u64 (ts_num_bundles s)); ("fuel_budget", json_u64 (ts_fuel_budget s))]);
           ("state", state)].

(** The pool's own precommit is never reported absent: when the window holds
    TIG's record of it -- on whichever offered track TIG selected, confirmed or
    not, with hyperparameters at any JSON type that reads the same -- the
    search does not answer [NoCandidate], which is the only answer that could
    license a resend. *)
Theorem own_precommit_never_absent to_string l sub i b t s h state :
  bt_get t (ps_track_settings sub) = Some s -> bt_wf h ->
  render to_string h = render to_string (ts_hyperparameters s) ->
  l !! i = Some (tig_record sub b t s h state) ->
  reconcile_precommit to_string l sub <> Ok NoCandidate.
Proof.
  intros Ht Hwf Hh Hi Hrun. unfold reconcile_precommit in Hrun.
  destruct (find_matches _ _ _ _) as [ms|] eqn:Hm; [|done].
  destruct (find_matches_spec _ _ _ _ Hm) as (cs & Hlen & Hcs & ->).
  destruct (Hcs i _ Hi) as (c & Hc & Hread). unfold candidate_of in Hread. simpl in Hread. injection Hread as <-.
  set (c := MkCandidate _ _ _ _ _ _ _ _ _) in Hc.
  assert (Hmatch : candidate_matches to_string c sub = true).
  { unfold candidate_matches, c. simpl. rewrite !String.eqb_refl, Ht. simpl. rewrite !Z.eqb_refl. simpl.
    unfold hyperparameters_match. rewrite bt_collect_id by done. by apply bool_decide_eq_true. }
  assert (Hin : c ∈ filter (fun c => candidate_matches to_string c sub = true) cs).
  { apply list_elem_of_filter. split; [done|]. by apply (list_elem_of_lookup_2 _ i). }
  destruct (filter _ cs) as [|x [|y rest]]; [by apply not_elem_of_nil in Hin| |done].
  simpl in Hrun. by destruct (ca_confirmed x).
Qed.
Definition decimal_stub (v : Value) : string := match v with JNumber (PosInt 3) => "3" | _ => "?" end.
Example own_precommit_never_absent_witness :
  reconcile_precommit decimal_stub
    [tig_record sample_submission "b9" "t1" (MkTrackSettings 4 1000 []) [("alpha", JString "3")] JNull]
    sample_submission <> Ok NoCandidate.
Proof.
  refine (own_precommit_never_absent decimal_stub _ sample_submission 0%nat "b9" "t1"
    (MkTrackSettings 4 1000 [("alpha", json_u64 3)]) [("alpha", JString "3")] JNull _ _ _ _); try reflexivity.
  repeat constructor.
Defined.
