(* ===== verification/Restart.v ===== *)
(** * Restart reconciliation and block gaps: [crates/pool-workflow/src/restart.rs]

    The pass that brings every nonterminal workflow up to the confirmed window
    before work is claimed, and the record of missing heights.  Each transition
    commits on its own, so a pass that stops midway leaves what it had already
    committed: the database is threaded through, beside the report. *)
From S2P Require Import Prelude BTreeMap Json Domain Store Workflow Intent Attempt.
Open Scope Z_scope.

Record ConfirmedWindow := MkWindow {
  cw_precommits : btree ConfirmedPrecommit;
  cw_benchmarks : btree ConfirmedBenchmark;
  cw_proofs : btree ConfirmedProof;
  cw_frauds : btree ConfirmedFraud;
  cw_verified : list string;
  cw_active : list string;
  cw_at_block : Z;
}.

Record Reconciled := MkReconciled { rc_workflow_id : string; rc_from : WorkflowState; rc_to : WorkflowState }.

Inductive NeedsAttention :=
| Contradicted (workflow_id benchmark_id recorded_state : string)
| AttentionFailed (workflow_id : string) (error : WorkflowError)
| PrecommitSearchOwed (workflow_id : string)
| VerificationMissed (workflow_id benchmark_id : string)
| OutsideWindow (workflow_id benchmark_id : string).

Record RestartReport := MkReport {
  rp_advanced : list Reconciled;
  rp_unchanged : list string;
  rp_needs_attention : list NeedsAttention;
}.
Definition push_attention (a : NeedsAttention) (r : RestartReport) : RestartReport :=
  MkReport (rp_advanced r) (rp_unchanged r) (rp_needs_attention r ++ [a]).

Definition blocks_claiming (r : RestartReport) : bool :=
  existsb (fun item => match item with AttentionFailed _ _ | Contradicted _ _ _ => true | _ => false end)
    (rp_needs_attention r).

(** ** One workflow *)

(** What offering one piece of evidence led to. *)
Inductive Offer :=
| Moved (w : Workflow) (db : Db)
| NotApplicable
| Refuted (recorded : string)
| OfferFailed (e : WorkflowError).
Definition offer (r : result WorkflowError (Workflow * Db)) : Offer :=
  match r with
  | Ok (w, db) => Moved w db
  | Err (NotAllowed _ _ _ _) => NotApplicable
  | Err (TerminalStateContradicted _ _ recorded) => Refuted recorded
  | Err e => OfferFailed e
  end.

(** The pass's state between offers: where the workflow is, and the database
    and report so far. *)
Record Progress := MkProgress { pg_state : WorkflowState; pg_revision : Z; pg_db : Db; pg_report : RestartReport }.
(** A step continues, returns early with the state so far, or fails. *)
Inductive StepResult := Continue (p : Progress) | Return (p : Progress) | Raise (e : WorkflowError) (p : Progress).

(** One [match] on an offer, as the body writes it for each kind of evidence. *)
Definition apply_offer (id benchmark_id : string) (p : Progress) (o : Offer) : StepResult :=
  match o with
  | Moved w db => Continue (MkProgress (wf_state w) (wf_revision w) db (pg_report p))
  | NotApplicable => Continue p
  | Refuted recorded =>
      Return (MkProgress (pg_state p) (pg_revision p) (pg_db p)
                (push_attention (Contradicted id benchmark_id recorded) (pg_report p)))
  | OfferFailed e => Raise e p
  end.
Definition and_next (s : StepResult) (k : Progress -> StepResult) : StepResult :=
  match s with Continue p => k p | other => other end.

Section pass.
Context (n : Network) (window : ConfirmedWindow).

Definition known_to_tig (b : string) : bool :=
  bt_contains b (cw_precommits window) || bt_contains b (cw_benchmarks window) ||
  bt_contains b (cw_proofs window) || bt_contains b (cw_frauds window) ||
  existsb (String.eqb b) (cw_verified window) || existsb (String.eqb b) (cw_active window).

(** The four offers, in order.  A fraud ends the pass for the workflow either
    way: its [NotAllowed] is a failure, not an answer. *)
Definition fraud_step (id b : string) (p : Progress) : StepResult :=
  match bt_get b (cw_frauds window) with
  | None => Continue p
  | Some fraud =>
      match confirm_fraud n id (pg_revision p) fraud (pg_db p) with
      | Ok (w, db) => Return (MkProgress (wf_state w) (wf_revision w) db (pg_report p))
      | Err (TerminalStateContradicted _ _ recorded) =>
          Return (MkProgress (pg_state p) (pg_revision p) (pg_db p)
                    (push_attention (Contradicted id b recorded) (pg_report p)))
      | Err e => Raise e p
      end
  end.
Definition benchmark_step (id b : string) (p : Progress) : StepResult :=
  match bt_get b (cw_benchmarks window) with
  | None => Continue p
  | Some ev => apply_offer id b p (offer (confirm_benchmark n id (pg_revision p) ev (pg_db p)))
  end.
Definition proof_step (id b : string) (p : Progress) : StepResult :=
  match bt_get b (cw_proofs window) with
  | None => Continue p
  | Some ev => apply_offer id b p (offer (confirm_proof n id (pg_revision p) ev (pg_db p)))
  end.
Definition verified_step (id b : string) (p : Progress) : StepResult :=
  if existsb (String.eqb b) (cw_verified window)
  then apply_offer id b p (offer (confirm_verified n id (pg_revision p) b (cw_at_block window) (pg_db p)))
  else Continue p.
(** The closing report on a benchmark that is active but was never verified. *)
Definition active_step (id b : string) (p : Progress) : StepResult :=
  if negb (bool_decide (pg_state p = Verified)) && negb (is_terminal (pg_state p)) &&
     existsb (String.eqb b) (cw_active window)
  then Continue (MkProgress (pg_state p) (pg_revision p) (pg_db p)
                   (push_attention (VerificationMissed id b) (pg_report p)))
  else Continue p.

Definition advance_one (current : Workflow) (db : Db) (report : RestartReport) : StepResult :=
  let id := wf_workflow_id current in
  let start := MkProgress (wf_state current) (wf_revision current) db report in
  match wf_benchmark_id current with
  | None =>
      if has_transmitted_precommit_write n id db
      then Return (MkProgress (wf_state current) (wf_revision current) db (push_attention (PrecommitSearchOwed id) report))
      else Return start
  | Some b =>
      if negb (known_to_tig b) && negb (bool_decide (wf_state current = Verified))
      then Return (MkProgress (wf_state current) (wf_revision current) db (push_attention (OutsideWindow id b) report))
      else and_next (fraud_step id b start) (fun p => and_next (benchmark_step id b p) (fun p =>
             and_next (proof_step id b p) (fun p => and_next (verified_step id b p) (active_step id b))))
  end.

(** ** The pass *)

(** The loop body of [reconcile_after_restart]. *)
Definition restart_step (acc : Db * RestartReport) (current : Workflow) : Db * RestartReport :=
  let '(db, report) := acc in
  let id := wf_workflow_id current in
  match advance_one current db report with
  | Raise e p => (pg_db p, push_attention (AttentionFailed id e) (pg_report p))
  | Continue p | Return p =>
      let r := pg_report p in
      if bool_decide (pg_state p = wf_state current)
      then (pg_db p, MkReport (rp_advanced r) (rp_unchanged r ++ [id]) (rp_needs_attention r))
      else (pg_db p, MkReport (rp_advanced r ++ [MkReconciled id (wf_state current) (pg_state p)])
                       (rp_unchanged r) (rp_needs_attention r))
  end.

(** [nonterminal]: every workflow of the network outside the terminal states,
    in the database's text order. *)
Definition nonterminal (text_le : string -> string -> bool) (db : Db) : result WorkflowError (list Workflow) :=
  let terminal := filter (fun s => is_terminal s = true) all_states in
  find_each n (fun _ => db) (sort_by text_le (map wf_workflow_id
    (filter (fun w => wf_network w = n /\ wf_state w ∉ terminal) (rows (db_workflow db))))).

Definition reconcile_after_restart (text_le : string -> string -> bool) (db : Db)
  : result WorkflowError (RestartReport * Db) :=
  let? live := nonterminal text_le db in
  let '(db', report) := fold_left restart_step live (db, MkReport [] [] []) in
  Ok (report, db').
End pass.

(** ** Block gaps *)

Definition record_block_gap (n : Network) (after_height observed_height : Z) (db : Db)
  : result WorkflowError (list Z * Db) :=
  if observed_height <=? after_height + 1 then Ok ([], db)
  else
    let missing := seqZ (after_height + 1) (observed_height - (after_height + 1)) in
    if (after_height <? 0) || (observed_height <? 0)
    then Err (WfUnavailable (CheckViolation "block_data_gap_heights_non_negative"))
    else
      let recorded := filter (fun h => db_gap db !! (n, h) = None) missing in
      let table := fold_right (fun h t => <[(n, h) := MkGapRow after_height observed_height None]> t)
                     (db_gap db) recorded in
      Ok (sort_by Z.leb recorded, with_gap table db).

Definition open_block_gaps (n : Network) (db : Db) : list Z :=
  sort_by Z.leb (map (fun kr => kr.1.2) (filter (fun kr => kr.1.1 = n /\ gr_resolved_at kr.2 = None)
    (map_to_list (db_gap db)))).

(** ** What one workflow's advance may do *)

(** The progress of a state along the lifecycle: no edge goes back. *)
Definition rank (s : WorkflowState) : Z :=
  match s with
  | Decided => 0 | PrecommitSubmitted => 1 | PrecommitConfirmed => 2 | BenchmarkSubmitted => 3
  | BenchmarkConfirmed => 4 | ProofSubmitted => 5 | ProofConfirmed => 6 | Verified => 7
  | _ => 8
  end.
Lemma edge_rank s s' : edge s s' -> rank s < rank s'.
Proof.
  destruct 1 as [|s Hs| |s Hs|s Hs| |s Hs| |s Hs|s Hs|s Hs]; simpl; try lia;
    try (rewrite !elem_of_cons, elem_of_nil in Hs; destruct Hs as [->|[->|[]]]; simpl; lia);
    by destruct s.
Qed.
Lemma tc_edge_rank s s' : tc edge s s' -> rank s < rank s'.
Proof. induction 1 as [s s' He|s t s' He _ IH]; [by apply edge_rank|]. apply edge_rank in He. lia. Qed.

Lemma keeps_refl w : keeps w w.
Proof. by unfold keeps. Qed.
Lemma keeps_trans w1 w2 w3 : keeps w1 w2 -> keeps w2 w3 -> keeps w1 w3.
Proof. unfold keeps. intuition (try congruence; eauto). Qed.
#[global] Instance keeps_preorder : PreOrder keeps.
Proof. split; [exact keeps_refl|exact keeps_trans]. Qed.

(** A confirmed record about the benchmark: the only thing the pass moves a
    workflow on. *)
Definition evidence_for (window : ConfirmedWindow) (b : string) : Prop :=
  is_Some (bt_get b (cw_frauds window)) \/ is_Some (bt_get b (cw_benchmarks window)) \/
  is_Some (bt_get b (cw_proofs window)) \/ b ∈ cw_verified window.

(** [w] became [w'] on the window's evidence, or stayed as it was. *)
Definition advanced_by (window : ConfirmedWindow) (w w' : Workflow) : Prop :=
  w' = w \/
  (tc edge (wf_state w) (wf_state w') /\ keeps w w' /\
   exists b, wf_benchmark_id w = Some b /\ evidence_for window b).

Definition attention_workflow (a : NeedsAttention) : string :=
  match a with
  | Contradicted id _ _ | AttentionFailed id _ | PrecommitSearchOwed id | VerificationMissed id _
  | OutsideWindow id _ => id
  end.
Definition is_failure (a : NeedsAttention) : bool :=
  match a with AttentionFailed _ _ => true | _ => false end.

(** A report to which one workflow's advance added remarks about it, none of
    them a failure. *)
Definition remarked (id : string) (r r' : RestartReport) : Prop :=
  rp_advanced r' = rp_advanced r /\ rp_unchanged r' = rp_unchanged r /\
  exists l, rp_needs_attention r' = rp_needs_attention r ++ l /\
    Forall (fun a => attention_workflow a = id /\ is_failure a = false) l.
Lemma remarked_refl id r : remarked id r r.
Proof. split_and!; [done|done|]. exists []. rewrite app_nil_r. done. Qed.
Lemma remarked_push id r r' a :
  remarked id r r' -> attention_workflow a = id -> is_failure a = false -> remarked id r (push_attention a r').
Proof.
  intros (H1 & H2 & l & H3 & Hl) Ha Hf. split_and!; [done|done|]. exists (l ++ [a]). simpl.
  rewrite H3, app_assoc. split; [done|]. apply Forall_app. by rewrite Forall_singleton.
Qed.

Section advance.
Context (n : Network) (window : ConfirmedWindow) (db0 : Db) (w0 : Workflow) (b : string) (report : RestartReport).
Context (Hok : workflows_ok (db_workflow db0)).
Context (Hw0 : db_workflow db0 !! (n, wf_workflow_id w0) = Some w0).

(** The progress agrees with the stored row, and the row is the only thing the
    advance has changed so far. *)
Record tracks (p : Progress) (w : Workflow) : Prop := {
  tr_advanced : advanced_by window w0 w;
  tr_state : pg_state p = wf_state w;
  tr_revision : pg_revision p = wf_revision w;
  tr_db : pg_db p = with_workflow (<[(n, wf_workflow_id w0) := w]> (db_workflow db0)) db0;
  tr_ok : workflows_ok (db_workflow (pg_db p));
  tr_report : remarked (wf_workflow_id w0) report (pg_report p);
}.
Definition step_tracks (s : StepResult) : Prop :=
  match s with Continue p | Return p | Raise _ p => exists w, tracks p w end.

Lemma tracks_start : tracks (MkProgress (wf_state w0) (wf_revision w0) db0 report) w0.
Proof.
  constructor; simpl; try done; [by left| |apply remarked_refl].
  rewrite insert_id by done. by destruct db0.
Qed.

Lemma tracks_remark p w a :
  tracks p w -> attention_workflow a = wf_workflow_id w0 -> is_failure a = false ->
  tracks (MkProgress (pg_state p) (pg_revision p) (pg_db p) (push_attention a (pg_report p))) w.
Proof. intros [] ??. constructor; try done. simpl. by apply remarked_push. Qed.

(** One successful transition on the window's evidence keeps track. *)
Lemma tracks_op p w op w' db' :
  tracks p w -> wf_benchmark_id w0 = Some b -> evidence_for window b ->
  run_op n (wf_workflow_id w0) (pg_revision p) op (pg_db p) = Ok (w', db') ->
  tracks (MkProgress (wf_state w') (wf_revision w') db' (pg_report p)) w'.
Proof.
  intros [Hadv Hs Hr Hdb Hpok Hrep] Hb Hev Hrun. pose proof (run_op_ok _ _ _ _ _ _ _ Hpok Hrun) as Hok'.
  apply run_op_effect in Hrun as (v & Hv & _ & He & _ & _ & _ & -> & Hk & _ & _ & ->).
  pose proof (ok_key _ _ (proj1 Hpok _ _ Hv)) as Hkv.
  rewrite Hdb in Hv. simpl in Hv. rewrite lookup_insert_eq in Hv. injection Hv as <-.
  constructor; simpl; try done.
  - right. split_and!; [|destruct Hadv as [->|(_ & Hk0 & _)]; [done|by etransitivity]|eauto].
    destruct Hadv as [->|(Ht & _)]; [by apply tc_once|]. eapply tc_r; [done|]. done.
  - rewrite Hdb. simpl. destruct Hk as [Hkey _]. rewrite Hkey, Hkv. by rewrite insert_insert_eq.
Qed.

Lemma apply_offer_tracks p w op :
  tracks p w -> wf_benchmark_id w0 = Some b -> evidence_for window b ->
  step_tracks (apply_offer (wf_workflow_id w0) b p (offer (run_op n (wf_workflow_id w0) (pg_revision p) op (pg_db p)))).
Proof.
  intros Hp Hb Hev. destruct (run_op _ _ _ _ _) as [[w' d]|e] eqn:Hrun; simpl.
  - exists w'. by eapply tracks_op.
  - destruct e; simpl; exists w; try done. by apply tracks_remark.
Qed.

Lemma and_next_tracks s k :
  step_tracks s -> (forall p w, tracks p w -> step_tracks (k p)) -> step_tracks (and_next s k).
Proof. destruct s; simpl; [|done|done]. intros [w Hw] Hk. by eapply Hk. Qed.

Lemma fraud_step_tracks p w :
  tracks p w -> wf_benchmark_id w0 = Some b -> step_tracks (fraud_step n window (wf_workflow_id w0) b p).
Proof.
  intros Hp Hb. unfold fraud_step. destruct (bt_get b (cw_frauds window)) as [ev|] eqn:Hf; [|by exists w].
  change (confirm_fraud n ?i ?r ev ?d) with (run_op n i r (OpConfirmFraud ev) d).
  destruct (run_op _ _ _ _ _) as [[w' d]|e] eqn:Hrun.
  - exists w'. eapply tracks_op; try done. left. by rewrite Hf.
  - destruct e; simpl; exists w; try done. by apply tracks_remark.
Qed.
Lemma benchmark_step_tracks p w :
  tracks p w -> wf_benchmark_id w0 = Some b -> step_tracks (benchmark_step n window (wf_workflow_id w0) b p).
Proof.
  intros Hp Hb. unfold benchmark_step. destruct (bt_get b (cw_benchmarks window)) as [ev|] eqn:Hf; [|by exists w].
  change (confirm_benchmark n ?i ?r ev ?d) with (run_op n i r (OpConfirmBenchmark ev) d).
  eapply apply_offer_tracks; try done. right; left. by rewrite Hf.
Qed.
Lemma proof_step_tracks p w :
  tracks p w -> wf_benchmark_id w0 = Some b -> step_tracks (proof_step n window (wf_workflow_id w0) b p).
Proof.
  intros Hp Hb. unfold proof_step. destruct (bt_get b (cw_proofs window)) as [ev|] eqn:Hf; [|by exists w].
  change (confirm_proof n ?i ?r ev ?d) with (run_op n i r (OpConfirmProof ev) d).
  eapply apply_offer_tracks; try done. right; right; left. by rewrite Hf.
Qed.
Lemma verified_step_tracks p w :
  tracks p w -> wf_benchmark_id w0 = Some b -> step_tracks (verified_step n window (wf_workflow_id w0) b p).
Proof.
  intros Hp Hb. unfold verified_step. destruct (existsb _ _) eqn:Hf; [|by exists w].
  change (confirm_verified n ?i ?r b ?t ?d) with (run_op n i r (OpConfirmVerified b t) d).
  eapply apply_offer_tracks; try done. do 3 right.
  apply existsb_exists in Hf as (x & Hx & ->%String.eqb_eq). by apply list_elem_of_In.
Qed.
Lemma active_step_tracks p w :
  tracks p w -> step_tracks (active_step window (wf_workflow_id w0) b p).
Proof.
  intros Hp. unfold active_step. destruct (_ && _ && _); exists w; [|done]. by apply tracks_remark.
Qed.
End advance.

(** Whatever the window holds, the advance of one workflow keeps track. *)
Lemma advance_one_tracks n window db w report :
  workflows_ok (db_workflow db) -> db_workflow db !! (n, wf_workflow_id w) = Some w ->
  step_tracks n window db w report (advance_one n window w db report).
Proof.
  intros Hok Hw. pose proof (tracks_start n window db w report Hok Hw) as H0.
  unfold advance_one. destruct (wf_benchmark_id w) as [b|] eqn:Hb.
  - destruct (_ && _); [eexists; by apply (tracks_remark n window db w report _ _ _ H0)|].
    apply and_next_tracks; [by eapply fraud_step_tracks|]. intros p1 w1 H1.
    apply and_next_tracks; [by eapply benchmark_step_tracks|]. intros p2 w2 H2.
    apply and_next_tracks; [by eapply proof_step_tracks|]. intros p3 w3 H3.
    apply and_next_tracks; [by eapply verified_step_tracks|]. intros p4 w4 H4.
    by eapply active_step_tracks.
  - destruct (has_transmitted_precommit_write n (wf_workflow_id w) db); eexists; [|done].
    by apply (tracks_remark n window db w report _ _ _ H0).
Qed.

(** ** The whole pass *)

Definition failed_ids (r : RestartReport) : list string :=
  map attention_workflow (filter (fun a => is_failure a = true) (rp_needs_attention r)).
(** Every workflow the report accounts for. *)
Definition accounted (r : RestartReport) : list string :=
  map rc_workflow_id (rp_advanced r) ++ rp_unchanged r ++ failed_ids r.

Lemma failed_ids_remarked id r r' : remarked id r r' -> failed_ids r' = failed_ids r.
Proof.
  intros (_ & _ & l & Hl & Hall). unfold failed_ids. rewrite Hl, filter_app.
  rewrite (list_filter_none _ l); [by rewrite app_nil_r|].
  intros a Ha. rewrite Forall_forall in Hall. destruct (Hall _ Ha) as [_ Hf]. by rewrite Hf.
Qed.

(** The report tells the truth about the databases before and after. *)
Definition truthful (n : Network) (db db' : Db) (r : RestartReport) : Prop :=
  (forall c, c ∈ rp_advanced r -> exists w w', db_workflow db !! (n, rc_workflow_id c) = Some w /\
     db_workflow db' !! (n, rc_workflow_id c) = Some w' /\ rc_from c = wf_state w /\
     rc_to c = wf_state w' /\ tc edge (rc_from c) (rc_to c)) /\
  (forall id, id ∈ rp_unchanged r -> db_workflow db' !! (n, id) = db_workflow db !! (n, id)).

(** What one turn of the loop does to the database and the report. *)
Definition step_effect (n : Network) (window : ConfirmedWindow) (db : Db) (r : RestartReport) (w : Workflow)
    (db' : Db) (r' : RestartReport) : Prop :=
  exists w', advanced_by window w w' /\ workflows_ok (db_workflow db') /\
    db' = with_workflow (<[(n, wf_workflow_id w) := w']> (db_workflow db)) db /\
    accounted r' ≡ₚ wf_workflow_id w :: accounted r /\
    (forall c, c ∈ rp_advanced r' -> c ∈ rp_advanced r \/
       (c = MkReconciled (wf_workflow_id w) (wf_state w) (wf_state w') /\ tc edge (wf_state w) (wf_state w'))) /\
    (forall id, id ∈ rp_unchanged r' -> id ∈ rp_unchanged r \/ (id = wf_workflow_id w /\ w' = w)).

(** The two branches of a turn whose advance returned. *)
Lemma returned_effect n window db r w p w' db' r' :
  tracks n window db w r p w' ->
  (if bool_decide (pg_state p = wf_state w)
   then (pg_db p, MkReport (rp_advanced (pg_report p)) (rp_unchanged (pg_report p) ++ [wf_workflow_id w])
                    (rp_needs_attention (pg_report p)))
   else (pg_db p, MkReport (rp_advanced (pg_report p) ++ [MkReconciled (wf_workflow_id w) (wf_state w) (pg_state p)])
                    (rp_unchanged (pg_report p)) (rp_needs_attention (pg_report p)))) = (db', r') ->
  step_effect n window db r w db' r'.
Proof.
  intros [Hadv Hs _ Hdb Hpok Hrep] E. pose proof (failed_ids_remarked _ _ _ Hrep) as Hf.
  destruct Hrep as (Ha & Hu & _). exists w'. rewrite Hs, Ha, Hu in E.
  case_bool_decide as Hst; injection E as <- <-; split_and!; try done; unfold accounted, failed_ids in *; simpl;
    rewrite ?Hf; try (by left).
  - rewrite <- (app_assoc (rp_unchanged r)). simpl. by rewrite <- !Permutation_middle.
  - intros id [?|E%list_elem_of_singleton]%elem_of_app; [by left|]. right. split; [done|].
    destruct Hadv as [|[Ht _]]; [done|]. apply tc_edge_rank in Ht. rewrite Hst in Ht. lia.
  - rewrite map_app. simpl. rewrite <- app_assoc. simpl. by rewrite <- Permutation_middle.
  - intros c [?|E%list_elem_of_singleton]%elem_of_app; [by left|]. right. split; [done|].
    destruct Hadv as [->|[Ht _]]; done.
Qed.

Lemma restart_step_effect n window db r w db' r' :
  workflows_ok (db_workflow db) -> db_workflow db !! (n, wf_workflow_id w) = Some w ->
  restart_step n window (db, r) w = (db', r') -> step_effect n window db r w db' r'.
Proof.
  intros Hok Hw. unfold restart_step. pose proof (advance_one_tracks n window db w r Hok Hw) as Htr.
  destruct (advance_one n window w db r) as [p|p|e p]; simpl in Htr; destruct Htr as [w' Hw'];
    [by eapply returned_effect|by eapply returned_effect|].
  destruct Hw' as [Hadv _ _ Hdb Hpok Hrep]. pose proof (failed_ids_remarked _ _ _ Hrep) as Hf.
  destruct Hrep as (Ha & Hu & _). intros [= <- <-]. exists w'. split_and!; try done.
  - unfold accounted, failed_ids in *. simpl. rewrite filter_app, map_app, Hf, Ha, Hu. simpl.
    rewrite !app_assoc. by rewrite <- Permutation_cons_append.
  - simpl. rewrite Ha. by left.
  - simpl. rewrite Hu. by left.
Qed.

Lemma find_each_Ok n db ids : find_each n (fun _ => db) ids = Ok (omap (fun id => db_workflow db !! (n, id)) ids).
Proof.
  induction ids as [|id ids IH]; [done|]. simpl. rewrite find_spec, IH. simpl. by destruct (db_workflow db !! (n, id)).
Qed.

(** A query over the network's workflows, then each row again: every row of the
    network with the property is visited, once. *)
Lemma select_visits n text_le db (P : Workflow -> Prop) `{forall w, Decision (P w)} :
  workflows_ok (db_workflow db) ->
  exists ws, find_each n (fun _ => db) (sort_by text_le (map wf_workflow_id
      (filter (fun w => wf_network w = n /\ P w) (rows (db_workflow db))))) = Ok ws /\
    NoDup (map wf_workflow_id ws) /\
    forall w, w ∈ ws <-> db_workflow db !! (n, wf_workflow_id w) = Some w /\ P w.
Proof.
  intros [Hall _]. rewrite find_each_Ok. eexists. split; [done|]. set (ids := sort_by _ _).
  assert (Hids : forall id, id ∈ ids <-> exists w, db_workflow db !! (n, id) = Some w /\ P w).
  { intros id. unfold ids. rewrite elem_of_sort_by, list_elem_of_fmap. split.
    - intros (w & -> & [[Hn Hs] [k Hk]%elem_of_rows]%list_elem_of_filter). exists w. split; [|done].
      rewrite <- Hn. change (db_workflow db !! wkey w = Some w). by rewrite (ok_key _ _ (Hall _ _ Hk)).
    - intros (w & Hw & Hs). pose proof (ok_key _ _ (Hall _ _ Hw)) as [= Hn Hid]. exists w. split; [done|].
      apply list_elem_of_filter. split; [done|]. apply elem_of_rows. by exists (n, id). }
  assert (Hnd : NoDup ids).
  { unfold ids. rewrite sort_by_perm. apply NoDup_fmap_2_strong.
    - intros x y [[Hnx _] [kx Hx]%elem_of_rows]%list_elem_of_filter
        [[Hny _] [ky Hy]%elem_of_rows]%list_elem_of_filter E.
      pose proof (ok_key _ _ (Hall _ _ Hx)) as Kx. pose proof (ok_key _ _ (Hall _ _ Hy)) as Ky.
      unfold wkey in Kx, Ky. congruence.
    - apply NoDup_filter, (NoDup_rows wkey). intros k x Hk. by apply Hall. }
  assert (Hmap : map wf_workflow_id (omap (fun id => db_workflow db !! (n, id)) ids) = ids).
  { assert (Hsome : forall id, id ∈ ids -> exists w, db_workflow db !! (n, id) = Some w) by (intros id Hid; apply Hids in Hid; naive_solver).
    clearbody ids. clear -Hsome Hall. induction ids as [|id ids IH]; [done|]. simpl.
    destruct (Hsome id) as [w Hw]; [by left|]. rewrite Hw. simpl. f_equal.
    - by pose proof (ok_key _ _ (Hall _ _ Hw)) as [= _ ?].
    - apply IH. intros x Hx. apply Hsome. by right. }
  split; [by rewrite Hmap|].
  intros w. rewrite list_elem_of_omap. split.
  - intros (id & Hid & Hw). pose proof (ok_key _ _ (Hall _ _ Hw)) as [= _ Hwid]. rewrite Hwid. split; [done|].
    apply Hids in Hid as (w1 & Hw1 & ?). congruence.
  - intros [Hw Hs]. exists (wf_workflow_id w). split; [|done]. apply Hids. eauto.
Qed.

Lemma in_states_visits n text_le states db :
  workflows_ok (db_workflow db) ->
  exists ws, in_states text_le n states db (fun _ => db) = Ok ws /\ NoDup (map wf_workflow_id ws) /\
    forall w, w ∈ ws <-> db_workflow db !! (n, wf_workflow_id w) = Some w /\ wf_state w ∈ states.
Proof. apply (select_visits n text_le db (fun w => wf_state w ∈ states)). Qed.

(** The pass visits exactly the network's nonterminal workflows, each once. *)
Lemma nonterminal_visits n text_le db :
  workflows_ok (db_workflow db) ->
  exists live, nonterminal n text_le db = Ok live /\ NoDup (map wf_workflow_id live) /\
    forall w, w ∈ live <-> db_workflow db !! (n, wf_workflow_id w) = Some w /\ is_terminal (wf_state w) = false.
Proof.
  intros Hok. unfold nonterminal. set (terminal := filter _ all_states).
  assert (Hterm : forall s, s ∉ terminal <-> is_terminal s = false).
  { intros s. unfold terminal. rewrite list_elem_of_filter. destruct (is_terminal s) eqn:E; [|naive_solver].
    split; [|done]. intros Hn. exfalso. apply Hn. split; [done|]. by destruct s; vm_compute; repeat constructor. }
  destruct (select_visits n text_le db (fun w => wf_state w ∉ terminal) Hok) as (ws & Hws & Hnd & Hvis).
  exists ws. split; [done|]. split; [done|]. intros w. by rewrite Hvis, Hterm.
Qed.

(** ** Properties *)

(** Every turn of the loop kept the invariant, changed only rows it visited,
    and reported truthfully. *)
Lemma pass_effect n window db live :
  workflows_ok (db_workflow db) -> NoDup (map wf_workflow_id live) ->
  (forall w, w ∈ live -> db_workflow db !! (n, wf_workflow_id w) = Some w) ->
  forall db' r, fold_left (restart_step n window) live (db, MkReport [] [] []) = (db', r) ->
  workflows_ok (db_workflow db') /\ db' = with_workflow (db_workflow db') db /\
  (forall k, (forall w, w ∈ live -> k <> (n, wf_workflow_id w)) -> db_workflow db' !! k = db_workflow db !! k) /\
  (forall w, w ∈ live -> exists w', db_workflow db' !! (n, wf_workflow_id w) = Some w' /\ advanced_by window w w') /\
  accounted r ≡ₚ map wf_workflow_id live /\ truthful n db db' r.
Proof.
  intros Hok. induction live as [|w live IH] using rev_ind; intros Hnd Hlive db' r.
  { simpl. intros [= <- <-]. split_and!; try done; [by destruct db|by intros w Hw%not_elem_of_nil|].
    split; [intros c Hc|intros id Hid]; by apply not_elem_of_nil in Hc || apply not_elem_of_nil in Hid. }
  rewrite fold_left_app. simpl. rewrite map_app in Hnd. simpl in Hnd. apply NoDup_app in Hnd as (Hnd & Hdis & _).
  destruct (fold_left _ live _) as [db1 r1]. intros Hstep.
  destruct (IH Hnd) with (db' := db1) (r := r1) as (Hok1 & Hdb1 & Hsame & Hadv & Hacc & Htr1 & Htr2); [|done|].
  { intros v Hv. apply Hlive, elem_of_app. by left. }
  assert (Hnew : forall v, v ∈ live -> wf_workflow_id v <> wf_workflow_id w).
  { intros v Hv E. apply (Hdis (wf_workflow_id v)); [|rewrite E; by left]. apply list_elem_of_fmap. eauto. }
  assert (Hw : db_workflow db !! (n, wf_workflow_id w) = Some w) by (apply Hlive, elem_of_app; right; by left).
  assert (Hw1 : db_workflow db1 !! (n, wf_workflow_id w) = Some w).
  { rewrite Hsame; [done|]. intros v Hv E. injection E as E. by apply (Hnew v Hv). }
  assert (Hvis : forall id, id ∈ accounted r1 -> id <> wf_workflow_id w).
  { intros id Hid. rewrite Hacc in Hid. apply list_elem_of_fmap in Hid as (v & -> & Hv). by apply Hnew. }
  apply restart_step_effect in Hstep as (w' & Hadv' & Hok' & -> & Hacc' & Hr1 & Hr2); [|done|done]. simpl.
  assert (Hother : forall id, id <> wf_workflow_id w ->
    <[(n, wf_workflow_id w) := w']> (db_workflow db1) !! (n, id) = db_workflow db1 !! (n, id)).
  { intros id Hid. apply lookup_insert_ne. intros E. injection E as E. done. }
  split_and!; try done.
  - by rewrite Hdb1.
  - intros k Hk. rewrite lookup_insert_ne; [|intros <-; apply (Hk w); [apply elem_of_app; right; by left|done]].
    apply Hsame. intros v Hv. apply Hk, elem_of_app. by left.
  - intros v [Hv|E%list_elem_of_singleton]%elem_of_app.
    + rewrite Hother by (by apply Hnew). by apply Hadv.
    + subst v. exists w'. by rewrite lookup_insert_eq.
  - rewrite Hacc', Hacc, map_app. simpl. by rewrite <- Permutation_cons_append.
  - split; simpl.
    + intros c [Hc|[-> Ht]]%Hr1; [|exists w, w'; simpl; by rewrite lookup_insert_eq].
      destruct (Htr1 c Hc) as (v & v' & ? & ? & ?). exists v, v'. rewrite Hother; [done|].
      apply Hvis, elem_of_app. left. apply list_elem_of_fmap. eauto.
    + intros id [Hid|[-> ->]]%Hr2; [|by rewrite lookup_insert_eq].
      rewrite Hother; [by apply Htr2|]. apply Hvis, elem_of_app. right. apply elem_of_app. by left.
Qed.

(** The restart pass always completes, over any confirmed window.  It keeps the
    workflow invariant and touches no table but [pool.workflow]; a row changes
    only forward along the lifecycle, only if it is a nonterminal workflow of
    the pass's network that owns a benchmark the window holds a confirmed record
    of, and keeps its identity.  The report accounts for every nonterminal
    workflow exactly once, what it calls advanced moved from and to the states
    it names, and what it calls unchanged is as it was. *)
Theorem restart_sound n window text_le db :
  workflows_ok (db_workflow db) ->
  exists report db', reconcile_after_restart n window text_le db = Ok (report, db') /\
    workflows_ok (db_workflow db') /\ db' = with_workflow (db_workflow db') db /\
    (forall k w, db_workflow db !! k = Some w -> exists w', db_workflow db' !! k = Some w' /\
       advanced_by window w w' /\ (w' <> w -> k.1 = n /\ is_terminal (wf_state w) = false)) /\
    NoDup (accounted report) /\
    (forall id, id ∈ accounted report <->
       exists w, db_workflow db !! (n, id) = Some w /\ is_terminal (wf_state w) = false) /\
    truthful n db db' report.
Proof.
  intros Hok. destruct (nonterminal_visits n text_le db Hok) as (live & Hlive & Hnd & Hvis).
  unfold reconcile_after_restart. rewrite Hlive.
  destruct (fold_left _ live _) as [db' report] eqn:Hfold.
  assert (Hpresent : forall w, w ∈ live -> db_workflow db !! (n, wf_workflow_id w) = Some w) by (intros w ?%Hvis; naive_solver).
  destruct (pass_effect n window db live Hok Hnd Hpresent db' report Hfold)
    as (Hok' & Hdb' & Hsame & Hadv & Hacc & Htruth).
  exists report, db'. split_and!; try done.
  - intros k w Hw. destruct (decide (k.1 = n /\ is_terminal (wf_state w) = false)) as [[Hn Hs]|Hno].
    + assert (Hk : k = (n, wf_workflow_id w)).
      { pose proof (ok_key _ _ (proj1 Hok _ _ Hw)) as Hk. rewrite <- Hk in *. by rewrite <- Hn. }
      rewrite Hk in *. destruct (Hadv w) as (w' & Hw' & Ha); [by apply Hvis|]. exists w'. done.
    + exists w. rewrite Hsame; [split_and!; try done; by left|]. intros v Hv%Hvis ->.
      destruct Hv as [Hv Hs]. apply Hno. split; [done|]. by simplify_eq.
  - by rewrite Hacc.
  - intros id. rewrite Hacc, list_elem_of_fmap. split.
    + intros (w & -> & [Hw Hs]%Hvis). eauto.
    + intros (w & Hw & Hs). pose proof (ok_key _ _ (proj1 Hok _ _ Hw)) as Hk. injection Hk as _ Hid.
      exists w. split; [done|]. apply Hvis. by rewrite Hid.
Qed.
Definition sample_window : ConfirmedWindow :=
  MkWindow [] [("b1", MkConfirmedBenchmark "b1" 110 false)] [("b1", MkConfirmedProof "b1" 112)] [] ["b1"] [] 115.
Example restart_sound_witness :
  workflows_ok (db_workflow sample_db) /\
  exists report db', reconcile_after_restart Testnet sample_window str_leb sample_db = Ok (report, db') /\
    workflows_ok (db_workflow db').
Proof.
  split; [exact sample_db_ok|].
  destruct (restart_sound Testnet sample_window str_leb sample_db sample_db_ok) as (r & d & Hr & Hok & _).
  exists r, d. split; [exact Hr|exact Hok].
Defined.

(** ** Catching up *)

(** Where the window's evidence puts a workflow of benchmark [b] in state [s]:
    a fraud ends it, and otherwise each confirmation applies from the states it
    confirms. *)
Definition after_benchmark (window : ConfirmedWindow) (b : string) (s : WorkflowState) : WorkflowState :=
  match bt_get b (cw_benchmarks window) with
  | Some ev => if bool_decide (s ∈ [PrecommitConfirmed; BenchmarkSubmitted])
               then if cb_stopped ev then Stopped else BenchmarkConfirmed else s
  | None => s
  end.
Definition after_proof (window : ConfirmedWindow) (b : string) (s : WorkflowState) : WorkflowState :=
  if bool_decide (is_Some (bt_get b (cw_proofs window)) /\ s ∈ [BenchmarkConfirmed; ProofSubmitted])
  then ProofConfirmed else s.
Definition after_verified (window : ConfirmedWindow) (b : string) (s : WorkflowState) : WorkflowState :=
  if bool_decide (b ∈ cw_verified window /\ s = ProofConfirmed) then Verified else s.
Definition caught_up (window : ConfirmedWindow) (b : string) (s : WorkflowState) : WorkflowState :=
  if bool_decide (is_Some (bt_get b (cw_frauds window))) then Fraudulent
  else after_verified window b (after_proof window b (after_benchmark window b s)).

(** The window's records of [b] are keyed by it and are no older than the
    workflow, whose revision has room for three transitions. *)
Record window_fits (window : ConfirmedWindow) (b : string) (w : Workflow) : Prop := {
  fit_fraud ev : bt_get b (cw_frauds window) = Some ev ->
    cf_benchmark_id ev = b /\ wf_unverified_from_block w <= cf_block_confirmed ev;
  fit_benchmark ev : bt_get b (cw_benchmarks window) = Some ev ->
    cb_benchmark_id ev = b /\ wf_unverified_from_block w <= cb_block_confirmed ev;
  fit_proof ev : bt_get b (cw_proofs window) = Some ev -> cpr_benchmark_id ev = b;
  fit_block : wf_unverified_from_block w <= cw_at_block window;
  fit_revision : wf_revision w + 3 <= i32_max;
}.

(** The states an offered confirmation applies from. *)
Definition op_from (op : WorkflowOp) : list WorkflowState :=
  match op with
  | OpConfirmBenchmark _ => [PrecommitConfirmed; BenchmarkSubmitted]
  | OpConfirmProof _ => [BenchmarkConfirmed; ProofSubmitted]
  | OpConfirmVerified _ _ => [ProofConfirmed]
  | _ => []
  end.
Lemma op_from_edge op s : s ∈ op_from op -> edge s (op_target op).
Proof.
  destruct op as [|ev|ev|ev|b t|ev| |]; simpl; try (by intros ?%not_elem_of_nil).
  - intros Hs. destruct (cb_stopped ev); by constructor.
  - by constructor.
  - intros ->%list_elem_of_singleton. constructor.
Qed.

(** An offer from any other state is refused: as not allowed while the workflow
    is live, as a contradiction once it has ended. *)
Lemma offer_refused n id op db w b :
  db_workflow db !! (n, id) = Some w -> op_benchmark op = Some b -> wf_benchmark_id w = Some b ->
  (forall ev, op <> OpConfirmFraud ev) -> wf_state w ∉ op_from op ->
  offer (run_op n id (wf_revision w) op db) =
    if is_terminal (wf_state w) then Refuted (WorkflowState_as_str (wf_state w)) else NotApplicable.
Proof.
  intros Hw Hop Hb Hnf Hs. destruct op as [|ev|ev|ev|b' t|ev| |]; try done; try (by destruct (Hnf ev));
    simpl in *; injection Hop as Hop;
    unfold confirm_benchmark, confirm_proof, confirm_verified, transition, transition_guarded;
    rewrite Hw, read_row, Z.eqb_refl; simpl; unfold expect_benchmark; rewrite Hop, Hb, bool_decide_eq_true_2 by done;
    simpl; unfold expect_state; destruct (is_terminal (wf_state w)); simpl; try done;
    by rewrite bool_decide_eq_false_2 by done.
Qed.

Section catch_up.
Context (n : Network) (window : ConfirmedWindow) (db : Db) (w0 : Workflow) (b : string) (report : RestartReport).
Context (Hok : workflows_ok (db_workflow db)).
Context (Hw0 : db_workflow db !! (n, wf_workflow_id w0) = Some w0).
Context (Hb : wf_benchmark_id w0 = Some b) (Hfit : window_fits window b w0).

(** The step put the row in state [s] with at most [k] transitions. *)
Definition step_to (s : WorkflowState) (k : Z) (sr : StepResult) : Prop :=
  exists p w, (sr = Continue p \/ (sr = Return p /\ is_terminal s = true)) /\
    tracks n window db w0 report p w /\ wf_state w = s /\ wf_revision w <= wf_revision w0 + k.

Lemma and_next_to s s' k k' sr next :
  step_to s k sr -> k <= k' -> (is_terminal s = true -> s' = s) ->
  (forall p w, tracks n window db w0 report p w -> wf_state w = s -> wf_revision w <= wf_revision w0 + k ->
     step_to s' k' (next p)) ->
  step_to s' k' (and_next sr next).
Proof.
  intros (p & w & [->|[-> Ht]] & Hp & Hs & Hr) Hk Hf Hnext; [by eapply Hnext|].
  rewrite Hf by done. exists p, w. split_and!; try done; [by right|lia].
Qed.

Lemma tracks_row p w : tracks n window db w0 report p w ->
  db_workflow (pg_db p) !! (n, wf_workflow_id w0) = Some w /\ wf_benchmark_id w = Some b /\
  wf_unverified_from_block w = wf_unverified_from_block w0.
Proof.
  intros [Hadv _ _ Hdb _ _]. rewrite Hdb. simpl. rewrite lookup_insert_eq. split; [done|].
  destruct Hadv as [->|(_ & Hk & _)]; [done|]. unfold keeps in Hk. naive_solver.
Qed.

(** A transition whose edge is open is taken. *)
Lemma open_edge_taken p w op :
  tracks n window db w0 report p w -> op_benchmark op = Some b -> edge (wf_state w) (op_target op) ->
  (forall t, op_closes op = Some t -> wf_unverified_from_block w0 <= t) -> evidence_for window b ->
  wf_revision w < i32_max ->
  exists w' db', run_op n (wf_workflow_id w0) (pg_revision p) op (pg_db p) = Ok (w', db') /\
    wf_state w' = op_target op /\ wf_revision w' = wf_revision w + 1 /\
    tracks n window db w0 report (MkProgress (wf_state w') (wf_revision w') db' (pg_report p)) w'.
Proof.
  intros Hp Hop He Hto Hev Hr. destruct (tracks_row p w Hp) as (Hrow & Hwb & Hfrom).
  pose proof (tr_ok _ _ _ _ _ _ _ Hp) as Hpok.
  assert (Hrun := run_op_progress n (wf_workflow_id w0) op (pg_db p) w Hpok Hrow He).
  rewrite (tr_revision _ _ _ _ _ _ _ Hp).
  rewrite Hrun; [|by intros ev ->| | | | |done].
  - do 2 eexists. split; [reflexivity|]. split_and!; [done|done|].
    eapply (tracks_op n window db w0 b report p w op); try done.
    rewrite (tr_revision _ _ _ _ _ _ _ Hp). apply Hrun; try done.
    all: destruct op; try done; simpl in *; intros; congruence || (rewrite Hfrom; auto) || naive_solver.
  - intros c Hc. congruence.
  - intros t Ht. rewrite Hfrom. by apply Hto.
  - intros r t [->|[g ->]]; done.
  - by destruct op.
Qed.

Lemma offer_to p w op k :
  tracks n window db w0 report p w -> op_benchmark op = Some b -> (forall ev, op <> OpConfirmFraud ev) ->
  (forall t, op_closes op = Some t -> wf_unverified_from_block w0 <= t) -> evidence_for window b ->
  wf_revision w <= wf_revision w0 + k -> wf_revision w0 + k < i32_max ->
  step_to (if bool_decide (wf_state w ∈ op_from op) then op_target op else wf_state w) (k + 1)
    (apply_offer (wf_workflow_id w0) b p (offer (run_op n (wf_workflow_id w0) (pg_revision p) op (pg_db p)))).
Proof.
  intros Hp Hop Hnf Hto Hev Hr Hk. case_bool_decide as Hs.
  - destruct (open_edge_taken p w op) as (w' & db' & Hrun & Hs' & Hr' & Hp'); try done; [by apply op_from_edge|lia|].
    rewrite Hrun. simpl. do 2 eexists. split_and!; [by left|done|done|lia].
  - destruct (tracks_row p w Hp) as (Hrow & Hwb & _).
    rewrite (tr_revision _ _ _ _ _ _ _ Hp), (offer_refused n _ op (pg_db p) w b) by done.
    destruct (is_terminal (wf_state w)) eqn:Ht; simpl; do 2 eexists.
    + split_and!; [by right|by eapply tracks_remark|done|lia].
    + split_and!; [by left|done|done|lia].
Qed.

Lemma benchmark_step_to p w :
  tracks n window db w0 report p w -> wf_revision w <= wf_revision w0 ->
  step_to (after_benchmark window b (wf_state w)) 1 (benchmark_step n window (wf_workflow_id w0) b p).
Proof.
  intros Hp Hr. unfold after_benchmark, benchmark_step. pose proof (fit_revision _ _ _ Hfit).
  destruct (bt_get b (cw_benchmarks window)) as [ev|] eqn:Hev.
  - destruct (fit_benchmark _ _ _ Hfit ev Hev) as [Hid Hblk].
    apply (offer_to p w (OpConfirmBenchmark ev) 0); try done; try lia; simpl; [by f_equal| |].
    + intros t. destruct (cb_stopped ev); [|done]. by intros [= <-].
    + right; left. by rewrite Hev.
  - exists p, w. split_and!; [by left|done|done|lia].
Qed.
Lemma proof_step_to p w :
  tracks n window db w0 report p w -> wf_revision w <= wf_revision w0 + 1 ->
  step_to (after_proof window b (wf_state w)) 2 (proof_step n window (wf_workflow_id w0) b p).
Proof.
  intros Hp Hr. unfold after_proof, proof_step. pose proof (fit_revision _ _ _ Hfit).
  destruct (bt_get b (cw_proofs window)) as [ev|] eqn:Hev.
  - rewrite (bool_decide_ext _ (wf_state w ∈ op_from (OpConfirmProof ev))) by naive_solver.
    apply (offer_to p w (OpConfirmProof ev) 1); try done; try lia; simpl.
    + f_equal. by apply (fit_proof _ _ _ Hfit).
    + right; right; left. by rewrite Hev.
  - rewrite bool_decide_eq_false_2 by (intros [[? ?] _]; done). exists p, w. split_and!; [by left|done|done|lia].
Qed.
Lemma verified_step_to p w :
  tracks n window db w0 report p w -> wf_revision w <= wf_revision w0 + 2 ->
  step_to (after_verified window b (wf_state w)) 3 (verified_step n window (wf_workflow_id w0) b p).
Proof.
  intros Hp Hr. unfold after_verified, verified_step. pose proof (fit_revision _ _ _ Hfit).
  assert (Hin : existsb (String.eqb b) (cw_verified window) = true <-> b ∈ cw_verified window).
  { rewrite existsb_exists, list_elem_of_In. split; [intros (x & ? & ->%String.eqb_eq); done|].
    intros. exists b. by rewrite String.eqb_refl. }
  destruct (existsb _ _).
  - assert (Hv : b ∈ cw_verified window) by (by apply Hin).
    rewrite (bool_decide_ext _ (wf_state w ∈ op_from (OpConfirmVerified b (cw_at_block window)))).
    2:{ simpl. rewrite list_elem_of_singleton. naive_solver. }
    apply (offer_to p w (OpConfirmVerified b (cw_at_block window)) 2); try done; try lia; simpl.
    + intros t [= <-]. by apply (fit_block _ _ _ Hfit).
    + by do 3 right.
  - rewrite bool_decide_eq_false_2 by (intros [Hv _]; by apply Hin in Hv). exists p, w. split_and!; [by left|done|done|lia].
Qed.
Lemma active_step_to p w k :
  tracks n window db w0 report p w -> wf_revision w <= wf_revision w0 + k ->
  step_to (wf_state w) (k + 1) (active_step window (wf_workflow_id w0) b p).
Proof.
  intros Hp Hr. unfold active_step. destruct (_ && _ && _).
  - do 2 eexists. split_and!; [by left|by eapply tracks_remark|done|lia].
  - exists p, w. split_and!; [by left|done|done|lia].
Qed.

Lemma after_benchmark_terminal s : is_terminal s = true -> after_benchmark window b s = s.
Proof. unfold after_benchmark. intros Hs. destruct (bt_get _ _); [|done]. by destruct s. Qed.
Lemma after_proof_terminal s : is_terminal s = true -> after_proof window b s = s.
Proof. intros Hs. unfold after_proof. rewrite bool_decide_eq_false_2; [done|]. intros [_ Hin]. destruct s; set_solver. Qed.
Lemma after_verified_terminal s : is_terminal s = true -> after_verified window b s = s.
Proof. intros Hs. unfold after_verified. rewrite bool_decide_eq_false_2; [done|]. by intros [_ ->]. Qed.

(** The window does not mention [b]: there is nothing to catch up on. *)
Lemma unknown_caught_up s : known_to_tig window b = false -> caught_up window b s = s.
Proof.
  unfold known_to_tig, bt_contains. rewrite !orb_false_iff. intros [[[[[_ K1] K2] K3] K4] _].
  unfold caught_up, after_verified, after_proof, after_benchmark.
  destruct (bt_get b (cw_benchmarks window)), (bt_get b (cw_proofs window)), (bt_get b (cw_frauds window)); try done.
  rewrite (bool_decide_eq_false_2 (is_Some _)) by (by intros []).
  rewrite (bool_decide_eq_false_2 (is_Some _ /\ _)) by (by intros [[] _]).
  rewrite bool_decide_eq_false_2; [done|]. intros [Hv%list_elem_of_In _].
  assert (existsb (String.eqb b) (cw_verified window) = true); [|congruence].
  apply existsb_exists. exists b. by rewrite String.eqb_refl.
Qed.

Lemma forward_steps_to p :
  tracks n window db w0 report p w0 ->
  step_to (after_verified window b (after_proof window b (after_benchmark window b (wf_state w0)))) 4
    (and_next (benchmark_step n window (wf_workflow_id w0) b p) (fun p =>
       and_next (proof_step n window (wf_workflow_id w0) b p) (fun p =>
         and_next (verified_step n window (wf_workflow_id w0) b p) (active_step window (wf_workflow_id w0) b)))).
Proof.
  intros Hp.
  eapply and_next_to; [apply (benchmark_step_to p w0 Hp); lia|lia| |].
  { intros Ht. by rewrite after_proof_terminal, after_verified_terminal. }
  intros p1 w1 Hp1 <- Hr1.
  eapply and_next_to; [by apply (proof_step_to p1 w1 Hp1)|lia| |].
  { intros Ht. by rewrite after_verified_terminal. }
  intros p2 w2 Hp2 <- Hr2.
  eapply and_next_to; [by apply (verified_step_to p2 w2 Hp2)|lia|done|].
  intros p3 w3 Hp3 <- Hr3. by apply (active_step_to p3 w3 3).
Qed.

(** The advance of one workflow puts it where the window's evidence says. *)
Lemma advance_one_catches_up :
  is_terminal (wf_state w0) = false ->
  exists p w, (advance_one n window w0 db report = Continue p \/ advance_one n window w0 db report = Return p) /\
    tracks n window db w0 report p w /\ wf_state w = caught_up window b (wf_state w0).
Proof.
  intros Hlive. pose proof (tracks_start n window db w0 report Hok Hw0) as H0.
  unfold advance_one. rewrite Hb. destruct (negb (known_to_tig window b) && _) eqn:Hknown.
  { apply andb_true_iff in Hknown as [Hk%negb_true_iff _]. rewrite unknown_caught_up by done.
    do 2 eexists. split_and!; [by right| |reflexivity].
    exact (tracks_remark n window db w0 report _ w0 (OutsideWindow (wf_workflow_id w0) b) H0 eq_refl eq_refl). }
  clear Hknown. unfold caught_up, fraud_step. destruct (bt_get b (cw_frauds window)) as [ev|] eqn:Hf.
  - destruct (fit_fraud _ _ _ Hfit ev Hf) as [Hid Hblk]. pose proof (fit_revision _ _ _ Hfit).
    destruct (open_edge_taken _ w0 (OpConfirmFraud ev) H0) as (w' & db' & Hrun & Hs' & _ & Hp'); simpl in *; try lia.
    + by f_equal.
    + by constructor.
    + by intros t [= <-].
    + left. by rewrite Hf.
    + rewrite Hrun. simpl. do 2 eexists. split_and!; [by right|done|done].
  - rewrite (bool_decide_eq_false_2 (is_Some _)) by (by intros []). simpl.
    destruct (forward_steps_to _ H0) as (p & w & Hsr & Hp & Hs & _).
    exists p, w. split_and!; [|done|done]. destruct Hsr as [?|[? _]]; eauto.
Qed.
End catch_up.

(** Later turns of the loop leave the rows they do not visit alone. *)
Lemma later_turns_keep n window live db r db' r' :
  workflows_ok (db_workflow db) -> NoDup (map wf_workflow_id live) ->
  (forall w, w ∈ live -> db_workflow db !! (n, wf_workflow_id w) = Some w) ->
  fold_left (restart_step n window) live (db, r) = (db', r') ->
  forall id, id ∉ map wf_workflow_id live -> db_workflow db' !! (n, id) = db_workflow db !! (n, id).
Proof.
  revert db r. induction live as [|w live IH]; intros db r Hok Hnd Hlive; cbn [fold_left]; [by intros [= <- <-]|].
  simpl in Hnd. inversion Hnd as [|?? Hnin Hnd']; subst.
  destruct (restart_step n window (db, r) w) as [db1 r1] eqn:Hstep. intros Hfold id Hid.
  apply restart_step_effect in Hstep as (w' & _ & Hok1 & -> & _); [|done|apply Hlive; by left].
  simpl in Hid. rewrite not_elem_of_cons in Hid. destruct Hid as [Hne Hid].
  assert (Hother : forall i, i <> wf_workflow_id w ->
    <[(n, wf_workflow_id w) := w']> (db_workflow db) !! (n, i) = db_workflow db !! (n, i)).
  { intros i Hi. apply lookup_insert_ne. intros E. injection E as E. done. }
  assert (Hrest : forall v, v ∈ live -> <[(n, wf_workflow_id w) := w']> (db_workflow db) !! (n, wf_workflow_id v) = Some v).
  { intros v Hv. rewrite Hother; [apply Hlive; by right|].
    intros E. apply Hnin. rewrite <- E. apply list_elem_of_fmap. eauto. }
  rewrite (IH _ _ Hok1 Hnd' Hrest Hfold id Hid). by apply Hother.
Qed.

(** C21. One pass after a restart catches a workflow up with TIG.  A live workflow
    whose benchmark is already known, [b], in whatever state it was left, is taken
    to exactly the state the window's evidence puts it in: to [FRAUDULENT] on a
    fraud entry, to [STOPPED] on a stopped benchmark, and otherwise through
    benchmark, proof and verification as far as the window confirms them, in one
    go.  This is for a window that fits the workflow ([window_fits]): its fraud,
    benchmark and proof entries under [b] are about [b], neither the fraud entry,
    the benchmark entry nor the window's own block is older than the block the
    workflow is unverified from, and its revision has room for three more
    transitions. *)
Theorem restart_catches_up n window text_le db id w b :
  workflows_ok (db_workflow db) -> db_workflow db !! (n, id) = Some w -> is_terminal (wf_state w) = false ->
  wf_benchmark_id w = Some b -> window_fits window b w ->
  exists report db' w', reconcile_after_restart n window text_le db = Ok (report, db') /\
    db_workflow db' !! (n, id) = Some w' /\ wf_state w' = caught_up window b (wf_state w).
Proof.
  intros Hok Hw Hs Hb Hfit. pose proof (ok_key _ _ (proj1 Hok _ _ Hw)) as Hk. injection Hk as _ Hid. subst id.
  destruct (nonterminal_visits n text_le db Hok) as (live & Hlive & Hnd & Hvis).
  unfold reconcile_after_restart. rewrite Hlive.
  assert (Hin : w ∈ live) by (by apply Hvis). apply list_elem_of_split in Hin as (pre & post & ->).
  assert (Hpresent : forall v, v ∈ pre ++ w :: post -> db_workflow db !! (n, wf_workflow_id v) = Some v) by (intros v ?%Hvis; naive_solver).
  clear Hlive Hvis. rewrite fold_left_app. cbn [fold_left].
  rewrite map_app in Hnd. apply NoDup_app in Hnd as (Hndpre & Hdis & Hnd). simpl in Hnd. inversion Hnd as [|?? Hnw Hndpost]; subst.
  destruct (fold_left _ pre _) as [db1 r1] eqn:Hpre.
  destruct (pass_effect n window db pre Hok Hndpre) with (db' := db1) (r := r1) as (Hok1 & _ & Hsame & _); [|done|].
  { intros v Hv. apply Hpresent, elem_of_app. by left. }
  assert (Hkeep : forall v, v ∈ w :: post -> db_workflow db1 !! (n, wf_workflow_id v) = Some v).
  { intros v Hv. rewrite Hsame; [apply Hpresent, elem_of_app; by right|]. intros u Hu E. injection E as E.
    apply (Hdis (wf_workflow_id v)).
    - rewrite E. apply list_elem_of_fmap. eauto.
    - apply (list_elem_of_fmap_2 wf_workflow_id _ _ Hv). }
  destruct (restart_step n window (db1, r1) w) as [db2 r2] eqn:Hstep.
  destruct (advance_one_catches_up n window db1 w b r1 Hok1) as (p & w' & Hadv & Hp & Hs'); try done; [apply Hkeep; by left|].
  assert (Hdb2 : db2 = with_workflow (<[(n, wf_workflow_id w) := w']> (db_workflow db1)) db1 /\ workflows_ok (db_workflow db2)).
  { rewrite <- (tr_db _ _ _ _ _ _ _ Hp). pose proof (tr_ok _ _ _ _ _ _ _ Hp). unfold restart_step in Hstep.
    destruct Hadv as [E|E]; rewrite E in Hstep; case_bool_decide; by injection Hstep as <- <-. }
  destruct Hdb2 as [-> Hok2].
  destruct (fold_left _ post _) as [db3 r3] eqn:Hpost. exists r3, db3, w'. split_and!; [done| |done].
  rewrite (later_turns_keep n window post _ _ _ _ Hok2 Hndpost) with (2 := Hpost); [by apply lookup_insert_eq| |done].
  intros v Hv. simpl. rewrite lookup_insert_ne; [apply Hkeep; by right|]. intros E. injection E as E.
  apply Hnw. rewrite E. apply (list_elem_of_fmap_2 wf_workflow_id _ _ Hv).
Qed.
Definition confirmed_db : Db :=
  match run_op Testnet "w1" 2 (OpConfirmPrecommit sample_precommit) sample_db with
  | Ok (_, d) => d
  | Err _ => sample_db
  end.
Lemma confirmed_db_ok : workflows_ok (db_workflow confirmed_db).
Proof.
  unfold confirmed_db. destruct (run_op _ _ _ _ _) as [[w d]|] eqn:E; [|exact sample_db_ok].
  by eapply run_op_ok; [exact sample_db_ok|].
Qed.
Example restart_catches_up_witness :
  exists w report db' w', db_workflow confirmed_db !! (Testnet, "w1") = Some w /\ wf_state w = PrecommitConfirmed /\
    reconcile_after_restart Testnet sample_window str_leb confirmed_db = Ok (report, db') /\
    db_workflow db' !! (Testnet, "w1") = Some w' /\ wf_state w' = Verified.
Proof.
  eexists. edestruct (restart_catches_up Testnet sample_window str_leb confirmed_db "w1") as (r & d & w' & H1 & H2 & H3).
  - exact confirmed_db_ok.
  - vm_compute. reflexivity.
  - reflexivity.
  - reflexivity.
  - constructor; try (by vm_compute); intros ev; vm_compute; intros [= <-]; split; (reflexivity || discriminate).
  - exists r, d, w'. split; [vm_compute; reflexivity|]. split; [reflexivity|]. split; [exact H1|]. split; [exact H2|].
    rewrite H3. vm_compute. reflexivity.
Defined.

(** ** Block gaps *)

Lemma gap_table_lookup (n : Network) (row : GapRow) (l : list Z) (t : gmap (Network * Z) GapRow) (k : Network * Z) :
  fold_right (fun h t => <[(n, h) := row]> t) t l !! k =
    if bool_decide (k.1 = n /\ k.2 ∈ l) then Some row else t !! k.
Proof.
  induction l as [|h l IH]; simpl.
  { rewrite bool_decide_eq_false_2; [done|]. intros [_ H]. by apply not_elem_of_nil in H. }
  destruct (decide ((n, h) = k)) as [<-|Hne].
  - rewrite lookup_insert_eq, bool_decide_eq_true_2; [done|]. split; [done|]. by left.
  - rewrite lookup_insert_ne by done. rewrite IH. destruct k as [m x]. simpl in *.
    rewrite (bool_decide_ext (m = n /\ x ∈ h :: l) (m = n /\ x ∈ l)); [done|]. rewrite elem_of_cons. naive_solver.
Qed.

Lemma elem_of_open_block_gaps n db h :
  h ∈ open_block_gaps n db <-> exists g, db_gap db !! (n, h) = Some g /\ gr_resolved_at g = None.
Proof.
  unfold open_block_gaps. rewrite elem_of_sort_by, list_elem_of_fmap. split.
  - intros ([[m x] g] & -> & [[Hm Hg] Hin%elem_of_map_to_list]%list_elem_of_filter). simpl in *. subst. eauto.
  - intros (g & Hg & Hr). exists ((n, h), g). split; [done|]. apply list_elem_of_filter. split; [done|].
    by apply elem_of_map_to_list.
Qed.

(** After an observation that skips heights, every skipped height has a row.
    The returned heights are exactly those that had none, in order and each
    once, and they are the ones added to the open gaps; rows already there,
    resolved or not, are kept as they were, no other table changes, and
    observing the same gap again records nothing. *)
Theorem block_gaps_recorded n after observed db :
  0 <= after ->
  exists recorded db', record_block_gap n after observed db = Ok (recorded, db') /\
    db' = with_gap (db_gap db') db /\
    (forall h, after < h < observed -> is_Some (db_gap db' !! (n, h))) /\
    (forall h, h ∈ recorded <-> after < h < observed /\ db_gap db !! (n, h) = None) /\
    NoDup recorded /\ StronglySorted (fun a b => (a <=? b) = true) recorded /\
    (forall k g, db_gap db !! k = Some g -> db_gap db' !! k = Some g) /\
    (forall h, h ∈ open_block_gaps n db' <-> h ∈ open_block_gaps n db \/ h ∈ recorded) /\
    record_block_gap n after observed db' = Ok ([], db').
Proof.
  intros Ha. unfold record_block_gap. destruct (Z.leb_spec observed (after + 1)) as [Hle|Hgt].
  { exists [], db. split_and!; try done; try (by constructor); try (by destruct db); intros h; [lia| |].
    - rewrite elem_of_nil. lia.
    - rewrite elem_of_nil. naive_solver. }
  destruct (Z.ltb_spec after 0); [lia|]. destruct (Z.ltb_spec observed 0); [lia|]. simpl.
  set (missing := seqZ _ _). set (recorded := filter _ missing). set (row := MkGapRow _ _ _).
  assert (Hmiss : forall h, h ∈ missing <-> after < h < observed) by (intros h; unfold missing; rewrite elem_of_seqZ; lia).
  assert (Hrec : forall h, h ∈ recorded <-> after < h < observed /\ db_gap db !! (n, h) = None)
    by (intros h; unfold recorded; rewrite list_elem_of_filter, Hmiss; naive_solver).
  set (t := fold_right _ _ _).
  assert (Ht : forall k, t !! k = if bool_decide (k.1 = n /\ k.2 ∈ recorded) then Some row else db_gap db !! k)
    by (intros k; apply gap_table_lookup).
  assert (Hcover : forall h, after < h < observed -> is_Some (t !! (n, h))).
  { intros h Hh. rewrite Ht. case_bool_decide as Hd; [done|]. simpl in Hd. rewrite Hrec in Hd.
    destruct (db_gap db !! (n, h)); [done|]. naive_solver. }
  exists (sort_by Z.leb recorded), (with_gap t db). split_and!; simpl; try done.
  - intros h. by rewrite elem_of_sort_by.
  - rewrite sort_by_perm. apply NoDup_filter, NoDup_seqZ.
  - apply sort_by_sorted; intros; rewrite ?Z.leb_le in *; lia.
  - intros k g Hk. rewrite Ht, bool_decide_eq_false_2; [done|]. intros [Hn [_ Hr]%Hrec].
    rewrite <- Hn in Hr. destruct k. simpl in *. congruence.
  - intros h. rewrite !elem_of_open_block_gaps, elem_of_sort_by. simpl. rewrite Ht. simpl. split.
    + intros (g & Hg & Hr). case_bool_decide as Hd; [right; naive_solver|]. left. eauto.
    + intros [(g & Hg & Hr)|Hh]; [|exists row; rewrite bool_decide_eq_true_2 by done; done].
      exists g. rewrite bool_decide_eq_false_2; [done|]. intros [_ [_ Hnone]%Hrec]. congruence.
  - rewrite (list_filter_none _ missing); [by destruct db|].
    intros h Hh%Hmiss Hnone. destruct (Hcover h Hh) as [? E]. congruence.
Qed.
Example block_gaps_recorded_witness :
  0 <= 100 /\ exists recorded db', record_block_gap Testnet 100 104 empty_db = Ok (recorded, db') /\
    (forall h, 100 < h < 104 -> is_Some (db_gap db' !! (Testnet, h))) /\ recorded = [101; 102; 103].
Proof.
  split; [lia|]. destruct (block_gaps_recorded Testnet 100 104 empty_db) as (r & d & Hr & _ & Hc & _); [lia|].
  exists r, d. split; [exact Hr|]. split; [exact Hc|]. vm_compute in Hr. by injection Hr as <- <-.
Defined.
