(* ===== verification/Window.v ===== *)
(** * The confirmed window: [crates/pool-controller/src/window.rs]

    The one place a TIG read becomes evidence: a [get-benchmarks] body and a
    block become the [ConfirmedWindow] the workflow transitions consume.  The
    theorem says the window holds exactly the entries with a non-null
    [state.block_confirmed], and that one unreadable confirmed entry refuses
    the whole window rather than reading as absence. *)
From S2P Require Import Prelude BTreeMap Json Domain Store Workflow Payload Reconcile Restart.
Open Scope Z_scope.

Inductive WindowError :=
| WindowShape (collection : string) (index : Z) (reason : string)
| WindowBlock (reason : string).

(** [fn block_confirmed]: [Ok None] for an entry that has not confirmed. *)
Definition block_confirmed (entry : Value) (collection : string) (index : Z)
  : result WindowError (option Z) :=
  if negb (Reconcile.block_confirmed entry) then Ok None
  else
    let? height := ok_or (and_then (and_then (json_get "state" entry) (json_get "block_confirmed")) json_as_i64)
      (WindowShape collection index "state.block_confirmed is confirmed but not an integer height") in
    Ok (Some height).

Definition entries (body : Value) (collection : string) : list Value :=
  default [] (and_then (json_get collection body) json_as_array).

Definition text (entry : Value) (path : list string) (collection : string) (index : Z)
  : result WindowError string :=
  let cursor := fold_left (fun cursor key => default JNull (json_get key cursor)) path entry in
  ok_or (json_as_str cursor)
    (WindowShape collection index
       (String.append (String.concat "." path) " is missing or not a string")).

(** [entry.get("details").and_then(|d| d.get(key))]. *)
Definition detail (key : string) (entry : Value) : option Value :=
  and_then (json_get "details" entry) (json_get key).

(** The loop every collection is read by: the body of the loop gives a key and
    a record, or nothing for an entry that has not confirmed. *)
Definition collect_entries {A} (read : Z -> Value -> result WindowError (option (string * A)))
    (l : list Value) : result WindowError (btree A) :=
  foldM (fun out '(index, entry) =>
           let? r := read (Z.of_nat index) entry in
           Ok (match r with Some (id, a) => bt_insert id a out | None => out end))
    bt_empty (imap pair l).

Definition precommit_entry (index : Z) (entry : Value)
  : result WindowError (option (string * ConfirmedPrecommit)) :=
  let? confirmed := block_confirmed entry "precommits" index in
  match confirmed with
  | None => Ok None
  | Some block_confirmed =>
      let? benchmark_id := text entry ["benchmark_id"] "precommits" index in
      let? block_started := ok_or (and_then (detail "block_started" entry) json_as_i64)
        (WindowShape "precommits" index "details.block_started is missing or not a number") in
      let? track_id := text entry ["settings"; "track_id"] "precommits" index in
      Ok (Some (benchmark_id,
        {| cp_benchmark_id := benchmark_id;
           cp_num_nonces := and_then (detail "num_nonces" entry) json_as_i64;
           cp_num_bundles := and_then (detail "num_bundles" entry) json_as_i64;
           cp_block_confirmed := block_confirmed;
           cp_block_started := block_started;
           cp_track_id := track_id;
           cp_settings := default JNull (json_get "settings" entry) |}))
  end.
Definition precommits (body : Value) : result WindowError (btree ConfirmedPrecommit) :=
  collect_entries precommit_entry (entries body "precommits").

Definition benchmark_entry (index : Z) (entry : Value)
  : result WindowError (option (string * ConfirmedBenchmark)) :=
  let? confirmed := block_confirmed entry "benchmarks" index in
  match confirmed with
  | None => Ok None
  | Some block_confirmed =>
      let? benchmark_id := text entry ["id"] "benchmarks" index in
      let? stopped := ok_or (and_then (detail "stopped" entry) json_as_bool)
        (WindowShape "benchmarks" index "details.stopped is missing or not a boolean") in
      Ok (Some (benchmark_id, MkConfirmedBenchmark benchmark_id block_confirmed stopped))
  end.
Definition benchmark_entries (body : Value) : result WindowError (btree ConfirmedBenchmark) :=
  collect_entries benchmark_entry (entries body "benchmarks").

Definition proof_entry (index : Z) (entry : Value)
  : result WindowError (option (string * ConfirmedProof)) :=
  let? confirmed := block_confirmed entry "proofs" index in
  match confirmed with
  | None => Ok None
  | Some block_confirmed =>
      let? benchmark_id := text entry ["benchmark_id"] "proofs" index in
      Ok (Some (benchmark_id, MkConfirmedProof benchmark_id block_confirmed))
  end.
Definition proofs (body : Value) : result WindowError (btree ConfirmedProof) :=
  collect_entries proof_entry (entries body "proofs").

Definition fraud_entry (index : Z) (entry : Value)
  : result WindowError (option (string * ConfirmedFraud)) :=
  let? confirmed := block_confirmed entry "frauds" index in
  match confirmed with
  | None => Ok None
  | Some block_confirmed =>
      let? benchmark_id := text entry ["benchmark_id"] "frauds" index in
      Ok (Some (benchmark_id, MkConfirmedFraud benchmark_id block_confirmed))
  end.
Definition frauds (body : Value) : result WindowError (btree ConfirmedFraud) :=
  collect_entries fraud_entry (entries body "frauds").

(** [block.get("block").unwrap_or(block)]: a block may arrive wrapped. *)
Definition unwrap_block (block : Value) : Value := default block (json_get "block" block).

(** The closure [ids] of [confirmed_window]: the string members of a set the
    block publishes, none when it publishes no such set. *)
Definition block_ids (block : Value) (set key : string) : list string :=
  match and_then (and_then (and_then (json_get "data" block) (json_get set)) (json_get key)) json_as_array with
  | Some l => omap json_as_str l
  | None => []
  end.

Definition confirmed_window (benchmarks block : Value) : result WindowError ConfirmedWindow :=
  let block := unwrap_block block in
  let? at_block := ok_or (and_then (detail "height" block) json_as_i64)
    (WindowBlock "details.height is missing or not a number") in
  let? precommits := precommits benchmarks in
  let? benchmark_entries := benchmark_entries benchmarks in
  let? proofs := proofs benchmarks in
  let? frauds := frauds benchmarks in
  Ok {| cw_precommits := precommits;
        cw_benchmarks := benchmark_entries;
        cw_proofs := proofs;
        cw_frauds := frauds;
        cw_verified := block_ids block "confirmed_ids" "verified";
        cw_active := block_ids block "active_ids" "benchmark";
        cw_at_block := at_block |}.

(** ** Specification *)

(** The last entry that [read] takes for [id] reads as [a]: the entry the
    window keeps, since a later record of the same id replaces an earlier one. *)
Definition last_read {A} (read : Z -> Value -> result WindowError (option (string * A)))
    (l : list Value) (id : string) (a : A) : Prop :=
  exists i v, l !! i = Some v /\ read (Z.of_nat i) v = Ok (Some (id, a)) /\
    forall j v' a', (i < j)%nat -> l !! j = Some v' -> read (Z.of_nat j) v' <> Ok (Some (id, a')).

(** ** Lemmas *)

Section collect.
Context {A : Type} (read : Z -> Value -> result WindowError (option (string * A))).

Lemma collect_entries_snoc l v :
  collect_entries read (l ++ [v]) =
    (let? out := collect_entries read l in
     let? r := read (Z.of_nat (length l)) v in
     Ok (match r with Some (id, a) => bt_insert id a out | None => out end)).
Proof.
  unfold collect_entries. rewrite imap_app, foldM_app. simpl. rewrite Nat.add_0_r.
  destruct (foldM _ _ (imap pair l)); [|done]. by destruct (read _ v).
Qed.

Lemma last_read_snoc l v id a :
  last_read read (l ++ [v]) id a <->
  read (Z.of_nat (length l)) v = Ok (Some (id, a)) \/
  (last_read read l id a /\ forall a', read (Z.of_nat (length l)) v <> Ok (Some (id, a'))).
Proof.
  split.
  - intros (i & x & Hi & Hr & Hlast). apply lookup_snoc_Some in Hi as [[Hlt Hi]|[-> ->]]; [right|by left].
    split.
    + exists i, x. split; [done|]. split; [done|]. intros j v' a' Hj Hv'. apply Hlast; [done|].
      by apply lookup_app_l_Some.
    + intros a'. apply (Hlast (length l)); [done|]. by rewrite list_lookup_middle.
  - intros [Hr|[(i & x & Hi & Hr & Hlast) Hv]].
    + exists (length l), v. split; [by rewrite list_lookup_middle|]. split; [done|].
      intros j v' a' Hj Hv'%lookup_lt_Some. rewrite length_app in Hv'. simpl in Hv'. lia.
    + exists i, x. split; [by apply lookup_app_l_Some|]. split; [done|]. intros j v' a' Hj Hv'.
      apply lookup_snoc_Some in Hv' as [[_ Hv']|[-> <-]]; [by apply (Hlast j)|apply Hv].
Qed.

Lemma collect_entries_Ok l out :
  collect_entries read l = Ok out ->
  bt_wf out /\ (forall id a, bt_get id out = Some a <-> last_read read l id a) /\
  forall i v, l !! i = Some v -> is_Ok (read (Z.of_nat i) v) = true.
Proof.
  revert out. induction l as [|v l IH] using rev_ind; intros out.
  - intros [= <-]. split; [apply bt_wf_empty|]. split; [|done]. intros id a. split; [done|].
    by intros (i & x & Hi & _).
  - rewrite collect_entries_snoc. destruct (collect_entries read l) as [out0|]; [|done].
    destruct (IH out0 eq_refl) as (Hwf & Hget & Hread).
    destruct (read _ v) as [r|] eqn:Hr; [|done]. intros [= <-]. split; [|split].
    + destruct r as [[id a]|]; [by apply bt_insert_wf|done].
    + intros id a. rewrite last_read_snoc, <- Hget, Hr. destruct r as [[id0 a0]|].
      * rewrite bt_get_insert. case_decide as E; [subst id0|].
        -- split; [intros [= ->]; by left|]. intros [[= ->]|[_ Hno]]; [done|]. by destruct (Hno a0).
        -- split; [intros H; right; split; [done|]; congruence|]. intros [[= <-]|[H _]]; [done|exact H].
      * split; [intros H; right; by split|]. intros [|[H _]]; [done|exact H].
    + intros i x [[_ Hi]|[-> <-]]%lookup_snoc_Some; [by apply Hread|by rewrite Hr].
Qed.

(** It fails exactly at the first entry that cannot be read. *)
Lemma collect_entries_Err l e :
  collect_entries read l = Err e <->
  exists i v, l !! i = Some v /\ read (Z.of_nat i) v = Err e /\
    forall j x, (j < i)%nat -> l !! j = Some x -> is_Ok (read (Z.of_nat j) x) = true.
Proof.
  revert e. induction l as [|v l IH] using rev_ind; intros e.
  - split; [done|]. by intros (i & x & Hi & _).
  - rewrite collect_entries_snoc. destruct (collect_entries read l) as [out|e0] eqn:Hc.
    + pose proof (collect_entries_Ok _ _ Hc) as (_ & _ & Hok). split.
      * destruct (read _ v) eqn:Hr; [done|]. intros [= <-].
        exists (length l), v. split; [by rewrite list_lookup_middle|]. split; [done|].
        intros j x Hj Hx. apply (Hok j). by rewrite lookup_app_l in Hx by done.
      * intros (i & x & Hi & Hr & _). apply lookup_snoc_Some in Hi as [[_ Hi]|[-> ->]]; [|by rewrite Hr].
        apply Hok in Hi. by rewrite Hr in Hi.
    + destruct (proj1 (IH e0) eq_refl) as (i0 & v0 & Hi0 & Hr0 & Hb0).
      pose proof (lookup_lt_Some _ _ _ Hi0) as Hlt. split.
      * intros [= <-]. exists i0, v0. split; [by apply lookup_app_l_Some|]. split; [done|].
        intros j x Hj Hx. apply (Hb0 j x Hj). by rewrite lookup_app_l in Hx by lia.
      * intros (i & x & Hi & Hr & Hb). destruct (Nat.lt_trichotomy i i0) as [Hlt'|[->|Hgt]].
        -- rewrite lookup_app_l in Hi by lia. pose proof (Hb0 i x Hlt' Hi) as H. by rewrite Hr in H.
        -- rewrite lookup_app_l in Hi by lia. congruence.
        -- pose proof (Hb i0 v0 Hgt ltac:(by apply lookup_app_l_Some)) as H. by rewrite Hr0 in H.
Qed.

Lemma last_read_exists l i v id a :
  l !! i = Some v -> read (Z.of_nat i) v = Ok (Some (id, a)) -> exists a', last_read read l id a'.
Proof.
  induction l as [|x l IH] using rev_ind; intros Hi Hr; [done|].
  destruct (read (Z.of_nat (length l)) x) as [[[id' a']|]|] eqn:Hx.
  1: destruct (decide (id' = id)) as [->|Hne]; [exists a'; apply last_read_snoc; by left|].
  all: apply lookup_snoc_Some in Hi as [[_ Hi]|[-> ->]]; [|congruence].
  all: destruct (IH Hi Hr) as [b Hb]; exists b; apply last_read_snoc; right; split; [done|congruence].
Qed.

(** When [read] takes exactly the confirmed entries, under the id in [key], the
    ids collected are those of the confirmed entries. *)
Definition reads_confirmed (key : string) : Prop := forall i v,
  match read i v with
  | Ok (Some (id, _)) => Reconcile.block_confirmed v = true /\ json_get key v = Some (JString id)
  | Ok None => Reconcile.block_confirmed v = false
  | Err _ => Reconcile.block_confirmed v = true
  end.
Lemma collect_entries_ids key l out :
  reads_confirmed key -> collect_entries read l = Ok out ->
  forall id, is_Some (bt_get id out) <->
    exists v, v ∈ l /\ Reconcile.block_confirmed v = true /\ json_get key v = Some (JString id).
Proof.
  intros Hread Hc id. destruct (collect_entries_Ok _ _ Hc) as (_ & Hget & Hok). split.
  - intros [a (i & v & Hi & Hr & _)%Hget]. exists v. specialize (Hread (Z.of_nat i) v). rewrite Hr in Hread.
    split; [by apply list_elem_of_lookup_2 in Hi|done].
  - intros (v & Hv & Hconf & Hid). apply list_elem_of_lookup in Hv as [i Hi].
    specialize (Hok i v Hi). specialize (Hread (Z.of_nat i) v).
    destruct (read (Z.of_nat i) v) as [[[id' a]|]|] eqn:Hr; [|by rewrite Hconf in Hread|done].
    destruct Hread as [_ Hk]. assert (id' = id) as -> by congruence.
    destruct (last_read_exists _ _ _ _ _ Hi Hr) as [a' Ha']. exists a'. by apply Hget.
Qed.
End collect.

(** The four entry readers take exactly the confirmed entries. *)
Lemma block_confirmed_cases v c i :
  match block_confirmed v c i with
  | Ok None => Reconcile.block_confirmed v = false
  | Ok (Some _) | Err _ => Reconcile.block_confirmed v = true
  end.
Proof.
  unfold block_confirmed. destruct (Reconcile.block_confirmed v); simpl; [|done].
  by destruct (ok_or _ _).
Qed.
Lemma text_top v key c i :
  match text v [key] c i with Ok id => json_get key v = Some (JString id) | Err _ => True end.
Proof.
  unfold text. simpl. destruct (json_get key v) as [[]|]; done.
Qed.

Ltac reads_confirmed_tac :=
  intros i v;
  match goal with |- context [block_confirmed v ?c i] => pose proof (block_confirmed_cases v c i) end;
  repeat (case_match; simplify_eq/=; try done);
  match goal with
  | H : text v [?k] ?c i = Ok _ |- _ => pose proof (text_top v k c i) as Htop; rewrite H in Htop; done
  end.
Lemma precommit_reads : reads_confirmed precommit_entry "benchmark_id".
Proof. unfold precommit_entry, reads_confirmed. reads_confirmed_tac. Qed.
Lemma benchmark_reads : reads_confirmed benchmark_entry "id".
Proof. unfold benchmark_entry, reads_confirmed. reads_confirmed_tac. Qed.
Lemma proof_reads : reads_confirmed proof_entry "benchmark_id".
Proof. unfold proof_entry, reads_confirmed. reads_confirmed_tac. Qed.
Lemma fraud_reads : reads_confirmed fraud_entry "benchmark_id".
Proof. unfold fraud_entry, reads_confirmed. reads_confirmed_tac. Qed.

Definition confirmed_in (body : Value) (collection key b : string) : Prop :=
  exists v, v ∈ entries body collection /\ Reconcile.block_confirmed v = true /\ json_get key v = Some (JString b).

(** The record copies the entry: TIG's height, start, track and settings. *)
Definition carries (v : Value) (p : ConfirmedPrecommit) : Prop :=
  json_get "benchmark_id" v = Some (JString (cp_benchmark_id p)) /\
  and_then (json_path ["state"; "block_confirmed"] v) json_as_i64 = Some (cp_block_confirmed p) /\
  and_then (json_path ["details"; "block_started"] v) json_as_i64 = Some (cp_block_started p) /\
  cp_num_nonces p = and_then (json_path ["details"; "num_nonces"] v) json_as_i64 /\
  cp_num_bundles p = and_then (json_path ["details"; "num_bundles"] v) json_as_i64 /\
  json_get "settings" v = Some (cp_settings p) /\
  json_get "track_id" (cp_settings p) = Some (JString (cp_track_id p)).

Lemma path2 k1 k2 v : json_path [k1; k2] v = and_then (json_get k1 v) (json_get k2).
Proof. simpl. destruct (json_get k1 v); simpl; [by destruct (json_get k2 _)|done]. Qed.

Lemma precommit_entry_carries i v id p : precommit_entry i v = Ok (Some (id, p)) -> cp_benchmark_id p = id /\ carries v p.
Proof.
  unfold precommit_entry, carries, block_confirmed, detail. rewrite !path2.
  destruct (Reconcile.block_confirmed v); simpl; [|done].
  destruct (and_then (and_then (json_get "state" v) _) _); simpl; [|done].
  pose proof (text_top v "benchmark_id" "precommits" i) as Hid.
  destruct (text v ["benchmark_id"] _ _) as [b|]; [|done].
  destruct (and_then (and_then (json_get "details" v) (json_get "block_started")) json_as_i64); simpl; [|done].
  unfold text. simpl. destruct (json_get "settings" v) as [st|] eqn:Hs; simpl.
  - destruct (json_get "track_id" st) as [[]|] eqn:Ht; simpl; try done. intros [= <- <-]. simpl. tauto.
  - done.
Qed.

Lemma benchmark_entry_carries i v id x : benchmark_entry i v = Ok (Some (id, x)) ->
  cb_benchmark_id x = id /\ json_path ["details"; "stopped"] v = Some (JBool (cb_stopped x)).
Proof.
  unfold benchmark_entry, detail. rewrite path2. destruct (block_confirmed _ _ _) as [[|]|]; simpl; try done.
  destruct (text _ _ _ _); simpl; [|done]. destruct (and_then (json_get "details" v) _) as [[]|]; simpl; try done.
  by intros [= <- <-].
Qed.

Lemma collected {A} (read : Z -> Value -> result WindowError (option (string * A))) l out id a :
  collect_entries read l = Ok out -> bt_get id out = Some a ->
  exists i v, v ∈ l /\ read i v = Ok (Some (id, a)).
Proof.
  intros Hc Ha. apply (collect_entries_Ok _ _ _ Hc) in Ha as (i & v & Hi & Hr & _).
  apply list_elem_of_lookup_2 in Hi. eauto.
Qed.

Lemma block_ids_elem block set key b :
  b ∈ block_ids block set key <->
  exists l, json_path ["data"; set; key] block = Some (JArray l) /\ JString b ∈ l.
Proof.
  unfold block_ids. simpl. destruct (json_get "data" block) as [d|]; simpl; [|split; [by intros ?%not_elem_of_nil|by intros (? & ? & _)]].
  destruct (json_get set d) as [s|]; simpl; [|split; [by intros ?%not_elem_of_nil|by intros (? & ? & _)]].
  destruct (json_get key s) as [x|]; simpl; [|split; [by intros ?%not_elem_of_nil|by intros (? & ? & _)]].
  destruct x as [| | | |l|]; simpl; try (split; [by intros ?%not_elem_of_nil|by intros (? & ? & _)]).
  rewrite list_elem_of_omap. split.
  - intros (v & Hv & Hs). exists l. split; [done|]. destruct v; simplify_eq/=. done.
  - intros (l' & [= <-] & Hin). by exists (JString b).
Qed.

(** A reader that takes only confirmed entries refuses only at one. *)
Lemma collect_refused {A} (read : Z -> Value -> result WindowError (option (string * A))) key body c e :
  reads_confirmed read key ->
  (forall i v, match read i v with Err (WindowShape c' i' _) => c' = c /\ i' = i | Err _ => False | _ => True end) ->
  collect_entries read (entries body c) = Err e ->
  exists i r v, e = WindowShape c i r /\ entries body c !! Z.to_nat i = Some v /\ Reconcile.block_confirmed v = true.
Proof.
  intros Hconf Hname (i & v & Hi & Hr & _)%collect_entries_Err.
  specialize (Hconf (Z.of_nat i) v). specialize (Hname (Z.of_nat i) v). rewrite Hr in Hconf, Hname.
  destruct e as [c' i' r|]; [|done]. destruct Hname as [-> ->]. exists (Z.of_nat i), r, v.
  by rewrite Nat2Z.id.
Qed.
Ltac names_tac :=
  intros i v; unfold block_confirmed, text; repeat (case_match; simplify_eq/=; try done);
  repeat match goal with H : ok_or ?o _ = Err _ |- _ => destruct o; simplify_eq/= end; done.

(** The window is exactly what TIG confirmed.  Each collection holds exactly
    the ids of the entries whose [state.block_confirmed] is not null -- a
    submitted entry that has not confirmed never enters -- a precommit's record
    copies TIG's height, start, track and settings, a benchmark's copies its
    [stopped] flag, and the verified and active sets are the block's own.  The
    window is refused only because a confirmed entry cannot be read, which the
    error names, or because the block has no height. *)
Theorem window_exact benchmarks block :
  match confirmed_window benchmarks block with
  | Ok w =>
      (forall b, is_Some (bt_get b (cw_precommits w)) <-> confirmed_in benchmarks "precommits" "benchmark_id" b) /\
      (forall b, is_Some (bt_get b (cw_benchmarks w)) <-> confirmed_in benchmarks "benchmarks" "id" b) /\
      (forall b, is_Some (bt_get b (cw_proofs w)) <-> confirmed_in benchmarks "proofs" "benchmark_id" b) /\
      (forall b, is_Some (bt_get b (cw_frauds w)) <-> confirmed_in benchmarks "frauds" "benchmark_id" b) /\
      (forall b p, bt_get b (cw_precommits w) = Some p -> cp_benchmark_id p = b /\
         exists v, v ∈ entries benchmarks "precommits" /\ carries v p) /\
      (forall b x, bt_get b (cw_benchmarks w) = Some x -> cb_benchmark_id x = b /\
         exists v, v ∈ entries benchmarks "benchmarks" /\
           json_path ["details"; "stopped"] v = Some (JBool (cb_stopped x))) /\
      (forall b, b ∈ cw_verified w <-> exists l,
         json_path ["data"; "confirmed_ids"; "verified"] (unwrap_block block) = Some (JArray l) /\ JString b ∈ l) /\
      (forall b, b ∈ cw_active w <-> exists l,
         json_path ["data"; "active_ids"; "benchmark"] (unwrap_block block) = Some (JArray l) /\ JString b ∈ l)
  | Err (WindowShape c i _) =>
      exists v, entries benchmarks c !! Z.to_nat i = Some v /\ Reconcile.block_confirmed v = true
  | Err (WindowBlock _) => and_then (json_path ["details"; "height"] (unwrap_block block)) json_as_i64 = None
  end.
Proof.
  unfold confirmed_window, precommits, benchmark_entries, proofs, frauds.
  destruct (and_then (detail "height" _) json_as_i64) as [h|] eqn:Hh; simpl.
  2:{ unfold detail in Hh. rewrite <- path2 in Hh. exact Hh. }
  destruct (collect_entries precommit_entry _) as [pre|e] eqn:H1.
  2:{ destruct (collect_refused _ _ _ _ _ precommit_reads ltac:(unfold precommit_entry; names_tac) H1) as (i & r & v & -> & ?); eauto. }
  destruct (collect_entries benchmark_entry _) as [ben|e] eqn:H2.
  2:{ destruct (collect_refused _ _ _ _ _ benchmark_reads ltac:(unfold benchmark_entry; names_tac) H2) as (i & r & v & -> & ?); eauto. }
  destruct (collect_entries proof_entry _) as [pro|e] eqn:H3.
  2:{ destruct (collect_refused _ _ _ _ _ proof_reads ltac:(unfold proof_entry; names_tac) H3) as (i & r & v & -> & ?); eauto. }
  destruct (collect_entries fraud_entry _) as [fra|e] eqn:H4.
  2:{ destruct (collect_refused _ _ _ _ _ fraud_reads ltac:(unfold fraud_entry; names_tac) H4) as (i & r & v & -> & ?); eauto. }
  simpl. split_and!; try (intros b; by apply block_ids_elem).
  - exact (collect_entries_ids _ _ _ _ precommit_reads H1).
  - exact (collect_entries_ids _ _ _ _ benchmark_reads H2).
  - exact (collect_entries_ids _ _ _ _ proof_reads H3).
  - exact (collect_entries_ids _ _ _ _ fraud_reads H4).
  - intros b p Hp. destruct (collected _ _ _ _ _ H1 Hp) as (i & v & Hv & Hr).
    destruct (precommit_entry_carries _ _ _ _ Hr) as [<- ?]. eauto.
  - intros b x Hx. destruct (collected _ _ _ _ _ H2 Hx) as (i & v & Hv & Hr).
    destruct (benchmark_entry_carries _ _ _ _ Hr) as [<- ?]. eauto.
Qed.

(** One confirmed precommit, one submitted but unconfirmed, one stopped benchmark. *)
Definition sample_benchmarks : Value :=
  JObject
    [("benchmarks", JArray [JObject [("details", JObject [("stopped", JBool true)]); ("id", JString "b1");
                                      ("state", JObject [("block_confirmed", JNumber (PosInt 103))])]]);
     ("precommits", JArray
        [JObject [("benchmark_id", JString "b1");
                  ("details", JObject [("block_started", JNumber (PosInt 100)); ("num_bundles", JNumber (PosInt 7));
                                       ("num_nonces", JNumber (PosInt 10))]);
                  ("settings", JObject [("track_id", JString "t1")]);
                  ("state", JObject [("block_confirmed", JNumber (PosInt 101))])];
         JObject [("benchmark_id", JString "b2"); ("state", JObject [("block_confirmed", JNull)])]])].
Definition sample_block (active : list string) : Value :=
  JObject [("block", JObject [("data", JObject [("active_ids", JObject [("benchmark", JArray (map JString active))])]);
                              ("details", JObject [("height", JNumber (PosInt 120)); ("round", JNumber (PosInt 5))])])].
Example window_sample :
  exists w, confirmed_window sample_benchmarks (sample_block ["b9"]) = Ok w /\
    bt_keys (cw_precommits w) = ["b1"] /\ cw_active w = ["b9"] /\ cw_at_block w = 120.
Proof. eexists. vm_compute. auto. Qed.
