(* ===== verification/Snapshot.v ===== *)
(** * Block-consistent snapshots: [crates/pool-snapshot/src/lib.rs], [cache.rs]
      and [tig_source.rs]

    [assemble] reads everything a decision is made from against one block and
    discards the whole when the block moved.  The port [SnapshotSource] is a
    record of state-passing reads, so a source may answer the same request
    differently at different times; [tig_source] is the production instance,
    the read client behind a cache that holds one block.

    Every path the sources follow with [Value::pointer] is made of object keys,
    for which [pointer] is [json_path]. *)
From S2P Require Import Prelude Text BTreeMap Json ReadClient Workflow Window.
From stdpp Require Import pretty.
Open Scope Z_scope.

Inductive AnchoredRead := RdChallenges | RdAlgorithms | RdOpow | RdPlayerData | RdBenchmarks.
#[export] Instance AnchoredRead_eq_dec : EqDecision AnchoredRead.
Proof. solve_decision. Defined.

(** [AnchoredRead::ALL]. *)
Definition all_reads : list AnchoredRead :=
  [RdChallenges; RdAlgorithms; RdOpow; RdPlayerData; RdBenchmarks].
Definition endpoint (r : AnchoredRead) : string :=
  match r with
  | RdChallenges => "get-challenges"
  | RdAlgorithms => "get-algorithms"
  | RdOpow => "get-opow"
  | RdPlayerData => "get-player-data"
  | RdBenchmarks => "get-benchmarks"
  end.

Inductive SnapshotError :=
| SnUnavailable (endpoint reason : string)
| SnShape (endpoint reason : string)
| BlockAdvanced (opened closed : string)
| RefreshConflict (endpoint reason : string)
| Outpaced (attempts : Z).

Record Snapshot := MkSnapshot {
  sn_block_id : string;
  sn_height : Z;
  sn_block : Value;
  sn_reads : btree Value;
  sn_tracks : btree Value;
  sn_reads_complete : bool;
  sn_active_cache_ready : bool;
}.

(** [Snapshot::read]. *)
Definition snapshot_read (s : Snapshot) (r : AnchoredRead) : option Value := bt_get (endpoint r) (sn_reads s).

Definition active_benchmark_ids (s : Snapshot) : result SnapshotError (list string) :=
  let block := unwrap_block (sn_block s) in
  let? ids := ok_or (and_then (json_path ["data"; "active_ids"; "benchmark"] block) json_as_array)
    (SnShape "get-block" "block.data.active_ids.benchmark is not a list") in
  mapM_res (fun id => ok_or (json_as_str id) (SnShape "get-block" "an active benchmark id is not a string")) ids.

(** ** The port *)

Record SnapshotSource (W : Type) := MkSource {
  get_block : W -> result SnapshotError Value * W;
  get_anchored : AnchoredRead -> string -> W -> result SnapshotError Value * W;
  get_tracks : string -> string -> W -> result SnapshotError Value * W;
}.
Arguments get_block {W} _ _.
Arguments get_anchored {W} _ _ _ _.
Arguments get_tracks {W} _ _ _ _.

(** ** One pass *)

Definition challenge_id_at (index : nat) (challenge : Value) : result SnapshotError string :=
  ok_or (and_then (json_get "id" challenge) json_as_str)
    (SnShape "get-challenges"
       (String.append "challenge at index " (String.append (pretty index) " carries no string id"))).
Definition challenge_ids (challenges : option Value) : result SnapshotError (list string) :=
  match challenges with
  | None => Ok []
  | Some value =>
      let listed := match and_then (json_get "challenges" value) json_as_array with
                    | Some l => Some l
                    | None => json_as_array value
                    end in
      let? l := ok_or listed (SnShape "get-challenges" "response carried no challenge list") in
      mapM_res (fun '(index, challenge) => challenge_id_at index challenge) (imap pair l)
  end.

(** [value.is_none_or(Value::is_null)]. *)
Definition absent_or_null (v : option Value) : bool :=
  match v with Some v => json_is_null v | None => true end.
Definition first_absent (inner : Value) : option string :=
  fst <$> List.find (fun kv => absent_or_null kv.2)
    [("config", json_get "config" inner);
     ("data.confirmed_ids", and_then (json_get "data" inner) (json_get "confirmed_ids"));
     ("data.active_ids", and_then (json_get "data" inner) (json_get "active_ids"))].
Definition is_some_and {A} (o : option A) (p : A -> bool) : bool :=
  match o with Some a => p a | None => false end.
Definition first_malformed (inner : Value) : option string :=
  fst <$> List.find (fun kv => negb kv.2)
    [("details.prev_block_id", is_some_and (detail "prev_block_id" inner) json_is_string);
     ("details.round", is_some_and (detail "round" inner) json_is_u64);
     ("details.timestamp", is_some_and (detail "timestamp" inner) json_is_u64)].

Definition block_identity (block : Value) : result SnapshotError (string * Z) :=
  let inner := unwrap_block block in
  match first_absent inner with
  | Some path => Err (SnShape "get-block" (String.append "missing " (String.append path
                   "; §12 forbids substituting a compiled default")))
  | None =>
      let? id := ok_or (and_then (json_get "id" inner) json_as_str) (SnShape "get-block" "no block id") in
      let? height := ok_or (and_then (detail "height" inner) json_as_u64)
        (SnShape "get-block" "no block height") in
      match first_malformed inner with
      | Some path => Err (SnShape "get-block" (String.append "missing or type-incompatible " (String.append path
                       "; §5 requires it and §12 forbids substituting a compiled default")))
      | None => Ok (id, height)
      end
  end.

Section assembly.
Context {W : Type} (source : SnapshotSource W).

(** The two loops of step 3 share their shape: an unavailable read is recorded
    as incompleteness, any other failure ends the pass. *)
Fixpoint read_each {K : Type} (get : K -> W -> result SnapshotError Value * W) (key : K -> string)
    (ks : list K) (acc : btree Value * bool) (w : W) : result SnapshotError (btree Value * bool) * W :=
  match ks with
  | [] => (Ok acc, w)
  | k :: ks' =>
      let '(out, complete) := acc in
      match get k w with
      | (Ok value, w') => read_each get key ks' (bt_insert (key k) value out, complete) w'
      | (Err (SnUnavailable _ _), w') => read_each get key ks' (out, false) w'
      | (Err other, w') => (Err other, w')
      end
  end.

Definition assemble_once (w : W) : result SnapshotError Snapshot * W :=
  match get_block source w with
  | (Err e, w) => (Err e, w)
  | (Ok opening, w) =>
      match block_identity opening with
      | Err e => (Err e, w)
      | Ok (opened_id, height) =>
          match read_each (fun r => get_anchored source r opened_id) endpoint all_reads (bt_empty, true) w with
          | (Err e, w) => (Err e, w)
          | (Ok (reads, complete), w) =>
              match challenge_ids (bt_get (endpoint RdChallenges) reads) with
              | Err e => (Err e, w)
              | Ok ids =>
                  match read_each (fun c => get_tracks source c opened_id) (fun c => c) ids (bt_empty, complete) w with
                  | (Err e, w) => (Err e, w)
                  | (Ok (tracks, complete), w) =>
                      match get_block source w with
                      | (Err e, w) => (Err e, w)
                      | (Ok closing, w) =>
                          match block_identity closing with
                          | Err e => (Err e, w)
                          | Ok (closed_id, _) =>
                              if negb (String.eqb closed_id opened_id)
                              then (Err (BlockAdvanced opened_id closed_id), w)
                              else (Ok {| sn_block_id := opened_id; sn_height := height; sn_block := opening;
                                          sn_reads := reads; sn_tracks := tracks;
                                          sn_reads_complete := complete; sn_active_cache_ready := false |}, w)
                          end
                      end
                  end
              end
          end
      end
  end.

(** The loop [for attempt in 1..=max_attempts], by the attempts left. *)
Fixpoint assemble_loop (max_attempts : Z) (left : nat) (w : W) : result SnapshotError Snapshot * W :=
  match left with
  | O => (Err (Outpaced max_attempts), w)
  | S left' =>
      match assemble_once w with
      | (Ok snapshot, w) => (Ok snapshot, w)
      | (Err (RefreshConflict _ _), w) | (Err (BlockAdvanced _ _), w) => assemble_loop max_attempts left' w
      | (Err other, w) => (Err other, w)
      end
  end.
Definition assemble (max_attempts : Z) (w : W) : result SnapshotError Snapshot * W :=
  assemble_loop max_attempts (Z.to_nat max_attempts) w.
End assembly.

(** ** The per-block cache: [cache.rs] *)

Record BlockEntry := MkBlockEntry { be_block_id : string; be_responses : gmap string Value }.
(** [BlockCache]: the responses of at most one block. *)
Definition BlockCache : Type := option BlockEntry.

Definition block_cache_get (c : BlockCache) (block_id request_key : string) : option Value :=
  match c with
  | Some entry => if String.eqb (be_block_id entry) block_id then be_responses entry !! request_key else None
  | None => None
  end.
Definition block_cache_put (block_id request_key : string) (value : Value) (c : BlockCache) : BlockCache :=
  match c with
  | Some entry =>
      if String.eqb (be_block_id entry) block_id
      then Some (MkBlockEntry (be_block_id entry) (<[request_key := value]> (be_responses entry)))
      else Some (MkBlockEntry block_id {[ request_key := value ]})
  | None => Some (MkBlockEntry block_id {[ request_key := value ]})
  end.
Definition len_for (c : BlockCache) (block_id : string) : nat :=
  match c with
  | Some entry => if String.eqb (be_block_id entry) block_id then size (be_responses entry) else O
  | None => O
  end.

(** ** The production source: [tig_source.rs] *)

Definition request_key (player_id : string) (r : AnchoredRead) (block_id : string) : string :=
  match r with
  | RdPlayerData | RdBenchmarks =>
      String.append (endpoint r) (String.append "?player_id=" (String.append player_id
        (String.append "&block_id=" block_id)))
  | _ => String.append (endpoint r) (String.append "?block_id=" block_id)
  end.
Definition tracks_key (challenge_id block_id : string) : string :=
  String.append "get-tracks-data?challenge_id=" (String.append challenge_id (String.append "&block_id=" block_id)).

Definition is_refresh_conflict (e : ReadError) : bool :=
  match e with
  | RdRejected _ _ body =>
      let body := to_ascii_lowercase body in
      str_contains "block must be latest" body || str_contains "inconsistent required ids" body ||
      str_contains "different snapshot" body
  | _ => false
  end.

Section source.
(** The client's [get_json] over its own state, and the text of its errors. *)
Context {C : Type} (get_json : string -> C -> result ReadError Value * C) (show : ReadError -> string).
Context (player_id : string).

Definition to_snapshot_error (endpoint : string) (e : ReadError) : SnapshotError :=
  if is_transient e then SnUnavailable endpoint (show e)
  else if is_refresh_conflict e then RefreshConflict endpoint (show e)
  else SnShape endpoint (show e).

(** A read through the cache: a hit makes no request, a success is kept. *)
Definition cached_read (endpoint key block_id : string) (w : C * BlockCache)
  : result SnapshotError Value * (C * BlockCache) :=
  let '(client, cache) := w in
  match block_cache_get cache block_id key with
  | Some hit => (Ok hit, w)
  | None =>
      match get_json key client with
      | (Ok value, client) => (Ok value, (client, block_cache_put block_id key value cache))
      | (Err e, client) => (Err (to_snapshot_error endpoint e), (client, cache))
      end
  end.

Definition tig_source : SnapshotSource (C * BlockCache) :=
  {| get_block := fun '(client, cache) =>
       let '(r, client) := get_json "get-block?include_data=true" client in
       (map_err (to_snapshot_error "get-block") r, (client, cache));
     get_anchored := fun r block_id => cached_read (endpoint r) (request_key player_id r block_id) block_id;
     get_tracks := fun challenge_id block_id =>
       cached_read "get-tracks-data" (tracks_key challenge_id block_id) block_id |}.

Definition get_benchmark_data (benchmark_id : string) (client : C) : result SnapshotError Value * C :=
  let '(r, client) := get_json (String.append "get-benchmark-data?benchmark_id=" benchmark_id) client in
  (map_err (to_snapshot_error "get-benchmark-data") r, client).
End source.

(** ** Lemmas *)

Section assembly_lemmas.
Context {W : Type} (source : SnapshotSource W).

(** A request to the source, and a conversation with it: each request is put to
    the world the one before it left. *)
Inductive Question := AskBlock | AskRead (r : AnchoredRead) (block_id : string) | AskTracks (challenge_id block_id : string).
Definition ask (q : Question) : W -> result SnapshotError Value * W :=
  match q with
  | AskBlock => get_block source
  | AskRead r b => get_anchored source r b
  | AskTracks c b => get_tracks source c b
  end.
Definition Exchange : Type := list (Question * result SnapshotError Value).
Inductive conversation : W -> Exchange -> W -> Prop :=
| conv_end w : conversation w [] w
| conv_ask q res w w1 log w2 : ask q w = (res, w1) -> conversation w1 log w2 -> conversation w ((q, res) :: log) w2.
Lemma conversation_app w l1 w1 l2 w2 : conversation w l1 w1 -> conversation w1 l2 w2 -> conversation w (l1 ++ l2) w2.
Proof. induction 1; [done|]. intros H2. econstructor; [done|by auto]. Qed.

Definition all_answered (log : Exchange) : bool := forallb (fun e => is_Ok e.2) log.
Definition only_unavailable (log : Exchange) : Prop := forall q e, (q, Err e) ∈ log -> exists endpoint reason, e = SnUnavailable endpoint reason.

Lemma read_each_Ok {K} (req : K -> Question) (key : K -> string) ks : forall acc w out w',
  read_each (fun k => ask (req k)) key ks acc w = (Ok out, w') ->
  exists log, conversation w log w' /\ map fst log = map req ks /\ only_unavailable log /\ out.2 = acc.2 && all_answered log /\
    (forall s v, bt_get s out.1 = Some v -> bt_get s acc.1 = Some v \/ exists k, k ∈ ks /\ key k = s /\ (req k, Ok v) ∈ log) /\
    (forall s, is_Some (bt_get s acc.1) -> is_Some (bt_get s out.1)) /\
    (all_answered log = true -> forall k, k ∈ ks -> is_Some (bt_get (key k) out.1)).
Proof.
  induction ks as [|k ks IH]; intros [m c] w out w'; cbn [read_each].
  { intros [= <- <-]. exists []. split_and!; [constructor|done|by intros q e ?%not_elem_of_nil|by destruct c|by left|done|by intros _ k ?%not_elem_of_nil]. }
  destruct (ask (req k) w) as [[value|e] w1] eqn:Hg.
  - intros (log & Hc & Hq & Hu & Ha & H1 & H2 & H3)%IH. exists ((req k, Ok value) :: log). simpl in *.
    assert (Hk : is_Some (bt_get (key k) out.1)) by (apply H2; rewrite bt_get_insert_eq; eauto).
    split_and!; [by econstructor|by rewrite Hq| |done| |by intros s Hs; apply H2; rewrite bt_get_insert; case_decide|].
    + intros q e [?|?]%elem_of_cons; [done|by apply (Hu q)].
    + intros s v Hs. destruct (H1 s v Hs) as [Hm|(k' & Hk' & E & Hin)]; [|right; exists k'; split_and!; [by right|done|by right]].
      rewrite bt_get_insert in Hm. case_decide as E; [|by left]. injection Hm as ->. right. exists k. split_and!; [by left|done|by left].
    + intros Hall k' [->|Hk']%elem_of_cons; [done|by apply H3].
  - destruct e as [ep reason| | | |]; try done. intros (log & Hc & Hq & Hu & Ha & H1 & H2 & H3)%IH. exists ((req k, Err (SnUnavailable ep reason)) :: log). simpl in *.
    split_and!; [by econstructor|by rewrite Hq| |by rewrite Ha, andb_false_r| |done|done].
    + intros q e [[= _ ->]|?]%elem_of_cons; [eauto|by apply (Hu q)].
    + intros s v Hs. destruct (H1 s v Hs) as [|(k' & ? & ? & ?)]; [by left|]. right. exists k'. split_and!; [by right|done|by right].
Qed.

(** What one accepted pass from [w] to [w'] is: the latest block is read, then the
    five endpoints and the tracks of every challenge listed, each for that block,
    then the latest block again, and nothing else is asked.  The two blocks read
    have the same id; [between] is what was asked in between. *)
Record one_block (w : W) (s : Snapshot) (w' : W) (between : Exchange) (closing : Value) : Prop := {
  ob_asked : conversation w ((AskBlock, Ok (sn_block s)) :: between ++ [(AskBlock, Ok closing)]) w';
  ob_opened : block_identity (sn_block s) = Ok (sn_block_id s, sn_height s);
  ob_closed : exists h, block_identity closing = Ok (sn_block_id s, h);
  ob_between : exists ids, challenge_ids (snapshot_read s RdChallenges) = Ok ids /\
    map fst between = map (fun r => AskRead r (sn_block_id s)) all_reads ++ map (fun c => AskTracks c (sn_block_id s)) ids /\
    (sn_reads_complete s = true -> forall c, c ∈ ids -> is_Some (bt_get c (sn_tracks s)));
  ob_reads e v : bt_get e (sn_reads s) = Some v -> exists r, endpoint r = e /\ (AskRead r (sn_block_id s), Ok v) ∈ between;
  ob_tracks c v : bt_get c (sn_tracks s) = Some v -> (AskTracks c (sn_block_id s), Ok v) ∈ between;
  ob_complete : sn_reads_complete s = all_answered between;
  ob_all_reads : sn_reads_complete s = true -> forall r, is_Some (snapshot_read s r);
  ob_failures : only_unavailable between;
  ob_cache : sn_active_cache_ready s = false;
}.

Lemma assemble_once_consistent w s w' : assemble_once source w = (Ok s, w') -> exists between closing, one_block w s w' between closing.
Proof.
  unfold assemble_once. destruct (get_block source w) as [[opening|] w1] eqn:Ho; [|done].
  destruct (block_identity opening) as [[id h]|] eqn:Hid; [|done].
  destruct (read_each _ endpoint all_reads _ w1) as [[[reads c]|] w2] eqn:Hr; [|done].
  destruct (challenge_ids _) as [ids|] eqn:Hids; [|done].
  destruct (read_each _ _ ids _ w2) as [[[tracks c']|] w3] eqn:Ht; [|done].
  destruct (get_block source w3) as [[closing|] w4] eqn:Hc; [|done].
  destruct (block_identity closing) as [[cid ch]|] eqn:Hcid; [|done].
  destruct (String.eqb_spec cid id) as [->|]; simpl; [|done]. intros [= <- <-].
  apply (read_each_Ok (fun r => AskRead r id)) in Hr as (lr & Cr & Qr & Ur & Ar & R1 & _ & R3).
  apply (read_each_Ok (fun c => AskTracks c id)) in Ht as (lt & Ct & Qt & Ut & At & T1 & _ & T3). simpl in *. subst c c'.
  assert (Hall : all_answered (lr ++ lt) = all_answered lr && all_answered lt) by apply forallb_app.
  exists (lr ++ lt), closing. constructor; simpl.
  - econstructor; [exact Ho|]. rewrite <- app_assoc. eapply conversation_app; [exact Cr|]. eapply conversation_app; [exact Ct|].
    econstructor; [exact Hc|constructor].
  - done.
  - by exists ch.
  - exists ids. split_and!; [done|by rewrite map_app, Qr, Qt|]. intros [_ Hat]%andb_true_iff. by apply T3.
  - intros e v He. destruct (R1 e v He) as [?|(r & _ & ? & ?)]; [done|]. exists r. split; [done|]. apply elem_of_app. by left.
  - intros x v Hx. destruct (T1 x v Hx) as [?|(k & _ & -> & ?)]; [done|]. apply elem_of_app. by right.
  - by rewrite Hall.
  - intros [Har _]%andb_true_iff r. apply (R3 Har r). unfold all_reads. destruct r; rewrite !elem_of_cons; tauto.
  - intros q e [?|?]%elem_of_app; [by apply (Ur q)|by apply (Ut q)].
  - done.
Qed.
End assembly_lemmas.

(** [k] passes in a row, each discarded because the chain moved. *)
Inductive outrun {W} (source : SnapshotSource W) : nat -> W -> W -> Prop :=
| outrun_none w : outrun source 0 w w
| outrun_more k w w1 w2 e :
    assemble_once source w = (Err e, w1) ->
    (match e with RefreshConflict _ _ | BlockAdvanced _ _ => True | _ => False end) ->
    outrun source k w1 w2 -> outrun source (S k) w w2.

(** ** Properties *)

(** C23. A snapshot is of one block or is not accepted.  Whatever the source answers
    and however the chain moves, an assembled snapshot is what one pass over the
    source gave: the pass read the latest block, then the five endpoints and the
    tracks of every challenge listed, each for that block, then the latest block
    again, and the id it closed on is the id it opened on; every value in the
    snapshot is the answer to its own request of that pass, and the snapshot is
    marked complete exactly when every one of them was answered.  A pass the
    chain moved under is discarded whole and repeated, at most as often as
    allowed; any other failure is the last pass's own. *)
Theorem snapshot_is_of_one_block {W} (source : SnapshotSource W) attempts w :
  let '(res, w') := assemble source attempts w in
  match res with
  | Ok s => exists k w1 between closing, (k < Z.to_nat attempts)%nat /\ outrun source k w w1 /\
      assemble_once source w1 = (Ok s, w') /\ one_block source w1 s w' between closing
  | Err e => (e = Outpaced attempts /\ outrun source (Z.to_nat attempts) w w') \/
      exists k w1, (k < Z.to_nat attempts)%nat /\ outrun source k w w1 /\ assemble_once source w1 = (Err e, w')
  end.
Proof.
  unfold assemble. generalize attempts at 1 4. revert w. induction (Z.to_nat attempts) as [|m IH]; intros w n; simpl.
  { left. split; [done|constructor]. }
  destruct (assemble_once source w) as [[s|e] w1] eqn:Ha.
  { destruct (assemble_once_consistent _ _ _ _ Ha) as (between & closing & Hone).
    exists 0%nat, w, between, closing. split_and!; [lia|constructor|done|done]. }
  assert (Hstop : exists k w2, (k < S m)%nat /\ outrun source k w w2 /\ assemble_once source w2 = (Err e, w1)).
  { exists 0%nat, w. split; [lia|]. split; [constructor|done]. }
  destruct e; try (right; exact Hstop); (specialize (IH w1 n); destruct (assemble_loop source n m w1) as [[s|e'] w'];
    [destruct IH as (k & w2 & between & closing & ? & ? & ? & ?); exists (S k), w2, between, closing; split_and!; [lia|by econstructor|done|done]
    |destruct IH as [[-> ?]|(k & w2 & ? & ? & ?)];
       [left; split; [done|by econstructor]|right; exists (S k), w2; split; [lia|]; split; [by econstructor|done]]]).
Qed.

(** The block cache serves only what was put for that block and request, and a
    put for another block drops everything kept so far. *)
Lemma block_cache_exact b k v c b' k' :
  block_cache_get (block_cache_put b k v c) b' k' =
    (if decide (b' = b) then if decide (k' = k) then Some v else block_cache_get c b k' else None).
Proof.
  unfold block_cache_get, block_cache_put. destruct c as [[cb m]|]; simpl.
  - destruct (String.eqb_spec cb b) as [->|Hne]; simpl.
    + destruct (String.eqb_spec b b') as [<-|Hb]; [rewrite decide_True by done|by rewrite decide_False].
      case_decide; [subst; by rewrite lookup_insert_eq|by rewrite lookup_insert_ne].
    + destruct (String.eqb_spec b b') as [<-|Hb]; [rewrite decide_True by done|by rewrite decide_False].
      case_decide; [subst; by rewrite lookup_singleton_eq|by rewrite lookup_singleton_ne].
  - destruct (String.eqb_spec b b') as [<-|Hb]; [rewrite decide_True by done|by rewrite decide_False].
    case_decide; [subst; by rewrite lookup_singleton_eq|by rewrite lookup_singleton_ne].
Qed.

Section source_lemmas.
Context {C : Type} (get_json : string -> C -> result ReadError Value * C) (show : ReadError -> string) (player_id : string).

(** Everything in the cache of a block is the client's answer to the request it
    is filed under. *)
Definition cache_faithful (c : BlockCache) : Prop := forall b k v,
  block_cache_get c b k = Some v -> exists client client', get_json k client = (Ok v, client').

Lemma cached_read_faithful e key b w r w' :
  cache_faithful w.2 -> cached_read get_json show e key b w = (r, w') ->
  cache_faithful w'.2 /\ (forall v, r = Ok v -> exists client client', get_json key client = (Ok v, client')).
Proof.
  destruct w as [client cache]. unfold cached_read. intros Hf.
  destruct (block_cache_get cache b key) as [hit|] eqn:Hh.
  { intros [= <- <-]. split; [done|]. intros v [= ->]. by apply (Hf b). }
  destruct (get_json key client) as [[value|err] client'] eqn:Hg; intros [= <- <-]; simpl.
  - split; [|intros v [= ->]; eauto]. intros b' k' v. rewrite block_cache_exact.
    case_decide; [|done]. case_decide; [intros [= ->]; subst; eauto|]. by apply Hf.
  - split; [done|done].
Qed.
End source_lemmas.
