(* ===== verification/SnapshotStore.v ===== *)
(** * Persisted snapshots: [crates/pool-snapshot/src/store.rs] and
      [postgres_store.rs]

    What is stored of an accepted snapshot, the gates a decision and a
    reconciliation read it through, and the table's one-usable-row-per-block
    rule.  SHA-256 and serde_json's printer are parameters. *)
From S2P Require Import Prelude BTreeMap Json Domain Store Payload Admission Snapshot.
Open Scope Z_scope.

Record SnapshotRecord := MkSnapshotRecord {
  sr_network : Network;
  sr_block_id : string;
  sr_record_height : Z;
  sr_record_complete : bool;
  sr_record_cache_ready : bool;
  sr_content_digest : Bytes;
}.
Record PersistedSnapshot := MkPersisted { pe_snapshot : Snapshot; pe_record : SnapshotRecord }.

Inductive NotUsable := ReadsIncomplete | ActiveCacheUnavailable.

Definition for_decision (p : PersistedSnapshot) : result NotUsable Snapshot :=
  if negb (sn_reads_complete (pe_snapshot p)) then Err ReadsIncomplete
  else if negb (sn_active_cache_ready (pe_snapshot p)) then Err ActiveCacheUnavailable
  else Ok (pe_snapshot p).
Definition for_reconciliation (p : PersistedSnapshot) : result NotUsable Snapshot :=
  if negb (sn_reads_complete (pe_snapshot p)) then Err ReadsIncomplete else Ok (pe_snapshot p).

Inductive SnapshotStoreError :=
| StoreUnavailable (e : DbError)
| Divergent (network : Network) (block_id : string)
| StoreCorrupt (block_id reason : string).

Definition USABLE_INDEX : string := "block_snapshot_one_usable_per_block".
Definition is_usable_conflict (e : DbError) : bool :=
  match e with UniqueViolation c => String.eqb c USABLE_INDEX | _ => false end.

(** The columns of the row of [s], in JSON, that the digest is taken over. *)
Definition snapshot_payload (s : Snapshot) : Value :=
  json_object [("block_id", JString (sn_block_id s)); ("height", json_u64 (sn_height s));
               ("block", sn_block s); ("reads", JObject (sn_reads s)); ("tracks", JObject (sn_tracks s));
               ("reads_complete", JBool (sn_reads_complete s));
               ("active_cache_ready", JBool (sn_active_cache_ready s))].

(** [migrations/0002]: the checks, the primary key with [ON CONFLICT DO
    NOTHING], and the partial unique index over the usable rows. *)
Definition row_usable (r : SnapshotRow) : bool := sr_reads_complete r && sr_active_cache_ready r.
Definition usable_row_of (n : Network) (block_id : string) (db : Db) : option ((Network * string * Bytes) * SnapshotRow) :=
  head (filter (fun s => s.1.1 = (n, block_id) /\ row_usable s.2 = true) (map_to_list (db_snapshot db))).
Definition insert_snapshot (n : Network) (block_id : string) (digest : Bytes) (row : SnapshotRow) (db : Db)
  : result DbError Db :=
  match first_violation [("block_snapshot_digest_is_sha256", Nat.eqb (length digest) 32);
                         ("block_snapshot_height_non_negative", 0 <=? sr_height row)] with
  | Some c => Err (CheckViolation c)
  | None =>
      match db_snapshot db !! (n, block_id, digest) with
      | Some _ => Ok db
      | None =>
          if row_usable row && negb (is_none (usable_row_of n block_id db))
          then Err (UniqueViolation USABLE_INDEX)
          else Ok (with_snapshot (<[(n, block_id, digest) := row]> (db_snapshot db)) db)
      end
  end.

Section store.
Context (sha256 : string -> Bytes) (to_string : Value -> string).

(** [content_digest]; the serialisation of a [Value] does not fail. *)
Definition content_digest (s : Snapshot) : Bytes := sha256 (to_string (snapshot_payload s)).

(** [i64::try_from] of a [u64]. *)
Definition to_i64 (n : Z) : option Z := if n <=? i64_max then Some n else None.

Definition persist (n : Network) (s : Snapshot) (db : Db) : result SnapshotStoreError (PersistedSnapshot * Db) :=
  let digest := content_digest s in
  match to_i64 (sn_height s) with
  | None => Err (StoreCorrupt (sn_block_id s) "height exceeds the stored range")
  | Some height =>
      let proposed := MkSnapshotRecord n (sn_block_id s) (sn_height s) (sn_reads_complete s)
                        (sn_active_cache_ready s) digest in
      match insert_snapshot n (sn_block_id s) digest
              (MkSnapshotRow height (sn_reads_complete s) (sn_active_cache_ready s)) db with
      | Err e => if is_usable_conflict e then Err (Divergent n (sn_block_id s)) else Err (StoreUnavailable e)
      | Ok db' => Ok (MkPersisted s proposed, db')
      end
  end.

(** [load_usable_record], through [fetch_usable]. *)
Definition load_usable_record (n : Network) (block_id : string) (db : Db)
  : result SnapshotStoreError (option SnapshotRecord) :=
  match usable_row_of n block_id db with
  | None => Ok None
  | Some (k, row) =>
      if sr_height row <? 0 then Err (StoreCorrupt block_id "stored height is negative")
      else if negb (Nat.eqb (length k.2) 32) then Err (StoreCorrupt block_id "stored digest is not 32 bytes")
      else Ok (Some (MkSnapshotRecord n block_id (sr_height row) (sr_reads_complete row)
                       (sr_active_cache_ready row) k.2))
  end.

(** [SELECT max(height) ... WHERE reads_complete]. *)
Definition complete_heights (n : Network) (db : Db) : list Z :=
  map (fun s => sr_height s.2)
    (filter (fun s => s.1.1.1 = n /\ sr_reads_complete s.2 = true) (map_to_list (db_snapshot db))).
Definition last_local_height (n : Network) (db : Db) : result SnapshotStoreError (option Z) :=
  match max_list (complete_heights n db) with
  | None => Ok None
  | Some h => if h <? 0 then Err (StoreCorrupt "" "stored height is negative") else Ok (Some h)
  end.
End store.

(** ** The table's invariant *)

(** Stored rows satisfy their checks, and a block has one usable row at most. *)
Definition snapshots_ok (t : gmap (Network * string * Bytes) SnapshotRow) : Prop :=
  (forall k r, t !! k = Some r -> length k.2 = 32%nat /\ 0 <= sr_height r) /\
  (forall k k' r r', t !! k = Some r -> t !! k' = Some r' -> k.1 = k'.1 ->
     row_usable r = true -> row_usable r' = true -> k = k').

Lemma usable_row_of_Some n b db k r :
  usable_row_of n b db = Some (k, r) -> db_snapshot db !! k = Some r /\ k.1 = (n, b) /\ row_usable r = true.
Proof.
  unfold usable_row_of. intros Hh.
  assert (Hin : (k, r) ∈ filter (fun s => s.1.1 = (n, b) /\ row_usable s.2 = true) (map_to_list (db_snapshot db))).
  { destruct (filter _ _) as [|x l]; [done|]. simpl in Hh. injection Hh as ->. by left. }
  apply list_elem_of_filter in Hin as [[? ?] Hin]. by apply elem_of_map_to_list in Hin.
Qed.
Lemma usable_row_of_None n b db k r :
  usable_row_of n b db = None -> db_snapshot db !! k = Some r -> k.1 = (n, b) -> row_usable r = false.
Proof.
  unfold usable_row_of. intros Hh Hk Hb. destruct (row_usable r) eqn:Hu; [|done].
  assert (Hin : (k, r) ∈ filter (fun s => s.1.1 = (n, b) /\ row_usable s.2 = true) (map_to_list (db_snapshot db))).
  { apply list_elem_of_filter. split; [done|]. by apply elem_of_map_to_list. }
  destruct (filter _ _) as [|x l]; [by apply not_elem_of_nil in Hin|done].
Qed.

Lemma insert_snapshot_Ok n b digest row db db' :
  insert_snapshot n b digest row db = Ok db' ->
  length digest = 32%nat /\ 0 <= sr_height row /\
  ((db' = db /\ is_Some (db_snapshot db !! (n, b, digest))) \/
   (db' = with_snapshot (<[(n, b, digest) := row]> (db_snapshot db)) db /\
    db_snapshot db !! (n, b, digest) = None /\
    (row_usable row = true -> usable_row_of n b db = None))).
Proof.
  unfold insert_snapshot, first_violation. simpl.
  destruct (Nat.eqb_spec (length digest) 32) as [Hl|]; simpl; [|done].
  destruct (Z.leb_spec 0 (sr_height row)); simpl; [|done].
  destruct (db_snapshot db !! (n, b, digest)) eqn:Hk; [intros [= <-]; eauto 10|].
  destruct (row_usable row); simpl; [|intros [= <-]; split; [done|]; split; [done|]; right; done].
  destruct (usable_row_of n b db); simpl; [done|]. intros [= <-]. split; [done|]. split; [done|]. right. done.
Qed.

Lemma insert_snapshot_keeps n b digest row db db' :
  snapshots_ok (db_snapshot db) -> insert_snapshot n b digest row db = Ok db' ->
  snapshots_ok (db_snapshot db') /\ db_snapshot db ⊆ db_snapshot db'.
Proof.
  intros [Hrow Hone] (Hl & Hh & [[-> _]|(-> & Hk & Hu)])%insert_snapshot_Ok; [done|]. simpl. split.
  - split.
    + intros k r [[<- <-]|[_ Hr]]%lookup_insert_Some; [done|by apply Hrow].
    + intros k k' r r' H1 H2 E U1 U2.
      apply lookup_insert_Some in H1 as [[<- <-]|[_ H1]], H2 as [[<- <-]|[_ H2]]; [done| | |by apply (Hone k k' r r')].
      * pose proof (usable_row_of_None _ _ _ _ _ (Hu U1) H2 (eq_sym E)). congruence.
      * pose proof (usable_row_of_None _ _ _ _ _ (Hu U2) H1 E). congruence.
  - by apply insert_subseteq.
Qed.

Lemma persist_Ok sha to_s n s db p db' :
  persist sha to_s n s db = Ok (p, db') ->
  pe_snapshot p = s /\ pe_record p = MkSnapshotRecord n (sn_block_id s) (sn_height s) (sn_reads_complete s)
    (sn_active_cache_ready s) (content_digest sha to_s s) /\ sn_height s <= i64_max /\
  insert_snapshot n (sn_block_id s) (content_digest sha to_s s)
    (MkSnapshotRow (sn_height s) (sn_reads_complete s) (sn_active_cache_ready s)) db = Ok db'.
Proof.
  unfold persist, to_i64. destruct (Z.leb_spec (sn_height s) i64_max); [|done].
  destruct (insert_snapshot _ _ _ _ _) as [d|e]; [|by destruct (is_usable_conflict e)]. by intros [= <- <-].
Qed.

(** ** Properties *)

(** A decision reads only what was recorded as usable.  Persisting a snapshot
    keeps every row already there and at most one usable row per block; what
    [for_decision] then hands out is a snapshot with complete reads and a ready
    cache whose row is the block's one usable row in the table, under the
    digest of its content; and a second, different usable assembly of the block
    is refused as divergent. *)
Theorem persisted_before_decided sha256 to_string n s db p db' snap :
  snapshots_ok (db_snapshot db) ->
  (forall r, db_snapshot db !! (n, sn_block_id s, content_digest sha256 to_string s) = Some r ->
     r = MkSnapshotRow (sn_height s) (sn_reads_complete s) (sn_active_cache_ready s)) ->
  persist sha256 to_string n s db = Ok (p, db') -> for_decision p = Ok snap ->
  snap = s /\ sn_reads_complete s = true /\ sn_active_cache_ready s = true /\
  snapshots_ok (db_snapshot db') /\ db_snapshot db ⊆ db_snapshot db' /\
  load_usable_record n (sn_block_id s) db' = Ok (Some (pe_record p)) /\
  forall s', sn_block_id s' = sn_block_id s -> sn_reads_complete s' = true -> sn_active_cache_ready s' = true ->
    sn_height s' <= i64_max -> 0 <= sn_height s' -> length (content_digest sha256 to_string s') = 32%nat ->
    db_snapshot db' !! (n, sn_block_id s, content_digest sha256 to_string s') = None ->
    persist sha256 to_string n s' db' = Err (Divergent n (sn_block_id s)).
Proof.
  intros Hok Hsame (Es & Er & Hh & Hins)%persist_Ok. unfold for_decision. rewrite Es.
  destruct (sn_reads_complete s) eqn:Hc; [|done]. destruct (sn_active_cache_ready s) eqn:Ha; [|done].
  simpl. intros [= <-].
  destruct (insert_snapshot_keeps _ _ _ _ _ _ Hok Hins) as [Hok' Hsub].
  set (row := MkSnapshotRow (sn_height s) true true) in *.
  assert (Hrow : db_snapshot db' !! (n, sn_block_id s, content_digest sha256 to_string s) = Some row).
  { apply insert_snapshot_Ok in Hins as (_ & _ & [[-> [r Hr]]|[-> _]]); [|apply lookup_insert_eq].
    rewrite Hr. f_equal. by apply Hsame. }
  destruct (usable_row_of n (sn_block_id s) db') as [[k r]|] eqn:Hu.
  2:{ pose proof (usable_row_of_None _ _ _ _ _ Hu Hrow eq_refl). done. }
  pose proof (usable_row_of_Some _ _ _ _ _ Hu) as (Hk & Ek & Hur).
  assert (k = (n, sn_block_id s, content_digest sha256 to_string s)) as ->.
  { by apply (proj2 Hok' _ _ _ _ Hk Hrow). }
  assert (r = row) as -> by congruence.
  destruct (proj1 Hok' _ _ Hrow) as [Hlen Hnn]. simpl in Hlen, Hnn.
  split_and!; try done.
  - unfold load_usable_record. rewrite Hu, Er. simpl. rewrite Hlen. simpl.
    destruct (Z.ltb_spec (sn_height s) 0); [lia|done].
  - intros s' Eb Hc' Ha' Hmax Hmin Hlen' Hnew. unfold persist, to_i64. rewrite (proj2 (Z.leb_le _ _) Hmax).
    unfold insert_snapshot, first_violation. simpl. rewrite Hlen', (proj2 (Z.leb_le _ _) Hmin). simpl.
    rewrite Eb, Hnew, Hu. unfold row_usable. simpl. by rewrite Hc', Ha'.
Qed.

Definition usable_snapshot (block_id : string) (height : Z) : Snapshot :=
  MkSnapshot block_id height JNull bt_empty bt_empty true true.
(** A digest of 32 bytes that tells the two sample snapshots apart. *)
Definition height_of (v : Value) : string :=
  match and_then (json_get "height" v) json_as_u64 with Some 7 => "7" | _ => "8" end.
Definition toy_sha (s : string) : Bytes := replicate 32 (if String.eqb s "7" then 7 else 8).
Definition stored : PersistedSnapshot :=
  MkPersisted (usable_snapshot "b" 7) (MkSnapshotRecord Testnet "b" 7 true true (toy_sha "7")).
Definition stored_db : Db := with_snapshot {[ (Testnet, "b", toy_sha "7") := MkSnapshotRow 7 true true ]} empty_db.
Example persisted_before_decided_witness :
  persist toy_sha height_of Testnet (usable_snapshot "b" 7) empty_db = Ok (stored, stored_db) /\
  load_usable_record Testnet "b" stored_db = Ok (Some (pe_record stored)) /\
  persist toy_sha height_of Testnet (usable_snapshot "b" 8) stored_db = Err (Divergent Testnet "b").
Proof.
  assert (E : persist toy_sha height_of Testnet (usable_snapshot "b" 7) empty_db = Ok (stored, stored_db)) by reflexivity.
  destruct (persisted_before_decided toy_sha height_of Testnet (usable_snapshot "b" 7) empty_db stored stored_db
    (usable_snapshot "b" 7)) as (_ & _ & _ & _ & _ & Hl & Hd).
  - split; [intros k r Hk; discriminate Hk|intros k k' r r' Hk; discriminate Hk].
  - intros r Hr. discriminate Hr.
  - exact E.
  - reflexivity.
  - split; [exact E|]. split; [exact Hl|]. apply Hd; try reflexivity; try (vm_compute; discriminate).
Defined.
