(* ===== verification/ActiveCache.v ===== *)
(** * The active-benchmark cache: [crates/pool-snapshot/src/active_cache.rs] and
      [postgres_active_cache.rs]

    The compact facts retained for every active benchmark, the pass that
    fetches the ones not yet held within a budget, and the table they live in.
    The table [pool.active_benchmark_meta] is insert-only and keyed by
    (network, benchmark). *)
From S2P Require Import Prelude BTreeMap Json Domain Store Snapshot SnapshotStore.
Open Scope Z_scope.

Record ActiveBenchmarkMeta := MkMeta {
  am_benchmark_id : string;
  am_player_id : string;
  am_challenge_id : string;
  am_algorithm_id : string;
  am_track_id : string;
  am_compute_type : option string;
  am_num_bundles : Z;
  am_fuel_budget : option Z;
  am_hyperparameters : option Value;
  am_precommit_block_confirmed : Z;
  am_num_active_bundles : option Z;
  am_average_quality_by_bundle : list Value;
  am_stopped : bool;
  am_benchmark_block_confirmed : Z;
}.

Record ShapeError := MkShapeError { se_benchmark_id : string; se_reason : string }.

(** ** Reducing a body *)

Section retain.
Context (benchmark_id : string) (body : Value).
Definition shape (reason : string) : ShapeError := MkShapeError benchmark_id reason.
(** The closures [str_at], [u64_at] and [opt_u64_at]. *)
Definition str_at (path : list string) : result ShapeError string :=
  ok_or (and_then (json_path path body) json_as_str) (shape (String.append "no string at " (String.concat "." path))).
Definition u64_at (path : list string) : result ShapeError Z :=
  ok_or (and_then (json_path path body) json_as_u64)
    (shape (String.append "no non-negative integer at " (String.concat "." path))).
Definition opt_u64_at (path : list string) : result ShapeError (option Z) :=
  match json_path path body with
  | None | Some JNull => Ok None
  | Some v => let? n := ok_or (json_as_u64 v)
                (shape (String.append (String.concat "." path) " is not a non-negative integer")) in Ok (Some n)
  end.
Definition is_object (v : Value) : bool := match v with JObject _ => true | _ => false end.
(** [pointer(body, path).filter(Value::is_object)]. *)
Definition object_at (path : list string) : option Value :=
  match json_path path body with Some v => if is_object v then Some v else None | None => None end.

Definition hyperparameters_at : option Value :=
  match json_path ["precommit"; "details"; "hyperparameters"] body with
  | None | Some JNull => None
  | Some v => Some v
  end.
Definition compute_type_at : result ShapeError (option string) :=
  match json_path ["precommit"; "details"; "compute_type"] body with
  | None | Some JNull => Ok None
  | Some v => let? s := ok_or (json_as_str v) (shape "precommit.details.compute_type is not a string") in Ok (Some s)
  end.

Definition retain : result ShapeError ActiveBenchmarkMeta :=
  let? precommit := ok_or (object_at ["precommit"]) (shape "no precommit") in
  if negb (is_some_and (json_get "settings" precommit) is_object) then Err (shape "precommit has no settings")
  else
    let? listed := str_at ["precommit"; "benchmark_id"] in
    if negb (String.eqb listed benchmark_id) then Err (shape (String.append "body describes " listed))
    else
      let? benchmark := ok_or (object_at ["benchmark"]) (shape "no confirmed benchmark for an active id") in
      let? qualities := ok_or (and_then (json_path ["details"; "average_quality_by_bundle"] benchmark) json_as_array)
        (shape "benchmark.details.average_quality_by_bundle is not a list") in
      let? stopped := ok_or (and_then (json_path ["details"; "stopped"] benchmark) json_as_bool)
        (shape "benchmark.details.stopped is not a boolean") in
      let? compute_type := compute_type_at in
      let? player_id := str_at ["precommit"; "settings"; "player_id"] in
      let? challenge_id := str_at ["precommit"; "settings"; "challenge_id"] in
      let? algorithm_id := str_at ["precommit"; "settings"; "algorithm_id"] in
      let? track_id := str_at ["precommit"; "settings"; "track_id"] in
      let? num_bundles := u64_at ["precommit"; "details"; "num_bundles"] in
      let? fuel_budget := opt_u64_at ["precommit"; "details"; "fuel_budget"] in
      let? precommit_confirmed := u64_at ["precommit"; "state"; "block_confirmed"] in
      let? num_active_bundles := opt_u64_at ["benchmark"; "details"; "num_active_bundles"] in
      let? benchmark_confirmed := u64_at ["benchmark"; "state"; "block_confirmed"] in
      Ok {| am_benchmark_id := benchmark_id; am_player_id := player_id; am_challenge_id := challenge_id;
            am_algorithm_id := algorithm_id; am_track_id := track_id; am_compute_type := compute_type;
            am_num_bundles := num_bundles; am_fuel_budget := fuel_budget;
            am_hyperparameters := hyperparameters_at; am_precommit_block_confirmed := precommit_confirmed;
            am_num_active_bundles := num_active_bundles; am_average_quality_by_bundle := qualities;
            am_stopped := stopped; am_benchmark_block_confirmed := benchmark_confirmed |}.
End retain.

(** ** The table *)

Inductive CacheError := CacheUnavailable (e : DbError) | CacheCorrupt (benchmark_id reason : string).

Record MetaRow := MkMetaRow { mt_meta : ActiveBenchmarkMeta; mt_fetched_at_height : Z }.
Abbreviation MetaTable := (gmap (Network * string) MetaRow).

(** [retained]: which of [ids] have a row. *)
Definition retained (n : Network) (ids : list string) (t : MetaTable) : list string :=
  filter (fun id => is_Some (t !! (n, id))) ids.

(** [load]: the rows of [ids], once each, in the database's text order. *)
Definition load (text_le : string -> string -> bool) (n : Network) (ids : list string) (t : MetaTable)
  : list ActiveBenchmarkMeta :=
  map (fun r => mt_meta r)
    (sort_by (fun a b => text_le (am_benchmark_id (mt_meta a)) (am_benchmark_id (mt_meta b)))
       (map snd (filter (fun kr => kr.1.1 = n /\ kr.1.2 ∈ ids) (map_to_list t)))).

(** [stored_count]: a count must fit [bigint]. *)
Definition stored_count (meta : ActiveBenchmarkMeta) (field : string) (value : Z) : result CacheError unit :=
  match to_i64 value with
  | Some _ => Ok tt
  | None => Err (CacheCorrupt (am_benchmark_id meta) (String.append field " exceeds the stored range"))
  end.
Definition stored_opt (meta : ActiveBenchmarkMeta) (field : string) (value : option Z) : result CacheError unit :=
  match value with Some v => stored_count meta field v | None => Ok tt end.

(** [ActiveBenchmarkStore::retain]: [ON CONFLICT DO NOTHING]. *)
Definition store_retain (n : Network) (meta : ActiveBenchmarkMeta) (height : Z) (t : MetaTable)
  : result CacheError MetaTable :=
  let? _ := stored_count meta "num_bundles" (am_num_bundles meta) in
  let? _ := stored_opt meta "fuel_budget" (am_fuel_budget meta) in
  let? _ := stored_count meta "precommit_block_confirmed" (am_precommit_block_confirmed meta) in
  let? _ := stored_opt meta "num_active_bundles" (am_num_active_bundles meta) in
  let? _ := stored_count meta "benchmark_block_confirmed" (am_benchmark_block_confirmed meta) in
  let? _ := stored_count meta "fetched_at_height" height in
  match t !! (n, am_benchmark_id meta) with
  | Some _ => Ok t
  | None => Ok (<[(n, am_benchmark_id meta) := MkMetaRow meta height]> t)
  end.

(** ** One pass *)

Record Advance := MkAdvance { av_fetched : list string; av_missing : list string; av_failed : list (string * string) }.
Definition covers_active_set (a : Advance) : bool := match av_missing a with [] => true | _ => false end.

(** [iter.collect::<BTreeSet<_>>()]. *)
Definition btree_set (l : list string) : list string := bt_keys (bt_collect (map (fun id => (id, tt)) l)).

Section advance.
Context {W : Type} (get_data : string -> W -> result SnapshotError Value * W) (show : SnapshotError -> string).
Context (n : Network) (height : Z).

Definition not_retained (id why : string) (r : Advance) : Advance :=
  MkAdvance (av_fetched r) (av_missing r ++ [id]) (av_failed r ++ [(id, why)]).

Fixpoint advance_each (wanted : list string) (budget : nat) (r : Advance) (t : MetaTable) (w : W)
  : result CacheError Advance * MetaTable * W :=
  match wanted with
  | [] => (Ok r, t, w)
  | id :: rest =>
      match budget with
      | O => advance_each rest O (MkAdvance (av_fetched r) (av_missing r ++ [id]) (av_failed r)) t w
      | S budget' =>
          match get_data id w with
          | (Err e, w) => advance_each rest budget' (not_retained id (show e) r) t w
          | (Ok body, w) =>
              match retain id body with
              | Err e => advance_each rest budget' (not_retained id (se_reason e) r) t w
              | Ok meta =>
                  match store_retain n meta height t with
                  | Err e => (Err e, t, w)
                  | Ok t => advance_each rest budget' (MkAdvance (av_fetched r ++ [id]) (av_missing r) (av_failed r)) t w
                  end
              end
          end
      end
  end.

Definition wanted_of (active_ids : list string) (t : MetaTable) : list string :=
  btree_set (filter (fun id => id ∉ retained n active_ids t) active_ids).
Definition advance (active_ids : list string) (budget : nat) (t : MetaTable) (w : W)
  : result CacheError Advance * MetaTable * W :=
  advance_each (wanted_of active_ids t) budget (MkAdvance [] [] []) t w.
End advance.

(** ** Lemmas *)

Lemma retain_id id body m : retain id body = Ok m -> am_benchmark_id m = id.
Proof. unfold retain. intros H. repeat (case_match; simplify_eq/=; try done). Qed.

Lemma as_str_Some o s : and_then o json_as_str = Some s -> o = Some (JString s).
Proof. destruct o as [[]|]; simpl; intros; simplify_eq. done. Qed.

(** A retained body is confirmed twice over: [num_bundles] and both heights are
    the body's own. *)
Lemma retain_confirmed id body m : retain id body = Ok m ->
  json_path ["precommit"; "benchmark_id"] body = Some (JString id) /\
  and_then (json_path ["precommit"; "state"; "block_confirmed"] body) json_as_u64 = Some (am_precommit_block_confirmed m) /\
  and_then (json_path ["benchmark"; "state"; "block_confirmed"] body) json_as_u64 = Some (am_benchmark_block_confirmed m).
Proof.
  unfold retain, str_at, u64_at. intros H.
  repeat match type of H with
  | context [ok_or ?o _] => destruct o eqn:?; cbn [ok_or] in H; try discriminate H
  | context [String.eqb ?a ?b] => destruct (String.eqb_spec a b); cbn [negb] in H; try discriminate H
  | context [match ?x with Ok _ => _ | Err _ => _ end] => destruct x eqn:?; try discriminate H
  | context [if ?b then _ else _] => destruct b eqn:?; try discriminate H
  end.
  injection H as <-. simpl. subst. split_and!; try done. by apply as_str_Some.
Qed.

Lemma store_retain_Ok n m h t t' :
  store_retain n m h t = Ok t' ->
  t' = t /\ is_Some (t !! (n, am_benchmark_id m)) \/
  t' = <[(n, am_benchmark_id m) := MkMetaRow m h]> t /\ t !! (n, am_benchmark_id m) = None.
Proof.
  unfold store_retain. intros H.
  repeat (match type of H with (match ?x with Ok _ => _ | Err _ => _ end) = _ => destruct x; [|done] end).
  destruct (t !! _) eqn:E; injection H as <-; [left; eauto|right; done].
Qed.

Lemma btree_set_elem l x : x ∈ btree_set l <-> x ∈ l.
Proof.
  unfold btree_set. rewrite bt_collect_keys. rewrite list_elem_of_fmap. split.
  - intros (y & -> & Hy). apply list_elem_of_In, in_map_iff in Hy as (z & <- & Hz). by apply list_elem_of_In.
  - intros Hx. exists (x, tt). split; [done|]. apply list_elem_of_In, in_map_iff. exists x. split; [done|]. by apply list_elem_of_In.
Qed.
Lemma btree_set_NoDup l : NoDup (btree_set l).
Proof. apply bt_keys_NoDup, bt_collect_wf. Qed.

Lemma wanted_elem n ids t id : id ∈ wanted_of n ids t <-> id ∈ ids /\ t !! (n, id) = None.
Proof.
  unfold wanted_of, retained. rewrite btree_set_elem, list_elem_of_filter, list_elem_of_filter.
  destruct (t !! (n, id)) as [r|] eqn:E.
  - split; [|by intros [_ ?]]. intros [H Hid]. destruct H. split; [eauto|done].
  - split; [by intros [_ ?]|]. intros [Hid _]. split; [|done]. intros [[? ?] _]. done.
Qed.

Section advance_lemmas.
Context {W : Type} (get_data : string -> W -> result SnapshotError Value * W) (show : SnapshotError -> string).
Context (n : Network) (height : Z).

(** What the rest of a pass adds to the report and the table. *)
Record passed (wanted : list string) (budget : nat) (r : Advance) (t : MetaTable) (r' : Advance) (t' : MetaTable) : Prop := {
  ps_kept : t ⊆ t';
  ps_split : exists F M X, av_fetched r' = av_fetched r ++ F /\ av_missing r' = av_missing r ++ M /\
    av_failed r' = av_failed r ++ X /\ (length F + length X <= budget)%nat /\
    (forall id, id ∈ F -> id ∈ wanted /\ is_Some (t' !! (n, id))) /\
    (forall id, id ∈ M -> id ∈ wanted /\ t' !! (n, id) = None) /\
    (forall id, id ∈ wanted -> id ∈ F \/ id ∈ M) /\
    (forall id why, (id, why) ∈ X -> id ∈ M);
  ps_new : forall n' id row, t' !! (n', id) = Some row -> t !! (n', id) = Some row \/
    (n' = n /\ id ∈ wanted /\ mt_fetched_at_height row = height /\
     exists body w1 w2, get_data id w1 = (Ok body, w2) /\ retain id body = Ok (mt_meta row));
}.

Lemma passed_skip id wanted budget budget' r t r' t' X1 :
  id ∉ wanted -> t !! (n, id) = None -> (budget' + length X1 <= budget)%nat ->
  (forall i why, (i, why) ∈ X1 -> i = id) ->
  passed wanted budget' (MkAdvance (av_fetched r) (av_missing r ++ [id]) (av_failed r ++ X1)) t r' t' ->
  passed (id :: wanted) budget r t r' t'.
Proof.
  intros Hnew Hid Hb HX1 [Hk (F & M & X & E1 & E2 & E3 & Hl & HF & HM & Hall & HX) Hrow]. simpl in *.
  assert (Hid' : t' !! (n, id) = None).
  { destruct (t' !! (n, id)) as [row|] eqn:E; [|done]. destruct (Hrow _ _ _ E) as [?|(_ & ? & _)]; [congruence|done]. }
  constructor; [done| |].
  - exists F, (id :: M), (X1 ++ X). rewrite E1, E2, E3, <- !app_assoc, length_app. split_and!; [done..|lia| | | |].
    + intros i Hi. destruct (HF i Hi). split; [by right|done].
    + intros i [->|Hi]%elem_of_cons; [split; [by left|done]|]. destruct (HM i Hi). split; [by right|done].
    + intros i [->|Hi]%elem_of_cons; [right; by left|]. destruct (Hall i Hi); [by left|right; by right].
    + intros i why [Hi|Hi]%elem_of_app; [rewrite (HX1 _ _ Hi); by left|right; by eapply HX].
  - intros n' i row Hr. destruct (Hrow _ _ _ Hr) as [|(-> & ? & ?)]; [by left|]. right. split; [done|]. split; [by right|done].
Qed.

Lemma advance_each_passed wanted : forall budget r t w r' t' w',
  NoDup wanted -> (forall id, id ∈ wanted -> t !! (n, id) = None) ->
  advance_each get_data show n height wanted budget r t w = (Ok r', t', w') -> passed wanted budget r t r' t'.
Proof.
  induction wanted as [|id wanted IH]; intros budget r t w r' t' w' Hnd Hnone; cbn [advance_each].
  { intros [= <- <- <-]. constructor; [done| |by left]. exists [], [], []. rewrite !app_nil_r.
    split_and!; [done..|simpl; lia| | | |]; intros *; rewrite ?elem_of_nil; tauto. }
  apply NoDup_cons in Hnd as [Hid Hnd].
  assert (Hrest : forall i, i ∈ wanted -> t !! (n, i) = None) by (intros i Hi; apply Hnone; by right).
  assert (Hidn : t !! (n, id) = None) by (apply Hnone; by left).
  destruct budget as [|budget].
  { intros H%IH; [|done..]. eapply (passed_skip id wanted 0 0 r t r' t' []); [done|done|simpl; lia|by intros ?? ?%not_elem_of_nil|].
    rewrite app_nil_r. exact H. }
  assert (Hfail : forall why w1, advance_each get_data show n height wanted budget (not_retained id why r) t w1 = (Ok r', t', w') ->
    passed (id :: wanted) (S budget) r t r' t').
  { intros why w1 H%IH; [|done..]. eapply (passed_skip id wanted (S budget) budget r t r' t' [(id, why)]);
      [done|done|simpl; lia|by intros i w0 [= -> ->]%list_elem_of_singleton|exact H]. }
  destruct (get_data id w) as [[body|e] w1] eqn:Hg; [|apply Hfail].
  destruct (retain id body) as [m|e] eqn:Hr; [|apply Hfail].
  destruct (store_retain n m height t) as [t1|] eqn:Hs; [|done].
  pose proof (retain_id _ _ _ Hr) as Em. apply store_retain_Ok in Hs. rewrite Em in Hs.
  destruct Hs as [[_ [? ?]]|[-> _]]; [congruence|]. intros H%IH; [|done|].
  2:{ intros i Hi. rewrite lookup_insert_ne; [by apply Hrest|]. intros [= ->]. done. }
  destruct H as [Hk (F & M & X & E1 & E2 & E3 & Hl & HF & HM & Hall & HX) Hrow]. simpl in *. constructor.
  - etrans; [|exact Hk]. by apply insert_subseteq.
  - assert (is_Some (t' !! (n, id))) by (eexists; eapply lookup_weaken; [apply lookup_insert_eq|exact Hk]).
    exists (id :: F), M, X. rewrite E1, E2, E3, <- app_assoc. split_and!; [done..|simpl; lia| | | |].
    + intros i [->|Hi]%elem_of_cons; [split; [by left|done]|]. destruct (HF i Hi). split; [by right|done].
    + intros i Hi. destruct (HM i Hi). split; [by right|done].
    + intros i [->|Hi]%elem_of_cons; [left; by left|]. destruct (Hall i Hi); [left; by right|by right].
    + done.
  - intros n' i row Hr'. destruct (Hrow _ _ _ Hr') as [Hin|(-> & ? & ?)].
    + apply lookup_insert_Some in Hin as [[[= <- <-] <-]|[_ Hin]]; [|by left]. right. simpl.
      split; [done|]. split; [by left|]. split; [done|]. eauto.
    + right. split; [done|]. split; [by right|done].
Qed.
End advance_lemmas.

(** ** Properties *)

(** The readiness a snapshot is persisted with is the truth.  After a pass over
    a block's active ids, the ones reported missing are exactly those with no
    row, so the set is covered exactly when every active id is retained; at
    most [budget] requests were made; every row that was there still is,
    unchanged, and every new row is one of the active ids, read from a body
    that describes that id with a confirmed precommit and benchmark. *)
Theorem coverage_is_exact {W} (get_data : string -> W -> result SnapshotError Value * W) show n height ids budget t w r t' w' :
  advance get_data show n height ids budget t w = (Ok r, t', w') ->
  (forall id, id ∈ av_missing r <-> id ∈ ids /\ t' !! (n, id) = None) /\
  (covers_active_set r = true <-> forall id, id ∈ ids -> is_Some (t' !! (n, id))) /\
  (length (av_fetched r) + length (av_failed r) <= budget)%nat /\ t ⊆ t' /\
  (forall n' id row, t' !! (n', id) = Some row -> t !! (n', id) = Some row \/
     (n' = n /\ id ∈ ids /\ am_benchmark_id (mt_meta row) = id /\
      exists body w1 w2, get_data id w1 = (Ok body, w2) /\
        json_path ["precommit"; "benchmark_id"] body = Some (JString id) /\
        and_then (json_path ["precommit"; "state"; "block_confirmed"] body) json_as_u64
          = Some (am_precommit_block_confirmed (mt_meta row)) /\
        and_then (json_path ["benchmark"; "state"; "block_confirmed"] body) json_as_u64
          = Some (am_benchmark_block_confirmed (mt_meta row)))).
Proof.
  unfold advance. intros H.
  destruct (advance_each_passed _ _ _ _ _ _ _ _ _ _ _ _ (btree_set_NoDup _)
    (fun id Hid => proj2 (proj1 (wanted_elem n ids t id) Hid)) H)
    as [Hk (F & M & X & E1 & E2 & E3 & Hl & HF & HM & Hall & HX) Hrow]. simpl in *.
  assert (Hmiss : forall id, id ∈ av_missing r <-> id ∈ ids /\ t' !! (n, id) = None).
  { intros id. rewrite E2. split.
    - intros Hid. destruct (HM id Hid) as [Hw ?]. apply wanted_elem in Hw as [? _]. done.
    - intros [Hid Hn]. destruct (Hall id) as [Hf|]; [|destruct (HF id Hf) as [_ [? ?]]; congruence|done].
      apply wanted_elem. split; [done|]. destruct (t !! (n, id)) eqn:E; [|done].
      rewrite (lookup_weaken _ _ _ _ E Hk) in Hn. done. }
  split; [done|]. split; [|split; [by rewrite E1, E3|split; [done|]]].
  - unfold covers_active_set. destruct (av_missing r) as [|m ms] eqn:Em; rewrite ?Em in *.
    + split; [|done]. intros _ id Hid. destruct (t' !! (n, id)) eqn:E; [eauto|].
      by destruct (not_elem_of_nil id (proj2 (Hmiss id) (conj Hid E))).
    + split; [done|]. intros Hcov. destruct (proj1 (Hmiss m)) as [Hm Hn]; [by left|].
      destruct (Hcov m Hm). congruence.
  - intros n' id row Hr. destruct (Hrow _ _ _ Hr) as [|(-> & Hw & _ & body & w1 & w2 & Hg & Hret)]; [by left|right].
    apply wanted_elem in Hw as [Hid _]. destruct (retain_confirmed _ _ _ Hret) as (? & ? & ?).
    split; [done|]. split; [done|]. split; [by apply retain_id in Hret|]. exists body, w1, w2. done.
Qed.
(** A body of the shape TIG serves. *)
Definition sample_body (id : string) : Value :=
  let n := fun k => JNumber (PosInt k) in
  JObject
    [("benchmark", JObject [("details", JObject [("average_quality_by_bundle", JArray [n 50]);
                                                  ("num_active_bundles", n 4); ("stopped", JBool false)]);
                            ("state", JObject [("block_confirmed", n 2)])]);
     ("precommit", JObject [("benchmark_id", JString id);
                            ("details", JObject [("fuel_budget", n 5000000); ("num_bundles", n 1)]);
                            ("settings", JObject [("algorithm_id", JString "c001_a001"); ("challenge_id", JString "c001");
                                                  ("player_id", JString "0x1"); ("track_id", JString "t1")]);
                            ("state", JObject [("block_confirmed", n 1)])])].
(** A source that answers for every id but one, which it describes wrongly. *)
Definition sample_data (id : string) (w : unit) : result SnapshotError Value * unit :=
  (Ok (sample_body (if String.eqb id "b2" then "other" else id)), tt).
Example coverage_is_exact_witness :
  exists r t', advance sample_data (fun _ => "") Testnet 9 ["b3"; "b1"; "b2"; "b1"] 2 ∅ tt = (Ok r, t', tt) /\
    av_fetched r = ["b1"] /\ av_missing r = ["b2"; "b3"] /\
    (covers_active_set r = true <-> forall id, id ∈ ["b3"; "b1"; "b2"; "b1"] -> is_Some (t' !! (Testnet, id))).
Proof.
  assert (Hr : (advance sample_data (fun _ => "") Testnet 9 ["b3"; "b1"; "b2"; "b1"] 2 ∅ tt).1.1 =
    Ok (MkAdvance ["b1"] ["b2"; "b3"] [("b2", "body describes other")])) by (vm_compute; reflexivity).
  destruct (advance sample_data (fun _ => "") Testnet 9 ["b3"; "b1"; "b2"; "b1"] 2 ∅ tt) as [[r t'] []] eqn:E.
  cbn [fst] in Hr. subst r. eexists _, t'. split; [reflexivity|]. split; [reflexivity|]. split; [reflexivity|].
  exact (proj1 (proj2 (coverage_is_exact _ _ _ _ _ _ _ _ _ _ _ E))).
Defined.

(** ** The warm-up ends *)

(** A source that answers every request with a body the pool can retain. *)
Definition generous {W} (get_data : string -> W -> result SnapshotError Value * W) : Prop := forall id w,
  exists body w' m, get_data id w = (Ok body, w') /\ retain id body = Ok m /\
    forall n height t, height <= i64_max -> is_Ok (store_retain n m height t) = true.

Section warm_up.
Context {W : Type} (get_data : string -> W -> result SnapshotError Value * W) (show : SnapshotError -> string).
Context (n : Network) (height : Z) (Hgen : generous get_data) (Hh : height <= i64_max).

Lemma generous_each wanted : forall budget r t w,
  exists r' t' w', advance_each get_data show n height wanted budget r t w = (Ok r', t', w') /\
    av_missing r' = av_missing r ++ drop budget wanted.
Proof.
  induction wanted as [|id wanted IH]; intros budget r t w; cbn [advance_each].
  { eexists _, _, _. split; [done|]. by rewrite drop_nil, app_nil_r. }
  destruct budget as [|budget].
  { destruct (IH 0%nat (MkAdvance (av_fetched r) (av_missing r ++ [id]) (av_failed r)) t w) as (r' & t' & w' & E & Em).
    exists r', t', w'. split; [done|]. rewrite Em. simpl. by rewrite drop_0, <- app_assoc. }
  destruct (Hgen id w) as (body & w1 & m & -> & -> & Hst). specialize (Hst n height t Hh).
  destruct (store_retain n m height t) as [t1|]; [|done].
  exact (IH budget (MkAdvance (av_fetched r ++ [id]) (av_missing r) (av_failed r)) t1 w1).
Qed.

(** Passes over the same active set, as consecutive polls of one block. *)
Fixpoint passes (k : nat) (ids : list string) (budget : nat) (t : MetaTable) (w : W) : MetaTable * W :=
  match k with
  | O => (t, w)
  | S k' => let '(_, t, w) := advance get_data show n height ids budget t w in passes k' ids budget t w
  end.

Lemma advance_generous ids budget t w : exists r t' w',
  advance get_data show n height ids budget t w = (Ok r, t', w') /\
  length (wanted_of n ids t') = (length (wanted_of n ids t) - budget)%nat.
Proof.
  unfold advance. destruct (generous_each (wanted_of n ids t) budget (MkAdvance [] [] []) t w) as (r & t' & w' & E & Em).
  exists r, t', w'. split; [done|].
  pose proof (advance_each_passed _ _ _ _ _ _ _ _ _ _ _ _ (btree_set_NoDup _)
    (fun id Hid => proj2 (proj1 (wanted_elem n ids t id) Hid)) E)
    as [Hk (F & M & X & _ & E2 & _ & _ & HF & HM & Hall & _) _].
  simpl in Em, E2. rewrite Em in E2. subst M. rewrite <- length_drop.
  apply Permutation_length, NoDup_Permutation; [apply btree_set_NoDup| |].
  - eapply sublist_NoDup; [|apply sublist_drop]. apply btree_set_NoDup.
  - intros id. rewrite wanted_elem. split.
    + intros [Hid Hn]. destruct (Hall id) as [Hf|]; [|destruct (HF id Hf) as [_ [? ?]]; congruence|done].
      apply wanted_elem. split; [done|]. destruct (t !! (n, id)) eqn:Et; [|done].
      rewrite (lookup_weaken _ _ _ _ Et Hk) in Hn. done.
    + intros Hid. destruct (HM id Hid) as [Hw ?]. apply wanted_elem in Hw as [? _]. done.
Qed.

(** The warm-up ends.  With a source that keeps answering, polls that each
    spend [budget] requests cover the active set after as many of them as it
    takes to spend one request per active id not yet held. *)
Theorem warm_up_completes k ids budget t w :
  (length (wanted_of n ids t) <= k * budget)%nat ->
  forall id, id ∈ ids -> is_Some ((passes k ids budget t w).1 !! (n, id)).
Proof.
  revert t w. induction k as [|k IH]; intros t w Hlen id Hid.
  - simpl in *. destruct (t !! (n, id)) eqn:E; [eauto|].
    assert (Hw : id ∈ wanted_of n ids t) by (by apply wanted_elem).
    destruct (wanted_of n ids t); [by apply not_elem_of_nil in Hw|simpl in Hlen; lia].
  - cbn [passes]. destruct (advance_generous ids budget t w) as (r & t' & w' & -> & Hl).
    apply IH; [|done]. lia.
Qed.
End warm_up.

Lemma sample_generous : generous (fun id (w : unit) => (Ok (sample_body id), tt)).
Proof.
  intros id w. eexists _, _, _. split; [reflexivity|]. split.
  - unfold retain, str_at, u64_at, opt_u64_at, object_at. simpl. rewrite String.eqb_refl. reflexivity.
  - intros n height t Hh. unfold store_retain, stored_count, stored_opt, to_i64. simpl.
    rewrite (proj2 (Z.leb_le _ _) Hh). by destruct (t !! _).
Qed.
Example warm_up_completes_witness :
  forall id, id ∈ ["b3"; "b1"; "b2"; "b1"] ->
    is_Some ((passes (fun id w => (Ok (sample_body id), tt)) (fun _ => "") Testnet 9 2 ["b3"; "b1"; "b2"; "b1"] 2 ∅ tt).1
      !! (Testnet, id)).
Proof.
  apply (warm_up_completes _ _ Testnet 9 sample_generous ltac:(vm_compute; discriminate) 2
    ["b3"; "b1"; "b2"; "b1"] 2 ∅ tt). vm_compute. repeat constructor.
Defined.
