(* ===== verification/Propose.v ===== *)
(** * What the pool would precommit: [crates/pool-controller/src/propose.rs]

    A persisted snapshot and the active-benchmark cache become the inputs of
    the decision rules, the rules run in their order, and the result is a
    proposal an admission can record.  Pure: every definition is a function of
    the snapshot, the confirmed window, the offer and the cache.  The one
    parameter is BLAKE3, through the tie draw. *)
From S2P Require Import Prelude Text BTreeMap Json Domain Ratio Challenge Algorithm Bundles Source Workflow Store Payload Restart Window Snapshot ActiveCache.
Open Scope Z_scope.

(** [format!]: the pieces in order. *)
Definition cat : list string -> string := String.concat "".

(** ** The offer *)

Record Offer := MkOffer { of_compute : OfferedCompute; of_tig_compute_type : string }.
Inductive OfferError :=
| UnknownClass (compute_class : string)
| NoCores
| UnknownComputeType (compute_type compute_class : string) (known : list string)
| PinUnreadable.

(** The vendors of the offered class, and their compute types. *)
Definition known_types (compute_class : string) (by_vendor class_by_vendor : btree Value) : list string :=
  omap json_as_str (List.concat (omap (fun kv => json_as_array kv.2)
    (List.filter (fun kv => match and_then (bt_get kv.1 class_by_vendor) json_as_str with
                            | Some class => String.eqb class compute_class
                            | None => false
                            end) by_vendor))).

Definition offer_from_config (compute_class : string) (cpu_cores : option Z) (tig_compute_type : string) (pinned : Value)
  : result OfferError Offer :=
  let? compute := if String.eqb compute_class "cpu" then
                    let? cores := ok_or cpu_cores NoCores in Ok (OfferedCpu cores)
                  else if String.eqb compute_class "gpu" then Ok OfferedGpu
                  else Err (UnknownClass compute_class) in
  let? by_vendor := ok_or (and_then (json_path ["compute_compatibility"; "compute_types_by_vendor"] pinned) json_as_object)
    PinUnreadable in
  let? class_by_vendor := ok_or (and_then (json_path ["compute_compatibility"; "compute_class_by_vendor"] pinned) json_as_object)
    PinUnreadable in
  let known := known_types compute_class by_vendor class_by_vendor in
  match known with
  | [] => Err PinUnreadable
  | _ =>
      if negb (existsb (String.eqb tig_compute_type) known)
      then Err (UnknownComputeType tig_compute_type compute_class known)
      else Ok (MkOffer compute tig_compute_type)
  end.

(** ** Data *)

Record ChallengeConfig := MkConfig {
  cc_compute_type : ComputeType;
  cc_min_num_bundles : Z;
  cc_nonces_per_bundle : btree Z;
  cc_base_fee : Z;
  cc_per_nonce_fee : Z;
}.

Record Proposal := MkProposal {
  pr_selected_challenge : string;
  pr_selected_algorithm : string;
  pr_compute_type : string;
  pr_compute_class : string;
  pr_track_settings : Value;
  pr_draw_ranks : btree DrawRank;
  pr_tie_seed : list Z;
  pr_tie_candidates : option (list string);
  pr_tie_winner : option string;
  pr_challenge_selection : ChallengeSelection;
  pr_algorithm_selection : AlgorithmSelection;
  pr_bundle_sizing : BundleSizing;
  pr_fee_by_track : btree Z;
}.

Inductive ProposeError :=
| MissingRead (endpoint : string)
| ProposeShape (endpoint path expected : string)
| SelectedChallengeUnknown (challenge_id : string)
| SelectedAlgorithmUnknown (challenge_id : string)
| PeChallenge (e : ChallengeError)
| PeRatio (e : RatioError)
| PeBundles (e : BundleSizingError)
| FeeOverflow (challenge_id track_id : string).

Inductive Proposed := NoAction (selection : ChallengeSelection) | ProposedPrecommit (p : Proposal).

Definition read (s : Snapshot) (endpoint : string) : result ProposeError Value :=
  ok_or (bt_get endpoint (sn_reads s)) (MissingRead endpoint).
Definition as_u128 (v : Value) : option Z := json_as_u64 v.

Definition is_live_and_active (state : Value) (block_round : Z) : bool :=
  match and_then (json_get "round_active" state) json_as_u64 with
  | Some round_active => round_active <=? block_round
  | None => false
  end.
Definition block_round (s : Snapshot) : result ProposeError Z :=
  ok_or (and_then (json_path ["details"; "round"] (unwrap_block (sn_block s))) json_as_u64)
    (ProposeShape "get-block" "/details/round" "an unsigned integer").

(** ** [get-challenges] *)

Section challenges.
Abbreviation E := "get-challenges".

Definition challenge_path (id rest : string) : string := cat ["/challenges["; id; "]"; rest].

(** The loop over [active_tracks]. *)
Definition read_nonces (id : string) (active_tracks : btree Value) : result ProposeError (btree Z) :=
  foldM (fun m '(track_id, track) =>
           let? nonces := ok_or (and_then (json_get "num_nonces_per_bundle" track) json_as_u64)
             (ProposeShape E (challenge_path id (cat [".config.active_tracks."; track_id; ".num_nonces_per_bundle"]))
                "an unsigned integer") in
           Ok (bt_insert track_id nonces m)) bt_empty active_tracks.

Definition read_network_qualifiers (id : string) (challenge : Value) : result ProposeError (btree Z) :=
  match and_then (json_path ["block_data"; "num_qualifiers_by_track"] challenge) json_as_object with
  | None => Ok bt_empty
  | Some by_track =>
      foldM (fun m '(track_id, count) =>
               let? count := ok_or (as_u128 count)
                 (ProposeShape E (challenge_path id (String.append ".block_data.num_qualifiers_by_track." track_id))
                    "an unsigned integer") in
               Ok (bt_insert track_id count m)) bt_empty by_track
  end.

(** The closure [fee]. *)
Definition read_fee (id : string) (config : Value) (field : string) : result ProposeError Z :=
  ok_or (and_then (and_then (json_get field config) json_as_str) parse_u128)
    (ProposeShape E (challenge_path id (String.append ".config." field)) "a decimal atom string").

(** The loop body: [None] for a challenge that is passed over. *)
Definition read_challenge (block_round : Z) (challenge : Value) : result ProposeError (option (Challenge * ChallengeConfig)) :=
  let? id := ok_or (and_then (json_get "id" challenge) json_as_str) (ProposeShape E "/challenges[].id" "a string") in
  let? state := ok_or (json_get "state" challenge) (ProposeShape E (challenge_path id ".state") "an object") in
  if negb (is_live_and_active state block_round) then Ok None
  else
    let? config := ok_or (json_get "config" challenge) (ProposeShape E (challenge_path id ".config") "an object") in
    match and_then (json_get "type" config) json_as_str with
    | None => Ok None
    | Some type_ =>
        if negb (String.eqb type_ "cpu" || String.eqb type_ "gpu") then Ok None
        else
          let compute_type := if String.eqb type_ "cpu" then ComputeCpu else ComputeGpu in
          let? active_tracks := ok_or (and_then (json_get "active_tracks" config) json_as_object)
            (ProposeShape E (challenge_path id ".config.active_tracks") "an object") in
          match active_tracks with
          | [] => Ok None
          | _ =>
              let? nonces_per_bundle := read_nonces id active_tracks in
              let? min_num_bundles := ok_or (and_then (json_get "min_num_bundles" config) json_as_u64)
                (ProposeShape E (challenge_path id ".config.min_num_bundles") "an unsigned integer") in
              let? network_qualifiers := read_network_qualifiers id challenge in
              let? base_fee := read_fee id config "base_fee" in
              let? per_nonce_fee := read_fee id config "per_nonce_fee" in
              Ok (Some ({| ch_id := id; ch_compute_type := compute_type; ch_active_tracks := bt_keys active_tracks;
                           ch_network_qualifiers_by_track := network_qualifiers; ch_tracks_with_source := [] |},
                        {| cc_compute_type := compute_type; cc_min_num_bundles := min_num_bundles;
                           cc_nonces_per_bundle := nonces_per_bundle; cc_base_fee := base_fee;
                           cc_per_nonce_fee := per_nonce_fee |}))
          end
    end.

Definition add_challenge (block_round : Z) (acc : list Challenge * btree ChallengeConfig) (challenge : Value)
  : result ProposeError (list Challenge * btree ChallengeConfig) :=
  let? r := read_challenge block_round challenge in
  match r with
  | None => Ok acc
  | Some (c, config) => Ok (fst acc ++ [c], bt_insert (ch_id c) config (snd acc))
  end.
Definition candidate_challenges (s : Snapshot) (block_round : Z)
  : result ProposeError (list Challenge * btree ChallengeConfig) :=
  let? body := read s E in
  let? challenges := ok_or (and_then (json_get "challenges" body) json_as_array) (ProposeShape E "/challenges" "a list") in
  foldM (add_challenge block_round) ([], bt_empty) challenges.
End challenges.

(** ** [get-algorithms] *)

Record AlgorithmEvidence := MkEvidence {
  ae_by_challenge : btree (list Algorithm);
  ae_qualifiers : btree (btree Z);
}.

Section algorithms.
Abbreviation E := "get-algorithms".

(** [+= count] on a [u128]. *)
Definition add_u128 (a b : Z) : Z := (a + b) mod (u128_max + 1).

(** A confirmed, compiled and fetchable binary. *)
Definition is_usable_binary (binary : Value) : bool :=
  let confirmed := match and_then (json_path ["state"; "block_confirmed"] binary) json_as_u64 with
                   | Some _ => true | None => false end in
  let compiles := default false (and_then (json_path ["details"; "compile_success"] binary) json_as_bool) in
  let fetchable := match and_then (json_path ["details"; "download_url"] binary) json_as_str with
                   | Some url => negb (String.eqb url "") | None => false end in
  confirmed && compiles && fetchable.
Definition compiled_ids (binarys : list Value) : result ProposeError (list string) :=
  foldM (fun compiled binary =>
           let? id := ok_or (and_then (json_get "algorithm_id" binary) json_as_str)
             (ProposeShape E "/binarys[].algorithm_id" "a string") in
           Ok (if is_usable_binary binary then compiled ++ [id] else compiled)) [] binarys.

Definition code_path (id rest : string) : string := cat ["/codes["; id; "]"; rest].

(** The two loops over [num_qualifiers_by_track_by_player]. *)
Definition add_player (id track_id : string) (q : btree (btree Z)) (entry : string * Value)
  : result ProposeError (btree (btree Z)) :=
  let '(player, count) := entry in
  let? count := ok_or (as_u128 count)
    (ProposeShape E (code_path id (cat [".block_data.num_qualifiers_by_track_by_player."; track_id; "."; player]))
       "an unsigned integer") in
  Ok (bt_entry id bt_empty (bt_entry track_id 0 (fun q => add_u128 q count)) q).
Definition add_track (id : string) (q : btree (btree Z)) (entry : string * Value) : result ProposeError (btree (btree Z)) :=
  let '(track_id, by_player) := entry in
  let? by_player := ok_or (json_as_object by_player)
    (ProposeShape E (code_path id (String.append ".block_data.num_qualifiers_by_track_by_player." track_id)) "an object") in
  foldM (add_player id track_id) q by_player.

Definition add_code (compiled : list string) (block_round : Z) (evidence : AlgorithmEvidence) (code : Value)
  : result ProposeError AlgorithmEvidence :=
  let? id := ok_or (and_then (json_get "id" code) json_as_str) (ProposeShape E "/codes[].id" "a string") in
  let? challenge_id := ok_or (and_then (json_path ["details"; "challenge_id"] code) json_as_str)
    (ProposeShape E (code_path id ".details.challenge_id") "a string") in
  let? state := ok_or (json_get "state" code) (ProposeShape E (code_path id ".state") "an object") in
  if negb (is_live_and_active state block_round) then Ok evidence
  else
    let? adoption := ok_or (and_then (and_then (json_path ["block_data"; "adoption"] code) json_as_str) parse_u128)
      (ProposeShape E (code_path id ".block_data.adoption") "a decimal string") in
    let? qualifiers :=
      match and_then (json_path ["block_data"; "num_qualifiers_by_track_by_player"] code) json_as_object with
      | None => Ok (ae_qualifiers evidence)
      | Some by_track => foldM (add_track id) (ae_qualifiers evidence) by_track
      end in
    let? banned := ok_or (and_then (json_get "banned" state) json_as_bool)
      (ProposeShape E (code_path id ".state.banned") "a boolean") in
    let algorithm := {| al_id := id; al_banned := banned;
                        al_has_successful_binary := vec_contains compiled id; al_adoption := adoption |} in
    Ok {| ae_by_challenge := bt_entry challenge_id [] (fun l => l ++ [algorithm]) (ae_by_challenge evidence);
          ae_qualifiers := qualifiers |}.

Definition algorithm_evidence (s : Snapshot) (block_round : Z) : result ProposeError AlgorithmEvidence :=
  let? body := read s E in
  let? binarys := ok_or (and_then (json_get "binarys" body) json_as_array) (ProposeShape E "/binarys" "a list") in
  let? compiled := compiled_ids binarys in
  let? codes := ok_or (and_then (json_get "codes" body) json_as_array) (ProposeShape E "/codes" "a list") in
  foldM (add_code compiled block_round) (MkEvidence bt_empty bt_empty) codes.
End algorithms.

(** ** Rates *)

Definition active_bundles_by_algorithm_by_track (active : list ActiveBenchmarkMeta) : btree (btree Z) :=
  fold_left (fun out meta =>
    match am_num_active_bundles meta with
    | None => out
    | Some bundles =>
        bt_entry (am_algorithm_id meta) bt_empty
          (bt_entry (am_track_id meta) 0 (fun q => add_u128 q bundles)) out
    end) active bt_empty.

(** [m.get(a).and_then(|t| t.get(track)).copied().unwrap_or(0)]. *)
Definition count_at (m : btree (btree Z)) (a t : string) : Z :=
  default 0 (and_then (bt_get a m) (bt_get t)).
Definition track_stats (qualifiers active_bundles : btree (btree Z)) : btree (btree TrackStats) :=
  fold_left (fun out '(algorithm, by_track) =>
    fold_left (fun out track =>
      bt_entry algorithm bt_empty
        (bt_insert track (MkTrackStats (count_at qualifiers algorithm track) (count_at active_bundles algorithm track))) out)
      (bt_keys by_track) out) (qualifiers ++ active_bundles) bt_empty.

(** ** In-flight work and the pool's own qualifiers *)

Definition stopped_ids (w : ConfirmedWindow) : list string :=
  map (fun kb => cb_benchmark_id kb.2) (List.filter (fun kb => cb_stopped kb.2) (cw_benchmarks w)).
Definition is_in_flight (w : ConfirmedWindow) (player_id : string) (p : ConfirmedPrecommit) : bool :=
  negb (vec_contains (cw_active w) (cp_benchmark_id p)) &&
  negb (vec_contains (stopped_ids w) (cp_benchmark_id p)) &&
  negb (bt_contains (cp_benchmark_id p) (cw_frauds w)) &&
  match and_then (json_get "player_id" (cp_settings p)) json_as_str with
  | Some owner => eq_ignore_ascii_case owner player_id
  | None => false
  end.
Definition in_flight_of (p : ConfirmedPrecommit) : option InFlightBenchmark :=
  match cp_num_bundles p with
  | None => None
  | Some num_bundles =>
      if num_bundles <? 0 then None
      else match and_then (json_get "challenge_id" (cp_settings p)) json_as_str,
                 and_then (json_get "algorithm_id" (cp_settings p)) json_as_str with
           | Some challenge_id, Some algorithm_id =>
               Some {| if_benchmark_id := cp_benchmark_id p; if_challenge_id := challenge_id;
                       if_algorithm_id := algorithm_id;
                       if_track_id := if String.eqb (cp_track_id p) "" then None else Some (cp_track_id p);
                       if_num_bundles := num_bundles |}
           | _, _ => None
           end
  end.
Definition in_flight (w : ConfirmedWindow) (player_id : string) : list InFlightBenchmark :=
  omap in_flight_of (List.filter (is_in_flight w player_id) (map snd (cw_precommits w))).

Section opow.
Abbreviation E := "get-opow".

Definition opow_path (owner rest : string) : string :=
  cat ["/opow["; owner; "].block_data.num_qualifiers_by_challenge_by_track."; rest].
Definition add_opow_challenge (owner : string) (out : btree (btree Z)) (entry : string * Value)
  : result ProposeError (btree (btree Z)) :=
  let '(challenge_id, by_track) := entry in
  let? by_track := ok_or (json_as_object by_track) (ProposeShape E (opow_path owner challenge_id) "an object") in
  foldM (fun out '(track_id, count) =>
           let? count := ok_or (as_u128 count)
             (ProposeShape E (opow_path owner (cat [challenge_id; "."; track_id])) "an unsigned integer") in
           Ok (bt_entry challenge_id bt_empty (bt_insert track_id count) out)) out by_track.
Definition add_opow_entry (player_id : string) (out : btree (btree Z)) (entry : Value) : result ProposeError (btree (btree Z)) :=
  let owner := default "" (and_then (json_get "player_id" entry) json_as_str) in
  if negb (eq_ignore_ascii_case owner player_id) then Ok out
  else match and_then (json_path ["block_data"; "num_qualifiers_by_challenge_by_track"] entry) json_as_object with
       | None => Ok out
       | Some by_challenge => foldM (add_opow_challenge owner) out by_challenge
       end.
Definition pool_qualifiers (s : Snapshot) (player_id : string) : result ProposeError (btree (btree Z)) :=
  let? body := read s E in
  let? entries := match json_get "opow" body with
                  | Some (JArray list) => Ok list
                  | Some (JObject m) => Ok [JObject m]
                  | _ => Err (ProposeShape E "/opow" "a list of players or one player")
                  end in
  foldM (add_opow_entry player_id) bt_empty entries.
End opow.

(** ** Sources *)

Definition source_of (meta : ActiveBenchmarkMeta) (fuel_budget : Z) : SourceBenchmark :=
  {| sb_benchmark_id := am_benchmark_id meta; sb_algorithm_id := am_algorithm_id meta;
     sb_track_id := am_track_id meta; sb_verified := true; sb_fraudulent := false;
     sb_block_confirmed := am_benchmark_block_confirmed meta;
     sb_average_quality_by_bundle := omap json_as_i64 (am_average_quality_by_bundle meta);
     sb_hyperparameters := default bt_empty (and_then (am_hyperparameters meta) json_as_object);
     sb_fuel_budget := fuel_budget |}.
Definition source_candidates (active : list ActiveBenchmarkMeta) : list SourceBenchmark :=
  omap (fun meta => match am_fuel_budget meta with Some f => Some (source_of meta f) | None => None end) active.

Record PerChallenge := MkPerChallenge { pc_algorithm : AlgorithmSelection; pc_sources : btree SourceSelection }.

Definition sources_for (selected : option string) (config : ChallengeConfig) (candidates : list SourceBenchmark)
  : btree SourceSelection :=
  match selected with
  | None => bt_empty
  | Some algorithm =>
      fold_left (fun m track => bt_insert track (select_source (MkSsi algorithm track candidates)) m)
        (bt_keys (cc_nonces_per_bundle config)) bt_empty
  end.
Definition per_challenge (c : Challenge) (config : ChallengeConfig) (algorithms : list Algorithm)
    (stats : btree (btree TrackStats)) (candidates : list SourceBenchmark) : result ProposeError PerChallenge :=
  let? algorithm := map_err PeRatio (select_algorithm (MkAsi algorithms stats (ch_active_tracks c))) in
  Ok (MkPerChallenge algorithm (sources_for (as_selected algorithm) config candidates)).

(** ** One deciding pass *)

Definition with_sources (c : Challenge) (tracks : list string) : Challenge :=
  MkChallenge (ch_id c) (ch_compute_type c) (ch_active_tracks c) (ch_network_qualifiers_by_track c) tracks.

(** The loop that fills [tracks_with_source]. *)
Definition decide_challenge (configs : btree ChallengeConfig) (evidence : AlgorithmEvidence)
    (stats : btree (btree TrackStats)) (candidates : list SourceBenchmark)
    (acc : list Challenge * btree PerChallenge) (c : Challenge) : result ProposeError (list Challenge * btree PerChallenge) :=
  match bt_get (ch_id c) configs with
  | None => Ok (fst acc ++ [c], snd acc)
  | Some config =>
      let? decided := per_challenge c config (default [] (bt_get (ch_id c) (ae_by_challenge evidence))) stats candidates in
      let tracks := map fst (List.filter (fun ts => negb (is_none (ss_source_benchmark ts.2))) (pc_sources decided)) in
      Ok (fst acc ++ [with_sources c tracks], bt_insert (ch_id c) decided (snd acc))
  end.

(** The [eligible] filter the draw is taken over. *)
Definition drawn (offered : OfferedCompute) (c : Challenge) : bool :=
  matches_challenge offered (ch_compute_type c) &&
  forallb (fun t => vec_contains (ch_tracks_with_source c) t) (ch_active_tracks c).

Definition sizing_of (offer : Offer) (config : ChallengeConfig) (decided : PerChallenge) : BundleSizingInput :=
  {| bsi_offered_compute := of_compute offer;
     bsi_min_num_bundles := cc_min_num_bundles config;
     bsi_tracks := bt_map (fun track nonces =>
       MkTrackSizing nonces (default false (bt_get track (as_selected_is_best_on_track (pc_algorithm decided)))))
       (cc_nonces_per_bundle config) |}.

Definition fee_for (config : ChallengeConfig) (num_bundles : Z) : option Z :=
  and_then (checked_mul_u u128_max (cc_per_nonce_fee config) num_bundles)
    (fun scaled => checked_add_u u128_max scaled (cc_base_fee config)).
Definition fees (challenge_id : string) (config : ChallengeConfig) (sizing : BundleSizing) : result ProposeError (btree Z) :=
  foldM (fun m '(track, num_bundles) =>
           let? fee := ok_or (fee_for config num_bundles) (FeeOverflow challenge_id track) in
           Ok (bt_insert track fee m)) bt_empty (bz_num_bundles sizing).

Definition setting_of (source : option SourceSelection) (num_bundles : Z) : Value :=
  json_object
    [("num_bundles", json_u64 num_bundles);
     ("fuel_budget", match and_then source ss_fuel_budget with Some f => json_u64 f | None => JNull end);
     ("hyperparameters", match source with Some s => JObject (bt_collect (ss_hyperparameters s)) | None => JNull end)].
Definition settings_of (decided : PerChallenge) (sizing : BundleSizing) : btree Value :=
  fold_left (fun m '(track, num_bundles) => bt_insert track (setting_of (bt_get track (pc_sources decided)) num_bundles) m)
    (bz_num_bundles sizing) bt_empty.

Section propose.
Context (blake3 : list Z -> list Z).

Definition propose (s : Snapshot) (window : ConfirmedWindow) (network : Network) (player_id : string) (offer : Offer)
    (active : list ActiveBenchmarkMeta) : result ProposeError Proposed :=
  let? round := block_round s in
  let? (listed, configs) := candidate_challenges s round in
  let? evidence := algorithm_evidence s round in
  let stats := track_stats (ae_qualifiers evidence) (active_bundles_by_algorithm_by_track active) in
  let candidates := source_candidates active in
  let? (challenges, per) := foldM (decide_challenge configs evidence stats candidates) ([], bt_empty) listed in
  let eligible_ids := map ch_id (List.filter (drawn (of_compute offer)) challenges) in
  let seed := challenge_tie_seed blake3 network (sn_block_id s) in
  let ranks := draw_ranks blake3 network (sn_block_id s) eligible_ids in
  let? pool_q := pool_qualifiers s player_id in
  let? selection := map_err PeChallenge (select_challenge
    {| csi_offered_compute := of_compute offer; csi_challenges := challenges; csi_pool_qualifiers := pool_q;
       csi_in_flight := in_flight window player_id; csi_algorithm_track_stats := stats; csi_draw_ranks := ranks |}) in
  match cs_selected selection with
  | None => Ok (NoAction selection)
  | Some selected_challenge =>
      let? config := ok_or (bt_get selected_challenge configs) (SelectedChallengeUnknown selected_challenge) in
      let? decided := ok_or (bt_get selected_challenge per) (SelectedChallengeUnknown selected_challenge) in
      let? selected_algorithm := ok_or (as_selected (pc_algorithm decided)) (SelectedAlgorithmUnknown selected_challenge) in
      let? sizing := map_err PeBundles (size_bundles (sizing_of offer config decided)) in
      let? fee_by_track := fees selected_challenge config sizing in
      Ok (ProposedPrecommit
        {| pr_selected_challenge := selected_challenge;
           pr_selected_algorithm := selected_algorithm;
           pr_compute_type := of_tig_compute_type offer;
           pr_compute_class := match cc_compute_type config with ComputeCpu => "cpu" | ComputeGpu => "gpu" end;
           pr_track_settings := JObject (settings_of decided sizing);
           pr_draw_ranks := ranks;
           pr_tie_seed := seed;
           pr_tie_candidates := cs_tie_candidates selection;
           pr_tie_winner := match cs_tie_candidates selection with Some _ => cs_selected selection | None => None end;
           pr_challenge_selection := selection;
           pr_algorithm_selection := pc_algorithm decided;
           pr_bundle_sizing := sizing;
           pr_fee_by_track := fee_by_track |})
  end.
End propose.

(** ** What a selection can name

    These hold of every input, in range or not: the loops only ever carry ids
    they were given. *)

Lemma lowest_names_factors (factors : btree Ratio) ids id :
  lowest_factor factors = Ok (Some ids) -> id ∈ ids -> id ∈ bt_keys factors.
Proof.
  unfold lowest_factor. destruct (foldM lowest_step None factors) as [best|] eqn:Hf; simpl; [|done].
  intros [= Hids]. revert ids Hids id.
  change ((fun pre b => forall l, snd <$> b = Some l -> forall i, i ∈ l -> i ∈ bt_keys pre) factors best).
  eapply foldM_prefix_ind; [| |exact Hf]; [done|].
  intros pre [k f] b b' _ IH Hs l Hl i Hi. unfold bt_keys in *. rewrite fmap_app. apply elem_of_app. simpl.
  unfold lowest_step in Hs. destruct b as [[low l0]|]; simplify_eq/=; [|by right].
  destruct (ratio_checked_cmp f low) as [[]|]; simplify_eq/=.
  - apply elem_of_app in Hi as [Hi|Hi]; [left; by eapply IH|by right].
  - by right.
  - left. by eapply IH.
Qed.

Lemma factors_name_considered pq add (cs : list Challenge) ea fs id :
  foldM (factor_one pq add) (bt_empty, bt_empty) cs = Ok (ea, fs) -> id ∈ bt_keys fs -> id ∈ map ch_id cs.
Proof.
  intros Hf Hid. cut (forall i, i ∈ bt_keys (snd (ea, fs)) -> i ∈ map ch_id cs); [intros H; by apply H|].
  eapply (foldM_prefix_ind (fun pre acc => forall i, i ∈ bt_keys (snd acc) -> i ∈ map ch_id pre)); [| |exact Hf].
  - by intros i ?%not_elem_of_nil.
  - intros pre c [ea0 fs0] [ea1 fs1] _ IH Hs i. unfold factor_one in Hs.
    destruct (projected_raw_factor_of _ _ _); simplify_eq/=. rewrite bt_keys_insert, map_app, elem_of_app. simpl.
    intros [->|Hi]; [right; by left|left; by apply IH].
Qed.

Lemma choose_names ranks lowest ties id :
  choose ranks lowest = Ok (ties, Some id) -> exists ids, lowest = Some ids /\ id ∈ ids.
Proof.
  unfold choose. destruct lowest as [[|i [|j l]]|]; try done.
  - intros [= <- <-]. exists [i]. split; [done|by left].
  - intros H. destruct (resolve_tie _ _) as [w|] eqn:Hw; simplify_eq/=. eexists. split; [done|].
    by apply resolve_tie_spec in Hw as [? _].
Qed.

Lemma selection_parts input sel :
  select_challenge input = Ok sel ->
  let E := List.filter (eligible (csi_offered_compute input)) (csi_challenges input) in
  cs_considered sel = map ch_id E /\
  (forall id, cs_selected sel = Some id -> exists c, c ∈ E /\ ch_id c = id) /\
  (forall ties, cs_tie_candidates sel = Some ties -> exists id, cs_selected sel = Some id /\ id ∈ ties).
Proof.
  unfold select_challenge. pose proof (consider_spec (csi_offered_compute input) (csi_challenges input)) as Hcons.
  destruct (consider _ _) as [ex considered]. simpl in Hcons. subst considered. set (E := List.filter _ _).
  destruct (project input) as [p|]; [|done]. destruct (foldM _ _ E) as [[ea fs]|] eqn:Hf; [|done].
  destruct (lowest_factor fs) as [lowest|] eqn:Hl; [|done].
  destruct (choose _ lowest) as [[ties picked]|] eqn:Hch; [|done]. intros [= <-]. simpl. split; [done|]. split.
  - intros id ->. destruct (choose_names _ _ _ _ Hch) as (ids & -> & Hid).
    apply (lowest_names_factors _ _ _ Hl), (factors_name_considered _ _ _ _ _ _ Hf), list_elem_of_fmap in Hid.
    destruct Hid as (c & -> & Hc). eauto.
  - intros l ->. unfold choose in Hch. destruct lowest as [[|i [|j m]]|]; simplify_eq/=.
    destruct (resolve_tie _ _) as [w|] eqn:Hw; simplify_eq/=. exists w. split; [done|].
    by apply resolve_tie_spec in Hw as [? _].
Qed.

Lemma ties_considered input sel ties id :
  select_challenge input = Ok sel -> cs_tie_candidates sel = Some ties -> id ∈ ties -> id ∈ cs_considered sel.
Proof.
  unfold select_challenge. destruct (consider _ _) as [ex E].
  destruct (project input) as [p|]; [|done]. destruct (foldM _ _ E) as [[ea fs]|] eqn:Hf; [|done].
  destruct (lowest_factor fs) as [lowest|] eqn:Hl; [|done].
  destruct (choose _ lowest) as [[t picked]|] eqn:Hch; [|done]. intros [= <-]. simpl. intros -> Hid.
  assert (lowest = Some ties) as ->.
  { unfold choose in Hch. destruct lowest as [[|i [|j m]]|]; simplify_eq/=. by destruct (resolve_tie _ _); simplify_eq/=. }
  by apply (factors_name_considered _ _ _ _ _ _ Hf), (lowest_names_factors _ _ _ Hl).
Qed.

(** The draw covers the tie: with a rank for every eligible challenge, no rank
    is missing. *)
Lemma resolve_tie_ranked tied ranks e :
  tied <> [] -> (forall id, id ∈ tied -> is_Some (bt_get id ranks)) -> resolve_tie tied ranks <> Err e.
Proof.
  intros Hne Hr. destruct (resolve_tie_total tied ranks) as [w ->]; [done| |done].
  exact Hr.
Qed.

Lemma lowest_nonempty (factors : btree Ratio) ids : lowest_factor factors = Ok (Some ids) -> ids <> [].
Proof.
  unfold lowest_factor. destruct (foldM lowest_step None factors) as [best|] eqn:Hf; simpl; [|done]. intros [= Hids].
  revert ids Hids. change ((fun b => forall l, snd <$> b = Some l -> l <> []) best).
  eapply foldM_ind; [| |exact Hf]; [done|].
  intros b [k f] b' _ IH Hs l Hl. unfold lowest_step in Hs. destruct b as [[low l0]|]; simplify_eq/=; [|done].
  destruct (ratio_checked_cmp f low) as [[]|]; simplify_eq/=; [by destruct l0|done|by eapply IH].
Qed.

Lemma no_rank_missing input id :
  (forall c, c ∈ csi_challenges input -> eligible (csi_offered_compute input) c = true ->
     is_Some (bt_get (ch_id c) (csi_draw_ranks input))) ->
  select_challenge input <> Err (MissingDrawRank id).
Proof.
  intros Hr. unfold select_challenge.
  pose proof (consider_spec (csi_offered_compute input) (csi_challenges input)) as Hcons.
  destruct (consider _ _) as [ex considered]. simpl in Hcons. subst considered.
  destruct (project input) as [p|e] eqn:Hp.
  2:{ intros [= ->]. revert Hp. unfold project. generalize projection_empty.
      induction (csi_in_flight input) as [|b l IH]; intros p; simpl; [done|].
      destruct (project_one _ p b) as [p'|e'] eqn:Hb; [apply IH|]. intros [= ->].
      revert Hb. unfold project_one, map_err. by repeat (case_match; simplify_eq/=). }
  destruct (foldM _ _ _) as [[ea fs]|e] eqn:Hf.
  2:{ intros [= ->]. revert Hf. generalize (@bt_empty Ratio, @bt_empty Ratio). induction (List.filter _ _) as [|c l IH]; intros acc; simpl; [done|].
      destruct (factor_one _ _ acc c) as [acc'|] eqn:Hc; [apply IH|]. intros [= ->]. unfold factor_one in Hc.
      destruct acc. by destruct (projected_raw_factor_of _ _ _). }
  destruct (lowest_factor fs) as [lowest|e] eqn:Hl.
  2:{ unfold lowest_factor in Hl. destruct (foldM _ _ fs); simplify_eq/=. done. }
  destruct (choose _ lowest) as [[ties picked]|e] eqn:Hch; [done|]. intros [= ->].
  unfold choose in Hch. destruct lowest as [ids|]; [|done].
  pose proof (lowest_nonempty _ _ Hl) as Hne. destruct ids as [|i [|j l]]; try done.
  destruct (resolve_tie _ _) as [w|] eqn:Hw; [done|]. revert Hw. apply resolve_tie_ranked; [done|]. intros k Hk.
  apply (lowest_names_factors _ _ _ Hl), (factors_name_considered _ _ _ _ _ _ Hf), list_elem_of_fmap in Hk.
  destruct Hk as (c & -> & Hc). apply elem_of_bfilter in Hc as [? ?]. by apply Hr.
Qed.

(** ** Reading the challenges *)

(** A loop that inserts one value per entry of a map keeps its keys. *)
Lemma foldM_inserts {E V W} (g : btree W -> string * V -> result E (btree W)) (R : string * V -> W -> Prop) m out :
  (forall acc kv acc', kv ∈ m -> g acc kv = Ok acc' -> exists w, R kv w /\ acc' = bt_insert kv.1 w acc) ->
  bt_wf m -> foldM g bt_empty m = Ok out ->
  Forall2 (fun kv kw => kw.1 = kv.1 /\ R kv kw.2) m out.
Proof.
  intros Hg Hwf. eapply (foldM_split_ind (fun pre acc => Forall2 (fun kv kw => kw.1 = kv.1 /\ R kv kw.2) pre acc)); [done|].
  intros pre [k v] post acc acc' Hm IH Hs. destruct (Hg acc (k, v) acc') as (w & Hw & ->); [|done|].
  { rewrite Hm. apply elem_of_app. right. by left. }
  simpl. rewrite bt_insert_last.
  - apply Forall2_app; [done|]. by repeat constructor.
  - intros k' Hk'. unfold bt_wf, bt_keys in Hwf. rewrite Hm, fmap_app in Hwf. simpl in Hwf.
    apply StronglySorted_app_1_elem_of with (x1 := k') (x2 := k) in Hwf; [done| |by left].
    apply list_elem_of_fmap in Hk' as ([k1 w1] & -> & Hk1). apply list_elem_of_lookup in Hk1 as [i Hi].
    destruct (Forall2_lookup_r _ _ _ _ _ IH Hi) as ([k2 v2] & Hi2 & Hk2 & _). simpl in *. subst.
    apply list_elem_of_fmap. exists (k2, v2). split; [done|]. by eapply list_elem_of_lookup_2.
Qed.
Lemma same_keys {V W} (R : string * V -> W -> Prop) (m : btree V) (out : btree W) :
  Forall2 (fun kv kw => kw.1 = kv.1 /\ R kv kw.2) m out -> bt_keys out = bt_keys m.
Proof. induction 1 as [|[k v] [k' w] m out [Hk _] _ IH]; simpl in *; [done|]. subst. unfold bt_keys in *. simpl. by f_equal. Qed.


(** Case analysis along a chain of [let?]. *)
Ltac chain H :=
  repeat match type of H with
  | context [match ok_or ?o ?e with Ok _ => _ | Err _ => _ end] =>
      let E := fresh "E" in destruct o eqn:E; cbn [ok_or] in H; [|discriminate H]
  | context [match ?r with Ok _ => _ | Err _ => _ end] =>
      let E := fresh "E" in destruct r eqn:E; [|discriminate H]
  | context [if ?b then _ else _] =>
      match type of b with bool => let E := fresh "E" in destruct b eqn:E; try discriminate H end
  end.

Lemma read_nonces_spec id (tracks : btree Value) m :
  bt_wf tracks -> (forall k x, (k, x) ∈ tracks -> json_ok x = true) -> read_nonces id tracks = Ok m ->
  bt_keys m = bt_keys tracks /\ Forall (fun kn => is_u64 kn.2 = true) m.
Proof.
  intros Hwf Hj Hm. unfold read_nonces in Hm.
  assert (Hall : Forall2 (fun kv kn => kn.1 = kv.1 /\ is_u64 kn.2 = true) tracks m).
  { eapply (foldM_inserts _ (fun _ n => is_u64 n = true)); [|exact Hwf|exact Hm].
    intros acc [t v] acc' Hin Hs. chain Hs. injection Hs as <-. eexists. split; [|done].
    apply and_then_Some in E as (x & Hx & Hz). eapply json_ok_u64; [|exact Hz].
    eapply json_ok_get; [|exact Hx]. by eapply Hj. }
  split; [by eapply (same_keys (fun _ n => is_u64 n = true))|]. clear -Hall. induction Hall as [|?? ?? [_ ?]]; by constructor.
Qed.

(** A challenge as [read_challenge] accepts it. *)
Record challenge_read (round : Z) (raw : Value) (c : Challenge) (config : ChallengeConfig) : Prop := {
  cr_id : json_get "id" raw = Some (JString (ch_id c));
  cr_live : exists state, json_get "state" raw = Some state /\ is_live_and_active state round = true;
  cr_class : ch_compute_type c = cc_compute_type config;
  cr_tracks : ch_active_tracks c = bt_keys (cc_nonces_per_bundle config);
  cr_some_track : ch_active_tracks c <> [];
  cr_wf : bt_wf (cc_nonces_per_bundle config);
  cr_nonces : Forall (fun kn => is_u64 kn.2 = true) (cc_nonces_per_bundle config);
  cr_min : is_u64 (cc_min_num_bundles config) = true;
  cr_base_fee : 0 <= cc_base_fee config;
  cr_per_nonce_fee : 0 <= cc_per_nonce_fee config;
}.

Lemma read_fee_range id config field n : read_fee id config field = Ok n -> 0 <= n.
Proof.
  unfold read_fee. intros H%ok_or_Ok. apply and_then_Some in H as (s & _ & Hs).
  pose proof (parse_unsigned_range u128_max _ _ ltac:(done) Hs). lia.
Qed.

Lemma read_challenge_spec round raw c config :
  json_ok raw = true -> read_challenge round raw = Ok (Some (c, config)) -> challenge_read round raw c config.
Proof.
  intros Hj H. unfold read_challenge in H.
  destruct (and_then (json_get "id" raw) json_as_str) as [id|] eqn:Hid; [|done]. simpl in H.
  destruct (json_get "state" raw) as [state|] eqn:Hst; [|done]. simpl in H.
  destruct (is_live_and_active state round) eqn:Hl; [|done]. simpl in H.
  destruct (json_get "config" raw) as [cfg|] eqn:Hc; [|done]. simpl in H.
  destruct (and_then (json_get "type" cfg) json_as_str) as [ty|]; [|done].
  destruct (String.eqb ty "cpu" || String.eqb ty "gpu"); [|done]. simpl in H.
  destruct (and_then (json_get "active_tracks" cfg) json_as_object) as [tracks|] eqn:Ht; [|done]. simpl in H.
  pose proof (json_ok_get _ _ _ Hj Hc) as Hcfg.
  apply and_then_Some in Ht as (tv & Htv & Htracks).
  destruct (json_ok_fields _ _ (json_ok_get _ _ _ Hcfg Htv) Htracks) as [Hwf Hx].
  destruct tracks as [|t0 tracks0]; [done|].
  generalize dependent (if String.eqb ty "cpu" then ComputeCpu else ComputeGpu). intros ct H. chain H. injection H as <- <-.
  destruct (read_nonces_spec _ _ _ Hwf Hx E) as [Hk Hn].
  constructor; simpl; try done.
  - by apply as_str_Some.
  - by exists state.
  - unfold bt_wf. by rewrite Hk.
  - apply and_then_Some in E0 as (v & Hv & Hz). exact (json_ok_u64 _ _ (json_ok_get _ _ _ Hcfg Hv) Hz).
  - exact (read_fee_range _ _ _ _ E2).
  - exact (read_fee_range _ _ _ _ E3).
Qed.

(** The block's challenges, and the two maps the pass keeps of them. *)
Definition listed_challenges (s : Snapshot) : list Value :=
  default [] (and_then (and_then (bt_get "get-challenges" (sn_reads s)) (json_get "challenges")) json_as_array).

Record challenges_ok (round : Z) (raws : list Value) (listed : list Challenge) (configs : btree ChallengeConfig) : Prop := {
  co_listed : forall c, c ∈ listed -> is_Some (bt_get (ch_id c) configs) /\
    exists raw config, raw ∈ raws /\ challenge_read round raw c config;
  co_configs : forall id config, bt_get id configs = Some config -> exists raw c,
    raw ∈ raws /\ c ∈ listed /\ ch_id c = id /\ challenge_read round raw c config;
}.

Lemma candidate_challenges_spec s round listed configs :
  Forall (fun v => json_ok v = true) (listed_challenges s) ->
  candidate_challenges s round = Ok (listed, configs) ->
  challenges_ok round (listed_challenges s) listed configs.
Proof.
  unfold candidate_challenges, listed_challenges, read. intros Hj H.
  destruct (bt_get "get-challenges" (sn_reads s)) as [body|]; [|done]. simpl in *.
  destruct (and_then (json_get "challenges" body) json_as_array) as [raws|]; [|done]. simpl in *.
  cut (challenges_ok round raws (fst (listed, configs)) (snd (listed, configs))); [done|].
  rewrite Forall_forall in Hj.
  eapply (foldM_ind (fun acc => challenges_ok round raws (fst acc) (snd acc))); [| |exact H].
  - split; simpl; [|done]. by intros c ?%not_elem_of_nil.
  - intros [l m] raw [l' m'] Hraw [H1 H2] Hs. unfold add_challenge in Hs.
    destruct (read_challenge round raw) as [[[c config]|]|] eqn:Hr; simplify_eq/=; [|by split].
    apply read_challenge_spec in Hr; [|by apply Hj]. split.
    + intros d [Hd| ->%list_elem_of_singleton]%elem_of_app.
      * destruct (H1 d Hd) as [Hm ?]. split; [|done]. rewrite bt_get_insert. by case_decide.
      * rewrite bt_get_insert_eq. split; [done|]. by exists raw, config.
    + intros id cf. rewrite bt_get_insert. case_decide as Hid; intros Hg; simplify_eq.
      * exists raw, c. split; [done|]. split; [apply elem_of_app; right; by left|done].
      * destruct (H2 _ _ Hg) as (raw' & c' & ? & ? & ? & ?). exists raw', c'. split; [done|].
        split; [apply elem_of_app; by left|done].
Qed.

(** ** Deciding per challenge *)

Section decided.
Context (round : Z) (raws : list Value) (listed : list Challenge) (configs : btree ChallengeConfig).
Context (evidence : AlgorithmEvidence) (stats : btree (btree TrackStats)) (candidates : list SourceBenchmark).
Hypothesis (Hok : challenges_ok round raws listed configs).

Definition algorithms_of (id : string) : list Algorithm := default [] (bt_get id (ae_by_challenge evidence)).
Definition sourced_tracks (decided : PerChallenge) : list string :=
  map fst (List.filter (fun ts => negb (is_none (ss_source_benchmark ts.2))) (pc_sources decided)).

Definition decision_of (c : Challenge) (config : ChallengeConfig) (decided : PerChallenge) : Prop :=
  bt_get (ch_id c) configs = Some config /\
  per_challenge c config (algorithms_of (ch_id c)) stats candidates = Ok decided.

Record decided_ok (pre : list Challenge) (acc : list Challenge * btree PerChallenge) : Prop := {
  do_ids : map ch_id (fst acc) = map ch_id pre;
  do_challenges : forall d, d ∈ fst acc -> exists c config decided,
    c ∈ pre /\ decision_of c config decided /\ d = with_sources c (sourced_tracks decided);
  do_per : forall id decided, bt_get id (snd acc) = Some decided -> exists c config,
    c ∈ pre /\ ch_id c = id /\ decision_of c config decided;
  do_all : forall c, c ∈ pre -> is_Some (bt_get (ch_id c) (snd acc));
}.

Lemma decided_spec challenges per :
  foldM (decide_challenge configs evidence stats candidates) ([], bt_empty) listed = Ok (challenges, per) ->
  decided_ok listed (challenges, per).
Proof.
  eapply (foldM_prefix_ind decided_ok).
  - split; simpl; try done; by intros ? ?%not_elem_of_nil.
  - intros pre c [l m] [l' m'] Hc [H1 H2 H3 H4] Hs. unfold decide_challenge in Hs. simpl in *.
    destruct (co_listed _ _ _ _ Hok c Hc) as [[config Hcf] _]. rewrite Hcf in Hs. fold (algorithms_of (ch_id c)) in Hs.
    destruct (per_challenge _ _ _ _ _) as [decided|] eqn:Hp; simplify_eq/=. split; simpl.
    + rewrite !map_app, H1. done.
    + intros d [Hd| ->%list_elem_of_singleton]%elem_of_app.
      * destruct (H2 d Hd) as (c' & ? & ? & ? & ? & ?). exists c'. do 2 eexists. split; [apply elem_of_app; by left|done].
      * exists c, config, decided. split; [apply elem_of_app; right; by left|done].
    + intros id x. rewrite bt_get_insert. case_decide as Hid; intros Hg; simplify_eq.
      * exists c, config. split; [apply elem_of_app; right; by left|done].
      * destruct (H3 _ _ Hg) as (c' & cf & ? & ? & ?). exists c', cf. split; [apply elem_of_app; by left|done].
    + intros d [Hd| ->%list_elem_of_singleton]%elem_of_app; rewrite bt_get_insert; case_decide; try done. by apply H4.
Qed.

(** The algorithm depends on the challenge's id alone. *)
Lemma algorithm_by_id c config decided c' config' decided' :
  decision_of c config decided -> decision_of c' config' decided' -> ch_id c = ch_id c' ->
  as_selected (pc_algorithm decided) = as_selected (pc_algorithm decided').
Proof.
  intros [_ H] [_ H'] Hid. rewrite Hid in H. unfold per_challenge, map_err, select_algorithm in *. simpl in *.
  destruct (track_rates _ _ (ch_active_tracks c)) as [[[??]?]|]; [|done].
  destruct (track_rates _ _ (ch_active_tracks c')) as [[[??]?]|]; [|done]. by simplify_eq/=.
Qed.

Lemma no_algorithm_no_source c config decided :
  decision_of c config decided -> as_selected (pc_algorithm decided) = None -> sourced_tracks decided = [].
Proof.
  intros [_ H] Hn. unfold per_challenge, map_err in H. destruct (select_algorithm _) as [a|]; simplify_eq/=.
  unfold sourced_tracks. simpl. by rewrite Hn.
Qed.
End decided.

Lemma eligible_is_drawn o c : eligible o c = drawn o c.
Proof.
  apply eq_bool_prop_intro. rewrite !Is_true_true, eligible_spec. unfold drawn, vec_contains.
  rewrite andb_true_iff, forallb_forall. setoid_rewrite bool_decide_eq_true. setoid_rewrite list_elem_of_In. done.
Qed.

Lemma draw_covers blake3 network block ids id : id ∈ bt_keys (draw_ranks blake3 network block ids) <-> id ∈ ids.
Proof.
  unfold draw_ranks. rewrite bt_collect_keys, <- list_fmap_compose. simpl.
  by rewrite (list_fmap_ext _ Datatypes.id), list_fmap_id.
Qed.

(** ** Which errors the stages before the selection give *)

Definition read_error (e : ProposeError) : bool :=
  match e with MissingRead _ | ProposeShape _ _ _ | PeRatio _ => true | _ => false end.
Definition fails_reading {A} (r : result ProposeError A) : Prop :=
  match r with Ok _ => True | Err e => read_error e = true end.

Lemma fr_ok_or {A} (o : option A) e : read_error e = true -> fails_reading (ok_or o e).
Proof. by destruct o. Qed.
Lemma fr_Ok {A} (a : A) : fails_reading (Ok a).
Proof. done. Qed.
Lemma fr_bind {A B} (r : result ProposeError A) (f : A -> result ProposeError B) :
  fails_reading r -> (forall a, fails_reading (f a)) -> fails_reading (match r with Ok a => f a | Err e => Err e end).
Proof. by destruct r. Qed.
Lemma fr_foldM {A B} (f : B -> A -> result ProposeError B) l acc :
  (forall b a, fails_reading (f b a)) -> fails_reading (foldM f acc l).
Proof.
  intros Hf. revert acc. induction l as [|a l IH]; intros acc; simpl; [done|]. apply fr_bind; [apply Hf|apply IH].
Qed.

(** One stage: its binds, its loops and its cases. *)
Ltac reading :=
  repeat first
    [ apply fr_Ok | apply fr_ok_or; reflexivity | apply fr_bind; [|intros ?] | apply fr_foldM; intros ? ?
    | done | case_match | progress simpl ].

Lemma block_round_reads s : fails_reading (block_round s).
Proof. unfold block_round. reading. Qed.
Lemma read_challenge_reads round raw : fails_reading (read_challenge round raw).
Proof. unfold read_challenge, read_nonces, read_network_qualifiers, read_fee. reading. Qed.
Lemma candidate_challenges_reads s round : fails_reading (candidate_challenges s round).
Proof.
  unfold candidate_challenges, read. do 2 (apply fr_bind; [reading|intros ?]). apply fr_foldM. intros acc raw.
  unfold add_challenge. apply fr_bind; [apply read_challenge_reads|]. intros [[]|]; reading.
Qed.
Lemma algorithm_evidence_reads s round : fails_reading (algorithm_evidence s round).
Proof. unfold algorithm_evidence, read, compiled_ids, add_code, add_track, add_player. reading. Qed.
Lemma pool_qualifiers_reads s player_id : fails_reading (pool_qualifiers s player_id).
Proof. unfold pool_qualifiers, read, add_opow_entry, add_opow_challenge. reading. Qed.
Lemma decide_challenge_reads configs evidence stats candidates acc c :
  fails_reading (decide_challenge configs evidence stats candidates acc c).
Proof.
  unfold decide_challenge, per_challenge. destruct (bt_get _ configs); [|done]. apply fr_bind; [|reading].
  by destruct (select_algorithm _).
Qed.

Lemma bt_collect_elem {V} (l : list (string * V)) kv : kv ∈ bt_collect l -> kv ∈ l.
Proof.
  unfold bt_collect. assert (forall m, kv ∈ fold_left (fun m kv => bt_insert kv.1 kv.2 m) l m -> kv ∈ l \/ kv ∈ m) as H.
  - induction l as [|[k v] l IH]; intros m; simpl; [by right|]. intros [Hl|Hm]%IH; [left; by right|].
    destruct kv as [k' v']. apply bt_elem_insert in Hm as [[-> ->]|]; [left; by left|by right].
  - intros Hin. by destruct (H _ Hin) as [|?%not_elem_of_nil].
Qed.

(** ** One pass, opened *)

Section pass.
Context (blake3 : list Z -> list Z) (s : Snapshot) (window : ConfirmedWindow) (network : Network) (player_id : string).
Context (offer : Offer) (active : list ActiveBenchmarkMeta).

Definition pass_stats (evidence : AlgorithmEvidence) : btree (btree TrackStats) :=
  track_stats (ae_qualifiers evidence) (active_bundles_by_algorithm_by_track active).
Definition pass_ranks (challenges : list Challenge) : btree DrawRank :=
  draw_ranks blake3 network (sn_block_id s) (map ch_id (List.filter (drawn (of_compute offer)) challenges)).
Definition pass_input (evidence : AlgorithmEvidence) (challenges : list Challenge) (pool_q : btree (btree Z))
  : ChallengeSelectionInput :=
  {| csi_offered_compute := of_compute offer; csi_challenges := challenges; csi_pool_qualifiers := pool_q;
     csi_in_flight := in_flight window player_id; csi_algorithm_track_stats := pass_stats evidence;
     csi_draw_ranks := pass_ranks challenges |}.

Record pass_to (round : Z) (listed : list Challenge) (configs : btree ChallengeConfig) (evidence : AlgorithmEvidence)
    (challenges : list Challenge) (per : btree PerChallenge) (pool_q : btree (btree Z)) : Prop := {
  pt_round : block_round s = Ok round;
  pt_listed : candidate_challenges s round = Ok (listed, configs);
  pt_evidence : algorithm_evidence s round = Ok evidence;
  pt_decided : foldM (decide_challenge configs evidence (pass_stats evidence) (source_candidates active)) ([], bt_empty) listed
    = Ok (challenges, per);
  pt_pool : pool_qualifiers s player_id = Ok pool_q;
}.

Lemma propose_inv r :
  propose blake3 s window network player_id offer active = r ->
  (exists e, r = Err e /\ read_error e = true) \/
  exists round listed configs evidence challenges per pool_q, pass_to round listed configs evidence challenges per pool_q /\
  match select_challenge (pass_input evidence challenges pool_q) with
  | Err e => r = Err (PeChallenge e)
  | Ok selection =>
      match cs_selected selection with
      | None => r = Ok (NoAction selection)
      | Some id => r =
          let? config := ok_or (bt_get id configs) (SelectedChallengeUnknown id) in
          let? decided := ok_or (bt_get id per) (SelectedChallengeUnknown id) in
          let? selected_algorithm := ok_or (as_selected (pc_algorithm decided)) (SelectedAlgorithmUnknown id) in
          let? sizing := map_err PeBundles (size_bundles (sizing_of offer config decided)) in
          let? fee_by_track := fees id config sizing in
          Ok (ProposedPrecommit
            {| pr_selected_challenge := id; pr_selected_algorithm := selected_algorithm;
               pr_compute_type := of_tig_compute_type offer;
               pr_compute_class := match cc_compute_type config with ComputeCpu => "cpu" | ComputeGpu => "gpu" end;
               pr_track_settings := JObject (settings_of decided sizing);
               pr_draw_ranks := pass_ranks challenges;
               pr_tie_seed := challenge_tie_seed blake3 network (sn_block_id s);
               pr_tie_candidates := cs_tie_candidates selection;
               pr_tie_winner := match cs_tie_candidates selection with Some _ => Some id | None => None end;
               pr_challenge_selection := selection; pr_algorithm_selection := pc_algorithm decided;
               pr_bundle_sizing := sizing; pr_fee_by_track := fee_by_track |})
      end
  end.
Proof.
  intros <-. unfold propose.
  pose proof (block_round_reads s). destruct (block_round s) as [round|e] eqn:E1; [|left; by exists e].
  pose proof (candidate_challenges_reads s round). destruct (candidate_challenges s round) as [[listed configs]|e] eqn:E2; [|left; by exists e].
  pose proof (algorithm_evidence_reads s round). destruct (algorithm_evidence s round) as [evidence|e] eqn:E3; [|left; by exists e].
  fold (pass_stats evidence).
  assert (Hd : fails_reading (foldM (decide_challenge configs evidence (pass_stats evidence) (source_candidates active)) ([], bt_empty) listed))
    by (apply fr_foldM; intros; apply decide_challenge_reads).
  destruct (foldM _ _ listed) as [[challenges per]|e] eqn:E4; [|left; by exists e].
  pose proof (pool_qualifiers_reads s player_id). destruct (pool_qualifiers s player_id) as [pool_q|e] eqn:E5; [|left; by exists e].
  right. exists round, listed, configs, evidence, challenges, per, pool_q. split; [done|].
  fold (pass_ranks challenges) (pass_input evidence challenges pool_q).
  destruct (select_challenge _) as [selection|]; [|done]. simpl. by destruct (cs_selected selection) as [id|].
Qed.
End pass.

(** ** Sizes, fees, sources and settings *)

Lemma fold_insert_map {V W} (f : string -> V -> W) (m : btree V) : bt_wf m ->
  fold_left (fun acc '(k, v) => bt_insert k (f k v) acc) m bt_empty = bt_map f m.
Proof.
  intros Hwf. rewrite <- (bt_collect_id (bt_map f m)) by (by apply bt_map_wf). unfold bt_collect, bt_map.
  generalize (@bt_empty W). induction m as [|[k v] m IH]; intros acc; simpl; [done|]. apply IH. by inversion Hwf.
Qed.

Record sized (input : BundleSizingInput) (pre : btree TrackSizing) (out : BundleSizing) : Prop := {
  sz_wf : bt_wf (bz_num_bundles out);
  sz_keys : forall t, t ∈ bt_keys (bz_num_bundles out) <-> t ∈ bt_keys pre;
  sz_range : forall t n, bt_get t (bz_num_bundles out) = Some n -> bsi_min_num_bundles input <= n <= u64_max;
}.
Lemma size_bundles_sized input out : bsi_ok input -> size_bundles input = Ok out -> sized input (bsi_tracks input) out.
Proof.
  intros Hok H. pose proof Hok as (_ & Hmin & Htr). unfold in_unsigned in Hmin. bool_prop.
  unfold size_bundles in H. eapply (foldM_prefix_ind (sized input)); [| |exact H].
  { split; simpl; [apply bt_wf_empty|done|done]. }
  intros pre [t tr] b b' Hin [Hwf Hk Hr] Hs.
  assert (exists n, bz_num_bundles b' = bt_insert t n (bz_num_bundles b) /\ bsi_min_num_bundles input <= n <= u64_max)
    as (n & E & Hn).
  { unfold size_track in Hs. destruct (aligned_cores _ tr) as [cores|] eqn:Hc; [|injection Hs as <-; simpl; eexists; split; [done|lia]].
    pose proof (aligned_cores_range _ _ _ Hok Hc). rewrite Forall_forall in Htr. specialize (Htr _ Hin).
    unfold in_unsigned in Htr. simpl in Htr. bool_prop. destruct (Z.eqb_spec cores 0); [done|].
    destruct (sized_least cores (tz_num_nonces_per_bundle tr) (bsi_min_num_bundles input)) as [_ [Hle _]]; [lia..|].
    destruct (checked_mul_u _ _ _) as [k|] eqn:Hm; simplify_eq/=. apply checked_mul_Ok in Hm as [-> ?]. eexists. split; [done|]. by split. }
  split; rewrite ?E.
  - by apply bt_insert_wf.
  - intros t'. rewrite bt_keys_insert, Hk. unfold bt_keys. rewrite fmap_app, elem_of_app. simpl.
    rewrite list_elem_of_singleton. tauto.
  - intros t' m. rewrite bt_get_insert. case_decide; intros; simplify_eq; [done|by eapply Hr].
Qed.

Lemma fees_spec id config sizing m t n :
  0 <= cc_base_fee config -> 0 <= cc_per_nonce_fee config -> 0 <= n ->
  bt_wf (bz_num_bundles sizing) -> fees id config sizing = Ok m -> bt_get t (bz_num_bundles sizing) = Some n ->
  bt_get t m = Some (cc_base_fee config + cc_per_nonce_fee config * n) /\
  cc_base_fee config + cc_per_nonce_fee config * n <= u128_max.
Proof.
  intros Hb Hp Hn Hwf Hf Ht. unfold fees in Hf.
  assert (Hall : Forall2 (fun kv kw => kw.1 = kv.1 /\ fee_for config kv.2 = Some kw.2) (bz_num_bundles sizing) m).
  { eapply (foldM_inserts _ (fun kv w => fee_for config kv.2 = Some w)); [|exact Hwf|exact Hf].
    intros acc [k v] acc' _ Hs. chain Hs. injection Hs as <-. eauto. }
  apply bt_get_elem, list_elem_of_lookup in Ht as [i Hi].
  destruct (Forall2_lookup_l _ _ _ _ _ Hall Hi) as ([k w] & Hw & E & Hfee). simpl in *. subst k.
  assert (w = cc_base_fee config + cc_per_nonce_fee config * n /\ w <= u128_max) as [-> ?].
  { unfold fee_for, checked_mul_u, checked_add_u in Hfee. simpl in Hfee. repeat (case_match; simplify_eq/=). bool_prop. lia. }
  split; [|done]. apply bt_elem_get; [|by eapply list_elem_of_lookup_2].
  unfold bt_wf. rewrite (same_keys (fun kv w => fee_for config kv.2 = Some w) _ _ Hall). exact Hwf.
Qed.

Lemma sources_for_spec selected config candidates t :
  bt_get t (sources_for selected config candidates) =
    match selected with
    | Some a => if decide (t ∈ bt_keys (cc_nonces_per_bundle config)) then Some (select_source (MkSsi a t candidates)) else None
    | None => None
    end.
Proof.
  unfold sources_for. destruct selected as [a|]; [|done].
  assert (forall ks m, bt_get t (fold_left (fun m track => bt_insert track (select_source (MkSsi a track candidates)) m) ks m) =
    if decide (t ∈ ks) then Some (select_source (MkSsi a t candidates)) else bt_get t m) as ->.
  2:{ by case_decide. }
  induction ks as [|k ks IH]; intros m; simpl; [done|]. rewrite IH, bt_get_insert.
  destruct (decide (t ∈ ks)), (decide (t ∈ k :: ks)) as [Hc|Hc]; rewrite elem_of_cons in Hc; try naive_solver.
  - destruct Hc as [->|]; [|done]. by rewrite decide_True.
  - case_decide; [naive_solver|done].
Qed.
Lemma sources_for_wf selected config candidates : bt_wf (sources_for selected config candidates).
Proof.
  unfold sources_for. destruct selected as [a|]; [|apply bt_wf_empty].
  assert (forall ks m, bt_wf m -> bt_wf (fold_left (fun m track => bt_insert track (select_source (MkSsi a track candidates)) m) ks m)) as H;
    [|apply H, bt_wf_empty].
  induction ks as [|k ks IH]; intros m Hm; simpl; [done|]. by apply IH, bt_insert_wf.
Qed.

(** The settings copied for a track are an active benchmark's own. *)
Definition copied_from (active : list ActiveBenchmarkMeta) (algorithm track : string) (ts : TrackSettings) : Prop :=
  exists meta, meta ∈ active /\ am_algorithm_id meta = algorithm /\ am_track_id meta = track /\
    am_fuel_budget meta = Some (ts_fuel_budget ts) /\
    ts_hyperparameters ts = default bt_empty (and_then (am_hyperparameters meta) json_as_object).

Lemma source_copied active algorithm track :
  ss_source_benchmark (select_source (MkSsi algorithm track (source_candidates active))) <> None ->
  exists fuel, ss_fuel_budget (select_source (MkSsi algorithm track (source_candidates active))) = Some fuel /\
  forall n, copied_from active algorithm track
    (MkTrackSettings n fuel (ss_hyperparameters (select_source (MkSsi algorithm track (source_candidates active))))).
Proof.
  intros Hs. destruct (select_source_cases (MkSsi algorithm track (source_candidates active)))
    as [(_ & E & _)|(b & q & Hb & _ & _ & _ & -> & ->)]; [done|].
  eexists. split; [done|]. intros n. apply source_loop_candidates in Hb as (Hb & Ha & Ht & _). simpl in *.
  unfold source_candidates in Hb. apply list_elem_of_omap in Hb as (meta & Hm & E).
  destruct (am_fuel_budget meta) as [f|] eqn:Hf; [|done]. injection E as <-. exists meta. done.
Qed.

Lemma selected_is_candidate input sel id :
  select_algorithm input = Ok sel -> as_selected sel = Some id ->
  exists a, a ∈ asi_algorithms input /\ is_candidate a = true /\ al_id a = id.
Proof.
  unfold select_algorithm. destruct (filter_algorithms_spec (asi_algorithms input)) as [-> ->].
  destruct (track_rates _ _ _) as [[[rates best] ties]|]; [|done]. intros [= <-]. simpl.
  destruct (max_list _) as [h|] eqn:Hm; [|done].
  destruct (first_of_highest _ _ (sort_by_sorted by_id by_id_total by_id_trans _) Hm) as (a & tied & -> & Ha & _).
  intros [= <-]. apply elem_of_sort_by, elem_of_bfilter in Ha as [? ?]. by exists a.
Qed.

(** The failures of the last two stages. *)
Lemma foldM_Err {E A B} (f : B -> A -> result E B) l acc e :
  foldM f acc l = Err e -> exists b a, a ∈ l /\ f b a = Err e.
Proof.
  revert acc. induction l as [|a l IH]; intros acc; simpl; [done|]. destruct (f acc a) as [b|] eqn:Hf.
  - intros H. destruct (IH _ H) as (b' & a' & ? & ?). exists b', a'. split; [by right|done].
  - intros [= ->]. exists acc, a. split; [by left|done].
Qed.
Lemma zero_cores input : size_bundles input = Err ZeroCores -> bsi_offered_compute input = OfferedCpu 0.
Proof.
  intros H. apply foldM_Err in H as (b & [t tr] & _ & H). unfold size_track, aligned_cores in H.
  destruct (bsi_offered_compute input) as [cores|]; [|done]. destruct (tz_selected_algorithm_best_on_track tr); [|done].
  destruct (Z.eqb_spec cores 0) as [E|]; [by rewrite E|]. by destruct (checked_mul_u _ _ _).
Qed.
Lemma fees_overflow id config sizing e : 0 <= cc_base_fee config -> 0 <= cc_per_nonce_fee config ->
  (forall t n, (t, n) ∈ bz_num_bundles sizing -> 0 <= n) -> fees id config sizing = Err e ->
  exists t n, e = FeeOverflow id t /\ (t, n) ∈ bz_num_bundles sizing /\
    u128_max < cc_base_fee config + cc_per_nonce_fee config * n.
Proof.
  intros Hb Hp Hn H. apply foldM_Err in H as (b & [t n] & Hin & H). pose proof (Hn t n Hin).
  destruct (fee_for config n) eqn:Hf; [done|]. injection H as <-. exists t, n. split; [done|]. split; [done|].
  unfold fee_for, checked_mul_u, checked_add_u in Hf. repeat (case_match; simplify_eq/=); bool_prop; nia.
Qed.

(** ** The selected challenge *)

(** The inputs as Rust can hold them: documents from serde_json, a [u64] core
    count, and a challenge listed once. *)
Record inputs_ok (s : Snapshot) (offer : Offer) (active : list ActiveBenchmarkMeta) : Prop := {
  io_challenges : Forall (fun v => json_ok v = true) (listed_challenges s);
  io_once : NoDup (map (json_get "id") (listed_challenges s));
  io_cores : offered_cores_ok (of_compute offer) = true;
  io_active : Forall (fun m => forall h, am_hyperparameters m = Some h -> json_ok h = true) active;
}.

Lemma listed_once s round listed configs :
  Forall (fun v => json_ok v = true) (listed_challenges s) ->
  NoDup (map (json_get "id") (listed_challenges s)) ->
  candidate_challenges s round = Ok (listed, configs) -> NoDup (map ch_id listed).
Proof.
  unfold candidate_challenges, listed_challenges, read. intros Hj Hnd H.
  destruct (bt_get "get-challenges" (sn_reads s)) as [body|]; [|done]. simpl in *.
  destruct (and_then (json_get "challenges" body) json_as_array) as [raws|]; [|done]. simpl in *.
  rewrite Forall_forall in Hj.
  assert (Hsub : map (fun c => Some (JString (ch_id c))) (fst (listed, configs)) `sublist_of` map (json_get "id") raws).
  { eapply (foldM_prefix_ind (fun pre acc => map (fun c => Some (JString (ch_id c))) (fst acc) `sublist_of` map (json_get "id") pre));
      [| |exact H]; [done|].
    intros pre raw [l m] [l' m'] Hraw IH Hs. unfold add_challenge in Hs. simpl in *.
    destruct (read_challenge round raw) as [[[c config]|]|] eqn:Hr; simplify_eq/=; rewrite !map_app.
    - apply sublist_app; [done|]. apply read_challenge_spec in Hr; [|by apply Hj]. simpl. by rewrite (cr_id _ _ _ _ Hr).
    - by apply sublist_inserts_r. }
  eapply sublist_NoDup in Hsub; [|exact Hnd]. simpl in Hsub.
  apply (NoDup_fmap_1 (fun id => Some (JString id))). by rewrite <- list_fmap_compose.
Qed.

Section selected.
Context (blake3 : list Z -> list Z) (s : Snapshot) (window : ConfirmedWindow) (network : Network) (player_id : string).
Context (offer : Offer) (active : list ActiveBenchmarkMeta).
Context (round : Z) (listed : list Challenge) (configs : btree ChallengeConfig) (evidence : AlgorithmEvidence).
Context (challenges : list Challenge) (per : btree PerChallenge) (pool_q : btree (btree Z)) (selection : ChallengeSelection).
Hypothesis (Hj : Forall (fun v => json_ok v = true) (listed_challenges s)).
Hypothesis (Hpass : pass_to s player_id active round listed configs evidence challenges per pool_q).
Hypothesis (Hsel : select_challenge (pass_input blake3 s window network player_id offer active evidence challenges pool_q) = Ok selection).

Let Hlisted : challenges_ok round (listed_challenges s) listed configs :=
  candidate_challenges_spec s round listed configs Hj (pt_listed _ _ _ _ _ _ _ _ _ _ Hpass).
Let Hdecided : decided_ok configs evidence (pass_stats active evidence) (source_candidates active) listed (challenges, per) :=
  decided_spec _ _ _ _ _ _ _ Hlisted _ _ (pt_decided _ _ _ _ _ _ _ _ _ _ Hpass).

(** The selected id names a listed challenge, compatible with the offer, decided
    with an algorithm and with a source on each of its tracks. *)
Lemma selected_decided id : cs_selected selection = Some id ->
  exists c config decided, c ∈ listed /\ ch_id c = id /\
    decision_of configs evidence (pass_stats active evidence) (source_candidates active) c config decided /\
    matches_challenge (of_compute offer) (ch_compute_type c) = true /\
    (forall t, t ∈ ch_active_tracks c -> t ∈ sourced_tracks decided) /\
    is_Some (as_selected (pc_algorithm decided)).
Proof.
  intros Hid. destruct (selection_parts _ _ Hsel) as (_ & Hs & _). simpl in Hs.
  destruct (Hs id Hid) as (d & Hd & <-). apply elem_of_bfilter in Hd as [Hd He].
  destruct (do_challenges _ _ _ _ _ _ Hdecided d Hd) as (c & config & decided & Hc & Hdec & ->).
  apply eligible_spec in He as [Hm Ht]. simpl in *. exists c, config, decided. do 5 (split; [done|]).
  destruct (as_selected (pc_algorithm decided)) eqn:Ha; [done|].
  rewrite (no_algorithm_no_source _ _ _ _ _ _ _ Hdec Ha) in Ht.
  destruct (co_listed _ _ _ _ Hlisted c Hc) as (_ & raw & cf & _ & Hr). pose proof (cr_some_track _ _ _ _ Hr).
  destruct (ch_active_tracks c) as [|t l]; [done|].
  exfalso. apply (not_elem_of_nil t), Ht. by left.
Qed.

Lemma selected_known id : cs_selected selection = Some id ->
  exists config decided algorithm, bt_get id configs = Some config /\ bt_get id per = Some decided /\
    as_selected (pc_algorithm decided) = Some algorithm.
Proof.
  intros Hid. destruct (selected_decided id Hid) as (c & config & decided & Hc & <- & Hdec & _ & _ & [a Ha]).
  destruct (do_all _ _ _ _ _ _ Hdecided c Hc) as [decided' Hp]. simpl in Hp. exists config, decided', a.
  split; [apply Hdec|]. split; [done|].
  destruct (do_per _ _ _ _ _ _ Hdecided _ _ Hp) as (c' & config' & _ & E & Hdec').
  rewrite <- Ha. by eapply algorithm_by_id.
Qed.

Lemma ranks_complete id : select_challenge (pass_input blake3 s window network player_id offer active evidence challenges pool_q)
  <> Err (MissingDrawRank id).
Proof.
  apply no_rank_missing. simpl. intros c Hc He. apply bt_get_is_Some. unfold pass_ranks. rewrite draw_covers.
  apply list_elem_of_fmap. exists c. split; [done|]. rewrite eligible_is_drawn in He. by apply elem_of_bfilter.
Qed.

(** With each challenge listed once, the decision that made the challenge
    eligible is the one the proposal is built from. *)
Lemma selected_unique id c config decided config' decided' : NoDup (map ch_id listed) ->
  c ∈ listed -> ch_id c = id ->
  decision_of configs evidence (pass_stats active evidence) (source_candidates active) c config decided ->
  bt_get id configs = Some config' -> bt_get id per = Some decided' ->
  config' = config /\ decided' = decided /\ exists raw, raw ∈ listed_challenges s /\ challenge_read round raw c config.
Proof.
  intros Hnd Hc <- Hdec Hcf Hp. destruct Hdec as [Hcf' Hpc]. rewrite Hcf in Hcf'. injection Hcf' as ->. split; [done|]. split.
  - destruct (do_per _ _ _ _ _ _ Hdecided _ _ Hp) as (c2 & cf2 & Hc2 & Hid2 & Hcf2 & Hpc2).
    rewrite (NoDup_map_inj ch_id _ c2 c Hnd Hc2 Hc Hid2) in *. rewrite Hcf in Hcf2. injection Hcf2 as <-. congruence.
  - destruct (co_configs _ _ _ _ Hlisted _ _ Hcf) as (raw & c3 & Hraw & Hc3 & Hid3 & Hr).
    rewrite (NoDup_map_inj ch_id _ c3 c Hnd Hc3 Hc Hid3) in *. by exists raw.
Qed.
End selected.

(** The submission an admission builds from a proposal. *)
Definition payload_of (s : Snapshot) (p : Proposal) : DecisionPayloadInputs :=
  MkPayloadInputs (sn_block_id s) (pr_selected_challenge p) (pr_selected_algorithm p) (pr_compute_type p) (pr_track_settings p).

(** The submission's settings, before they are rendered. *)
Definition submitted (decided : PerChallenge) (sizing : BundleSizing) : btree TrackSettings :=
  bt_map (fun t n => match bt_get t (pc_sources decided) with
                     | Some src => MkTrackSettings n (default 0 (ss_fuel_budget src)) (ss_hyperparameters src)
                     | None => MkTrackSettings n 0 bt_empty
                     end) (bz_num_bundles sizing).

Definition well_sourced (decided : PerChallenge) (t : string) : Prop :=
  exists src fuel, bt_get t (pc_sources decided) = Some src /\ ss_fuel_budget src = Some fuel /\ bt_wf (ss_hyperparameters src).

Lemma settings_rendered decided sizing :
  bt_wf (bz_num_bundles sizing) -> (forall t, t ∈ bt_keys (bz_num_bundles sizing) -> well_sourced decided t) ->
  settings_of decided sizing = bt_map (fun _ => track_body) (submitted decided sizing) /\
  Forall (fun kv => bt_wf (ts_hyperparameters kv.2)) (submitted decided sizing).
Proof.
  intros Hwf Hs. unfold settings_of. rewrite fold_insert_map by done. unfold submitted, bt_map. rewrite map_map.
  split; [apply map_ext_in|]; [|apply Forall_fmap, Forall_forall].
  - intros [t n] Hin%list_elem_of_In. destruct (Hs t) as (src & fuel & Hsrc & Hf & _).
    { apply list_elem_of_fmap. by exists (t, n). }
    simpl. rewrite Hsrc. unfold setting_of. simpl. by rewrite Hf.
  - intros [t n] Hin. destruct (Hs t) as (src & fuel & Hsrc & _ & Hh).
    { apply list_elem_of_fmap. by exists (t, n). }
    simpl. by rewrite Hsrc.
Qed.

(** The rendered settings are read back as they were. *)
Lemma settings_read_back decided sizing :
  bt_wf (bz_num_bundles sizing) -> (forall t, t ∈ bt_keys (bz_num_bundles sizing) -> well_sourced decided t) ->
  foldM track_of bt_empty (settings_of decided sizing) = Ok (submitted decided sizing).
Proof.
  intros Hwf Hs. destruct (settings_rendered decided sizing Hwf Hs) as [-> Hh]. rewrite tracks_of_body by done.
  f_equal. fold (bt_collect (submitted decided sizing)). apply bt_collect_id. by apply bt_map_wf.
Qed.

Lemma sourced_spec algorithm config active t :
  Forall (fun m => forall h, am_hyperparameters m = Some h -> json_ok h = true) active ->
  t ∈ sourced_tracks (MkPerChallenge algorithm (sources_for (as_selected algorithm) config (source_candidates active))) ->
  exists a src fuel, as_selected algorithm = Some a /\
    bt_get t (sources_for (as_selected algorithm) config (source_candidates active)) = Some src /\
    ss_fuel_budget src = Some fuel /\ bt_wf (ss_hyperparameters src) /\
    forall n, copied_from active a t (MkTrackSettings n fuel (ss_hyperparameters src)).
Proof.
  intros Hact Ht. unfold sourced_tracks in Ht. simpl in Ht. apply list_elem_of_fmap in Ht as ([t' src] & -> & Hin).
  apply elem_of_bfilter in Hin as [Hin Hs]. simpl in *.
  apply bt_elem_get in Hin; [|apply sources_for_wf]. pose proof Hin as Hg. rewrite sources_for_spec in Hg.
  destruct (as_selected algorithm) as [a|]; [|done]. case_decide; [|done]. injection Hg as Hg.
  destruct (source_copied active a t') as (fuel & Hf & Hc).
  { rewrite Hg. by destruct (ss_source_benchmark src). }
  rewrite Hg in Hf, Hc. exists a, src, fuel. do 3 (split; [done|]). split; [|done].
  destruct (Hc 0) as (meta & Hm & _ & _ & _ & Hh). simpl in Hh. rewrite Hh. rewrite Forall_forall in Hact.
  destruct (am_hyperparameters meta) as [h|] eqn:E; simpl; [|apply bt_wf_empty].
  destruct (json_as_object h) as [o|] eqn:Eo; simpl; [|apply bt_wf_empty]. by eapply json_ok_fields; [apply (Hact _ Hm)|].
Qed.

(** The protocol compute type is the offer's own. *)
Lemma propose_compute blake3 s window network player_id offer active p :
  propose blake3 s window network player_id offer active = Ok (ProposedPrecommit p) ->
  pr_compute_type p = of_tig_compute_type offer.
Proof.
  intros H. destruct (propose_inv blake3 s window network player_id offer active _ H)
    as [(e & ? & _)|(round & listed & configs & evidence & challenges & per & pool_q & Hpass & Hm)]; [done|].
  destruct (select_challenge _) as [selection|]; [|done]. destruct (cs_selected selection) as [id|]; [|done].
  chain Hm. by injection Hm as ->.
Qed.

(** ** Properties *)

Lemma constructible blake3 s window network player_id offer active p :
  inputs_ok s offer active ->
  propose blake3 s window network player_id offer active = Ok (ProposedPrecommit p) ->
  exists round raw c config evidence sub,
    block_round s = Ok round /\ algorithm_evidence s round = Ok evidence /\
    raw ∈ listed_challenges s /\ challenge_read round raw c config /\ ch_id c = pr_selected_challenge p /\
    matches_challenge (of_compute offer) (ch_compute_type c) = true /\
    (exists a, a ∈ algorithms_of evidence (ch_id c) /\ is_candidate a = true /\ al_id a = pr_selected_algorithm p) /\
    from_decision player_id (payload_of s p) = Ok sub /\
    (forall t, t ∈ bt_keys (ps_track_settings sub) <-> t ∈ ch_active_tracks c) /\
    (forall t n, (t, n) ∈ bz_num_bundles (pr_bundle_sizing p) <->
       exists ts, bt_get t (ps_track_settings sub) = Some ts /\ ts_num_bundles ts = n) /\
    (forall t ts, bt_get t (ps_track_settings sub) = Some ts ->
       copied_from active (pr_selected_algorithm p) t ts /\
       cc_min_num_bundles config <= ts_num_bundles ts <= u64_max /\
       bt_get t (pr_fee_by_track p) = Some (cc_base_fee config + cc_per_nonce_fee config * ts_num_bundles ts) /\
       cc_base_fee config + cc_per_nonce_fee config * ts_num_bundles ts <= u128_max).
Proof.
  intros [Hj Honce Hcores Hact] H.
  destruct (propose_inv blake3 s window network player_id offer active _ H)
    as [(e & ? & _)|(round & listed & configs & evidence & challenges & per & pool_q & Hpass & Hm)]; [done|].
  destruct (select_challenge _) as [selection|] eqn:Hsel; [|done].
  destruct (cs_selected selection) as [id|] eqn:Hid; [|done].
  destruct (selected_decided _ _ _ _ _ _ _ _ _ _ _ _ _ _ _ Hj Hpass Hsel id Hid)
    as (c & config & decided & Hc & Hcid & Hdec & Hmatch & Htracks & _).
  destruct (selected_known _ _ _ _ _ _ _ _ _ _ _ _ _ _ _ Hj Hpass Hsel id Hid) as (config' & decided' & alg & Hcf & Hp & Halg).
  pose proof (listed_once _ _ _ _ Hj Honce (pt_listed _ _ _ _ _ _ _ _ _ _ Hpass)) as Hnd.
  destruct (selected_unique _ _ _ _ _ _ _ _ _ _ Hj Hpass id c config decided config' decided' Hnd Hc Hcid Hdec Hcf Hp)
    as (-> & -> & raw & Hraw & Hread).
  rewrite Hcf, Hp in Hm. cbn [ok_or] in Hm. rewrite Halg in Hm. cbn [ok_or] in Hm.
  destruct (size_bundles (sizing_of offer config decided)) as [sizing|] eqn:Hsz; [|done]. cbn [map_err] in Hm.
  destruct (fees id config sizing) as [fee|] eqn:Hfee; [|done]. injection Hm as ->.
  pose proof Hread as [? ? ? Htr ? Hnwf Hn Hmin Hb Hpn].
  apply size_bundles_sized in Hsz as [Hwf Hkeys Hrange].
  2:{ split; [done|]. split; [done|]. simpl. unfold bt_map. apply Forall_fmap. exact Hn. }
  simpl in Hkeys, Hrange. rewrite bt_map_keys, <- Htr in Hkeys.
  destruct Hdec as [_ Hpc]. unfold per_challenge in Hpc. destruct (select_algorithm _) as [algorithm|] eqn:Hsa; [|done].
  injection Hpc as <-. cbn [pc_algorithm] in *.
  assert (Hsrc : forall t, t ∈ bt_keys (bz_num_bundles sizing) -> exists src fuel,
    bt_get t (sources_for (as_selected algorithm) config (source_candidates active)) = Some src /\
    ss_fuel_budget src = Some fuel /\ bt_wf (ss_hyperparameters src) /\
    forall n, copied_from active alg t (MkTrackSettings n fuel (ss_hyperparameters src))).
  { intros t Ht%Hkeys. destruct (sourced_spec _ _ _ _ Hact (Htracks t Ht)) as (a & src & fuel & Ha & ?).
    rewrite Ha in Halg. injection Halg as <-. eauto. }
  set (decided := MkPerChallenge algorithm _) in *.
  exists round, raw, c, config, evidence,
    (MkSubmission player_id (sn_block_id s) id alg (of_tig_compute_type offer) (submitted decided sizing)).
  split; [apply Hpass|]. split; [apply Hpass|]. do 4 (split; [done|]). split; [|split; [|split; [|split]]].
  - rewrite Hcid. destruct (selected_is_candidate _ _ _ Hsa Halg) as (a & Ha & ? & ?). simpl in Ha. rewrite Hcid in Ha. eauto.
  - unfold from_decision, payload_of. simpl. rewrite settings_read_back; [done|done|].
    intros t Ht. destruct (Hsrc t Ht) as (src & fuel & ? & ? & ? & _). by exists src, fuel.
  - intros t. simpl. unfold submitted. by rewrite bt_map_keys.
  - intros t n. simpl. unfold submitted. rewrite bt_get_map, <- bt_get_elem_iff by done.
    destruct (bt_get t (bz_num_bundles sizing)) as [m|]; simpl; [|split; [done|by intros (? & ? & _)]].
    split; [intros [= ->]; eexists; split; [done|]|intros (ts & [= <-] & <-)]; by destruct (bt_get t (sources_for _ _ _)).
  - intros t ts Hts. simpl in Hts. unfold submitted in Hts. rewrite bt_get_map in Hts.
    destruct (bt_get t (bz_num_bundles sizing)) as [n|] eqn:Hbn; [|done]. simpl in Hts. injection Hts as <-.
    destruct (Hsrc t) as (src & fuel & Hg & Hf & _ & Hcopy); [by apply bt_get_is_Some; eexists|].
    unfold decided. simpl. rewrite Hg, Hf. simpl. split; [apply Hcopy|].
    pose proof (Hrange _ _ Hbn) as Hr. split; [done|]. unfold in_unsigned in Hmin. bool_prop.
    eapply fees_spec; try done. lia.
Qed.


Lemma draw_facts blake3 s window network player_id offer active p :
  propose blake3 s window network player_id offer active = Ok (ProposedPrecommit p) ->
  pr_tie_seed p = challenge_tie_seed blake3 network (sn_block_id s) /\
  (forall id, id ∈ bt_keys (pr_draw_ranks p) <-> id ∈ cs_considered (pr_challenge_selection p)) /\
  (forall id rank, bt_get id (pr_draw_ranks p) = Some rank -> rank = draw_rank blake3 (pr_tie_seed p) id) /\
  pr_selected_challenge p ∈ cs_considered (pr_challenge_selection p) /\
  match pr_tie_candidates p with
  | Some ties => pr_tie_winner p = Some (pr_selected_challenge p) /\ pr_selected_challenge p ∈ ties /\
      forall id, id ∈ ties -> id ∈ cs_considered (pr_challenge_selection p)
  | None => pr_tie_winner p = None
  end.
Proof.
  intros H. destruct (propose_inv blake3 s window network player_id offer active _ H)
    as [(e & ? & _)|(round & listed & configs & evidence & challenges & per & pool_q & Hpass & Hm)]; [done|].
  destruct (select_challenge _) as [selection|] eqn:Hsel; [|done].
  destruct (cs_selected selection) as [id|] eqn:Hid; [|done].
  destruct (selection_parts _ _ Hsel) as (Hcons & Hs & Hties). simpl in *.
  chain Hm. injection Hm as ->. simpl. split; [done|]. split; [|split; [|split]].
  - intros i. unfold pass_ranks. rewrite draw_covers, Hcons.
    by rewrite (List.filter_ext _ _ (eligible_is_drawn (of_compute offer))).
  - intros i rank Hi. unfold pass_ranks, draw_ranks in Hi. apply bt_get_elem, bt_collect_elem, list_elem_of_fmap in Hi.
    destruct Hi as (j & [= -> ->] & _). done.
  - rewrite Hcons. destruct (Hs id Hid) as (d & Hd & <-). apply list_elem_of_fmap. by exists d.
  - destruct (cs_tie_candidates selection) as [ties|] eqn:Ht; [|done]. split; [done|]. split.
    + destruct (Hties ties eq_refl) as (w & Hw & ?). congruence.
    + intros i. by apply (ties_considered _ _ _ _ Hsel Ht).
Qed.

(** The record a proposal carries is the draw's own evidence.  The challenges
    ranked are exactly the ones the selection considered -- compatible and
    sourced on every track -- each with the rank the block's seed gives it; the
    selection names one of them; and a winner is recorded exactly when there
    was a tie, as one of the tied. *)
Theorem draw_is_on_record blake3 s window network player_id offer active p :
  propose blake3 s window network player_id offer active = Ok (ProposedPrecommit p) ->
  pr_tie_seed p = challenge_tie_seed blake3 network (sn_block_id s) /\
  (forall id, id ∈ bt_keys (pr_draw_ranks p) <-> id ∈ cs_considered (pr_challenge_selection p)) /\
  (forall id rank, bt_get id (pr_draw_ranks p) = Some rank -> rank = draw_rank blake3 (pr_tie_seed p) id) /\
  pr_selected_challenge p ∈ cs_considered (pr_challenge_selection p) /\
  match pr_tie_candidates p with
  | Some ties => pr_tie_winner p = Some (pr_selected_challenge p) /\ pr_selected_challenge p ∈ ties /\
      forall id, id ∈ ties -> id ∈ cs_considered (pr_challenge_selection p)
  | None => pr_tie_winner p = None
  end.
Proof. exact (draw_facts blake3 s window network player_id offer active p). Qed.

(** C27. The errors a pass can end in.  The three the code calls unreachable are:
    no selected challenge is ever missing from the candidates or without an
    algorithm, and no tied challenge is ever missing from the draw.  A refusal
    for zero cores is an offer of zero cores.  A fee overflow reported for a
    challenge and a track is that: the challenge is the one this pass over this
    block selected, and the base fee plus the per-bundle fee times the number of
    bundles the pass itself sized for that track is above [u128]. *)
Theorem pass_errors blake3 s window network player_id offer active e :
  inputs_ok s offer active ->
  propose blake3 s window network player_id offer active = Err e ->
  match e with
  | SelectedChallengeUnknown _ | SelectedAlgorithmUnknown _ | PeChallenge (MissingDrawRank _) => False
  | PeBundles ZeroCores => of_compute offer = OfferedCpu 0
  | FeeOverflow id t => exists round listed configs evidence challenges per pool_q selection config decided sizing n,
      pass_to s player_id active round listed configs evidence challenges per pool_q /\
      select_challenge (pass_input blake3 s window network player_id offer active evidence challenges pool_q) = Ok selection /\
      cs_selected selection = Some id /\ bt_get id configs = Some config /\ bt_get id per = Some decided /\
      size_bundles (sizing_of offer config decided) = Ok sizing /\ bt_get t (bz_num_bundles sizing) = Some n /\
      cc_min_num_bundles config <= n <= u64_max /\ u128_max < cc_base_fee config + cc_per_nonce_fee config * n
  | _ => True
  end.
Proof.
  intros [Hj Honce Hcores Hact] H. destruct (propose_inv blake3 s window network player_id offer active _ H)
    as [(e' & [= <-] & He)|(round & listed & configs & evidence & challenges & per & pool_q & Hpass & Hm)].
  { destruct e; try done. }
  destruct (select_challenge _) as [selection|ce] eqn:Hsel.
  2:{ injection Hm as ->. destruct ce; try done. by apply ranks_complete in Hsel. }
  destruct (cs_selected selection) as [id|] eqn:Hid; [|done].
  destruct (selected_known _ _ _ _ _ _ _ _ _ _ _ _ _ _ _ Hj Hpass Hsel id Hid) as (config & decided & alg & Hcf & Hp & Halg).
  rewrite Hcf, Hp in Hm. cbn [ok_or] in Hm. rewrite Halg in Hm. cbn [ok_or] in Hm.
  destruct (co_configs _ _ _ _ (candidate_challenges_spec _ _ _ _ Hj (pt_listed _ _ _ _ _ _ _ _ _ _ Hpass)) _ _ Hcf)
    as (raw & c & _ & _ & _ & Hread).
  pose proof Hread as [? ? ? Htr ? Hnwf Hn Hmin Hb Hpn].
  destruct (size_bundles (sizing_of offer config decided)) as [sizing|se] eqn:Hsz.
  2:{ injection Hm as ->. destruct se; [|done]. by apply zero_cores in Hsz. }
  pose proof Hsz as [Hwf Hkeys Hrange]%size_bundles_sized.
  2:{ split; [done|]. split; [done|]. simpl. unfold bt_map. apply Forall_fmap. exact Hn. }
  unfold in_unsigned in Hmin. bool_prop. simpl in Hrange.
  assert (Hr : forall t n, (t, n) ∈ bz_num_bundles sizing -> cc_min_num_bundles config <= n)
    by (intros t n Ht%bt_elem_get; [by apply (Hrange t)|done]).
  cbn [map_err] in Hm. destruct (fees id config sizing) as [fee|fe] eqn:Hfee; [done|]. injection Hm as ->.
  apply fees_overflow in Hfee as (t & n & -> & Hin & Hover); [|done..|intros t n Ht; pose proof (Hr t n Ht); lia].
  apply bt_elem_get in Hin; [|done]. exists round, listed, configs, evidence, challenges, per, pool_q, selection, config, decided, sizing, n.
  split_and!; [done..|by apply (Hrange t)|by apply (Hrange t)|done].
Qed.

(** ** A pass over a small block

    Two CPU challenges with one track each and nobody's qualifiers, an algorithm
    and an active benchmark for each: both factors are zero and the draw
    decides. *)

Definition ex_challenge (id : string) : Value :=
  json_object [("id", JString id); ("state", json_object [("round_active", json_u64 3)]);
    ("config", json_object [("type", JString "cpu"); ("min_num_bundles", json_u64 10);
       ("active_tracks", json_object [("t1", json_object [("num_nonces_per_bundle", json_u64 6)])]);
       ("base_fee", JString "1000"); ("per_nonce_fee", JString "7")])].
Definition ex_code (id challenge : string) : Value :=
  json_object [("id", JString id); ("details", json_object [("challenge_id", JString challenge)]);
    ("state", json_object [("round_active", json_u64 3); ("banned", JBool false)]);
    ("block_data", json_object [("adoption", JString "5");
       ("num_qualifiers_by_track_by_player", json_object [("t1", json_object [("0xa", json_u64 4)])])])].
Definition ex_binary (id : string) : Value :=
  json_object [("algorithm_id", JString id); ("state", json_object [("block_confirmed", json_u64 1)]);
    ("details", json_object [("compile_success", JBool true); ("download_url", JString "https://x/a.tar")])].
Definition ex_meta (id algorithm : string) (fuel : Z) : ActiveBenchmarkMeta :=
  {| am_benchmark_id := id; am_player_id := "0xa"; am_challenge_id := "c1"; am_algorithm_id := algorithm; am_track_id := "t1";
     am_compute_type := None; am_num_bundles := 2; am_fuel_budget := Some fuel;
     am_hyperparameters := Some (json_object [("k", json_u64 9)]); am_precommit_block_confirmed := 5;
     am_num_active_bundles := Some 2; am_average_quality_by_bundle := [JNumber (NegInt (-3)); json_u64 8];
     am_stopped := false; am_benchmark_block_confirmed := 6 |}.
Definition ex_snapshot (round : Z) : Snapshot :=
  {| sn_block_id := "b9"; sn_height := 9; sn_block := json_object [("config", json_object [("reports", json_object [("penalty_amount", JString "500")])]);
                             ("details", json_object [("round", json_u64 round)])];
     sn_reads := [("get-algorithms", json_object [("codes", JArray [ex_code "a1" "c1"; ex_code "a2" "c2"]);
                                                  ("binarys", JArray [ex_binary "a1"; ex_binary "a2"])]);
                  ("get-challenges", json_object [("challenges", JArray [ex_challenge "c1"; ex_challenge "c2"])]);
                  ("get-opow", json_object [("opow", JArray [])])];
     sn_tracks := []; sn_reads_complete := true; sn_active_cache_ready := true |}.
Definition ex_window : ConfirmedWindow := MkWindow [] [] [] [] [] [] 9.
Definition ex_active : list ActiveBenchmarkMeta := [ex_meta "m1" "a1" 500; ex_meta "m2" "a2" 600].
Definition ex_offer (cores : Z) : Offer := MkOffer (OfferedCpu cores) "aws_c7i".
(** A stand-in for BLAKE3 that tells the two challenges apart. *)
Definition ex_hash (bytes : list Z) : list Z := [(- fold_left Z.add bytes 0) mod 256].

Definition ex_pass (round cores : Z) : result ProposeError Proposed :=
  propose ex_hash (ex_snapshot round) ex_window Testnet "0xpool" (ex_offer cores) ex_active.

Lemma ex_inputs_ok round cores : is_u64 cores = true -> inputs_ok (ex_snapshot round) (ex_offer cores) ex_active.
Proof.
  intros Hc. split.
  - repeat constructor.
  - vm_compute. repeat constructor; set_solver.
  - exact Hc.
  - repeat constructor; intros h [= <-]; reflexivity.
Qed.


Example draw_is_on_record_witness :
  match ex_pass 3 16 with
  | Ok (ProposedPrecommit p) => pr_tie_candidates p = Some ["c1"; "c2"] /\
      (forall id, id ∈ bt_keys (pr_draw_ranks p) <-> id ∈ cs_considered (pr_challenge_selection p))
  | _ => False
  end.
Proof.
  destruct (ex_pass 3 16) as [[|p]|] eqn:E; [vm_compute in E; discriminate E| |vm_compute in E; discriminate E].
  destruct (draw_is_on_record ex_hash (ex_snapshot 3) ex_window Testnet "0xpool" (ex_offer 16) ex_active p E)
    as (_ & Hk & _). split; [|exact Hk].
  assert (Hp : match ex_pass 3 16 with Ok (ProposedPrecommit p) => pr_tie_candidates p | _ => None end = Some ["c1"; "c2"])
    by (vm_compute; reflexivity).
  rewrite E in Hp. exact Hp.
Defined.

Example pass_errors_witness :
  ex_pass 3 0 = Err (PeBundles ZeroCores) /\ of_compute (ex_offer 0) = OfferedCpu 0.
Proof.
  assert (E : ex_pass 3 0 = Err (PeBundles ZeroCores)) by (vm_compute; reflexivity). split; [exact E|].
  exact (pass_errors ex_hash (ex_snapshot 3) ex_window Testnet "0xpool" (ex_offer 0) ex_active _ (ex_inputs_ok 3 0 eq_refl) E).
Defined.

(** A challenge of a later round is not a candidate, and a pass without one
    takes no action. *)
Example later_round_is_no_action :
  match ex_pass 2 16 with Ok (NoAction selection) => cs_considered selection = [] | _ => False end.
Proof. vm_compute. reflexivity. Qed.
