(* ===== verification/System.v ===== *)
(** * The store under all its writers

    [pool-workflow]'s operations commit independently, from several processes
    and in any order.  Here each is one transaction of a common alphabet; a
    database is reachable when some sequence of committed transactions leads to
    it from the empty one.  The tables' invariants hold jointly in every
    reachable database, and no transaction takes back what an earlier one
    recorded. *)
From S2P Require Import Prelude BTreeMap Json Domain Workflow Store Intent Lease Attempt Admission Acceptance Restart SnapshotStore.
Open Scope Z_scope.

Inductive Txn :=
| TAdmit (text_le : string -> string -> bool) (fresh_decision fresh_intent : Uuid) (now : Z) (d : NewDecision) (limit : Z)
| TWorkflow (n : Network) (id : string) (rev : Z) (op : WorkflowOp)
| TRestart (n : Network) (window : ConfirmedWindow) (text_le : string -> string -> bool)
| TCreateIntent (fresh : Uuid) (now : Z) (new : NewIntent)
| TSettle (role : Role) (id : Uuid) (outcome : SettledOutcome)
| TLedger (role : Role) (op : LedgerOp)
| TClaim (n : Network) (id : string) (kind : LeaseKind) (owner : string) (secs now : Z)
| TRelease (lease : Lease) (now : Z)
| TEvidence (e : Evidence) (snap : Db)
| TGap (n : Network) (after observed : Z)
| TSnapshot (n : Network) (block_id : string) (digest : Bytes) (row : SnapshotRow).

(** The database a transaction commits; [None] when it rolls back. *)
Definition commit {E} (r : result E Db) : option Db := match r with Ok db => Some db | Err _ => None end.
Definition run_txn (t : Txn) (db : Db) : option Db :=
  match t with
  | TAdmit text_le fd fi now d limit => commit (let? x := admit_precommit text_le fd fi now d limit db in Ok (snd x))
  | TWorkflow n id rev op => commit (let? x := run_op n id rev op db in Ok (snd x))
  | TRestart n window text_le => commit (let? x := reconcile_after_restart n window text_le db in Ok (snd x))
  | TCreateIntent fresh now new => commit (let? x := create_intent fresh now new db in Ok (snd x))
  | TSettle role id o => commit (let? x := settle role id o db in Ok (snd x))
  | TLedger role op => commit (run_ledger role op db)
  | TClaim n id kind owner secs now => commit (let? x := claim n id kind owner secs now db in Ok (snd x))
  | TRelease lease now => commit (release lease now db)
  | TEvidence e snap => commit (record_evidence e snap db)
  | TGap n after observed => commit (let? x := record_block_gap n after observed db in Ok (snd x))
  | TSnapshot n block_id digest row => commit (insert_snapshot n block_id digest row db)
  end.

(** Callers hold well-formed trace ids, and admit under limits of at most [L]. *)
Definition txn_fits (L : Z) (t : Txn) : Prop :=
  match t with
  | TAdmit _ _ _ _ d limit => limit <= L /\ forall t, nd_trace_id d = Some t -> trace_ok t
  | TCreateIntent _ _ new => forall t, ni_trace_id new = Some t -> trace_ok t
  | _ => True
  end.
Inductive step (L : Z) : Db -> Db -> Prop :=
| step_txn t db db' : txn_fits L t -> run_txn t db = Some db' -> step L db db'.
Definition reachable (L : Z) (db : Db) : Prop := rtc (step L) empty_db db.

(** ** The joint invariant *)

Record system_ok (L : Z) (db : Db) : Prop := {
  sys_workflows : workflows_ok (db_workflow db);
  sys_intents : intents_ok (db_intent db);
  sys_attempts : attempts_ok db;
  sys_leases : leases_ok (db_lease db);
  sys_commitments : commitments_ok (db_commitment db);
  sys_limit : forall n, count_unverified n db <= L;
  sys_parent : forall id i, db_intent db !! id = Some i -> is_Some (db_workflow db !! (in_network i, in_workflow_id i));
  sys_evidence : forall id i, db_intent db !! id = Some i -> intent_preconditions i db = None;
}.

(** What every later database still holds of an earlier one. *)
Record history_le (db db' : Db) : Prop := {
  hist_workflow : forall k w, db_workflow db !! k = Some w -> exists w', db_workflow db' !! k = Some w' /\
    keeps w w' /\ rtc edge (wf_state w) (wf_state w');
  hist_intent : forall id i, db_intent db !! id = Some i -> exists s, db_intent db' !! id = Some (set_state s i) /\
    (intent_terminal (in_state i) = true -> s = in_state i);
  hist_attempt : forall k a, db_attempt db !! k = Some a -> exists a', db_attempt db' !! k = Some a' /\ row_evolves a a';
  hist_fence : forall k, fence_at k db <= fence_at k db';
  hist_evidence : evidence_le db db';
  hist_decision : db_decision db ⊆ db_decision db';
  hist_gap : db_gap db ⊆ db_gap db';
  hist_snapshot : db_snapshot db ⊆ db_snapshot db';
}.

Lemma set_state_same i : set_state (in_state i) i = i.
Proof. by destruct i. Qed.
Lemma evidence_le_refl db : evidence_le db db.
Proof. by split_and!. Qed.

#[global] Instance history_preorder : PreOrder history_le.
Proof.
  split.
  - intros db. constructor; try done.
    + intros k w Hw. exists w. split_and!; [done|reflexivity|done].
    + intros id i Hi. exists (in_state i). by rewrite set_state_same.
    + intros k a Ha. exists a. split; [done|reflexivity].
  - intros d1 d2 d3 [W1 I1 A1 F1 E1 D1 G1 S1] [W2 I2 A2 F2 E2 D2 G2 S2]. constructor.
    + intros k w Hw. destruct (W1 _ _ Hw) as (v & Hv & Hk & Hr). destruct (W2 _ _ Hv) as (u & Hu & Hk' & Hr').
      exists u. split_and!; [done|by etransitivity|by etransitivity].
    + intros id i Hi. destruct (I1 _ _ Hi) as (s & Hs & Ht). destruct (I2 _ _ Hs) as (s' & Hs' & Ht').
      exists s'. split; [by destruct i|]. simpl in Ht'. intros Hterm. specialize (Ht Hterm). subst s. by apply Ht'.
    + intros k a Ha. destruct (A1 _ _ Ha) as (b & Hb & Hab). destruct (A2 _ _ Hb) as (c & Hc & Hbc).
      exists c. split; [done|by etransitivity].
    + intros k. specialize (F1 k). specialize (F2 k). lia.
    + destruct E1 as (?&?&?), E2 as (?&?&?). split_and!; by etransitivity.
    + by etransitivity.
    + by etransitivity.
    + by etransitivity.
Qed.

(** A write's evidence stays in place. *)
Lemma intent_preconditions_mono i db db' :
  evidence_le db db' -> intent_preconditions i db = None -> intent_preconditions i db' = None.
Proof.
  intros (Ha & Hc & Hm). unfold intent_preconditions. destruct (in_write_kind i); [done| |].
  - unfold has_acceptance. destruct (in_benchmark_id i) as [b|]; simpl; [|done].
    destruct (db_acceptance db !! _) as [r|] eqn:Hr; [|done]. rewrite (lookup_weaken _ _ _ _ Hr Ha). simpl.
    destruct (in_payload_artifact_id i) as [a|]; [|done]. unfold has_commitment.
    destruct (db_commitment db !! _) as [c|] eqn:Hcm; [|done]. by rewrite (lookup_weaken _ _ _ _ Hcm Hm).
  - destruct (in_payload_artifact_id i) as [a|]; [|done]. unfold has_canonical.
    destruct (db_canonical db !! _) as [c|] eqn:Hcc; [by rewrite (lookup_weaken _ _ _ _ Hcc Hc)|].
    by rewrite andb_false_r.
Qed.
Lemma intent_preconditions_state s i db : intent_preconditions (set_state s i) db = intent_preconditions i db.
Proof. done. Qed.

(** ** Each transaction *)

(** A table the transaction did not touch. *)
Ltac untouched db :=
  first [ exact (hist_workflow db db (reflexivity db)) | exact (hist_intent db db (reflexivity db))
        | exact (hist_attempt db db (reflexivity db)) | exact (hist_fence db db (reflexivity db))
        | exact (hist_evidence db db (reflexivity db)) | exact (hist_decision db db (reflexivity db))
        | exact (hist_gap db db (reflexivity db)) | exact (hist_snapshot db db (reflexivity db)) ].

Lemma attempts_ok_tables db db' :
  attempts_ok db -> db_attempt db' = db_attempt db ->
  (forall id i, db_intent db !! id = Some i -> exists s, db_intent db' !! id = Some (set_state s i)) ->
  attempts_ok db'.
Proof.
  intros Hok Ha Hi.
  assert (Hwith : attempts_ok (with_intent (db_intent db') db)).
  { apply attempts_ok_intents; [done|]. intros id i Hid. destruct (Hi _ _ Hid) as [s Hs]. by exists (set_state s i). }
  destruct Hwith as [H1 H2 H3 H4]. simpl in *. constructor; rewrite Ha; done.
Qed.

(** The joint invariant, from the history and what the transaction itself
    established. *)
Lemma system_ok_next L db db' :
  system_ok L db -> history_le db db' ->
  workflows_ok (db_workflow db') -> intents_ok (db_intent db') -> attempts_ok db' -> leases_ok (db_lease db') ->
  commitments_ok (db_commitment db') -> (forall n, count_unverified n db' <= L) ->
  (forall id i, db_intent db' !! id = Some i ->
     (exists i0 s, db_intent db !! id = Some i0 /\ i = set_state s i0) \/
     is_Some (db_workflow db' !! (in_network i, in_workflow_id i)) /\ intent_preconditions i db' = None) ->
  system_ok L db' /\ history_le db db'.
Proof.
  intros Hsys Hh Hw Hi Ha Hl Hc Hlim Hnew. split; [|done]. constructor; try done.
  - intros id i Hid. destruct (Hnew _ _ Hid) as [(i0 & s & H0 & ->)|[? _]]; [|done].
    destruct (sys_parent _ _ Hsys _ _ H0) as [w Hw0]. destruct (hist_workflow _ _ Hh _ _ Hw0) as (w' & Hw' & _). by exists w'.
  - intros id i Hid. destruct (Hnew _ _ Hid) as [(i0 & s & H0 & ->)|[_ ?]]; [|done].
    rewrite intent_preconditions_state. eapply intent_preconditions_mono; [by apply Hh|]. by eapply sys_evidence.
Qed.

Lemma same_intents db db' : db_intent db' = db_intent db -> forall id i, db_intent db' !! id = Some i ->
  (exists i0 s, db_intent db !! id = Some i0 /\ i = set_state s i0) \/
  is_Some (db_workflow db' !! (in_network i, in_workflow_id i)) /\ intent_preconditions i db' = None.
Proof. intros E id i Hi. left. exists i, (in_state i). rewrite set_state_same, <- E. done. Qed.

Section transactions.
Context (L : Z) (db : Db) (Hsys : system_ok L db).

(** A transaction that takes one workflow forward. *)
Lemma row_txn k w w' :
  db_workflow db !! k = Some w -> keeps w w' -> rtc edge (wf_state w) (wf_state w') ->
  workflows_ok (<[k := w']> (db_workflow db)) ->
  let db' := with_workflow (<[k := w']> (db_workflow db)) db in system_ok L db' /\ history_le db db'.
Proof.
  intros Hw Hk He Hok' db'.
  assert (Hh : history_le db db').
  { constructor; try untouched db. intros k' v Hv. simpl. destruct (decide (k = k')) as [<-|Hne].
    - rewrite lookup_insert_eq. replace v with w by congruence. by exists w'.
    - rewrite lookup_insert_ne by done. exists v. split_and!; [done|reflexivity|done]. }
  apply system_ok_next; try done; try apply Hsys.
  - by eapply attempts_ok_tables; [apply Hsys|done|]; intros k' i Hi; exists (in_state i); rewrite set_state_same.
  - intros m. rewrite count_unverified_open. simpl. etransitivity; [|apply (sys_limit _ _ Hsys m)].
    rewrite count_unverified_open. apply (open_count_update m k w); [done|].
    destruct Hk as ([= Hnet _] & _ & _ & _ & _ & _ & _ & Hto). rewrite !is_open_true, Hnet.
    intros [? Hopen]. split; [done|]. destruct (wf_unverified_to_block w) as [t|]; [|done].
    specialize (Hto t eq_refl). congruence.
  - by apply same_intents.
Qed.

Lemma workflow_txn n id rev op w' db' :
  run_op n id rev op db = Ok (w', db') -> system_ok L db' /\ history_le db db'.
Proof.
  intros Hrun. pose proof (sys_workflows _ _ Hsys) as Hok.
  pose proof (run_op_ok _ _ _ _ _ _ _ Hok Hrun) as Hok'.
  apply run_op_effect in Hrun as (w & Hw & _ & He & _ & _ & _ & -> & Hk & _ & _ & ->).
  pose proof (ok_key _ _ (proj1 Hok _ _ Hw)) as Hkey. pose proof Hk as [Hkk _]. rewrite Hkk, Hkey in *.
  apply (row_txn (n, id) w); [done|done|by apply rtc_once|done].
Qed.

Lemma admit_txn text_le fd fi now d limit a db' :
  limit <= L -> (forall t, nd_trace_id d = Some t -> trace_ok t) ->
  admit_precommit text_le fd fi now d limit db = Ok (a, db') -> system_ok L db' /\ history_le db db'.
Proof.
  intros Hlim Ht Hrun. pose proof (sys_workflows _ _ Hsys) as Hok.
  apply admit_precommit_effect in Hrun as (t & _ & _ & _ & _ & Hcnt & _ & _ & Haw & Hfd & Hfi & _ & Hi' & ->);
    [|done|by apply Hsys|done].
  destruct (admit_workflow_Ok _ _ _ Hok Haw) as (t' & Et & Hok' & (w & Hw & _) & Hcase).
  assert (t' = t) as ->. { apply (f_equal db_workflow) in Et. simpl in Et. done. }
  assert (Hext : forall k v, db_workflow db !! k = Some v -> t !! k = Some v).
  { destruct Hcase as [->|(Hnone & w1 & _ & ->)]; [done|]. intros k v Hv. rewrite lookup_insert_ne; [done|]. congruence. }
  assert (Hint : forall id i, db_intent db !! id = Some i ->
    <[fi := admitted_intent fi now d]> (db_intent db) !! id = Some i).
  { intros id i Hi. rewrite lookup_insert_ne; [done|]. congruence. }
  apply system_ok_next; try done; try apply Hsys.
  - constructor; try untouched db; simpl.
    + intros k v Hv. exists v. split_and!; [by apply Hext|reflexivity|done].
    + intros id i Hi. exists (in_state i). rewrite set_state_same. split; [by apply Hint|done].
    + by apply insert_subseteq.
  - eapply attempts_ok_tables; [apply Hsys|done|]. intros k i Hi. exists (in_state i). rewrite set_state_same. by apply Hint.
  - intros n. rewrite count_unverified_open in *. simpl. pose proof (sys_limit _ _ Hsys n) as Hn.
    rewrite count_unverified_open in Hn. destruct Hcase as [->|(Hnone & w1 & Hopen & ->)]; [done|].
    destruct (decide (n = nd_network d)) as [->|Hne]; [rewrite open_count_fresh by done; lia|].
    rewrite open_count_other; [done|done|]. apply is_open_true in Hopen as [Hnw _].
    destruct (is_open n w1) eqn:E; [|done]. apply is_open_true in E as [E _]. congruence.
  - simpl. intros id i Hid. apply lookup_insert_Some in Hid as [[<- <-]|[_ Hid]].
    + right. split; [|done]. by exists w.
    + left. exists i, (in_state i). by rewrite set_state_same.
Qed.

(** A transaction that changes nothing but one table outside workflows,
    intents and attempts. *)
Lemma side_txn db' :
  history_le db db' -> db_workflow db' = db_workflow db -> db_intent db' = db_intent db ->
  db_attempt db' = db_attempt db -> leases_ok (db_lease db') -> commitments_ok (db_commitment db') ->
  system_ok L db' /\ history_le db db'.
Proof.
  intros Hh Hw Hi Ha Hl Hc. apply system_ok_next; try done.
  - rewrite Hw. apply Hsys.
  - rewrite Hi. apply Hsys.
  - eapply attempts_ok_tables; [apply Hsys|done|]. intros k i Hk. exists (in_state i). by rewrite set_state_same, Hi.
  - intros n. unfold count_unverified. rewrite Hw. apply Hsys.
  - by apply same_intents.
Qed.

Lemma create_txn fresh now new i db' :
  (forall t, ni_trace_id new = Some t -> trace_ok t) ->
  create_intent fresh now new db = Ok (i, db') -> system_ok L db' /\ history_le db db'.
Proof.
  intros Ht Hrun. apply create_intent_effect in Hrun
    as (_ & Hadm & Hok' & _ & _ & _ & _ & _ & [(-> & _ & Hst)| ->]); [|split; [done|reflexivity]|apply Hsys|done].
  apply store_intent_Ok in Hst as (Hnone & Hw & ->). apply intent_admissible_None in Hadm as [Hpre _].
  assert (Hint : forall id i, db_intent db !! id = Some i ->
    <[fresh := intent_of fresh now new]> (db_intent db) !! id = Some i).
  { intros id i Hi. rewrite lookup_insert_ne; [done|]. simpl in Hnone. congruence. }
  assert (Hh : history_le db (with_intent (<[fresh := intent_of fresh now new]> (db_intent db)) db)).
  { constructor; try untouched db. intros id i Hi. exists (in_state i). rewrite set_state_same. split; [by apply Hint|done]. }
  apply system_ok_next; try done; try apply Hsys.
  - eapply attempts_ok_tables; [apply Hsys|done|]. intros k i Hi. exists (in_state i). rewrite set_state_same. by apply Hint.
  - intros id i Hid. simpl in Hid. apply lookup_insert_Some in Hid as [[<- <-]|[_ Hid]].
    + right. split; [done|]. exact Hpre.
    + left. exists i, (in_state i). by rewrite set_state_same.
Qed.

(** A transaction that moves intents between states and evolves attempts. *)
Lemma state_txn db' :
  intents_ok (db_intent db') -> attempts_ok db' ->
  db' = with_intent (db_intent db') (with_attempt (db_attempt db') db) ->
  (forall id i, db_intent db !! id = Some i -> exists s, db_intent db' !! id = Some (set_state s i) /\
    (intent_terminal (in_state i) = true -> s = in_state i)) ->
  (forall id i, db_intent db' !! id = Some i -> is_Some (db_intent db !! id)) ->
  (forall k a, db_attempt db !! k = Some a -> exists a', db_attempt db' !! k = Some a' /\ row_evolves a a') ->
  system_ok L db' /\ history_le db db'.
Proof.
  intros Hi Ha Hdb Hint Hback Hat.
  assert (Hh : history_le db db').
  { constructor; try done; rewrite Hdb; untouched db. }
  apply system_ok_next; try done; try (rewrite Hdb; apply Hsys).
  intros id i Hid. left. destruct (Hback _ _ Hid) as [i0 H0]. destruct (Hint _ _ H0) as (s & Hs & _).
  exists i0, s. split; [done|]. congruence.
Qed.

Lemma settle_txn role id o i db' :
  settle role id o db = Ok (i, db') -> system_ok L db' /\ history_le db db'.
Proof.
  intros Hrun. pose proof (sys_intents _ _ Hsys) as Hiok.
  apply settle_Ok in Hrun as (i0 & Hi & -> & -> & _ & Hterm); [|done].
  pose proof (iok_key _ _ (proj1 Hiok _ _ Hi)) as Hid.
  assert (Hint : forall k j, db_intent db !! k = Some j -> exists s,
    <[id := set_state (as_state o) i0]> (db_intent db) !! k = Some (set_state s j) /\
    (intent_terminal (in_state j) = true -> s = in_state j)).
  { intros k j Hj. destruct (decide (id = k)) as [<-|Hne].
    - rewrite lookup_insert_eq. replace j with i0 by congruence. by exists (as_state o).
    - rewrite lookup_insert_ne by done. exists (in_state j). by rewrite set_state_same. }
  apply state_txn; simpl; try done.
  - rewrite <- Hid at 1. by apply (intents_ok_set_state _ id).
  - eapply attempts_ok_tables; [apply Hsys|done|]. intros k j Hj. destruct (Hint k j Hj) as (s & ? & _). by exists s.
  - intros k j Hj. apply lookup_insert_Some in Hj as [[<- _]|[_ ?]]; by eexists.
  - untouched db.
Qed.

Lemma ledger_txn role op db' : run_ledger role op db = Ok db' -> system_ok L db' /\ history_le db db'.
Proof.
  intros Hrun. pose proof (sys_intents _ _ Hsys) as Hiok. pose proof (sys_attempts _ _ Hsys) as Haok.
  destruct (run_ledger_intents _ _ _ _ Hiok Haok Hrun) as (Hi & Hdb & Hint & Hback).
  destruct (run_ledger_evolves _ _ _ _ Hiok Haok Hrun) as [Ha Hat].
  by apply state_txn.
Qed.

Lemma claim_txn n id kind owner secs now l db' :
  claim n id kind owner secs now db = Ok (l, db') -> system_ok L db' /\ history_le db db'.
Proof.
  intros Hrun. pose proof (claim_leases_ok _ _ _ _ _ _ _ _ _ (sys_leases _ _ Hsys) Hrun) as Hl.
  apply claim_Ok in Hrun as (_ & _ & _ & Htok & _ & -> & _).
  apply side_txn; try done; [|apply Hsys]. constructor; try untouched db. intros k. unfold fence_at. simpl.
  destruct (decide ((n, id, kind) = k)) as [<-|Hne]; [rewrite lookup_insert_eq|by rewrite lookup_insert_ne].
  simpl. unfold fence_at in Htok. destruct (db_lease db !! (n, id, kind)); lia.
Qed.

Lemma release_txn l now db' : release l now db = Ok db' -> system_ok L db' /\ history_le db db'.
Proof.
  intros Hrun. pose proof (release_leases_ok _ _ _ _ (sys_leases _ _ Hsys) Hrun) as Hl. revert Hrun. unfold release.
  assert (Hid : forall d, Ok db = Ok d :> result LeaseError Db -> system_ok L d /\ history_le db d) by (intros d [= <-]; done).
  destruct (db_lease db !! lkey l) as [row|] eqn:Hrow; [|apply Hid].
  destruct (lr_fence_token row =? ls_fence_token l); [|apply Hid].
  destruct (i64_max <? lr_fence_token row + 1); [done|]. intros [= <-].
  apply side_txn; try done; [|apply Hsys]. constructor; try untouched db. intros k. unfold fence_at. simpl.
  destruct (decide (lkey l = k)) as [<-|Hne]; [rewrite lookup_insert_eq, Hrow; simpl; lia|by rewrite lookup_insert_ne].
Qed.

Lemma evidence_txn e snap db' : record_evidence e snap db = Ok db' -> system_ok L db' /\ history_le db db'.
Proof.
  intros Hrun. apply record_evidence_Ok in Hrun as (Hc & Hle & _ & ta & tc & tm & ->); [|apply Hsys].
  apply side_txn; try done; [|apply Hsys]. constructor; try untouched db. exact Hle.
Qed.

Lemma gap_txn n after observed hs db' :
  record_block_gap n after observed db = Ok (hs, db') -> system_ok L db' /\ history_le db db'.
Proof.
  unfold record_block_gap. destruct (observed <=? after + 1); [intros [= _ <-]; done|].
  destruct (_ || _); [done|]. intros [= _ <-].
  apply side_txn; try done; try apply Hsys. constructor; try untouched db. simpl.
  apply map_subseteq_spec. intros k g Hk. rewrite gap_table_lookup, bool_decide_eq_false_2; [done|].
  intros [Hn [Hnone _]%list_elem_of_filter]. rewrite <- Hn in Hnone. destruct k. simpl in *. congruence.
Qed.

Lemma snapshot_txn n b digest row db' : insert_snapshot n b digest row db = Ok db' -> system_ok L db' /\ history_le db db'.
Proof.
  intros (_ & _ & [[-> _]|(-> & Hnew & _)])%insert_snapshot_Ok; [split; [done|reflexivity]|].
  apply side_txn; try done; try apply Hsys. constructor; try untouched db. by apply insert_subseteq.
Qed.

End transactions.

(** The restart pass: one forward move per workflow it visits. *)
Lemma restart_turns L n window live :
  forall db r db' r', system_ok L db -> NoDup (map wf_workflow_id live) ->
  (forall w, w ∈ live -> db_workflow db !! (n, wf_workflow_id w) = Some w) ->
  fold_left (restart_step n window) live (db, r) = (db', r') -> system_ok L db' /\ history_le db db'.
Proof.
  induction live as [|w live IH]; intros db r db' r' Hsys Hnd Hlive; cbn [fold_left].
  { intros [= <- _]. split; [done|reflexivity]. }
  simpl in Hnd. inversion Hnd as [|?? Hnin Hnd']; subst.
  destruct (restart_step n window (db, r) w) as [db1 r1] eqn:Hstep. intros Hfold.
  apply restart_step_effect in Hstep as (w' & Hadv & Hok1 & -> & _); [|apply Hsys|apply Hlive; by left].
  assert (Hw : db_workflow db !! (n, wf_workflow_id w) = Some w) by (apply Hlive; by left).
  assert (Hone : system_ok L (with_workflow (<[(n, wf_workflow_id w) := w']> (db_workflow db)) db) /\
    history_le db (with_workflow (<[(n, wf_workflow_id w) := w']> (db_workflow db)) db)).
  { apply (row_txn L db Hsys _ w); [done| | |done].
    - destruct Hadv as [->|(_ & Hk & _)]; [reflexivity|done].
    - destruct Hadv as [->|(Ht & _)]; [done|by apply tc_rtc]. }
  destruct Hone as [Hsys1 Hh1]. edestruct (IH _ r1 db' r' Hsys1 Hnd') as [Hsys' Hh']; [|exact Hfold|].
  - intros v Hv. simpl. rewrite lookup_insert_ne; [apply Hlive; by right|]. intros E. injection E as E.
    apply Hnin. rewrite E. apply (list_elem_of_fmap_2 wf_workflow_id _ _ Hv).
  - split; [done|by etransitivity].
Qed.
Lemma restart_txn L n window text_le db r db' :
  system_ok L db -> reconcile_after_restart n window text_le db = Ok (r, db') -> system_ok L db' /\ history_le db db'.
Proof.
  intros Hsys. destruct (nonterminal_visits n text_le db (sys_workflows _ _ Hsys)) as (live & Hlive & Hnd & Hvis).
  unfold reconcile_after_restart. rewrite Hlive. destruct (fold_left _ live _) as [d x] eqn:Hfold. intros [= _ <-].
  eapply restart_turns; [done|done| |exact Hfold]. intros w Hw%Hvis. naive_solver.
Qed.

(** ** The interface of a writer

    What every writer of the store promises the others: from a database in the
    joint invariant it commits one in the joint invariant that keeps the
    history.  Sequences of safe writers are safe. *)
Class Safe (L : Z) (run : Db -> option Db) : Prop :=
  safe_run : forall db db', system_ok L db -> run db = Some db' -> system_ok L db' /\ history_le db db'.

#[export] Instance safe_nothing L : Safe L Some.
Proof. intros db db' Hsys [= <-]. split; [done|reflexivity]. Qed.
#[export] Instance safe_then L f g : Safe L f -> Safe L g -> Safe L (fun db => f db ≫= g).
Proof.
  intros Hf Hg db db' Hsys. destruct (f db) as [d|] eqn:E; simpl; [|done]. intros Hgd.
  destruct (Hf _ _ Hsys E) as [Hsys1 H1]. destruct (Hg _ _ Hsys1 Hgd) as [Hsys2 H2]. split; [done|by etransitivity].
Qed.

(** Every transaction keeps its promise. *)
#[export] Instance txn_safe L t : txn_fits L t -> Safe L (run_txn t).
Proof.
  intros Hfit db db' Hsys. revert Hfit.
  destruct t as [le fd fi now d limit|n id rev op|n window le|fresh now new|role id o|role op|n id kind owner secs now|l now|e snap|n a o|n b digest row];
    simpl; intros Hfit.
  - destruct (admit_precommit _ _ _ _ _ _ _) as [[x d']|] eqn:E; [|done]. intros [= <-].
    destruct Hfit. by eapply admit_txn.
  - destruct (run_op _ _ _ _ _) as [[x d']|] eqn:E; [|done]. intros [= <-]. by eapply workflow_txn.
  - destruct (reconcile_after_restart _ _ _ _) as [[x d']|] eqn:E; [|done]. intros [= <-]. by eapply restart_txn.
  - destruct (create_intent _ _ _ _) as [[x d']|] eqn:E; [|done]. intros [= <-]. by eapply create_txn.
  - destruct (settle _ _ _ _) as [[x d']|] eqn:E; [|done]. intros [= <-]. by eapply settle_txn.
  - destruct (run_ledger _ _ _) as [d'|] eqn:E; [|done]. intros [= <-]. by eapply ledger_txn.
  - destruct (claim _ _ _ _ _ _ _) as [[x d']|] eqn:E; [|done]. intros [= <-]. by eapply claim_txn.
  - destruct (release _ _ _) as [d'|] eqn:E; [|done]. intros [= <-]. by eapply release_txn.
  - destruct (record_evidence _ _ _) as [d'|] eqn:E; [|done]. intros [= <-]. by eapply evidence_txn.
  - destruct (record_block_gap _ _ _ _) as [[x d']|] eqn:E; [|done]. intros [= <-]. by eapply gap_txn.
  - destruct (insert_snapshot _ _ _ _ _) as [d'|] eqn:E; [|done]. intros [= <-]. by eapply snapshot_txn.
Qed.

(** Transactions one after the other, until one rolls back. *)
Fixpoint run_txns (ts : list Txn) (db : Db) : option Db :=
  match ts with [] => Some db | t :: ts' => run_txn t db ≫= run_txns ts' end.
#[export] Instance txns_safe L ts : Forall (txn_fits L) ts -> Safe L (run_txns ts).
Proof.
  induction 1 as [|t ts Ht _ IH]; [apply safe_nothing|]. apply safe_then; [by apply txn_safe|exact IH].
Qed.

Lemma system_ok_empty L : 0 <= L -> system_ok L empty_db.
Proof. by constructor. Qed.

Lemma run_ok L db db' : system_ok L db -> rtc (step L) db db' -> system_ok L db' /\ history_le db db'.
Proof.
  intros Hsys Hrun. induction Hrun as [db|d1 d2 d3 [t a b Hfit Ht] _ IH]; [split; [done|reflexivity]|].
  destruct (txn_safe L t Hfit a b Hsys Ht) as [Hb Hh]. destruct (IH Hb) as [H3 Hh']. split; [done|by etransitivity].
Qed.
Lemma reachable_ok L db : 0 <= L -> reachable L db -> system_ok L db.
Proof. intros HL Hr. eapply run_ok; [by apply system_ok_empty|exact Hr]. Qed.

(** ** Properties *)

(** Two unresolved attempts that share a lane are one. *)
Lemma precommit_lane_of a1 a2 :
  at_write_kind a1 = Precommit -> at_write_kind a2 = Precommit -> at_network a1 = at_network a2 ->
  same_precommit_lane a1 a2 = true.
Proof. intros. unfold same_precommit_lane. by rewrite !bool_decide_eq_true_2. Qed.
Lemma benchmark_lane_of a1 a2 b :
  at_benchmark_id a1 = Some b -> at_benchmark_id a2 = Some b -> at_network a1 = at_network a2 ->
  same_benchmark_lane a1 a2 = true.
Proof. intros H1 H2 Hn. unfold same_benchmark_lane. rewrite H1, H2, !bool_decide_eq_true_2; done. Qed.

(** What a stored benchmark or proof write rests on. *)
Definition write_is_backed (i : WriteIntent) (db : Db) : Prop :=
  match in_write_kind i with
  | Precommit => in_benchmark_id i = None
  | Benchmark => exists b a c, in_benchmark_id i = Some b /\ in_payload_artifact_id i = Some a /\
      is_Some (db_acceptance db !! (in_network i, in_workflow_id i, b)) /\
      db_commitment db !! (in_network i, a) = Some c /\ mr_workflow_id c = in_workflow_id i /\
      mr_benchmark_id c = b /\ mr_payload_digest c = in_payload_digest i
  | Proof_ => exists b a c, in_benchmark_id i = Some b /\ in_payload_artifact_id i = Some a /\
      db_canonical db !! (in_network i, a) = Some c /\ cr_workflow_id c = in_workflow_id i /\
      cr_benchmark_id c = b /\ cr_payload_digest c = in_payload_digest i
  end.
Lemma backed id i db : intent_ok id i -> intent_preconditions i db = None -> write_is_backed i db.
Proof.
  intros [_ Hc _]. unfold intent_checks in Hc. rewrite Forall_cons in Hc. destruct Hc as [Hb _]. simpl in Hb.
  unfold intent_preconditions, write_is_backed, has_acceptance, has_commitment, has_canonical.
  destruct (in_write_kind i); simpl in *; [by destruct (in_benchmark_id i)| |];
    destruct (in_benchmark_id i) as [b|], (in_payload_artifact_id i) as [a|]; simpl in *; try done.
  - destruct (db_acceptance db !! (in_network i, in_workflow_id i, b)) as [r|] eqn:Er; simpl; [|done].
    destruct (db_commitment db !! _) as [c|] eqn:E; [|done]. destruct (_ && _ && _) eqn:Hm; [|done].
    rewrite !andb_true_iff, !bool_decide_eq_true in Hm. destruct Hm as [[? ?] ?]. intros _.
    exists b, a, c. rewrite ?Er. by split_and!.
  - by destruct (negb _).
  - destruct (db_canonical db !! _) as [c|] eqn:E; [|done]. destruct (_ && _ && _) eqn:Hm; [|done].
    rewrite !andb_true_iff, !bool_decide_eq_true in Hm. destruct Hm as [[? ?] ?]. intros _.
    exists b, a, c. rewrite ?Er. by split_and!.
Qed.

(** C2. In every database the modelled transactions can reach, in whatever order
    they commit: the open unverified intervals of each network are within the
    configured limit; a benchmark has one owner; at most one precommit per
    network, and at most one write per benchmark, is unresolved; and every
    benchmark or proof write is backed by durable evidence of its own workflow,
    benchmark and digest. *)
Theorem reachable_is_safe L db :
  0 <= L -> reachable L db ->
  (forall n, count_unverified n db <= L) /\ workflows_ok (db_workflow db) /\
  (forall k1 k2 a1 a2, db_attempt db !! k1 = Some a1 -> db_attempt db !! k2 = Some a2 ->
     outcome_unresolved (at_outcome a1) = true -> outcome_unresolved (at_outcome a2) = true ->
     at_network a1 = at_network a2 ->
     (at_write_kind a1 = Precommit /\ at_write_kind a2 = Precommit \/
      exists b, at_benchmark_id a1 = Some b /\ at_benchmark_id a2 = Some b) -> k1 = k2) /\
  (forall id i, db_intent db !! id = Some i ->
     is_Some (db_workflow db !! (in_network i, in_workflow_id i)) /\ write_is_backed i db).
Proof.
  intros HL Hr. pose proof (reachable_ok L db HL Hr) as Hsys. split_and!; [apply Hsys|apply Hsys| |].
  - intros k1 k2 a1 a2 H1 H2 U1 U2 Hn [[P1 P2]|(b & B1 & B2)].
    + eapply (ats_precommit _ (sys_attempts _ _ Hsys)); try done. by apply precommit_lane_of.
    + eapply (ats_benchmark _ (sys_attempts _ _ Hsys)); try done. by eapply benchmark_lane_of.
  - intros id i Hi. split; [by eapply sys_parent|]. eapply backed; [by eapply (proj1 (sys_intents _ _ Hsys))|].
    by eapply sys_evidence.
Qed.

(** An admission, and the send it leads to. *)
Definition sample_txns : list Txn :=
  [TSnapshot Testnet "blk" digest_a (MkSnapshotRow 200 true true);
   TAdmit str_leb 1 2 10 sample_decision 3; TLedger RoleGateway (LBegin 7 2 20);
   TLedger RoleGateway (LResolve 7 Accepted (Some 200) None 21)].
Lemma run_txns_steps L ts db db' : Forall (txn_fits L) ts -> run_txns ts db = Some db' -> rtc (step L) db db'.
Proof.
  revert db. induction ts as [|t ts IH]; intros db Hts; simpl; [by intros [= <-]|].
  apply Forall_cons in Hts as [Ht Hts]. destruct (run_txn t db) as [d|] eqn:E; simpl; [|done]. intros Hrun.
  eapply rtc_l; [by econstructor|]. by apply IH.
Qed.
Lemma sample_txns_fit : Forall (txn_fits 3) sample_txns.
Proof. repeat constructor; simpl; try lia; by intros. Qed.
Definition sample_reached : Db := match run_txns sample_txns empty_db with Some db => db | None => empty_db end.
Lemma sample_reachable : reachable 3 sample_reached.
Proof.
  unfold sample_reached. destruct (run_txns sample_txns empty_db) as [d|] eqn:E; [|by apply rtc_refl].
  by eapply run_txns_steps; [apply sample_txns_fit|].
Qed.
Example reachable_is_safe_witness :
  reachable 3 sample_reached /\ count_unverified Testnet sample_reached = 1 /\
  forall n, count_unverified n sample_reached <= 3.
Proof.
  split; [exact sample_reachable|]. split; [vm_compute; reflexivity|].
  destruct (reachable_is_safe 3 sample_reached) as [H _]; [lia|exact sample_reachable|exact H].
Defined.

(** Nothing recorded is taken back.  From any reachable database, whatever
    commits afterwards: workflows keep their identity and only go forward,
    intents keep their payload and a settled one its outcome, attempts and their
    responses stay, fences only grow, and evidence, decisions, gaps and
    snapshots are permanent. *)
Theorem history_is_kept L db db' :
  0 <= L -> reachable L db -> rtc (step L) db db' -> history_le db db'.
Proof. intros HL Hr Hrun. by apply (run_ok L db db' (reachable_ok L db HL Hr)). Qed.
Example history_is_kept_witness :
  exists db, rtc (step 3) empty_db db /\ reachable 3 empty_db /\ history_le empty_db db.
Proof.
  exists sample_reached. split; [exact sample_reachable|]. split; [apply rtc_refl|].
  apply (history_is_kept 3 empty_db sample_reached); [lia|apply rtc_refl|exact sample_reachable].
Defined.

Lemma behind_fence_refused old db :
  leases_ok (db_lease db) -> 0 < ls_fence_token old < fence_at (lkey old) db ->
  (exists e, require_fence old db = Err e) /\
  forall fresh intent_id t x, begin_fenced fresh intent_id old t db <> Ok x.
Proof.
  intros Hok Hlt. assert (Hreq : exists e, require_fence old db = Err e).
  { unfold require_fence, fence_at in *. destruct (db_lease db !! lkey old) as [row|]; [|lia].
    destruct (Z.eqb_spec (lr_fence_token row) (ls_fence_token old)); [lia|]. simpl. by eexists. }
  split; [done|]. destruct Hreq as [e He]. intros fresh intent_id t x. unfold begin_fenced. by rewrite He.
Qed.
Lemma claim_fence n id kind owner secs now db l db' :
  claim n id kind owner secs now db = Ok (l, db') ->
  lkey l = (n, id, kind) /\ ls_fence_token l = fence_at (n, id, kind) db + 1 /\
  fence_at (n, id, kind) db' = ls_fence_token l.
Proof.
  intros (_ & Hk & _ & Hf & _ & -> & _)%claim_Ok. split_and!; [done|done|].
  unfold fence_at at 1. simpl. by rewrite lookup_insert_eq.
Qed.

(** C6. A worker whose lease was taken over can never send again.  When a lease
    was claimed and, whatever committed in between, the same work was claimed
    again, by anyone, the first lease fails its fence check in every later
    database and [begin_fenced] under it is refused. *)
Theorem fenced_out_for_good L db0 db1 db2 db3 db4 n id kind owner1 owner2 secs1 secs2 now1 now2 old new :
  0 <= L -> reachable L db0 -> claim n id kind owner1 secs1 now1 db0 = Ok (old, db1) -> rtc (step L) db1 db2 ->
  claim n id kind owner2 secs2 now2 db2 = Ok (new, db3) -> rtc (step L) db3 db4 ->
  (exists e, require_fence old db4 = Err e) /\
  forall fresh intent_id t x, begin_fenced fresh intent_id old t db4 <> Ok x.
Proof.
  intros HL Hr Hc1 Hr1 Hc2 Hr2. pose proof (reachable_ok L db0 HL Hr) as Hs0.
  destruct (claim_txn L db0 Hs0 _ _ _ _ _ _ _ _ Hc1) as [Hs1 _].
  destruct (run_ok L db1 db2 Hs1 Hr1) as [Hs2 Hh1].
  destruct (claim_txn L db2 Hs2 _ _ _ _ _ _ _ _ Hc2) as [Hs3 _].
  destruct (run_ok L db3 db4 Hs3 Hr2) as [Hs4 Hh2].
  destruct (claim_fence _ _ _ _ _ _ _ _ _ Hc1) as (Hk1 & Ht1 & Hf1).
  destruct (claim_fence _ _ _ _ _ _ _ _ _ Hc2) as (_ & Ht2 & Hf2).
  pose proof (hist_fence _ _ Hh1 (n, id, kind)). pose proof (hist_fence _ _ Hh2 (n, id, kind)).
  assert (0 <= fence_at (n, id, kind) db0).
  { unfold fence_at. destruct (db_lease db0 !! _) as [row|] eqn:E; [|lia].
    pose proof (sys_leases _ _ Hs0 _ _ E) as Hrow. simpl in Hrow. lia. }
  apply behind_fence_refused; [apply (sys_leases _ _ Hs4)|rewrite Hk1; lia].
Qed.
Example fenced_out_for_good_witness :
  exists old new db1 db3, claim Testnet "w1" ProofBuild "gw-a" 60 30 sample_reached = Ok (old, db1) /\
    claim Testnet "w1" ProofBuild "gw-b" 60 (100 * micros) db1 = Ok (new, db3) /\
    exists e, require_fence old db3 = Err e.
Proof.
  do 4 eexists. split; [vm_compute; reflexivity|]. split; [vm_compute; reflexivity|].
  eapply (fenced_out_for_good 3 sample_reached _ _ _ _ Testnet "w1" ProofBuild "gw-a" "gw-b" 60 60 30 (100 * micros));
    [lia|exact sample_reachable|vm_compute; reflexivity|apply rtc_refl|vm_compute; reflexivity|apply rtc_refl].
Defined.

Lemma accepted_precommit_transmitted n id db iid i aid a :
  intents_ok (db_intent db) -> db_intent db !! iid = Some i -> in_network i = n -> in_workflow_id i = id ->
  in_write_kind i = Precommit -> db_attempt db !! aid = Some a -> at_intent_id a = iid -> at_outcome a = Some Accepted ->
  transmitted_precommit_exists n id db = true.
Proof.
  intros Hok Hi Hn Hw Hk Ha Hai Ho. apply exists_row_true. exists iid, i. split; [done|].
  rewrite !bool_decide_eq_true_2 by done. simpl. apply exists_row_true. exists aid, a. split; [done|].
  rewrite Ho, bool_decide_eq_true_2; [done|]. by rewrite (iok_key _ _ (proj1 Hok _ _ Hi)).
Qed.

(** C7. An accepted precommit is never decided a second time: once an attempt of a
    workflow's precommit is recorded as accepted, no later admission for that
    workflow succeeds, at any generation and under any limit. *)
Theorem accepted_precommit_never_repeated L db db' iid i aid a :
  0 <= L -> reachable L db -> db_intent db !! iid = Some i -> in_write_kind i = Precommit ->
  db_attempt db !! aid = Some a -> at_intent_id a = iid -> at_outcome a = Some Accepted ->
  rtc (step L) db db' ->
  forall text_le fd fi now d limit x, nd_network d = in_network i -> nd_workflow_id d = in_workflow_id i ->
    (forall t, nd_trace_id d = Some t -> trace_ok t) ->
    admit_precommit text_le fd fi now d limit db' <> Ok x.
Proof.
  intros HL Hr Hi Hk Ha Hai Ho Hrun text_le fd fi now d limit [x db2] Hn Hid Ht Hadm.
  destruct (run_ok L db db' (reachable_ok L db HL Hr) Hrun) as [Hsys' Hh].
  destruct (hist_intent _ _ Hh _ _ Hi) as (s & Hi' & _).
  destruct (hist_attempt _ _ Hh _ _ Ha) as (a' & Ha' & _ & Hint & _ & Hstep & _).
  rewrite Ho in Hstep. inversion Hstep as [o E1 E2|o E1 E2|o E1 E2 E3]; subst.
  apply admit_precommit_effect in Hadm as (t & _ & _ & _ & _ & _ & Htr & _); [|apply Hsys'|apply Hsys'|done].
  rewrite (accepted_precommit_transmitted _ _ db' (at_intent_id a) (set_state s i) aid a') in Htr; try done.
  by apply Hsys'.
Qed.
Definition again : NewDecision :=
  MkNewDecision Testnet "w1" 2 (nd_anchor sample_decision) (nd_draw sample_decision) "c001" "c001_a1" "cpu"
    (nd_track_settings sample_decision) JNull "12000" digest_a digest_a None.
Example accepted_precommit_never_repeated_witness :
  exists i a, db_intent sample_reached !! 2%N = Some i /\ db_attempt sample_reached !! 7%N = Some a /\
    forall x, admit_precommit str_leb 3 4 30 again 3 sample_reached <> Ok x.
Proof.
  do 2 eexists. split; [vm_compute; reflexivity|]. split; [vm_compute; reflexivity|].
  intros x.
  eapply (accepted_precommit_never_repeated 3 sample_reached sample_reached 2%N _ 7%N);
    [lia|exact sample_reachable|vm_compute; reflexivity|reflexivity|vm_compute; reflexivity|reflexivity|reflexivity
    |apply rtc_refl|reflexivity|reflexivity|by intros].
Defined.
