(* ===== verification/Bind.v ===== *)
(** * Binding a confirmed precommit: [crates/pool-controller/src/bind.rs]

    The transition the restart pass cannot make: a [DECIDED] workflow has no
    benchmark id, so the record of its precommit is found by searching the
    window for the exact settings the pool submitted.  Each workflow is bound by
    two statements, the transition and then the settling of its intent; both
    databases are visible in the model, because a process can stop between
    them.  Error texts are kept as the values they render. *)
From S2P Require Import Prelude BTreeMap Json Domain Workflow Store Intent Attempt Payload Admission Reconcile Restart System.
Open Scope Z_scope.

Inductive OneError :=
| OneWorkflow (e : WorkflowError)
| OneIntent (e : IntentError)
| OneAdmission (e : AdmissionError)
| OnePayload (e : PayloadError)
| NoIntent (workflow_id : string)
| NoDecision (workflow_id : string) (generation : Z).

(** Why a search stopped for an operator. *)
Inductive StoppedBy := Unreadable (e : ReconcileError) | Several (candidates : list string).

Inductive Bound :=
| BoundConfirmed (workflow_id benchmark_id : string)
| BoundPending (workflow_id : string)
| BoundNotFound (workflow_id : string)
| BoundStop (workflow_id : string) (reason : StoppedBy)
| BoundFailed (workflow_id : string) (error : OneError).

(** [value[key]]: [Null] when there is no such key. *)
Definition json_index (key : string) (v : Value) : Value := default JNull (json_get key v).

(** [max_by_key(|i| i.generation)]: the last of the largest. *)
Definition newest_of (l : list WriteIntent) : option WriteIntent :=
  fold_left (fun best i => match best with
                           | Some b => if in_generation i <? in_generation b then best else Some i
                           | None => Some i
                           end) l None.

Definition missing_detail (benchmark_id field : string) : OneError :=
  OnePayload (Shape benchmark_id field "present, as the search saw it").

(** The confirmed entry as [confirm_precommit]'s evidence. *)
Definition evidence_of (precommits : list Value) (benchmark_id : string) : result OneError ConfirmedPrecommit :=
  let? entry := ok_or (List.find (fun p => bool_decide (and_then (json_get "benchmark_id" p) json_as_str = Some benchmark_id))
                         precommits) (missing_detail benchmark_id "benchmark_id") in
  let? block_confirmed := ok_or (json_as_i64 (json_index "block_confirmed" (json_index "state" entry)))
    (missing_detail benchmark_id "state.block_confirmed") in
  let? block_started := ok_or (json_as_i64 (json_index "block_started" (json_index "details" entry)))
    (missing_detail benchmark_id "details.block_started") in
  Ok {| cp_benchmark_id := benchmark_id;
        cp_block_confirmed := block_confirmed;
        cp_block_started := block_started;
        cp_num_nonces := json_as_i64 (json_index "num_nonces" (json_index "details" entry));
        cp_num_bundles := None;
        cp_track_id := default "" (json_as_str (json_index "track_id" (json_index "settings" entry)));
        cp_settings := json_index "settings" entry |}.

Section bind.
Context (to_string : Value -> string) (n : Network) (player_id : string) (precommits : list Value).

(** The submission whose record is searched for: the newest generation's, from
    its decision. *)
Definition submission_of (workflow_id : string) (db : Db) : result OneError (WriteIntent * PrecommitSubmission) :=
  let? open := map_err OneIntent (claimable n Precommit db) in
  let? intent := ok_or (newest_of (filter (fun i => in_workflow_id i = workflow_id) open)) (NoIntent workflow_id) in
  let? inputs := map_err OneAdmission (payload_inputs n workflow_id (in_generation intent) db) in
  let? inputs := ok_or inputs (NoDecision workflow_id (in_generation intent)) in
  let? submitted := map_err OnePayload (from_decision player_id inputs) in
  Ok (intent, submitted).

(** [bind_one] up to the statements: what it will answer, or the id, evidence
    and intent it will bind. *)
Inductive Search := Answer (r : result OneError (option Bound)) | Found (b : string) (intent : WriteIntent) (ev : ConfirmedPrecommit).
Definition search_one (current : Workflow) (db : Db) : Search :=
  let workflow_id := wf_workflow_id current in
  if negb (has_transmitted_precommit_write n workflow_id db) then Answer (Ok None)
  else
    match submission_of workflow_id db with
    | Err e => Answer (Err e)
    | Ok (intent, submitted) =>
        match reconcile_precommit to_string precommits submitted with
        | Err e => Answer (Ok (Some (BoundStop workflow_id (Unreadable e))))
        | Ok PendingConfirmation => Answer (Ok (Some (BoundPending workflow_id)))
        | Ok NoCandidate => Answer (Ok (Some (BoundNotFound workflow_id)))
        | Ok (StopForOperator candidates) => Answer (Ok (Some (BoundStop workflow_id (Several candidates))))
        | Ok (ReconciledConfirmed benchmark_id) =>
            match evidence_of precommits benchmark_id with
            | Err e => Answer (Err e)
            | Ok ev => Found benchmark_id intent ev
            end
        end
    end.

Definition bind_one (current : Workflow) (db : Db) : result OneError (option Bound) * Db :=
  match search_one current db with
  | Answer r => (r, db)
  | Found benchmark_id intent ev =>
      match confirm_precommit n (wf_workflow_id current) (wf_revision current) ev db with
      | Err e => (Err (OneWorkflow e), db)
      | Ok (_, db1) =>
          match settle RoleController (in_intent_id intent) (SettledConfirmed benchmark_id) db1 with
          | Err e => (Err (OneIntent e), db1)
          | Ok (_, db2) => (Ok (Some (BoundConfirmed (wf_workflow_id current) benchmark_id)), db2)
          end
      end
  end.

Definition bind_step (acc : Db * list Bound) (current : Workflow) : Db * list Bound :=
  let '(db, outcomes) := acc in
  match bind_one current db with
  | (Ok (Some bound), db') => (db', outcomes ++ [bound])
  | (Ok None, db') => (db', outcomes)
  | (Err e, db') => (db', outcomes ++ [BoundFailed (wf_workflow_id current) e])
  end.

Definition bind_confirmed_precommits (text_le : string -> string -> bool) (db : Db)
  : result WorkflowError (list Bound * Db) :=
  let? decided := Workflow.in_state text_le n Decided db (fun _ => db) in
  let '(db', outcomes) := fold_left bind_step decided (db, []) in
  Ok (outcomes, db').
End bind.

(** ** Lemmas *)

Lemma claimable_spec n k db l : intents_ok (db_intent db) -> claimable n k db = Ok l ->
  forall i, i ∈ l -> db_intent db !! in_intent_id i = Some i /\ in_network i = n /\ in_write_kind i = k /\
    intent_terminal (in_state i) = false.
Proof.
  intros Hok Hc i Hi. unfold claimable in Hc. apply mapM_res_Ok in Hc.
  apply list_elem_of_lookup in Hi as [j Hj]. destruct (Forall2_lookup_r _ _ _ _ _ Hc Hj) as (i0 & Hi0 & Hr).
  apply list_elem_of_lookup_2 in Hi0. rewrite elem_of_sort_by in Hi0.
  apply list_elem_of_filter in Hi0 as [(Hn & Hk & Hs) Hrow]. apply elem_of_rows in Hrow as [id Hid].
  pose proof (proj1 Hok _ _ Hid) as Hiok. rewrite (read_intent id i0 Hiok) in Hr. injection Hr as <-.
  rewrite (iok_key _ _ Hiok). split; [done|]. split; [done|]. split; [done|].
  rewrite !elem_of_cons, elem_of_nil in Hs. by destruct Hs as [->|[->|[]]].
Qed.

Lemma newest_of_elem l i : newest_of l = Some i -> i ∈ l.
Proof.
  unfold newest_of. assert (forall b, fold_left (fun best i => match best with
      | Some b => if in_generation i <? in_generation b then best else Some i
      | None => Some i end) l b = Some i -> i ∈ l \/ b = Some i) as H.
  - induction l as [|j l IH]; intros b; simpl; [by right|]. intros [Hl|Hb]%IH; [left; by right|].
    destruct b as [b|]; [|injection Hb as ->; left; by left].
    destruct (in_generation j <? in_generation b); [by right|]. injection Hb as ->. left. by left.
  - intros E. by destruct (H _ E).
Qed.

Lemma submission_of_spec n player_id id db i sub : intents_ok (db_intent db) ->
  submission_of n player_id id db = Ok (i, sub) ->
  db_intent db !! in_intent_id i = Some i /\ in_network i = n /\ in_workflow_id i = id /\
  in_write_kind i = Precommit /\ intent_terminal (in_state i) = false.
Proof.
  intros Hok. unfold submission_of. destruct (claimable n Precommit db) as [open|] eqn:Hc; [|done]. simpl.
  destruct (newest_of _) as [j|] eqn:Hn; [|done]. simpl. destruct (payload_inputs _ _ _ _) as [[inputs|]|]; [|done..]. simpl.
  destruct (from_decision _ _) as [s|]; [|done]. intros [= -> ->].
  apply newest_of_elem, list_elem_of_filter in Hn as [Hid Hin].
  by destruct (claimable_spec _ _ _ _ Hok Hc _ Hin) as (? & ? & ? & ?).
Qed.

(** The search names a benchmark only when one record alone is the submitted
    precommit, and it is confirmed. *)
Definition only_match (to_string : Value -> string) (l : list Value) (sub : PrecommitSubmission) (b : string) : Prop :=
  exists i c, match_at to_string l sub i c /\ ca_confirmed c = true /\ ca_benchmark_id c = b /\
    forall j d, match_at to_string l sub j d -> j = i.
Lemma reconcile_confirmed to_string l sub b :
  reconcile_precommit to_string l sub = Ok (ReconciledConfirmed b) -> only_match to_string l sub b.
Proof.
  unfold reconcile_precommit. destruct (find_matches _ _ _ _) as [ms|] eqn:Hm; [|done].
  destruct (find_matches_spec _ _ _ _ Hm) as (cs & Hlen & Hcs & ->).
  pose proof (fun i c => match_at_elem to_string l sub cs c i Hlen Hcs) as Hat.
  destruct (filter _ cs) as [|c [|d rest]] eqn:Hf; cbn [map]; [done| |done].
  destruct (filter_singleton _ _ _ Hf) as (i & Hi & Pc & Hu). destruct (ca_confirmed c) eqn:Hc; [|done].
  intros [= <-]. exists i, c. split; [by apply Hat|]. split; [done|]. split; [done|].
  intros j d [Hj Hd]%Hat. by eapply Hu.
Qed.

Lemma evidence_names l b ev : evidence_of l b = Ok ev -> cp_benchmark_id ev = b.
Proof.
  unfold evidence_of. destruct (List.find _ l) as [entry|]; [|done]. simpl.
  destruct (json_as_i64 (json_index "block_confirmed" _)); [|done]. simpl.
  destruct (json_as_i64 (json_index "block_started" _)); [|done]. by intros [= <-].
Qed.

(** A search ends in an answer or in one confirmed record. *)
Definition found_by to_string n player_id l id b i ev db : Prop :=
  exists sub, submission_of n player_id id db = Ok (i, sub) /\ only_match to_string l sub b /\
    evidence_of l b = Ok ev /\ has_transmitted_precommit_write n id db = true.
Lemma search_found to_string n player_id l current db b i ev :
  search_one to_string n player_id l current db = Found b i ev ->
  found_by to_string n player_id l (wf_workflow_id current) b i ev db.
Proof.
  unfold search_one. destruct (has_transmitted_precommit_write _ _ db) eqn:Ht; [|done]. simpl.
  destruct (submission_of _ _ _ db) as [[j sub]|] eqn:Hs; [|done].
  destruct (reconcile_precommit _ _ _) as [[| |b'|]|] eqn:Hr; try done.
  destruct (evidence_of l b') as [ev'|] eqn:He; [|done]. intros [= -> -> ->].
  exists sub. split; [done|]. split; [by apply reconcile_confirmed|done].
Qed.
Lemma search_answers to_string n player_id l current db r :
  search_one to_string n player_id l current db = Answer r -> forall id b, r <> Ok (Some (BoundConfirmed id b)).
Proof.
  unfold search_one. intros H id b ->. repeat (case_match; simplify_eq/=).
Qed.

(** What one turn did: bound the workflow and settled its intent, or nothing. *)
Record bound_to (n : Network) (id b : string) (i : WriteIntent) (db db' : Db) : Prop := {
  bd_workflow : exists w w', db_workflow db !! (n, id) = Some w /\ wf_benchmark_id w' = Some b /\
    wf_state w' = PrecommitConfirmed /\ keeps w w' /\ wf_state w ∈ [Decided; PrecommitSubmitted] /\
    db_workflow db' = <[(n, id) := w']> (db_workflow db);
  bd_intent : db_intent db' = <[in_intent_id i := set_state Confirmed i]> (db_intent db);
  bd_rest : db' = with_workflow (db_workflow db') (with_intent (db_intent db') db);
}.

Lemma settle_open id i b db : intents_ok (db_intent db) -> db_intent db !! id = Some i -> intent_terminal (in_state i) = false ->
  settle RoleController id (SettledConfirmed b) db = Ok (set_state Confirmed i, with_intent (<[id := set_state Confirmed i]> (db_intent db)) db).
Proof.
  intros Hok Hi Hs. unfold settle. rewrite Hi, Hs. simpl. pose proof (proj1 Hok _ _ Hi) as Hiok.
  assert (update_intent RoleController Confirmed i db = Ok (with_intent (<[id := set_state Confirmed i]> (db_intent db)) db)) as ->.
  { apply update_intent_Ok. rewrite (iok_key _ _ Hiok). split; [right|done]. split; [done|]. split; [done|]. done. }
  simpl. destruct Hiok. by rewrite (read_intent id (set_state Confirmed i)).
Qed.

Lemma bind_one_effect to_string n player_id l current db r db' :
  intents_ok (db_intent db) -> workflows_ok (db_workflow db) ->
  bind_one to_string n player_id l current db = (r, db') ->
  (db' = db /\ forall id b, r <> Ok (Some (BoundConfirmed id b))) \/
  exists b i ev, r = Ok (Some (BoundConfirmed (wf_workflow_id current) b)) /\
    found_by to_string n player_id l (wf_workflow_id current) b i ev db /\
    bound_to n (wf_workflow_id current) b i db db'.
Proof.
  intros Hi Hw. unfold bind_one. destruct (search_one _ _ _ _ _ db) as [a|b i ev] eqn:Hs.
  { intros [= <- <-]. left. split; [done|]. by eapply search_answers. }
  pose proof (search_found _ _ _ _ _ _ _ _ _ Hs) as Hf. pose proof Hf as (sub & Hsub & Honly & Hev & _).
  destruct (submission_of_spec _ _ _ _ _ _ Hi Hsub) as (Hrow & Hn & Hid & _ & Hopen).
  destruct (confirm_precommit _ _ _ ev db) as [[w1 db1]|e] eqn:Hc.
  2:{ intros [= <- <-]. left. split; [done|]. by intros. }
  destruct (run_op_effect n (wf_workflow_id current) (wf_revision current) (OpConfirmPrecommit ev) db w1 db1 Hc)
    as (w & Hlook & _ & Hedge & _ & _ & _ & Hw1 & Hkeep & _ & _ & Hdb1).
  assert (Hk : wkey w1 = (n, wf_workflow_id current)).
  { destruct Hkeep as (-> & _). exact (ok_key _ _ (proj1 Hw _ _ Hlook)). }
  rewrite Hk in Hdb1. subst db1.
  rewrite (settle_open (in_intent_id i) i b (with_workflow (<[(n, wf_workflow_id current) := w1]> (db_workflow db)) db) Hi Hrow Hopen).
  intros [= <- <-]. right.
  exists b, i, ev. split; [done|]. split; [done|]. split; simpl; [|done|by destruct db].
  exists w, w1. split; [done|]. split; [by rewrite Hw1; simpl; rewrite (evidence_names _ _ _ Hev)|].
  split; [by rewrite Hw1|]. split; [done|]. split; [|done]. simpl in Hedge. by inversion Hedge.
Qed.

(** ** The pass *)

Section pass.
Context (to_string : Value -> string) (n : Network) (player_id : string) (l : list Value).

(** Every turn is a sequence of the store's transactions. *)
Lemma bind_one_steps L current db r db' :
  bind_one to_string n player_id l current db = (r, db') -> rtc (step L) db db'.
Proof.
  unfold bind_one. destruct (search_one _ _ _ _ _ db) as [a|b i ev]; [by intros [= _ <-]|].
  destruct (confirm_precommit _ _ _ ev db) as [[w1 db1]|e] eqn:Hc; [|by intros [= _ <-]].
  assert (H1 : step L db db1).
  { apply (step_txn L (TWorkflow n (wf_workflow_id current) (wf_revision current) (OpConfirmPrecommit ev))); [done|].
    simpl. by rewrite Hc. }
  destruct (settle _ _ _ db1) as [[i2 db2]|e] eqn:Hs; intros [= _ <-]; [|by apply rtc_once].
  eapply rtc_l; [exact H1|]. apply rtc_once.
  apply (step_txn L (TSettle RoleController (in_intent_id i) (SettledConfirmed b))); [done|]. simpl. by rewrite Hs.
Qed.

Lemma bind_loop_steps L ws db out db' out' :
  fold_left (bind_step to_string n player_id l) ws (db, out) = (db', out') -> rtc (step L) db db'.
Proof.
  revert db out. induction ws as [|w ws IH]; intros db out; simpl; [by intros [= <- _]|].
  destruct (bind_one _ _ _ _ w db) as [r d] eqn:Hb. intros H. etransitivity; [by eapply bind_one_steps|].
  destruct r as [[bound|]|e]; by eapply IH.
Qed.
Lemma bind_steps L text_le db outcomes db' :
  bind_confirmed_precommits to_string n player_id l text_le db = Ok (outcomes, db') -> rtc (step L) db db'.
Proof.
  unfold bind_confirmed_precommits. destruct (Workflow.in_state _ _ _ _ _) as [ws|]; [|done].
  destruct (fold_left _ ws _) as [d o] eqn:Hf. intros [= <- <-]. by eapply bind_loop_steps.
Qed.

(** Why a workflow was bound: the intent that was open for it, the submission
    its decision rebuilds to, and the one record of it. *)
Definition bound_because (db : Db) (id b : string) (i : WriteIntent) : Prop :=
  exists inputs sub, db_intent db !! in_intent_id i = Some i /\ in_network i = n /\ in_workflow_id i = id /\
    in_write_kind i = Precommit /\ intent_terminal (in_state i) = false /\
    payload_inputs n id (in_generation i) db = Ok (Some inputs) /\ from_decision player_id inputs = Ok sub /\
    only_match to_string l sub b.

(** Every other intent of the workflow is as it was. *)
Definition siblings_kept (id : string) (i : WriteIntent) (db db' : Db) : Prop :=
  forall jid j, jid <> in_intent_id i -> db_intent db !! jid = Some j -> in_workflow_id j = id -> db_intent db' !! jid = Some j.

(** Between turns: what each reported binding did, and that nothing else moved. *)
Record bind_inv (db0 : Db) (visited : list string) (db : Db) (out : list Bound) : Prop := {
  bi_bound : forall id b, BoundConfirmed id b ∈ out -> id ∈ visited /\ exists i w w', bound_because db0 id b i /\
    db_intent db !! in_intent_id i = Some (set_state Confirmed i) /\
    db_workflow db0 !! (n, id) = Some w /\ db_workflow db !! (n, id) = Some w' /\
    wf_state w' = PrecommitConfirmed /\ wf_benchmark_id w' = Some b /\ keeps w w' /\ siblings_kept id i db0 db;
  bi_workflows : forall k, db_workflow db !! k = db_workflow db0 !! k \/
    exists id b, k = (n, id) /\ BoundConfirmed id b ∈ out;
  bi_intents : forall iid, db_intent db !! iid = db_intent db0 !! iid \/
    exists i b, db_intent db0 !! iid = Some i /\ db_intent db !! iid = Some (set_state Confirmed i) /\
      BoundConfirmed (in_workflow_id i) b ∈ out;
  bi_rest : db = with_workflow (db_workflow db) (with_intent (db_intent db) db0);
}.
Lemma bind_inv_start db : bind_inv db [] db [].
Proof. split; [by intros id b ?%not_elem_of_nil|by left|by left|by destruct db]. Qed.

Lemma bind_inv_same db0 visited db out id x : bind_inv db0 visited db out ->
  (forall i b, x <> BoundConfirmed i b) -> bind_inv db0 (visited ++ [id]) db (out ++ [x]).
Proof.
  intros [H1 H2 H3 H4] Hx.
  assert (Hin : forall i b, BoundConfirmed i b ∈ out ++ [x] <-> BoundConfirmed i b ∈ out).
  { intros i b. rewrite elem_of_app, list_elem_of_singleton. split; [|by left]. intros [?|E]; [done|]. by destruct (Hx i b). }
  split; [|by setoid_rewrite Hin..|done].
  intros i b [Hi ?]%Hin%H1. split; [|done]. apply elem_of_app. by left.
Qed.
Lemma bind_inv_skip db0 visited db out id : bind_inv db0 visited db out -> bind_inv db0 (visited ++ [id]) db out.
Proof. intros [H1 H2 H3 H4]. split; [|done..]. intros i b [Hi ?]%H1. split; [|done]. apply elem_of_app. by left. Qed.

Lemma bind_inv_bound db0 visited db out id b i ev db' : intents_ok (db_intent db) ->
  bind_inv db0 visited db out -> id ∉ visited ->
  found_by to_string n player_id l id b i ev db -> bound_to n id b i db db' ->
  bind_inv db0 (visited ++ [id]) db' (out ++ [BoundConfirmed id b]).
Proof.
  intros Hiok [H1 H2 H3 H4] Hid (sub & Hsub & Honly & _) [(w & w' & Hw & Hb & Hst & Hkeep & _ & Hwf') Hin' Hrest].
  destruct (submission_of_spec _ _ _ _ _ _ Hiok Hsub) as (Hrow & Hn & Hwid & Hkind & Hopen).
  assert (Hrow0 : db_intent db0 !! in_intent_id i = Some i).
  { destruct (H3 (in_intent_id i)) as [E|(j & c & _ & E & _)]; [by rewrite <- E|].
    rewrite Hrow in E. injection E as ->. done. }
  assert (Hw0 : db_workflow db0 !! (n, id) = Some w).
  { destruct (H2 (n, id)) as [E|(id' & c & [= <-] & Hout)]; [by rewrite <- E|]. by apply H1 in Hout as [? _]. }
  split.
  - intros id' b' [Hold|E%list_elem_of_singleton]%elem_of_app.
    + destruct (H1 _ _ Hold) as (Hvis & j & v & v' & Hbec & Hj & Hv & Hv' & Hrest' & Hben' & Hkeep' & Hsib).
      split; [apply elem_of_app; by left|]. exists j, v, v'. split; [done|]. split; [|split; [done|split; [|split_and!; [done..|]]]].
      * rewrite Hin', lookup_insert_ne; [done|]. intros E. rewrite <- E, Hrow in Hj. injection Hj as ->. done.
      * rewrite Hwf', lookup_insert_ne; [done|]. intros [= ->]. done.
      * intros jid k Hne Hk Hkid. rewrite Hin', lookup_insert_ne; [by apply (Hsib jid)|]. intros <-. congruence.
    + injection E as -> ->. split; [apply elem_of_app; right; by left|]. exists i, w, w'. split; [|split; [|split; [|split]]].
      * unfold submission_of in Hsub. destruct (claimable n Precommit db); [|done]. simpl in Hsub.
        destruct (newest_of _) as [j|]; [|done]. simpl in Hsub.
        destruct (payload_inputs n id (in_generation j) db) as [[inputs|]|] eqn:Hp; [|done..]. simpl in Hsub.
        destruct (from_decision player_id inputs) as [s|] eqn:Hf; [|done]. injection Hsub as -> ->.
        exists inputs, sub. rewrite H4 in Hp. unfold payload_inputs in *. simpl in Hp. done.
      * by rewrite Hin', lookup_insert_eq.
      * done.
      * by rewrite Hwf', lookup_insert_eq.
      * split_and!; [done..|]. intros jid j Hne Hj Hjid. rewrite Hin', lookup_insert_ne by done.
        destruct (H3 jid) as [->|(j' & c & Hj' & _ & Hout)]; [done|]. rewrite Hj in Hj'. injection Hj' as <-. rewrite Hjid in Hout. by apply H1 in Hout as [? _].
  - intros k. destruct (decide (k = (n, id))) as [->|Hne].
    + right. exists id, b. split; [done|]. apply elem_of_app. right. by left.
    + rewrite Hwf', lookup_insert_ne by done. destruct (H2 k) as [|(x & c & ? & ?)]; [by left|]. right. exists x, c.
      split; [done|]. apply elem_of_app. by left.
  - intros iid. destruct (decide (iid = in_intent_id i)) as [->|Hne].
    + right. exists i, b. rewrite Hin', lookup_insert_eq, Hwid. split; [done|]. split; [done|]. apply elem_of_app. right. by left.
    + rewrite Hin', lookup_insert_ne by done. destruct (H3 iid) as [|(x & c & ? & ? & ?)]; [by left|]. right. exists x, c.
      split; [done|]. split; [done|]. apply elem_of_app. by left.
  - rewrite Hrest, H4. done.
Qed.

Lemma bind_loop_inv L db0 ws : system_ok L db0 -> NoDup (map wf_workflow_id ws) ->
  forall db out, fold_left (bind_step to_string n player_id l) ws (db0, []) = (db, out) ->
  bind_inv db0 (map wf_workflow_id ws) db out.
Proof.
  intros Hsys. induction ws as [|w ws IH] using rev_ind; intros Hnd db out.
  { simpl. intros [= <- <-]. apply bind_inv_start. }
  rewrite fold_left_app, map_app. simpl. rewrite map_app in Hnd. simpl in Hnd. apply NoDup_app in Hnd as (Hnd & Hdis & _).
  destruct (fold_left _ ws (db0, [])) as [d o] eqn:Hf. specialize (IH Hnd d o eq_refl).
  destruct (run_ok L db0 d Hsys (bind_loop_steps L ws db0 [] d o Hf)) as [Hd _].
  assert (Hnew : wf_workflow_id w ∉ map wf_workflow_id ws) by (intros Hin; apply (Hdis _ Hin); by left).
  unfold bind_step. destruct (bind_one _ _ _ _ w d) as [r d'] eqn:Hb.
  destruct (bind_one_effect _ _ _ _ _ _ _ _ (sys_intents _ _ Hd) (sys_workflows _ _ Hd) Hb)
    as [[-> Hr]|(b & i & ev & -> & Hfound & Hbound)].
  - destruct r as [[bound|]|e]; intros [= <- <-].
    + apply bind_inv_same; [done|]. intros x c ->. by destruct (Hr x c).
    + by apply bind_inv_skip.
    + by apply bind_inv_same.
  - intros [= <- <-]. eapply bind_inv_bound; [apply Hd|done..].
Qed.
End pass.

(** ** Properties *)

(** C32. A confirmed precommit is bound to the workflow that sent it, and to no
    other.  The pass, run to its end, always completes.  It binds a workflow
    exactly when it reports so: then the window holds one record alone of the
    submission the workflow's open precommit intent was recorded for, that record
    is confirmed, the workflow is [PRECOMMIT_CONFIRMED] with its benchmark id and
    keeps its identity, and that intent is settled [CONFIRMED], while every other
    intent of the workflow stays as it was.  No other workflow changes, no intent
    of a workflow that was not bound, nor any other table.  The two records of a
    binding are two transactions: what a stop between them leaves is
    [interrupted_binding_stays_open]. *)
Theorem binding_exact to_string n player_id l text_le L db :
  system_ok L db ->
  exists outcomes db', bind_confirmed_precommits to_string n player_id l text_le db = Ok (outcomes, db') /\
    (forall id b, BoundConfirmed id b ∈ outcomes -> exists i w w', bound_because to_string n player_id l db id b i /\
       db_workflow db !! (n, id) = Some w /\ wf_state w = Decided /\
       db_workflow db' !! (n, id) = Some w' /\ wf_state w' = PrecommitConfirmed /\ wf_benchmark_id w' = Some b /\ keeps w w' /\
       db_intent db' !! in_intent_id i = Some (set_state Confirmed i) /\ siblings_kept id i db db') /\
    (forall k, db_workflow db' !! k <> db_workflow db !! k -> exists id b, k = (n, id) /\ BoundConfirmed id b ∈ outcomes) /\
    (forall iid, db_intent db' !! iid <> db_intent db !! iid ->
       exists i b, db_intent db !! iid = Some i /\ db_intent db' !! iid = Some (set_state Confirmed i) /\
         BoundConfirmed (in_workflow_id i) b ∈ outcomes) /\
    db' = with_workflow (db_workflow db') (with_intent (db_intent db') db).
Proof.
  intros Hsys. unfold bind_confirmed_precommits, Workflow.in_state.
  destruct (in_states_visits n text_le [Decided] db (sys_workflows _ _ Hsys)) as (ws & -> & Hnd & Hvis).
  destruct (fold_left _ ws (db, [])) as [db' out] eqn:Hf.
  destruct (bind_loop_inv to_string n player_id l L db ws Hsys Hnd db' out Hf) as [H1 H2 H3 H4].
  exists out, db'. split; [done|]. split; [|split; [|split; [|done]]].
  - intros id b Hb. destruct (H1 id b Hb) as (Hid & i & w & w' & Hbec & Hi & Hw & Hw' & Hst & Hben & Hkeep & Hsib).
    exists i, w, w'. do 2 (split; [done|]). split; [|done].
    apply list_elem_of_fmap in Hid as (v & -> & [Hv Hs]%Hvis). rewrite Hw in Hv. injection Hv as ->.
    by apply list_elem_of_singleton in Hs.
  - intros k Hk. by destruct (H2 k).
  - intros iid Hk. destruct (H3 iid) as [|(i & b & ? & ? & ?)]; [done|]. eauto.
Qed.

(** The record TIG serves once it has confirmed the sample admission. *)
Definition ex_entry (state : Value) : Value :=
  json_object [("benchmark_id", JString "b9");
    ("settings", json_object [("player_id", JString "0xpool"); ("block_id", JString "blk"); ("challenge_id", JString "c001");
                              ("algorithm_id", JString "c001_a1"); ("track_id", JString "t1")]);
    ("details", json_object [("compute_type", JString "cpu"); ("hyperparameters", JNull); ("num_bundles", json_u64 4);
                             ("fuel_budget", json_u64 1000); ("block_started", json_u64 200); ("num_nonces", json_u64 64)]);
    ("state", state)].
Definition ex_confirmed : Value := ex_entry (json_object [("block_confirmed", json_u64 203)]).

(** One confirmed record binds the workflow; the same record twice stops for an
    operator, and an unconfirmed one waits. *)
Example binding_exact_witness :
  exists outcomes db', bind_confirmed_precommits decimal_stub Testnet "0xpool" [ex_confirmed] str_leb sample_reached = Ok (outcomes, db') /\
    outcomes = [BoundConfirmed "w1" "b9"] /\
    exists w', db_workflow db' !! (Testnet, "w1") = Some w' /\ wf_benchmark_id w' = Some "b9" /\ wf_state w' = PrecommitConfirmed.
Proof.
  destruct (binding_exact decimal_stub Testnet "0xpool" [ex_confirmed] str_leb 3 sample_reached
    (reachable_ok 3 sample_reached ltac:(lia) sample_reachable)) as (outcomes & db' & Hrun & Hb & _).
  assert (Ho : option_map fst (match bind_confirmed_precommits decimal_stub Testnet "0xpool" [ex_confirmed] str_leb sample_reached
    with Ok x => Some x | Err _ => None end) = Some [BoundConfirmed "w1" "b9"]) by (vm_compute; reflexivity).
  rewrite Hrun in Ho. simpl in Ho. injection Ho as ->.
  exists [BoundConfirmed "w1" "b9"], db'. split; [exact Hrun|]. split; [reflexivity|].
  destruct (Hb "w1" "b9") as (i & w & w' & _ & _ & _ & Hw' & Hs & Hben & _); [apply list_elem_of_here|]. exists w'. exact (conj Hw' (conj Hben Hs)).
Defined.
Definition bound_in (l : list Value) : option (list Bound) :=
  match bind_confirmed_precommits decimal_stub Testnet "0xpool" l str_leb sample_reached with Ok (o, _) => Some o | Err _ => None end.
Example several_or_pending :
  bound_in [ex_confirmed; ex_confirmed] = Some [BoundStop "w1" (Several ["b9"; "b9"])] /\
  bound_in [ex_entry JNull] = Some [BoundPending "w1"] /\ bound_in [] = Some [BoundNotFound "w1"].
Proof. vm_compute. done. Qed.

(** The two statements of a binding are two transactions, and the pass looks
    only at [DECIDED] workflows.  A process that stops between them leaves the
    workflow bound and its intent open, and no later pass, over any window,
    settles it: the intent stays as it was. *)
Theorem interrupted_binding_stays_open to_string n player_id l text_le L db iid i w outcomes db' :
  system_ok L db -> db_intent db !! iid = Some i -> in_network i = n ->
  db_workflow db !! (n, in_workflow_id i) = Some w -> wf_state w <> Decided ->
  bind_confirmed_precommits to_string n player_id l text_le db = Ok (outcomes, db') ->
  db_intent db' !! iid = Some i.
Proof.
  intros Hsys Hi Hn Hw Hs. unfold bind_confirmed_precommits, Workflow.in_state.
  destruct (in_states_visits n text_le [Decided] db (sys_workflows _ _ Hsys)) as (ws & -> & Hnd & Hvis).
  destruct (fold_left _ ws (db, [])) as [d out] eqn:Hf. intros [= <- <-].
  destruct (bind_loop_inv to_string n player_id l L db ws Hsys Hnd d out Hf) as [H1 _ H3 _].
  destruct (H3 iid) as [->|(j & b & Hj & _ & Hb)]; [done|]. rewrite Hi in Hj. injection Hj as <-.
  destruct (H1 _ _ Hb) as [Hid _]. apply list_elem_of_fmap in Hid as (v & Hv & [Hv1 Hv2]%Hvis).
  rewrite <- Hv, Hw in Hv1. injection Hv1 as <-. by apply list_elem_of_singleton in Hv2.
Qed.

(** The database such a stop leaves: the transition is in, the settling is not. *)
Definition ex_evidence : ConfirmedPrecommit :=
  match evidence_of [ex_confirmed] "b9" with Ok ev => ev | Err _ => sample_precommit end.
Definition ex_interrupted : Db :=
  match run_txns [TWorkflow Testnet "w1" 1 (OpConfirmPrecommit ex_evidence)] sample_reached with
  | Some db => db | None => sample_reached end.
Lemma ex_interrupted_reachable : reachable 3 ex_interrupted.
Proof.
  unfold ex_interrupted. destruct (run_txns _ sample_reached) as [d|] eqn:E; [|exact sample_reachable].
  apply (transitivity (R := rtc (step 3)) (y := sample_reached)); [exact sample_reachable|].
  eapply run_txns_steps; [|exact E]. apply Forall_singleton. exact I.
Qed.
Example interrupted_binding_stays_open_witness :
  exists i w, db_intent ex_interrupted !! 2%N = Some i /\ in_state i = Prepared /\
    db_workflow ex_interrupted !! (Testnet, "w1") = Some w /\ wf_state w = PrecommitConfirmed /\
    forall outcomes db', bind_confirmed_precommits decimal_stub Testnet "0xpool" [ex_confirmed] str_leb ex_interrupted = Ok (outcomes, db') ->
      db_intent db' !! 2%N = Some i.
Proof.
  eexists _, _. split; [vm_compute; reflexivity|]. split; [reflexivity|]. split; [vm_compute; reflexivity|]. split; [reflexivity|].
  intros outcomes db' Hrun. eapply (interrupted_binding_stays_open decimal_stub Testnet "0xpool" [ex_confirmed] str_leb 3 ex_interrupted 2%N);
    [apply (reachable_ok 3 ex_interrupted ltac:(lia) ex_interrupted_reachable)|vm_compute; reflexivity|reflexivity
    |vm_compute; reflexivity|discriminate|exact Hrun].
Defined.
