(* ===== verification/Reconciler.v ===== *)
(** * One block's reconciliation: [crates/pool-controller/src/reconciler.rs]

    From one persisted snapshot: the confirmed window is read, confirmed
    precommits are bound, every workflow is advanced from its evidence, and only
    then the deadline sweep runs over what is still unfinished, withholding the
    workflows the pass could not resolve.  Every statement commits on its own,
    so the pass threads the database and returns it beside its result. *)
From S2P Require Import Prelude BTreeMap Json Domain Deadlines Workflow Store Intent Attempt Payload Admission Reconcile Restart Window Snapshot SnapshotStore System Bind.
Open Scope Z_scope.

Record BlockReport := MkBlockReport {
  br_block_id : string;
  br_height : Z;
  br_bind : list Bound;
  br_restart : RestartReport;
  br_expired : list string;
  br_expiry_withheld : list string;
  br_expiry_failed : list (string * WorkflowError);
}.

Definition bound_blocks (b : Bound) : bool :=
  match b with BoundStop _ _ | BoundFailed _ _ => true | _ => false end.
Definition block_blocks_claiming (r : BlockReport) : bool :=
  blocks_claiming (br_restart r) || existsb bound_blocks (br_bind r) ||
  negb (match br_expiry_failed r with [] => true | _ => false end).

Inductive BlockOutcome :=
| OReconciled (r : BlockReport)
| OBlind (block_id : string) (height : Z) (reason : NotUsable).

Inductive BlockError :=
| RcWindow (e : WindowError)
| RcBind (e : WorkflowError)
| RcWorkflow (e : WorkflowError)
| RcMissingRead (endpoint : string)
| RcHeightOutOfRange (height : Z).

(** The workflows this pass could not resolve. *)
Definition bound_unresolved (b : Bound) : option string :=
  match b with BoundStop id _ | BoundFailed id _ => Some id | _ => None end.
Definition attention_unresolved (a : NeedsAttention) : option string :=
  match a with AttentionFailed id _ => Some id | _ => None end.
Definition unresolved (bind : list Bound) (restart : RestartReport) : list string :=
  omap bound_unresolved bind ++ omap attention_unresolved (rp_needs_attention restart).

(** The raw entries the search runs over. *)
Definition raw_precommits (benchmarks : Value) : list Value :=
  default [] (and_then (json_get "precommits" benchmarks) json_as_array).

Section pass.
Context (to_string : Value -> string) (text_le : string -> string -> bool).
Context (n : Network) (player_id : string) (guardrails : Guardrails).

(** The loop over [unfinished]. *)
Record Sweep := MkSweep {
  sw_db : Db; sw_expired : list string; sw_withheld : list string; sw_failed : list (string * WorkflowError) }.
Definition sweep_step (skip : list string) (height : Z) (s : Sweep) (current : Workflow) : Sweep :=
  let id := wf_workflow_id current in
  if bool_decide (id ∈ skip) then MkSweep (sw_db s) (sw_expired s) (sw_withheld s ++ [id]) (sw_failed s)
  else match expire_if_due guardrails n id height (sw_db s) (sw_db s) (sw_db s) with
       | Ok (Some _, db') => MkSweep db' (sw_expired s ++ [id]) (sw_withheld s) (sw_failed s)
       | Ok (None, _) => s
       | Err e => MkSweep (sw_db s) (sw_expired s) (sw_withheld s) (sw_failed s ++ [(id, e)])
       end.

Definition reconcile_block (snapshot : PersistedSnapshot) (db : Db) : result BlockError BlockOutcome * Db :=
  match for_reconciliation snapshot with
  | Err reason => (Ok (OBlind (sr_block_id (pe_record snapshot)) (sr_record_height (pe_record snapshot)) reason), db)
  | Ok snap =>
      match to_i64 (sn_height snap) with
      | None => (Err (RcHeightOutOfRange (sn_height snap)), db)
      | Some height =>
          match snapshot_read snap RdBenchmarks with
          | None => (Err (RcMissingRead (endpoint RdBenchmarks)), db)
          | Some benchmarks =>
              match confirmed_window benchmarks (sn_block snap) with
              | Err e => (Err (RcWindow e), db)
              | Ok window =>
                  match bind_confirmed_precommits to_string n player_id (raw_precommits benchmarks) text_le db with
                  | Err e => (Err (RcBind e), db)
                  | Ok (bind, db1) =>
                      match reconcile_after_restart n window text_le db1 with
                      | Err e => (Err (RcWorkflow e), db1)
                      | Ok (restart, db2) =>
                          match unfinished text_le n db2 (fun _ => db2) with
                          | Err e => (Err (RcWorkflow e), db2)
                          | Ok ws =>
                              let s := fold_left (sweep_step (unresolved bind restart) height) ws (MkSweep db2 [] [] []) in
                              (Ok (OReconciled (MkBlockReport (sn_block_id snap) height bind restart
                                 (sw_expired s) (sw_withheld s) (sw_failed s))), sw_db s)
                          end
                      end
                  end
              end
          end
      end
  end.
End pass.

(** ** Lemmas *)

(** The statement behind a sweep's turn. *)
Lemma expire_if_due_op g n id height db_read db_anchor db w' db' :
  expire_if_due g n id height db_read db_anchor db = Ok (Some w', db') ->
  exists r rev reason, db_workflow db_read !! (n, id) = Some r /\ is_due g n id r height db_anchor /\ rev = wf_revision r /\
    run_op n id rev (OpExpire reason height true) db = Ok (w', db').
Proof.
  unfold expire_if_due. rewrite find_spec. destruct (db_workflow db_read !! (n, id)) as [r|]; [|done].
  destruct (is_unfinished_local_work (wf_state r)) eqn:Hu; simpl; [|done]. case_bool_decide as Hexp; simpl; [|done].
  set (reason := match wf_confirmed_track_id r with Some _ => _ | None => _ end).
  destruct (expire_unless_a_write_is_in_flight _ _ _ _ _ _) as [[w1 d1]|e] eqn:Hrun; [|by destruct e].
  intros [= <- <-]. exists r, (wf_revision r), reason. done.
Qed.
Lemma expire_if_due_None g n id height db w db' :
  db_workflow db !! (n, id) = Some w -> expire_if_due g n id height db db db = Ok (None, db') ->
  ~ is_due g n id w height db \/ unsettled_write_exists n id db = true.
Proof.
  intros Hw. unfold expire_if_due. rewrite find_spec, Hw.
  destruct (is_unfinished_local_work (wf_state w)) eqn:Hu; simpl; [|left; intros [? _]; congruence].
  case_bool_decide as Hexp; simpl; [|left; by intros [_ ?]].
  set (reason := match wf_confirmed_track_id w with Some _ => _ | None => _ end).
  destruct (expire_unless_a_write_is_in_flight _ _ _ _ _ _) as [[w1 d1]|e] eqn:Hrun; [done|].
  destruct e; try done. intros _. right. destruct (unsettled_write_exists n id db) eqn:Hun; [done|].
  unfold expire_unless_a_write_is_in_flight, expire_inner, reject_member_fault in Hrun.
  destruct (existsb _ _); [done|]. unfold transition_guarded in Hrun. rewrite Hw, read_row, Hun in Hrun.
  destruct (negb _); [done|]. unfold end_with in Hrun. destruct (is_terminal _); [done|]. simpl in Hrun.
  destruct (i32_max <? _); [done|]. rewrite read_row in Hrun. destruct (update_workflow _ _ _) as [|de]; [done|].
  simpl in Hrun. by destruct (bool_decide _).
Qed.

Section sweep.
Context (n : Network) (guardrails : Guardrails) (skip : list string) (height : Z) (mid : Db).

(** A workflow the sweep ended: finished by nothing the pass read, past its
    age, with no write whose fate is unknown. *)
Definition ended_by_deadline (id : string) (db : Db) : Prop :=
  exists w w', db_workflow mid !! (n, id) = Some w /\ is_due guardrails n id w height mid /\
    unsettled_write_exists n id mid = false /\ db_workflow db !! (n, id) = Some w' /\ wf_state w' = Expired /\ keeps w w'.

Record sweep_inv (visited : list string) (s : Sweep) : Prop := {
  si_ended : forall id, id ∈ sw_expired s -> id ∈ visited /\ id ∉ skip /\ ended_by_deadline id (sw_db s);
  si_rows : forall k, db_workflow (sw_db s) !! k = db_workflow mid !! k \/ exists id, k = (n, id) /\ id ∈ sw_expired s;
  si_withheld : forall id, id ∈ sw_withheld s <-> id ∈ visited /\ id ∈ skip;
  si_left : forall id w, id ∈ visited -> db_workflow mid !! (n, id) = Some w -> is_due guardrails n id w height mid ->
    unsettled_write_exists n id mid = false -> id ∈ sw_expired s \/ id ∈ skip \/ id ∈ (sw_failed s).*1;
  si_failed : forall id, id ∈ (sw_failed s).*1 -> id ∈ visited;
  si_rest : sw_db s = with_workflow (db_workflow (sw_db s)) mid;
}.

(** The sweep reads no table it changes but the workflows'. *)
Lemma is_due_mid id w visited s : sweep_inv visited s -> is_due guardrails n id w height (sw_db s) <-> is_due guardrails n id w height mid.
Proof. intros H. by rewrite (si_rest _ _ H). Qed.
Lemma unsettled_mid id visited s : sweep_inv visited s -> unsettled_write_exists n id (sw_db s) = unsettled_write_exists n id mid.
Proof. intros H. by rewrite (si_rest _ _ H). Qed.

Lemma sweep_step_inv visited s w : workflows_ok (db_workflow mid) ->
  sweep_inv visited s -> wf_workflow_id w ∉ visited -> db_workflow mid !! (n, wf_workflow_id w) = Some w ->
  sweep_inv (visited ++ [wf_workflow_id w]) (sweep_step n guardrails skip height s w).
Proof.
  intros Hok Hinv Hnew Hw. pose proof Hinv as [H1 H2 H3 H4 H5 H6]. unfold sweep_step. set (id := wf_workflow_id w) in *.
  assert (Happ : forall x, x ∈ visited ++ [id] <-> x ∈ visited \/ x = id) by (intros x; by rewrite elem_of_app, list_elem_of_singleton).
  assert (Hcur : db_workflow (sw_db s) !! (n, id) = Some w).
  { destruct (H2 (n, id)) as [->|(x & [= <-] & Hx)]; [done|]. by apply H1 in Hx as [? _]. }
  case_bool_decide as Hskip.
  { split; simpl; try done.
    - intros x Hx. destruct (H1 x Hx) as (? & ? & ?). split; [apply Happ; by left|done].
    - intros x. rewrite elem_of_app, list_elem_of_singleton, H3, Happ. naive_solver.
    - intros x v [Hx| ->]%Happ Hv Hd Hu; [by apply (H4 x v)|]. right. by left.
    - intros x Hx. apply Happ. left. by apply H5. }
  destruct (expire_if_due _ _ _ _ _ _ _) as [[[w'|] db']|e] eqn:He.
  - destruct (expire_if_due_op _ _ _ _ _ _ _ _ _ He) as (r & rev & reason & Hr & Hdue & -> & Hop).
    rewrite Hcur in Hr. injection Hr as <-.
    destruct (run_op_effect _ _ _ _ _ _ _ Hop) as (w0 & Hw0 & _ & _ & _ & Hg & _ & Hset & Hkeep & _ & _ & Hdb').
    rewrite Hcur in Hw0. injection Hw0 as <-.
    assert (Hk : wkey w' = (n, id)) by (destruct Hkeep as (-> & _); exact (ok_key _ _ (proj1 Hok _ _ Hw))).
    rewrite Hk in Hdb'. subst db'. split; simpl.
    + intros x [Hx| ->%list_elem_of_singleton]%elem_of_app.
      * destruct (H1 x Hx) as (Hv & Hs & v & v' & ? & ? & ? & Hrow & ?). split; [apply Happ; by left|]. split; [done|].
        exists v, v'. cbn [db_workflow with_workflow]. rewrite lookup_insert_ne; [done|]. intros [= <-]. done.
      * split; [apply Happ; by right|]. split; [done|]. exists w, w'. cbn [db_workflow with_workflow]. rewrite lookup_insert_eq.
        split; [done|]. split; [by apply (is_due_mid id w visited s Hinv)|]. split; [rewrite <- (unsettled_mid id visited s Hinv); by apply Hg|].
        split; [done|]. split; [by rewrite Hset|done].
    + intros k. destruct (decide (k = (n, id))) as [->|Hne].
      * right. exists id. split; [done|]. apply elem_of_app. right. by left.
      * rewrite lookup_insert_ne by done. destruct (H2 k) as [|(x & ? & ?)]; [by left|]. right. exists x. split; [done|].
        apply elem_of_app. by left.
    + intros x. rewrite H3, Happ. naive_solver.
    + intros x v [Hx| ->]%Happ Hv Hd Hu; [|left; apply elem_of_app; right; by left].
      destruct (H4 x v Hx Hv Hd Hu) as [?|?]; [left; apply elem_of_app; by left|by right].
    + intros x Hx. apply Happ. left. by apply H5.
    + by rewrite H6.
  - apply (expire_if_due_None _ _ _ _ _ w) in He; [|done]. split; try done.
    + intros x Hx. destruct (H1 x Hx) as (? & ? & ?). split; [apply Happ; by left|done].
    + intros x. rewrite H3, Happ. naive_solver.
    + intros x v [Hx| ->]%Happ Hv Hd Hu; [by apply (H4 x v)|]. rewrite Hw in Hv. injection Hv as <-.
      rewrite (is_due_mid id w visited s Hinv), (unsettled_mid id visited s Hinv) in He. destruct He; [done|congruence].
    + intros x Hx. apply Happ. left. by apply H5.
  - split; simpl; try done.
    + intros x Hx. destruct (H1 x Hx) as (? & ? & ?). split; [apply Happ; by left|done].
    + intros x. rewrite H3, Happ. naive_solver.
    + intros x v [Hx| ->]%Happ Hv Hd Hu; rewrite fmap_app, elem_of_app; [|right; right; right; by left].
      destruct (H4 x v Hx Hv Hd Hu) as [?|[?|?]]; auto.
    + intros x. rewrite fmap_app, elem_of_app. simpl. rewrite list_elem_of_singleton, Happ. intros [?| ->]; [left; by apply H5|by right].
Qed.

Lemma sweep_loop_inv ws : workflows_ok (db_workflow mid) -> NoDup (map wf_workflow_id ws) ->
  (forall w, w ∈ ws -> db_workflow mid !! (n, wf_workflow_id w) = Some w) ->
  sweep_inv (map wf_workflow_id ws) (fold_left (sweep_step n guardrails skip height) ws (MkSweep mid [] [] [])).
Proof.
  intros Hok. induction ws as [|w ws IH] using rev_ind; intros Hnd Hrows.
  { split; simpl; [by intros ? ?%not_elem_of_nil|by left|intros id; rewrite !elem_of_nil; tauto
      |by intros ? ? ?%not_elem_of_nil|by intros ? ?%not_elem_of_nil|by destruct mid]. }
  rewrite fold_left_app, map_app. simpl. rewrite map_app in Hnd. simpl in Hnd. apply NoDup_app in Hnd as (Hnd & Hdis & _).
  apply sweep_step_inv; [done| | |apply Hrows, elem_of_app; right; by left].
  - apply IH; [done|]. intros v Hv. apply Hrows, elem_of_app. by left.
  - intros Hin. apply (Hdis _ Hin). by left.
Qed.

Lemma sweep_steps L ws s : rtc (step L) (sw_db s) (sw_db (fold_left (sweep_step n guardrails skip height) ws s)).
Proof.
  revert s. induction ws as [|w ws IH]; intros s; [apply rtc_refl|]. simpl. etransitivity; [|apply IH].
  unfold sweep_step. case_bool_decide; [apply rtc_refl|].
  destruct (expire_if_due _ _ _ _ _ _ _) as [[[w'|] db']|e] eqn:He; [|apply rtc_refl..].
  destruct (expire_if_due_op _ _ _ _ _ _ _ _ _ He) as (r & rev & reason & _ & _ & -> & Hop). apply rtc_once.
  apply (step_txn L (TWorkflow n (wf_workflow_id w) (wf_revision r) (OpExpire reason height true))); [done|]. unfold run_txn. by rewrite Hop.
Qed.
End sweep.

(** The stages of a pass that reached the sweep. *)
Record pass_parts (to_string : Value -> string) (text_le : string -> string -> bool) (n : Network) (player_id : string)
    (guardrails : Guardrails) (snapshot : PersistedSnapshot) (db db' : Db) (r : BlockReport) (benchmarks : Value)
    (window : ConfirmedWindow) (bound mid : Db) : Prop := {
  pp_complete : for_reconciliation snapshot = Ok (pe_snapshot snapshot);
  pp_height : br_height r = sn_height (pe_snapshot snapshot);
  pp_read : snapshot_read (pe_snapshot snapshot) RdBenchmarks = Some benchmarks;
  pp_window : confirmed_window benchmarks (sn_block (pe_snapshot snapshot)) = Ok window;
  pp_bind : bind_confirmed_precommits to_string n player_id (raw_precommits benchmarks) text_le db = Ok (br_bind r, bound);
  pp_restart : reconcile_after_restart n window text_le bound = Ok (br_restart r, mid);
  pp_sweep : exists ws, unfinished text_le n mid (fun _ => mid) = Ok ws /\
    fold_left (sweep_step n guardrails (unresolved (br_bind r) (br_restart r)) (br_height r)) ws (MkSweep mid [] [] [])
      = MkSweep db' (br_expired r) (br_expiry_withheld r) (br_expiry_failed r);
}.

(** A pass ends blind, refuses the snapshot, or goes through all its stages;
    the queries between them cannot fail on the store's own rows. *)
Lemma block_pass_cases to_string text_le n player_id guardrails snapshot L db r db' :
  system_ok L db -> reconcile_block to_string text_le n player_id guardrails snapshot db = (r, db') ->
  match r with
  | Err (RcBind _) | Err (RcWorkflow _) => False
  | Err _ => db' = db
  | Ok (OBlind _ _ reason) => db' = db /\ for_reconciliation snapshot = Err reason
  | Ok (OReconciled report) => exists benchmarks window bound mid,
      pass_parts to_string text_le n player_id guardrails snapshot db db' report benchmarks window bound mid
  end.
Proof.
  intros Hsys. unfold reconcile_block. destruct (for_reconciliation snapshot) as [snap|] eqn:Hfor; [|by intros [= <- <-]].
  assert (snap = pe_snapshot snapshot) as -> by (unfold for_reconciliation in Hfor; by destruct (negb _); simplify_eq).
  unfold to_i64. destruct (Z.leb_spec (sn_height (pe_snapshot snapshot)) i64_max); [|by intros [= <- <-]].
  destruct (snapshot_read _ _) as [benchmarks|] eqn:Hread; [|by intros [= <- <-]].
  destruct (confirmed_window _ _) as [window|] eqn:Hwin; [|by intros [= <- <-]].
  destruct (bind_confirmed_precommits _ _ _ _ _ _) as [[bind db1]|] eqn:Hb.
  2:{ exfalso. unfold bind_confirmed_precommits, Workflow.in_state in Hb.
      destruct (in_states_visits n text_le [Decided] db (sys_workflows _ _ Hsys)) as (ws & E & _). rewrite E in Hb.
      by destruct (fold_left _ ws _). }
  destruct (run_ok L db db1 Hsys (bind_steps _ _ _ _ L _ _ _ _ Hb)) as [Hsys1 _].
  destruct (reconcile_after_restart _ _ _ _) as [[restart db2]|] eqn:Hr.
  2:{ exfalso. unfold reconcile_after_restart in Hr.
      destruct (nonterminal_visits n text_le db1 (sys_workflows _ _ Hsys1)) as (ws & E & _). rewrite E in Hr.
      by destruct (fold_left _ ws _). }
  destruct (restart_txn L n window text_le db1 restart db2 Hsys1 Hr) as [Hsys2 _].
  destruct (unfinished _ _ _ _) as [ws|] eqn:Hu.
  2:{ exfalso. unfold unfinished in Hu. set (states := filter _ all_states) in Hu.
      destruct (in_states_visits n text_le states db2 (sys_workflows _ _ Hsys2)) as (ws & E & _). congruence. }
  intros [= <- <-]. exists benchmarks, window, db1, db2. split; try done.
  exists ws. split; [done|]. cbn [br_bind br_restart br_height br_expired br_expiry_withheld br_expiry_failed].
  by destruct (fold_left _ ws _).
Qed.

(** An unresolved workflow blocks claiming. *)
Lemma claiming_means_resolved r : block_blocks_claiming r = false ->
  unresolved (br_bind r) (br_restart r) = [] /\ br_expiry_failed r = [].
Proof.
  unfold block_blocks_claiming, blocks_claiming, unresolved. rewrite !orb_false_iff. intros [[Hr Hb] Hf]. split.
  - assert (omap bound_unresolved (br_bind r) = []) as ->.
    { induction (br_bind r) as [|[] l IH]; simpl in *; try done; by apply IH. }
    induction (rp_needs_attention (br_restart r)) as [|[] l IH]; simpl in *; try done; by apply IH.
  - by destruct (br_expiry_failed r).
Qed.

(** The pass as a run. *)
Lemma block_pass_run to_string text_le n player_id guardrails snapshot L db r db' :
  system_ok L db ->
  reconcile_block to_string text_le n player_id guardrails snapshot db = (r, db') ->
  rtc (step L) db db' /\ system_ok L db' /\ history_le db db' /\
  match r with
  | Ok (OReconciled _) => sn_reads_complete (pe_snapshot snapshot) = true
  | Ok (OBlind _ _ _) => sn_reads_complete (pe_snapshot snapshot) = false /\ db' = db
  | Err (RcBind _) | Err (RcWorkflow _) => False
  | Err _ => db' = db
  end.
Proof.
  intros Hsys H. pose proof (block_pass_cases _ _ _ _ _ _ _ _ _ _ Hsys H) as Hc.
  assert (Hrun : rtc (step L) db db').
  { destruct r as [[report|b h reason]|e]; [|destruct Hc as [-> _]; apply rtc_refl|destruct e; (done || subst; apply rtc_refl)].
    destruct Hc as (benchmarks & window & db1 & db2 & [_ _ _ _ Hb Hr (ws & _ & Hs)]).
    etransitivity; [by apply (bind_steps _ _ _ _ L _ _ _ _ Hb)|].
    eapply rtc_l; [apply (step_txn L (TRestart n window text_le)); [done|]; simpl; by rewrite Hr|].
    pose proof (sweep_steps n guardrails (unresolved (br_bind report) (br_restart report)) (br_height report) L ws
      (MkSweep db2 [] [] [])) as Hsw. by rewrite Hs in Hsw. }
  destruct (run_ok L db db' Hsys Hrun). do 3 (split; [done|]). unfold for_reconciliation in Hc.
  destruct r as [[report|b h reason]|e]; [|destruct Hc as [-> Hf]|by destruct e].
  - destruct Hc as (benchmarks & window & db1 & db2 & [Hf _ _ _ _ _ _]). unfold for_reconciliation in Hf.
    by destruct (sn_reads_complete _).
  - by destruct (sn_reads_complete _).
Qed.

(** ** Properties *)

(** Whatever it ends in, a pass is a run of the store's own transactions, so
    everything proved of the store's writers holds across it: the joint
    invariant is kept and nothing recorded is taken back.  A pass over
    incomplete reads does nothing at all, and neither does one that refuses its
    snapshot; nothing else can fail. *)
Theorem block_pass_is_a_run to_string text_le n player_id guardrails snapshot L db r db' :
  system_ok L db ->
  reconcile_block to_string text_le n player_id guardrails snapshot db = (r, db') ->
  rtc (step L) db db' /\ system_ok L db' /\ history_le db db' /\
  match r with
  | Ok (OReconciled _) => sn_reads_complete (pe_snapshot snapshot) = true
  | Ok (OBlind _ _ _) => sn_reads_complete (pe_snapshot snapshot) = false /\ db' = db
  | Err (RcBind _) | Err (RcWorkflow _) => False
  | Err _ => db' = db
  end.
Proof. apply block_pass_run. Qed.

(** The deadline comes last and spares what is not known.  The sweep starts from
    the database in which this block's own evidence has been applied.  It ends
    only workflows that are still unfinished there, past their age, with no
    write whose fate is unknown, and never one the pass could not resolve;
    every workflow it should end it ends, unless it was withheld or the
    statement failed, and both are reported.  When the report lets work be
    claimed, nothing was unresolved and no due workflow is left. *)
Theorem deadlines_spare_the_unresolved to_string text_le n player_id guardrails snapshot L db r db' :
  system_ok L db ->
  reconcile_block to_string text_le n player_id guardrails snapshot db = (Ok (OReconciled r), db') ->
  exists benchmarks window bound mid,
    confirmed_window benchmarks (sn_block (pe_snapshot snapshot)) = Ok window /\
    reconcile_after_restart n window text_le bound = Ok (br_restart r, mid) /\
    (forall id, id ∈ br_expired r -> id ∉ unresolved (br_bind r) (br_restart r) /\
       ended_by_deadline n guardrails (br_height r) mid id db') /\
    (forall k, db_workflow db' !! k <> db_workflow mid !! k -> exists id, k = (n, id) /\ id ∈ br_expired r) /\
    (forall id w, db_workflow mid !! (n, id) = Some w -> is_due guardrails n id w (br_height r) mid ->
       unsettled_write_exists n id mid = false ->
       id ∈ br_expired r \/ id ∈ br_expiry_withheld r \/ id ∈ (br_expiry_failed r).*1) /\
    (block_blocks_claiming r = false -> br_expiry_withheld r = [] /\
       forall id w, db_workflow mid !! (n, id) = Some w -> is_due guardrails n id w (br_height r) mid ->
         unsettled_write_exists n id mid = false -> id ∈ br_expired r).
Proof.
  intros Hsys H. destruct (block_pass_cases _ _ _ _ _ _ _ _ _ _ Hsys H)
    as (benchmarks & window & bound & mid & [_ _ _ Hwin Hb Hr (ws & Hu & Hs)]).
  destruct (run_ok L db bound Hsys (bind_steps _ _ _ _ L _ _ _ _ Hb)) as [Hsys1 _].
  destruct (restart_txn L n window text_le bound _ mid Hsys1 Hr) as [Hsys2 _].
  unfold unfinished in Hu. set (states := filter _ all_states) in Hu.
  destruct (in_states_visits n text_le states mid (sys_workflows _ _ Hsys2)) as (ws' & E & Hnd & Hvis).
  rewrite Hu in E. injection E as <-.
  destruct (sweep_loop_inv n guardrails (unresolved (br_bind r) (br_restart r)) (br_height r) mid ws (sys_workflows _ _ Hsys2) Hnd)
    as [H1 H2 H3 H4 H5 _]; [intros w Hw; by apply Hvis|].
  rewrite Hs in H1, H2, H3, H4, H5. simpl in *.
  assert (Hlist : forall id w, db_workflow mid !! (n, id) = Some w -> is_due guardrails n id w (br_height r) mid -> id ∈ map wf_workflow_id ws).
  { intros id w Hw [Hun _]. pose proof (ok_key _ _ (proj1 (sys_workflows _ _ Hsys2) _ _ Hw)) as [= _ Hid].
    apply list_elem_of_fmap. exists w. split; [done|]. apply Hvis. rewrite Hid. split; [done|].
    unfold states. apply list_elem_of_filter. split; [done|apply all_states_complete]. }
  assert (Hdue : forall id w, db_workflow mid !! (n, id) = Some w -> is_due guardrails n id w (br_height r) mid ->
    unsettled_write_exists n id mid = false ->
    id ∈ br_expired r \/ id ∈ br_expiry_withheld r \/ id ∈ (br_expiry_failed r).*1).
  { intros id w Hw Hd Hn. pose proof (Hlist id w Hw Hd) as Hin.
    destruct (H4 id w Hin Hw Hd Hn) as [?|[?|?]]; [by left|right; left; by apply H3|by right; right]. }
  exists benchmarks, window, bound, mid. split; [done|]. split; [done|]. split; [|split; [|split; [done|]]].
  - intros id Hid. destruct (H1 id Hid) as (_ & ? & ?). done.
  - intros k Hk. destruct (H2 k); [done|]. done.
  - intros Hc. destruct (claiming_means_resolved r Hc) as [Hun Hfail].
    assert (Hw : br_expiry_withheld r = []).
    { destruct (br_expiry_withheld r) as [|x l]; [done|]. destruct (proj1 (H3 x) ltac:(by left)) as [_ Hx].
      rewrite Hun in Hx. by apply not_elem_of_nil in Hx. }
    split; [done|]. intros id w Hrow Hd Hn. destruct (Hdue id w Hrow Hd Hn) as [?|[Hx|Hx]]; [done|..].
    + rewrite Hw in Hx. by apply not_elem_of_nil in Hx.
    + rewrite Hfail in Hx. by apply not_elem_of_nil in Hx.
Qed.

(** ** A block at height 400, long past the sample admission's anchor *)

Definition ex_benchmarks (precommits : list Value) : Value :=
  json_object [("precommits", JArray precommits); ("benchmarks", JArray []); ("proofs", JArray []); ("frauds", JArray [])].
Definition ex_block : Value := json_object [("id", JString "b400"); ("details", json_object [("height", json_u64 400)])].
Definition ex_persisted (complete : bool) (precommits : list Value) : PersistedSnapshot :=
  MkPersisted {| sn_block_id := "b400"; sn_height := 400; sn_block := ex_block;
                 sn_reads := [("get-benchmarks", ex_benchmarks precommits)]; sn_tracks := [];
                 sn_reads_complete := complete; sn_active_cache_ready := true |}
    (MkSnapshotRecord Testnet "b400" 400 complete true (replicate 32 0)).
Definition ex_block_pass (complete : bool) (precommits : list Value) :=
  reconcile_block decimal_stub str_leb Testnet "0xpool" lenient (ex_persisted complete precommits) sample_reached.
Definition ex_report (complete : bool) (precommits : list Value) : option (list Bound * list string * list string * bool) :=
  match fst (ex_block_pass complete precommits) with
  | Ok (OReconciled r) => Some (br_bind r, br_expired r, br_expiry_withheld r, block_blocks_claiming r)
  | _ => None
  end.

Lemma sample_reached_ok : system_ok 3 sample_reached.
Proof. exact (reachable_ok 3 sample_reached ltac:(lia) sample_reachable). Qed.

(** Two records of one submission: the workflow is long overdue, and spared. *)
Example deadlines_spare_the_unresolved_witness :
  exists r db', ex_block_pass true [ex_confirmed; ex_confirmed] = (Ok (OReconciled r), db') /\
    br_expired r = [] /\ br_expiry_withheld r = ["w1"] /\ block_blocks_claiming r = true /\
    exists mid, (forall k, db_workflow db' !! k <> db_workflow mid !! k -> exists id, k = (Testnet, id) /\ id ∈ br_expired r).
Proof.
  assert (Hr : ex_report true [ex_confirmed; ex_confirmed] = Some ([BoundStop "w1" (Several ["b9"; "b9"])], [], ["w1"], true))
    by (vm_compute; reflexivity).
  unfold ex_report in Hr. destruct (ex_block_pass true [ex_confirmed; ex_confirmed]) as [[[r|]|] db'] eqn:E; try discriminate Hr.
  simpl in Hr. injection Hr as _ H1 H2 H3. exists r, db'. split; [reflexivity|]. split; [exact H1|]. split; [exact H2|]. split; [exact H3|].
  destruct (deadlines_spare_the_unresolved decimal_stub str_leb Testnet "0xpool" lenient (ex_persisted true [ex_confirmed; ex_confirmed])
    3 sample_reached r db' sample_reached_ok E) as (_ & _ & _ & mid & _ & _ & _ & Hk & _). exists mid. exact Hk.
Defined.

(** Nothing confirmed, everything known: the overdue workflow is ended. *)
Example overdue_is_ended : ex_report true [] = Some ([BoundNotFound "w1"], ["w1"], [], false).
Proof. vm_compute. reflexivity. Qed.

Example block_pass_is_a_run_witness :
  snd (ex_block_pass false [ex_confirmed]) = sample_reached /\ system_ok 3 (snd (ex_block_pass true [ex_confirmed])).
Proof.
  split.
  - destruct (ex_block_pass false [ex_confirmed]) as [r db'] eqn:E.
    destruct (block_pass_is_a_run decimal_stub str_leb Testnet "0xpool" lenient (ex_persisted false [ex_confirmed])
      3 sample_reached r db' sample_reached_ok E) as (_ & _ & _ & Hm).
    destruct r as [[r|? ? ?]|[]]; [discriminate Hm|exact (proj2 Hm)|exact Hm|destruct Hm|destruct Hm|exact Hm|exact Hm].
  - destruct (ex_block_pass true [ex_confirmed]) as [r db'] eqn:E.
    exact (proj1 (proj2 (block_pass_is_a_run decimal_stub str_leb Testnet "0xpool" lenient (ex_persisted true [ex_confirmed])
      3 sample_reached r db' sample_reached_ok E))).
Defined.
