(* ===== verification/Ingest.v ===== *)
(** * Taking one block in: [crates/pool-controller/src/ingest.rs]

    The last local height is read, the block's snapshot assembled, the
    active-benchmark cache advanced for it, the heights missed since recorded as
    gaps, and the snapshot persisted, in that order.  The outside world [W] is
    what the sources read from; the database and the cache's table are threaded
    through beside it. *)
From stdpp Require Import pretty.
From S2P Require Import Prelude BTreeMap Json Domain Workflow Store Payload Restart Snapshot SnapshotStore ActiveCache System.
Open Scope Z_scope.

Inductive IngestError :=
| InSnapshot (e : SnapshotError)
| InStore (e : SnapshotStoreError)
| InCache (e : CacheError)
| InGap (e : WorkflowError)
| InHeightOutOfRange (height : Z).

Record Ingested := MkIngested { ig_snapshot : PersistedSnapshot; ig_gaps_recorded : list Z; ig_cache : Advance }.

(** What ingestion reads and writes through. *)
Record Ingestor (W : Type) := MkIngestor {
  ir_source : SnapshotSource W;
  ir_benchmark_data : string -> W -> result SnapshotError Value * W;
  ir_network : Network;
  ir_assembly_attempts : Z;
  ir_cache_budget : nat;
}.
Arguments ir_source {W} _.
Arguments ir_benchmark_data {W} _ _ _.
Arguments ir_network {W} _.
Arguments ir_assembly_attempts {W} _.
Arguments ir_cache_budget {W} _.

Definition with_cache_ready (ready : bool) (s : Snapshot) : Snapshot :=
  MkSnapshot (sn_block_id s) (sn_height s) (sn_block s) (sn_reads s) (sn_tracks s) (sn_reads_complete s) ready.

Section ingest.
Context {W : Type} (sha256 : string -> Bytes) (to_string : Value -> string) (show : SnapshotError -> string).
Context (ing : Ingestor W).
Abbreviation n := (ir_network ing).

Definition warm_cache (snapshot : Snapshot) (t : MetaTable) (w : W) : result IngestError Advance * MetaTable * W :=
  match active_benchmark_ids snapshot with
  | Err e => (Err (InSnapshot e), t, w)
  | Ok active =>
      let '(r, t, w) := advance (ir_benchmark_data ing) show n (sn_height snapshot) active (ir_cache_budget ing) t w in
      (map_err InCache r, t, w)
  end.

(** The [match last_local]. *)
Definition record_missed (last_local : option Z) (observed : Z) (db : Db) : result IngestError (list Z * Db) :=
  match last_local with
  | None => Ok ([], db)
  | Some last =>
      match to_i64 last with
      | None => Err (InHeightOutOfRange last)
      | Some last => map_err InGap (record_block_gap n last observed db)
      end
  end.

Definition ingest (db : Db) (t : MetaTable) (w : W) : result IngestError Ingested * Db * MetaTable * W :=
  match last_local_height n db with
  | Err e => (Err (InStore e), db, t, w)
  | Ok last_local =>
      match assemble (ir_source ing) (ir_assembly_attempts ing) w with
      | (Err e, w) => (Err (InSnapshot e), db, t, w)
      | (Ok snapshot, w) =>
          match to_i64 (sn_height snapshot) with
          | None => (Err (InHeightOutOfRange (sn_height snapshot)), db, t, w)
          | Some observed =>
              match warm_cache snapshot t w with
              | (Err e, t, w) => (Err e, db, t, w)
              | (Ok cache, t, w) =>
                  let snapshot := with_cache_ready (covers_active_set cache) snapshot in
                  match record_missed last_local observed db with
                  | Err e => (Err e, db, t, w)
                  | Ok (gaps_recorded, db1) =>
                      match persist sha256 to_string n snapshot db1 with
                      | Err e => (Err (InStore e), db1, t, w)
                      | Ok (persisted, db2) => (Ok (MkIngested persisted gaps_recorded cache), db2, t, w)
                      end
                  end
              end
          end
      end
  end.
End ingest.

(** ** No height is lost silently *)

(** [h] was taken in completely, or is on record as missed. *)
Definition accounted_for (n : Network) (db : Db) (h : Z) : Prop :=
  h ∈ complete_heights n db \/ is_Some (db_gap db !! (n, h)).
(** Nothing from [base] up to a complete height is unaccounted for. *)
Definition gapless_from (n : Network) (base : Z) (db : Db) : Prop :=
  base ∈ complete_heights n db /\ forall top h, top ∈ complete_heights n db -> base <= h <= top -> accounted_for n db h.

Lemma elem_of_complete n db h : h ∈ complete_heights n db <->
  exists b d r, db_snapshot db !! (n, b, d) = Some r /\ sr_reads_complete r = true /\ sr_height r = h.
Proof.
  unfold complete_heights. rewrite list_elem_of_fmap. split.
  - intros ([[[m b] d] r] & -> & [[Hm Hc] Hin%elem_of_map_to_list]%list_elem_of_filter). simpl in *. subst m. eauto 6.
  - intros (b & d & r & Hr & Hc & <-). exists ((n, b, d), r). split; [done|]. apply list_elem_of_filter.
    split; [done|]. by apply elem_of_map_to_list.
Qed.

Lemma record_block_gap_covers n after observed db hs db' :
  record_block_gap n after observed db = Ok (hs, db') ->
  db_snapshot db' = db_snapshot db /\ db_gap db ⊆ db_gap db' /\
  forall h, after < h < observed -> is_Some (db_gap db' !! (n, h)).
Proof.
  unfold record_block_gap. destruct (Z.leb_spec observed (after + 1)); [intros [= <- <-]; split; [done|split; [done|lia]]|].
  destruct (_ || _); [done|]. intros [= <- <-]. simpl. split; [done|].
  set (recorded := filter _ (seqZ _ _)).
  assert (Ht : forall k, fold_right (fun h t => <[(n, h) := MkGapRow after observed None]> t) (db_gap db) recorded !! k =
    if bool_decide (k.1 = n /\ k.2 ∈ recorded) then Some (MkGapRow after observed None) else db_gap db !! k)
    by (intros k; apply gap_table_lookup).
  split.
  - apply map_subseteq_spec. intros k g Hk. rewrite Ht, bool_decide_eq_false_2; [done|].
    intros [Hn Hr]. apply list_elem_of_filter in Hr as [Hr _]. destruct k. simpl in *. subst. congruence.
  - intros h Hh. rewrite Ht. case_bool_decide as Hd; [done|]. destruct (db_gap db !! (n, h)) eqn:E; [done|]. exfalso. apply Hd.
    split; [done|]. apply list_elem_of_filter. split; [done|]. apply elem_of_seqZ. simpl. lia.
Qed.

Lemma persist_adds sha256 to_string n s db p db' : persist sha256 to_string n s db = Ok (p, db') ->
  db_gap db' = db_gap db /\ db_snapshot db ⊆ db_snapshot db' /\
  forall h, h ∈ complete_heights n db' -> h ∈ complete_heights n db \/ h = sn_height s.
Proof.
  intros (_ & _ & _ & (_ & _ & [[-> _]|(-> & Hk & _)])%insert_snapshot_Ok)%persist_Ok; [split; [done|split; [done|by left]]|].
  simpl. split; [done|]. split; [by apply insert_subseteq|]. intros h (b & d & r & Hr & Hc & <-)%elem_of_complete. simpl in Hr.
  apply lookup_insert_Some in Hr as [[_ <-]|[_ Hr]]; [by right|]. left. apply elem_of_complete. eauto 6.
Qed.

Lemma complete_mono n db db' h : db_snapshot db ⊆ db_snapshot db' -> h ∈ complete_heights n db -> h ∈ complete_heights n db'.
Proof.
  intros Hs (b & d & r & Hr & Hc & <-)%elem_of_complete. apply elem_of_complete. exists b, d, r.
  split; [|done]. by eapply lookup_weaken.
Qed.
Lemma accounted_mono n db db' h : db_snapshot db ⊆ db_snapshot db' -> db_gap db ⊆ db_gap db' ->
  accounted_for n db h -> accounted_for n db' h.
Proof.
  intros Hs Hg [?|[g Hgap]]; [left; by eapply complete_mono|]. right. exists g. by eapply lookup_weaken.
Qed.
Lemma gapless_same n base db db' : db_snapshot db' = db_snapshot db -> db_gap db ⊆ db_gap db' -> gapless_from n base db -> gapless_from n base db'.
Proof.
  intros Hs Hg [Hb H]. assert (E : complete_heights n db' = complete_heights n db) by (unfold complete_heights; by rewrite Hs).
  unfold gapless_from. rewrite E. split; [done|]. intros top h Ht Hh.
  apply (accounted_mono n db); [by rewrite Hs|exact Hg|]. by apply (H top).
Qed.
Lemma gapless_at_top n top db : max_list (complete_heights n db) = Some top -> gapless_from n top db.
Proof.
  intros [Hin Hmax]%max_list_Some. split; [done|]. intros top' h Ht Hh. left. replace h with top; [done|]. specialize (Hmax _ Ht). lia.
Qed.

(** The databases one ingestion commits: the gap rows, then the snapshot. *)
Record ingest_commits {W} sha256 to_string (ing : Ingestor W) (db db1 db2 : Db) : Prop := {
  ic_gap : db1 = db \/ exists last observed hs, max_list (complete_heights (ir_network ing) db) = Some last /\
    record_block_gap (ir_network ing) last observed db = Ok (hs, db1);
  ic_snapshot : db2 = db1 \/ exists s p, persist sha256 to_string (ir_network ing) s db1 = Ok (p, db2) /\
    match max_list (complete_heights (ir_network ing) db) with
    | None => db1 = db
    | Some last => exists hs, record_block_gap (ir_network ing) last (sn_height s) db = Ok (hs, db1)
    end;
}.
Lemma ingest_commits_of {W} sha256 to_string show (ing : Ingestor W) db t w r db' t' w' :
  ingest sha256 to_string show ing db t w = (r, db', t', w') ->
  exists db1, ingest_commits sha256 to_string ing db db1 db' /\ (is_Ok r = false -> db' = db1).
Proof.
  intros H. assert (Hnone : ingest_commits sha256 to_string ing db db db) by (split; by left).
  unfold ingest, last_local_height in H.
  destruct (max_list (complete_heights (ir_network ing) db)) as [last|] eqn:Hmax.
  - destruct (last <? 0); [simplify_eq; by exists db'|].
    destruct (assemble _ _ _) as [[s|e] w1]; [|simplify_eq; by exists db'].
    unfold to_i64 in H. destruct (sn_height s <=? i64_max); [|simplify_eq; by exists db'].
    destruct (warm_cache _ _ _ _ _) as [[[cache|e] t1] w2]; [|simplify_eq; by exists db'].
    unfold record_missed, to_i64 in H. destruct (last <=? i64_max); [|simplify_eq; by exists db'].
    destruct (record_block_gap _ _ _ _) as [[hs db1]|e] eqn:Hg; [|simplify_eq/=; by exists db']. cbn [map_err] in H.
    exists db1. destruct (persist _ _ _ _ _) as [[p d]|e] eqn:Hp; simplify_eq/=; (split; [|done]).
    + split; [right; eauto 6|]. right. eexists _, p. split; [exact Hp|]. rewrite Hmax. eauto.
    + split; [right; eauto 6|by left].
  - destruct (assemble _ _ _) as [[s|e] w1]; [|simplify_eq; by exists db'].
    unfold to_i64 in H. destruct (sn_height s <=? i64_max); [|simplify_eq; by exists db'].
    destruct (warm_cache _ _ _ _ _) as [[[cache|e] t1] w2]; [|simplify_eq; by exists db'].
    simpl in H. exists db. destruct (persist _ _ _ _ _) as [[p d]|e] eqn:Hp; simplify_eq/=; (split; [|done]).
    + split; [by left|]. right. eexists _, p. split; [exact Hp|]. by rewrite Hmax.
    + split; by left.
Qed.

(** A later height joins what was there, once the heights between are on record. *)
Lemma gapless_persist sha256 to_string n base s db1 p db2 :
  persist sha256 to_string n s db1 = Ok (p, db2) -> gapless_from n base db1 ->
  (forall last, max_list (complete_heights n db1) = Some last ->
     forall h, last < h < sn_height s -> is_Some (db_gap db1 !! (n, h))) ->
  gapless_from n base db2.
Proof.
  intros Hp [Hb H] Hcov. destruct (persist_adds _ _ _ _ _ _ _ Hp) as (Hgap & Hsub & Hadd).
  assert (Hmono : forall h, accounted_for n db1 h -> accounted_for n db2 h)
    by (intros h; apply accounted_mono; [done|by rewrite Hgap]).
  split; [by eapply complete_mono|]. intros top h Ht Hh.
  destruct (Hadd top Ht) as [Hold| ->]; [apply Hmono; by apply (H top)|].
  destruct (max_list (complete_heights n db1)) as [last|] eqn:Hm.
  2:{ apply max_list_None in Hm. rewrite Hm in Hb. by apply not_elem_of_nil in Hb. }
  pose proof (proj1 (max_list_Some _ _) Hm) as [Hin _].
  destruct (Z.le_gt_cases h last); [apply Hmono; apply (H last); [done|lia]|].
  destruct (Z.eq_dec h (sn_height s)) as [->|]; [by left|]. right. rewrite Hgap. apply (Hcov last eq_refl). lia.
Qed.

(** Taking blocks in, beside every other writer: an ingestion to its end, an
    ingestion that stops between its two commits, whatever height it saw, and
    any transaction of another component, which neither writes snapshots nor
    removes gap rows. *)
Inductive taken_in (n : Network) : Db -> Db -> Prop :=
| ti_ingest {W} sha256 to_string show (ing : Ingestor W) db t w r db' t' w' :
    ir_network ing = n -> ingest sha256 to_string show ing db t w = (r, db', t', w') -> taken_in n db db'
| ti_stopped {W} (ing : Ingestor W) last_local observed db hs db1 :
    ir_network ing = n -> last_local_height n db = Ok last_local ->
    record_missed ing last_local observed db = Ok (hs, db1) -> taken_in n db db1
| ti_other db db' : db_snapshot db' = db_snapshot db -> db_gap db ⊆ db_gap db' -> taken_in n db db'.

Lemma ingest_gapless {W} sha256 to_string (ing : Ingestor W) base db db1 db2 :
  ingest_commits sha256 to_string ing db db1 db2 -> gapless_from (ir_network ing) base db -> gapless_from (ir_network ing) base db2.
Proof.
  intros [Hgap Hsnap] Hg.
  assert (H1 : gapless_from (ir_network ing) base db1).
  { destruct Hgap as [->|(last & observed & hs & _ & (Hs & Hsub & _)%record_block_gap_covers)]; [done|]. by apply (gapless_same _ _ db). }
  destruct Hsnap as [->|(s & p & Hp & Hmax)]; [done|]. eapply gapless_persist; [exact Hp|done|].
  intros last Hlast. destruct (max_list (complete_heights (ir_network ing) db)) as [last0|] eqn:Hm.
  - destruct Hmax as (hs & (Hs & _ & Hcov)%record_block_gap_covers).
    unfold complete_heights in Hlast. rewrite Hs in Hlast. fold (complete_heights (ir_network ing) db) in Hlast.
    rewrite Hm in Hlast. by injection Hlast as ->.
  - subst. congruence.
Qed.
Lemma taken_in_gapless n base db db' : taken_in n db db' -> gapless_from n base db -> gapless_from n base db'.
Proof.
  intros [W sha to_s show ing d t w r d' t' w' <- Hi|W ing ll observed d hs d1 <- Hl Hr|d d' Hs Hg] H0.
  - destruct (ingest_commits_of _ _ _ _ _ _ _ _ _ _ _ Hi) as (d1 & Hc & _). by eapply ingest_gapless.
  - unfold record_missed in Hr. destruct ll as [last|]; [|by simplify_eq]. destruct (to_i64 last) as [l|]; [|done].
    destruct (record_block_gap _ _ _ _) as [[hs' d']|] eqn:Hg; simplify_eq/=.
    destruct (record_block_gap_covers _ _ _ _ _ _ Hg) as (Hs & Hsub & _). by apply (gapless_same _ _ d).
  - by apply (gapless_same _ _ d).
Qed.

(** ** Properties *)


(** A source that serves one block, of the height the world stands at. *)
Definition ex_served (height : Z) : Value :=
  json_object [("id", JString (pretty height)); ("config", json_object []);
    ("data", json_object [("confirmed_ids", json_object []); ("active_ids", json_object [("benchmark", JArray [])])]);
    ("details", json_object [("height", json_u64 height); ("prev_block_id", JString "p"); ("round", json_u64 1);
                             ("timestamp", json_u64 0)])].
Definition ex_source : SnapshotSource Z :=
  MkSource Z (fun w => (Ok (ex_served w), w))
    (fun r _ w => (Ok (json_object [("challenges", JArray [])]), w)) (fun _ _ w => (Ok JNull, w)).
Definition ex_ingestor : Ingestor Z :=
  MkIngestor Z ex_source (fun id w => (Err (SnUnavailable "get-benchmark-data" id), w)) Testnet 3 5.
(** A stand-in for SHA-256 over a stand-in for the printer: the height's text, padded. *)
Definition ex_sha (s : string) : Bytes := Z.of_nat (String.length s) :: replicate 31 0.
Definition ex_text (v : Value) : string :=
  match and_then (json_get "height" v) json_as_u64 with Some h => pretty h | None => "" end.
Definition ex_take (height : Z) (db : Db) : Db :=
  let '(_, db', _, _) := ingest ex_sha ex_text (fun _ => "") ex_ingestor db ∅ height in db'.

Lemma ex_take_step height db : taken_in Testnet db (ex_take height db).
Proof.
  unfold ex_take. destruct (ingest _ _ _ _ db ∅ height) as [[[r d] t] w] eqn:E. exact (ti_ingest Testnet _ _ _ ex_ingestor _ _ _ _ _ _ _ eq_refl E).
Qed.

