(* ===== verification/Decide.v ===== *)
(** * One deciding pass: [crates/pool-controller/src/decide.rs]

    The durable half of a decision: the snapshot is proposed from, the reserve
    the proposal implies is computed, and the decision is admitted with its
    precommit intent in one transaction.  Hash functions, serde_json's printer,
    the database's text order, generated uuids, the clock and the drawn workflow
    id are parameters. *)
From stdpp Require Import pretty.
From S2P Require Import Prelude Text BTreeMap Json Domain Challenge Algorithm Bundles Workflow Store Intent Payload Admission Restart Window Snapshot SnapshotStore ActiveCache Propose System.
Open Scope Z_scope.

Inductive PassOutcome :=
| SnapshotNotUsable (why : NotUsable)
| PassNoAction
| BlockedForOperator
| NotReconciled (why : NotUsable)
| PassAdmitted (a : AdmittedPrecommit).

Inductive DecideError :=
| DePropose (e : ProposeError)
| DeAdmission (e : AdmissionError)
| DePayload (e : PayloadError)
| DeHeightOutOfRange (height : Z)
| NoWorkflowId
| NoPenaltyAmount
| FailureChargeUnreadable (text : string).

(** [u128]'s [to_string], and its saturating operations. *)
Definition dec_text (n : Z) : string := pretty (Z.to_N n).
Definition saturating_mul (a b : Z) : Z := Z.min u128_max (a * b).
Definition saturating_add (a b : Z) : Z := Z.min u128_max (a + b).

(** ** The reserve *)

Definition assignment_reserve (penalty_amount fee failure_charge num_bundles : Z) : Z :=
  saturating_add (saturating_add (saturating_mul penalty_amount num_bundles) fee) failure_charge.
Definition fee_of (proposal : Proposal) (track : string) : Z := default 0 (bt_get track (pr_fee_by_track proposal)).

Definition reserve_step (proposal : Proposal) (penalty_amount failure_charge : Z) (acc : btree Value * Z) (entry : string * Z)
  : btree Value * Z :=
  let '(by_track, max) := acc in
  let '(track, num_bundles) := entry in
  let fee := fee_of proposal track in
  let method := saturating_mul penalty_amount num_bundles in
  let total := assignment_reserve penalty_amount fee failure_charge num_bundles in
  (bt_insert track (json_object
     [("num_bundles", json_u64 num_bundles);
      ("method_reserve_atoms", JString (dec_text method));
      ("tig_fee_atoms", JString (dec_text fee));
      ("failure_charge_atoms", JString (dec_text failure_charge));
      ("assignment_reserve_atoms", JString (dec_text total))]) by_track,
   Z.max max total).

Definition RESERVE_NOTE : string :=
  String.concat "" ["accounting.md "; section_sign; "11.4 inputs only; slice 1 posts no batch (slice-1 plan D2c). X is unchosen (pre_build_checklist.md ";
                    section_sign; "5.2)."].
Definition reserve (proposal : Proposal) (penalty_amount failure_charge : Z) (policy_version : string) : Value * string :=
  let '(by_track, max) := fold_left (reserve_step proposal penalty_amount failure_charge)
                            (bz_num_bundles (pr_bundle_sizing proposal)) (bt_empty, 0) in
  (json_object [("penalty_amount_atoms", JString (dec_text penalty_amount)); ("policy_version", JString policy_version);
                ("by_track", JObject by_track); ("note", JString RESERVE_NOTE)],
   dec_text max).

Definition penalty_amount (s : Snapshot) : result DecideError Z :=
  ok_or (and_then (and_then (json_path ["config"; "reports"; "penalty_amount"] (unwrap_block (sn_block s))) json_as_str) parse_u128)
    NoPenaltyAmount.

(** [workflow_id]: the hex of sixteen drawn bytes; [None] when the OS gives
    none. *)
Definition workflow_id (drawn : option Bytes) : result DecideError string :=
  let? bytes := ok_or drawn NoWorkflowId in Ok (to_hex bytes).

(** ** The pass *)

Section decide.
Context (sha256 : string -> Bytes) (blake3 : list Z -> list Z) (to_string : Value -> string).
Context (text_le : string -> string -> bool).

Definition recorded_draw (p : Proposal) : RecordedDraw :=
  {| dw_domain := CHALLENGE_TIE_DOMAIN;
     dw_draw_ranks := bt_collect (map (fun kv => (kv.1, JString (DrawRank_to_hex kv.2))) (pr_draw_ranks p));
     dw_tie := match pr_tie_candidates p, pr_tie_winner p with
               | Some candidates, Some winner => Some (MkTie candidates winner)
               | _, _ => None
               end |}.

(** The [NewDecision] literal. *)
Definition new_decision (n : Network) (workflow_id : string) (persisted : PersistedSnapshot) (p : Proposal) (height : Z)
    (reserve_inputs : Value) (precommit_reserve : string) (config_digest : Bytes) (submission : PrecommitSubmission)
    (trace_id : option TraceId) : NewDecision :=
  {| nd_network := n; nd_workflow_id := workflow_id; nd_generation := 1;
     nd_anchor := MkAnchor (sn_block_id (pe_snapshot persisted)) (sr_content_digest (pe_record persisted)) height;
     nd_draw := recorded_draw p;
     nd_selected_challenge := pr_selected_challenge p; nd_selected_algorithm := pr_selected_algorithm p;
     nd_compute_type := pr_compute_type p; nd_track_settings := pr_track_settings p;
     nd_reserve_inputs := reserve_inputs; nd_precommit_reserve := precommit_reserve;
     nd_config_digest := config_digest; nd_payload_digest := precommit_digest sha256 to_string submission;
     nd_trace_id := trace_id |}.

(** What the pass decides before it touches the database. *)
Inductive Prepared_ := Declined (o : PassOutcome) | ToAdmit (d : NewDecision).
Definition prepare (n : Network) (player_id : string) (offer : Offer) (persisted : PersistedSnapshot) (window : ConfirmedWindow)
    (active : list ActiveBenchmarkMeta) (failure_charge_atoms policy_version : string) (config_digest : Bytes)
    (trace_id : option TraceId) (drawn : option Bytes) : result DecideError Prepared_ :=
  match for_decision persisted with
  | Err why => Ok (Declined (SnapshotNotUsable why))
  | Ok snapshot =>
      let? proposed := map_err DePropose (propose blake3 snapshot window n player_id offer active) in
      match proposed with
      | NoAction _ => Ok (Declined PassNoAction)
      | ProposedPrecommit proposal =>
          let? height := ok_or (to_i64 (sr_record_height (pe_record persisted)))
            (DeHeightOutOfRange (sr_record_height (pe_record persisted))) in
          let? id := workflow_id drawn in
          let? charge := ok_or (parse_u128 failure_charge_atoms) (FailureChargeUnreadable failure_charge_atoms) in
          let? penalty := penalty_amount snapshot in
          let '(reserve_inputs, precommit_reserve) := reserve proposal penalty charge policy_version in
          let? submission := map_err DePayload (from_decision player_id (payload_of snapshot proposal)) in
          Ok (ToAdmit (new_decision n id persisted proposal height reserve_inputs precommit_reserve config_digest submission trace_id))
      end
  end.

Definition decide_once (n : Network) (player_id : string) (offer : Offer) (persisted : PersistedSnapshot) (window : ConfirmedWindow)
    (active : list ActiveBenchmarkMeta) (limit : Z) (failure_charge_atoms policy_version : string) (config_digest : Bytes)
    (trace_id : option TraceId) (drawn : option Bytes) (fresh_decision fresh_intent : Uuid) (now : Z) (db : Db)
  : result DecideError PassOutcome * Db :=
  match prepare n player_id offer persisted window active failure_charge_atoms policy_version config_digest trace_id drawn with
  | Err e => (Err e, db)
  | Ok (Declined o) => (Ok o, db)
  | Ok (ToAdmit d) =>
      match admit_precommit text_le fresh_decision fresh_intent now d limit db with
      | Err e => (Err (DeAdmission e), db)
      | Ok (a, db') => (Ok (PassAdmitted a), db')
      end
  end.
End decide.

(** ** Decimal text *)

Lemma pretty_char_value x : (x < 10)%N -> digit_value (pretty_N_char x) = Z.of_N x.
Proof.
  intros Hx. unfold digit_value. unfold pretty_N_char. destruct x as [|[[[[]|[]|]|[[]|[]|]|]|[[[]|[]|]|[[]|[]|]|]|]]; done || lia.
Qed.

Lemma pretty_go_spec x : forall s, all_bytes is_ascii_digit s = true ->
  all_bytes is_ascii_digit (pretty_N_go x s) = true /\
  atoms_value (pretty_N_go x s) = Z.of_N x * pow10 s + atoms_value s /\
  ((0 < x)%N -> starts_with_zero (pretty_N_go x s) = false /\ (String.length s < String.length (pretty_N_go x s))%nat) /\
  (forall k, Z.of_N x < 10 ^ Z.of_nat k -> (String.length (pretty_N_go x s) <= String.length s + k)%nat).
Proof.
  induction (N.lt_wf_0 x) as [x _ IH]; intros s Hs.
  destruct (decide (x = 0)%N) as [->|Hx]; [rewrite pretty_N_go_0; split; [done|split; [lia|split; [lia|lia]]]|].
  rewrite pretty_N_go_step by lia. set (c := pretty_N_char (x mod 10)).
  pose proof (pretty_char_is_digit (x mod 10) ltac:(by apply N.mod_lt)) as Hc.
  pose proof (pretty_char_value (x mod 10) ltac:(by apply N.mod_lt)) as Hv. fold c in Hc, Hv.
  assert (Hdm : Z.of_N x = 10 * Z.of_N (x / 10) + Z.of_N (x mod 10)).
  { rewrite <- (N2Z.inj_mul 10), <- N2Z.inj_add. f_equal. by apply N.div_mod. }
  destruct (IH (x / 10)%N ltac:(apply N.div_lt; lia) (String c s)) as (H1 & H2 & H3 & H4).
  { simpl. by rewrite Hc, Hs. }
  split; [done|]. split; [|split].
  - rewrite H2, pow10_cons, atoms_value_cons, Hv. rewrite Hdm. ring.
  - intros _. destruct (decide (x / 10 = 0)%N) as [E|E].
    + rewrite E, pretty_N_go_0. simpl. split; [|lia].
      assert (x mod 10 = x)%N as Em by (rewrite E in Hdm; simpl in Hdm; lia).
      destruct (N.eqb_spec (Ascii.N_of_ascii c) 48) as [E0|]; [|done].
      unfold digit_value in Hv. rewrite E0, Em in Hv. lia.
    + destruct (H3 (proj1 (N.neq_0_lt_0 _) E)) as [? Hlen]. simpl in Hlen. split; [done|lia].
  - intros [|k] Hk; [simpl in Hk; lia|]. specialize (H4 k). simpl in H4.
    rewrite Nat.add_succ_r. apply H4. rewrite Nat2Z.inj_succ, Z.pow_succ_r in Hk by lia.
    pose proof (N2Z.is_nonneg (x mod 10)). nia.
Qed.

Lemma dec_text_spec n : 0 <= n <= u128_max ->
  canonical_atoms (dec_text n) = Ok tt /\ atoms_value (dec_text n) = n.
Proof.
  intros Hn. unfold dec_text, pretty, pretty_N. case_decide as H0.
  { assert (n = 0) as -> by lia. split; reflexivity. }
  destruct (pretty_go_spec (Z.to_N n) "" eq_refl) as (H1 & H2 & H3 & H4). split.
  - apply canonical_atoms_Ok. destruct (H3 ltac:(lia)) as [Hz Hl]. simpl in Hl. split; [|split; [done|congruence]].
    split; [lia|]. specialize (H4 39%nat). simpl in H4.
    assert (Z.of_N (Z.to_N n) < 10 ^ 39) by (rewrite Z2N.id by lia; unfold u128_max in Hn; lia). specialize (H4 ltac:(done)). lia.
  - rewrite H2, Z2N.id by lia. unfold pow10, atoms_value. simpl. lia.
Qed.

(** ** The reserve *)

Lemma assignment_reserve_spec P F X n : 0 <= P -> 0 <= F -> 0 <= X -> 0 <= n ->
  assignment_reserve P F X n = Z.min u128_max (P * n + F + X).
Proof. intros. unfold assignment_reserve, saturating_add, saturating_mul. nia. Qed.

(** What must be held for the worst track TIG may select. *)
Definition reserve_for (P X : Z) (fees : btree Z) (tracks : btree Z) (R : Z) : Prop :=
  (forall t n, (t, n) ∈ tracks -> Z.min u128_max (P * n + default 0 (bt_get t fees) + X) <= R) /\
  (tracks = [] /\ R = 0 \/
   exists t n, (t, n) ∈ tracks /\ R = Z.min u128_max (P * n + default 0 (bt_get t fees) + X)).

Lemma reserve_loop_spec p P X (l : btree Z) acc : 0 <= P -> 0 <= X ->
  (forall t n, (t, n) ∈ l -> 0 <= n /\ 0 <= default 0 (bt_get t (pr_fee_by_track p))) -> 0 <= snd acc <= u128_max ->
  let M := snd (fold_left (reserve_step p P X) l acc) in
  snd acc <= M <= u128_max /\
  (forall t n, (t, n) ∈ l -> Z.min u128_max (P * n + default 0 (bt_get t (pr_fee_by_track p)) + X) <= M) /\
  (M = snd acc \/ exists t n, (t, n) ∈ l /\ M = Z.min u128_max (P * n + default 0 (bt_get t (pr_fee_by_track p)) + X)).
Proof.
  intros HP HX. revert acc. induction l as [|[t n] l IH]; intros [b m] Hl Hm; simpl in *.
  { split; [lia|]. split; [by intros t n ?%not_elem_of_nil|by left]. }
  destruct (Hl t n) as [Hn Hf]; [by left|].
  assert (Ha : assignment_reserve P (fee_of p t) X n = Z.min u128_max (P * n + default 0 (bt_get t (pr_fee_by_track p)) + X))
    by (by apply assignment_reserve_spec).
  set (cap := Z.min u128_max (P * n + default 0 (bt_get t (pr_fee_by_track p)) + X)) in *.
  assert (0 <= cap <= u128_max) by (unfold cap, u128_max in *; nia).
  destruct (IH (bt_insert t (json_object
     [("num_bundles", json_u64 n); ("method_reserve_atoms", JString (dec_text (saturating_mul P n)));
      ("tig_fee_atoms", JString (dec_text (fee_of p t))); ("failure_charge_atoms", JString (dec_text X));
      ("assignment_reserve_atoms", JString (dec_text (assignment_reserve P (fee_of p t) X n)))]) b,
    Z.max m (assignment_reserve P (fee_of p t) X n))) as (H1 & H2 & H3); simpl.
  { intros t' n' H'. apply Hl. by right. }
  { rewrite Ha. lia. }
  simpl in H1, H2, H3. set (M := snd (fold_left _ l _)) in *. clearbody M. rewrite Ha in H1, H3. split; [lia|]. split.
  - intros t' n' [[= -> ->]|Hin]%elem_of_cons; [fold cap; lia|by apply H2].
  - destruct H3 as [H3|(t' & n' & Hin & H3)]; [|right; exists t', n'; split; [by right|done]].
    destruct (Z.max_spec m cap) as [[? E]|[? E]]; rewrite E in H3; [right; exists t, n; split; [by left|done]|by left].
Qed.

Lemma reserve_spec p P X policy : 0 <= P -> 0 <= X ->
  (forall t n, (t, n) ∈ bz_num_bundles (pr_bundle_sizing p) -> 0 <= n /\ 0 <= default 0 (bt_get t (pr_fee_by_track p))) ->
  canonical_atoms (snd (reserve p P X policy)) = Ok tt /\
  reserve_for P X (pr_fee_by_track p) (bz_num_bundles (pr_bundle_sizing p)) (atoms_value (snd (reserve p P X policy))).
Proof.
  intros HP HX Hl.
  destruct (reserve_loop_spec p P X (bz_num_bundles (pr_bundle_sizing p)) (bt_empty, 0) HP HX Hl) as (H1 & H2 & H3);
    [unfold u128_max; simpl; lia|].
  unfold reserve. destruct (fold_left _ _ _) as [b M]. simpl in *.
  destruct (dec_text_spec M H1) as [Hc Hv]. split; [done|]. rewrite Hv. split; [done|].
  destruct H3 as [->|?]; [|by right]. destruct (bz_num_bundles _) as [|[t n] l]; [by left|]. right.
  exists t, n. split; [by left|]. specialize (H2 t n ltac:(by left)). destruct (Hl t n) as [? ?]; [by left|].
  unfold u128_max in *. nia.
Qed.

(** ** What a pass brings to admission *)

Section pass.
Context (sha256 : string -> Bytes) (blake3 : list Z -> list Z) (to_string : Value -> string).
Hypothesis (Hsha : forall s, length (sha256 s) = 32%nat).
Context (n : Network) (player_id : string) (offer : Offer) (persisted : PersistedSnapshot) (window : ConfirmedWindow).
Context (active : list ActiveBenchmarkMeta) (charge_text policy : string) (config_digest : Bytes).
Context (trace_id : option TraceId) (drawn : option Bytes).

(** What the caller hands in is well formed: documents from serde_json, a stored
    record, a named compute type, digests of 32 bytes. *)
Record pass_ok : Prop := {
  po_inputs : inputs_ok (pe_snapshot persisted) offer active;
  po_height : 0 <= sr_record_height (pe_record persisted);
  po_digest : length (sr_content_digest (pe_record persisted)) = 32%nat;
  po_compute : blank (of_tig_compute_type offer) = false;
  po_config : length config_digest = 32%nat;
  po_trace : forall t, trace_id = Some t -> trace_ok t;
}.

(** The decision says what was proposed, and the digest is that of the body the
    gateway will rebuild from it. *)
Record faithful (d : NewDecision) (p : Proposal) (sub : PrecommitSubmission) (penalty charge : Z) : Prop := {
  fa_proposed : propose blake3 (pe_snapshot persisted) window n player_id offer active = Ok (ProposedPrecommit p);
  fa_rebuilt : from_decision player_id (MkPayloadInputs (an_block_id (nd_anchor d)) (nd_selected_challenge d)
    (nd_selected_algorithm d) (nd_compute_type d) (nd_track_settings d)) = Ok sub;
  fa_digest : nd_payload_digest d = precommit_digest sha256 to_string sub;
  fa_anchor : nd_anchor d = MkAnchor (sn_block_id (pe_snapshot persisted)) (sr_content_digest (pe_record persisted))
    (sr_record_height (pe_record persisted));
  fa_selection : nd_selected_challenge d = pr_selected_challenge p /\ nd_selected_algorithm d = pr_selected_algorithm p;
  fa_names : nd_network d = n /\ nd_generation d = 1 /\ nd_trace_id d = trace_id /\ exists bytes, drawn = Some bytes /\ nd_workflow_id d = to_hex bytes;
  fa_penalty : penalty_amount (pe_snapshot persisted) = Ok penalty;
  fa_charge : parse_u128 charge_text = Some charge;
  fa_reserve : reserve_for penalty charge (pr_fee_by_track p) (bz_num_bundles (pr_bundle_sizing p)) (atoms_value (nd_precommit_reserve d));
}.

Abbreviation prepared := (prepare sha256 blake3 to_string n player_id offer persisted window active charge_text policy config_digest trace_id drawn).

Lemma for_decision_Ok s : for_decision persisted = Ok s -> s = pe_snapshot persisted /\ sn_reads_complete s = true /\ sn_active_cache_ready s = true.
Proof.
  unfold for_decision. destruct (sn_reads_complete _) eqn:E1; [|done]. destruct (sn_active_cache_ready _) eqn:E2; [|done].
  by intros [= <-].
Qed.

Lemma penalty_nonneg s P : penalty_amount s = Ok P -> 0 <= P.
Proof.
  unfold penalty_amount. intros H%ok_or_Ok. apply and_then_Some in H as (t & _ & Ht).
  by destruct (parse_unsigned_range u128_max _ _ ltac:(done) Ht).
Qed.

Lemma sizing_ranges s p : inputs_ok s offer active ->
  propose blake3 s window n player_id offer active = Ok (ProposedPrecommit p) ->
  forall t k, (t, k) ∈ bz_num_bundles (pr_bundle_sizing p) -> 0 <= k /\ 0 <= default 0 (bt_get t (pr_fee_by_track p)).
Proof.
  intros Hio Hp t k Hk.
  destruct (constructible blake3 s window n player_id offer active p Hio Hp)
    as (round & raw & c & config & ev & sub & _ & _ & _ & Hread & _ & _ & _ & _ & _ & Hn & Hts).
  apply Hn in Hk as (ts & Hg & <-). destruct (Hts t ts Hg) as (_ & Hr & -> & _).
  pose proof (cr_min _ _ _ _ Hread) as Hmin. pose proof (cr_base_fee _ _ _ _ Hread). pose proof (cr_per_nonce_fee _ _ _ _ Hread).
  unfold in_unsigned in Hmin. bool_prop. simpl. nia.
Qed.

Lemma recorded_keys p id : bt_contains id (dw_draw_ranks (recorded_draw p)) = true <-> id ∈ bt_keys (pr_draw_ranks p).
Proof.
  unfold bt_contains, recorded_draw. simpl. set (m := bt_collect _).
  assert (E : id ∈ bt_keys m <-> id ∈ bt_keys (pr_draw_ranks p)).
  { unfold m. rewrite bt_collect_keys. unfold bt_keys. by rewrite <- list_fmap_compose. }
  rewrite <- E, <- bt_get_is_Some. destruct (bt_get id m); split; done.
Qed.

Lemma prepared_spec d : pass_ok -> prepared = Ok (ToAdmit d) ->
  decision_well_formed d /\ exists p sub penalty charge, faithful d p sub penalty charge.
Proof.
  intros [Hio Hh Hd Hct Hcd Htr] H. unfold prepare in H.
  destruct (for_decision persisted) as [s|] eqn:Hf; [|done]. apply for_decision_Ok in Hf as (-> & _ & _).
  destruct (propose _ _ _ _ _ _ _) as [[|p]|] eqn:Hp; [done| |done]. cbn [map_err] in H.
  unfold to_i64 in H. destruct (Z.leb_spec (sr_record_height (pe_record persisted)) i64_max); [|done]. cbn [ok_or] in H.
  unfold workflow_id in H. destruct drawn as [bytes|] eqn:Hdr; [|done]. cbn [ok_or] in H.
  destruct (parse_u128 charge_text) as [charge|] eqn:Hc; [|done]. cbn [ok_or] in H.
  destruct (penalty_amount _) as [penalty|] eqn:Hpen; [|done].
  pose proof (reserve_spec p penalty charge policy (penalty_nonneg _ _ Hpen)
    (proj1 (parse_unsigned_range u128_max _ _ ltac:(done) Hc)) (sizing_ranges _ _ Hio Hp)) as [Hcan Hres].
  destruct (reserve p penalty charge policy) as [ri pr] eqn:Hrs. cbn [snd] in Hcan, Hres.
  destruct (from_decision _ _) as [sub|] eqn:Hfd; [|done]. cbn [map_err] in H. injection H as <-.
  destruct (draw_facts blake3 _ window n player_id offer active p Hp) as (_ & Hkeys & _ & Hsel & Htie).
  split.
  - split; [|split; [done|]]; [simpl; by rewrite (propose_compute blake3 _ window n player_id offer active p Hp)|].
    split; [done|]. split; [done|]. split; [done|]. split; [apply Hsha|]. split; [done|].
    split; [by apply recorded_keys, Hkeys|]. split; [|done].
    intros t. simpl. destruct (pr_tie_candidates p) as [ties|]; [|done]. destruct Htie as (-> & Hin & Hall).
    intros [= <-]. simpl. split; [done|]. split; [done|]. apply Forall_forall. intros x Hx.
    by apply recorded_keys, Hkeys, Hall.
  - exists p, sub, penalty, charge. split; try done. split; [done|]. split; [done|]. split; [done|]. by exists bytes.
Qed.

(** The admission never refuses a pass's own rendering. *)
Lemma payload_never_refused e : pass_ok -> prepared = Err e -> forall pe, e <> DePayload pe.
Proof.
  intros [Hio _ _ _ _ _] H pe ->. unfold prepare in H.
  destruct (for_decision persisted) as [s|] eqn:Hf; [|done]. apply for_decision_Ok in Hf as (-> & _ & _).
  destruct (propose _ _ _ _ _ _ _) as [[|p]|] eqn:Hp; [done| |done]. cbn [map_err] in H.
  destruct (to_i64 _); [|done]. unfold workflow_id in H. destruct drawn; [|done]. cbn [ok_or] in H.
  destruct (parse_u128 charge_text); [|done]. cbn [ok_or] in H. destruct (penalty_amount _) eqn:Hpen.
  2:{ unfold penalty_amount in Hpen. destruct (and_then _ _); simplify_eq/=. }
  destruct (reserve _ _ _ _).
  destruct (constructible blake3 _ window n player_id offer active p Hio Hp)
    as (round & raw & c & config & ev & sub & _ & _ & _ & _ & _ & _ & _ & Hfd & _). rewrite Hfd in H. done.
Qed.
End pass.

(** ** Properties *)


(** Everything a pass can come to.  An admission is one transaction of the
    store, and afterwards the gateway's reader finds the decision and rebuilds
    exactly the submission whose digest the new intent carries; every other
    outcome leaves the database as it was; the settings a pass renders are
    never refused by the reader; and the pass itself never reports a block it
    did not look at. *)
Theorem pass_outcomes sha256 blake3 to_string text_le n player_id offer persisted window active limit charge_text policy config_digest
    trace_id drawn fd fi now L db r db' :
  (forall s, length (sha256 s) = 32%nat) ->
  pass_ok offer persisted active config_digest trace_id -> system_ok L db -> limit <= L ->
  decide_once sha256 blake3 to_string text_le n player_id offer persisted window active limit charge_text policy config_digest
    trace_id drawn fd fi now db = (r, db') ->
  match r with
  | Ok (PassAdmitted a) => step L db db' /\
      exists id inputs sub, ad_intent a = MkIntent fi n id Precommit 1 None (precommit_digest sha256 to_string sub) None trace_id Prepared now /\
        db_intent db' !! fi = Some (ad_intent a) /\
        payload_inputs n id 1 db' = Ok (Some inputs) /\ from_decision player_id inputs = Ok sub
  | Ok BlockedForOperator | Ok (NotReconciled _) | Err (DePayload _) => False
  | Ok (SnapshotNotUsable why) => db' = db /\ for_decision persisted = Err why
  | _ => db' = db
  end.
Proof.
  intros Hsha Hpok Hsys HL. unfold decide_once.
  destruct (prepare _ _ _ _ _ _ _ _ _ _ _ _ _ _) as [[o|d]|e] eqn:Hprep.
  - intros [= <- <-]. unfold prepare in Hprep. destruct (for_decision persisted) as [s|why].
    + destruct (propose _ _ _ _ _ _ _) as [[|p]|]; simplify_eq/=; [done|].
      chain Hprep. by destruct (reserve _ _ _ _); chain Hprep.
    + by simplify_eq.
  - destruct (prepared_spec _ _ _ Hsha _ _ _ _ _ _ _ _ _ _ _ _ Hpok Hprep) as (Hwf & p & sub & pen & ch & Hfa).
    destruct (admit_precommit _ _ _ _ _ _ _) as [[a d']|ae] eqn:Had; [|by intros [= <- <-]]. intros [= <- <-].
    pose proof Hwf as (_ & _ & _ & _ & _ & _ & _ & _ & _ & Htr).
    assert (Hstep : step L db d').
    { apply (step_txn L (TAdmit text_le fd fi now d limit)); [split; [done|exact Htr]|]. simpl. by rewrite Had. }
    split; [exact Hstep|].
    destruct (admit_precommit_effect _ _ _ _ _ _ _ _ _ (sys_workflows _ _ Hsys) (sys_intents _ _ Hsys) Htr Had)
      as (t & _ & _ & Hdt & _ & _ & _ & -> & _ & Hfd & _ & _ & _ & ->).
    destruct Hfa as [_ Hreb Hdig _ _ (Hn & Hg & Htrace & _) _ _ _].
    exists (nd_workflow_id d). eexists _, sub. split; [|split; [|split; [|exact Hreb]]].
    + simpl. unfold admitted_intent. by rewrite Hn, Hg, Hdig, Htrace.
    + simpl. by rewrite lookup_insert_eq.
    + unfold payload_inputs. simpl. pose proof (decision_rows_unique (nd_network d) (nd_workflow_id d) (nd_generation d)
        (decision_row fd d (count_unverified (nd_network d) db) limit) (db_decision db) eq_refl eq_refl eq_refl Hfd Hdt) as Hh.
      simpl in Hh. rewrite Hn, Hg in Hh. rewrite Hn in *. by rewrite Hh.
  - intros [= <- <-]. pose proof (payload_never_refused _ _ _ _ _ _ _ _ _ _ _ _ _ _ _ Hpok Hprep) as Hne.
    destruct e as [| |pe| | | |]; try done. by apply (Hne pe).
Qed.

(** A usable block is decided from.  When a pass has something to propose and
    its snapshot's row is the newest usable one, a workflow id no row names yet
    and free uuids are enough: below the limit the decision is admitted. *)
Theorem usable_block_is_decided sha256 blake3 to_string text_le player_id offer persisted window active limit charge_text policy
    config_digest trace_id drawn fd fi now L db d row :
  (forall s, length (sha256 s) = 32%nat) ->
  pass_ok offer persisted active config_digest trace_id -> system_ok L db ->
  prepare sha256 blake3 to_string Testnet player_id offer persisted window active charge_text policy config_digest trace_id drawn
    = Ok (ToAdmit d) ->
  newest_usable text_le Testnet db =
    Some ((Testnet, sn_block_id (pe_snapshot persisted), sr_content_digest (pe_record persisted)), row) ->
  db_workflow db !! (Testnet, nd_workflow_id d) = None ->
  (forall k r, db_decision db !! k = Some r -> dr_workflow_id r <> nd_workflow_id d) ->
  (forall k i, db_intent db !! k = Some i -> in_workflow_id i <> nd_workflow_id d) ->
  db_decision db !! fd = None -> db_intent db !! fi = None -> count_unverified Testnet db < limit ->
  exists a db', decide_once sha256 blake3 to_string text_le Testnet player_id offer persisted window active limit charge_text policy
    config_digest trace_id drawn fd fi now db = (Ok (PassAdmitted a), db').
Proof.
  intros Hsha Hpok Hsys Hprep Hnew Hw Hd Hi Hfd Hfi Hcnt. unfold decide_once. rewrite Hprep.
  destruct (prepared_spec _ _ _ Hsha _ _ _ _ _ _ _ _ _ _ _ _ Hpok Hprep) as (Hwf & p & sub & pen & ch & Hfa).
  destruct Hfa as [_ _ _ Hanc _ (Hn & Hg & _) _ _ _].
  destruct (admission_progress text_le fd fi now d limit db) as (a & db' & ->); try done; rewrite ?Hn, ?Hanc; simpl.
  - apply Hsys.
  - unfold workflow_ready. by rewrite Hn, Hw.
  - apply require_newest_anchor_Ok. rewrite Hn, Hanc. by eexists.
  - unfold newest_usable in Hnew. set (l := filter _ _) in Hnew.
    assert (Hin : (Testnet, sn_block_id (pe_snapshot persisted), sr_content_digest (pe_record persisted), row) ∈ l).
    { apply (elem_of_sort_by (snapshot_le text_le)). destruct (sort_by _ l); [done|]. simpl in Hnew. injection Hnew as ->. by left. }
    apply list_elem_of_filter in Hin as [_ Hin%elem_of_map_to_list]. by eexists.
  - apply exists_row_false. intros k r Hk. apply Hd in Hk. rewrite (bool_decide_eq_false_2 (dr_workflow_id r = _)) by done. by rewrite andb_false_r.
  - apply exists_row_false. intros k i Hk. apply Hi in Hk. rewrite (bool_decide_eq_false_2 (in_workflow_id i = _)) by done. by rewrite !andb_false_r.
  - apply exists_row_false. intros k i Hk. apply Hi in Hk. unfold same_generation. simpl.
    rewrite (bool_decide_eq_false_2 (in_workflow_id i = _)) by done. by rewrite !andb_false_r.
  - exact Hcnt.
  - by eexists _, _.
Qed.

(** ** The example pass, decided and admitted *)

Definition ex_hash32 (s : string) : Bytes := Z.of_nat (String.length s) :: replicate 31 0.
Definition ex_persisted (reads_complete : bool) : PersistedSnapshot :=
  let s := ex_snapshot 3 in
  MkPersisted (MkSnapshot (sn_block_id s) (sn_height s) (sn_block s) (sn_reads s) (sn_tracks s) reads_complete true)
    (MkSnapshotRecord Testnet "b9" 9 reads_complete true digest_a).
Definition ex_drawn : option Bytes := Some (replicate 16 171).
Definition ex_prepared : result DecideError Prepared_ :=
  prepare ex_hash32 ex_hash (fun _ => "") Testnet "0xpool" (ex_offer 16) (ex_persisted true) ex_window ex_active "40" "v1" digest_a None ex_drawn.
Definition ex_decision : NewDecision := match ex_prepared with Ok (ToAdmit d) => d | _ => sample_decision end.
Definition ex_db : Db := with_snapshot {[ (Testnet, "b9", digest_a) := MkSnapshotRow 9 true true ]} empty_db.
Definition ex_decided (reads_complete : bool) : result DecideError PassOutcome * Db :=
  decide_once ex_hash32 ex_hash (fun _ => "") str_leb Testnet "0xpool" (ex_offer 16) (ex_persisted reads_complete) ex_window ex_active 3
    "40" "v1" digest_a None ex_drawn 1 2 10 ex_db.

Lemma ex_hash32_length s : length (ex_hash32 s) = 32%nat.
Proof. reflexivity. Qed.
Lemma ex_pass_ok b : pass_ok (ex_offer 16) (ex_persisted b) ex_active digest_a None.
Proof.
  split; try reflexivity; [|by simpl|done].
  destruct (ex_inputs_ok 3 16 eq_refl) as [H1 H2 H3 H4]. by split.
Qed.
Lemma ex_db_ok : system_ok 3 ex_db.
Proof.
  apply (reachable_ok 3 ex_db ltac:(lia)). apply rtc_once.
  by apply (step_txn 3 (TSnapshot Testnet "b9" digest_a (MkSnapshotRow 9 true true))).
Qed.
Lemma ex_prepared_eq : ex_prepared = Ok (ToAdmit ex_decision).
Proof. vm_compute. reflexivity. Qed.


(** Incomplete reads decide nothing and change nothing; a usable block is
    admitted in one step of the store. *)
Example pass_outcomes_witness :
  fst (ex_decided false) = Ok (SnapshotNotUsable ReadsIncomplete) /\ snd (ex_decided false) = ex_db /\
  step 3 ex_db (snd (ex_decided true)).
Proof.
  assert (E0 : fst (ex_decided false) = Ok (SnapshotNotUsable ReadsIncomplete)) by (vm_compute; reflexivity).
  assert (E1 : match fst (ex_decided true) with Ok (PassAdmitted _) => true | _ => false end = true) by (vm_compute; reflexivity).
  split; [exact E0|split].
  - destruct (ex_decided false) as [r db'] eqn:E. cbn [fst snd] in *. subst r.
    exact (proj1 (pass_outcomes ex_hash32 ex_hash (fun _ => "") str_leb Testnet "0xpool" (ex_offer 16) (ex_persisted false) ex_window ex_active 3
      "40" "v1" digest_a None ex_drawn 1%N 2%N 10 3 ex_db _ db' ex_hash32_length (ex_pass_ok false) ex_db_ok ltac:(lia) E)).
  - destruct (ex_decided true) as [r db'] eqn:E. cbn [fst snd] in *.
    pose proof (pass_outcomes ex_hash32 ex_hash (fun _ => "") str_leb Testnet "0xpool" (ex_offer 16) (ex_persisted true) ex_window ex_active 3
      "40" "v1" digest_a None ex_drawn 1%N 2%N 10 3 ex_db r db' ex_hash32_length (ex_pass_ok true) ex_db_ok ltac:(lia) E) as H.
    destruct r as [[]|]; try discriminate E1. exact (proj1 H).
Defined.

Example usable_block_is_decided_witness : exists a db', ex_decided true = (Ok (PassAdmitted a), db').
Proof.
  apply (usable_block_is_decided ex_hash32 ex_hash (fun _ => "") str_leb "0xpool" (ex_offer 16) (ex_persisted true) ex_window ex_active 3
    "40" "v1" digest_a None ex_drawn 1%N 2%N 10 3 ex_db ex_decision (MkSnapshotRow 9 true true));
    [exact ex_hash32_length|exact (ex_pass_ok true)|exact ex_db_ok|exact ex_prepared_eq|vm_compute; reflexivity|reflexivity
    |intros k r H; discriminate H|intros k r H; discriminate H|reflexivity|reflexivity|vm_compute; reflexivity].
Defined.
