(* ===== verification/Controller.v ===== *)
(** * The controller's poll: [crates/pool-controller/src/service.rs]

    One poll reads the latest block.  A block not yet taken in is ingested,
    reconciled from and, when reconciliation left nothing for an operator,
    decided from; a block seen before whose cache is still warming gets another
    budget of fetches and is decided from once it is usable.  The state a
    running controller keeps ([last]) is threaded beside the database, the
    active-benchmark table and the outside world [W] the sources read from. *)
From S2P Require Import Prelude BTreeMap Json Domain Deadlines Challenge Workflow Store Intent Payload Admission Restart Window Snapshot SnapshotStore ActiveCache Propose System Bind Reconciler ReadClient Ingest Decide.
Open Scope Z_scope.

Definition ASSEMBLY_ATTEMPTS : Z := 3.

(** ** The claiming gate *)

Inductive Reconciliation := Ran (blocks_claiming : bool) | DidNotRun (reason : NotUsable).
Definition Reconciliation_of (outcome : BlockOutcome) : Reconciliation :=
  match outcome with
  | OReconciled report => Ran (block_blocks_claiming report)
  | OBlind _ _ reason => DidNotRun reason
  end.
Definition claiming_refused (r : Reconciliation) : option PassOutcome :=
  match r with
  | Ran true => Some BlockedForOperator
  | Ran false => None
  | DidNotRun reason => Some (NotReconciled reason)
  end.

(** ** What is configured, and what is kept *)

Record Deciding := MkDeciding {
  dc_offer : option Offer;
  dc_unverified_limit : Z;
  dc_failure_charge_atoms : string;
  dc_reserve_policy_version : string;
  dc_config_digest : Bytes;
}.
Definition Deciding_none : Deciding := MkDeciding None 1 "0" "none" (replicate 32 0).

Record Policy := MkPolicy { po_guardrails : Guardrails; po_cache_budget : nat; po_deciding : Deciding }.
Definition reconciling_only (guardrails : Guardrails) (cache_budget : nat) : Policy :=
  MkPolicy guardrails cache_budget Deciding_none.

Record Service (W : Type) := MkService {
  sv_source : SnapshotSource W;
  sv_benchmark_data : string -> W -> result SnapshotError Value * W;
  sv_poll : W -> result ReadError Value * W;
  sv_network : Network;
  sv_player_id : string;
  sv_policy : Policy;
}.
Arguments MkService {W} _ _ _ _ _ _.
Arguments sv_source {W} _.
Arguments sv_benchmark_data {W} _ _ _.
Arguments sv_poll {W} _ _.
Arguments sv_network {W} _.
Arguments sv_player_id {W} _.
Arguments sv_policy {W} _.

Definition ingestor {W} (sv : Service W) : Ingestor W :=
  MkIngestor W (sv_source sv) (sv_benchmark_data sv) (sv_network sv) ASSEMBLY_ATTEMPTS (po_cache_budget (sv_policy sv)).

Record Seen := MkSeen { se_snapshot : Snapshot; se_usable : bool; se_blocks_claiming : bool }.

(** [last], and everything the service reads from or writes to. *)
Record State (W : Type) := MkState { st_last : option Seen; st_db : Db; st_cache : MetaTable; st_world : W }.
Arguments MkState {W} _ _ _ _.
Arguments st_last {W} _.
Arguments st_db {W} _.
Arguments st_cache {W} _.
Arguments st_world {W} _.

(** What one pass draws: uuids, the clock, the workflow id's bytes and the
    trace, each [None] when the operating system gives none. *)
Record Draws := MkDraws {
  dw_decision_id : Uuid; dw_intent_id : Uuid; dw_now : Z; dw_workflow_id : option Bytes; dw_trace_id : option TraceId }.

(** The texts a failed pass is reported with. *)
Inductive PassError :=
| NoActiveSet (e : SnapshotError)
| NoBenchmarksRead
| UnreadableWindow (e : WindowError)
| PassFailed (e : DecideError).
Abbreviation Decided := (option (result PassError PassOutcome)).

Inductive Tick :=
| Unchanged (block_id : string)
| AlreadyIngested (block_id : string)
| CacheAdvanced (block_id : string) (cache : Advance) (now_usable : bool) (decided : Decided)
| TickIngested (block_id : string) (height : Z) (gaps_recorded : list Z) (cache : Advance) (outcome : BlockOutcome) (decided : Decided).

Inductive ServiceError :=
| SvPoll (e : ReadError)
| BlockWithoutId
| SvIngest (e : IngestError)
| SvReconcile (e : BlockError).

Section service.
Context {W : Type} (sha256 : string -> Bytes) (blake3 : list Z -> list Z) (to_string : Value -> string).
Context (show : SnapshotError -> string) (text_le : string -> string -> bool).
Context (sv : Service W).

(** ** One deciding pass *)

Definition decide_from (ds : Draws) (persisted : PersistedSnapshot) (reconciliation : Reconciliation) (cache : MetaTable) (db : Db)
  : Decided * Db :=
  let deciding := po_deciding (sv_policy sv) in
  match dc_offer deciding with
  | None => (None, db)
  | Some offer =>
      match claiming_refused reconciliation with
      | Some refusal => (Some (Ok refusal), db)
      | None =>
          match for_decision persisted with
          | Err why => (Some (Ok (SnapshotNotUsable why)), db)
          | Ok snapshot =>
              match active_benchmark_ids snapshot with
              | Err e => (Some (Err (NoActiveSet e)), db)
              | Ok active_ids =>
                  let active := load text_le (sv_network sv) active_ids cache in
                  match snapshot_read snapshot RdBenchmarks with
                  | None => (Some (Err NoBenchmarksRead), db)
                  | Some benchmarks =>
                      match confirmed_window benchmarks (sn_block snapshot) with
                      | Err e => (Some (Err (UnreadableWindow e)), db)
                      | Ok window =>
                          let '(r, db') := decide_once sha256 blake3 to_string text_le (sv_network sv) (sv_player_id sv) offer persisted
                            window active (dc_unverified_limit deciding) (dc_failure_charge_atoms deciding)
                            (dc_reserve_policy_version deciding) (dc_config_digest deciding) (dw_trace_id ds) (dw_workflow_id ds)
                            (dw_decision_id ds) (dw_intent_id ds) (dw_now ds) db in
                          (Some (map_err PassFailed r), db')
                      end
                  end
              end
          end
      end
  end.

(** ** One poll *)

Definition latest_block_id (latest : Value) : option string :=
  and_then (json_get "id" (unwrap_block latest)) json_as_str.

(** [continue_warm_up], for the block [seen].  The flag is set on the kept
    snapshot before it is persisted, so it stays set when persisting fails. *)
Definition continue_warm_up (ds : Draws) (seen : Seen) (st : State W) : result ServiceError Tick * State W :=
  let '(r, cache, w) := warm_cache show (ingestor sv) (se_snapshot seen) (st_cache st) (st_world st) in
  match r with
  | Err e => (Err (SvIngest e), MkState (Some seen) (st_db st) cache w)
  | Ok advance =>
      let block_id := sn_block_id (se_snapshot seen) in
      if covers_active_set advance then
        let ready := with_cache_ready true (se_snapshot seen) in
        match persist sha256 to_string (sv_network sv) ready (st_db st) with
        | Err e => (Err (SvIngest (InStore e)), MkState (Some (MkSeen ready (se_usable seen) (se_blocks_claiming seen))) (st_db st) cache w)
        | Ok (persisted, db1) =>
            let '(decided, db2) := decide_from ds persisted (Ran (se_blocks_claiming seen)) cache db1 in
            (Ok (CacheAdvanced block_id advance true decided),
             MkState (Some (MkSeen ready (is_Ok (for_decision persisted)) (se_blocks_claiming seen))) db2 cache w)
        end
      else (Ok (CacheAdvanced block_id advance false None), MkState (Some seen) (st_db st) cache w)
  end.

(** The part of [tick] for a block neither kept nor already usable. *)
Definition take_block (ds : Draws) (st : State W) : result ServiceError Tick * State W :=
  let '(r, db1, cache, w) := ingest sha256 to_string show (ingestor sv) (st_db st) (st_cache st) (st_world st) in
  match r with
  | Err e => (Err (SvIngest e), MkState (st_last st) db1 cache w)
  | Ok ingested =>
      let persisted := ig_snapshot ingested in
      match reconcile_block to_string text_le (sv_network sv) (sv_player_id sv) (po_guardrails (sv_policy sv)) persisted db1 with
      | (Err e, db2) => (Err (SvReconcile e), MkState (st_last st) db2 cache w)
      | (Ok outcome, db2) =>
          let last := match outcome, for_reconciliation persisted with
                      | OReconciled report, Ok snapshot =>
                          Some (MkSeen snapshot (is_Ok (for_decision persisted)) (block_blocks_claiming report))
                      | _, _ => st_last st
                      end in
          let '(decided, db3) := decide_from ds persisted (Reconciliation_of outcome) cache db2 in
          (Ok (TickIngested (sr_block_id (pe_record persisted)) (sr_record_height (pe_record persisted))
                 (ig_gaps_recorded ingested) (ig_cache ingested) outcome decided),
           MkState last db3 cache w)
      end
  end.

Definition tick (ds : Draws) (st0 : State W) : result ServiceError Tick * State W :=
  let '(r, w) := sv_poll sv (st_world st0) in
  let st := MkState (st_last st0) (st_db st0) (st_cache st0) w in
  match r with
  | Err e => (Err (SvPoll e), st)
  | Ok latest =>
      match latest_block_id latest with
      | None => (Err BlockWithoutId, st)
      | Some latest_id =>
          match (match st_last st with
                 | Some seen => if String.eqb (sn_block_id (se_snapshot seen)) latest_id then Some seen else None
                 | None => None
                 end) with
          | Some seen =>
              if se_usable seen then (Ok (Unchanged latest_id), st) else continue_warm_up ds seen st
          | None =>
              match load_usable_record (sv_network sv) latest_id (st_db st) with
              | Err e => (Err (SvIngest (InStore e)), st)
              | Ok (Some _) => (Ok (AlreadyIngested latest_id), st)
              | Ok None => take_block ds st
              end
          end
      end
  end.

(** ** The loop

    [run] with its clock: each poll takes [elapsed], and the loop then sleeps
    what is left of the interval.  [polls] gives, for each iteration, what the
    poll draws and how long it takes; the loop only ends by itself when [once]
    is set, so for the other mode the list bounds how much of it is looked at. *)
Fixpoint run (interval : Z) (once : bool) (polls : list (Draws * Z)) (now : Z) (st : State W)
  : option (result ServiceError unit) * list (Z * result ServiceError Tick) * State W :=
  match polls with
  | [] => (None, [], st)
  | (ds, elapsed) :: polls' =>
      let '(r, st') := tick ds st in
      match once, r with
      | true, Ok _ => (Some (Ok tt), [(now, r)], st')
      | true, Err e => (Some (Err e), [(now, r)], st')
      | false, _ =>
          let '(result, log, st'') := run interval once polls' (now + elapsed + Z.max 0 (interval - elapsed)) st' in
          (result, (now, r) :: log, st'')
      end
  end.
End service.

(** ** Lemmas *)

Lemma persist_run sha256 to_string n s L db p db' :
  persist sha256 to_string n s db = Ok (p, db') -> rtc (step L) db db'.
Proof.
  intros (_ & _ & _ & Hins)%persist_Ok. apply rtc_once.
  apply (step_txn L (TSnapshot n (sn_block_id s) (content_digest sha256 to_string s)
    (MkSnapshotRow (sn_height s) (sn_reads_complete s) (sn_active_cache_ready s)))); [done|]. simpl. by rewrite Hins.
Qed.
Lemma ingest_run {W} sha256 to_string show (ing : Ingestor W) L db t w r db' t' w' :
  ingest sha256 to_string show ing db t w = (r, db', t', w') -> rtc (step L) db db'.
Proof.
  intros (db1 & [Hg Hs] & _)%ingest_commits_of. transitivity db1.
  - destruct Hg as [->|(last & observed & hs & _ & Hg)]; [apply rtc_refl|]. apply rtc_once.
    apply (step_txn L (TGap (ir_network ing) last observed)); [done|]. simpl. by rewrite Hg.
  - destruct Hs as [->|(s & p & Hp & _)]; [apply rtc_refl|]. by eapply persist_run.
Qed.

Lemma prepare_trace sha256 blake3 to_string n player offer persisted window active charge policy config trace drawn d :
  prepare sha256 blake3 to_string n player offer persisted window active charge policy config trace drawn = Ok (ToAdmit d) ->
  nd_trace_id d = trace.
Proof.
  unfold prepare. intros H. destruct (for_decision persisted) as [s|]; [|done].
  destruct (propose _ _ _ _ _ _ _) as [[|p]|]; simplify_eq/=.
  chain H. destruct (reserve _ _ _ _). chain H. by simplify_eq/=.
Qed.
Lemma decide_once_run sha256 blake3 to_string text_le n player offer persisted window active limit charge policy config trace drawn
    fd fi now L db r db' :
  limit <= L -> (forall t, trace = Some t -> trace_ok t) ->
  decide_once sha256 blake3 to_string text_le n player offer persisted window active limit charge policy config trace drawn fd fi now db
    = (r, db') -> rtc (step L) db db'.
Proof.
  intros HL Ht. unfold decide_once. destruct (prepare _ _ _ _ _ _ _ _ _ _ _ _ _ _) as [[o|d]|e] eqn:Hp;
    [intros [= <- <-]; apply rtc_refl| |intros [= <- <-]; apply rtc_refl].
  destruct (admit_precommit _ _ _ _ _ _ _) as [[a d']|ae] eqn:Had; intros [= <- <-]; [|apply rtc_refl].
  apply rtc_once, (step_txn L (TAdmit text_le fd fi now d limit)).
  - split; [done|]. by rewrite (prepare_trace _ _ _ _ _ _ _ _ _ _ _ _ _ _ _ Hp).
  - simpl. by rewrite Had.
Qed.

Section polls.
Context {W : Type} (sha256 : string -> Bytes) (blake3 : list Z -> list Z) (to_string : Value -> string).
Context (show : SnapshotError -> string) (text_le : string -> string -> bool).
Context (sv : Service W).
Abbreviation decide_ := (decide_from sha256 blake3 to_string text_le sv).
Abbreviation warm_ := (continue_warm_up sha256 blake3 to_string show text_le sv).
Abbreviation take_ := (take_block sha256 blake3 to_string show text_le sv).
Abbreviation tick_ := (tick sha256 blake3 to_string show text_le sv).

(** The limit the service admits under, and the traces it draws. *)
Definition draws_ok (ds : Draws) : Prop := forall t, dw_trace_id ds = Some t -> trace_ok t.

Lemma decide_from_run L ds persisted rc cache db r db' :
  dc_unverified_limit (po_deciding (sv_policy sv)) <= L -> draws_ok ds ->
  decide_ ds persisted rc cache db = (r, db') -> rtc (step L) db db'.
Proof.
  intros HL Hds. unfold decide_from. destruct (dc_offer _); [|intros [= <- <-]; apply rtc_refl].
  destruct (claiming_refused rc); [intros [= <- <-]; apply rtc_refl|].
  destruct (for_decision persisted) as [s|]; [|intros [= <- <-]; apply rtc_refl].
  destruct (active_benchmark_ids s); [|intros [= <- <-]; apply rtc_refl].
  destruct (snapshot_read s RdBenchmarks); [|intros [= <- <-]; apply rtc_refl].
  destruct (confirmed_window _ _); [|intros [= <- <-]; apply rtc_refl].
  destruct (decide_once _ _ _ _ _ _ _ _ _ _ _ _ _ _ _ _ _ _ _ _) as [x d] eqn:E. intros [= <- <-].
  by eapply decide_once_run.
Qed.

(** A decision is taken only past the gate, and only from a usable snapshot. *)
Lemma decide_from_admits ds persisted rc cache db a db' :
  decide_ ds persisted rc cache db = (Some (Ok (PassAdmitted a)), db') ->
  rc = Ran false /\ for_decision persisted = Ok (pe_snapshot persisted) /\ is_Some (dc_offer (po_deciding (sv_policy sv))).
Proof.
  unfold decide_from. destruct (dc_offer _); [|done].
  destruct rc as [[]|]; [done| |done]. cbn [claiming_refused].
  destruct (for_decision persisted) as [s|] eqn:Hf; [|done]. apply for_decision_Ok in Hf as (-> & _ & _).
  intros _. split; [done|]. split; [done|]. by eexists.
Qed.

Lemma warm_up_run L ds seen st r st' :
  dc_unverified_limit (po_deciding (sv_policy sv)) <= L -> draws_ok ds ->
  warm_ ds seen st = (r, st') -> rtc (step L) (st_db st) (st_db st').
Proof.
  intros HL Hds. unfold continue_warm_up. destruct (warm_cache _ _ _ _ _) as [[[adv|e] c] w]; [|intros [= <- <-]; apply rtc_refl].
  destruct (covers_active_set adv); [|intros [= <- <-]; apply rtc_refl].
  destruct (persist _ _ _ _ _) as [[p db1]|e] eqn:Hp; [|intros [= <- <-]; apply rtc_refl].
  destruct (decide_ _ _ _ _ _) as [dec db2] eqn:Hd. intros [= <- <-]. simpl.
  transitivity db1; [by eapply persist_run|by eapply decide_from_run].
Qed.
Lemma take_block_run L ds st r st' :
  dc_unverified_limit (po_deciding (sv_policy sv)) <= L -> draws_ok ds -> system_ok L (st_db st) ->
  take_ ds st = (r, st') -> rtc (step L) (st_db st) (st_db st').
Proof.
  intros HL Hds Hsys. unfold take_block.
  destruct (ingest _ _ _ _ _ _ _) as [[[ri db1] c] w] eqn:Hi. pose proof (ingest_run _ _ _ _ L _ _ _ _ _ _ _ Hi) as R1.
  destruct ri as [ig|e]; [|by intros [= <- <-]].
  destruct (reconcile_block _ _ _ _ _ _ _) as [[o|e] db2] eqn:Hr.
  - pose proof (block_pass_run _ _ _ _ _ _ L _ _ _ (proj1 (run_ok L _ _ Hsys R1)) Hr) as [R2 _].
    destruct (decide_ _ _ _ _ _) as [dec db3] eqn:Hd. intros [= <- <-]. simpl.
    transitivity db1; [done|]. transitivity db2; [done|]. by eapply decide_from_run.
  - pose proof (block_pass_run _ _ _ _ _ _ L _ _ _ (proj1 (run_ok L _ _ Hsys R1)) Hr) as [R2 _].
    intros [= <- <-]. simpl. by transitivity db1.
Qed.

(** The branches of one poll. *)
Inductive poll_case (ds : Draws) (st : State W) (r : result ServiceError Tick) (st' : State W) : Prop :=
| PcQuiet : st_db st' = st_db st -> st_cache st' = st_cache st -> st_last st' = st_last st ->
    (forall tk, r = Ok tk -> exists b, tk = Unchanged b \/ tk = AlreadyIngested b) ->
    (forall e, r <> Err (SvReconcile e)) -> poll_case ds st r st'
| PcWarm seen w : st_last st = Some seen -> se_usable seen = false ->
    warm_ ds seen (MkState (st_last st) (st_db st) (st_cache st) w) = (r, st') -> poll_case ds st r st'
| PcTake w : take_ ds (MkState (st_last st) (st_db st) (st_cache st) w) = (r, st') -> poll_case ds st r st'.
Lemma tick_cases ds st r st' : tick_ ds st = (r, st') -> poll_case ds st r st'.
Proof.
  unfold tick. destruct (sv_poll sv (st_world st)) as [[latest|e] w]; [|intros [= <- <-]; by apply PcQuiet].
  destruct (latest_block_id latest) as [b|]; [|intros [= <- <-]; by apply PcQuiet]. simpl.
  set (kept := match st_last st with Some _ => _ | None => None end).
  assert (Hk : forall seen, kept = Some seen -> st_last st = Some seen).
  { unfold kept. destruct (st_last st) as [s|]; [|done]. destruct (String.eqb _ _); [|done]. by intros ? [= ->]. }
  destruct kept as [seen|]; [specialize (Hk seen eq_refl)|clear Hk].
  - destruct (se_usable seen) eqn:Hu; [intros [= <- <-]; apply PcQuiet; try done; by intros tk [= <-]; eauto|]. by eapply PcWarm.
  - destruct (load_usable_record _ _ _) as [[rec|]|e].
    + intros [= <- <-]; apply PcQuiet; try done; by intros tk [= <-]; eauto.
    + apply PcTake.
    + intros [= <- <-]; by apply PcQuiet.
Qed.

Lemma tick_run L ds st r st' :
  dc_unverified_limit (po_deciding (sv_policy sv)) <= L -> draws_ok ds -> system_ok L (st_db st) ->
  tick_ ds st = (r, st') -> rtc (step L) (st_db st) (st_db st').
Proof.
  intros HL Hds Hsys [-> _ _ _ _|seen w _ _ H|w H]%tick_cases; [apply rtc_refl| |].
  - by eapply (warm_up_run L) in H.
  - by eapply (take_block_run L) in H.
Qed.

(** ** What the kept block stands for *)

Abbreviation Log := (list (Z * result ServiceError Tick)).

(** The reconciliation a poll reports: the block, and whether it forbade
    claiming. *)
Definition reconciled_in (e : Z * result ServiceError Tick) : option (string * bool) :=
  match e.2 with
  | Ok (TickIngested b _ _ _ (OReconciled report) _) => Some (b, block_blocks_claiming report)
  | _ => None
  end.
Definition newest_reconciled (log : Log) : option (string * bool) := last (omap reconciled_in log).
(** The admission a poll reports, and the block it was decided from. *)
Definition admission_of (tk : Tick) : option (string * AdmittedPrecommit) :=
  match tk with
  | CacheAdvanced b _ _ (Some (Ok (PassAdmitted a))) | TickIngested b _ _ _ _ (Some (Ok (PassAdmitted a))) => Some (b, a)
  | _ => None
  end.
Definition kept_as (st : State W) : option (string * bool) :=
  (fun seen => (sn_block_id (se_snapshot seen), se_blocks_claiming seen)) <$> st_last st.

Lemma newest_snoc log e : newest_reconciled (log ++ [e]) =
  match reconciled_in e with Some x => Some x | None => newest_reconciled log end.
Proof. unfold newest_reconciled. rewrite omap_app. simpl. destruct (reconciled_in e); [apply last_snoc|by rewrite app_nil_r]. Qed.

Lemma ingest_record show' (ing : Ingestor W) db t w ig db' t' w' :
  ingest sha256 to_string show' ing db t w = (Ok ig, db', t', w') ->
  sr_block_id (pe_record (ig_snapshot ig)) = sn_block_id (pe_snapshot (ig_snapshot ig)).
Proof.
  unfold ingest. destruct (last_local_height _ _); [|done]. destruct (assemble _ _ _) as [[s|] w1]; [|done].
  destruct (to_i64 _); [|done]. destruct (warm_cache _ _ _ _ _) as [[[c|] t1] w2]; [|done].
  destruct (record_missed _ _ _ _) as [[hs db1]|]; [|done].
  destruct (persist _ _ _ _ _) as [[p d]|] eqn:Hp; [|done]. intros [= <- <- <- <-]. simpl.
  apply persist_Ok in Hp as (-> & -> & _). done.
Qed.

Lemma tick_keeps L log t ds st r st' :
  system_ok L (st_db st) -> kept_as st = newest_reconciled log -> tick_ ds st = (r, st') ->
  kept_as st' = newest_reconciled (log ++ [(t, r)]) /\
  forall tk b a, r = Ok tk -> admission_of tk = Some (b, a) ->
    newest_reconciled (log ++ [(t, r)]) = Some (b, false) /\ is_Some (dc_offer (po_deciding (sv_policy sv))).
Proof.
  intros Hsys Hk Hc%tick_cases. rewrite newest_snoc. destruct Hc as [_ _ Hl Hq _|seen w Hl Hu Hw|w Ht].
  - assert (E : reconciled_in (t, r) = None).
    { destruct r as [tk|]; [|done]. by destruct (Hq tk eq_refl) as (b & [->| ->]). }
    rewrite E. split; [by unfold kept_as; rewrite Hl|]. intros tk b a Hr. by destruct (Hq tk Hr) as (b' & [->| ->]).
  - unfold kept_as in Hk. rewrite Hl in Hk. simpl in Hk. unfold continue_warm_up in Hw. simpl in Hw.
    destruct (warm_cache _ _ _ _ _) as [[[adv|e] c] w'] eqn:Hwc; [|simplify_eq/=; split; [done|by intros tk b a [= <-]]].
    destruct (covers_active_set adv) eqn:Hcov; [|simplify_eq/=; split; [done|by intros tk b a [= <-]]].
    destruct (persist _ _ _ _ _) as [[p db1]|e] eqn:Hp; [|simplify_eq/=; split; [done|by intros tk b a [= <-]]].
    destruct (decide_ _ _ _ _ _) as [dec db2] eqn:Hd. simplify_eq/=. split; [done|].
    intros tk b a [= <-]. simpl. destruct dec as [[[| | | |a']|]|]; try done. intros [= <- <-].
    apply decide_from_admits in Hd as ([= Hbc] & _ & Hoff). by rewrite <- Hk, Hbc.
  - unfold take_block in Ht. simpl in Ht. destruct (ingest _ _ _ _ _ _ _) as [[[ri db1] c] w'] eqn:Hi.
    pose proof (proj1 (run_ok L _ _ Hsys (ingest_run _ _ _ _ L _ _ _ _ _ _ _ Hi))) as Hsys1.
    destruct ri as [ig|e]; [|simplify_eq/=; split; [done|by intros tk b a [= <-]]]. apply ingest_record in Hi.
    destruct (reconcile_block _ _ _ _ _ _ _) as [[o|e] db2] eqn:Hr; [|simplify_eq/=; split; [done|by intros tk b a [= <-]]].
    pose proof (block_pass_run _ _ _ _ _ _ L _ _ _ Hsys1 Hr) as (_ & _ & _ & Ho).
    destruct (decide_ _ _ _ _ _) as [dec db3] eqn:Hd. simplify_eq/=. destruct o as [rep|b h reason]; simpl.
    + unfold for_reconciliation. rewrite Ho. split; [unfold kept_as; simpl; by rewrite Hi|].
      intros tk b a [= <-]. simpl. destruct dec as [[[| | | |a']|]|]; try done. intros [= <- <-].
      apply decide_from_admits in Hd as ([= Hbc] & _ & Hoff). by rewrite Hbc.
    + split; [done|]. intros tk b' a [= <-]. simpl. destruct dec as [[[| | | |a']|]|]; try done.
      apply decide_from_admits in Hd as ([=] & _).
Qed.

(** ** Runs *)

Abbreviation run_ := (run sha256 blake3 to_string show text_le sv).

Lemma run_invariant L interval polls : dc_unverified_limit (po_deciding (sv_policy sv)) <= L ->
  Forall (fun p => draws_ok p.1) polls -> forall log0 now st res log st',
  system_ok L (st_db st) -> kept_as st = newest_reconciled log0 ->
  run_ interval false polls now st = (res, log, st') ->
  rtc (step L) (st_db st) (st_db st') /\ kept_as st' = newest_reconciled (log0 ++ log) /\
  forall i t tk b a, log !! i = Some (t, Ok tk) -> admission_of tk = Some (b, a) ->
    newest_reconciled (log0 ++ take (S i) log) = Some (b, false) /\ is_Some (dc_offer (po_deciding (sv_policy sv))).
Proof.
  intros HL. induction polls as [|[ds e] polls IH]; intros Hds log0 now st res log st' Hsys Hk H; simpl in H.
  { simplify_eq. rewrite app_nil_r. split; [apply rtc_refl|]. split; [done|]. intros i t tk b a Hi. by rewrite lookup_nil in Hi. }
  apply Forall_cons in Hds as [Hd Hds]. simpl in Hd.
  destruct (tick_ ds st) as [r st1] eqn:Ht. pose proof (tick_run L _ _ _ _ HL Hd Hsys Ht) as R1.
  destruct (run_ _ _ _ _ _) as [[res' log'] st2] eqn:Hr. simplify_eq.
  destruct (tick_keeps L log0 now ds st r st1 Hsys Hk Ht) as [Hk1 Hadm].
  destruct (IH Hds (log0 ++ [(now, r)]) _ _ _ _ _ (proj1 (run_ok L _ _ Hsys R1)) Hk1 Hr) as (R2 & Hk2 & Hall).
  rewrite <- app_assoc in Hk2. split; [by transitivity (st_db st1)|]. split; [done|].
  intros [|i] t tk b a Hi Ha; simpl in Hi; [|specialize (Hall i t tk b a Hi Ha); by rewrite <- app_assoc in Hall].
  simplify_eq. simpl. rewrite take_0. by apply (Hadm tk _ a).
Qed.
End polls.

Lemma ingest_snapshot {W} sha256 to_string show (ing : Ingestor W) db t w ig db' t' w' :
  ingest sha256 to_string show ing db t w = (Ok ig, db', t', w') ->
  sn_active_cache_ready (pe_snapshot (ig_snapshot ig)) = covers_active_set (ig_cache ig) /\
  exists db1, persist sha256 to_string (ir_network ing) (pe_snapshot (ig_snapshot ig)) db1 = Ok (ig_snapshot ig, db') /\
    db_snapshot db1 = db_snapshot db.
Proof.
  unfold ingest. destruct (last_local_height _ _) as [o|]; [|done]. destruct (assemble _ _ _) as [[s|] w1]; [|done].
  destruct (to_i64 _) as [observed|]; [|done]. destruct (warm_cache _ _ _ _ _) as [[[c|] t1] w2]; [|done].
  destruct (record_missed _ _ _ _) as [[hs db1]|] eqn:Hg; [|done].
  destruct (persist _ _ _ _ _) as [[p d]|] eqn:Hp; [|done]. intros [= <- <- <- <-]. simpl.
  destruct (persist_Ok _ _ _ _ _ _ _ Hp) as (-> & _). split; [done|]. exists db1. split; [done|].
  unfold record_missed in Hg. destruct o as [last|]; [|by simplify_eq]. destruct (to_i64 last); [|done].
  destruct (record_block_gap _ _ _ _) as [[hs' d']|] eqn:Hgap; simplify_eq/=. by apply record_block_gap_covers in Hgap as [? _].
Qed.

Lemma run_times {W} sha256 blake3 to_string show text_le (sv : Service W) interval polls : forall now st res log st',
  run sha256 blake3 to_string show text_le sv interval false polls now st = (res, log, st') ->
  res = None /\ length log = length polls /\
  forall i p t r t' r', polls !! i = Some p -> log !! i = Some (t, r) -> log !! S i = Some (t', r') -> t' = t + Z.max interval p.2.
Proof.
  induction polls as [|[ds e] polls IH]; intros now st res log st' H; simpl in H; [by simplify_eq|].
  destruct (tick _ _ _ _ _ _ _ _) as [r st1]. destruct (run _ _ _ _ _ _ _ _ _ _) as [[res' log'] st2] eqn:Hr. simplify_eq.
  destruct (IH _ _ _ _ _ Hr) as (-> & Hl & Ht). split; [done|]. split; [simpl; by rewrite Hl|].
  intros [|i] p t x t' x' Hp H1 H2; simpl in *; [|by eapply Ht]. simplify_eq. simpl.
  destruct polls as [|[ds' e'] polls]; simpl in Hr; [by simplify_eq|].
  destruct (tick _ _ _ _ _ _ _ _) as [r2 st3]. destruct (run _ _ _ _ _ _ _ _ _ _) as [[? ?] ?]. simplify_eq/=. lia.
Qed.

(** ** Properties *)

(** C3. Work is claimed only from a block that was reconciled from.  In every run of
    polls from a start, when a poll reports an admission, the block it was
    decided from is the one most recently reconciled from -- in that poll or in
    an earlier one, whose warm-up it completes -- and that reconciliation
    found nothing for an operator; and the deployment's policy carries an offer,
    that is, it is configured to decide. *)
Theorem admission_follows_reconciliation {W} sha256 blake3 to_string show text_le (sv : Service W) L interval polls now
    db cache w res log st' i t tk b a :
  dc_unverified_limit (po_deciding (sv_policy sv)) <= L -> Forall (fun p => draws_ok p.1) polls -> system_ok L db ->
  run sha256 blake3 to_string show text_le sv interval false polls now (MkState None db cache w) = (res, log, st') ->
  log !! i = Some (t, Ok tk) -> admission_of tk = Some (b, a) ->
  newest_reconciled (take (S i) log) = Some (b, false) /\ is_Some (dc_offer (po_deciding (sv_policy sv))).
Proof.
  intros HL Hds Hsys Hr Hi Ha.
  destruct (run_invariant _ _ _ _ _ _ L interval polls HL Hds [] now (MkState None db cache w) res log st' Hsys eq_refl Hr) as (_ & _ & H).
  exact (H i t tk b a Hi Ha).
Qed.

(** C19. Polling is a sequence of the store's own transactions.  Whatever the polls
    read, find, decide or fail at, the database they leave is reached by
    committed transactions: every joint invariant still holds, and nothing
    recorded before was taken back -- workflows only go forward, intents keep
    their payload, and attempts, leases' fences, evidence, decisions, gaps and
    block snapshots stay. *)
Theorem polls_are_a_run {W} sha256 blake3 to_string show text_le (sv : Service W) L interval polls now
    db cache w res log st' :
  dc_unverified_limit (po_deciding (sv_policy sv)) <= L -> Forall (fun p => draws_ok p.1) polls -> system_ok L db ->
  run sha256 blake3 to_string show text_le sv interval false polls now (MkState None db cache w) = (res, log, st') ->
  rtc (step L) db (st_db st') /\ system_ok L (st_db st') /\ history_le db (st_db st').
Proof.
  intros HL Hds Hsys Hr.
  destruct (run_invariant _ _ _ _ _ _ L interval polls HL Hds [] now (MkState None db cache w) res log st' Hsys eq_refl Hr) as (R & _ & _).
  destruct (run_ok L db (st_db st') Hsys R). done.
Qed.

(** The loop outlives every failed poll and a check does not.  Polling never
    ends by itself: every poll is made, each starts exactly the interval after
    the one before, or as soon as it ends when it took longer; [once] makes a
    single poll and ends with that poll's verdict. *)
Theorem polling_goes_on {W} sha256 blake3 to_string show text_le (sv : Service W) interval once polls now st res log st' :
  run sha256 blake3 to_string show text_le sv interval once polls now st = (res, log, st') -> polls <> [] ->
  if once then exists r, log = [(now, r)] /\ res = Some (match r with Ok _ => Ok tt | Err e => Err e end)
  else res = None /\ length log = length polls /\
    forall i p t r t' r', polls !! i = Some p -> log !! i = Some (t, r) -> log !! S i = Some (t', r') -> t' = t + Z.max interval p.2.
Proof.
  intros H Hne. destruct once; [|by eapply run_times]. destruct polls as [|[ds e] polls]; [done|]. simpl in H.
  destruct (tick _ _ _ _ _ _ _ _) as [r st1]. exists r. by destruct r; simplify_eq.
Qed.

(** A block is reconciled from once in a row.  After a poll that took block [b]
    in and reconciled from it, a poll that sees [b] again takes nothing in: it
    reports the block unchanged and leaves the database as it is when the cache
    covered the block's active set, and otherwise only goes on warming it. *)
Theorem block_is_reconciled_once {W} sha256 blake3 to_string show text_le (sv : Service W) L ds st b h gaps cache report dec st1
    ds' latest w r st2 :
  system_ok L (st_db st) ->
  tick sha256 blake3 to_string show text_le sv ds st = (Ok (TickIngested b h gaps cache (OReconciled report) dec), st1) ->
  sv_poll sv (st_world st1) = (Ok latest, w) -> latest_block_id latest = Some b ->
  tick sha256 blake3 to_string show text_le sv ds' st1 = (r, st2) ->
  if covers_active_set cache then r = Ok (Unchanged b) /\ st_db st2 = st_db st1
  else match r with
       | Ok (CacheAdvanced b' _ _ _) => b' = b
       | Err (SvIngest _) => st_db st2 = st_db st1
       | _ => False
       end.
Proof.
  intros Hsys H Hp Hb H'. apply tick_cases in H as [_ _ _ Hq _|seen w0 _ _ Hw|w0 Ht].
  { by destruct (Hq _ eq_refl) as (? & [?|?]). }
  { unfold continue_warm_up in Hw. destruct (warm_cache _ _ _ _ _) as [[[adv|e] c] w1]; [|done].
    destruct (covers_active_set adv); [|done]. destruct (persist _ _ _ _ _) as [[p db1]|e]; [|done].
    by destruct (decide_from _ _ _ _ _ _ _ _ _ _). }
  unfold take_block in Ht. simpl in Ht. destruct (ingest _ _ _ _ _ _ _) as [[[ri db1] c] w'] eqn:Hi.
  pose proof (proj1 (run_ok L _ _ Hsys (ingest_run _ _ _ _ L _ _ _ _ _ _ _ Hi))) as Hsys1.
  destruct ri as [ig|e]; [|done]. pose proof (ingest_record _ _ _ _ _ _ _ _ _ _ _ Hi) as Hid.
  destruct (ingest_snapshot _ _ _ _ _ _ _ _ _ _ _ Hi) as [Hcov _].
  destruct (reconcile_block _ _ _ _ _ _ _) as [[o|e] db2] eqn:Hr; [|done].
  pose proof (block_pass_run _ _ _ _ _ _ L _ _ _ Hsys1 Hr) as (_ & _ & _ & Ho).
  destruct (decide_from _ _ _ _ _ _ _ _ _ _) as [d db3]. simplify_eq/=.
  unfold tick in H'. simpl in Hp. cbn [st_world] in H'. rewrite Hp, Hb in H'. simpl in H'. unfold for_reconciliation, for_decision in H'. rewrite Ho in H'.
  simpl in H'. rewrite <- Hid, String.eqb_refl in H'. rewrite Hcov in H'. destruct (covers_active_set (ig_cache ig)); simpl in H'; [by simplify_eq|].
  unfold continue_warm_up in H'. simpl in H'. destruct (warm_cache _ _ _ _ _) as [[[adv|e] c'] w2]; [|by simplify_eq].
  destruct (covers_active_set adv); [|by simplify_eq]. destruct (persist _ _ _ _ _) as [[p db4]|e]; [|by simplify_eq].
  by destruct (decide_from _ _ _ _ _ _ _ _ _ _); simplify_eq.
Qed.

(** A usable block whose reconciliation failed is not reconciled from again.
    The comment on the early return says it is only ever taken on the first
    poll after a restart; but a poll that fails after the snapshot was
    persisted keeps no block, so the next poll finds the persisted row and
    passes the block over, in the same run. *)
Theorem failed_reconciliation_is_passed_over {W} sha256 blake3 to_string show text_le (sv : Service W) L ds st e st1
    ds' latest b w :
  system_ok L (st_db st) -> snapshots_ok (db_snapshot (st_db st)) -> st_last st = None ->
  tick sha256 blake3 to_string show text_le sv ds st = (Err (SvReconcile e), st1) ->
  usable_row_of (sv_network sv) b (st_db st1) <> None ->
  sv_poll sv (st_world st1) = (Ok latest, w) -> latest_block_id latest = Some b ->
  exists st2, tick sha256 blake3 to_string show text_le sv ds' st1 = (Ok (AlreadyIngested b), st2) /\ st_db st2 = st_db st1 /\
    st_last st2 = None.
Proof.
  intros Hsys Hsn Hl H Hrow Hp Hb. apply tick_cases in H as [_ _ _ _ Hq|seen w0 ? _ _|w0 Ht]; [by destruct (Hq e)|congruence|].
  unfold take_block in Ht. simpl in Ht. destruct (ingest _ _ _ _ _ _ _) as [[[ri db1] c] w'] eqn:Hi.
  pose proof (proj1 (run_ok L _ _ Hsys (ingest_run _ _ _ _ L _ _ _ _ _ _ _ Hi))) as Hsys1.
  destruct ri as [ig|]; [|done]. destruct (ingest_snapshot _ _ _ _ _ _ _ _ _ _ _ Hi) as (_ & db0 & Hper & Hs0).
  destruct (persist_Ok _ _ _ _ _ _ _ Hper) as (_ & _ & _ & Hins).
  destruct (insert_snapshot_keeps _ _ _ _ _ _ ltac:(by rewrite Hs0) Hins) as [Hsn1 _].
  destruct (reconcile_block _ _ _ _ _ _ _) as [[o|e'] db2] eqn:Hr; [by destruct (decide_from _ _ _ _ _ _ _ _ _ _)|].
  pose proof (block_pass_run _ _ _ _ _ _ L _ _ _ Hsys1 Hr) as (_ & _ & _ & Hdb).
  assert (db2 = db1) as -> by (by destruct e'). simplify_eq/=.
  unfold tick. simpl in Hp. cbn [st_world st_last]. rewrite Hp, Hb, Hl. simpl. unfold load_usable_record.
  destruct (usable_row_of _ b db1) as [[k row]|] eqn:Hu; [|done]. apply usable_row_of_Some in Hu as (Hk & Hkb & _).
  destruct (proj1 Hsn1 _ _ Hk) as [Hlen Hh]. destruct (Z.ltb_spec (sr_height row) 0); [lia|].
  rewrite Hlen. simpl. by eexists.
Qed.

(** ** A controller at one block *)

Definition ex_block : Value :=
  json_object [("id", JString "b9");
    ("config", json_object [("reports", json_object [("penalty_amount", JString "500")])]);
    ("data", json_object [("confirmed_ids", json_object []); ("active_ids", json_object [("benchmark", JArray [JString "m1"; JString "m2"])])]);
    ("details", json_object [("height", json_u64 9); ("prev_block_id", JString "b8"); ("round", json_u64 3); ("timestamp", json_u64 0)])].
(** [get-benchmarks]: no entries, or a confirmed entry that names no benchmark. *)
Definition ex_benchmarks (readable : bool) : Value :=
  let entries := if readable then JArray [] else JArray [json_object [("state", json_object [("block_confirmed", json_u64 5)])]] in
  json_object [("precommits", entries); ("benchmarks", entries); ("proofs", entries); ("frauds", entries)].
Definition ex_service (readable : bool) : Service unit :=
  MkService
    (MkSource unit (fun w => (Ok ex_block, w))
       (fun r _ w => (Ok (match r with RdBenchmarks => ex_benchmarks readable
                          | _ => default JNull (snapshot_read (ex_snapshot 3) r) end), w))
       (fun _ _ w => (Ok JNull, w)))
    (fun id w => (Err (SnUnavailable "get-benchmark-data" id), w))
    (fun w => (Ok ex_block, w)) Testnet "0xpool"
    (MkPolicy lenient 5 (MkDeciding (Some (ex_offer 16)) 3 "40" "v1" digest_a)).
Definition ex_draws : Draws := MkDraws 1 2 10 ex_drawn None.
(** Both active benchmarks are already retained. *)
Definition ex_retained : MetaTable :=
  {[ (Testnet, "m1") := MkMetaRow (ex_meta "m1" "a1" 500) 8; (Testnet, "m2") := MkMetaRow (ex_meta "m2" "a2" 600) 8 ]}.
Definition ex_start : State unit := MkState None empty_db ex_retained tt.
Definition ex_run (readable : bool) (k : nat) : option (result ServiceError unit) * list (Z * result ServiceError Tick) * State unit :=
  run ex_hash32 ex_hash (fun _ => "") (fun _ => "") str_leb (ex_service readable) 30 false (replicate k (ex_draws, 4)) 0 ex_start.

Definition ex_summary (log : list (Z * result ServiceError Tick)) : list (Z * bool * option string) :=
  map (fun e => (e.1, is_Ok e.2, match e.2 with Ok tk => fst <$> admission_of tk | Err _ => None end)) log.
Example ex_run_readable : ex_summary (ex_run true 2).1.2 = [(0, true, Some "b9"); (30, true, None)].
Proof. vm_compute. reflexivity. Qed.

Lemma ex_polls_ok k : Forall (fun p => draws_ok p.1) (replicate k (ex_draws, 4)).
Proof. by apply Forall_replicate. Qed.
Lemma ex_start_ok : system_ok 3 (st_db ex_start).
Proof. exact (reachable_ok 3 empty_db ltac:(lia) (rtc_refl _ _)). Qed.

(** The first poll takes [b9] in, reconciles from it and admits a precommit. *)
Example admission_follows_reconciliation_witness :
  newest_reconciled (take 1 (ex_run true 2).1.2) = Some ("b9", false) /\ is_Some (dc_offer (po_deciding (sv_policy (ex_service true)))).
Proof.
  assert (E : match (ex_run true 2).1.2 !! 0%nat with Some (_, Ok tk) => fst <$> admission_of tk | _ => None end = Some "b9")
    by (vm_compute; reflexivity).
  destruct (ex_run true 2) as [[res log] st'] eqn:Hr. cbn [fst snd] in *.
  destruct (log !! 0%nat) as [[t [tk|]]|] eqn:Hl; try discriminate E.
  destruct (admission_of tk) as [[b a]|] eqn:Ha; [|discriminate E]. injection E as ->.
  exact (admission_follows_reconciliation ex_hash32 ex_hash (fun _ => "") (fun _ => "") str_leb (ex_service true) 3 30
    (replicate 2 (ex_draws, 4)) 0 empty_db ex_retained tt res log st' 0%nat t tk "b9" a ltac:(reflexivity) (ex_polls_ok 2) ex_start_ok Hr Hl Ha).
Defined.

Example polls_are_a_run_witness : system_ok 3 (st_db (ex_run true 2).2) /\ count_unverified Testnet (st_db (ex_run true 2).2) = 1.
Proof.
  split; [|vm_compute; reflexivity]. destruct (ex_run true 2) as [[res log] st'] eqn:Hr.
  exact (proj1 (proj2 (polls_are_a_run ex_hash32 ex_hash (fun _ => "") (fun _ => "") str_leb (ex_service true) 3 30
    (replicate 2 (ex_draws, 4)) 0 empty_db ex_retained tt res log st' ltac:(reflexivity) (ex_polls_ok 2) ex_start_ok Hr))).
Defined.

(** Three polls that each fail to reconcile are all made. *)
Example polling_goes_on_witness : length (ex_run false 3).1.2 = 3%nat /\ (ex_run false 3).1.1 = None.
Proof.
  destruct (ex_run false 3) as [[res log] st'] eqn:Hr.
  destruct (polling_goes_on ex_hash32 ex_hash (fun _ => "") (fun _ => "") str_leb (ex_service false) 30 false
    (replicate 3 (ex_draws, 4)) 0 ex_start res log st' Hr ltac:(done)) as (E & Hl & _).
  split; [exact Hl|exact E].
Defined.

Definition ex_tick (readable : bool) : result ServiceError Tick * State unit :=
  tick ex_hash32 ex_hash (fun _ => "") (fun _ => "") str_leb (ex_service readable) ex_draws ex_start.
Example block_is_reconciled_once_witness :
  exists st2, tick ex_hash32 ex_hash (fun _ => "") (fun _ => "") str_leb (ex_service true) ex_draws (ex_tick true).2 = (Ok (Unchanged "b9"), st2) /\
    st_db st2 = st_db (ex_tick true).2.
Proof.
  assert (E : match (ex_tick true).1 with
              | Ok (TickIngested b _ _ cache (OReconciled _) _) => String.eqb b "b9" && covers_active_set cache | _ => false end = true)
    by (vm_compute; reflexivity).
  destruct (ex_tick true) as [r st1] eqn:Ht. cbn [fst snd] in *.
  destruct (tick _ _ _ _ _ _ _ st1) as [r2 st2] eqn:Ht2. exists st2.
  destruct r as [[| | |b h gaps cache [report|] dec]|]; try discriminate E.
  apply andb_true_iff in E as [->%String.eqb_eq Hc].
  pose proof (block_is_reconciled_once ex_hash32 ex_hash (fun _ => "") (fun _ => "") str_leb (ex_service true) 3 ex_draws ex_start "b9" h gaps
    cache report dec st1 ex_draws ex_block (st_world st1) r2 st2 ex_start_ok Ht eq_refl eq_refl Ht2) as H.
  rewrite Hc in H. destruct H as [-> H]. split; [reflexivity|exact H].
Defined.

Example failed_reconciliation_is_passed_over_witness :
  exists st2, tick ex_hash32 ex_hash (fun _ => "") (fun _ => "") str_leb (ex_service false) ex_draws (ex_tick false).2
    = (Ok (AlreadyIngested "b9"), st2) /\ st_db st2 = st_db (ex_tick false).2 /\ st_last st2 = None.
Proof.
  assert (E : match (ex_tick false).1 with Err (SvReconcile _) => true | _ => false end = true) by (vm_compute; reflexivity).
  assert (Hu : match usable_row_of Testnet "b9" (st_db (ex_tick false).2) with Some _ => true | None => false end = true)
    by (vm_compute; reflexivity).
  destruct (ex_tick false) as [r st1] eqn:Ht. cbn [fst snd] in *. destruct r as [|[| | |e]]; try discriminate E.
  apply (failed_reconciliation_is_passed_over ex_hash32 ex_hash (fun _ => "") (fun _ => "") str_leb (ex_service false) 3 ex_draws ex_start e st1
    ex_draws ex_block "b9" (st_world st1) ex_start_ok); try reflexivity; [by split|exact Ht|].
  change (sv_network (ex_service false)) with Testnet. intros H. rewrite H in Hu. discriminate Hu.
Defined.
