(* ===== verification/Commit.v ===== *)
(** * The commitment write: [crates/pool-controller/src/commit.rs] and [stub.rs]

    Creating the benchmark intent for a workflow whose precommit TIG confirmed,
    and the fabricated evidence only a local fake may be given.  Each read and
    the recording of the intent are statements of their own; the model takes the
    database each of them sees. *)
From S2P Require Import Prelude Text BTreeMap Json Domain Workflow Store Intent Payload Admission Acceptance Restart System Bind Config.
Open Scope Z_scope.

Inductive CommitError :=
| CmNoWorkflow (n : Network) (workflow_id : string)
| NotAwaitingCommitment (workflow_id state : string)
| CmNoBenchmark (workflow_id : string)
| NoConfirmedLength (workflow_id : string)
| CmWrongBenchmark (workflow_id owned given : string)
| StubAgainstLiveEndpoint (benchmark_id host : string)
| CmPayload (e : PayloadError)
| CmIntent (e : IntentError)
| CmWorkflow (e : WorkflowError).

Section commit.
Context (sha256 : string -> Bytes) (to_string : Value -> string) (url_parse : string -> option Url).

Definition create_commitment_intent (n : Network) (tig : TigConfig) (workflow_id artifact_id : string) (submission : BenchmarkSubmission)
    (trace_id : option TraceId) (fresh : Uuid) (now : Z) (db_read db_stub db : Db) : result CommitError (WriteIntent * Db) :=
  let? found := map_err CmWorkflow (find n workflow_id db_read) in
  let? current := ok_or found (CmNoWorkflow n workflow_id) in
  if negb (bool_decide (wf_state current = PrecommitConfirmed))
  then Err (NotAwaitingCommitment workflow_id (WorkflowState_as_str (wf_state current)))
  else
    let? benchmark_id := ok_or (wf_benchmark_id current) (CmNoBenchmark workflow_id) in
    if negb (String.eqb (bs_benchmark_id submission) benchmark_id)
    then Err (CmWrongBenchmark workflow_id benchmark_id (bs_benchmark_id submission))
    else
      let? num_nonces := ok_or (wf_confirmed_num_nonces current) (NoConfirmedLength workflow_id) in
      let? num_nonces := ok_or (if num_nonces <? 0 then None else Some num_nonces) (NoConfirmedLength workflow_id) in
      let? _ := map_err CmPayload (commitment_matches_confirmed submission num_nonces) in
      if benchmark_preconditions_are_stubbed n workflow_id benchmark_id db_stub && negb (is_local_fake_tig url_parse tig)
      then Err (StubAgainstLiveEndpoint benchmark_id (default "<unparseable>" (host url_parse tig)))
      else map_err CmIntent (create_intent fresh now
             (MkNewIntent n workflow_id Benchmark 1 (Some benchmark_id) (benchmark_digest sha256 to_string submission)
                (Some artifact_id) trace_id) db).
End commit.

(** ** The stand-in: [stub.rs] *)

Inductive StubError := NotFakeTig (what host : string) | StAcceptance (e : AcceptanceError).
Definition STUB_PACKAGE_SHA256 : Bytes := replicate 32 91.
Definition STUB_SAMPLE_DIGEST : Bytes := replicate 32 92.

Section stub.
Context (url_parse : string -> option Url).

Definition stub_guard (tig : TigConfig) (what : string) : result StubError unit :=
  if is_local_fake_tig url_parse tig then Ok tt else Err (NotFakeTig what (default "<unparseable>" (host url_parse tig))).
Definition stub_acceptance (tig : TigConfig) (n : Network) (workflow_id benchmark_id : string) (snap db : Db) : result StubError Db :=
  let? _ := stub_guard tig "a package acceptance" in
  map_err StAcceptance (record_acceptance (MkPackageAcceptance n workflow_id benchmark_id STUB_PACKAGE_SHA256 true) snap db).
Definition stub_canonical_payload (tig : TigConfig) (n : Network) (artifact_id workflow_id benchmark_id : string) (payload_digest : Bytes)
    (snap db : Db) : result StubError Db :=
  let? _ := stub_guard tig "a canonical payload" in
  map_err StAcceptance (record_canonical_payload
    (MkCanonicalPayload n artifact_id workflow_id benchmark_id STUB_SAMPLE_DIGEST payload_digest true) snap db).
Definition stub_commitment_payload (tig : TigConfig) (n : Network) (artifact_id workflow_id benchmark_id : string) (payload_digest : Bytes)
    (snap db : Db) : result StubError Db :=
  let? _ := stub_guard tig "a commitment payload" in
  map_err StAcceptance (record_commitment_payload (MkCommitmentPayload n artifact_id workflow_id benchmark_id payload_digest true) snap db).
End stub.

(** ** Lemmas *)

(** Not stubbed: neither the acceptance nor any commitment payload of it is. *)
Lemma not_stubbed n id b db : benchmark_preconditions_are_stubbed n id b db = false ->
  (forall r, db_acceptance db !! (n, id, b) = Some r -> ar_stub_origin r = false) /\
  forall a c, db_commitment db !! (n, a) = Some c -> mr_workflow_id c = id -> mr_benchmark_id c = b -> mr_stub_origin c = false.
Proof.
  unfold benchmark_preconditions_are_stubbed. intros [Ha Hc]%orb_false_iff. split.
  - intros r Hr. by rewrite Hr in Ha.
  - intros a c Hk <- <-. pose proof (proj1 (existsb_false _ _) Hc ((n, a), c) ltac:(by apply elem_of_map_to_list)) as H. simpl in H.
    by rewrite bool_decide_eq_true_2, !String.eqb_refl in H.
Qed.

(** What is on record behind a commitment, and that it is not fabricated. *)
Record real_evidence (n : Network) (id b a : string) (digest : Bytes) (db : Db) : Prop := {
  re_acceptance : exists r, db_acceptance db !! (n, id, b) = Some r /\ ar_stub_origin r = false;
  re_commitment : exists c, db_commitment db !! (n, a) = Some c /\ mr_workflow_id c = id /\ mr_benchmark_id c = b /\
    mr_payload_digest c = digest /\ mr_stub_origin c = false;
}.
Lemma real_evidence_mono n id b a digest db db' : evidence_le db db' -> real_evidence n id b a digest db -> real_evidence n id b a digest db'.
Proof.
  intros (Ha & _ & Hc) [(r & Hr & Hs) (c & Hk & H)]. split.
  - exists r. split; [by eapply lookup_weaken|done].
  - exists c. split; [by eapply lookup_weaken|done].
Qed.

Lemma real_evidence_of fresh now n id b a digest trace db :
  intent_preconditions (intent_of fresh now (MkNewIntent n id Benchmark 1 (Some b) digest (Some a) trace)) db = None ->
  benchmark_preconditions_are_stubbed n id b db = false -> real_evidence n id b a digest db.
Proof.
  intros Hpre [Hna Hnc]%not_stubbed. unfold intent_preconditions, has_acceptance, has_commitment in Hpre. simpl in Hpre.
  destruct (db_acceptance db !! (n, id, b)) as [r|] eqn:Hr; simpl in Hpre; [|done].
  destruct (db_commitment db !! (n, a)) as [c|] eqn:Hc; [|done].
  destruct (bool_decide _) eqn:E1 in Hpre; [|done]. destruct (bool_decide _) eqn:E2 in Hpre; [|done].
  destruct (bool_decide _) eqn:E3 in Hpre; [|done]. rewrite !bool_decide_eq_true in *.
  split; [exists r; split; [done|by apply Hna]|]. exists c. split_and!; try done. by eapply Hnc.
Qed.

(** The reads before the intent is recorded. *)
Lemma commit_checks sha256 to_string url_parse n tig id artifact sub trace fresh now db_read db_stub db i db' :
  create_commitment_intent sha256 to_string url_parse n tig id artifact sub trace fresh now db_read db_stub db = Ok (i, db') ->
  exists w, db_workflow db_read !! (n, id) = Some w /\ wf_state w = PrecommitConfirmed /\
    wf_benchmark_id w = Some (bs_benchmark_id sub) /\
    (exists k, wf_confirmed_num_nonces w = Some k /\ commitment_matches_confirmed sub k = Ok tt) /\
    (benchmark_preconditions_are_stubbed n id (bs_benchmark_id sub) db_stub = false \/ is_local_fake_tig url_parse tig = true) /\
    create_intent fresh now (MkNewIntent n id Benchmark 1 (Some (bs_benchmark_id sub)) (benchmark_digest sha256 to_string sub)
      (Some artifact) trace) db = Ok (i, db').
Proof.
  unfold create_commitment_intent. rewrite find_spec. cbn [map_err]. destruct (db_workflow db_read !! (n, id)) as [w|]; [|done]. cbn [ok_or].
  case_bool_decide as Hst; cbn [negb]; [|done]. destruct (wf_benchmark_id w) as [b|] eqn:Hb; [|done]. cbn [ok_or].
  destruct (String.eqb_spec (bs_benchmark_id sub) b) as [<-|]; cbn [negb]; [|done].
  destruct (wf_confirmed_num_nonces w) as [k|] eqn:Hk; [|done]. cbn [ok_or]. destruct (k <? 0); [done|]. cbn [ok_or].
  destruct (commitment_matches_confirmed sub k) as [[]|] eqn:Hm; [|done]. cbn [map_err].
  destruct (benchmark_preconditions_are_stubbed _ _ _ _) eqn:Hs, (is_local_fake_tig url_parse tig) eqn:Hl; cbn [andb negb]; try done;
    (destruct (create_intent _ _ _ _) as [[j d]|] eqn:Hc; [|done]; intros [= <- <-]; exists w; split_and!; eauto).
Qed.

(** ** Properties *)

(** A commitment against a live endpoint stands on real evidence.  An intent is
    created only for a workflow whose precommit is confirmed, for the benchmark
    it owns, with as many qualities as TIG confirmed nonces and a well-formed
    root; it is one transaction of the store, the intent carries the body's
    digest, and behind it are a durable acceptance and a built payload with
    that digest.  Where the endpoint is not a local fake, neither row is
    fabricated, and neither ever becomes so. *)
Theorem commitment_stands_on_real_evidence sha256 to_string url_parse n tig id artifact sub trace fresh now L db i db' :
  system_ok L db -> (forall t, trace = Some t -> trace_ok t) -> Z.of_nat (length (bs_solution_quality sub)) <= u64_max ->
  create_commitment_intent sha256 to_string url_parse n tig id artifact sub trace fresh now db db db = Ok (i, db') ->
  step L db db' /\
  (exists w k, db_workflow db !! (n, id) = Some w /\ wf_state w = PrecommitConfirmed /\ wf_benchmark_id w = Some (bs_benchmark_id sub) /\
     wf_confirmed_num_nonces w = Some k /\ Z.of_nat (length (bs_solution_quality sub)) = k /\
     String.length (bs_merkle_root sub) = 64%nat /\ all_bytes is_lower_hex (bs_merkle_root sub) = true) /\
  in_workflow_id i = id /\ in_write_kind i = Benchmark /\ in_payload_digest i = benchmark_digest sha256 to_string sub /\
  write_is_backed i db' /\
  (is_local_fake_tig url_parse tig = false -> forall later, rtc (step L) db' later ->
     real_evidence n id (bs_benchmark_id sub) artifact (benchmark_digest sha256 to_string sub) later).
Proof.
  intros Hsys Ht Hlen H. destruct (commit_checks _ _ _ _ _ _ _ _ _ _ _ _ _ _ _ _ H) as (w & Hw & Hst & Hb & (k & Hk & Hm) & Hs & Hc).
  set (new := MkNewIntent n id Benchmark 1 (Some (bs_benchmark_id sub)) (benchmark_digest sha256 to_string sub) (Some artifact) trace) in *.
  assert (Hstep : step L db db').
  { apply (step_txn L (TCreateIntent fresh now new)); [exact Ht|]. simpl. by rewrite Hc. }
  destruct (run_ok L db db' Hsys (rtc_once _ _ Hstep)) as [Hsys' Hh].
  destruct (create_intent_effect fresh now new db i db' (sys_intents _ _ Hsys) Ht Hc) as (_ & Hadm & _ & Hi & Hg & Hd & Hbi & Ha & _).
  injection Hg as En Ew Ekind Egen. split; [exact Hstep|]. split.
  { exists w, k. apply (commitment_matches_iff sub k Hlen) in Hm as (? & ? & ?). done. }
  do 3 (split; [done|]). split.
  { eapply backed; [by eapply (proj1 (sys_intents _ _ Hsys'))|]. by eapply (sys_evidence _ _ Hsys'). }
  intros Hlive later Hrun. destruct Hs as [Hs|]; [|congruence].
  destruct (run_ok L db' later Hsys' Hrun) as [_ Hl].
  apply (real_evidence_mono _ _ _ _ _ db); [etransitivity; [apply (hist_evidence _ _ Hh)|apply (hist_evidence _ _ Hl)]|].
  apply intent_admissible_None in Hadm as [Hpre _]. by apply (real_evidence_of fresh now _ _ _ _ _ trace).
Qed.

(** The sample admission, confirmed, with its package accepted and its payload
    built; the endpoint is TIG's. *)
Definition ex_submission : BenchmarkSubmission :=
  MkBenchmarkSubmission "b9" "00000000000000000000000000000000000000000000000000000000000000ff" (replicate 64 5).
Definition ex_sha (s : string) : Bytes := replicate 32 7.
Definition ex_live : TigConfig := MkTigConfig "https://testnet-api.tig.foundation" "0x" "" None.
Definition ex_evidence_txns (stub : bool) : list Txn :=
  [TWorkflow Testnet "w1" 1 (OpConfirmPrecommit ex_evidence);
   TEvidence (EvAcceptance (MkPackageAcceptance Testnet "w1" "b9" digest_a stub)) empty_db;
   TEvidence (EvCommitment (MkCommitmentPayload Testnet "art" "w1" "b9" (ex_sha "") false)) empty_db].
Definition ex_accepted (stub : bool) : Db := match run_txns (ex_evidence_txns stub) sample_reached with Some db => db | None => sample_reached end.
Lemma ex_accepted_reachable stub : reachable 3 (ex_accepted stub).
Proof.
  unfold ex_accepted. destruct (run_txns _ sample_reached) as [d|] eqn:E; [|exact sample_reachable].
  apply (transitivity (R := rtc (step 3)) (y := sample_reached)); [exact sample_reachable|].
  eapply run_txns_steps; [|exact E]. by repeat constructor.
Qed.
Definition ex_commit (stub : bool) : result CommitError (WriteIntent * Db) :=
  create_commitment_intent ex_sha (fun _ => "") ex_url_parse Testnet ex_live "w1" "art" ex_submission None 9%N 40
    (ex_accepted stub) (ex_accepted stub) (ex_accepted stub).

Example fabricated_acceptance_is_refused : ex_commit true = Err (StubAgainstLiveEndpoint "b9" "<unparseable>").
Proof. vm_compute. reflexivity. Qed.
Example commitment_stands_on_real_evidence_witness :
  exists i db', ex_commit false = Ok (i, db') /\ step 3 (ex_accepted false) db' /\ in_write_kind i = Benchmark /\
    real_evidence Testnet "w1" "b9" "art" (ex_sha "") db'.
Proof.
  assert (E : is_Ok (ex_commit false) = true) by (vm_compute; reflexivity).
  destruct (ex_commit false) as [[i db']|] eqn:Hc; [|discriminate E]. exists i, db'. split; [reflexivity|].
  destruct (commitment_stands_on_real_evidence ex_sha (fun _ => "") ex_url_parse Testnet ex_live "w1" "art" ex_submission None 9%N 40
    3 (ex_accepted false) i db' (reachable_ok 3 _ ltac:(lia) (ex_accepted_reachable false)) ltac:(intros t H; discriminate H)
    ltac:(vm_compute; discriminate) Hc) as (Hstep & _ & _ & Hk & _ & _ & Hreal).
  split; [exact Hstep|]. split; [exact Hk|]. exact (Hreal eq_refl db' (rtc_refl _ _)).
Defined.
