(* ===== verification/Startup.v ===== *)
(** * Starting the controller: [crates/pool-controller/src/main.rs]

    From a loaded configuration and the pinned integration file to what the
    poll runs under: the network, the read policy and its two clients on one
    limiter, the guardrails, the database URL, and what the deployment decides
    for.  The JSON readers, the driver's connect and the hash are parameters. *)
From S2P Require Import Prelude Text BTreeMap Json ReadPolicy ReadClient Domain Challenge Deadlines Workflow Store Payload Admission Restart Snapshot SnapshotStore ActiveCache Propose System Reconciler Ingest Decide Config Controller.
Open Scope Z_scope.

Inductive StartError :=
| StNoTig
| StNetwork (found : string)
| StReadPolicy (e : PolicyError)
| StGuardrails (e : GuardrailError)
| StDatabaseUrl (e : ConfigError)
| StConnect
| StClient (why : string)
| StNoOrchestration
| StPinned (e : string)
| StOffer (e : OfferError).

Record Started := MkStarted {
  sd_network : Network;
  sd_player_id : string;
  sd_policy : Policy;
  sd_poll_limits : ReadLimits;
  sd_poll_limiter : N;
  sd_reader_limits : ReadLimits;
  sd_reader_limiter : N;
  sd_interval : Z;
}.

Section start.
Context (from_str : string -> result string Value) (complaint : Value -> string) (guardrails_from_str : string -> result string Guardrails).
Context (blake3 : list Z -> list Z) (read_to_string : string -> option string) (connect : string -> bool) (PINNED : string).

(** The [match &orchestration.bootstrap_offer]. *)
Definition configured_offer (configured : option BootstrapOffer) : result StartError (option Offer) :=
  match configured with
  | None => Ok None
  | Some c =>
      let? pinned := map_err StPinned (from_str PINNED) in
      let? offer := map_err StOffer (offer_from_config (bo_compute_class c) (bo_cpu_cores c) (bo_tig_compute_type c) pinned) in
      Ok (Some offer)
  end.
Definition deciding_of (config : Config) (o : OrchestrationConfig) (offer : option Offer) : Deciding :=
  MkDeciding offer (oc_internal_pool_unverified_limit o) (oc_precommit_failure_charge_atoms o) (oc_reserve_policy_version o)
    (decision_digest blake3 config).

Definition start (fresh1 fresh2 : N) (reg : Registry) (config : Config) : result StartError (Started * Registry) :=
  let? tig := ok_or (cf_tig config) StNoTig in
  let? network := map_err StNetwork (Network_from_str (Network_as_str (cf_network config))) in
  let? policy := map_err StReadPolicy (ReadPolicy.from_config_json from_str complaint PINNED) in
  let? guardrails := map_err StGuardrails (Deadlines.from_config_json guardrails_from_str PINNED) in
  let? url := map_err StDatabaseUrl (database_url read_to_string config) in
  if negb (connect url) then Err StConnect
  else
    let? (poll, reg) := map_err StClient
      (let? x := client_new fresh1 (tg_base_url tig) policy (for_block_poll policy ReadPolicy.Controller) reg in Ok (fst x, snd x)) in
    let? (reader, reg) := map_err StClient
      (let? x := client_new fresh2 (tg_base_url tig) policy (for_reader policy ReadPolicy.Controller) reg in Ok (fst x, snd x)) in
    let? orchestration := ok_or (cf_orchestration config) StNoOrchestration in
    let? offer := configured_offer (oc_bootstrap_offer orchestration) in
    Ok (MkStarted network (tg_player_id tig)
          (MkPolicy guardrails (Z.to_nat (oc_active_cache_fetches_per_poll orchestration)) (deciding_of config orchestration offer))
          (fst poll) (snd poll) (fst reader) (snd reader) (po_block_poll_interval policy), reg).
End start.

(** ** Lemmas *)

Lemma blank_trims s : blank s = true -> trim_is_empty s = true.
Proof.
  induction s as [|c s IH]; [done|]. unfold blank. simpl. intros [Hc Hs]%andb_true_iff. apply N.eqb_eq in Hc.
  unfold trim_is_empty. cbn [unicode_trim_start]. unfold byte. rewrite Hc. simpl. by apply IH.
Qed.

(** A second client of the same endpoint and share gets the first one's limiter. *)
Lemma second_client_shares f1 f2 url policy l1 l2 reg a id1 reg1 b id2 reg2 :
  rl_requests_per_second l1 = rl_requests_per_second l2 -> rl_burst l1 = rl_burst l2 -> rl_max_concurrent l1 = rl_max_concurrent l2 ->
  client_new f1 url policy l1 reg = Ok (a, id1, reg1) -> client_new f2 url policy l2 reg1 = Ok (b, id2, reg2) -> id1 = id2.
Proof.
  intros E1 E2 E3. unfold client_new. destruct (negb (is_entitled_share policy l1)); [done|]. destruct (negb (is_entitled_share policy l2)); [done|].
  set (u := trim_end_matches _ url). unfold shared_limiter.
  set (live1 := filter (fun kv => (0 < rg_clients kv.2)%nat) reg).
  destruct (live1 !! limiter_key u) as [e|] eqn:He.
  - destruct (negb (same_rates _ _)); [done|]. intros [= _ <- <-].
    erewrite (proj2 (map_lookup_filter_Some _ _ _ _)); [|split; [apply lookup_insert_eq|simpl; lia]].
    destruct (negb _); [done|]. by intros [= _ <- _].
  - intros [= _ <- <-]. erewrite (proj2 (map_lookup_filter_Some _ _ _ _)); [|split; [apply lookup_insert_eq|simpl; lia]].
    destruct (negb _); [done|]. by intros [= _ <- _].
Qed.

Lemma offer_from_config_facts class cores ty pinned offer : offer_valid (MkBootstrapOffer class cores ty) ->
  offer_from_config class cores ty pinned = Ok offer -> blank (of_tig_compute_type offer) = false /\ of_compute offer <> OfferedCpu 0.
Proof.
  intros [Hc Ht] H. unfold offer_from_config in H. simpl in *.
  assert (Hb : blank ty = false) by (destruct (blank ty) eqn:E; [apply blank_trims in E; congruence|done]).
  assert (Hoffer : exists compute, offer = MkOffer compute ty /\ compute <> OfferedCpu 0).
  { destruct Hc as [[-> (k & -> & Hk)]|[-> ->]]; cbn in H; destruct (and_then _ _) as [v|] in H; simplify_eq/=;
      destruct (and_then _ _) as [v'|] in H; simplify_eq/=; destruct (known_types _ _ _) in H; try done;
      (destruct (negb _) in H; [done|]); injection H as <-; eexists; (split; [done|congruence]). }
  by destruct Hoffer as (compute & -> & ?).
Qed.

(** ** Properties *)

(** A controller that starts is fit to decide.  From a configuration that loaded,
    a start that succeeds is on testnet, admits under a limit of at least one,
    warms its cache with at least one read a poll, records the digest of its
    own configuration, and offers, if anything, a named compute type on a
    class whose core count is not zero; its two clients pace themselves on one
    limiter. *)
Theorem started_controller_is_fit from_str complaint guardrails_from_str blake3 read_to_string connect PINNED
    toml path url_parse pinned config f1 f2 reg sd reg' :
  load_config read_to_string url_parse pinned toml path PoolController = Ok config ->
  start from_str complaint guardrails_from_str blake3 read_to_string connect PINNED f1 f2 reg config = Ok (sd, reg') ->
  sd_network sd = Testnet /\ (1 <= po_cache_budget (sd_policy sd))%nat /\ sd_poll_limiter sd = sd_reader_limiter sd /\
  let deciding := po_deciding (sd_policy sd) in
  1 <= dc_unverified_limit deciding /\ is_canonical_atoms (dc_failure_charge_atoms deciding) = true /\
  dc_config_digest deciding = decision_digest blake3 config /\
  (is_Some (dc_offer deciding) <-> is_Some (offer_of config)) /\
  forall offer, dc_offer deciding = Some offer -> blank (of_tig_compute_type offer) = false /\ of_compute offer <> OfferedCpu 0.
Proof.
  unfold load_config. intros Hl Hs. destruct (read_to_string path) as [text|]; [|done]. cbn [ok_or] in Hl.
  destruct (toml text) as [c|]; [|done]. cbn [ok_or] in Hl. destruct (validate_for _ _ _ _ c) as [[]|] eqn:Hv; [|done]. injection Hl as ->.
  unfold validate_for in Hv. rewrite refuse_then, !then_Ok, negb_false_iff, bool_decide_eq_true in Hv.
  destruct Hv as (Hn & _ & _ & _ & Ho & _).
  unfold start in Hs. destruct (cf_tig config) as [tig|]; [|done]. cbn [ok_or] in Hs. rewrite Hn in Hs.
  change (Network_from_str (Network_as_str Testnet)) with (@Ok string Network Testnet) in Hs. cbn [map_err] in Hs.
  destruct (ReadPolicy.from_config_json _ _ _) as [policy|]; [|done]. destruct (Deadlines.from_config_json _ _) as [g|]; [|done].
  destruct (database_url _ _); [|done]. cbn [map_err] in Hs. destruct (negb _); [done|].
  destruct (client_new f1 _ _ _ _) as [[[l1 id1] reg1]|] eqn:H1; [|done]. cbn [map_err fst snd] in Hs.
  destruct (client_new f2 _ _ _ _) as [[[l2 id2] reg2]|] eqn:H2; [|done]. cbn [map_err fst snd] in Hs.
  destruct (cf_orchestration config) as [o|] eqn:Eo; [|done]. cbn [ok_or] in Hs. apply validate_policy_Ok in Ho as [Hlim Hfet Hch Hof _].
  destruct (configured_offer _ _ _) as [offer|] eqn:Hco; [|done]. injection Hs as <- _. simpl.
  split; [done|]. split; [lia|]. split; [eapply second_client_shares; [..|exact H1|exact H2]; done|].
  split; [done|]. split; [done|]. split; [done|]. unfold offer_of. rewrite Eo. simpl. unfold configured_offer in Hco.
  destruct (oc_bootstrap_offer o) as [[class cores ty]|] eqn:Eb.
  - destruct (from_str PINNED) as [v|]; [|done]. cbn [map_err] in Hco. destruct (offer_from_config _ _ _ _) as [x|] eqn:Hx; [|done].
    injection Hco as <-. split; [split; eauto|]. intros y [= <-]. exact (offer_from_config_facts class cores ty v x (Hof _ eq_refl) Hx).
  - injection Hco as <-. split; [split; by intros [? ?]|done].
Qed.

(** ** The shipped read budget, and a deployment on one CPU type *)

Definition ex_document : Value :=
  JObject (bt_insert "compute_compatibility"
    (json_object [("compute_types_by_vendor", json_object [("intel", JArray [JString "aws_c7i"])]);
                  ("compute_class_by_vendor", json_object [("intel", JString "cpu")])])
    (default bt_empty (json_as_object (limits_document 1 1)))).
Definition ex_loaded : Config := ex_config "pool_controller" "http://127.0.0.1:8080" ex_cpu.
Definition ex_started : result StartError (Started * Registry) :=
  start (fun _ => Ok ex_document) (fun _ => "") (fun _ => Ok lenient) ex_hash ex_read_file (fun _ => true) "" 7 8 ∅ ex_loaded.

Example started_controller_is_fit_witness :
  exists sd reg, ex_started = Ok (sd, reg) /\ sd_network sd = Testnet /\ sd_poll_limiter sd = sd_reader_limiter sd /\
    1 <= dc_unverified_limit (po_deciding (sd_policy sd)) /\ is_Some (dc_offer (po_deciding (sd_policy sd))).
Proof.
  assert (E : is_Ok ex_started = true) by (vm_compute; reflexivity).
  destruct ex_started as [[sd reg]|] eqn:Hs; [|discriminate E]. exists sd, reg. split; [reflexivity|].
  destruct (started_controller_is_fit (fun _ => Ok ex_document) (fun _ => "") (fun _ => Ok lenient) ex_hash ex_read_file (fun _ => true) ""
    (fun _ => Some ex_loaded) "/run/pw" ex_url_parse ex_pinned ex_loaded 7%N 8%N ∅ sd reg eq_refl Hs) as (H1 & _ & H3 & H4 & _ & _ & H7 & _).
  split; [exact H1|]. split; [exact H3|]. split; [exact H4|]. apply H7. by eexists.
Defined.
