(* ===== verification/Rfc3339.v ===== *)
(** * Timestamps: [rfc3339_utc] of [crates/pool-identity/src/lib.rs]

    Unix seconds as an RFC 3339 text, by the days-from-civil inverse, and the
    proof that it counts days the way the Gregorian calendar does. *)
From stdpp Require Import pretty.
From S2P Require Import Prelude.
Open Scope Z_scope.

Record Civil := MkCivil { cv_year : Z; cv_month : Z; cv_day : Z }.

(** The date of a day of an era of 400 years, by the day's offset in it.  Rust's
    [/] on the non-negative offset is the floor. *)
Definition civil_of_era (era doe : Z) : Civil :=
  let yoe := (doe - doe / 1460 + doe / 36524 - doe / 146096) / 365 in
  let y := yoe + era * 400 in
  let doy := doe - (365 * yoe + yoe / 4 - yoe / 100) in
  let mp := (5 * doy + 2) / 153 in
  let d := doy - (153 * mp + 2) / 5 + 1 in
  let m := if mp <? 10 then mp + 3 else mp - 9 in
  MkCivil (if m <=? 2 then y + 1 else y) m d.
(** [div_euclid] and [rem_euclid] by a positive number are [Z.div] and
    [Z.modulo]. *)
Definition civil_of_days (days : Z) : Civil :=
  let z := days + 719468 in civil_of_era (z / 146097) (z mod 146097).

(** [{n:0w}]. *)
Definition padded (w : nat) (n : Z) : string :=
  let digits := pretty (Z.to_N n) in
  String.append (String.concat "" (replicate (w - String.length digits) "0")) digits.
Definition rfc3339_utc (unix_secs : Z) : string :=
  let days := unix_secs / 86400 in
  let secs := unix_secs mod 86400 in
  let c := civil_of_days days in
  String.concat "" [padded 4 (cv_year c); "-"; padded 2 (cv_month c); "-"; padded 2 (cv_day c); "T";
                    padded 2 (secs / 3600); ":"; padded 2 ((secs / 60) mod 60); ":"; padded 2 (secs mod 60); "Z"].

Example rfc3339_known_values :
  rfc3339_utc 0 = "1970-01-01T00:00:00Z" /\ rfc3339_utc 1767225599 = "2025-12-31T23:59:59Z".
Proof. split; vm_compute; reflexivity. Qed.

(** ** The calendar *)

Definition leap (y : Z) : bool := (y mod 4 =? 0) && (negb (y mod 100 =? 0) || (y mod 400 =? 0)).
Definition month_days (y m : Z) : Z :=
  if m =? 2 then (if leap y then 29 else 28)
  else if (m =? 4) || (m =? 6) || (m =? 9) || (m =? 11) then 30 else 31.
Definition next_day (c : Civil) : Civil :=
  if cv_day c <? month_days (cv_year c) (cv_month c) then MkCivil (cv_year c) (cv_month c) (cv_day c + 1)
  else if cv_month c <? 12 then MkCivil (cv_year c) (cv_month c + 1) 1
  else MkCivil (cv_year c + 1) 1 1.
(** The calendar, counted a day at a time from 1 January 1970. *)
Definition calendar (days : nat) : Civil := Nat.iter days next_day (MkCivil 1970 1 1).

(** ** One era

    The formula finds the year of the era, starting on 1 March, whose days
    contain the offset. *)

Definition year_start (y : Z) : Z := 365 * y + y / 4 - y / 100.
Definition year_end (y : Z) : Z := if y =? 399 then 146097 else year_start (y + 1).
Definition scaled (doe : Z) : Z := doe - doe / 1460 + doe / 36524 - doe / 146096.

Lemma scaled_mono a b : 0 <= a <= b -> b <= 146096 -> scaled a <= scaled b.
Proof.
  intros Ha Hb. unfold scaled.
  assert (a - a / 1460 <= b - b / 1460) by (Z.to_euclidean_division_equations; lia).
  assert (a / 36524 - a / 146096 <= b / 36524 - b / 146096) by (Z.to_euclidean_division_equations; lia). lia.
Qed.
Definition all_below (p : Z -> bool) (n : nat) : bool := forallb p (seqZ 0 (Z.of_nat n)).
Lemma all_below_spec p n : all_below p n = true -> forall x, 0 <= x < Z.of_nat n -> p x = true.
Proof. unfold all_below. rewrite forallb_forall. intros H x Hx. apply H. apply list_elem_of_In, elem_of_seqZ. lia. Qed.
(** The boundaries of the 400 years, one by one. *)
Lemma year_boundaries y : 0 <= y < 400 ->
  scaled (year_start y) / 365 = y /\ scaled (year_end y - 1) / 365 = y /\
  year_end y = year_start y + (if leap (y + 1) then 366 else 365) /\ 0 <= year_start y /\ year_end y <= 146097.
Proof.
  intros Hy. pose proof (all_below_spec (fun y => (scaled (year_start y) / 365 =? y) && (scaled (year_end y - 1) / 365 =? y) &&
    (year_end y =? year_start y + (if leap (y + 1) then 366 else 365)) && (0 <=? year_start y) && (year_end y <=? 146097)) 400
    ltac:(vm_compute; reflexivity) y ltac:(lia)) as H.
  simpl in H. rewrite !andb_true_iff, !Z.eqb_eq, !Z.leb_le in H. tauto.
Qed.
Lemma year_found doe : 0 <= doe < 146097 ->
  exists y, 0 <= y < 400 /\ year_start y <= doe < year_end y.
Proof.
  intros Hd.
  assert (H : forall n : nat, (n <= 400)%nat -> doe < year_start (Z.of_nat n) \/ n = 400%nat ->
    exists y, 0 <= y < 400 /\ year_start y <= doe < year_end y).
  { induction n as [|n IH]; intros Hn [Hlt|E]; try lia; [change (year_start (Z.of_nat 0)) with 0 in Hlt; lia| |].
    - destruct (Z.le_gt_cases (year_start (Z.of_nat n)) doe); [|apply IH; [lia|left; lia]].
      exists (Z.of_nat n). split; [lia|]. unfold year_end. destruct (Z.eqb_spec (Z.of_nat n) 399); [lia|].
      rewrite Nat2Z.inj_succ, <- Z.add_1_r in Hlt. lia.
    - destruct (Z.le_gt_cases (year_start 399) doe); [exists 399; split; [lia|]; unfold year_end; simpl; lia|].
      apply IH; [lia|]. left. by replace (Z.of_nat n) with 399 by lia. }
  apply (H 400%nat); [lia|by right].
Qed.
Lemma year_of_era y doe : 0 <= y < 400 -> year_start y <= doe < year_end y -> scaled doe / 365 = y.
Proof.
  intros Hy Hd. destruct (year_boundaries y Hy) as (H1 & H2 & H3 & H4 & H5).
  pose proof (scaled_mono (year_start y) doe ltac:(lia) ltac:(lia)). pose proof (scaled_mono doe (year_end y - 1) ltac:(lia) ltac:(lia)).
  Z.to_euclidean_division_equations; lia.
Qed.

(** The month and day of a day of the year, and how far into the next civil
    year it is. *)
Definition month_at (doy : Z) : Z := let mp := (5 * doy + 2) / 153 in if mp <? 10 then mp + 3 else mp - 9.
Definition day_at (doy : Z) : Z := doy - (153 * ((5 * doy + 2) / 153) + 2) / 5 + 1.
Definition civil_at (y doy : Z) : Civil :=
  MkCivil (if month_at doy <=? 2 then y + 1 else y) (month_at doy) (day_at doy).
Lemma civil_of_year y doe : 0 <= y < 400 -> year_start y <= doe < year_end y ->
  civil_of_era 0 doe = civil_at y (doe - year_start y).
Proof.
  intros Hy Hd. unfold civil_of_era. fold (scaled doe). rewrite (year_of_era y doe Hy Hd).
  replace (365 * y + y / 4 - y / 100) with (year_start y) by done. replace (y + 0 * 400) with y by lia. reflexivity.
Qed.
(** Within a year the days follow each other; leap years have one more. *)
Definition month_length (l : bool) (m : Z) : Z :=
  if m =? 2 then (if l then 29 else 28) else if (m =? 4) || (m =? 6) || (m =? 9) || (m =? 11) then 30 else 31.
Definition day_follows (l : bool) (doy : Z) : bool :=
  let m := month_at doy in let d := day_at doy in
  let m' := month_at (doy + 1) in let d' := day_at (doy + 1) in
  if d <? month_length l m then (m' =? m) && (d' =? d + 1)
  else if m <? 12 then (m' =? m + 1) && (d' =? 1) && Bool.eqb (m' <=? 2) (m <=? 2)
  else (m' =? 1) && (d' =? 1).
Lemma day_follows_next y doy : day_follows (leap (if month_at doy <=? 2 then y + 1 else y)) doy = true ->
  next_day (civil_at y doy) = civil_at y (doy + 1).
Proof.
  unfold day_follows, next_day, civil_at, month_days. cbn [cv_year cv_month cv_day]. set (l := leap _).
  change (if month_at doy =? 2 then if l then 29 else 28 else _) with (month_length l (month_at doy)).
  destruct (Z.ltb_spec (day_at doy) (month_length l (month_at doy))).
  - rewrite andb_true_iff, !Z.eqb_eq. by intros [-> ->].
  - destruct (Z.ltb_spec (month_at doy) 12).
    + rewrite !andb_true_iff, !Z.eqb_eq, Bool.eqb_true_iff. intros [[E1 E2] E3]. rewrite E3, E2, E1. done.
    + rewrite andb_true_iff, !Z.eqb_eq. intros [-> ->]. destruct (Z.leb_spec (month_at doy) 2); [lia|done].
Qed.
Lemma days_follow l doy : 0 <= doy < 365 -> doy < 364 \/ l = true -> day_follows l doy = true.
Proof.
  intros Hd Hl.
  pose proof (all_below_spec (day_follows true) 365 ltac:(vm_compute; reflexivity) doy ltac:(lia)) as H1.
  destruct l; [done|]. destruct Hl as [Hl|]; [|done].
  apply (all_below_spec (day_follows false) 364 ltac:(vm_compute; reflexivity)). lia.
Qed.

Lemma era_step doe : 0 <= doe < 146096 -> civil_of_era 0 (doe + 1) = next_day (civil_of_era 0 doe).
Proof.
  intros Hd. destruct (year_found doe ltac:(lia)) as (y & Hy & Hr). destruct (year_boundaries y Hy) as (_ & _ & Hl & Hs & He).
  rewrite (civil_of_year y doe Hy Hr). set (doy := doe - year_start y).
  destruct (Z.eq_dec (doe + 1) (year_end y)) as [E|E].
  - assert (Hy1 : y <> 399) by (intros ->; unfold year_end in E; simpl in E; lia).
    assert (E' : doe + 1 = year_start (y + 1)) by (rewrite E; unfold year_end; by destruct (Z.eqb_spec y 399)).
    destruct (year_boundaries (y + 1) ltac:(lia)) as (_ & _ & Hl1 & _ & _).
    rewrite (civil_of_year (y + 1) (doe + 1)); [|lia|destruct (leap (y + 1 + 1)); lia].
    rewrite E'. replace (year_start (y + 1) - year_start (y + 1)) with 0 by lia.
    destruct (leap (y + 1)) eqn:Hleap.
    + assert (doy = 365) as -> by (unfold doy; lia). unfold next_day, civil_at. simpl. unfold month_days. simpl. by rewrite Hleap.
    + assert (doy = 364) as -> by (unfold doy; lia). unfold next_day, civil_at. simpl. unfold month_days. simpl. by rewrite Hleap.
  - rewrite (civil_of_year y (doe + 1)) by lia. replace (doe + 1 - year_start y) with (doy + 1) by (unfold doy; lia).
    symmetry. apply day_follows_next.
    assert (Hdoy : 0 <= doy < 365) by (unfold doy; destruct (leap (y + 1)); lia).
    apply days_follow; [done|]. destruct (Z.eq_dec doy 364) as [E4|]; [right|left; lia].
    rewrite E4. simpl. destruct (leap (y + 1)) eqn:Hleap; [done|]. unfold doy in E4. lia.
Qed.

(** Eras differ by 400 years and nothing else. *)
Definition shift (k : Z) (c : Civil) : Civil := MkCivil (cv_year c + 400 * k) (cv_month c) (cv_day c).
Lemma civil_of_era_shift era doe : civil_of_era era doe = shift era (civil_of_era 0 doe).
Proof.
  unfold civil_of_era, shift. cbn zeta. cbn [cv_year cv_month cv_day]. f_equal. destruct (_ <=? 2); lia.
Qed.
Lemma mod_shift y k n : (n | 400) -> (y + 400 * k) mod n = y mod n.
Proof. intros [q Hq]. rewrite Hq. replace (y + q * n * k) with (y + (q * k) * n) by ring. apply Z_mod_plus_full. Qed.
Lemma leap_shift y k : leap (y + 400 * k) = leap y.
Proof.
  unfold leap. rewrite !mod_shift; [done|by exists 1|by exists 4|by exists 100].
Qed.
Lemma next_day_shift k c : next_day (shift k c) = shift k (next_day c).
Proof.
  unfold next_day, shift, month_days. cbn [cv_year cv_month cv_day]. rewrite leap_shift.
  destruct (cv_day c <? _); [done|]. destruct (cv_month c <? 12); [done|]. simpl. f_equal. lia.
Qed.

Lemma civil_step days : civil_of_days (days + 1) = next_day (civil_of_days days).
Proof.
  unfold civil_of_days. set (z := days + 719468). replace (days + 1 + 719468) with (z + 1) by (unfold z; lia).
  pose proof (Z.mod_pos_bound z 146097 ltac:(lia)) as Hr. pose proof (Z.div_mod z 146097 ltac:(lia)) as Hz.
  rewrite (civil_of_era_shift (z / 146097)), next_day_shift.
  destruct (Z.eq_dec (z mod 146097) 146096) as [E|E].
  - assert ((z + 1) / 146097 = z / 146097 + 1) as -> by (symmetry; apply (Z.div_unique_pos _ _ _ 0); lia).
    assert ((z + 1) mod 146097 = 0) as -> by (symmetry; apply (Z.mod_unique_pos _ _ (z / 146097 + 1)); lia).
    rewrite E. rewrite civil_of_era_shift. unfold shift. vm_compute next_day. vm_compute civil_of_era. simpl. f_equal. lia.
  - assert ((z + 1) / 146097 = z / 146097) as -> by (symmetry; apply (Z.div_unique_pos _ _ _ (z mod 146097 + 1)); lia).
    assert ((z + 1) mod 146097 = z mod 146097 + 1) as -> by (symmetry; apply (Z.mod_unique_pos _ _ (z / 146097)); lia).
    rewrite civil_of_era_shift. f_equal. apply era_step. lia.
Qed.

(** ** Properties *)

(** C37. The dates on the wire are the calendar's.  For every number of days since 1
    January 1970, the closed formula gives the date the calendar reaches by
    counting them one at a time through the months and the leap years. *)
Theorem civil_is_the_calendar (days : nat) : civil_of_days (Z.of_nat days) = calendar days.
Proof.
  induction days as [|days IH]; [vm_compute; reflexivity|].
  rewrite Nat2Z.inj_succ, <- Z.add_1_r, civil_step, IH. reflexivity.
Qed.
