(* ===== verification/IdentityStore.v ===== *)
(** * The identity documents: [crates/pool-identity/src/store.rs] and [keys.rs]

    The durable document store behind the identity service, with its failing
    writes; the identifiers that may become paths; and the texts that are
    signed.  A document is kept under a structured name; [rel_text] is the path
    the code builds for it, and distinct names have distinct paths as long as
    their parts are path-safe, which [path_is_its_name] shows.  Base64, Ed25519
    and SHA-256 are third-party code and parameters. *)
From stdpp Require Import pretty.
From S2P Require Import Prelude Text BTreeMap Json Domain.
Open Scope Z_scope.

Inductive IdentityErrorCode :=
| TicketRejected | IdempotencyConflict | IncompatibleProtocol | NotAuthenticated | StaleTimestamp
| ReplayRejected | UnknownResource | SlotNotQualified | CommandRefused | Storage.
#[export] Instance IdentityErrorCode_eq_dec : EqDecision IdentityErrorCode.
Proof. solve_decision. Defined.

(** ** Names *)

Inductive Rel :=
| RServerKey
| RMember (member_id : string)
| RTicket (hash : string)
| RTicketClaim (hash : string)
| REnrollment (request_id : string)
| RWorker (worker_id : string)
| RCredential (credential_id : string)
| RWorkerCredential (worker_id credential_id : string)
| RReplay (credential_id request_id : string)
| RRotation (worker_id rotation_id : string)
| RWorkerCommand (command_id : string)
| RRecovery (request_id : string)
| RSlotRegistration (worker_id registration_id : string)
| RSlotIndex (worker_id hash : string)
| RSlot (slot_id : string)
| ROffer (worker_id offer_id : string)
| RAssignmentIssuance (issuance_id : string)
| RAssignment (assignment_id : string)
| RByBenchmark (hash : string)
| RUploadBinding (upload_id : string).

(** The directory and the parts below it. *)
Definition rel_parts (r : Rel) : string * list string :=
  match r with
  | RServerKey => ("server-key", [])
  | RMember a => ("members", [a])
  | RTicket a => ("tickets", [a])
  | RTicketClaim a => ("ticket-claims", [a])
  | REnrollment a => ("enrollments", [a])
  | RWorker a => ("workers", [a])
  | RCredential a => ("credentials", [a])
  | RWorkerCredential a b => ("worker-credentials", [a; b])
  | RReplay a b => ("replay", [a; b])
  | RRotation a b => ("rotations", [a; b])
  | RWorkerCommand a => ("worker-commands", [a])
  | RRecovery a => ("recoveries", [a])
  | RSlotRegistration a b => ("slot-registrations", [a; b])
  | RSlotIndex a b => ("slot-index", [a; b])
  | RSlot a => ("slots", [a])
  | ROffer a b => ("offers", [a; b])
  | RAssignmentIssuance a => ("assignment-issuances", [a])
  | RAssignment a => ("assignments", [a])
  | RByBenchmark a => ("assignments-by-benchmark", [a])
  | RUploadBinding a => ("upload-bindings", [a])
  end.
Definition rel_text (r : Rel) : string :=
  let '(dir, parts) := rel_parts r in String.append (String.concat "/" (dir :: parts)) ".json".

#[export] Instance Rel_eq_dec : EqDecision Rel.
Proof. solve_decision. Defined.
Definition rel_of_parts (p : string * list string) : Rel :=
  match p with
  | (d, [a]) =>
      if String.eqb d "members" then RMember a else if String.eqb d "tickets" then RTicket a
      else if String.eqb d "ticket-claims" then RTicketClaim a else if String.eqb d "enrollments" then REnrollment a
      else if String.eqb d "workers" then RWorker a else if String.eqb d "credentials" then RCredential a
      else if String.eqb d "worker-commands" then RWorkerCommand a else if String.eqb d "recoveries" then RRecovery a
      else if String.eqb d "slots" then RSlot a else if String.eqb d "assignment-issuances" then RAssignmentIssuance a
      else if String.eqb d "assignments" then RAssignment a else if String.eqb d "assignments-by-benchmark" then RByBenchmark a
      else RUploadBinding a
  | (d, [a; b]) =>
      if String.eqb d "worker-credentials" then RWorkerCredential a b else if String.eqb d "replay" then RReplay a b
      else if String.eqb d "rotations" then RRotation a b else if String.eqb d "slot-registrations" then RSlotRegistration a b
      else if String.eqb d "slot-index" then RSlotIndex a b else ROffer a b
  | _ => RServerKey
  end.
Lemma rel_of_parts_of r : rel_of_parts (rel_parts r) = r.
Proof. by destruct r. Qed.
#[export] Instance Rel_countable : Countable Rel := inj_countable' rel_parts rel_of_parts rel_of_parts_of.

(** ** The store *)

(** What becomes of one write: it is done; it fails before the rename, leaving
    nothing; or it fails after the rename, so that it took effect and an error
    is returned all the same.  With no fault left, writes are done. *)
Inductive WriteOutcome := Done | FailedBefore | FailedAfter.
(** What is read: a document, the names below [worker-credentials/<worker_id>], the
    audit ledger. *)
Inductive Place := PDoc (r : Rel) | PCredentials (worker_id : string) | PAudit.
(** [st_unread] are the places whose reading fails, by an I/O error or because
    what lies there is not JSON; it says so for as long as a call runs. *)
Record Store := MkStore { st_docs : gmap Rel Value; st_audit : list Value; st_writes : list WriteOutcome; st_unread : Place -> bool }.
Definition next_write (s : Store) : WriteOutcome * list WriteOutcome :=
  match st_writes s with [] => (Done, []) | o :: rest => (o, rest) end.

Definition M (A : Type) : Type := Store -> result IdentityErrorCode A * Store.
Definition ret {A} (a : A) : M A := fun s => (Ok a, s).
Definition fail {A} (e : IdentityErrorCode) : M A := fun s => (Err e, s).
Definition lift {A} (r : result IdentityErrorCode A) : M A := fun s => (r, s).
Definition bind {A B} (m : M A) (k : A -> M B) : M B :=
  fun s => match m s with (Ok a, s') => k a s' | (Err e, s') => (Err e, s') end.
Notation "'let!' x ':=' m 'in' k" := (bind m (fun x => k))
  (at level 10, x pattern, m at level 200, k at level 200, format "'[v' 'let!'  x  ':='  m  'in' '/' k ']'") : pool_scope.

Definition read_at {A} (p : Place) (a : Store -> A) : M A := fun s => (if st_unread s p then Err Storage else Ok (a s), s).
Definition read_doc (r : Rel) : M (option Value) := read_at (PDoc r) (fun s => st_docs s !! r).
Definition write_doc (r : Rel) (doc : Value) : M unit := fun s =>
  match next_write s with
  | (Done, rest) => (Ok tt, MkStore (<[r := doc]> (st_docs s)) (st_audit s) rest (st_unread s))
  | (FailedBefore, rest) => (Err Storage, MkStore (st_docs s) (st_audit s) rest (st_unread s))
  | (FailedAfter, rest) => (Err Storage, MkStore (<[r := doc]> (st_docs s)) (st_audit s) rest (st_unread s))
  end.
(** [list]: the names below [worker-credentials/<worker_id>], sorted, with the
    suffix the caller strips. *)
Definition worker_credentials (worker_id : string) : M (list string) :=
  read_at (PCredentials worker_id) (fun s =>
    sort_by str_leb (omap (fun kv => match kv.1 with
                                     | RWorkerCredential w c => if String.eqb w worker_id then Some c else None
                                     | _ => None
                                     end) (map_to_list (st_docs s)))).
(** [append_jsonl] on the audit ledger, and [audit]. *)
Definition append_audit (record : Value) : M unit := fun s =>
  match next_write s with
  | (Done, rest) => (Ok tt, MkStore (st_docs s) (st_audit s ++ [record]) rest (st_unread s))
  | (FailedBefore, rest) => (Err Storage, MkStore (st_docs s) (st_audit s) rest (st_unread s))
  | (FailedAfter, rest) => (Err Storage, MkStore (st_docs s) (st_audit s ++ [record]) rest (st_unread s))
  end.
Definition audit (event : string) (at_ : Z) (details : list (string * Value)) : M unit :=
  append_audit (json_object [("event", JString event); ("at", json_u64 at_); ("details", json_object details)]).
Definition audit_entries : M (list Value) := read_at PAudit st_audit.

(** [doc[key] = value] on an object. *)
Definition set_field (key : string) (v doc : Value) : Value :=
  match doc with JObject m => JObject (bt_insert key v m) | _ => doc end.
Definition field_str (key : string) (v : Value) : result IdentityErrorCode string :=
  ok_or (and_then (json_get key v) json_as_str) Storage.
Definition field_u64 (key : string) (v : Value) : result IdentityErrorCode Z :=
  ok_or (and_then (json_get key v) json_as_u64) Storage.

(** ** Identifiers *)

Definition is_dash (c : Ascii.ascii) : bool := byte c =? 45.
Fixpoint uuid_chars (i : nat) (s : string) : bool :=
  match s with
  | EmptyString => true
  | String c s' =>
      (match i with 8 | 13 | 18 | 23 => is_dash c | _ => is_lower_hex c end)%nat && uuid_chars (S i) s'
  end.
Definition is_uuid (id : string) : bool := Nat.eqb (String.length id) 36 && uuid_chars 0 id.
Definition validate_uuid (id : string) : result IdentityErrorCode unit := if is_uuid id then Ok tt else Err UnknownResource.

Definition is_token_char (c : Ascii.ascii) : bool :=
  let k := byte c in ((97 <=? k) && (k <=? 122)) || is_ascii_digit c || is_dash c.
Definition is_token (id : string) : bool :=
  negb (is_empty id) && Nat.leb (String.length id) 64 && all_bytes is_token_char id && negb (String.prefix "-" id).
Definition validate_token (id : string) : result IdentityErrorCode unit := if is_token id then Ok tt else Err UnknownResource.

Definition validate_bounded_str (value : string) (min max : nat) : result IdentityErrorCode unit :=
  if Nat.ltb (String.length value) min || Nat.ltb max (String.length value) then Err UnknownResource else Ok tt.
Definition validate_bounded_list (values : list string) (max_item : nat) : result IdentityErrorCode unit :=
  if (match values with [] => true | _ => false end) || Nat.ltb 16 (length values) then Err UnknownResource
  else foldM (fun _ value => validate_bounded_str value 1 max_item) tt values.

(** ** Keys and signing strings: [keys.rs] *)

Definition lines (l : list string) : string := String.concat newline l.

Section keys.
Context {Key : Type} (sha256 : list Z -> list Z) (b64_decode : string -> option (list Z)).
Context (key_from_bytes : list Z -> option Key) (verify_strict : Key -> list Z -> list Z -> bool).

Definition sha256_hex (data : list Z) : string := to_hex (sha256 data).
Definition decode_public_key (encoded : string) : result IdentityErrorCode Key :=
  let? bytes := ok_or (b64_decode encoded) NotAuthenticated in
  if negb (Nat.eqb (length bytes) 32) then Err NotAuthenticated else ok_or (key_from_bytes bytes) NotAuthenticated.
Definition verify_b64url (key : Key) (message signature : string) : result IdentityErrorCode unit :=
  let? sig_bytes := ok_or (b64_decode signature) NotAuthenticated in
  if negb (Nat.eqb (length sig_bytes) 64) then Err NotAuthenticated
  else if verify_strict key (as_bytes message) sig_bytes then Ok tt else Err NotAuthenticated.

Definition enrollment_signing_string (request_id ticket public_key : string) : string :=
  lines ["TIG-POOL-ENROLLMENT-V1"; request_id; sha256_hex (as_bytes ticket); public_key].
Definition recovery_signing_string (request_id ticket public_key : string) : string :=
  lines ["TIG-POOL-RECOVERY-V1"; request_id; sha256_hex (as_bytes ticket); public_key].
Definition request_signing_string (method path protocol_version worker_id credential_id request_id : string) (request_timestamp : Z)
    (body_sha256 : string) : string :=
  lines ["TIG-POOL-REQUEST-V1"; method; path; protocol_version; worker_id; credential_id; request_id;
         pretty (Z.to_N request_timestamp); body_sha256].
Definition rotation_signing_string (worker_id rotation_id public_key : string) : string :=
  lines ["TIG-POOL-ROTATION-V1"; worker_id; rotation_id; public_key].
End keys.

(** ** Paths *)

(** What may stand between two slashes: a nonempty text of lower-case letters,
    digits and dashes. *)
Definition is_path_part (s : string) : bool := negb (is_empty s) && all_bytes is_token_char s.

Lemma is_path_part_cons c s : is_path_part (String c s) = true -> is_token_char c = true /\ (s = EmptyString \/ is_path_part s = true).
Proof. unfold is_path_part. cbn. intros [? ?]%andb_true_iff. destruct s; auto. Qed.
Lemma lower_hex_token_char c : is_lower_hex c = true -> is_token_char c = true.
Proof.
  intros H%is_lower_hex_spec. unfold is_token_char, is_ascii_digit, byte. unfold byte_of_ascii in H.
  rewrite !orb_true_iff, !andb_true_iff, !Z.leb_le, !N.leb_le. lia.
Qed.
Lemma uuid_chars_token i s : uuid_chars i s = true -> all_bytes is_token_char s = true.
Proof.
  induction s as [|c s IH] in i |- *; [done|]. cbn [uuid_chars all_bytes]. rewrite !andb_true_iff. intros [Hc Hs]. split; [|by eapply IH].
  assert (is_dash c = true \/ is_lower_hex c = true) as [Hd|Hd] by (repeat case_match; auto).
  - unfold is_token_char. by rewrite Hd, orb_true_r.
  - by apply lower_hex_token_char.
Qed.
Lemma uuid_is_path_part s : is_uuid s = true -> is_path_part s = true.
Proof.
  unfold is_uuid, is_path_part. rewrite !andb_true_iff. intros [Hl Hs]. split; [by destruct s|by eapply uuid_chars_token].
Qed.
Lemma token_is_path_part s : is_token s = true -> is_path_part s = true.
Proof. unfold is_token, is_path_part. rewrite !andb_true_iff. tauto. Qed.
Lemma hex_is_path_part bs : bs <> [] -> Forall (fun b => is_u8 b = true) bs -> is_path_part (to_hex bs) = true.
Proof.
  intros Hn Hb. unfold is_path_part. rewrite andb_true_iff. split; [destruct bs; [done|by rewrite to_hex_cons]|].
  eapply all_bytes_impl; [apply lower_hex_token_char|by apply to_hex_lower].
Qed.

(** What ends a part: a slash or the dot of the suffix. *)
Definition ends_part (s : string) : Prop := exists c s', s = String c s' /\ is_token_char c = false.
Lemma part_split a b x y : all_bytes is_token_char a = true -> all_bytes is_token_char b = true -> ends_part x -> ends_part y ->
  String.append a x = String.append b y -> a = b /\ x = y.
Proof.
  intros Ha Hb (cx & x' & -> & Hx) (cy & y' & -> & Hy). revert b Hb.
  induction a as [|c a IH]; intros [|d b] Hb H; cbn in *; simplify_eq; repeat match goal with H : andb _ _ = true |- _ => apply andb_true_iff in H as [? ?] end.
  - done.
  - congruence.
  - congruence.
  - edestruct IH as [-> ?]; eauto.
Qed.
Fixpoint path_tail (parts : list string) : string :=
  match parts with [] => ".json" | p :: ps => String (Ascii.ascii_of_nat 47) (String.append p (path_tail ps)) end.
Lemma path_tail_concat d ps : String.append (String.concat "/" (d :: ps)) ".json" = String.append d (path_tail ps).
Proof.
  induction ps as [|p ps IH] in d |- *; [done|]. change (String.concat "/" (d :: p :: ps)) with (String.append d (String.append "/" (String.concat "/" (p :: ps)))).
  rewrite !append_assoc, IH. reflexivity.
Qed.
Lemma path_tail_ends ps : ends_part (path_tail ps).
Proof. destruct ps as [|p ps]; eexists _, _; by split. Qed.
Lemma path_tail_inj ps qs : Forall (fun p => is_path_part p = true) ps -> Forall (fun q => is_path_part q = true) qs ->
  path_tail ps = path_tail qs -> ps = qs.
Proof.
  intros Hp. revert qs. induction Hp as [|p ps Hp Hps IH]; intros [|q qs] Hq H; try done.
  inversion_clear Hq as [|? ? Hq' Hqs]. cbn in H. injection H as H.
  apply part_split in H as [-> H]; try apply path_tail_ends; [|by apply andb_true_iff in Hp as [_ Hp]|by apply andb_true_iff in Hq' as [_ Hq']].
  f_equal. by apply IH.
Qed.
Lemma rel_text_tail r : rel_text r = String.append (rel_parts r).1 (path_tail (rel_parts r).2).
Proof. unfold rel_text. destruct (rel_parts r) as [d ps]. apply path_tail_concat. Qed.

(** Two documents are never kept under one path: with identifiers the service
    has let through (uuids, tokens and hexadecimal digests are path parts), the
    path decides the kind of document and each identifier in it, so that no
    identifier a caller chooses reaches another document or another directory. *)
Theorem path_is_its_name :
  (forall s, is_uuid s = true \/ is_token s = true -> is_path_part s = true) /\
  (forall bs, bs <> [] -> Forall (fun b => is_u8 b = true) bs -> is_path_part (to_hex bs) = true) /\
  (forall r r', Forall (fun p => is_path_part p = true) (rel_parts r).2 -> Forall (fun p => is_path_part p = true) (rel_parts r').2 ->
    rel_text r = rel_text r' -> r = r').
Proof.
  split_and!; [intros s [H|H]; [by apply uuid_is_path_part|by apply token_is_path_part]|apply hex_is_path_part|].
  intros r r' Hr Hr'. rewrite !rel_text_tail. intros H.
  apply part_split in H as [Hd Ht]; [|by destruct r|by destruct r'|apply path_tail_ends|apply path_tail_ends].
  apply path_tail_inj in Ht; [|done|done].
  rewrite <- (rel_of_parts_of r), <- (rel_of_parts_of r'). f_equal. by apply injective_projections.
Qed.
