(* ===== verification/Identity.v ===== *)
(** * The identity service: [crates/pool-identity/src/service.rs]

    Tickets, enrollment, verification of signed requests, rotation, revocation,
    recovery, and the issuing of slot and assignment identities, over the
    document store.  The writer lock makes each call run alone; what a call has
    written stays when it fails.  The caller supplies the time; keyed BLAKE3,
    randomness and serde's text of a request are parameters. *)
From S2P Require Import Prelude Text BTreeMap Json Domain Rfc3339 IdentityStore.
Open Scope Z_scope.

Definition PROTOCOL_VERSION : string := "0.1.0".
Definition PACKAGE_FORMAT : string := "proof-material-v1".
Definition TICKET_TTL_SECS : Z := 15 * 60.
Definition REQUEST_FRESHNESS_SECS : Z := 300.
Definition ROTATION_GRACE_SECS : Z := 10 * 60.
Definition PURPOSE_ENROLLMENT : string := "WORKER_ENROLLMENT".
Definition PURPOSE_RECOVERY : string := "WORKER_RECOVERY".
(** [u64] addition in a build without overflow checks. *)
Definition add_u64 (a b : Z) : Z := (a + b) mod 2 ^ 64.

(** ** Requests, responses and records *)

Record EnrollRequest := MkEnrollRequest {
  er_enrollment_request_id : string; er_enrollment_ticket : string; er_worker_name : string; er_ed25519_public_key : string;
  er_ed25519_key_proof : string; er_supported_protocol_versions : list string; er_supported_package_formats : list string;
  er_member_agent_version : string }.
Record EnrollResponse := MkEnrollResponse {
  es_protocol_version : string; es_enrollment_request_id : string; es_package_format : string; es_member_id : string;
  es_worker_id : string; es_credential_id : string; es_worker_status : string; es_server_time : string }.
Record RotateCredentialRequest := MkRotateRequest {
  rr_protocol_version : string; rr_rotation_id : string; rr_new_ed25519_public_key : string; rr_new_key_proof : string }.
Record RotateCredentialResponse := MkRotateResponse {
  rs_protocol_version : string; rs_rotation_id : string; rs_worker_id : string; rs_new_credential_id : string;
  rs_old_credential_revokes_at : string; rs_server_time : string }.
Record SignedRequest := MkSignedRequest {
  sq_method : string; sq_path : string; sq_protocol_version : string; sq_worker_id : string; sq_credential_id : string;
  sq_request_id : string; sq_request_timestamp : Z; sq_body_sha256 : string; sq_signature : string }.
Record VerifiedWorker := MkVerifiedWorker { vw_member_id : string; vw_worker_id : string; vw_credential_id : string }.
Record RecoverWorkerRequest := MkRecoverRequest {
  rq_recovery_request_id : string; rq_worker_id : string; rq_recovery_ticket : string; rq_new_ed25519_public_key : string;
  rq_new_key_proof : string }.
Record RecoverWorkerResponse := MkRecoverResponse {
  rp_recovery_request_id : string; rp_worker_id : string; rp_new_credential_id : string; rp_revoked_credential_ids : list string;
  rp_server_time : string }.
Record IssuedTicket := MkIssuedTicket { it_secret : string; it_expires_at : Z }.
Record SlotGrant := MkSlotGrant {
  sg_slot_id : string; sg_worker_id : string; sg_client_slot_key : string; sg_generation : Z; sg_qualification : string;
  sg_qualified_generation : option Z }.
Record AssignmentGrant := MkAssignmentGrant {
  ag_assignment_id : string; ag_member_id : string; ag_worker_id : string; ag_slot_id : string; ag_benchmark_id : string }.
Record UploadBinding := MkUploadBinding {
  ub_upload_id : string; ub_package_id : string; ub_pool_package_id : string; ub_assignment_id : string; ub_worker_id : string }.
Record AssignmentFacts := MkAssignmentFacts {
  af_worker_id : string; af_slot_id : string; af_benchmark_id : string; af_assignment_digest : string; af_network : string }.
Record OfferRecord := MkOfferRecord { of_offer_id : string; of_worker_id : string; of_slot_id : string; of_recorded_at : Z }.
Inductive RevocationReason := Accidental | Security.
Definition RevocationReason_as_str (r : RevocationReason) : string := match r with Accidental => "ACCIDENTAL" | Security => "SECURITY" end.

Definition is_qualified (g : SlotGrant) : bool :=
  String.eqb (sg_qualification g) "QUALIFIED" && bool_decide (sg_qualified_generation g = Some (sg_generation g)).

(** ** serde's shapes

    [to_value] and [from_value] of the stored structs: an object with every
    field, unknown fields refused where the struct says so, or an array of the
    fields in order. *)

Definition struct_fields (deny_unknown : bool) (keys : list string) (v : Value) : option (list Value) :=
  match v with
  | JObject m =>
      if deny_unknown && negb (forallb (fun kv => existsb (String.eqb kv.1) keys) m) then None
      else mapM (fun k => bt_get k m) keys
  | JArray l => if Nat.eqb (length l) (length keys) then Some l else None
  | _ => None
  end.
Definition json_strings (l : list string) : Value := JArray (map JString l).

Definition EnrollResponse_keys : list string :=
  ["protocol_version"; "enrollment_request_id"; "package_format"; "member_id"; "worker_id"; "credential_id"; "worker_status"; "server_time"].
Definition EnrollResponse_to_value (r : EnrollResponse) : Value :=
  json_object (zip EnrollResponse_keys (map JString
    [es_protocol_version r; es_enrollment_request_id r; es_package_format r; es_member_id r; es_worker_id r; es_credential_id r;
     es_worker_status r; es_server_time r])).
Definition EnrollResponse_from_value (v : Value) : option EnrollResponse :=
  match struct_fields true EnrollResponse_keys v with
  | Some [JString a; JString b; JString c; JString d; JString e; JString f; JString g; JString h] => Some (MkEnrollResponse a b c d e f g h)
  | _ => None
  end.
Definition RotateResponse_keys : list string :=
  ["protocol_version"; "rotation_id"; "worker_id"; "new_credential_id"; "old_credential_revokes_at"; "server_time"].
Definition RotateResponse_to_value (r : RotateCredentialResponse) : Value :=
  json_object (zip RotateResponse_keys (map JString
    [rs_protocol_version r; rs_rotation_id r; rs_worker_id r; rs_new_credential_id r; rs_old_credential_revokes_at r; rs_server_time r])).
Definition RotateResponse_from_value (v : Value) : option RotateCredentialResponse :=
  match struct_fields true RotateResponse_keys v with
  | Some [JString a; JString b; JString c; JString d; JString e; JString f] => Some (MkRotateResponse a b c d e f)
  | _ => None
  end.
Definition RecoverResponse_keys : list string :=
  ["recovery_request_id"; "worker_id"; "new_credential_id"; "revoked_credential_ids"; "server_time"].
Definition RecoverResponse_to_value (r : RecoverWorkerResponse) : Value :=
  json_object (zip RecoverResponse_keys
    [JString (rp_recovery_request_id r); JString (rp_worker_id r); JString (rp_new_credential_id r);
     json_strings (rp_revoked_credential_ids r); JString (rp_server_time r)]).
Definition RecoverResponse_from_value (v : Value) : option RecoverWorkerResponse :=
  match struct_fields false RecoverResponse_keys v with
  | Some [JString a; JString b; JString c; JArray l; JString e] => (fun ids => MkRecoverResponse a b c ids e) <$> mapM json_as_str l
  | _ => None
  end.
Definition SlotGrant_to_value (g : SlotGrant) : Value :=
  json_object [("slot_id", JString (sg_slot_id g)); ("worker_id", JString (sg_worker_id g)); ("client_slot_key", JString (sg_client_slot_key g));
    ("generation", json_u64 (sg_generation g)); ("qualification", JString (sg_qualification g));
    ("qualified_generation", match sg_qualified_generation g with Some n => json_u64 n | None => JNull end)].
(** A missing or null [Option] field is [None]. *)
Definition SlotGrant_from_value (v : Value) : option SlotGrant :=
  let last (v : option Value) := match v with
    | None | Some JNull => Some None
    | Some v => Some <$> json_as_u64 v
    end in
  match v with
  | JArray [JString a; JString b; JString c; d; JString e; f] =>
      d ← json_as_u64 d; f ← last (Some f); Some (MkSlotGrant a b c d e f)
  | JObject m =>
      a ← bt_get "slot_id" m ≫= json_as_str; b ← bt_get "worker_id" m ≫= json_as_str; c ← bt_get "client_slot_key" m ≫= json_as_str;
      d ← bt_get "generation" m ≫= json_as_u64; e ← bt_get "qualification" m ≫= json_as_str;
      f ← last (bt_get "qualified_generation" m); Some (MkSlotGrant a b c d e f)
  | _ => None
  end.
Definition AssignmentGrant_keys : list string := ["assignment_id"; "member_id"; "worker_id"; "slot_id"; "benchmark_id"].
Definition AssignmentGrant_to_value (g : AssignmentGrant) : Value :=
  json_object (zip AssignmentGrant_keys (map JString
    [ag_assignment_id g; ag_member_id g; ag_worker_id g; ag_slot_id g; ag_benchmark_id g])).
Definition AssignmentGrant_from_value (v : Value) : option AssignmentGrant :=
  match struct_fields false AssignmentGrant_keys v with
  | Some [JString a; JString b; JString c; JString d; JString e] => Some (MkAssignmentGrant a b c d e)
  | _ => None
  end.
Definition UploadBinding_keys : list string := ["upload_id"; "package_id"; "pool_package_id"; "assignment_id"; "worker_id"].
Definition UploadBinding_to_value (b : UploadBinding) : Value :=
  json_object (zip UploadBinding_keys (map JString
    [ub_upload_id b; ub_package_id b; ub_pool_package_id b; ub_assignment_id b; ub_worker_id b])).
Definition UploadBinding_from_value (v : Value) : option UploadBinding :=
  match struct_fields false UploadBinding_keys v with
  | Some [JString a; JString b; JString c; JString d; JString e] => Some (MkUploadBinding a b c d e)
  | _ => None
  end.
Definition OfferRecord_to_value (o : OfferRecord) : Value :=
  json_object [("offer_id", JString (of_offer_id o)); ("worker_id", JString (of_worker_id o)); ("slot_id", JString (of_slot_id o));
               ("recorded_at", json_u64 (of_recorded_at o))].
Definition OfferRecord_from_value (v : Value) : option OfferRecord :=
  match struct_fields false ["offer_id"; "worker_id"; "slot_id"; "recorded_at"] v with
  | Some [JString a; JString b; JString c; d] => MkOfferRecord a b c <$> json_as_u64 d
  | _ => None
  end.

Section service.
Context {Key : Type} (sha256 : list Z -> list Z) (b64_decode : string -> option (list Z)) (b64url : list Z -> string).
Context (key_from_bytes : list Z -> option Key) (verify_strict : Key -> list Z -> list Z -> bool).
Context (keyed_hash : list Z -> list Z -> list Z) (enroll_text : EnrollRequest -> string) (server_key : list Z).
Abbreviation sha256_hex := (sha256_hex sha256).
Abbreviation decode_public_key := (decode_public_key b64_decode key_from_bytes).
Abbreviation verify_b64url := (verify_b64url b64_decode verify_strict).

(** [open]: the server key read back, or drawn and stored on first open.
    [u8::from_str_radix] takes a leading plus sign. *)
Fixpoint hex_bytes (s : string) : option (list Z) :=
  match s with
  | EmptyString => Some []
  | String a (String b rest) =>
      x ← (if byte a =? 43 then to_digit 16 b else x ← to_digit 16 a; y ← to_digit 16 b; Some (16 * x + y));
      l ← hex_bytes rest; Some (x :: l)
  | String _ EmptyString => None
  end.
Definition open (random : option (list Z)) : M (list Z) :=
  let! doc := read_doc RServerKey in
  match doc with
  | Some doc =>
      let! hex := lift (field_str "server_key_hex" doc) in
      let! bytes := lift (ok_or (hex_bytes hex) Storage) in
      if Nat.eqb (length bytes) 32 then ret bytes else fail Storage
  | None =>
      let! key := lift (ok_or random Storage) in
      let! _ := write_doc RServerKey (json_object [("server_key_hex", JString (to_hex key))]) in
      ret key
  end.

(** Sixteen bytes of the keyed hash with the version and variant bits set. *)
Definition set_bits (i : nat) (f : Z -> Z) (l : list Z) : list Z := alter f i l.
Definition uuid_bytes (digest : list Z) : list Z :=
  set_bits 8 (fun b => Z.lor 128 (Z.land b 63)) (set_bits 6 (fun b => Z.lor 64 (Z.land b 15)) (take 16 digest)).
Definition uuid_text (b : list Z) : string :=
  String.concat "-" [to_hex (take 4 b); to_hex (take 2 (drop 4 b)); to_hex (take 2 (drop 6 b)); to_hex (take 2 (drop 8 b)); to_hex (drop 10 b)].
Definition issue_uuid (label : list string) : string :=
  uuid_text (uuid_bytes (keyed_hash server_key (as_bytes (String.concat ":" label)))).
Definition ticket_hash (secret : string) : string := to_hex (keyed_hash server_key (as_bytes secret)).

(** ** Accounts and tickets *)

Definition create_member (member_ref : string) (now : Z) : M string :=
  let member_id := issue_uuid ["member"; member_ref] in
  let! found := read_doc (RMember member_id) in
  match found with
  | Some _ => ret member_id
  | None =>
      let! _ := write_doc (RMember member_id) (json_object [("member_id", JString member_id); ("created_at", json_u64 now)]) in
      ret member_id
  end.

Definition create_ticket (purpose member_id : string) (worker_id : option string) (now : Z) (random : option (list Z)) : M IssuedTicket :=
  let! _ := lift (validate_uuid member_id) in
  let! member := read_doc (RMember member_id) in
  match member with
  | None => fail UnknownResource
  | Some _ =>
      let! secret_bytes := lift (ok_or random Storage) in
      let secret := b64url secret_bytes in
      let expires_at := add_u64 now TICKET_TTL_SECS in
      let! _ := write_doc (RTicket (ticket_hash secret)) (json_object
        [("purpose", JString purpose); ("member_id", JString member_id);
         ("worker_id", match worker_id with Some w => JString w | None => JNull end); ("expires_at", json_u64 expires_at)]) in
      ret (MkIssuedTicket secret expires_at)
  end.
Definition create_enrollment_ticket (member_id : string) (now : Z) (random : option (list Z)) : M IssuedTicket :=
  create_ticket PURPOSE_ENROLLMENT member_id None now random.
Definition is_security_revoked (worker : Value) : bool :=
  bool_decide (and_then (json_get "revoked_reason" worker) json_as_str = Some (RevocationReason_as_str Security)).
Definition create_recovery_ticket (member_id worker_id : string) (now : Z) (random : option (list Z)) : M IssuedTicket :=
  let! _ := lift (validate_uuid worker_id) in
  let! found := read_doc (RWorker worker_id) in
  let! worker := lift (ok_or found UnknownResource) in
  let! owner := lift (field_str "member_id" worker) in
  if negb (String.eqb owner member_id) then fail UnknownResource
  else if is_security_revoked worker then
    let! _ := audit "recovery_ticket_refused" now [("worker_id", JString worker_id); ("reason", JString "security_revocation")] in
    fail TicketRejected
  else create_ticket PURPOSE_RECOVERY member_id (Some worker_id) now random.

Definition claim_ticket (purpose secret : string) (bound_worker : option string) (claimed_by : string) (now : Z) : M Value :=
  let hash := ticket_hash secret in
  let! found := read_doc (RTicket hash) in
  let! ticket := lift (ok_or found TicketRejected) in
  let! its_purpose := lift (field_str "purpose" ticket) in
  if negb (String.eqb its_purpose purpose) then fail TicketRejected
  else
    let! expires_at := lift (field_u64 "expires_at" ticket) in
    if expires_at <=? now then fail TicketRejected
    else if match bound_worker with
            | Some w => negb (bool_decide (and_then (json_get "worker_id" ticket) json_as_str = Some w))
            | None => false
            end then fail TicketRejected
    else
      let! claim := read_doc (RTicketClaim hash) in
      match claim with
      | Some claim =>
          let! by_ := lift (field_str "claimed_by" claim) in
          if String.eqb by_ claimed_by then ret ticket else fail TicketRejected
      | None =>
          let! _ := write_doc (RTicketClaim hash) (json_object [("claimed_by", JString claimed_by); ("at", json_u64 now)]) in
          ret ticket
      end.

(** [match m { Ok(t) => t, Err(e) => { audit(..)?; return Err(e) } }]. *)
Definition audited {A} (m : M A) (event : string) (now : Z) (details : list (string * Value)) : M A := fun s =>
  match m s with
  | (Ok a, s') => (Ok a, s')
  | (Err e, s') => bind (audit event now details) (fun _ => fail e) s'
  end.

Definition write_credential (credential_id worker_id public_key : string) (now : Z) : M unit :=
  let! _ := write_doc (RCredential credential_id) (json_object
    [("credential_id", JString credential_id); ("worker_id", JString worker_id); ("public_key", JString public_key);
     ("revoked", JBool false); ("revokes_at", JNull); ("created_at", json_u64 now)]) in
  write_doc (RWorkerCredential worker_id credential_id) (json_object [("credential_id", JString credential_id)]).

(** ** Enrollment *)

Definition worker_doc (worker_id member_id worker_name : string) (now : Z) : Value :=
  json_object [("worker_id", JString worker_id); ("member_id", JString member_id); ("worker_name", JString worker_name);
    ("status", JString "ACTIVE"); ("protocol_version", JString PROTOCOL_VERSION); ("package_format", JString PACKAGE_FORMAT);
    ("created_at", json_u64 now)].
Definition validate_enroll (req : EnrollRequest) : result IdentityErrorCode unit :=
  let? _ := validate_uuid (er_enrollment_request_id req) in
  let? _ := validate_bounded_str (er_enrollment_ticket req) 43 512 in
  let? _ := validate_bounded_str (er_worker_name req) 1 128 in
  let? _ := validate_bounded_str (er_member_agent_version req) 1 64 in
  let? _ := validate_bounded_list (er_supported_protocol_versions req) 32 in
  validate_bounded_list (er_supported_package_formats req) 64.
Definition request_hash_of (req : EnrollRequest) : string := sha256_hex (as_bytes (enroll_text req)).
(** What follows the claimed ticket. *)
Definition complete_enrollment (req : EnrollRequest) (ticket : Value) (now : Z) : M EnrollResponse :=
  let! member_id := lift (field_str "member_id" ticket) in
  let worker_id := issue_uuid ["worker"; er_enrollment_request_id req] in
  let credential_id := issue_uuid ["credential"; er_enrollment_request_id req] in
  let! _ := write_credential credential_id worker_id (er_ed25519_public_key req) now in
  let! _ := write_doc (RWorker worker_id) (worker_doc worker_id member_id (er_worker_name req) now) in
  let response := MkEnrollResponse PROTOCOL_VERSION (er_enrollment_request_id req) PACKAGE_FORMAT member_id worker_id credential_id
                    "ACTIVE" (rfc3339_utc now) in
  let! _ := write_doc (REnrollment (er_enrollment_request_id req)) (json_object
    [("request_sha256", JString (request_hash_of req)); ("response", EnrollResponse_to_value response)]) in
  let! _ := audit "worker_enrolled" now [("member_id", JString member_id); ("worker_id", JString worker_id)] in
  ret response.
Definition enroll (req : EnrollRequest) (now : Z) : M EnrollResponse :=
  let! _ := lift (validate_enroll req) in
  let! found := read_doc (REnrollment (er_enrollment_request_id req)) in
  match found with
  | Some record =>
      let! hash := lift (field_str "request_sha256" record) in
      if negb (String.eqb hash (request_hash_of req)) then fail IdempotencyConflict
      else
        let! response := lift (ok_or (json_get "response" record) Storage) in
        lift (ok_or (EnrollResponse_from_value response) Storage)
  | None =>
      if negb (existsb (String.eqb PROTOCOL_VERSION) (er_supported_protocol_versions req)) ||
         negb (existsb (String.eqb PACKAGE_FORMAT) (er_supported_package_formats req))
      then fail IncompatibleProtocol
      else
        let! public_key := lift (decode_public_key (er_ed25519_public_key req)) in
        let proof_msg := enrollment_signing_string sha256 (er_enrollment_request_id req) (er_enrollment_ticket req) (er_ed25519_public_key req) in
        let! _ := audited (lift (verify_b64url public_key proof_msg (er_ed25519_key_proof req))) "enroll_rejected" now
          [("enrollment_request_id", JString (er_enrollment_request_id req)); ("reason", JString "bad_key_proof")] in
        let! ticket := audited (claim_ticket PURPOSE_ENROLLMENT (er_enrollment_ticket req) None (er_enrollment_request_id req) now)
          "enroll_rejected" now [("enrollment_request_id", JString (er_enrollment_request_id req)); ("reason", JString "ticket")] in
        complete_enrollment req ticket now
  end.

(** ** Signed requests *)

Definition signing_string_of (sr : SignedRequest) : string :=
  request_signing_string (sq_method sr) (sq_path sr) (sq_protocol_version sr) (sq_worker_id sr) (sq_credential_id sr)
    (sq_request_id sr) (sq_request_timestamp sr) (sq_body_sha256 sr).
Definition signed_hash_of (sr : SignedRequest) : string := sha256_hex (as_bytes (signing_string_of sr)).
(** [revoked] is true when the field is not a boolean. *)
Definition credential_refused (credential : Value) (now : Z) : bool :=
  default true (and_then (json_get "revoked" credential) json_as_bool) ||
  match and_then (json_get "revokes_at" credential) json_as_u64 with Some t => t <=? now | None => false end.
(** The replay record: written the first time, compared afterwards. *)
Definition check_replay (sr : SignedRequest) (now : Z) : M unit :=
  let rel := RReplay (sq_credential_id sr) (sq_request_id sr) in
  let! seen := read_doc rel in
  match seen with
  | Some seen =>
      let! hash := lift (field_str "signed_sha256" seen) in
      if negb (String.eqb hash (signed_hash_of sr)) then
        let! _ := audit "request_id_reuse_rejected" now
          [("credential_id", JString (sq_credential_id sr)); ("request_id", JString (sq_request_id sr))] in
        fail ReplayRejected
      else ret tt
  | None => write_doc rel (json_object [("signed_sha256", JString (signed_hash_of sr)); ("seen_at", json_u64 now)])
  end.
Definition verify_request (sr : SignedRequest) (body : list Z) (now : Z) : M VerifiedWorker :=
  if negb (String.eqb (sq_protocol_version sr) PROTOCOL_VERSION) then fail IncompatibleProtocol
  else if negb (is_uuid (sq_worker_id sr) && is_uuid (sq_credential_id sr) && is_uuid (sq_request_id sr)) then fail NotAuthenticated
  else if negb (String.eqb (sha256_hex body) (sq_body_sha256 sr)) then fail NotAuthenticated
  else
    let! found := read_doc (RCredential (sq_credential_id sr)) in
    let! credential := lift (ok_or found NotAuthenticated) in
    let! bound_to := lift (field_str "worker_id" credential) in
    if negb (String.eqb bound_to (sq_worker_id sr)) then
      let! _ := audit "auth_rejected" now [("credential_id", JString (sq_credential_id sr)); ("reason", JString "worker_mismatch")] in
      fail NotAuthenticated
    else
      let! found := read_doc (RWorker (sq_worker_id sr)) in
      let! worker := lift (ok_or found NotAuthenticated) in
      let! encoded := lift (field_str "public_key" credential) in
      let! public_key := lift (decode_public_key encoded) in
      let! _ := lift (verify_b64url public_key (signing_string_of sr) (sq_signature sr)) in
      if credential_refused credential now then
        let! _ := audit "auth_rejected" now [("credential_id", JString (sq_credential_id sr)); ("reason", JString "credential_revoked")] in
        fail NotAuthenticated
      else
        let! status := lift (field_str "status" worker) in
        if negb (String.eqb status "ACTIVE") then
          let! _ := audit "auth_rejected" now [("worker_id", JString (sq_worker_id sr)); ("reason", JString "worker_revoked")] in
          fail NotAuthenticated
        else if REQUEST_FRESHNESS_SECS <? Z.abs (now - sq_request_timestamp sr) then fail StaleTimestamp
        else
          let! _ := check_replay sr now in
          let! member_id := lift (field_str "member_id" worker) in
          ret (MkVerifiedWorker member_id (sq_worker_id sr) (sq_credential_id sr)).

(** ** Rotation *)

Definition rotate (caller : VerifiedWorker) (path_worker_id : string) (req : RotateCredentialRequest) (now : Z) : M RotateCredentialResponse :=
  if negb (String.eqb path_worker_id (vw_worker_id caller)) then
    let! _ := audit "resource_access_rejected" now [("worker_id", JString (vw_worker_id caller)); ("kind", JString "rotate_path_worker")] in
    fail UnknownResource
  else if negb (String.eqb (rr_protocol_version req) PROTOCOL_VERSION) then fail IncompatibleProtocol
  else
    let! _ := lift (validate_uuid (rr_rotation_id req)) in
    let record_rel := RRotation (vw_worker_id caller) (rr_rotation_id req) in
    let! found := read_doc record_rel in
    match found with
    | Some record =>
        let! owner := lift (field_str "worker_id" record) in
        let! same := (if String.eqb owner (vw_worker_id caller)
                      then let! key := lift (field_str "new_public_key" record) in ret (String.eqb key (rr_new_ed25519_public_key req))
                      else ret false) in
        if same then
          let! response := lift (ok_or (json_get "response" record) Storage) in
          lift (ok_or (RotateResponse_from_value response) Storage)
        else fail IdempotencyConflict
    | None =>
        let! new_key := lift (decode_public_key (rr_new_ed25519_public_key req)) in
        let proof_msg := rotation_signing_string (vw_worker_id caller) (rr_rotation_id req) (rr_new_ed25519_public_key req) in
        let! _ := lift (verify_b64url new_key proof_msg (rr_new_key_proof req)) in
        let new_credential_id := issue_uuid ["rotation"; vw_worker_id caller; rr_rotation_id req] in
        let! _ := write_credential new_credential_id (vw_worker_id caller) (rr_new_ed25519_public_key req) now in
        let revokes_at := add_u64 now ROTATION_GRACE_SECS in
        let old_rel := RCredential (vw_credential_id caller) in
        let! found := read_doc old_rel in
        let! old := lift (ok_or found Storage) in
        let! _ := write_doc old_rel (set_field "revokes_at" (json_u64 revokes_at) old) in
        let response := MkRotateResponse PROTOCOL_VERSION (rr_rotation_id req) (vw_worker_id caller) new_credential_id
                          (rfc3339_utc revokes_at) (rfc3339_utc now) in
        let! _ := write_doc record_rel (json_object
          [("worker_id", JString (vw_worker_id caller)); ("new_public_key", JString (rr_new_ed25519_public_key req));
           ("response", RotateResponse_to_value response)]) in
        let! _ := audit "credential_rotated" now
          [("worker_id", JString (vw_worker_id caller)); ("old_credential_id", JString (vw_credential_id caller));
           ("new_credential_id", JString new_credential_id)] in
        ret response
    end.

(** ** Commands, revocation and recovery *)

Definition check_command (command_id content : string) : M bool :=
  let! _ := lift (validate_uuid command_id) in
  let! found := read_doc (RWorkerCommand command_id) in
  match found with
  | Some rec =>
      let! hash := lift (field_str "request_sha256" rec) in
      if String.eqb hash (sha256_hex (as_bytes content)) then ret true else fail IdempotencyConflict
  | None => ret false
  end.
Definition record_command (command_id content : string) : M unit :=
  write_doc (RWorkerCommand command_id) (json_object [("request_sha256", JString (sha256_hex (as_bytes content)))]).

Definition revoke_credential (worker_id credential_id actor command_id : string) (now : Z) : M unit :=
  let! _ := lift (validate_uuid worker_id) in
  let! _ := lift (validate_uuid credential_id) in
  let! _ := lift (validate_uuid command_id) in
  let command := lines ["revoke_credential"; worker_id; credential_id] in
  let! already := check_command command_id command in
  if already : bool then ret tt
  else
    let! found := read_doc (RCredential credential_id) in
    let! doc := lift (ok_or (and_then found (fun doc =>
      if bool_decide (and_then (json_get "worker_id" doc) json_as_str = Some worker_id) then Some doc else None)) UnknownResource) in
    let! _ := write_doc (RCredential credential_id) (set_field "revoked" (JBool true) doc) in
    let! _ := record_command command_id command in
    audit "credential_revoked" now
      [("worker_id", JString worker_id); ("credential_id", JString credential_id); ("actor", JString actor); ("command_id", JString command_id)].

Definition revoke_worker (worker_id : string) (reason : RevocationReason) (actor command_id : string) (now : Z) : M unit :=
  let! _ := lift (validate_uuid worker_id) in
  let command := lines ["revoke_worker"; worker_id; RevocationReason_as_str reason] in
  let! already := check_command command_id command in
  if already : bool then ret tt
  else
    let! found := read_doc (RWorker worker_id) in
    let! doc := lift (ok_or found UnknownResource) in
    if is_security_revoked doc && match reason with Accidental => true | Security => false end then
      let! _ := audit "revocation_downgrade_refused" now
        [("worker_id", JString worker_id); ("actor", JString actor); ("command_id", JString command_id)] in
      fail CommandRefused
    else
      let! _ := write_doc (RWorker worker_id) (set_field "revoked_by" (JString actor)
        (set_field "revoked_reason" (JString (RevocationReason_as_str reason)) (set_field "status" (JString "REVOKED") doc))) in
      let! _ := record_command command_id command in
      audit "worker_revoked" now
        [("worker_id", JString worker_id); ("reason", JString (RevocationReason_as_str reason)); ("actor", JString actor);
         ("command_id", JString command_id)].

Definition cleared (doc : Value) : Value :=
  set_field "revoked_by" JNull (set_field "revoked_reason" JNull (set_field "status" (JString "ACTIVE") doc)).
Definition reinstate_worker (worker_id actor command_id : string) (now : Z) : M unit :=
  let! _ := lift (validate_uuid worker_id) in
  let command := lines ["reinstate_worker"; worker_id] in
  let! already := check_command command_id command in
  if already : bool then ret tt
  else
    let! found := read_doc (RWorker worker_id) in
    let! doc := lift (ok_or found UnknownResource) in
    let! _ := write_doc (RWorker worker_id) (cleared doc) in
    let! _ := record_command command_id command in
    audit "worker_reinstated" now [("worker_id", JString worker_id); ("actor", JString actor); ("command_id", JString command_id)].

(** The loop over the worker's other credentials. *)
Fixpoint revoke_others (new_credential_id : string) (ids : list string) (revoked : list string) : M (list string) :=
  match ids with
  | [] => ret revoked
  | id :: ids' =>
      if String.eqb id new_credential_id then revoke_others new_credential_id ids' revoked
      else
        let! found := read_doc (RCredential id) in
        match found with
        | None => revoke_others new_credential_id ids' revoked
        | Some doc =>
            let! _ := (match json_get "revoked" doc with
                       | Some (JBool true) => ret tt
                       | _ => write_doc (RCredential id) (set_field "revoked" (JBool true) doc)
                       end) in
            revoke_others new_credential_id ids' (revoked ++ [id])
        end
  end.
Definition recovery_hash (req : RecoverWorkerRequest) : string :=
  sha256_hex (as_bytes (lines [rq_worker_id req; ticket_hash (rq_recovery_ticket req); rq_new_ed25519_public_key req])).
(** What follows the claimed ticket. *)
Definition complete_recovery (req : RecoverWorkerRequest) (now : Z) : M RecoverWorkerResponse :=
  let new_credential_id := issue_uuid ["recovery"; rq_worker_id req; rq_recovery_request_id req] in
  let! _ := write_credential new_credential_id (rq_worker_id req) (rq_new_ed25519_public_key req) now in
  let! ids := worker_credentials (rq_worker_id req) in
  let! revoked := revoke_others new_credential_id ids [] in
  let! found := read_doc (RWorker (rq_worker_id req)) in
  let! worker := lift (ok_or found UnknownResource) in
  let! status := lift (field_str "status" worker) in
  let! _ := (if negb (String.eqb status "ACTIVE") then write_doc (RWorker (rq_worker_id req)) (cleared worker) else ret tt) in
  let response := MkRecoverResponse (rq_recovery_request_id req) (rq_worker_id req) new_credential_id revoked (rfc3339_utc now) in
  let! _ := write_doc (RRecovery (rq_recovery_request_id req)) (json_object
    [("request_sha256", JString (recovery_hash req)); ("response", RecoverResponse_to_value response)]) in
  let! _ := audit "worker_recovered" now [("worker_id", JString (rq_worker_id req)); ("new_credential_id", JString new_credential_id)] in
  ret response.
Definition recover_worker (req : RecoverWorkerRequest) (now : Z) : M RecoverWorkerResponse :=
  let! _ := lift (validate_uuid (rq_recovery_request_id req)) in
  let! _ := lift (validate_uuid (rq_worker_id req)) in
  let! found := read_doc (RRecovery (rq_recovery_request_id req)) in
  match found with
  | Some record =>
      let! hash := lift (field_str "request_sha256" record) in
      if negb (String.eqb hash (recovery_hash req)) then fail IdempotencyConflict
      else
        let! response := lift (ok_or (json_get "response" record) Storage) in
        lift (ok_or (RecoverResponse_from_value response) Storage)
  | None =>
      let! new_key := lift (decode_public_key (rq_new_ed25519_public_key req)) in
      let proof_msg := recovery_signing_string sha256 (rq_recovery_request_id req) (rq_recovery_ticket req) (rq_new_ed25519_public_key req) in
      let! _ := lift (verify_b64url new_key proof_msg (rq_new_key_proof req)) in
      let! found := read_doc (RWorker (rq_worker_id req)) in
      let! worker_before := lift (ok_or found UnknownResource) in
      if is_security_revoked worker_before then
        let! _ := audit "recovery_refused" now [("worker_id", JString (rq_worker_id req)); ("reason", JString "security_revocation")] in
        fail TicketRejected
      else
        let! _ := claim_ticket PURPOSE_RECOVERY (rq_recovery_ticket req) (Some (rq_worker_id req)) (rq_recovery_request_id req) now in
        complete_recovery req now
  end.

(** ** Slots and offers *)

Definition slot_grant (slot_id : string) : M (option SlotGrant) :=
  let! _ := lift (validate_uuid slot_id) in
  let! found := read_doc (RSlot slot_id) in
  match found with
  | Some doc => let! grant := lift (ok_or (SlotGrant_from_value doc) Storage) in ret (Some grant)
  | None => ret None
  end.
Definition register_slot (caller : VerifiedWorker) (slot_registration_id client_slot_key : string) (now : Z) : M SlotGrant :=
  let! _ := lift (validate_uuid slot_registration_id) in
  if is_empty client_slot_key || Nat.ltb 128 (String.length client_slot_key) then fail UnknownResource
  else
    let request_hash := sha256_hex (as_bytes (lines [vw_worker_id caller; client_slot_key])) in
    let record_rel := RSlotRegistration (vw_worker_id caller) slot_registration_id in
    let! found := read_doc record_rel in
    match found with
    | Some record =>
        let! hash := lift (field_str "request_sha256" record) in
        if negb (String.eqb hash request_hash) then fail IdempotencyConflict
        else
          let! grant := lift (ok_or (json_get "grant" record) Storage) in
          lift (ok_or (SlotGrant_from_value grant) Storage)
    | None =>
        let index_rel := RSlotIndex (vw_worker_id caller) (sha256_hex (as_bytes client_slot_key)) in
        let! index := read_doc index_rel in
        let! grant := (match index with
          | Some index =>
              let! slot_id := lift (field_str "slot_id" index) in
              let! found := read_doc (RSlot slot_id) in
              let! slot := lift (ok_or found Storage) in
              lift (ok_or (SlotGrant_from_value slot) Storage)
          | None =>
              let slot_id := issue_uuid ["slot"; vw_worker_id caller; slot_registration_id] in
              let grant := MkSlotGrant slot_id (vw_worker_id caller) client_slot_key 1 "UNQUALIFIED" None in
              let! _ := write_doc (RSlot slot_id) (SlotGrant_to_value grant) in
              let! _ := write_doc index_rel (json_object [("slot_id", JString slot_id)]) in
              ret grant
          end) in
        let! _ := write_doc record_rel (json_object [("request_sha256", JString request_hash); ("grant", SlotGrant_to_value grant)]) in
        let! _ := audit "slot_registered" now [("worker_id", JString (vw_worker_id caller)); ("slot_id", JString (sg_slot_id grant))] in
        ret grant
    end.

(** The audited refusal; a failing audit is returned instead. *)
Definition reject_unknown_resource {A} (caller : VerifiedWorker) (kind : string) (now : Z) : M A :=
  let! _ := audit "resource_access_rejected" now [("worker_id", JString (vw_worker_id caller)); ("kind", JString kind)] in
  fail UnknownResource.

Definition record_capacity_offer (caller : VerifiedWorker) (offer_id slot_id : string) (now : Z) : M OfferRecord :=
  let! _ := lift (validate_uuid offer_id) in
  let! _ := lift (validate_uuid slot_id) in
  let! grant := slot_grant slot_id in
  match grant with
  | Some grant =>
      if negb (String.eqb (sg_worker_id grant) (vw_worker_id caller)) then reject_unknown_resource caller "slot" now
      else if negb (is_qualified grant) then fail SlotNotQualified
      else
        let rel := ROffer (vw_worker_id caller) offer_id in
        let! found := read_doc rel in
        match found with
        | Some doc =>
            let! record := lift (ok_or (OfferRecord_from_value doc) Storage) in
            if String.eqb (of_slot_id record) slot_id then ret record else fail IdempotencyConflict
        | None =>
            let record := MkOfferRecord offer_id (vw_worker_id caller) slot_id now in
            let! _ := write_doc rel (OfferRecord_to_value record) in
            let! _ := audit "offer_recorded" now
              [("worker_id", JString (vw_worker_id caller)); ("offer_id", JString offer_id); ("slot_id", JString slot_id)] in
            ret record
        end
  | None => reject_unknown_resource caller "slot" now
  end.

Definition is_digest_text (s : string) : bool := Nat.eqb (String.length s) 64 && all_bytes is_lower_hex s.
Definition mark_slot_qualified (slot_id actor qualification_result_id qualification_spec_digest : string) (now : Z) : M unit :=
  let! _ := lift (validate_uuid slot_id) in
  if negb (is_digest_text qualification_spec_digest) then fail UnknownResource
  else
    let command := lines ["mark_slot_qualified"; slot_id; qualification_spec_digest] in
    let! already := check_command qualification_result_id command in
    if already : bool then ret tt
    else
      let! found := read_doc (RSlot slot_id) in
      let! doc := lift (ok_or found UnknownResource) in
      let! generation := lift (field_u64 "generation" doc) in
      let qualification_id := issue_uuid ["qualification"; slot_id; qualification_result_id] in
      let! _ := write_doc (RSlot slot_id) (set_field "qualification_spec_digest" (JString qualification_spec_digest)
        (set_field "qualification_id" (JString qualification_id) (set_field "qualified_generation" (json_u64 generation)
          (set_field "qualification" (JString "QUALIFIED") doc)))) in
      let! _ := record_command qualification_result_id command in
      audit "slot_qualified" now
        [("slot_id", JString slot_id); ("actor", JString actor); ("generation", json_u64 generation);
         ("qualification_id", JString qualification_id); ("qualification_result_id", JString qualification_result_id);
         ("qualification_spec_digest", JString qualification_spec_digest)].

(** ** Assignments and uploads *)

Definition issue_assignment (issuance_id : string) (facts : AssignmentFacts) (now : Z) : M AssignmentGrant :=
  let worker_id := af_worker_id facts in
  let slot_id := af_slot_id facts in
  let benchmark_id := af_benchmark_id facts in
  let! _ := lift (validate_uuid issuance_id) in
  let! _ := lift (validate_uuid worker_id) in
  let! _ := lift (validate_uuid slot_id) in
  if is_empty benchmark_id || Nat.ltb 256 (String.length benchmark_id) then fail UnknownResource
  else if negb (is_digest_text (af_assignment_digest facts)) then fail UnknownResource
  else
    let! _ := lift (validate_token (af_network facts)) in
    let request_hash := sha256_hex (as_bytes (lines [worker_id; slot_id; benchmark_id; af_assignment_digest facts; af_network facts])) in
    let record_rel := RAssignmentIssuance issuance_id in
    let! found := read_doc record_rel in
    match found with
    | Some record =>
        let! hash := lift (field_str "request_sha256" record) in
        if negb (String.eqb hash request_hash) then fail IdempotencyConflict
        else
          let! grant := lift (ok_or (json_get "grant" record) Storage) in
          lift (ok_or (AssignmentGrant_from_value grant) Storage)
    | None =>
        let! found := read_doc (RWorker worker_id) in
        let! worker := lift (ok_or found UnknownResource) in
        let! status := lift (field_str "status" worker) in
        if negb (String.eqb status "ACTIVE") then fail NotAuthenticated
        else
          let! found := slot_grant slot_id in
          let! slot := lift (ok_or found UnknownResource) in
          if negb (String.eqb (sg_worker_id slot) worker_id) then fail UnknownResource
          else if negb (is_qualified slot) then fail SlotNotQualified
          else
            let benchmark_rel := RByBenchmark (sha256_hex (as_bytes benchmark_id)) in
            let assignment_id := issue_uuid ["assignment"; issuance_id] in
            let! existing := read_doc benchmark_rel in
            let! taken := (match existing with
                           | Some existing => let! other := lift (field_str "assignment_id" existing) in ret (negb (String.eqb other assignment_id))
                           | None => ret false
                           end) in
            if taken : bool then fail IdempotencyConflict
            else
              let! member_id := lift (field_str "member_id" worker) in
              let grant := MkAssignmentGrant assignment_id member_id worker_id slot_id benchmark_id in
              let! _ := write_doc (RAssignment assignment_id) (AssignmentGrant_to_value grant) in
              let! _ := write_doc benchmark_rel (json_object [("assignment_id", JString assignment_id)]) in
              let! _ := write_doc record_rel (json_object [("request_sha256", JString request_hash); ("grant", AssignmentGrant_to_value grant)]) in
              let! _ := audit "assignment_issued" now [("assignment_id", JString assignment_id)] in
              ret grant
    end.
Definition assignment_issuance (issuance_id : string) : M (option AssignmentGrant) :=
  let! _ := lift (validate_uuid issuance_id) in
  let! found := read_doc (RAssignmentIssuance issuance_id) in
  match found with
  | Some record =>
      let! grant := lift (ok_or (json_get "grant" record) Storage) in
      let! grant := lift (ok_or (AssignmentGrant_from_value grant) Storage) in ret (Some grant)
  | None => ret None
  end.
Definition assignment_grant (assignment_id : string) : M (option AssignmentGrant) :=
  let! _ := lift (validate_uuid assignment_id) in
  let! found := read_doc (RAssignment assignment_id) in
  match found with
  | Some doc => let! grant := lift (ok_or (AssignmentGrant_from_value doc) Storage) in ret (Some grant)
  | None => ret None
  end.

Definition bind_upload (binding : UploadBinding) : M unit :=
  let! _ := lift (validate_token (ub_upload_id binding)) in
  let! _ := lift (validate_uuid (ub_worker_id binding)) in
  let! _ := lift (validate_uuid (ub_assignment_id binding)) in
  let! _ := lift (validate_token (ub_package_id binding)) in
  let! _ := lift (validate_token (ub_pool_package_id binding)) in
  let rel := RUploadBinding (ub_upload_id binding) in
  let! found := read_doc rel in
  match found with
  | Some existing => if bool_decide (existing = UploadBinding_to_value binding) then ret tt else fail IdempotencyConflict
  | None => write_doc rel (UploadBinding_to_value binding)
  end.
Definition upload_binding (upload_id : string) : M (option UploadBinding) :=
  let! _ := lift (validate_token upload_id) in
  let! found := read_doc (RUploadBinding upload_id) in
  match found with
  | Some doc => let! b := lift (ok_or (UploadBinding_from_value doc) Storage) in ret (Some b)
  | None => ret None
  end.
End service.

(** ** The shape of issued identifiers *)

(** A masked byte: the low bits of [b] under fixed high bits. *)
Lemma masked_byte high low n b : 0 <= n -> low = Z.ones n -> 0 <= high -> high mod 2 ^ n = 0 ->
  Z.lor high (Z.land b low) = high + b mod 2 ^ n.
Proof.
  intros Hn -> Hh Hm. rewrite Z.land_ones by done. symmetry. apply Z.add_nocarry_lor. apply Z.bits_inj'. intros k Hk.
  rewrite Z.land_spec, Z.bits_0. destruct (Z.lt_ge_cases k n) as [Hlt|Hge].
  - rewrite <- (Z.mod_pow2_bits_low high n k) by lia. by rewrite Hm, Z.bits_0.
  - rewrite (Z.mod_pow2_bits_high b n k) by lia. apply andb_false_r.
Qed.
Lemma issued_shape (b0 b1 b2 b3 b4 b5 b6 b7 b8 b9 b10 b11 b12 b13 b14 b15 : Z) :
  Forall (fun b => is_u8 b = true) [b0; b1; b2; b3; b4; b5; b6; b7; b8; b9; b10; b11; b12; b13; b14; b15] ->
  is_uuid (uuid_text [b0; b1; b2; b3; b4; b5; b6; b7; b8; b9; b10; b11; b12; b13; b14; b15]) = true.
Proof.
  intros H. repeat match goal with H : Forall _ (_ :: _) |- _ => inversion_clear H as [|? ? [? ?]%hex_nibbles ?] end.
  unfold is_uuid. apply andb_true_iff. split; [reflexivity|].
  cbv -[is_lower_hex hex_digit Z.div Z.modulo is_dash andb]. rewrite !hex_digit_lower by assumption. reflexivity.
Qed.
Lemma uuid_bytes_eq (b0 b1 b2 b3 b4 b5 b6 b7 b8 b9 b10 b11 b12 b13 b14 b15 : Z) l :
  uuid_bytes (b0 :: b1 :: b2 :: b3 :: b4 :: b5 :: b6 :: b7 :: b8 :: b9 :: b10 :: b11 :: b12 :: b13 :: b14 :: b15 :: l) =
  [b0; b1; b2; b3; b4; b5; Z.lor 64 (Z.land b6 15); b7; Z.lor 128 (Z.land b8 63); b9; b10; b11; b12; b13; b14; b15].
Proof. reflexivity. Qed.
Lemma uuid_bytes_shape l : (16 <= length l)%nat -> Forall (fun b => is_u8 b = true) l ->
  is_uuid (uuid_text (uuid_bytes l)) = true /\ String.get 14 (uuid_text (uuid_bytes l)) = Some (hex_digit 4).
Proof.
  intros Hl Hf. do 16 (destruct l as [|? l]; [cbn in Hl; lia|]). rewrite uuid_bytes_eq.
  rewrite (masked_byte 64 15 4), (masked_byte 128 63 6) by (done || lia).
  repeat match goal with H : Forall _ (_ :: _) |- _ => inversion_clear H as [|? ? ? ?] end.
  pose proof (Z.mod_pos_bound z5 (2 ^ 4) ltac:(lia)). pose proof (Z.mod_pos_bound z7 (2 ^ 6) ltac:(lia)).
  split.
  - apply issued_shape. repeat constructor; try assumption; apply is_u8_spec; lia.
  - change (String.get 14 _) with (Some (hex_digit ((64 + z5 mod 2 ^ 4) / 16))). do 2 f_equal.
    symmetry. apply Z.div_unique with (z5 mod 2 ^ 4); lia.
Qed.

(** C39. Every identifier the service issues (members, workers, credentials, slots,
    qualifications, assignments) is one its own checks let through, a version 4
    UUID in lower case, and may stand in a path; keyed BLAKE3 gives at least
    sixteen bytes. *)
Theorem issued_identifiers_are_valid keyed_hash server_key label :
  (16 <= length (keyed_hash server_key (as_bytes (String.concat ":" label))))%nat ->
  Forall (fun b => is_u8 b = true) (keyed_hash server_key (as_bytes (String.concat ":" label))) ->
  let id := issue_uuid keyed_hash server_key label in
  validate_uuid id = Ok tt /\ String.get 14 id = Some (hex_digit 4) /\ is_path_part id = true.
Proof.
  intros Hl Hf id. destruct (uuid_bytes_shape _ Hl Hf) as [Hu Hv]. fold (issue_uuid keyed_hash server_key label) in Hu, Hv. fold id in Hu, Hv.
  split_and!; [unfold validate_uuid; by rewrite Hu|exact Hv|by apply uuid_is_path_part].
Qed.
Lemma issued_identifiers_are_valid_witness :
  validate_uuid (issue_uuid (fun _ d => d) [] ["member"; "alice-0001"]) = Ok tt.
Proof.
  refine (proj1 (issued_identifiers_are_valid (fun _ d => d) [] ["member"; "alice-0001"] _ _)).
  - apply Nat.leb_le. vm_compute. reflexivity.
  - repeat constructor.
Defined.
