(* ===== verification/IdentityHistory.v ===== *)
(** * Histories of the identity service

    The service's calls as one alphabet, run in any order with any write
    failing anywhere and any document unreadable, and what no history takes back: records that are written
    once, tickets, request ids and revocations. *)
From S2P Require Import Prelude Text BTreeMap Json Domain Rfc3339 IdentityStore Identity.
Open Scope Z_scope.

(** ** What a call does to the store *)

(** A reflexive and transitive relation between the stores around a call. *)
Definition preserves (R : Store -> Store -> Prop) {A} (m : M A) : Prop := forall s r s', m s = (r, s') -> R s s'.

Section preserves.
Context (R : Store -> Store -> Prop) `{!PreOrder R}.
Lemma preserves_ret {A} (a : A) : preserves R (ret a).
Proof. intros s r s' [= <- <-]. reflexivity. Qed.
Lemma preserves_fail {A} e : preserves R (@fail A e).
Proof. intros s r s' [= <- <-]. reflexivity. Qed.
Lemma preserves_lift {A} (x : result IdentityErrorCode A) : preserves R (lift x).
Proof. intros s r s' [= <- <-]. reflexivity. Qed.
Lemma preserves_bind {A B} (m : M A) (k : A -> M B) : preserves R m -> (forall a, preserves R (k a)) -> preserves R (bind m k).
Proof.
  intros Hm Hk s r s'. unfold bind. destruct (m s) as [[a|e] s1] eqn:E; intros H; [|by simplify_eq; eapply Hm].
  etransitivity; [by eapply Hm|by eapply Hk].
Qed.
Lemma preserves_lift_bind {A B} (x : result IdentityErrorCode A) (k : A -> M B) :
  (forall a, x = Ok a -> preserves R (k a)) -> preserves R (bind (lift x) k).
Proof. intros Hk s r s'. unfold bind, lift. destruct x as [a|e]; [by apply Hk|]. intros [= <- <-]. reflexivity. Qed.
Lemma preserves_if {A} (b : bool) (m k : M A) : (b = true -> preserves R m) -> (b = false -> preserves R k) -> preserves R (if b then m else k).
Proof. destruct b; auto. Qed.
Lemma preserves_read_at {A} p (a : Store -> A) : preserves R (read_at p a).
Proof. intros s r s' [= <- <-]. reflexivity. Qed.
Lemma preserves_worker_credentials w : preserves R (worker_credentials w).
Proof. apply preserves_read_at. Qed.
Lemma preserves_read_bind {A} rel (k : option Value -> M A) :
  (forall v s r s', st_docs s !! rel = v -> k v s = (r, s') -> R s s') -> preserves R (bind (read_doc rel) k).
Proof. intros Hk s r s'. unfold bind, read_doc, read_at. destruct (st_unread s _); [intros [= <- <-]; reflexivity|]. by apply Hk. Qed.
Lemma preserves_read_any {A} rel (k : option Value -> M A) : (forall v, preserves R (k v)) -> preserves R (bind (read_doc rel) k).
Proof. intros Hk. apply preserves_read_bind. intros v s r s' _. apply Hk. Qed.
Lemma preserves_audited {A} (m : M A) event now details :
  preserves R m -> preserves R (audit event now details) -> preserves R (audited m event now details).
Proof.
  intros Hm Ha s r s'. unfold audited. destruct (m s) as [[a|e] s1] eqn:E; intros H.
  { injection H as <- <-. by eapply Hm. }
  etransitivity; [by eapply Hm|]. eapply (preserves_bind _ (fun _ => fail e)); [exact Ha|intros ?; apply preserves_fail|exact H].
Qed.
End preserves.

(** ** Keeping one document *)

(** What [k] holds stays; an absent document may appear. *)
Definition keeps (k : Rel) (s s' : Store) : Prop := forall v, st_docs s !! k = Some v -> st_docs s' !! k = Some v.
#[export] Instance keeps_preorder k : PreOrder (keeps k).
Proof. split; [by intros s v|]. intros s1 s2 s3 H1 H2 v Hv. auto. Qed.

Lemma write_doc_docs r v s x s' : write_doc r v s = (x, s') ->
  st_docs s' = <[r := v]> (st_docs s) \/ (st_docs s' = st_docs s /\ x = Err Storage).
Proof. unfold write_doc. destruct (next_write s) as [[] rest]; intros [= <- <-]; auto. Qed.
Lemma audit_docs event now details s x s' : audit event now details s = (x, s') -> st_docs s' = st_docs s.
Proof. unfold audit, append_audit. by destruct (next_write s) as [[] rest]; intros [= <- <-]. Qed.
(** With no fault left, writes are done. *)
Lemma write_doc_done r v docs au un : write_doc r v (MkStore docs au [] un) = (Ok tt, MkStore (<[r := v]> docs) au [] un).
Proof. reflexivity. Qed.

Lemma keeps_write k r v : r <> k -> preserves (keeps k) (write_doc r v).
Proof.
  intros Hne s x s' H w Hw. destruct (write_doc_docs _ _ _ _ _ H) as [E|[E _]]; rewrite E; [|done].
  by rewrite lookup_insert_ne.
Qed.
Lemma keeps_audit k event now details : preserves (keeps k) (audit event now details).
Proof. intros s x s' H w Hw. by rewrite (audit_docs _ _ _ _ _ _ H). Qed.
(** A document written only after it was found absent. *)
Lemma keeps_read_match {A} k r (F : option Value -> M A) :
  (forall v, preserves (keeps k) (F (Some v))) -> (r <> k -> preserves (keeps k) (F None)) -> preserves (keeps k) (bind (read_doc r) F).
Proof.
  intros Hs Hn. apply preserves_read_bind; [apply _|]. intros v s x s' Hv H. destruct v as [v|]; [by eapply Hs|].
  destruct (decide (r = k)) as [->|Hne]; [|by eapply (Hn Hne)]. intros w Hw. congruence.
Qed.

(** ** Reading a successful call backwards *)

Lemma bind_ok {A B} (m : M A) (k : A -> M B) s b s' :
  bind m k s = (Ok b, s') -> exists a s1, m s = (Ok a, s1) /\ k a s1 = (Ok b, s').
Proof. unfold bind. destruct (m s) as [[a|e] s1] eqn:E; intros H; [eauto|discriminate]. Qed.
Lemma bind_assoc {A B C} (m : M A) (k : A -> M B) (j : B -> M C) s : bind (bind m k) j s = bind m (fun a => bind (k a) j) s.
Proof. unfold bind. by destruct (m s) as [[]]. Qed.
Lemma lift_ok {A} (r : result IdentityErrorCode A) s a s' : lift r s = (Ok a, s') -> r = Ok a /\ s' = s.
Proof. unfold lift. intros H. by injection H as <- <-. Qed.
Lemma ret_ok {A} (x : A) s a s' : ret x s = (Ok a, s') -> x = a /\ s' = s.
Proof. unfold ret. intros H. by injection H as <- <-. Qed.
Lemma read_ok r s a s' : read_doc r s = (Ok a, s') -> st_docs s !! r = a /\ s' = s.
Proof. unfold read_doc, read_at. destruct (st_unread s _); intros H; [discriminate|]. by injection H as <- <-. Qed.
(** A document that can be read, and a disk on which everything can be done. *)
Definition readable (r : Rel) (s : Store) : Prop := st_unread s (PDoc r) = false.
Definition healthy (s : Store) : Prop := st_writes s = [] /\ forall p, st_unread s p = false.
Lemma read_readable r s : readable r s -> read_doc r s = (Ok (st_docs s !! r), s).
Proof. unfold readable, read_doc, read_at. by intros ->. Qed.
Lemma write_ok r v s a s' : write_doc r v s = (Ok a, s') -> st_docs s' = <[r := v]> (st_docs s).
Proof. intros H. destruct (write_doc_docs _ _ _ _ _ H) as [E|[_ E]]; [exact E|discriminate]. Qed.
Lemma audited_ok {A} (m : M A) event now details s a s' : audited m event now details s = (Ok a, s') -> m s = (Ok a, s').
Proof.
  unfold audited. destruct (m s) as [[x|e] s1]; [done|]. intros H. apply bind_ok in H as (? & ? & _ & H). discriminate.
Qed.
Lemma ok_or_ok {A E} (o : option A) (e : E) a : ok_or o e = Ok a -> o = Some a.
Proof. destruct o; intros H; by simplify_eq/=. Qed.

Lemma validate_uuid_ok i u : validate_uuid i = Ok u -> is_uuid i = true.
Proof. unfold validate_uuid. by destruct (is_uuid i). Qed.

(** One step backwards through a hypothesis that a call returned [Ok]. *)
Ltac unwind1 :=
  match goal with
  | H : fail _ _ = (Ok _, _) |- _ => discriminate H
  | H : bind _ _ _ = (Ok _, _) |- _ => let E := fresh "E" in apply bind_ok in H as (? & ? & E & H)
  | H : lift _ _ = (Ok _, _) |- _ => let E := fresh "E" in apply lift_ok in H as [E ?]; subst
  | H : ret _ _ = (Ok _, _) |- _ => let E := fresh "E" in apply ret_ok in H as [E ?]; subst
  | H : read_doc _ _ = (Ok _, _) |- _ => let E := fresh "R" in apply read_ok in H as [E ?]; subst
  | H : write_doc _ _ _ = (Ok _, _) |- _ => let E := fresh "W" in pose proof (write_ok _ _ _ _ _ H) as E; clear H
  | H : audit _ _ _ _ = (Ok _, _) |- _ => let E := fresh "A" in pose proof (audit_docs _ _ _ _ _ _ H) as E; clear H
  | H : audited _ _ _ _ _ = (Ok _, _) |- _ => apply audited_ok in H
  | H : ok_or _ _ = Ok _ |- _ => apply ok_or_ok in H
  | H : validate_uuid _ = Ok _ |- _ => apply validate_uuid_ok in H
  | H : String.eqb _ _ = true |- _ => apply String.eqb_eq in H
  | H : (if negb ?b then _ else _) _ = (Ok _, _) |- _ => let E := fresh "B" in destruct b eqn:E; cbn [negb] in H
  | H : (if ?b then _ else _) _ = (Ok _, _) |- _ => let E := fresh "B" in destruct b eqn:E
  | H : (match ?x with Some _ => _ | None => _ end) _ = (Ok _, _) |- _ => let E := fresh "O" in destruct x eqn:E
  end.
Ltac unwind := repeat unwind1.
(** Rewrites with what the unwound writes left. *)
Ltac docs := repeat match goal with H : st_docs ?s = _ |- context [st_docs ?s] => rewrite H end; simplify_map_eq.

(** ** Documents written once *)

(** Kinds of document that are never written over. *)
Definition write_once (k : Rel) : bool :=
  match k with
  | RServerKey | RMember _ | RTicketClaim _ | REnrollment _ | RReplay _ _ | RRotation _ _ | RWorkerCommand _ | RRecovery _
  | RSlotRegistration _ _ | RSlotIndex _ _ | ROffer _ _ | RAssignmentIssuance _ | RUploadBinding _ => true
  | RTicket _ | RWorker _ | RCredential _ | RWorkerCredential _ _ | RSlot _ | RAssignment _ | RByBenchmark _ => false
  end.

Lemma keeps_check_command sha256 k command_id content (K : M unit) :
  (RWorkerCommand command_id <> k -> preserves (keeps k) K) ->
  preserves (keeps k) (bind (check_command sha256 command_id content) (fun already : bool => if already then ret tt else K)).
Proof.
  intros HK s r s'. unfold check_command, bind at 1 2, lift. destruct (validate_uuid command_id); [|intros [= <- <-]; reflexivity].
  unfold bind, read_doc, read_at. destruct (st_unread s _); [intros [= <- <-]; reflexivity|].
  destruct (st_docs s !! RWorkerCommand command_id) as [rec|] eqn:Hr.
  - unfold lift. destruct (field_str _ rec) as [h|]; [|intros [= <- <-]; reflexivity].
    destruct (String.eqb _ _); intros [= <- <-]; reflexivity.
  - destruct (decide (RWorkerCommand command_id = k)) as [<-|Hne]; [intros _ v Hv; congruence|]. by apply HK.
Qed.

Lemma keeps_revoke_others k id ids revoked : (forall c, RCredential c <> k) -> preserves (keeps k) (revoke_others id ids revoked).
Proof.
  intros Hk. induction ids as [|i ids IH] in revoked |- *; cbn [revoke_others]; [apply preserves_ret, _|].
  apply preserves_if; intros _; [apply IH|]. apply keeps_read_match; [|intros _; apply IH].
  intros v. apply preserves_bind; [apply _| |intros _; apply IH].
  assert (preserves (keeps k) (write_doc (RCredential i) (set_field "revoked" (JBool true) v))) as Hw.
  { by apply keeps_write. }
  destruct (json_get "revoked" v) as [[]|]; try exact Hw. case_match; [apply preserves_ret, _|exact Hw].
Qed.

(** Walks through a call, leaving the writes that need an argument. *)
Ltac walk :=
  repeat (intros;
    first [ apply keeps_audit
          | apply preserves_ret; apply _ | apply preserves_fail; apply _ | apply preserves_lift; apply _
          | apply preserves_lift_bind; [apply _|intros ? ?]
          | apply keeps_read_match
          | apply preserves_worker_credentials; apply _
          | apply keeps_check_command | apply keeps_revoke_others; intros ? ?; subst; discriminate
          | apply preserves_bind; [apply _| |intros]
          | apply preserves_audited; [apply _| |]
          | apply preserves_if; intros
          | match goal with |- preserves _ (match ?x with Some _ => _ | None => _ end) => destruct x end
          | apply keeps_write; (congruence || (intros ?; subst; discriminate)) ]).

(** A credential that is not refused. *)
Lemma credential_refused_false credential now : credential_refused credential now = false <->
  json_get "revoked" credential = Some (JBool false) /\
  (forall t, and_then (json_get "revokes_at" credential) json_as_u64 = Some t -> now < t).
Proof.
  unfold credential_refused. rewrite orb_false_iff.
  assert (default true (and_then (json_get "revoked" credential) json_as_bool) = false <-> json_get "revoked" credential = Some (JBool false)) as ->.
  { destruct (json_get "revoked" credential) as [[| | | | |]|]; cbn; split; intros H; simplify_eq/=; done. }
  destruct (and_then (json_get "revokes_at" credential) json_as_u64) as [t|]; [|naive_solver].
  rewrite Z.leb_gt. naive_solver.
Qed.

Section calls.
Context {Key : Type} (sha256 : list Z -> list Z) (b64_decode : string -> option (list Z)) (b64url : list Z -> string).
Context (key_from_bytes : list Z -> option Key) (verify_strict : Key -> list Z -> list Z -> bool).
Context (keyed_hash : list Z -> list Z -> list Z) (enroll_text : EnrollRequest -> string) (server_key : list Z).

(** Every call that can write. *)
Inductive Call :=
| COpen (random : option (list Z))
| CCreateMember (member_ref : string) (now : Z)
| CEnrollmentTicket (member_id : string) (now : Z) (random : option (list Z))
| CRecoveryTicket (member_id worker_id : string) (now : Z) (random : option (list Z))
| CEnroll (req : EnrollRequest) (now : Z)
| CVerify (sr : SignedRequest) (body : list Z) (now : Z)
| CRotate (caller : VerifiedWorker) (path_worker_id : string) (req : RotateCredentialRequest) (now : Z)
| CRevokeCredential (worker_id credential_id actor command_id : string) (now : Z)
| CRevokeWorker (worker_id : string) (reason : RevocationReason) (actor command_id : string) (now : Z)
| CReinstate (worker_id actor command_id : string) (now : Z)
| CRecover (req : RecoverWorkerRequest) (now : Z)
| CRegisterSlot (caller : VerifiedWorker) (slot_registration_id client_slot_key : string) (now : Z)
| COffer (caller : VerifiedWorker) (offer_id slot_id : string) (now : Z)
| CQualify (slot_id actor result_id spec_digest : string) (now : Z)
| CIssueAssignment (issuance_id : string) (facts : AssignmentFacts) (now : Z)
| CBindUpload (binding : UploadBinding)
| CRefuse (caller : VerifiedWorker) (kind : string) (now : Z).

Definition call (c : Call) : M unit :=
  let done {A} (m : M A) : M unit := bind m (fun _ => ret tt) in
  match c with
  | COpen random => done (open random)
  | CCreateMember member_ref now => done (create_member keyed_hash server_key member_ref now)
  | CEnrollmentTicket member_id now random => done (create_enrollment_ticket b64url keyed_hash server_key member_id now random)
  | CRecoveryTicket member_id worker_id now random => done (create_recovery_ticket b64url keyed_hash server_key member_id worker_id now random)
  | CEnroll req now => done (enroll sha256 b64_decode key_from_bytes verify_strict keyed_hash enroll_text server_key req now)
  | CVerify sr body now => done (verify_request sha256 b64_decode key_from_bytes verify_strict sr body now)
  | CRotate caller path req now => done (rotate b64_decode key_from_bytes verify_strict keyed_hash server_key caller path req now)
  | CRevokeCredential w c actor id now => revoke_credential sha256 w c actor id now
  | CRevokeWorker w reason actor id now => revoke_worker sha256 w reason actor id now
  | CReinstate w actor id now => reinstate_worker sha256 w actor id now
  | CRecover req now => done (recover_worker sha256 b64_decode key_from_bytes verify_strict keyed_hash server_key req now)
  | CRegisterSlot caller reg key now => done (register_slot sha256 keyed_hash server_key caller reg key now)
  | COffer caller offer slot now => done (record_capacity_offer caller offer slot now)
  | CQualify slot actor result digest now => mark_slot_qualified sha256 keyed_hash server_key slot actor result digest now
  | CIssueAssignment id facts now => done (issue_assignment sha256 keyed_hash server_key id facts now)
  | CBindUpload b => bind_upload b
  | CRefuse caller kind now => reject_unknown_resource caller kind now
  end.

(** One call of those allowed, whatever its outcome; and between calls the disk
    may come to behave differently. *)
Inductive called (allowed : Call -> Prop) (s s' : Store) : Prop :=
| called_call c r : allowed c -> call c s = (r, s') -> called allowed s s'
| called_disk : st_docs s' = st_docs s -> st_audit s' = st_audit s -> called allowed s s'.
Definition any (c : Call) : Prop := True.
Lemma called_preserves R `{!PreOrder R} (allowed : Call -> Prop) s s' :
  (forall c, allowed c -> preserves R (call c)) -> (forall s s', st_docs s' = st_docs s -> R s s') -> rtc (called allowed) s s' -> R s s'.
Proof.
  intros Hc Hd. induction 1 as [|s1 s2 s3 Hs _ IH]; [reflexivity|]. etransitivity; [|exact IH].
  destruct Hs as [c r Ha Hs|Hs _]; [by eapply Hc|by apply Hd].
Qed.

Ltac open_call :=
  unfold call, open, create_member, create_enrollment_ticket, create_recovery_ticket, create_ticket, enroll, complete_enrollment,
    verify_request, check_replay, rotate, revoke_credential, revoke_worker, reinstate_worker, recover_worker, complete_recovery,
    claim_ticket, write_credential, register_slot, record_capacity_offer, slot_grant, reject_unknown_resource,
    mark_slot_qualified, issue_assignment, bind_upload, record_command.

(** ** Permanence *)


Lemma call_keeps c k : write_once k = true -> preserves (keeps k) (call c).
Proof.
  intros Hk. destruct c; open_call; walk.
Qed.
Lemma called_keeps allowed s s' k : write_once k = true -> rtc (called allowed) s s' -> keeps k s s'.
Proof.
  intros Hk. apply called_preserves; [apply _|intros c _; by apply call_keeps|]. intros s1 s2 Hd v. by rewrite Hd.
Qed.

(** ** The same answer again *)

Lemma EnrollResponse_roundtrip r : EnrollResponse_from_value (EnrollResponse_to_value r) = Some r.
Proof. by destruct r. Qed.
Lemma RotateResponse_roundtrip r : RotateResponse_from_value (RotateResponse_to_value r) = Some r.
Proof. by destruct r. Qed.
Lemma json_strings_roundtrip l : mapM json_as_str (map JString l) = Some l.
Proof. induction l as [|x l IH]; [done|]. cbn. by rewrite IH. Qed.
Lemma RecoverResponse_roundtrip r : RecoverResponse_from_value (RecoverResponse_to_value r) = Some r.
Proof.
  destruct r as [a b c ids e]. transitivity ((fun ids => MkRecoverResponse a b c ids e) <$> mapM json_as_str (map JString ids)); [done|].
  by rewrite json_strings_roundtrip.
Qed.

Abbreviation enroll := (enroll sha256 b64_decode key_from_bytes verify_strict keyed_hash enroll_text server_key).
Lemma enroll_recorded req now s resp s' : enroll req now s = (Ok resp, s') ->
  validate_enroll req = Ok tt /\
  exists record response, st_docs s' !! REnrollment (er_enrollment_request_id req) = Some record /\
    field_str "request_sha256" record = Ok (request_hash_of sha256 enroll_text req) /\
    json_get "response" record = Some response /\ EnrollResponse_from_value response = Some resp.
Proof.
  intros H. unfold Identity.enroll, complete_enrollment in H. unwind.
  - destruct x. subst. eauto 10.
  - destruct x. split; [done|]. eexists _, _. docs. by repeat split.
Qed.
Lemma enroll_answers req now s record response resp : validate_enroll req = Ok tt ->
  st_docs s !! REnrollment (er_enrollment_request_id req) = Some record ->
  field_str "request_sha256" record = Ok (request_hash_of sha256 enroll_text req) ->
  json_get "response" record = Some response -> EnrollResponse_from_value response = Some resp ->
  readable (REnrollment (er_enrollment_request_id req)) s -> enroll req now s = (Ok resp, s).
Proof.
  intros Hv Hd Hh Hr Hf Hun. unfold Identity.enroll, bind, lift. rewrite Hv, (read_readable _ _ Hun), Hd, Hh, String.eqb_refl. cbn [negb].
  by rewrite Hr; cbn; rewrite Hf.
Qed.
Lemma enroll_unread req now s : validate_enroll req = Ok tt -> st_unread s (PDoc (REnrollment (er_enrollment_request_id req))) = true ->
  enroll req now s = (Err Storage, s).
Proof. intros Hv Hun. unfold Identity.enroll, bind, lift, read_doc, read_at. by rewrite Hv, Hun. Qed.

Abbreviation rotate := (rotate b64_decode key_from_bytes verify_strict keyed_hash server_key).
Lemma rotate_recorded caller path req now s resp s' : rotate caller path req now s = (Ok resp, s') ->
  path = vw_worker_id caller /\ rr_protocol_version req = PROTOCOL_VERSION /\ is_uuid (rr_rotation_id req) = true /\
  exists record response, st_docs s' !! RRotation (vw_worker_id caller) (rr_rotation_id req) = Some record /\
    field_str "worker_id" record = Ok (vw_worker_id caller) /\
    field_str "new_public_key" record = Ok (rr_new_ed25519_public_key req) /\
    json_get "response" record = Some response /\ RotateResponse_from_value response = Some resp.
Proof.
  intros H. unfold Identity.rotate, write_credential in H. unwind; subst; try discriminate; repeat (split; [done|]).
  - eauto 10.
  - eexists _, _. docs. by repeat split.
Qed.
Lemma rotate_answers caller req now s record response resp : rr_protocol_version req = PROTOCOL_VERSION ->
  is_uuid (rr_rotation_id req) = true ->
  st_docs s !! RRotation (vw_worker_id caller) (rr_rotation_id req) = Some record ->
  field_str "worker_id" record = Ok (vw_worker_id caller) ->
  field_str "new_public_key" record = Ok (rr_new_ed25519_public_key req) ->
  json_get "response" record = Some response -> RotateResponse_from_value response = Some resp ->
  readable (RRotation (vw_worker_id caller) (rr_rotation_id req)) s -> rotate caller (vw_worker_id caller) req now s = (Ok resp, s).
Proof.
  intros Hv Hu Hd Hw Hk Hr Hf Hun. unfold Identity.rotate, validate_uuid, bind, lift.
  rewrite Hv, Hu, !String.eqb_refl. cbn [negb]. rewrite (read_readable _ _ Hun), Hd, Hw, String.eqb_refl, Hk. unfold ret. rewrite String.eqb_refl, Hr. cbn.
  by rewrite Hf.
Qed.
Lemma rotate_unread caller req now s : rr_protocol_version req = PROTOCOL_VERSION -> is_uuid (rr_rotation_id req) = true ->
  st_unread s (PDoc (RRotation (vw_worker_id caller) (rr_rotation_id req))) = true ->
  rotate caller (vw_worker_id caller) req now s = (Err Storage, s).
Proof.
  intros Hv Hu Hun. unfold Identity.rotate, validate_uuid, bind, lift, read_doc, read_at. rewrite Hv, Hu, !String.eqb_refl. cbn [negb]. by rewrite Hun.
Qed.

Abbreviation recover_worker := (recover_worker sha256 b64_decode key_from_bytes verify_strict keyed_hash server_key).
Lemma recover_recorded req now s resp s' : recover_worker req now s = (Ok resp, s') ->
  is_uuid (rq_recovery_request_id req) = true /\ is_uuid (rq_worker_id req) = true /\
  exists record response, st_docs s' !! RRecovery (rq_recovery_request_id req) = Some record /\
    field_str "request_sha256" record = Ok (recovery_hash sha256 keyed_hash server_key req) /\
    json_get "response" record = Some response /\ RecoverResponse_from_value response = Some resp.
Proof.
  intros H. unfold Identity.recover_worker, complete_recovery in H. unwind; subst; repeat (split; [done|]); [by eauto 10|..].
  all: eexists _, _; docs; repeat split; apply RecoverResponse_roundtrip.
Qed.
Lemma recover_answers req now s record response resp :
  is_uuid (rq_recovery_request_id req) = true -> is_uuid (rq_worker_id req) = true ->
  st_docs s !! RRecovery (rq_recovery_request_id req) = Some record ->
  field_str "request_sha256" record = Ok (recovery_hash sha256 keyed_hash server_key req) ->
  json_get "response" record = Some response -> RecoverResponse_from_value response = Some resp ->
  readable (RRecovery (rq_recovery_request_id req)) s -> recover_worker req now s = (Ok resp, s).
Proof.
  intros Hi Hw Hd Hh Hr Hf Hun. unfold Identity.recover_worker, validate_uuid, bind, lift.
  rewrite Hi, Hw, (read_readable _ _ Hun), Hd, Hh, String.eqb_refl. cbn [negb]. rewrite Hr; cbn; by rewrite Hf.
Qed.
Lemma recover_unread req now s : is_uuid (rq_recovery_request_id req) = true -> is_uuid (rq_worker_id req) = true ->
  st_unread s (PDoc (RRecovery (rq_recovery_request_id req))) = true -> recover_worker req now s = (Err Storage, s).
Proof. intros Hi Hw Hun. unfold Identity.recover_worker, validate_uuid, bind, lift, read_doc, read_at. by rewrite Hi, Hw, Hun. Qed.

(** ** Who is let in *)

Abbreviation verify_request := (verify_request sha256 b64_decode key_from_bytes verify_strict).
Abbreviation signed_hash_of := (signed_hash_of sha256).

(** What a signed request must satisfy against the stored documents, and whom
    it then stands for. *)
Definition authentic (docs : gmap Rel Value) (sr : SignedRequest) (body : list Z) (now : Z) (who : VerifiedWorker) : Prop :=
  sq_protocol_version sr = PROTOCOL_VERSION /\
  is_uuid (sq_worker_id sr) = true /\ is_uuid (sq_credential_id sr) = true /\ is_uuid (sq_request_id sr) = true /\
  sq_body_sha256 sr = sha256_hex sha256 body /\
  exists credential worker encoded key,
    docs !! RCredential (sq_credential_id sr) = Some credential /\ docs !! RWorker (sq_worker_id sr) = Some worker /\
    field_str "worker_id" credential = Ok (sq_worker_id sr) /\ field_str "public_key" credential = Ok encoded /\
    decode_public_key b64_decode key_from_bytes encoded = Ok key /\
    verify_b64url b64_decode verify_strict key (signing_string_of sr) (sq_signature sr) = Ok tt /\
    json_get "revoked" credential = Some (JBool false) /\
    (forall t, and_then (json_get "revokes_at" credential) json_as_u64 = Some t -> now < t) /\
    field_str "status" worker = Ok "ACTIVE" /\
    now - REQUEST_FRESHNESS_SECS <= sq_request_timestamp sr <= now + REQUEST_FRESHNESS_SECS /\
    match docs !! RReplay (sq_credential_id sr) (sq_request_id sr) with
    | None => True
    | Some seen => field_str "signed_sha256" seen = Ok (signed_hash_of sr)
    end /\
    field_str "member_id" worker = Ok (vw_member_id who) /\
    vw_worker_id who = sq_worker_id sr /\ vw_credential_id who = sq_credential_id sr.

Lemma check_replay_ok sr now s u s' : check_replay sha256 sr now s = (Ok u, s') ->
  match st_docs s !! RReplay (sq_credential_id sr) (sq_request_id sr) with
  | None => True
  | Some seen => field_str "signed_sha256" seen = Ok (signed_hash_of sr)
  end /\
  exists seen, st_docs s' !! RReplay (sq_credential_id sr) (sq_request_id sr) = Some seen /\
    field_str "signed_sha256" seen = Ok (signed_hash_of sr).
Proof.
  unfold check_replay. intros H. unwind; subst.
  - eauto.
  - split; [done|]. eexists. docs. by split.
Qed.
Lemma verify_sound sr body now s who s' : verify_request sr body now s = (Ok who, s') ->
  authentic (st_docs s) sr body now who /\
  exists seen, st_docs s' !! RReplay (sq_credential_id sr) (sq_request_id sr) = Some seen /\
    field_str "signed_sha256" seen = Ok (signed_hash_of sr).
Proof.
  unfold Identity.verify_request. intros H. unwind. subst. 
  match goal with H : check_replay _ _ _ _ = _ |- _ => apply check_replay_ok in H as [Hb Ha] end.
  apply andb_true_iff in B0 as [[? ?]%andb_true_iff ?]. split; [|exact Ha].
  match goal with H : credential_refused _ _ = false |- _ => apply credential_refused_false in H as [? ?] end.
  repeat match goal with u : unit |- _ => destruct u end.
  repeat (split; [done|]). eexists _, _, _, _. repeat (split; [eassumption|]). apply Z.ltb_ge in B4. unfold REQUEST_FRESHNESS_SECS in *.
  split; [lia|]. auto.
Qed.
Lemma verify_complete sr body now s who : healthy s -> authentic (st_docs s) sr body now who ->
  exists s', verify_request sr body now s = (Ok who, s').
Proof.
  intros [Hw Hun] (Hp & H1 & H2 & H3 & Hb & credential & worker & encoded & key & Hc & Hwk & Hcw & Hpk & Hk & Hv & Hr1 & Hr2 & Hs & Ht & Hy & Hm & Hi & Hj).
  assert (credential_refused credential now = false) as Hr by by apply credential_refused_false.
  unfold Identity.verify_request, bind, lift, read_doc, read_at. rewrite Hp, H1, H2, H3, Hb, !String.eqb_refl. cbn [negb andb].
  rewrite !Hun, Hc. cbn [ok_or]. rewrite Hcw, String.eqb_refl. cbn [negb]. rewrite ?Hun, Hwk. cbn [ok_or]. rewrite Hpk, Hk, Hv, Hr, Hs. cbn [negb String.eqb Ascii.eqb Bool.eqb].
  rewrite (proj2 (Z.ltb_ge _ _)) by (unfold REQUEST_FRESHNESS_SECS in *; lia).
  unfold check_replay, bind, lift, read_doc, read_at, write_doc, next_write, ret. rewrite ?Hun.
  destruct (st_docs s !! RReplay _ _) as [seen|]; [rewrite Hy, String.eqb_refl; cbn [negb]|rewrite Hw].
  all: rewrite Hm, <- Hi, <- Hj; eexists; by destruct who.
Qed.

(** ** Tickets *)

Definition claimed (docs : gmap Rel Value) (secret by_ : string) : Prop :=
  exists claim, docs !! RTicketClaim (ticket_hash keyed_hash server_key secret) = Some claim /\ field_str "claimed_by" claim = Ok by_.
Lemma claim_ticket_ok purpose secret bound by_ now s ticket s' :
  claim_ticket keyed_hash server_key purpose secret bound by_ now s = (Ok ticket, s') ->
  st_docs s !! RTicket (ticket_hash keyed_hash server_key secret) = Some ticket /\
  claimed (st_docs s') secret by_ /\ (forall other, claimed (st_docs s) secret other -> other = by_).
Proof.
  unfold claim_ticket. intros H. unwind; subst; (split; [done|]).
  all: split; [eexists; by docs|]; intros other (c & Hc & Ho); simplify_eq; congruence.
Qed.
Lemma claimed_stays allowed s s' secret by_ : rtc (called allowed) s s' -> claimed (st_docs s) secret by_ -> claimed (st_docs s') secret by_.
Proof. intros Hs (c & Hc & Hb). exists c. split; [|done]. by eapply (called_keeps allowed s s'). Qed.

Lemma enroll_claims req now s resp s' : enroll req now s = (Ok resp, s') ->
  st_docs s !! REnrollment (er_enrollment_request_id req) = None ->
  claimed (st_docs s') (er_enrollment_ticket req) (er_enrollment_request_id req) /\
  (forall other, claimed (st_docs s) (er_enrollment_ticket req) other -> other = er_enrollment_request_id req).
Proof.
  intros H Hn. unfold Identity.enroll, complete_enrollment, write_credential in H. unwind; subst; [congruence|].
  match goal with H : claim_ticket _ _ _ _ _ _ _ _ = _ |- _ => apply claim_ticket_ok in H as (_ & (c & Hc & Hb) & Ho) end.
  split; [|exact Ho]. exists c. by docs.
Qed.
Lemma complete_recovery_keeps_claims req now h :
  preserves (keeps (RTicketClaim h)) (complete_recovery sha256 keyed_hash server_key req now).
Proof. unfold complete_recovery, write_credential. walk. Qed.
Lemma recover_claims req now s resp s' : recover_worker req now s = (Ok resp, s') ->
  st_docs s !! RRecovery (rq_recovery_request_id req) = None ->
  claimed (st_docs s') (rq_recovery_ticket req) (rq_recovery_request_id req) /\
  (forall other, claimed (st_docs s) (rq_recovery_ticket req) other -> other = rq_recovery_request_id req).
Proof.
  intros H Hn. unfold Identity.recover_worker in H. unwind; subst; [congruence|].
  match goal with H : claim_ticket _ _ _ _ _ _ _ _ = _ |- _ => apply claim_ticket_ok in H as (_ & (c & Hc & Hb) & Ho) end.
  split; [|exact Ho]. exists c. split; [|done]. by eapply complete_recovery_keeps_claims.
Qed.

(** ** A revocation for security *)

Definition barred_doc (doc : Value) : Prop := is_security_revoked doc = true /\ field_str "status" doc = Ok "REVOKED".
Definition security_revoked (docs : gmap Rel Value) (w : string) : Prop := exists doc, docs !! RWorker w = Some doc /\ barred_doc doc.
(** Revoked for security, with the enrollment [id] that made the worker on record. *)
Definition barred (w id : string) (s : Store) : Prop := security_revoked (st_docs s) w /\ is_Some (st_docs s !! REnrollment id).
Definition stays_barred (w id : string) (s s' : Store) : Prop := barred w id s -> barred w id s'.
#[local] Instance stays_barred_preorder w id : PreOrder (stays_barred w id).
Proof. unfold stays_barred. split; [by intros s H|]. intros s1 s2 s3 H1 H2 H. auto. Qed.

Lemma barred_docs w id s s' : st_docs s' = st_docs s -> stays_barred w id s s'.
Proof. unfold stays_barred, barred. by intros ->. Qed.
Lemma barred_write w id r v : (r = RWorker w -> barred_doc v) -> preserves (stays_barred w id) (write_doc r v).
Proof.
  intros Hv s x s' H. destruct (write_doc_docs _ _ _ _ _ H) as [E|[E _]]; [|by apply barred_docs].
  intros [(doc & Hd & Hs) Hr]. unfold barred. rewrite E. split.
  - destruct (decide (r = RWorker w)) as [->|Hne]; [exists v; rewrite lookup_insert_eq; auto|].
    exists doc. by rewrite lookup_insert_ne.
  - rewrite lookup_insert_is_Some'. auto.
Qed.
Lemma barred_audit w id event now details : preserves (stays_barred w id) (audit event now details).
Proof. intros s x s' H. eapply barred_docs, audit_docs, H. Qed.
(** What a read tells of a barred worker. *)
Lemma barred_read {A} w id r (F : option Value -> M A) :
  (forall v, (r = RWorker w -> barred_doc v) -> preserves (stays_barred w id) (F (Some v))) ->
  (r <> RWorker w -> r <> REnrollment id -> preserves (stays_barred w id) (F None)) ->
  preserves (stays_barred w id) (bind (read_doc r) F).
Proof.
  intros Hs Hn. apply preserves_read_bind; [apply _|]. intros v s x s' Hv H Hb. pose proof Hb as [(doc & Hd & Hr) [e He]].
  destruct v as [v|].
  - eapply Hs; [|exact H|exact Hb]. intros ->. congruence.
  - eapply Hn; [| |exact H|exact Hb]; intros ->; congruence.
Qed.
Lemma barred_revoke_others w e id ids revoked : preserves (stays_barred w e) (revoke_others id ids revoked).
Proof.
  induction ids as [|i ids IH] in revoked |- *; cbn [revoke_others]; [apply preserves_ret, _|].
  apply preserves_if; intros _; [apply IH|]. apply barred_read; [|intros _ _; apply IH].
  intros v _. apply preserves_bind; [apply _| |intros _; apply IH].
  assert (preserves (stays_barred w e) (write_doc (RCredential i) (set_field "revoked" (JBool true) v))) as Hw by by apply barred_write.
  destruct (json_get "revoked" v) as [[]|]; try exact Hw. case_match; [apply preserves_ret, _|exact Hw].
Qed.
Lemma barred_check_command w id command_id content : preserves (stays_barred w id) (check_command sha256 command_id content).
Proof.
  unfold check_command. intros s r s' H. apply barred_docs. revert H. unfold bind, lift, read_doc, read_at, ret, fail.
  by repeat case_match; intros ?; simplify_eq.
Qed.
(** Left out are a reinstatement of the worker, and an enrollment under another
    request id that the keyed hash sends to the same worker. *)
Definition not_reinstating (w id : string) (c : Call) : Prop :=
  match c with
  | CReinstate worker_id _ _ _ => worker_id <> w
  | CEnroll req _ => issue_uuid keyed_hash server_key ["worker"; er_enrollment_request_id req] = w -> er_enrollment_request_id req = id
  | _ => True
  end.

Lemma security_kept doc actor : is_security_revoked doc = true ->
  barred_doc (set_field "revoked_by" (JString actor)
    (set_field "revoked_reason" (JString (RevocationReason_as_str Security)) (set_field "status" (JString "REVOKED") doc))).
Proof.
  unfold barred_doc, is_security_revoked, field_str. destruct doc; try discriminate. intros _.
  cbn [set_field json_get]. split.
  - rewrite bt_get_insert_ne by done. by rewrite bt_get_insert_eq.
  - rewrite !bt_get_insert_ne by done. by rewrite bt_get_insert_eq.
Qed.

Ltac walk_barred :=
  repeat (intros;
    first [ apply barred_audit
          | apply preserves_ret; apply _ | apply preserves_fail; apply _ | apply preserves_lift; apply _
          | apply preserves_lift_bind; [apply _|intros ? ?; simplify_eq/=]
          | apply barred_read
          | apply preserves_worker_credentials; apply _
          | apply barred_check_command | apply barred_revoke_others
          | apply preserves_bind; [apply _| |intros]
          | apply preserves_audited; [apply _| |]
          | apply preserves_if; intros
          | match goal with |- preserves _ (match ?x with Some _ => _ | None => _ end) => destruct x end
          | apply barred_write; congruence ]).
Lemma call_barred w id c : not_reinstating w id c -> preserves (stays_barred w id) (call c).
Proof.
  intros Hc. destruct c; open_call; walk_barred.
  - apply barred_write. intros [= Hw]. cbn [not_reinstating] in Hc. rewrite (Hc Hw) in *. done.
  - apply barred_write. intros Hw. destruct reason.
    2: { apply security_kept. by match goal with H : RWorker _ = _ -> barred_doc _ |- _ => destruct (H Hw) end. }
    match goal with H1 : RWorker _ = _ -> _, H0 : _ = false |- _ => rewrite (proj1 (H1 Hw)) in H0; discriminate end.
  - apply barred_write. intros Hw.
    match goal with H1 : RWorker _ = _ -> _, H0 : _ = false |- _ => rewrite (proj1 (H1 Hw)) in H0; discriminate end.
Qed.
Lemma called_barred w id s s' : rtc (called (not_reinstating w id)) s s' -> stays_barred w id s s'.
Proof. apply called_preserves; [apply _|apply call_barred|apply barred_docs]. Qed.

(** ** One assignment per benchmark *)

Definition assigned (docs : gmap Rel Value) (benchmark_id assignment_id : string) : Prop :=
  exists doc, docs !! RByBenchmark (sha256_hex sha256 (as_bytes benchmark_id)) = Some doc /\
    field_str "assignment_id" doc = Ok assignment_id.
Definition stays_assigned (b a : string) (s s' : Store) : Prop := assigned (st_docs s) b a -> assigned (st_docs s') b a.
#[local] Instance stays_assigned_preorder b a : PreOrder (stays_assigned b a).
Proof. unfold stays_assigned. split; [by intros s H|]. intros s1 s2 s3 H1 H2 H. auto. Qed.
Lemma keeps_assigned {A} b a (m : M A) :
  preserves (keeps (RByBenchmark (sha256_hex sha256 (as_bytes b)))) m -> preserves (stays_assigned b a) m.
Proof. intros Hm s r s' H (doc & Hd & Ha). exists doc. split; [by eapply Hm|done]. Qed.
Lemma assigned_write b a r v : (r = RByBenchmark (sha256_hex sha256 (as_bytes b)) -> field_str "assignment_id" v = Ok a) ->
  preserves (stays_assigned b a) (write_doc r v).
Proof.
  intros Hv. destruct (decide (r = RByBenchmark (sha256_hex sha256 (as_bytes b)))) as [->|Hne]; [|by apply keeps_assigned, keeps_write].
  intros s x s' H Ha. destruct (write_doc_docs _ _ _ _ _ H) as [E|[E _]]; unfold assigned; rewrite E; [|done].
  exists v. rewrite lookup_insert_eq. auto.
Qed.

Abbreviation issue_assignment := (issue_assignment sha256 keyed_hash server_key).
(** The part of the issuance that decides whether the benchmark is taken, and
    writes. *)
Lemma assigned_tail {A} b a rel id (W : M A) :
  (rel = RByBenchmark (sha256_hex sha256 (as_bytes b)) -> id = a -> preserves (stays_assigned b a) W) ->
  (rel <> RByBenchmark (sha256_hex sha256 (as_bytes b)) -> preserves (stays_assigned b a) W) ->
  preserves (stays_assigned b a)
    (bind (read_doc rel) (fun existing =>
      bind (match existing with
            | Some existing => bind (lift (field_str "assignment_id" existing)) (fun other => ret (negb (String.eqb other id)))
            | None => ret false
            end) (fun taken => if (taken : bool) then fail IdempotencyConflict else W))).
Proof.
  intros He Hn s r s'. unfold bind at 1, read_doc, read_at. destruct (st_unread s _); [intros [= <- <-]; reflexivity|]. destruct (decide (rel = RByBenchmark (sha256_hex sha256 (as_bytes b)))) as [->|Hne].
  - intros H (doc & Hd & Ha). revert H. rewrite Hd. unfold bind, lift, ret. rewrite Ha. destruct (String.eqb_spec a id) as [<-|Hai]; cbn [negb].
    + intros H. eapply He; [done|done|exact H|]. by exists doc.
    + intros [= <- <-]. by exists doc.
  - intros H. 
    eapply (preserves_bind (stays_assigned b a) _ (fun taken : bool => if taken then fail IdempotencyConflict else W));
      [|intros [|]; [apply preserves_fail, _|by apply Hn]|exact H].
    destruct (st_docs s !! rel); [|apply preserves_ret, _]. apply preserves_lift_bind; [apply _|]. intros ? _. apply preserves_ret, _.
Qed.
Lemma issue_stays_assigned b a id facts now : preserves (stays_assigned b a) (issue_assignment id facts now).
Proof.
  unfold Identity.issue_assignment, slot_grant.
  repeat (intros;
    first [ apply preserves_lift_bind; [apply _|intros ? ?] | apply preserves_if; intros _
          | apply preserves_fail, _ | apply preserves_lift, _ | apply preserves_ret, _ | apply assigned_tail
          | match goal with |- preserves _ (bind (bind _ _) _) => apply preserves_bind; [apply _| |intros] end
          | apply preserves_read_any; [apply _|intros [?|]] | apply keeps_assigned, keeps_audit
          | apply assigned_write; (congruence || (intros ?; subst; reflexivity))
          | apply preserves_bind; [apply _| |intros _] ]).
Qed.
Definition issues (c : Call) : bool := match c with CIssueAssignment _ _ _ => true | _ => false end.
Lemma call_keeps_benchmark c h : issues c = false -> preserves (keeps (RByBenchmark h)) (call c).
Proof. destruct c; intros Hi; try discriminate Hi; open_call; walk. Qed.
Lemma called_assigned b a s s' : rtc (called any) s s' -> stays_assigned b a s s'.
Proof.
  apply called_preserves; [apply _| |].
  - intros c _. destruct (issues c) eqn:E; [|by apply keeps_assigned, call_keeps_benchmark].
    destruct c; try discriminate E. apply preserves_bind; [apply _|apply issue_stays_assigned|intros _; apply preserves_ret, _].
  - intros s1 s2 Hd. unfold stays_assigned. by rewrite Hd.
Qed.
Lemma issue_assigns id facts now s grant s' : issue_assignment id facts now s = (Ok grant, s') ->
  st_docs s !! RAssignmentIssuance id = None ->
  ag_assignment_id grant = issue_uuid keyed_hash server_key ["assignment"; id] /\
  ag_benchmark_id grant = af_benchmark_id facts /\ ag_worker_id grant = af_worker_id facts /\
  assigned (st_docs s') (af_benchmark_id facts) (ag_assignment_id grant) /\
  (forall other, assigned (st_docs s) (af_benchmark_id facts) other -> other = ag_assignment_id grant).
Proof.
  intros H Hn. unfold Identity.issue_assignment, slot_grant in H. unwind; subst; try congruence.
  all: repeat (split; [done|]); split; [eexists; docs; by split|].
  all: intros other (doc & Hd & Ho); simplify_eq/=.
  match goal with H : negb _ = false |- _ => apply negb_false_iff, String.eqb_eq in H end. congruence.
Qed.

(** ** An interrupted enrollment *)

(** What an enrollment of [req] by [ticket] needs, the time apart. *)
Definition enrollable (req : EnrollRequest) (ticket : Value) (member_id : string) : Prop :=
  validate_enroll req = Ok tt /\
  existsb (String.eqb PROTOCOL_VERSION) (er_supported_protocol_versions req) = true /\
  existsb (String.eqb PACKAGE_FORMAT) (er_supported_package_formats req) = true /\
  (exists key, decode_public_key b64_decode key_from_bytes (er_ed25519_public_key req) = Ok key /\
    verify_b64url b64_decode verify_strict key
      (enrollment_signing_string sha256 (er_enrollment_request_id req) (er_enrollment_ticket req) (er_ed25519_public_key req))
      (er_ed25519_key_proof req) = Ok tt) /\
  field_str "purpose" ticket = Ok PURPOSE_ENROLLMENT /\ field_str "member_id" ticket = Ok member_id.
(** The identities an enrollment of [req] gives. *)
Definition enrolls_as (req : EnrollRequest) (member_id : string) (resp : EnrollResponse) : Prop :=
  es_member_id resp = member_id /\ es_worker_id resp = issue_uuid keyed_hash server_key ["worker"; er_enrollment_request_id req] /\
  es_credential_id resp = issue_uuid keyed_hash server_key ["credential"; er_enrollment_request_id req].
(** An enrollment of [req] is complete: the worker is there, active and of the
    member, with a credential that holds the key of the request, is listed for the
    worker, and is neither revoked nor due to be; the ticket is spent on it; and
    its answer is on record. *)
Definition established (req : EnrollRequest) (member_id : string) (docs : gmap Rel Value) : Prop :=
  let w := issue_uuid keyed_hash server_key ["worker"; er_enrollment_request_id req] in
  let c := issue_uuid keyed_hash server_key ["credential"; er_enrollment_request_id req] in
  (exists worker, docs !! RWorker w = Some worker /\ field_str "worker_id" worker = Ok w /\ field_str "member_id" worker = Ok member_id /\
    field_str "worker_name" worker = Ok (er_worker_name req) /\ field_str "status" worker = Ok "ACTIVE") /\
  (exists credential, docs !! RCredential c = Some credential /\ field_str "worker_id" credential = Ok w /\
    field_str "public_key" credential = Ok (er_ed25519_public_key req) /\ json_get "revoked" credential = Some (JBool false) /\
    json_get "revokes_at" credential = Some JNull) /\
  is_Some (docs !! RWorkerCredential w c) /\
  claimed docs (er_enrollment_ticket req) (er_enrollment_request_id req) /\
  exists record response resp, docs !! REnrollment (er_enrollment_request_id req) = Some record /\
    field_str "request_sha256" record = Ok (request_hash_of sha256 enroll_text req) /\ json_get "response" record = Some response /\
    EnrollResponse_from_value response = Some resp /\ enrolls_as req member_id resp.
(** The documents of an enrollment of [req] that has gone some way: its ticket,
    unclaimed or claimed by it, and no record, or its own with all it stands for. *)
Definition under_way (req : EnrollRequest) (ticket : Value) (member_id : string) (s : Store) : Prop :=
  st_docs s !! RTicket (ticket_hash keyed_hash server_key (er_enrollment_ticket req)) = Some ticket /\
  (forall claim, st_docs s !! RTicketClaim (ticket_hash keyed_hash server_key (er_enrollment_ticket req)) = Some claim ->
    field_str "claimed_by" claim = Ok (er_enrollment_request_id req)) /\
  (is_Some (st_docs s !! REnrollment (er_enrollment_request_id req)) -> established req member_id (st_docs s)).
Definition stays_under_way req ticket member_id (s s' : Store) : Prop :=
  under_way req ticket member_id s -> under_way req ticket member_id s'.
#[local] Instance stays_under_way_preorder req ticket m : PreOrder (stays_under_way req ticket m).
Proof. unfold stays_under_way. split; [by intros s H|]. intros s1 s2 s3 H1 H2 H. auto. Qed.

Lemma under_way_docs req ticket m s s' : st_docs s' = st_docs s -> stays_under_way req ticket m s s'.
Proof. unfold stays_under_way, under_way. by intros ->. Qed.
Lemma under_way_claim req ticket m v : field_str "claimed_by" v = Ok (er_enrollment_request_id req) ->
  preserves (stays_under_way req ticket m) (write_doc (RTicketClaim (ticket_hash keyed_hash server_key (er_enrollment_ticket req))) v).
Proof.
  intros Hv s x s' H. destruct (write_doc_docs _ _ _ _ _ H) as [E|[E _]]; [|by apply under_way_docs].
  intros (U1 & U2 & U3). unfold under_way, established, claimed. rewrite E. split_and!.
  - by rewrite lookup_insert_ne.
  - intros claim [[_ <-]|[_ Hc]]%lookup_insert_Some; auto.
  - intros [record Hr]. rewrite lookup_insert_ne in Hr by done.
    destruct (U3 ltac:(by eexists)) as ((w & Hw & ?) & (c & Hc & ?) & ? & _ & (rc & rs & rp & Hrc & ?)). split_and!.
    + exists w. by rewrite lookup_insert_ne.
    + exists c. by rewrite lookup_insert_ne.
    + by rewrite lookup_insert_ne.
    + exists v. by rewrite lookup_insert_eq.
    + exists rc, rs, rp. by rewrite lookup_insert_ne.
Qed.
Lemma under_way_audit req ticket m event now details : preserves (stays_under_way req ticket m) (audit event now details).
Proof. intros s x s' H. eapply under_way_docs, audit_docs, H. Qed.

Ltac walk_enrollment :=
  repeat (intros;
    first [ apply under_way_audit
          | apply preserves_ret; apply _ | apply preserves_fail; apply _ | apply preserves_lift; apply _
          | apply preserves_lift_bind; [apply _|intros ? ?; simplify_eq/=]
          | apply preserves_read_any; [apply _|]
          | apply preserves_audited; [apply _| |]
          | apply preserves_if; intros
          | match goal with |- preserves _ (match ?x with Some _ => _ | None => _ end) => destruct x end
          | apply under_way_claim; reflexivity
          | apply preserves_bind; [apply _| |intros] ]).
Lemma claim_under_way req ticket m now : preserves (stays_under_way req ticket m)
  (claim_ticket keyed_hash server_key PURPOSE_ENROLLMENT (er_enrollment_ticket req) None (er_enrollment_request_id req) now).
Proof. unfold claim_ticket. walk_enrollment. Qed.
(** The writes that follow the claimed ticket, in their order. *)
Definition enrollment_writes (req : EnrollRequest) (member_id : string) (now : Z) : list (Rel * Value) :=
  let w := issue_uuid keyed_hash server_key ["worker"; er_enrollment_request_id req] in
  let c := issue_uuid keyed_hash server_key ["credential"; er_enrollment_request_id req] in
  [(RCredential c, json_object [("credential_id", JString c); ("worker_id", JString w); ("public_key", JString (er_ed25519_public_key req));
      ("revoked", JBool false); ("revokes_at", JNull); ("created_at", json_u64 now)]);
   (RWorkerCredential w c, json_object [("credential_id", JString c)]);
   (RWorker w, worker_doc w member_id (er_worker_name req) now);
   (REnrollment (er_enrollment_request_id req), json_object [("request_sha256", JString (request_hash_of sha256 enroll_text req));
      ("response", EnrollResponse_to_value (MkEnrollResponse PROTOCOL_VERSION (er_enrollment_request_id req) PACKAGE_FORMAT member_id w c "ACTIVE" (rfc3339_utc now)))])].
Definition written (docs : gmap Rel Value) (l : list (Rel * Value)) : gmap Rel Value := foldl (fun docs kv => <[kv.1 := kv.2]> docs) docs l.
Lemma write_more {A} rel v (K : M A) s r s' l rest :
  bind (write_doc rel v) (fun _ => K) s = (r, s') ->
  (forall s1, st_docs s1 = <[rel := v]> (st_docs s) -> K s1 = (r, s') -> exists k, st_docs s' = written (st_docs s1) (take k rest)) ->
  l = (rel, v) :: rest -> exists k, st_docs s' = written (st_docs s) (take k l).
Proof.
  unfold bind. destruct (write_doc rel v s) as [[u|e] s1] eqn:E; apply write_doc_docs in E as [E|[E Hx]]; intros H HK ->; simplify_eq.
  - destruct (HK s1 E H) as [k Hk]. exists (S k). by rewrite Hk, E.
  - exists 1%nat. by rewrite E.
  - exists 0%nat. by rewrite E.
Qed.
Lemma complete_enrollment_writes req ticket m now s r s' : field_str "member_id" ticket = Ok m ->
  complete_enrollment sha256 keyed_hash enroll_text server_key req ticket now s = (r, s') ->
  exists k, st_docs s' = written (st_docs s) (take k (enrollment_writes req m now)).
Proof.
  intros Hm. unfold complete_enrollment, write_credential. unfold bind at 1, lift. rewrite Hm, bind_assoc. intros H.
  eapply write_more; [exact H| |reflexivity]. intros s1 _ H1. eapply write_more; [exact H1| |reflexivity]. intros s2 _ H2.
  eapply write_more; [exact H2| |reflexivity]. intros s3 _ H3. eapply write_more; [exact H3| |reflexivity]. intros s4 _ H4.
  exists 0%nat. unfold bind, ret in H4. destruct (audit _ _ _ s4) as [[]?] eqn:E; apply audit_docs in E; by simplify_eq.
Qed.
Lemma complete_under_way req ticket m now s r s' : field_str "member_id" ticket = Ok m ->
  claimed (st_docs s) (er_enrollment_ticket req) (er_enrollment_request_id req) ->
  complete_enrollment sha256 keyed_hash enroll_text server_key req ticket now s = (r, s') -> stays_under_way req ticket m s s'.
Proof.
  intros Hm Hc H (U1 & U2 & U3). destruct (complete_enrollment_writes _ _ _ _ _ _ _ Hm H) as [k E].
  assert (Hsame : forall rel, rel = RTicket (ticket_hash keyed_hash server_key (er_enrollment_ticket req)) \/
    rel = RTicketClaim (ticket_hash keyed_hash server_key (er_enrollment_ticket req)) -> st_docs s' !! rel = st_docs s !! rel).
  { intros rel [-> | ->]; rewrite E; destruct k as [|[|[|[|k]]]]; cbn; rewrite ?take_nil; cbn; by rewrite ?lookup_insert_ne by done. }
  split_and!; [by rewrite Hsame by auto|intros claim; rewrite Hsame by auto; apply U2|].
  destruct Hc as (claim & Hc & Hb). rewrite <- Hsame in Hc by auto. unfold established. intros Hrec.
  assert (claimed (st_docs s') (er_enrollment_ticket req) (er_enrollment_request_id req)) by (by exists claim).
  rewrite E in *. clear E Hsame.
  destruct k as [|[|[|[|k]]]]; cbn [take enrollment_writes written foldl fst snd] in *; rewrite ?take_nil in *; cbn [foldl] in *.
  1-4: destruct Hrec as [record Hr]; simplify_map_eq; 
    destruct (U3 ltac:(by eexists)) as ((w & Hw & ?) & (c & Hcr & ?) & [i Hi] & _ & (rc & rs & rp & Hrc & ?)); split_and!;
    [eexists; simplify_map_eq; split; [done|]; first [done|by repeat split]|eexists; simplify_map_eq; split; [done|]; first [done|by repeat split]
    |eexists; simplify_map_eq; reflexivity|done|exists rc, rs, rp; simplify_map_eq; done].
  split_and!; [..|done|].
  1-3: eexists; simplify_map_eq; by repeat split.
  eexists _, _, _. simplify_map_eq. repeat (split; [reflexivity|]). by repeat split.
Qed.
Lemma enroll_under_way req ticket m now : enrollable req ticket m -> preserves (stays_under_way req ticket m) (enroll req now).
Proof.
  intros (_ & _ & _ & _ & _ & Hm). unfold Identity.enroll.
  apply preserves_lift_bind; [apply _|]. intros _ _. apply preserves_read_any; [apply _|]. intros [record|]; [walk_enrollment|].
  apply preserves_if; intros _; [apply preserves_fail, _|]. apply preserves_lift_bind; [apply _|]. intros key _.
  apply preserves_bind; [apply _|walk_enrollment|]. intros _. clear key.
  intros s r s' H U. unfold bind in H at 1.
  destruct (audited (claim_ticket _ _ _ _ _ _ _) _ _ _ s) as [[tk|e] s1] eqn:E.
  - pose proof E as [Et [Hc _]]%audited_ok%claim_ticket_ok. assert (tk = ticket) as -> by (destruct U as [U _]; congruence).
    eapply complete_under_way; [exact Hm|exact Hc|exact H|].
    eapply (preserves_audited (stays_under_way req ticket m)); [apply claim_under_way|apply under_way_audit|exact E|exact U].
  - simplify_eq. eapply (preserves_audited (stays_under_way req ticket m)); [apply claim_under_way|apply under_way_audit|exact E|exact U].
Qed.

Lemma enroll_completes req ticket m now s t : enrollable req ticket m -> under_way req ticket m s ->
  field_u64 "expires_at" ticket = Ok t -> now < t -> healthy s ->
  exists resp s', enroll req now s = (Ok resp, s') /\ enrolls_as req m resp.
Proof.
  intros (Hv & Hp & Hf & (key & Hk & Hs) & Hu & Hm) (U1 & U2 & U3) Ht Hn [Hw Hun]. destruct s as [docs au ws un]. cbn [st_docs st_writes st_unread] in *. subst ws.
  destruct (docs !! REnrollment (er_enrollment_request_id req)) as [record|] eqn:Hr.
  { destruct (U3 ltac:(by eexists)) as (_ & _ & _ & _ & rc & response & resp & Hrc & Hh & Hg & Hd & Ha). exists resp, (MkStore docs au [] un). split; [|exact Ha].
    eapply enroll_answers; try done. apply Hun. }
  unfold Identity.enroll, bind at 1, lift at 1. rewrite Hv. unfold bind at 1, read_doc at 1, read_at at 1. cbn [st_docs st_unread]. rewrite Hun, Hr, Hp, Hf. cbn [negb orb].
  unfold bind at 1, lift at 1. rewrite Hk. unfold bind at 1, audited at 1, lift at 1. rewrite Hs.
  unfold bind at 1, audited at 1, claim_ticket, bind, lift, read_doc, read_at. cbn [st_docs st_unread]. rewrite !Hun, U1. cbn [ok_or]. rewrite Hu, String.eqb_refl, Ht.
  cbn [negb]. rewrite (proj2 (Z.leb_gt _ _)) by lia. unfold complete_enrollment, bind, lift. cbn [st_docs st_unread]. rewrite !Hun.
  destruct (docs !! RTicketClaim _) as [claim|] eqn:Hc.
  - rewrite (U2 _ eq_refl), String.eqb_refl. unfold ret. rewrite Hm. eexists _, _. split; [reflexivity|]. by repeat split.
  - rewrite write_doc_done. unfold ret. rewrite Hm. eexists _, _. split; [reflexivity|]. by repeat split.
Qed.
(** One try of the enrollment, or a change of the disk's behaviour. *)
Inductive tried (req : EnrollRequest) (s s' : Store) : Prop :=
| tried_enroll now r : enroll req now s = (r, s') -> tried req s s'
| tried_disk : st_docs s' = st_docs s -> tried req s s'.
Lemma tried_under_way req ticket m s s' : enrollable req ticket m -> rtc (tried req) s s' -> stays_under_way req ticket m s s'.
Proof.
  intros He. induction 1 as [|s1 s2 s3 Ht _ IH]; [reflexivity|]. etransitivity; [|exact IH].
  destruct Ht as [now r H|H]; [by eapply enroll_under_way|by apply under_way_docs].
Qed.

(** ** Theorems *)

(** A record the service writes once (a member, a ticket's claim, an
    enrollment, a seen request, a rotation, a command, a recovery, a slot
    registration, an offer, an issuance, an upload binding, the server key) is
    there unchanged after any sequence of calls, with any write of any of them
    failing before or after it took effect. *)
Theorem records_are_permanent s s' k v : rtc (called any) s s' -> write_once k = true ->
  st_docs s !! k = Some v -> st_docs s' !! k = Some v.
Proof. intros Hs Hk. exact (called_keeps any s s' k Hk Hs v). Qed.

(** C17. A caller that lost the answer of an enrollment, a rotation or a recovery and
    asks again gets that answer, whatever happened in between and however late, as
    soon as the record of the answer can be read: the call depends on no clock and
    no ticket, writes nothing, and no other file matters to it.  While the record
    cannot be read, the call is refused as a storage error and writes nothing. *)
Theorem answers_are_repeated s s1 s2 : rtc (called any) s1 s2 ->
  (forall req now now' resp, enroll req now s = (Ok resp, s1) ->
     enroll req now' s2 = (if st_unread s2 (PDoc (REnrollment (er_enrollment_request_id req))) then Err Storage else Ok resp, s2)) /\
  (forall caller path req now now' resp, rotate caller path req now s = (Ok resp, s1) ->
     rotate caller path req now' s2 = (if st_unread s2 (PDoc (RRotation (vw_worker_id caller) (rr_rotation_id req))) then Err Storage else Ok resp, s2)) /\
  (forall req now now' resp, recover_worker req now s = (Ok resp, s1) ->
     recover_worker req now' s2 = (if st_unread s2 (PDoc (RRecovery (rq_recovery_request_id req))) then Err Storage else Ok resp, s2)).
Proof.
  intros Hs. pose proof (fun k Hk => called_keeps any s1 s2 k Hk Hs) as Hp. split_and!.
  - intros req now now' resp (Hv & rec & r & Hd & Hh & Hr & Hf)%enroll_recorded. destruct (st_unread _ _) eqn:Hun; [by apply enroll_unread|].
    eapply enroll_answers; eauto. by apply Hp.
  - intros caller path req now now' resp (-> & Hv & Hu & rec & r & Hd & Hw & Hk & Hr & Hf)%rotate_recorded.
    destruct (st_unread _ _) eqn:Hun; [by apply rotate_unread|]. eapply rotate_answers; eauto. by apply Hp.
  - intros req now now' resp (Hi & Hw & rec & r & Hd & Hh & Hr & Hf)%recover_recorded. destruct (st_unread _ _) eqn:Hun; [by apply recover_unread|].
    eapply recover_answers; eauto. by apply Hp.
Qed.

(** C14. On a healthy disk a signed request is accepted exactly when it is authentic:
    the current protocol version, the body that was signed, a stored credential
    of the named worker with a key that verifies the signature over every signed
    field, neither revoked nor past its grace, the worker active, the timestamp
    within five minutes either way, the request id unused or used for this same
    request; and the member it is accepted for is the one on the worker's
    document. *)
Theorem authentication_exact s sr body now who : healthy s ->
  (exists s', verify_request sr body now s = (Ok who, s')) <-> authentic (st_docs s) sr body now who.
Proof. intros Hw. split; [intros [s' H]; apply (verify_sound _ _ _ _ _ _ H)|by apply verify_complete]. Qed.

(** A request id of a credential stands for one request for good: of two
    requests accepted under it, at any times, both have the same signed text
    digest. *)
Theorem request_id_is_spent sr sr' body body' now now' who who' s s1 s2 s3 :
  verify_request sr body now s = (Ok who, s1) -> rtc (called any) s1 s2 -> verify_request sr' body' now' s2 = (Ok who', s3) ->
  sq_credential_id sr' = sq_credential_id sr -> sq_request_id sr' = sq_request_id sr -> signed_hash_of sr' = signed_hash_of sr.
Proof.
  intros [_ (seen & Hd & Hh)]%verify_sound Hs [Ha _]%verify_sound Hc Hi.
  destruct Ha as (_ & _ & _ & _ & _ & c & w & e & k & Ha). rewrite Hc, Hi in Ha.
  rewrite (called_keeps any s1 s2 (RReplay (sq_credential_id sr) (sq_request_id sr)) eq_refl Hs _ Hd) in Ha. destruct_and!. congruence.
Qed.

(** A ticket is spent by the request that used it: once an enrollment or a
    recovery has succeeded, no other request of its kind with that ticket ever
    does, unless it had been answered before. *)
Theorem ticket_is_spent s s1 s2 : rtc (called any) s1 s2 ->
  (forall req req' now now' resp, enroll req now s = (Ok resp, s1) ->
    st_docs s !! REnrollment (er_enrollment_request_id req) = None ->
    er_enrollment_ticket req' = er_enrollment_ticket req -> st_docs s2 !! REnrollment (er_enrollment_request_id req') = None ->
    forall resp' s3, enroll req' now' s2 <> (Ok resp', s3)) /\
  (forall req req' now now' resp, recover_worker req now s = (Ok resp, s1) ->
    st_docs s !! RRecovery (rq_recovery_request_id req) = None ->
    rq_recovery_ticket req' = rq_recovery_ticket req -> st_docs s2 !! RRecovery (rq_recovery_request_id req') = None ->
    forall resp' s3, recover_worker req' now' s2 <> (Ok resp', s3)).
Proof.
  intros Hs. pose proof (fun k Hk => called_keeps any s1 s2 k Hk Hs) as Hp. split.
  - intros req req' now now' resp H Hn Ht Hn' resp' s3 H'. pose proof (enroll_claims _ _ _ _ _ H Hn) as [Hc _].
    apply enroll_claims in H' as [_ Ho]; [|done]. rewrite Ht in Ho. pose proof (Ho _ (claimed_stays any _ _ _ _ Hs Hc)) as E.
    apply enroll_recorded in H as (_ & rec & r & Hd & _). apply Hp in Hd; [congruence|done].
  - intros req req' now now' resp H Hn Ht Hn' resp' s3 H'. pose proof (recover_claims _ _ _ _ _ H Hn) as [Hc _].
    apply recover_claims in H' as [_ Ho]; [|done]. rewrite Ht in Ho. pose proof (Ho _ (claimed_stays any _ _ _ _ Hs Hc)) as E.
    apply recover_recorded in H as (_ & _ & rec & r & Hd & _). apply Hp in Hd; [congruence|done].
Qed.

(** C15. A worker revoked for security whose enrollment is on record stays revoked
    through every call but a reinstatement of that worker: no rotation,
    recovery, retried enrollment, milder revocation or failed write lets it
    back, and none of its requests is accepted.  The calls made are taken not to
    contain an enrollment under another request id whose keyed hash is the same
    worker id. *)
Theorem security_revocation_stands w id s s' : barred w id s -> rtc (called (not_reinstating w id)) s s' ->
  barred w id s' /\
  (forall sr body now who s'', sq_worker_id sr = w -> verify_request sr body now s' <> (Ok who, s'')) /\
  (forall req now resp s'', rq_worker_id req = w -> st_docs s' !! RRecovery (rq_recovery_request_id req) = None ->
    recover_worker req now s' <> (Ok resp, s'')).
Proof.
  intros Hb Hs. pose proof (called_barred _ _ _ _ Hs Hb) as Hb'. split; [exact Hb'|]. destruct Hb' as [(doc & Hd & Hr & Hst) _]. split.
  - intros sr body now who s'' <- [Ha _]%verify_sound.
    destruct Ha as (_ & _ & _ & _ & _ & c & wd & e & k & _ & Hw & _ & _ & _ & _ & _ & _ & Ha & _).
    rewrite Hd in Hw. injection Hw as <-. rewrite Hst in Ha. discriminate.
  - intros req now resp s'' <- Hn H. unfold Identity.recover_worker in H. unwind; subst; congruence.
Qed.

(** A benchmark has one assignment: once one has been issued for it, no issuance
    of another assignment for that benchmark ever succeeds, unless it had been
    answered before, through any calls and any faults. *)
Theorem benchmark_has_one_assignment id facts now s grant s1 s2 :
  issue_assignment id facts now s = (Ok grant, s1) -> st_docs s !! RAssignmentIssuance id = None ->
  rtc (called any) s1 s2 ->
  ag_benchmark_id grant = af_benchmark_id facts /\
  forall id' facts' now' grant' s3, af_benchmark_id facts' = af_benchmark_id facts ->
    st_docs s2 !! RAssignmentIssuance id' = None ->
    issue_uuid keyed_hash server_key ["assignment"; id'] <> ag_assignment_id grant ->
    issue_assignment id' facts' now' s2 <> (Ok grant', s3).
Proof.
  intros H Hn Hs. apply issue_assigns in H as (_ & Hb & _ & Ha & _); [|done]. split; [exact Hb|].
  intros id' facts' now' grant' s3 Hb' Hn' Hne H'. apply issue_assigns in H' as (Hi & _ & _ & _ & Ho); [|done].
  rewrite Hb' in Ho. apply Hne. rewrite <- Hi. symmetry. apply Ho. exact (called_assigned _ _ _ _ Hs Ha).
Qed.

(** C18. An enrollment whose reads and writes failed anywhere, any number of times, is
    completed by one more try on a healthy disk while the ticket lasts: it is
    answered with the worker, credential and member it would have had, and then
    the worker's document is there, active and of that member, the credential
    with the request's key is there, usable and listed for the worker, the ticket
    is spent on this request and the answer is on record. *)
Theorem interrupted_enrollment_completes req ticket m t s s' now : enrollable req ticket m -> under_way req ticket m s ->
  rtc (tried req) s s' -> healthy s' -> field_u64 "expires_at" ticket = Ok t -> now < t ->
  exists resp s'', enroll req now s' = (Ok resp, s'') /\ enrolls_as req m resp /\ established req m (st_docs s'').
Proof.
  intros He Hu Hs Hw Ht Hn. pose proof (tried_under_way _ _ _ _ _ He Hs Hu) as Hu'.
  destruct (enroll_completes req ticket m now s' t) as (resp & s'' & H & Ha); [done..|]. exists resp, s''. split_and!; [done|done|].
  apply (enroll_under_way _ _ _ _ He _ _ _ H Hu'). apply enroll_recorded in H as (_ & record & r & Hd & _). by eexists.
Qed.
End calls.

(** ** Sample histories

    Toy primitives: the plain digest is the identity, a text decodes to as many
    zero bytes as it has characters, and every signature verifies.  The keyed
    digest is the identity too, but for one text, so that the two sample requests
    give different workers. *)
Definition toy_decode (s : string) : option (list Z) := Some (repeat 0 (String.length s)).
Definition toy_b64url (l : list Z) : string := String.append "ticket-" (to_hex l).
Definition toy_verify (key message signature : list Z) : bool := true.
Definition sample_request_id : string := "00000000-0000-0000-0000-000000000001".
Definition toy_keyed (key data : list Z) : list Z :=
  if decide (data = as_bytes (String.append "worker:" sample_request_id)) then repeat 1 16 else data.
Abbreviation toy_call := (call id toy_decode toy_b64url Some toy_verify toy_keyed er_worker_name []).
Abbreviation toy_called := (called id toy_decode toy_b64url Some toy_verify toy_keyed er_worker_name []).
Abbreviation toy_enroll := (enroll id toy_decode Some toy_verify toy_keyed er_worker_name []).
Abbreviation toy_verify_request := (verify_request id toy_decode Some toy_verify).
Abbreviation toy_rotate := (rotate toy_decode Some toy_verify toy_keyed []).
Abbreviation toy_uuid := (issue_uuid toy_keyed []).
Definition run (cs : list Call) (s : Store) : Store := foldl (fun s c => (toy_call c s).2) s cs.
Lemma run_called (allowed : Call -> Prop) cs s : Forall allowed cs -> rtc (toy_called allowed) s (run cs s).
Proof.
  induction cs as [|c cs IH] in s |- *; intros H; inversion_clear H as [|? ? Hc Hcs]; [reflexivity|].
  eapply rtc_l; [|apply (IH (toy_call c s).2 Hcs)]. eapply (called_call _ _ _ _ _ _ _ _ _ _ _ c (toy_call c s).1); [done|].
  apply surjective_pairing.
Qed.
Lemma run_any cs s : rtc (toy_called any) s (run cs s).
Proof. apply run_called, Forall_forall. by intros c _. Qed.

Definition zeros (n : nat) : string := String.concat "" (repeat "0" n).
Definition other_request_id : string := "00000000-0000-0000-0000-000000000002".
Definition sample_ticket : string := toy_b64url (repeat 7 20).
Definition sample_req : EnrollRequest :=
  MkEnrollRequest sample_request_id sample_ticket "rig-1" (zeros 32) (zeros 64) ["0.1.0"] ["proof-material-v1"] "1.0".
Definition other_req : EnrollRequest :=
  MkEnrollRequest other_request_id sample_ticket "rig-2" (zeros 32) (zeros 64) ["0.1.0"] ["proof-material-v1"] "1.0".
Definition sample_member : string := toy_uuid ["member"; "alice-0001"].
Definition sample_worker : string := toy_uuid ["worker"; sample_request_id].
Definition sample_credential : string := toy_uuid ["credential"; sample_request_id].
(** A member with an enrollment ticket that expires at 1900. *)
Definition ticketed : Store :=
  run [CCreateMember "alice-0001" 1000; CEnrollmentTicket sample_member 1000 (Some (repeat 7 20))] (MkStore ∅ [] [] (fun _ => false)).
Definition enrolled : Store := (toy_enroll sample_req 1010 ticketed).2.
Definition sample_signed : SignedRequest :=
  MkSignedRequest "POST" "/v1/slots" PROTOCOL_VERSION sample_worker sample_credential sample_request_id 1100 (sha256_hex id []) (zeros 64).
Definition sample_caller : VerifiedWorker := MkVerifiedWorker sample_member sample_worker sample_credential.
Definition revoked : Store := run [CRevokeWorker sample_worker Security "admin" sample_request_id 1200] enrolled.
Definition rotation (id : string) : RotateCredentialRequest := MkRotateRequest PROTOCOL_VERSION id (zeros 32) (zeros 64).

Definition sample_response : EnrollResponse :=
  MkEnrollResponse PROTOCOL_VERSION sample_request_id PACKAGE_FORMAT sample_member sample_worker sample_credential "ACTIVE" (rfc3339_utc 1010).
Lemma answered {A} (m : M A) s r : (m s).1 = r -> m s = (r, (m s).2).
Proof. intros <-. apply surjective_pairing. Qed.
Lemma sample_enrolls : toy_enroll sample_req 1010 ticketed = (Ok sample_response, enrolled).
Proof. apply answered. vm_compute. reflexivity. Qed.
(** What happens after the enrollment: requests, a rotation, a refused second
    enrollment with the ticket. *)
Definition later : list Call :=
  [CVerify sample_signed [] 1100; CRotate sample_caller sample_worker (rotation other_request_id) 1100; CEnroll other_req 1120].

Lemma records_are_permanent_witness :
  exists v, st_docs enrolled !! REnrollment sample_request_id = Some v /\ st_docs (run later enrolled) !! REnrollment sample_request_id = Some v.
Proof.
  eexists. split; [vm_compute; reflexivity|].
  refine (records_are_permanent id toy_decode toy_b64url Some toy_verify toy_keyed er_worker_name [] enrolled (run later enrolled)
    (REnrollment sample_request_id) _ (run_any _ _) _ _); vm_compute; reflexivity.
Defined.
Lemma answers_are_repeated_witness : toy_enroll sample_req 99999 (run later enrolled) = (Ok sample_response, run later enrolled).
Proof.
  refine (proj1 (answers_are_repeated id toy_decode toy_b64url Some toy_verify toy_keyed er_worker_name [] ticketed enrolled
    (run later enrolled) (run_any _ _)) sample_req 1010 99999 sample_response _). exact sample_enrolls.
Defined.
Lemma authentication_exact_witness : authentic id toy_decode Some toy_verify (st_docs enrolled) sample_signed [] 1100 sample_caller.
Proof.
  refine (proj1 (authentication_exact id toy_decode Some toy_verify enrolled sample_signed [] 1100 sample_caller _) _).
  - split; [vm_compute; reflexivity|]. intros p. vm_compute. reflexivity.
  - eexists. apply answered. vm_compute. reflexivity.
Defined.
Lemma request_id_is_spent_witness : signed_hash_of id sample_signed = signed_hash_of id sample_signed.
Proof.
  refine (request_id_is_spent id toy_decode toy_b64url Some toy_verify toy_keyed er_worker_name [] sample_signed sample_signed [] []
    1100 1130 sample_caller sample_caller enrolled (toy_verify_request sample_signed [] 1100 enrolled).2
    (run later (toy_verify_request sample_signed [] 1100 enrolled).2)
    (toy_verify_request sample_signed [] 1130 (run later (toy_verify_request sample_signed [] 1100 enrolled).2)).2 _ (run_any _ _) _ eq_refl eq_refl);
    apply answered; vm_compute; reflexivity.
Defined.
Lemma ticket_is_spent_witness : ~ (toy_enroll other_req 1200 (run later enrolled)).1 = Ok sample_response.
Proof.
  refine (fun H => proj1 (ticket_is_spent id toy_decode toy_b64url Some toy_verify toy_keyed er_worker_name [] ticketed enrolled
    (run later enrolled) (run_any _ _)) sample_req other_req 1010 1200 sample_response sample_enrolls _ _ _
    sample_response (toy_enroll other_req 1200 (run later enrolled)).2 (answered _ _ _ H)); vm_compute; reflexivity.
Defined.
Lemma sample_barred : barred sample_worker sample_request_id revoked.
Proof.
  split; [eexists; split; [vm_compute; reflexivity|split; vm_compute; reflexivity]|]. eexists. vm_compute. reflexivity.
Qed.
Lemma security_revocation_stands_witness : barred sample_worker sample_request_id (run later revoked).
Proof.
  refine (proj1 (security_revocation_stands id toy_decode toy_b64url Some toy_verify toy_keyed er_worker_name [] sample_worker sample_request_id revoked
    (run later revoked) sample_barred (run_called _ _ _ _))). repeat constructor. intros H. vm_compute in H. discriminate H.
Defined.
Definition sample_slot : string := toy_uuid ["slot"; sample_worker; sample_request_id].
Definition digest64 : string := zeros 64.
Definition qualified : Store :=
  run [CRegisterSlot sample_caller sample_request_id "gpu0" 1100; CQualify sample_slot "admin" sample_request_id digest64 1110] enrolled.
Definition sample_facts : AssignmentFacts := MkAssignmentFacts sample_worker sample_slot "bench-1" digest64 "testnet".
Abbreviation toy_issue := (issue_assignment id toy_keyed []).
Definition sample_grant : AssignmentGrant :=
  MkAssignmentGrant (toy_uuid ["assignment"; sample_request_id]) sample_member sample_worker sample_slot "bench-1".
Lemma benchmark_has_one_assignment_witness : ag_benchmark_id sample_grant = "bench-1".
Proof.
  refine (proj1 (benchmark_has_one_assignment id toy_decode toy_b64url Some toy_verify toy_keyed er_worker_name [] sample_request_id sample_facts
    1200 qualified sample_grant (toy_issue sample_request_id sample_facts 1200 qualified).2
    (run later (toy_issue sample_request_id sample_facts 1200 qualified).2) _ _ (run_any _ _))).
  - apply answered. vm_compute. reflexivity.
  - vm_compute. reflexivity.
Defined.

Definition ticket_doc : Value :=
  json_object [("purpose", JString PURPOSE_ENROLLMENT); ("member_id", JString sample_member); ("worker_id", JNull); ("expires_at", json_u64 1900)].
Definition set_disk (ws : list WriteOutcome) (s : Store) : Store := MkStore (st_docs s) (st_audit s) ws (fun _ => false).
Lemma set_disk_docs ws s : st_docs (set_disk ws s) = st_docs s.
Proof. reflexivity. Qed.
Lemma set_disk_healthy s : healthy (set_disk [] s).
Proof. by split. Qed.
(** The enrollment with its fifth write, the record, failing. *)
Definition interrupted : Store := (toy_enroll sample_req 1010 (set_disk [Done; Done; Done; Done; FailedBefore] ticketed)).2.
Lemma interrupted_enrollment_completes_witness : exists resp s,
  toy_enroll sample_req 1020 (set_disk [] interrupted) = (Ok resp, s) /\ enrolls_as toy_keyed [] sample_req sample_member resp /\
  established id toy_keyed er_worker_name [] sample_req sample_member (st_docs s).
Proof.
  refine (interrupted_enrollment_completes id toy_decode Some toy_verify toy_keyed er_worker_name [] sample_req ticket_doc sample_member
    1900 ticketed (set_disk [] interrupted) 1020 _ _ _ (set_disk_healthy interrupted) _ _).
  - repeat split; try (vm_compute; reflexivity). eexists. split; vm_compute; reflexivity.
  - split_and!; [vm_compute; reflexivity|intros claim H|intros [record H]]; vm_compute in H; discriminate H.
  - eapply rtc_l; [apply tried_disk, (set_disk_docs [Done; Done; Done; Done; FailedBefore] ticketed)|].
    eapply rtc_l; [eapply (tried_enroll _ _ _ _ _ _ _ _ _ interrupted 1010); apply surjective_pairing|].
    apply rtc_once, tried_disk, set_disk_docs.
  - vm_compute. reflexivity.
  - lia.
Defined.

(** The grace of a rotated credential starts anew with each rotation it signs:
    retired at 1100 for 1700, it rotates again at 1650 and is accepted at 2000. *)
Example rotation_restarts_its_grace :
  let first := run [CRotate sample_caller sample_worker (rotation sample_request_id) 1100] enrolled in
  let later_request now id :=
    MkSignedRequest "POST" "/v1/slots" PROTOCOL_VERSION sample_worker sample_credential id now (sha256_hex (fun l => l) []) (zeros 64) in
  (toy_verify_request (later_request 2000 sample_request_id) [] 2000 first).1 = Err NotAuthenticated /\
  (toy_verify_request (later_request 1650 other_request_id) [] 1650 first).1 = Ok sample_caller /\
  (toy_verify_request (later_request 2000 sample_request_id) [] 2000
    (run [CRotate sample_caller sample_worker (rotation other_request_id) 1650] first)).1 = Ok sample_caller.
Proof. vm_compute. auto. Qed.

(** A revocation for security is lost when the worker's enrollment had stopped
    short of its record and is tried again: the retry writes the worker's
    document anew. *)
Example retried_enrollment_lifts_a_revocation :
  let barred_early := run [CRevokeWorker sample_worker Security "admin" sample_request_id 1200] (set_disk [] interrupted) in
  (toy_verify_request sample_signed [] 1100 barred_early).1 = Err NotAuthenticated /\
  (toy_verify_request sample_signed [] 1100 (run [CEnroll sample_req 1250] barred_early)).1 = Ok sample_caller.
Proof. vm_compute. auto. Qed.
