(* ===== verification/Wallet.v ===== *)
(** * Wallet logins: [crates/pool-identity/src/wallet.rs]

    The text a member signs, the recovery of the signing address, and the
    parser of the signed expiry, which is proved to be the inverse of
    [rfc3339_utc] on unsigned fields.  Keccak-256 and the recovery of a public key
    from a signature are parameters. *)
From stdpp Require Import pretty.
From S2P Require Import Prelude Text Domain Rfc3339 IdentityStore Identity.
Open Scope Z_scope.

Inductive LoginPurpose := WorkerEnrollment | WorkerRecovery.
#[global] Instance LoginPurpose_eq_dec : EqDecision LoginPurpose.
Proof. solve_decision. Defined.
Definition LoginPurpose_as_str (p : LoginPurpose) : string :=
  match p with WorkerEnrollment => "WORKER_ENROLLMENT" | WorkerRecovery => "WORKER_RECOVERY" end.

Definition login_signing_string (pool_domain : string) (chain_id : Z) (purpose : LoginPurpose) (nonce expires_at_rfc3339 : string) : string :=
  lines ["TIG-POOL-LOGIN-V1"; pool_domain; pretty (Z.to_N chain_id); LoginPurpose_as_str purpose; nonce; expires_at_rfc3339].

Record LoginExpectation := MkLoginExpectation {
  le_pool_domain : string; le_chain_id : Z; le_purpose : LoginPurpose; le_nonce : string; le_expires_at_rfc3339 : string }.
Record ProvedLogin := MkProvedLogin { pl_address : string; pl_expires_at_unix : Z }.

(** ** The expiry *)

(** [str::parse::<i64>]: an optional sign, then at least one digit. *)
Definition parse_i64 (s : string) : option Z :=
  match s with
  | EmptyString => None
  | String c s' =>
      if (byte c =? 43) || (byte c =? 45) then
        match s' with
        | EmptyString => None
        | _ => if byte c =? 45 then Z.opp <$> digits_from (- i64_min) 0 s' else digits_from i64_max 0 s'
        end
      else digits_from i64_max 0 s
  end.
Definition byte_at (i : nat) (s : string) : Z := match String.get i s with Some c => byte c | None => 0 end.
(** [text.get(from..to)] also refuses a range that splits a character; such a
    range holds a byte that is no digit and the parse refuses it. *)
Definition field (s : string) (from to : nat) : option Z := parse_i64 (String.substring from (to - from) s).
Definition days_in_month (year month : Z) : Z :=
  let leap := (Z.rem year 4 =? 0) && (negb (Z.rem year 100 =? 0) || (Z.rem year 400 =? 0)) in
  if (month =? 1) || (month =? 3) || (month =? 5) || (month =? 7) || (month =? 8) || (month =? 10) || (month =? 12) then 31
  else if (month =? 4) || (month =? 6) || (month =? 9) || (month =? 11) then 30
  else if leap then 29 else 28.
Definition days_of_civil (year month day : Z) : Z :=
  let y := if month <=? 2 then year - 1 else year in
  let era := Z.quot (if 0 <=? y then y else y - 399) 400 in
  let yoe := y - era * 400 in
  let mp := Z.rem (month + 9) 12 in
  let doy := Z.quot (153 * mp + 2) 5 + day - 1 in
  let doe := yoe * 365 + Z.quot yoe 4 - Z.quot yoe 100 + doy in
  era * 146097 + doe - 719468.
Definition instant (year month day hour minute second : Z) : option Z :=
  if negb ((1 <=? month) && (month <=? 12)) then None
  else if (23 <? hour) || (59 <? minute) || (59 <? second) then None
  else if negb ((1 <=? day) && (day <=? days_in_month year month)) then None
  else
    let unix := days_of_civil year month day * 86400 + hour * 3600 + minute * 60 + second in
    if 0 <=? unix then Some unix else None.
Definition parse_rfc3339_seconds (text : string) : option Z :=
  if negb (Nat.eqb (String.length text) 20) || negb (byte_at 4 text =? 45) || negb (byte_at 7 text =? 45) || negb (byte_at 10 text =? 84) then None
  else if negb (byte_at 13 text =? 58) || negb (byte_at 16 text =? 58) || negb (byte_at 19 text =? 90) then None
  else
    year ← field text 0 4; month ← field text 5 7; day ← field text 8 10;
    hour ← field text 11 13; minute ← field text 14 16; second ← field text 17 19;
    instant year month day hour minute second.

(** ** The signature *)

(** [decode_hex]: [u8::from_str_radix] over pairs, after an optional prefix. *)
Definition decode_hex (text : string) : option (list Z) :=
  hex_bytes (default text (strip_prefix "0x" text)).

Section recover.
Context {Key : Type} (keccak256 : list Z -> list Z).
(** [Signature::from_slice] and [VerifyingKey::recover_from_prehash] of the
    64 bytes of a signature, and the key's uncompressed point. *)
Context (recover_key : list Z -> list Z -> Z -> option Key) (encoded_point : Key -> list Z).

Definition eip191_digest (message : string) : list Z :=
  keccak256 (25 :: as_bytes (lines ["Ethereum Signed Message:"; String.append (pretty (N.of_nat (String.length message))) message])).
Definition address_of (key : Key) : string :=
  String.append "0x" (to_hex (drop 12 (keccak256 (drop 1 (encoded_point key))))).
Definition recovery_id (v : Z) : option Z :=
  if (v =? 0) || (v =? 27) then Some 0 else if (v =? 1) || (v =? 28) then Some 1 else None.
Definition recover_login_address (expectation : LoginExpectation) (signature : string) (now_unix : Z) : result IdentityErrorCode ProvedLogin :=
  let? expires_at := ok_or (parse_rfc3339_seconds (le_expires_at_rfc3339 expectation)) NotAuthenticated in
  if expires_at <=? now_unix then Err NotAuthenticated
  else
    let message := login_signing_string (le_pool_domain expectation) (le_chain_id expectation) (le_purpose expectation)
                     (le_nonce expectation) (le_expires_at_rfc3339 expectation) in
    let? bytes := ok_or (decode_hex signature) NotAuthenticated in
    match last bytes with
    | None => Err NotAuthenticated
    | Some v =>
        let? recovery := ok_or (recovery_id v) NotAuthenticated in
        let? key := ok_or (recover_key (eip191_digest message) (take (length bytes - 1) bytes) recovery) NotAuthenticated in
        Ok (MkProvedLogin (address_of key) expires_at)
    end.
End recover.

Example expiry_known_values :
  map parse_rfc3339_seconds ["1970-01-01T00:00:00Z"; "2000-02-29T12:00:00Z"; "2024-02-29T23:59:59Z"; "2100-03-01T00:00:00Z"; "2026-02-29T00:00:00Z"; "2026-01-01T00:00:60Z"]
  = [Some 0; Some 951825600; Some 1709251199; Some 4107542400; None; None].
Proof. vm_compute. reflexivity. Qed.

(** ** The calendar, both ways *)

Definition doy_of (month day : Z) : Z := (153 * ((month + 9) mod 12) + 2) / 5 + day - 1.
(** Division on the range the parser reaches is the floor. *)
Lemma days_of_civil_era year month day : 0 <= year -> 1 <= month <= 12 ->
  let y := if month <=? 2 then year - 1 else year in
  days_of_civil year month day = (y / 400) * 146097 + year_start (y mod 400) + doy_of month day - 719468.
Proof.
  intros Hy Hm y. unfold days_of_civil, year_start, doy_of. cbn zeta. fold y.
  assert (Z.quot (if 0 <=? y then y else y - 399) 400 = y / 400) as ->.
  { destruct (Z.leb_spec 0 y); [by rewrite Z.quot_div_nonneg by lia|].
    assert (y = -1) as -> by (unfold y in *; destruct (month <=? 2); lia). reflexivity. }
  rewrite (Z.rem_mod_nonneg (month + 9)) by lia.
  pose proof (Z.mod_pos_bound (month + 9) 12 ltac:(lia)). pose proof (Z.mod_pos_bound y 400 ltac:(lia)).
  replace (y - y / 400 * 400) with (y mod 400) by (pose proof (Z.div_mod y 400 ltac:(lia)); lia).
  rewrite !Z.quot_div_nonneg by lia. lia.
Qed.

(** Every day of every month, and every day of a year, in a leap year or not. *)
Definition month_day_found (l : bool) (k : Z) : bool :=
  let m := k / 31 + 1 in let d := k mod 31 + 1 in
  (month_length l m <? d) ||
  ((month_at (doy_of m d) =? m) && (day_at (doy_of m d) =? d) && (0 <=? doy_of m d) && (doy_of m d <? (if l then 366 else 365))).
Lemma month_day l m d : 1 <= m <= 12 -> 1 <= d <= month_length l m ->
  month_at (doy_of m d) = m /\ day_at (doy_of m d) = d /\ 0 <= doy_of m d < (if l then 366 else 365).
Proof.
  intros Hm Hd. assert (month_length l m <= 31) by (unfold month_length; repeat case_match; lia).
  assert (Hk : month_day_found l ((m - 1) * 31 + (d - 1)) = true).
  { destruct l; [apply (all_below_spec (month_day_found true) 372 ltac:(vm_compute; reflexivity)); lia|].
    apply (all_below_spec (month_day_found false) 372 ltac:(vm_compute; reflexivity)); lia. }
  unfold month_day_found in Hk. cbn zeta in Hk.
  replace (((m - 1) * 31 + (d - 1)) / 31) with (m - 1) in Hk by (Z.to_euclidean_division_equations; lia).
  replace (((m - 1) * 31 + (d - 1)) mod 31) with (d - 1) in Hk by (Z.to_euclidean_division_equations; lia).
  replace (m - 1 + 1) with m in Hk by lia. replace (d - 1 + 1) with d in Hk by lia.
  destruct (Z.ltb_spec (month_length l m) d); [lia|]. simpl in Hk.
  rewrite !andb_true_iff, !Z.eqb_eq, Z.leb_le in Hk. destruct l; rewrite Z.ltb_lt in Hk; lia.
Qed.
Definition day_found (l : bool) (doy : Z) : bool :=
  (doy_of (month_at doy) (day_at doy) =? doy) && (1 <=? month_at doy) && (month_at doy <=? 12) &&
  (1 <=? day_at doy) && (day_at doy <=? month_length l (month_at doy)).
Lemma day_of_year (l : bool) doy : 0 <= doy < (if l then 366 else 365) ->
  doy_of (month_at doy) (day_at doy) = doy /\ 1 <= month_at doy <= 12 /\ 1 <= day_at doy <= month_length l (month_at doy).
Proof.
  intros Hd. assert (Hk : day_found l doy = true).
  { destruct l; [apply (all_below_spec (day_found true) 366 ltac:(vm_compute; reflexivity)); lia|].
    apply (all_below_spec (day_found false) 365 ltac:(vm_compute; reflexivity)); lia. }
  unfold day_found in Hk. rewrite !andb_true_iff, Z.eqb_eq, !Z.leb_le in Hk. lia.
Qed.
Lemma month_at_bound doy : 0 <= doy < 366 -> (month_at doy <=? 2) = (306 <=? doy).
Proof.
  intros Hd. apply Bool.eqb_prop.
  apply (all_below_spec (fun doy => Bool.eqb (month_at doy <=? 2) (306 <=? doy)) 366 ltac:(vm_compute; reflexivity)). lia.
Qed.
Lemma days_in_month_calendar year month : 0 <= year -> 1 <= month <= 12 -> days_in_month year month = month_length (leap year) month.
Proof.
  intros Hy Hm. unfold days_in_month, month_length, leap. rewrite !Z.rem_mod_nonneg by lia.
  assert (month = 1 \/ month = 2 \/ month = 3 \/ month = 4 \/ month = 5 \/ month = 6 \/ month = 7 \/ month = 8 \/ month = 9 \/
    month = 10 \/ month = 11 \/ month = 12) as Hc by lia.
  repeat (destruct Hc as [-> | Hc]; [reflexivity|]). by subst.
Qed.

(** An era's day is a year of the era and a day of that year. *)
Lemma era_day doe : 0 <= doe < 146097 -> exists y doy, 0 <= y < 400 /\ doe = year_start y + doy /\
  0 <= doy < (if leap (y + 1) then 366 else 365) /\ civil_of_era 0 doe = civil_at y doy.
Proof.
  intros Hd. destruct (year_found doe Hd) as (y & Hy & Hr). destruct (year_boundaries y Hy) as (_ & _ & Hl & _ & _).
  exists y, (doe - year_start y). split; [done|]. split; [lia|]. split; [destruct (leap (y + 1)); lia|]. by apply civil_of_year.
Qed.
Lemma leap_mod y : leap (y mod 400 + 1) = leap (y + 1).
Proof. rewrite <- (leap_shift (y mod 400 + 1) (y / 400)). f_equal. pose proof (Z.div_mod y 400 ltac:(lia)). lia. Qed.

Lemma civil_of_days_of_civil year month day : 0 <= year -> 1 <= month <= 12 -> 1 <= day <= days_in_month year month ->
  civil_of_days (days_of_civil year month day) = MkCivil year month day.
Proof.
  intros Hy Hm Hd. rewrite days_in_month_calendar in Hd by lia. rewrite days_of_civil_era by lia. cbn zeta.
  set (y := if month <=? 2 then year - 1 else year).
  destruct (month_day (leap year) month day Hm Hd) as (Hma & Hda & Hdoy).
  pose proof (Z.mod_pos_bound y 400 ltac:(lia)) as Hyoe. destruct (year_boundaries (y mod 400) ltac:(lia)) as (_ & _ & Hl & Hs & He).
  assert (Hend : year_start (y mod 400) + doy_of month day < year_end (y mod 400)).
  { rewrite Hl, leap_mod. assert (doy_of month day < 366) by (destruct (leap year); lia).
    pose proof (month_at_bound (doy_of month day) ltac:(lia)) as Hb. rewrite Hma in Hb. unfold y.
    destruct (Z.leb_spec month 2); destruct (Z.leb_spec 306 (doy_of month day)); try discriminate Hb; [|clear Hl; destruct (leap (year + 1)); lia].
    replace (year - 1 + 1) with year by lia. destruct (leap year); lia. }
  unfold civil_of_days. replace (_ - 719468 + 719468) with ((y / 400) * 146097 + (year_start (y mod 400) + doy_of month day)) by lia.
  assert (0 <= year_start (y mod 400) + doy_of month day < 146097) by lia.
  assert (((y / 400) * 146097 + (year_start (y mod 400) + doy_of month day)) / 146097 = y / 400) as -> by (Z.to_euclidean_division_equations; lia).
  assert (((y / 400) * 146097 + (year_start (y mod 400) + doy_of month day)) mod 146097 = year_start (y mod 400) + doy_of month day) as ->
    by (rewrite Z.add_comm, Z_mod_plus_full; apply Z.mod_small; lia).
  rewrite civil_of_era_shift, (civil_of_year (y mod 400)) by lia.
  replace (year_start (y mod 400) + doy_of month day - year_start (y mod 400)) with (doy_of month day) by lia.
  unfold shift, civil_at. cbn [cv_year cv_month cv_day]. rewrite Hma, Hda. f_equal.
  pose proof (Z.div_mod y 400 ltac:(lia)). unfold y in *. destruct (month <=? 2); lia.
Qed.

(** The last second a four-digit year can name, plus one. *)
Definition year_10000 : Z := 253402300800.
Lemma days_of_civil_of_days days : 0 <= days < 2932897 ->
  let c := civil_of_days days in
  days_of_civil (cv_year c) (cv_month c) (cv_day c) = days /\
  0 <= cv_year c <= 9999 /\ 1 <= cv_month c <= 12 /\ 1 <= cv_day c <= days_in_month (cv_year c) (cv_month c).
Proof.
  intros Hd. cbn zeta. unfold civil_of_days. set (z := days + 719468).
  pose proof (Z.mod_pos_bound z 146097 ltac:(lia)) as Hr. pose proof (Z.div_mod z 146097 ltac:(lia)) as Hz.
  assert (Hera : 4 <= z / 146097 <= 24) by (unfold z in *; Z.to_euclidean_division_equations; lia).
  destruct (era_day (z mod 146097) Hr) as (y & doy & Hy & Hdoe & Hdoy & Hc).
  rewrite civil_of_era_shift, Hc. unfold shift, civil_at. cbn [cv_year cv_month cv_day].
  destruct (day_of_year (leap (y + 1)) doy Hdoy) as (Hback & Hm & Hday).
  assert (Hdoy6 : 0 <= doy < 366) by (destruct (leap (y + 1)); lia).
  pose proof (month_at_bound doy Hdoy6) as Hb.
  set (year := (if month_at doy <=? 2 then y + 1 else y) + 400 * (z / 146097)).
  assert (Hyear : 0 <= year <= 9999).
  { unfold year. rewrite Hb. destruct (Z.leb_spec 306 doy); [|lia].
    destruct (Z.eq_dec y 399) as [->|]; [|lia]. assert (year_start 399 = 145731) by reflexivity. unfold z in *. lia. }
  split; [|split; [done|split; [done|]]].
  - rewrite days_of_civil_era by lia. cbn zeta.
    assert (Hy' : (if month_at doy <=? 2 then year - 1 else year) = y + z / 146097 * 400) by (unfold year; destruct (month_at doy <=? 2); lia).
    rewrite Hy'. rewrite Z.div_add, Z_mod_plus_full by lia. rewrite (Z.div_small y), (Z.mod_small y) by lia. rewrite Hback. unfold z in *. lia.
  - rewrite days_in_month_calendar by lia. unfold year. rewrite leap_shift.
    destruct (Z.leb_spec (month_at doy) 2); [done|].
    assert (month_length (leap y) (month_at doy) = month_length (leap (y + 1)) (month_at doy)) as ->; [|done].
    unfold month_length. by destruct (Z.eqb_spec (month_at doy) 2); [lia|].
Qed.

(** ** The text, both ways *)

Definition digit_char (d : Z) : Ascii.ascii := Ascii.ascii_of_N (Z.to_N (48 + d)).
Definition digit_of (c : Ascii.ascii) : Z := byte c - 48.
Lemma digit_range c : is_ascii_digit c = true -> 0 <= digit_of c <= 9.
Proof. unfold is_ascii_digit, digit_of, byte. rewrite andb_true_iff, !N.leb_le. lia. Qed.
Lemma digit_char_of c : is_ascii_digit c = true -> digit_char (digit_of c) = c.
Proof.
  intros _. unfold digit_char, digit_of, byte. replace (48 + (Z.of_N (Ascii.N_of_ascii c) - 48)) with (Z.of_N (Ascii.N_of_ascii c)) by lia.
  rewrite N2Z.id. apply Ascii.ascii_N_embedding.
Qed.
Lemma digit_char_digit d : 0 <= d <= 9 -> is_ascii_digit (digit_char d) = true /\ digit_of (digit_char d) = d.
Proof.
  intros Hd. pose proof (all_below_spec (fun d => is_ascii_digit (digit_char d) && (digit_of (digit_char d) =? d)) 10
    ltac:(vm_compute; reflexivity) d ltac:(lia)) as H. cbn beta in H. rewrite andb_true_iff, Z.eqb_eq in H. done.
Qed.

Definition two (a b : Ascii.ascii) : string := String a (String b EmptyString).
Definition four (a b c d : Ascii.ascii) : string := String a (String b (two c d)).
Lemma padded_two n : 0 <= n < 100 -> padded 2 n = two (digit_char (n / 10)) (digit_char (n mod 10)).
Proof.
  intros Hn. apply String.eqb_eq.
  apply (all_below_spec (fun n => String.eqb (padded 2 n) (two (digit_char (n / 10)) (digit_char (n mod 10)))) 100
    ltac:(vm_compute; reflexivity)). lia.
Qed.
Lemma pretty_go_acc x : forall s, pretty_N_go x s = String.append (pretty_N_go x "") s.
Proof.
  induction (N.lt_wf_0 x) as [x _ IH]; intros s. destruct (decide (x = 0)%N) as [->|Hx]; [by rewrite !pretty_N_go_0|].
  rewrite !(pretty_N_go_step x) by lia. assert (x / 10 < x)%N by (apply N.div_lt; lia).
  rewrite (IH (x / 10)%N) by done. rewrite (IH (x / 10)%N ltac:(done) (String _ "")), append_assoc. reflexivity.
Qed.
Lemma pretty_last_digit q r : (0 < q)%N -> (r < 10)%N -> pretty (10 * q + r)%N = String.append (pretty q) (String (pretty_N_char r) "").
Proof.
  intros Hq Hr. unfold pretty, pretty_N. do 2 (case_decide; [lia|]). rewrite pretty_N_go_step by lia.
  rewrite pretty_go_acc. do 2 f_equal; [|f_equal; f_equal]; [symmetry; apply (N.div_unique _ _ _ r); lia|symmetry; apply (N.mod_unique _ _ q); lia].
Qed.
Lemma zeros_snoc n : String.append (String.concat "" (replicate n "0")) "0" = String.concat "" (replicate (S n) "0").
Proof.
  assert (H : forall n, String.concat "" (replicate (S n) "0") = String (digit_char 0) (String.concat "" (replicate n "0"))) by (intros []; reflexivity).
  induction n as [|n IH]; [done|]. rewrite (H (S n)). rewrite (H n) at 1.
  change (String (digit_char 0) (String.append (String.concat "" (replicate n "0")) "0") = String (digit_char 0) (String.concat "" (replicate (S n) "0"))).
  by rewrite IH.
Qed.
Lemma padded_step w q r : (0 < w)%nat -> 0 <= q -> 0 <= r < 10 ->
  padded (S w) (10 * q + r) = String.append (padded w q) (String (digit_char r) "").
Proof.
  intros Hw Hq Hr. assert (Hc : pretty_N_char (Z.to_N r) = digit_char r).
  { apply (Ascii.eqb_eq). apply (all_below_spec (fun r => Ascii.eqb (pretty_N_char (Z.to_N r)) (digit_char r)) 10 ltac:(vm_compute; reflexivity)). lia. }
  unfold padded. destruct (Z.eq_dec q 0) as [->|Hq0].
  - replace (10 * 0 + r) with r by lia. assert (Hp : pretty (Z.to_N r) = String (digit_char r) "").
    { rewrite <- Hc. apply String.eqb_eq.
      apply (all_below_spec (fun r => String.eqb (pretty_N (Z.to_N r)) (String (pretty_N_char (Z.to_N r)) "")) 10 ltac:(vm_compute; reflexivity)). lia. }
    rewrite Hp. change (pretty (Z.to_N 0)) with "0". cbn [String.length]. rewrite zeros_snoc.
    replace (S w - 1)%nat with (S (w - 1)) by lia. done.
  - replace (Z.to_N (10 * q + r)) with (10 * Z.to_N q + Z.to_N r)%N by lia. rewrite pretty_last_digit by lia. rewrite Hc, length_append.
    cbn [String.length]. rewrite append_assoc. replace (S w - (String.length (pretty (Z.to_N q)) + 1))%nat with (w - String.length (pretty (Z.to_N q)))%nat by lia. done.
Qed.
Lemma padded_four n : 0 <= n < 10000 ->
  padded 4 n = four (digit_char (n / 1000)) (digit_char (n / 100 mod 10)) (digit_char (n / 10 mod 10)) (digit_char (n mod 10)).
Proof.
  intros Hn. replace n with (10 * (10 * (n / 100) + n / 10 mod 10) + n mod 10) at 1 by (Z.to_euclidean_division_equations; lia).
  rewrite !padded_step by (Z.to_euclidean_division_equations; lia). rewrite padded_two by (Z.to_euclidean_division_equations; lia).
  rewrite Z.div_div by lia. reflexivity.
Qed.

Lemma sign_no_digit c : is_ascii_digit c = true -> (byte c =? 43) || (byte c =? 45) = false.
Proof. unfold is_ascii_digit, byte. rewrite andb_true_iff, !N.leb_le, orb_false_iff, !Z.eqb_neq. lia. Qed.
Lemma parse_two a b : is_ascii_digit a = true -> is_ascii_digit b = true -> parse_i64 (two a b) = Some (10 * digit_of a + digit_of b).
Proof.
  intros Ha Hb. pose proof (digit_range a Ha). pose proof (digit_range b Hb). unfold parse_i64, two. rewrite (sign_no_digit a Ha).
  cbn [digits_from]. rewrite Ha, Hb. fold (byte a) (byte b). fold (digit_of a) (digit_of b). cbn zeta.
  destruct (Z.leb_spec (0 * 10 + digit_of a) i64_max); [|unfold i64_max in *; lia].
  destruct (Z.leb_spec ((0 * 10 + digit_of a) * 10 + digit_of b) i64_max); [|unfold i64_max in *; lia]. f_equal. lia.
Qed.
Lemma parse_four a b c d : is_ascii_digit a = true -> is_ascii_digit b = true -> is_ascii_digit c = true -> is_ascii_digit d = true ->
  parse_i64 (four a b c d) = Some (1000 * digit_of a + 100 * digit_of b + 10 * digit_of c + digit_of d).
Proof.
  intros Ha Hb Hc Hd. pose proof (digit_range a Ha). pose proof (digit_range b Hb). pose proof (digit_range c Hc). pose proof (digit_range d Hd).
  unfold parse_i64, four, two. rewrite (sign_no_digit a Ha). cbn [digits_from]. rewrite Ha, Hb, Hc, Hd.
  fold (byte a) (byte b) (byte c) (byte d). fold (digit_of a) (digit_of b) (digit_of c) (digit_of d). cbn zeta.
  repeat match goal with |- context [if ?x <=? i64_max then _ else _] => destruct (Z.leb_spec x i64_max); [|unfold i64_max in *; lia] end.
  f_equal. lia.
Qed.
Lemma padded_of_two a b : is_ascii_digit a = true -> is_ascii_digit b = true -> padded 2 (10 * digit_of a + digit_of b) = two a b.
Proof.
  intros Ha Hb. pose proof (digit_range a Ha). pose proof (digit_range b Hb). rewrite padded_two by lia.
  replace ((10 * digit_of a + digit_of b) / 10) with (digit_of a) by (Z.to_euclidean_division_equations; lia).
  replace ((10 * digit_of a + digit_of b) mod 10) with (digit_of b) by (Z.to_euclidean_division_equations; lia). by rewrite !digit_char_of.
Qed.
Lemma padded_of_four a b c d : is_ascii_digit a = true -> is_ascii_digit b = true -> is_ascii_digit c = true -> is_ascii_digit d = true ->
  padded 4 (1000 * digit_of a + 100 * digit_of b + 10 * digit_of c + digit_of d) = four a b c d.
Proof.
  intros Ha Hb Hc Hd. pose proof (digit_range a Ha). pose proof (digit_range b Hb). pose proof (digit_range c Hc). pose proof (digit_range d Hd).
  rewrite padded_four by lia. set (n := _ + digit_of d).
  replace (n / 1000) with (digit_of a) by (unfold n; Z.to_euclidean_division_equations; lia).
  replace (n / 100 mod 10) with (digit_of b) by (unfold n; Z.to_euclidean_division_equations; lia).
  replace (n / 10 mod 10) with (digit_of c) by (unfold n; Z.to_euclidean_division_equations; lia).
  replace (n mod 10) with (digit_of d) by (unfold n; Z.to_euclidean_division_equations; lia). by rewrite !digit_char_of.
Qed.

(** The shape of a timestamp: fourteen digits and the separators. *)
Definition stamp (year month day hour minute second : string) : string :=
  String.concat "" [year; "-"; month; "-"; day; "T"; hour; ":"; minute; ":"; second; "Z"].
Definition digits_only (s : string) : bool := all_bytes is_ascii_digit s.
(** The six fields hold digits and no sign. *)
Definition unsigned_fields (s : string) : bool :=
  forallb (fun r => digits_only (String.substring r.1 (r.2 - r.1) s)) [(0, 4); (5, 7); (8, 10); (11, 13); (14, 16); (17, 19)]%nat.

Lemma parse_stamp y1 y2 y3 y4 m1 m2 d1 d2 h1 h2 n1 n2 s1 s2 :
  parse_rfc3339_seconds (stamp (four y1 y2 y3 y4) (two m1 m2) (two d1 d2) (two h1 h2) (two n1 n2) (two s1 s2)) =
  (year ← parse_i64 (four y1 y2 y3 y4); month ← parse_i64 (two m1 m2); day ← parse_i64 (two d1 d2);
   hour ← parse_i64 (two h1 h2); minute ← parse_i64 (two n1 n2); second ← parse_i64 (two s1 s2);
   instant year month day hour minute second).
Proof. reflexivity. Qed.

Lemma char_of_byte c d : byte c = byte d -> c = d.
Proof. unfold byte. intros H%N2Z.inj. by rewrite <- (Ascii.ascii_N_embedding c), H, Ascii.ascii_N_embedding. Qed.
Lemma stamp_of_text s t : parse_rfc3339_seconds s = Some t ->
  exists y1 y2 y3 y4 m1 m2 d1 d2 h1 h2 n1 n2 s1 s2,
    s = stamp (four y1 y2 y3 y4) (two m1 m2) (two d1 d2) (two h1 h2) (two n1 n2) (two s1 s2).
Proof.
  unfold parse_rfc3339_seconds. destruct (Nat.eqb_spec (String.length s) 20) as [Hlen|]; [|done]. cbn [negb orb].
  do 20 (destruct s as [|? s]; [discriminate Hlen|]). destruct s; [|discriminate Hlen]. clear Hlen. cbn [byte_at String.get].
  repeat match goal with
         | |- context [byte ?c =? ?k] =>
             let H := fresh "H" in destruct (Z.eqb_spec (byte c) k) as [H|]; cbn [negb orb]; [|repeat (rewrite ?orb_true_r; cbn [negb orb]); done];
             apply (char_of_byte c (Ascii.ascii_of_N (Z.to_N k))) in H; subst c
         end.
  intros _. do 14 eexists. reflexivity.
Qed.

Lemma days_of_civil_bound year month day : 0 <= year <= 9999 -> 1 <= month <= 12 -> 1 <= day <= days_in_month year month ->
  days_of_civil year month day < 2932897.
Proof.
  intros Hy Hm Hd. rewrite days_in_month_calendar in Hd by lia. rewrite days_of_civil_era by lia. cbn zeta.
  destruct (month_day (leap year) month day Hm Hd) as (Hma & _ & Hdoy).
  assert (Hdoy6 : 0 <= doy_of month day < 366) by (destruct (leap year); lia).
  pose proof (month_at_bound _ Hdoy6) as Hb. rewrite Hma in Hb. rewrite Hb.
  unfold year_start. destruct (Z.leb_spec 306 (doy_of month day)); Z.to_euclidean_division_equations; lia.
Qed.

Lemma instant_Some year month day hour minute second t : 0 <= year <= 9999 -> 0 <= hour -> 0 <= minute -> 0 <= second ->
  instant year month day hour minute second = Some t <->
  (1 <= month <= 12 /\ 1 <= day <= days_in_month year month /\ hour <= 23 /\ minute <= 59 /\ second <= 59) /\
  t = days_of_civil year month day * 86400 + hour * 3600 + minute * 60 + second /\ 0 <= t.
Proof.
  intros Hy Hh Hn Hs. unfold instant. cbn zeta.
  destruct (Z.leb_spec 1 month), (Z.leb_spec month 12); cbn [negb andb]; try (split; [done|lia]).
  destruct (Z.ltb_spec 23 hour), (Z.ltb_spec 59 minute), (Z.ltb_spec 59 second); cbn [negb orb]; try (split; [done|lia]).
  destruct (Z.leb_spec 1 day), (Z.leb_spec day (days_in_month year month)); cbn [negb andb]; try (split; [done|lia]).
  destruct (Z.leb_spec 0 (days_of_civil year month day * 86400 + hour * 3600 + minute * 60 + second)).
  - split; [intros [= <-]; lia|intros (_ & -> & _); done].
  - split; [done|lia].
Qed.

(** The seconds of a day, split and put together. *)
Lemma clock t days hour minute second : 0 <= hour <= 23 -> 0 <= minute <= 59 -> 0 <= second <= 59 ->
  t = days * 86400 + hour * 3600 + minute * 60 + second ->
  t / 86400 = days /\ t mod 86400 / 3600 = hour /\ t mod 86400 / 60 mod 60 = minute /\ t mod 86400 mod 60 = second.
Proof.
  intros Hh Hn Hs ->. set (r := hour * 3600 + minute * 60 + second).
  replace (days * 86400 + hour * 3600 + minute * 60 + second) with (days * 86400 + r) by (unfold r; lia).
  assert (Hr : 0 <= r < 86400) by (unfold r; lia).
  rewrite Z.div_add_l, (Z.div_small r) by lia. rewrite (Z.add_comm _ r), Z_mod_plus_full, (Z.mod_small r) by lia.
  split; [lia|]. unfold r. split; [|split]; Z.to_euclidean_division_equations; lia.
Qed.
Lemma rfc3339_of t days hour minute second : 0 <= hour <= 23 -> 0 <= minute <= 59 -> 0 <= second <= 59 ->
  t = days * 86400 + hour * 3600 + minute * 60 + second ->
  rfc3339_utc t = let c := civil_of_days days in
    stamp (padded 4 (cv_year c)) (padded 2 (cv_month c)) (padded 2 (cv_day c)) (padded 2 hour) (padded 2 minute) (padded 2 second).
Proof.
  intros Hh Hn Hs Ht. destruct (clock t days hour minute second Hh Hn Hs Ht) as (E1 & E2 & E3 & E4).
  unfold rfc3339_utc. cbn zeta. rewrite E1, E2, E3, E4. reflexivity.
Qed.

Lemma unsigned_stamp y1 y2 y3 y4 m1 m2 d1 d2 h1 h2 n1 n2 s1 s2 :
  unsigned_fields (stamp (four y1 y2 y3 y4) (two m1 m2) (two d1 d2) (two h1 h2) (two n1 n2) (two s1 s2)) =
  forallb is_ascii_digit [y1; y2; y3; y4; m1; m2; d1; d2; h1; h2; n1; n2; s1; s2].
Proof.
  change (unsigned_fields _) with (forallb digits_only [four y1 y2 y3 y4; two m1 m2; two d1 d2; two h1 h2; two n1 n2; two s1 s2]).
  unfold digits_only, four, two. cbn [forallb all_bytes].
  repeat match goal with |- context [is_ascii_digit ?c] => destruct (is_ascii_digit c); [|reflexivity] end. reflexivity.
Qed.

(** The parser reads back every expiry the pool writes. *)
Lemma expiry_reads_back t : 0 <= t < year_10000 ->
  parse_rfc3339_seconds (rfc3339_utc t) = Some t /\ unsigned_fields (rfc3339_utc t) = true.
Proof.
  intros Ht. unfold year_10000 in Ht.
  set (days := t / 86400). set (hour := t mod 86400 / 3600). set (minute := t mod 86400 / 60 mod 60). set (second := t mod 86400 mod 60).
  assert (Hr : 0 <= hour <= 23 /\ 0 <= minute <= 59 /\ 0 <= second <= 59 /\ t = days * 86400 + hour * 3600 + minute * 60 + second)
    by (unfold hour, minute, second, days; Z.to_euclidean_division_equations; lia).
  destruct Hr as (Hh & Hn & Hs & Et). rewrite (rfc3339_of t days hour minute second) by done. cbn zeta.
  destruct (days_of_civil_of_days days ltac:(unfold days; Z.to_euclidean_division_equations; lia)) as (Hback & Hy & Hm & Hd).
  set (c := civil_of_days days) in *. assert (Hd31 : cv_day c <= 31) by (unfold days_in_month in Hd; repeat case_match; lia).
  rewrite padded_four, !padded_two by lia.
  assert (Hq : forall n, 0 <= n < 100 -> is_ascii_digit (digit_char (n / 10)) = true /\ is_ascii_digit (digit_char (n mod 10)) = true /\
    parse_i64 (two (digit_char (n / 10)) (digit_char (n mod 10))) = Some n).
  { intros n Hb. destruct (digit_char_digit (n / 10)) as [H1 E1]; [Z.to_euclidean_division_equations; lia|].
    destruct (digit_char_digit (n mod 10)) as [H2 E2]; [Z.to_euclidean_division_equations; lia|].
    split; [done|]. split; [done|]. rewrite parse_two by done. rewrite E1, E2. f_equal. Z.to_euclidean_division_equations; lia. }
  destruct (digit_char_digit (cv_year c / 1000)) as [Hy1 Ey1]; [Z.to_euclidean_division_equations; lia|].
  destruct (digit_char_digit (cv_year c / 100 mod 10)) as [Hy2 Ey2]; [Z.to_euclidean_division_equations; lia|].
  destruct (digit_char_digit (cv_year c / 10 mod 10)) as [Hy3 Ey3]; [Z.to_euclidean_division_equations; lia|].
  destruct (digit_char_digit (cv_year c mod 10)) as [Hy4 Ey4]; [Z.to_euclidean_division_equations; lia|].
  destruct (Hq (cv_month c) ltac:(lia)) as (Ha1 & Hb1 & P1). destruct (Hq (cv_day c) ltac:(lia)) as (Ha2 & Hb2 & P2).
  destruct (Hq hour ltac:(lia)) as (Ha3 & Hb3 & P3). destruct (Hq minute ltac:(lia)) as (Ha4 & Hb4 & P4).
  destruct (Hq second ltac:(lia)) as (Ha5 & Hb5 & P5). split.
  - rewrite parse_stamp, parse_four, P1, P2, P3, P4, P5, Ey1, Ey2, Ey3, Ey4 by done. cbn [mbind option_bind].
    replace (1000 * _ + _ + _ + _) with (cv_year c) by (Z.to_euclidean_division_equations; lia).
    apply instant_Some; [lia..|]. rewrite Hback. lia.
  - rewrite unsigned_stamp. cbn [forallb]. by rewrite Hy1, Hy2, Hy3, Hy4, Ha1, Hb1, Ha2, Hb2, Ha3, Hb3, Ha4, Hb4, Ha5, Hb5.
Qed.

Lemma expiry_read_is_written s t : parse_rfc3339_seconds s = Some t -> unsigned_fields s = true ->
  0 <= t < year_10000 /\ s = rfc3339_utc t.
Proof.
  intros Hp Hu. destruct (stamp_of_text s t Hp) as (y1 & y2 & y3 & y4 & m1 & m2 & d1 & d2 & h1 & h2 & n1 & n2 & s1 & s2 & ->).
  rewrite unsigned_stamp in Hu. cbn [forallb] in Hu. rewrite !andb_true_iff in Hu.
  destruct Hu as (Y1 & Y2 & Y3 & Y4 & M1 & M2 & D1 & D2 & H1 & H2 & N1 & N2 & S1 & S2 & _).
  rewrite parse_stamp, parse_four, !parse_two in Hp by done. cbn [mbind option_bind] in Hp.
  pose proof (digit_range y1 Y1). pose proof (digit_range y2 Y2). pose proof (digit_range y3 Y3). pose proof (digit_range y4 Y4).
  pose proof (digit_range h1 H1). pose proof (digit_range h2 H2). pose proof (digit_range n1 N1). pose proof (digit_range n2 N2).
  pose proof (digit_range s1 S1). pose proof (digit_range s2 S2).
  apply instant_Some in Hp as ((Hm & Hd & Hh & Hn & Hs) & Ht & Hpos); [|lia..]. split.
  - pose proof (days_of_civil_bound (1000 * digit_of y1 + 100 * digit_of y2 + 10 * digit_of y3 + digit_of y4) _ _ ltac:(lia) Hm Hd).
    unfold year_10000. lia.
  - pose proof (fun h n s => rfc3339_of t _ _ _ _ h n s Ht) as E. rewrite E by lia. cbn zeta.
    rewrite civil_of_days_of_civil by lia. cbn [cv_year cv_month cv_day]. by rewrite padded_of_four, !padded_of_two.
Qed.

(** No text overflows the arithmetic: the fields are at most four bytes. *)
Lemma digits_from_small max s : forall acc n, 0 <= acc -> digits_from max acc s = Some n -> 0 <= n < (acc + 1) * 10 ^ Z.of_nat (String.length s).
Proof.
  induction s as [|c s IH]; intros acc n Ha H; [injection H as <-; simpl; lia|]. cbn [digits_from] in H.
  destruct (is_ascii_digit c) eqn:Hc; [|done]. cbn zeta in H. fold (byte c) in H. fold (digit_of c) in H. pose proof (digit_range c Hc).
  destruct (_ <=? max); [|done]. apply IH in H; [|lia]. cbn [String.length]. rewrite Nat2Z.inj_succ, Z.pow_succ_r by lia. nia.
Qed.
Lemma parse_i64_small s n : (String.length s <= 4)%nat -> parse_i64 s = Some n -> -9999 <= n <= 9999.
Proof.
  intros Hl. assert (Hb : forall m s k, (String.length s <= 4)%nat -> digits_from m 0 s = Some k -> 0 <= k <= 9999).
  { intros m s' k Hl' H. apply digits_from_small in H; [|lia]. 
    assert (10 ^ Z.of_nat (String.length s') <= 10 ^ 4) by (apply Z.pow_le_mono_r; lia). lia. }
  destruct s as [|c s]; [done|]. cbn [parse_i64]. cbn [String.length] in Hl.
  destruct ((byte c =? 43) || (byte c =? 45)); [|intros H; apply Hb in H; cbn [String.length]; lia].
  destruct s as [|d s]; [done|]. destruct (byte c =? 45).
  - destruct (digits_from _ 0 (String d s)) as [k|] eqn:E; [|done]. intros [= <-]. apply Hb in E; lia.
  - intros H. apply Hb in H; lia.
Qed.
Lemma length_substring i n s : (String.length (String.substring i n s) <= n)%nat.
Proof. revert i n. induction s as [|c s IH]; intros [|i] [|n]; simpl; try lia; [specialize (IH 0%nat n); lia|apply IH|apply (IH i (S n))]. Qed.
Lemma field_small s from to n : (to - from <= 4)%nat -> field s from to = Some n -> -9999 <= n <= 9999.
Proof. intros Hl. apply parse_i64_small. pose proof (length_substring from (to - from) s). lia. Qed.
Lemma instant_bound year month day hour minute second t : -9999 <= year <= 9999 ->
  instant year month day hour minute second = Some t -> 0 <= t <= i64_max.
Proof.
  intros Hy. unfold instant. destruct ((1 <=? month) && (month <=? 12)) eqn:Hm; [|done]. cbn [negb].
  destruct ((23 <? hour) || (59 <? minute) || (59 <? second)) eqn:Ht; [done|].
  destruct ((1 <=? day) && (day <=? days_in_month year month)) eqn:Hd; [|done]. cbn [negb]. cbn zeta.
  destruct (Z.leb_spec 0 (days_of_civil year month day * 86400 + hour * 3600 + minute * 60 + second)) as [Hp|]; [|done]. intros [= <-].
  rewrite andb_true_iff, !Z.leb_le in Hm, Hd. rewrite !orb_false_iff, !Z.ltb_ge in Ht.
  assert (days_in_month year month <= 31) by (unfold days_in_month; repeat case_match; lia).
  assert (days_of_civil year month day <= 10000000); [|unfold i64_max; lia].
  unfold days_of_civil. cbn zeta. set (y := if month <=? 2 then year - 1 else year). assert (y <= 9999) by (unfold y; case_match; lia).
  set (era := Z.quot (if 0 <=? y then y else y - 399) 400).
  assert (era <= 24 /\ 0 <= y - era * 400 < 400) as [He Hyoe] by (unfold era; destruct (Z.leb_spec 0 y); Z.to_euclidean_division_equations; lia).
  set (yoe := y - era * 400) in *. rewrite Z.rem_mod_nonneg by lia. pose proof (Z.mod_pos_bound (month + 9) 12 ltac:(lia)).
  rewrite !Z.quot_div_nonneg by lia. Z.to_euclidean_division_equations; lia.
Qed.
Lemma expiry_bound s t : parse_rfc3339_seconds s = Some t -> 0 <= t <= i64_max.
Proof.
  unfold parse_rfc3339_seconds. do 2 (case_match; [done|]).
  destruct (field s 0 4) as [year|] eqn:Hy; [|done]. apply field_small in Hy; [|lia]. cbn [mbind option_bind].
  destruct (field s 5 7); [|done]. destruct (field s 8 10); [|done]. destruct (field s 11 13); [|done].
  destruct (field s 14 16); [|done]. destruct (field s 17 19); [|done]. by apply instant_bound.
Qed.

(** ** What a signature is for *)

Lemma append_same_length a b x y : String.length x = String.length y -> String.append a x = String.append b y -> a = b /\ x = y.
Proof.
  revert b. induction a as [|c a IH]; intros [|d b] Hl H; [done| | |].
  - change (x = String d (String.append b y)) in H. subst x. cbn in Hl. rewrite length_append in Hl. lia.
  - change (String c (String.append a x) = y) in H. subst y. cbn in Hl. rewrite length_append in Hl. lia.
  - change (String c (String.append a x) = String d (String.append b y)) in H. injection H as -> H. by apply IH in H as [-> ->].
Qed.
Lemma parsed_length s t : parse_rfc3339_seconds s = Some t -> String.length s = 20%nat.
Proof. unfold parse_rfc3339_seconds. by destruct (Nat.eqb_spec (String.length s) 20). Qed.
Lemma purpose_avoids p : avoids nl (LoginPurpose_as_str p).
Proof. destruct p; vm_compute; reflexivity. Qed.
Lemma purpose_inj p q : LoginPurpose_as_str p = LoginPurpose_as_str q -> p = q.
Proof. by destruct p, q. Qed.

(** ** Properties *)

(** A signed expiry has one spelling, the pool's.  The parser reads a text
    whose six fields are digits as an instant exactly when the text is what
    [rfc3339_utc] writes for that instant, and it reads back every instant up to
    the end of the year 9999. *)
Theorem expiry_has_one_spelling s t :
  parse_rfc3339_seconds s = Some t /\ unsigned_fields s = true <-> 0 <= t < year_10000 /\ s = rfc3339_utc t.
Proof.
  split; [intros [Hp Hu]; by apply expiry_read_is_written|]. intros [Ht ->]. by apply expiry_reads_back.
Qed.

(** A signed text says which login it is for.  Two logins whose expiries the
    parser accepts and whose pool domains hold no line break have the same text
    only when pool domain, chain, purpose, nonce and expiry are all the same,
    whatever bytes a caller put in the nonce: a signature for one of them is a
    signature over a different message for any other. *)
Theorem login_text_names_its_login d c p n e t d' c' p' n' e' t' :
  avoids nl d -> avoids nl d' -> 0 <= c -> 0 <= c' ->
  parse_rfc3339_seconds e = Some t -> parse_rfc3339_seconds e' = Some t' ->
  login_signing_string d c p n e = login_signing_string d' c' p' n' e' ->
  d = d' /\ c = c' /\ p = p' /\ n = n' /\ e = e'.
Proof.
  intros Hd Hd' Hc Hc' Ht Ht' H. unfold login_signing_string, lines in H.
  apply (line_inj "TIG-POOL-LOGIN-V1" "TIG-POOL-LOGIN-V1") in H as [_ H]; [|vm_compute; reflexivity..].
  apply line_inj in H as [-> H]; [|done..]. apply line_inj in H as [Ec H]; [|by apply pretty_avoids..].
  apply line_inj in H as [Ep H]; [|apply purpose_avoids..].
  cbn [String.concat] in H. rewrite <- !append_assoc in H.
  apply append_same_length in H as [H ->]; [|by rewrite (parsed_length _ _ Ht), (parsed_length _ _ Ht')].
  apply append_same_length in H as [-> _]; [|done]. apply (inj pretty) in Ec. apply purpose_inj in Ep. split; [done|]. split; [lia|done].
Qed.

Lemma login_text_names_its_login_witness :
  "p.example" = "p.example" /\ 8453 = 8453 /\ WorkerEnrollment = WorkerEnrollment /\ "ab" = "ab" /\ "2026-01-01T00:00:00Z" = "2026-01-01T00:00:00Z".
Proof.
  apply (login_text_names_its_login "p.example" 8453 WorkerEnrollment "ab" "2026-01-01T00:00:00Z" 1767225600
    "p.example" 8453 WorkerEnrollment "ab" "2026-01-01T00:00:00Z" 1767225600);
    [vm_compute; reflexivity|vm_compute; reflexivity|lia|lia|vm_compute; reflexivity|vm_compute; reflexivity|reflexivity].
Defined.
(** The same nonce signed for recovery is another message. *)
Example purposes_are_apart : ~ login_signing_string "p.example" 8453 WorkerEnrollment "ab" "2026-01-01T00:00:00Z" =
  login_signing_string "p.example" 8453 WorkerRecovery "ab" "2026-01-01T00:00:00Z".
Proof. vm_compute. discriminate. Qed.

(** A signed field is read with its sign, so an instant has spellings the pool
    never writes. *)
Example signed_fields_are_second_spellings :
  parse_rfc3339_seconds "2026-01-01T-1:00:00Z" = Some 1767222000 /\ parse_rfc3339_seconds "2025-12-31T23:00:00Z" = Some 1767222000 /\
  parse_rfc3339_seconds "2026-+1-+1T00:00:00Z" = parse_rfc3339_seconds "2026-01-01T00:00:00Z".
Proof. split; [|split]; vm_compute; reflexivity. Qed.
