(* ===== verification/KeyFile.v ===== *)
(** * Key files: [crates/pool-api/src/ticket_key.rs] and
    [crates/tig-gateway/src/credential.rs]

    Both services load one secret from a file: opened first, judged on the
    open handle, read, and stripped of the line end an editor leaves.  The file
    system is an argument: what opening, the handle's metadata and reading
    answer. *)
From S2P Require Import Prelude Text Domain.
Open Scope Z_scope.

Record Metadata := MkMetadata { md_mode : Z; md_len : Z }.
(** An error of a call is its text, which the loader reports. *)
Record Handle := MkHandle { hd_metadata : result string Metadata; hd_contents : result string (list Z) }.
Inductive Opened := OpenNotFound | OpenFailed (reason : string) | OpenedAs (h : Handle).

(** [mode() & 0o777], and whether anyone but the owner may use the file. *)
Definition permission_bits (m : Metadata) : Z := Z.land (md_mode m) 511.
Definition beyond_owner (mode : Z) : bool := negb (Z.land mode 63 =? 0).

Definition is_line_end (b : Z) : bool := (b =? 10) || (b =? 13).
Fixpoint drop_line_ends (l : list Z) : list Z :=
  match l with [] => [] | b :: l' => if is_line_end b then drop_line_ends l' else l end.
(** The [pop] loop of [load], and [trim_end_matches(['\n', '\r'])]. *)
Definition trim_line_ends (l : list Z) : list Z := reverse (drop_line_ends (reverse l)).

(** [read_to_string] refuses bytes that are not UTF-8. *)
Definition is_cont (b : Z) : bool := (128 <=? b) && (b <=? 191).
Definition between (a x b : Z) : bool := (a <=? x) && (x <=? b).
Fixpoint utf8_valid (l : list Z) : bool :=
  match l with
  | [] => true
  | b :: l1 =>
      if between 0 b 127 then utf8_valid l1
      else match l1 with
      | [] => false
      | c :: l2 =>
          if between 194 b 223 then is_cont c && utf8_valid l2
          else match l2 with
          | [] => false
          | d :: l3 =>
              if (b =? 224) && between 160 c 191 || between 225 b 236 && is_cont c || (b =? 237) && between 128 c 159 || between 238 b 239 && is_cont c
              then is_cont d && utf8_valid l3
              else match l3 with
              | [] => false
              | e :: l4 =>
                  ((b =? 240) && between 144 c 191 || between 241 b 243 && is_cont c || (b =? 244) && between 128 c 143) &&
                  is_cont d && is_cont e && utf8_valid l4
              end
          end
      end
  end.

(** ** The ticket key *)

Inductive TicketKeyError :=
| TkMissing (path : string) | TkTooPermissive (path : string) (mode : Z) | TkTooShort (path : string) (bytes : Z)
| TkNotText (path : string) | TkTooLarge (path : string) (bytes : Z) | TkUnreadable (path reason : string).
Definition TICKET_MIN_KEY_BYTES : Z := 32.
Definition TICKET_MAX_KEY_BYTES : Z := 4096.
Definition printable (b : Z) : bool := between 33 b 126.
Definition load_ticket_file (open : string -> Opened) (path : string) : result TicketKeyError (list Z) :=
  match open path with
  | OpenNotFound => Err (TkMissing path)
  | OpenFailed reason => Err (TkUnreadable path reason)
  | OpenedAs file =>
      let? metadata := map_err (TkUnreadable path) (hd_metadata file) in
      let mode := permission_bits metadata in
      if beyond_owner mode then Err (TkTooPermissive path mode)
      else if TICKET_MAX_KEY_BYTES <? md_len metadata then Err (TkTooLarge path (md_len metadata))
      else
        let? contents := map_err (TkUnreadable path) (hd_contents file) in
        let key := trim_line_ends contents in
        if negb (forallb printable key) then Err (TkNotText path)
        else if Z.of_nat (length key) <? TICKET_MIN_KEY_BYTES then Err (TkTooShort path (Z.of_nat (length key)))
        else Ok key
  end.


(** ** The TIG API key *)

Inductive CredentialError :=
| CrMissing (path : string) | CrTooPermissive (path : string) (mode : Z) | CrEmpty (path : string) | CrUnreadable (path reason : string).
Definition API_MAX_KEY_BYTES : Z := 4096.
Definition load_api_key (open : string -> Opened) (oversized not_utf8 : string) (path : string) : result CredentialError (list Z) :=
  match open path with
  | OpenNotFound => Err (CrMissing path)
  | OpenFailed reason => Err (CrUnreadable path reason)
  | OpenedAs file =>
      let? metadata := map_err (CrUnreadable path) (hd_metadata file) in
      let mode := permission_bits metadata in
      if beyond_owner mode then Err (CrTooPermissive path mode)
      else if API_MAX_KEY_BYTES <? md_len metadata then Err (CrUnreadable path oversized)
      else
        let? contents := map_err (CrUnreadable path) (hd_contents file) in
        if negb (utf8_valid contents) then Err (CrUnreadable path not_utf8)
        else
          let key := trim_line_ends contents in
          match key with [] => Err (CrEmpty path) | _ => Ok key end
  end.
Definition is_present (key : list Z) : bool := match key with [] => false | _ => true end.

(** ** Trimming *)

(** A text ends where it stops being line ends: the part before is the key and
    its last byte is not a line end. *)
Definition ends_in_text (l : list Z) : Prop := forall b, last l = Some b -> is_line_end b = false.
Lemma drop_line_ends_split l : exists ends, l = ends ++ drop_line_ends l /\ Forall (fun b => is_line_end b = true) ends.
Proof.
  induction l as [|b l (ends & IH & He)]; [by exists []|]. simpl. destruct (is_line_end b) eqn:Hb; [|by exists []].
  exists (b :: ends). split; [simpl; by rewrite <- IH|by constructor].
Qed.
Lemma drop_line_ends_head l b : head (drop_line_ends l) = Some b -> is_line_end b = false.
Proof. induction l as [|c l IH]; [done|]. simpl. destruct (is_line_end c) eqn:Hc; [done|]. by intros [= <-]. Qed.
Lemma drop_line_ends_all ends l : Forall (fun b => is_line_end b = true) ends -> drop_line_ends (ends ++ l) = drop_line_ends l.
Proof. induction 1 as [|b ends Hb _ IH]; [done|]. simpl. by rewrite Hb. Qed.
Lemma trim_line_ends_iff l key : trim_line_ends l = key <->
  exists ends, l = key ++ ends /\ Forall (fun b => is_line_end b = true) ends /\ ends_in_text key.
Proof.
  unfold trim_line_ends. split.
  - intros <-. destruct (drop_line_ends_split (reverse l)) as (ends & Hl & He). exists (reverse ends).
    split; [by rewrite <- reverse_app, <- Hl, reverse_involutive|]. split; [by apply Forall_reverse|].
    intros b. rewrite last_reverse. apply drop_line_ends_head.
  - intros (ends & -> & He & Hk). rewrite reverse_app, drop_line_ends_all by (by apply Forall_reverse).
    rewrite <- (reverse_involutive key) at 2. f_equal. destruct (reverse key) as [|b r] eqn:Er; [done|].
    simpl. rewrite (Hk b); [done|]. by rewrite <- head_reverse, Er.
Qed.

(** ** Properties *)

(** The ticket key is the file's text and nothing else is accepted.  The
    loader returns a key exactly for a file that opens, whose owner alone has any
    permission on it, of at most 4096 bytes, that holds the key followed by
    nothing but line ends, where the key is at least 32 printable bytes. *)
Theorem ticket_key_exact open path key : load_ticket_file open path = Ok key <->
  exists mode len contents ends,
    open path = OpenedAs (MkHandle (Ok (MkMetadata mode len)) (Ok contents)) /\
    Z.land (Z.land mode 511) 63 = 0 /\ len <= 4096 /\
    contents = key ++ ends /\ Forall (fun b => b = 10 \/ b = 13) ends /\
    Forall (fun b => 33 <= b <= 126) key /\ 32 <= Z.of_nat (length key).
Proof.
  unfold load_ticket_file, TICKET_MAX_KEY_BYTES, TICKET_MIN_KEY_BYTES. split.
  - intros H. destruct (open path) as [|reason|[[[mode len]|e] [contents|e1]]]; try discriminate H; cbn in H;
      unfold permission_bits, beyond_owner in H; cbn in H;
      destruct (Z.eqb_spec (Z.land (Z.land mode 511) 63) 0) as [Hm|]; try discriminate H; cbn in H;
      destruct (Z.ltb_spec 4096 len) as [|Hlen]; try discriminate H; cbn in H.
    destruct (forallb printable (trim_line_ends contents)) eqn:Hp; [|discriminate H]. cbn in H.
    destruct (Z.ltb_spec (Z.of_nat (length (trim_line_ends contents))) 32) as [|Hl]; [discriminate H|]. injection H as H.
    rewrite H in Hp, Hl. apply trim_line_ends_iff in H as (ends & Hc & He & _).
    exists mode, len, contents, ends. split_and!; try done.
    + eapply Forall_impl; [exact He|]. intros b. unfold is_line_end. rewrite orb_true_iff, !Z.eqb_eq. done.
    + apply Forall_forall. intros b Hb. rewrite forallb_forall in Hp.
      specialize (Hp b ltac:(by apply list_elem_of_In)). unfold printable, between in Hp. rewrite andb_true_iff, !Z.leb_le in Hp. done.
  - intros (mode & len & contents & ends & -> & Hm & Hlen & Hc & He & Hk & Hl). cbn.
    unfold permission_bits, beyond_owner. cbn. rewrite Hm. cbn. destruct (Z.ltb_spec 4096 len); [lia|].
    assert (trim_line_ends contents = key) as ->.
    { apply trim_line_ends_iff. exists ends. split_and!; [done| |].
      - eapply Forall_impl; [exact He|]. intros b. unfold is_line_end. rewrite orb_true_iff, !Z.eqb_eq. done.
      - intros b Hb. assert (b ∈ key) as Hin by (by apply last_Some_elem_of). rewrite Forall_forall in Hk. specialize (Hk b Hin).
        unfold is_line_end. rewrite orb_false_iff, !Z.eqb_neq. lia. }
    replace (forallb printable key) with true; [cbn; destruct (Z.ltb_spec (Z.of_nat (length key)) 32); [lia|done]|].
    symmetry. apply forallb_forall. intros b Hb%list_elem_of_In. rewrite Forall_forall in Hk. specialize (Hk b Hb).
    unfold printable, between. rewrite andb_true_iff, !Z.leb_le. done.
Qed.

(** The API key is the file's text up to its line ends.  The gateway's loader
    returns a key exactly for a file that opens, whose owner alone has any
    permission on it, of at most 4096 bytes of UTF-8, that holds the key and
    then nothing but line ends, where the key is not empty and does not itself
    end in one: so a loaded key is always reported as present. *)
Theorem api_key_exact open oversized not_utf8 path key : load_api_key open oversized not_utf8 path = Ok key <->
  (exists mode len contents ends,
    open path = OpenedAs (MkHandle (Ok (MkMetadata mode len)) (Ok contents)) /\
    Z.land (Z.land mode 511) 63 = 0 /\ len <= 4096 /\ utf8_valid contents = true /\
    contents = key ++ ends /\ Forall (fun b => is_line_end b = true) ends) /\
  ends_in_text key /\ is_present key = true.
Proof.
  unfold load_api_key, API_MAX_KEY_BYTES. split.
  - intros H. destruct (open path) as [|reason|[[[mode len]|e] [contents|e1]]]; try discriminate H; cbn in H;
      unfold permission_bits, beyond_owner in H; cbn in H;
      destruct (Z.eqb_spec (Z.land (Z.land mode 511) 63) 0) as [Hm|]; try discriminate H; cbn in H;
      destruct (Z.ltb_spec 4096 len) as [|Hlen]; try discriminate H; cbn in H.
    destruct (utf8_valid contents) eqn:Hu; [|discriminate H]. cbn in H.
    destruct (trim_line_ends contents) as [|b k] eqn:Ht; [discriminate H|]. injection H as <-.
    apply trim_line_ends_iff in Ht as (ends & Hc & He & Hk). split; [by exists mode, len, contents, ends|done].
  - intros ((mode & len & contents & ends & -> & Hm & Hlen & Hu & Hc & He) & Hk & Hp). cbn.
    unfold permission_bits, beyond_owner. cbn. rewrite Hm. cbn. destruct (Z.ltb_spec 4096 len); [lia|]. rewrite Hu. cbn.
    replace (trim_line_ends contents) with key by (symmetry; apply trim_line_ends_iff; by exists ends). by destruct key.
Qed.

Definition sample_file (mode : Z) (text : string) : Opened := OpenedAs (MkHandle (Ok (MkMetadata mode (Z.of_nat (String.length text)))) (Ok (as_bytes text))).
Example key_files :
  let key := "0123456789abcdef0123456789abcdef" in
  load_ticket_file (fun _ => sample_file 33152 (String.append key newline)) "k" = Ok (as_bytes key) /\
  load_ticket_file (fun _ => sample_file 33188 key) "k" = Err (TkTooPermissive "k" 420) /\
  load_ticket_file (fun _ => sample_file 33152 (String.append newline key)) "k" = Err (TkNotText "k") /\
  load_ticket_file (fun _ => sample_file 33152 "short") "k" = Err (TkTooShort "k" 5) /\
  load_api_key (fun _ => sample_file 33152 newline) "" "" "k" = Err (CrEmpty "k") /\
  load_api_key (fun _ => OpenedAs (MkHandle (Ok (MkMetadata 33152 2)) (Ok [195; 40]))) "" "invalid" "k" = Err (CrUnreadable "k" "invalid").
Proof. vm_compute. split_and!; reflexivity. Qed.
