(* ===== verification/MemberApi.v ===== *)
(** * The member API's answers: [error.rs], [protocol.rs] and [service.rs] of
    [crates/pool-api/src]

    The one error shape, the public protocol read, the fallback, and the
    middleware that restates what the framework answered by itself.  A response
    is its status, its body as a JSON value or text, and the marker of a body
    this service wrote; the text of a timestamp is the [time] crate's and a
    parameter. *)
From S2P Require Import Prelude Text BTreeMap Json Domain Config KeyFile.
Open Scope Z_scope.

Definition PROTOCOL_VERSION : string := "0.1.0".
Definition PACKAGE_FORMAT : string := "proof-material-v1".
Definition REQUEST_CLOCK_SKEW_SECONDS : Z := 300.
Definition HEARTBEAT_INTERVAL_SECONDS : Z := 30.

Record ErrorResponse := MkErrorResponse {
  ep_protocol_version : string; ep_error_code : string; ep_message : string; ep_retryable : bool;
  ep_request_id : option string; ep_server_time : string }.
Record ApiError := MkApiError {
  ae_status : Z; ae_error_code : string; ae_message : string; ae_retryable : bool; ae_request_id : option string }.
Definition echoing (e : ApiError) (request_id : string) : ApiError :=
  MkApiError (ae_status e) (ae_error_code e) (ae_message e) (ae_retryable e) (Some request_id).
Definition unknown_route_error : ApiError := MkApiError 404 "UNKNOWN_ROUTE" "no such route in this protocol version" false None.
Definition method_not_allowed : ApiError := MkApiError 405 "METHOD_NOT_ALLOWED" "that route does not accept this method" false None.
Definition body_too_large : ApiError := MkApiError 413 "BODY_TOO_LARGE" "control message body exceeds this deployment's limit" false None.

(** What is sent: [skip_serializing_if] leaves an absent request id out. *)
Inductive Body := NoBody | TextBody (s : string) | JsonBody (v : Value).
Record Response := MkResponse { rs_status : Z; rs_body : Body; rs_no_store : bool; rs_shaped : bool }.
Definition ErrorResponse_to_value (r : ErrorResponse) : Value := json_object
  ([("protocol_version", JString (ep_protocol_version r)); ("error_code", JString (ep_error_code r)); ("message", JString (ep_message r));
    ("retryable", JBool (ep_retryable r))] ++
   match ep_request_id r with Some id => [("request_id", JString id)] | None => [] end ++
   [("server_time", JString (ep_server_time r))]).
Definition body (e : ApiError) (server_time : string) : ErrorResponse :=
  MkErrorResponse PROTOCOL_VERSION (ae_error_code e) (ae_message e) (ae_retryable e) (ae_request_id e) server_time.
Definition into_response_at (e : ApiError) (server_time : string) : Response :=
  MkResponse (ae_status e) (JsonBody (ErrorResponse_to_value (body e server_time))) false true.
Definition no_server_time : Response := MkResponse 503 NoBody false false.

Record ProtocolInfo := MkProtocolInfo {
  pi_supported_protocol_versions : list string; pi_supported_package_formats : list string; pi_server_time : string;
  pi_request_clock_skew_seconds : Z; pi_heartbeat_interval_seconds : Z }.
Definition ProtocolInfo_at (server_time : string) : ProtocolInfo :=
  MkProtocolInfo [PROTOCOL_VERSION] [PACKAGE_FORMAT] server_time REQUEST_CLOCK_SKEW_SECONDS HEARTBEAT_INTERVAL_SECONDS.
Definition ProtocolInfo_to_value (p : ProtocolInfo) : Value := json_object
  [("supported_protocol_versions", JArray (map JString (pi_supported_protocol_versions p)));
   ("supported_package_formats", JArray (map JString (pi_supported_package_formats p)));
   ("server_time", JString (pi_server_time p)); ("request_clock_skew_seconds", json_u64 (pi_request_clock_skew_seconds p));
   ("heartbeat_interval_seconds", json_u64 (pi_heartbeat_interval_seconds p))].

(** An instant of the server's clock: Unix seconds, with the nanoseconds the
    timestamp drops. *)
Record Instant := MkInstant { in_secs : Z; in_nanos : Z }.

Section clock.
(** [format] with [Rfc3339] of an instant without nanoseconds; [None] when its
    year has no such form. *)
Context (format_rfc3339 : Z -> option string).
Definition ServerTime_at (now : Instant) : option string := format_rfc3339 (in_secs now).

Definition protocol (now : Instant) : Response :=
  match ServerTime_at now with
  | None => no_server_time
  | Some server_time => MkResponse 200 (JsonBody (ProtocolInfo_to_value (ProtocolInfo_at server_time))) true false
  end.
Definition unknown_route (now : Instant) : Response :=
  match ServerTime_at now with
  | None => no_server_time
  | Some server_time => into_response_at unknown_route_error server_time
  end.

Definition framework_error (response : Response) : option ApiError :=
  if rs_shaped response then None
  else if rs_status response =? 405 then Some method_not_allowed
  else if rs_status response =? 413 then Some body_too_large
  else None.
(** The middleware reads the clock after the handlers answered. *)
Definition protocol_shaped_errors (now : Instant) (response : Response) : Response :=
  match framework_error response with
  | None => response
  | Some error =>
      match ServerTime_at now with
      | None => no_server_time
      | Some server_time => into_response_at error server_time
      end
  end.
End clock.

(** ** Starting *)

Definition load_ticket_key (open : string -> Opened) (api : MemberApiConfig) : result TicketKeyError (list Z) :=
  load_ticket_file open (ma_ticket_hmac_key_file api).
Definition preflight (open : string -> Opened) (api : MemberApiConfig) : result TicketKeyError unit :=
  let? _ := load_ticket_key open api in Ok tt.
Inductive RunError :=
| NoMemberApiSection | TicketKeyUnusable (e : TicketKeyError) | DatabaseUrlUnusable | DatabaseUnreachable | ListenNotAddress | CannotBind | ServeFailed.
Record Environment := MkEnvironment {
  en_open : string -> Opened; en_database_url : option string; en_connect : string -> bool; en_is_address : string -> bool;
  en_bind : string -> bool; en_serves : bool }.
(** What [run] does up to the listener, in order, and then what serving ends
    with. *)
Definition run (env : Environment) (member_api : option MemberApiConfig) : result RunError unit :=
  let? api := ok_or member_api NoMemberApiSection in
  let? _ := map_err TicketKeyUnusable (load_ticket_key (en_open env) api) in
  let? url := ok_or (en_database_url env) DatabaseUrlUnusable in
  if negb (en_connect env url) then Err DatabaseUnreachable
  else if negb (en_is_address env (ma_listen api)) then Err ListenNotAddress
  else if negb (en_bind env (ma_listen api)) then Err CannotBind
  else if en_serves env then Ok tt else Err ServeFailed.

(** ** Properties *)

(** An answer is an error in the one shape. *)
Definition is_error_shape (v : Value) : Prop :=
  exists code message retryable server_time,
    json_get "protocol_version" v = Some (JString PROTOCOL_VERSION) /\ json_get "error_code" v = Some (JString code) /\
    json_get "message" v = Some (JString message) /\ json_get "retryable" v = Some (JBool retryable) /\
    json_get "server_time" v = Some (JString server_time).
Lemma error_body_shape e server_time : is_error_shape (ErrorResponse_to_value (body e server_time)).
Proof. exists (ae_error_code e), (ae_message e), (ae_retryable e), server_time. destruct e as [s c m r [id|]]; vm_compute; done. Qed.
Lemma error_body_echo e server_time :
  json_get "request_id" (ErrorResponse_to_value (body e server_time)) = JString <$> ae_request_id e.
Proof. destruct e as [s c m r [id|]]; vm_compute; done. Qed.
