(* ===== verification/Account.v ===== *)
(** * The account routes: [crates/pool-api/src/account.rs]

    A member proves a wallet and is issued an enrollment ticket, in one
    transaction over the tables of migrations 0018 and 0026.  A transaction is
    atomic: [INSERT ... ON CONFLICT DO NOTHING] waits for the other holder of its
    key, so transactions on one key are serial.  Any statement may fail, and a
    commit may take effect without its answer arriving. *)
From S2P Require Import Prelude Text BTreeMap Json Domain Config KeyFile IdentityStore Identity Wallet MemberApi.
Open Scope Z_scope.

Definition TICKET_LIFETIME_SECONDS : Z := 15 * 60.
Definition LOGIN_MAX_LIFETIME_SECONDS : Z := 15 * 60.

Record EnrollmentTicketRequest := MkTicketRequest { tr_nonce : string; tr_expires_at : string; tr_signature : string }.
Definition EnrollmentTicketRequest_from_value (v : Value) : option EnrollmentTicketRequest :=
  fields ← struct_fields true ["nonce"; "expires_at"; "signature"] v;
  match fields with
  | [nonce; expires_at; signature] =>
      nonce ← json_as_str nonce; expires_at ← json_as_str expires_at; signature ← json_as_str signature;
      Some (MkTicketRequest nonce expires_at signature)
  | _ => None
  end.
Record EnrollmentTicketResponse := MkTicketResponse { tp_ticket : string; tp_expires_at : string; tp_member_id : string }.
Definition EnrollmentTicketResponse_to_value (r : EnrollmentTicketResponse) : Value := json_object
  [("ticket", JString (tp_ticket r)); ("expires_at", JString (tp_expires_at r)); ("member_id", JString (tp_member_id r))].

Definition not_authenticated : ApiError := MkApiError 401 "NOT_AUTHENTICATED" "that signature does not authorise a ticket" false None.
Definition unavailable : ApiError := MkApiError 503 "TEMPORARILY_UNAVAILABLE" "the pool could not complete this request" true None.
Definition malformed_request : ApiError :=
  MkApiError 400 "MALFORMED_REQUEST" "the request body is not the shape this route accepts" false None.

(** ** The tables

    [pool.member] by network and wallet, which its unique index makes a key;
    [pool.wallet_login_nonce] with the expiry that bounds its memory;
    [pool.enrollment_ticket] by the bearer's HMAC.  Instants are in seconds. *)
Record TicketRow := MkTicketRow { tk_member_id : string; tk_purpose : string; tk_expires_at : Z; tk_created_at : Z }.
Record AccountDb := MkAccountDb {
  ad_members : gmap (string * string) string;
  ad_nonces : gmap (string * string * string) Z;
  ad_tickets : gmap (string * list Z) TicketRow;
  ad_now : Z;
}.

(** The columns' CHECKs: [^0x[0-9a-f]{40}$] and [^[0-9a-f]{32,128}$]. *)
Definition wallet_check (address : string) : bool :=
  match strip_prefix "0x" address with Some hex => Nat.eqb (String.length hex) 40 && all_bytes is_lower_hex hex | None => false end.
Definition nonce_check (nonce : string) : bool :=
  Nat.leb 32 (String.length nonce) && Nat.leb (String.length nonce) 128 && all_bytes is_lower_hex nonce.

(** The three inserts.  [None] is an error of the database: a CHECK, or a key
    the statement's [ON CONFLICT] does not name. *)
Definition spend_nonce (network address nonce : string) (expires_at : Z) (db : AccountDb) : option (Z * AccountDb) :=
  if negb (wallet_check address && nonce_check nonce) then None
  else match ad_nonces db !! (network, address, nonce) with
       | Some _ => Some (0, db)
       | None => Some (1, MkAccountDb (ad_members db) (<[(network, address, nonce) := expires_at]> (ad_nonces db)) (ad_tickets db) (ad_now db))
       end.
Definition member_id_taken (network member_id : string) (db : AccountDb) : bool :=
  existsb (fun kv => String.eqb kv.1.1 network && String.eqb kv.2 member_id) (map_to_list (ad_members db)).
Definition insert_member (network address fresh : string) (db : AccountDb) : option (option string * AccountDb) :=
  if negb (wallet_check address) then None
  else match ad_members db !! (network, address) with
       | Some _ => Some (None, db)
       | None =>
           if member_id_taken network fresh db then None
           else Some (Some fresh, MkAccountDb (<[(network, address) := fresh]> (ad_members db)) (ad_nonces db) (ad_tickets db) (ad_now db))
       end.
Definition insert_ticket (network : string) (hmac : list Z) (member_id : string) (db : AccountDb) : option (Z * AccountDb) :=
  if negb (Nat.eqb (length hmac) 32) then None
  else match ad_tickets db !! (network, hmac) with
       | Some _ => None
       | None =>
           let expires_at := ad_now db + TICKET_LIFETIME_SECONDS in
           Some (expires_at, MkAccountDb (ad_members db) (ad_nonces db)
             (<[(network, hmac) := MkTicketRow member_id "WORKER_ENROLLMENT" expires_at (ad_now db)]> (ad_tickets db)) (ad_now db))
       end.

(** ** One request *)

Record AccountState := MkAccountState {
  as_key : list Z; as_network : string; as_pool_domain : string; as_login_chain_id : Z }.
Inductive CommitOutcome := Committed | CommitFailed | CommitLost.
(** What the world answers while a request runs: which statements fail, what
    the commit does, the random bytes and the database's random UUID. *)
Record World := MkWorld {
  wo_begin_fails : bool; wo_nonce_fails : bool; wo_member_fails : bool; wo_read_fails : bool; wo_ticket_fails : bool;
  wo_commit : CommitOutcome; wo_random : option (list Z); wo_uuid : string }.

Section account.
Context {Key : Type} (keccak256 : list Z -> list Z) (recover_key : list Z -> list Z -> Z -> option Key) (encoded_point : Key -> list Z).
Context (hmac_sha256 : list Z -> list Z -> list Z) (b64url : list Z -> string) (to_char : Z -> string).
Context (format_rfc3339 : Z -> option string).
Abbreviation recover_login_address := (recover_login_address keccak256 recover_key encoded_point).

Definition mint_bearer (random : option (list Z)) : result ApiError string :=
  let? bytes := ok_or random unavailable in Ok (b64url bytes).
Definition ok_unless {A} (fails : bool) (o : option A) : result ApiError A := if fails then Err unavailable else ok_or o unavailable.

(** The signature and its two time bounds, before any statement. *)
Definition prove_login (state : AccountState) (request : EnrollmentTicketRequest) (now : Instant) : result ApiError ProvedLogin :=
  let expectation := MkLoginExpectation (as_pool_domain state) (as_login_chain_id state) WorkerEnrollment (tr_nonce request) (tr_expires_at request) in
  let now_unix := if 0 <=? in_secs now then in_secs now else 0 in
  let? proved := map_err (fun _ => not_authenticated) (recover_login_address expectation (tr_signature request) now_unix) in
  if Z.min u64_max (now_unix + LOGIN_MAX_LIFETIME_SECONDS) <? pl_expires_at_unix proved then Err not_authenticated
  else Ok proved.
Definition read_member (network address : string) (db : AccountDb) : option string := ad_members db !! (network, address).
(** The statements of the transaction, up to the commit. *)
Definition in_transaction (state : AccountState) (request : EnrollmentTicketRequest) (proved : ProvedLogin) (world : World) (db : AccountDb)
  : result ApiError (EnrollmentTicketResponse * AccountDb) :=
  let network := as_network state in
  let address := pl_address proved in
  let expires := if pl_expires_at_unix proved <=? i64_max then pl_expires_at_unix proved else i64_max in
  let? spent := ok_unless (wo_nonce_fails world) (spend_nonce network address (tr_nonce request) expires db) in
  if negb (spent.1 =? 1) then Err not_authenticated
  else
    let? existing := ok_unless (wo_member_fails world) (insert_member network address (wo_uuid world) spent.2) in
    let? member_id := match existing.1 with
                      | Some created => Ok created
                      | None => ok_unless (wo_read_fails world) (read_member network address existing.2)
                      end in
    let? bearer := mint_bearer (wo_random world) in
    let? stored := ok_unless (wo_ticket_fails world) (insert_ticket network (hmac_sha256 (as_key state) (as_bytes bearer)) member_id existing.2) in
    Ok (MkTicketResponse bearer (to_char stored.1) member_id, stored.2).
(** A transaction that does not commit is rolled back. *)
Definition issue_ticket (state : AccountState) (request : EnrollmentTicketRequest) (now : Instant) (world : World) (db : AccountDb)
  : result ApiError EnrollmentTicketResponse * AccountDb :=
  match prove_login state request now with
  | Err e => (Err e, db)
  | Ok proved =>
      if wo_begin_fails world then (Err unavailable, db)
      else match in_transaction state request proved world db with
           | Err e => (Err e, db)
           | Ok (response, db') =>
               match wo_commit world with
               | Committed => (Ok response, db')
               | CommitFailed => (Err unavailable, db)
               | CommitLost => (Err unavailable, db')
               end
           end
  end.

(** [None] is a body the JSON extractor rejected.  The clock is read for the answer's timestamp and again for the login. *)
Definition issue (state : AccountState) (received : option Value) (now later : Instant) (world : World) (db : AccountDb) : Response * AccountDb :=
  match ServerTime_at format_rfc3339 now with
  | None => (no_server_time, db)
  | Some server_time =>
      match and_then received EnrollmentTicketRequest_from_value with
      | None => (into_response_at malformed_request server_time, db)
      | Some request =>
          match issue_ticket state request later world db with
          | (Ok response, db') => (MkResponse 201 (JsonBody (EnrollmentTicketResponse_to_value response)) false false, db')
          | (Err e, db') => (into_response_at e server_time, db')
          end
      end
  end.

(** ** The whole service

    Where the router sends a request: to one of the two handlers, to the
    fallback, or nowhere, when routing or the body limit answered by itself. *)
Inductive Routed := ToProtocol | ToIssue (received : option Value) | ToFallback | AnsweredByFramework (response : Response).
Definition answer (state : AccountState) (routed : Routed) (now later : Instant) (world : World) (db : AccountDb) : Response * AccountDb :=
  match routed with
  | ToProtocol => (protocol format_rfc3339 now, db)
  | ToIssue received => issue state received now later world db
  | ToFallback => (unknown_route format_rfc3339 now, db)
  | AnsweredByFramework response => (response, db)
  end.
Definition serve (state : AccountState) (routed : Routed) (now later after : Instant) (world : World) (db : AccountDb) : Response * AccountDb :=
  let (response, db') := answer state routed now later world db in (protocol_shaped_errors format_rfc3339 after response, db').

(** ** What a request does *)

Definition with_nonce k (e : Z) (db : AccountDb) : AccountDb := MkAccountDb (ad_members db) (<[k := e]> (ad_nonces db)) (ad_tickets db) (ad_now db).
Definition with_member k m (db : AccountDb) : AccountDb := MkAccountDb (<[k := m]> (ad_members db)) (ad_nonces db) (ad_tickets db) (ad_now db).
Definition with_ticket k t (db : AccountDb) : AccountDb := MkAccountDb (ad_members db) (ad_nonces db) (<[k := t]> (ad_tickets db)) (ad_now db).

(** The account a wallet has, or is given. *)
Definition account_of (network address fresh : string) (db : AccountDb) (m : string) : Prop :=
  ad_members db !! (network, address) = Some m \/
  ad_members db !! (network, address) = None /\ m = fresh /\ member_id_taken network fresh db = false.
(** What issuing leaves behind: one nonce spent, the wallet's account, one
    ticket of its own. *)
Definition granted (state : AccountState) (request : EnrollmentTicketRequest) (proved : ProvedLogin) (world : World) (db : AccountDb)
    (response : EnrollmentTicketResponse) (db' : AccountDb) : Prop :=
  exists bytes m, let network := as_network state in let address := pl_address proved in
    let hmac := hmac_sha256 (as_key state) (as_bytes (b64url bytes)) in
    wo_random world = Some bytes /\
    wallet_check address = true /\ nonce_check (tr_nonce request) = true /\ ad_nonces db !! (network, address, tr_nonce request) = None /\
    account_of network address (wo_uuid world) db m /\ length hmac = 32%nat /\ ad_tickets db !! (network, hmac) = None /\
    response = MkTicketResponse (b64url bytes) (to_char (ad_now db + 900)) m /\
    db' = with_ticket (network, hmac) (MkTicketRow m "WORKER_ENROLLMENT" (ad_now db + 900) (ad_now db))
            (with_member (network, address) m (with_nonce (network, address, tr_nonce request) (pl_expires_at_unix proved) db)).

Lemma prove_login_Ok state request now proved : prove_login state request now = Ok proved ->
  pl_expires_at_unix proved <= Z.max 0 (in_secs now) + 900 /\ Z.max 0 (in_secs now) < pl_expires_at_unix proved /\ pl_expires_at_unix proved <= u64_max /\
  parse_rfc3339_seconds (tr_expires_at request) = Some (pl_expires_at_unix proved).
Proof.
  unfold prove_login. cbn zeta. replace (if 0 <=? in_secs now then in_secs now else 0) with (Z.max 0 (in_secs now)) by (destruct (Z.leb_spec 0 (in_secs now)); lia).
  unfold Wallet.recover_login_address. cbn [le_expires_at_rfc3339].
  destruct (parse_rfc3339_seconds (tr_expires_at request)) as [e|] eqn:He; [|done]. cbn [ok_or].
  destruct (Z.leb_spec e (Z.max 0 (in_secs now))); [done|].
  destruct (decode_hex _); [|done]. cbn [ok_or]. destruct (last _); [|done]. destruct (recovery_id _); [|done]. cbn [ok_or].
  destruct (recover_key _ _ _); [|done]. cbn [ok_or map_err pl_expires_at_unix].
  destruct (Z.ltb_spec (Z.min u64_max (Z.max 0 (in_secs now) + LOGIN_MAX_LIFETIME_SECONDS)) e); [done|]. intros [= <-].
  cbn [pl_expires_at_unix]. unfold LOGIN_MAX_LIFETIME_SECONDS in *. split_and!; [lia|lia|lia|done].
Qed.

Lemma in_transaction_Ok state request proved world db response db' : 0 <= pl_expires_at_unix proved <= i64_max ->
  in_transaction state request proved world db = Ok (response, db') ->
  granted state request proved world db response db'.
Proof.
  intros He. unfold in_transaction, ok_unless. cbn zeta. destruct (Z.leb_spec (pl_expires_at_unix proved) i64_max); [|lia].
  destruct (wo_nonce_fails world); [done|]. unfold spend_nonce.
  destruct (wallet_check (pl_address proved)) eqn:Hw; [|done]. destruct (nonce_check (tr_nonce request)) eqn:Hn; [|done]. cbn [negb andb].
  destruct (ad_nonces db !! _) eqn:Hs; [done|]. cbn [ok_or fst snd negb Z.eqb Pos.eqb].
  destruct (wo_member_fails world); [done|]. unfold insert_member. rewrite Hw. cbn [negb ad_members].
  destruct (wo_random world) as [bytes|] eqn:Hr.
  2:{ unfold mint_bearer. cbn [ok_or]. repeat case_match; done. }
  unfold mint_bearer, insert_ticket, read_member, TICKET_LIFETIME_SECONDS. cbn [ok_or].
  destruct (ad_members db !! (as_network state, pl_address proved)) as [m|] eqn:Hm.
  - cbn [ok_or fst snd ad_members]. destruct (wo_read_fails world); [done|]. cbn [ok_or]. rewrite Hm. cbn [ok_or].
    destruct (wo_ticket_fails world); [done|]. destruct (Nat.eqb_spec (length (hmac_sha256 (as_key state) (as_bytes (b64url bytes)))) 32) as [Hl|]; [|done].
    cbn [negb ad_tickets]. destruct (ad_tickets db !! _) eqn:Ht; [done|]. cbn [ok_or fst snd ad_now]. intros [= <- <-].
    exists bytes, m. split_and!; try done; [by left|].
    unfold with_ticket, with_member, with_nonce. cbn [ad_members ad_nonces ad_tickets ad_now]. by rewrite (insert_id (ad_members db) _ _ Hm).
  - destruct (member_id_taken (as_network state) (wo_uuid world) _) eqn:Hf; [done|]. cbn [ok_or fst snd ad_members].
    destruct (wo_ticket_fails world); [done|]. destruct (Nat.eqb_spec (length (hmac_sha256 (as_key state) (as_bytes (b64url bytes)))) 32) as [Hl|]; [|done].
    cbn [negb ad_tickets]. destruct (ad_tickets db !! _) eqn:Ht; [done|]. cbn [ok_or fst snd ad_now]. intros [= <- <-].
    exists bytes, (wo_uuid world). split_and!; try done. right. done.
Qed.
(** A world in which no statement fails and the commit is answered. *)
Definition fair (world : World) : Prop :=
  wo_begin_fails world = false /\ wo_nonce_fails world = false /\ wo_member_fails world = false /\ wo_read_fails world = false /\
  wo_ticket_fails world = false /\ wo_commit world = Committed.
Lemma in_transaction_fair state request proved world db response db' : fair world -> 0 <= pl_expires_at_unix proved <= i64_max ->
  granted state request proved world db response db' -> in_transaction state request proved world db = Ok (response, db').
Proof.
  intros (_ & F1 & F2 & F3 & F4 & _) He (bytes & m & Hr & Hw & Hn & Hs & Ha & Hl & Ht & -> & ->).
  unfold in_transaction, ok_unless. cbn zeta. destruct (Z.leb_spec (pl_expires_at_unix proved) i64_max); [|lia].
  rewrite F1, F2, F3, F4, Hr. unfold spend_nonce, mint_bearer. rewrite Hw, Hn, Hs. cbn [negb andb ok_or fst snd Z.eqb Pos.eqb].
  unfold insert_member, insert_ticket, read_member, TICKET_LIFETIME_SECONDS. rewrite Hw. cbn [negb ad_members].
  destruct Ha as [Hm|(Hm & -> & Hf)]; rewrite Hm.
  - cbn [ok_or fst snd ad_members ad_tickets]. rewrite Hm. cbn [ok_or]. rewrite Hl, Ht. cbn [negb Nat.eqb ok_or fst snd ad_now].
    unfold with_ticket, with_member, with_nonce. cbn [ad_members ad_nonces ad_tickets ad_now]. by rewrite (insert_id (ad_members db) _ _ Hm).
  - unfold member_id_taken in Hf |- *. cbn [ad_members]. rewrite Hf. cbn [ok_or fst snd ad_members ad_tickets]. rewrite Hl, Ht.
    cbn [negb Nat.eqb ok_or fst snd ad_now]. reflexivity.
Qed.

(** Every request leaves the database as it was, or issues. *)
Lemma issue_ticket_effect state request now world db :
  (issue_ticket state request now world db).2 = db \/
  exists proved response, prove_login state request now = Ok proved /\
    granted state request proved world db response (issue_ticket state request now world db).2.
Proof.
  unfold issue_ticket. destruct (prove_login state request now) as [proved|e] eqn:Hp; [|by left].
  destruct (wo_begin_fails world); [by left|].
  pose proof (prove_login_Ok _ _ _ _ Hp) as (_ & _ & _ & He%expiry_bound).
  destruct (in_transaction state request proved world db) as [[response db']|e] eqn:Ht; [|by left].
  apply in_transaction_Ok in Ht; [|done]. destruct (wo_commit world); [|by left|]; right; by exists proved, response.
Qed.

(** The errors of a request are the two the route names. *)
Lemma ok_unless_Err {A} fails (o : option A) e : ok_unless fails o = Err e -> e = unavailable.
Proof. unfold ok_unless. destruct fails; [by intros [= <-]|]. destruct o; [done|]. by intros [= <-]. Qed.
Lemma issue_ticket_errors state request now world db e d : issue_ticket state request now world db = (Err e, d) -> e = not_authenticated \/ e = unavailable.
Proof.
  unfold issue_ticket. destruct (prove_login state request now) as [proved|e'] eqn:Hp.
  - destruct (wo_begin_fails world); [intros [= <- _]; by right|].
    destruct (in_transaction state request proved world db) as [[r d']|e'] eqn:Ht; [destruct (wo_commit world); intros [= <- _]; by right|].
    intros [= <- _]. revert Ht. unfold in_transaction, mint_bearer. cbn zeta.
    destruct (ok_unless (wo_nonce_fails world) _) as [sp|x] eqn:E1; [|intros [= <-]; right; by eapply ok_unless_Err].
    destruct (negb (sp.1 =? 1)); [intros [= <-]; by left|].
    destruct (ok_unless (wo_member_fails world) _) as [ex|x] eqn:E2; [|intros [= <-]; right; by eapply ok_unless_Err].
    destruct (match ex.1 with Some c => Ok c | None => _ end) as [mid|x] eqn:E3.
    2:{ intros [= <-]. right. destruct (ex.1); [done|]. by eapply ok_unless_Err. }
    destruct (wo_random world); cbn [ok_or]; [|intros [= <-]; by right].
    destruct (ok_unless (wo_ticket_fails world) _) as [st|x] eqn:E4; [done|intros [= <-]; right; by eapply ok_unless_Err].
  - intros [= <- _]. left. revert Hp. unfold prove_login. cbn zeta. destruct (map_err _ _) as [p|x] eqn:E.
    + destruct (_ <? _); [by intros [= <-]|done].
    + intros [= <-]. unfold map_err in E. destruct (Wallet.recover_login_address _ _ _ _ _ _); [done|]. by injection E as <-.
Qed.

(** ** Histories

    Any number of API processes serve requests in any order, the database's
    clock runs on, and a spent nonce may be deleted once the table's trigger
    allows it: when the signature that spent it has expired. *)
Inductive account_step (db : AccountDb) : AccountDb -> Prop :=
| Requested state request now world : account_step db (issue_ticket state request now world db).2
| ClockAdvanced t : ad_now db <= t -> account_step db (MkAccountDb (ad_members db) (ad_nonces db) (ad_tickets db) t)
| NoncePruned k e : ad_nonces db !! k = Some e -> e <= ad_now db ->
    account_step db (MkAccountDb (ad_members db) (delete k (ad_nonces db)) (ad_tickets db) (ad_now db)).
Definition history : AccountDb -> AccountDb -> Prop := rtc account_step.
(** The request changed the database: a ticket was issued, whether or not the
    answer reached the member. *)
Definition took_effect (state : AccountState) (request : EnrollmentTicketRequest) (now : Instant) (world : World) (db : AccountDb) : Prop :=
  (issue_ticket state request now world db).2 <> db.

Lemma took_effect_granted state request now world db proved : prove_login state request now = Ok proved -> took_effect state request now world db ->
  exists response, granted state request proved world db response (issue_ticket state request now world db).2.
Proof. intros Hp Ht. destruct (issue_ticket_effect state request now world db) as [E|(p & r & Hp' & Hg)]; [done|]. rewrite Hp in Hp'. injection Hp' as <-. by exists r. Qed.

(** A spent nonce stays spent until its expiry. *)
Definition remembered (k : string * string * string) (e : Z) (db : AccountDb) : Prop := ad_nonces db !! k = Some e \/ e <= ad_now db.
Lemma remembered_step k e db db' : account_step db db' -> remembered k e db -> remembered k e db'.
Proof.
  unfold remembered. intros Hstep Hr. destruct Hstep as [state request now world|t Ht|k' e' Hk Hd]; cbn [ad_nonces ad_now].
  - destruct (issue_ticket_effect state request now world db) as [->|(p & r & _ & (bytes & m & Hg))]; [done|].
    destruct Hg as (_ & _ & _ & Hs & _ & _ & _ & _ & ->). cbn. destruct Hr as [Hr|Hr]; [|by right]. left.
    rewrite lookup_insert_ne; [done|]. congruence.
  - destruct Hr; [by left|right; lia].
  - destruct Hr as [Hr|Hr]; [|by right]. destruct (decide (k = k')) as [->|Hne]; [right; congruence|left; by rewrite lookup_delete_ne].
Qed.
Lemma remembered_history k e db db' : history db db' -> remembered k e db -> remembered k e db'.
Proof. induction 1; eauto using remembered_step. Qed.

(** One wallet is one account. *)
Definition accounts_ok (db : AccountDb) : Prop :=
  (forall n a b m, ad_members db !! (n, a) = Some m -> ad_members db !! (n, b) = Some m -> a = b) /\
  (forall n a m, ad_members db !! (n, a) = Some m -> wallet_check a = true) /\
  (forall n h t, ad_tickets db !! (n, h) = Some t ->
     length h = 32%nat /\ tk_expires_at t = tk_created_at t + 900 /\ exists a, ad_members db !! (n, a) = Some (tk_member_id t)).
Lemma taken_false network m db a : member_id_taken network m db = false -> ad_members db !! (network, a) <> Some m.
Proof.
  intros Hf Hm. apply Bool.not_true_iff_false in Hf. apply Hf. apply existsb_exists. exists ((network, a), m).
  split; [by apply list_elem_of_In, elem_of_map_to_list|]. cbn. by rewrite !String.eqb_refl.
Qed.
Lemma accounts_ok_step db db' : account_step db db' -> accounts_ok db -> accounts_ok db'.
Proof.
  intros Hstep (Hinj & Hwal & Htk). destruct Hstep as [state request now world|t Ht|k e Hk Hd]; [|done|done].
  destruct (issue_ticket_effect state request now world db) as [->|(p & r & _ & (bytes & m & Hg))]; [done|].
  destruct Hg as (_ & Hw & _ & _ & Ha & Hl & _ & _ & ->). unfold accounts_ok. cbn.
  assert (Hm : forall n a x, <[(as_network state, pl_address p) := m]> (ad_members db) !! (n, a) = Some x ->
    (n, a) = (as_network state, pl_address p) /\ x = m \/ (n, a) <> (as_network state, pl_address p) /\ ad_members db !! (n, a) = Some x).
  { intros n a x. destruct (decide ((n, a) = (as_network state, pl_address p))) as [E|Hne].
    - rewrite E, lookup_insert_eq. intros [= ->]. by left.
    - rewrite lookup_insert_ne by done. by right. }
  split_and!.
  - intros n a b x [[E1 ->]|[N1 H1]]%Hm [[E2 ?]|[N2 H2]]%Hm; [congruence| | |by eapply Hinj].
    + injection E1 as -> ->. destruct Ha as [Ha|(Hn & -> & Hf)]; [exfalso; apply N2; f_equal; by eapply Hinj|by destruct (taken_false _ _ _ b Hf)].
    + subst. injection E2 as -> ->. destruct Ha as [Ha|(Hn & -> & Hf)]; [exfalso; apply N1; f_equal; by eapply Hinj|by destruct (taken_false _ _ _ a Hf)].
  - intros n a x [[E ->]|[_ H]]%Hm; [by injection E as -> ->|by eapply Hwal].
  - intros n h t. destruct (decide ((n, h) = (as_network state, hmac_sha256 (as_key state) (as_bytes (b64url bytes))))) as [E|Hne].
    + rewrite E, lookup_insert_eq. intros [= <-]. injection E as -> ->. cbn. split_and!; [done|done|]. exists (pl_address p). by rewrite lookup_insert_eq.
    + rewrite lookup_insert_ne by done. intros (H1 & H2 & a & H3)%Htk. split_and!; [done|done|]. exists a.
      destruct (decide ((n, a) = (as_network state, pl_address p))) as [E|?]; [|by rewrite lookup_insert_ne].
      rewrite E, lookup_insert_eq. destruct Ha as [Ha|(Hn & _)]; congruence.
Qed.
Lemma account_stays db db' k m : account_step db db' -> ad_members db !! k = Some m -> ad_members db' !! k = Some m.
Proof.
  intros Hstep Hk. destruct Hstep as [state request now world| |]; [|done|done].
  destruct (issue_ticket_effect state request now world db) as [->|(p & r & _ & (bytes & x & Hg))]; [done|].
  destruct Hg as (_ & _ & _ & _ & Ha & _ & _ & _ & ->). cbn. destruct (decide (k = (as_network state, pl_address p))) as [->|Hne].
  - rewrite lookup_insert_eq. destruct Ha as [Ha|(Hn & _)]; congruence.
  - by rewrite lookup_insert_ne.
Qed.
Lemma accounts_ok_history db db' : history db db' -> accounts_ok db -> accounts_ok db'.
Proof. induction 1; eauto using accounts_ok_step. Qed.
Lemma account_stays_history db db' k m : history db db' -> ad_members db !! k = Some m -> ad_members db' !! k = Some m.
Proof. induction 1; eauto using account_stays. Qed.

(** ** Properties *)

(** C13. A login signature buys one ticket.  Once a request with a wallet's nonce
    has taken effect, no later request with that nonce does, whatever was served,
    pruned or retried in between, until the database's clock has passed the
    expiry the first signature carried; and a replay of that same signature, which
    carries the same expiry, takes effect only if the server's clock is behind the
    database's. *)
Theorem login_buys_one_ticket state request now world db proved state' request' now' world' db' proved' :
  prove_login state request now = Ok proved -> took_effect state request now world db ->
  history (issue_ticket state request now world db).2 db' ->
  prove_login state' request' now' = Ok proved' -> took_effect state' request' now' world' db' ->
  as_network state' = as_network state -> pl_address proved' = pl_address proved -> tr_nonce request' = tr_nonce request ->
  pl_expires_at_unix proved <= ad_now db' /\
  (tr_expires_at request' = tr_expires_at request -> Z.max 0 (in_secs now') < ad_now db').
Proof.
  intros Hp Ht Hh Hp' Ht' En Ea Eo. destruct (took_effect_granted _ _ _ _ _ _ Hp Ht) as (r & bytes & m & Hg).
  destruct (took_effect_granted _ _ _ _ _ _ Hp' Ht') as (r' & bytes' & m' & _ & _ & _ & Hfree & _).
  destruct Hg as (_ & _ & _ & _ & _ & _ & _ & _ & Hdb).
  assert (Hle : pl_expires_at_unix proved <= ad_now db').
  { destruct (remembered_history (as_network state, pl_address proved, tr_nonce request) (pl_expires_at_unix proved) _ _ Hh) as [Hr|Hr]; [|congruence|done].
    left. rewrite Hdb. apply lookup_insert_eq. }
  split; [done|]. intros Ex. destruct (prove_login_Ok _ _ _ _ Hp) as (_ & _ & _ & P1). destruct (prove_login_Ok _ _ _ _ Hp') as (_ & L2 & _ & P2).
  rewrite Ex, P1 in P2. injection P2 as P2. lia.
Qed.

(** The exact grant.  In a world where no statement fails, a request is
    answered with a ticket exactly when its signature proves a wallet inside its
    expiry and at most fifteen minutes ahead, its nonce has the column's shape and
    is unspent, and no ticket has the new bearer's HMAC; the database then holds
    one more spent nonce, the wallet's account and the ticket, and otherwise it is
    unchanged. *)
Theorem ticket_granted_exact state request now world db response db' : fair world ->
  (issue_ticket state request now world db = (Ok response, db') <->
   exists proved, prove_login state request now = Ok proved /\ granted state request proved world db response db').
Proof.
  intros Hf. pose proof Hf as (Hb & _ & _ & _ & _ & Hc). unfold issue_ticket. rewrite Hb, Hc. split.
  - destruct (prove_login state request now) as [proved|e] eqn:Hp; [|done].
    pose proof (prove_login_Ok _ _ _ _ Hp) as (_ & _ & _ & He%expiry_bound).
    destruct (in_transaction state request proved world db) as [[r d]|e] eqn:Ht; [|done]. intros [= -> ->]. exists proved. split; [done|].
    by apply in_transaction_Ok.
  - intros (proved & Hp & Hg). rewrite Hp. pose proof (prove_login_Ok _ _ _ _ Hp) as (_ & _ & _ & He%expiry_bound).
    by rewrite (in_transaction_fair _ _ _ _ _ _ _ Hf He Hg).
Qed.

(** Issuing is all or nothing, and a refusal costs nothing.  Whatever statement
    fails, the database afterwards is the one before or the one with the spent
    nonce, the account and the ticket together; an answer with a ticket means the
    latter, and an answer that the login is not authorised means the former. *)
Theorem issuing_is_all_or_nothing state request now world db :
  ((issue_ticket state request now world db).2 = db \/
   exists proved response, prove_login state request now = Ok proved /\
     granted state request proved world db response (issue_ticket state request now world db).2) /\
  (forall response, (issue_ticket state request now world db).1 = Ok response ->
     exists proved, granted state request proved world db response (issue_ticket state request now world db).2) /\
  ((issue_ticket state request now world db).1 = Err not_authenticated -> (issue_ticket state request now world db).2 = db).
Proof.
  split; [apply issue_ticket_effect|]. unfold issue_ticket. destruct (prove_login state request now) as [proved|e] eqn:Hp; [|done].
  pose proof (prove_login_Ok _ _ _ _ Hp) as (_ & _ & _ & He%expiry_bound).
  destruct (wo_begin_fails world); [done|]. destruct (in_transaction state request proved world db) as [[r d]|e] eqn:Ht; [|done].
  apply in_transaction_Ok in Ht; [|done]. destruct (wo_commit world); (split; [|done]); intros response [= <-]. by exists proved.
Qed.

(** The wallet is the account.  In every history of an empty database, no two
    wallets of a network share an account, every account's wallet has the address
    shape, every ticket belongs to an account and lives fifteen minutes from its
    creation; and an account once given to a wallet stays that wallet's. *)
Theorem wallet_is_the_account t db db' : history (MkAccountDb ∅ ∅ ∅ t) db -> history db db' ->
  accounts_ok db' /\ (forall k m, ad_members db !! k = Some m -> ad_members db' !! k = Some m).
Proof.
  intros H1 H2. split; [|intros k m; by apply account_stays_history].
  eapply accounts_ok_history; [exact H2|]. eapply accounts_ok_history; [exact H1|]. split_and!; cbn; intros *; by rewrite lookup_empty.
Qed.

(** Every failure has the one shape.  Whatever the router did with a request,
    when the framework's own answers are the two it documents for routing and the
    body limit, what is sent is a success of one of the two handlers, an error
    body that the schema's parser reads, under the status of its code, or, when a
    clock that has no timestamp leaves nothing conforming to say, a bare 503. *)
Theorem every_failure_is_shaped state routed now later after world db :
  (forall response, routed = AnsweredByFramework response -> rs_shaped response = false /\ (rs_status response = 405 \/ rs_status response = 413)) ->
  let response := (serve state routed now later after world db).1 in
  rs_status response = 200 /\ routed = ToProtocol \/
  rs_status response = 201 /\ (exists received, routed = ToIssue received) \/
  (exists v, rs_body response = JsonBody v /\ is_error_shape v /\ rs_shaped response = true /\ 400 <= rs_status response) \/
  response = no_server_time /\ (ServerTime_at format_rfc3339 now = None \/ ServerTime_at format_rfc3339 after = None).
Proof.
  intros Hframe. unfold serve. destruct (answer state routed now later world db) as [response db'] eqn:Ha. cbn [fst].
  assert (Herr : forall e st, 400 <= ae_status e -> exists v, rs_body (into_response_at e st) = JsonBody v /\ is_error_shape v /\
    rs_shaped (into_response_at e st) = true /\ 400 <= rs_status (into_response_at e st)).
  { intros e st He. eexists. split; [done|]. split; [apply error_body_shape|done]. }
  destruct routed as [|received| |r]; cbn in Ha.
  - unfold protocol in Ha. destruct (ServerTime_at format_rfc3339 now) eqn:Hn; injection Ha as <- <-; [by left|right; right; right; by split; [|left]].
  - unfold issue in Ha. destruct (ServerTime_at format_rfc3339 now) eqn:Hn; [|injection Ha as <- <-; right; right; right; by split; [|left]].
    destruct (and_then received EnrollmentTicketRequest_from_value) as [request|]; [|injection Ha as <- <-; right; right; left; by apply Herr].
    assert (Hst : forall e d, issue_ticket state request later world db = (Err e, d) -> e = not_authenticated \/ e = unavailable).
    { apply issue_ticket_errors. }
    destruct (issue_ticket state request later world db) as [[resp|e] d] eqn:Hi; injection Ha as <- <-; [right; left; cbn; by split; [|eexists]|].
    right; right; left. destruct (Hst e d eq_refl) as [-> | ->]; by apply Herr.
  - unfold unknown_route in Ha. destruct (ServerTime_at format_rfc3339 now) eqn:Hn; injection Ha as <- <-; [right; right; left; by apply Herr|].
    right; right; right; by split; [|left].
  - injection Ha as <- <-. destruct (Hframe r eq_refl) as [Hs Hc]. unfold protocol_shaped_errors, framework_error. rewrite Hs.
    destruct (ServerTime_at format_rfc3339 after) as [st|] eqn:Hn.
    + right; right; left. destruct Hc as [Hc|Hc]; rewrite Hc; cbn; by apply Herr.
    + right; right; right. split; [|by right]. destruct Hc as [Hc|Hc]; by rewrite Hc.
Qed.
End account.

(** ** Samples *)

Definition toy_keccak (l : list Z) : list Z := replicate 32 7.
Definition toy_recover (digest sig : list Z) (v : Z) : option (list Z) := if Nat.eqb (length sig) 64 then Some sig else None.
Definition toy_hmac (key data : list Z) : list Z := take 32 (data ++ replicate 32 0).
Abbreviation toy_issue := (issue_ticket toy_keccak toy_recover id toy_hmac to_hex Rfc3339.rfc3339_utc).
Abbreviation toy_prove := (prove_login toy_keccak toy_recover id).
Abbreviation toy_history := (history toy_keccak toy_recover id toy_hmac to_hex Rfc3339.rfc3339_utc).
Definition sample_state : AccountState := MkAccountState [1] "testnet" "pool.example" 84532.
Definition sample_signature : string := String.append (to_hex (replicate 64 1)) "1b".
Definition sample_nonce : string := to_hex (replicate 16 9).
Definition first_request : EnrollmentTicketRequest := MkTicketRequest sample_nonce "2026-01-01T00:10:00Z" sample_signature.
Definition second_request : EnrollmentTicketRequest := MkTicketRequest sample_nonce "2026-01-01T00:25:00Z" sample_signature.
Definition sample_world (b : Z) : World := MkWorld false false false false false Committed (Some (replicate 32 b)) "00000000-0000-4000-8000-000000000001".
Definition opened_at : Z := 1767225600.
Definition empty_db : AccountDb := MkAccountDb ∅ ∅ ∅ opened_at.
Definition sample_now (t : Z) : Instant := MkInstant t 0.
Definition issued_db : AccountDb := (toy_issue sample_state first_request (sample_now opened_at) (sample_world 3) empty_db).2.
Definition sample_wallet : string := String.append "0x" (to_hex (replicate 20 7)).
Definition nonce_key : string * string * string := ("testnet", sample_wallet, sample_nonce).
Definition later_db : AccountDb := MkAccountDb (ad_members issued_db) (delete nonce_key (ad_nonces issued_db)) (ad_tickets issued_db) (opened_at + 700).
Lemma sample_history : toy_history issued_db later_db.
Proof.
  eapply rtc_l; [apply (ClockAdvanced _ _ _ _ _ _ issued_db (opened_at + 700)); vm_compute; discriminate|].
  eapply rtc_l; [|apply rtc_refl]. apply (NoncePruned _ _ _ _ _ _ (MkAccountDb (ad_members issued_db) (ad_nonces issued_db) (ad_tickets issued_db) (opened_at + 700)) nonce_key 1767226200);
    [vm_compute; reflexivity|vm_compute; discriminate].
Qed.
Lemma nonce_written state request now world db k e : ad_nonces db !! k = None ->
  ad_nonces (toy_issue state request now world db).2 !! k = Some e ->
  took_effect toy_keccak toy_recover id toy_hmac to_hex Rfc3339.rfc3339_utc state request now world db.
Proof. intros H1 H2 E. rewrite E in H2. congruence. Qed.
Definition first_login : ProvedLogin := MkProvedLogin sample_wallet 1767226200.
Definition second_login : ProvedLogin := MkProvedLogin sample_wallet 1767227100.

Lemma login_buys_one_ticket_witness : pl_expires_at_unix first_login <= ad_now later_db.
Proof.
  apply (login_buys_one_ticket toy_keccak toy_recover id toy_hmac to_hex Rfc3339.rfc3339_utc
    sample_state first_request (sample_now opened_at) (sample_world 3) empty_db first_login
    sample_state second_request (sample_now (opened_at + 700)) (sample_world 4) later_db second_login).
  - vm_compute. reflexivity.
  - apply (nonce_written _ _ _ _ _ nonce_key 1767226200); vm_compute; reflexivity.
  - apply sample_history.
  - vm_compute. reflexivity.
  - apply (nonce_written _ _ _ _ _ nonce_key 1767227100); vm_compute; reflexivity.
  - reflexivity.
  - reflexivity.
  - reflexivity.
Defined.

Definition sample_response : EnrollmentTicketResponse :=
  MkTicketResponse (to_hex (replicate 32 3)) "2026-01-01T00:15:00Z" "00000000-0000-4000-8000-000000000001".
Lemma ticket_granted_exact_witness : exists proved, toy_prove sample_state first_request (sample_now opened_at) = Ok proved /\
  granted toy_hmac to_hex Rfc3339.rfc3339_utc sample_state first_request proved (sample_world 3) empty_db sample_response issued_db.
Proof.
  apply (ticket_granted_exact toy_keccak toy_recover id toy_hmac to_hex Rfc3339.rfc3339_utc sample_state first_request (sample_now opened_at)
    (sample_world 3) empty_db sample_response issued_db); [by vm_compute|].
  unfold issued_db. rewrite (surjective_pairing (toy_issue _ _ _ _ _)). f_equal.
Defined.

Lemma wallet_is_the_account_witness : accounts_ok later_db.
Proof.
  apply (wallet_is_the_account toy_keccak toy_recover id toy_hmac to_hex Rfc3339.rfc3339_utc opened_at issued_db later_db);
    [|apply sample_history]. eapply rtc_l; [apply Requested|apply rtc_refl].
Defined.

Lemma every_failure_is_shaped_witness :
  rs_status (serve toy_keccak toy_recover id toy_hmac to_hex Rfc3339.rfc3339_utc (fun t => Some (Rfc3339.rfc3339_utc t)) sample_state
    (AnsweredByFramework (MkResponse 413 (TextBody "length limit exceeded") false false)) (sample_now 0) (sample_now 0) (sample_now 0) (sample_world 1) empty_db).1 = 413.
Proof.
  destruct (every_failure_is_shaped toy_keccak toy_recover id toy_hmac to_hex Rfc3339.rfc3339_utc (fun t => Some (Rfc3339.rfc3339_utc t)) sample_state
    (AnsweredByFramework (MkResponse 413 (TextBody "length limit exceeded") false false)) (sample_now 0) (sample_now 0) (sample_now 0) (sample_world 1) empty_db) as [_|_];
    [|reflexivity|reflexivity].
  intros response [= <-]. split; [reflexivity|right; reflexivity].
Defined.

(** A signed nonce outside the column's shape is answered as a failure of the
    pool that a retry could mend, and every retry is answered the same. *)
Example misshapen_nonce_is_retryable :
  (toy_issue sample_state (MkTicketRequest "ABC" "2026-01-01T00:10:00Z" sample_signature) (sample_now opened_at) (sample_world 3) empty_db).1 = Err unavailable /\
  ae_retryable unavailable = true.
Proof. vm_compute. split; reflexivity. Qed.
