(* ===== verification/ApiAuth.v ===== *)
(** * Signed requests: [crates/pool-api/src/auth.rs]

    [Verifier::verify] runs its statements one at a time and outside any
    transaction, so it is a program over the database that other requests and
    the rest of the pool may change between any two of them.  The tables are
    those of migrations 0018, 0023, 0024 and 0025; a statement may fail before or
    after it took effect.  SHA-256, base64 and Ed25519 are parameters, as is the
    text of a header. *)
From S2P Require Import Prelude Text BTreeMap Json Domain IdentityStore Identity MemberApi.
Open Scope Z_scope.

Definition HEADER_PROTOCOL_VERSION : string := "x-pool-protocol-version".
Definition HEADER_WORKER_ID : string := "x-worker-id".
Definition HEADER_CREDENTIAL_ID : string := "x-worker-credential-id".
Definition HEADER_REQUEST_ID : string := "x-request-id".
Definition HEADER_REQUEST_TIMESTAMP : string := "x-request-timestamp".
Definition HEADER_BODY_SHA256 : string := "x-body-sha256".
Definition HEADER_SIGNATURE : string := "x-worker-signature".
Definition REPLAY_MEMORY_SECONDS : Z := 24 * 60 * 60.

Record VerifiedWorker := MkVerified { ve_member_id : string; ve_worker_id : string; ve_credential_id : string; ve_request_id : string }.
Record SignedHeaders := MkSignedHeaders {
  sh_protocol_version : string; sh_worker_id : string; sh_credential_id : string; sh_request_id : string;
  sh_request_timestamp : Z; sh_body_sha256 : string; sh_signature : string }.

Definition not_authenticated : ApiError := MkApiError 401 "NOT_AUTHENTICATED" "the request is not authenticated" false None.
Definition stale_timestamp : ApiError := MkApiError 401 "STALE_TIMESTAMP" "request timestamp is outside the accepted window" true None.
Definition incompatible_protocol : ApiError := MkApiError 426 "INCOMPATIBLE_PROTOCOL" "this server speaks a different protocol version" false None.
Definition request_id_reused : ApiError := MkApiError 409 "REQUEST_ID_REUSED" "that request id was already used for a different request" false None.
Definition unavailable : ApiError := MkApiError 503 "TEMPORARILY_UNAVAILABLE" "the pool could not complete this request" true None.

(** ** Headers *)

Definition uuid (value : string) : result ApiError string := if is_uuid value then Ok value else Err not_authenticated.
(** [text] is [get] and [to_str]: absent when the header is missing or not
    visible ASCII. *)
Definition parse (text : string -> option string) : result ApiError SignedHeaders :=
  let text name := ok_or (text name) not_authenticated in
  let? protocol_version := text HEADER_PROTOCOL_VERSION in
  let? worker_id := let? t := text HEADER_WORKER_ID in uuid t in
  let? credential_id := let? t := text HEADER_CREDENTIAL_ID in uuid t in
  let? request_id := let? t := text HEADER_REQUEST_ID in uuid t in
  let? request_timestamp := let? t := text HEADER_REQUEST_TIMESTAMP in ok_or (parse_u64 t) not_authenticated in
  let? body_sha256 := text HEADER_BODY_SHA256 in
  let? signature := text HEADER_SIGNATURE in
  if negb (Nat.eqb (String.length body_sha256) 64) || negb (all_bytes is_lower_hex body_sha256) then Err not_authenticated
  else Ok (MkSignedHeaders protocol_version worker_id credential_id request_id request_timestamp body_sha256 signature).

(** ** Tables and statements *)

Record CredentialRow := MkCredentialRow { cr_worker_id : string; cr_public_key : list Z; cr_state : string; cr_not_after : option Z }.
Record WorkerRow := MkWorkerRow { wk_member_id : string; wk_state : string }.
Record ReplayRow := MkReplayRow { rp_signed_sha256 : string; rp_first_seen_at : Z; rp_forget_after : Z }.
Record AuditRow := MkAuditRow {
  au_deployment : string; au_network : string; au_actor_id : string; au_resource_id : string; au_request_id : string; au_evidence : Value }.
Record AuthDb := MkAuthDb {
  db_credentials : gmap (string * string) CredentialRow;
  db_workers : gmap (string * string) WorkerRow;
  db_replay : gmap (string * string * string) ReplayRow;
  db_audit : list AuditRow;
  db_now : Z;
}.
Record Binding := MkBinding { bd_credential_state : string; bd_grace_ended : bool; bd_worker_state : string; bd_member_id : string }.

Definition find_key (network credential worker : string) (db : AuthDb) : option (list Z) :=
  c ← db_credentials db !! (network, credential);
  if String.eqb (cr_worker_id c) worker then Some (cr_public_key c) else None.
Definition grace_ended (c : CredentialRow) (now : Z) : bool := match cr_not_after c with Some t => t <=? now | None => false end.
Definition find_binding (network credential worker : string) (db : AuthDb) : option Binding :=
  c ← db_credentials db !! (network, credential);
  if String.eqb (cr_worker_id c) worker then
    w ← db_workers db !! (network, cr_worker_id c);
    Some (MkBinding (cr_state c) (grace_ended c (db_now db)) (wk_state w) (wk_member_id w))
  else None.
(** [INSERT ... ON CONFLICT DO NOTHING]: the rows it affected, or an error when
    the credential it refers to is not there or the digest is not one. *)
Definition remember_attempt (network credential request sha : string) (db : AuthDb) : option Z * AuthDb :=
  if negb (bool_decide (is_Some (db_credentials db !! (network, credential)))) || negb (is_digest_text sha) then (None, db)
  else match db_replay db !! (network, credential, request) with
       | Some _ => (Some 0, db)
       | None => (Some 1, MkAuthDb (db_credentials db) (db_workers db)
           (<[(network, credential, request) := MkReplayRow sha (db_now db) (db_now db + REPLAY_MEMORY_SECONDS)]> (db_replay db)) (db_audit db) (db_now db))
       end.
Definition read_attempt (network credential request : string) (db : AuthDb) : option string :=
  rp_signed_sha256 <$> db_replay db !! (network, credential, request).
Definition audit_reuse (row : AuditRow) (db : AuthDb) : AuthDb :=
  MkAuthDb (db_credentials db) (db_workers db) (db_replay db) (db_audit db ++ [row]) (db_now db).

(** A program: one statement after another, each answered by a value or by an
    error, [None]. *)
Inductive Program :=
| Done (r : result ApiError VerifiedWorker)
| FindKey (network credential worker : string) (k : option (option (list Z)) -> Program)
| FindBinding (network credential worker : string) (k : option (option Binding) -> Program)
| RememberAttempt (network credential request sha : string) (k : option Z -> Program)
| ReadAttempt (network credential request : string) (k : option string -> Program)
| AuditReuse (row : AuditRow) (k : bool -> Program).

(** ** Verification *)

Record Verifier := MkVerifier { vr_network : string; vr_deployment : string }.
Record Call := MkCall {
  ca_method : string; ca_path : string; ca_headers : string -> option string; ca_body : list Z; ca_now : Z }.

Section verify.
Context {Key : Type} (sha256 : list Z -> list Z) (b64_decode : string -> option (list Z)).
Context (key_from_bytes : list Z -> option Key) (verify_strict : Key -> list Z -> list Z -> bool).
Abbreviation sha256_hex := (sha256_hex sha256).
Abbreviation verify_b64url := (verify_b64url b64_decode verify_strict).

Definition signed_of (c : Call) (h : SignedHeaders) : string :=
  request_signing_string (ca_method c) (ca_path c) (sh_protocol_version h) (sh_worker_id h) (sh_credential_id h) (sh_request_id h)
    (sh_request_timestamp h) (sh_body_sha256 h).
Definition evidence (recorded presented : string) (h : SignedHeaders) (member_id : string) : Value := json_object
  [("recorded_signed_sha256", JString recorded); ("presented_signed_sha256", JString presented);
   ("worker_id", JString (sh_worker_id h)); ("member_id", JString member_id)].
Definition refuse (h : SignedHeaders) (e : ApiError) : Program := Done (Err (echoing e (sh_request_id h))).
Definition accept (h : SignedHeaders) (member_id : string) : Program :=
  Done (Ok (MkVerified member_id (sh_worker_id h) (sh_credential_id h) (sh_request_id h))).

(** [record_attempt], with what follows each of its statements. *)
Definition after_audit (h : SignedHeaders) (written : bool) : Program :=
  if written then refuse h request_id_reused else refuse h unavailable.
Definition after_read (v : Verifier) (h : SignedHeaders) (signed_sha256 member_id : string) (recorded : option string) : Program :=
  match recorded with
  | None => refuse h unavailable
  | Some recorded =>
      if String.eqb recorded signed_sha256 then accept h member_id
      else AuditReuse (MkAuditRow (vr_deployment v) (vr_network v) (sh_worker_id h) (sh_credential_id h) (sh_request_id h)
                         (evidence recorded signed_sha256 h member_id)) (after_audit h)
  end.
Definition after_remember (v : Verifier) (h : SignedHeaders) (signed_sha256 member_id : string) (inserted : option Z) : Program :=
  match inserted with
  | None => refuse h unavailable
  | Some rows =>
      if rows =? 1 then accept h member_id
      else ReadAttempt (vr_network v) (sh_credential_id h) (sh_request_id h) (after_read v h signed_sha256 member_id)
  end.
Definition record_attempt (v : Verifier) (h : SignedHeaders) (signed member_id : string) : Program :=
  let signed_sha256 := sha256_hex (as_bytes signed) in
  RememberAttempt (vr_network v) (sh_credential_id h) (sh_request_id h) signed_sha256 (after_remember v h signed_sha256 member_id).
Definition usable (b : Binding) : bool :=
  String.eqb (bd_credential_state b) "ACTIVE" && String.eqb (bd_worker_state b) "ACTIVE" && negb (bd_grace_ended b).
(** The subtraction is in [i128], which holds every difference of an [i64] and
    a [u64]. *)
Definition fresh (c : Call) (h : SignedHeaders) : bool := Z.abs (ca_now c - sh_request_timestamp h) <=? REQUEST_CLOCK_SKEW_SECONDS.
Definition after_binding (v : Verifier) (c : Call) (h : SignedHeaders) (answer : option (option Binding)) : Program :=
  match answer with
  | None => refuse h unavailable
  | Some None => refuse h not_authenticated
  | Some (Some b) =>
      if negb (usable b) then refuse h not_authenticated
      else if negb (fresh c h) then refuse h stale_timestamp
      else record_attempt v h (signed_of c h) (bd_member_id b)
  end.
Definition after_key (v : Verifier) (c : Call) (h : SignedHeaders) (answer : option (option (list Z))) : Program :=
  match answer with
  | None => refuse h unavailable
  | Some None => refuse h not_authenticated
  | Some (Some public_key) =>
      if negb (Nat.eqb (length public_key) 32) then refuse h unavailable
      else match key_from_bytes public_key with
           | None => refuse h unavailable
           | Some key =>
               match verify_b64url key (signed_of c h) (sh_signature h) with
               | Err _ => refuse h not_authenticated
               | Ok _ => FindBinding (vr_network v) (sh_credential_id h) (sh_worker_id h) (after_binding v c h)
               end
           end
  end.
Definition verify (v : Verifier) (c : Call) : Program :=
  match parse (ca_headers c) with
  | Err e => Done (Err e)
  | Ok h =>
      if negb (String.eqb (sh_protocol_version h) PROTOCOL_VERSION) then refuse h incompatible_protocol
      else if negb (String.eqb (sha256_hex (ca_body c)) (sh_body_sha256 h)) then refuse h not_authenticated
      else FindKey (vr_network v) (sh_credential_id h) (sh_worker_id h) (after_key v c h)
  end.
End verify.

(** ** Running a statement

    Answered, failed without effect, or failed after its effect. *)
Inductive Weather := Answered | Failed | AnswerLost.
Definition run_statement (w : Weather) (p : Program) (db : AuthDb) : Program * AuthDb :=
  match p with
  | Done _ => (p, db)
  | FindKey n c wk k => (k (if w is Answered then Some (find_key n c wk db) else None), db)
  | FindBinding n c wk k => (k (if w is Answered then Some (find_binding n c wk db) else None), db)
  | RememberAttempt n c r sha k =>
      match w with
      | Answered => let (rows, db') := remember_attempt n c r sha db in (k rows, db')
      | Failed => (k None, db)
      | AnswerLost => (k None, (remember_attempt n c r sha db).2)
      end
  | ReadAttempt n c r k => (k (if w is Answered then read_attempt n c r db else None), db)
  | AuditReuse row k =>
      match w with
      | Answered => (k true, audit_reuse row db)
      | Failed => (k false, db)
      | AnswerLost => (k false, audit_reuse row db)
      end
  end.
(** A program run by itself, with every statement answered: five statements at
    most. *)
Fixpoint run_quietly (n : nat) (p : Program) (db : AuthDb) : Program * AuthDb :=
  match n with
  | O => (p, db)
  | S n' => let (p', db') := run_statement Answered p db in run_quietly n' p' db'
  end.

(** ** All requests together

    Requests arrive at any number of API processes and run their statements in
    any order, while the rest of the pool changes the tables as far as their
    triggers let it: a credential's key and worker and a worker's account never
    change, a credential that is not active never becomes active again, a
    remembered attempt is forgotten only when it is due. *)
Definition credentials_evolve (old new : gmap (string * string) CredentialRow) : Prop :=
  forall k row, old !! k = Some row -> exists row', new !! k = Some row' /\ cr_worker_id row' = cr_worker_id row /\
    cr_public_key row' = cr_public_key row /\ (cr_state row' = "ACTIVE" -> cr_state row = "ACTIVE").
Definition workers_evolve (old new : gmap (string * string) WorkerRow) : Prop :=
  forall k row, old !! k = Some row -> exists row', new !! k = Some row' /\ wk_member_id row' = wk_member_id row.
Definition evolves (db db' : AuthDb) : Prop :=
  credentials_evolve (db_credentials db) (db_credentials db') /\ workers_evolve (db_workers db) (db_workers db') /\
  (forall k, db_replay db' !! k = db_replay db !! k \/
     exists row, db_replay db !! k = Some row /\ rp_forget_after row <= db_now db' /\ db_replay db' !! k = None) /\
  (exists more, db_audit db' = db_audit db ++ more) /\ db_now db <= db_now db'.

Record Session := MkSession { ss_verifier : Verifier; ss_call : Call; ss_program : Program }.
(** A request let through: by which ids, over which signed bytes, when, and
    when those bytes were first recorded. *)
Record Acceptance := MkAcceptance {
  ac_network : string; ac_credential : string; ac_request : string; ac_sha256 : string; ac_at : Z; ac_first_seen : Z }.
Record World := MkWorld { wd_db : AuthDb; wd_sessions : list Session; wd_accepted : list Acceptance }.

Section together.
Context {Key : Type} (sha256 : list Z -> list Z) (b64_decode : string -> option (list Z)).
Context (key_from_bytes : list Z -> option Key) (verify_strict : Key -> list Z -> list Z -> bool).
Abbreviation verify := (verify sha256 b64_decode key_from_bytes verify_strict).
Abbreviation after_key := (after_key sha256 b64_decode key_from_bytes verify_strict).
Abbreviation after_binding := (after_binding sha256).
Definition signed_sha (c : Call) (h : SignedHeaders) : string := sha256_hex sha256 (as_bytes (signed_of c h)).

Definition acceptance_of (s : Session) (p : Program) (db : AuthDb) : list Acceptance :=
  match p, parse (ca_headers (ss_call s)) with
  | Done (Ok who), Ok h =>
      [MkAcceptance (vr_network (ss_verifier s)) (ve_credential_id who) (ve_request_id who) (signed_sha (ss_call s) h) (db_now db)
        (match db_replay db !! (vr_network (ss_verifier s), ve_credential_id who, ve_request_id who) with Some row => rp_first_seen_at row | None => 0 end)]
  | _, _ => []
  end.
Definition is_done (p : Program) : bool := match p with Done _ => true | _ => false end.
Inductive world_step (w : World) : World -> Prop :=
| Arrived v c : world_step w (MkWorld (wd_db w) (wd_sessions w ++ [MkSession v c (verify v c)]) (wd_accepted w))
| Ran i s weather p db : wd_sessions w !! i = Some s -> is_done (ss_program s) = false -> run_statement weather (ss_program s) (wd_db w) = (p, db) ->
    world_step w (MkWorld db (<[i := MkSession (ss_verifier s) (ss_call s) p]> (wd_sessions w)) (wd_accepted w ++ acceptance_of s p db))
| Evolved db : evolves (wd_db w) db -> world_step w (MkWorld db (wd_sessions w) (wd_accepted w)).
Definition reaches : World -> World -> Prop := rtc world_step.

(** Where a request may be between two statements. *)
Inductive stage (v : Verifier) (c : Call) : Program -> Prop :=
| AtKey h : parse (ca_headers c) = Ok h -> stage v c (FindKey (vr_network v) (sh_credential_id h) (sh_worker_id h) (after_key v c h))
| AtBinding h : parse (ca_headers c) = Ok h -> stage v c (FindBinding (vr_network v) (sh_credential_id h) (sh_worker_id h) (after_binding v c h))
| AtRemember h m : parse (ca_headers c) = Ok h ->
    stage v c (RememberAttempt (vr_network v) (sh_credential_id h) (sh_request_id h) (signed_sha c h) (after_remember v h (signed_sha c h) m))
| AtRead h m : parse (ca_headers c) = Ok h ->
    stage v c (ReadAttempt (vr_network v) (sh_credential_id h) (sh_request_id h) (after_read v h (signed_sha c h) m))
| AtAudit h row : parse (ca_headers c) = Ok h -> stage v c (AuditReuse row (after_audit h))
| AtEnd r : stage v c (Done r).

Lemma verify_stage v c : stage v c (verify v c).
Proof.
  unfold ApiAuth.verify. destruct (parse (ca_headers c)) as [h|e] eqn:Hp; [|constructor].
  destruct (String.eqb _ _); [|constructor]. destruct (String.eqb _ _); [|constructor]. by constructor.
Qed.
Lemma after_key_stage v c h answer : parse (ca_headers c) = Ok h -> stage v c (after_key v c h answer).
Proof. intros Hp. unfold ApiAuth.after_key. repeat case_match; by constructor. Qed.
Lemma after_binding_stage v c h answer : parse (ca_headers c) = Ok h -> stage v c (after_binding v c h answer).
Proof. intros Hp. unfold ApiAuth.after_binding. repeat case_match; by constructor. Qed.
Lemma run_stage v c weather p p' db db' : stage v c p -> run_statement weather p db = (p', db') -> stage v c p'.
Proof.
  intros Hs. destruct Hs as [h Hp|h Hp|h m Hp|h m Hp|h row Hp|r]; cbn [run_statement].
  - intros [= <- _]. by apply after_key_stage.
  - intros [= <- _]. by apply after_binding_stage.
  - intros Hr. assert (exists i, p' = after_remember v h (signed_sha c h) m i) as [i ->].
    { destruct weather; [destruct (remember_attempt _ _ _ _ _)|..]; injection Hr as <- _; first [by eexists|by exists None]. }
    unfold after_remember. destruct i as [rows|]; [destruct (rows =? 1)|]; by constructor.
  - intros [= <- _]. unfold after_read. repeat case_match; by econstructor.
  - intros Hr. assert (exists b, p' = after_audit h b) as [b ->] by (destruct weather; injection Hr as <- _; first [by exists true|by exists false]).
    destruct b; by constructor.
  - intros [= <- _]. by constructor.
Qed.
(** What a statement does to the tables. *)
Definition inserted (db : AuthDb) (k : string * string * string) (sha : string) (db' : AuthDb) : Prop :=
  db_replay db !! k = None /\ db_replay db' = <[k := MkReplayRow sha (db_now db) (db_now db + REPLAY_MEMORY_SECONDS)]> (db_replay db).
Lemma remember_effect n c r sha db : let db' := (remember_attempt n c r sha db).2 in
  db_credentials db' = db_credentials db /\ db_workers db' = db_workers db /\ db_now db' = db_now db /\
  (db_replay db' = db_replay db \/ inserted db (n, c, r) sha db') /\
  ((remember_attempt n c r sha db).1 = Some 1 -> inserted db (n, c, r) sha db').
Proof.
  unfold remember_attempt, inserted. case_match; [cbn; split_and!; auto; done|].
  destruct (db_replay db !! (n, c, r)) eqn:E; cbn; split_and!; auto; done.
Qed.
Lemma run_effect weather p p' db db' : run_statement weather p db = (p', db') ->
  db_credentials db' = db_credentials db /\ db_workers db' = db_workers db /\ db_now db' = db_now db /\
  (db_replay db' = db_replay db \/ exists k sha, inserted db k sha db').
Proof.
  assert (Hsame : db_credentials db = db_credentials db /\ db_workers db = db_workers db /\ db_now db = db_now db /\
    (db_replay db = db_replay db \/ exists k sha, inserted db k sha db)) by (split_and!; auto).
  destruct p as [r|n c w k|n c w k|n c r sha k|n c r k|row k]; cbn [run_statement]; try (intros [= _ <-]; exact Hsame).
  - destruct (remember_effect n c r sha db) as (H1 & H2 & H3 & H4 & _).
    destruct weather; [destruct (remember_attempt n c r sha db) as [rows d]|..]; intros [= _ <-]; [|exact Hsame|]; cbn in *;
      (split_and!; [done|done|done|]; destruct H4; [by left|right; eauto]).
  - destruct weather; intros [= _ <-]; [|exact Hsame|]; cbn; split_and!; auto.
Qed.
Lemma after_key_not_accepted v c h answer who : after_key v c h answer <> Done (Ok who).
Proof. unfold ApiAuth.after_key. repeat case_match; done. Qed.
Lemma after_binding_not_accepted v c h answer who : after_binding v c h answer <> Done (Ok who).
Proof. unfold ApiAuth.after_binding. repeat case_match; done. Qed.
Lemma run_accepts v c weather p who db db' : stage v c p -> is_done p = false -> run_statement weather p db = (Done (Ok who), db') ->
  exists h row, parse (ca_headers c) = Ok h /\ ve_credential_id who = sh_credential_id h /\ ve_request_id who = sh_request_id h /\
    db_replay db' !! (vr_network v, sh_credential_id h, sh_request_id h) = Some row /\ rp_signed_sha256 row = signed_sha c h.
Proof.
  intros Hs Hd. destruct Hs as [h Hp|h Hp|h m Hp|h m Hp|h row Hp|r]; cbn [run_statement]; [| | | | |done].
  - intros Hr. exfalso. by eapply after_key_not_accepted; injection Hr.
  - intros Hr. exfalso. by eapply after_binding_not_accepted; injection Hr.
  - destruct (remember_effect (vr_network v) (sh_credential_id h) (sh_request_id h) (signed_sha c h) db) as (_ & _ & _ & _ & Hi).
    destruct weather; [|by intros [= ? _]..]. destruct (remember_attempt _ _ _ _ _) as [rows d]. cbn in Hi.
    intros Hr. injection Hr as Hr <-. unfold after_remember in Hr. destruct rows as [rows|]; [|done].
    destruct (Z.eqb_spec rows 1) as [->|]; [|done]. injection Hr as <-. destruct (Hi eq_refl) as [_ Hins].
    exists h. eexists. cbn. split_and!; [done|done|done|rewrite Hins; apply lookup_insert_eq|done].
  - intros Hr. injection Hr as Hr <-. unfold after_read, read_attempt in Hr.
    destruct weather; [|done..]. destruct (db_replay db !! _) as [row|] eqn:Hrow; [|done]. cbn in Hr.
    destruct (String.eqb_spec (rp_signed_sha256 row) (signed_sha c h)) as [E|]; [|done]. injection Hr as <-. exists h, row. by cbn.
  - destruct weather; by intros [= ? _].
Qed.

(** ** The invariant *)

Definition key_of (e : Acceptance) : string * string * string := (ac_network e, ac_credential e, ac_request e).
(** An acceptance's bytes are on record for a day. *)
Definition on_record (db : AuthDb) (e : Acceptance) : Prop :=
  ac_at e <= db_now db /\
  (ac_first_seen e + REPLAY_MEMORY_SECONDS <= db_now db \/
   exists row, db_replay db !! key_of e = Some row /\ rp_signed_sha256 row = ac_sha256 e /\ rp_first_seen_at row = ac_first_seen e).
(** A later acceptance of the same ids is of the same bytes, or a day after. *)
Definition follows (e1 e2 : Acceptance) : Prop :=
  key_of e1 = key_of e2 -> ac_sha256 e1 = ac_sha256 e2 \/ ac_first_seen e1 + REPLAY_MEMORY_SECONDS <= ac_at e2.
Record world_ok (w : World) : Prop := {
  wk_sessions : Forall (fun s => stage (ss_verifier s) (ss_call s) (ss_program s)) (wd_sessions w);
  wk_rows : forall k row, db_replay (wd_db w) !! k = Some row -> rp_forget_after row = rp_first_seen_at row + REPLAY_MEMORY_SECONDS;
  wk_accepted : Forall (on_record (wd_db w)) (wd_accepted w);
  wk_spaced : forall i j e1 e2, (i < j)%nat -> wd_accepted w !! i = Some e1 -> wd_accepted w !! j = Some e2 -> follows e1 e2;
}.

Lemma on_record_inserted db db' k sha e : inserted db k sha db' -> db_now db' = db_now db -> on_record db e -> on_record db' e.
Proof.
  intros [Hn Hi] Ht [Ha Hr]. unfold on_record. rewrite Ht. split; [done|]. destruct Hr as [Hr|(row & Hr & H1 & H2)]; [by left|right].
  exists row. split; [|done]. rewrite Hi, lookup_insert_ne; [done|]. intros ->. congruence.
Qed.
Lemma on_record_evolves db db' e : (forall k row, db_replay db !! k = Some row -> rp_forget_after row = rp_first_seen_at row + REPLAY_MEMORY_SECONDS) ->
  evolves db db' -> on_record db e -> on_record db' e.
Proof.
  intros Hrows (_ & _ & Hrep & _ & Ht) [Ha Hr]. split; [lia|]. destruct Hr as [Hr|(row & Hr & H1 & H2)]; [left; lia|].
  destruct (Hrep (key_of e)) as [E|(row' & E & Hd & _)]; [right; exists row; by rewrite E|left].
  rewrite Hr in E. injection E as <-. rewrite (Hrows _ _ Hr), H2 in Hd. lia.
Qed.
Lemma on_record_run weather p p' db db' e : run_statement weather p db = (p', db') -> on_record db e -> on_record db' e.
Proof.
  intros Hr. destruct (run_effect _ _ _ _ _ Hr) as (_ & _ & Ht & [E|(k & sha & Hi)]); [|by eapply on_record_inserted].
  unfold on_record. by rewrite Ht, E.
Qed.
Lemma follows_on_record db e1 e2 row : on_record db e1 -> ac_at e2 = db_now db ->
  db_replay db !! key_of e2 = Some row -> rp_signed_sha256 row = ac_sha256 e2 -> follows e1 e2.
Proof.
  intros [_ [H|(row' & H1 & H2 & _)]] Ha Hr Hs Hk; [right; lia|left]. rewrite Hk, Hr in H1. injection H1 as <-. congruence.
Qed.
(** What [acceptance_of] records is on record. *)
Lemma accepted_on_record s p p' weather db db' e : stage (ss_verifier s) (ss_call s) p -> is_done p = false ->
  run_statement weather p db = (p', db') -> e ∈ acceptance_of s p' db' ->
  on_record db' e /\ ac_at e = db_now db' /\ exists row, db_replay db' !! key_of e = Some row /\ rp_signed_sha256 row = ac_sha256 e.
Proof.
  intros Hst Hd Hr He. unfold acceptance_of in He. destruct p' as [[who|]|n c w k|n c w k|n c r sha k|n c r k|row k]; try by apply not_elem_of_nil in He.
  destruct (run_accepts _ _ _ _ _ _ _ Hst Hd Hr) as (h & row & Hp & E1 & E2 & Hrow & Hsha). rewrite Hp, E1, E2, Hrow in He.
  apply list_elem_of_singleton in He as ->. unfold on_record, key_of. cbn. split; [|split; [done|by exists row]].
  split; [lia|]. right. by exists row.
Qed.

Lemma world_ok_step w w' : world_step w w' -> world_ok w -> world_ok w'.
Proof.
  intros Hstep [Hs Hrows Hacc Hsp]. destruct Hstep as [v c|i s weather p db Hi Hd Hr|db He].
  - split; cbn; try done. apply Forall_app. split; [done|]. constructor; [apply verify_stage|constructor].
  - pose proof (proj1 (Forall_lookup _ _) Hs i s Hi) as Hst. pose proof (run_effect _ _ _ _ _ Hr) as (_ & _ & Ht & Heff). split; cbn.
    + apply Forall_insert; [done|]. exact (run_stage _ _ _ _ _ _ _ Hst Hr).
    + intros k row Hk. destruct Heff as [E|(k' & sha & Hn & E)]; rewrite E in Hk; [by eapply Hrows|].
      destruct (decide (k' = k)) as [->|]; [rewrite lookup_insert_eq in Hk; by injection Hk as <-|].
      rewrite lookup_insert_ne in Hk by done. by eapply Hrows.
    + apply Forall_app. split; [eapply Forall_impl; [exact Hacc|]; intros e; by eapply on_record_run|].
      apply Forall_forall. intros e He.
      by destruct (accepted_on_record s (ss_program s) p weather (wd_db w) db e Hst Hd Hr He) as [Ho _].
    + intros a b e1 e2 Hab H1 H2. apply lookup_app_Some in H2 as [H2|[Hlen H2]].
      { apply (Hsp a b); [done| |done]. rewrite lookup_app_l in H1; [done|]. apply lookup_lt_Some in H2. lia. }
      assert (Hnew : e2 ∈ acceptance_of s p db) by (eapply list_elem_of_lookup_2; done).
      destruct (accepted_on_record s (ss_program s) p weather (wd_db w) db e2 Hst Hd Hr Hnew) as (_ & Hat & row & Hrow & Hsha).
      assert (Hold : on_record db e1).
      { apply lookup_app_Some in H1 as [H1|[Hlen1 H1]]; [eapply on_record_run; [exact Hr|]; by eapply (proj1 (Forall_lookup _ _) Hacc)|].
        destruct (accepted_on_record s (ss_program s) p weather (wd_db w) db e1 Hst Hd Hr) as [Ho _]; [by eapply list_elem_of_lookup_2|done]. }
      by eapply follows_on_record.
  - split; cbn; try done.
    + intros k row Hk. destruct He as (_ & _ & Hrep & _). destruct (Hrep k) as [E|(row' & _ & _ & E)]; [|congruence]. rewrite E in Hk. by eapply Hrows.
    + eapply Forall_impl; [exact Hacc|]. intros e. by apply on_record_evolves.
Qed.
Lemma world_ok_reaches w w' : reaches w w' -> world_ok w -> world_ok w'.
Proof. induction 1; eauto using world_ok_step. Qed.

(** ** Revocation *)

Definition past_binding (p : Program) : bool := match p with RememberAttempt _ _ _ _ _ | ReadAttempt _ _ _ _ | AuditReuse _ _ => true | _ => false end.
Definition presents (s : Session) (n cred : string) : Prop :=
  vr_network (ss_verifier s) = n /\ exists h, parse (ca_headers (ss_call s)) = Ok h /\ sh_credential_id h = cred.
Definition not_active (db : AuthDb) (n cred : string) : Prop :=
  exists row, db_credentials db !! (n, cred) = Some row /\ cr_state row <> "ACTIVE".
(** The credential is no longer active and no request with it is past the read
    of its state. *)
Definition shut (n cred : string) (w : World) : Prop :=
  not_active (wd_db w) n cred /\
  Forall (fun s => stage (ss_verifier s) (ss_call s) (ss_program s) /\ (presents s n cred -> past_binding (ss_program s) = false)) (wd_sessions w).
Lemma find_binding_refused n cred worker db b : not_active db n cred -> find_binding n cred worker db = Some b -> usable b = false.
Proof.
  intros (row & Hrow & Hst). unfold find_binding. rewrite Hrow. cbn. destruct (String.eqb _ _); [|done].
  destruct (db_workers db !! _); [|done]. cbn. intros [= <-]. unfold usable. cbn. by destruct (String.eqb_spec (cr_state row) "ACTIVE").
Qed.
Lemma run_shut v c h n cred weather p p' db db' : stage v c p -> parse (ca_headers c) = Ok h -> vr_network v = n -> sh_credential_id h = cred ->
  not_active db n cred -> past_binding p = false -> run_statement weather p db = (p', db') ->
  past_binding p' = false /\ (is_done p = false -> forall who, p' <> Done (Ok who)).
Proof.
  intros Hst Hp Hn Hc Hna Hpast. destruct Hst as [h' Hp'|h' Hp'|h' m Hp'|h' m Hp'|h' row Hp'|r]; try discriminate Hpast;
    try (rewrite Hp in Hp'; injection Hp' as <-); cbn [run_statement]; intros Hr; injection Hr as <- _.
  - split; [|intros _ who; by apply after_key_not_accepted]. unfold ApiAuth.after_key. by repeat case_match.
  - split; [|intros _ who; by apply after_binding_not_accepted]. unfold ApiAuth.after_binding. destruct weather; [|done..].
    rewrite Hn, Hc. destruct (find_binding n cred (sh_worker_id h) db) as [b|] eqn:Hb; [|done]. by rewrite (find_binding_refused _ _ _ _ _ Hna Hb).
  - by split.
Qed.
Lemma not_active_evolves db db' n cred : evolves db db' -> not_active db n cred -> not_active db' n cred.
Proof. intros (Hc & _) (row & Hrow & Hst). destruct (Hc _ _ Hrow) as (row' & Hrow' & _ & _ & Hs). exists row'. split; [done|]. by intros E%Hs. Qed.
Lemma shut_step n cred w w' : world_step w w' -> shut n cred w -> shut n cred w' /\
  exists new, wd_accepted w' = wd_accepted w ++ new /\ Forall (fun e => (ac_network e, ac_credential e) <> (n, cred)) new.
Proof.
  intros Hstep [Hna Hs]. destruct Hstep as [v c|i s weather p db Hi Hd Hr|db He].
  - split; [|exists []; by rewrite app_nil_r]. split; [done|]. cbn. apply Forall_app. split; [done|]. constructor; [|done]. cbn.
    split; [apply verify_stage|]. intros _. unfold ApiAuth.verify. by repeat case_match.
  - destruct (proj1 (Forall_lookup _ _) Hs i s Hi) as [Hst Hpast]. pose proof (run_effect _ _ _ _ _ Hr) as (Ec & _ & _ & _).
    assert (Hrun : presents s n cred -> past_binding p = false /\ (is_done (ss_program s) = false -> forall who, p <> Done (Ok who))).
    { intros Hpr. pose proof (Hpast Hpr) as Hb. destruct Hpr as (Hn & h & Hp & Hc).
      by apply (run_shut (ss_verifier s) (ss_call s) h n cred weather (ss_program s) p (wd_db w) db). }
    split; [split|].
    + cbn. unfold not_active. by rewrite Ec.
    + cbn. apply Forall_insert; [done|]. cbn. split; [exact (run_stage _ _ _ _ _ _ _ Hst Hr)|]. intros Hpr. by apply Hrun.
    + exists (acceptance_of s p db). split; [done|]. apply Forall_forall. intros e He Heq.
      unfold acceptance_of in He. destruct p as [[who|]| | | | |]; try by apply not_elem_of_nil in He.
      destruct (run_accepts _ _ _ _ _ _ _ Hst Hd Hr) as (h & row & Hp & E1 & E2 & _). rewrite Hp in He.
      apply list_elem_of_singleton in He as ->. cbn in Heq. injection Heq as Hn Hc.
      eapply Hrun; [split; [done|]; exists h; split; [done|congruence]|done|done].
  - split; [|exists []; by rewrite app_nil_r]. split; [by eapply not_active_evolves|done].
Qed.

(** ** One request by itself *)

(** The request is signed by the worker's own credential, both are active, its
    clock is right, and its id is unused or used for these bytes. *)
Definition authentic (v : Verifier) (c : Call) (db : AuthDb) (who : VerifiedWorker) : Prop :=
  exists h cred worker key, parse (ca_headers c) = Ok h /\ sh_protocol_version h = PROTOCOL_VERSION /\
    sha256_hex sha256 (ca_body c) = sh_body_sha256 h /\
    db_credentials db !! (vr_network v, sh_credential_id h) = Some cred /\ cr_worker_id cred = sh_worker_id h /\
    length (cr_public_key cred) = 32%nat /\ key_from_bytes (cr_public_key cred) = Some key /\
    verify_b64url b64_decode verify_strict key (signed_of c h) (sh_signature h) = Ok tt /\
    db_workers db !! (vr_network v, sh_worker_id h) = Some worker /\
    cr_state cred = "ACTIVE" /\ wk_state worker = "ACTIVE" /\ (forall t, cr_not_after cred = Some t -> db_now db < t) /\
    Z.abs (ca_now c - sh_request_timestamp h) <= 300 /\ is_digest_text (signed_sha c h) = true /\
    (forall row, db_replay db !! (vr_network v, sh_credential_id h, sh_request_id h) = Some row -> rp_signed_sha256 row = signed_sha c h) /\
    who = MkVerified (wk_member_id worker) (sh_worker_id h) (sh_credential_id h) (sh_request_id h).
Lemma run_done n r db : run_quietly n (Done r) db = (Done r, db).
Proof. induction n; [done|]. by cbn. Qed.
Lemma usable_iff cred worker db : usable (MkBinding (cr_state cred) (grace_ended cred (db_now db)) (wk_state worker) (wk_member_id worker)) = true <->
  cr_state cred = "ACTIVE" /\ wk_state worker = "ACTIVE" /\ forall t, cr_not_after cred = Some t -> db_now db < t.
Proof.
  unfold usable, grace_ended. cbn. rewrite !andb_true_iff, !String.eqb_eq, negb_true_iff. destruct (cr_not_after cred) as [t|].
  - rewrite Z.leb_gt. naive_solver.
  - naive_solver.
Qed.

Lemma run_S n p db : run_quietly (S n) p db = let (p', db') := run_statement Answered p db in run_quietly n p' db'.
Proof. done. Qed.
Lemma run_refused n h e db who : (run_quietly n (refuse h e) db).1 <> Done (Ok who).
Proof. unfold refuse. by rewrite run_done. Qed.
Lemma run_accept n h m db who : (run_quietly n (accept h m) db).1 = Done (Ok who) <-> who = MkVerified m (sh_worker_id h) (sh_credential_id h) (sh_request_id h).
Proof. unfold accept. rewrite run_done. cbn. split; [by intros [= <-]|by intros ->]. Qed.
(** The record of the attempt lets it through when the id is unused or used for
    the same bytes. *)
Lemma run_record v c h m db cred who : db_credentials db !! (vr_network v, sh_credential_id h) = Some cred ->
  (run_quietly 3 (record_attempt sha256 v h (signed_of c h) m) db).1 = Done (Ok who) <->
  is_digest_text (signed_sha c h) = true /\
  (forall row, db_replay db !! (vr_network v, sh_credential_id h, sh_request_id h) = Some row -> rp_signed_sha256 row = signed_sha c h) /\
  who = MkVerified m (sh_worker_id h) (sh_credential_id h) (sh_request_id h).
Proof.
  intros Hc. unfold record_attempt. cbn zeta. fold (signed_sha c h). rewrite run_S. cbn [run_statement]. unfold remember_attempt. rewrite Hc.
  rewrite bool_decide_true by eauto. cbn [negb orb]. destruct (is_digest_text (signed_sha c h)) eqn:Hd; cbn [negb orb].
  2:{ split; [intros H; by apply (run_refused 2) in H|naive_solver]. }
  destruct (db_replay db !! (vr_network v, sh_credential_id h, sh_request_id h)) as [row|] eqn:Hrow; cbn [after_remember Z.eqb Pos.eqb].
  - rewrite run_S. cbn [run_statement]. unfold read_attempt. rewrite Hrow. cbn [fmap option_fmap option_map after_read].
    destruct (String.eqb_spec (rp_signed_sha256 row) (signed_sha c h)) as [E|Hne].
    + rewrite (run_accept 1). split; [intros ->; split_and!; [done| |done]; by intros ? [= <-]|by intros (_ & _ & ->)].
    + split; [rewrite run_S; cbn [run_statement after_audit]; intros H; by apply (run_refused 0) in H|]. intros (_ & Hr & _). by destruct (Hne (Hr row eq_refl)).
  - rewrite (run_accept 2). split; [by intros ->|by intros (_ & _ & ->)].
Qed.
Lemma run_binding v c h db cred who : db_credentials db !! (vr_network v, sh_credential_id h) = Some cred -> cr_worker_id cred = sh_worker_id h ->
  (run_quietly 4 (FindBinding (vr_network v) (sh_credential_id h) (sh_worker_id h) (after_binding v c h)) db).1 = Done (Ok who) <->
  exists worker, db_workers db !! (vr_network v, sh_worker_id h) = Some worker /\
    (cr_state cred = "ACTIVE" /\ wk_state worker = "ACTIVE" /\ forall t, cr_not_after cred = Some t -> db_now db < t) /\
    Z.abs (ca_now c - sh_request_timestamp h) <= 300 /\
    is_digest_text (signed_sha c h) = true /\
    (forall row, db_replay db !! (vr_network v, sh_credential_id h, sh_request_id h) = Some row -> rp_signed_sha256 row = signed_sha c h) /\
    who = MkVerified (wk_member_id worker) (sh_worker_id h) (sh_credential_id h) (sh_request_id h).
Proof.
  intros Hc Hw. rewrite run_S. cbn [run_statement]. unfold find_binding. rewrite Hc. cbn [mbind option_bind]. rewrite Hw, String.eqb_refl.
  destruct (db_workers db !! (vr_network v, sh_worker_id h)) as [worker|] eqn:Hwk; cbn [mbind option_bind].
  2:{ split; [intros H; by apply (run_refused 3) in H|naive_solver]. }
  unfold ApiAuth.after_binding. cbn [bd_member_id].
  destruct (usable _) eqn:Hu; cbn [negb].
  2:{ split; [intros H; by apply (run_refused 3) in H|]. intros (w & [= <-] & H & _). apply usable_iff in H. congruence. }
  apply usable_iff in Hu. unfold fresh, REQUEST_CLOCK_SKEW_SECONDS. destruct (Z.leb_spec (Z.abs (ca_now c - sh_request_timestamp h)) 300); cbn [negb].
  2:{ split; [intros H'; by apply (run_refused 3) in H'|]. intros (w & _ & _ & H' & _). lia. }
  rewrite (run_record v c h (wk_member_id worker) db cred who Hc). split; [|intros (w & [= <-] & _ & _ & H'); done].
  intros H'. by exists worker.
Qed.

(** ** Properties *)

(** C11. A signed request, run by itself, is let through exactly when it should be:
    every header is there and well formed, the version is this server's, the
    digest is the body's, the credential is this worker's own and its key verifies
    the signed text, credential and worker are active and no grace has ended, the
    timestamp is within 300 seconds of the server's clock, and the request id is
    new or was recorded for the same signed bytes; the caller is then the worker
    and the account behind it. *)
Theorem signed_request_exact v c db who : (run_quietly 5 (verify v c) db).1 = Done (Ok who) <-> authentic v c db who.
Proof.
  unfold authentic, ApiAuth.verify. destruct (parse (ca_headers c)) as [h|e] eqn:Hp.
  2:{ split; [by rewrite run_done|]. intros (h & cred & worker & key & ? & _). congruence. }
  destruct (String.eqb_spec (sh_protocol_version h) PROTOCOL_VERSION) as [Hv|Hv]; cbn [negb].
  2:{ split; [intros H; by apply (run_refused 5) in H|]. intros (h' & cred & worker & key & [= <-] & ? & _). congruence. }
  destruct (String.eqb_spec (sha256_hex sha256 (ca_body c)) (sh_body_sha256 h)) as [Hb|Hb]; cbn [negb].
  2:{ split; [intros H; by apply (run_refused 5) in H|]. intros (h' & cred & worker & key & [= <-] & _ & ? & _). congruence. }
  rewrite run_S. cbn [run_statement]. unfold find_key.
  destruct (db_credentials db !! (vr_network v, sh_credential_id h)) as [cred|] eqn:Hc; cbn [mbind option_bind].
  2:{ split; [intros H; by apply (run_refused 4) in H|]. intros (h' & cred & worker & key & [= <-] & _ & _ & ? & _). congruence. }
  destruct (String.eqb_spec (cr_worker_id cred) (sh_worker_id h)) as [Hw|Hw].
  2:{ split; [intros H; by apply (run_refused 4) in H|]. intros (h' & cred' & worker & key & [= <-] & _ & _ & H1 & H2 & _). congruence. }
  unfold ApiAuth.after_key. destruct (Nat.eqb_spec (length (cr_public_key cred)) 32) as [Hl|Hl]; cbn [negb].
  2:{ split; [intros H; by apply (run_refused 4) in H|]. intros (h' & cred' & worker & key & [= <-] & _ & _ & H1 & _ & H2 & _). congruence. }
  destruct (key_from_bytes (cr_public_key cred)) as [key|] eqn:Hk.
  2:{ split; [intros H; by apply (run_refused 4) in H|]. intros (h' & cred' & worker & key & [= <-] & _ & _ & H1 & _ & _ & H2 & _). congruence. }
  destruct (verify_b64url b64_decode verify_strict key (signed_of c h) (sh_signature h)) as [[]|e] eqn:Hs.
  2:{ split; [intros H; by apply (run_refused 4) in H|]. intros (h' & cred' & worker & key' & [= <-] & _ & _ & H1 & _ & _ & H2 & H3 & _). congruence. }
  rewrite (run_binding v c h db cred who Hc Hw). split.
  - intros (worker & Hwk & (S1 & S2 & S3) & Ht & Hd & Hr & ->). exists h, cred, worker, key. by split_and!.
  - intros (h' & cred' & worker & key' & [= <-] & _ & _ & H1 & _ & _ & _ & _ & Hwk & S1 & S2 & S3 & Ht & Hd & Hr & ->).
    rewrite Hc in H1. injection H1 as <-. exists worker. by split_and!.
Qed.

(** C12. A request id names one request.  However the statements of any number of
    requests interleave, fail, or take effect without an answer, and whatever else
    changes the tables within their triggers, two requests let through under one
    credential and request id were signed over the same bytes, unless the second
    came at least a day after the first one's bytes were recorded. *)
Theorem request_id_names_one_request db w i j e1 e2 : db_replay db = ∅ -> reaches (MkWorld db [] []) w ->
  (i < j)%nat -> wd_accepted w !! i = Some e1 -> wd_accepted w !! j = Some e2 ->
  ac_network e1 = ac_network e2 -> ac_credential e1 = ac_credential e2 -> ac_request e1 = ac_request e2 ->
  ac_sha256 e1 = ac_sha256 e2 \/ ac_first_seen e1 + 24 * 60 * 60 <= ac_at e2.
Proof.
  intros Hdb Hr Hij H1 H2 En Ec Er. assert (Hok : world_ok (MkWorld db [] [])).
  { split; cbn; [constructor| |constructor|by intros ? ? ? ? _ ?]. intros k row. by rewrite Hdb, lookup_empty. }
  apply (world_ok_reaches _ _ Hr) in Hok. apply (wk_spaced _ Hok i j e1 e2 Hij H1 H2). unfold key_of. congruence.
Qed.

(** A revocation holds from the next request on.  Once a credential is not
    active, and no request presenting it is past the read of its state, no request
    with it is ever let through again, whatever arrives and however it
    interleaves. *)
Theorem revoked_credential_is_refused n cred w w' : shut n cred w -> reaches w w' ->
  exists new, wd_accepted w' = wd_accepted w ++ new /\ Forall (fun e => (ac_network e, ac_credential e) <> (n, cred)) new.
Proof.
  intros Hs Hr. cut (shut n cred w' /\ exists new, wd_accepted w' = wd_accepted w ++ new /\ Forall (fun e => (ac_network e, ac_credential e) <> (n, cred)) new);
    [by intros [_ H]|].
  induction Hr as [w|w w1 w2 Hstep Hr IH]; [split; [done|exists []; by rewrite app_nil_r]|].
  destruct (shut_step n cred w w1 Hstep Hs) as (Hs1 & new1 & E1 & F1). destruct (IH Hs1) as (Hs2 & new2 & E2 & F2).
  split; [done|]. exists (new1 ++ new2). split; [by rewrite E2, E1, app_assoc|by apply Forall_app].
Qed.
End together.

(** ** Samples *)

Definition toy_sha (l : list Z) : list Z := replicate 32 (Z.of_nat (length l) mod 256).
Definition toy_b64 (s : string) : option (list Z) := Some (replicate 64 0).
Definition toy_key (l : list Z) : option (list Z) := Some l.
Definition toy_strict (key message signature : list Z) : bool := true.
Abbreviation toy_verify := (verify toy_sha toy_b64 toy_key toy_strict).
Abbreviation toy_reaches := (reaches toy_sha toy_b64 toy_key toy_strict).
Definition id_of (d : string) : string := String.append "00000000-0000-4000-8000-00000000000" d.
Definition sample_headers (ts : string) (name : string) : option string :=
  if String.eqb name HEADER_PROTOCOL_VERSION then Some "0.1.0"
  else if String.eqb name HEADER_WORKER_ID then Some (id_of "1")
  else if String.eqb name HEADER_CREDENTIAL_ID then Some (id_of "2")
  else if String.eqb name HEADER_REQUEST_ID then Some (id_of "3")
  else if String.eqb name HEADER_REQUEST_TIMESTAMP then Some ts
  else if String.eqb name HEADER_BODY_SHA256 then Some (to_hex (replicate 32 0))
  else if String.eqb name HEADER_SIGNATURE then Some "sig"
  else None.
Definition sample_verifier : Verifier := MkVerifier "testnet" "dev".
Definition sample_call : Call := MkCall "GET" "/member/v0/work" (sample_headers "1000") [] 1100.
Definition sample_db (state : string) : AuthDb := MkAuthDb
  {[ ("testnet", id_of "2") := MkCredentialRow (id_of "1") (replicate 32 5) state None ]}
  {[ ("testnet", id_of "1") := MkWorkerRow "member" "ACTIVE" ]} ∅ [] 1100.
Example sample_is_let_through : (run_quietly 5 (toy_verify sample_verifier sample_call) (sample_db "ACTIVE")).1 =
  Done (Ok (MkVerified "member" (id_of "1") (id_of "2") (id_of "3"))).
Proof. vm_compute. reflexivity. Qed.

(** Two copies of one request, both arriving before either ran. *)
Definition start : World := MkWorld (sample_db "ACTIVE") [] [].
Definition arrive (c : Call) (w : World) : World := MkWorld (wd_db w) (wd_sessions w ++ [MkSession sample_verifier c (toy_verify sample_verifier c)]) (wd_accepted w).
Definition advance (i : nat) (weather : Weather) (w : World) : World :=
  match wd_sessions w !! i with
  | Some s =>
      if is_done (ss_program s) then w
      else let r := run_statement weather (ss_program s) (wd_db w) in
           MkWorld r.2 (<[i := MkSession (ss_verifier s) (ss_call s) r.1]> (wd_sessions w)) (wd_accepted w ++ acceptance_of toy_sha s r.1 r.2)
  | None => w
  end.
Lemma arrive_reaches c w : toy_reaches w (arrive c w).
Proof. eapply rtc_l; [apply Arrived|apply rtc_refl]. Qed.
Lemma advance_reaches i weather w : toy_reaches w (advance i weather w).
Proof.
  unfold advance. destruct (wd_sessions w !! i) as [s|] eqn:Hi; [|apply rtc_refl]. destruct (is_done (ss_program s)) eqn:Hd; [apply rtc_refl|].
  eapply rtc_l; [|apply rtc_refl]. by eapply Ran; [| |apply surjective_pairing].
Qed.
Definition run_all (l : list (nat * Weather)) (w : World) : World := foldl (fun w s => advance s.1 s.2 w) w l.
Lemma run_all_reaches l w : toy_reaches w (run_all l w).
Proof. revert w. induction l as [|[i wt] l IH]; intros w; [apply rtc_refl|]. eapply (transitivity (R := rtc _)); [apply (advance_reaches i wt w)|apply IH]. Qed.
Definition twice : World := run_all [(0, Answered); (1, Answered); (1, Answered); (0, Answered); (0, Answered); (1, Answered); (1, Answered)]%nat (arrive sample_call (arrive sample_call start)).
Definition sample_acceptance : Acceptance := MkAcceptance "testnet" (id_of "2") (id_of "3") (to_hex (replicate 32 226)) 1100 1100.
Lemma twice_accepted : wd_accepted twice = [sample_acceptance; sample_acceptance].
Proof. vm_compute. reflexivity. Qed.
Lemma request_id_names_one_request_witness : ac_sha256 sample_acceptance = ac_sha256 sample_acceptance \/ ac_first_seen sample_acceptance + 24 * 60 * 60 <= ac_at sample_acceptance.
Proof.
  apply (request_id_names_one_request toy_sha toy_b64 toy_key toy_strict (sample_db "ACTIVE") twice 0 1 sample_acceptance sample_acceptance).
  - reflexivity.
  - eapply (transitivity (R := rtc _)); [apply (arrive_reaches sample_call)|]. eapply (transitivity (R := rtc _)); [apply (arrive_reaches sample_call)|apply run_all_reaches].
  - lia.
  - by rewrite twice_accepted.
  - by rewrite twice_accepted.
  - reflexivity.
  - reflexivity.
  - reflexivity.
Defined.
Definition revoked_world : World := MkWorld (sample_db "REVOKED") [] [].
Lemma revoked_credential_is_refused_witness :
  exists new, wd_accepted (run_all [(0, Answered); (0, Answered); (0, Answered)]%nat (arrive sample_call revoked_world)) = [] ++ new /\
    Forall (fun e => (ac_network e, ac_credential e) <> ("testnet", id_of "2")) new.
Proof.
  apply (revoked_credential_is_refused toy_sha toy_b64 toy_key toy_strict "testnet" (id_of "2") revoked_world).
  - split; [|constructor]. exists (MkCredentialRow (id_of "1") (replicate 32 5) "REVOKED" None). split; [vm_compute; reflexivity|discriminate].
  - eapply (transitivity (R := rtc _)); [apply (arrive_reaches sample_call)|apply run_all_reaches].
Defined.
(** The same id over other bytes is refused and audited. *)
Definition other_call : Call := MkCall "GET" "/member/v0/slots/x" (sample_headers "1000") [] 1100.
Definition reused : World := run_all [(0, Answered); (0, Answered); (0, Answered); (1, Answered); (1, Answered); (1, Answered); (1, Answered); (1, Answered)]%nat
  (arrive other_call (arrive sample_call start)).
Example reuse_is_refused_and_audited :
  map ss_program (drop 1 (wd_sessions reused)) = [Done (Err (echoing request_id_reused (id_of "3")))] /\ length (db_audit (wd_db reused)) = 1%nat.
Proof. vm_compute. split; reflexivity. Qed.
