(* ===== verification/Readiness.v ===== *)
(** * The write gate's nine checks: [crates/tig-gateway/src/readiness.rs]

    [evaluate] compares what a deployment observed with what it is pinned to
    and grants [WriteReady], or names every check that failed.  Each check is a
    definition returning the failures it pushes; [passes] says, without reference
    to the code, what each of the nine requires. *)
From S2P Require Import Prelude Text BTreeMap Json Domain.
Open Scope Z_scope.

Inductive Check :=
| ConfigNetwork | UpstreamCommit | ContainerDigests | OpenApiChecksum | ResponseModels
| ChallengeRuntimes | SerializationFixtures | ApiKeyIsolation | PlayerIdentity.
#[export] Instance Check_eq_dec : EqDecision Check.
Proof. solve_decision. Defined.

Definition Check_ALL : list Check :=
  [ConfigNetwork; UpstreamCommit; ContainerDigests; OpenApiChecksum; ResponseModels;
   ChallengeRuntimes; SerializationFixtures; ApiKeyIsolation; PlayerIdentity].
Definition Check_number (c : Check) : Z :=
  match c with
  | ConfigNetwork => 1 | UpstreamCommit => 2 | ContainerDigests => 3 | OpenApiChecksum => 4
  | ResponseModels => 5 | ChallengeRuntimes => 6 | SerializationFixtures => 7
  | ApiKeyIsolation => 8 | PlayerIdentity => 9
  end.

Record Failure := MkFailure { fl_check : Check; fl_detail : string }.

(** [image_names] is a [BTreeSet]: its elements as the keys of a map. *)
Record Pins := MkPins {
  pin_network : Network;
  pin_upstream_commit : string;
  pin_image_digests : btree string;
  pin_image_names : btree unit;
  pin_platform : string;
  pin_openapi_sha256 : string;
  pin_pool_player_id : string;
}.

Record ResolvedImage := MkResolvedImage { ri_reference : string; ri_manifest_digest : string; ri_platform : string }.
Record ImageObservation := MkImageObservation {
  io_resolved : option (list ResolvedImage); io_reviewed_unresolved : option string }.
Record OpenApiObservation := MkOpenApiObservation {
  oa_hosted_sha256 : option string; oa_reviewed_local_override : option string }.
Record ModelValidation := MkModelValidation { mv_endpoint : string; mv_valid : bool; mv_detail : string }.
Record ActiveChallengeRuntime := MkActiveChallengeRuntime {
  ac_challenge_id : string; ac_runtime_pinned : bool; ac_compute_path_supported : bool }.
Record FixtureOutcome := MkFixtureOutcome {
  fx_lossless_numeric_parsing : bool; fx_canonical_request_serialization : bool; fx_detail : string }.
Record ApiKeyPlacement := MkApiKeyPlacement {
  ak_present_in_gateway : bool; ak_readable_by_member_services : bool }.

Record Evidence := MkEvidence {
  ev_config_network : result string Network;
  ev_upstream_commit : result string string;
  ev_resolved_images : result string ImageObservation;
  ev_openapi : result string OpenApiObservation;
  ev_response_models : result string (list ModelValidation);
  ev_active_challenges : result string (list ActiveChallengeRuntime);
  ev_fixtures : result string FixtureOutcome;
  ev_api_key : result string ApiKeyPlacement;
  ev_confirmed_pool_player_id : result string string;
}.

Record WriteReady := MkWriteReady {
  wr_network : Network; wr_upstream_commit : string; wr_containers_unresolved : option string }.
#[export] Instance WriteReady_eq_dec : EqDecision WriteReady.
Proof. solve_decision. Defined.

Definition acquired_upstream_commit (declared : string) : result string string :=
  if (String.length declared =? 0)%nat then Err "no acquired upstream commit was declared" else Ok declared.

Definition REQUIRED_MODELS : list string :=
  ["get-block"; "get-challenges"; "get-algorithms"; "get-opow"; "get-benchmarks"].

(** ** The compiled-in pins *)

(** Why the pinned document cannot be used; the source's messages, by case. *)
Inductive PinError :=
| PinAbsent (path : list string)
| PinNotString (path : list string)
| PinUnknownNetwork (name : string)
| PinNoImages
| PinImageField (image field : string).

Definition pinned_network (pinned : Value) : result PinError Network :=
  let? name := ok_or (and_then (and_then (json_get "network" pinned) (json_get "name")) json_as_str)
                 (PinAbsent ["network"; "name"]) in
  map_err (fun _ => PinUnknownNetwork name) (Network_from_str name).

(** The closure [text]. *)
Definition pinned_text (value : Value) (path : list string) : result PinError string :=
  let? at_ := ok_or (json_path path value) (PinAbsent path) in
  ok_or (json_as_str at_) (PinNotString path).

(** One turn of the loop over [images]. *)
Definition pin_image (acc : btree string * btree unit) (entry : string * Value)
  : result PinError (btree string * btree unit) :=
  let '(name, image) := entry in
  let? reference := ok_or (and_then (json_get "reference" image) json_as_str) (PinImageField name "reference") in
  let? digest := ok_or (and_then (json_get "manifest_digest" image) json_as_str)
                   (PinImageField name "manifest_digest") in
  Ok (bt_insert reference digest acc.1, bt_insert name tt acc.2).

(** [Pins::compiled_in], from the parsed [config/tig_integration.json]. *)
Definition compiled_in (value : Value) (pool_player_id platform : string) : result PinError Pins :=
  let? images := ok_or (and_then (json_get "images" value) json_as_object) PinNoImages in
  let? tables := foldM pin_image (bt_empty, bt_empty) images in
  let? network := pinned_network value in
  let? upstream_commit := pinned_text value ["upstream"; "commit"] in
  let? openapi_sha256 := pinned_text value ["upstream"; "openapi"; "sha256"] in
  Ok (MkPins network upstream_commit tables.1 tables.2 platform openapi_sha256 pool_player_id).

(** ** The nine checks *)

(** [format!] with its pieces. *)
Definition format (pieces : list string) : string := String.concat "" pieces.
Definition failed (c : Check) (pieces : list string) : list Failure := [MkFailure c (format pieces)].

Definition check_config_network (pins : Pins) (ev : Evidence) : list Failure :=
  match ev_config_network ev with
  | Err e => failed ConfigNetwork ["config did not parse: "; e]
  | Ok network =>
      if negb (bool_decide (network = Testnet))
      then failed ConfigNetwork ["network is "; Network_as_str network; ", and §13 requires exactly testnet"]
      else if negb (bool_decide (network = pin_network pins))
      then failed ConfigNetwork ["network "; Network_as_str network; " disagrees with the pinned ";
                               Network_as_str (pin_network pins)]
      else []
  end.

Definition check_upstream_commit (pins : Pins) (ev : Evidence) : list Failure :=
  match ev_upstream_commit ev with
  | Err e => failed UpstreamCommit ["could not determine the acquired upstream commit: "; e]
  | Ok commit =>
      if negb (String.eqb commit (pin_upstream_commit pins))
      then failed UpstreamCommit ["acquired "; commit; ", pinned "; pin_upstream_commit pins;
                                "; §13 never accepts a moved branch automatically"]
      else []
  end.

(** One pinned image against what was resolved. *)
Definition check_image (pins : Pins) (by_reference : btree ResolvedImage) (pin : string * string) : list Failure :=
  let '(reference, pinned_digest) := pin in
  match bt_get reference by_reference with
  | None => failed ContainerDigests [reference; " did not resolve"]
  | Some image =>
      if negb (String.eqb (ri_manifest_digest image) pinned_digest)
      then failed ContainerDigests [reference; " resolved to "; ri_manifest_digest image; ", pinned "; pinned_digest]
      else if negb (String.eqb (ri_platform image) (pin_platform pins))
      then failed ContainerDigests [reference; " resolved for platform "; ri_platform image; ", pinned ";
                                  pin_platform pins]
      else []
  end.

(** The failures, and the acknowledgement that passed the check if one did. *)
Definition check_container_digests (pins : Pins) (ev : Evidence) : list Failure * option string :=
  match ev_resolved_images ev with
  | Err e => (failed ContainerDigests ["could not resolve container digests: "; e], None)
  | Ok (MkImageObservation None None) =>
      (failed ContainerDigests ["no container digests were resolved and no reviewed acknowledgement is active; see tig_integration.md §13.2"], None)
  | Ok (MkImageObservation None (Some reason)) =>
      if trim_is_empty reason
      then (failed ContainerDigests ["the container acknowledgement gives no reason; §13.2 requires one, because it is what a later operator reads to decide whether the deviation still holds"], None)
      else ([], Some reason)
  | Ok (MkImageObservation (Some resolved) _) =>
      let by_reference := bt_collect (map (fun image => (ri_reference image, image)) resolved) in
      (flat_map (check_image pins by_reference) (pin_image_digests pins), None)
  end.

Definition check_openapi (pins : Pins) (ev : Evidence) : list Failure :=
  match ev_openapi ev with
  | Err e => failed OpenApiChecksum ["could not obtain the OpenAPI document: "; e]
  | Ok observed =>
      match oa_reviewed_local_override observed, oa_hosted_sha256 observed with
      | Some override_sha, _ =>
          if String.eqb override_sha (pin_openapi_sha256 pins) then []
          else failed OpenApiChecksum ["the local schema override checksum "; override_sha; " is not the reviewed ";
                                     pin_openapi_sha256 pins]
      | None, Some hosted =>
          if String.eqb hosted (pin_openapi_sha256 pins) then []
          else failed OpenApiChecksum ["hosted OpenAPI checksum "; hosted; " is not the reviewed ";
                 pin_openapi_sha256 pins; "; §13 makes this an operator task, not an automatic re-pin"]
      | None, None => failed OpenApiChecksum ["no hosted checksum and no reviewed local override"]
      end
  end.

(** One required endpoint against the validations. *)
Definition check_model (by_endpoint : btree ModelValidation) (endpoint : string) : list Failure :=
  match bt_get endpoint by_endpoint with
  | None => failed ResponseModels [endpoint; " was not validated"]
  | Some v =>
      if negb (mv_valid v) then failed ResponseModels [endpoint; " did not validate: "; mv_detail v] else []
  end.
Definition check_response_models (ev : Evidence) : list Failure :=
  match ev_response_models ev with
  | Err e => failed ResponseModels ["could not validate the required responses: "; e]
  | Ok validations =>
      flat_map (check_model (bt_collect (map (fun v => (mv_endpoint v, v)) validations))) REQUIRED_MODELS
  end.

Definition check_challenge (c : ActiveChallengeRuntime) : list Failure :=
  (if negb (ac_runtime_pinned c)
   then failed ChallengeRuntimes ["challenge "; ac_challenge_id c; " has no pinned runtime"] else []) ++
  (if negb (ac_compute_path_supported c)
   then failed ChallengeRuntimes ["challenge "; ac_challenge_id c; " has no supported compute path"] else []).
Definition check_challenge_runtimes (ev : Evidence) : list Failure :=
  match ev_active_challenges ev with
  | Err e => failed ChallengeRuntimes ["could not determine the active challenges: "; e]
  | Ok challenges => flat_map check_challenge challenges
  end.

Definition check_fixtures (ev : Evidence) : list Failure :=
  match ev_fixtures ev with
  | Err e => failed SerializationFixtures ["could not run the fixtures: "; e]
  | Ok outcome =>
      (if negb (fx_lossless_numeric_parsing outcome)
       then failed SerializationFixtures ["lossless numeric parsing failed: "; fx_detail outcome] else []) ++
      (if negb (fx_canonical_request_serialization outcome)
       then failed SerializationFixtures ["canonical request serialization failed: "; fx_detail outcome] else [])
  end.

Definition check_api_key (ev : Evidence) : list Failure :=
  match ev_api_key ev with
  | Err e => failed ApiKeyIsolation ["could not establish where the API key is: "; e]
  | Ok placement =>
      (if negb (ak_present_in_gateway placement)
       then failed ApiKeyIsolation ["the TIG API key is not present in the gateway"] else []) ++
      (if ak_readable_by_member_services placement
       then failed ApiKeyIsolation ["the TIG API key is readable by member services (architecture.md §2.2)"] else [])
  end.

Definition check_player_identity (pins : Pins) (ev : Evidence) : list Failure :=
  match ev_confirmed_pool_player_id ev with
  | Err e => failed PlayerIdentity ["could not read the confirmed pool player ID: "; e]
  | Ok observed =>
      if negb (String.eqb observed (pin_pool_player_id pins))
      then failed PlayerIdentity ["confirmed data reports player "; observed; ", configured identity is ";
                                pin_pool_player_id pins]
      else []
  end.

Definition all_failures (pins : Pins) (ev : Evidence) : list Failure :=
  check_config_network pins ev ++ check_upstream_commit pins ev ++ fst (check_container_digests pins ev) ++
  check_openapi pins ev ++ check_response_models ev ++ check_challenge_runtimes ev ++
  check_fixtures ev ++ check_api_key ev ++ check_player_identity pins ev.

Definition evaluate (pins : Pins) (ev : Evidence) : result (list Failure) WriteReady :=
  let failures := all_failures pins ev in
  match failures with
  | [] =>
      let? network := map_err (fun _ => failures) (ev_config_network ev) in
      let? upstream_commit := map_err (fun _ => failures) (ev_upstream_commit ev) in
      Ok (MkWriteReady network upstream_commit (snd (check_container_digests pins ev)))
  | _ => Err (sort_by (fun a b => Check_number (fl_check a) <=? Check_number (fl_check b)) failures)
  end.

(** ** Specification *)

(** The entry a [BTreeMap] collected from [l] holds at [k]: the last one. *)
Definition last_with {A} (key : A -> string) (k : string) (l : list A) : option A :=
  last (filter (fun x => key x = k) l).

(** What each check requires of the evidence.  Evidence that could not be
    gathered passes nothing. *)
Definition passes (pins : Pins) (ev : Evidence) (c : Check) : Prop :=
  match c with
  | ConfigNetwork => ev_config_network ev = Ok Testnet /\ pin_network pins = Testnet
  | UpstreamCommit => ev_upstream_commit ev = Ok (pin_upstream_commit pins)
  | ContainerDigests => exists obs, ev_resolved_images ev = Ok obs /\
      match io_resolved obs with
      | Some images => forall reference digest, (reference, digest) ∈ pin_image_digests pins ->
          exists image, last_with ri_reference reference images = Some image /\
            ri_manifest_digest image = digest /\ ri_platform image = pin_platform pins
      | None => exists reason, io_reviewed_unresolved obs = Some reason /\ trim_is_empty reason = false
      end
  | OpenApiChecksum => exists obs, ev_openapi ev = Ok obs /\
      match oa_reviewed_local_override obs with
      | Some sha => sha = pin_openapi_sha256 pins
      | None => oa_hosted_sha256 obs = Some (pin_openapi_sha256 pins)
      end
  | ResponseModels => exists vs, ev_response_models ev = Ok vs /\
      forall endpoint, endpoint ∈ REQUIRED_MODELS ->
        exists v, last_with mv_endpoint endpoint vs = Some v /\ mv_valid v = true
  | ChallengeRuntimes => exists cs, ev_active_challenges ev = Ok cs /\
      forall c, c ∈ cs -> ac_runtime_pinned c = true /\ ac_compute_path_supported c = true
  | SerializationFixtures => exists o, ev_fixtures ev = Ok o /\
      fx_lossless_numeric_parsing o = true /\ fx_canonical_request_serialization o = true
  | ApiKeyIsolation => exists p, ev_api_key ev = Ok p /\
      ak_present_in_gateway p = true /\ ak_readable_by_member_services p = false
  | PlayerIdentity => ev_confirmed_pool_player_id ev = Ok (pin_pool_player_id pins)
  end.

(** The acknowledgement a pass of check 3 rests on, if it rests on one. *)
Definition acknowledged (ev : Evidence) : option string :=
  match ev_resolved_images ev with
  | Ok obs => match io_resolved obs with None => io_reviewed_unresolved obs | Some _ => None end
  | Err _ => None
  end.

(** What a check's part of [evaluate] pushes: its own failures, none exactly
    when the check passes. *)
Definition reports (pins : Pins) (ev : Evidence) (c : Check) (fs : list Failure) : Prop :=
  (forall f, f ∈ fs -> fl_check f = c) /\ (fs = [] <-> passes pins ev c).

(** ** Lemmas *)

Lemma bt_get_collect_key {A} (key : A -> string) k (l : list A) :
  bt_get k (bt_collect (map (fun x => (key x, x)) l)) = last_with key k l.
Proof.
  unfold bt_collect, last_with. induction l as [|x l IH] using rev_ind; [done|].
  rewrite map_app, fold_left_app, filter_app. simpl. rewrite bt_get_insert, IH.
  destruct (decide (k = key x)) as [->|Hne].
  - rewrite filter_cons_True by done. rewrite filter_nil. by rewrite last_snoc.
  - rewrite filter_cons_False by congruence. rewrite filter_nil. by rewrite app_nil_r.
Qed.
Lemma flat_map_nil {A B} (f : A -> list B) l : flat_map f l = [] <-> forall x, x ∈ l -> f x = [].
Proof.
  induction l as [|y l IH]; simpl; [split; [intros _ x []%elem_of_nil|done]|].
  rewrite app_nil, IH. split.
  - intros [Hy Hl] x [->|Hx]%elem_of_cons; [done|by apply Hl].
  - intros H. split; [apply H, list_elem_of_here|]. intros x Hx. by apply H, list_elem_of_further.
Qed.
Lemma flat_map_forall {A B} (P : B -> Prop) (f : A -> list B) l :
  (forall x y, y ∈ f x -> P y) -> forall y, y ∈ flat_map f l -> P y.
Proof.
  intros Hf y Hy. rewrite list_elem_of_In, in_flat_map in Hy. destruct Hy as (x & _ & Hy).
  apply (Hf x). by apply list_elem_of_In.
Qed.

(** Closes goals of the form [reports ...] whose check is a case analysis. *)
Ltac report :=
  repeat match goal with
  | |- context [match ?r with Ok _ => _ | Err _ => _ end] => destruct r eqn:?; simpl
  | |- context [String.eqb ?a ?b] => destruct (String.eqb_spec a b); simpl
  | |- context [bool_decide ?P] => destruct (bool_decide_reflect P); simpl
  | |- context [if negb ?b then _ else _] => destruct b eqn:?; simpl
  | |- context [if ?b then _ else _] => destruct b eqn:?; simpl
  end;
  (split; [intros f; set_solver|]; split;
   [first [done | intros _; naive_solver]
   |first [done | by intros (? & [= <-] & ?) | by intros (? & [= <-] & ? & ?) | naive_solver]]).

Lemma check_config_network_reports pins ev : reports pins ev ConfigNetwork (check_config_network pins ev).
Proof. unfold reports, check_config_network. simpl. report. Qed.
Lemma check_upstream_commit_reports pins ev : reports pins ev UpstreamCommit (check_upstream_commit pins ev).
Proof. unfold reports, check_upstream_commit. simpl. report. Qed.
Lemma check_container_digests_reports pins ev :
  reports pins ev ContainerDigests (fst (check_container_digests pins ev)) /\
  (passes pins ev ContainerDigests -> snd (check_container_digests pins ev) = acknowledged ev).
Proof.
  unfold reports, check_container_digests, acknowledged. simpl.
  destruct (ev_resolved_images ev) as [[[images|] reviewed]|e]; simpl.
  - split; [|done]. split.
    { apply (flat_map_forall (fun f => fl_check f = ContainerDigests)). intros [r d] f. unfold check_image.
      destruct (bt_get _ _); repeat case_match; set_solver. }
    rewrite flat_map_nil. split.
    + intros H. eexists. split; [done|]. simpl. intros r d Hin. specialize (H (r, d) Hin). unfold check_image in H.
      rewrite bt_get_collect_key in H. destruct (last_with _ _ _) as [image|]; [|done]. exists image.
      destruct (String.eqb_spec (ri_manifest_digest image) d); [|done].
      by destruct (String.eqb_spec (ri_platform image) (pin_platform pins)).
    + intros (obs & [= <-] & H) [r d] Hin. simpl in H. destruct (H r d Hin) as (image & Hl & <- & Hp).
      unfold check_image. rewrite bt_get_collect_key, Hl, Hp, !String.eqb_refl. done.
  - destruct reviewed as [reason|]; [destruct (trim_is_empty reason) eqn:Hblank|]; simpl.
    + split; [split; [intros f; set_solver|split; [done|]]|]; intros (? & [= <-] & ? & [= <-] & ?); congruence.
    + split; [split; [intros f; set_solver|split; [intros _|done]]|done].
      eexists. split; [done|]. by exists reason.
    + split; [split; [intros f; set_solver|split; [done|]]|]; by intros (? & [= <-] & ? & ? & _).
  - split; [split; [intros f; set_solver|split; [done|]]|]; by intros (? & ? & _).
Qed.
Lemma check_openapi_reports pins ev : reports pins ev OpenApiChecksum (check_openapi pins ev).
Proof.
  unfold reports, check_openapi. simpl. destruct (ev_openapi ev) as [[[h|] [o|]]|e]; simpl; report.
Qed.
Lemma check_response_models_reports pins ev : reports pins ev ResponseModels (check_response_models ev).
Proof.
  unfold reports, check_response_models, passes. destruct (ev_response_models ev) as [vs|e]; [|report].
  split.
  { apply (flat_map_forall (fun f => fl_check f = ResponseModels)). intros x f. unfold check_model.
    destruct (bt_get _ _); repeat case_match; set_solver. }
  rewrite flat_map_nil. unfold check_model. split.
  - intros H. exists vs. split; [done|]. intros endpoint Hin. specialize (H endpoint Hin).
    rewrite bt_get_collect_key in H. destruct (last_with _ _ _) as [v|]; [|done]. exists v. by destruct (mv_valid v).
  - intros (vs' & [= <-] & H) endpoint Hin. destruct (H endpoint Hin) as (v & Hl & Hv).
    by rewrite bt_get_collect_key, Hl, Hv.
Qed.
Lemma check_challenge_runtimes_reports pins ev : reports pins ev ChallengeRuntimes (check_challenge_runtimes ev).
Proof.
  unfold reports, check_challenge_runtimes, passes. destruct (ev_active_challenges ev) as [cs|e]; [|report].
  split.
  { apply (flat_map_forall (fun f => fl_check f = ChallengeRuntimes)). intros c f. unfold check_challenge.
    destruct (ac_runtime_pinned c), (ac_compute_path_supported c); simpl; set_solver. }
  rewrite flat_map_nil. unfold check_challenge. split.
  - intros H. exists cs. split; [done|]. intros c Hin. specialize (H c Hin).
    by destruct (ac_runtime_pinned c), (ac_compute_path_supported c).
  - intros (cs' & [= <-] & H) c Hin. by destruct (H c Hin) as [-> ->].
Qed.
Lemma check_fixtures_reports pins ev : reports pins ev SerializationFixtures (check_fixtures ev).
Proof.
  unfold reports, check_fixtures. simpl. destruct (ev_fixtures ev) as [[[|] [|] d]|e]; simpl; report.
Qed.
Lemma check_api_key_reports pins ev : reports pins ev ApiKeyIsolation (check_api_key ev).
Proof.
  unfold reports, check_api_key. simpl. destruct (ev_api_key ev) as [[[|] [|]]|e]; simpl; report.
Qed.
Lemma check_player_identity_reports pins ev : reports pins ev PlayerIdentity (check_player_identity pins ev).
Proof. unfold reports, check_player_identity. simpl. report. Qed.

(** The pushed failures by check: [Check_ALL] covers the nine. *)
Definition failures_of (pins : Pins) (ev : Evidence) (c : Check) : list Failure :=
  match c with
  | ConfigNetwork => check_config_network pins ev
  | UpstreamCommit => check_upstream_commit pins ev
  | ContainerDigests => fst (check_container_digests pins ev)
  | OpenApiChecksum => check_openapi pins ev
  | ResponseModels => check_response_models ev
  | ChallengeRuntimes => check_challenge_runtimes ev
  | SerializationFixtures => check_fixtures ev
  | ApiKeyIsolation => check_api_key ev
  | PlayerIdentity => check_player_identity pins ev
  end.
Lemma failures_of_reports pins ev c : reports pins ev c (failures_of pins ev c).
Proof.
  destruct c; simpl;
    auto using check_config_network_reports, check_upstream_commit_reports, check_openapi_reports,
      check_response_models_reports, check_challenge_runtimes_reports, check_fixtures_reports,
      check_api_key_reports, check_player_identity_reports.
  apply check_container_digests_reports.
Qed.
Lemma Check_ALL_complete c : c ∈ Check_ALL.
Proof. destruct c; set_solver. Qed.
Lemma all_failures_flat pins ev : all_failures pins ev = flat_map (failures_of pins ev) Check_ALL.
Proof. unfold all_failures. simpl. by rewrite app_nil_r. Qed.
Lemma all_failures_nil pins ev : all_failures pins ev = [] <-> forall c, passes pins ev c.
Proof.
  rewrite all_failures_flat, flat_map_nil. split.
  - intros H c. apply (failures_of_reports pins ev c), H, Check_ALL_complete.
  - intros H c _. by apply (failures_of_reports pins ev c).
Qed.
Lemma failed_iff pins ev c :
  (exists f, f ∈ all_failures pins ev /\ fl_check f = c) <-> ~ passes pins ev c.
Proof.
  rewrite all_failures_flat. destruct (failures_of_reports pins ev c) as [Hown Hnil]. split.
  - intros (f & Hf & <-) Hp. rewrite list_elem_of_In, in_flat_map in Hf. destruct Hf as (c' & _ & Hf%list_elem_of_In).
    rewrite <- (proj1 (failures_of_reports pins ev c') f Hf) in Hf. apply Hnil in Hp. rewrite Hp in Hf.
    by apply elem_of_nil in Hf.
  - intros Hp. destruct (failures_of pins ev c) as [|f fs] eqn:E; [by destruct Hp; apply Hnil|].
    exists f. split; [|apply Hown, list_elem_of_here]. apply list_elem_of_In, in_flat_map. exists c.
    split; [apply list_elem_of_In, Check_ALL_complete|rewrite E; by left].
Qed.

Lemma evaluate_Ok pins ev ready : evaluate pins ev = Ok ready ->
  (forall c, passes pins ev c) /\
  ready = MkWriteReady Testnet (pin_upstream_commit pins) (acknowledged ev) /\ pin_network pins = Testnet.
Proof.
  unfold evaluate. destruct (all_failures pins ev) as [|f fs] eqn:E; [|done].
  pose proof (proj1 (all_failures_nil pins ev) E) as Hall.
  destruct (Hall ConfigNetwork) as [-> Hpin]. rewrite (Hall UpstreamCommit : ev_upstream_commit ev = _). simpl.
  rewrite (proj2 (check_container_digests_reports pins ev) (Hall ContainerDigests)). by intros [= <-].
Qed.
Lemma evaluate_Err pins ev failures : evaluate pins ev = Err failures ->
  failures <> [] /\ (forall f, f ∈ failures <-> f ∈ all_failures pins ev) /\
  StronglySorted (fun a b => (Check_number (fl_check a) <=? Check_number (fl_check b)) = true) failures.
Proof.
  unfold evaluate. destruct (all_failures pins ev) as [|f fs] eqn:E.
  - pose proof (proj1 (all_failures_nil pins ev) E) as Hall.
    destruct (Hall ConfigNetwork) as [-> _]. by rewrite (Hall UpstreamCommit : ev_upstream_commit ev = _).
  - rewrite <- E. set (le := fun a b : Failure => _). intros [= <-]. split_and!.
    + intros Hnil. pose proof (sort_by_perm le (all_failures pins ev)) as Hp. rewrite Hnil, E in Hp.
      by apply Permutation_nil_l in Hp.
    + intros g. apply elem_of_sort_by.
    + apply sort_by_sorted; unfold le; intros *; lia.
Qed.

(** ** Theorems *)

(** The gate decides exactly the nine checks.  [WriteReady] is granted only when
    every one of them passes, and then carries the pinned network -- testnet --
    the pinned commit and the acknowledgement check 3 rests on, if any;
    otherwise the failures returned name exactly the checks that do not pass,
    all of them, in the order of their numbers. *)
Theorem evaluate_exact pins ev :
  match evaluate pins ev with
  | Ok ready => (forall c, passes pins ev c) /\
      ready = MkWriteReady Testnet (pin_upstream_commit pins) (acknowledged ev) /\ pin_network pins = Testnet
  | Err failures => failures <> [] /\
      (forall c, (exists f, f ∈ failures /\ fl_check f = c) <-> ~ passes pins ev c) /\
      StronglySorted (fun a b => (Check_number (fl_check a) <=? Check_number (fl_check b)) = true) failures
  end.
Proof.
  destruct (evaluate pins ev) as [ready|failures] eqn:E; [by apply evaluate_Ok|].
  destruct (evaluate_Err pins ev failures E) as (Hne & Hin & Hsort). split_and!; [done| |done].
  intros c. rewrite <- failed_iff. by setoid_rewrite Hin.
Qed.
