(* ===== verification/WriteGate.v ===== *)
(** * Holding [WRITE_READY]: [crates/tig-gateway/src/write_gate.rs]

    The gate's mutex-guarded state, one function per method, and the process
    around it: each method call is atomic under the lock, a permit is a value
    some writer owns until it drops it, and calls from different tasks come in
    any order. *)
From S2P Require Import Prelude BTreeMap Json Domain Readiness.
From stdpp Require Import pretty.
Open Scope Z_scope.

Inductive Revocation :=
| Authentication (detail : string)
| Compatibility (failed : list Check) (detail : string).
#[export] Instance Revocation_eq_dec : EqDecision Revocation.
Proof. solve_decision. Defined.

Definition revocation_category (r : Revocation) : string :=
  match r with Authentication _ => "authentication" | Compatibility _ _ => "compatibility" end.
Definition failed_checks (r : Revocation) : list Check :=
  match r with Authentication _ => [] | Compatibility failed _ => failed end.
Definition failed_check_numbers (r : Revocation) : string :=
  String.concat "," (map (fun c => pretty (Check_number c)) (failed_checks r)).
Definition revocation_detail (r : Revocation) : string :=
  match r with Authentication detail => detail | Compatibility _ detail => detail end.

Record Blocked := MkBlocked { bl_revocation : Revocation }.
(** [Display for Blocked]. *)
Definition blocked_fmt (b : Blocked) : string :=
  let r := bl_revocation b in
  format (["writes are disabled: "; revocation_category r; " ("; revocation_detail r; ")"] ++
    if (String.length (failed_check_numbers r) =? 0)%nat then []
    else [" [§13 checks "; failed_check_numbers r; "]"]).

Inductive GateState := Ready (ready : WriteReady) | Revoked (revocation : Revocation).
Record Inner := MkInner { in_gate_state : GateState; in_flight : Z }.

(** ** The methods under the lock

    [in_flight] is a [usize]; the increment wraps at 64 bits, the decrement
    saturates.  Logging is left out. *)

Definition open_gate (ready : WriteReady) : Inner := MkInner (Ready ready) 0.

Definition begin_write (inner : Inner) : result Blocked (WriteReady * Inner) :=
  match in_gate_state inner with
  | Revoked revocation => Err (MkBlocked revocation)
  | Ready ready => Ok (ready, MkInner (in_gate_state inner) ((in_flight inner + 1) mod 2 ^ 64))
  end.
Definition revoke (revocation : Revocation) (inner : Inner) : bool * Inner :=
  match in_gate_state inner with
  | Revoked _ => (false, inner)
  | Ready _ => (true, MkInner (Revoked revocation) (in_flight inner))
  end.
Definition restore (ready : WriteReady) (inner : Inner) : bool * Inner :=
  match in_gate_state inner with
  | Ready _ => (false, inner)
  | Revoked _ => (true, MkInner (Ready ready) (in_flight inner))
  end.
Definition is_ready (inner : Inner) : bool :=
  match in_gate_state inner with Ready _ => true | Revoked _ => false end.
Definition gate_revocation (inner : Inner) : option Revocation :=
  match in_gate_state inner with Revoked r => Some r | Ready _ => None end.
(** [Drop for WritePermit]. *)
Definition drop_permit (inner : Inner) : Inner :=
  MkInner (in_gate_state inner) (saturating_sub_u (in_flight inner) 1).

(** ** The process

    The permits alive, each with the readiness it was admitted under.  A permit
    is made by [begin_write] and ends once, when its owner drops it.
    [WriteReady] has no constructor but [evaluate], so a gate is opened and
    restored only with one that [evaluate] granted. *)

Record Gate := MkGate { gt_inner : Inner; gt_permits : gmap nat WriteReady }.
Inductive GateEvent :=
| EBegin (permit : nat)
| EBlocked (b : Blocked)
| EDrop (permit : nat)
| ERevoke (r : Revocation)
| ERestore (ready : WriteReady).

Definition granted (ready : WriteReady) : Prop := exists pins ev, evaluate pins ev = Ok ready.

Inductive gate_step : Gate -> GateEvent -> Gate -> Prop :=
| step_begin inner permits p ready inner' :
    permits !! p = None -> begin_write inner = Ok (ready, inner') ->
    gate_step (MkGate inner permits) (EBegin p) (MkGate inner' (<[p := ready]> permits))
| step_blocked g b : begin_write (gt_inner g) = Err b -> gate_step g (EBlocked b) g
| step_drop inner permits p ready :
    permits !! p = Some ready ->
    gate_step (MkGate inner permits) (EDrop p) (MkGate (drop_permit inner) (delete p permits))
| step_revoke inner permits r :
    gate_step (MkGate inner permits) (ERevoke r) (MkGate (revoke r inner).2 permits)
| step_restore inner permits ready :
    granted ready -> gate_step (MkGate inner permits) (ERestore ready) (MkGate (restore ready inner).2 permits).

(** The gates a history of events leads to, oldest event first. *)
Inductive gate_run : list GateEvent -> Gate -> Prop :=
| run_open ready : granted ready -> gate_run [] (MkGate (open_gate ready) ∅)
| run_event h g e g' : gate_run h g -> gate_step g e g' -> gate_run (h ++ [e]) g'.

(** ** Specification *)

(** Every revocation was followed by a restoration. *)
Definition settled (h : list GateEvent) : Prop :=
  forall i r, h !! i = Some (ERevoke r) -> exists j ready, (i < j)%nat /\ h !! j = Some (ERestore ready).
(** [r] is the first revocation since writes were last enabled, and none has
    been enabled since. *)
Definition first_cause (h : list GateEvent) (r : Revocation) : Prop :=
  exists i, h !! i = Some (ERevoke r) /\ settled (take i h) /\
    forall j ready, (i < j)%nat -> h !! j <> Some (ERestore ready).

Definition gate_follows (h : list GateEvent) (inner : Inner) : Prop :=
  match in_gate_state inner with Ready _ => settled h | Revoked r => first_cause h r end.

(** The revocations and restorations of a history decide it; an event that is
    neither leaves both notions as they were. *)
Definition silent (e : GateEvent) : Prop :=
  match e with ERevoke _ | ERestore _ => False | _ => True end.

(** ** Lemmas *)

Lemma lookup_snoc_cases {A} (h : list A) e i x :
  (h ++ [e]) !! i = Some x <-> h !! i = Some x \/ (i = length h /\ x = e).
Proof.
  rewrite lookup_app_Some. split.
  - intros [?|[Hle Hx]]; [by left|right]. destruct (i - length h)%nat as [|k] eqn:E; [|by destruct k].
    simpl in Hx. split; [lia|congruence].
  - intros [?|[-> ->]]; [by left|right]. split; [done|]. by rewrite Nat.sub_diag.
Qed.
Lemma settled_restore h ready : settled (h ++ [ERestore ready]).
Proof.
  intros i r [Hi|[_ ?]]%lookup_snoc_cases; [|done]. exists (length h), ready.
  split; [by apply lookup_lt_Some in Hi|]. apply lookup_snoc_cases. by right.
Qed.
Lemma settled_silent h e : silent e -> settled h -> settled (h ++ [e]).
Proof.
  intros He Hs i r [Hi|[_ <-]]%lookup_snoc_cases; [|done]. destruct (Hs i r Hi) as (j & w & Hj & Hw).
  exists j, w. split; [done|]. apply lookup_snoc_cases. by left.
Qed.
Lemma first_cause_new h r : settled h -> first_cause (h ++ [ERevoke r]) r.
Proof.
  intros Hs. exists (length h). split; [apply lookup_snoc_cases; by right|]. split.
  - by rewrite take_app_length.
  - intros j w Hj [Hw|[_ ?]]%lookup_snoc_cases; [apply lookup_lt_Some in Hw; lia|done].
Qed.
Lemma first_cause_snoc h e r :
  (forall ready, e <> ERestore ready) -> first_cause h r -> first_cause (h ++ [e]) r.
Proof.
  intros He (i & Hi & Hs & Hn). exists i. split; [apply lookup_snoc_cases; by left|]. split.
  - rewrite take_app_le; [done|]. apply lookup_lt_Some in Hi. lia.
  - intros j w Hj [Hw|[_ ?]]%lookup_snoc_cases; [by eapply Hn|by eapply He].
Qed.
Lemma first_cause_not_settled h r : first_cause h r -> ~ settled h.
Proof. intros (i & Hi & _ & Hn) Hs. destruct (Hs i r Hi) as (j & w & Hj & Hw). by apply (Hn j w). Qed.
Lemma first_cause_unique h r r' : first_cause h r -> first_cause h r' -> r = r'.
Proof.
  intros (i & Hi & Hs & Hn) (i' & Hi' & Hs' & Hn').
  assert (Hlt : forall a b ra, (a < b)%nat -> h !! a = Some (ERevoke ra) -> settled (take b h) ->
    (forall j ready, (a < j)%nat -> h !! j <> Some (ERestore ready)) -> False).
  { intros a b ra Hab Ha Hb Hna. destruct (Hb a ra) as (j & w & Hj & Hw); [by rewrite lookup_take_lt|].
    apply (Hna j w Hj). by apply lookup_take_Some in Hw as [? _]. }
  destruct (decide (i = i')) as [->|Hne]; [congruence|]. destruct (decide (i < i')%nat).
  - by destruct (Hlt i i' r).
  - destruct (Hlt i' i r'); try done. lia.
Qed.

Lemma gate_follows_step h g e g' : gate_follows h (gt_inner g) -> gate_step g e g' ->
  gate_follows (h ++ [e]) (gt_inner g').
Proof.
  unfold gate_follows. intros Hf Hstep.
  destruct Hstep as [inner permits p ready inner' _ Hb|g b Hb|inner permits p ready _|inner permits r|inner permits ready _];
    simpl in *.
  - unfold begin_write in Hb. destruct (in_gate_state inner) eqn:E; [|done]. injection Hb as <- <-. simpl.
    by apply settled_silent.
  - destruct (in_gate_state (gt_inner g)); [by apply settled_silent|by apply first_cause_snoc].
  - destruct (in_gate_state inner); [by apply settled_silent|by apply first_cause_snoc].
  - unfold revoke. destruct (in_gate_state inner) eqn:E; simpl; [by apply first_cause_new|].
    rewrite E. by apply first_cause_snoc.
  - unfold restore. destruct (in_gate_state inner) eqn:E; simpl; [rewrite E|]; apply settled_restore.
Qed.

(** What a history leaves: the counter, the permits and the state. *)
Record gate_ok (h : list GateEvent) (g : Gate) : Prop := {
  gate_count : Z.of_nat (length h) <= u64_max -> in_flight (gt_inner g) = Z.of_nat (size (gt_permits g));
  gate_live : (size (gt_permits g) <= length h)%nat;
  gate_granted : forall p ready, gt_permits g !! p = Some ready -> granted ready;
  gate_ready : forall ready, in_gate_state (gt_inner g) = Ready ready -> granted ready;
  gate_state : gate_follows h (gt_inner g);
}.
Lemma gate_run_ok h g : gate_run h g -> gate_ok h g.
Proof.
  induction 1 as [ready Hg|h g e g' Hrun IH Hstep].
  { constructor; simpl; try done. by intros w [= <-]. }
  pose proof (gate_follows_step _ _ _ _ (gate_state _ _ IH) Hstep) as Hst. destruct IH as [Hc Hl Hp Hr _].
  destruct Hstep as [inner permits p ready inner' Hfresh Hb|g b Hb|inner permits p ready Hlive|inner permits r|inner permits ready Hg];
    simpl in *; constructor; simpl; rewrite ?length_app; simpl; try done; try lia; try (intros; apply Hc; lia).
  - intros Hlen. rewrite map_size_insert_None by done. unfold begin_write in Hb.
    destruct (in_gate_state inner) as [w|] eqn:E; [|done]. injection Hb as <- <-. simpl. rewrite Hc by lia.
    unfold u64_max in Hlen. rewrite Z.mod_small; lia.
  - rewrite map_size_insert_None by done. lia.
  - unfold begin_write in Hb. destruct (in_gate_state inner) as [w|] eqn:E; [|done]. injection Hb as <- <-.
    intros q w' [[_ <-]|[_ Hq]]%lookup_insert_Some; [by apply Hr|by eapply Hp].
  - unfold begin_write in Hb. destruct (in_gate_state inner) as [w|] eqn:E; [|done]. injection Hb as <- <-.
    simpl. exact Hr.
  - intros Hlen. rewrite map_size_delete_Some by (by eexists). rewrite Hc by lia. unfold saturating_sub_u.
    assert (size permits <> 0)%nat; [|lia]. intros ->%map_size_empty_iff. by rewrite lookup_empty in Hlive.
  - rewrite map_size_delete_Some by (by eexists). lia.
  - intros q w [_ Hq]%lookup_delete_Some. by eapply Hp.
  - intros Hlen. unfold revoke. destruct (in_gate_state inner); simpl; apply Hc; lia.
  - intros w. unfold revoke. destruct (in_gate_state inner) eqn:E; simpl; [done|]. by rewrite E.
  - intros Hlen. unfold restore. destruct (in_gate_state inner); simpl; apply Hc; lia.
  - intros w. unfold restore. destruct (in_gate_state inner) eqn:E; simpl; [rewrite E|].
    + by apply Hr.
    + by intros [= <-].
Qed.

(** A run: two writes are admitted, the credential fails, the schema fails after
    it, one write is refused and one finishes. *)
Definition sample_pins : Pins :=
  MkPins Testnet "abc123" [("ghcr.io/tig/sat", "sha256:01")] [("satisfiability_runtime", tt)] "linux/amd64" "0e" "0xpool".
Definition sample_evidence : Evidence :=
  MkEvidence (Ok Testnet) (Ok "abc123")
    (Ok (MkImageObservation (Some [MkResolvedImage "ghcr.io/tig/sat" "sha256:01" "linux/amd64"]) None))
    (Ok (MkOpenApiObservation (Some "0e") None))
    (Ok (map (fun e => MkModelValidation e true "") REQUIRED_MODELS))
    (Ok [MkActiveChallengeRuntime "c001" true true]) (Ok (MkFixtureOutcome true true ""))
    (Ok (MkApiKeyPlacement true false)) (Ok "0xpool").
Definition sample_ready : WriteReady := MkWriteReady Testnet "abc123" None.
Definition sample_history : list GateEvent :=
  [EBegin 1; EBegin 2; ERevoke (Authentication "401"); ERevoke (Compatibility [OpenApiChecksum] "moved");
   EBlocked (MkBlocked (Authentication "401")); EDrop 1].
Definition sample_gate : Gate := MkGate (MkInner (Revoked (Authentication "401")) 1) {[2%nat := sample_ready]}.

Lemma sample_granted : granted sample_ready.
Proof. exists sample_pins, sample_evidence. vm_compute. reflexivity. Qed.
Lemma sample_run : gate_run sample_history sample_gate.
Proof.
  assert (Hend : sample_gate = MkGate (drop_permit (MkInner (Revoked (Authentication "401")) 2))
    (delete 1%nat (<[2%nat := sample_ready]> (<[1%nat := sample_ready]> ∅)))) by (vm_compute; reflexivity).
  rewrite Hend. change sample_history with
    ((((((([] ++ [EBegin 1]) ++ [EBegin 2]) ++ [ERevoke (Authentication "401")]) ++
      [ERevoke (Compatibility [OpenApiChecksum] "moved")]) ++ [EBlocked (MkBlocked (Authentication "401"))]) ++ [EDrop 1])).
  eapply run_event; [|by apply (step_drop _ _ _ sample_ready)].
  eapply run_event; [|by apply step_blocked].
  eapply run_event; [|apply (step_revoke (MkInner (Revoked (Authentication "401")) 2))].
  eapply run_event; [|apply (step_revoke (MkInner (Ready sample_ready) 2))].
  eapply run_event; [|by apply (step_begin (MkInner (Ready sample_ready) 1))].
  eapply run_event; [|by apply (step_begin (MkInner (Ready sample_ready) 0))].
  apply run_open, sample_granted.
Qed.

(** ** Theorems *)

(** In-flight writes are exactly the live permits, through any interleaving of
    admissions, revocations, restorations and drops; and every live permit was
    admitted under a readiness for which all nine checks passed, on testnet. *)
Theorem permits_counted_and_cleared h g :
  gate_run h g -> Z.of_nat (length h) <= u64_max ->
  in_flight (gt_inner g) = Z.of_nat (size (gt_permits g)) /\
  forall p ready, gt_permits g !! p = Some ready ->
    wr_network ready = Testnet /\ exists pins ev, evaluate pins ev = Ok ready /\ forall c, passes pins ev c.
Proof.
  intros Hrun Hlen. destruct (gate_run_ok h g Hrun) as [Hc _ Hp _ _]. split; [by apply Hc|].
  intros p ready Hready. destruct (Hp p ready Hready) as (pins & ev & Hev).
  destruct (evaluate_Ok pins ev ready Hev) as (Hall & -> & _). split; [done|]. exists pins, ev. by split.
Qed.

Example permits_counted_and_cleared_witness :
  gate_run sample_history sample_gate /\ in_flight (gt_inner sample_gate) = 1 /\
  exists pins ev, evaluate pins ev = Ok sample_ready /\ forall c, passes pins ev c.
Proof.
  split; [exact sample_run|]. split; [reflexivity|].
  edestruct (permits_counted_and_cleared sample_history sample_gate sample_run) as [_ H]; [vm_compute; discriminate|].
  exact (proj2 (H 2%nat sample_ready eq_refl)).
Defined.

(** A lost gate blocks new writes and only new writes.  A write is refused
    exactly while some revocation is unrestored, and the refusal names the first
    one of that episode, however many followed; revoking and restoring leave
    every live permit and the in-flight count as they were; and a blocked
    attempt changes nothing. *)
Theorem first_cause_blocks_new_writes h g :
  gate_run h g ->
  (forall r, begin_write (gt_inner g) = Err (MkBlocked r) <-> first_cause h r) /\
  (is_Ok (begin_write (gt_inner g)) = true <-> settled h) /\
  (is_ready (gt_inner g) = true <-> settled h) /\
  forall e g', gate_step g e g' -> (forall p, e <> EBegin p) -> (forall p, e <> EDrop p) ->
    gt_permits g' = gt_permits g /\ in_flight (gt_inner g') = in_flight (gt_inner g) /\
    (forall b, e = EBlocked b -> g' = g).
Proof.
  intros Hrun. pose proof (gate_state _ _ (gate_run_ok h g Hrun)) as Hst. unfold gate_follows in Hst.
  split_and!.
  - intros r. unfold begin_write. destruct (in_gate_state (gt_inner g)) as [w|r'].
    + split; [done|]. by intros Hf%first_cause_not_settled.
    + split; [by intros [= <-]|]. intros Hf. by rewrite (first_cause_unique _ _ _ Hf Hst).
  - unfold begin_write. destruct (in_gate_state (gt_inner g)); [done|]. simpl. split; [done|].
    by apply first_cause_not_settled in Hst.
  - unfold is_ready. destruct (in_gate_state (gt_inner g)); [done|]. split; [done|].
    by apply first_cause_not_settled in Hst.
  - intros e g' Hstep Hb Hd. destruct Hstep; simpl; try naive_solver.
    + unfold revoke. destruct (in_gate_state inner); naive_solver.
    + unfold restore. destruct (in_gate_state inner); naive_solver.
Qed.
Example first_cause_blocks_new_writes_witness :
  gate_run sample_history sample_gate /\ first_cause sample_history (Authentication "401").
Proof.
  split; [exact sample_run|].
  apply (proj1 (first_cause_blocks_new_writes sample_history sample_gate sample_run)). reflexivity.
Defined.
