(* ===== verification/PostLane.v ===== *)
(** * Pacing of initial writes: [crates/tig-gateway/src/lane.rs] and
    [write_policy.rs]

    The configured POST-lane policy and the slot every initial write takes
    before it is sent.  Durations and instants are in nanoseconds; the monotonic
    clock is given by the instants at which a caller reads it. *)
From S2P Require Import Prelude BTreeMap Json.
Open Scope Z_scope.

Record WritePolicy := MkWritePolicy {
  connect_timeout : Z;
  call_timeout : Z;
  min_between_initial_writes : Z;
  retry_interval_after_reconciliation : Z;
}.
Inductive WritePolicyError :=
| PolicyUnparseable (e : string)
| PolicyMissing (path : string)
| PolicyMalformed (reason : string).
Record Wire := MkWire {
  connect_timeout_seconds : Z;
  call_timeout_seconds : Z;
  min_seconds_between_initial_writes : Z;
  retry_interval_after_reconciliation_seconds : Z;
}.

Definition from_secs (secs : Z) : Z := secs * 1000000000.

(** [WritePolicy::from_config_json]; [from_str] and [from_value] are serde's
    readers of a JSON text and of the [Wire] object with its four [u64] fields. *)
Definition write_policy_from_config_json (from_str : string -> result string Value)
    (from_value : Value -> result string Wire) (json : string) : result WritePolicyError WritePolicy :=
  let? root := map_err PolicyUnparseable (from_str json) in
  let? section := ok_or (json_get "write_limits" root) (PolicyMissing "write_limits") in
  let? wire := map_err PolicyMalformed (from_value section) in
  Ok (MkWritePolicy (from_secs (connect_timeout_seconds wire)) (from_secs (call_timeout_seconds wire))
        (from_secs (min_seconds_between_initial_writes wire))
        (from_secs (retry_interval_after_reconciliation_seconds wire))).

(** The wait [take_slot] computes at instant [now]: [Instant::elapsed] is zero
    for an instant ahead of the clock. *)
Definition slot_wait (policy : WritePolicy) (last : option Z) (now : Z) : Z :=
  match last with
  | None => 0
  | Some at_ => saturating_sub_u (min_between_initial_writes policy) (Z.max 0 (now - at_))
  end.

(** One [take_slot] of a caller that reads the lane at [now] and records its slot
    at [taken]: [tokio::time::sleep] returns no earlier than asked. *)
Inductive take_slot (policy : WritePolicy) : option Z -> Z -> Z -> option Z -> Prop :=
| slot_taken last now taken : now + slot_wait policy last now <= taken ->
    take_slot policy last now taken (Some taken).

(** The driver's writes, one after another: each call starts after the one
    before it returned. *)
Inductive lane_run (policy : WritePolicy) : list Z -> option Z -> Prop :=
| lane_new : lane_run policy [] None
| lane_slot slots last now taken last' :
    lane_run policy slots last -> (forall t, last = Some t -> t <= now) ->
    take_slot policy last now taken last' -> lane_run policy (slots ++ [taken]) last'.

Lemma lane_run_last policy slots lst : lane_run policy slots lst -> last slots = lst.
Proof. intros [|slots' ? ? taken ? _ _ []]; [done|]. by rewrite last_snoc. Qed.

Lemma slot_gap policy lst now taken lst' t :
  0 <= min_between_initial_writes policy -> take_slot policy lst now taken lst' -> lst = Some t -> t <= now ->
  t + min_between_initial_writes policy <= taken.
Proof. intros Hg [lst'' n tk Hw] -> Ht. simpl in Hw. unfold saturating_sub_u in Hw. lia. Qed.

(** Writes leave the gateway at least the configured gap apart: over any run of
    the driver, a slot taken [k] slots after another is taken at least [k] gaps
    later. *)
Theorem slots_paced policy slots lst i j a b :
  0 <= min_between_initial_writes policy -> lane_run policy slots lst ->
  slots !! i = Some a -> slots !! j = Some b -> (i <= j)%nat ->
  a + Z.of_nat (j - i) * min_between_initial_writes policy <= b.
Proof.
  intros Hg Hrun. revert i j a b. induction Hrun as [|slots lst now taken lst' Hrun IH Hnow Htake]; [done|].
  intros i j a b [[Hi Ha]|[-> Ha]]%lookup_snoc_Some [[Hj Hb]|[-> Hb]]%lookup_snoc_Some Hij.
  - by apply (IH i j).
  - subst b. destruct (last slots) as [t|] eqn:El; [|apply last_None in El as ->; simpl in Hi; lia].
    pose proof El as Hlast. rewrite (lane_run_last _ _ _ Hrun) in Hlast. rewrite last_lookup in El.
    pose proof (IH i (pred (length slots)) a t Ha El ltac:(lia)).
    pose proof (slot_gap policy lst now taken lst' t Hg Htake Hlast (Hnow t Hlast)).
    replace (length slots - i)%nat with (S (pred (length slots) - i)) by lia. lia.
  - lia.
  - subst. rewrite Nat.sub_diag. lia.
Qed.
Definition sample_policy : WritePolicy := MkWritePolicy (from_secs 5) (from_secs 60) (from_secs 5) (from_secs 60).
Example slots_paced_witness :
  lane_run sample_policy [10; 5000000010; 11000000000] (Some 11000000000) /\
  10 + 2 * min_between_initial_writes sample_policy <= 11000000000.
Proof.
  assert (Hrun : lane_run sample_policy [10; 5000000010; 11000000000] (Some 11000000000)).
  { apply (lane_slot _ [10; 5000000010] (Some 5000000010) 11000000000); [|intros t [= <-]; lia|constructor; simpl; vm_compute; discriminate].
    apply (lane_slot _ [10] (Some 10) 4000000000); [|intros t [= <-]; lia|constructor; vm_compute; discriminate].
    apply (lane_slot _ [] None 3); [constructor|done|constructor; vm_compute; discriminate]. }
  split; [exact Hrun|].
  exact (slots_paced sample_policy _ _ 0 2 10 11000000000 ltac:(vm_compute; discriminate) Hrun eq_refl eq_refl ltac:(lia)).
Defined.
