(* ===== verification/Claim.v ===== *)
(** * What a claimed intent is owed: [crates/tig-gateway/src/claim.rs]

    The gateway's judgement over records already read: whether a write may go
    out, was found confirmed, must wait, or needs an operator.  The pinned
    document compiled into the binary, SHA-256, the JSON printer and the text
    form of ids are parameters. *)
From S2P Require Import Prelude BTreeMap Json Domain Store Intent Attempt Payload Reconcile.
From stdpp Require Import pretty.
Open Scope Z_scope.

Inductive StopReason :=
| SiblingGenerationTransmitted (generation : Z)
| PayloadNotTheRecordedOne
| ComputeTypeNotServed (compute_type : string) (compute_class : option string) (served : list string)
| UnknownOutcomeWithNoAttempt
| MultipleCandidates (candidates : list string)
| WriteUnaccountedFor
| Unreadable (reason : string).
Inductive SkipReason :=
| NotAPrecommit (kind : string)
| Refused
| SupersededByNewerGeneration (newest : Z)
| SkipSettled
| NoBuiltPayload
| WorkflowEnded (state : string).
Inductive ClaimDecision :=
| Transmit
| AlreadyConfirmed (benchmark_id : string)
| AwaitConfirmation
| ClaimStop (reason : StopReason)
| Skip (reason : SkipReason).

Record OwningWorkflow := MkOwning { ow_state : string; ow_is_terminal : bool }.
(** [SiblingGenerations] has the fields of [PrecommitSiblings]. *)
Definition SiblingGenerations : Type := PrecommitSiblings.

(** [matches!(state, Confirmed | Rejected)]. *)
Definition is_settled (s : IntentState) : bool :=
  match s with Confirmed | Rejected => true | _ => false end.
Definition outcome_is (o : AttemptOutcome) (a : WriteAttempt) : bool := bool_decide (wa_outcome a = Some o).

Section claim.
Context (sha256 : string -> Bytes) (to_string : Value -> string) (uuid_text : Uuid -> string) (pinned : Value).

(** Whether a vendor's list names the compute type. *)
Definition carries (compute_type : string) (types : Value) : bool :=
  match json_as_array types with
  | Some l => existsb (fun t => bool_decide (json_as_str t = Some compute_type)) l
  | None => false
  end.
Definition compute_class_of (compute_type : string) : option string :=
  match and_then (json_path ["compute_compatibility"; "compute_types_by_vendor"] pinned) json_as_object,
        and_then (json_path ["compute_compatibility"; "compute_class_by_vendor"] pinned) json_as_object with
  | Some by_vendor, Some class_by_vendor =>
      match List.find (fun vt => carries compute_type vt.2) by_vendor with
      | Some (vendor, _) =>
          match and_then (bt_get vendor class_by_vendor) json_as_str with
          | Some class => if String.eqb class "cpu" || String.eqb class "gpu" then Some class else None
          | None => None
          end
      | None => None
      end
  | _, _ => None
  end.
(** The guard [served_compute.iter().any(|served| served == class)]. *)
Definition is_served (served_compute : list string) (compute_type : string) : bool :=
  match compute_class_of compute_type with
  | Some class => existsb (String.eqb class) served_compute
  | None => false
  end.

Definition reconciled (submitted : PrecommitSubmission) (confirmed_precommits : list Value) (accepted : bool)
  : ClaimDecision :=
  match reconcile_precommit to_string confirmed_precommits submitted with
  | Ok (ReconciledConfirmed benchmark_id) => AlreadyConfirmed benchmark_id
  | Ok PendingConfirmation => AwaitConfirmation
  | Ok (StopForOperator candidates) => ClaimStop (MultipleCandidates candidates)
  | Ok NoCandidate => if accepted then AwaitConfirmation else ClaimStop WriteUnaccountedFor
  | Err e => ClaimStop (Unreadable (String.concat "" ["precommit at index "; pretty (re_index e); ": "; re_reason e]))
  end.

Definition decide_precommit (intent : WriteIntent) (attempts : list WriteAttempt) (workflow : OwningWorkflow)
    (siblings : SiblingGenerations) (submitted : PrecommitSubmission) (confirmed_precommits : list Value)
    (served_compute : list string) : ClaimDecision :=
  if negb (bool_decide (in_write_kind intent = Precommit))
  then Skip (NotAPrecommit (WriteKind_as_str (in_write_kind intent)))
  else match List.find (fun a => negb (bool_decide (wa_intent_id a = in_intent_id intent))) attempts with
  | Some stray =>
      ClaimStop (Unreadable (String.concat "" ["attempt "; uuid_text (wa_attempt_id stray); " belongs to intent ";
        uuid_text (wa_intent_id stray); ", not "; uuid_text (in_intent_id intent)]))
  | None =>
      if negb (bool_decide (precommit_digest sha256 to_string submitted = in_payload_digest intent))
      then ClaimStop PayloadNotTheRecordedOne
      else if is_settled (in_state intent) then Skip SkipSettled
      else
        let accepted := existsb (outcome_is Accepted) attempts in
        let unresolved := existsb is_unresolved attempts in
        if accepted || unresolved then reconciled submitted confirmed_precommits accepted
        else if negb (is_served served_compute (ps_compute_type submitted))
        then ClaimStop (ComputeTypeNotServed (ps_compute_type submitted)
                          (compute_class_of (ps_compute_type submitted)) served_compute)
        else if negb (bool_decide (attempts = [])) then Skip Refused
        else if ow_is_terminal workflow then Skip (WorkflowEnded (ow_state workflow))
        else if bool_decide (in_state intent = OutcomeUnknown) then ClaimStop UnknownOutcomeWithNoAttempt
        else if in_generation intent <? newest_generation siblings
        then Skip (SupersededByNewerGeneration (newest_generation siblings))
        else if sibling_transmitted siblings
        then ClaimStop (SiblingGenerationTransmitted (in_generation intent))
        else Transmit
  end.

(** ** Benchmark commitments *)

(** [ConfirmedBenchmarks::from_read]: the confirmed entries' ids, or the index of
    a confirmed entry without one. *)
Fixpoint confirmed_ids (index : Z) (benchmarks : list Value) : result Z (list string) :=
  match benchmarks with
  | [] => Ok []
  | entry :: rest =>
      if negb (block_confirmed entry) then confirmed_ids (index + 1) rest
      else
        let? id := ok_or (and_then (json_get "id" entry) json_as_str) index in
        let? ids := confirmed_ids (index + 1) rest in
        Ok (id :: ids)
  end.
Definition from_read (benchmarks : list Value) : result Z (list string) := confirmed_ids 0 benchmarks.

Definition decide_benchmark (intent : WriteIntent) (attempts : list WriteAttempt) (owning : OwningWorkflow)
    (confirmed_benchmarks : list string) (submission : option BenchmarkSubmission) : ClaimDecision :=
  if negb (bool_decide (in_write_kind intent = Benchmark))
  then Skip (NotAPrecommit (WriteKind_as_str (in_write_kind intent)))
  else match in_benchmark_id intent with
  | None => ClaimStop (Unreadable "a benchmark intent with no benchmark_id")
  | Some benchmark_id =>
      if is_settled (in_state intent) then Skip SkipSettled
      else if existsb (String.eqb benchmark_id) confirmed_benchmarks then AlreadyConfirmed benchmark_id
      else if negb (bool_decide (attempts = [])) && forallb (outcome_is AttemptRejected) attempts then Skip Refused
      else if existsb (fun a => is_unresolved a || outcome_is Accepted a) attempts then AwaitConfirmation
      else if bool_decide (in_state intent = OutcomeUnknown) then ClaimStop UnknownOutcomeWithNoAttempt
      else if ow_is_terminal owning then Skip (WorkflowEnded (ow_state owning))
      else match submission with
      | Some s =>
          if negb (bool_decide (Some (bs_benchmark_id s) = in_benchmark_id intent)) then Skip NoBuiltPayload
          else if negb (bool_decide (benchmark_digest sha256 to_string s = in_payload_digest intent))
          then ClaimStop PayloadNotTheRecordedOne
          else Transmit
      | None => Skip NoBuiltPayload
      end
  end.
End claim.

(** ** Lemmas *)

Lemma prepared_iff s : s = Prepared <-> is_settled s = false /\ s <> OutcomeUnknown.
Proof. destruct s; naive_solver. Qed.
Lemma no_stray intent attempts :
  List.find (fun a => negb (bool_decide (wa_intent_id a = in_intent_id intent))) attempts = None <->
  forall a, a ∈ attempts -> wa_intent_id a = in_intent_id intent.
Proof.
  split.
  - intros H a Ha. apply list_elem_of_In in Ha. apply (find_none _ _ H) in Ha.
    by destruct (bool_decide_reflect (wa_intent_id a = in_intent_id intent)).
  - intros H. destruct (List.find _ attempts) as [a|] eqn:E; [|done]. apply find_some in E as [Ha%list_elem_of_In Hb].
    by rewrite bool_decide_eq_true_2 in Hb by auto.
Qed.
Lemma in_flight_or_refused attempts :
  attempts <> [] -> forallb (outcome_is AttemptRejected) attempts = false ->
  existsb (fun a => is_unresolved a || outcome_is Accepted a) attempts = true.
Proof.
  intros _ Hall. apply existsb_exists. apply not_true_iff_false in Hall. rewrite forallb_forall in Hall.
  induction attempts as [|a l IH]; [by destruct Hall|].
  destruct (wa_outcome a) as [[]|] eqn:Eo;
    try (exists a; split; [by left|]; unfold is_unresolved, outcome_is; rewrite Eo; reflexivity).
  destruct IH as (b & Hb & Hp); [|exists b; split; [by right|done]].
  intros H. apply Hall. intros x [->|Hx]; [|by apply H]. unfold outcome_is. by rewrite Eo.
Qed.

(** Walks through the guards of a decision, discarding the branches that cannot
    end in [Transmit]. *)
Ltac guards :=
  repeat match goal with
  | |- context [if negb (bool_decide ?P) then _ else _] => destruct (bool_decide_reflect P); simpl
  | |- context [if bool_decide ?P then _ else _] => destruct (bool_decide_reflect P); simpl
  | |- context [if ?a <? ?b then _ else _] => destruct (Z.ltb_spec a b); simpl
  | |- context [if negb ?b then _ else _] => destruct b eqn:?; simpl
  | |- context [if ?b then _ else _] => destruct b eqn:?; simpl
  end.

(** ** Theorems *)

Section claim_theorems.
Context (sha256 : string -> Bytes) (to_string : Value -> string) (uuid_text : Uuid -> string) (pinned : Value).

Lemma reconciled_never_transmits submitted records accepted :
  reconciled to_string submitted records accepted <> Transmit.
Proof. unfold reconciled. destruct (reconcile_precommit _ _ _) as [[]|]; [destruct accepted|..]; done. Qed.

Lemma is_served_iff served compute_type : is_served pinned served compute_type = true <->
  exists class, compute_class_of pinned compute_type = Some class /\ class ∈ served.
Proof.
  unfold is_served. destruct (compute_class_of _ _) as [class|]; [|split; [done|by intros (? & ? & _)]].
  rewrite existsb_exists. setoid_rewrite <- list_elem_of_In. split.
  - intros (x & Hx & Heq). apply String.eqb_eq in Heq as ->. by exists x.
  - intros (c & [= <-] & Hc). exists class. split; [done|apply String.eqb_refl].
Qed.
(** What a decision to send rests on. *)
Lemma decide_precommit_needs intent attempts workflow siblings submitted records served :
  decide_precommit sha256 to_string uuid_text pinned intent attempts workflow siblings submitted records served = Transmit ->
  in_write_kind intent = Precommit /\ attempts = [] /\ in_state intent = Prepared /\
  newest_generation siblings <= in_generation intent /\ sibling_transmitted siblings = false /\
  ow_is_terminal workflow = false /\
  precommit_digest sha256 to_string submitted = in_payload_digest intent /\
  is_served pinned served (ps_compute_type submitted) = true.
Proof.
  rewrite prepared_iff. unfold decide_precommit.
  destruct (bool_decide_reflect (in_write_kind intent = Precommit)); [simpl|done].
  destruct (List.find _ attempts); [done|].
  guards; try done; intros Htx; by apply reconciled_never_transmits in Htx.
Qed.
Lemma decide_benchmark_kind intent attempts owning confirmed submission :
  decide_benchmark sha256 to_string intent attempts owning confirmed submission = Transmit ->
  in_write_kind intent = Benchmark.
Proof. unfold decide_benchmark. by destruct (bool_decide_reflect (in_write_kind intent = Benchmark)). Qed.

(** C9. A precommit is sent exactly when nothing can have been sent before it: the
    intent is a [PREPARED] precommit with no attempt at all, of the newest
    generation, no other generation of the workflow was transmitted, the
    workflow is live, the submission digests to what the intent recorded and
    its compute class is served.  Whatever the confirmed window holds, an intent
    with an attempt is never sent again. *)
Theorem precommit_sent_exactly intent attempts workflow siblings submitted records served :
  decide_precommit sha256 to_string uuid_text pinned intent attempts workflow siblings submitted records served = Transmit <->
  in_write_kind intent = Precommit /\ attempts = [] /\ in_state intent = Prepared /\
  newest_generation siblings <= in_generation intent /\ sibling_transmitted siblings = false /\
  ow_is_terminal workflow = false /\
  precommit_digest sha256 to_string submitted = in_payload_digest intent /\
  exists class, compute_class_of pinned (ps_compute_type submitted) = Some class /\ class ∈ served.
Proof.
  rewrite <- is_served_iff. split; [apply decide_precommit_needs|]. rewrite prepared_iff. unfold decide_precommit.
  intros (-> & -> & [-> Hst] & Hgen & Hsib & Hterm & -> & Hsv).
  rewrite !bool_decide_eq_true_2 by done. simpl. rewrite Hsv, Hterm, bool_decide_eq_false_2 by done. simpl.
  destruct (Z.ltb_spec (in_generation intent) (newest_generation siblings)); [lia|]. by rewrite Hsib.
Qed.

(** A benchmark commitment is sent exactly when its intent is [PREPARED], names a
    benchmark not yet read as confirmed, has no attempt, belongs to a live
    workflow, and the body at hand is for that benchmark and digests to what the
    intent recorded. *)
Theorem commitment_sent_exactly intent attempts owning confirmed submission :
  decide_benchmark sha256 to_string intent attempts owning confirmed submission = Transmit <->
  in_write_kind intent = Benchmark /\ attempts = [] /\ in_state intent = Prepared /\ ow_is_terminal owning = false /\
  exists b s, in_benchmark_id intent = Some b /\ b ∉ confirmed /\ submission = Some s /\ bs_benchmark_id s = b /\
    benchmark_digest sha256 to_string s = in_payload_digest intent.
Proof.
  rewrite prepared_iff. unfold decide_benchmark. split.
  - destruct (bool_decide_reflect (in_write_kind intent = Benchmark)); [simpl|done].
    destruct (in_benchmark_id intent) as [b|] eqn:Eb; [|done].
    destruct (is_settled (in_state intent)) eqn:Est; [done|].
    destruct (existsb (String.eqb b) confirmed) eqn:Ec; [done|].
    destruct (bool_decide_reflect (attempts = [])) as [->|Hne]; simpl.
    + guards; try done. destruct submission as [s|]; [|done]. guards; try done. intros _. split_and!; try done.
      exists b, s. split_and!; try done; [|congruence]. intros Hin. apply not_true_iff_false in Ec. apply Ec.
      apply existsb_exists. exists b. split; [by apply list_elem_of_In|apply String.eqb_refl].
    + destruct (forallb _ attempts) eqn:Ea; [done|]. by rewrite (in_flight_or_refused attempts Hne Ea).
  - intros (-> & -> & [-> Hst] & Hterm & b & s & Hb & Hc & -> & <- & <-).
    rewrite bool_decide_eq_true_2 by done. rewrite Hb. simpl.
    assert (existsb (String.eqb (bs_benchmark_id s)) confirmed = false) as ->.
    { apply not_true_iff_false. rewrite existsb_exists. intros (x & Hx & Heq).
      apply String.eqb_eq in Heq as <-. by apply Hc, list_elem_of_In. }
    rewrite bool_decide_eq_false_2, Hterm by done. rewrite !bool_decide_eq_true_2 by done. done.
Qed.
End claim_theorems.
