(* ===== verification/Transmit.v ===== *)
(** * One write, once: [crates/tig-gateway/src/transmit.rs]

    The checks before a request leaves and the reading of what came back.  The
    HTTP exchange itself is an argument: [post] is given the reply its single
    request gets.  The text of a status and the digests are parameters. *)
From S2P Require Import Prelude BTreeMap Json Domain Store Intent Attempt Payload.
Open Scope Z_scope.

(** The properties of a [reqwest::Error] the source asks for. *)
Record TransportError := MkTransportError {
  is_timeout : bool; is_connect : bool; is_body : bool; is_decode : bool; is_request : bool }.
(** What [send().await], and then [json().await], give. *)
Inductive HttpReply :=
| NoReply (e : TransportError)
| Reply (status : Z) (body : result TransportError Value).

Record Transmitted := MkTransmitted {
  tx_outcome : AttemptOutcome;
  tx_http_status : option Z;
  tx_detail : string;
  tx_benchmark_id : option string;
}.
Inductive TransmitError :=
| Client (e : string)
| AttemptAlreadyAnswered (attempt_id : Uuid)
| AttemptNotForIntent (attempt_id attempt_intent_id intent_id : Uuid)
| NotAPrecommitIntent (intent_id : Uuid) (write_kind : WriteKind) (expected : string)
| TxPayloadNotTheRecordedOne (intent_id : Uuid).

(** The request that leaves. *)
Record Request := MkRequest { rq_path : string; rq_body : Value; rq_intent : Uuid; rq_attempt : Uuid }.

Definition classify_success (returned : option string) (learns_benchmark_id : bool)
  : AttemptOutcome * string * option string :=
  if negb learns_benchmark_id then (Accepted, "accepted", None)
  else match returned with
  | Some id => (Accepted, "accepted", Some id)
  | None => (Ambiguous, "accepted without a benchmark_id", None)
  end.

Definition classify_transport_error (e : TransportError) : string :=
  if is_timeout e then "timeout"
  else if is_connect e then "connect failed"
  else if is_body e || is_decode e then "response body unreadable"
  else if is_request e then "request failed"
  else "transport failure".

(** [StatusCode::is_success] and [is_server_error]. *)
Definition status_success (s : Z) : bool := (200 <=? s) && (s <? 300).
Definition status_server_error (s : Z) : bool := (500 <=? s) && (s <? 600).

Section transmit.
Context (sha256 : string -> Bytes) (to_string : Value -> string) (status_text : Z -> string).

(** The part of [post] after the request: what the reply means. *)
Definition read_reply (learns_benchmark_id : bool) (reply : HttpReply) : Transmitted :=
  match reply with
  | NoReply e => MkTransmitted Ambiguous None (classify_transport_error e) None
  | Reply status body =>
      if status_success status then
        match body with
        | Err e => MkTransmitted Ambiguous (Some status) (classify_transport_error e) None
        | Ok body =>
            let '(outcome, detail, benchmark_id) :=
              classify_success (and_then (json_get "benchmark_id" body) json_as_str) learns_benchmark_id in
            MkTransmitted outcome (Some status) detail benchmark_id
        end
      else if status_server_error status || (status =? 408) || (status =? 429)
      then MkTransmitted Ambiguous (Some status) (String.append "HTTP " (status_text status)) None
      else MkTransmitted AttemptRejected (Some status) (String.append "HTTP " (status_text status)) None
  end.

(** The part before it: the request, or the refusal to send one. *)
Definition preflight (intent : WriteIntent) (attempt : WriteAttempt) (expected_kind : WriteKind) (path : string)
    (payload_digest : Bytes) (body : Value) : result TransmitError Request :=
  if negb (bool_decide (wa_intent_id attempt = in_intent_id intent))
  then Err (AttemptNotForIntent (wa_attempt_id attempt) (wa_intent_id attempt) (in_intent_id intent))
  else if negb (bool_decide (in_write_kind intent = expected_kind))
  then Err (NotAPrecommitIntent (in_intent_id intent) (in_write_kind intent) (WriteKind_as_str expected_kind))
  else if negb (bool_decide (payload_digest = in_payload_digest intent))
  then Err (TxPayloadNotTheRecordedOne (in_intent_id intent))
  else if has_response attempt then Err (AttemptAlreadyAnswered (wa_attempt_id attempt))
  else Ok (MkRequest path body (in_intent_id intent) (wa_attempt_id attempt)).

Definition post (intent : WriteIntent) (attempt : WriteAttempt) (expected_kind : WriteKind) (path : string)
    (payload_digest : Bytes) (body : Value) (learns_benchmark_id : bool) (reply : HttpReply)
  : result TransmitError (Request * Transmitted) :=
  let? request := preflight intent attempt expected_kind path payload_digest body in
  Ok (request, read_reply learns_benchmark_id reply).

Definition send (intent : WriteIntent) (attempt : WriteAttempt) (submission : PrecommitSubmission) (reply : HttpReply)
  : result TransmitError (Request * Transmitted) :=
  post intent attempt Precommit "submit-precommit" (precommit_digest sha256 to_string submission)
    (precommit_body submission) true reply.
Definition send_benchmark (intent : WriteIntent) (attempt : WriteAttempt) (submission : BenchmarkSubmission)
    (reply : HttpReply) : result TransmitError (Request * Transmitted) :=
  post intent attempt Benchmark "submit-benchmark" (benchmark_digest sha256 to_string submission)
    (benchmark_body submission) false reply.

(** The detail [send_or_release] records for a refusal. *)
Definition refusal_detail (e : TransmitError) : string :=
  match e with
  | TxPayloadNotTheRecordedOne _ => "not sent: payload does not match the recorded digest"
  | AttemptNotForIntent _ _ _ => "not sent: attempt is not this intent's"
  | NotAPrecommitIntent _ _ _ => "not sent: not a precommit intent"
  | AttemptAlreadyAnswered _ => "not sent: attempt already answered"
  | Client _ => "not sent: no HTTP client"
  end.

(** ** Theorems *)

Lemma preflight_Ok intent attempt kind path digest body r :
  preflight intent attempt kind path digest body = Ok r <->
  wa_intent_id attempt = in_intent_id intent /\ in_write_kind intent = kind /\ digest = in_payload_digest intent /\
  has_response attempt = false /\ r = MkRequest path body (in_intent_id intent) (wa_attempt_id attempt).
Proof.
  unfold preflight. repeat (case_bool_decide; simpl; [|split; [done|by intros (? & ? & ? & _)]]).
  destruct (has_response attempt); [split; [done|by intros (_ & _ & _ & ? & _)]|].
  split; [by intros [= <-]|by intros (_ & _ & _ & _ & ->)].
Qed.

(** What a reply is recorded as.  Only a definitive answer resolves a write:
    refusal is recorded only for a status outside 2xx and 5xx other than 408
    and 429, acceptance only for a 2xx whose body was read and, for a precommit,
    names the benchmark; every other reply, and no reply, is ambiguous. *)
Theorem reply_reading_exact learns reply :
  let t := read_reply learns reply in
  (tx_outcome t = Accepted <-> exists status body, reply = Reply status (Ok body) /\ 200 <= status < 300 /\
     (learns = true -> exists id, and_then (json_get "benchmark_id" body) json_as_str = Some id)) /\
  (tx_outcome t = AttemptRejected <-> exists status body, reply = Reply status body /\
     ~ 200 <= status < 300 /\ ~ 500 <= status < 600 /\ status <> 408 /\ status <> 429) /\
  (forall id, tx_benchmark_id t = Some id -> learns = true /\ tx_outcome t = Accepted).
Proof.
  unfold read_reply, status_success, status_server_error. destruct reply as [e|status body]; simpl.
  { split_and!; [split; [done|]|split; [done|]|done]; by intros (? & ? & ? & _). }
  destruct (Z.leb_spec 200 status), (Z.ltb_spec status 300); simpl.
  1: { destruct body as [body|e]; simpl.
       - unfold classify_success. destruct learns; simpl;
           [destruct (and_then _ _) as [id|] eqn:Eid; simpl|]; split_and!; try done; split; try done;
           try (intros _; by exists status, body); try (intros (? & ? & [= <- <-] & ?); lia).
         + intros _. exists status, body. split_and!; try done. intros _. by exists id.
         + intros (? & ? & [= <- <-] & _ & H'). destruct (H' eq_refl). congruence.
       - split_and!; [split; [done|]|split; [done|]|done]; intros (? & ? & [= <- <-] & ?); lia. }
  all: destruct (Z.leb_spec 500 status), (Z.ltb_spec status 600), (Z.eqb_spec status 408), (Z.eqb_spec status 429);
    simpl; try lia; (split_and!; [split; [done|]|split; [try done|try done]|done]);
    try (intros (? & ? & ? & ?); simplify_eq; lia); try (intros _; exists status, body; split_and!; lia || done).
Qed.
End transmit.
