(* ===== verification/Gateway.v ===== *)
(** * The gateway's claim loop: [crates/tig-gateway/src/drive.rs]

    Several gateways may work the same database.  A session is one gateway
    handling one claimed intent, between its statements; every statement is one
    step, and any transaction of any other component may commit between two of
    them.  The requests that left for TIG are kept in the order they left. *)
From S2P Require Import Prelude BTreeMap Json Domain Workflow Store Intent Lease Attempt Payload Admission Acceptance Reconcile Restart System.
From S2P Require Import Readiness WriteGate Claim Transmit.
Open Scope Z_scope.

(** ** The driver *)

(** The fields of [Driver] the decisions read. *)
Record Driver := MkDriver {
  dv_network : Network;
  dv_player_id : string;
  dv_lease_owner : string;
  dv_lease_secs : Z;
  dv_served_compute : list string;
  dv_call_timeout_secs : Z;
  dv_commitment : option BenchmarkSubmission;
}.
Inductive DriveError :=
| DriveIntent (e : IntentError)
| LeaseShorterThanCall (lease_secs call_timeout_secs : Z).
Definition lease_outlasts_call (lease_secs call_timeout_secs : Z) : result DriveError unit :=
  if (0 <=? lease_secs) && (call_timeout_secs <? lease_secs) then Ok tt
  else Err (LeaseShorterThanCall lease_secs call_timeout_secs).
Definition check_lease (d : Driver) : result DriveError unit :=
  lease_outlasts_call (dv_lease_secs d) (dv_call_timeout_secs d).

Inductive Acted :=
| ActedTransmitted (attempt_id : Uuid) (outcome : AttemptOutcome) (benchmark_id : option string)
| AttemptSettled (attempt_id : Uuid) (benchmark_id : string)
| AwaitingSender (attempt_id : Uuid)
| ActedNothing
| LeaseHeldElsewhere
| LaneOccupied
| WriteBlocked (category : string)
| ActedFailed (error : string).

Inductive Notability := Operator | Effect | Routine.
Definition notability (decision : option ClaimDecision) (acted : Acted) : Notability :=
  match decision, acted with
  | Some (ClaimStop _), _ | _, ActedFailed _ => Operator
  | _, (ActedTransmitted _ _ _ | AttemptSettled _ _) => Effect
  | _, _ => Routine
  end.

(** The [AlreadyConfirmed] arm: settle the unresolved attempt, first recording the
    lost response as ambiguous when none was recorded at all.  [call_timeout_secs]
    saturates at [i64::MAX]. *)
Definition settle_found (call_timeout_secs : Z) (detail benchmark_id : string) (attempts : list WriteAttempt)
    (now : Z) (db : Db) : result AttemptError (Acted * Db) :=
  match List.find is_unresolved attempts with
  | None => Ok (ActedNothing, db)
  | Some a =>
      if is_none (wa_outcome a) && (wa_age_secs a <? Z.min call_timeout_secs i64_max)
      then Ok (AwaitingSender (wa_attempt_id a), db)
      else
        let? db1 := if is_none (wa_outcome a)
                    then resolve RoleGateway (wa_attempt_id a) Ambiguous None (Some detail) now db
                    else Ok db in
        let? db2 := reconcile (wa_attempt_id a) Accepted now db1 in
        Ok (AttemptSettled (wa_attempt_id a) benchmark_id, db2)
  end.
Definition FOUND_BY_SEARCH : string := "response never recorded; found confirmed by the §10 search".
Definition FOUND_BY_READ : string := "response never recorded; found confirmed by §7's read".

(** ** Sessions *)

(** What a cleared write will send. *)
Inductive Body := PrecommitBody (s : PrecommitSubmission) | CommitmentBody (s : BenchmarkSubmission).
Definition body_kind (b : Body) : WriteKind :=
  match b with PrecommitBody _ => Precommit | CommitmentBody _ => Benchmark end.

(** How far [handle_held] or [handle_benchmark_held] has come. *)
Inductive Phase :=
| PHeld
| PWorkflow (owning : OwningWorkflow)
| PAttempts (owning : OwningWorkflow) (attempts : list WriteAttempt)
| PSiblings (owning : OwningWorkflow) (attempts : list WriteAttempt) (siblings : SiblingGenerations)
| PCleared (body : Body)
| PBegun (attempt : WriteAttempt) (body : Body)
| PAnswered (attempt : WriteAttempt) (sent : Transmitted).
Record Session := MkSession { ss_driver : Driver; ss_intent : WriteIntent; ss_lease : Lease; ss_phase : Phase }.
Definition at_phase (p : Phase) (s : Session) : Session :=
  MkSession (ss_driver s) (ss_intent s) (ss_lease s) p.

Record World := MkWorld { w_db : Db; w_sessions : gmap nat Session; w_sent : list Request }.

(** The detail recorded for a refusal: [send_or_release]'s, or the one text of
    [handle_benchmark_held]. *)
Definition refusal_text (body : Body) (e : TransmitError) : string :=
  match body with PrecommitBody _ => refusal_detail e | CommitmentBody _ => "not sent: refused before the request left" end.

(** Only sessions begin attempts. *)
Definition begins (t : Txn) : bool :=
  match t with TLedger _ (LBegin _ _ _ | LBeginFenced _ _ _ _) => true | _ => false end.

Section gateway.
Context (sha256 : string -> Bytes) (to_string : Value -> string) (uuid_text : Uuid -> string)
  (status_text : Z -> string) (pinned : Value) (L : Z).

Definition send_body (intent : WriteIntent) (attempt : WriteAttempt) (body : Body) (reply : HttpReply)
  : result TransmitError (Request * Transmitted) :=
  match body with
  | PrecommitBody s => send sha256 to_string status_text intent attempt s reply
  | CommitmentBody s => send_benchmark sha256 to_string status_text intent attempt s reply
  end.

(** One statement of one session.  The decision is taken on what was read; only
    [Transmit] goes on to write. *)
Inductive session_step (s : Session) (db : Db) : Phase -> Db -> Prop :=
| read_workflow w : ss_phase s = PHeld ->
    find (dv_network (ss_driver s)) (in_workflow_id (ss_intent s)) db = Ok (Some w) ->
    session_step s db (PWorkflow (MkOwning (WorkflowState_as_str (wf_state w)) (is_terminal (wf_state w)))) db
| read_attempts owning now attempts : ss_phase s = PWorkflow owning ->
    attempts_for (in_intent_id (ss_intent s)) now db = Ok attempts ->
    session_step s db (PAttempts owning attempts) db
| read_siblings owning attempts : ss_phase s = PAttempts owning attempts ->
    session_step s db (PSiblings owning attempts (precommit_siblings (ss_intent s) db)) db
| clear_precommit owning attempts siblings inputs submission records :
    ss_phase s = PSiblings owning attempts siblings ->
    payload_inputs (dv_network (ss_driver s)) (in_workflow_id (ss_intent s)) (in_generation (ss_intent s)) db = Ok (Some inputs) ->
    from_decision (dv_player_id (ss_driver s)) inputs = Ok submission ->
    decide_precommit sha256 to_string uuid_text pinned (ss_intent s) attempts owning siblings submission records
      (dv_served_compute (ss_driver s)) = Transmit ->
    session_step s db (PCleared (PrecommitBody submission)) db
| clear_commitment owning attempts confirmed submission :
    ss_phase s = PAttempts owning attempts -> dv_commitment (ss_driver s) = Some submission ->
    decide_benchmark sha256 to_string (ss_intent s) attempts owning confirmed (dv_commitment (ss_driver s)) = Transmit ->
    session_step s db (PCleared (CommitmentBody submission)) db
| begin_attempt body gate ready gate' fresh now attempt db' :
    ss_phase s = PCleared body -> begin_write gate = Ok (ready, gate') ->
    begin_fenced fresh (in_intent_id (ss_intent s)) (ss_lease s) now db = Ok (attempt, db') ->
    session_step s db (PBegun attempt body) db'.

Inductive gw_step : World -> World -> Prop :=
(** Any other component's transaction. *)
| gw_txn t db sessions sent db' :
    txn_fits L t -> begins t = false -> run_txn t db = Some db' ->
    gw_step (MkWorld db sessions sent) (MkWorld db' sessions sent)
(** [handle] and [handle_benchmark]: the lease first, for an intent [claimable]
    returned at some earlier moment. *)
| gw_claim db sessions sent sid d intent i now lease db' :
    sessions !! sid = None -> check_lease d = Ok tt ->
    db_intent db !! in_intent_id intent = Some i -> intent = set_state (in_state intent) i ->
    in_network intent = dv_network d ->
    claim (dv_network d) (in_workflow_id intent) PrecommitTransmit (dv_lease_owner d) (dv_lease_secs d) now db = Ok (lease, db') ->
    gw_step (MkWorld db sessions sent) (MkWorld db' (<[sid := MkSession d intent lease PHeld]> sessions) sent)
| gw_session db sessions sent sid s p db' :
    sessions !! sid = Some s -> session_step s db p db' ->
    gw_step (MkWorld db sessions sent) (MkWorld db' (<[sid := at_phase p s]> sessions) sent)
(** The request leaves, and some reply or none comes back. *)
| gw_send db sessions sent sid s attempt body reply request t :
    sessions !! sid = Some s -> ss_phase s = PBegun attempt body ->
    send_body (ss_intent s) attempt body reply = Ok (request, t) ->
    gw_step (MkWorld db sessions sent) (MkWorld db (<[sid := at_phase (PAnswered attempt t) s]> sessions) (sent ++ [request]))
(** [send_or_release]: nothing left, so the attempt is closed. *)
| gw_refuse db sessions sent sid s attempt body reply e now db' :
    sessions !! sid = Some s -> ss_phase s = PBegun attempt body ->
    send_body (ss_intent s) attempt body reply = Err e ->
    resolve RoleGateway (wa_attempt_id attempt) AttemptRejected None (Some (refusal_text body e)) now db = Ok db' ->
    gw_step (MkWorld db sessions sent) (MkWorld db' (delete sid sessions) sent)
| gw_record db sessions sent sid s attempt t now db' :
    sessions !! sid = Some s -> ss_phase s = PAnswered attempt t ->
    resolve RoleGateway (wa_attempt_id attempt) (tx_outcome t) (tx_http_status t) (Some (tx_detail t)) now db = Ok db' ->
    gw_step (MkWorld db sessions sent) (MkWorld db' (delete sid sessions) sent)
(** A session ends anywhere: another decision, an error, a crash. *)
| gw_end db sessions sent sid :
    gw_step (MkWorld db sessions sent) (MkWorld db (delete sid sessions) sent).

Definition gw_reachable (w : World) : Prop := rtc gw_step (MkWorld empty_db ∅ []) w.
End gateway.

(** ** Settling a write the search found *)

Lemma attempts_for_row id now db attempts a :
  attempts_ok db -> attempts_for id now db = Ok attempts -> a ∈ attempts ->
  exists row, db_attempt db !! wa_attempt_id a = Some row /\ at_intent_id row = id /\ at_outcome row = wa_outcome a.
Proof.
  intros Hok Hread Ha. unfold attempts_for in Hread. apply mapM_res_Ok in Hread.
  apply list_elem_of_lookup in Ha as [n Hn]. destruct (Forall2_lookup_r _ _ _ _ _ Hread Hn) as (row & Hrow & Heq).
  apply list_elem_of_lookup_2 in Hrow. rewrite elem_of_sort_by, list_elem_of_filter in Hrow. destruct Hrow as [Hid Hin].
  apply elem_of_rows in Hin as [k Hk]. rewrite read_attempt_Ok in Heq. injection Heq as <-. simpl. exists row.
  by rewrite (aok_key _ _ _ (ats_rows _ Hok _ _ Hk)).
Qed.

Lemma record_lost_response id detail now db row i :
  intents_ok (db_intent db) -> attempts_ok db -> db_attempt db !! id = Some row -> at_outcome row = None ->
  db_intent db !! at_intent_id row = Some i -> (char_count detail <=? 200)%nat = true ->
  exists db1 s, resolve RoleGateway id Ambiguous None (Some detail) now db = Ok db1 /\
    intents_ok (db_intent db1) /\ attempts_ok db1 /\
    db_attempt db1 !! id = Some (with_response Ambiguous None (Some detail) now row) /\
    db_intent db1 !! at_intent_id row = Some (set_state s i).
Proof.
  intros Hiok Hok Hrow Ho Hi Hd. pose proof (aok_key _ _ _ (ats_rows _ Hok _ _ Hrow)) as Hid.
  assert (Hrun : exists db1, resolve RoleGateway id Ambiguous None (Some detail) now db = Ok db1).
  { unfold resolve. rewrite Hrow, Ho. unfold update_attempt, attempt_trigger. rewrite Ho.
    rewrite (ambiguous_put row None (Some detail) now db); [|done|by rewrite Hid|done|done]. simpl.
    destruct (mark_outcome_unknown _ _ _) as [d|] eqn:E; [by exists d|].
    pose proof (gateway_marks_unknown (at_intent_id row)
      (with_attempt (<[at_attempt_id row := with_response Ambiguous None (Some detail) now row]> (db_attempt db)) db)) as H.
    by rewrite E in H. }
  destruct Hrun as [db1 Hrun]. exists db1. destruct (resolve_preserves _ _ _ _ _ _ _ _ Hiok Hok Hrun) as [Hiok1 Hok1].
  apply resolve_Ok in Hrun as Heff. destruct Heff as (row' & d1 & Hr' & _ & Hput & Hmark). simplify_eq.
  apply put_attempt_Ok in Hput as (_ & _ & _ & _ & ->). simpl in Hmark.
  apply mark_outcome_unknown_Ok in Hmark as [->|(j & Hj & _ & ->)]; simpl in *.
  - exists (in_state i). split_and!; try done; [by rewrite lookup_insert_eq|]. by destruct i.
  - assert (j = i) as -> by congruence. exists OutcomeUnknown. split_and!; try done; [by rewrite lookup_insert_eq|].
    rewrite (iok_key _ _ (proj1 Hiok _ _ Hi)). by rewrite lookup_insert_eq.
Qed.

(** A lost write that TIG confirmed gives its lane back.  When a pass finds the
    write of an intent confirmed and an attempt of it unresolved, the attempt is
    settled as accepted and the lane is free -- whether the response was
    recorded as ambiguous or never recorded -- unless the attempt is unanswered
    and younger than the call timeout, when its sender may still be waiting and
    nothing is written. *)
Theorem found_write_reopens_the_lane timeout detail b attempts read_at now db a i :
  intents_ok (db_intent db) -> attempts_ok db -> db_intent db !! in_intent_id i = Some i ->
  attempts_for (in_intent_id i) read_at db = Ok attempts -> List.find is_unresolved attempts = Some a ->
  detail ∈ [FOUND_BY_SEARCH; FOUND_BY_READ] ->
  if is_none (wa_outcome a) && (wa_age_secs a <? Z.min timeout i64_max)
  then settle_found timeout detail b attempts now db = Ok (AwaitingSender (wa_attempt_id a), db)
  else exists db' row, settle_found timeout detail b attempts now db = Ok (AttemptSettled (wa_attempt_id a) b, db') /\
    db_attempt db' !! wa_attempt_id a = Some row /\ at_outcome row = Some Accepted /\ ~ lane_busy i db'.
Proof.
  intros Hiok Hok Hi Hread Hfind Hd. unfold settle_found. rewrite Hfind.
  destruct (is_none (wa_outcome a) && _); [done|]. apply find_some in Hfind as [Ha%list_elem_of_In Hun].
  destruct (attempts_for_row _ _ _ _ _ Hok Hread Ha) as (row & Hrow & Hint & Hout).
  assert (Hchars : (char_count detail <=? 200)%nat = true).
  { rewrite !elem_of_cons, elem_of_nil in Hd. by destruct Hd as [->|[->|[]]]. }
  rewrite <- Hint in Hi. unfold is_unresolved in Hun. destruct (wa_outcome a) as [o|] eqn:Eo; simpl.
  - assert (o = Ambiguous) as -> by (by destruct o).
    destruct (reconcile_frees (wa_attempt_id a) Accepted now db row i Hiok Hok) as [Hrun Hfree]; try done.
    rewrite Hrun. do 2 eexists. split_and!; [done|simpl; by rewrite lookup_insert_eq|done|done].
  - destruct (record_lost_response (wa_attempt_id a) detail now db row i) as (db1 & s & Hres & Hiok1 & Hok1 & Hrow1 & Hi1); try done.
    rewrite Hres. simpl.
    destruct (reconcile_frees (wa_attempt_id a) Accepted now db1 _ (set_state s i) Hiok1 Hok1 ltac:(done) Hrow1) as [Hrun Hfree]; try done.
    rewrite Hrun. do 2 eexists. split_and!; [done|simpl; by rewrite lookup_insert_eq|done|done].
Qed.
Definition sample_unanswered : WriteAttempt := MkWriteAttempt 8 1 1 None None false 100.
Example found_write_reopens_the_lane_witness :
  attempts_for 1%N (100 * micros) sample_sent = Ok [sample_unanswered] /\
  exists db' row, settle_found 60 FOUND_BY_SEARCH "b7" [sample_unanswered] (100 * micros) sample_sent =
      Ok (AttemptSettled 8%N "b7", db') /\
    db_attempt db' !! 8%N = Some row /\ at_outcome row = Some Accepted /\ ~ lane_busy sample_intent db'.
Proof.
  split; [vm_compute; reflexivity|].
  exact (found_write_reopens_the_lane 60 FOUND_BY_SEARCH "b7" [sample_unanswered] (100 * micros) (100 * micros) sample_sent
    sample_unanswered sample_intent (proj1 sample_ledger_ok) sample_sent_ok eq_refl eq_refl eq_refl
    (list_elem_of_here _ _)).
Defined.
