(* ===== verification/Sends.v ===== *)
(** * What leaves the gateway, over every interleaving

    The invariant of [Gateway]'s worlds: a session that may still write holds
    the newest fence of its workflow, and as long as it does, what it read about
    attempts is still true.  From it, at most one precommit of a workflow can
    have taken effect at TIG. *)
From S2P Require Import Prelude BTreeMap Json Domain Workflow Store Intent Lease Attempt Payload Admission Acceptance Reconcile Restart System SnapshotStore.
From S2P Require Import Readiness WriteGate Claim Transmit Gateway.
Open Scope Z_scope.

(** ** Transactions that begin no attempt *)

(** The history is kept and no attempt row is new. *)
Definition quiet (db db' : Db) : Prop :=
  history_le db db' /\ forall k, is_Some (db_attempt db' !! k) -> is_Some (db_attempt db !! k).

Lemma put_existing a db db' k :
  put_attempt a db = Ok db' -> is_Some (db_attempt db !! at_attempt_id a) ->
  is_Some (db_attempt db' !! k) -> is_Some (db_attempt db !! k).
Proof.
  intros (_ & _ & _ & _ & ->)%put_attempt_Ok Ha [b Hb]. simpl in Hb.
  apply lookup_insert_Some in Hb as [[<- _]|[_ ?]]; [done|by exists b].
Qed.
Lemma resolve_rows role id o st d now db db' k :
  attempts_ok db -> resolve role id o st d now db = Ok db' ->
  is_Some (db_attempt db' !! k) -> is_Some (db_attempt db !! k).
Proof.
  intros Hok (a & db1 & Ha & _ & Hput & Hend)%resolve_Ok Hk.
  assert (Hdb : db_attempt db' = db_attempt db1).
  { destruct (bool_decide (o = Ambiguous)); [|by rewrite Hend].
    apply mark_outcome_unknown_Ok in Hend as [->|(i & _ & _ & ->)]; done. }
  rewrite Hdb in Hk. eapply put_existing; [exact Hput| |exact Hk]. simpl.
  rewrite (aok_key _ _ _ (ats_rows _ Hok _ _ Ha)). by exists a.
Qed.
Lemma reconcile_rows id o now db db' k :
  attempts_ok db -> reconcile id o now db = Ok db' -> is_Some (db_attempt db' !! k) -> is_Some (db_attempt db !! k).
Proof.
  intros Hok (a & _ & Ha & _ & Hput)%reconcile_Ok Hk. eapply put_existing; [exact Hput| |exact Hk]. simpl.
  rewrite (aok_key _ _ _ (ats_rows _ Hok _ _ Ha)). by exists a.
Qed.
Lemma restart_rows L n window text_le db r db' :
  system_ok L db -> reconcile_after_restart n window text_le db = Ok (r, db') -> db_attempt db' = db_attempt db.
Proof.
  intros Hsys. destruct (nonterminal_visits n text_le db (sys_workflows _ _ Hsys)) as (live & Hlive & Hnd & Hvis).
  unfold reconcile_after_restart. rewrite Hlive. destruct (fold_left _ live _) as [d x] eqn:Hfold. intros [= _ <-].
  apply pass_effect in Hfold as (_ & -> & _); [done|apply Hsys|done|]. intros w Hw%Hvis. naive_solver.
Qed.
Lemma release_rows l now db db' : release l now db = Ok db' -> db_attempt db' = db_attempt db.
Proof. unfold release. repeat case_match; intros; by simplify_eq. Qed.

Lemma quiet_txn L t db db' :
  system_ok L db -> txn_fits L t -> begins t = false -> run_txn t db = Some db' -> quiet db db'.
Proof.
  intros Hsys Hfit Hb Hrun. split; [by apply (txn_safe L t Hfit db db' Hsys)|].
  intros k Hk. pose proof (sys_attempts _ _ Hsys) as Hat. revert Hfit Hrun.
  destruct t as [le fd fi now d limit|n id rev op|n window le|fresh now new|role id o|role op|n id kind owner secs now|l now|e snap|n a o|n b digest row];
    simpl; intros Hfit.
  - destruct (admit_precommit _ _ _ _ _ _ _) as [[x d']|] eqn:E; [|done]. intros [= <-].
    apply admit_precommit_effect in E as (t & _ & _ & _ & _ & _ & _ & _ & _ & _ & _ & _ & _ & ->); try apply Hsys; [done|apply Hfit].
  - destruct (run_op _ _ _ _ _) as [[x d']|] eqn:E; [|done]. intros [= <-].
    by apply run_op_effect in E as (w & _ & _ & _ & _ & _ & _ & _ & _ & _ & _ & ->).
  - destruct (reconcile_after_restart _ _ _ _) as [[x d']|] eqn:E; [|done]. intros [= <-].
    by rewrite (restart_rows _ _ _ _ _ _ _ Hsys E) in Hk.
  - destruct (create_intent _ _ _ _) as [[x d']|] eqn:E; [|done]. intros [= <-].
    apply create_intent_effect in E as (_ & _ & _ & _ & _ & _ & _ & _ & [(_ & _ & Hst)| ->]); try apply Hsys; try done.
    by apply store_intent_Ok in Hst as (_ & _ & ->).
  - destruct (settle _ _ _ _) as [[x d']|] eqn:E; [|done]. intros [= <-].
    apply settle_Ok in E as (i & _ & _ & -> & _); [done|apply Hsys].
  - destruct op as [| |id o st dd now|id o now]; simpl in *; try done; intros Hrun.
    + destruct (resolve _ _ _ _ _ _ _) as [d'|] eqn:E; [|done]. injection Hrun as <-. by eapply resolve_rows.
    + destruct (reconcile _ _ _ _) as [d'|] eqn:E; [|done]. injection Hrun as <-. by eapply reconcile_rows.
  - destruct (claim _ _ _ _ _ _ _) as [[x d']|] eqn:E; [|done]. intros [= <-].
    by apply claim_Ok in E as (_ & _ & _ & _ & _ & -> & _).
  - destruct (release _ _ _) as [d'|] eqn:E; [|done]. intros [= <-]. by rewrite (release_rows _ _ _ _ E) in Hk.
  - destruct (record_evidence _ _ _) as [d'|] eqn:E; [|done]. intros [= <-].
    apply record_evidence_Ok in E as (_ & _ & _ & ta & tc & tm & ->); [done|apply Hsys].
  - unfold record_block_gap. destruct (_ <=? _); [by intros [= <-]|]. destruct (_ || _); [done|]. by intros [= <-].
  - destruct (insert_snapshot _ _ _ _ _) as [d'|] eqn:E; [|done]. intros [= <-].
    by apply insert_snapshot_Ok in E as (_ & _ & [[-> _]|(-> & _)]).
Qed.

(** ** What a session knows *)

Definition same_workflow (i j : WriteIntent) : Prop :=
  in_network j = in_network i /\ in_workflow_id j = in_workflow_id i.
(** Row [k] is an attempt [a] of a precommit [j]. *)
Definition precommit_attempt (db : Db) (k : Uuid) (a : AttemptRow) (j : WriteIntent) : Prop :=
  db_attempt db !! k = Some a /\ db_intent db !! at_intent_id a = Some j /\ in_write_kind j = Precommit.

(** At most one attempt over all of a workflow's precommits is not definitively
    refused. *)
Definition one_live (db : Db) : Prop :=
  forall k1 k2 a1 a2 j1 j2, precommit_attempt db k1 a1 j1 -> precommit_attempt db k2 a2 j2 ->
    same_workflow j1 j2 -> at_outcome a1 <> Some AttemptRejected -> at_outcome a2 <> Some AttemptRejected -> k1 = k2.

Definition no_attempts (i : WriteIntent) (db : Db) : Prop :=
  forall k a, db_attempt db !! k = Some a -> at_intent_id a <> in_intent_id i.
Definition siblings_refused (i : WriteIntent) (db : Db) : Prop :=
  forall k a j, precommit_attempt db k a j -> same_workflow i j -> at_intent_id a <> in_intent_id i ->
    at_outcome a = Some AttemptRejected.

(** What the phase promises while the session's fence is the newest. *)
Definition knows (s : Session) (db : Db) : Prop :=
  match ss_phase s with
  | PAttempts _ attempts => attempts = [] -> no_attempts (ss_intent s) db
  | PSiblings _ attempts siblings => (attempts = [] -> no_attempts (ss_intent s) db) /\
      (sibling_transmitted siblings = false -> siblings_refused (ss_intent s) db)
  | PCleared (PrecommitBody _) => no_attempts (ss_intent s) db /\ siblings_refused (ss_intent s) db
  | _ => True
  end.
Definition session_key (s : Session) : Network * string * LeaseKind :=
  (in_network (ss_intent s), in_workflow_id (ss_intent s), PrecommitTransmit).

Record session_ok (s : Session) (db : Db) : Prop := {
  so_key : lkey (ss_lease s) = session_key s;
  so_network : in_network (ss_intent s) = dv_network (ss_driver s);
  so_token : 0 < ls_fence_token (ss_lease s) <= fence_at (session_key s) db;
  so_intent : exists i, db_intent db !! in_intent_id (ss_intent s) = Some i /\
    ss_intent s = set_state (in_state (ss_intent s)) i;
  so_kind : forall body, ss_phase s = PCleared body -> in_write_kind (ss_intent s) = body_kind body;
  so_knows : fence_at (session_key s) db = ls_fence_token (ss_lease s) -> knows s db;
}.

Lemma rejected_stays o : outcome_step (Some AttemptRejected) o -> o = Some AttemptRejected.
Proof. inversion 1; by subst. Qed.

Section quiet.
Context (db db' : Db) (Hat : attempts_ok db) (Hq : quiet db db').

(** An attempt of the later database and its intent, traced back. *)
Lemma quiet_back k a' j' :
  precommit_attempt db' k a' j' -> exists a j s, precommit_attempt db k a j /\ j' = set_state s j /\
    at_intent_id a' = at_intent_id a /\ (at_outcome a = Some AttemptRejected -> at_outcome a' = Some AttemptRejected).
Proof.
  destruct Hq as [Hh Hback]. intros (Ha' & Hj' & Hk). destruct (Hback k) as [a Ha]; [by exists a'|].
  destruct (hist_attempt _ _ Hh _ _ Ha) as (b & Hb & _ & Hint & _ & Hstep & _). simplify_eq.
  destruct (aok_intent _ _ _ (ats_rows _ Hat _ _ Ha)) as (j & Hj & _).
  destruct (hist_intent _ _ Hh _ _ Hj) as (s & Hs & _). rewrite Hint in Hj'.
  assert (j' = set_state s j) as -> by congruence. exists a, j, s. split_and!; try done.
  intros Hr. rewrite Hr in Hstep. by apply rejected_stays.
Qed.
Lemma no_attempts_quiet i : no_attempts i db -> no_attempts i db'.
Proof.
  destruct Hq as [Hh Hback]. intros H k a' Ha'. destruct (Hback k) as [a Ha]; [by exists a'|].
  destruct (hist_attempt _ _ Hh _ _ Ha) as (b & Hb & _ & Hint & _). simplify_eq. rewrite Hint. by eapply H.
Qed.
Lemma siblings_refused_quiet i : siblings_refused i db -> siblings_refused i db'.
Proof.
  intros H k a' j' Hp Hs Hne. destruct (quiet_back _ _ _ Hp) as (a & j & s & Hp0 & -> & Hint & Hrej).
  apply Hrej, (H k a j); [done|done|]. by rewrite <- Hint.
Qed.
Lemma one_live_quiet : one_live db -> one_live db'.
Proof.
  intros H k1 k2 a1' a2' j1' j2' Hp1 Hp2 Hs Hr1 Hr2.
  destruct (quiet_back _ _ _ Hp1) as (a1 & j1 & s1 & Hq1 & -> & _ & Hrej1).
  destruct (quiet_back _ _ _ Hp2) as (a2 & j2 & s2 & Hq2 & -> & _ & Hrej2).
  apply (H k1 k2 a1 a2 j1 j2); auto.
Qed.
Lemma knows_quiet s : knows s db -> knows s db'.
Proof.
  unfold knows. destruct (ss_phase s) as [| | | |[]| |]; try done.
  - intros H E. by apply no_attempts_quiet, H.
  - intros [H1 H2]. split; intros E; [by apply no_attempts_quiet, H1|by apply siblings_refused_quiet, H2].
  - intros [H1 H2]. split; [by apply no_attempts_quiet|by apply siblings_refused_quiet].
Qed.

Lemma intent_kept i : (exists i0, db_intent db !! in_intent_id i = Some i0 /\ i = set_state (in_state i) i0) ->
  history_le db db' -> exists i0, db_intent db' !! in_intent_id i = Some i0 /\ i = set_state (in_state i) i0.
Proof.
  intros (i0 & Hi & Heq) Hh. destruct (hist_intent _ _ Hh _ _ Hi) as (s & Hs & _). exists (set_state s i0).
  split; [done|]. by destruct i0.
Qed.
Lemma session_ok_quiet s : session_ok s db -> session_ok s db'.
Proof.
  intros [Hk Hn [Hpos Hle] Hi Hkind Hkn]. pose proof (hist_fence _ _ (proj1 Hq) (session_key s)) as Hf.
  constructor; try done; [lia|by apply intent_kept, Hq|]. intros Hfence. apply knows_quiet, Hkn. lia.
Qed.
End quiet.

(** ** The invariant of a world *)

Section world.
Context (sha256 : string -> Bytes) (to_string : Value -> string) (uuid_text : Uuid -> string)
  (status_text : Z -> string) (pinned : Value) (L : Z).

(** A sent request has its attempt on record, and its body digests to what the
    attempt's intent recorded. *)
Definition request_ok (r : Request) (db : Db) : Prop :=
  exists a i, db_attempt db !! rq_attempt r = Some a /\ at_intent_id a = rq_intent r /\
    db_intent db !! rq_intent r = Some i /\ sha256 (to_string (rq_body r)) = in_payload_digest i.
Definition begun (s : Session) : option Uuid :=
  match ss_phase s with PBegun attempt _ => Some (wa_attempt_id attempt) | _ => None end.

Record gw_ok (w : World) : Prop := {
  gw_db : system_ok L (w_db w);
  gw_sessions : forall sid s, w_sessions w !! sid = Some s -> session_ok s (w_db w);
  gw_tokens : forall sid1 sid2 s1 s2, w_sessions w !! sid1 = Some s1 -> w_sessions w !! sid2 = Some s2 ->
    session_key s1 = session_key s2 -> ls_fence_token (ss_lease s1) = ls_fence_token (ss_lease s2) -> sid1 = sid2;
  gw_live : one_live (w_db w);
  gw_requests : forall r, r ∈ w_sent w -> request_ok r (w_db w);
  gw_once : NoDup (map rq_attempt (w_sent w));
  gw_begun : forall sid s id, w_sessions w !! sid = Some s -> begun s = Some id ->
    (exists a, db_attempt (w_db w) !! id = Some a /\ at_intent_id a = in_intent_id (ss_intent s)) /\
    id ∉ map rq_attempt (w_sent w);
  gw_begun_once : forall sid1 sid2 s1 s2 id, w_sessions w !! sid1 = Some s1 -> w_sessions w !! sid2 = Some s2 ->
    begun s1 = Some id -> begun s2 = Some id -> sid1 = sid2;
}.

Lemma request_ok_next r db db' : history_le db db' -> request_ok r db -> request_ok r db'.
Proof.
  intros Hh (a & i & Ha & Hint & Hi & Hd). destruct (hist_attempt _ _ Hh _ _ Ha) as (a' & Ha' & _ & Hint' & _).
  destruct (hist_intent _ _ Hh _ _ Hi) as (s & Hs & _). exists a', (set_state s i). split_and!; try done. congruence.
Qed.

Lemma gw_ok_quiet db db' sessions sent :
  gw_ok (MkWorld db sessions sent) -> quiet db db' -> system_ok L db' -> gw_ok (MkWorld db' sessions sent).
Proof.
  intros [Hdb Hs Ht Hl Hr Ho Hb Hbo] Hq Hdb'. simpl in *. pose proof (sys_attempts _ _ Hdb) as Hat.
  constructor; simpl; try done.
  - intros sid s Hsid. eapply session_ok_quiet; [done|done|by eapply Hs].
  - by eapply one_live_quiet.
  - intros r Hin. eapply request_ok_next; [apply Hq|by apply Hr].
  - intros sid s id Hsid Hbeg. destruct (Hb sid s id Hsid Hbeg) as [(a & Ha & Hi) Hn]. split; [|done].
    destruct (hist_attempt _ _ (proj1 Hq) _ _ Ha) as (a' & Ha' & _ & Hint & _). exists a'. split; [done|congruence].
Qed.

Lemma gw_ok_delete db sessions sent sid :
  gw_ok (MkWorld db sessions sent) -> gw_ok (MkWorld db (delete sid sessions) sent).
Proof.
  intros [Hdb Hs Ht Hl Hr Ho Hb Hbo]. simpl in *.
  assert (Hd : forall k s, delete sid sessions !! k = Some s -> sessions !! k = Some s).
  { by intros k s [_ ?]%lookup_delete_Some. }
  constructor; simpl; eauto.
Qed.

(** A session put in place, new or moved to another phase. *)
Lemma gw_ok_insert db sessions sent sid s :
  gw_ok (MkWorld db sessions sent) -> session_ok s db ->
  (forall k s', sessions !! k = Some s' -> session_key s' = session_key s ->
     ls_fence_token (ss_lease s') = ls_fence_token (ss_lease s) -> k = sid) ->
  begun s = None -> gw_ok (MkWorld db (<[sid := s]> sessions) sent).
Proof.
  intros [Hdb Hs Ht Hl Hr Ho Hb Hbo] Hsok Htok Hbeg. simpl in *. constructor; simpl; try done.
  - intros k s' [[<- <-]|[_ Hk]]%lookup_insert_Some; [done|by eapply Hs].
  - intros k1 k2 s1 s2 [[<- <-]|[Hn1 H1]]%lookup_insert_Some [[<- <-]|[Hn2 H2]]%lookup_insert_Some Hkey Heq; eauto.
    + symmetry. by eapply Htok.
  - intros k s' id [[<- <-]|[_ Hk]]%lookup_insert_Some Hbe; [congruence|by eapply Hb].
  - intros k1 k2 s1 s2 id [[<- <-]|[Hn1 H1]]%lookup_insert_Some [[<- <-]|[Hn2 H2]]%lookup_insert_Some Hb1 Hb2; eauto; congruence.
Qed.
Lemma gw_ok_phase db sessions sent sid s p :
  gw_ok (MkWorld db sessions sent) -> sessions !! sid = Some s -> session_ok (at_phase p s) db ->
  begun (at_phase p s) = None -> gw_ok (MkWorld db (<[sid := at_phase p s]> sessions) sent).
Proof.
  intros Hok Hsid Hs Hb. apply gw_ok_insert; [done|done| |done]. intros k s' Hk Hkey Ht.
  by apply (gw_tokens _ Hok k sid s' s).
Qed.

(** ** Each statement of a session *)

Lemma attempts_for_none id now db : attempts_for id now db = Ok [] ->
  forall k a, db_attempt db !! k = Some a -> at_intent_id a <> id.
Proof.
  unfold attempts_for. set (l := sort_by _ _). intros Hm k a Ha Hid.
  assert (Hin : a ∈ l).
  { unfold l. rewrite elem_of_sort_by, list_elem_of_filter. split; [done|]. apply elem_of_rows. by exists k. }
  destruct l as [|b l']; [by apply not_elem_of_nil in Hin|]. simpl in Hm. rewrite read_attempt_Ok in Hm.
  by destruct (mapM_res _ _).
Qed.
Lemma siblings_read intent db :
  intents_ok (db_intent db) -> sibling_transmitted (precommit_siblings intent db) = false -> siblings_refused intent db.
Proof.
  intros Hok Hf k a j (Ha & Hj & Hk) [Hn Hw] Hne. simpl in Hf.
  destruct (at_outcome a) as [[]|] eqn:Eo; try done; exfalso; apply not_true_iff_false in Hf; apply Hf; clear Hf.
  all: pose proof (iok_key _ _ (proj1 Hok _ _ Hj)) as Hid; apply existsb_exists; exists j; split;
    [apply list_elem_of_In, list_elem_of_filter; split; [done|]; apply elem_of_rows; by exists (at_intent_id a)|].
  all: rewrite bool_decide_eq_false_2 by congruence; simpl; rewrite andb_true_r; apply exists_row_true;
    exists k, a; split; [done|]; rewrite Eo, bool_decide_eq_true_2 by done; done.
Qed.

(** The statements that only read keep the session's promises. *)
Lemma read_step_ok s db p :
  system_ok L db -> session_ok s db -> session_step sha256 to_string uuid_text pinned s db p db ->
  begun (at_phase p s) = None -> session_ok (at_phase p s) db.
Proof.
  intros Hsys [Hkey Hnet Htok Hi Hkind Hkn] Hstep Hbeg.
  assert (Hmove : (forall body, p = PCleared body -> in_write_kind (ss_intent s) = body_kind body) ->
    (fence_at (session_key s) db = ls_fence_token (ss_lease s) -> knows (at_phase p s) db) -> session_ok (at_phase p s) db).
  { intros H1 H2. by constructor. }
  unfold knows in Hkn. inversion Hstep; subst; apply Hmove; try done; clear Hmove;
    match goal with H : ss_phase s = _ |- _ => rewrite H in Hkn end; simpl.
  - intros _ ->. intros k a Ha. by eapply attempts_for_none.
  - intros Hf. split; [by apply Hkn|]. intros Hs. apply siblings_read; [apply Hsys|done].
  - intros body [= <-]. by apply decide_precommit_needs in H2 as (? & _).
  - intros Hf. apply decide_precommit_needs in H2 as (_ & Hnil & _ & _ & Hsib & _). destruct (Hkn Hf) as [Ka Kb]. by split; auto.
  - intros body [= <-]. by apply decide_benchmark_kind in H1.
Qed.

(** ** Beginning an attempt *)

Lemma begin_effect s fresh now db wa db' :
  session_ok s db -> begin_fenced fresh (in_intent_id (ss_intent s)) (ss_lease s) now db = Ok (wa, db') ->
  fence_at (session_key s) db = ls_fence_token (ss_lease s) /\ wa_attempt_id wa = fresh /\
  db_attempt db !! fresh = None /\
  exists a, at_intent_id a = in_intent_id (ss_intent s) /\ at_outcome a = None /\
    db' = with_attempt (<[fresh := a]> (db_attempt db)) db.
Proof.
  intros [Hkey _ Htok _ _ _] Hrun. assert (Hf : fence_at (session_key s) db = ls_fence_token (ss_lease s)).
  { apply begin_fenced_Ok in Hrun as [Hreq _]. unfold require_fence in Hreq. unfold fence_at in *.
    rewrite Hkey in Hreq. destruct (db_lease db !! session_key s) as [row|]; [|lia].
    by destruct (Z.eqb_spec (lr_fence_token row) (ls_fence_token (ss_lease s))). }
  split; [done|]. apply begin_fenced_Ok in Hrun as [_ Hrun]. unfold begin in Hrun.
  destruct (insert_attempt _ _ _ _) as [[a d]|] eqn:Hins; [|done]. rewrite read_attempt_Ok in Hrun. injection Hrun as <- <-.
  apply insert_attempt_Ok in Hins as (i & _ & Hfresh & -> & _ & Hput). simpl. split_and!; try done.
  eexists. split; [|split]; [| |by apply put_attempt_Ok in Hput as (_ & _ & _ & _ & ->)]; done.
Qed.

(** An attempt begun for another workflow leaves what a session knows. *)
Lemma knows_other s s' db fresh a :
  session_ok s db -> session_ok s' db -> session_key s <> session_key s' ->
  at_intent_id a = in_intent_id (ss_intent s) -> db_attempt db !! fresh = None ->
  knows s' db -> knows s' (with_attempt (<[fresh := a]> (db_attempt db)) db).
Proof.
  intros Hs Hs' Hne Hint Hfresh. destruct (so_intent _ _ Hs) as (i & Hi & Heq), (so_intent _ _ Hs') as (i' & Hi' & Heq').
  assert (Hwf : forall j, db_intent db !! in_intent_id (ss_intent s) = Some j -> ~ same_workflow (ss_intent s') j).
  { intros j Hj [Hn Hw]. apply Hne. unfold session_key. replace j with i in * by congruence.
    rewrite Heq. simpl. by rewrite Hn, Hw. }
  assert (H1 : no_attempts (ss_intent s') db -> no_attempts (ss_intent s') (with_attempt (<[fresh := a]> (db_attempt db)) db)).
  { intros H k b Hb0. simpl in Hb0. apply lookup_insert_Some in Hb0 as [[_ <-]|[_ Hb]]; [|by eapply H]. rewrite Hint. intros Hid.
    apply (Hwf i' ltac:(congruence)). rewrite Heq'. done. }
  assert (H2 : siblings_refused (ss_intent s') db -> siblings_refused (ss_intent s') (with_attempt (<[fresh := a]> (db_attempt db)) db)).
  { intros H k b j (Hb0 & Hj & Hk) Hsw Hn. simpl in Hb0. apply lookup_insert_Some in Hb0 as [[_ <-]|[_ Hb]]; [|by eapply H].
    destruct (Hwf j); [|done]. simpl in Hj. by rewrite <- Hint. }
  unfold knows. destruct (ss_phase s') as [| | | |[]| |]; try done.
  - auto.
  - intros [Ka Kb]. split; auto.
  - intros [Ka Kb]. split; auto.
Qed.

Lemma one_live_begin s db fresh a :
  attempts_ok db -> session_ok s db -> one_live db -> at_intent_id a = in_intent_id (ss_intent s) ->
  db_attempt db !! fresh = None ->
  (in_write_kind (ss_intent s) = Precommit -> no_attempts (ss_intent s) db /\ siblings_refused (ss_intent s) db) ->
  one_live (with_attempt (<[fresh := a]> (db_attempt db)) db).
Proof.
  intros Hat Hs Hl Hint Hfresh Hclear. destruct (so_intent _ _ Hs) as (i & Hi & Heq).
  assert (Hnew : forall k b j j', precommit_attempt db k b j -> db_intent db !! at_intent_id a = Some j' ->
    in_write_kind j' = Precommit -> same_workflow j' j -> at_outcome b = Some AttemptRejected).
  { intros k b j j' Hp Hj' Hk Hsw. rewrite Hint in Hj'. replace j' with i in * by congruence.
    destruct Hclear as [Hno Hsib]; [by rewrite Heq|]. apply (Hsib k b j); [done| |by eapply Hno; apply Hp].
    unfold same_workflow in *. rewrite Heq. done. }
  intros k1 k2 a1 a2 j1 j2 (Ha1 & Hj1 & Hk1) (Ha2 & Hj2 & Hk2) Hsw Hr1 Hr2. simpl in *.
  apply lookup_insert_Some in Ha1 as [[<- <-]|[Hn1 Ha1]], Ha2 as [[<- <-]|[Hn2 Ha2]]; [done| | |].
  - by destruct Hr2; eapply (Hnew k2 a2 j2 j1).
  - destruct Hr1. eapply (Hnew k1 a1 j1 j2); try done. by destruct Hsw.
  - by eapply (Hl k1 k2 a1 a2 j1 j2).
Qed.

Lemma begin_world db sessions sent sid s body fresh now wa db' :
  gw_ok (MkWorld db sessions sent) -> sessions !! sid = Some s -> ss_phase s = PCleared body ->
  begin_fenced fresh (in_intent_id (ss_intent s)) (ss_lease s) now db = Ok (wa, db') -> system_ok L db' ->
  history_le db db' -> gw_ok (MkWorld db' (<[sid := at_phase (PBegun wa body) s]> sessions) sent).
Proof.
  intros Hok Hsid Hph Hrun Hsys' Hh. pose proof (gw_sessions _ Hok _ _ Hsid : session_ok s db) as Hs.
  destruct (begin_effect _ _ _ _ _ _ Hs Hrun) as (Hf & Hid & Hfresh & a & Hint & Hout & ->).
  destruct Hok as [Hdb Hss Ht Hl Hr Ho Hb Hbo]. simpl in *.
  assert (Hsent : fresh ∉ map rq_attempt sent).
  { intros (r & -> & Hin)%list_elem_of_fmap. destruct (Hr r Hin) as (b & ? & Hbr & _). congruence. }
  constructor; simpl; try done.
  - intros k s' [[<- <-]|[Hne Hk]]%lookup_insert_Some.
    + destruct Hs as [K1 K2 K3 K4 K5 _]. by constructor.
    + pose proof (Hss _ _ Hk) as Hs'. destruct Hs' as [K1 K2 K3 K4 K5 K6]. constructor; try done. intros Hf'.
      apply (knows_other s); [done|by apply Hss with k| |done|done|by apply K6].
      intros Hkey. apply Hne. eapply (Ht sid k); [done|done|done|]. rewrite <- Hf, Hkey. done.
  - intros k1 k2 s1 s2 [[<- <-]|[Hn1 H1]]%lookup_insert_Some [[<- <-]|[Hn2 H2]]%lookup_insert_Some Hkey Heq; eauto.
  - eapply one_live_begin; try done; [apply Hdb|]. intros Hk. pose proof (so_knows _ _ Hs Hf) as Hkn. unfold knows in Hkn.
    pose proof (so_kind _ _ Hs body Hph) as Hbk. rewrite Hph in Hkn. destruct body; [done|]. simpl in Hbk. congruence.
  - intros r Hin. eapply request_ok_next; [done|by apply Hr].
  - intros k s' id [[<- <-]|[_ Hk]]%lookup_insert_Some Hbe.
    + unfold begun in Hbe. simpl in Hbe. injection Hbe as <-. rewrite Hid. split; [|done].
      exists a. by rewrite lookup_insert_eq.
    + destruct (Hb k s' id Hk Hbe) as [(b & Hbb & Hbi) Hn]. split; [|done]. exists b. split; [|done].
      rewrite lookup_insert_ne; [done|]. congruence.
  - assert (Hnew : forall k s', sessions !! k = Some s' -> begun s' = Some fresh -> False).
    { intros k s' Hk Hbe. destruct (Hb k s' fresh Hk Hbe) as [(b & Hbb & _) _]. congruence. }
    intros k1 k2 s1 s2 id [[<- <-]|[Hn1 H1]]%lookup_insert_Some [[<- <-]|[Hn2 H2]]%lookup_insert_Some Hb1 Hb2;
      [done| | |by eauto]; unfold begun in Hb1, Hb2; simpl in *; simplify_eq; rewrite ?Hid in *; exfalso; eauto.
Qed.

(** ** Every step *)

Lemma gw_ok_sent db sessions sent r :
  gw_ok (MkWorld db sessions sent) -> request_ok r db -> rq_attempt r ∉ map rq_attempt sent ->
  (forall k s, sessions !! k = Some s -> begun s <> Some (rq_attempt r)) -> gw_ok (MkWorld db sessions (sent ++ [r])).
Proof.
  intros [Hdb Hs Ht Hl Hr Ho Hb Hbo] Hreq Hnew Hbeg. simpl in *. constructor; simpl; try done.
  - intros q [Hq|Hq]%elem_of_app; [by apply Hr|]. apply list_elem_of_singleton in Hq as ->. done.
  - rewrite map_app. apply NoDup_app. split_and!; [done| |apply NoDup_singleton].
    intros x Hx Hx'. apply list_elem_of_singleton in Hx' as ->. done.
  - intros k s id Hk Hbe. destruct (Hb k s id Hk Hbe) as [Ha Hn]. split; [done|]. rewrite map_app.
    intros [?|Hx]%elem_of_app; [done|]. apply list_elem_of_singleton in Hx as ->. by apply (Hbeg k s Hk).
Qed.

Lemma send_body_Ok intent attempt body reply r t :
  send_body sha256 to_string status_text intent attempt body reply = Ok (r, t) ->
  rq_intent r = in_intent_id intent /\ rq_attempt r = wa_attempt_id attempt /\
  sha256 (to_string (rq_body r)) = in_payload_digest intent.
Proof.
  unfold send_body, send, send_benchmark, post.
  destruct body; (destruct (preflight _ _ _ _ _ _) as [q|] eqn:E; [|done]); intros [= <- _];
    apply preflight_Ok in E as (_ & _ & Hd & _ & ->); done.
Qed.

Lemma send_world db sessions sent sid s attempt body reply r t :
  gw_ok (MkWorld db sessions sent) -> sessions !! sid = Some s -> ss_phase s = PBegun attempt body ->
  send_body sha256 to_string status_text (ss_intent s) attempt body reply = Ok (r, t) ->
  gw_ok (MkWorld db (<[sid := at_phase (PAnswered attempt t) s]> sessions) (sent ++ [r])).
Proof.
  intros Hok Hsid Hph (Hri & Hra & Hd)%send_body_Ok.
  assert (Hbe : begun s = Some (rq_attempt r)) by (unfold begun; by rewrite Hph, Hra).
  destruct (gw_begun _ Hok sid s _ Hsid Hbe) as [(a & Ha & Hai) Hnew].
  pose proof (gw_sessions _ Hok _ _ Hsid) as Hs. simpl in *.
  apply gw_ok_sent; [|  |done|].
  - apply gw_ok_phase; try done. destruct Hs as [K1 K2 K3 K4 _ _]. by constructor.
  - destruct (so_intent _ _ Hs) as (i & Hi & Heq). exists a, i. rewrite Hri. split_and!; try done. by rewrite Hd, Heq.
  - intros k s' [[<- <-]|[Hne Hk]]%lookup_insert_Some; [done|]. intros Hb'.
    by apply Hne, (gw_begun_once _ Hok sid k s s' (rq_attempt r)).
Qed.

Lemma resolve_world db sessions sent sid role id o st d now db' :
  gw_ok (MkWorld db sessions sent) -> resolve role id o st d now db = Ok db' ->
  gw_ok (MkWorld db' (delete sid sessions) sent).
Proof.
  intros Hok Hrun. pose proof (gw_db _ Hok) as Hdb. simpl in Hdb.
  destruct (ledger_txn L db Hdb role (LResolve id o st d now) db' Hrun) as [Hdb' Hh].
  apply gw_ok_delete. eapply gw_ok_quiet; [done| |done]. split; [done|]. intros k. eapply resolve_rows; [apply (sys_attempts _ _ Hdb)|exact Hrun].
Qed.

Lemma claim_world db sessions sent sid d intent i now lease db' :
  gw_ok (MkWorld db sessions sent) -> db_intent db !! in_intent_id intent = Some i ->
  intent = set_state (in_state intent) i -> in_network intent = dv_network d ->
  claim (dv_network d) (in_workflow_id intent) PrecommitTransmit (dv_lease_owner d) (dv_lease_secs d) now db = Ok (lease, db') ->
  gw_ok (MkWorld db' (<[sid := MkSession d intent lease PHeld]> sessions) sent).
Proof.
  intros Hok Hi Heq Hn Hrun. pose proof (gw_db _ Hok) as Hdb. simpl in Hdb.
  destruct (claim_txn L db Hdb _ _ _ _ _ _ _ _ Hrun) as [Hdb' Hh].
  destruct (claim_fence _ _ _ _ _ _ _ _ _ Hrun) as (Hk & Htok & Hf).
  assert (Hq : quiet db db').
  { split; [done|]. intros k. by apply claim_Ok in Hrun as (_ & _ & _ & _ & _ & -> & _). }
  pose proof (gw_ok_quiet _ _ _ _ Hok Hq Hdb') as Hok'. rewrite <- Hn in *.
  assert (Hpos : 0 <= fence_at (in_network intent, in_workflow_id intent, PrecommitTransmit) db).
  { unfold fence_at. destruct (db_lease db !! _) as [row|] eqn:E; [|lia].
    pose proof (sys_leases _ _ Hdb _ _ E) as Hrow. simpl in Hrow. lia. }
  apply gw_ok_insert; [done| | |done].
  - constructor; simpl; try done; [unfold session_key; simpl; lia|]. apply (intent_kept db db'); [by exists i|done].
  - intros k s' Hk' Hkey Heqt. simpl in *. destruct (so_token _ _ (gw_sessions _ Hok _ _ Hk')) as [_ Hle].
    simpl in Hle. rewrite Hkey in Hle. unfold session_key in Hle. simpl in Hle. lia.
Qed.

Lemma gw_step_ok w w' : gw_step sha256 to_string uuid_text status_text pinned L w w' -> gw_ok w -> gw_ok w'.
Proof.
  intros Hstep Hok. pose proof (gw_db _ Hok) as Hdb. destruct Hstep; simpl in *.
  - eapply gw_ok_quiet; [done|by eapply quiet_txn|by eapply (txn_safe L t)].
  - by eapply claim_world.
  - pose proof (gw_sessions _ Hok _ _ H) as Hs. simpl in Hs. inversion H0; subst.
    1-5: apply gw_ok_phase; try done; by eapply read_step_ok.
    destruct (ledger_txn L db Hdb RoleGateway (LBeginFenced fresh (in_intent_id (ss_intent s)) (ss_lease s) now) db') as [Hdb' Hh].
    { simpl. by rewrite H3. }
    by eapply begin_world.
  - by eapply send_world.
  - by eapply resolve_world.
  - by eapply resolve_world.
  - by apply gw_ok_delete.
Qed.
Lemma gw_reachable_ok w : 0 <= L -> gw_reachable sha256 to_string uuid_text status_text pinned L w -> gw_ok w.
Proof.
  intros HL Hr. apply (rtc_ind_r (fun w => gw_ok w) (MkWorld empty_db ∅ [])) with (z := w) in Hr; [done| |].
  - constructor; simpl; try done; try (by intros * H; rewrite lookup_empty in H).
    + intros k1 k2 a1 a2 j1 j2 [Ha _]. simpl in Ha. by rewrite lookup_empty in Ha.
    + by intros r Hr'%not_elem_of_nil.
    + constructor.
  - intros x y _ Hs Hx. by eapply gw_step_ok.
Qed.
End world.

(** ** A run: one precommit is admitted, claimed, cleared, begun and sent *)

Definition sample_sha (_ : string) : Bytes := digest_a.
Definition sample_text (_ : Value) : string := "".
Definition sample_pinned : Value :=
  JObject [("compute_compatibility", JObject
    [("compute_class_by_vendor", JObject [("intel", JString "cpu")]);
     ("compute_types_by_vendor", JObject [("intel", JArray [JString "cpu"])])])].
Definition sample_driver : Driver := MkDriver Testnet "0xpool" "gw-a" 90 ["cpu"] 60 None.
Definition sample_step := gw_step sample_sha sample_text (fun _ => "") (fun _ => "") sample_pinned 3.
Definition sample_admitted : Db := default empty_db (run_txns (take 2 sample_txns) empty_db).
Definition sample_intent : WriteIntent := admitted_intent 2 10 sample_decision.
Definition sample_claim := claim Testnet "w1" PrecommitTransmit "gw-a" 90 20 sample_admitted.
Definition sample_lease : Lease := match sample_claim with Ok x => x.1 | Err _ => MkLease Testnet "" PrecommitTransmit 0 "" end.
Definition sample_claimed : Db := match sample_claim with Ok x => x.2 | Err _ => empty_db end.
Definition sample_session (p : Phase) : Session := MkSession sample_driver sample_intent sample_lease p.
Definition sample_owning : OwningWorkflow := MkOwning "DECIDED" false.
Definition sample_submission : PrecommitSubmission :=
  MkSubmission "0xpool" "blk" "c001" "c001_a1" "cpu" [("t1", MkTrackSettings 4 1000 [])].
Definition sample_attempt : WriteAttempt := MkWriteAttempt 7 2 1 None None false 0.
Definition sample_begun : Db :=
  match begin_fenced 7 2 sample_lease 30 sample_claimed with Ok x => x.2 | Err _ => empty_db end.
Definition sample_world : World :=
  MkWorld sample_begun {[0%nat := sample_session (PAnswered sample_attempt (MkTransmitted Ambiguous None "timeout" None))]}
    [MkRequest "submit-precommit" (precommit_body sample_submission) 2 7].

Lemma sample_to_claim : rtc sample_step (MkWorld empty_db ∅ []) (MkWorld sample_claimed {[0%nat := sample_session PHeld]} []).
Proof.
  set (db1 := with_snapshot {[ (Testnet, "blk", digest_a) := MkSnapshotRow 200 true true ]} empty_db).
  eapply rtc_l; [apply (gw_txn _ _ _ _ _ _ (TSnapshot Testnet "blk" digest_a (MkSnapshotRow 200 true true)));
    [done|done|reflexivity]|].
  eapply rtc_l; [apply (gw_txn _ _ _ _ _ _ (TAdmit str_leb 1 2 10 sample_decision 3) _ _ _ sample_admitted)|].
  - simpl. split; [lia|by intros].
  - done.
  - vm_compute. reflexivity.
  - apply rtc_once. rewrite <- (insert_empty 0%nat (sample_session PHeld)).
    eapply (gw_claim _ _ _ _ _ _ sample_admitted ∅ [] 0 sample_driver sample_intent sample_intent 20);
      [done|done|vm_compute; reflexivity|reflexivity|reflexivity|vm_compute; reflexivity].
Qed.
Lemma sample_session_step p p' db db' :
  session_step sample_sha sample_text (fun _ => "") sample_pinned (sample_session p) db p' db' ->
  sample_step (MkWorld db {[0%nat := sample_session p]} []) (MkWorld db' {[0%nat := sample_session p']} []).
Proof.
  intros Hs. rewrite <- (insert_singleton_eq 0%nat (sample_session p') (sample_session p)).
  by apply (gw_session _ _ _ _ _ _ _ _ _ _ (sample_session p)).
Qed.
Lemma sample_world_reachable : gw_reachable sample_sha sample_text (fun _ => "") (fun _ => "") sample_pinned 3 sample_world.
Proof.
  unfold gw_reachable. etransitivity; [apply sample_to_claim|].
  eapply rtc_l; [apply sample_session_step; eapply read_workflow; [done|vm_compute; reflexivity]|].
  eapply rtc_l; [apply sample_session_step; eapply (read_attempts _ _ _ _ _ _ _ 21 []); [done|vm_compute; reflexivity]|].
  eapply rtc_l; [apply sample_session_step; by eapply read_siblings|].
  eapply rtc_l; [apply sample_session_step;
    eapply (clear_precommit _ _ _ _ _ _ _ _ _ _ sample_submission []);
      [done|vm_compute; reflexivity|vm_compute; reflexivity|vm_compute; reflexivity]|].
  eapply rtc_l; [apply sample_session_step;
    eapply (begin_attempt _ _ _ _ _ _ (PrecommitBody sample_submission) (open_gate sample_ready) sample_ready _ 7 30 sample_attempt sample_begun);
      [done|reflexivity|vm_compute; reflexivity]|].
  apply rtc_once. unfold sample_world.
  rewrite <- (insert_singleton_eq 0%nat
    (sample_session (PAnswered sample_attempt (MkTransmitted Ambiguous None "timeout" None))) (sample_session (PBegun sample_attempt (PrecommitBody sample_submission)))).
  apply (gw_send _ _ _ _ _ _ _ _ [] _ (sample_session (PBegun sample_attempt (PrecommitBody sample_submission)))
    sample_attempt (PrecommitBody sample_submission) (NoReply (MkTransportError true false false false false)));
    [by rewrite lookup_singleton_eq|done|vm_compute; reflexivity].
Qed.

(** ** Theorems *)

(** C1. At most one precommit of a workflow can take effect at TIG.  However many
    gateways run, whatever their order of reading, deciding, sending and
    crashing, and whatever else commits in between: of all the precommit requests
    that ever left for a workflow -- over all its generations -- at most one is
    not recorded as definitively refused. *)
Theorem one_precommit_takes_effect sha256 to_string uuid_text status_text pinned L w x y r1 r2 a1 a2 i1 i2 :
  0 <= L -> gw_reachable sha256 to_string uuid_text status_text pinned L w ->
  w_sent w !! x = Some r1 -> w_sent w !! y = Some r2 ->
  precommit_attempt (w_db w) (rq_attempt r1) a1 i1 -> precommit_attempt (w_db w) (rq_attempt r2) a2 i2 ->
  same_workflow i1 i2 -> at_outcome a1 <> Some AttemptRejected -> at_outcome a2 <> Some AttemptRejected -> x = y.
Proof.
  intros HL Hr Hx Hy Hp1 Hp2 Hs Hr1 Hr2.
  pose proof (gw_reachable_ok _ _ _ _ _ _ w HL Hr) as Hok.
  assert (rq_attempt r1 = rq_attempt r2) by (by eapply (gw_live _ _ _ _ Hok)).
  eapply NoDup_lookup; [apply (gw_once _ _ _ _ Hok)| |]; rewrite list_lookup_fmap.
  - by rewrite Hx.
  - rewrite Hy. simpl. congruence.
Qed.
Example one_precommit_takes_effect_witness :
  exists r a i, w_sent sample_world !! 0%nat = Some r /\ precommit_attempt (w_db sample_world) (rq_attempt r) a i /\
    at_outcome a = None /\ forall y r2 a2 i2, w_sent sample_world !! y = Some r2 ->
      precommit_attempt (w_db sample_world) (rq_attempt r2) a2 i2 -> same_workflow i i2 ->
      at_outcome a2 <> Some AttemptRejected -> 0%nat = y.
Proof.
  do 3 eexists. split; [reflexivity|].
  assert (Hp : precommit_attempt (w_db sample_world) 7
    (MkAttempt 7 2 1 Testnet Precommit None 30 None None None None None) sample_intent)
    by (split; [vm_compute; reflexivity|split; vm_compute; reflexivity]).
  split; [exact Hp|]. split; [reflexivity|]. intros y r2 a2 i2 Hy Hp2 Hs Hr2.
  eapply (one_precommit_takes_effect _ _ _ _ _ 3 sample_world 0 y);
    [lia|exact sample_world_reachable|reflexivity|exact Hy|exact Hp|exact Hp2|exact Hs|discriminate|exact Hr2].
Defined.

(** Nothing leaves unrecorded.  Every request that was sent has an attempt row of
    its own, begun before it left and kept ever since, under the intent it was
    sent for, and its body digests to the payload that intent recorded. *)
Theorem every_request_on_record sha256 to_string uuid_text status_text pinned L w :
  0 <= L -> gw_reachable sha256 to_string uuid_text status_text pinned L w ->
  NoDup (map rq_attempt (w_sent w)) /\
  forall r, r ∈ w_sent w -> exists a i, db_attempt (w_db w) !! rq_attempt r = Some a /\ at_intent_id a = rq_intent r /\
    db_intent (w_db w) !! rq_intent r = Some i /\ sha256 (to_string (rq_body r)) = in_payload_digest i.
Proof.
  intros HL Hr. pose proof (gw_reachable_ok _ _ _ _ _ _ w HL Hr) as Hok.
  split; [apply (gw_once _ _ _ _ Hok)|apply (gw_requests _ _ _ _ Hok)].
Qed.
Example every_request_on_record_witness :
  length (w_sent sample_world) = 1%nat /\ NoDup (map rq_attempt (w_sent sample_world)).
Proof.
  split; [reflexivity|].
  apply (every_request_on_record sample_sha sample_text (fun _ => "") (fun _ => "") sample_pinned 3 sample_world);
    [lia|exact sample_world_reachable].
Defined.
