(* ===== verification/Drive.v ===== *)
(** * A gateway's pass: [crates/tig-gateway/src/drive.rs]

    [run_once] and [run_once_benchmarks] as functions: every claimable intent in
    order, the lease around each, the reads, the decision, the write or the
    settlement, and the report.  Before each statement anything the other
    components do may have committed.  Every pass is then shown to be a run of
    the interleaved model, so what holds of that model holds of the code's own
    order of statements. *)
From S2P Require Import Prelude BTreeMap Json Domain Workflow Store Intent Lease Attempt Payload Admission Acceptance Reconcile Restart System Bind.
From S2P Require Import Readiness WriteGate Claim Transmit Gateway Sends.
Open Scope Z_scope.

Record IntentOutcome := MkIntentOutcome {
  io_intent_id : Uuid; io_workflow_id : string; io_generation : Z; io_trace_id : option TraceId;
  io_decision : option ClaimDecision; io_acted : Acted }.
Definition RunReport : Type := list IntentOutcome.
Definition attempt_id (o : IntentOutcome) : option Uuid :=
  match io_acted o with
  | ActedTransmitted id _ _ | AttemptSettled id _ | AwaitingSender id => Some id
  | _ => None
  end.
Definition benchmark_id (o : IntentOutcome) : option string :=
  match io_acted o, io_decision o with
  | ActedTransmitted _ _ b, _ => b
  | AttemptSettled _ b, _ => Some b
  | _, Some (AlreadyConfirmed b) => Some b
  | _, _ => None
  end.
Definition needs_operator (r : RunReport) : bool :=
  existsb (fun o => match notability (io_decision o) (io_acted o) with Operator => true | _ => false end) r.

Inductive HandleError :=
| HeIntent (e : IntentError) | HeAttempt (e : AttemptError) | HeLease (e : LeaseError) | HeWorkflow (e : WorkflowError)
| HeAdmission (e : AdmissionError) | HePayload (e : PayloadError) | HeTransmit (e : TransmitError)
| HeNoDecision (intent_id : Uuid) (generation : Z) | HeNoWorkflow (intent_id : Uuid) (workflow_id : string) | HeNoCommitment (intent_id : Uuid).

(** ** Statements

    The state of a process: the database, its gate, and the requests that left.
    What surrounds the handling of one intent: what else committed before each
    statement, the clock at each, the id of a new attempt and TIG's reply. *)
Record State := MkState { st_db : Db; st_gate : Inner; st_sent : list Request }.
Record Moment := MkMoment { mo_meanwhile : nat -> Db -> Db; mo_now : nat -> Z; mo_fresh : Uuid; mo_reply : HttpReply }.
Definition H (A : Type) : Type := State -> result HandleError A * State.
Definition hret {A} (a : A) : H A := fun st => (Ok a, st).
Definition hfail {A} (e : HandleError) : H A := fun st => (Err e, st).
Definition hbind {A B} (m : H A) (k : A -> H B) : H B :=
  fun st => match m st with (Ok a, st') => k a st' | (Err e, st') => (Err e, st') end.
Notation "'let+' x ':=' m 'in' k" := (hbind m (fun x => k))
  (at level 200, x pattern, m at level 100, k at level 200, format "'[v' 'let+'  x  ':='  m  'in' '//' k ']'").
Definition with_db (db : Db) (st : State) : State := MkState db (st_gate st) (st_sent st).
(** One statement that reads, and one that writes: an error changes nothing. *)
Definition query {A} (mo : Moment) (k : nat) (f : Db -> result HandleError A) : H A := fun st =>
  let db := mo_meanwhile mo k (st_db st) in (f db, with_db db st).
Definition statement {A E} (mo : Moment) (k : nat) (f : Db -> result E (A * Db)) : H (result E A) := fun st =>
  let db := mo_meanwhile mo k (st_db st) in
  match f db with
  | Ok (a, db') => (Ok (Ok a), with_db db' st)
  | Err e => (Ok (Err e), with_db db st)
  end.
Definition no_value {E} (f : Db -> result E Db) (db : Db) : result E (unit * Db) := let? db' := f db in Ok (tt, db').
Definition or_fail {A E} (inj : E -> HandleError) (r : result E A) : H A := match r with Ok a => hret a | Err e => hfail (inj e) end.

Section drive.
Context (sha256 : string -> Bytes) (to_string : Value -> string) (uuid_text : Uuid -> string)
  (status_text : Z -> string) (pinned : Value) (error_text : HandleError -> string).

Definition read_owning (d : Driver) (mo : Moment) (intent : WriteIntent) : H OwningWorkflow :=
  let+ w := query mo 1 (fun db => map_err HeWorkflow (find (dv_network d) (in_workflow_id intent) db)) in
  match w with
  | None => hfail (HeNoWorkflow (in_intent_id intent) (in_workflow_id intent))
  | Some w => hret (MkOwning (WorkflowState_as_str (wf_state w)) (is_terminal (wf_state w)))
  end.
Definition read_attempts (mo : Moment) (intent : WriteIntent) : H (list WriteAttempt) :=
  query mo 2 (fun db => map_err HeAttempt (attempts_for (in_intent_id intent) (mo_now mo 2) db)).

(** The [Transmit] arm, the same for both kinds but for what contention is and
    for the text of a refusal.  [take_slot] only waits. *)
Definition contention (body : Body) (e : AttemptError) : option Acted :=
  match body, e with
  | PrecommitBody _, PrecommitLaneOccupied _ => Some LaneOccupied
  | CommitmentBody _, BenchmarkWriteInFlight _ => Some LaneOccupied
  | _, AtFenceLost _ => Some LeaseHeldElsewhere
  | _, _ => None
  end.
Definition begin_permit : H (result Blocked WriteReady) := fun st =>
  match begin_write (st_gate st) with
  | Ok (ready, gate) => (Ok (Ok ready), MkState (st_db st) gate (st_sent st))
  | Err b => (Ok (Err b), st)
  end.
Definition end_permit : H unit := fun st => (Ok tt, MkState (st_db st) (drop_permit (st_gate st)) (st_sent st)).
(** A permit is dropped when the handler returns, with a value or an error. *)
Definition finally_drop {A} (m : H A) : H A := fun st => let (r, st') := m st in (r, (end_permit st').2).
Definition sent_request (r : Request) : H unit := fun st => (Ok tt, MkState (st_db st) (st_gate st) (st_sent st ++ [r])).
Definition send_or_release (mo : Moment) (intent : WriteIntent) (attempt : WriteAttempt) (body : Body) : H Transmitted :=
  match send_body sha256 to_string status_text intent attempt body (mo_reply mo) with
  | Ok (request, t) => let+ _ := sent_request request in hret t
  | Err e =>
      let+ _ := statement mo 6 (no_value (resolve RoleGateway (wa_attempt_id attempt) AttemptRejected None (Some (refusal_text body e)) (mo_now mo 6))) in
      hfail (HeTransmit e)
  end.
Definition transmit_held (mo : Moment) (intent : WriteIntent) (held : Lease) (decision : ClaimDecision) (body : Body)
  : H (option ClaimDecision * Acted) :=
  let+ permit := begin_permit in
  match permit with
  | Err b => hret (Some decision, WriteBlocked (revocation_category (bl_revocation b)))
  | Ok _ => finally_drop (
      let+ begun := statement mo 5 (begin_fenced (mo_fresh mo) (in_intent_id intent) held (mo_now mo 5)) in
      match begun with
      | Err e => match contention body e with Some acted => hret (Some decision, acted) | None => hfail (HeAttempt e) end
      | Ok attempt =>
          let+ sent := send_or_release mo intent attempt body in
          let+ recorded := statement mo 6 (no_value (resolve RoleGateway (wa_attempt_id attempt) (tx_outcome sent) (tx_http_status sent)
                                             (Some (tx_detail sent)) (mo_now mo 6))) in
          let+ _ := or_fail HeAttempt recorded in
          hret (Some decision, ActedTransmitted (wa_attempt_id attempt) (tx_outcome sent) (tx_benchmark_id sent))
      end)
  end.
(** The [AlreadyConfirmed] arm, whose two statements commit one by one. *)
Definition settle_held (d : Driver) (mo : Moment) (detail b : string) (decision : ClaimDecision) (attempts : list WriteAttempt)
  : H (option ClaimDecision * Acted) :=
  match List.find is_unresolved attempts with
  | None => hret (Some decision, ActedNothing)
  | Some a =>
      if is_none (wa_outcome a) && (wa_age_secs a <? Z.min (dv_call_timeout_secs d) i64_max)
      then hret (Some decision, AwaitingSender (wa_attempt_id a))
      else
        let+ recorded := (if is_none (wa_outcome a)
                          then statement mo 5 (no_value (resolve RoleGateway (wa_attempt_id a) Ambiguous None (Some detail) (mo_now mo 5)))
                          else hret (Ok tt)) in
        let+ _ := or_fail HeAttempt recorded in
        let+ settled := statement mo 6 (no_value (reconcile (wa_attempt_id a) Accepted (mo_now mo 6))) in
        let+ _ := or_fail HeAttempt settled in
        hret (Some decision, AttemptSettled (wa_attempt_id a) b)
  end.

Definition handle_held (d : Driver) (mo : Moment) (intent : WriteIntent) (confirmed_precommits : list Value) (held : Lease)
  : H (option ClaimDecision * Acted) :=
  let+ owning := read_owning d mo intent in
  let+ attempts := read_attempts mo intent in
  let+ siblings := query mo 3 (fun db => Ok (precommit_siblings intent db)) in
  let+ inputs := query mo 4 (fun db => map_err HeAdmission (payload_inputs (dv_network d) (in_workflow_id intent) (in_generation intent) db)) in
  match inputs with
  | None => hfail (HeNoDecision (in_intent_id intent) (in_generation intent))
  | Some inputs =>
      let+ submission := or_fail HePayload (from_decision (dv_player_id d) inputs) in
      let decision := decide_precommit sha256 to_string uuid_text pinned intent attempts owning siblings submission confirmed_precommits (dv_served_compute d) in
      match decision with
      | Transmit => transmit_held mo intent held decision (PrecommitBody submission)
      | AlreadyConfirmed b => settle_held d mo FOUND_BY_SEARCH b decision attempts
      | _ => hret (Some decision, ActedNothing)
      end
  end.
Definition handle_benchmark_held (d : Driver) (mo : Moment) (intent : WriteIntent) (confirmed_benchmarks : list string) (held : Lease)
  : H (option ClaimDecision * Acted) :=
  let+ owning := read_owning d mo intent in
  let+ attempts := read_attempts mo intent in
  let decision := decide_benchmark sha256 to_string intent attempts owning confirmed_benchmarks (dv_commitment d) in
  match decision with
  | Transmit =>
      match dv_commitment d with
      | None => hfail (HeNoCommitment (in_intent_id intent))
      | Some submission => transmit_held mo intent held decision (CommitmentBody submission)
      end
  | AlreadyConfirmed b => settle_held d mo FOUND_BY_READ b decision attempts
  | _ => hret (Some decision, ActedNothing)
  end.

(** The lease around a handler, released on every path; a failed release is
    only logged. *)
Definition under_lease (d : Driver) (mo : Moment) (intent : WriteIntent) (body : Lease -> H (option ClaimDecision * Acted))
  : H (option ClaimDecision * Acted) :=
  let+ claimed := statement mo 0 (claim (dv_network d) (in_workflow_id intent) PrecommitTransmit (dv_lease_owner d) (dv_lease_secs d) (mo_now mo 0)) in
  match claimed with
  | Err (StillHeld _ _ _ _ _) => hret (None, LeaseHeldElsewhere)
  | Err e => hfail (HeLease e)
  | Ok held => fun st =>
      let (r, st1) := body held st in
      (r, (statement mo 7 (no_value (release held (mo_now mo 7))) st1).2)
  end.
Definition handle (d : Driver) (mo : Moment) (confirmed_precommits : list Value) (intent : WriteIntent) : H (option ClaimDecision * Acted) :=
  under_lease d mo intent (handle_held d mo intent confirmed_precommits).
Definition handle_benchmark (d : Driver) (mo : Moment) (confirmed_benchmarks : list string) (intent : WriteIntent) : H (option ClaimDecision * Acted) :=
  under_lease d mo intent (handle_benchmark_held d mo intent confirmed_benchmarks).

(** ** A pass *)

Definition outcome_of (intent : WriteIntent) (r : result HandleError (option ClaimDecision * Acted)) : IntentOutcome :=
  let outcome := MkIntentOutcome (in_intent_id intent) (in_workflow_id intent) (in_generation intent) (in_trace_id intent) in
  match r with
  | Ok (decision, acted) => outcome decision acted
  | Err e => outcome None (ActedFailed (error_text e))
  end.
Fixpoint run_intents (body : Moment -> WriteIntent -> H (option ClaimDecision * Acted)) (moments : nat -> Moment) (i : nat)
    (intents : list WriteIntent) (st : State) : RunReport * State :=
  match intents with
  | [] => ([], st)
  | intent :: rest =>
      let (r, st1) := body (moments i) intent st in
      let (outcomes, st2) := run_intents body moments (S i) rest st1 in
      (outcome_of intent r :: outcomes, st2)
  end.
Definition run_kind (kind : WriteKind) (body : Moment -> WriteIntent -> H (option ClaimDecision * Acted)) (d : Driver) (moments : nat -> Moment) (st : State)
  : result DriveError RunReport * State :=
  match check_lease d with
  | Err e => (Err e, st)
  | Ok _ =>
      match claimable (dv_network d) kind (st_db st) with
      | Err e => (Err (DriveIntent e), st)
      | Ok intents => let (outcomes, st') := run_intents body moments 0 intents st in (Ok outcomes, st')
      end
  end.
Definition run_once (d : Driver) (moments : nat -> Moment) (confirmed_precommits : list Value) (st : State) : result DriveError RunReport * State :=
  run_kind Precommit (fun mo => handle d mo confirmed_precommits) d moments st.
Definition run_once_benchmarks (d : Driver) (moments : nat -> Moment) (confirmed_benchmarks : list string) (st : State)
  : result DriveError RunReport * State :=
  run_kind Benchmark (fun mo => handle_benchmark d mo confirmed_benchmarks) d moments st.

(** ** Every pass is a run *)

Context (L : Z).
Abbreviation gw_step := (gw_step sha256 to_string uuid_text status_text pinned L).
Abbreviation gw_reachable := (gw_reachable sha256 to_string uuid_text status_text pinned L).

(** What the other components commit. *)
Definition others (db db' : Db) : Prop := exists t, txn_fits L t /\ begins t = false /\ run_txn t db = Some db'.
Definition surrounded (mo : Moment) : Prop := forall k db, rtc others db (mo_meanwhile mo k db).
Lemma others_run sessions sent db db' : rtc others db db' -> rtc gw_step (MkWorld db sessions sent) (MkWorld db' sessions sent).
Proof. induction 1 as [|d1 d2 d3 (t & Hf & Hb & Ht) _ IH]; [done|]. eapply rtc_l; [by eapply gw_txn|done]. Qed.
Lemma run_txns_others ts : Forall (fun t => txn_fits L t /\ begins t = false) ts -> forall db db', run_txns ts db = Some db' -> rtc others db db'.
Proof.
  induction 1 as [|t ts [Hf Hb] _ IH]; intros db db' E; cbn in E; [by injection E as <-|].
  destruct (run_txn t db) as [d|] eqn:Ht; [|done]. eapply rtc_l; [by exists t|by apply IH].
Qed.
Lemma one_txn t sessions sent db db' : txn_fits L t -> begins t = false -> run_txn t db = Some db' ->
  rtc gw_step (MkWorld db sessions sent) (MkWorld db' sessions sent).
Proof. intros Hf Hb Ht. eapply rtc_l; [by eapply gw_txn|done]. Qed.

Definition in_session (s : Session) : gmap nat Session := {[ 0%nat := s ]}.
(** A handler, run from the database [db] with its session at [s], is a run of
    the model that ends the session. *)
Definition leads {A} (s : Session) (db : Db) (m : H A) : Prop := forall st r st', st_db st = db -> m st = (r, st') ->
  rtc gw_step (MkWorld db (in_session s) (st_sent st)) (MkWorld (st_db st') ∅ (st_sent st')).
Lemma session_ends s db sent : rtc gw_step (MkWorld db (in_session s) sent) (MkWorld db ∅ sent).
Proof. eapply rtc_l; [|done]. rewrite <- (delete_singleton_eq 0%nat s). apply gw_end. Qed.
Lemma leads_done {A} s db (m : H A) : (forall st, exists r gate, m st = (r, MkState (st_db st) gate (st_sent st))) -> leads s db m.
Proof. intros Hm st r st' <- E. destruct (Hm st) as (r' & g & Hr). rewrite Hr in E. injection E as _ <-. apply session_ends. Qed.
Lemma leads_ret {A} s db (a : A) : leads s db (hret a).
Proof. apply leads_done. intros [d g q]. by eexists _, _. Qed.
Lemma leads_fail {A} s db e : leads (A := A) s db (hfail e).
Proof. apply leads_done. intros [d g q]. by eexists _, _. Qed.
Lemma leads_or_fail {A B E} s db (inj : E -> HandleError) (r : result E A) (k : A -> H B) :
  (forall a, r = Ok a -> leads s db (k a)) -> leads s db (hbind (or_fail inj r) k).
Proof. intros Hk. destruct r as [a|e]; [by apply Hk|]. apply leads_done. intros [d g q]. by eexists _, _. Qed.
Lemma leads_query {A B} s db mo k (f : Db -> result HandleError A) (h : A -> H B) : surrounded mo ->
  (forall a d, rtc others db d -> f d = Ok a -> leads s d (h a)) -> leads s db (hbind (query mo k f) h).
Proof.
  intros Hmo Hh st r st' Hst E. unfold hbind, query in E. cbn zeta in E. rewrite Hst in E. pose proof (Hmo k db) as Hd.
  etrans; [apply others_run, Hd|]. destruct (f (mo_meanwhile mo k db)) as [a|e] eqn:Hf.
  - by apply (Hh a _ Hd Hf (with_db (mo_meanwhile mo k db) st) r st').
  - injection E as <- <-. apply session_ends.
Qed.
Lemma leads_session {A} s db p (m : H A) : session_step sha256 to_string uuid_text pinned s db p db -> leads (at_phase p s) db m -> leads s db m.
Proof.
  intros Hs Hm st r st' Hst E. eapply rtc_l; [eapply gw_session; [apply lookup_singleton_eq|exact Hs]|].
  unfold in_session. rewrite insert_singleton_eq. by eapply Hm.
Qed.
(** A statement that another component could have made too. *)
Lemma leads_statement {A B E} s db mo k (f : Db -> result E (A * Db)) (t : Txn) (h : result E A -> H B) : surrounded mo ->
  txn_fits L t -> begins t = false -> (forall a d d', f d = Ok (a, d') -> run_txn t d = Some d') ->
  (forall r d, leads s d (h r)) -> leads s db (hbind (statement mo k f) h).
Proof.
  intros Hmo Hf Hb Ht Hh st r st' Hst Hrun. unfold hbind, statement in Hrun. cbn zeta in Hrun. rewrite Hst in Hrun.
  etrans; [apply others_run, (Hmo k db)|]. destruct (f (mo_meanwhile mo k db)) as [[a d']|e] eqn:Hd.
  - etrans; [eapply one_txn; [exact Hf|exact Hb|by eapply Ht]|]. by apply (Hh (Ok a) d' (with_db d' st) r st').
  - by apply (Hh (Err e) _ (with_db (mo_meanwhile mo k db) st) r st').
Qed.

Lemma no_value_Ok {E} (f : Db -> result E Db) a d d' : no_value f d = Ok (a, d') -> f d = Ok d'.
Proof. unfold no_value. destruct (f d); [|done]. by intros [= _ <-]. Qed.
Lemma leads_resolve {B} s db mo k id o st detail now (h : result AttemptError unit -> H B) : surrounded mo ->
  (forall r d, leads s d (h r)) -> leads s db (hbind (statement mo k (no_value (resolve RoleGateway id o st detail now))) h).
Proof.
  intros Hmo Hh. apply (leads_statement s db mo k _ (TLedger RoleGateway (LResolve id o st detail now))); try done.
  intros a d d' Hd%no_value_Ok. simpl. by rewrite Hd.
Qed.
Lemma leads_settle s db d mo detail b decision attempts : surrounded mo -> leads s db (settle_held d mo detail b decision attempts).
Proof.
  intros Hmo. unfold settle_held. destruct (List.find is_unresolved attempts) as [a|]; [|apply leads_ret].
  destruct (is_none (wa_outcome a) && _); [apply leads_ret|].
  assert (Htail : forall (r : result AttemptError unit) db', leads s db' (let+ _ := or_fail HeAttempt r in
    let+ settled := statement mo 6 (no_value (reconcile (wa_attempt_id a) Accepted (mo_now mo 6))) in
    let+ _ := or_fail HeAttempt settled in hret (Some decision, AttemptSettled (wa_attempt_id a) b))).
  { intros r db'. apply leads_or_fail. intros _ _.
    apply (leads_statement s db' mo 6 _ (TLedger RoleGateway (LReconcile (wa_attempt_id a) Accepted (mo_now mo 6)))); try done.
    - intros x d1 d2 Hd%no_value_Ok. simpl. by rewrite Hd.
    - intros r' d1. apply leads_or_fail. intros _ _. apply leads_ret. }
  destruct (is_none (wa_outcome a)); [by apply leads_resolve|]. intros st r st' Hst E. by apply (Htail (Ok tt) db st r st').
Qed.
(** A request leaves, or the refusal is recorded, and then the answer. *)
Lemma leads_send {B} s db mo attempt body (k : Transmitted -> H B) : surrounded mo -> ss_phase s = PBegun attempt body ->
  (forall t d, leads (at_phase (PAnswered attempt t) s) d (k t)) -> leads s db (hbind (send_or_release mo (ss_intent s) attempt body) k).
Proof.
  intros Hmo Hp Hk st r st' Hst Hrun. unfold hbind, send_or_release in Hrun.
  destruct (send_body sha256 to_string status_text (ss_intent s) attempt body (mo_reply mo)) as [[request t]|e] eqn:Hs.
  - cbn in Hrun. eapply rtc_l; [eapply gw_send; [apply lookup_singleton_eq|exact Hp|exact Hs]|].
    unfold in_session. rewrite insert_singleton_eq. by apply (Hk t db (MkState (st_db st) (st_gate st) (st_sent st ++ [request])) r st').
  - unfold hbind, statement in Hrun. cbn zeta in Hrun. rewrite Hst in Hrun. etrans; [apply others_run, (Hmo 6%nat db)|].
    destruct (no_value _ _) as [[x d']|e'] eqn:Hn; cbn in Hrun; injection Hrun as _ <-; cbn.
    + apply no_value_Ok in Hn. eapply rtc_l; [eapply gw_refuse; [apply lookup_singleton_eq|exact Hp|exact Hs|exact Hn]|]. unfold in_session. by rewrite delete_singleton_eq.
    + apply session_ends.
Qed.
Lemma leads_record s db mo attempt t (decision : ClaimDecision) (acted : Acted) : surrounded mo -> ss_phase s = PAnswered attempt t ->
  leads s db (let+ recorded := statement mo 6 (no_value (resolve RoleGateway (wa_attempt_id attempt) (tx_outcome t) (tx_http_status t)
    (Some (tx_detail t)) (mo_now mo 6))) in let+ _ := or_fail HeAttempt recorded in hret (Some decision, acted)).
Proof.
  intros Hmo Hp st r st' Hst Hrun. unfold hbind, statement in Hrun. cbn zeta in Hrun. rewrite Hst in Hrun.
  etrans; [apply others_run, (Hmo 6%nat db)|]. destruct (no_value _ _) as [[x d']|e'] eqn:Hn; cbn in Hrun; injection Hrun as _ <-; cbn.
  - apply no_value_Ok in Hn. eapply rtc_l; [eapply gw_record; [apply lookup_singleton_eq|exact Hp|exact Hn]|]. unfold in_session. by rewrite delete_singleton_eq.
  - apply session_ends.
Qed.
Lemma leads_begun s db mo attempt body (decision : ClaimDecision) : surrounded mo -> ss_phase s = PBegun attempt body ->
  leads s db (let+ sent := send_or_release mo (ss_intent s) attempt body in
    let+ recorded := statement mo 6 (no_value (resolve RoleGateway (wa_attempt_id attempt) (tx_outcome sent) (tx_http_status sent)
                                       (Some (tx_detail sent)) (mo_now mo 6))) in
    let+ _ := or_fail HeAttempt recorded in
    hret (Some decision, ActedTransmitted (wa_attempt_id attempt) (tx_outcome sent) (tx_benchmark_id sent))).
Proof. intros Hmo Hp. apply leads_send; [done..|]. intros t d. by apply leads_record. Qed.
Lemma finally_drop_leads {A} s db (m : H A) : leads s db m -> leads s db (finally_drop m).
Proof.
  intros Hm st r st' Hst Hrun. unfold finally_drop in Hrun. destruct (m st) as [r1 st1] eqn:E. injection Hrun as _ <-. cbn.
  by apply (Hm st r1 st1).
Qed.
Lemma leads_transmit s db mo held decision body : surrounded mo -> ss_phase s = PCleared body -> ss_lease s = held ->
  leads s db (transmit_held mo (ss_intent s) held decision body).
Proof.
  intros Hmo Hp Hl st r st' Hst Hrun. unfold transmit_held, hbind at 1, begin_permit in Hrun.
  destruct (begin_write (st_gate st)) as [[ready gate]|b] eqn:Hg.
  2:{ injection Hrun as _ <-. rewrite Hst. apply session_ends. }
  revert Hrun. set (st1 := MkState (st_db st) gate (st_sent st)). change (st_sent st) with (st_sent st1).
  assert (Hst1 : st_db st1 = db) by done. clearbody st1. clear Hst. revert st1 r st' Hst1.
  apply (finally_drop_leads s db). intros st1 r st' Hst1 Hrun. unfold hbind at 1, statement in Hrun. cbn zeta in Hrun. rewrite Hst1 in Hrun.
  etrans; [apply others_run, (Hmo 5%nat db)|].
  destruct (begin_fenced (mo_fresh mo) (in_intent_id (ss_intent s)) held (mo_now mo 5) (mo_meanwhile mo 5 db)) as [[attempt d']|e] eqn:Hb.
  - eapply rtc_l; [eapply gw_session; [apply lookup_singleton_eq|eapply begin_attempt; [exact Hp|exact Hg|by rewrite Hl]]|].
    unfold in_session. rewrite insert_singleton_eq.
    by apply (leads_begun (at_phase (PBegun attempt body) s) d' mo attempt body decision Hmo eq_refl (with_db d' st1) r st').
  - destruct (contention body e); injection Hrun as _ <-; apply session_ends.
Qed.

Lemma leads_bind_assoc {A B C} s db (m : H A) (f : A -> H B) (g : B -> H C) :
  leads s db (hbind m (fun a => hbind (f a) g)) -> leads s db (hbind (hbind m f) g).
Proof. intros Hm st r st' Hst Hrun. apply (Hm st r st' Hst). revert Hrun. unfold hbind. by destruct (m st) as [[a|e] st1]. Qed.
Lemma leads_owning {B} s db d mo intent (k : OwningWorkflow -> H B) : surrounded mo -> ss_phase s = PHeld -> ss_driver s = d -> ss_intent s = intent ->
  (forall owning db', leads (at_phase (PWorkflow owning) s) db' (k owning)) -> leads s db (hbind (read_owning d mo intent) k).
Proof.
  intros Hmo Hp Hd Hi Hk. unfold read_owning. apply leads_bind_assoc. apply leads_query; [done|]. intros w db' _ Hw.
  destruct (find (dv_network d) (in_workflow_id intent) db') as [w'|] eqn:Hf; [|done]. cbn in Hw. injection Hw as ->.
  destruct w as [w|]; [|apply leads_done; intros [? ? ?]; by eexists _, _].
  eapply leads_session; [apply (read_workflow _ _ _ _ s db' w Hp); by rewrite Hd, Hi|].
  intros st r st' Hst Hrun. by apply (Hk _ db' st r st').
Qed.
Lemma leads_attempts {B} s db mo owning intent (k : list WriteAttempt -> H B) : surrounded mo -> ss_phase s = PWorkflow owning -> ss_intent s = intent ->
  (forall attempts db', leads (at_phase (PAttempts owning attempts) s) db' (k attempts)) -> leads s db (hbind (read_attempts mo intent) k).
Proof.
  intros Hmo Hp Hi Hk. unfold read_attempts. apply leads_query; [done|]. intros attempts db' _ Ha.
  destruct (attempts_for (in_intent_id intent) (mo_now mo 2) db') as [l|] eqn:Hf; [|done]. cbn in Ha. injection Ha as ->.
  eapply leads_session; [apply (Gateway.read_attempts _ _ _ _ s db' owning (mo_now mo 2) attempts Hp); by rewrite Hi|]. apply Hk.
Qed.
Lemma leads_handle_held d mo intent confirmed held db : surrounded mo ->
  leads (MkSession d intent held PHeld) db (handle_held d mo intent confirmed held).
Proof.
  intros Hmo. unfold handle_held. apply leads_owning; [done..|]. intros owning db1.
  apply (leads_attempts _ _ _ owning); [done..|]. intros attempts db2.
  apply leads_query; [done|]. intros siblings db3 _ [= <-].
  eapply leads_session; [by apply (read_siblings _ _ _ _ _ db3 owning attempts)|]. cbn [at_phase ss_driver ss_intent ss_lease].
  apply leads_query; [done|]. intros inputs db4 _ Hin.
  destruct (payload_inputs (dv_network d) (in_workflow_id intent) (in_generation intent) db4) as [i|] eqn:Hpay; [|done]. cbn in Hin. injection Hin as ->.
  destruct inputs as [inputs|]; [|apply leads_fail]. apply leads_or_fail. intros submission Hsub.
  set (decision := decide_precommit _ _ _ _ _ _ _ _ _ _ _). destruct decision as [|b| |reason|reason] eqn:Hdec; try apply leads_ret.
  - eapply leads_session; [by eapply (clear_precommit _ _ _ _ _ db4 owning attempts _ inputs submission confirmed)|].
    exact (leads_transmit (MkSession d intent held (PCleared (PrecommitBody submission))) db4 mo held Transmit (PrecommitBody submission) Hmo eq_refl eq_refl).
  - by apply leads_settle.
Qed.
Lemma leads_handle_benchmark_held d mo intent confirmed held db : surrounded mo ->
  leads (MkSession d intent held PHeld) db (handle_benchmark_held d mo intent confirmed held).
Proof.
  intros Hmo. unfold handle_benchmark_held. apply leads_owning; [done..|]. intros owning db1.
  apply (leads_attempts _ _ _ owning); [done..|]. intros attempts db2. cbn [at_phase ss_driver ss_intent ss_lease].
  destruct (decide_benchmark sha256 to_string intent attempts owning confirmed (dv_commitment d)) as [|b| |reason|reason] eqn:Hdec; try apply leads_ret.
  - destruct (dv_commitment d) as [submission|] eqn:Hc; [|apply leads_fail].
    eapply leads_session; [apply (clear_commitment _ _ _ _ _ db2 owning attempts confirmed submission); [done|done|cbn; by rewrite Hc]|].
    exact (leads_transmit (MkSession d intent held (PCleared (CommitmentBody submission))) db2 mo held Transmit (CommitmentBody submission) Hmo eq_refl eq_refl).
  - by apply leads_settle.
Qed.

(** ** One intent, then all of them *)

Definition known (d : Driver) (intent : WriteIntent) (db : Db) : Prop :=
  (exists i, db_intent db !! in_intent_id intent = Some i /\ intent = set_state (in_state intent) i) /\ in_network intent = dv_network d.
Lemma gw_step_history w w' : system_ok L (w_db w) -> gw_step w w' -> history_le (w_db w) (w_db w').
Proof.
  intros Hok Hstep. destruct Hstep; simpl in *.
  - by eapply (txn_safe L t).
  - eapply (claim_txn L); [exact Hok|]. done.
  - inversion H1; subst; try reflexivity. eapply (ledger_txn L _ Hok RoleGateway (LBeginFenced fresh (in_intent_id (ss_intent s)) (ss_lease s) now)). simpl. by rewrite H4.
  - reflexivity.
  - eapply (ledger_txn L _ Hok RoleGateway (LResolve (wa_attempt_id attempt) AttemptRejected None (Some (refusal_text body e)) now)). done.
  - eapply (ledger_txn L _ Hok RoleGateway (LResolve (wa_attempt_id attempt) (tx_outcome t) (tx_http_status t) (Some (tx_detail t)) now)). done.
  - reflexivity.
Qed.

Definition at_rest (st : State) : World := MkWorld (st_db st) ∅ (st_sent st).
Lemma gw_history w w' : 0 <= L -> gw_reachable w -> rtc gw_step w w' -> history_le (w_db w) (w_db w').
Proof.
  intros HL Hr Hrun. induction Hrun as [w|w1 w2 w3 Hs Hrun IH]; [reflexivity|].
  pose proof (gw_reachable_ok _ _ _ _ _ L w1 HL Hr) as Hok. etrans; [exact (gw_step_history _ _ (gw_db _ _ _ _ Hok) Hs)|].
  apply IH. eapply rtc_r; [exact Hr|exact Hs].
Qed.
Lemma known_later d intent w w' : 0 <= L -> gw_reachable w -> rtc gw_step w w' -> known d intent (w_db w) -> known d intent (w_db w').
Proof. intros HL Hr Hrun [Hi Hn]. split; [|done]. eapply intent_kept; [exact Hi|by apply gw_history]. Qed.
Lemma under_lease_runs d mo intent body st r st' : 0 <= L -> gw_reachable (at_rest st) -> surrounded mo -> check_lease d = Ok tt -> known d intent (st_db st) ->
  (forall held db, leads (MkSession d intent held PHeld) db (body held)) ->
  under_lease d mo intent body st = (r, st') -> rtc gw_step (at_rest st) (at_rest st').
Proof.
  intros HL Hr Hmo Hc Hk Hbody Hrun. unfold under_lease, hbind at 1, statement at 1 in Hrun. cbn zeta in Hrun.
  set (db0 := mo_meanwhile mo 0 (st_db st)) in *. assert (H0 : rtc gw_step (at_rest st) (MkWorld db0 ∅ (st_sent st))) by apply others_run, Hmo.
  destruct (known_later d intent _ _ HL Hr H0 Hk) as [(i & Hi & Heq) Hn]. cbn in Hi.
  destruct (claim _ _ _ _ _ _ db0) as [[held db1]|e] eqn:Hcl.
  - etrans; [exact H0|]. eapply rtc_l.
    { eapply (gw_claim _ _ _ _ _ _ db0 ∅ (st_sent st) 0%nat d intent i (mo_now mo 0) held db1); [apply lookup_empty|done..]. }
    destruct (body held (with_db db1 st)) as [r1 st1] eqn:Hb. injection Hrun as _ <-.
    etrans; [apply (Hbody held db1 (with_db db1 st) r1 st1 eq_refl Hb)|]. unfold statement. cbn zeta.
    etrans; [apply others_run, (Hmo 7%nat (st_db st1))|].
    destruct (no_value _ _) as [[x d']|e'] eqn:Hrel; [|done]. apply no_value_Ok in Hrel.
    apply (one_txn (TRelease held (mo_now mo 7))); [done|done|]. simpl. by rewrite Hrel.
  - assert (st' = with_db db0 st) as -> by (destruct e; by injection Hrun as _ <-). done.
Qed.
Lemma run_intents_runs d body moments : 0 <= L -> check_lease d = Ok tt -> (forall i, surrounded (moments i)) ->
  (forall mo intent held db, surrounded mo -> leads (MkSession d intent held PHeld) db (body mo intent held)) ->
  forall intents i st outcomes st', gw_reachable (at_rest st) -> Forall (fun intent => known d intent (st_db st)) intents ->
  run_intents (fun mo intent => under_lease d mo intent (body mo intent)) moments i intents st = (outcomes, st') ->
  rtc gw_step (at_rest st) (at_rest st') /\ map io_intent_id outcomes = map in_intent_id intents.
Proof.
  intros HL Hc Hmo Hbody. induction intents as [|intent rest IH]; intros i st outcomes st' Hr Hk Hrun; [by injection Hrun as <- <-|].
  cbn [run_intents] in Hrun. destruct (under_lease d (moments i) intent _ st) as [r st1] eqn:Hu.
  destruct (run_intents _ moments (S i) rest st1) as [rest_out st2] eqn:Hrest. injection Hrun as <- <-. apply Forall_cons in Hk as [Hk1 Hk].
  assert (H1 : rtc gw_step (at_rest st) (at_rest st1)).
  { eapply under_lease_runs; [done|done|apply Hmo|done|exact Hk1| |exact Hu]. intros held db. by apply Hbody. }
  destruct (IH (S i) st1 rest_out st2) as [H2 Hids]; [by eapply rtc_trans| |exact Hrest|].
  - eapply Forall_impl; [exact Hk|]. intros x Hx. by apply (known_later d x (at_rest st) (at_rest st1)).
  - split; [by etrans|]. cbn [map]. rewrite Hids. f_equal. unfold outcome_of. by destruct r as [[? ?]|?].
Qed.
Lemma claimable_known d kind db intents : intents_ok (db_intent db) -> claimable (dv_network d) kind db = Ok intents ->
  Forall (fun intent => known d intent db) intents.
Proof.
  intros Hok Hc. apply Forall_forall. intros intent Hin. destruct (claimable_spec _ _ _ _ Hok Hc _ Hin) as (Hi & Hn & _).
  split; [|done]. exists intent. split; [done|]. by rewrite set_state_same.
Qed.
Lemma run_kind_runs kind d body moments st r st' : 0 <= L -> (forall i, surrounded (moments i)) ->
  (forall mo intent held db, surrounded mo -> leads (MkSession d intent held PHeld) db (body mo intent held)) ->
  gw_reachable (at_rest st) -> run_kind kind (fun mo intent => under_lease d mo intent (body mo intent)) d moments st = (r, st') ->
  rtc gw_step (at_rest st) (at_rest st') /\
  match r with
  | Err e => st' = st /\ e = match check_lease d, claimable (dv_network d) kind (st_db st) with Err e1, _ => e1 | _, Err e2 => DriveIntent e2 | _, _ => e end
  | Ok report => exists intents, claimable (dv_network d) kind (st_db st) = Ok intents /\ map io_intent_id report = map in_intent_id intents
  end.
Proof.
  intros HL Hmo Hbody Hr Hrun. unfold run_kind in Hrun. destruct (check_lease d) as [[]|e] eqn:Hc; [|by injection Hrun as <- <-].
  destruct (claimable (dv_network d) kind (st_db st)) as [intents|e] eqn:Hcl; [|by injection Hrun as <- <-].
  destruct (run_intents _ moments 0 intents st) as [outcomes st1] eqn:Hi. injection Hrun as <- <-.
  pose proof (gw_reachable_ok _ _ _ _ _ L _ HL Hr) as Hok.
  assert (Hk : Forall (fun intent => known d intent (st_db st)) intents).
  { eapply claimable_known; [|exact Hcl]. exact (sys_intents _ _ (gw_db _ _ _ _ Hok)). }
  destruct (run_intents_runs d body moments HL Hc Hmo Hbody intents 0 st outcomes st1 Hr Hk Hi) as [H1 H2].
  split; [done|]. by exists intents.
Qed.
Lemma run_once_runs d moments confirmed st r st' : 0 <= L -> (forall i, surrounded (moments i)) -> gw_reachable (at_rest st) ->
  run_once d moments confirmed st = (r, st') -> rtc gw_step (at_rest st) (at_rest st').
Proof.
  intros HL Hmo Hr Hrun. eapply (run_kind_runs Precommit d (fun mo intent => handle_held d mo intent confirmed)); [done|done| |done|exact Hrun].
  intros mo intent held db. apply leads_handle_held.
Qed.
Lemma run_once_benchmarks_runs d moments confirmed st r st' : 0 <= L -> (forall i, surrounded (moments i)) -> gw_reachable (at_rest st) ->
  run_once_benchmarks d moments confirmed st = (r, st') -> rtc gw_step (at_rest st) (at_rest st').
Proof.
  intros HL Hmo Hr Hrun. eapply (run_kind_runs Benchmark d (fun mo intent => handle_benchmark_held d mo intent confirmed)); [done|done| |done|exact Hrun].
  intros mo intent held db. apply leads_handle_benchmark_held.
Qed.

(** ** The gate over a pass

    A handler gives back every permit it takes, whether it returns a value or an
    error, and sends only under one. *)
Definition permits_fit (g : Inner) : Prop := 0 <= in_flight g < 2 ^ 64 - 1.
Definition same_gate {A} (m : H A) : Prop := forall st r st', m st = (r, st') -> st_gate st' = st_gate st.
Definition tidy {A} (m : H A) : Prop := forall st r st', permits_fit (st_gate st) -> m st = (r, st') ->
  st_gate st' = st_gate st /\ (is_ready (st_gate st) = false -> st_sent st' = st_sent st).
Lemma permit_returned g ready g' : permits_fit g -> begin_write g = Ok (ready, g') -> drop_permit g' = g.
Proof.
  intros Hf Hb. unfold begin_write in Hb. destruct g as [[r|r] n]; [|done]. injection Hb as <- <-. unfold drop_permit, permits_fit in *. simpl in *.
  rewrite Z.mod_small by lia. unfold saturating_sub_u. f_equal. lia.
Qed.
Lemma same_bind {A B} (m : H A) (k : A -> H B) : same_gate m -> (forall a, same_gate (k a)) -> same_gate (hbind m k).
Proof.
  intros Hm Hk st r st' E. unfold hbind in E. destruct (m st) as [[a|e] st1] eqn:E1.
  - rewrite (Hk a _ _ _ E). by eapply Hm.
  - injection E as _ <-. by eapply Hm.
Qed.
Lemma tidy_bind {A B} (m : H A) (k : A -> H B) : tidy m -> (forall a, tidy (k a)) -> tidy (hbind m k).
Proof.
  intros Hm Hk st r st' Hf E. unfold hbind in E. destruct (m st) as [[a|e] st1] eqn:E1; destruct (Hm _ _ _ Hf E1) as [Hg Hs].
  - rewrite <- Hg in Hf. destruct (Hk a _ _ _ Hf E) as [Hg2 Hs2]. rewrite Hg2, Hg. split; [done|]. intros Hr.
    rewrite Hs2; [by apply Hs|by rewrite Hg].
  - by injection E as _ <-.
Qed.
Lemma tidy_quiet {A} (m : H A) : (forall st, exists r db, m st = (r, with_db db st)) -> tidy m /\ same_gate m.
Proof. intros Hm. split; intros st r st'; [intros _|]; intros E; destruct (Hm st) as (r0 & db & Hst); rewrite Hst in E; by injection E as _ <-. Qed.
Lemma query_quiet {A} mo k (f : Db -> result HandleError A) : tidy (query mo k f) /\ same_gate (query mo k f).
Proof. apply tidy_quiet. intros st. by eexists _, _. Qed.
Lemma statement_quiet {A E} mo k (f : Db -> result E (A * Db)) : tidy (statement mo k f) /\ same_gate (statement mo k f).
Proof. apply tidy_quiet. intros st. unfold statement. destruct (f _) as [[a d]|e]; by eexists _, _. Qed.
Lemma hret_quiet {A} (a : A) : tidy (hret a) /\ same_gate (hret a).
Proof. apply tidy_quiet. intros [d g q]. by exists (Ok a), d. Qed.
Lemma hfail_quiet {A} e : tidy (hfail (A := A) e) /\ same_gate (hfail (A := A) e).
Proof. apply tidy_quiet. intros [d g q]. by exists (Err e), d. Qed.
Lemma or_fail_quiet {A E} inj (r : result E A) : tidy (or_fail inj r) /\ same_gate (or_fail inj r).
Proof. destruct r; [apply hret_quiet|apply hfail_quiet]. Qed.
Ltac quiet :=
  repeat match goal with
  | |- tidy (hbind _ _) => apply tidy_bind; [|intros ?]
  | |- same_gate (hbind _ _) => apply same_bind; [|intros ?]
  | |- _ (query _ _ _) => apply query_quiet
  | |- _ (statement _ _ _) => apply statement_quiet
  | |- _ (hret _) => apply hret_quiet
  | |- _ (hfail _) => apply hfail_quiet
  | |- _ (or_fail _ _) => apply or_fail_quiet
  | |- _ (match ?x with _ => _ end) => destruct x
  end.
Lemma send_same_gate mo intent attempt body : same_gate (send_or_release mo intent attempt body).
Proof.
  unfold send_or_release. destruct (send_body _ _ _ _ _ _ _) as [[request t]|e]; [|quiet].
  apply same_bind; [|intros ?; apply hret_quiet]. intros st r st' [= _ <-]. done.
Qed.
Lemma finally_drop_tidy {A} (m : H A) st g ready r st' : permits_fit (st_gate st) -> begin_write (st_gate st) = Ok (ready, g) ->
  same_gate m -> finally_drop m (MkState (st_db st) g (st_sent st)) = (r, st') -> st_gate st' = st_gate st.
Proof.
  intros Hf Hb Hm E. unfold finally_drop in E. destruct (m _) as [r1 st1] eqn:E1. injection E as _ <-. cbn.
  rewrite (Hm _ _ _ E1). by eapply permit_returned.
Qed.
Lemma transmit_tidy mo intent held decision body : tidy (transmit_held mo intent held decision body).
Proof.
  intros st r st' Hf E. unfold transmit_held, hbind at 1, begin_permit in E.
  destruct (begin_write (st_gate st)) as [[ready g]|b] eqn:Hb; [|by injection E as _ <-]. split.
  - eapply finally_drop_tidy; [done|done| |exact E]. apply same_bind; [apply statement_quiet|]. intros [attempt|e].
    + apply same_bind; [apply send_same_gate|intros ?; quiet].
    + destruct (contention body e); quiet.
  - intros Hr. unfold begin_write in Hb. unfold is_ready in Hr. by destruct (in_gate_state (st_gate st)).
Qed.
Lemma settle_tidy d mo detail b decision attempts : tidy (settle_held d mo detail b decision attempts).
Proof. unfold settle_held. quiet. Qed.
Lemma handle_held_tidy d mo intent confirmed held : tidy (handle_held d mo intent confirmed held).
Proof.
  unfold handle_held, read_owning, read_attempts. quiet; first [apply transmit_tidy | apply settle_tidy].
Qed.
Lemma handle_benchmark_held_tidy d mo intent confirmed held : tidy (handle_benchmark_held d mo intent confirmed held).
Proof.
  unfold handle_benchmark_held, read_owning, read_attempts. quiet; first [apply transmit_tidy | apply settle_tidy].
Qed.
Lemma under_lease_tidy d mo intent body : (forall held, tidy (body held)) -> tidy (under_lease d mo intent body).
Proof.
  intros Hb. unfold under_lease. apply tidy_bind; [apply statement_quiet|]. intros [held|e].
  - intros st r st' Hf E. destruct (body held st) as [r1 st1] eqn:E1. injection E as _ <-. destruct (Hb held _ _ _ Hf E1) as [Hg Hs].
    unfold statement. by destruct (no_value _ _) as [[x d']|e'].
  - destruct e; quiet.
Qed.
Lemma run_intents_tidy body moments : (forall mo intent, tidy (body mo intent)) -> forall intents i st outcomes st', permits_fit (st_gate st) ->
  run_intents body moments i intents st = (outcomes, st') ->
  st_gate st' = st_gate st /\ (is_ready (st_gate st) = false -> st_sent st' = st_sent st).
Proof.
  intros Hb. induction intents as [|intent rest IH]; intros i st outcomes st' Hf E; [by injection E as _ <-|]. cbn [run_intents] in E.
  destruct (body (moments i) intent st) as [r st1] eqn:E1. destruct (run_intents body moments (S i) rest st1) as [o st2] eqn:E2.
  injection E as _ <-. destruct (Hb _ _ _ _ _ Hf E1) as [Hg Hs]. rewrite <- Hg in Hf. destruct (IH _ _ _ _ Hf E2) as [Hg2 Hs2].
  rewrite Hg2, Hg. split; [done|]. intros Hr. rewrite Hs2; [by apply Hs|by rewrite Hg].
Qed.
Lemma run_kind_tidy kind body d moments st r st' : (forall mo intent, tidy (body mo intent)) -> permits_fit (st_gate st) ->
  run_kind kind body d moments st = (r, st') -> st_gate st' = st_gate st /\ (is_ready (st_gate st) = false -> st_sent st' = st_sent st).
Proof.
  intros Hb Hf E. unfold run_kind in E. destruct (check_lease d); [|by injection E as _ <-]. destruct (claimable _ _ _); [|by injection E as _ <-].
  destruct (run_intents _ _ _ _ _) as [o st1] eqn:E1. injection E as _ <-. by eapply run_intents_tidy.
Qed.

(** ** Passes one after another

    Before a pass: what the other components committed since the last one, and
    what became of the gate -- revoked, or opened again by a restart. *)
Inductive PassInput := PrecommitPass (confirmed_precommits : list Value) | BenchmarkPass (confirmed_benchmarks : list string).
Record Pass := MkPass {
  ps_before : Db -> Db; ps_gate : Inner -> Inner; ps_driver : Driver; ps_moments : nat -> Moment; ps_input : PassInput }.
Definition run_pass (p : Pass) (st : State) : result DriveError RunReport * State :=
  let st := MkState (ps_before p (st_db st)) (ps_gate p (st_gate st)) (st_sent st) in
  match ps_input p with
  | PrecommitPass confirmed => run_once (ps_driver p) (ps_moments p) confirmed st
  | BenchmarkPass confirmed => run_once_benchmarks (ps_driver p) (ps_moments p) confirmed st
  end.
Definition run_passes (ps : list Pass) (st : State) : State := fold_left (fun st p => (run_pass p st).2) ps st.
Definition pass_surrounded (p : Pass) : Prop :=
  (forall db, rtc others db (ps_before p db)) /\ forall i, surrounded (ps_moments p i).
Lemma run_pass_runs p st r st' : 0 <= L -> pass_surrounded p -> gw_reachable (at_rest st) -> run_pass p st = (r, st') ->
  rtc gw_step (at_rest st) (at_rest st').
Proof.
  intros HL [Hb Hmo] Hr Hrun. unfold run_pass in Hrun. set (st1 := MkState _ _ _) in *.
  assert (H1 : rtc gw_step (at_rest st) (at_rest st1)) by apply others_run, Hb.
  assert (Hr1 : gw_reachable (at_rest st1)) by by eapply rtc_trans. etrans; [exact H1|].
  destruct (ps_input p); [by eapply run_once_runs|by eapply run_once_benchmarks_runs].
Qed.
Lemma run_passes_reach ps : 0 <= L -> Forall pass_surrounded ps -> forall st, gw_reachable (at_rest st) -> gw_reachable (at_rest (run_passes ps st)).
Proof.
  intros HL. induction 1 as [|p ps Hp _ IH]; intros st Hr; [done|]. apply IH.
  destruct (run_pass p st) as [r st1] eqn:E. eapply rtc_trans; [exact Hr|by eapply run_pass_runs].
Qed.
End drive.

(** ** A pass that sends *)

Definition quiet_moment : Moment := MkMoment (fun _ db => db) (fun _ => 30) 7 (NoReply (MkTransportError true false false false false)).
Definition sample_state : State := MkState sample_admitted (open_gate sample_ready) [].
Definition sample_pass : Pass := MkPass (fun db => db) (fun g => g) sample_driver (fun _ => quiet_moment) (PrecommitPass []).
Lemma sample_admitted_reached sha256 to_string uuid_text status_text pinned :
  gw_reachable sha256 to_string uuid_text status_text pinned 3 (MkWorld sample_admitted ∅ []).
Proof.
  eapply rtc_l; [apply (gw_txn _ _ _ _ _ _ (TSnapshot Testnet "blk" digest_a (MkSnapshotRow 200 true true))); [done|done|reflexivity]|].
  eapply rtc_l; [apply (gw_txn _ _ _ _ _ _ (TAdmit str_leb 1 2 10 sample_decision 3) _ _ _ sample_admitted)|done].
  - simpl. split; [lia|by intros].
  - done.
  - vm_compute. reflexivity.
Qed.
Lemma quiet_surrounded : surrounded 3 quiet_moment.
Proof. intros k db. done. Qed.

(** C5. A pass of the gateway is a run of the interleaved model.  Whatever the other
    components commit before each of its statements, the whole of [run_once] or
    [run_once_benchmarks] -- the claimable intents in order, the lease, the
    reads, the decision, the fenced attempt, the request, its recorded outcome
    and the release -- is a sequence of the model's steps, so every state a pass
    leaves behind is one the model reaches. *)
Theorem pass_is_a_run sha256 to_string uuid_text status_text pinned error_text L p st r st' :
  0 <= L -> pass_surrounded L p -> gw_reachable sha256 to_string uuid_text status_text pinned L (at_rest st) ->
  run_pass sha256 to_string uuid_text status_text pinned error_text p st = (r, st') ->
  rtc (gw_step sha256 to_string uuid_text status_text pinned L) (at_rest st) (at_rest st').
Proof. apply run_pass_runs. Qed.
Example pass_is_a_run_witness :
  exists st', run_pass sample_sha sample_text (fun _ => "") (fun _ => "") sample_pinned (fun _ => "") sample_pass sample_state =
    (Ok [MkIntentOutcome 2 "w1" 1 None (Some Transmit) (ActedTransmitted 7 Ambiguous None)], st') /\
    st_sent st' = [MkRequest "submit-precommit" (precommit_body sample_submission) 2 7] /\
    rtc (gw_step sample_sha sample_text (fun _ => "") (fun _ => "") sample_pinned 3) (at_rest sample_state) (at_rest st').
Proof.
  eexists. split; [vm_compute; reflexivity|]. split; [reflexivity|].
  eapply (pass_is_a_run _ _ _ _ _ (fun _ => "") 3 sample_pass sample_state);
    [lia|split; [done|intros i; exact quiet_surrounded]|apply sample_admitted_reached|vm_compute; reflexivity].
Defined.

(** However often a gateway passes, in whatever state each pass finds the
    database and its gate and however TIG answers or fails to: of all the
    precommit requests its passes sent for a workflow, at most one is not
    recorded as definitively refused, and no attempt is sent twice. *)
Theorem passes_send_one_precommit sha256 to_string uuid_text status_text pinned error_text L ps gate x y r1 r2 a1 a2 i1 i2 :
  0 <= L -> Forall (pass_surrounded L) ps ->
  let st := run_passes sha256 to_string uuid_text status_text pinned error_text ps (MkState empty_db gate []) in
  st_sent st !! x = Some r1 -> st_sent st !! y = Some r2 ->
  precommit_attempt (st_db st) (rq_attempt r1) a1 i1 -> precommit_attempt (st_db st) (rq_attempt r2) a2 i2 ->
  same_workflow i1 i2 -> at_outcome a1 <> Some AttemptRejected -> at_outcome a2 <> Some AttemptRejected -> x = y.
Proof.
  intros HL Hps st Hx Hy Hp1 Hp2 Hs Hr1 Hr2.
  assert (Hr : gw_reachable sha256 to_string uuid_text status_text pinned L (at_rest st)) by (apply run_passes_reach; [done|done|by apply rtc_refl]).
  pose proof (gw_reachable_ok _ _ _ _ _ _ _ HL Hr) as Hok.
  assert (rq_attempt r1 = rq_attempt r2) by (by eapply (gw_live _ _ _ _ Hok)).
  eapply NoDup_lookup; [apply (gw_once _ _ _ _ Hok)| |]; rewrite list_lookup_fmap; cbn.
  - by rewrite Hx.
  - rewrite Hy. simpl. congruence.
Qed.
(** One pass after the intent is admitted, and one more. *)
Definition admitting (db : Db) : Db := default db (run_txns (take 2 sample_txns) db).
Lemma admitting_others db : rtc (others 3) db (admitting db).
Proof.
  unfold admitting. destruct (run_txns (take 2 sample_txns) db) as [d|] eqn:E; [|done]. cbn [default from_option].
  eapply run_txns_others; [|exact E]. repeat constructor; simpl; try lia; by intros.
Qed.
Definition first_pass : Pass := MkPass admitting (fun g => g) sample_driver (fun _ => quiet_moment) (PrecommitPass []).
Example passes_send_one_precommit_witness :
  let st := run_passes sample_sha sample_text (fun _ => "") (fun _ => "") sample_pinned (fun _ => "") [first_pass; sample_pass]
    (MkState empty_db (open_gate sample_ready) []) in
  length (st_sent st) = 1%nat /\
  forall x y r1 r2 a1 a2 i1 i2, st_sent st !! x = Some r1 -> st_sent st !! y = Some r2 ->
    precommit_attempt (st_db st) (rq_attempt r1) a1 i1 -> precommit_attempt (st_db st) (rq_attempt r2) a2 i2 ->
    same_workflow i1 i2 -> at_outcome a1 <> Some AttemptRejected -> at_outcome a2 <> Some AttemptRejected -> x = y.
Proof.
  split; [vm_compute; reflexivity|]. intros x y r1 r2 a1 a2 i1 i2.
  apply (passes_send_one_precommit _ _ _ _ _ _ 3); [lia|].
  constructor; [|constructor; [|constructor]]; (split; [|intros i; exact quiet_surrounded]); [exact admitting_others|done].
Defined.

(** A gateway whose gate is closed sends nothing, and a pass gives back every
    permit it took, on every path through its handlers, errors included: after
    it the gate is as it was and the count of writes in flight is again the
    count of other writers. *)
Theorem pass_leaves_the_gate sha256 to_string uuid_text status_text pinned error_text p st r st' :
  let gate := ps_gate p (st_gate st) in
  permits_fit gate -> run_pass sha256 to_string uuid_text status_text pinned error_text p st = (r, st') ->
  st_gate st' = gate /\ (is_ready gate = false -> st_sent st' = st_sent st).
Proof.
  intros gate Hf E. unfold run_pass in E. destruct (ps_input p).
  - eapply (run_kind_tidy error_text _ _ _ _ (MkState _ gate _)); [|done|exact E]. intros mo intent. apply under_lease_tidy. intros held. apply handle_held_tidy.
  - eapply (run_kind_tidy error_text _ _ _ _ (MkState _ gate _)); [|done|exact E]. intros mo intent. apply under_lease_tidy. intros held. apply handle_benchmark_held_tidy.
Qed.
Definition closed_pass : Pass :=
  MkPass (fun db => db) (fun g => (revoke (Authentication "401") g).2) sample_driver (fun _ => quiet_moment) (PrecommitPass []).
Example pass_leaves_the_gate_witness : exists st',
  run_pass sample_sha sample_text (fun _ => "") (fun _ => "") sample_pinned (fun _ => "") closed_pass sample_state =
    (Ok [MkIntentOutcome 2 "w1" 1 None (Some Transmit) (WriteBlocked "authentication")], st') /\ st_sent st' = [].
Proof.
  eexists. split; [vm_compute; reflexivity|].
  eapply (pass_leaves_the_gate sample_sha sample_text (fun _ => "") (fun _ => "") sample_pinned (fun _ => "") closed_pass sample_state);
    [vm_compute; split; congruence|vm_compute; reflexivity|vm_compute; reflexivity].
Defined.
