(* ===== verification/Evidence.v ===== *)
(** * Gathering what the write gate judges: [crates/tig-gateway/src/evidence.rs]

    One definition per observation.  What lies outside the process is an
    argument: what the read client answered to the gate's reads in order (the
    n-th read and its path), what fetching the published specification gave,
    the key file's metadata, [/proc/self/status], the JSON reader and printer
    and the hash.  An observation that could not be made stays an error. *)
From stdpp Require Import pretty.
From S2P Require Import Prelude Text BTreeMap Json Domain Payload Readiness.
Open Scope Z_scope.

(** ** Reads

    An answer is the parsed body, or the text of the read's error. *)
Definition Answers : Type := nat -> string -> result string Value.
Definition read_at (answers : Answers) (n : nat) (what path : string) : result string Value :=
  map_err (fun e => format [what; " failed: "; e]) (answers n path).

Definition BLOCK_QUERY : string := "/get-block?include_data=true".
Definition anchor_block (answers : Answers) (n : nat) : result string (string * Z) :=
  let? body := read_at answers n "get-block" BLOCK_QUERY in
  let? block := ok_or (json_get "block" body) "get-block returned no block" in
  let? id := ok_or (and_then (json_get "id" block) json_as_str) "the block carries no id" in
  let? round := ok_or (and_then (and_then (json_get "details" block) (json_get "round")) json_as_u64) "the block carries no details.round" in
  Ok (id, round).

Definition player_query (block_id configured : string) : string := format ["/get-player-data?block_id="; block_id; "&player_id="; configured].
Definition confirmed_pool_player_id (answers : Answers) (n : nat) (block_id configured : string) : result string string :=
  let? body := read_at answers n "get-player-data" (player_query block_id configured) in
  match json_get "player" body with
  | None | Some JNull => Err (format ["TIG holds no player "; configured; " on this endpoint; the identity or the endpoint is wrong"])
  | Some player => ok_or (and_then (json_get "id" player) json_as_str) "the player TIG returned carries no id"
  end.

(** ** The published specification *)

(** What the request came to: the errors are the texts the source reports. *)
Inductive Fetched := ClientNotBuilt (e : string) | NotFetched (e : string) | BodyNotRead (e : string) | FetchedBody (bytes : string).
Definition openapi_checksum (sha256 : string -> list Z) (fetch : string -> Fetched) (url : string) : result string OpenApiObservation :=
  match fetch url with
  | ClientNotBuilt e => Err (format ["building the client: "; e])
  | NotFetched e => Err (format ["fetching "; url; ": "; e])
  | BodyNotRead e => Err (format ["reading "; url; ": "; e])
  | FetchedBody bytes => Ok (MkOpenApiObservation (Some (to_hex (sha256 bytes))) None)
  end.
Definition pinned_openapi_url (pinned : result string Value) : result string string :=
  let? value := map_err (fun e => format ["pinned file is not JSON: "; e]) pinned in
  ok_or (and_then (json_path ["upstream"; "openapi"; "url"] value) json_as_str) "the pinned file has no upstream.openapi.url".

(** ** Where the key file is *)

Record FileMeta := MkFileMeta { fm_mode : Z; fm_uid : Z }.
(** [str::split_whitespace]: the runs between white space. *)
Definition starts_blank (s : string) : bool :=
  match s with
  | String c (String d (String e _)) => ascii_space (byte c) || two_byte_space (byte c) (byte d) || three_byte_space (byte c) (byte d) (byte e)
  | String c (String d _) => ascii_space (byte c) || two_byte_space (byte c) (byte d)
  | String c _ => ascii_space (byte c)
  | EmptyString => false
  end.
Fixpoint take_word (s : string) : string * string :=
  match s with
  | EmptyString => (EmptyString, EmptyString)
  | String c s' => if starts_blank s then (EmptyString, s) else let (w, rest) := take_word s' in (String c w, rest)
  end.
Fixpoint words (fuel : nat) (s : string) : list string :=
  match fuel with
  | O => []
  | S fuel' =>
      match unicode_trim_start s with
      | EmptyString => []
      | s1 => let (w, rest) := take_word s1 in w :: words fuel' rest
      end
  end.
Definition split_whitespace (s : string) : list string := words (S (String.length s)) s.
Definition starts_with (p s : string) : bool := match Text.strip_prefix p s with Some _ => true | None => false end.

Section evidence.
Context (debug : string -> string) (parse_int_error : string -> string).
(** [{:?}] on a vector and on a set of strings. *)
Definition debug_seq (opening closing : string) (l : list string) : string := format [opening; String.concat ", " (map debug l); closing].

Definition effective_uid (status : result string string) : result string Z :=
  let? text := map_err (fun e => format ["cannot read /proc/self/status: "; e]) status in
  let? line := ok_or (List.find (starts_with "Uid:") (str_lines text)) "/proc/self/status has no Uid line" in
  let? word := ok_or (split_whitespace line !! 2%nat) (format ["no effective uid in "; debug line]) in
  ok_or (parse_unsigned u32_max word) (format ["effective uid in "; debug line; " is not a number: "; parse_int_error word]).
Definition api_key_placement (present : bool) (metadata : string -> result string FileMeta) (status : result string string) (key_path : string)
  : result string ApiKeyPlacement :=
  let? meta := map_err (fun e => format ["cannot stat the key file "; key_path; ": "; e]) (metadata key_path) in
  let? uid := effective_uid status in
  Ok (MkApiKeyPlacement present (negb (Z.land (fm_mode meta) 63 =? 0) || negb (fm_uid meta =? uid))).

(** ** The challenges in scope *)

(** One turn of the loop over the challenges; [Ok None] is a [continue]. *)
Definition challenge_runtime (block_round : Z) (pinned_images : btree unit) (served : list string) (index : nat) (challenge : Value)
  : result string (option ActiveChallengeRuntime) :=
  let at_index what := format ["challenge at index "; pretty (N.of_nat index); what] in
  let? config := ok_or (json_get "config" challenge) (at_index " has no config") in
  let? compute := ok_or (and_then (json_get "type" config) json_as_str) (at_index " has no config.type") in
  if negb (bool_decide (compute ∈ served)) then Ok None
  else
    let? round_active := ok_or (and_then (and_then (json_get "state" challenge) (json_get "round_active")) json_as_u64)
                           (at_index " has no state.round_active") in
    if block_round <? round_active then Ok None
    else
      let? id := ok_or (and_then (json_get "id" challenge) json_as_str) (at_index " has no id") in
      let? name := ok_or (and_then (json_get "name" config) json_as_str) (format ["challenge "; id; " has no config.name"]) in
      Ok (Some (MkActiveChallengeRuntime id (bt_contains (String.append name "_runtime") pinned_images) true)).
Fixpoint challenge_runtimes (block_round : Z) (pinned_images : btree unit) (served : list string) (index : nat) (challenges : list Value)
  : result string (list ActiveChallengeRuntime) :=
  match challenges with
  | [] => Ok []
  | challenge :: rest =>
      let? here := challenge_runtime block_round pinned_images served index challenge in
      let? later := challenge_runtimes block_round pinned_images served (S index) rest in
      Ok (option_list here ++ later)
  end.
Definition declared_type (challenge : Value) : option string :=
  and_then (and_then (json_get "config" challenge) (json_get "type")) json_as_str.
(** A [BTreeSet] collected from strings, by its elements in order. *)
Definition string_set (l : list string) : list string := bt_keys (bt_collect (map (fun s => (s, tt)) l)).
Definition active_challenge_runtimes (answers : Answers) (n : nat) (block_id : string) (block_round : Z) (pinned_images : btree unit)
    (served : list string) : result string (list ActiveChallengeRuntime) :=
  let? body := read_at answers n "get-challenges" (format ["/get-challenges?block_id="; block_id]) in
  let? challenges := ok_or (and_then (json_get "challenges" body) json_as_array) "get-challenges returned no challenges array" in
  match challenges with
  | [] => Err "get-challenges returned an empty list"
  | _ =>
      let? out := challenge_runtimes block_round pinned_images served 0 challenges in
      let vocabulary := string_set (omap declared_type challenges) in
      match filter (fun t => t ∉ vocabulary) served with
      | [] => Ok out
      | unknown =>
          Err (format ["served compute "; debug_seq "[" "]" unknown; " is not a type any live challenge declares (TIG uses ";
                       debug_seq "{" "}" vocabulary; "); a misspelling would scope nothing and pass this check unexamined"])
      end
  end.

(** ** The serialization fixtures *)

Context (from_str : string -> result string Value) (to_string : Value -> string).

Definition lossless_integer (entry : string * Value) : result string unit :=
  match json_as_u64 entry.2 with
  | Some _ => Ok tt
  | None => Err (format [entry.1; " did not parse as an integer; a value routed through f64 arrives here as a float"])
  end.
Definition lossless_precise (entry : string * Value) : result string unit :=
  let? text := ok_or (json_as_str entry.2) (format [entry.1; " is not a decimal string"]) in
  if is_empty text || negb (all_bytes is_ascii_digit text)
  then Err (format [entry.1; " is "; debug text; ", not a plain decimal integer string"]) else Ok tt.
Definition each {A} (f : A -> result string unit) (l : list A) : result string unit := foldM (fun _ x => f x) tt l.
Definition lossless_holds (document : string) : result string unit :=
  let? doc := map_err (fun e => format ["lossless: "; e]) (from_str document) in
  let? integers := ok_or (and_then (json_get "integers" doc) json_as_object) "no integers object" in
  let? _ := each lossless_integer integers in
  let? precise := ok_or (and_then (json_get "precise_numbers" doc) json_as_object) "no precise_numbers object" in
  each lossless_precise precise.

Definition fixture_number (track_id key : string) (settings : Value) : result string Z :=
  ok_or (and_then (json_get key settings) json_as_u64) (format ["track "; track_id; " has no "; key]).
Definition fixture_text (input : Value) (key : string) : result string string :=
  ok_or (and_then (json_get key input) json_as_str) (format ["the fixture input has no "; key]).
Definition fixture_track (acc : btree TrackSettings) (entry : string * Value) : result string (btree TrackSettings) :=
  let '(track_id, settings) := entry in
  let? hyperparameters := ok_or (and_then (json_get "hyperparameters" settings) json_as_object) (format ["track "; track_id; " has no hyperparameters"]) in
  let? num_bundles := fixture_number track_id "num_bundles" settings in
  let? fuel_budget := fixture_number track_id "fuel_budget" settings in
  Ok (bt_insert track_id (MkTrackSettings num_bundles fuel_budget (bt_collect hyperparameters)) acc).
Definition submission_from (input : Value) : result string PrecommitSubmission :=
  let? tracks := ok_or (and_then (json_get "track_settings" input) json_as_object) "the fixture input has no track_settings" in
  let? track_settings := foldM fixture_track bt_empty tracks in
  let? player_id := fixture_text input "player_id" in
  let? block_id := fixture_text input "block_id" in
  let? challenge_id := fixture_text input "challenge_id" in
  let? algorithm_id := fixture_text input "algorithm_id" in
  let? compute_type := fixture_text input "compute_type" in
  Ok (MkSubmission player_id block_id challenge_id algorithm_id compute_type track_settings).
Definition canonical_holds (document : string) : result string unit :=
  let? doc := map_err (fun e => format ["body: "; e]) (from_str document) in
  let? expected := ok_or (and_then (json_get "expected_bytes" doc) json_as_str) "no expected_bytes" in
  let? input := ok_or (json_get "input" doc) "no input" in
  let? submission := submission_from input in
  let rendered := to_string (precommit_body submission) in
  if String.eqb rendered expected then Ok tt else Err (format ["rendered "; rendered; ", fixture expects "; expected]).

Definition result_is_ok {E A} (r : result E A) : bool := match r with Ok _ => true | Err _ => false end.
Definition error_of {A} (r : result string A) : list string := match r with Ok _ => [] | Err e => [e] end.
Definition push_detail (detail e : string) : string := if is_empty detail then e else format [detail; "; "; e].
Definition serialization_fixtures (LOSSLESS BODY : string) : result string FixtureOutcome :=
  let numeric := lossless_holds LOSSLESS in
  let canonical := canonical_holds BODY in
  Ok (MkFixtureOutcome (result_is_ok numeric) (result_is_ok canonical) (fold_left push_detail (error_of numeric ++ error_of canonical) "")).

(** ** The response models *)

Definition REQUIRED_COLLECTIONS : list (string * list string) :=
  [("get-block", ["block"]); ("get-challenges", ["challenges"]); ("get-algorithms", ["codes"; "binarys"; "advances"]);
   ("get-opow", ["opow"]); ("get-benchmarks", ["precommits"; "benchmarks"; "proofs"; "frauds"])].
Definition model_query (endpoint block_id player_id : string) : string :=
  if String.eqb endpoint "get-block" then BLOCK_QUERY
  else if String.eqb endpoint "get-benchmarks" then format ["/get-benchmarks?block_id="; block_id; "&player_id="; player_id]
  else format ["/"; endpoint; "?block_id="; block_id].
Definition model_validation (answer : result string Value) (endpoint : string) (required : list string) : ModelValidation :=
  match answer with
  | Err e => MkModelValidation endpoint false (format ["read failed: "; e])
  | Ok body =>
      match filter (fun key => json_get key body = None) required with
      | [] => MkModelValidation endpoint true ""
      | missing => MkModelValidation endpoint false (format ["missing "; String.concat ", " missing])
      end
  end.
(** The reads follow one another from the [n]-th. *)
Definition response_models (answers : Answers) (n : nat) (block_id player_id : string) : result string (list ModelValidation) :=
  Ok (imap (fun i entry => model_validation (answers (n + i)%nat (model_query entry.1 block_id player_id)) entry.1 entry.2) REQUIRED_COLLECTIONS).
Definition unresolved_containers (acknowledged : option string) : ImageObservation := MkImageObservation None acknowledged.
End evidence.

(** ** What each observation says *)

Definition str_at (path : list string) (v : Value) : option string := and_then (json_path path v) json_as_str.
Definition u64_at (path : list string) (v : Value) : option Z := and_then (json_path path v) json_as_u64.
(** The body read names the block and its round. *)
Definition anchored (answers : Answers) (n : nat) (id : string) (round : Z) : Prop :=
  exists body, answers n BLOCK_QUERY = Ok body /\ str_at ["block"; "id"] body = Some id /\ u64_at ["block"; "details"; "round"] body = Some round.
Lemma anchor_block_Ok answers n id round : anchor_block answers n = Ok (id, round) <-> anchored answers n id round.
Proof.
  unfold anchor_block, anchored, read_at, str_at, u64_at. destruct (answers n BLOCK_QUERY) as [body|e]; cbn; [|split; [done|by intros (? & ? & _)]].
  transitivity (str_at ["block"; "id"] body = Some id /\ u64_at ["block"; "details"; "round"] body = Some round); [|naive_solver].
  unfold str_at, u64_at. cbn. destruct (json_get "block" body) as [b|]; cbn; [|naive_solver].
  destruct (json_get "id" b) as [i|]; cbn; [|naive_solver]. destruct (json_as_str i) as [s|]; cbn; [|naive_solver].
  destruct (json_get "details" b) as [d|]; cbn; [|naive_solver]. destruct (json_get "round" d) as [r|]; cbn; [|naive_solver].
  destruct (json_as_u64 r); cbn; naive_solver.
Qed.

(** TIG holds a player, and this is the id it carries. *)
Lemma confirmed_pool_player_id_Ok answers n block_id configured id : confirmed_pool_player_id answers n block_id configured = Ok id <->
  exists body, answers n (player_query block_id configured) = Ok body /\ str_at ["player"; "id"] body = Some id.
Proof.
  unfold confirmed_pool_player_id, read_at, str_at. destruct (answers _ _) as [body|e]; cbn; [|split; [done|by intros (? & ? & _)]].
  transitivity (str_at ["player"; "id"] body = Some id); [|unfold str_at; cbn; naive_solver].
  unfold str_at. cbn. destruct (json_get "player" body) as [p|]; cbn; [|naive_solver].
  assert (Hok : ok_or (and_then (json_get "id" p) json_as_str) "the player TIG returned carries no id" = Ok id <->
    and_then (match json_get "id" p with Some v' => Some v' | None => None end) json_as_str = Some id).
  { destruct (json_get "id" p) as [i|]; cbn; [|naive_solver]. destruct (json_as_str i); cbn; naive_solver. }
  destruct p; try exact Hok. cbn. naive_solver.
Qed.

(** The key file is for this process alone. *)
Lemma api_key_placement_private debug pie present metadata status path :
  (exists p, api_key_placement debug pie present metadata status path = Ok p /\
     ak_present_in_gateway p = true /\ ak_readable_by_member_services p = false) <->
  present = true /\ exists meta uid, metadata path = Ok meta /\ effective_uid debug pie status = Ok uid /\ Z.land (fm_mode meta) 63 = 0 /\ fm_uid meta = uid.
Proof.
  unfold api_key_placement. destruct (metadata path) as [meta|e]; cbn.
  2:{ split; [by intros (? & ? & _)|by intros (_ & ? & ? & ? & _)]. }
  destruct (effective_uid debug pie status) as [uid|e]; cbn.
  2:{ split; [by intros (? & ? & _)|by intros (_ & ? & ? & _ & ? & _)]. }
  split.
  - intros (p & [= <-] & Hp & [H1 H2]%orb_false_iff). cbn in Hp. apply negb_false_iff in H1, H2. split; [done|]. exists meta, uid. apply Z.eqb_eq in H1, H2. done.
  - intros (-> & ? & ? & [= <-] & [= <-] & H1 & ->). eexists. split; [done|]. split; [done|]. cbn -[Z.land]. by rewrite H1, !Z.eqb_refl.
Qed.

(** A challenge the gate can judge, and judges to have a reviewed runtime
    whenever its type is served and it is active. *)
Definition reviewed (round : Z) (pinned : btree unit) (served : list string) (c : Value) : Prop :=
  exists t, str_at ["config"; "type"] c = Some t /\ (t ∈ served ->
    exists r, u64_at ["state"; "round_active"] c = Some r /\ (r <= round ->
      exists id name, str_at ["id"] c = Some id /\ str_at ["config"; "name"] c = Some name /\ bt_contains (String.append name "_runtime") pinned = true)).
Definition all_reviewed (cs : list ActiveChallengeRuntime) : Prop :=
  forall c, c ∈ cs -> ac_runtime_pinned c = true /\ ac_compute_path_supported c = true.
Lemma challenge_runtime_pass round pinned served i c :
  (exists o, challenge_runtime round pinned served i c = Ok o /\ all_reviewed (option_list o)) <-> reviewed round pinned served c.
Proof.
  unfold challenge_runtime, reviewed, str_at, u64_at. cbn.
  destruct (json_get "config" c) as [config|]; cbn; [|naive_solver].
  destruct (json_get "type" config) as [ty|]; cbn; [|naive_solver]. destruct (json_as_str ty) as [t|]; cbn; [|naive_solver].
  destruct (bool_decide_reflect (t ∈ served)) as [Hs|Hs]; cbn.
  2:{ split; [intros _; exists t; naive_solver|]. intros _. exists None. split; [done|]. by intros x Hx%not_elem_of_nil. }
  destruct (json_get "state" c) as [st|]; cbn; [|naive_solver]. destruct (json_get "round_active" st) as [ra|]; cbn; [|naive_solver].
  destruct (json_as_u64 ra) as [r|]; cbn; [|naive_solver]. destruct (Z.ltb_spec round r).
  { split; [intros _; exists t; split; [done|]; intros _; exists r; split; [done|lia]|]. intros _. exists None. split; [done|]. by intros x Hx%not_elem_of_nil. }
  destruct (json_get "id" c) as [idv|]; cbn; [|naive_solver]. destruct (json_as_str idv) as [id|]; cbn; [|naive_solver].
  destruct (json_get "name" config) as [nv|]; cbn; [|naive_solver]. destruct (json_as_str nv) as [name|]; cbn; [|naive_solver]. split.
  - intros (o & [= <-] & Hall). destruct (Hall _ (list_elem_of_here _ _)) as [Hp _]. cbn in Hp. naive_solver.
  - intros (t' & [= <-] & Hr). destruct (Hr Hs) as (r' & [= <-] & Hr'). destruct (Hr' H) as (id' & name' & [= <-] & [= <-] & Hb).
    eexists. split; [done|]. cbn. rewrite Hb. intros x Hx%list_elem_of_singleton. by subst x.
Qed.
Lemma all_reviewed_app l1 l2 : all_reviewed (l1 ++ l2) <-> all_reviewed l1 /\ all_reviewed l2.
Proof. unfold all_reviewed. set_solver. Qed.
Lemma challenge_runtimes_pass round pinned served l : forall i,
  (exists cs, challenge_runtimes round pinned served i l = Ok cs /\ all_reviewed cs) <-> Forall (reviewed round pinned served) l.
Proof.
  induction l as [|c l IH]; intros i; cbn.
  { split; [by constructor|]. intros _. exists []. split; [done|]. by intros x Hx%not_elem_of_nil. }
  rewrite Forall_cons, <- (challenge_runtime_pass round pinned served i c), <- (IH (S i)).
  destruct (challenge_runtime _ _ _ i c) as [o|e]; cbn; [|naive_solver].
  destruct (challenge_runtimes _ _ _ (S i) l) as [cs|e]; cbn; [|naive_solver]. split.
  - intros (x & [= <-] & Hx). apply all_reviewed_app in Hx as [H1 H2]. naive_solver.
  - intros [(o' & [= <-] & H1) (cs' & [= <-] & H2)]. eexists. split; [done|]. by apply all_reviewed_app.
Qed.
Lemma string_set_elem l s : s ∈ string_set l <-> s ∈ l.
Proof. unfold string_set. rewrite bt_collect_keys, map_map. cbn. by rewrite map_id. Qed.
Definition scope_reviewed (answers : Answers) (n : nat) (block_id : string) (round : Z) (pinned : btree unit) (served : list string) : Prop :=
  exists body l, answers n (format ["/get-challenges?block_id="; block_id]) = Ok body /\ json_get "challenges" body = Some (JArray l) /\ l <> [] /\
    Forall (reviewed round pinned served) l /\ forall t, t ∈ served -> exists c, c ∈ l /\ str_at ["config"; "type"] c = Some t.
Lemma declared_type_at c : declared_type c = str_at ["config"; "type"] c.
Proof. unfold declared_type, str_at. cbn. destruct (json_get "config" c) as [v|]; [|done]. cbn. by destruct (json_get "type" v). Qed.
Lemma active_challenge_runtimes_pass debug answers n block_id round pinned served :
  (exists cs, active_challenge_runtimes debug answers n block_id round pinned served = Ok cs /\ all_reviewed cs) <->
  scope_reviewed answers n block_id round pinned served.
Proof.
  unfold active_challenge_runtimes, scope_reviewed, read_at. destruct (answers _ _) as [body|e]; cbn.
  2:{ split; [by intros (? & ? & _)|by intros (? & ? & ? & _)]. }
  assert (Hno : forall e : string, (exists cs, Err e = Ok cs /\ all_reviewed cs) <-> False) by (intros e; split; [by intros (? & ? & _)|done]).
  destruct (json_get "challenges" body) as [v|] eqn:Hc; cbn.
  2:{ rewrite Hno. split; [done|]. intros (b' & l & [= <-] & Hl & _). congruence. }
  destruct v as [| | | |l|]; cbn; try (rewrite Hno; split; [done|]; intros (b' & l' & [= <-] & Hl & _); congruence).
  destruct l as [|c l]. { rewrite Hno. split; [done|]. intros (b' & l' & [= <-] & Hl & Hne & _). congruence. } set (all := c :: l) in *.
  transitivity ((exists cs, challenge_runtimes round pinned served 0 all = Ok cs /\ all_reviewed cs) /\
    filter (fun t => t ∉ string_set (omap declared_type all)) served = []).
  { destruct (challenge_runtimes _ _ _ 0 all) as [cs|e]; cbn; [|naive_solver].
    destruct (filter _ served) as [|x u]; split; [by intros H|by intros [H _]|by intros (? & ? & _)|by intros [_ ?]]. }
  rewrite challenge_runtimes_pass.
  assert (Hf : filter (fun t => t ∉ string_set (omap declared_type all)) served = [] <->
    forall t, t ∈ served -> exists c, c ∈ all /\ str_at ["config"; "type"] c = Some t).
  { setoid_rewrite <- declared_type_at. split.
    - intros Hnil t Ht. destruct (decide (t ∈ string_set (omap declared_type all))) as [Hin|Hin].
      + rewrite string_set_elem, list_elem_of_omap in Hin. destruct Hin as (c' & ? & ?). by exists c'.
      + assert (Hx : t ∈ filter (fun t => t ∉ string_set (omap declared_type all)) served) by (by apply list_elem_of_filter).
        rewrite Hnil in Hx. by apply not_elem_of_nil in Hx.
    - intros Hall. destruct (filter _ served) as [|x u] eqn:E; [done|].
      assert (Hx : x ∈ filter (fun t => t ∉ string_set (omap declared_type all)) served) by (rewrite E; left).
      apply list_elem_of_filter in Hx as [Hx Hs]. destruct Hx. rewrite string_set_elem, list_elem_of_omap.
      destruct (Hall x Hs) as (c' & ? & ?). by exists c'. }
  rewrite Hf. split.
  - intros [H1 H2]. exists body, all. split_and!; done.
  - intros (b' & l' & [= <-] & Hl & _ & H1 & H2). rewrite Hc in Hl. by injection Hl as <-.
Qed.

(** Every required collection is in the body that answered its read. *)
Definition models_present (answers : Answers) (n : nat) (block_id player_id : string) : Prop :=
  forall i endpoint required, REQUIRED_COLLECTIONS !! i = Some (endpoint, required) ->
    exists body, answers (n + i)%nat (model_query endpoint block_id player_id) = Ok body /\ forall key, key ∈ required -> is_Some (json_get key body).
Lemma model_validation_valid answer endpoint required : mv_valid (model_validation answer endpoint required) = true <->
  exists body, answer = Ok body /\ forall key, key ∈ required -> is_Some (json_get key body).
Proof.
  unfold model_validation. destruct answer as [body|e]; [|split; [done|by intros (? & ? & _)]].
  assert (Hf : filter (fun key => json_get key body = None) required = [] <-> forall key, key ∈ required -> is_Some (json_get key body)).
  { induction required as [|k ks IH]; [split; [by intros _ key Hk%not_elem_of_nil|done]|]. destruct (json_get k body) as [v|] eqn:Hk.
    - rewrite filter_cons_False by congruence. rewrite IH. setoid_rewrite elem_of_cons. split; [|naive_solver]. intros H key [-> |Hin]; [by rewrite Hk|by apply H].
    - rewrite filter_cons_True by done. split; [done|]. intros H. destruct (H k (list_elem_of_here _ _)). congruence. }
  destruct (filter _ required) as [|x missing]; cbn.
  - split; [|done]. intros _. exists body. split; [done|]. by apply Hf.
  - split; [done|]. intros (b & [= <-] & H). by apply Hf in H.
Qed.
Lemma last_with_unique {A} (key : A -> string) (l : list A) x : NoDup (map key l) -> x ∈ l -> last_with key (key x) l = Some x.
Proof.
  intros Hnd Hx. destruct (last_with key (key x) l) as [y|] eqn:E; unfold last_with in E.
  - apply last_Some_elem_of, list_elem_of_filter in E as [Hk Hy]. apply list_elem_of_lookup_1 in Hx as [i Hi], Hy as [j Hj].
    assert (i = j) as -> by (eapply (NoDup_lookup (map key l)); [done| |]; rewrite list_lookup_fmap; [by rewrite Hi|by rewrite Hj; cbn; rewrite Hk]).
    congruence.
  - apply last_None in E. assert (H : x ∈ filter (fun y => key y = key x) l) by (by apply list_elem_of_filter). rewrite E in H. by apply not_elem_of_nil in H.
Qed.
Lemma model_endpoint answer endpoint required : mv_endpoint (model_validation answer endpoint required) = endpoint.
Proof. unfold model_validation. by repeat case_match. Qed.
Lemma response_models_pass answers n block_id player_id :
  (exists vs, response_models answers n block_id player_id = Ok vs /\
     forall endpoint, endpoint ∈ REQUIRED_MODELS -> exists v, last_with mv_endpoint endpoint vs = Some v /\ mv_valid v = true) <->
  models_present answers n block_id player_id.
Proof.
  unfold response_models. set (vs := imap _ REQUIRED_COLLECTIONS).
  assert (Hkeys : map mv_endpoint vs = REQUIRED_MODELS) by (unfold vs; cbn; by rewrite !model_endpoint).
  assert (Hat : forall i endpoint required, REQUIRED_COLLECTIONS !! i = Some (endpoint, required) ->
    last_with mv_endpoint endpoint vs = Some (model_validation (answers (n + i)%nat (model_query endpoint block_id player_id)) endpoint required)).
  { intros i endpoint required Hi. set (v := model_validation _ _ _). rewrite <- (model_endpoint (answers (n + i)%nat (model_query endpoint block_id player_id)) endpoint required).
    apply last_with_unique; [rewrite Hkeys; by apply (bool_decide_unpack _)|]. apply (list_elem_of_lookup_2 _ i). unfold vs. by rewrite list_lookup_imap, Hi. }
  assert (Hin : forall endpoint, endpoint ∈ REQUIRED_MODELS <-> exists i required, REQUIRED_COLLECTIONS !! i = Some (endpoint, required)).
  { intros endpoint. change REQUIRED_MODELS with (REQUIRED_COLLECTIONS.*1). rewrite list_elem_of_fmap. split.
    - intros ([e r] & -> & [i Hi]%list_elem_of_lookup_1). by exists i, r.
    - intros (i & r & Hi). exists (endpoint, r). split; [done|by eapply list_elem_of_lookup_2]. }
  unfold models_present. split.
  - intros (vs' & [= <-] & Hvs) i endpoint required Hi. apply (model_validation_valid _ endpoint).
    destruct (Hvs endpoint) as (v & Hl & Hv); [apply Hin; by exists i, required|]. rewrite (Hat i endpoint required Hi) in Hl. by injection Hl as ->.
  - intros Hall. exists vs. split; [done|]. intros endpoint (i & required & Hi)%Hin. eexists. split; [by apply Hat|]. apply model_validation_valid. by apply Hall.
Qed.

(** ** The fixtures *)

Lemma each_Ok {A} (f : A -> result string unit) l : each f l = Ok tt <-> forall x, x ∈ l -> f x = Ok tt.
Proof.
  unfold each. induction l as [|x l IH]; cbn; [split; [by intros _ y Hy%not_elem_of_nil|done]|].
  destruct (f x) as [[]|e] eqn:Hx; cbn.
  - rewrite IH. setoid_rewrite elem_of_cons. split; [intros H y [-> |Hy]; [done|by apply H]|naive_solver].
  - split; [done|]. intros H. rewrite (H x (list_elem_of_here _ _)) in Hx. done.
Qed.
Lemma lossless_integer_Ok entry : lossless_integer entry = Ok tt <-> exists n, entry.2 = JNumber (PosInt n).
Proof. unfold lossless_integer. destruct entry as [k [| |[n|n|b]| | |]]; cbn; split; try done; try (by intros (? & ?)). by exists n. Qed.
Lemma lossless_precise_Ok debug entry : lossless_precise debug entry = Ok tt <->
  exists text, entry.2 = JString text /\ text <> EmptyString /\ all_bytes is_ascii_digit text = true.
Proof.
  unfold lossless_precise. destruct entry as [k [| | |text| |]]; cbn -[all_bytes]; try (split; [done|by intros (? & ? & _)]).
  destruct (is_empty text) eqn:He; cbn -[all_bytes]; [split; [done|]; intros (? & [= <-] & ? & _); by destruct text|].
  destruct (all_bytes is_ascii_digit text) eqn:Hd; cbn; [|split; [done|]; intros (? & [= <-] & _ & ?); congruence].
  split; [|done]. intros _. exists text. split_and!; [done|by intros -> |done].
Qed.

(** The lossless fixture holds exactly when the document parses, every entry of
    its [integers] is an integer that fits 64 bits unsigned, and every entry of
    its [precise_numbers] is a non-empty string of digits. *)
Theorem lossless_fixture_exact debug from_str document :
  lossless_holds debug from_str document = Ok tt <->
  exists doc integers precise, from_str document = Ok doc /\ json_get "integers" doc = Some (JObject integers) /\
    json_get "precise_numbers" doc = Some (JObject precise) /\
    (forall k v, (k, v) ∈ integers -> exists n, v = JNumber (PosInt n)) /\
    (forall k v, (k, v) ∈ precise -> exists text, v = JString text /\ text <> EmptyString /\ all_bytes is_ascii_digit text = true).
Proof.
  unfold lossless_holds. destruct (from_str document) as [doc|e]; cbn -[json_get]; [|split; [done|by intros (? & ? & ? & ? & _)]].
  destruct (json_get "integers" doc) as [vi|] eqn:Ei; cbn -[json_get]; [|split; [done|intros (? & ? & ? & [= <-] & ? & _); congruence]].
  destruct vi as [| | | | |integers]; cbn -[json_get]; try (split; [done|intros (? & ? & ? & [= <-] & ? & _); congruence]).
  destruct (each lossless_integer integers) as [[]|e] eqn:Hi; cbn -[json_get].
  2:{ split; [done|]. intros (? & ints & ? & [= <-] & Hd & _ & Hall & _). rewrite Ei in Hd. injection Hd as <-.
      assert (each lossless_integer integers = Ok tt) as Hok; [|congruence]. apply each_Ok. intros [k v] Hx. apply lossless_integer_Ok. by eapply Hall. }
  destruct (json_get "precise_numbers" doc) as [vp|] eqn:Ep; cbn -[json_get]; [|split; [done|intros (? & ? & ? & [= <-] & _ & ? & _); congruence]].
  destruct vp as [| | | | |precise]; cbn -[json_get]; try (split; [done|intros (? & ? & ? & [= <-] & _ & ? & _); congruence]).
  rewrite each_Ok in Hi |- *. split.
  - intros Hp. exists doc, integers, precise. split_and!; [done..| |]; intros k v Hx; [by apply (lossless_integer_Ok (k, v)), Hi|by apply (lossless_precise_Ok debug (k, v)), Hp].
  - intros (? & ? & pr & [= <-] & _ & Hd & _ & Hall) [k v] Hx. rewrite Ep in Hd. injection Hd as <-. apply lossless_precise_Ok. by eapply Hall.
Qed.

(** The fixture document of a submission: its input as the source reads it. *)
Definition fixture_input (s : PrecommitSubmission) : Value :=
  json_object [("player_id", JString (ps_player_id s)); ("block_id", JString (ps_block_id s)); ("challenge_id", JString (ps_challenge_id s));
               ("algorithm_id", JString (ps_algorithm_id s)); ("compute_type", JString (ps_compute_type s));
               ("track_settings", JObject (bt_map (fun _ => track_body) (ps_track_settings s)))].
Definition fixture_document (s : PrecommitSubmission) (expected : string) : Value :=
  json_object [("expected_bytes", JString expected); ("input", fixture_input s)].
Lemma fixture_track_body acc k s : bt_wf (ts_hyperparameters s) -> fixture_track acc (k, track_body s) = Ok (bt_insert k s acc).
Proof.
  intros Hwf. unfold fixture_track, fixture_number. destruct s as [b f h]. simpl in *. by rewrite !bt_collect_id by (done || apply bt_collect_wf).
Qed.
Lemma submission_from_input s : submission_wf s -> submission_from (fixture_input s) = Ok s.
Proof.
  intros [Hwf Hh]. unfold submission_from.
  change (json_get "track_settings" (fixture_input s)) with (Some (JObject (bt_map (fun _ => track_body) (ps_track_settings s)))). cbn [and_then json_as_object ok_or].
  assert (Hf : forall l acc, Forall (fun kv => bt_wf (ts_hyperparameters kv.2)) l ->
    foldM fixture_track acc (bt_map (fun _ => track_body) l) = Ok (fold_left (fun m kv => bt_insert kv.1 kv.2 m) l acc)).
  { induction l as [|[k t] l IH]; intros acc Hl; [done|]. inversion Hl as [|?? Ht Hl']; subst. unfold bt_map. cbn [map foldM fst snd fold_left].
    rewrite fixture_track_body by done. by apply IH. }
  rewrite Hf by done. fold (bt_collect (ps_track_settings s)). rewrite bt_collect_id by done. by destruct s.
Qed.
(** The canonical fixture pins the rendering byte for byte: for the document of
    any submission, the check holds exactly when the body the gateway would send
    for it prints as the recorded bytes. *)
Theorem canonical_fixture_exact from_str to_string document s expected :
  submission_wf s -> from_str document = Ok (fixture_document s expected) ->
  canonical_holds from_str to_string document = Ok tt <-> to_string (precommit_body s) = expected.
Proof.
  intros Hwf Hdoc. unfold canonical_holds. rewrite Hdoc. cbn [map_err].
  change (and_then (json_get "expected_bytes" (fixture_document s expected)) json_as_str) with (Some expected).
  change (json_get "input" (fixture_document s expected)) with (Some (fixture_input s)). cbn [ok_or]. rewrite submission_from_input by done.
  cbn -[precommit_body]. destruct (String.eqb_spec (to_string (precommit_body s)) expected); split; congruence.
Qed.
Example canonical_fixture_exact_witness :
  canonical_holds (fun _ => Ok (fixture_document Payload.sample_submission "x")) (fun _ => "x") "doc" = Ok tt.
Proof. apply (canonical_fixture_exact _ (fun _ => "x") "doc" Payload.sample_submission "x"); [split; repeat constructor|reflexivity|reflexivity]. Defined.
