(* ===== verification/GatewayService.v ===== *)
(** * Running the gateway: [crates/tig-gateway/src/service.rs]

    The nine observations gathered and judged, the order in which a start can
    fail, and the loop that makes one pass after another.  What lies outside
    the process -- the pinned documents' parser, TIG's answers, the key file,
    the database connection, the operating system's randomness -- is an
    argument. *)
From stdpp Require Import pretty.
From S2P Require Import Prelude Text BTreeMap Json ReadPolicy ReadCache ReadClient Domain Workflow Store Intent Lease Attempt Payload Admission Acceptance Reconcile Restart System Bind.
From S2P Require Import Config KeyFile Readiness WriteGate PostLane Claim Transmit Gateway Sends Drive Evidence.
Open Scope Z_scope.

(** ** Texts *)

Definition Check_name (c : Check) : string :=
  match c with
  | ConfigNetwork => "ConfigNetwork" | UpstreamCommit => "UpstreamCommit" | ContainerDigests => "ContainerDigests"
  | OpenApiChecksum => "OpenApiChecksum" | ResponseModels => "ResponseModels" | ChallengeRuntimes => "ChallengeRuntimes"
  | SerializationFixtures => "SerializationFixtures" | ApiKeyIsolation => "ApiKeyIsolation" | PlayerIdentity => "PlayerIdentity"
  end.
(** [Display for Check]. *)
Definition Check_fmt (c : Check) : string := format ["§13 check "; pretty (Check_number c); " ("; Check_name c; ")"].
Definition refused_message (failures : list Failure) : string :=
  format ["§13 refused this deployment: "; String.concat ", " (map (fun f => Check_fmt (fl_check f)) failures)].

Definition hostname (contents : option string) : option string :=
  match contents with
  | None => None
  | Some name => let name := unicode_trim name in if is_empty name then None else Some name
  end.
Definition lease_owner (pid : N) (host : option string) (nonce : N) : string :=
  format ["tig-gateway/"; pretty pid; "@"; default "unknown" host; "/"; pretty nonce].

Inductive Level := Warn | Info | Debug.
Record OutcomeLine := MkOutcomeLine {
  ol_level : Level; ol_intent_id : Uuid; ol_workflow_id : string; ol_generation : Z; ol_attempt_id : option Uuid;
  ol_benchmark_id : string; ol_trace_id : string; ol_decision : option ClaimDecision; ol_acted : Acted }.
(** [attempt_id] is logged as ["-"] where there is none. *)
Definition report_outcome (o : IntentOutcome) : OutcomeLine :=
  MkOutcomeLine (match notability (io_decision o) (io_acted o) with Operator => Warn | Effect => Info | Routine => Debug end)
    (io_intent_id o) (io_workflow_id o) (io_generation o) (attempt_id o) (default "-" (benchmark_id o))
    (match io_trace_id o with Some t => TraceId_to_hex t | None => "-" end) (io_decision o) (io_acted o).

(** ** The gate *)

Record Surroundings := MkSurroundings {
  su_answers : Answers; su_fetch : string -> Fetched; su_metadata : string -> result string FileMeta; su_status : result string string }.
Inductive GateError := PinnedUnparseable (e : string) | PinsUnusable (e : PinError) | Refused (failures : list Failure).
Inductive RunError :=
| RunNoTig | RunNoGateway | RunNetwork (found : string) | RunReadPolicy (e : PolicyError) | RunWritePolicy (e : WritePolicyError)
| RunKey (e : CredentialError) | RunClient (why : string) | RunLease (e : DriveError) | RunGate (e : GateError)
| RunDatabaseUrl (e : ConfigError) | RunConnect | RunTransmitter | RunNonce.

Section service.
Context (debug : string -> string) (parse_int_error : string -> string) (from_str : string -> result string Value) (to_string : Value -> string)
  (sha256 : string -> list Z) (PINNED LOSSLESS BODY : string).

Definition gather (su : Surroundings) (tig : TigConfig) (gateway : GatewayConfig) (network : Network) (key : list Z) (pins : Pins) : Evidence :=
  let anchor := anchor_block (su_answers su) 0 in
  let at_anchor {A} (f : string -> Z -> result string A) : result string A := let? (block, round) := anchor in f block round in
  MkEvidence (Ok network) (acquired_upstream_commit (tg_acquired_upstream_commit tig))
    (Ok (unresolved_containers (tg_unresolved_containers_acknowledged tig)))
    (let? url := pinned_openapi_url (from_str PINNED) in openapi_checksum sha256 (su_fetch su) url)
    (at_anchor (fun block _ => response_models (su_answers su) 1 block (tg_player_id tig)))
    (at_anchor (fun block round => active_challenge_runtimes debug (su_answers su) 6 block round (pin_image_names pins) (string_set (gw_served_compute gateway))))
    (serialization_fixtures debug from_str to_string LOSSLESS BODY)
    (api_key_placement debug parse_int_error (is_present key) (su_metadata su) (su_status su) (gw_api_key_file gateway))
    (at_anchor (fun block _ => confirmed_pool_player_id (su_answers su) 7 block (tg_player_id tig))).
Definition gate_evidence (su : Surroundings) (tig : TigConfig) (gateway : GatewayConfig) (network : Network) (key : list Z) : result GateError WriteReady :=
  let? value := map_err PinnedUnparseable (from_str PINNED) in
  let? pins := map_err PinsUnusable (compiled_in value (tg_player_id tig) (gw_platform gateway)) in
  map_err Refused (evaluate pins (gather su tig gateway network key pins)).

(** ** The start, and the loop *)

Context (complaint : Value -> string) (wire_of : Value -> result string Wire) (read_to_string : string -> option string)
  (connect : string -> bool) (transmitter_builds : string -> WritePolicy -> bool).
Record Host := MkHost {
  ho_open : string -> Opened; ho_oversized : string; ho_not_utf8 : string; ho_pid : N; ho_name : option string; ho_nonce : option N }.
Record Serving := MkServing { sv_driver : Driver; sv_gate : Inner; sv_interval : Z }.

(** [None] is the end of [check]: the gate passed and nothing is served. *)
Definition run_startup (fresh : N) (reg : Registry) (su : Surroundings) (host : Host) (config : Config) (check_only : bool)
  : result RunError (option Serving) :=
  let? tig := ok_or (cf_tig config) RunNoTig in
  let? gateway := ok_or (cf_gateway config) RunNoGateway in
  let? network := map_err RunNetwork (Network_from_str (Network_as_str (cf_network config))) in
  let? read_policy := map_err RunReadPolicy (ReadPolicy.from_config_json from_str complaint PINNED) in
  let? write_policy := map_err RunWritePolicy (write_policy_from_config_json from_str wire_of PINNED) in
  let? key := map_err RunKey (load_api_key (ho_open host) (ho_oversized host) (ho_not_utf8 host) (gw_api_key_file gateway)) in
  let? _ := map_err RunClient (client_new fresh (tg_base_url tig) read_policy (for_reader read_policy Gateway) reg) in
  let? _ := map_err RunLease (lease_outlasts_call (gw_lease_secs gateway) (call_timeout write_policy / NANOS)) in
  let? ready := map_err RunGate (gate_evidence su tig gateway network key) in
  if check_only then Ok None
  else
    let? url := map_err RunDatabaseUrl (database_url read_to_string config) in
    if negb (connect url) then Err RunConnect
    else if negb (transmitter_builds (tg_base_url tig) write_policy) then Err RunTransmitter
    else
      let? nonce := ok_or (ho_nonce host) RunNonce in
      let owner := lease_owner (ho_pid host) (hostname (ho_name host)) nonce in
      Ok (Some (MkServing (MkDriver network (tg_player_id tig) owner (gw_lease_secs gateway) (gw_served_compute gateway) (call_timeout write_policy / NANOS) None)
                 (open_gate ready) (po_block_poll_interval read_policy))).

Definition confirmed_precommits (answers : Answers) (player_id : string) : result string (list Value) :=
  let? (block, _) := anchor_block answers 0 in
  let? body := read_at answers 1 "get-benchmarks" (format ["/get-benchmarks?block_id="; block; "&player_id="; player_id]) in
  Ok (default [] (and_then (json_get "precommits" body) json_as_array)).
(** One turn of the loop: what TIG answered to its two reads, what the other
    components committed since the last turn and do meanwhile. *)
Record Turn := MkTurn { tn_answers : Answers; tn_before : Db -> Db; tn_moments : nat -> Moment }.
Context (uuid_text : Uuid -> string) (status_text : Z -> string) (pinned : Value) (error_text : HandleError -> string).
Definition loop_turn (d : Driver) (turn : Turn) (st : State) : list OutcomeLine * State :=
  let st := MkState (tn_before turn (st_db st)) (st_gate st) (st_sent st) in
  match confirmed_precommits (tn_answers turn) (dv_player_id d) with
  | Err _ => ([], st)
  | Ok window =>
      match run_once sha256 to_string uuid_text status_text pinned error_text d (tn_moments turn) window st with
      | (Ok report, st') => (map report_outcome report, st')
      | (Err _, st') => ([], st')
      end
  end.
Definition serve (d : Driver) (turns : list Turn) (st : State) : State := fold_left (fun st turn => (loop_turn d turn st).2) turns st.
End service.

(** ** What a deployment must show *)

Section gate.
Context (debug : string -> string) (parse_int_error : string -> string) (from_str : string -> result string Value) (to_string : Value -> string)
  (sha256 : string -> list Z) (PINNED LOSSLESS BODY : string).
Record opens (su : Surroundings) (tig : TigConfig) (gateway : GatewayConfig) (network : Network) (key : list Z)
    (pins : Pins) (block : string) (round : Z) (reason : string) : Prop := {
  op_pins : exists value, from_str PINNED = Ok value /\ compiled_in value (tg_player_id tig) (gw_platform gateway) = Ok pins;
  op_network : network = Testnet /\ pin_network pins = Testnet;
  op_commit : tg_acquired_upstream_commit tig = pin_upstream_commit pins /\ pin_upstream_commit pins <> "";
  op_containers : tg_unresolved_containers_acknowledged tig = Some reason /\ trim_is_empty reason = false;
  op_openapi : exists value url bytes, from_str PINNED = Ok value /\ str_at ["upstream"; "openapi"; "url"] value = Some url /\
    su_fetch su url = FetchedBody bytes /\ to_hex (sha256 bytes) = pin_openapi_sha256 pins;
  op_anchor : anchored (su_answers su) 0 block round;
  op_models : models_present (su_answers su) 1 block (tg_player_id tig);
  op_challenges : scope_reviewed (su_answers su) 6 block round (pin_image_names pins) (string_set (gw_served_compute gateway));
  op_fixtures : lossless_holds debug from_str LOSSLESS = Ok tt /\ canonical_holds from_str to_string BODY = Ok tt;
  op_key : is_present key = true /\ exists meta uid, su_metadata su (gw_api_key_file gateway) = Ok meta /\
    effective_uid debug parse_int_error (su_status su) = Ok uid /\ Z.land (fm_mode meta) 63 = 0 /\ fm_uid meta = uid;
  op_player : exists body, su_answers su 7%nat (player_query block (tg_player_id tig)) = Ok body /\ str_at ["player"; "id"] body = Some (tg_player_id tig);
}.
Abbreviation gather := (gather debug parse_int_error from_str to_string sha256 PINNED LOSSLESS BODY).

Lemma compiled_in_player value id platform pins : compiled_in value id platform = Ok pins -> pin_pool_player_id pins = id.
Proof.
  unfold compiled_in. repeat (match goal with |- context [let? _ := ?m in _] => destruct m; cbn; [|done] end). by intros [= <-].
Qed.
Lemma result_is_ok_unit (r : result string unit) : result_is_ok r = true <-> r = Ok tt.
Proof. destruct r as [[]|e]; by split. Qed.

Lemma gather_passes su tig gateway network key pins value :
  from_str PINNED = Ok value -> compiled_in value (tg_player_id tig) (gw_platform gateway) = Ok pins ->
  (forall c, passes pins (gather su tig gateway network key pins) c) <-> exists block round reason, opens su tig gateway network key pins block round reason.
Proof.
  intros Hval Hpins. pose proof (compiled_in_player _ _ _ _ Hpins) as Hid. split.
  - intros Hall. destruct (anchor_block (su_answers su) 0) as [[block round]|e] eqn:Ha.
    2:{ pose proof (Hall PlayerIdentity) as Hp. cbn in Hp. rewrite Ha in Hp. done. }
    pose proof (Hall ContainerDigests) as (obs & [= <-] & reason & Hr & Hb).
    exists block, round, reason. constructor.
    + by exists value.
    + destruct (Hall ConfigNetwork) as [[= Hn] Hp]. done.
    + pose proof (Hall UpstreamCommit) as Hc. cbn in Hc. unfold acquired_upstream_commit in Hc.
      destruct (Nat.eqb_spec (String.length (tg_acquired_upstream_commit tig)) 0) as [H0|H0]; [done|]. injection Hc as Hc. rewrite <- Hc.
      split; [done|]. intros He. by rewrite He in H0.
    + done.
    + destruct (Hall OpenApiChecksum) as (o & Ho & Hs). cbn in Ho. unfold pinned_openapi_url in Ho. rewrite Hval in Ho. cbn [map_err] in Ho.
      destruct (and_then _ json_as_str) as [url|] eqn:Hu; [|done]. cbn in Ho. unfold openapi_checksum in Ho.
      destruct (su_fetch su url) as [| | |bytes] eqn:Hf; try done. injection Ho as <-. cbn in Hs. injection Hs as Hs. by exists value, url, bytes.
    + by apply anchor_block_Ok.
    + apply response_models_pass. destruct (Hall ResponseModels) as (vs & Hvs & Hv). cbn in Hvs. rewrite Ha in Hvs. by exists vs.
    + apply (active_challenge_runtimes_pass debug). destruct (Hall ChallengeRuntimes) as (cs & Hcs & Hc). cbn in Hcs. rewrite Ha in Hcs. by exists cs.
    + destruct (Hall SerializationFixtures) as (o & [= <-] & H1 & H2). cbn in H1, H2. rewrite !result_is_ok_unit in *. done.
    + apply (api_key_placement_private debug parse_int_error). exact (Hall ApiKeyIsolation).
    + apply (confirmed_pool_player_id_Ok _ 7 block (tg_player_id tig)). pose proof (Hall PlayerIdentity) as Hp. cbn in Hp. rewrite Ha, Hid in Hp. done.
  - intros (block & round & reason & Hop). destruct Hop. apply anchor_block_Ok in op_anchor0 as Ha. intros [].
    + destruct op_network0 as [-> ?]. done.
    + destruct op_commit0 as [Hc Hne]. cbn. unfold acquired_upstream_commit. rewrite Hc.
      destruct (Nat.eqb_spec (String.length (pin_upstream_commit pins)) 0) as [H0|H0]; [|done]. by destruct (pin_upstream_commit pins).
    + destruct op_containers0 as [Hr Hb]. eexists. split; [reflexivity|]. cbn. by exists reason.
    + destruct op_openapi0 as (v & url & bytes & Hv & Hu & Hf & Hs). exists (MkOpenApiObservation (Some (to_hex (sha256 bytes))) None). cbn. split; [|by rewrite Hs].
      unfold pinned_openapi_url. rewrite Hv. cbn [map_err]. unfold str_at in Hu. rewrite Hu. cbn. unfold openapi_checksum. by rewrite Hf.
    + cbn. rewrite Ha. by apply response_models_pass.
    + cbn. rewrite Ha. by apply (active_challenge_runtimes_pass debug).
    + destruct op_fixtures0 as [H1 H2]. eexists. split; [reflexivity|]. cbn. by rewrite H1, H2.
    + by apply (api_key_placement_private debug parse_int_error).
    + cbn. rewrite Ha, Hid. by apply (confirmed_pool_player_id_Ok _ 7 block (tg_player_id tig)).
Qed.
Lemma evaluate_granted pins ev : (forall c, passes pins ev c) -> evaluate pins ev = Ok (MkWriteReady Testnet (pin_upstream_commit pins) (acknowledged ev)).
Proof.
  intros Hall. destruct (evaluate pins ev) as [ready|failures] eqn:E.
  - destruct (evaluate_Ok _ _ _ E) as (_ & -> & _). done.
  - destruct (evaluate_Err _ _ _ E) as (Hne & Hin & _). apply all_failures_nil in Hall. destruct failures as [|f fs]; [done|].
    assert (H : f ∈ all_failures pins ev) by (apply Hin; left). rewrite Hall in H. by apply not_elem_of_nil in H.
Qed.
Lemma gate_evidence_Ok su tig gateway network key ready :
  gate_evidence debug parse_int_error from_str to_string sha256 PINNED LOSSLESS BODY su tig gateway network key = Ok ready <->
  exists pins block round reason, opens su tig gateway network key pins block round reason /\
    ready = MkWriteReady Testnet (pin_upstream_commit pins) (Some reason).
Proof.
  unfold gate_evidence. split.
  - destruct (from_str PINNED) as [value|e] eqn:Hval; [|done]. cbn [map_err].
    destruct (compiled_in value (tg_player_id tig) (gw_platform gateway)) as [pins|e] eqn:Hpins; [|done]. cbn [map_err].
    destruct (evaluate pins _) as [r|f] eqn:He; [|done]. intros [= <-]. destruct (evaluate_Ok _ _ _ He) as (Hall & -> & _).
    apply (gather_passes _ _ _ _ _ _ value) in Hall as (block & round & reason & Hop); [|done..].
    exists pins, block, round, reason. split; [done|]. f_equal. unfold acknowledged. cbn. by destruct (op_containers _ _ _ _ _ _ _ _ _ Hop) as [-> _].
  - intros (pins & block & round & reason & Hop & ->). destruct (op_pins _ _ _ _ _ _ _ _ _ Hop) as (value & Hval & Hpins).
    rewrite Hval. cbn [map_err]. rewrite Hpins. cbn [map_err]. rewrite evaluate_granted.
    + cbn. unfold acknowledged. cbn. by destruct (op_containers _ _ _ _ _ _ _ _ _ Hop) as [-> _].
    + apply (gather_passes _ _ _ _ _ _ value); [done..|]. by exists block, round, reason.
Qed.
End gate.

(** ** Lease owners *)

Lemma last_piece_unique c a b x y : avoids c x -> avoids c y -> String.append a (String c x) = String.append b (String c y) -> x = y.
Proof.
  assert (Hno : forall z b', avoids c z -> z = String.append b' (String c y) -> avoids c y -> False).
  { intros z b' Hz -> _. unfold avoids in Hz. rewrite all_bytes_app in Hz. cbn in Hz. rewrite Ascii.eqb_refl in Hz. cbn in Hz. by rewrite andb_false_r in Hz. }
  revert b. induction a as [|d a IH]; intros b Hx Hy E; destruct b as [|d' b]; cbn in E.
  - by injection E.
  - injection E as <- E. exfalso. by eapply (Hno x b).
  - injection E as -> E. exfalso. unfold avoids in Hy. rewrite <- E, all_bytes_app in Hy. cbn in Hy. rewrite Ascii.eqb_refl in Hy. by rewrite andb_false_r in Hy.
  - injection E as _ E. by apply (IH b).
Qed.
Lemma lease_owner_shape pid host nonce :
  lease_owner pid host nonce = String.append (format ["tig-gateway/"; pretty pid; "@"; default "unknown" host]) (String SLASH (pretty nonce)).
Proof. unfold lease_owner, format. cbn [String.concat]. rewrite !append_assoc. done. Qed.

(** ** Serving *)

Section serving.
Context (to_string : Value -> string) (sha256 : string -> list Z) (uuid_text : Uuid -> string) (status_text : Z -> string) (pinned : Value)
  (error_text : HandleError -> string) (L : Z).
Definition turn_surrounded (turn : Turn) : Prop := (forall db, rtc (others L) db (tn_before turn db)) /\ forall i, surrounded L (tn_moments turn i).
Abbreviation reach := (gw_reachable sha256 to_string uuid_text status_text pinned L).
Abbreviation run_step := (gw_step sha256 to_string uuid_text status_text pinned L).
Abbreviation turn_of := (loop_turn to_string sha256 uuid_text status_text pinned error_text).
Lemma loop_turn_runs d turn st : 0 <= L -> turn_surrounded turn -> permits_fit (st_gate st) -> reach (at_rest st) ->
  rtc run_step (at_rest st) (at_rest (turn_of d turn st).2) /\ st_gate (turn_of d turn st).2 = st_gate st.
Proof.
  intros HL [Hb Hmo] Hg Hr. unfold loop_turn. set (st1 := MkState _ _ _).
  assert (H1 : rtc run_step (at_rest st) (at_rest st1)) by (by apply others_run, Hb).
  assert (Hr1 : reach (at_rest st1)) by by eapply rtc_trans.
  destruct (confirmed_precommits _ _) as [window|e]; [|done].
  destruct (run_once _ _ _ _ _ _ d (tn_moments turn) window st1) as [r st2] eqn:E.
  assert (H : rtc run_step (at_rest st) (at_rest st2) /\ st_gate st2 = st_gate st); [|by destruct r]. split.
  - eapply rtc_trans; [exact H1|]. by eapply run_once_runs.
  - eapply (run_kind_tidy error_text _ _ _ _ st1); [|done|exact E]. intros mo intent. apply under_lease_tidy. intros held. apply handle_held_tidy.
Qed.
Lemma serve_runs d turns : 0 <= L -> Forall turn_surrounded turns -> forall st, permits_fit (st_gate st) -> reach (at_rest st) ->
  rtc run_step (at_rest st) (at_rest (serve to_string sha256 uuid_text status_text pinned error_text d turns st)) /\
  st_gate (serve to_string sha256 uuid_text status_text pinned error_text d turns st) = st_gate st.
Proof.
  intros HL. induction 1 as [|turn turns Ht _ IH]; intros st Hg Hr; [done|]. unfold serve. cbn [fold_left].
  destruct (loop_turn_runs d turn st HL Ht Hg Hr) as [H1 Hg1]. rewrite <- Hg1.
  destruct (IH (turn_of d turn st).2) as [H2 Hg2]; [by rewrite Hg1|by eapply rtc_trans|]. split; [by eapply rtc_trans|exact Hg2].
Qed.
End serving.

(** ** Theorems *)

(** C10. The gate opens for exactly the deployments that show all nine things, judged
    at one block: testnet in the configuration and in the pinned file; the
    acquired commit the pinned one; a reason given for the unresolved
    containers; the published specification's hash the reviewed one; every
    collection in the body that answered its read; a pinned runtime for every
    active challenge of a served type, every served type one TIG declares; both
    serialization fixtures holding; a key file no one but this process's user
    may read; and a player of the configured id at TIG. *)
Theorem gate_opens_exactly debug parse_int_error from_str to_string sha256 PINNED LOSSLESS BODY su tig gateway network key ready :
  gate_evidence debug parse_int_error from_str to_string sha256 PINNED LOSSLESS BODY su tig gateway network key = Ok ready <->
  exists pins block round reason, opens debug parse_int_error from_str to_string sha256 PINNED LOSSLESS BODY su tig gateway network key pins block round reason /\
    ready = MkWriteReady Testnet (pin_upstream_commit pins) (Some reason).
Proof. apply gate_evidence_Ok. Qed.

(** Two starts never present the same lease owner: the owner's text determines
    the nonce drawn from the operating system, whatever the process id and the
    host name are. *)
Theorem lease_owner_names_the_start pid host nonce pid' host' nonce' :
  lease_owner pid host nonce = lease_owner pid' host' nonce' -> nonce = nonce'.
Proof.
  rewrite !lease_owner_shape. intros E%last_piece_unique; [|by apply pretty_avoids..]. by apply (inj pretty) in E.
Qed.
Example lease_owner_names_the_start_witness : lease_owner 1 (hostname None) 7 = lease_owner 1 (hostname (Some "unknown ")) 7 /\ (7 = 7)%N.
Proof. split; [vm_compute; reflexivity|]. apply (lease_owner_names_the_start 1 None 7 1 None 7). reflexivity. Defined.

(** C4. A gateway that serves has passed the gate, and serves safely.  If the start
    succeeds then the deployment showed everything the gate asks for, the gate
    it holds carries exactly that readiness, and its lease outlasts a call, so
    that no later pass refuses for it; and from there, started on any database
    and record of requests the interleaved model reaches -- an empty one, or what
    earlier starts left behind, stopped wherever they were -- whatever TIG answers
    and the other components commit between its statements, its loop is a run of
    that model: nothing recorded before is taken back, the state it leaves is again
    one the model reaches, with the gate as it was and no permit outstanding. *)
Theorem serving_gateway_is_safe debug parse_int_error from_str to_string sha256 PINNED LOSSLESS BODY complaint wire_of read_to_string connect builds
    fresh reg su host config sv :
  run_startup debug parse_int_error from_str to_string sha256 PINNED LOSSLESS BODY complaint wire_of read_to_string connect builds
    fresh reg su host config false = Ok (Some sv) ->
  (exists tig gateway key pins block round reason, cf_tig config = Some tig /\ cf_gateway config = Some gateway /\
     load_api_key (ho_open host) (ho_oversized host) (ho_not_utf8 host) (gw_api_key_file gateway) = Ok key /\
     opens debug parse_int_error from_str to_string sha256 PINNED LOSSLESS BODY su tig gateway (cf_network config) key pins block round reason /\
     sv_gate sv = open_gate (MkWriteReady Testnet (pin_upstream_commit pins) (Some reason))) /\
  check_lease (sv_driver sv) = Ok tt /\
  forall uuid_text status_text pinned error_text L db sent turns, 0 <= L -> Forall (turn_surrounded L) turns ->
    gw_reachable sha256 to_string uuid_text status_text pinned L (MkWorld db ∅ sent) ->
    let st := serve to_string sha256 uuid_text status_text pinned error_text (sv_driver sv) turns (MkState db (sv_gate sv) sent) in
    rtc (gw_step sha256 to_string uuid_text status_text pinned L) (MkWorld db ∅ sent) (at_rest st) /\ history_le db (st_db st) /\
    gw_reachable sha256 to_string uuid_text status_text pinned L (at_rest st) /\ st_gate st = sv_gate sv.
Proof.
  intros Hs. unfold run_startup in Hs.
  destruct (cf_tig config) as [tig|] eqn:Et; [|done]. destruct (cf_gateway config) as [gateway|] eqn:Eg; [|done]. cbn [ok_or] in Hs.
  assert (Hn : Network_from_str (Network_as_str (cf_network config)) = Ok (cf_network config)) by (by destruct (cf_network config)).
  rewrite Hn in Hs. cbn [map_err] in Hs. destruct (ReadPolicy.from_config_json _ _ _) as [rp|]; [|done]. cbn [map_err] in Hs.
  destruct (write_policy_from_config_json _ _ _) as [wp|]; [|done]. cbn [map_err] in Hs.
  destruct (load_api_key _ _ _ _) as [key|] eqn:Ek; [|done]. cbn [map_err] in Hs. destruct (client_new _ _ _ _ _); [|done]. cbn [map_err] in Hs.
  destruct (lease_outlasts_call _ _) as [[]|] eqn:Hl; [|done]. cbn [map_err] in Hs. destruct (gate_evidence _ _ _ _ _ _ _ _ _ _ _ _ _) as [ready|] eqn:Hg; [|done].
  cbn [map_err] in Hs. destruct (database_url _ _); [|done]. cbn [map_err] in Hs. destruct (negb (connect _)); [done|]. destruct (negb (builds _ _)); [done|].
  destruct (ho_nonce host) as [nonce|]; [|done]. cbn in Hs. injection Hs as <-. cbn [sv_gate sv_driver].
  apply gate_evidence_Ok in Hg as (pins & block & round & reason & Hop & ->). split; [|split; [exact Hl|]].
  - exists tig, gateway, key, pins, block, round, reason. done.
  - intros uuid_text status_text pinned error_text L db sent turns HL Ht Hr.
    match goal with |- context [serve _ _ _ _ _ _ ?d turns ?s] =>
      destruct (serve_runs to_string sha256 uuid_text status_text pinned error_text L d turns HL Ht s) as [Hrun Hgate] end; [done|exact Hr|].
    split_and!; [exact Hrun|exact (gw_history _ _ _ _ _ _ _ _ HL Hr Hrun)|by eapply rtc_trans|exact Hgate].
Qed.

(** ** A deployment that serves *)

Definition ex_pins_file : Value :=
  JObject (bt_insert "write_limits" JNull (bt_insert "network" (json_object [("name", JString "testnet")])
    (bt_insert "images" (json_object [("knapsack_runtime", json_object [("reference", JString "r"); ("manifest_digest", JString "d")])])
    (bt_insert "upstream" (json_object [("commit", JString "abc"); ("openapi", json_object [("sha256", JString (to_hex digest_a)); ("url", JString "http://spec")])])
      (default bt_empty (json_as_object (limits_document 1 1))))))).
Definition ex_from_str (text : string) : result string Value :=
  if String.eqb text "pinned" then Ok ex_pins_file
  else if String.eqb text "lossless"
  then Ok (json_object [("integers", json_object [("a", json_u64 9007199254740993)]); ("precise_numbers", json_object [("b", JString "10")])])
  else Ok (fixture_document Payload.sample_submission "body").
Definition ex_challenge : Value :=
  json_object [("id", JString "c003"); ("config", json_object [("type", JString "cpu"); ("name", JString "knapsack")]);
               ("state", json_object [("round_active", json_u64 4)])].
Definition ex_answers : Answers := fun _ path =>
  Ok (json_object [("block", json_object [("id", JString "b1"); ("details", json_object [("round", json_u64 5)])]);
                   ("challenges", JArray [ex_challenge]); ("codes", JNull); ("binarys", JNull); ("advances", JNull); ("opow", JNull);
                   ("precommits", JArray []); ("benchmarks", JNull); ("proofs", JNull); ("frauds", JNull);
                   ("player", json_object [("id", JString "0xpool")])]).
Definition ex_status : string := String.append "Name: gw" (String nl (String.append "Uid: 0 1000 1000 1000" (String nl EmptyString))).
Definition ex_surroundings : Surroundings :=
  MkSurroundings ex_answers (fun _ => FetchedBody "spec") (fun _ => Ok (MkFileMeta 33152 1000)) (Ok ex_status).
Definition ex_host : Host := MkHost (fun _ => KeyFile.sample_file 33152 "secret") "" "" 1 None (Some 7%N).
Definition ex_gateway_config : Config :=
  MkConfiguration Testnet (MkDatabaseConfig "db" 5432 "pool" "pool_gateway" "/run/pw" 30000 5000) (MkTelemetryConfig LogJson "info" "dev")
    (Some (MkTigConfig "http://127.0.0.1:8080" "0xpool" "abc" (Some "no members yet"))) None (Some (MkGatewayConfig "/run/key" 90 "linux/amd64" ["cpu"])) None.
Definition ex_run := run_startup (fun s => s) (fun _ => "") ex_from_str (fun _ => "body") sample_sha "pinned" "lossless" "canonical" (fun _ => "")
  (fun _ => Ok (MkWire 5 60 1 60)) (fun _ => Some "pw") (fun _ => true) (fun _ _ => true) 7%N ∅.
(** Two turns on a database with an admitted precommit: the first sends it, and
    what became of it is not known. *)
Definition ex_turn : Turn := MkTurn ex_answers (fun db => db) (fun _ => quiet_moment).
Definition ex_serve (sv : Serving) : State :=
  serve (fun _ => "body") sample_sha (fun _ => "") (fun _ => "") sample_pinned (fun _ => "") (sv_driver sv) [ex_turn; ex_turn] (MkState sample_admitted (sv_gate sv) []).
Lemma ex_turn_surrounded : turn_surrounded 3 ex_turn.
Proof. split; [done|]. intros i. exact quiet_surrounded. Qed.
Example serving_gateway_is_safe_witness :
  exists sv, ex_run ex_surroundings ex_host ex_gateway_config false = Ok (Some sv) /\ dv_lease_owner (sv_driver sv) = "tig-gateway/1@unknown/7" /\
    st_sent (ex_serve sv) = [MkRequest "submit-precommit" (precommit_body sample_submission) 2 7] /\
    history_le sample_admitted (st_db (ex_serve sv)).
Proof.
  eexists. split; [vm_compute; reflexivity|]. split; [reflexivity|]. split; [vm_compute; reflexivity|].
  edestruct (serving_gateway_is_safe (fun s => s) (fun _ => "") ex_from_str (fun _ => "body") sample_sha "pinned" "lossless" "canonical" (fun _ => "")
    (fun _ => Ok (MkWire 5 60 1 60)) (fun _ => Some "pw") (fun _ => true) (fun _ _ => true) 7%N ∅ ex_surroundings ex_host ex_gateway_config) as (_ & _ & H);
    [vm_compute; reflexivity|].
  destruct (H (fun _ => "") (fun _ => "") sample_pinned (fun _ => "") 3 sample_admitted [] [ex_turn; ex_turn]) as (_ & Hh & _);
    [lia|by repeat constructor; apply ex_turn_surrounded|apply sample_admitted_reached|exact Hh].
Defined.
(** A key file of the right mode whose owner is someone else is refused, by check 8 alone. *)
Example key_of_another_owner_is_refused :
  match ex_run (MkSurroundings ex_answers (fun _ => FetchedBody "spec") (fun _ => Ok (MkFileMeta 33152 1001)) (Ok ex_status)) ex_host ex_gateway_config true with
  | Err (RunGate (Refused failures)) => map fl_check failures = [ApiKeyIsolation]
  | _ => False
  end.
Proof. vm_compute. reflexivity. Qed.
