(* ===== verification/Admin.v ===== *)
(** * The migration job: [crates/pool-admin/src/main.rs]

    What [pool-admin migrate] refuses, plans and reports.  The ledger is the
    table [_sqlx_migrations]; reading it, connecting and SQLx's own [run] are
    arguments.  Everything happens between taking and dropping one advisory
    lock, so between the two reads of the ledger only this process's [run]
    changes it. *)
From S2P Require Import Prelude Text BTreeMap Json Domain Config.
Open Scope Z_scope.

Record Migration := MkMigration { mg_version : Z; mg_description : string; mg_checksum : list Z }.
(** A row of [_sqlx_migrations]. *)
Record Applied := MkApplied { ap_version : Z; ap_checksum : list Z; ap_success : bool }.
Inductive Ledger := LedgerRows (rows : list Applied) | LedgerUndefined | LedgerUnreadable (e : string).

Inductive MigrateError :=
| MgUrl (e : ConfigError) | MgConnect (e : string) | MgAcquire (e : string) | MgLock (e : string) | MgUnreadable (e : string)
| MgPartial (version : Z) | MgModified (version : Z) (description : string) | MgAbsent (version : Z) | MgFailed (e : string) | MgUnconfirmed (e : string).
Record MigrateReport := MkMigrateReport { mr_applied : nat; mr_pending : list Migration; mr_applied_now : option nat }.

Section migrate.
Context (MIGRATOR : list Migration).

Definition verify_one (row : Applied) : result MigrateError unit :=
  if negb (ap_success row) then Err (MgPartial (ap_version row))
  else match List.find (fun m => mg_version m =? ap_version row) MIGRATOR with
       | Some m => if negb (bool_decide (mg_checksum m = ap_checksum row)) then Err (MgModified (ap_version row) (mg_description m)) else Ok tt
       | None => Err (MgAbsent (ap_version row))
       end.
Definition verify (applied : list Applied) : result MigrateError unit := foldM (fun _ row => verify_one row) tt applied.
Definition pending (applied_versions : list Z) : list Migration :=
  filter (fun m => mg_version m ∉ applied_versions) MIGRATOR.
Definition read_applied (l : Ledger) : result MigrateError (list Applied) :=
  match l with
  | LedgerRows rows => Ok rows
  | LedgerUndefined => Ok []
  | LedgerUnreadable e => Err (MgUnreadable e)
  end.

(** What the job finds outside: the outcomes of connecting, of acquiring a
    connection and of taking the lock, the ledger before, [run] on it, and the
    confirming read. *)
Record Database := MkDatabase {
  dt_connect : option string; dt_acquire : option string; dt_lock : option string; dt_ledger : Ledger;
  dt_run : list Applied -> result string (list Applied); dt_confirm : list Applied -> result string (list Z) }.
Definition migrate (read_to_string : string -> option string) (d : Database) (config : Config) (dry_run : bool) : result MigrateError MigrateReport :=
  let? _ := map_err MgUrl (database_url read_to_string config) in
  let fails {A} (e : option string) (inj : string -> MigrateError) (k : result MigrateError A) : result MigrateError A :=
    match e with Some e => Err (inj e) | None => k end in
  fails (dt_connect d) MgConnect (fails (dt_acquire d) MgAcquire (fails (dt_lock d) MgLock (
    let? applied := read_applied (dt_ledger d) in
    let applied_versions := map ap_version applied in
    let? _ := verify applied in
    let plan := pending applied_versions in
    if dry_run then Ok (MkMigrateReport (length applied) plan None)
    else
      let? after := map_err MgFailed (dt_run d applied) in
      let? versions := map_err MgUnconfirmed (dt_confirm d after) in
      Ok (MkMigrateReport (length applied) plan (Some (length (filter (fun v => v ∉ applied_versions) versions))))))).
End migrate.
Arguments migrate : clear implicits.

(** ** Specification *)

(** The ledger agrees with the build: every row is whole, and its migration is
    in this build with the checksum it was applied with. *)
Definition agrees (build : list Migration) (rows : list Applied) : Prop :=
  forall row, row ∈ rows -> ap_success row = true /\ exists m, m ∈ build /\ mg_version m = ap_version row /\ mg_checksum m = ap_checksum row.
(** What SQLx documents of [run]: each pending migration is applied and its row
    appended, in the build's order. *)
Definition row_of (m : Migration) : Applied := MkApplied (mg_version m) (mg_checksum m) true.
Definition run_applies_pending (build : list Migration) (run : list Applied -> result string (list Applied)) : Prop :=
  forall rows rows', run rows = Ok rows' -> rows' = rows ++ map row_of (pending build (map ap_version rows)).

Lemma find_version build v m : NoDup (map mg_version build) -> m ∈ build -> mg_version m = v -> List.find (fun m => mg_version m =? v) build = Some m.
Proof.
  induction build as [|x build IH]; intros Hnd Hm Hv; [by apply not_elem_of_nil in Hm|]. cbn in *. apply NoDup_cons in Hnd as [Hx Hnd].
  apply elem_of_cons in Hm as [-> |Hm]; [by rewrite Hv, Z.eqb_refl|]. destruct (Z.eqb_spec (mg_version x) v) as [E|E]; [|by apply IH].
  destruct Hx. apply list_elem_of_fmap. exists m. split; [congruence|done].
Qed.
Lemma verify_one_Ok build row : NoDup (map mg_version build) ->
  verify_one build row = Ok tt <-> ap_success row = true /\ exists m, m ∈ build /\ mg_version m = ap_version row /\ mg_checksum m = ap_checksum row.
Proof.
  intros Hnd. unfold verify_one. destruct (ap_success row); cbn; [|naive_solver]. split.
  - destruct (List.find _ build) as [m|] eqn:E; [|done]. apply find_some in E as [Hm Hv]. apply Z.eqb_eq in Hv.
    destruct (bool_decide_reflect (mg_checksum m = ap_checksum row)); [|done]. intros _. split; [done|]. exists m. split_and!; [by apply list_elem_of_In|done..].
  - intros [_ (m & Hm & Hv & Hc)]. rewrite (find_version build _ m) by done. by rewrite bool_decide_eq_true_2.
Qed.
Lemma verify_Ok build rows : NoDup (map mg_version build) -> verify build rows = Ok tt <-> agrees build rows.
Proof.
  intros Hnd. unfold verify, agrees. induction rows as [|row rows IH]; cbn; [split; [by intros _ x Hx%not_elem_of_nil|done]|].
  setoid_rewrite elem_of_cons. destruct (verify_one build row) as [[]|e] eqn:Hv.
  - rewrite IH. apply verify_one_Ok in Hv; [|done]. split; [intros H x [-> |Hx]; [done|by apply H]|naive_solver].
  - split; [done|]. intros H. destruct (H row) as [H1 H2]; [by left|].
    assert (verify_one build row = Ok tt) as Hok by (by apply verify_one_Ok). congruence.
Qed.
Lemma filter_all {A} (P : A -> Prop) {dec : forall x, Decision (P x)} (l : list A) : (forall x, x ∈ l -> P x) -> filter P l = l.
Proof.
  induction l as [|x l IH]; intros Hl; [done|]. rewrite filter_cons_True by (apply Hl; by left). f_equal. apply IH. intros y Hy. apply Hl. by right.
Qed.
Lemma filter_none {A} (P : A -> Prop) {dec : forall x, Decision (P x)} (l : list A) : (forall x, x ∈ l -> ~ P x) -> filter P l = [].
Proof.
  induction l as [|x l IH]; intros Hl; [done|]. rewrite filter_cons_False by (apply Hl; by left). apply IH. intros y Hy. apply Hl. by right.
Qed.
Lemma pending_none build rows : (forall m, m ∈ build -> mg_version m ∈ rows) -> pending build rows = [].
Proof. intros H. apply filter_none. intros m Hm Hn. by apply Hn, H. Qed.
Lemma new_versions build rows : filter (fun v => v ∉ rows) (rows ++ map mg_version (pending build rows)) = map mg_version (pending build rows).
Proof.
  rewrite filter_app. rewrite (filter_none _ rows) by (by intros x Hx Hn). apply filter_all.
  intros v (m & -> & Hm)%list_elem_of_fmap. by apply list_elem_of_filter in Hm as [Hm _].
Qed.

(** ** Properties *)

(** The plan of a migration job: with its database in reach, a dry run refuses
    exactly the ledgers that disagree with the build -- a row left half applied,
    a migration since edited, or one this build does not have -- which are the
    ledgers the real run would refuse; and otherwise it plans, in the build's
    order, exactly the migrations whose version is not recorded. *)
Theorem dry_run_exact build read_to_string d config url rows :
  NoDup (map mg_version build) -> database_url read_to_string config = Ok url ->
  dt_connect d = None -> dt_acquire d = None -> dt_lock d = None -> dt_ledger d = LedgerRows rows ->
  let plan := pending build (map ap_version rows) in
  (migrate build read_to_string d config true = Ok (MkMigrateReport (length rows) plan None) <-> agrees build rows) /\
  (forall e, migrate build read_to_string d config true = Err e -> ~ agrees build rows /\ migrate build read_to_string d config false = Err e) /\
  (forall m, m ∈ plan <-> m ∈ build /\ mg_version m ∉ map ap_version rows).
Proof.
  intros Hnd Hu H1 H2 H3 H4 plan. unfold migrate. rewrite Hu, H1, H2, H3, H4. cbn [map_err read_applied].
  pose proof (verify_Ok build rows Hnd) as Hv. destruct (verify build rows) as [[]|e]; split_and!; try (by intros m; unfold plan, pending; rewrite list_elem_of_filter; naive_solver).
  - split; [intros _; by apply Hv|done].
  - done.
  - split; [done|]. intros Ha. by apply Hv in Ha.
  - intros e' [= <-]. split; [|done]. intros Ha. by apply Hv in Ha.
Qed.
Definition ex_build : list Migration := [MkMigration 1 "a" [1]; MkMigration 2 "b" [2]].
Definition ex_database (rows : list Applied) : Database :=
  MkDatabase None None None (LedgerRows rows) (fun rows => Ok (rows ++ map row_of (pending ex_build (map ap_version rows)))) (fun rows => Ok (map ap_version rows)).
Example dry_run_exact_witness :
  migrate ex_build ex_read_file (ex_database [MkApplied 1 [1] true]) (ex_config "pool_migration" "http://127.0.0.1" ex_cpu) true =
    Ok (MkMigrateReport 1 [MkMigration 2 "b" [2]] None).
Proof.
  eapply (dry_run_exact ex_build ex_read_file (ex_database [MkApplied 1 [1] true]) (ex_config "pool_migration" "http://127.0.0.1" ex_cpu) _ [MkApplied 1 [1] true]).
  - apply (bool_decide_unpack _). vm_compute. exact I.
  - vm_compute. reflexivity.
  - reflexivity.
  - reflexivity.
  - reflexivity.
  - reflexivity.
  - intros row Hr%list_elem_of_singleton. subst row. split; [reflexivity|]. exists (MkMigration 1 "a" [1]). split; [left|by split].
Defined.

(** A migration is applied once.  When a run succeeds it reports exactly the
    planned migrations as applied now, and the job run again finds nothing
    pending, applies nothing and refuses nothing. *)
Theorem migrated_once build read_to_string d d' config rows after report :
  NoDup (map mg_version build) -> run_applies_pending build (dt_run d) -> (forall rows, dt_confirm d rows = Ok (map ap_version rows)) ->
  dt_ledger d = LedgerRows rows -> migrate build read_to_string d config false = Ok report -> dt_run d rows = Ok after ->
  mr_applied_now report = Some (length (mr_pending report)) /\
  (dt_connect d' = None -> dt_acquire d' = None -> dt_lock d' = None -> dt_ledger d' = LedgerRows after ->
   migrate build read_to_string d' config true = Ok (MkMigrateReport (length after) [] None)).
Proof.
  intros Hnd Hrun Hconf Hl Hm Hafter. unfold migrate in Hm |- *. destruct (database_url _ _) as [url|]; [|done]. cbn [map_err] in Hm |- *.
  destruct (dt_connect d); [done|]. destruct (dt_acquire d); [done|]. destruct (dt_lock d); [done|]. rewrite Hl in Hm. cbn [read_applied] in Hm.
  destruct (verify build rows) as [[]|e] eqn:Hv; [|done]. rewrite Hafter in Hm. cbn [map_err] in Hm. rewrite Hconf in Hm. cbn [map_err] in Hm.
  injection Hm as <-. cbn [mr_applied_now mr_pending]. rewrite (Hrun _ _ Hafter). set (plan := pending build (map ap_version rows)). split.
  - f_equal. rewrite map_app, map_map. change (map (fun x => ap_version (row_of x)) plan) with (map mg_version plan).
    unfold plan. rewrite new_versions. by rewrite length_map.
  - intros -> -> -> ->. cbn [read_applied]. apply verify_Ok in Hv; [|done].
    assert (Hv' : verify build (rows ++ map row_of plan) = Ok tt).
    { apply verify_Ok; [done|]. intros row [Hr|Hr]%elem_of_app; [by apply Hv|]. apply list_elem_of_fmap in Hr as (m & -> & Hm).
      apply list_elem_of_filter in Hm as [_ Hm]. split; [done|]. by exists m. }
    rewrite Hv'. do 2 f_equal. apply pending_none. intros m Hm. rewrite map_app, map_map. apply elem_of_app.
    destruct (decide (mg_version m ∈ map ap_version rows)); [by left|]. right. apply list_elem_of_fmap. exists m. split; [done|]. by apply list_elem_of_filter.
Qed.
Example migrated_once_witness :
  exists report, migrate ex_build ex_read_file (ex_database [MkApplied 1 [1] true]) (ex_config "pool_migration" "http://127.0.0.1" ex_cpu) false = Ok report /\
    mr_applied_now report = Some (length (mr_pending report)).
Proof.
  eexists. split; [vm_compute; reflexivity|].
  eapply (migrated_once ex_build ex_read_file (ex_database [MkApplied 1 [1] true]) (ex_database []) (ex_config "pool_migration" "http://127.0.0.1" ex_cpu) [MkApplied 1 [1] true]);
    [apply (bool_decide_unpack _); vm_compute; exact I|by intros r r' [= <-]|done|reflexivity|vm_compute; reflexivity|reflexivity].
Defined.
