(* ===== verification/FakeTig.v ===== *)
(** * The stand-in for TIG: [crates/fake-tig/src/lib.rs]

    The server the pool is developed against, as a state machine: a world of
    benchmarks, one function per route, and blocks that settle what was asked
    for before them.  Every route locks the world, so a call is one step; a read
    locks twice, and what other calls did in between is an argument.  The
    server's [u32] and [u64] arithmetic wraps. *)
From Stdlib Require Import SpecFloat.
From stdpp Require Import pretty.
From S2P Require Import Prelude Text BTreeMap Json Domain ReadPolicy ReadCache ReadClient Store Payload Reconcile Admission Decide.
Open Scope Z_scope.

Definition wrap32 (n : Z) : Z := n mod 2 ^ 32.
Definition wrap64 (n : Z) : Z := n mod 2 ^ 64.
Definition wrap128 (n : Z) : Z := n mod 2 ^ 128.

(** ** The world *)

Record Settings := MkSettings { fc_api_key : string; fc_confirm_delay : Z; fc_pool_player_id : option string }.
Record Fixture := MkFixture {
  fi_block_template : Value; fi_challenges : Value; fi_algorithms : Value; fi_opow : Value; fi_player : Value; fi_tracks : Value }.
Record BenchmarkSubmission := MkBenchSubmission {
  bs_stopped : bool; bs_root : option string; bs_quality : option (list Z); bs_submitted_height : Z;
  bs_confirmed : option Z; bs_sampled_nonces : option (list Z) }.
Record ProofSubmission := MkProofSubmission {
  pf_submitted_height : Z; pf_confirmed : option Z; pf_submission_delay : Z; pf_block_active : option Z }.
Record Bench := MkBench {
  be_id : string; be_settings : Value; be_challenge_id : string; be_num_nonces : Z; be_num_bundles : Z; be_fuel_budget : Z;
  be_hyperparameters : Value; be_compute_type : string; be_fee_paid : string; be_rand_hash : string; be_block_started : Z;
  be_precommit_confirmed : option Z; be_submission : option BenchmarkSubmission; be_proof : option ProofSubmission;
  be_active_from : option Z; be_active_until : option Z; be_verified : option Z; be_fraud : option Z;
  be_verify_pending : bool; be_fraud_pending : bool }.
Inductive InjectMode := InjReject | InjRateLimit | InjError | InjAmbiguous.
#[export] Instance InjectMode_eq_dec : EqDecision InjectMode.
Proof. solve_decision. Defined.
Record World := MkFakeWorld {
  fw_cfg : Settings; fw_fixture : Fixture; fw_height : Z; fw_round : Z; fw_timestamp : Z; fw_seconds_between_blocks : Z;
  fw_blocks_per_round : Z; fw_next_bench_seq : Z; fw_benchmarks : btree Bench; fw_injections : gmap string (list InjectMode);
  fw_writes_received : gmap string Z }.

Definition with_benchmarks (m : btree Bench) (w : World) : World :=
  MkFakeWorld (fw_cfg w) (fw_fixture w) (fw_height w) (fw_round w) (fw_timestamp w) (fw_seconds_between_blocks w) (fw_blocks_per_round w)
    (fw_next_bench_seq w) m (fw_injections w) (fw_writes_received w).
Definition with_injections (i : gmap string (list InjectMode)) (w : World) : World :=
  MkFakeWorld (fw_cfg w) (fw_fixture w) (fw_height w) (fw_round w) (fw_timestamp w) (fw_seconds_between_blocks w) (fw_blocks_per_round w)
    (fw_next_bench_seq w) (fw_benchmarks w) i (fw_writes_received w).
Definition with_submission (s : BenchmarkSubmission) (b : Bench) : Bench :=
  MkBench (be_id b) (be_settings b) (be_challenge_id b) (be_num_nonces b) (be_num_bundles b) (be_fuel_budget b) (be_hyperparameters b)
    (be_compute_type b) (be_fee_paid b) (be_rand_hash b) (be_block_started b) (be_precommit_confirmed b) (Some s) (be_proof b)
    (be_active_from b) (be_active_until b) (be_verified b) (be_fraud b) (be_verify_pending b) (be_fraud_pending b).
Definition with_proof (p : ProofSubmission) (b : Bench) : Bench :=
  MkBench (be_id b) (be_settings b) (be_challenge_id b) (be_num_nonces b) (be_num_bundles b) (be_fuel_budget b) (be_hyperparameters b)
    (be_compute_type b) (be_fee_paid b) (be_rand_hash b) (be_block_started b) (be_precommit_confirmed b) (be_submission b) (Some p)
    (be_active_from b) (be_active_until b) (be_verified b) (be_fraud b) (be_verify_pending b) (be_fraud_pending b).
Definition with_pending (verify fraud : bool) (b : Bench) : Bench :=
  MkBench (be_id b) (be_settings b) (be_challenge_id b) (be_num_nonces b) (be_num_bundles b) (be_fuel_budget b) (be_hyperparameters b)
    (be_compute_type b) (be_fee_paid b) (be_rand_hash b) (be_block_started b) (be_precommit_confirmed b) (be_submission b) (be_proof b)
    (be_active_from b) (be_active_until b) (be_verified b) (be_fraud b) verify fraud.

(** ** The fixture *)

Fixpoint bt_remove {V} (k : string) (m : btree V) : btree V :=
  match m with [] => [] | (k', v) :: m' => if String.eqb k k' then m' else (k', v) :: bt_remove k m' end.
Definition rename_key (from to : string) (m : btree Value) : btree Value :=
  match bt_get from m with Some v => bt_insert to v (bt_remove from m) | None => m end.
(** The source renames an object's key before it rewrites the values; a value is
    rewritten the same wherever it stands. *)
Fixpoint rewrite_strings (from to : string) (v : Value) : Value :=
  match v with
  | JString s => if String.eqb s from then JString to else v
  | JArray l => JArray (map (rewrite_strings from to) l)
  | JObject m => JObject (rename_key from to (map (fun kv => (kv.1, rewrite_strings from to kv.2)) m))
  | _ => v
  end.
Definition fixture_u64 (v : Value) (path : list string) : result string Z :=
  let? at_ := ok_or (json_path path v) (String.append "fixture missing field " (String.concat "." path)) in
  ok_or (json_as_u64 at_) (String.concat "" ["fixture field "; String.concat "." path; " is not a u64"]).
Definition to_u32 (n : Z) (e : string) : result string Z := if n <=? u32_max then Ok n else Err e.
Definition rewrite_fixture (from to : string) (f : Fixture) : Fixture :=
  MkFixture (rewrite_strings from to (fi_block_template f)) (rewrite_strings from to (fi_challenges f)) (rewrite_strings from to (fi_algorithms f))
    (rewrite_strings from to (fi_opow f)) (rewrite_strings from to (fi_player f)) (rewrite_strings from to (fi_tracks f)).
Definition from_fixture_dir (read_fixture_file : string -> result string Value) (cfg : Settings) : result string World :=
  let? block_template := read_fixture_file "get-block.json" in
  let? challenges := read_fixture_file "get-challenges.json" in
  let? algorithms := read_fixture_file "get-algorithms.json" in
  let? opow := read_fixture_file "get-opow.json" in
  let? player := read_fixture_file "get-player-data.json" in
  let? tracks := read_fixture_file "get-tracks-data.json" in
  let fixture := MkFixture block_template challenges algorithms opow player tracks in
  let? fixture := match fc_pool_player_id cfg with
                  | None => Ok fixture
                  | Some wanted =>
                      let? placeholder := ok_or (and_then (json_path ["player"; "id"] player) json_as_str) "fixture get-player-data.json names no player.id" in
                      Ok (rewrite_fixture placeholder wanted fixture)
                  end in
  let block := fi_block_template fixture in
  let? height := fixture_u64 block ["block"; "details"; "height"] in
  let? height := to_u32 height "fixture height out of range" in
  let? round := fixture_u64 block ["block"; "details"; "round"] in
  let? round := to_u32 round "fixture round out of range" in
  let? timestamp := fixture_u64 block ["block"; "details"; "timestamp"] in
  let? seconds := fixture_u64 block ["block"; "config"; "rounds"; "seconds_between_blocks"] in
  let? per_round := fixture_u64 block ["block"; "config"; "rounds"; "blocks_per_round"] in
  let? per_round := to_u32 per_round "fixture blocks_per_round out of range" in
  Ok (MkFakeWorld cfg fixture height round timestamp seconds per_round 1 bt_empty ∅ ∅).

Definition height_id (h : Z) : string := String.append "block_" (pretty (Z.to_N h)).
Definition block_id (w : World) : string := height_id (fw_height w).
Definition challenge_config (w : World) (challenge_id : string) : option Value :=
  json_path ["block"; "config"; "challenges"; challenge_id] (fi_block_template (fw_fixture w)).
Definition pool_player_id (w : World) : string := default "" (and_then (json_path ["player"; "id"] (fi_player (fw_fixture w))) json_as_str).

(** ** Sampled nonces *)

Fixpoint byte_sum (s : string) : Z := match s with EmptyString => 0 | String c s' => wrap64 (Z.of_N (Ascii.N_of_ascii c) + byte_sum s') end.
(** The inner loop: past every nonce already picked. *)
Fixpoint skip_picked (fuel : nat) (num_nonces candidate : Z) (picked : list Z) : Z :=
  if bool_decide (candidate ∈ picked)
  then match fuel with O => candidate | S fuel' => skip_picked fuel' num_nonces (wrap64 (candidate + 1) mod num_nonces) picked end
  else candidate.
(** The outer loop, from [i]; [left] picks are to be made. *)
Fixpoint pick_nonces (left : nat) (offset num_nonces count i : Z) (picked : list Z) : list Z :=
  match left with
  | O => picked
  | S left' =>
      let first := wrap64 (offset + wrap64 (i * num_nonces) / Z.max count 1) mod num_nonces in
      pick_nonces left' offset num_nonces count (i + 1) (picked ++ [skip_picked (length picked) num_nonces first picked])
  end.
Definition sample_nonces (id : string) (num_nonces count : Z) : list Z :=
  let count := Z.min count num_nonces in
  let offset := byte_sum id mod Z.max num_nonces 1 in
  sort_by Z.leb (pick_nonces (Z.to_nat count) offset num_nonces count 0 []).
Definition sample_count (w : World) (challenge_id : string) : Z :=
  match challenge_config w challenge_id with
  | None => 3
  | Some cfg => wrap64 (default 2 (and_then (json_get "num_samples_gte_average" cfg) json_as_u64) +
                        default 1 (and_then (json_get "num_samples_lt_average" cfg) json_as_u64))
  end.

(** ** The activation delay, in doubles *)

(** A double from its bits. *)
Definition f64_of_bits (bits : Z) : F64 :=
  let s := Z.testbit bits 63 in
  let e := Z.land (Z.shiftr bits 52) 2047 in
  let m := Z.land bits (2 ^ 52 - 1) in
  if e =? 2047 then (if m =? 0 then S754_infinity s else S754_nan)
  else match (if e =? 0 then m else m + 2 ^ 52) with
       | Zpos p => S754_finite s p (if e =? 0 then -1074 else e - 1075)
       | _ => S754_zero s
       end.
Definition json_as_f64 (v : Value) : option F64 :=
  match v with
  | JNumber (PosInt n) => Some (f64_from n)
  | JNumber (NegInt n) => Some (SFopp (f64_from (- n)))
  | JNumber (Float bits) => Some (f64_of_bits bits)
  | _ => None
  end.
(** [x.ceil() as u32]: saturating, and zero for what is not a number. *)
Definition ceil_u32 (x : F64) : Z :=
  match x with
  | S754_finite false p e => Z.min u32_max (if 0 <=? e then Z.shiftl (Zpos p) e else - (Z.shiftr (- Zpos p) (- e)))
  | S754_infinity false => u32_max
  | _ => 0
  end.
Definition delay_multiplier (w : World) (challenge_id : string) : F64 :=
  default (f64_from 3) (and_then (and_then (challenge_config w challenge_id) (json_get "submission_delay_multiplier")) json_as_f64).
Definition lifespan (w : World) (challenge_id : string) : Z :=
  match and_then (and_then (challenge_config w challenge_id) (json_get "lifespan_period")) json_as_u64 with
  | Some v => if v <=? u32_max then v else 120
  | None => 120
  end.

(** ** A block *)

(** The loop's body on one benchmark: what this block settles, whether it
    confirmed a commitment to sample, and whether it confirmed a proof. *)
Definition settle_bench (height delay : Z) (b : Bench) : Bench * bool * option Z :=
  let verified := if be_verify_pending b then Some height else be_verified b in
  let fraud := if be_fraud_pending b then Some height else be_fraud b in
  let precommit := match be_precommit_confirmed b with
                   | Some h => Some h
                   | None => if wrap32 (be_block_started b + delay) <=? height then Some height else None
                   end in
  let '(submission, sampling) :=
    match be_submission b with
    | Some s =>
        if bool_decide (bs_confirmed s = None) && bool_decide (is_Some precommit) && (wrap32 (bs_submitted_height s + delay) <=? height)
        then (Some (MkBenchSubmission (bs_stopped s) (bs_root s) (bs_quality s) (bs_submitted_height s) (Some height) (bs_sampled_nonces s)), negb (bs_stopped s))
        else (Some s, false)
    | None => (None, false)
    end in
  let '(proof, activation) :=
    match be_proof b with
    | Some p =>
        if bool_decide (pf_confirmed p = None) && (wrap32 (pf_submitted_height p + delay) <=? height)
        then (Some (MkProofSubmission (pf_submitted_height p) (Some height) (pf_submission_delay p) (pf_block_active p)), Some (pf_submission_delay p))
        else (Some p, None)
    | None => (None, None)
    end in
  (MkBench (be_id b) (be_settings b) (be_challenge_id b) (be_num_nonces b) (be_num_bundles b) (be_fuel_budget b) (be_hyperparameters b)
     (be_compute_type b) (be_fee_paid b) (be_rand_hash b) (be_block_started b) precommit submission proof (be_active_from b) (be_active_until b)
     verified fraud false false, sampling, activation).
Definition sample_bench (w : World) (b : Bench) : Bench :=
  match be_submission b with
  | Some s => with_submission (MkBenchSubmission (bs_stopped s) (bs_root s) (bs_quality s) (bs_submitted_height s) (bs_confirmed s)
                (Some (sample_nonces (be_id b) (be_num_nonces b) (sample_count w (be_challenge_id b))))) b
  | None => b
  end.
Definition activate_bench (w : World) (height submission_delay : Z) (b : Bench) : Bench :=
  let delay := ceil_u32 (f64_mul (f64_from submission_delay) (delay_multiplier w (be_challenge_id b))) in
  let from := wrap32 (height + delay) in
  let proof := match be_proof b with
               | Some p => Some (MkProofSubmission (pf_submitted_height p) (pf_confirmed p) (pf_submission_delay p) (Some from))
               | None => None
               end in
  MkBench (be_id b) (be_settings b) (be_challenge_id b) (be_num_nonces b) (be_num_bundles b) (be_fuel_budget b) (be_hyperparameters b)
    (be_compute_type b) (be_fee_paid b) (be_rand_hash b) (be_block_started b) (be_precommit_confirmed b) (be_submission b) proof
    (Some from) (Some (wrap32 (be_block_started b + lifespan w (be_challenge_id b)))) (be_verified b) (be_fraud b) (be_verify_pending b) (be_fraud_pending b).
(** A benchmark through the three loops: none of them looks at another one. *)
Definition advance_bench (w : World) (height : Z) (b : Bench) : Bench :=
  let '(b, sampling, activation) := settle_bench height (fc_confirm_delay (fw_cfg w)) b in
  let b := if sampling : bool then sample_bench w b else b in
  match activation with Some delay => activate_bench w height delay b | None => b end.
Definition advance_block (w : World) : World :=
  let height := wrap32 (fw_height w + 1) in
  let round := if (0 <? fw_blocks_per_round w) && (height mod fw_blocks_per_round w =? 0) then wrap32 (fw_round w + 1) else fw_round w in
  MkFakeWorld (fw_cfg w) (fw_fixture w) height round (wrap64 (fw_timestamp w + fw_seconds_between_blocks w)) (fw_seconds_between_blocks w)
    (fw_blocks_per_round w) (fw_next_bench_seq w) (bt_map (fun _ => advance_bench w height) (fw_benchmarks w)) (fw_injections w) (fw_writes_received w).

(** ** What is served *)

Definition ids_where (p : Bench -> bool) (w : World) : list string := map (fun kv => be_id kv.2) (filter (fun kv => p kv.2 = true) (fw_benchmarks w)).
Definition precommit_at (h : Z) (b : Bench) : bool := bool_decide (be_precommit_confirmed b = Some h).
Definition benchmark_at (h : Z) (b : Bench) : bool := bool_decide (and_then (be_submission b) bs_confirmed = Some h).
Definition proof_at (h : Z) (b : Bench) : bool := bool_decide (and_then (be_proof b) pf_confirmed = Some h).
Definition confirmed_at (w : World) (h : Z) : list string * list string * list string :=
  (ids_where (precommit_at h) w, ids_where (benchmark_at h) w, ids_where (proof_at h) w).
Definition verified_at (h : Z) (b : Bench) : bool := bool_decide (be_verified b = Some h).
Definition fraud_at (h : Z) (b : Bench) : bool := bool_decide (be_fraud b = Some h).
Definition ruled_at (w : World) (h : Z) : list string * list string := (ids_where (verified_at h) w, ids_where (fraud_at h) w).
Definition active_at (h : Z) (b : Bench) : bool :=
  match be_active_from b, be_active_until b with Some from, Some until => (from <=? h) && (h <? until) | _, _ => false end.
Definition active_benchmark_ids (w : World) : list string := ids_where (active_at (fw_height w)) w.

(** [value[k1][k2]... = new]: a missing key is made, [null] becomes an object,
    and anything else panics. *)
Fixpoint json_set (path : list string) (new v : Value) : option Value :=
  match path with
  | [] => Some new
  | k :: rest =>
      match v with
      | JObject m => match json_set rest new (default JNull (bt_get k m)) with Some x => Some (JObject (bt_insert k x m)) | None => None end
      | JNull => match json_set rest new JNull with Some x => Some (JObject [(k, x)]) | None => None end
      | _ => None
      end
  end.
Definition json_sets (sets : list (list string * Value)) (v : Value) : option Value :=
  fold_left (fun acc set => match acc with Some v => json_set set.1 set.2 v | None => None end) sets (Some v).
Definition json_strs (l : list string) : Value := JArray (map JString l).
Definition json_len {A} (l : list A) : Value := json_u64 (Z.of_nat (length l)).
Definition current_block_json (w : World) : option Value :=
  let block := default (JObject []) (json_get "block" (fi_block_template (fw_fixture w))) in
  let '(precommits, benchmarks, proofs) := confirmed_at w (fw_height w) in
  let (verified, frauds) := ruled_at w (fw_height w) in
  let active := active_benchmark_ids w in
  match json_sets
    [(["id"], JString (block_id w)); (["details"; "prev_block_id"], JString (height_id (wrap32 (fw_height w - 1))));
     (["details"; "height"], json_u64 (fw_height w)); (["details"; "round"], json_u64 (fw_round w)); (["details"; "timestamp"], json_u64 (fw_timestamp w));
     (["details"; "num_confirmed"; "precommit"], json_len precommits); (["details"; "num_confirmed"; "benchmark"], json_len benchmarks);
     (["details"; "num_confirmed"; "proof"], json_len proofs); (["data"; "confirmed_ids"; "precommit"], json_strs precommits);
     (["data"; "confirmed_ids"; "benchmark"], json_strs benchmarks); (["data"; "confirmed_ids"; "proof"], json_strs proofs);
     (["details"; "num_confirmed"; "verified"], json_len verified); (["details"; "num_confirmed"; "fraud"], json_len frauds);
     (["data"; "confirmed_ids"; "verified"], json_strs verified); (["data"; "confirmed_ids"; "fraud"], json_strs frauds);
     (["details"; "num_active"; "benchmark"], json_len active); (["data"; "active_ids"; "benchmark"], json_strs active)] block with
  | Some block => Some (json_object [("block", block)])
  | None => None
  end.

Definition json_opt {A} (f : A -> Value) (o : option A) : Value := match o with Some a => f a | None => JNull end.
Definition precommit_json (b : Bench) : Value :=
  json_object
    [("benchmark_id", JString (be_id b)); ("settings", be_settings b);
     ("details", json_object
        [("block_started", json_u64 (be_block_started b)); ("num_nonces", json_u64 (be_num_nonces b)); ("num_bundles", json_u64 (be_num_bundles b));
         ("rand_hash", JString (be_rand_hash b)); ("fee_paid", JString (be_fee_paid b)); ("fuel_budget", json_u64 (be_fuel_budget b));
         ("hyperparameters", be_hyperparameters b); ("compute_type", JString (be_compute_type b))]);
     ("state", json_object [("block_confirmed", json_opt json_u64 (be_precommit_confirmed b))])].
(** [slice.chunks(n)], for [n] at least one. *)
Fixpoint chunks (fuel n : nat) (l : list Z) : list (list Z) :=
  match fuel with O => [] | S fuel' => match l with [] => [] | _ => take n l :: chunks fuel' n (drop n l) end end.
Definition wrapi64 (n : Z) : Z := (n + 2 ^ 63) mod 2 ^ 64 - 2 ^ 63.
Definition average_quality_by_bundle (b : Bench) (s : BenchmarkSubmission) : Value :=
  match bs_quality s with
  | None => JArray []
  | Some qualities =>
      if (be_num_bundles b =? 0) || bool_decide (qualities = []) then JArray []
      else
        let per_bundle := Z.to_nat (Z.max (be_num_nonces b / be_num_bundles b) 1) in
        JArray (map (fun chunk => json_i64 (Z.quot (fold_left (fun a q => wrapi64 (a + q)) chunk 0) (Z.of_nat (length chunk))))
                  (chunks (length qualities) per_bundle qualities))
  end.
Definition benchmark_json (b : Bench) (s : BenchmarkSubmission) : Value :=
  json_object
    [("id", JString (be_id b));
     ("details", json_object
        [("stopped", JBool (bs_stopped s)); ("num_active_bundles", json_u64 (be_num_bundles b)); ("average_quality_by_bundle", average_quality_by_bundle b s);
         ("merkle_root", json_opt JString (bs_root s));
         ("sampled_nonces", match bs_confirmed s with Some _ => json_opt (fun l => JArray (map json_u64 l)) (bs_sampled_nonces s) | None => JNull end)]);
     ("state", json_object [("block_confirmed", json_opt json_u64 (bs_confirmed s))]);
     ("solution_quality", json_opt (fun l => JArray (map json_i64 l)) (bs_quality s))].
Definition proof_json (b : Bench) (p : ProofSubmission) : Value :=
  json_object
    [("benchmark_id", JString (be_id b));
     ("details", json_object [("submission_delay", json_u64 (pf_submission_delay p)); ("block_active", json_opt json_u64 (pf_block_active p))]);
     ("state", json_object [("block_confirmed", json_opt json_u64 (pf_confirmed p))])].
Definition fraud_json (b : Bench) (confirmed : Z) : Value :=
  json_object [("benchmark_id", JString (be_id b)); ("state", json_object [("block_confirmed", json_u64 confirmed)])].
Definition precommits_of (w : World) : list Value := map (fun kv => precommit_json kv.2) (fw_benchmarks w).
Definition benchmarks_of (w : World) : list Value := omap (fun kv => benchmark_json kv.2 <$> be_submission kv.2) (fw_benchmarks w).
Definition proofs_of (w : World) : list Value := omap (fun kv => proof_json kv.2 <$> be_proof kv.2) (fw_benchmarks w).
Definition frauds_of (w : World) : list Value := omap (fun kv => fraud_json kv.2 <$> be_fraud kv.2) (fw_benchmarks w).
Definition benchmarks_json (w : World) : Value :=
  json_object [("precommits", JArray (precommits_of w)); ("benchmarks", JArray (benchmarks_of w)); ("proofs", JArray (proofs_of w)); ("frauds", JArray (frauds_of w))].

(** ** Errors and injections *)

Record ApiError := MkApiError { ae_status : Z; ae_body : Value; ae_headers : list (string * string) }.
Definition error_body (msg : string) : Value := json_object [("error", JString msg)].
Definition bad_request (msg : string) : ApiError := MkApiError 400 (error_body msg) [].
Definition injected_response (mode : InjectMode) : ApiError :=
  match mode with
  | InjReject => bad_request "injected rejection"
  | InjRateLimit => MkApiError 429 (error_body "injected rate limit") [("retry-after", "5")]
  | InjError | InjAmbiguous => MkApiError 500 (error_body "injected internal error") []
  end.
Definition count_write (target : string) (w : World) : World :=
  MkFakeWorld (fw_cfg w) (fw_fixture w) (fw_height w) (fw_round w) (fw_timestamp w) (fw_seconds_between_blocks w) (fw_blocks_per_round w)
    (fw_next_bench_seq w) (fw_benchmarks w) (fw_injections w) (<[target := wrap32 (default 0 (fw_writes_received w !! target) + 1)]> (fw_writes_received w)).
Definition take_injection (target : string) (w : World) : option InjectMode * World :=
  match fw_injections w !! target with
  | Some (mode :: queue) => (Some mode, with_injections (<[target := queue]> (fw_injections w)) w)
  | _ => (None, w)
  end.
Definition Params : Type := gmap string string.
Definition require_latest_block (w : World) (params : Params) : result ApiError unit :=
  match params !! "block_id" with
  | Some id => if String.eqb id (block_id w) then Ok tt else Err (bad_request "block must be latest")
  | None => Err (bad_request "missing block_id")
  end.
(** The header's value, where it is text. *)
Definition require_api_key (w : World) (provided : option string) : result ApiError unit :=
  if bool_decide (provided = Some (fc_api_key (fw_cfg w))) then Ok tt else Err (MkApiError 401 (error_body "invalid api key") []).

(** ** Reads

    [between] is what other calls did between the two locks of a read. *)
Inductive Reply := Replied (v : Value) | Failed (e : ApiError) | Text (s : string) | Panicked.
Definition reply_of (r : result ApiError Value) : Reply := match r with Ok v => Replied v | Err e => Failed e end.
Definition Route : Type := World -> Reply * World.
Definition after_injection (target : string) (between : World -> World) (k : World -> Reply) : Route := fun w =>
  match take_injection target w with
  | (Some mode, w1) => (Failed (injected_response mode), w1)
  | (None, w1) => let w2 := between w1 in (k w2, w2)
  end.
Definition get_block (between : World -> World) : Route :=
  after_injection "get-block" between (fun w => match current_block_json w with Some v => Replied v | None => Panicked end).
Definition fixture_read (between : World -> World) (target : string) (params : Params) (pick : World -> Value) : Route :=
  after_injection target between (fun w => reply_of (let? _ := require_latest_block w params in Ok (pick w))).
Definition get_challenges (between : World -> World) (params : Params) : Route :=
  fixture_read between "get-challenges" params (fun w => fi_challenges (fw_fixture w)).
Definition get_algorithms (between : World -> World) (params : Params) : Route :=
  fixture_read between "get-algorithms" params (fun w => fi_algorithms (fw_fixture w)).
Definition get_opow (between : World -> World) (params : Params) : Route := fixture_read between "get-opow" params (fun w => fi_opow (fw_fixture w)).
Definition no_player : Value := json_object [("player", JNull); ("deposits", JArray []); ("round_earnings", JArray []); ("topups", JArray [])].
Definition get_player_data (between : World -> World) (params : Params) : Route :=
  after_injection "get-player-data" between (fun w => reply_of (
    let? _ := require_latest_block w params in
    let? requested := ok_or (params !! "player_id") (bad_request "missing player_id") in
    Ok (if eq_ignore_ascii_case requested (pool_player_id w) then fi_player (fw_fixture w) else no_player))).
Definition get_benchmarks (between : World -> World) (params : Params) : Route :=
  after_injection "get-benchmarks" between (fun w => reply_of (
    let? _ := require_latest_block w params in
    let? player_id := ok_or (params !! "player_id") (bad_request "missing player_id") in
    if eq_ignore_ascii_case player_id (pool_player_id w) then Ok (benchmarks_json w)
    else Err (bad_request "player_id does not match this fixture's player"))).
Definition get_tracks_data (between : World -> World) (params : Params) : Route :=
  after_injection "get-tracks-data" between (fun w => reply_of (
    let? _ := require_latest_block w params in
    let? challenge_id := ok_or (params !! "challenge_id") (bad_request "missing challenge_id") in
    Ok (json_object [("tracks", default (JArray []) (json_get challenge_id (fi_tracks (fw_fixture w))))]))).
Definition find_entry (id id_key : string) (entries : list Value) : Value :=
  default JNull (List.find (fun e => bool_decide (and_then (json_get id_key e) json_as_str = Some id)) entries).
Definition get_benchmark_data (between : World -> World) (params : Params) : Route :=
  after_injection "get-benchmark-data" between (fun w => reply_of (
    let? id := ok_or (params !! "benchmark_id") (bad_request "missing benchmark_id") in
    let? bench := ok_or (bt_get id (fw_benchmarks w)) (MkApiError 404 (error_body "unknown benchmark") []) in
    Ok (json_object [("precommit", precommit_json bench); ("benchmark", find_entry id "id" (benchmarks_of w));
                     ("proof", find_entry id "benchmark_id" (proofs_of w)); ("fraud", find_entry id "benchmark_id" (frauds_of w))]))).
Definition get_binary_blob (params : Params) : Route := fun w =>
  (match params !! "algorithm_id" with Some id => Text (String.append "FAKE-BINARY-" id) | None => Failed (bad_request "missing algorithm_id") end, w).
Definition get_round_emissions (params : Params) : Route := fun w =>
  (reply_of (let? round := ok_or (params !! "round") (bad_request "missing round") in
             Ok (json_object [("round", JString round); ("emissions", json_object [(pool_player_id w, JString "0")])])), w).

(** ** Writes *)

Definition body_str (v : Value) (key : string) : result ApiError string :=
  ok_or (and_then (json_get key v) json_as_str) (bad_request (String.append "missing string field " key)).
Definition refuse_if (b : bool) (msg : string) : result ApiError unit := if b then Err (bad_request msg) else Ok tt.
Definition u64_or (d : Z) (key : string) (v : Value) : Z := default d (and_then (json_get key v) json_as_u64).
Definition fee_of (key : string) (cfg : Value) : Z :=
  default 0 (and_then (and_then (json_get key cfg) json_as_str) (parse_unsigned (2 ^ 128 - 1))).
Fixpoint zeros (n : nat) (s : string) : string := match n with O => s | S n' => String (Ascii.ascii_of_N 48) (zeros n' s) end.
Definition pad4 (s : string) : string := zeros (4 - String.length s)%nat s.
Definition bench_id (seq : Z) : string := String.append "bench-" (pad4 (pretty (Z.to_N seq))).
Definition settings_json (player block challenge algorithm track : string) : Value :=
  json_object [("player_id", JString player); ("block_id", JString block); ("challenge_id", JString challenge);
               ("algorithm_id", JString algorithm); ("track_id", JString track)].
(** What the checks of [submit_precommit] read off the body, and the benchmark
    they make of it. *)
Definition precommit_bench (w : World) (body : Value) : result ApiError Bench :=
  let? settings := ok_or (json_get "settings" body) (bad_request "missing settings") in
  let? player_id := body_str settings "player_id" in
  let? _ := refuse_if (negb (String.eqb player_id (pool_player_id w))) "unknown player_id" in
  let? block := body_str settings "block_id" in
  let? _ := refuse_if (negb (String.eqb block (block_id w)) && negb (String.eqb block (height_id (wrap32 (fw_height w - 1)))))
              "settings.block_id must be the latest or second-latest block" in
  let? challenge_id := body_str settings "challenge_id" in
  let? algorithm_id := body_str settings "algorithm_id" in
  let? track_id := body_str settings "track_id" in
  let? _ := refuse_if (negb (is_empty track_id)) "submitted track_id must be empty" in
  let? cfg := ok_or (challenge_config w challenge_id) (bad_request "unknown challenge_id") in
  let? active_tracks := ok_or (and_then (json_get "active_tracks" cfg) json_as_object) (bad_request "challenge has no active tracks") in
  let? tracks := ok_or (json_get "track_settings" body) (bad_request "missing track_settings") in
  let? track_settings := ok_or (json_as_object tracks) (bad_request "body must be a JSON object") in
  let submitted := sort_by str_leb (bt_keys track_settings) in
  let active := sort_by str_leb (bt_keys active_tracks) in
  let? _ := refuse_if (negb (bool_decide (submitted = active))) "track_settings must contain exactly every active track" in
  let? compute_type := body_str body "compute_type" in
  let? selected_track := ok_or (head active) (bad_request "challenge has no active tracks") in
  let selected := default JNull (bt_get selected_track track_settings) in
  let? num_bundles := ok_or (and_then (json_get "num_bundles" selected) json_as_u64) (bad_request "track_settings missing num_bundles") in
  let? fuel_budget := ok_or (and_then (json_get "fuel_budget" selected) json_as_u64) (bad_request "track_settings missing fuel_budget") in
  let? _ := refuse_if (num_bundles <? u64_or 1 "min_num_bundles" cfg) "num_bundles below min_num_bundles" in
  let? _ := refuse_if (u64_or u64_max "max_fuel_budget" cfg <? fuel_budget) "fuel_budget above max_fuel_budget" in
  let? per_bundle := ok_or (and_then (and_then (bt_get selected_track active_tracks) (json_get "num_nonces_per_bundle")) json_as_u64)
                       (bad_request "track missing num_nonces_per_bundle") in
  let fee_paid := pretty (Z.to_N (wrap128 (fee_of "base_fee" cfg + wrap128 (fee_of "per_nonce_fee" cfg * num_bundles)))) in
  let id := bench_id (fw_next_bench_seq w) in
  Ok (MkBench id
        (settings_json player_id block challenge_id algorithm_id selected_track)
        challenge_id (wrap64 (num_bundles * per_bundle)) num_bundles fuel_budget (default JNull (json_get "hyperparameters" selected)) compute_type fee_paid
        (String.append "rh_" id) (fw_height w) None None None None None None None false false).
Definition add_bench (b : Bench) (w : World) : World :=
  MkFakeWorld (fw_cfg w) (fw_fixture w) (fw_height w) (fw_round w) (fw_timestamp w) (fw_seconds_between_blocks w) (fw_blocks_per_round w)
    (wrap64 (fw_next_bench_seq w + 1)) (bt_insert (be_id b) b (fw_benchmarks w)) (fw_injections w) (fw_writes_received w).

(** The frame of the three writes: the key, the count, the injection; a request
    whose answer is to be lost is applied first. *)
Definition write_route (target : string) (key : option string) (apply : World -> result ApiError (Value * World)) : Route := fun w =>
  match require_api_key w key with
  | Err e => (Failed e, w)
  | Ok _ =>
      let (injection, w) := take_injection target (count_write target w) in
      let go :=
        match apply w with
        | Err e => (Failed e, w)
        | Ok (v, w') => (match injection with Some InjAmbiguous => Failed (injected_response InjAmbiguous) | _ => Replied v end, w')
        end in
      match injection with
      | Some InjAmbiguous | None => go
      | Some mode => (Failed (injected_response mode), w)
      end
  end.
Definition apply_precommit (body : Value) (w : World) : result ApiError (Value * World) :=
  let? bench := precommit_bench w body in
  Ok (json_object [("benchmark_id", JString (be_id bench))], add_bench bench w).
Definition submit_precommit (key : option string) (body : Value) : Route := write_route "submit-precommit" key (apply_precommit body).

Definition submission_of (height : Z) (b : Bench) (stopped : bool) (merkle_root solution_quality : Value) : result ApiError BenchmarkSubmission :=
  if stopped then
    let? _ := refuse_if (negb (json_is_null merkle_root) || negb (json_is_null solution_quality)) "stopped submission must have null merkle_root and solution_quality" in
    Ok (MkBenchSubmission true None None height None None)
  else
    let? root := ok_or (json_as_str merkle_root) (bad_request "missing merkle_root") in
    let? _ := refuse_if (negb (String.length root =? 64)%nat || negb (all_bytes is_lower_hex root)) "merkle_root must be 64 lowercase hex characters" in
    let? quality := ok_or (json_as_array solution_quality) (bad_request "missing solution_quality") in
    let? _ := refuse_if (negb (wrap64 (Z.of_nat (length quality)) =? be_num_nonces b))
                (String.concat "" ["solution_quality must have exactly num_nonces = "; pretty (Z.to_N (be_num_nonces b)); " entries"]) in
    let? values := ok_or (mapM json_as_i64 quality) (bad_request "solution_quality entries must be integers") in
    Ok (MkBenchSubmission false (Some root) (Some values) height None None).
Definition apply_benchmark (body : Value) (w : World) : result ApiError (Value * World) :=
  let? id := body_str body "benchmark_id" in
  let? stopped := ok_or (and_then (json_get "stopped" body) json_as_bool) (bad_request "missing bool field stopped") in
  let? bench := ok_or (bt_get id (fw_benchmarks w)) (bad_request "unknown benchmark_id") in
  let? _ := refuse_if (bool_decide (be_precommit_confirmed bench = None)) "precommit not confirmed" in
  let? _ := refuse_if (match be_submission bench with Some _ => true | None => false end) "benchmark already submitted" in
  let? s := submission_of (fw_height w) bench stopped (default JNull (json_get "merkle_root" body)) (default JNull (json_get "solution_quality" body)) in
  Ok (json_object [("ok", JBool true)], with_benchmarks (bt_insert id (with_submission s bench) (fw_benchmarks w)) w).
Definition submit_benchmark (key : option string) (body : Value) : Route := write_route "submit-benchmark" key (apply_benchmark body).

Definition proof_nonce (entry : Value) : result ApiError Z :=
  let? leaf := ok_or (json_get "leaf" entry) (bad_request "merkle proof missing leaf") in
  let? _ := foldM (fun _ field => refuse_if (bool_decide (and_then (json_get field leaf) json_as_u64 = None)) (String.append "leaf missing u64 field " field))
              tt ["nonce"; "runtime_signature"; "fuel_consumed"] in
  let? _ := foldM (fun _ field => let? _ := body_str leaf field in Ok tt) tt ["solution"; "cpu_arch"] in
  let? _ := refuse_if (bool_decide (and_then (json_get "branch" entry) json_as_str = None)) "merkle proof missing branch" in
  Ok (u64_or 0 "nonce" leaf).
Definition apply_proof (body : Value) (w : World) : result ApiError (Value * World) :=
  let? id := body_str body "benchmark_id" in
  let? bench := ok_or (bt_get id (fw_benchmarks w)) (bad_request "unknown benchmark_id") in
  let? s := ok_or (be_submission bench) (bad_request "benchmark not submitted") in
  let? _ := refuse_if (bs_stopped s) "stopped benchmark takes no proof" in
  let? _ := refuse_if (bool_decide (bs_confirmed s = None)) "benchmark not confirmed" in
  let? sampled := ok_or (bs_sampled_nonces s) (bad_request "sampled nonces not yet published") in
  let? _ := refuse_if (match be_proof bench with Some _ => true | None => false end) "proof already submitted" in
  let? proofs := ok_or (and_then (json_get "merkle_proofs" body) json_as_array) (bad_request "missing merkle_proofs") in
  let? provided := mapM_res proof_nonce proofs in
  let? _ := refuse_if (negb (bool_decide (sort_by Z.leb provided = sort_by Z.leb sampled)))
              "merkle_proofs must contain every sampled nonce exactly once and no other nonce" in
  let proof := MkProofSubmission (fw_height w) None (saturating_sub_u (fw_height w) (be_block_started bench)) None in
  Ok (json_object [("ok", JBool true); ("verified", JBool true)], with_benchmarks (bt_insert id (with_proof proof bench) (fw_benchmarks w)) w).
Definition submit_proof (key : option string) (body : Value) : Route := write_route "submit-proof" key (apply_proof body).

(** ** The controls *)

Definition advance_blocks (count : N) (w : World) : World := N.iter count advance_block w.
Definition fake_advance (body : option Value) : Route := fun w =>
  let count := default 1 (and_then (and_then body (json_get "count")) json_as_u64) in
  let w := advance_blocks (Z.to_N count) w in
  (Replied (json_object [("height", json_u64 (fw_height w)); ("block_id", JString (block_id w))]), w).
Definition inject_mode (name : string) : option InjectMode :=
  if String.eqb name "reject" then Some InjReject else if String.eqb name "rate_limit" then Some InjRateLimit
  else if String.eqb name "error" then Some InjError else if String.eqb name "ambiguous" then Some InjAmbiguous else None.
Definition in_world (k : World -> result ApiError (Value * World)) : Route := fun w =>
  match k w with Ok (v, w') => (Replied v, w') | Err e => (Failed e, w) end.
Definition fake_inject (body : Value) : Route := in_world (fun w =>
  let? target := body_str body "target" in
  let? name := body_str body "mode" in
  let? mode := ok_or (inject_mode name) (bad_request (String.append "unknown inject mode " name)) in
  let queue := default [] (fw_injections w !! target) ++ replicate (Z.to_nat (u64_or 1 "count" body)) mode in
  Ok (json_object [("ok", JBool true)], with_injections (<[target := queue]> (fw_injections w)) w)).
Definition ruling_reply (id : string) (w : World) : Value :=
  json_object [("ok", JBool true); ("benchmark_id", JString id); ("published_at", json_u64 (wrap32 (fw_height w + 1)))].
Definition fake_verify (body : Value) : Route := in_world (fun w =>
  let? id := body_str body "benchmark_id" in
  let? bench := ok_or (bt_get id (fw_benchmarks w)) (bad_request (String.append "no benchmark " id)) in
  let? _ := refuse_if (bool_decide (and_then (be_proof bench) pf_confirmed = None))
              (String.concat "" ["benchmark "; id; " has no confirmed proof; §4.5 verifies after PROOF_CONFIRMED"]) in
  let? _ := refuse_if (match be_fraud bench with Some _ => true | None => be_fraud_pending bench end)
              (String.concat "" ["benchmark "; id; " was ruled fraudulent, which §4.5 makes terminal"]) in
  Ok (ruling_reply id w, with_benchmarks (bt_insert id (with_pending true (be_fraud_pending bench) bench) (fw_benchmarks w)) w)).
Definition fake_fraud (body : Value) : Route := in_world (fun w =>
  let? id := body_str body "benchmark_id" in
  let? bench := ok_or (bt_get id (fw_benchmarks w)) (bad_request (String.append "no benchmark " id)) in
  Ok (ruling_reply id w, with_benchmarks (bt_insert id (with_pending (be_verify_pending bench) true bench) (fw_benchmarks w)) w)).
Definition fake_state : Route := fun w =>
  (Replied (json_object [("height", json_u64 (fw_height w)); ("round", json_u64 (fw_round w)); ("block_id", JString (block_id w));
     ("benchmarks", benchmarks_json w); ("active", json_strs (active_benchmark_ids w));
     ("writes_received", json_object (map (fun kv => (kv.1, json_u64 kv.2)) (map_to_list (fw_writes_received w))))]), w).

(** A call of any route. *)
Inductive Call :=
| CallBlock | CallChallenges (p : Params) | CallAlgorithms (p : Params) | CallOpow (p : Params) | CallPlayer (p : Params) | CallBenchmarks (p : Params)
| CallTracks (p : Params) | CallBenchmark (p : Params) | CallBlob (p : Params) | CallEmissions (p : Params)
| CallPrecommit (key : option string) (body : Value) | CallCommitment (key : option string) (body : Value) | CallProof (key : option string) (body : Value)
| CallAdvance (body : option Value) | CallInject (body : Value) | CallVerify (body : Value) | CallFraud (body : Value) | CallState.
Definition route (c : Call) : Route :=
  let id := fun w : World => w in
  match c with
  | CallBlock => get_block id | CallChallenges p => get_challenges id p | CallAlgorithms p => get_algorithms id p | CallOpow p => get_opow id p
  | CallPlayer p => get_player_data id p | CallBenchmarks p => get_benchmarks id p | CallTracks p => get_tracks_data id p
  | CallBenchmark p => get_benchmark_data id p | CallBlob p => get_binary_blob p | CallEmissions p => get_round_emissions p
  | CallPrecommit k b => submit_precommit k b | CallCommitment k b => submit_benchmark k b | CallProof k b => submit_proof k b
  | CallAdvance b => fake_advance b | CallInject b => fake_inject b | CallVerify b => fake_verify b | CallFraud b => fake_fraud b | CallState => fake_state
  end.
Definition run_calls (cs : list Call) (w : World) : World := fold_left (fun w c => (route c w).2) cs w.

(** ** Sampling: the loops end and pick what they should *)

Definition in_range (n x : Z) : Prop := 0 <= x < n.
Lemma skip_stays fuel n : 0 < n < 2 ^ 64 -> forall c picked, in_range n c -> in_range n (skip_picked fuel n c picked).
Proof.
  intros Hn. induction fuel as [|fuel IH]; intros c picked Hc; cbn; destruct (bool_decide _); try done.
  apply IH. unfold in_range. apply Z.mod_pos_bound. lia.
Qed.
Lemma skip_all_picked fuel n : 0 < n < 2 ^ 64 -> forall c picked, in_range n c -> skip_picked fuel n c picked ∈ picked ->
  forall j, (j <= fuel)%nat -> (c + Z.of_nat j) mod n ∈ picked.
Proof.
  intros Hn. induction fuel as [|fuel IH]; intros c picked Hc; cbn [skip_picked]; destruct (bool_decide_reflect (c ∈ picked)) as [Hin|Hin]; try done.
  - intros _ j Hj. assert (j = 0%nat) as -> by lia. rewrite Z.add_0_r, Z.mod_small by exact Hc. done.
  - intros Hs j Hj. destruct j as [|j]; [rewrite Z.add_0_r, Z.mod_small by exact Hc; done|].
    assert (Hw : wrap64 (c + 1) = c + 1) by (unfold wrap64, in_range in *; apply Z.mod_small; lia). rewrite Hw in Hs.
    assert (Hr : in_range n ((c + 1) mod n)) by (apply Z.mod_pos_bound; lia).
    pose proof (IH _ _ Hr Hs j ltac:(lia)) as H. rewrite Z.add_mod_idemp_l in H by lia. by replace (c + Z.of_nat (S j)) with (c + 1 + Z.of_nat j) by lia.
Qed.
Lemma residues_distinct n c k : 0 < n -> Z.of_nat k <= n -> NoDup (map (fun j => (c + Z.of_nat j) mod n) (seq 0 k)).
Proof.
  intros Hn Hk. apply NoDup_alt. intros i j x Hi Hj. rewrite !list_lookup_fmap in *.
  destruct (seq 0 k !! i) as [a|] eqn:Ea; [|done]. destruct (seq 0 k !! j) as [b|] eqn:Eb; [|done].
  apply lookup_seq in Ea as [-> Ha], Eb as [-> Hb]. cbn in Hi, Hj. injection Hi as Hi. injection Hj as Hj.
  assert (Hm : ((c + Z.of_nat i) - (c + Z.of_nat j)) mod n = 0) by (rewrite Zminus_mod, Hi, Hj, Z.sub_diag; apply Z.mod_0_l; lia).
  apply Z.mod_divide in Hm; [|lia]. destruct Hm as [q Hq]. assert (q = 0) as -> by nia. lia.
Qed.
Lemma skip_picked_free n c picked : 0 < n < 2 ^ 64 -> in_range n c -> Z.of_nat (length picked) < n ->
  skip_picked (length picked) n c picked ∉ picked.
Proof.
  intros Hn Hc Hlen Hin. pose proof (skip_all_picked _ _ Hn _ _ Hc Hin) as Hall.
  pose proof (residues_distinct n c (S (length picked)) ltac:(lia) ltac:(lia)) as Hnd.
  assert (Hsub : map (fun j => (c + Z.of_nat j) mod n) (seq 0 (S (length picked))) ⊆+ picked).
  { apply NoDup_submseteq; [done|]. intros x Hx. apply list_elem_of_fmap in Hx as (j & -> & Hj). apply Hall. apply elem_of_seq in Hj. lia. }
  apply submseteq_length in Hsub. rewrite length_map, length_seq in Hsub. lia.
Qed.
Lemma pick_nonces_spec left offset n count : 0 < n < 2 ^ 64 -> forall i picked, NoDup picked -> Forall (in_range n) picked ->
  Z.of_nat (left + length picked) <= n ->
  let l := pick_nonces left offset n count i picked in
  NoDup l /\ Forall (in_range n) l /\ length l = (left + length picked)%nat.
Proof.
  intros Hn. induction left as [|left IH]; intros i picked Hnd Hr Hlen; cbn [pick_nonces]; [done|].
  set (first := _ mod n). assert (Hf : in_range n first) by (apply Z.mod_pos_bound; lia).
  set (x := skip_picked _ _ _ _). assert (Hx : x ∉ picked) by (apply skip_picked_free; [done|done|lia]).
  destruct (IH (i + 1) (picked ++ [x])) as (H1 & H2 & H3).
  - apply NoDup_app. split_and!; [done| |apply NoDup_singleton]. intros y Hy Hy'%list_elem_of_singleton. by subst.
  - apply Forall_app. split; [done|]. constructor; [|done]. by apply skip_stays.
  - rewrite length_app. cbn. lia.
  - split_and!; [done..|]. rewrite H3, length_app. cbn. lia.
Qed.

(** The sampled nonces of a benchmark are distinct nonces of it, in order, and as
    many as asked for or as there are: the search for a free one always ends at
    one, within as many steps as nonces were picked before. *)
Theorem sample_is_of_distinct_nonces id num_nonces count :
  0 <= num_nonces < 2 ^ 64 -> 0 <= count ->
  let l := sample_nonces id num_nonces count in
  NoDup l /\ Forall (in_range num_nonces) l /\ Z.of_nat (length l) = Z.min count num_nonces /\
  StronglySorted (fun a b => (a <=? b) = true) l.
Proof.
  intros Hn Hc. unfold sample_nonces. set (picked := pick_nonces _ _ _ _ _ _).
  assert (Hp : NoDup picked /\ Forall (in_range num_nonces) picked /\ Z.of_nat (length picked) = Z.min count num_nonces).
  { destruct (Z.eq_dec num_nonces 0) as [-> |Hne].
    - unfold picked. replace (Z.to_nat (Z.min count 0)) with 0%nat by lia. split_and!; [constructor|constructor|cbn; lia].
    - destruct (pick_nonces_spec (Z.to_nat (Z.min count num_nonces)) (byte_sum id mod Z.max num_nonces 1) num_nonces (Z.min count num_nonces) ltac:(lia) 0 [])
        as (H1 & H2 & H3); [constructor|constructor|cbn; lia|]. split_and!; [done..|]. unfold picked. rewrite H3. cbn. lia. }
  destruct Hp as (H1 & H2 & H3). pose proof (sort_by_perm Z.leb picked) as Hperm. split_and!.
  - by rewrite Hperm.
  - by rewrite Hperm.
  - by rewrite Hperm.
  - apply sort_by_sorted; intros; lia.
Qed.
Example sample_is_of_distinct_nonces_witness : sample_nonces "bench-0001" 10 3 = [0; 3; 6] /\ NoDup [0; 3; 6].
Proof. split; [vm_compute; reflexivity|]. apply (sample_is_of_distinct_nonces "bench-0001" 10 3); lia. Defined.

(** ** Benchmark ids *)

Lemma zeros_value n s : atoms_value (zeros n s) = atoms_value s.
Proof. induction n as [|n IH]; [done|]. cbn [zeros]. rewrite atoms_value_cons, IH. change (digit_value (Ascii.ascii_of_N 48)) with 0. lia. Qed.
Lemma pretty_value (n : N) : atoms_value (pretty n) = Z.of_N n.
Proof.
  unfold pretty, pretty_N. case_decide as H0; [by subst|]. destruct (pretty_go_spec n "" eq_refl) as (_ & -> & _). unfold pow10, atoms_value. cbn. lia.
Qed.
Lemma bench_id_inj a b : 0 <= a -> 0 <= b -> bench_id a = bench_id b -> a = b.
Proof.
  intros Ha Hb E. unfold bench_id in E. apply (f_equal (Text.strip_prefix "bench-")) in E. rewrite !strip_prefix_append in E. injection E as E. apply (f_equal atoms_value) in E. unfold pad4 in E.
  rewrite !zeros_value, !pretty_value in E. lia.
Qed.

(** ** What a call does to the world

    Nothing but the queues and the counts; a benchmark added; one benchmark a
    step further; or a block. *)
Definition same_core (w w' : World) : Prop :=
  w' = MkFakeWorld (fw_cfg w) (fw_fixture w) (fw_height w) (fw_round w) (fw_timestamp w) (fw_seconds_between_blocks w) (fw_blocks_per_round w)
         (fw_next_bench_seq w) (fw_benchmarks w) (fw_injections w') (fw_writes_received w').
Inductive bench_step (height : Z) (b : Bench) : Bench -> Prop :=
| step_commit s h : be_precommit_confirmed b = Some h -> be_submission b = None -> bs_submitted_height s = height -> bs_confirmed s = None ->
    bs_sampled_nonces s = None -> bench_step height b (with_submission s b)
| step_prove s h delay : be_submission b = Some s -> bs_stopped s = false -> bs_confirmed s = Some h -> be_proof b = None ->
    bench_step height b (with_proof (MkProofSubmission height None delay None) b)
| step_verify p h : be_proof b = Some p -> pf_confirmed p = Some h -> be_fraud b = None -> be_fraud_pending b = false ->
    bench_step height b (with_pending true (be_fraud_pending b) b)
| step_fraud : bench_step height b (with_pending (be_verify_pending b) true b).
Inductive effect (w : World) : World -> Prop :=
| effect_quiet w' : same_core w w' -> effect w w'
| effect_added w1 body b w' : same_core w w1 -> precommit_bench w1 body = Ok b -> same_core (add_bench b w) w' -> effect w w'
| effect_step id b b' w' : bt_get id (fw_benchmarks w) = Some b -> bench_step (fw_height w) b b' ->
    same_core (with_benchmarks (bt_insert id b' (fw_benchmarks w)) w) w' -> effect w w'.
Lemma same_core_refl w : same_core w w.
Proof. by destruct w. Qed.
Lemma same_core_trans w1 w2 w3 : same_core w1 w2 -> same_core w2 w3 -> same_core w1 w3.
Proof. unfold same_core. intros -> ->. done. Qed.
Lemma take_injection_core target w : same_core w (take_injection target w).2.
Proof. unfold take_injection. destruct (fw_injections w !! target) as [[|m q]|]; by destruct w. Qed.
Lemma count_write_core target w : same_core w (count_write target w).
Proof. done. Qed.
#[local] Hint Resolve same_core_refl take_injection_core count_write_core : core.

(** A check that passed. *)
Lemma refuse_if_Ok b msg : refuse_if b msg = Ok tt <-> b = false.
Proof. destruct b; by split. Qed.
Lemma after_injection_core target k w : same_core w (after_injection target (fun w => w) k w).2.
Proof. unfold after_injection. pose proof (take_injection_core target w) as H. by destruct (take_injection target w) as [[m|] w1]. Qed.
(** The frame of a write, given what its body does. *)
Lemma write_route_effect target key apply w :
  (forall w1 v w', same_core w w1 -> apply w1 = Ok (v, w') -> effect w w') -> effect w (write_route target key apply w).2.
Proof.
  intros Happly. unfold write_route. destruct (require_api_key w key); [|by apply effect_quiet].
  pose proof (take_injection_core target (count_write target w)) as Hc. destruct (take_injection target (count_write target w)) as [inj w1]. cbn [snd] in Hc.
  assert (Hc1 : same_core w w1) by (eapply same_core_trans; [apply count_write_core|exact Hc]).
  assert (Hgo : effect w (match apply w1 with Err e => (Failed e, w1)
    | Ok (v, w') => (match inj with Some InjAmbiguous => Failed (injected_response InjAmbiguous) | _ => Replied v end, w') end).2).
  { destruct (apply w1) as [[v w']|e] eqn:E; [by eapply Happly|by apply effect_quiet]. }
  destruct inj as [[]|]; try exact Hgo; by apply effect_quiet.
Qed.
Lemma in_world_effect k w : (forall v w', k w = Ok (v, w') -> effect w w') -> effect w (in_world k w).2.
Proof. intros Hk. unfold in_world. destruct (k w) as [[v w']|e] eqn:E; [by eapply Hk|by apply effect_quiet]. Qed.

(** Works through the checks of a handler that returned a value. *)
Ltac passed H :=
  repeat match type of H with
  | (let? _ := ok_or ?o _ in _) = Ok _ => destruct o eqn:?; [cbn [ok_or] in H|discriminate H]
  | (let? _ := refuse_if ?b _ in _) = Ok _ => destruct b eqn:?; [discriminate H|cbn [refuse_if] in H]
  | (let? _ := ?r in _) = Ok _ => destruct r eqn:?; [|discriminate H]
  end.

Lemma apply_precommit_effect body w w1 v w' : same_core w w1 -> apply_precommit body w1 = Ok (v, w') -> effect w w'.
Proof.
  intros Hc E. unfold apply_precommit in E. destruct (precommit_bench w1 body) as [b|] eqn:Hb; [|discriminate E]. injection E as _ <-.
  eapply effect_added; [exact Hc|exact Hb|]. unfold same_core in Hc. by rewrite Hc.
Qed.
Lemma submission_of_new height b stopped root quality s : submission_of height b stopped root quality = Ok s ->
  bs_submitted_height s = height /\ bs_confirmed s = None /\ bs_sampled_nonces s = None /\ bs_stopped s = stopped.
Proof. intros E. unfold submission_of in E. destruct stopped; passed E; by injection E as <-. Qed.
Lemma is_some_none {A} (o : option A) : (match o with Some _ => true | None => false end) = false -> o = None.
Proof. by destruct o. Qed.
Lemma decided_some {A} `{EqDecision A} (o : option A) : bool_decide (o = None) = false -> exists a, o = Some a.
Proof. rewrite bool_decide_eq_false. destruct o; [by eexists|done]. Qed.
Lemma apply_benchmark_effect body w w1 v w' : same_core w w1 -> apply_benchmark body w1 = Ok (v, w') -> effect w w'.
Proof.
  intros Hc E. unfold apply_benchmark in E. passed E. injection E as _ <-. unfold same_core in Hc.
  repeat match goal with H : bool_decide (_ = None) = false |- _ => apply decided_some in H as [? ?] | H : match _ with Some _ => true | None => false end = false |- _ => apply is_some_none in H end.
  match goal with H : submission_of _ _ _ _ _ = Ok _ |- _ => destruct (submission_of_new _ _ _ _ _ _ H) as (? & ? & ? & ?) end.
  rewrite Hc in *. eapply effect_step; [eassumption|eapply step_commit; eassumption|]. done.
Qed.
Lemma apply_proof_effect body w w1 v w' : same_core w w1 -> apply_proof body w1 = Ok (v, w') -> effect w w'.
Proof.
  intros Hc E. unfold apply_proof in E. passed E. injection E as _ <-. unfold same_core in Hc.
  repeat match goal with H : bool_decide (_ = None) = false |- _ => apply decided_some in H as [? ?] | H : match _ with Some _ => true | None => false end = false |- _ => apply is_some_none in H end.
  rewrite Hc in *. eapply effect_step; [eassumption|eapply step_prove; eassumption|]. done.
Qed.
Lemma route_effect c w : match c with CallAdvance _ => True | _ => effect w (route c w).2 end.
Proof.
  destruct c; try exact I; cbn [route]; try (by apply effect_quiet, after_injection_core); try (by apply effect_quiet, same_core_refl).
  - apply write_route_effect. intros. by eapply apply_precommit_effect.
  - apply write_route_effect. intros. by eapply apply_benchmark_effect.
  - apply write_route_effect. intros. by eapply apply_proof_effect.
  - apply in_world_effect. intros v w' E. passed E. injection E as _ <-. by apply effect_quiet.
  - apply in_world_effect. intros v w' E. passed E. injection E as _ <-.
    match goal with H : bool_decide (_ = None) = false |- _ => apply decided_some in H as [? Hp] end. apply and_then_Some in Hp as (p & Hp & Hh).
    eapply effect_step; [eassumption| |done]. destruct (be_fraud b) eqn:Hf; [done|]. eapply step_verify; eassumption.
  - apply in_world_effect. intros v w' E. passed E. injection E as _ <-. eapply effect_step; [eassumption|apply step_fraud|done].
Qed.

(** ** The lifecycle of a benchmark *)

Record bench_ok (height : Z) (b : Bench) : Prop := {
  bo_started : 0 <= be_block_started b <= height;
  bo_precommit : forall h, be_precommit_confirmed b = Some h -> be_block_started b < h <= height;
  bo_submission : forall s, be_submission b = Some s -> exists h, be_precommit_confirmed b = Some h /\ h <= bs_submitted_height s <= height;
  bo_confirmed : forall s h, be_submission b = Some s -> bs_confirmed s = Some h -> bs_submitted_height s < h <= height;
  bo_proof : forall p, be_proof b = Some p -> exists s h, be_submission b = Some s /\ bs_stopped s = false /\ bs_confirmed s = Some h /\
    h <= pf_submitted_height p <= height;
  bo_proved : forall p h, be_proof b = Some p -> pf_confirmed p = Some h -> pf_submitted_height p < h <= height;
  bo_verified : forall h, be_verified b = Some h -> exists p hp, be_proof b = Some p /\ pf_confirmed p = Some hp /\ hp < h <= height;
  bo_asked : be_verify_pending b = true -> exists p hp, be_proof b = Some p /\ pf_confirmed p = Some hp;
  bo_fraud : forall h, be_fraud b = Some h -> be_block_started b < h <= height;
  bo_settings : exists player block challenge algorithm track, be_settings b = settings_json player block challenge algorithm track;
}.
(** A commitment's nonces are published exactly when it is confirmed, unless it
    was stopped. *)
Definition sampled_ok (b : Bench) : Prop := forall s, be_submission b = Some s ->
  is_Some (bs_sampled_nonces s) <-> is_Some (bs_confirmed s) /\ bs_stopped s = false.
Record world_ok (w : World) : Prop := {
  wk_height : 0 <= fw_height w < 2 ^ 32;
  wk_wf : bt_wf (fw_benchmarks w);
  wk_next : 1 <= fw_next_bench_seq w < 2 ^ 64;
  wk_id : forall id b, bt_get id (fw_benchmarks w) = Some b -> be_id b = id /\ exists seq, 1 <= seq < fw_next_bench_seq w /\ id = bench_id seq;
  wk_bench : forall id b, bt_get id (fw_benchmarks w) = Some b -> bench_ok (fw_height w) b /\ sampled_ok b;
}.

Lemma bench_ok_step h b b' : bench_ok h b -> sampled_ok b -> bench_step h b b' -> bench_ok h b' /\ sampled_ok b'.
Proof.
  intros Hok Hs Hstep. destruct Hok. destruct Hstep; (split; [constructor|]); unfold sampled_ok in *; simpl in *; try done.
  - intros s' [= <-]. exists h0. split; [done|]. destruct (bo_precommit0 _ H). lia.
  - intros s' h' [= <-] Hc. congruence.
  - intros p Hp. destruct (bo_proof0 p Hp) as (? & ? & ? & _). congruence.
  - intros s' [= <-]. rewrite H2, H3. split; [by intros [? ?]|by intros [[? ?] _]].
  - intros p [= <-]. exists s, h0. destruct (bo_confirmed0 _ _ H H1). simpl. split_and!; [done..|lia|lia].
  - by intros p h' [= <-].
  - intros h' Hv. destruct (bo_verified0 _ Hv) as (p & ? & Hp & _). congruence.
  - intros Hv. destruct (bo_asked0 Hv) as (p & ? & Hp & _). congruence.
  - intros _. by exists p, h0.
Qed.

Lemma settle_fields h d b b' sampling act : settle_bench h d b = (b', sampling, act) ->
  be_id b' = be_id b /\ be_settings b' = be_settings b /\ be_challenge_id b' = be_challenge_id b /\ be_num_nonces b' = be_num_nonces b /\
  be_num_bundles b' = be_num_bundles b /\ be_fuel_budget b' = be_fuel_budget b /\ be_hyperparameters b' = be_hyperparameters b /\
  be_compute_type b' = be_compute_type b /\ be_block_started b' = be_block_started b.
Proof.
  unfold settle_bench. destruct (match be_submission b with Some _ => _ | None => _ end) as [x y]. destruct (match be_proof b with Some _ => _ | None => _ end) as [z t].
  intros [= <- <- <-]. done.
Qed.
Definition settled_precommit (h d : Z) (b : Bench) : option Z :=
  match be_precommit_confirmed b with Some h0 => Some h0 | None => if wrap32 (be_block_started b + d) <=? h then Some h else None end.
Lemma settled_precommit_keeps h d b h0 : be_precommit_confirmed b = Some h0 -> settled_precommit h d b = Some h0.
Proof. unfold settled_precommit. by intros ->. Qed.
Definition confirm_submission (h : Z) (now : bool) (s : BenchmarkSubmission) : BenchmarkSubmission :=
  if now then MkBenchSubmission (bs_stopped s) (bs_root s) (bs_quality s) (bs_submitted_height s) (Some h) (bs_sampled_nonces s) else s.
Definition confirm_proof (h : Z) (now : bool) (p : ProofSubmission) : ProofSubmission :=
  if now then MkProofSubmission (pf_submitted_height p) (Some h) (pf_submission_delay p) (pf_block_active p) else p.
Lemma confirm_submission_spec h now s : (now = true -> bs_confirmed s = None) -> let s' := confirm_submission h now s in
  bs_submitted_height s' = bs_submitted_height s /\ bs_stopped s' = bs_stopped s /\
  (forall x, bs_confirmed s = Some x -> bs_confirmed s' = Some x) /\ (forall x, bs_confirmed s' = Some x -> x = h \/ bs_confirmed s = Some x).
Proof. intros Hnow. destruct now; simpl; [rewrite (Hnow eq_refl)|]; split_and!; try done; intros x; [by intros [= <-]; left|by right]. Qed.
Lemma confirm_proof_spec h now p : (now = true -> pf_confirmed p = None) -> let p' := confirm_proof h now p in
  pf_submitted_height p' = pf_submitted_height p /\ (forall x, pf_confirmed p = Some x -> pf_confirmed p' = Some x) /\
  (forall x, pf_confirmed p' = Some x -> x = h \/ pf_confirmed p = Some x).
Proof. intros Hnow. destruct now; simpl; [rewrite (Hnow eq_refl)|]; split_and!; try done; intros x; [by intros [= <-]; left|by right]. Qed.
(** A confirmed commitment has its nonces, or is to be given them now. *)
Lemma confirm_sampling h now s : (now = true -> bs_confirmed s = None) ->
  (is_Some (bs_sampled_nonces s) <-> is_Some (bs_confirmed s) /\ bs_stopped s = false) -> let s' := confirm_submission h now s in
  if (if now then negb (bs_stopped s) else false) then is_Some (bs_confirmed s') /\ bs_stopped s' = false
  else is_Some (bs_sampled_nonces s') <-> is_Some (bs_confirmed s') /\ bs_stopped s' = false.
Proof.
  intros Hnow Hs. destruct now; simpl; [|done]. rewrite (Hnow eq_refl) in Hs. destruct (bs_stopped s); simpl; [|split; [by eexists|done]].
  rewrite Hs. split; [by intros [[? ?] _]|by intros [_ ?]].
Qed.
(** The block, given what became of the commitment and of the proof. *)
Lemma settled_ok h b b' : bench_ok (h - 1) b ->
  be_block_started b' = be_block_started b -> be_settings b' = be_settings b -> be_verify_pending b' = false ->
  (forall x, be_precommit_confirmed b' = Some x -> x = h \/ be_precommit_confirmed b = Some x) ->
  (forall x, be_precommit_confirmed b = Some x -> be_precommit_confirmed b' = Some x) ->
  be_verified b' = (if be_verify_pending b then Some h else be_verified b) -> be_fraud b' = (if be_fraud_pending b then Some h else be_fraud b) ->
  match be_submission b, be_submission b' with
  | Some s, Some s' => exists now, (now = true -> bs_confirmed s = None) /\ s' = confirm_submission h now s
  | None, None => True | _, _ => False
  end ->
  match be_proof b, be_proof b' with
  | Some p, Some p' => exists now, (now = true -> pf_confirmed p = None) /\ p' = confirm_proof h now p
  | None, None => True | _, _ => False
  end -> bench_ok h b'.
Proof.
  intros Hok Hst Hset Hvp Hpre Hpre' Hver Hfr Hsub Hprf. destruct Hok.
  assert (Hs : forall s', be_submission b' = Some s' -> exists s now, be_submission b = Some s /\ (now = true -> bs_confirmed s = None) /\ s' = confirm_submission h now s).
  { intros s' E. rewrite E in Hsub. destruct (be_submission b) as [s|]; [|done]. destruct Hsub as (now & ? & ?). by exists s, now. }
  assert (Hp : forall p', be_proof b' = Some p' -> exists p now, be_proof b = Some p /\ (now = true -> pf_confirmed p = None) /\ p' = confirm_proof h now p).
  { intros p' E. rewrite E in Hprf. destruct (be_proof b) as [p|]; [|done]. destruct Hprf as (now & ? & ?). by exists p, now. }
  assert (Hp' : forall p x, be_proof b = Some p -> pf_confirmed p = Some x -> exists p', be_proof b' = Some p' /\ pf_confirmed p' = Some x /\ x <= h - 1).
  { intros p x E Hx. destruct (bo_proved0 _ _ E Hx). rewrite E in Hprf. destruct (be_proof b') as [p'|]; [|done]. destruct Hprf as (now & Hn & ->).
    destruct (confirm_proof_spec h now p Hn) as (_ & Hk & _). eexists. split; [done|]. split; [by apply Hk|lia]. }
  constructor; rewrite ?Hst, ?Hset, ?Hver, ?Hfr, ?Hvp; try done; try lia.
  - intros x [-> | Hx]%Hpre; [lia|]. destruct (bo_precommit0 _ Hx). lia.
  - intros s' (s & now & Es & Hn & ->)%Hs. destruct (bo_submission0 _ Es) as (hp & Hhp & ?). destruct (confirm_submission_spec h now s Hn) as (-> & _).
    exists hp. split; [by apply Hpre'|lia].
  - intros s' x (s & now & Es & Hn & ->)%Hs. destruct (confirm_submission_spec h now s Hn) as (-> & _ & _ & Hx). intros [-> | Hc]%Hx.
    + destruct (bo_submission0 _ Es) as (? & ? & ?). lia.
    + destruct (bo_confirmed0 _ _ Es Hc). lia.
  - intros p' (p & now & Ep & Hn & ->)%Hp. destruct (bo_proof0 _ Ep) as (s & h0 & Es & Hstop & Hc & ?). rewrite Es in Hsub. destruct (be_submission b') as [s'|]; [|done].
    destruct Hsub as (now' & Hn' & ->). destruct (confirm_submission_spec h now' s Hn') as (_ & Hst' & Hk & _). destruct (confirm_proof_spec h now p Hn) as (-> & _).
    eexists _, h0. split; [done|]. rewrite Hst'. split_and!; [done|by apply Hk|lia|lia].
  - intros p' x (p & now & Ep & Hn & ->)%Hp. destruct (confirm_proof_spec h now p Hn) as (-> & _ & Hx). intros [-> | Hc]%Hx.
    + destruct (bo_proof0 _ Ep) as (? & ? & ? & ? & ? & ?). lia.
    + destruct (bo_proved0 _ _ Ep Hc). lia.
  - intros x Hx. destruct (be_verify_pending b).
    + destruct (bo_asked0 eq_refl) as (p & y & Ep & Hy). destruct (Hp' _ _ Ep Hy) as (p' & ? & ? & ?). exists p', y. split_and!; [done..|injection Hx; lia|injection Hx; lia].
    + destruct (bo_verified0 _ Hx) as (p & y & Ep & Hy & ?). destruct (Hp' _ _ Ep Hy) as (p' & ? & ? & ?). exists p', y. split_and!; [done..|lia|lia].
  - intros x. destruct (be_fraud_pending b); [intros [= <-]; lia|]. intros Hf. destruct (bo_fraud0 _ Hf). lia.
Qed.
Lemma settle_ok h d b b' sampling act : bench_ok (h - 1) b -> sampled_ok b -> settle_bench h d b = (b', sampling, act) ->
  bench_ok h b' /\ (if sampling then exists s, be_submission b' = Some s /\ is_Some (bs_confirmed s) /\ bs_stopped s = false else sampled_ok b').
Proof.
  intros Hok Hs E. unfold settle_bench in E. fold (settled_precommit h d b) in E.
  assert (Hpre : forall x, settled_precommit h d b = Some x -> x = h \/ be_precommit_confirmed b = Some x).
  { unfold settled_precommit. destruct (be_precommit_confirmed b); [by right|]. destruct (_ <=? h); [|done]. intros x [= <-]. by left. }
  destruct (match be_submission b with Some _ => _ | None => _ end) as [sub samp] eqn:Esub.
  destruct (match be_proof b with Some _ => _ | None => _ end) as [prf a] eqn:Eprf. injection E as <- <- <-.
  assert (Hsub : match be_submission b, sub with
    | Some s, Some s' => exists now, (now = true -> bs_confirmed s = None) /\ s' = confirm_submission h now s /\ samp = if now then negb (bs_stopped s) else false
    | None, None => samp = false | _, _ => False end).
  { destruct (be_submission b) as [s|]; [|by injection Esub as <- <-]. destruct (bool_decide (bs_confirmed s = None)) eqn:En; simpl in Esub.
    - apply bool_decide_eq_true in En. destruct (_ && _); injection Esub as <- <-; [by exists true|by exists false].
    - injection Esub as <- <-. by exists false. }
  split.
  - eapply settled_ok; [exact Hok|done|done|done|exact Hpre|apply settled_precommit_keeps|done|done| |]; simpl.
    + destruct (be_submission b), sub; try done. destruct Hsub as (now & ? & ? & _). by exists now.
    + destruct (be_proof b) as [p|]; [|by injection Eprf as <- <-]. destruct (bool_decide (pf_confirmed p = None)) eqn:En; simpl in Eprf.
      * apply bool_decide_eq_true in En. destruct (_ <=? h); injection Eprf as <- <-; [by exists true|by exists false].
      * injection Eprf as <- <-. by exists false.
  - unfold sampled_ok. simpl. destruct (be_submission b) as [s|] eqn:Es, sub as [s'|]; try done; [|by subst samp].
    destruct Hsub as (now & Hn & -> & ->). pose proof (confirm_sampling h now s Hn (Hs s Es)) as Hc. simpl in Hc.
    destruct (if now then negb (bs_stopped s) else false); [by eexists|]. by intros x [= <-].
Qed.
Lemma sample_ok w h b s : bench_ok h b -> be_submission b = Some s -> is_Some (bs_confirmed s) -> bs_stopped s = false ->
  bench_ok h (sample_bench w b) /\ sampled_ok (sample_bench w b).
Proof.
  intros Hok Es Hc Hst. unfold sample_bench. rewrite Es. destruct Hok. split.
  - constructor; simpl; try done.
    + intros s' [= <-]. exact (bo_submission0 s Es).
    + intros s' h0 [= <-]. exact (bo_confirmed0 s h0 Es).
    + intros p Hp. destruct (bo_proof0 p Hp) as (s0 & h0 & Hs0 & ? & ? & ?). rewrite Es in Hs0. injection Hs0 as <-. eexists _, h0. split; [done|]. done.
  - intros s' [= <-]. simpl. split; [done|]. intros _. by eexists.
Qed.
Lemma activate_ok w h delay b : bench_ok h b -> sampled_ok b -> bench_ok h (activate_bench w h delay b) /\ sampled_ok (activate_bench w h delay b).
Proof.
  intros Hok Hs. split; [|exact Hs]. destruct Hok. unfold activate_bench. constructor; simpl; try done.
  - intros p. destruct (be_proof b) as [q|] eqn:Eq; [|done]. intros [= <-]. exact (bo_proof0 q eq_refl).
  - intros p x. destruct (be_proof b) as [q|] eqn:Eq; [|done]. intros [= <-]. exact (bo_proved0 q x eq_refl).
  - intros x Hx. destruct (bo_verified0 _ Hx) as (q & hq & -> & Hq & ?). eexists _, hq. by split.
  - intros Hv. destruct (bo_asked0 Hv) as (q & hq & -> & Hq). eexists _, hq. by split.
Qed.
Lemma advance_bench_ok w h b : bench_ok (h - 1) b -> sampled_ok b -> bench_ok h (advance_bench w h b) /\ sampled_ok (advance_bench w h b).
Proof.
  intros Hok Hs. unfold advance_bench. destruct (settle_bench h _ b) as [[b1 sampling] act] eqn:E. destruct (settle_ok _ _ _ _ _ _ Hok Hs E) as [Hok1 Hs1].
  assert (H2 : bench_ok h (if sampling then sample_bench w b1 else b1) /\ sampled_ok (if sampling then sample_bench w b1 else b1)).
  { destruct sampling; [|done]. destruct Hs1 as (s & Es & Hc & Hst). by eapply sample_ok. }
  destruct H2. destruct act as [delay|]; [by apply activate_ok|by split].
Qed.
(** What makes a benchmark the precommit that was submitted. *)
Definition same_precommit (b b' : Bench) : Prop :=
  be_id b' = be_id b /\ be_settings b' = be_settings b /\ be_num_bundles b' = be_num_bundles b /\ be_fuel_budget b' = be_fuel_budget b /\
  be_hyperparameters b' = be_hyperparameters b /\ be_compute_type b' = be_compute_type b /\ be_block_started b' = be_block_started b.
Lemma advance_same_precommit w h b : same_precommit b (advance_bench w h b).
Proof.
  unfold advance_bench. destruct (settle_bench h _ b) as [[b1 sampling] act] eqn:E. apply settle_fields in E as (E1 & E2 & _ & _ & E3 & E4 & E5 & E6 & E7).
  unfold same_precommit. destruct sampling, act as [delay|]; unfold sample_bench, activate_bench; destruct (be_submission b1); done.
Qed.
Lemma step_same_precommit h b b' : bench_step h b b' -> same_precommit b b'.
Proof. by destruct 1. Qed.

(** ** Worlds *)

Lemma precommit_bench_new w body b : precommit_bench w body = Ok b ->
  be_id b = bench_id (fw_next_bench_seq w) /\ be_block_started b = fw_height w /\ be_precommit_confirmed b = None /\ be_submission b = None /\
  be_proof b = None /\ be_verified b = None /\ be_fraud b = None /\ be_active_from b = None /\ be_verify_pending b = false /\
  exists player block challenge algorithm track, be_settings b = settings_json player block challenge algorithm track.
Proof. unfold precommit_bench. intros E. passed E. injection E as <-. do 9 (split; [done|]). by repeat eexists. Qed.
Lemma new_bench_ok w w1 body b : world_ok w -> same_core w w1 -> precommit_bench w1 body = Ok b ->
  be_id b = bench_id (fw_next_bench_seq w) /\ bench_ok (fw_height w) b /\ sampled_ok b /\ bt_get (be_id b) (fw_benchmarks w) = None.
Proof.
  intros Hok Hc E. apply precommit_bench_new in E as (Hid & Hst & Hp & Hs & Hpr & Hv & Hf & _ & Hq & Hset). unfold same_core in Hc. rewrite Hc in Hid, Hst. simpl in Hid, Hst.
  destruct Hok. split; [done|]. split; [|split].
  - constructor; rewrite ?Hst, ?Hp, ?Hs, ?Hpr, ?Hv, ?Hf, ?Hq; try done; lia.
  - intros s. by rewrite Hs.
  - destruct (bt_get (be_id b) (fw_benchmarks w)) as [b0|] eqn:E; [|done]. destruct (wk_id0 _ _ E) as (_ & seq & Hseq & Hk). rewrite Hid in Hk. apply bench_id_inj in Hk; lia.
Qed.
Lemma core_ok w w' : same_core w w' -> world_ok w -> world_ok w'.
Proof. intros Hc [? ? ? ? ?]. unfold same_core in Hc. rewrite Hc. by constructor. Qed.
Lemma effect_ok w w' : fw_next_bench_seq w + 1 < 2 ^ 64 -> world_ok w -> effect w w' -> world_ok w'.
Proof.
  intros Hn Hok Heff. destruct Heff as [w' Hc|w1 body b w' Hc Hb Hc'|id b b' w' Hg Hs Hc].
  - by eapply core_ok.
  - eapply core_ok; [exact Hc'|]. destruct (new_bench_ok _ _ _ _ Hok Hc Hb) as (Hid & Hbo & Hso & Hnone). destruct Hok.
    assert (Hw : wrap64 (fw_next_bench_seq w + 1) = fw_next_bench_seq w + 1) by (apply Z.mod_small; lia).
    constructor; simpl; rewrite ?Hw; try done; [by apply bt_insert_wf|lia| |].
    + intros id b0. rewrite bt_get_insert. case_decide as E; [|intros Hg; destruct (wk_id0 _ _ Hg) as (? & q & ? & ?); split; [done|]; exists q; split; [lia|done]].
      intros [= <-]. subst id. split; [done|]. exists (fw_next_bench_seq w). split; [lia|done].
    + intros id b0. rewrite bt_get_insert. case_decide; [by intros [= <-]|apply wk_bench0].
  - eapply core_ok; [exact Hc|]. destruct Hok. destruct (wk_bench0 _ _ Hg) as [Hb1 Hb2]. destruct (bench_ok_step _ _ _ Hb1 Hb2 Hs) as [Hb1' Hb2'].
    destruct (step_same_precommit _ _ _ Hs) as [Hid _]. constructor; simpl; try done; [by apply bt_insert_wf| |].
    + intros id0 b0. rewrite bt_get_insert. case_decide as E; [|apply wk_id0]. intros [= <-]. subst id0. destruct (wk_id0 _ _ Hg) as [Hi Hq]. split; [congruence|done].
    + intros id0 b0. rewrite bt_get_insert. case_decide; [by intros [= <-]|apply wk_bench0].
Qed.
Lemma advance_block_ok w : fw_height w + 1 < 2 ^ 32 -> world_ok w -> world_ok (advance_block w) /\ fw_height (advance_block w) = fw_height w + 1.
Proof.
  intros Hh Hok. destruct Hok. unfold advance_block. assert (Hw : wrap32 (fw_height w + 1) = fw_height w + 1) by (apply Z.mod_small; lia). rewrite Hw.
  split; [|done]. constructor; simpl; try done; [lia|by apply bt_map_wf| |].
  - intros id b Hg. rewrite bt_get_map in Hg. destruct (bt_get id (fw_benchmarks w)) as [b0|] eqn:E; [|done]. injection Hg as <-.
    destruct (wk_id0 _ _ E) as [Hi Hq]. destruct (advance_same_precommit w (fw_height w + 1) b0) as [Hid _]. split; [congruence|done].
  - intros id b Hg. rewrite bt_get_map in Hg. destruct (bt_get id (fw_benchmarks w)) as [b0|] eqn:E; [|done]. injection Hg as <-.
    destruct (wk_bench0 _ _ E). apply advance_bench_ok; [by replace (fw_height w + 1 - 1) with (fw_height w) by lia|done].
Qed.

(** ** Runs of the server *)

(** A call of any route but the one that makes blocks, or a block, while the
    counters have room. *)
Inductive fake_step (w : World) : World -> Prop :=
| fake_call c : (forall body, c <> CallAdvance body) -> fw_next_bench_seq w + 1 < 2 ^ 64 -> fake_step w (route c w).2
| fake_block : fw_height w + 1 < 2 ^ 32 -> fake_step w (advance_block w).
Lemma call_effect c w : (forall body, c <> CallAdvance body) -> effect w (route c w).2.
Proof. intros Hc. pose proof (route_effect c w). destruct c; try done. by destruct (Hc body). Qed.
Lemma fake_step_ok w w' : world_ok w -> fake_step w w' -> world_ok w'.
Proof. intros Hok [c Hc Hn|Hh]; [eapply effect_ok; [exact Hn|done|by apply call_effect]|by apply advance_block_ok]. Qed.
Lemma fake_steps_ok w w' : world_ok w -> rtc fake_step w w' -> world_ok w'.
Proof. intros Hok Hr. induction Hr as [|w w1 w2 Hs _ IH]; [done|]. by apply IH, (fake_step_ok w). Qed.
Lemma to_u32_Ok n e m : to_u32 n e = Ok m -> m = n /\ n <= u32_max.
Proof. unfold to_u32. destruct (Z.leb_spec n u32_max); [|done]. by intros [= ->]. Qed.
Lemma fixture_world_ok read cfg w : from_fixture_dir read cfg = Ok w -> 0 <= fw_height w -> world_ok w.
Proof.
  unfold from_fixture_dir. intros E Hh. passed E. injection E as <-. simpl in Hh.
  match goal with H : to_u32 _ "fixture height out of range" = Ok _ |- _ => apply to_u32_Ok in H as [-> Hmax] end.
  constructor; simpl; [unfold u32_max in Hmax; lia|apply bt_wf_empty|lia|done|done].
Qed.

Lemma same_precommit_refl b : same_precommit b b.
Proof. done. Qed.
Lemma same_precommit_trans b1 b2 b3 : same_precommit b1 b2 -> same_precommit b2 b3 -> same_precommit b1 b3.
Proof. unfold same_precommit. intros (? & ? & ? & ? & ? & ? & ?) (? & ? & ? & ? & ? & ? & ?). split_and!; congruence. Qed.
(** A benchmark is never dropped or overwritten. *)
Lemma effect_keeps w w' id b : world_ok w -> effect w w' -> bt_get id (fw_benchmarks w) = Some b ->
  exists b', bt_get id (fw_benchmarks w') = Some b' /\ same_precommit b b'.
Proof.
  intros Hok Heff Hg. destruct Heff as [w' Hc|w1 body b1 w' Hc Hb Hc'|id1 b1 b1' w' Hg1 Hs Hc].
  - exists b. split; [unfold same_core in Hc; by rewrite Hc|done].
  - destruct (new_bench_ok _ _ _ _ Hok Hc Hb) as (_ & _ & _ & Hnone). exists b. split; [|done]. unfold same_core in Hc'. rewrite Hc'. simpl.
    rewrite bt_get_insert_ne; [done|]. intros ->. congruence.
  - unfold same_core in Hc. rewrite Hc. simpl. rewrite bt_get_insert. case_decide as E; [subst|by exists b].
    exists b1'. split; [done|]. assert (b1 = b) as -> by congruence. by eapply step_same_precommit.
Qed.
Lemma fake_steps_keep w w' id b : world_ok w -> rtc fake_step w w' -> bt_get id (fw_benchmarks w) = Some b ->
  exists b', bt_get id (fw_benchmarks w') = Some b' /\ same_precommit b b'.
Proof.
  intros Hok Hr. revert b. induction Hr as [|w w1 w2 Hs _ IH]; intros b Hg; [by exists b|].
  assert (Hmid : exists b1, bt_get id (fw_benchmarks w1) = Some b1 /\ same_precommit b b1).
  { destruct Hs as [c Hc Hn|Hh]; [by eapply effect_keeps; [|by apply call_effect|]|]. simpl. rewrite bt_get_map, Hg. eexists. split; [done|]. apply advance_same_precommit. }
  destruct Hmid as (b1 & Hg1 & H1). destruct (IH (fake_step_ok _ _ Hok Hs) b1 Hg1) as (b2 & Hg2 & H2). exists b2. split; [done|]. by eapply same_precommit_trans.
Qed.

(** ** What the current block says *)

(** Setting a benchmark that was there to one a list treats alike, or adding one
    a list leaves out, leaves the list as it was. *)
Lemma ids_insert (p : Bench -> bool) id b' (m : btree Bench) : bt_wf m ->
  match bt_get id m with Some b => p b' = p b /\ be_id b' = be_id b | None => p b' = false end ->
  map (fun kv => be_id kv.2) (filter (fun kv => p kv.2 = true) (bt_insert id b' m)) = map (fun kv => be_id kv.2) (filter (fun kv => p kv.2 = true) m).
Proof.
  unfold btree in *. intros Hwf. induction m as [|[k x] m IH]; cbn [bt_get bt_insert]; [intros E; rewrite filter_cons; simpl; by rewrite E|].
  apply bt_wf_cons in Hwf as [Hwf Hlt]. destruct (String.compare id k) eqn:Hc.
  - apply str_compare_eq in Hc as ->. rewrite decide_True by done. intros [Hp Hi]. rewrite !filter_cons. simpl. rewrite Hp. by case_decide; simpl; rewrite ?Hi.
  - assert (Hnone : bt_get id m = None).
    { apply bt_get_None. intros Hin%Hlt. assert (Hl : str_lt id id) by (by eapply str_lt_trans). unfold str_lt in Hl. by rewrite str_compare_refl in Hl. }
    rewrite decide_False by (intros ->; by rewrite str_compare_refl in Hc). rewrite Hnone. intros E. rewrite (filter_cons _ (id, b')). simpl. by rewrite E.
  - rewrite decide_False by (intros ->; by rewrite str_compare_refl in Hc). intros Hm. specialize (IH Hwf Hm). rewrite !filter_cons. simpl.
    case_decide; simpl; by rewrite IH.
Qed.
(** Everything the block lists, read off a benchmark. *)
Definition listed_alike (h : Z) (b b' : Bench) : Prop :=
  precommit_at h b' = precommit_at h b /\ benchmark_at h b' = benchmark_at h b /\ proof_at h b' = proof_at h b /\
  verified_at h b' = verified_at h b /\ fraud_at h b' = fraud_at h b /\ active_at h b' = active_at h b.
Lemma step_listed_alike h h' b b' : bench_step h b b' -> listed_alike h' b b'.
Proof.
  intros Hs. destruct Hs as [s h0 _ Hn _ Hc _|s h0 d _ _ _ Hn| |]; unfold listed_alike, precommit_at, benchmark_at, proof_at, verified_at, fraud_at, active_at; simpl;
    rewrite ?Hn; simpl; rewrite ?Hc; done.
Qed.
Lemma block_insert w w' id b' : bt_wf (fw_benchmarks w) -> same_core (with_benchmarks (bt_insert id b' (fw_benchmarks w)) w) w' ->
  match bt_get id (fw_benchmarks w) with
  | Some b => be_id b' = be_id b /\ listed_alike (fw_height w) b b'
  | None => precommit_at (fw_height w) b' = false /\ benchmark_at (fw_height w) b' = false /\ proof_at (fw_height w) b' = false /\
      verified_at (fw_height w) b' = false /\ fraud_at (fw_height w) b' = false /\ active_at (fw_height w) b' = false
  end -> current_block_json w' = current_block_json w.
Proof.
  intros Hwf Hc Hl. unfold same_core in Hc. rewrite Hc. unfold current_block_json, confirmed_at, ruled_at, active_benchmark_ids, ids_where, block_id. simpl.
  assert (Hall : forall p, match bt_get id (fw_benchmarks w) with Some b => p b' = p b /\ be_id b' = be_id b | None => p b' = false end ->
    map (fun kv => be_id kv.2) (filter (fun kv => p kv.2 = true) (bt_insert id b' (fw_benchmarks w))) =
    map (fun kv => be_id kv.2) (filter (fun kv => p kv.2 = true) (fw_benchmarks w))) by (intros p; by apply ids_insert).
  rewrite !Hall; [done|destruct (bt_get id (fw_benchmarks w)); [destruct Hl as [? (? & ? & ? & ? & ? & ?)]; by split|destruct Hl as (? & ? & ? & ? & ? & ?); done]..].
Qed.

(** ** Properties *)

(** Whatever is asked of the server, in whatever order, every benchmark keeps to
    the ladder: its precommit is confirmed by a block after the one it was sent
    in; a commitment comes once the precommit is confirmed and is confirmed by a
    later block, which publishes its sampled nonces exactly if it was not
    stopped; a proof comes once an unstopped commitment is confirmed; a
    verification is published after the proof's block; no block is ahead of the
    server's height; and every benchmark stands under its own id, numbered below
    the next one to be given. *)
Theorem lifecycle_in_order read cfg w0 w :
  from_fixture_dir read cfg = Ok w0 -> 0 <= fw_height w0 -> rtc fake_step w0 w -> world_ok w.
Proof. intros H0 Hh Hr. eapply fake_steps_ok; [|exact Hr]. by eapply fixture_world_ok. Qed.

(** A block already served never changes what it said: no call but the one that
    makes the next block -- a write accepted, refused or lost, a ruling asked
    for, an injection, a read -- changes what the current block says. *)
Theorem served_block_never_changes c w :
  world_ok w -> (forall body, c <> CallAdvance body) -> current_block_json (route c w).2 = current_block_json w.
Proof.
  intros Hok Hc. pose proof (call_effect c w Hc) as Heff. pose proof (wk_wf _ Hok) as Hwf.
  destruct Heff as [w' Hs|w1 body b w' Hs Hb Hs'|id b b' w' Hg Hs Hs'].
  - unfold same_core in Hs. by rewrite Hs.
  - destruct (new_bench_ok _ _ _ _ Hok Hs Hb) as (_ & _ & _ & Hnone). apply precommit_bench_new in Hb as (_ & _ & Hp & Hsub & Hpr & Hv & Hf & Ha & _).
    transitivity (current_block_json (with_benchmarks (bt_insert (be_id b) b (fw_benchmarks w)) w)); [unfold same_core in Hs'; by rewrite Hs'|].
    eapply block_insert; [done|by apply same_core_refl|]. rewrite Hnone.
    unfold precommit_at, benchmark_at, proof_at, verified_at, fraud_at, active_at. by rewrite Hp, Hsub, Hpr, Hv, Hf, Ha.
  - eapply block_insert; [done|exact Hs'|]. rewrite Hg. destruct (step_same_precommit _ _ _ Hs) as [Hid _]. split; [done|]. by eapply step_listed_alike.
Qed.

(** ** The pool's precommit, sent and looked for *)

(** What the server keeps of a body the pool sends. *)
Lemma own_bench w s b : submission_wf s -> precommit_bench w (precommit_body s) = Ok b ->
  exists t ts, bt_get t (ps_track_settings s) = Some ts /\ bt_wf (ts_hyperparameters ts) /\
    be_settings b = settings_json (ps_player_id s) (ps_block_id s) (ps_challenge_id s) (ps_algorithm_id s) t /\
    be_num_bundles b = ts_num_bundles ts /\ be_fuel_budget b = ts_fuel_budget ts /\ be_hyperparameters b = JObject (ts_hyperparameters ts) /\
    be_compute_type b = ps_compute_type s.
Proof.
  intros [Hwf Hall] E. unfold precommit_bench in E. rewrite (track_settings_of_body s Hwf) in E.
  change (json_get "settings" (precommit_body s)) with (Some (settings_json (ps_player_id s) (ps_block_id s) (ps_challenge_id s) (ps_algorithm_id s) "")) in E.
  change (body_str (precommit_body s) "compute_type") with (@Ok ApiError _ (ps_compute_type s)) in E. cbn [ok_or] in E.
  change (body_str (settings_json ?p ?b ?c ?a ?t) "player_id") with (@Ok ApiError _ p) in E.
  change (body_str (settings_json ?p ?b ?c ?a ?t) "block_id") with (@Ok ApiError _ b) in E.
  change (body_str (settings_json ?p ?b ?c ?a ?t) "challenge_id") with (@Ok ApiError _ c) in E.
  change (body_str (settings_json ?p ?b ?c ?a ?t) "algorithm_id") with (@Ok ApiError _ a) in E.
  cbn [json_as_object ok_or] in E. passed E. injection E as <-. cbn [be_settings be_num_bundles be_fuel_budget be_hyperparameters be_compute_type].
  rewrite bt_get_map in *. destruct (bt_get s0 (ps_track_settings s)) as [ts|] eqn:Hts; [|done]. cbn [fmap option_fmap option_map default] in *. exists s0, ts.
  assert (Hh : bt_wf (ts_hyperparameters ts)) by (rewrite Forall_forall in Hall; by apply (Hall (s0, ts)), bt_get_elem).
  unfold id in *. repeat match goal with H : and_then (json_get _ (track_body ts)) json_as_u64 = Some _ |- _ => injection H as <- end.
  split_and!; try done. change (JObject (bt_collect (ts_hyperparameters ts)) = JObject (ts_hyperparameters ts)). by rewrite bt_collect_id.
Qed.
(** How the reconciliation reads a record the server made. *)
Definition object_or_null (v : Value) : bool := match v with JNull | JObject _ => true | _ => false end.
Lemma candidate_of_precommit i b player block challenge algorithm track : be_settings b = settings_json player block challenge algorithm track ->
  candidate_of i (precommit_json b) =
    if object_or_null (be_hyperparameters b)
    then Ok (MkCandidate (be_id b) player block challenge algorithm (be_compute_type b) track
               (MkTrackSettings (be_num_bundles b) (be_fuel_budget b) (match be_hyperparameters b with JObject m => bt_collect m | _ => bt_empty end))
               (bool_decide (is_Some (be_precommit_confirmed b))))
    else Err (MkShape i "details.hyperparameters is not an object").
Proof.
  intros Hs. unfold precommit_json. rewrite Hs. destruct b as [id settings challenge_id nonces bundles fuel hyper compute fee hash started conf ?????????]. simpl.
  destruct hyper, conf; reflexivity.
Qed.
Lemma own_matches to_string w s b b' : submission_wf s -> precommit_bench w (precommit_body s) = Ok b -> same_precommit b b' ->
  forall i, exists c, candidate_of i (precommit_json b') = Ok c /\ candidate_matches to_string c s = true /\ ca_benchmark_id c = be_id b /\
    ca_confirmed c = bool_decide (is_Some (be_precommit_confirmed b')).
Proof.
  intros Hwf E (Hid & Hset & Hbun & Hfuel & Hhyp & Hct & _) i. destruct (own_bench _ _ _ Hwf E) as (t & ts & Hts & Hh & Eset & Ebun & Efuel & Ehyp & Ect).
  rewrite Eset in Hset. rewrite (candidate_of_precommit i b' _ _ _ _ _ Hset), Hhyp, Ehyp. simpl. eexists. split; [done|]. split; [|by rewrite Hid].
  unfold candidate_matches. simpl. rewrite Hct, Ect, !String.eqb_refl, Hts. simpl. rewrite Hbun, Ebun, Hfuel, Efuel, !Z.eqb_refl. simpl.
  unfold hyperparameters_match. rewrite bt_collect_id by done. by apply bool_decide_eq_true.
Qed.
(** A record the server keeps. *)
Lemma bench_record w id b : bt_get id (fw_benchmarks w) = Some b -> exists i, precommits_of w !! i = Some (precommit_json b).
Proof.
  intros (i & Hi)%bt_get_elem%list_elem_of_lookup. exists i. unfold precommits_of, btree. change (map ?f ?l) with (f <$> l). by rewrite list_lookup_fmap, Hi.
Qed.
Lemma record_bench w i v : bt_wf (fw_benchmarks w) -> precommits_of w !! i = Some v -> exists id b, bt_get id (fw_benchmarks w) = Some b /\ v = precommit_json b.
Proof.
  intros Hwf. unfold precommits_of, btree. change (map ?f ?l) with (f <$> l). rewrite list_lookup_fmap. destruct ((fw_benchmarks w : list _) !! i) as [[id b]|] eqn:Hi; [|done].
  intros [= <-]. exists id, b. split; [|done]. apply bt_elem_get; [done|]. by apply (list_elem_of_lookup_2 _ i).
Qed.
(** Reading every record, or one that stands in the way. *)
Lemma window_read to_string w s : world_ok w -> match reconcile_precommit to_string (precommits_of w) s with
  | Ok _ => True
  | Err _ => exists id b, bt_get id (fw_benchmarks w) = Some b /\ object_or_null (be_hyperparameters b) = false
  end.
Proof.
  intros Hok. destruct (decide (Forall (fun kv => object_or_null (be_hyperparameters kv.2) = true) (fw_benchmarks w : list _))) as [Hall|Hnot].
  - destruct (reconcile_readable to_string (precommits_of w) s) as [r ->]; [|done]. intros i v Hi.
    destruct (record_bench _ _ _ (wk_wf _ Hok) Hi) as (id & b & Hg & ->). destruct (wk_bench _ Hok _ _ Hg) as [Hb _]. destruct (bo_settings _ _ Hb) as (? & ? & ? & ? & ? & Hs).
    rewrite (candidate_of_precommit _ _ _ _ _ _ _ Hs). rewrite Forall_forall in Hall. specialize (Hall (id, b) (bt_get_elem _ _ _ Hg)). simpl in Hall. by rewrite Hall.
  - destruct (reconcile_precommit _ _ _); [done|]. apply not_Forall_Exists in Hnot; [|apply _]. apply Exists_exists in Hnot as ([id b] & Hin & Hn).
    exists id, b. split; [by apply bt_elem_get; [apply wk_wf|]|]. simpl in Hn. by destruct (object_or_null (be_hyperparameters b)).
Qed.
Lemma precommit_applied key body w reply w1 : submit_precommit key body w = (reply, w1) -> fw_benchmarks w1 <> fw_benchmarks w ->
  exists w0 b, same_core w w0 /\ precommit_bench w0 body = Ok b /\ same_core (add_bench b w) w1 /\
    (reply = Replied (json_object [("benchmark_id", JString (be_id b))]) \/ reply = Failed (injected_response InjAmbiguous)).
Proof.
  unfold submit_precommit, write_route. destruct (require_api_key w key); [|by intros [= <- <-]].
  pose proof (take_injection_core "submit-precommit" (count_write "submit-precommit" w)) as Hc. destruct (take_injection _ _) as [inj w0]. cbn [snd] in Hc.
  assert (Hc0 : same_core w w0) by (eapply same_core_trans; [apply count_write_core|exact Hc]). clear Hc.
  assert (Hsame : fw_benchmarks w0 = fw_benchmarks w) by (unfold same_core in Hc0; by rewrite Hc0).
  unfold apply_precommit. destruct (precommit_bench w0 body) as [b|e] eqn:Hb; [|destruct inj as [[]|]; by intros [= <- <-] []].
  assert (Hadd : same_core (add_bench b w) (add_bench b w0)) by (unfold same_core in Hc0 |- *; by rewrite Hc0).
  destruct inj as [[]|]; intros [= <- <-] Hne; try done; exists w0, b; split_and!; try done; [by right|by left].
Qed.

(** C25. A precommit that took effect is always found again.  Whatever was answered
    -- the benchmark's id, or the response lost -- every later window the server
    serves holds the pool's precommit: reconciliation never answers that there
    is no candidate, waits exactly while the benchmark is unconfirmed, settles on
    its id and no other, and an ambiguity names it; it cannot read the window
    only where some benchmark was submitted with hyperparameters that are neither
    null nor an object. *)
Theorem lost_precommit_is_found to_string key s params w reply w1 w2 v w3 :
  world_ok w -> fw_next_bench_seq w + 1 < 2 ^ 64 -> submission_wf s ->
  submit_precommit key (precommit_body s) w = (reply, w1) -> fw_benchmarks w1 <> fw_benchmarks w ->
  rtc fake_step w1 w2 ->
  get_benchmarks (fun w => w) params w2 = (Replied v, w3) ->
  let id := bench_id (fw_next_bench_seq w) in
  (reply = Replied (json_object [("benchmark_id", JString id)]) \/ reply = Failed (injected_response InjAmbiguous)) /\
  exists l b, json_get "precommits" v = Some (JArray l) /\ bt_get id (fw_benchmarks w2) = Some b /\
    match reconcile_precommit to_string l s with
    | Ok NoCandidate => False
    | Ok PendingConfirmation => be_precommit_confirmed b = None
    | Ok (ReconciledConfirmed found) => found = id /\ is_Some (be_precommit_confirmed b)
    | Ok (StopForOperator candidates) => id ∈ candidates
    | Err _ => exists other b', bt_get other (fw_benchmarks w2) = Some b' /\ object_or_null (be_hyperparameters b') = false
    end.
Proof.
  intros Hok Hn Hwf Hsub Hne Hr Hget id. destruct (precommit_applied _ _ _ _ _ Hsub Hne) as (w0 & b & Hc & Hb & Hc1 & Hreply).
  destruct (new_bench_ok _ _ _ _ Hok Hc Hb) as (Hid & _ & _ & _). rewrite Hid in Hreply. split; [exact Hreply|].
  assert (Hok1 : world_ok w1) by (eapply effect_ok; [exact Hn|exact Hok|by eapply effect_added]).
  assert (Hg1 : bt_get id (fw_benchmarks w1) = Some b) by (unfold same_core in Hc1; rewrite Hc1; simpl; rewrite Hid; apply bt_get_insert_eq).
  destruct (fake_steps_keep _ _ _ _ Hok1 Hr Hg1) as (b2 & Hg2 & Hsame). pose proof (fake_steps_ok _ _ Hok1 Hr) as Hok2.
  exists (precommits_of w2), b2. split; [|split; [done|]].
  { revert Hget. unfold get_benchmarks, after_injection. destruct (take_injection _ w2) as [[m|] w4] eqn:Et; [done|]. unfold take_injection in Et.
    assert (w4 = w2) as -> by (destruct (fw_injections w2 !! "get-benchmarks") as [[|]|]; congruence).
    destruct (require_latest_block w2 params); [|done]. destruct (params !! "player_id"); [|done]. simpl. destruct (eq_ignore_ascii_case _ _); [|done].
    by intros [= <- <-]. }
  destruct (bench_record _ _ _ Hg2) as [i Hi]. destruct (own_matches to_string _ _ _ _ Hwf Hb Hsame (Z.of_nat i)) as (c & Hcand & Hm & Hcid & Hcc).
  assert (Hat : match_at to_string (precommits_of w2) s i c) by (by exists (precommit_json b2)). rewrite Hid in Hcid.
  pose proof (window_read to_string w2 s Hok2) as Hread. destruct (reconcile_precommit to_string (precommits_of w2) s) as [r|] eqn:Er; [|done].
  pose proof (reconcile_shows _ _ _ _ Er) as Hshows.
  assert (Huniq : forall j d, match_at to_string (precommits_of w2) s j d -> j = i -> d = c).
  { intros j d (v' & Hv & Hd & _) ->. congruence. }
  destruct r as [| |found|ids]; simpl in Hshows.
  - by destruct (Hshows i c).
  - destruct Hshows as (j & d & Hd & Hnc & Hu). assert (d = c) as -> by (by apply (Huniq j); [|symmetry; apply Hu in Hat]). rewrite Hcc in Hnc.
    apply bool_decide_eq_false in Hnc. by apply eq_None_not_Some.
  - destruct Hshows as (j & d & Hd & Hcf & Hfound & Hu). assert (d = c) as -> by (by apply (Huniq j); [|symmetry; apply Hu in Hat]). rewrite Hcc in Hcf.
    apply bool_decide_eq_true in Hcf. split; [by rewrite <- Hfound, Hcid|done].
  - destruct Hshows as [_ Hids]. apply Hids. by exists i, c.
Qed.

(** ** A run *)

Definition sample_file (name : string) : result string Value :=
  if String.eqb name "get-block.json" then Ok (json_object [("block", json_object
    [("details", json_object [("height", json_u64 10); ("round", json_u64 1); ("timestamp", json_u64 1000)]);
     ("config", json_object
        [("rounds", json_object [("seconds_between_blocks", json_u64 60); ("blocks_per_round", json_u64 100)]);
         ("challenges", json_object [("c001", json_object
            [("active_tracks", json_object [("t1", json_object [("num_nonces_per_bundle", json_u64 10)]); ("t2", json_object [("num_nonces_per_bundle", json_u64 20)])]);
             ("min_num_bundles", json_u64 1); ("max_fuel_budget", json_u64 5000); ("base_fee", JString "7"); ("per_nonce_fee", JString "2")])])])])])
  else if String.eqb name "get-player-data.json" then Ok (json_object [("player", json_object [("id", JString "p1")])])
  else Ok (JObject []).
Definition sample_settings : Settings := MkSettings "key" 1 None.
Definition sample_start : World := Eval vm_compute in match from_fixture_dir sample_file sample_settings with
  | Ok w => w | Err _ => MkFakeWorld sample_settings (MkFixture JNull JNull JNull JNull JNull JNull) 0 0 0 0 0 0 [] ∅ ∅ end.
Definition sample_request : PrecommitSubmission := MkSubmission "p1" "block_10" "c001" "c001_a1" "cpu"
  [("t1", MkTrackSettings 4 1000 [("alpha", json_u64 3)]); ("t2", MkTrackSettings 5 2000 [])].
(** The next precommit is applied and its answer lost. *)
Definition sample_primed : World := (route (CallInject (json_object [("target", JString "submit-precommit"); ("mode", JString "ambiguous")])) sample_start).2.
Definition sample_sent : Reply * World := submit_precommit (Some "key") (precommit_body sample_request) sample_primed.
Definition sample_later : World := advance_block sample_sent.2.
Definition sample_params : Params := {["block_id" := "block_11"; "player_id" := "p1"]}.
Lemma sample_start_ok : world_ok sample_start.
Proof. eapply (fixture_world_ok sample_file sample_settings); [reflexivity|]. simpl. lia. Qed.
Lemma sample_primed_ok : world_ok sample_primed.
Proof. eapply fake_step_ok; [exact sample_start_ok|]. constructor; [done|simpl; lia]. Qed.

Lemma sample_sent_step : fake_step sample_primed sample_sent.2.
Proof. refine (fake_call sample_primed (CallPrecommit (Some "key") (precommit_body sample_request)) _ _); [done|by vm_compute]. Qed.
Lemma sample_later_step : fake_step sample_sent.2 sample_later.
Proof. refine (fake_block sample_sent.2 _). by vm_compute. Qed.
Example lifecycle_in_order_witness : world_ok sample_later.
Proof.
  apply (lifecycle_in_order sample_file sample_settings sample_start); [reflexivity|simpl; lia|].
  apply (rtc_l _ _ sample_primed); [|exact (rtc_l _ _ _ _ sample_sent_step (rtc_once _ _ sample_later_step))].
  refine (fake_call sample_start (CallInject _) _ _); [done|simpl; lia].
Defined.
Example served_block_never_changes_witness :
  fw_benchmarks sample_sent.2 <> fw_benchmarks sample_primed /\ current_block_json sample_sent.2 = current_block_json sample_primed.
Proof.
  split; [by vm_compute|]. exact (served_block_never_changes (CallPrecommit (Some "key") (precommit_body sample_request)) sample_primed sample_primed_ok (fun body => ltac:(done))).
Defined.
(** The answer was lost, the precommit was not. *)
Example lost_precommit_is_found_witness :
  sample_sent.1 = Failed (injected_response InjAmbiguous) /\
  exists l b, match (get_benchmarks (fun w => w) sample_params sample_later).1 with Replied v => json_get "precommits" v | _ => None end = Some (JArray l) /\
    bt_get "bench-0001" (fw_benchmarks sample_later) = Some b /\ is_Some (be_precommit_confirmed b) /\
    reconcile_precommit (fun _ => "") l sample_request = Ok (ReconciledConfirmed "bench-0001").
Proof.
  split; [reflexivity|].
  destruct (lost_precommit_is_found (fun _ => "") (Some "key") sample_request sample_params sample_primed sample_sent.1 sample_sent.2 sample_later
    (benchmarks_json sample_later) sample_later sample_primed_ok) as [_ (l & b & Hl & Hb & Hr)].
  - simpl. lia.
  - split; repeat constructor.
  - apply surjective_pairing.
  - by vm_compute.
  - exact (rtc_once _ _ sample_later_step).
  - vm_compute. reflexivity.
  - exists l, b. vm_compute in Hl, Hb. injection Hl as <-. injection Hb as <-. vm_compute. by repeat split; eexists.
Defined.
