(* ===== verification/Merkle.v ===== *)
(** * Proof material: [crates/spike/src/member.rs]

    What a member builds from its outputs: the leaf hashes, the Merkle tree over
    them, the branches that answer for single leaves, and the files of the
    package.  BLAKE3, SHA-256, serde_json's printer and the tar and Zstandard
    writers are parameters.  An index is a [nat] below the number of leaves; a
    depth is a [u8], which saturates. *)
From stdpp Require Import pretty.
From S2P Require Import Prelude Text BTreeMap Json Domain Admission Decide Payload Rfc3339.
Open Scope Z_scope.

Section member.
Context (blake3 sha256 : list Z -> list Z) (to_string : Value -> string).

(** ** Canonical JSON and output records *)

Definition jsonify (v : Value) : string := to_string v.
Definition hex (bytes : list Z) : string := to_hex bytes.
Definition sha256_hex (data : list Z) : string := hex (sha256 data).

Record OutputRecord := MkOutput { or_nonce : Z; or_runtime_signature : Z; or_fuel_consumed : Z; or_solution : string; or_cpu_arch : string }.

Definition runtime_u64 (v : Value) (k bad : string) : result string Z :=
  let? f := ok_or (json_get k v) (String.concat "" ["output missing '"; k; "'"]) in ok_or (json_as_u64 f) bad.
Definition runtime_str (v : Value) (k bad : string) : result string string :=
  let? f := ok_or (json_get k v) (String.concat "" ["output missing '"; k; "'"]) in ok_or (json_as_str f) bad.
Definition from_runtime_json (v : Value) : result string OutputRecord :=
  let? nonce := runtime_u64 v "nonce" "nonce not u64" in
  let? runtime_signature := runtime_u64 v "runtime_signature" "runtime_signature not u64" in
  let? fuel_consumed := runtime_u64 v "fuel_consumed" "fuel_consumed not u64" in
  let? solution := runtime_str v "solution" "solution not a string" in
  let? cpu_arch := runtime_str v "cpu_arch" "cpu_arch not a string" in
  Ok (MkOutput nonce runtime_signature fuel_consumed solution cpu_arch).

(** The closure [dec] of [from_wire_json]. *)
Definition wire_dec (v : Value) (k : string) : result string Z :=
  let? s := ok_or (and_then (json_get k v) json_as_str) (String.concat "" ["record missing decimal-string '"; k; "'"]) in
  ok_or (parse_u64 s) (String.concat "" ["parsing '"; k; "' as u64"]).
Definition wire_str (v : Value) (k : string) : result string string :=
  ok_or (and_then (json_get k v) json_as_str) (String.concat "" ["record missing '"; k; "'"]).
Definition from_wire_json (v : Value) : result string OutputRecord :=
  let? nonce := ok_or (and_then (json_get "nonce" v) json_as_u64) "record missing u64 'nonce'" in
  let? runtime_signature := wire_dec v "runtime_signature" in
  let? fuel_consumed := wire_dec v "fuel_consumed" in
  let? solution := wire_str v "solution" in
  let? cpu_arch := wire_str v "cpu_arch" in
  Ok (MkOutput nonce runtime_signature fuel_consumed solution cpu_arch).
Definition u64_text (n : Z) : string := pretty (Z.to_N n).
Definition to_wire_value (r : OutputRecord) : Value :=
  json_object [("nonce", json_u64 (or_nonce r)); ("runtime_signature", JString (u64_text (or_runtime_signature r)));
               ("fuel_consumed", JString (u64_text (or_fuel_consumed r))); ("solution", JString (or_solution r)); ("cpu_arch", JString (or_cpu_arch r))].
(** [u64::from_le_bytes] and [i32::to_le_bytes], least significant byte first. *)
Fixpoint from_le_bytes (l : list Z) : Z := match l with [] => 0 | b :: l' => b + 256 * from_le_bytes l' end.
Fixpoint le_bytes (n : nat) (x : Z) : list Z := match n with O => [] | S n' => x mod 256 :: le_bytes n' (x / 256) end.
Definition solution_signature (r : OutputRecord) : Z := from_le_bytes (take 8 (blake3 (as_bytes (jsonify (JString (or_solution r)))))).
Definition leaf_hash (r : OutputRecord) : list Z :=
  blake3 (as_bytes (jsonify (json_object
    [("nonce", json_u64 (or_nonce r)); ("runtime_signature", json_u64 (or_runtime_signature r));
     ("fuel_consumed", json_u64 (or_fuel_consumed r)); ("solution_signature", json_u64 (solution_signature r))]))).

(** ** The tree *)

Abbreviation Hash := (list Z).
Definition hash_pair (left right : Hash) : Hash := blake3 (left ++ right).
(** [level.chunks(2).map(..)]. *)
Fixpoint pair_up (level : list Hash) : list Hash :=
  match level with
  | l :: r :: rest => hash_pair l r :: pair_up rest
  | [odd] => [odd]
  | [] => []
  end.
(** [while level.len() > 1]; one round per leaf is more than enough. *)
Fixpoint climb (fuel : nat) (level : list Hash) : list Hash :=
  match fuel with
  | O => level
  | S fuel' => if (1 <? length level)%nat then climb fuel' (pair_up level) else level
  end.
Definition merkle_root (leaves : list Hash) : result string Hash :=
  match leaves with
  | [] => Err "merkle root of zero leaves is undefined"
  | _ => ok_or (head (climb (length leaves) leaves)) "empty level"
  end.

Definition saturating_succ_u8 (d : Z) : Z := Z.min 255 (d + 1).
Definition Branch : Type := list (Z * Hash).
Fixpoint branch_up (fuel : nat) (level : list Hash) (idx : nat) (depth : Z) : Branch :=
  match fuel with
  | O => []
  | S fuel' =>
      if (1 <? length level)%nat then
        let sibling := (if Nat.even idx then idx + 1 else idx - 1)%nat in
        match level !! sibling with Some h => [(depth, h)] | None => [] end ++
        branch_up fuel' (pair_up level) (idx / 2) (saturating_succ_u8 depth)
      else []
  end.
Definition merkle_branch (leaves : list Hash) (idx : nat) : result string Branch :=
  if (idx <? length leaves)%nat then Ok (branch_up (length leaves) leaves idx 0)
  else Err (String.concat "" ["branch index "; pretty (N.of_nat idx); " out of range ("; pretty (N.of_nat (length leaves)); " leaves)"]).

(** [while curr != *depth]: at most 255 rounds. *)
Fixpoint skip_levels (fuel : nat) (idx : nat) (curr depth : Z) : nat * Z :=
  match fuel with
  | O => (idx, curr)
  | S fuel' => if curr =? depth then (idx, curr) else skip_levels fuel' (idx / 2) (saturating_succ_u8 curr) depth
  end.
Definition branch_step (st : Hash * nat * Z) (el : Z * Hash) : result string (Hash * nat * Z) :=
  let '(root, idx, curr) := st in let '(depth, hash) := el in
  if depth <? curr then Err (String.concat "" ["invalid branch: depth "; pretty depth; " after "; pretty curr])
  else
    let '(idx, curr) := skip_levels 256 idx curr depth in
    Ok (if Nat.even idx then hash_pair root hash else hash_pair hash root, (idx / 2)%nat, saturating_succ_u8 curr).
Definition branch_root (leaf : Hash) (idx : nat) (branch : Branch) : result string Hash :=
  let? st := foldM branch_step (leaf, idx, 0) branch in Ok st.1.1.
Definition branch_hex (branch : Branch) : string := String.concat "" (map (fun dh => String.append (hex_byte dh.1) (hex dh.2)) branch).
(** [next_power_of_two]. *)
Definition tree_capacity (n : Z) : Z := 2 ^ Z.log2_up (Z.max n 1).

(** A label's UUID: sixteen bytes of its SHA-256 with the version and variant
    bits set. *)
Definition uuid_bytes (d : list Z) : list Z :=
  let b := take 16 d in
  let b := <[6%nat := Z.lor 64 (Z.land (nth 6 b 0) 15)]> b in
  <[8%nat := Z.lor 128 (Z.land (nth 8 b 0) 63)]> b.
Definition derived_uuid (label : string) : string :=
  let s := hex (uuid_bytes (sha256 (as_bytes label))) in
  String.concat "-" [String.substring 0 8 s; String.substring 8 4 s; String.substring 12 4 s; String.substring 16 4 s; String.substring 20 12 s].

(** ** Lemmas: the loops *)

Lemma pair_ind (P : list Hash -> Prop) : P [] -> (forall a, P [a]) -> (forall a b l, P l -> P (a :: b :: l)) -> forall l, P l.
Proof. intros H0 H1 H2. fix IH 1. intros [|a [|b l]]; [done|done|]. apply H2, IH. Qed.
Lemma pair_up_length level : length (pair_up level) = ((length level + 1) / 2)%nat.
Proof.
  induction level as [|a|a b l IH] using pair_ind; [done|done|]. cbn [pair_up length]. rewrite IH.
  replace (S (S (length l)) + 1)%nat with (1 * 2 + (length l + 1))%nat by lia. by rewrite Nat.div_add_l.
Qed.
Lemma pair_up_halves n level : (length level <= 2 ^ S n -> length (pair_up level) <= 2 ^ n)%nat.
Proof. intros H. rewrite pair_up_length. simpl in H. pose proof (Nat.Div0.div_mod (length level + 1) 2). pose proof (Nat.mod_upper_bound (length level + 1) 2). lia. Qed.
Lemma pair_up_nonempty level : level <> [] -> pair_up level <> [].
Proof. by destruct level as [|? [|? ?]]. Qed.
(** The node above [idx]. *)
Definition parent (level : list Hash) (idx : nat) (x : Hash) : Hash :=
  if Nat.even idx then match level !! (idx + 1)%nat with Some r => hash_pair x r | None => x end
  else match level !! (idx - 1)%nat with Some l => hash_pair l x | None => x end.
Lemma pair_up_lookup level : forall idx x, level !! idx = Some x -> pair_up level !! (idx / 2)%nat = Some (parent level idx x).
Proof.
  induction level as [|a|a b l IH] using pair_ind; intros idx x; [done| |].
  - destruct idx; [|done]. by intros [= ->].
  - destruct idx as [|[|idx]]; [by intros [= ->]|by intros [= ->]|].
    replace (S (S idx) / 2)%nat with (S (idx / 2)) by (change (S (S idx)) with (1 * 2 + idx)%nat; by rewrite Nat.div_add_l). cbn [pair_up].
    intros Hx. change (pair_up l !! (idx / 2)%nat = Some (parent (a :: b :: l) (S (S idx)) x)). rewrite (IH _ _ Hx). unfold parent. f_equal.
    cbn [Nat.even]. destruct (Nat.even idx) eqn:E; [done|]. destruct idx as [|idx]; [done|]. simpl. by rewrite !Nat.sub_0_r.
Qed.
(** Enough rounds reach the root. *)
Lemma climb_done n : forall fuel level, level <> [] -> (length level <= 2 ^ n)%nat -> (n <= fuel)%nat -> length (climb fuel level) = 1%nat.
Proof.
  induction n as [|n IH]; intros fuel level Hne Hlen Hf.
  - assert (length level = 1)%nat as E by (destruct level; simpl in *; [done|lia]). destruct fuel; simpl; [done|]. by rewrite E.
  - destruct fuel as [|fuel]; [lia|]. simpl. destruct (Nat.ltb_spec 1 (length level)); [|destruct level; simpl in *; [done|lia]].
    apply IH; [by apply pair_up_nonempty|by apply pair_up_halves|lia].
Qed.
Lemma skip_levels_spec k : forall fuel idx curr depth, 0 <= curr -> depth = curr + Z.of_nat k -> depth <= 255 -> (k < fuel)%nat ->
  skip_levels fuel idx curr depth = ((idx / 2 ^ k)%nat, depth).
Proof.
  induction k as [|k IH]; intros [|fuel] idx curr depth Hc Hd Hmax Hf; try lia; cbn [skip_levels].
  - rewrite (proj2 (Z.eqb_eq _ _)) by lia. rewrite Nat.div_1_r. f_equal. lia.
  - rewrite (proj2 (Z.eqb_neq _ _)) by lia. unfold saturating_succ_u8. rewrite Z.min_r by lia.
    rewrite (IH fuel) by lia. by rewrite Nat.Div0.div_div, Nat.pow_succ_r'.
Qed.
(** The branch of a node leads from it to the root, from wherever the reader of
    the branch has got to below it. *)
Lemma branch_resolves n : forall fuel level idx x i (c d : nat), level !! idx = Some x -> (length level <= 2 ^ n)%nat -> (n <= fuel)%nat ->
  (c <= d)%nat -> (d + n <= 255)%nat -> idx = (i / 2 ^ (d - c))%nat ->
  exists root i' c', climb fuel level = [root] /\ foldM branch_step (x, i, Z.of_nat c) (branch_up fuel level idx (Z.of_nat d)) = Ok (root, i', c').
Proof.
  induction n as [|n IH]; intros fuel level idx x i c d Hx Hlen Hf Hcd Hd Hi.
  { destruct level as [|y [|? ?]]; [done| |simpl in Hlen; lia]. destruct idx; [|done]. injection Hx as ->. destruct fuel; simpl; by repeat eexists. }
  destruct fuel as [|fuel]; [lia|]. cbn [climb branch_up]. destruct (Nat.ltb_spec 1 (length level)) as [H1|H1].
  2:{ destruct level as [|y [|? ?]]; [done| |simpl in H1; lia]. destruct idx; [|done]. injection Hx as ->. by repeat eexists. }
  pose proof (pair_up_lookup _ _ _ Hx) as Hp. pose proof (pair_up_halves _ _ Hlen) as Hl.
  assert (Hsucc : saturating_succ_u8 (Z.of_nat d) = Z.of_nat (S d)) by (unfold saturating_succ_u8; rewrite Z.min_r; lia). rewrite Hsucc.
  unfold parent in Hp. set (sib := (if Nat.even idx then idx + 1 else idx - 1)%nat).
  assert (Hsib : (if Nat.even idx then match level !! (idx + 1)%nat with Some r => hash_pair x r | None => x end
    else match level !! (idx - 1)%nat with Some l => hash_pair l x | None => x end) =
    match level !! sib with Some h => if Nat.even idx then hash_pair x h else hash_pair h x | None => x end) by (unfold sib; by destruct (Nat.even idx)).
  rewrite Hsib in Hp. destruct (level !! sib) as [h|].
  - cbn [foldM app]. unfold branch_step at 1. rewrite (proj2 (Z.ltb_ge _ _)) by lia. rewrite (skip_levels_spec (d - c)) by lia. rewrite <- Hi, Hsucc.
    apply (IH fuel _ _ _ (idx / 2)%nat (S d) (S d) Hp Hl); [lia|lia|lia|]. by rewrite Nat.sub_diag, Nat.div_1_r.
  - cbn [foldM app]. apply (IH fuel _ _ _ i c (S d) Hp Hl); [lia|lia|lia|]. rewrite Hi.
    replace (S d - c)%nat with (S (d - c)) by lia. by rewrite Nat.pow_succ_r', Nat.Div0.div_div, Nat.mul_comm.
Qed.

(** ** Binding *)

(** What is hashed while a branch is read. *)
Definition preimage (root : Hash) (idx : nat) (hash : Hash) : Hash := if Nat.even idx then root ++ hash else hash ++ root.
Fixpoint hashed (root : Hash) (idx : nat) (curr : Z) (branch : Branch) : list Hash :=
  match branch with
  | [] => []
  | (depth, hash) :: rest =>
      let '(idx, curr) := skip_levels 256 idx curr depth in
      preimage root idx hash :: hashed (blake3 (preimage root idx hash)) (idx / 2) (saturating_succ_u8 curr) rest
  end.
Lemma branch_step_Ok root idx curr depth hash st : branch_step (root, idx, curr) (depth, hash) = Ok st ->
  st = (blake3 (preimage root (skip_levels 256 idx curr depth).1 hash), ((skip_levels 256 idx curr depth).1 / 2)%nat,
        saturating_succ_u8 (skip_levels 256 idx curr depth).2).
Proof.
  unfold branch_step, preimage, hash_pair. destruct (depth <? curr); [done|]. destruct (skip_levels 256 idx curr depth) as [i c]. intros [= <-].
  simpl. by destruct (Nat.even i).
Qed.
Definition hash_ok (h : Hash) : Prop := length h = 32%nat.
Lemma preimage_inj x y idx h h' : hash_ok x -> hash_ok y -> hash_ok h -> hash_ok h' -> preimage x idx h = preimage y idx h' -> x = y /\ h = h'.
Proof.
  unfold hash_ok, preimage. intros Hx Hy Hh Hh'. destruct (Nat.even idx); intros E; apply app_inj_1 in E as [-> ->]; try done; congruence.
Qed.
Lemma branches_agree (Hlen : forall l, hash_ok (blake3 l)) br : forall br' x y idx curr root i c i' c', hash_ok x -> hash_ok y ->
  Forall (fun e => hash_ok e.2) br -> Forall (fun e => hash_ok e.2) br' -> map fst br = map fst br' ->
  foldM branch_step (x, idx, curr) br = Ok (root, i, c) -> foldM branch_step (y, idx, curr) br' = Ok (root, i', c') ->
  (x = y /\ br = br') \/ exists p q, p ∈ hashed x idx curr br /\ q ∈ hashed y idx curr br' /\ p <> q /\ blake3 p = blake3 q.
Proof.
  induction br as [|[d h] br IH]; intros [|[d' h'] br'] x y idx curr root i c i' c' Hx Hy Hb Hb' Hd; try discriminate Hd.
  - cbn [foldM]. intros [= -> _ _] [= -> _ _]. left. done.
  - injection Hd as -> Hd. inversion Hb as [|? ? Hh Hb1]; subst. inversion Hb' as [|? ? Hh' Hb1']; subst. cbn [foldM].
    destruct (branch_step (x, idx, curr) (d', h)) as [st|] eqn:E; [|done]. destruct (branch_step (y, idx, curr) (d', h')) as [st'|] eqn:E'; [|done].
    apply branch_step_Ok in E as ->. apply branch_step_Ok in E' as ->. intros H1 H2. cbn [hashed]. simpl in Hh, Hh'.
    destruct (skip_levels 256 idx curr d') as [i0 c0]. cbn [fst snd] in *.
    destruct (IH br' _ _ _ _ _ _ _ _ _ (Hlen _) (Hlen _) Hb1 Hb1' Hd H1 H2) as [[Heq ->]|(p & q & Hp & Hq & Hne & Hc)].
    + destruct (decide (preimage x i0 h = preimage y i0 h')) as [Hpre|Hne].
      * apply preimage_inj in Hpre as [-> ->]; [by left|done..].
      * right. eexists _, _. split; [left|]. split; [left|]. done.
    + right. exists p, q. split; [by right|]. split; [by right|]. done.
Qed.
Lemma pair_up_ok (Hlen : forall l, hash_ok (blake3 l)) level : Forall hash_ok level -> Forall hash_ok (pair_up level).
Proof.
  induction level as [|a|a b l IH] using pair_ind; intros H; [done|done|]. inversion H as [|? ? ? H']; subst. inversion H'; subst. constructor; [apply Hlen|by apply IH].
Qed.
Lemma branch_up_ok (Hlen : forall l, hash_ok (blake3 l)) fuel : forall level idx d, Forall hash_ok level -> Forall (fun e => hash_ok e.2) (branch_up fuel level idx d).
Proof.
  induction fuel as [|fuel IH]; intros level idx d Hl; simpl; [constructor|]. destruct (1 <? length level)%nat; [|constructor].
  apply Forall_app. split; [|by apply IH, pair_up_ok]. destruct (level !! _) as [h|] eqn:E; [|constructor]. constructor; [|constructor]. simpl. by eapply Forall_lookup_1.
Qed.
Lemma enough_rounds (len : nat) : (0 < len)%nat -> Z.of_nat len <= 2 ^ 64 -> exists n, (len <= 2 ^ n)%nat /\ (n <= len)%nat /\ (n <= 64)%nat.
Proof.
  intros H0 H. assert (Hn : (len <= 2 ^ 64)%nat) by (apply Nat2Z.inj_le; by rewrite Nat2Z.inj_pow). exists (Nat.log2_up len).
  split; [by apply Nat.log2_log2_up_spec|]. split; [pose proof (Nat.log2_up_lt_lin len H0); lia|]. by apply Nat.log2_up_le_pow2.
Qed.
(** The tree, its root and its branches exist. *)
Lemma merkle_resolves leaves idx leaf : leaves !! idx = Some leaf -> Z.of_nat (length leaves) <= 2 ^ 64 ->
  exists branch root, merkle_branch leaves idx = Ok branch /\ merkle_root leaves = Ok root /\ branch_root leaf idx branch = Ok root.
Proof.
  intros Hx Hlen. pose proof (lookup_lt_Some _ _ _ Hx) as Hlt. destruct (enough_rounds (length leaves)) as (n & H1 & H2 & H3); [lia|done|].
  destruct (branch_resolves n (length leaves) leaves idx leaf idx 0 0 Hx H1 H2) as (root & i' & c' & Hc & Hb); [lia|lia|by rewrite Nat.div_1_r|].
  exists (branch_up (length leaves) leaves idx 0), root. unfold merkle_branch, merkle_root, branch_root. rewrite (proj2 (Nat.ltb_lt _ _) Hlt), Hc.
  change (Z.of_nat 0) with 0 in Hb. rewrite Hb. destruct leaves; [done|]. by simpl.
Qed.

(** ** Properties *)

(** Every leaf of a tree has a branch, and the branch leads back from the leaf
    to the tree's root, whatever the number of leaves: what a member answers a
    sampled nonce with is what a verifier recomputes the committed root from. *)
Theorem every_leaf_is_proved leaves idx :
  (idx < length leaves)%nat -> Z.of_nat (length leaves) <= 2 ^ 64 ->
  exists leaf branch root, leaves !! idx = Some leaf /\ merkle_branch leaves idx = Ok branch /\ merkle_root leaves = Ok root /\ branch_root leaf idx branch = Ok root.
Proof. intros [leaf Hl]%lookup_lt_is_Some Hlen. exists leaf. destruct (merkle_resolves _ _ _ Hl Hlen) as (br & root & ? & ? & ?). by exists br, root. Qed.

(** C36. No other leaf can be proved at an index.  A branch with the depths the tree
    has there that resolves to the committed root carries the committed leaf and
    is the tree's own branch -- or two different strings that were hashed along
    the two branches have the same hash. *)
Theorem proof_binds_the_leaf leaves idx leaf0 branch0 leaf branch root :
  (forall l, hash_ok (blake3 l)) -> Forall hash_ok leaves -> Z.of_nat (length leaves) <= 2 ^ 64 ->
  leaves !! idx = Some leaf0 -> merkle_branch leaves idx = Ok branch0 -> merkle_root leaves = Ok root ->
  hash_ok leaf -> Forall (fun e => hash_ok e.2) branch -> map fst branch = map fst branch0 ->
  branch_root leaf idx branch = Ok root ->
  (leaf = leaf0 /\ branch = branch0) \/
  exists p q, p ∈ hashed leaf idx 0 branch /\ q ∈ hashed leaf0 idx 0 branch0 /\ p <> q /\ blake3 p = blake3 q.
Proof.
  intros Hh Hok Hlen Hx Hb0 Hr Hl Hb Hd Hbr. destruct (merkle_resolves _ _ _ Hx Hlen) as (b & r & Hb' & Hr' & Hres).
  assert (b = branch0) as -> by congruence. assert (r = root) as -> by congruence. unfold branch_root in Hbr, Hres.
  destruct (foldM branch_step (leaf, idx, 0) branch) as [[[r1 i1] c1]|] eqn:E1; [|done]. destruct (foldM branch_step (leaf0, idx, 0) branch0) as [[[r2 i2] c2]|] eqn:E2; [|done].
  injection Hbr as ->. injection Hres as ->. eapply branches_agree; [exact Hh|exact Hl|by eapply Forall_lookup_1|exact Hb| |exact Hd|exact E1|exact E2].
  revert Hb0. unfold merkle_branch. destruct (_ <? _)%nat; [|done]. intros [= <-]. by apply branch_up_ok.
Qed.
End member.

(** ** Decimal text read back *)

Lemma digits_from_value max s : all_bytes is_ascii_digit s = true -> forall acc, 0 <= acc -> acc * pow10 s + atoms_value s <= max ->
  digits_from max acc s = Some (acc * pow10 s + atoms_value s).
Proof.
  induction s as [|c s IH]; intros Hs acc Ha Hm; [unfold pow10, atoms_value; simpl; f_equal; lia|].
  cbn [all_bytes] in Hs. apply andb_true_iff in Hs as [Hc Hs]. rewrite pow10_cons, atoms_value_cons in *. cbn [digits_from]. rewrite Hc.
  fold (digit_value c). pose proof (is_ascii_digit_range c Hc). pose proof (pow10_pos s). pose proof (atoms_value_range s Hs).
  rewrite (proj2 (Z.leb_le _ _)) by nia. rewrite (IH Hs) by nia. f_equal. ring.
Qed.
Lemma u64_text_parses n : 0 <= n <= u64_max -> parse_u64 (u64_text n) = Some n.
Proof.
  intros Hn. unfold u64_text. pose proof (pretty_digits (Z.to_N n)) as Hd.
  assert (Hv : atoms_value (pretty (Z.to_N n)) = n).
  { unfold pretty, pretty_N. case_decide as H0; [simpl; unfold atoms_value; simpl; lia|]. destruct (pretty_go_spec (Z.to_N n) "" eq_refl) as (_ & -> & _).
    unfold pow10, atoms_value. cbn. lia. }
  assert (Hne : pretty (Z.to_N n) <> "").
  { unfold pretty, pretty_N. case_decide as H0; [done|]. destruct (pretty_go_spec (Z.to_N n) "" eq_refl) as (_ & _ & H & _). destruct H as [_ H]; [lia|].
    intros E. rewrite E in H. simpl in H. lia. }
  pose proof (digits_from_value u64_max _ Hd 0) as Hp. rewrite Hv in Hp. destruct (pretty (Z.to_N n)) as [|c s]; [done|]. unfold parse_unsigned.
  destruct (N.eqb_spec (Ascii.N_of_ascii c) 43) as [E|_]; [|rewrite Hp by lia; f_equal; lia].
  cbn [all_bytes] in Hd. unfold is_ascii_digit in Hd. rewrite E in Hd. done.
Qed.
(** A [u64] each. *)
Definition record_ok (r : OutputRecord) : Prop := 0 <= or_runtime_signature r <= u64_max /\ 0 <= or_fuel_consumed r <= u64_max.

(** What a member writes of an output is what the pool reads: the 64-bit numbers
    survive the text they are sent as. *)
Theorem output_roundtrip r : record_ok r -> from_wire_json (to_wire_value r) = Ok r.
Proof.
  destruct r as [nonce rs fuel sol arch]. intros [H1 H2]. simpl in H1, H2. unfold to_wire_value. simpl.
  unfold from_wire_json, wire_dec, wire_str. simpl. by rewrite !u64_text_parses.
Qed.
Definition sample_output (nonce : Z) : OutputRecord := MkOutput nonce 18446744073709551615 7 "s" "arm64".
Example output_roundtrip_witness : from_wire_json (to_wire_value (sample_output 3)) = Ok (sample_output 3).
Proof. apply (output_roundtrip (sample_output 3)). split; vm_compute; split; discriminate. Defined.

(** The capacity of a tree is the least power of two with room for every leaf. *)
Theorem capacity_is_least n : 1 <= n ->
  n <= tree_capacity n /\ (exists k, 0 <= k /\ tree_capacity n = 2 ^ k) /\ forall k, 0 <= k -> n <= 2 ^ k -> tree_capacity n <= 2 ^ k.
Proof.
  intros Hn. unfold tree_capacity. rewrite Z.max_l by lia. split; [|split].
  - apply Z.log2_up_le_pow2; [lia|lia].
  - exists (Z.log2_up n). split; [apply Z.log2_up_nonneg|done].
  - intros k Hk Hle. apply Z.pow_le_mono_r; [lia|]. apply Z.log2_up_le_pow2; lia.
Qed.
Example capacity_is_least_witness : tree_capacity 10 = 16 /\ 10 <= tree_capacity 10.
Proof. split; [reflexivity|]. apply (capacity_is_least 10). lia. Defined.

(** ** A tree of three leaves *)

Definition toy_blake3 (l : list Z) : list Z := take 32 (l ++ replicate 32 0).
Lemma toy_blake3_ok l : hash_ok (toy_blake3 l).
Proof. unfold hash_ok, toy_blake3. rewrite length_take, length_app, length_replicate. lia. Qed.
Definition toy_leaves : list (list Z) := [replicate 32 1; replicate 32 2; replicate 32 3].
Example every_leaf_is_proved_witness :
  exists branch, merkle_branch toy_blake3 toy_leaves 2 = Ok branch /\ map fst branch = [1] /\
    exists root, merkle_root toy_blake3 toy_leaves = Ok root /\ branch_root toy_blake3 (replicate 32 3) 2 branch = Ok root.
Proof.
  destruct (every_leaf_is_proved toy_blake3 toy_leaves 2) as (leaf & branch & root & Hl & Hb & Hr & Hres); [simpl; lia|simpl; lia|].
  injection Hl as <-. exists branch. split; [done|]. split; [vm_compute in Hb; by injection Hb as <-|]. by exists root.
Defined.
Definition toy_branch : list (Z * list Z) := [(1, replicate 32 1)].
Example proof_binds_the_leaf_witness : replicate 32 3 = replicate 32 3 /\ toy_branch = toy_branch \/
  exists p q, p ∈ hashed toy_blake3 (replicate 32 3) 2 0 toy_branch /\ q ∈ hashed toy_blake3 (replicate 32 3) 2 0 toy_branch /\ p <> q /\ toy_blake3 p = toy_blake3 q.
Proof.
  apply (proof_binds_the_leaf toy_blake3 toy_leaves 2 (replicate 32 3) toy_branch (replicate 32 3) toy_branch (replicate 32 1) toy_blake3_ok);
    try (vm_compute; reflexivity); try (repeat constructor); simpl; lia.
Defined.
