(* ===== verification/Upload.v ===== *)
(** * Uploads and acceptance: [crates/spike/src/pool.rs]

    The pool's storage of packages: chunks are taken into quarantine under a
    durable ledger of ranges, a complete package is verified, published and
    accepted, and its slot is offered again.  The disk is explicit, and every
    write can fail or be cut short: a document is written to a temporary file and
    renamed, an append can be torn, and what lies on the disk may not be readable.
    Calls run one at a time: the code takes no lock and leaves that to its caller.
    SHA-256, serde_json, Zstandard and tar are parameters.  Human-readable details of errors and the timings are left
    out; offsets are added exactly, sizes being far below 2^63. *)
From stdpp Require Import pretty.
From S2P Require Import Prelude Text BTreeMap Json Domain Rfc3339 IdentityStore Merkle.
Open Scope Z_scope.

Inductive ErrorCode :=
| OffsetMismatch | ChunkConflict | ChunkChecksumMismatch | BeyondDeclaredSize | DeclarationConflict | UnknownUpload | UnknownAssignment
| LedgerIncomplete | PackageSha256Mismatch | StructuralMismatch | PublicationCorrupt | SlotOccupied | SlotUnknown | AssignmentAlreadyAccepted
| SimulatedCrash | PStorage.
#[export] Instance ErrorCode_eq_dec : EqDecision ErrorCode.
Proof. solve_decision. Defined.
Record PoolError := MkPoolError { pe_code : ErrorCode; pe_committed_offset : option Z }.
Definition err (code : ErrorCode) : PoolError := MkPoolError code None.
Definition storage : PoolError := err PStorage.
Inductive CrashPoint := AfterChunkObjectWrite | AfterPublication.
#[export] Instance CrashPoint_eq_dec : EqDecision CrashPoint.
Proof. solve_decision. Defined.

(** ** The disk *)

(** The state documents, by the directory they are in. *)
Inductive Doc :=
| DById (assignment_id : string) | DAssignment (digest : string) | DSlot (slot_id : string) | DByPackage (package_id : string)
| DDeclaration (upload_id : string) | DAcceptance (package_id : string).
#[export] Instance Doc_eq_dec : EqDecision Doc.
Proof. solve_decision. Defined.
Definition doc_parts (d : Doc) : nat * string :=
  match d with DById a => (0, a) | DAssignment a => (1, a) | DSlot a => (2, a) | DByPackage a => (3, a) | DDeclaration a => (4, a) | DAcceptance a => (5, a) end%nat.
Definition doc_of_parts (p : nat * string) : Doc :=
  match p with (0, a) => DById a | (1, a) => DAssignment a | (2, a) => DSlot a | (3, a) => DByPackage a | (4, a) => DDeclaration a | (_, a) => DAcceptance a end%nat.
Lemma doc_of_parts_of d : doc_of_parts (doc_parts d) = d.
Proof. by destruct d. Qed.
#[export] Instance Doc_countable : Countable Doc := inj_countable' doc_parts doc_of_parts doc_of_parts_of.

Record RangeRec := MkRange { rr_offset : Z; rr_length : Z; rr_sha256 : string }.
#[export] Instance RangeRec_eq_dec : EqDecision RangeRec.
Proof. solve_decision. Defined.
(** The deterministic name of a chunk object. *)
Definition ChunkKey : Type := string * (Z * Z * string).
(** A ledger file: its complete lines and what follows the last line feed. *)
Record LedgerFile := MkLedger { lf_lines : list string; lf_tail : string }.
Definition no_ledger : LedgerFile := MkLedger [] "".

(** What becomes of a write: it is done; it fails leaving nothing new; it is cut
    short; it is written whole to the temporary file and not renamed; or it takes
    effect and an error is returned all the same. *)
Inductive Fault := Done | FailedBefore | Torn (bytes : nat) | NotRenamed | FailedAfter.
(** What is read: a document, a ledger, a chunk, a published object, the directory
    of acceptance records. *)
Inductive Spot := SDoc (n : Doc) | SLedger (upload_id : string) | SChunk (k : ChunkKey) | SObject (key : string) | SAcceptances.
(** [dp_unread] are the places whose reading fails, by an I/O error or, for a
    document, because it is not JSON. *)
Record Depot := MkDepot {
  dp_docs : gmap Doc Value; dp_tmp : gmap Doc (option Value); dp_ledgers : gmap string LedgerFile; dp_chunks : gmap ChunkKey (list Z);
  dp_objects : gmap string (list Z); dp_faults : list Fault; dp_unread : Spot -> bool }.
Definition with_docs (m : gmap Doc Value) (t : gmap Doc (option Value)) (d : Depot) : Depot :=
  MkDepot m t (dp_ledgers d) (dp_chunks d) (dp_objects d) (dp_faults d) (dp_unread d).
Definition with_ledgers (m : gmap string LedgerFile) (d : Depot) : Depot := MkDepot (dp_docs d) (dp_tmp d) m (dp_chunks d) (dp_objects d) (dp_faults d) (dp_unread d).
Definition with_chunks (m : gmap ChunkKey (list Z)) (d : Depot) : Depot := MkDepot (dp_docs d) (dp_tmp d) (dp_ledgers d) m (dp_objects d) (dp_faults d) (dp_unread d).
Definition with_objects (m : gmap string (list Z)) (d : Depot) : Depot := MkDepot (dp_docs d) (dp_tmp d) (dp_ledgers d) (dp_chunks d) m (dp_faults d) (dp_unread d).
Definition take_fault (d : Depot) : Fault * Depot :=
  match dp_faults d with
  | [] => (Done, d)
  | f :: rest => (f, MkDepot (dp_docs d) (dp_tmp d) (dp_ledgers d) (dp_chunks d) (dp_objects d) rest (dp_unread d))
  end.

Definition P (A : Type) : Type := Depot -> result PoolError A * Depot.
Definition pret {A} (a : A) : P A := fun d => (Ok a, d).
Definition pfail {A} (e : PoolError) : P A := fun d => (Err e, d).
Definition plift {A} (r : result PoolError A) : P A := fun d => (r, d).
Definition pbind {A B} (m : P A) (k : A -> P B) : P B := fun d => match m d with (Ok a, d') => k a d' | (Err e, d') => (Err e, d') end.
Notation "'let&' x ':=' m 'in' k" := (pbind m (fun x => k))
  (at level 10, x pattern, m at level 200, k at level 200, format "'[v' 'let&'  x  ':='  m  'in' '/' k ']'") : pool_scope.
Definition pwhen (b : bool) (e : PoolError) : P unit := fun d => (if b then Err e else Ok tt, d).

Definition read_at {A} (sp : Spot) (a : Depot -> result PoolError A) : P A := fun d => (if dp_unread d sp then Err storage else a d, d).
Definition read_doc (n : Doc) : P (option Value) := read_at (SDoc n) (fun d => Ok (dp_docs d !! n)).
(** [write_doc_atomic]: the temporary file is gone once it is renamed. *)
Definition write_doc_atomic (n : Doc) (v : Value) : P unit := fun d =>
  let (f, d) := take_fault d in
  match f with
  | Done => (Ok tt, with_docs (<[n := v]> (dp_docs d)) (delete n (dp_tmp d)) d)
  | FailedBefore => (Err storage, d)
  | Torn _ => (Err storage, with_docs (dp_docs d) (<[n := None]> (dp_tmp d)) d)
  | NotRenamed => (Err storage, with_docs (dp_docs d) (<[n := Some v]> (dp_tmp d)) d)
  | FailedAfter => (Err storage, with_docs (<[n := v]> (dp_docs d)) (delete n (dp_tmp d)) d)
  end.
(** [write_atomic] on a chunk and the publication of an object: what is left in
    a temporary file is never read. *)
Definition write_chunk (k : ChunkKey) (bytes : list Z) : P unit := fun d =>
  let (f, d) := take_fault d in
  match f with
  | Done => (Ok tt, with_chunks (<[k := bytes]> (dp_chunks d)) d)
  | FailedAfter => (Err storage, with_chunks (<[k := bytes]> (dp_chunks d)) d)
  | _ => (Err storage, d)
  end.
Definition publish (key : string) (bytes : list Z) : P unit := fun d =>
  let (f, d) := take_fault d in
  match f with
  | Done => (Ok tt, with_objects (<[key := bytes]> (dp_objects d)) d)
  | FailedAfter => (Err storage, with_objects (<[key := bytes]> (dp_objects d)) d)
  | _ => (Err storage, d)
  end.
(** An append of a line: a torn one leaves its first bytes after the last line
    feed, where the next append goes on. *)
Definition append_line (line : string) (f : LedgerFile) : LedgerFile := MkLedger (lf_lines f ++ [String.append (lf_tail f) line]) "".
Definition torn_line (n : nat) (line : string) (f : LedgerFile) : LedgerFile := MkLedger (lf_lines f) (String.append (lf_tail f) (String.substring 0 n line)).
Definition append_ledger (upload_id line : string) : P unit := fun d =>
  let (f, d) := take_fault d in
  let file := default no_ledger (dp_ledgers d !! upload_id) in
  let put file' := with_ledgers (<[upload_id := file']> (dp_ledgers d)) d in
  match f with
  | Done => (Ok tt, put (append_line line file))
  | FailedBefore | NotRenamed => (Err storage, d)
  | Torn n => (Err storage, put (torn_line n line file))
  | FailedAfter => (Err storage, put (append_line line file))
  end.

(** ** Fields and identifiers *)

Definition validate_id (id : string) : result PoolError unit := if is_token id then Ok tt else Err storage.
Definition field_str (v : Value) (key : string) : result PoolError string := ok_or (and_then (json_get key v) json_as_str) storage.
Definition field_u64 (v : Value) (key : string) : result PoolError Z := ok_or (and_then (json_get key v) json_as_u64) storage.
(** A required identifier. *)
Definition id_field (v : Value) (key : string) : result PoolError string := let? id := field_str v key in let? _ := validate_id id in Ok id.
Definition optional_id (v : Value) (key : string) : result PoolError unit :=
  match json_get key v with Some _ => let? _ := id_field v key in Ok tt | None => Ok tt end.

Section pool.
Context (sha256 : list Z -> list Z) (to_string : Value -> string) (from_str : string -> option Value).
(** At most so many decompressed bytes, and the entries of an archive: each an
    error, or its path, where that can be read, and its contents. *)
Context (unzstd : Z -> list Z -> option (list Z)) (tar_entries : list Z -> option (list (option (option string * option (list Z))))).
(** The order a directory is listed in, and how the pool's root is displayed. *)
Context (listing : list (option Value) -> list (option Value)) (root_display : string).
Abbreviation sha256_hex := (Merkle.sha256_hex sha256).

(** ** Assignments *)

Definition slot_doc (slot_id : string) (generation : Z) (state assignment_id : string) : Value :=
  json_object [("slot_id", JString slot_id); ("generation", json_u64 generation); ("state", JString state); ("assignment_id", JString assignment_id)].
Definition register_assignment (a : Value) : P unit :=
  let& digest := plift (field_str a "assignment_digest") in
  let& _ := plift (validate_id digest) in
  let& _ := plift (id_field a "assignment_id") in
  let& _ := plift (id_field a "benchmark_id") in
  let& _ := plift (id_field a "slot_id") in
  let& _ := plift (id_field a "network") in
  let& _ := plift (optional_id a "member_id") in
  let& _ := plift (optional_id a "worker_id") in
  let& generation := plift (field_u64 a "slot_generation") in
  let& assignment_id := plift (field_str a "assignment_id") in
  let& index := read_doc (DById assignment_id) in
  let& _ := match index with
            | Some index =>
                let& known := plift (field_str index "assignment_digest") in
                pwhen (negb (String.eqb known digest)) (err DeclarationConflict)
            | None => write_doc_atomic (DById assignment_id) (json_object [("assignment_digest", JString digest)])
            end in
  let& existing := read_doc (DAssignment digest) in
  let& _ := match existing with
            | Some existing => pwhen (negb (bool_decide (existing = a))) (err DeclarationConflict)
            | None => write_doc_atomic (DAssignment digest) a
            end in
  let& slot_id := plift (field_str a "slot_id") in
  let doc := slot_doc slot_id generation "UPLOADING" assignment_id in
  let& existing := read_doc (DSlot slot_id) in
  match existing with
  | Some existing =>
      if bool_decide (existing = doc) then pret tt
      else
        let& existing_gen := plift (field_u64 existing "generation") in
        let same_reservation := bool_decide (and_then (json_get "state" existing) json_as_str = Some "RESERVED") && (existing_gen =? generation) &&
                                bool_decide (json_get "assignment_id" existing = json_get "assignment_id" doc) in
        let& _ := pwhen (negb same_reservation && (generation <=? existing_gen)) (err SlotOccupied) in
        write_doc_atomic (DSlot slot_id) doc
  | None => write_doc_atomic (DSlot slot_id) doc
  end.
Definition assignment_by_digest (digest : string) : P (option Value) :=
  let& _ := plift (validate_id digest) in read_doc (DAssignment digest).

(** ** Uploads *)

Definition committed_offset (ranges : list RangeRec) : Z := match last ranges with Some r => rr_offset r + rr_length r | None => 0 end.
Definition read_range (out : list RangeRec) (line : string) : result PoolError (list RangeRec) :=
  if trim_is_empty line then Ok out
  else
    let? v := ok_or (from_str line) storage in
    let? offset := field_u64 v "offset" in
    let? length := field_u64 v "length" in
    let? sha := field_str v "sha256" in
    if negb (offset =? committed_offset out) then Err storage else Ok (out ++ [MkRange offset length sha]).
Definition ranges_of (f : LedgerFile) : result PoolError (list RangeRec) := foldM read_range [] (lf_lines f).
Definition read_ranges (upload_id : string) : P (list RangeRec) := read_at (SLedger upload_id) (fun d => ranges_of (default no_ledger (dp_ledgers d !! upload_id))).
Definition range_json (r : RangeRec) : Value :=
  json_object [("offset", json_u64 (rr_offset r)); ("length", json_u64 (rr_length r)); ("sha256", JString (rr_sha256 r))].
Definition append_range (upload_id : string) (r : RangeRec) : P unit := append_ledger upload_id (to_string (range_json r)).
Definition chunk_path (upload_id : string) (r : RangeRec) : ChunkKey := (upload_id, (rr_offset r, rr_length r, rr_sha256 r)).

Record UploadSession := MkSession { us_upload_id : string; us_committed_offset : Z; us_resumed : bool }.
Definition upload_id_of (declaration : Value) : string := String.substring 0 32 (sha256_hex (as_bytes (to_string declaration))).
Definition create_upload (declaration : Value) : P UploadSession :=
  let& package_id := plift (id_field declaration "package_id") in
  let& digest := plift (id_field declaration "assignment_digest") in
  let& assignment := read_doc (DAssignment digest) in
  let& _ := pwhen (bool_decide (assignment = None)) (err UnknownAssignment) in
  let& _ := plift (id_field declaration "package_sha256") in
  let& _ := plift (id_field declaration "manifest_sha256") in
  let& size := plift (field_u64 declaration "compressed_size_bytes") in
  let& _ := pwhen (size =? 0) storage in
  let upload_id := upload_id_of declaration in
  let& index := read_doc (DByPackage package_id) in
  match index with
  | Some index =>
      let& _ := pwhen (negb (bool_decide (default JNull (json_get "declaration" index) = declaration))) (err DeclarationConflict) in
      let& ranges := read_ranges upload_id in
      pret (MkSession upload_id (committed_offset ranges) true)
  | None =>
      let& _ := write_doc_atomic (DDeclaration upload_id) declaration in
      let& _ := write_doc_atomic (DByPackage package_id) (json_object [("upload_id", JString upload_id); ("declaration", declaration)]) in
      pret (MkSession upload_id 0 false)
  end.
Definition declaration (upload_id : string) : P Value :=
  let& doc := read_doc (DDeclaration upload_id) in plift (ok_or doc (err UnknownUpload)).

Definition read_chunk (k : ChunkKey) : P (list Z) := read_at (SChunk k) (fun d => ok_or (dp_chunks d !! k) storage).
Definition chunk_exists (k : ChunkKey) : P bool := fun d => (Ok (bool_decide (is_Some (dp_chunks d !! k))), d).
Definition put_chunk_crash (upload_id : string) (offset : Z) (declared_sha256 : string) (bytes : list Z) (crash : option CrashPoint) : P Z :=
  let& _ := plift (validate_id declared_sha256) in
  let& declaration := declaration upload_id in
  let& declared_size := plift (field_u64 declaration "compressed_size_bytes") in
  let& ranges := read_ranges upload_id in
  let committed := committed_offset ranges in
  let len := Z.of_nat (length bytes) in
  if committed <? offset then pfail (MkPoolError OffsetMismatch (Some committed))
  else if offset <? committed then
    let matches := existsb (fun r => (rr_offset r =? offset) && (rr_length r =? len) && String.eqb (rr_sha256 r) declared_sha256) ranges in
    if matches && String.eqb (sha256_hex bytes) declared_sha256 then pret committed else pfail (err ChunkConflict)
  else
    let& _ := pwhen (len =? 0) (err ChunkChecksumMismatch) in
    let& _ := pwhen (negb (String.eqb (sha256_hex bytes) declared_sha256)) (err ChunkChecksumMismatch) in
    let& _ := pwhen (declared_size <? offset + len) (err BeyondDeclaredSize) in
    let rec := MkRange offset len declared_sha256 in
    let path := chunk_path upload_id rec in
    let& there := chunk_exists path in
    let& _ := if there then
                let& existing := read_chunk path in
                pwhen (negb (String.eqb (sha256_hex existing) declared_sha256)) (err ChunkConflict)
              else write_chunk path bytes in
    let& stored := read_chunk path in
    let& _ := pwhen (negb (Z.of_nat (length stored) =? len) || negb (String.eqb (sha256_hex stored) declared_sha256)) storage in
    let& _ := pwhen (bool_decide (crash = Some AfterChunkObjectWrite)) (err SimulatedCrash) in
    let& _ := append_range upload_id rec in
    pret (offset + len).
Definition put_chunk (upload_id : string) (offset : Z) (declared_sha256 : string) (bytes : list Z) : P Z :=
  put_chunk_crash upload_id offset declared_sha256 bytes None.

Definition upload_status (upload_id : string) : P Value :=
  let& decl := declaration upload_id in
  let& ranges := read_ranges upload_id in
  let& package_id := plift (field_str decl "package_id") in
  let& acceptance := read_doc (DAcceptance package_id) in
  let& size := plift (field_u64 decl "compressed_size_bytes") in
  pret (json_object [("upload_id", JString upload_id); ("package_id", JString package_id); ("committed_offset", json_u64 (committed_offset ranges));
                     ("declared_compressed_size_bytes", json_u64 size); ("durably_accepted", JBool (bool_decide (is_Some acceptance)))]).

(** ** Acceptance *)

(** [ChunkStream]: the chunks of the ranges, one after the other. *)
Fixpoint chunk_stream (chunks : gmap ChunkKey (list Z)) (upload_id : string) (ranges : list RangeRec) : option (list Z) :=
  match ranges with
  | [] => Some []
  | r :: rest =>
      match chunks !! chunk_path upload_id r, chunk_stream chunks upload_id rest with Some b, Some bs => Some (b ++ bs) | _, _ => None end
  end.
Definition stream (upload_id : string) (ranges : list RangeRec) : P (list Z) := fun d =>
  (if existsb (fun r => dp_unread d (SChunk (chunk_path upload_id r))) ranges then Err storage else ok_or (chunk_stream (dp_chunks d) upload_id ranges) storage, d).

Fixpoint find_manifest (entries : list (option (option string * option (list Z)))) (declared : string) : result PoolError unit :=
  match entries with
  | [] => Err (err StructuralMismatch)
  | None :: _ => Err (err StructuralMismatch)
  | Some (path, data) :: rest =>
      if bool_decide (path = Some "manifest.json") then
        match data with
        | Some manifest => if String.eqb (sha256_hex manifest) declared then Ok tt else Err (err StructuralMismatch)
        | None => Err (err StructuralMismatch)
        end
      else find_manifest rest declared
  end.
Definition structural_touch (decl : Value) (package : list Z) : result PoolError unit :=
  let? declared_uncompressed := field_u64 decl "uncompressed_size_bytes" in
  let? declared_manifest_sha := field_str decl "manifest_sha256" in
  let? tar_bytes := ok_or (unzstd (declared_uncompressed + 1) package) (err StructuralMismatch) in
  if negb (Z.of_nat (length tar_bytes) =? declared_uncompressed) then Err (err StructuralMismatch)
  else
    let? entries := ok_or (tar_entries tar_bytes) (err StructuralMismatch) in
    find_manifest entries declared_manifest_sha.

(** The directory of acceptance records, temporary files among them: a document,
    or [None] for one that cannot be read. *)
Definition acceptance_files (d : Depot) : list (option Value) :=
  omap (fun kv => match kv.1 with DAcceptance _ => Some (if dp_unread d (SDoc kv.1) then None else Some kv.2) | _ => None end) (map_to_list (dp_docs d)) ++
  omap (fun kv => match kv.1 with DAcceptance _ => Some kv.2 | _ => None end) (map_to_list (dp_tmp d)).
Definition acceptance_dir (d : Depot) : list (option Value) := listing (acceptance_files d).
Fixpoint find_accepted (entries : list (option Value)) (assignment_id : string) : result PoolError (option string) :=
  match entries with
  | [] => Ok None
  | None :: _ => Err storage
  | Some doc :: rest =>
      let receipt := default JNull (json_get "receipt" doc) in
      if bool_decide (and_then (json_get "assignment_id" receipt) json_as_str = Some assignment_id) then
        match and_then (json_get "package_id" receipt) json_as_str with Some p => Ok (Some p) | None => find_accepted rest assignment_id end
      else find_accepted rest assignment_id
  end.
Definition accepted_package_for_assignment (assignment_id : string) : P (option string) :=
  let& _ := plift (validate_id assignment_id) in
  read_at SAcceptances (fun d => find_accepted (acceptance_dir d) assignment_id).
Definition releases (slot_id : string) (generation : Z) (doc : Value) : bool :=
  let release := default JNull (json_get "slot_release" doc) in
  bool_decide (and_then (json_get "slot_id" release) json_as_str = Some slot_id) && bool_decide (and_then (json_get "generation" release) json_as_u64 = Some generation).
Fixpoint count_releases (entries : list (option Value)) (slot_id : string) (generation : Z) : result PoolError nat :=
  match entries with
  | [] => Ok 0%nat
  | None :: _ => Err storage
  | Some doc :: rest => let? n := count_releases rest slot_id generation in Ok ((if releases slot_id generation doc then 1 else 0) + n)%nat
  end.
Definition release_count (slot_id : string) (generation : Z) : P nat := read_at SAcceptances (fun d => count_releases (acceptance_dir d) slot_id generation).

Definition artifact_json (package_id assignment_id benchmark_id object_key media_type declared_sha : string) (declared_size uncompressed : Z)
    (manifest_sha accepted_at : string) : Value :=
  json_object
    [("artifact_id", JString (derived_uuid sha256 (String.append "spike-pool:artifact:" package_id))); ("assignment_id", JString assignment_id);
     ("benchmark_id", JString benchmark_id); ("kind", JString "PACKAGE"); ("backend", JString "FILESYSTEM"); ("container", JString root_display);
     ("object_key", JString object_key); ("provider_version", JNull); ("format_version", JString "proof-material-v1"); ("media_type", JString media_type);
     ("sha256", JString declared_sha); ("provider_checksum", JNull); ("compressed_size", json_u64 declared_size);
     ("uncompressed_size", json_u64 uncompressed); ("manifest_sha256", JString manifest_sha); ("lifecycle_state", JString "ACCEPTED");
     ("accepted_at", JString accepted_at)].
(** The issued identities the assignment carries, added to the receipt. *)
Definition with_identity (assignment : Value) (receipt : Value) (key : string) : Value :=
  match json_get key assignment with Some v => set_field key v receipt | None => receipt end.
Definition receipt_json (package_id upload_id assignment_id benchmark_id declared_sha accepted_at slot_id : string) (slot_generation : Z) (assignment : Value) : Value :=
  with_identity assignment (with_identity assignment (json_object
    [("receipt_id", JString (derived_uuid sha256 (String.append "spike-pool:receipt:" package_id))); ("package_id", JString package_id);
     ("upload_id", JString upload_id); ("assignment_id", JString assignment_id); ("benchmark_id", JString benchmark_id);
     ("package_sha256", JString declared_sha); ("accepted_at", JString accepted_at); ("member_may_delete_package", JBool true);
     ("slot_released", JBool true); ("slot_id", JString slot_id); ("slot_generation", json_u64 slot_generation)]) "member_id") "worker_id".
Definition acceptance_json (artifact receipt : Value) (slot_id : string) (slot_generation : Z) : Value :=
  json_object [("artifact", artifact); ("receipt", receipt); ("assignment_state", JString "PACKAGE_DURABLY_ACCEPTED");
               ("slot_release", json_object [("slot_id", JString slot_id); ("generation", json_u64 slot_generation)])].
Definition object_key_of (network benchmark_id package_id declared_sha : string) : string :=
  String.concat "" ["accepted/"; network; "/"; benchmark_id; "/"; package_id; "/"; declared_sha; ".tar.zst"].
Definition object_at (key : string) : P (option (list Z)) := fun d => (Ok (dp_objects d !! key), d).
Definition read_object (key : string) : P (list Z) := read_at (SObject key) (fun d => ok_or (dp_objects d !! key) storage).
Definition verified (declared_size : Z) (declared_sha : string) (bytes : list Z) : bool :=
  (Z.of_nat (length bytes) =? declared_size) && String.eqb (sha256_hex bytes) declared_sha.

(** The third step of the saga: the object is found, or written and renamed. *)
Definition publish_object (object_key : string) (declared_size : Z) (declared_sha : string) (upload_id : string) (ranges : list RangeRec) : P unit :=
  let& existing := object_at object_key in
  match existing with
  | Some _ =>
      let& bytes := read_object object_key in
      pwhen (negb (verified declared_size declared_sha bytes)) (err PublicationCorrupt)
  | None =>
      let& copy := stream upload_id ranges in
      let& _ := pwhen (negb (verified declared_size declared_sha copy)) storage in
      publish object_key copy
  end.
Record FinalizeOutcome := MkFinalize { fo_receipt_json : string; fo_fresh : bool }.
Definition finalize_crash (package_id : string) (crash : option CrashPoint) (now : Z) : P FinalizeOutcome :=
  let& _ := plift (validate_id package_id) in
  let& accepted := read_doc (DAcceptance package_id) in
  match accepted with
  | Some doc => let& receipt := plift (ok_or (json_get "receipt" doc) storage) in pret (MkFinalize (to_string receipt) false)
  | None =>
      let& index := read_doc (DByPackage package_id) in
      let& index := plift (ok_or index (err UnknownUpload)) in
      let& upload_id := plift (field_str index "upload_id") in
      let& decl := plift (ok_or (json_get "declaration" index) storage) in
      let& declared_size := plift (field_u64 decl "compressed_size_bytes") in
      let& declared_sha := plift (field_str decl "package_sha256") in
      let& digest := plift (field_str decl "assignment_digest") in
      let& assignment := read_doc (DAssignment digest) in
      let& assignment := plift (ok_or assignment (err UnknownAssignment)) in
      let& this_assignment := plift (field_str assignment "assignment_id") in
      let& other := accepted_package_for_assignment this_assignment in
      let& _ := pwhen (match other with Some p => negb (String.eqb p package_id) | None => false end) (err AssignmentAlreadyAccepted) in
      let& ranges := read_ranges upload_id in
      let& _ := pwhen (negb (committed_offset ranges =? declared_size)) (err LedgerIncomplete) in
      let& streamed := stream upload_id ranges in
      let& _ := pwhen (negb (Z.of_nat (length streamed) =? declared_size)) storage in
      let& _ := pwhen (negb (String.eqb (sha256_hex streamed) declared_sha)) (err PackageSha256Mismatch) in
      let& _ := plift (structural_touch decl streamed) in
      let& network := plift (field_str assignment "network") in
      let& benchmark_id := plift (field_str assignment "benchmark_id") in
      let object_key := object_key_of network benchmark_id package_id declared_sha in
      let& _ := publish_object object_key declared_size declared_sha upload_id ranges in
      let& _ := pwhen (bool_decide (crash = Some AfterPublication)) (err SimulatedCrash) in
      let accepted_at := rfc3339_utc now in
      let& slot_id := plift (field_str assignment "slot_id") in
      let& slot_generation := plift (field_u64 assignment "slot_generation") in
      let& assignment_id := plift (field_str assignment "assignment_id") in
      let& media_type := plift (field_str decl "media_type") in
      let& uncompressed := plift (field_u64 decl "uncompressed_size_bytes") in
      let& manifest_sha := plift (field_str decl "manifest_sha256") in
      let artifact := artifact_json package_id assignment_id benchmark_id object_key media_type declared_sha declared_size uncompressed manifest_sha accepted_at in
      let receipt := receipt_json package_id upload_id assignment_id benchmark_id declared_sha accepted_at slot_id slot_generation assignment in
      let& _ := write_doc_atomic (DAcceptance package_id) (acceptance_json artifact receipt slot_id slot_generation) in
      pret (MkFinalize (to_string receipt) true)
  end.
Definition finalize (package_id : string) (now : Z) : P FinalizeOutcome := finalize_crash package_id None now.

Record SlotView := MkSlotView { sv_slot_id : string; sv_generation : Z; sv_occupied : bool; sv_assignment_id : string }.
Definition slot_view (slot_id : string) : P SlotView :=
  let& _ := plift (validate_id slot_id) in
  let& doc := read_doc (DSlot slot_id) in
  let& doc := plift (ok_or doc (err SlotUnknown)) in
  let& generation := plift (field_u64 doc "generation") in
  let& released := release_count slot_id generation in
  let& assignment_id := plift (field_str doc "assignment_id") in
  pret (MkSlotView slot_id generation (Nat.eqb released 0) assignment_id).
Definition offer_slot (slot_id assignment_id : string) : P Z :=
  let& _ := plift (validate_id assignment_id) in
  let& view := slot_view slot_id in
  let& _ := pwhen (sv_occupied view) (err SlotOccupied) in
  let next := sv_generation view + 1 in
  let& _ := write_doc_atomic (DSlot slot_id) (slot_doc slot_id next "RESERVED" assignment_id) in
  pret next.
Definition acceptance (package_id : string) : P (option Value) :=
  let& _ := plift (validate_id package_id) in read_doc (DAcceptance package_id).

(** ** The operations *)

Inductive PoolOp :=
| OpRegister (assignment : Value)
| OpCreate (declaration : Value)
| OpPut (upload_id : string) (offset : Z) (declared_sha256 : string) (bytes : list Z) (crash : option CrashPoint)
| OpFinalize (package_id : string) (crash : option CrashPoint) (now : Z)
| OpOffer (slot_id assignment_id : string).
Definition after {A} (m : P A) (d : Depot) : Depot := (m d).2.
Definition run_op (op : PoolOp) (d : Depot) : Depot :=
  match op with
  | OpRegister a => after (register_assignment a) d
  | OpCreate decl => after (create_upload decl) d
  | OpPut u o s b c => after (put_chunk_crash u o s b c) d
  | OpFinalize p c now => after (finalize_crash p c now) d
  | OpOffer s a => after (offer_slot s a) d
  end.
Definition with_faults (fs : list Fault) (d : Depot) : Depot := MkDepot (dp_docs d) (dp_tmp d) (dp_ledgers d) (dp_chunks d) (dp_objects d) fs (dp_unread d).
Definition with_unread (un : Spot -> bool) (d : Depot) : Depot := MkDepot (dp_docs d) (dp_tmp d) (dp_ledgers d) (dp_chunks d) (dp_objects d) (dp_faults d) un.
Definition empty_depot : Depot := MkDepot ∅ ∅ ∅ ∅ ∅ [] (fun _ => false).
(** The arguments are [u64]s. *)
Definition op_ok (op : PoolOp) : bool := match op with OpPut _ offset _ bytes _ => is_u64 offset && is_u64 (Z.of_nat (length bytes)) | _ => true end.
(** [fs::remove_file] on a published object: it takes effect or not, and may
    report an error all the same. *)
Definition remove_object (key : string) (d : Depot) : bool * Depot :=
  let (f, d) := take_fault d in
  match f with
  | Done => (true, with_objects (delete key (dp_objects d)) d)
  | FailedAfter => (false, with_objects (delete key (dp_objects d)) d)
  | _ => (false, d)
  end.
(** The object a record of acceptance names. *)
Definition object_named (v : Value) : option string := and_then (json_get "artifact" v) (fun a => and_then (json_get "object_key" a) json_as_str).
(** One operation, with whatever faults its writes meet; the object of an accepted
    package removed, which the retention rule does ([Package.apply_retention]); or
    other places that cannot be read. *)
Inductive pool_step (d : Depot) : Depot -> Prop :=
| pool_op op fs : op_ok op = true -> pool_step d (run_op op (with_faults fs d))
| pool_retire p v key fs : dp_docs d !! DAcceptance p = Some v -> object_named v = Some key -> pool_step d (remove_object key (with_faults fs d)).2
| pool_unread un : pool_step d (with_unread un d).

(** ** Lemmas: reading a program *)

Lemma pbind_plift {A B} (r : result PoolError A) (k : A -> P B) d : pbind (plift r) k d = match r with Ok a => k a d | Err e => (Err e, d) end.
Proof. by destruct r. Qed.
Lemma pbind_pwhen {B} b e (k : unit -> P B) d : pbind (pwhen b e) k d = if b then (Err e, d) else k tt d.
Proof. by destruct b. Qed.
Lemma pbind_read_at {A B} sp (a : Depot -> result PoolError A) (k : A -> P B) d :
  pbind (read_at sp a) k d = if dp_unread d sp then (Err storage, d) else match a d with Ok x => k x d | Err e => (Err e, d) end.
Proof. unfold pbind, read_at. destruct (dp_unread d sp); [done|]. by destruct (a d). Qed.
Lemma pbind_read_doc {B} n (k : option Value -> P B) d : pbind (read_doc n) k d = if dp_unread d (SDoc n) then (Err storage, d) else k (dp_docs d !! n) d.
Proof. apply pbind_read_at. Qed.
Lemma pbind_assoc {A B C} (m : P A) (k : A -> P B) (j : B -> P C) d : pbind (pbind m k) j d = pbind m (fun a => pbind (k a) j) d.
Proof. unfold pbind. by destruct (m d) as [[a|e] d']. Qed.
Lemma pbind_inv {A B} (m : P A) (k : A -> P B) d r d' : pbind m k d = (r, d') ->
  (exists a d1, m d = (Ok a, d1) /\ k a d1 = (r, d')) \/ (exists e, m d = (Err e, d') /\ r = Err e).
Proof. unfold pbind. destruct (m d) as [[a|e] d1]; [left; by exists a, d1|]. intros [= <- <-]. right. by exists e. Qed.

(** ** What an operation does to the disk *)

Definition same_files (d d' : Depot) : Prop := dp_ledgers d' = dp_ledgers d /\ dp_chunks d' = dp_chunks d /\ dp_objects d' = dp_objects d.
(** A document written, with the outcome its fault has. *)
Definition doc_written (n : Doc) (v : Value) (d d' : Depot) : Prop :=
  same_files d d' /\
  ((dp_docs d' = <[n := v]> (dp_docs d) /\ dp_tmp d' = delete n (dp_tmp d)) \/
   (dp_docs d' = dp_docs d /\ (dp_tmp d' = dp_tmp d \/ dp_tmp d' = <[n := None]> (dp_tmp d) \/ dp_tmp d' = <[n := Some v]> (dp_tmp d)))).
Definition same_docs (d d' : Depot) : Prop := dp_docs d' = dp_docs d /\ dp_tmp d' = dp_tmp d.
(** A range that was recorded: its numbers are [u64]s, and it is not empty. *)
Definition range_ok (r : RangeRec) : bool := is_u64 (rr_offset r) && is_u64 (rr_length r) && (0 <? rr_length r).
Definition is_acceptance (n : Doc) : bool := match n with DAcceptance _ => true | _ => false end.
(** What a record of acceptance says of its object: where it is, how long, and its
    hash. *)
Inductive record_of (package_id assignment_id : string) : string -> Z -> string -> Value -> Prop :=
| Record_of upload_id benchmark_id network media_type sha size uncompressed manifest_sha accepted_at slot_id generation assignment :
    record_of package_id assignment_id (object_key_of network benchmark_id package_id sha) size sha
      (acceptance_json
         (artifact_json package_id assignment_id benchmark_id (object_key_of network benchmark_id package_id sha) media_type sha size uncompressed manifest_sha accepted_at)
         (receipt_json package_id upload_id assignment_id benchmark_id sha accepted_at slot_id generation assignment) slot_id generation).
Definition lies (objects : gmap string (list Z)) (key : string) (size : Z) (sha : string) : Prop :=
  exists bytes, objects !! key = Some bytes /\ verified size sha bytes = true.
(** The steps of the disk; [gone] are the objects that may be removed. *)
Context (gone : string -> Prop).
Inductive disk_change (d : Depot) : Depot -> Prop :=
| change_faults d' : same_docs d d' -> same_files d d' -> disk_change d d'
| change_doc n v d' : is_acceptance n = false -> doc_written n v d d' -> disk_change d d'
| change_chunk u r bytes d' : dp_chunks d !! chunk_path u r = None -> Z.of_nat (length bytes) = rr_length r -> sha256_hex bytes = rr_sha256 r ->
    same_docs d d' -> dp_ledgers d' = dp_ledgers d -> dp_objects d' = dp_objects d -> dp_chunks d' = <[chunk_path u r := bytes]> (dp_chunks d) -> disk_change d d'
| change_ledger u r file d' : is_Some (dp_chunks d !! chunk_path u r) -> range_ok r = true ->
    (file = append_line (to_string (range_json r)) (default no_ledger (dp_ledgers d !! u)) \/
     exists n, file = torn_line n (to_string (range_json r)) (default no_ledger (dp_ledgers d !! u))) ->
    same_docs d d' -> dp_chunks d' = dp_chunks d -> dp_objects d' = dp_objects d -> dp_ledgers d' = <[u := file]> (dp_ledgers d) -> disk_change d d'
| change_object key bytes d' : dp_objects d !! key = None -> same_docs d d' -> dp_ledgers d' = dp_ledgers d -> dp_chunks d' = dp_chunks d ->
    dp_objects d' = <[key := bytes]> (dp_objects d) -> disk_change d d'
| change_removed key d' : gone key -> same_docs d d' -> dp_ledgers d' = dp_ledgers d -> dp_chunks d' = dp_chunks d ->
    dp_objects d' = delete key (dp_objects d) -> disk_change d d'
| change_accepted p a key size sha v other d' : dp_docs d !! DAcceptance p = None -> find_accepted (acceptance_dir d) a = Ok other -> (other = None \/ other = Some p) ->
    record_of p a key size sha v -> lies (dp_objects d) key size sha -> doc_written (DAcceptance p) v d d' -> disk_change d d'.

Lemma same_files_refl d : same_files d d.
Proof. done. Qed.
Lemma take_fault_unread d : dp_unread (take_fault d).2 = dp_unread d.
Proof. unfold take_fault. by destruct (dp_faults d). Qed.
Lemma take_fault_same d : same_docs d (take_fault d).2 /\ same_files d (take_fault d).2.
Proof. unfold take_fault. by destruct (dp_faults d). Qed.
Lemma write_doc_atomic_written n v d r d' : write_doc_atomic n v d = (r, d') -> doc_written n v d d'.
Proof.
  unfold write_doc_atomic. destruct (take_fault_same d) as [[Hd Ht] (Hl & Hc & Ho)]. destruct (take_fault d) as [f d1]. simpl in *. unfold doc_written, same_files.
  destruct f; intros [= <- <-]; simpl; rewrite ?Hd, ?Ht, ?Hl, ?Hc, ?Ho; naive_solver.
Qed.
Lemma write_chunk_changed u q bytes d r d' : dp_chunks d !! chunk_path u q = None -> Z.of_nat (length bytes) = rr_length q -> sha256_hex bytes = rr_sha256 q ->
  write_chunk (chunk_path u q) bytes d = (r, d') -> disk_change d d' /\ (r = Ok tt -> dp_chunks d' = <[chunk_path u q := bytes]> (dp_chunks d)).
Proof.
  intros Hn Hl Hs. unfold write_chunk. destruct (take_fault_same d) as [[Hd Ht] (Hg & Hc & Ho)]. destruct (take_fault d) as [f d1]. simpl in *.
  destruct f; intros [= <- <-]; (split; [|simpl; try done; by rewrite Hc]); try (by apply change_faults); by eapply (change_chunk _ u q bytes); simpl; rewrite ?Hc.
Qed.
Lemma publish_changed key bytes d r d' : dp_objects d !! key = None -> publish key bytes d = (r, d') ->
  disk_change d d' /\ (r = Ok tt -> dp_objects d' = <[key := bytes]> (dp_objects d)) /\ same_docs d d' /\ dp_unread d' = dp_unread d.
Proof.
  intros Hn. unfold publish. pose proof (take_fault_unread d) as Hun. destruct (take_fault_same d) as [[Hd Ht] (Hg & Hc & Ho)]. destruct (take_fault d) as [f d1]. simpl in *.
  destruct f; intros [= <- <-]; (split; [|split; [simpl; try done; by rewrite Ho|split; [done|by simpl]]]); try (by apply change_faults); by eapply (change_object _ key bytes); simpl; rewrite ?Ho.
Qed.
Lemma append_range_changed u q d r d' : is_Some (dp_chunks d !! chunk_path u q) -> range_ok q = true ->
  append_range u q d = (r, d') -> disk_change d d'.
Proof.
  intros Hch Hlen. unfold append_range, append_ledger. destruct (take_fault_same d) as [[Hd Ht] (Hg & Hc & Ho)]. destruct (take_fault d) as [f d1]. simpl in *.
  destruct f as [| |n| |]; intros [= <- <-]; try (by apply change_faults);
    (eapply (change_ledger _ u q); [done|done| |done|done|done|simpl; rewrite Hg; reflexivity]); [by left|right; by exists n|by left].
Qed.

Definition changes {A} (m : P A) : Prop := forall d, rtc disk_change d (after m d).
Definition reads {A} (m : P A) : Prop := forall d, after m d = d.
Lemma reads_changes {A} (m : P A) : reads m -> changes m.
Proof. intros H d. rewrite H. apply rtc_refl. Qed.
Lemma changes_bind {A B} (m : P A) (k : A -> P B) : changes m -> (forall a, changes (k a)) -> changes (pbind m k).
Proof.
  intros Hm Hk d. unfold after, pbind. specialize (Hm d). unfold after in Hm. destruct (m d) as [[a|e] d1]; [|exact Hm].
  etransitivity; [exact Hm|]. exact (Hk a d1).
Qed.
Lemma reads_bind {A B} (m : P A) (k : A -> P B) : reads m -> (forall a, reads (k a)) -> reads (pbind m k).
Proof. intros Hm Hk d. unfold after, pbind. specialize (Hm d). unfold after in Hm. destruct (m d) as [[a|e] d1]; [|exact Hm]. simpl in Hm. rewrite <- Hm. exact (Hk a d1). Qed.
Lemma changes_write_doc n v : is_acceptance n = false -> changes (write_doc_atomic n v).
Proof.
  intros Hn d. apply rtc_once. eapply change_doc; [exact Hn|]. eapply write_doc_atomic_written. unfold after. apply surjective_pairing.
Qed.
Lemma reads_pwhen b e : reads (pwhen b e).
Proof. done. Qed.
Lemma reads_accepted a : reads (accepted_package_for_assignment a).
Proof. unfold accepted_package_for_assignment. by apply reads_bind. Qed.
Lemma reads_slot_view s : reads (slot_view s).
Proof. unfold slot_view. repeat (apply reads_bind; [done|]; intros). done. Qed.
Lemma reads_declaration u : reads (declaration u).
Proof. unfold declaration. by apply reads_bind. Qed.
Hint Resolve reads_declaration reads_accepted reads_slot_view reads_pwhen : pool.
Ltac readers := repeat match goal with
  | |- changes (pbind _ _) => apply changes_bind; [|intros ?]
  | |- changes (write_doc_atomic _ _) => apply changes_write_doc; reflexivity
  | |- changes (match ?x with _ => _ end) => destruct x
  | |- changes (let _ := _ in _) => cbv zeta
  | |- changes _ => apply reads_changes; solve [auto with pool|intros ?; reflexivity]
  end.
Lemma register_changes a : changes (register_assignment a).
Proof. unfold register_assignment. readers. Qed.
Lemma create_changes v : changes (create_upload v).
Proof. unfold create_upload. readers. Qed.
Lemma offer_changes s a : changes (offer_slot s a).
Proof. unfold offer_slot. readers. Qed.
(** A chunk is stored, or found, under its key before its range is recorded. *)
Lemma put_changes u offset sha bytes crash : op_ok (OpPut u offset sha bytes crash) = true -> changes (put_chunk_crash u offset sha bytes crash).
Proof.
  intros [Hu Hl]%andb_true_iff. unfold put_chunk_crash. do 4 (apply changes_bind; [apply reads_changes; solve [auto with pool|intros ?; reflexivity]|intros ?]). cbv zeta.
  destruct (_ <? offset); [by apply reads_changes|]. destruct (offset <? _); [destruct (_ && _); by apply reads_changes|]. intros d. unfold after.
  rewrite pbind_pwhen. destruct (Z.eqb_spec (Z.of_nat (length bytes)) 0) as [|Hne]; [apply rtc_refl|].
  rewrite pbind_pwhen. destruct (String.eqb_spec (sha256_hex bytes) sha) as [Hsha|]; [|apply rtc_refl]. cbn [negb].
  rewrite pbind_pwhen. destruct (_ <? offset + _); [apply rtc_refl|].
  set (rec := MkRange offset (Z.of_nat (length bytes)) sha). set (rest := fun _ : unit => _).
  assert (Hrest : forall d1, is_Some (dp_chunks d1 !! chunk_path u rec) -> rtc disk_change d1 (rest tt d1).2).
  { intros d1 [stored Hst]. unfold rest, read_chunk. rewrite pbind_read_at, Hst. cbn [ok_or]. destruct (dp_unread d1 _); [apply rtc_refl|]. rewrite pbind_pwhen. destruct (_ || _); [apply rtc_refl|].
    rewrite pbind_pwhen. destruct (bool_decide _); [apply rtc_refl|]. unfold pbind. destruct (append_range u rec d1) as [r d2] eqn:E.
    apply append_range_changed in E; [|by eexists|unfold range_ok; simpl; rewrite Hu, Hl; apply Z.ltb_lt; lia]. destruct r; by apply rtc_once. }
  unfold pbind at 1, chunk_exists. destruct (dp_chunks d !! chunk_path u rec) as [existing|] eqn:Hk.
  - rewrite bool_decide_eq_true_2 by by eexists. unfold pbind at 1. unfold read_chunk. rewrite pbind_read_at, Hk. cbn [ok_or]. destruct (dp_unread d _); [apply rtc_refl|].
    unfold pwhen. destruct (negb _); [apply rtc_refl|]. apply Hrest. by rewrite Hk.
  - rewrite bool_decide_eq_false_2 by (by intros [? ?]). unfold pbind at 1. destruct (write_chunk (chunk_path u rec) bytes d) as [r d1] eqn:E.
    apply write_chunk_changed in E as [Hch Hd1]; [|done|done|done]. destruct r as [[]|]; [|by apply rtc_once]. eapply rtc_l; [exact Hch|]. apply Hrest.
    rewrite (Hd1 eq_refl), lookup_insert_eq. by eexists.
Qed.
Lemma publish_object_changed key size sha u ranges d r d' : publish_object key size sha u ranges d = (r, d') ->
  rtc disk_change d d' /\ same_docs d d' /\ dp_unread d' = dp_unread d /\ (r = Ok tt -> lies (dp_objects d') key size sha).
Proof.
  unfold publish_object. unfold pbind at 1, object_at. destruct (dp_objects d !! key) as [bytes|] eqn:Hk.
  - unfold read_object. rewrite pbind_read_at, Hk. cbn [ok_or]. destruct (dp_unread d _); [intros [= <- <-]; by split; [apply rtc_refl|]|].
    unfold pwhen. intros [= <- <-]. split; [apply rtc_refl|]. split; [done|]. split; [done|]. destruct (verified size sha bytes) eqn:Hv; [|done]. by exists bytes.
  - unfold pbind at 1, stream. destruct (existsb _ _); [intros [= <- <-]; by split; [apply rtc_refl|]|].
    destruct (chunk_stream _ _ _) as [copy|]; cbn [ok_or]; [|intros [= <- <-]; by split; [apply rtc_refl|]].
    rewrite pbind_pwhen. destruct (verified size sha copy) eqn:Hv; cbn [negb]; [|intros [= <- <-]; by split; [apply rtc_refl|]].
    intros E. destruct (publish_changed _ _ _ _ _ Hk E) as (Hch & Hobj & Hd & Hun). split; [by apply rtc_once|]. split; [done|]. split; [done|].
    intros Hr. exists copy. by rewrite (Hobj Hr), lookup_insert_eq.
Qed.
Lemma acceptance_dir_same d d' : same_docs d d' -> dp_unread d' = dp_unread d -> acceptance_dir d' = acceptance_dir d.
Proof. intros [Hd Ht] Hu. unfold acceptance_dir, acceptance_files. by rewrite Hd, Ht, Hu. Qed.
Lemma after_bind {A B} (m : P A) (k : A -> P B) d : after (pbind m k) d = match m d with (Ok a, d1) => after (k a) d1 | (Err _, d1) => d1 end.
Proof. unfold after, pbind. by destruct (m d) as [[a|e] d1]. Qed.
(** A program that goes on reading: what was read, or the end. *)
Ltac look := repeat match goal with
  | |- rtc disk_change ?d (after (pbind (plift (Ok ?a)) ?k) ?d) => change (rtc disk_change d (after (k a) d)); cbv beta
  | |- rtc disk_change ?d (after (pbind (plift ?r) _) ?d) => rewrite after_bind; unfold plift at 1; destruct r eqn:?; [|apply rtc_refl]
  | |- rtc disk_change ?d (after (pbind (pwhen ?b _) _) ?d) => rewrite after_bind; unfold pwhen at 1; destruct b eqn:?; [apply rtc_refl|]
  | |- rtc disk_change ?d (after (pbind (read_doc ?n) _) ?d) => rewrite after_bind; unfold read_doc at 1, read_at at 1; destruct (dp_unread d (SDoc n)) eqn:?; [apply rtc_refl|]
  | |- rtc disk_change ?d (after (pbind (read_ranges ?u) _) ?d) => rewrite after_bind; unfold read_ranges at 1, read_at at 1; destruct (dp_unread d (SLedger u)) eqn:?; [apply rtc_refl|]; destruct (ranges_of _) eqn:?; [|apply rtc_refl]
  | |- rtc disk_change ?d (after (pbind (stream ?u ?r) _) ?d) => rewrite after_bind; unfold stream at 1; destruct (existsb _ r) eqn:?; [apply rtc_refl|]; destruct (ok_or (chunk_stream _ _ _) _) eqn:?; [|apply rtc_refl]
  end.
(** The object is there before the record is written. *)
Lemma finalize_changes p crash now : changes (finalize_crash p crash now).
Proof.
  unfold finalize_crash. intros d. look. destruct (dp_docs d !! DAcceptance p) as [doc|] eqn:Hnone; [look; apply rtc_refl|]. look.
  rewrite after_bind. unfold accepted_package_for_assignment. rewrite pbind_plift. match goal with |- context [validate_id ?x] => destruct (validate_id x); [|apply rtc_refl] end.
  unfold read_at at 1. destruct (dp_unread d SAcceptances); [apply rtc_refl|]. destruct (find_accepted _ _) as [other|] eqn:Hfind; [|apply rtc_refl].
  look. cbv zeta. rewrite after_bind. destruct (publish_object _ _ _ _ _ d) as [r d1] eqn:Hpub. destruct (publish_object_changed _ _ _ _ _ _ _ _ Hpub) as (Hch & Hsame & Hun & Hobj).
  destruct r as [[]|]; [|exact Hch]. pose proof (Hobj eq_refl) as Hlies. etransitivity; [exact Hch|]. look.
  rewrite after_bind. destruct (write_doc_atomic _ _ d1) as [r d2] eqn:Hw. apply write_doc_atomic_written in Hw.
  assert (Hstep : disk_change d1 d2); [|by destruct r; apply rtc_once].
  pose proof Hsame as [Hdocs _]. eapply (change_accepted _ p _ _ _ _ _ other); [by rewrite Hdocs|by rewrite (acceptance_dir_same _ _ Hsame Hun)| | |exact Hlies|exact Hw].
  - destruct other as [q|]; [right|by left]. match goal with H : negb (String.eqb q p) = false |- _ => apply negb_false_iff, String.eqb_eq in H as -> end. done.
  - repeat match goal with H : field_str ?x ?k = Ok ?a, H' : field_str ?x ?k = Ok ?b |- _ => assert (a = b) by congruence; clear H'; subst end.
    constructor.
Qed.
Lemma op_changes op d : op_ok op = true -> rtc disk_change d (run_op op d).
Proof. intros Hop. destruct op; simpl; [apply register_changes|apply create_changes|by apply put_changes|apply finalize_changes|apply offer_changes]. Qed.
Lemma pool_step_changes d d' : (forall p v key, dp_docs d !! DAcceptance p = Some v -> object_named v = Some key -> gone key) ->
  pool_step d d' -> rtc disk_change d d'.
Proof.
  intros Hgone [op fs Hop|p v key fs Hv Hkey|un].
  - eapply rtc_l; [|by apply op_changes]. by apply change_faults.
  - unfold remove_object, take_fault. apply rtc_once. destruct fs as [|[] fs]; try (by apply change_faults); apply (change_removed _ key); try done; by eapply Hgone.
  - by apply rtc_once, change_faults.
Qed.
End pool.
