(* ===== verification/UploadHistory.v ===== *)
(** * Histories of the upload store

    What holds of the pool's disk after any operations of [Upload], each with
    any faults, after removals of accepted objects and with any places unreadable:
    the chunks behind the ledger, the objects behind the records of acceptance, one
    accepted package for an assignment, receipts that never change -- and what two
    kinds of interrupted write do to it. *)
From S2P Require Import Prelude Text BTreeMap Json Domain IdentityStore Merkle Upload.
Open Scope Z_scope.

Section history.
Context (sha256 : list Z -> list Z) (to_string : Value -> string) (from_str : string -> option Value).
Context (unzstd : Z -> list Z -> option (list Z)) (tar_entries : list Z -> option (list (option (option string * option (list Z))))).
Context (listing : list (option Value) -> list (option Value)) (root_display : string).
Abbreviation print r := (to_string (range_json r)).
(** Printing and reading the lines of a ledger. *)
Definition reads_back : Prop := forall r, range_ok r = true -> from_str (print r) = Some (range_json r).
Definition prints_objects : Prop := forall r, exists s, print r = String (Ascii.ascii_of_N 123) s.
(** No text that starts an object, goes on and ends with another object is JSON. *)
Definition glued_is_no_json : Prop := forall q n s r, (0 < n)%nat -> from_str (String.append (String.substring 0 n (print q)) (String.append s (print r))) = None.
Definition listing_perm : Prop := forall l, listing l ≡ₚ l.
Abbreviation changed gone := (disk_change sha256 to_string listing root_display gone).
Abbreviation anything := (fun _ : string => True).
Abbreviation stepped := (pool_step sha256 to_string from_str unzstd tar_entries listing root_display).
Abbreviation record_of := (record_of sha256 root_display).
Abbreviation lies := (lies sha256).
(** A record of the acceptance of [p] for the assignment [a]. *)
Definition accepts (p a : string) (v : Value) : Prop := exists key size sha, record_of p a key size sha v.

(** ** The invariant *)

Definition torn_start (t : string) : Prop := exists q n s, (0 < n)%nat /\ t = String.append (String.substring 0 n (print q)) s.
Definition line_ok (chunks : gmap ChunkKey (list Z)) (u line : string) : Prop :=
  (exists r, line = print r /\ range_ok r = true /\ is_Some (chunks !! chunk_path u r)) \/
  exists t r, torn_start t /\ line = String.append t (print r).
Record ledger_ok (chunks : gmap ChunkKey (list Z)) (u : string) (f : LedgerFile) : Prop := {
  lo_tail : lf_tail f = "" \/ torn_start (lf_tail f);
  lo_lines : Forall (line_ok chunks u) (lf_lines f);
}.
(** A record of acceptance, committed or left in a temporary file. *)
Definition entry (d : Depot) (p : string) (v : Value) : Prop := dp_docs d !! DAcceptance p = Some v \/ dp_tmp d !! DAcceptance p = Some (Some v).
Record depot_ok (gone : string -> Prop) (d : Depot) : Prop := {
  do_chunks : forall u r bytes, dp_chunks d !! chunk_path u r = Some bytes -> Z.of_nat (length bytes) = rr_length r /\ sha256_hex sha256 bytes = rr_sha256 r;
  do_ledgers : forall u f, dp_ledgers d !! u = Some f -> ledger_ok (dp_chunks d) u f;
  do_published : forall p v, entry d p v -> exists a key size sha, record_of p a key size sha v /\ (lies (dp_objects d) key size sha \/ gone key);
  do_single : forall p1 v1 p2 v2 a, entry d p1 v1 -> entry d p2 v2 -> accepts p1 a v1 -> accepts p2 a v2 -> p1 = p2;
}.
Lemma do_accepted gone d : depot_ok gone d -> forall p v, entry d p v -> exists a, accepts p a v.
Proof. intros Hok p v He. destruct (do_published _ _ Hok p v He) as (a & key & size & sha & Hr & _). exists a. by exists key, size, sha. Qed.
Lemma depot_ok_weaken (gone gone' : string -> Prop) d : (forall key, gone key -> gone' key) -> depot_ok gone d -> depot_ok gone' d.
Proof. intros Hg [H1 H2 H3 H4]. split; try done. intros p v He. destruct (H3 p v He) as (a & key & size & sha & ? & [?|?]); exists a, key, size, sha; auto. Qed.

(** ** What a record says *)

Lemma set_field_get k k' v doc : k <> k' -> json_get k (set_field k' v doc) = json_get k doc.
Proof. intros Hne. destruct doc; try done. simpl. by apply bt_get_insert_ne. Qed.
Lemma with_identity_get k assignment doc key : k <> key -> json_get k (with_identity assignment doc key) = json_get k doc.
Proof. intros Hne. unfold with_identity. destruct (json_get key assignment); [|done]. by apply set_field_get. Qed.
Definition receipt_of (v : Value) : Value := default JNull (json_get "receipt" v).
Definition str_at (k : string) (v : Value) : option string := and_then (json_get k v) json_as_str.
Lemma receipt_of_acceptance artifact receipt slot g : receipt_of (acceptance_json artifact receipt slot g) = receipt.
Proof. done. Qed.
Lemma accepts_reads p a v : accepts p a v ->
  str_at "assignment_id" (receipt_of v) = Some a /\ str_at "package_id" (receipt_of v) = Some p /\ is_Some (json_get "receipt" v).
Proof.
  intros (? & ? & ? & []). rewrite receipt_of_acceptance. unfold str_at, receipt_json. rewrite !with_identity_get by done. split_and!; [done|done|by eexists].
Qed.
Lemma accepts_assignment p a a' v : accepts p a v -> accepts p a' v -> a = a'.
Proof. intros (H1 & _)%accepts_reads (H2 & _)%accepts_reads. congruence. Qed.
Lemma lies_more objects key size sha key' bytes : objects !! key' = None -> lies objects key size sha -> lies (<[key' := bytes]> objects) key size sha.
Proof. intros Hn (b & Hb & Hv). exists b. rewrite lookup_insert_ne; [done|]. intros ->. congruence. Qed.
Lemma find_accepted_Some entries a p : find_accepted entries a = Ok (Some p) ->
  exists v, Some v ∈ entries /\ str_at "assignment_id" (receipt_of v) = Some a /\ str_at "package_id" (receipt_of v) = Some p.
Proof.
  induction entries as [|[v|] rest IH]; cbn [find_accepted]; [done| |done]. fold (receipt_of v) (str_at "assignment_id" (receipt_of v)) (str_at "package_id" (receipt_of v)).
  case_bool_decide as Ha; [destruct (str_at "package_id" (receipt_of v)) as [q|] eqn:Hq; [intros [= ->]; exists v; split; [by left|done]|]|];
    intros (v' & ? & ? & ?)%IH; exists v'; (split; [by right|done]).
Qed.
Lemma find_accepted_None entries a : find_accepted entries a = Ok None ->
  forall v, Some v ∈ entries -> str_at "assignment_id" (receipt_of v) = Some a -> str_at "package_id" (receipt_of v) = None.
Proof.
  induction entries as [|[x|] rest IH]; cbn [find_accepted]; [intros _ v Hv; by apply not_elem_of_nil in Hv| |done].
  fold (receipt_of x) (str_at "assignment_id" (receipt_of x)) (str_at "package_id" (receipt_of x)).
  case_bool_decide as Ha; [destruct (str_at "package_id" (receipt_of x)) as [q|] eqn:Hq; [done|]|]; intros H v [[= ->]|Hv]%elem_of_cons Hva; try done; by apply (IH H v).
Qed.
Lemma find_accepted_whole entries a : find_accepted entries a = Ok None -> None ∉ entries.
Proof.
  induction entries as [|[v|] rest IH]; cbn [find_accepted]; [intros _ Hin; by apply not_elem_of_nil in Hin| |done].
  case_bool_decide; [destruct (and_then (json_get "package_id" _) _); [done|]|]; intros H' [?|?]%elem_of_cons; try done; by apply IH.
Qed.
Lemma listed_entry (Hperm : listing_perm) d v : Some v ∈ acceptance_dir listing d -> exists p, entry d p v.
Proof.
  unfold acceptance_dir. rewrite (Hperm _). unfold acceptance_files, entry. rewrite elem_of_app, !list_elem_of_omap.
  intros [([n x] & Hx & E)|([n x] & Hx & E)]; apply elem_of_map_to_list in Hx; destruct n as [| | | | |p]; try done; exists p; simpl in *; [left|right; congruence].
  destruct (dp_unread d _); congruence.
Qed.
(** A record is listed, or something in the directory cannot be read. *)
Lemma entry_listed (Hperm : listing_perm) d p v : entry d p v -> Some v ∈ acceptance_dir listing d \/ None ∈ acceptance_dir listing d.
Proof.
  unfold acceptance_dir. rewrite (Hperm _). unfold acceptance_files. rewrite !elem_of_app, !list_elem_of_omap. intros [H|H].
  - assert (Hin : (DAcceptance p, v) ∈ map_to_list (dp_docs d)) by (by apply elem_of_map_to_list).
    destruct (dp_unread d (SDoc (DAcceptance p))) eqn:E; [right|left]; left; exists (DAcceptance p, v); (split; [done|]); simpl; by rewrite E.
  - left. right. exists (DAcceptance p, Some v). split; [by apply elem_of_map_to_list|done].
Qed.

(** ** Every operation keeps it *)

Lemma ledger_ok_more chunks u f k bytes : chunks !! k = None -> ledger_ok chunks u f -> ledger_ok (<[k := bytes]> chunks) u f.
Proof.
  intros Hn [Ht Hl]. split; [done|]. eapply Forall_impl; [exact Hl|]. intros line [(r & -> & Hr & [x Hx])|H]; [left|by right].
  exists r. split_and!; [done..|]. rewrite lookup_insert_ne; [by eexists|]. intros ->. congruence.
Qed.
Lemma no_ledger_ok chunks u : ledger_ok chunks u no_ledger.
Proof. split; [by left|constructor]. Qed.
Lemma torn_start_app t s : torn_start t -> torn_start (String.append t s).
Proof. intros (q & n & x & Hn & ->). exists q, n, (String.append x s). split; [done|]. apply append_assoc. Qed.
Lemma ledger_ok_append chunks u f r : ledger_ok chunks u f -> range_ok r = true -> is_Some (chunks !! chunk_path u r) -> ledger_ok chunks u (append_line (print r) f).
Proof.
  intros [Ht Hl] Hr Hc. split; [by left|]. simpl. apply Forall_app. split; [done|]. constructor; [|constructor].
  destruct Ht as [-> | Ht]; [left; by exists r|right; by exists (lf_tail f), r].
Qed.
Lemma ledger_ok_torn chunks u f n r : ledger_ok chunks u f -> ledger_ok chunks u (torn_line n (print r) f).
Proof.
  intros [Ht Hl]. split; [|done]. simpl. destruct Ht as [-> | Ht]; [|right; by apply torn_start_app].
  destruct n as [|n]; [left; change (String.substring 0 0 (print r) = EmptyString); by destruct (print r)|]. right. exists r, (S n), EmptyString. split; [lia|]. by rewrite append_empty.
Qed.
Lemma entry_same d d' p v : same_docs d d' -> entry d' p v <-> entry d p v.
Proof. intros [Hd Ht]. unfold entry. by rewrite Hd, Ht. Qed.
(** Records and objects after a step, given where each record was. *)
Lemma single_kept gone d d' : depot_ok gone d -> (forall p v, entry d' p v -> entry d p v) ->
  (forall p1 v1 p2 v2 a, entry d' p1 v1 -> entry d' p2 v2 -> accepts p1 a v1 -> accepts p2 a v2 -> p1 = p2).
Proof. intros Hok He p1 v1 p2 v2 a H1%He H2%He. by apply (do_single _ _ Hok p1 v1 p2 v2 a). Qed.
Lemma doc_written_entry n v d d' p w : doc_written n v d d' -> entry d' p w -> entry d p w \/ (n = DAcceptance p /\ w = v).
Proof.
  intros [_ Hw] He. unfold entry in *. destruct (decide (n = DAcceptance p)) as [->|Hne].
  - destruct Hw as [[Hd Ht]|[Hd [Ht|[Ht|Ht]]]]; rewrite Hd, Ht in He; rewrite ?lookup_insert_eq, ?lookup_delete_eq in He; naive_solver.
  - left. destruct Hw as [[Hd Ht]|[Hd [Ht|[Ht|Ht]]]]; rewrite Hd, Ht in He; rewrite ?lookup_insert_ne, ?lookup_delete_ne in He by done; done.
Qed.
Lemma accepted_only (Hperm : listing_perm) gone d p a other q w : depot_ok gone d -> find_accepted (acceptance_dir listing d) a = Ok other -> (other = None \/ other = Some p) ->
  entry d q w -> accepts q a w -> q = p.
Proof.
  intros Hok Hf Ho He Ha. pose proof (accepts_reads _ _ _ Ha) as (Hra & Hrp & _). destruct Ho as [-> | ->].
  - destruct (entry_listed Hperm d q w He) as [Hl|Hl]; [|by destruct (find_accepted_whole _ _ Hf)]. by rewrite (find_accepted_None _ _ Hf w Hl Hra) in Hrp.
  - destruct (find_accepted_Some _ _ _ Hf) as (x & [p' Hx]%(listed_entry Hperm) & Hxa & Hxp). destruct (do_accepted _ _ Hok _ _ Hx) as [a' Ha'].
    pose proof (accepts_reads _ _ _ Ha') as (H1 & H2 & _). assert (a' = a) as -> by congruence. assert (p' = p) as -> by congruence.
    by eapply (do_single _ _ Hok q w p x a).
Qed.
Lemma change_ok (Hperm : listing_perm) gone d d' : depot_ok gone d -> changed gone d d' -> depot_ok gone d'.
Proof.
  intros Hok Hch. destruct Hch as [d' Hd (Hl & Hc & Ho)|n v d' Hn Hw|u r bytes d' Hnone Hlen Hsha Hd Hl Ho Hc|u r file d' Hchunk Hr Hf Hd Hc Ho Hl|key bytes d' Hnone Hd Hl Hc Ho|key d' Hgone Hd Hl Hc Ho|p a key size sha v other d' Hnone Hfind Hother Hrec Hlies Hw].
  - assert (He : forall p v, entry d' p v -> entry d p v) by (intros p v; apply (entry_same d d' p v Hd)). pose proof (single_kept _ _ _ Hok He) as Hs. destruct Hok.
    split; rewrite ?Hl, ?Hc, ?Ho in *; eauto.
  - assert (He : forall p w, entry d' p w -> entry d p w) by (intros p w [?|[-> _]]%(doc_written_entry _ _ _ _ _ _ Hw); done).
    pose proof (single_kept _ _ _ Hok He) as Hs. destruct Hw as [(Hl & Hc & Ho) _]. destruct Hok. split; rewrite ?Hl, ?Hc, ?Ho in *; eauto.
  - assert (He : forall p v, entry d' p v -> entry d p v) by (intros p v; apply (entry_same d d' p v Hd)). pose proof (single_kept _ _ _ Hok He) as Hs. destruct Hok.
    split; rewrite ?Hl, ?Hc, ?Ho in *; eauto.
    + intros u' r' b. rewrite lookup_insert_Some. intros [[E <-]|[_ Hb]]; [|by eapply do_chunks0]. destruct r, r'. injection E as -> -> -> ->. done.
    + intros u' f Hf. apply ledger_ok_more; [done|]. by apply do_ledgers0.
  - assert (He : forall p v, entry d' p v -> entry d p v) by (intros p v; apply (entry_same d d' p v Hd)). pose proof (single_kept _ _ _ Hok He) as Hs. destruct Hok.
    assert (Hold : ledger_ok (dp_chunks d) u (default no_ledger (dp_ledgers d !! u))) by (destruct (dp_ledgers d !! u) eqn:E; [by apply do_ledgers0|apply no_ledger_ok]).
    split; rewrite ?Hc, ?Ho in *; eauto. intros u' f. rewrite Hl, lookup_insert_Some. intros [[<- <-]|[_ Hu]]; [|by apply do_ledgers0].
    destruct Hf as [-> | [n ->]]; [by apply ledger_ok_append|by apply ledger_ok_torn].
  - assert (He : forall p v, entry d' p v -> entry d p v) by (intros p v; apply (entry_same d d' p v Hd)). pose proof (single_kept _ _ _ Hok He) as Hs. destruct Hok.
    split; rewrite ?Hl, ?Hc in *; eauto. intros p v Hp%He. destruct (do_published0 _ _ Hp) as (a & k & size & sha & Hr & [Hx|Hx]); exists a, k, size, sha; rewrite Ho; (split; [done|]); [left; by apply lies_more|by right].
  - assert (He : forall p v, entry d' p v -> entry d p v) by (intros p v; apply (entry_same d d' p v Hd)). pose proof (single_kept _ _ _ Hok He) as Hs. destruct Hok.
    split; rewrite ?Hl, ?Hc in *; eauto. intros p v Hp%He. destruct (do_published0 _ _ Hp) as (a & k & size & sha & Hr & Hx). exists a, k, size, sha. split; [done|]. rewrite Ho.
    destruct (decide (k = key)) as [->|Hne]; [by right|]. destruct Hx as [(b & Hb & Hv)|?]; [left; exists b; by rewrite lookup_delete_ne|by right].
  - pose proof (fun q w => doc_written_entry _ _ _ _ q w Hw) as He. destruct Hw as [(Hl & Hc & Ho) _]. assert (Hacc : accepts p a v) by (by exists key, size, sha).
    assert (Hcase : forall q w, entry d' q w -> accepts q a w -> q = p).
    { intros q w [Hq|[[= ->] ->]]%He Ha; [|done]. by eapply (accepted_only Hperm gone d p a other). }
    split; rewrite ?Hl, ?Hc, ?Ho in *; [apply (do_chunks _ _ Hok)|apply (do_ledgers _ _ Hok)| |].
    + intros q w [Hq|[[= ->] ->]]%He; [by apply (do_published _ _ Hok)|exists a, key, size, sha; auto].
    + intros p1 v1 p2 v2 a0 H1 H2 A1 A2. pose proof H1 as [E1|[[= ->] ->]]%He; pose proof H2 as [E2|[[= ->] ->]]%He.
      * by eapply (do_single _ _ Hok p1 v1 p2 v2 a0).
      * pose proof (accepts_assignment _ _ _ _ A2 Hacc) as ->. by eapply Hcase.
      * pose proof (accepts_assignment _ _ _ _ A1 Hacc) as ->. symmetry. by eapply Hcase.
      * done.
Qed.
Lemma changes_ok (Hperm : listing_perm) gone d d' : depot_ok gone d -> rtc (changed gone) d d' -> depot_ok gone d'.
Proof. intros Hok Hr. induction Hr as [|d d1 d2 Hs _ IH]; [done|]. by apply IH, (change_ok Hperm _ d). Qed.
Lemma steps_changed d d' : rtc stepped d d' -> rtc (changed anything) d d'.
Proof. intros Hr. induction Hr as [|d d1 d2 Hs _ IH]; [apply rtc_refl|]. etransitivity; [|exact IH]. by eapply pool_step_changes. Qed.
(** The object at [key] was removed on the way to [d], as that of an accepted
    package. *)
Definition was_retired (d : Depot) (key : string) : Prop :=
  exists d1 p v fs, rtc stepped empty_depot d1 /\ dp_docs d1 !! DAcceptance p = Some v /\ object_named v = Some key /\
    rtc stepped (remove_object key (with_faults fs d1)).2 d.
Lemma was_retired_later d d' key : stepped d d' -> was_retired d key -> was_retired d' key.
Proof. intros Hs (d1 & p & v & fs & H1 & H2 & H3 & H4). exists d1, p, v, fs. split_and!; [done..|]. by eapply rtc_r. Qed.
Lemma empty_depot_ok gone : depot_ok gone empty_depot.
Proof. split; try done; intros; by destruct H. Qed.
Lemma step_ok (Hperm : listing_perm) d d' : rtc stepped empty_depot d -> stepped d d' -> depot_ok (was_retired d) d -> depot_ok (was_retired d') d'.
Proof.
  intros Hr Hs Hok. apply (depot_ok_weaken _ (was_retired d')) in Hok; [|intros key; by apply was_retired_later].
  destruct Hs as [op fs Hop|p v key fs Hv Hkey|un].
  - eapply changes_ok; [done|exact Hok|]. eapply rtc_l; [by apply (change_faults _ _ _ _ _ _ (with_faults fs d))|by apply op_changes].
  - eapply change_ok; [done|exact Hok|]. assert (Hgone : was_retired (remove_object key (with_faults fs d)).2 key) by (by exists d, p, v, fs).
    revert Hgone. unfold remove_object, take_fault. cbn. intros Hgone. destruct fs as [|[] fs]; try (by apply change_faults); by apply (change_removed _ _ _ _ _ _ key).
  - eapply change_ok; [done|exact Hok|]. by apply change_faults.
Qed.
Lemma history_retired (Hperm : listing_perm) d : rtc stepped empty_depot d -> depot_ok (was_retired d) d.
Proof.
  intros Hr. refine (rtc_ind_r (fun d => depot_ok (was_retired d) d) empty_depot _ _ d Hr); [apply empty_depot_ok|].
  intros d1 d2 H1 H2. by apply (step_ok Hperm d1).
Qed.
Lemma history_ok (Hperm : listing_perm) d : rtc stepped empty_depot d -> depot_ok anything d.
Proof. intros Hr. eapply depot_ok_weaken; [|by apply history_retired]. done. Qed.

(** ** The bytes behind the ledger *)

Lemma brace_not_blank s : trim_is_empty (String (Ascii.ascii_of_N 123) s) = false.
Proof. destruct s as [|c [|d s]]; reflexivity. Qed.
Section ledger.
Context (Hback : reads_back) (Hbrace : prints_objects) (Hglued : glued_is_no_json).
Lemma print_not_blank r s : trim_is_empty (String.append (print r) s) = false.
Proof. destruct (Hbrace r) as [x ->]. apply brace_not_blank. Qed.
Lemma torn_not_blank t s : torn_start t -> trim_is_empty (String.append t s) = false.
Proof.
  intros (q & [|n] & x & Hn & ->); [lia|]. destruct (Hbrace q) as [y ->]. apply (brace_not_blank).
Qed.
Lemma read_range_own out r : range_ok r = true -> read_range from_str out (print r) = if rr_offset r =? committed_offset out then Ok (out ++ [r]) else Err storage.
Proof.
  intros Hr. unfold read_range. replace (trim_is_empty (print r)) with false by (rewrite <- (append_empty (print r)); by rewrite print_not_blank).
  rewrite (Hback r Hr). cbn [ok_or]. destruct r as [o l h]. unfold range_json, field_u64, field_str. simpl. by destruct (o =? committed_offset out).
Qed.
Lemma read_range_torn out t r : torn_start t -> read_range from_str out (String.append t (print r)) = Err storage.
Proof.
  intros Ht. unfold read_range. rewrite torn_not_blank by done. destruct Ht as (q & n & x & Hn & ->). rewrite append_assoc, Hglued by done. done.
Qed.
Lemma chunk_stream_app chunks u r1 r2 : chunk_stream chunks u (r1 ++ r2) =
  match chunk_stream chunks u r1, chunk_stream chunks u r2 with Some a, Some b => Some (a ++ b) | _, _ => None end.
Proof.
  induction r1 as [|r r1 IH]; simpl; [by destruct (chunk_stream chunks u r2)|]. rewrite IH. destruct (chunks !! _); [|done].
  destruct (chunk_stream chunks u r1), (chunk_stream chunks u r2); try done. by rewrite app_assoc.
Qed.
Lemma committed_snoc out r : committed_offset (out ++ [r]) = rr_offset r + rr_length r.
Proof. unfold committed_offset. by rewrite last_snoc. Qed.
(** Ranges that follow one another, each with its chunk. *)
Definition stored (chunks : gmap ChunkKey (list Z)) (u : string) (rs : list RangeRec) : Prop := forall a r b, rs = a ++ r :: b ->
  rr_offset r = committed_offset a /\ exists x, chunks !! chunk_path u r = Some x /\ Z.of_nat (length x) = rr_length r /\ sha256_hex sha256 x = rr_sha256 r.
Lemma stored_prefix chunks u r1 r2 : stored chunks u (r1 ++ r2) -> stored chunks u r1.
Proof. intros H a r b ->. apply (H a r (b ++ r2)). by rewrite <- app_assoc. Qed.
Lemma stored_stream chunks u rs : stored chunks u rs -> exists bytes, chunk_stream chunks u rs = Some bytes /\ Z.of_nat (length bytes) = committed_offset rs.
Proof.
  induction rs as [|r rs IH] using rev_ind; intros H; [by exists []|]. destruct (IH (stored_prefix _ _ _ _ H)) as (bytes & Hb & Hl).
  destruct (H rs r [] eq_refl) as (Ho & x & Hx & Hxl & _). exists (bytes ++ x). rewrite chunk_stream_app, Hb. simpl. rewrite Hx, app_nil_r. split; [done|].
  rewrite length_app, committed_snoc. lia.
Qed.
Lemma stored_at chunks u rs more r : stored chunks u (rs ++ more) -> r ∈ rs ->
  committed_offset rs <= committed_offset (rs ++ more) /\
  exists pre part post, chunk_stream chunks u (rs ++ more) = Some (pre ++ part ++ post) /\
    Z.of_nat (length pre) = rr_offset r /\ Z.of_nat (length part) = rr_length r /\ sha256_hex sha256 part = rr_sha256 r.
Proof.
  intros Hst Hin. destruct (stored_stream _ _ _ Hst) as (all & Hall & Hlen). destruct (stored_stream _ _ _ (stored_prefix _ _ _ _ Hst)) as (b1 & Hb1 & Hlen1). split.
  - rewrite chunk_stream_app, Hb1 in Hall. destruct (chunk_stream chunks u more) as [b2|]; [|done]. injection Hall as <-. rewrite length_app in Hlen. lia.
  - apply list_elem_of_split in Hin as (l1 & l2 & ->). rewrite <- app_assoc in *. cbn [app] in *. destruct (Hst l1 r (l2 ++ more) eq_refl) as (Ho & x & Hx & Hxl & Hxs).
    destruct (stored_stream _ _ _ (stored_prefix _ _ _ _ Hst)) as (pre & Hpre & Hprel). rewrite chunk_stream_app, Hpre in *. cbn [chunk_stream] in *. rewrite Hx in *.
    destruct (chunk_stream chunks u (l2 ++ more)) as [post|]; [|done]. exists pre, x, post. split_and!; [done|lia|done|done].
Qed.
(** A ledger that can be read tells of chunks that are all there. *)
Lemma ranges_stored gone d u rs : depot_ok gone d -> ranges_of from_str (default no_ledger (dp_ledgers d !! u)) = Ok rs -> stored (dp_chunks d) u rs.
Proof.
  intros Hok Hr. assert (Hl : Forall (line_ok (dp_chunks d) u) (lf_lines (default no_ledger (dp_ledgers d !! u)))).
  { destruct (dp_ledgers d !! u) as [f|] eqn:Hf; [by destruct (do_ledgers _ _ Hok _ _ Hf)|constructor]. }
  refine (foldM_ind (stored (dp_chunks d) u) _ _ _ _ _ _ Hr); [by intros [|? ?] ? ?|].
  intros out line out' Hin Hout Hstep. rewrite Forall_forall in Hl. destruct (Hl _ Hin) as [(r & -> & Hok' & [x Hx])|(t & r & Ht & ->)]; [|by rewrite read_range_torn in Hstep].
  rewrite read_range_own in Hstep by done. destruct (Z.eqb_spec (rr_offset r) (committed_offset out)) as [E|]; [|done]. injection Hstep as <-.
  intros a q b Hab. destruct b as [|y b _] using rev_ind.
  - apply app_inj_tail in Hab as [-> ->]. split; [done|]. exists x. destruct (do_chunks _ _ Hok _ _ _ Hx). done.
  - rewrite app_comm_cons, app_assoc in Hab. apply app_inj_tail in Hab as [-> _]. by eapply Hout.
Qed.
(** What was read is still there when more has been appended. *)
Lemma ranges_prefix l1 l2 rs : foldM (read_range from_str) [] (l1 ++ l2) = Ok rs -> exists rs1 rs2, foldM (read_range from_str) [] l1 = Ok rs1 /\ rs = rs1 ++ rs2.
Proof.
  rewrite foldM_app. destruct (foldM _ [] l1) as [rs1|] eqn:E; [|done]. intros H. exists rs1. 
  assert (Hp : exists rs2, rs = rs1 ++ rs2); [|destruct Hp as [rs2 ->]; by exists rs2].
  refine (foldM_ind (fun out => exists rs2, out = rs1 ++ rs2) _ _ _ _ _ _ H); [exists []; by rewrite app_nil_r|].
  intros out line out' _ [x ->]. unfold read_range. destruct (trim_is_empty line); [intros [= <-]; by exists x|]. destruct (from_str line) as [v|]; [|done]. cbn [ok_or].
  destruct (field_u64 v "offset"); [|done]. destruct (field_u64 v "length"); [|done]. destruct (field_str v "sha256"); [|done].
  destruct (negb _); [done|]. intros [= <-]. exists (x ++ [MkRange a a0 a1]). by rewrite app_assoc.
Qed.
Lemma change_lines gone d d' u : changed gone d d' ->
  exists more, lf_lines (default no_ledger (dp_ledgers d' !! u)) = lf_lines (default no_ledger (dp_ledgers d !! u)) ++ more.
Proof.
  assert (Hsame : forall d', dp_ledgers d' = dp_ledgers d -> exists more, lf_lines (default no_ledger (dp_ledgers d' !! u)) = lf_lines (default no_ledger (dp_ledgers d !! u)) ++ more).
  { intros ? ->. exists []. by rewrite app_nil_r. }
  intros [d1 _ (Hl & _)|n v d1 _ [(Hl & _) _]|w r bytes d1 _ _ _ _ Hl _ _|w r file d1 _ _ Hf _ _ _ Hl|key bytes d1 _ _ Hl _ _|key d1 _ _ Hl _ _|p a key size sha v other d1 _ _ _ _ _ [(Hl & _) _]]; try by apply Hsame.
  rewrite Hl. destruct (decide (u = w)) as [<-|Hne]; [|rewrite lookup_insert_ne by done; exists []; by rewrite app_nil_r]. rewrite lookup_insert_eq. simpl.
  destruct Hf as [-> | [n ->]]; simpl; [by eexists|]. exists []. by rewrite app_nil_r.
Qed.
Lemma changes_lines gone d d' u : rtc (changed gone) d d' ->
  exists more, lf_lines (default no_ledger (dp_ledgers d' !! u)) = lf_lines (default no_ledger (dp_ledgers d !! u)) ++ more.
Proof.
  intros Hr. induction Hr as [d|d d1 d2 Hs _ [m2 IH]]; [exists []; by rewrite app_nil_r|]. destruct (change_lines _ _ _ u Hs) as [m1 Hm].
  exists (m1 ++ m2). by rewrite IH, Hm, app_assoc.
Qed.
Lemma change_chunks gone d d' k x : changed gone d d' -> dp_chunks d !! k = Some x -> dp_chunks d' !! k = Some x.
Proof.
  intros [d1 _ (_ & Hc & _)|n v d1 _ [(_ & Hc & _) _]|w r bytes d1 Hn _ _ _ _ _ Hc|w r file d1 _ _ _ _ Hc _ _|key bytes d1 _ _ _ Hc _|key d1 _ _ _ Hc _|p a key size sha v other d1 _ _ _ _ _ [(_ & Hc & _) _]] Hk; rewrite Hc; try done.
  rewrite lookup_insert_ne; [done|]. intros <-. congruence.
Qed.
Lemma changes_chunks gone d d' k x : rtc (changed gone) d d' -> dp_chunks d !! k = Some x -> dp_chunks d' !! k = Some x.
Proof. intros Hr. induction Hr as [|d d1 d2 Hs _ IH]; [done|]. intros Hk. apply IH. by eapply change_chunks. Qed.
Lemma ledger_grows gone d d' u rs' : rtc (changed gone) d d' -> ranges_of from_str (default no_ledger (dp_ledgers d' !! u)) = Ok rs' ->
  exists rs more, ranges_of from_str (default no_ledger (dp_ledgers d !! u)) = Ok rs /\ rs' = rs ++ more.
Proof. intros Hr. destruct (changes_lines _ _ _ u Hr) as [more Hm]. unfold ranges_of. rewrite Hm. apply ranges_prefix. Qed.

Lemma write_chunk_ledgers k bytes d r d' : write_chunk k bytes d = (r, d') -> dp_ledgers d' = dp_ledgers d /\ dp_unread d' = dp_unread d.
Proof.
  unfold write_chunk. pose proof (take_fault_unread d) as Hu. destruct (take_fault_same d) as [_ (Hl & _)].
  destruct (take_fault d) as [[| |?| |] d1]; simpl in Hl, Hu; intros [= _ <-]; done.
Qed.
Lemma append_ledger_Ok u line d d' : append_ledger u line d = (Ok tt, d') ->
  dp_ledgers d' !! u = Some (append_line line (default no_ledger (dp_ledgers d !! u))) /\ dp_unread d' = dp_unread d.
Proof.
  unfold append_ledger. pose proof (take_fault_unread d) as Hu. destruct (take_fault_same d) as [_ (Hl & _)].
  destruct (take_fault d) as [[| |?| |] d1]; simpl in Hl, Hu; intros [= <-]; try done. simpl. by rewrite Hl, lookup_insert_eq.
Qed.
(** What [put_chunk] did when it answered an offset. *)
Lemma put_Ok u offset sha bytes crash d n d' : put_chunk_crash sha256 to_string from_str u offset sha bytes crash d = (Ok n, d') ->
  dp_unread d (SLedger u) = false /\ dp_unread d' = dp_unread d /\
  exists rs, ranges_of from_str (default no_ledger (dp_ledgers d !! u)) = Ok rs /\ let r := MkRange offset (Z.of_nat (length bytes)) sha in
    (d' = d /\ n = committed_offset rs /\ offset < committed_offset rs /\ r ∈ rs) \/
    (offset = committed_offset rs /\ n = offset + Z.of_nat (length bytes) /\ 0 < Z.of_nat (length bytes) /\
     dp_ledgers d' !! u = Some (append_line (print r) (default no_ledger (dp_ledgers d !! u)))).
Proof.
  unfold put_chunk_crash. rewrite pbind_plift. destruct (validate_id sha); [|done]. unfold declaration. rewrite pbind_assoc, pbind_read_doc. destruct (dp_unread d _); [done|]. rewrite pbind_plift.
  destruct (ok_or _ _) as [decl|]; [|done]. rewrite pbind_plift. destruct (field_u64 decl _) as [size|]; [|done]. unfold read_ranges. rewrite pbind_read_at.
  destruct (dp_unread d (SLedger u)) eqn:Hun; [done|]. destruct (ranges_of _ _) as [rs|] eqn:Hrs; [|done]. cbv zeta. intros H. split; [done|].
  enough (Hend : dp_unread d' = dp_unread d /\ let r := MkRange offset (Z.of_nat (length bytes)) sha in
    (d' = d /\ n = committed_offset rs /\ offset < committed_offset rs /\ r ∈ rs) \/
    (offset = committed_offset rs /\ n = offset + Z.of_nat (length bytes) /\ 0 < Z.of_nat (length bytes) /\
     dp_ledgers d' !! u = Some (append_line (print r) (default no_ledger (dp_ledgers d !! u)))))
    by (destruct Hend; split; [done|]; by exists rs). cbv zeta in *.
  destruct (Z.ltb_spec (committed_offset rs) offset); [done|]. destruct (Z.ltb_spec offset (committed_offset rs)).
  { destruct (_ && _) eqn:Hm; [|done]. injection H as <- <-. split; [done|]. left. split_and!; try done. apply andb_true_iff in Hm as [Hm _]. apply existsb_exists in Hm as ([o l h] & Hin & Hm).
    simpl in Hm. apply andb_true_iff in Hm as [[->%Z.eqb_eq ->%Z.eqb_eq]%andb_true_iff ->%String.eqb_eq]. by apply list_elem_of_In. }
  rewrite pbind_pwhen in H. destruct (Z.eqb_spec (Z.of_nat (length bytes)) 0); [done|]. rewrite pbind_pwhen in H. destruct (negb _); [done|].
  rewrite pbind_pwhen in H. destruct (_ <? _); [done|].
  set (r := MkRange offset (Z.of_nat (length bytes)) sha) in *. apply pbind_inv in H as [(there & d0 & [= <- <-] & H)|(? & _ & ?)]; [|done].
  apply pbind_inv in H as [([] & d1 & Hstore & H)|(? & _ & ?)]; [|done].
  assert (Hl1 : dp_ledgers d1 = dp_ledgers d /\ dp_unread d1 = dp_unread d).
  { revert Hstore. destruct (bool_decide (is_Some _)); [|apply write_chunk_ledgers]. unfold read_chunk. rewrite pbind_read_at. destruct (dp_unread d (SChunk (chunk_path u r))); [discriminate|].
    destruct (ok_or (dp_chunks d !! _) _); [|discriminate]. unfold pwhen. by intros [= _ <-]. }
  destruct Hl1 as [Hl1 Hu1].
  apply pbind_inv in H as [(x & d2 & [= _ <-] & H)|(? & _ & ?)]; [|done]. rewrite !pbind_pwhen in H. destruct (_ || _); [done|]. destruct (bool_decide (crash = _)); [done|].
  apply pbind_inv in H as [([] & d2 & Happ & [= <- <-])|(? & _ & ?)]; [|done]. apply append_ledger_Ok in Happ as [Happ Hu2].
  split; [congruence|]. right. split_and!; [lia|done|lia|]. by rewrite <- Hl1.
Qed.
End ledger.

(** ** Receipts *)

Abbreviation finalized := (finalize_crash sha256 to_string from_str unzstd tar_entries listing root_display).
Lemma change_keeps_acceptance gone d d' p v : changed gone d d' -> dp_docs d !! DAcceptance p = Some v -> dp_docs d' !! DAcceptance p = Some v.
Proof.
  assert (Hw : forall n x d1, n <> DAcceptance p -> doc_written n x d d1 -> dp_docs d !! DAcceptance p = Some v -> dp_docs d1 !! DAcceptance p = Some v).
  { intros n x d1 Hne [_ [[Hd _]|[Hd _]]] Hp; rewrite Hd; [by rewrite lookup_insert_ne|done]. }
  intros [d1 [Hd _] _|n x d1 Hn Hdw|w r bytes d1 _ _ _ [Hd _] _ _ _|w r file d1 _ _ _ [Hd _] _ _ _|key bytes d1 _ [Hd _] _ _ _|key d1 _ [Hd _] _ _ _|q a key size sha x other d1 Hnone _ _ _ _ Hdw] Hp; try (by rewrite Hd).
  - eapply Hw; [|exact Hdw|done]. by intros ->.
  - eapply Hw; [|exact Hdw|done]. intros [= ->]. congruence.
Qed.
Lemma changes_keep_acceptance gone d d' p v : rtc (changed gone) d d' -> dp_docs d !! DAcceptance p = Some v -> dp_docs d' !! DAcceptance p = Some v.
Proof. intros Hr. induction Hr as [|d d1 d2 Hs _ IH]; [done|]. intros Hp. apply IH. by eapply change_keeps_acceptance. Qed.
Lemma write_doc_atomic_Ok n v d d' : write_doc_atomic n v d = (Ok tt, d') -> dp_docs d' !! n = Some v.
Proof.
  unfold write_doc_atomic. destruct (take_fault d) as [[| |?| |] d1]; intros [= <-]. simpl. by rewrite lookup_insert_eq.
Qed.
(** Works through the reads of a program that returned a value. *)
Ltac walked H := repeat match type of H with
  | pbind (plift (Ok ?a)) ?k ?d = _ => change (k a d = (_, _)) in H; cbv beta in H
  | pbind (plift ?r) _ _ = (Ok _, _) => rewrite pbind_plift in H; destruct r eqn:?; [|discriminate H]
  | pbind (pwhen ?b _) _ _ = (Ok _, _) => rewrite pbind_pwhen in H; destruct b eqn:?; [discriminate H|]
  | pbind (read_doc _) _ _ = (Ok _, _) => rewrite pbind_read_doc in H; let E := fresh "Hun" in destruct (dp_unread _ _) eqn:E in H; [discriminate H|]
  | pbind _ _ _ = (Ok _, _) => apply pbind_inv in H as [(? & ? & ? & H)|(? & _ & ?)]; [|discriminate]
  end.
Lemma finalize_Ok p crash now d o d' : finalized p crash now d = (Ok o, d') ->
  exists v, dp_docs d' !! DAcceptance p = Some v /\ fo_receipt_json o = to_string (receipt_of v) /\ is_Some (json_get "receipt" v) /\ is_token p = true.
Proof.
  intros H. unfold finalize_crash in H. rewrite pbind_plift in H. unfold validate_id at 1 in H. destruct (is_token p) eqn:Hp; [|done]. rewrite pbind_read_doc in H.
  destruct (dp_unread d (SDoc (DAcceptance p))); [done|]. destruct (dp_docs d !! DAcceptance p) as [doc|] eqn:Hd.
  - rewrite pbind_plift in H. destruct (json_get "receipt" doc) as [r|] eqn:Hr; [|done]. cbn [ok_or] in H. injection H as <- <-. exists doc.
    unfold receipt_of. rewrite Hr. split_and!; [done|done|by eexists|done].
  - walked H. injection H as <- <-. match goal with H : write_doc_atomic _ ?v _ = (Ok ?x, _) |- _ => destruct x; apply write_doc_atomic_Ok in H; exists v end.
    rewrite receipt_of_acceptance. split_and!; [done|done|by eexists|done].
Qed.
Lemma finalize_again p crash now d v : is_token p = true -> dp_unread d (SDoc (DAcceptance p)) = false -> dp_docs d !! DAcceptance p = Some v -> is_Some (json_get "receipt" v) ->
  finalized p crash now d = (Ok (MkFinalize (to_string (receipt_of v)) false), d).
Proof.
  intros Hp Hun Hd [r Hr]. unfold finalize_crash. rewrite pbind_plift. unfold validate_id. rewrite Hp, pbind_read_doc, Hun, Hd, pbind_plift, Hr. unfold receipt_of. by rewrite Hr.
Qed.
Lemma finalize_Ok_read p crash now d o d' : finalized p crash now d = (Ok o, d') -> dp_unread d (SDoc (DAcceptance p)) = false.
Proof.
  unfold finalize_crash. rewrite pbind_plift. destruct (validate_id p); [|done]. rewrite pbind_read_doc. by destruct (dp_unread d _).
Qed.

(** ** Retries *)

(** A disk on which everything can be read. *)
Definition legible (d : Depot) : Prop := forall sp, dp_unread d sp = false.
Lemma legible_listed (Hperm : listing_perm) d p v : legible d -> entry d p v -> Some v ∈ acceptance_dir listing d.
Proof.
  intros Hleg He. unfold acceptance_dir. rewrite (Hperm _). unfold acceptance_files. rewrite !elem_of_app, !list_elem_of_omap. destruct He as [H|H].
  - left. exists (DAcceptance p, v). split; [by apply elem_of_map_to_list|]. simpl. by rewrite Hleg.
  - right. exists (DAcceptance p, Some v). split; [by apply elem_of_map_to_list|done].
Qed.
Lemma legible_stream d u ranges : legible d -> existsb (fun r => dp_unread d (SChunk (chunk_path u r))) ranges = false.
Proof. intros Hl. induction ranges as [|r ranges IH]; [done|]. cbn [existsb]. by rewrite Hl, IH. Qed.
Lemma write_doc_unread n v d r d' : write_doc_atomic n v d = (r, d') -> dp_unread d' = dp_unread d.
Proof. unfold write_doc_atomic. pose proof (take_fault_unread d) as Hu. destruct (take_fault d) as [[| |?| |] d1]; simpl in Hu; by intros [= _ <-]. Qed.
(** Everything [finalize] asks for before it writes. *)
Inductive ready (d : Depot) (p : string) : Prop :=
| Ready index u decl size sha digest doc a other ranges streamed network benchmark slot generation media uncompressed manifest :
    legible d -> is_token p = true -> dp_docs d !! DAcceptance p = None -> dp_docs d !! DByPackage p = Some index ->
    field_str index "upload_id" = Ok u -> json_get "declaration" index = Some decl -> field_u64 decl "compressed_size_bytes" = Ok size ->
    field_str decl "package_sha256" = Ok sha -> field_str decl "assignment_digest" = Ok digest -> dp_docs d !! DAssignment digest = Some doc ->
    field_str doc "assignment_id" = Ok a -> is_token a = true -> find_accepted (acceptance_dir listing d) a = Ok other -> (other = None \/ other = Some p) ->
    ranges_of from_str (default no_ledger (dp_ledgers d !! u)) = Ok ranges -> committed_offset ranges = size ->
    chunk_stream (dp_chunks d) u ranges = Some streamed -> verified sha256 size sha streamed = true ->
    structural_touch sha256 unzstd tar_entries decl streamed = Ok tt ->
    field_str doc "network" = Ok network -> field_str doc "benchmark_id" = Ok benchmark ->
    (forall b, dp_objects d !! object_key_of network benchmark p sha = Some b -> verified sha256 size sha b = true) ->
    field_str doc "slot_id" = Ok slot -> field_u64 doc "slot_generation" = Ok generation -> field_str decl "media_type" = Ok media ->
    field_u64 decl "uncompressed_size_bytes" = Ok uncompressed -> field_str decl "manifest_sha256" = Ok manifest -> ready d p.
Lemma verified_spec size sha bytes : verified sha256 size sha bytes = true <-> Z.of_nat (length bytes) = size /\ sha256_hex sha256 bytes = sha.
Proof. unfold verified. rewrite andb_true_iff, Z.eqb_eq, String.eqb_eq. done. Qed.
Lemma finalize_needs p crash now d o d' : legible d -> finalized p crash now d = (Ok o, d') -> is_Some (dp_docs d !! DAcceptance p) \/ ready d p.
Proof.
  intros Hleg H. unfold finalize_crash in H. rewrite pbind_plift in H. unfold validate_id at 1 in H. destruct (is_token p) eqn:Hp; [|done]. rewrite pbind_read_doc, Hleg in H.
  destruct (dp_docs d !! DAcceptance p) as [doc|] eqn:Hd; [left; by eexists|right].
  walked H.
  repeat match goal with H : ok_or _ _ = Ok _ |- _ => apply ok_or_Ok in H end.
  match goal with H : accepted_package_for_assignment _ _ _ = (Ok _, _) |- _ => unfold accepted_package_for_assignment in H; rewrite pbind_plift in H; unfold validate_id in H; destruct (is_token _) eqn:Ha in H; [|discriminate H]; unfold read_at in H; rewrite Hleg in H; injection H as Hfind <- end.
  match goal with H : read_ranges _ _ _ = _ |- _ => unfold read_ranges, read_at in H; rewrite Hleg in H; injection H as Hrs <- end.
  match goal with H : stream _ _ _ = _ |- _ => unfold stream in H; rewrite legible_stream in H by done; injection H as Hstr <-; apply ok_or_Ok in Hstr end.
  match goal with H : structural_touch _ _ _ _ _ = Ok ?t |- _ => destruct t end.
  repeat match goal with H : negb _ = false |- _ => apply negb_false_iff in H; first [apply Z.eqb_eq in H|apply String.eqb_eq in H] end.
  econstructor; try eassumption; try reflexivity.
  - match goal with H : match ?x with Some _ => _ | None => _ end = false |- _ => destruct x as [q|]; [right; apply negb_false_iff, String.eqb_eq in H as ->|left]; done end.
  - by apply verified_spec.
  - intros b Hb. match goal with H : publish_object _ _ _ _ _ _ _ = (Ok _, _) |- _ => revert H end. unfold publish_object. unfold pbind at 1, object_at. rewrite Hb. unfold read_object. rewrite pbind_read_at, Hleg, Hb. cbn [ok_or]. unfold pwhen. by destruct (verified _ _ _ b).
Qed.
Lemma find_accepted_total entries a : None ∉ entries -> exists o, find_accepted entries a = Ok o.
Proof.
  induction entries as [|[v|] rest IH]; intros Hn; cbn [find_accepted]; [by eexists| |destruct Hn; by left].
  destruct IH as [o Ho]; [intros Hin; apply Hn; by right|]. case_bool_decide; [|by exists o]. destruct (and_then (json_get "package_id" _) _); [by eexists|by exists o].
Qed.
(** No record of acceptance was cut short. *)
Definition no_torn (d : Depot) : Prop := forall q, dp_tmp d !! DAcceptance q <> Some None.
Lemma no_torn_listed (Hperm : listing_perm) d : legible d -> no_torn d -> None ∉ acceptance_dir listing d.
Proof.
  intros Hleg Hn. unfold acceptance_dir. rewrite (Hperm _). unfold acceptance_files. rewrite elem_of_app, !list_elem_of_omap.
  intros [([n x] & Hx & E)|([n x] & Hx & E)]; apply elem_of_map_to_list in Hx; destruct n as [| | | | |q]; try done; simpl in E; [by rewrite Hleg in E|]. injection E as ->. by apply (Hn q).
Qed.
(** What an interrupted saga leaves where the record was not committed. *)
Record left_by (p : string) (d d1 : Depot) : Prop := {
  lb_none : dp_docs d1 !! DAcceptance p = None;
  lb_docs : forall n, n <> DAcceptance p -> dp_docs d1 !! n = dp_docs d !! n;
  lb_ledgers : dp_ledgers d1 = dp_ledgers d;
  lb_chunks : dp_chunks d1 = dp_chunks d;
  lb_unread : dp_unread d1 = dp_unread d;
  lb_entries : forall q v, entry d1 q v -> entry d q v \/ q = p;
}.
Lemma left_by_accepted (Hperm : listing_perm) gone p a other d d1 : depot_ok gone d -> depot_ok gone d1 -> legible d1 -> no_torn d1 -> left_by p d d1 ->
  find_accepted (acceptance_dir listing d) a = Ok other -> (other = None \/ other = Some p) ->
  exists o, find_accepted (acceptance_dir listing d1) a = Ok o /\ (o = None \/ o = Some p).
Proof.
  intros Hok Hok1 Hleg Hn Hl Hf Ho. destruct (find_accepted_total _ a (no_torn_listed Hperm _ Hleg Hn)) as [o Hfo]. exists o. split; [done|].
  destruct o as [q|]; [right|by left]. destruct (find_accepted_Some _ _ _ Hfo) as (v & [q' Hq]%(listed_entry Hperm) & Ha & Hp).
  destruct (do_accepted _ _ Hok1 _ _ Hq) as [a' Hacc]. pose proof (accepts_reads _ _ _ Hacc) as (H1 & H2 & _). assert (q' = q) as -> by congruence. assert (a' = a) as -> by congruence.
  f_equal. destruct (lb_entries _ _ _ Hl _ _ Hq) as [He| ->]; [|done]. destruct (do_accepted _ _ Hok _ _ He) as [a' Hacc'].
  pose proof (accepts_assignment _ _ _ _ Hacc Hacc') as <-. by eapply (accepted_only Hperm gone d p a other).
Qed.
(** Under those conditions the saga is the publication and the commit. *)
Lemma finalize_runs p crash now d : ready d p -> exists key size sha u ranges doc,
  finalized p crash now d =
    (let& _ := publish_object sha256 key size sha u ranges in
     let& _ := pwhen (bool_decide (crash = Some AfterPublication)) (err SimulatedCrash) in
     let& _ := write_doc_atomic (DAcceptance p) doc in pret (MkFinalize (to_string (receipt_of doc)) true)) d /\
  (dp_objects d !! key = None \/ exists b, dp_objects d !! key = Some b /\ verified sha256 size sha b = true) /\
  (exists b, chunk_stream (dp_chunks d) u ranges = Some b /\ verified sha256 size sha b = true) /\
  (listing_perm -> forall gone d1, depot_ok gone d -> depot_ok gone d1 -> no_torn d1 -> left_by p d d1 ->
     (dp_objects d1 = dp_objects d \/ exists b, verified sha256 size sha b = true /\ dp_objects d1 = <[key := b]> (dp_objects d)) -> ready d1 p).
Proof.
  intros [index u decl size sha digest doc a other ranges streamed network benchmark slot generation media uncompressed manifest
    Hleg Hp Hd Hidx Hu Hdecl Hsize Hsha Hdig Hdoc Ha Hta Hfind Hother Hrs Hcom Hstr Hver Htouch Hnet Hbm Hobj Hslot Hgen Hmed Hunc Hman].
  exists (object_key_of network benchmark p sha), size, sha, u, ranges,
    (acceptance_json (artifact_json sha256 root_display p a benchmark (object_key_of network benchmark p sha) media sha size uncompressed manifest (Rfc3339.rfc3339_utc now))
       (receipt_json sha256 p u a benchmark sha (Rfc3339.rfc3339_utc now) slot generation doc) slot generation).
  split; [|split; [|split; [by exists streamed|]]].
  3:{ intros Hperm gone d1 Hok Hok1 Hn Hl Hob. assert (Hleg1 : legible d1) by (intros sp; rewrite (lb_unread _ _ _ Hl); apply Hleg).
      destruct (left_by_accepted Hperm gone p a other d d1 Hok Hok1 Hleg1 Hn Hl Hfind Hother) as (o & Ho & Hc). destruct Hl as [L1 L2 L3 L4 _ _].
      econstructor; rewrite ?L2, ?L3, ?L4 by done; try eassumption. intros b. destruct Hob as [-> | (b' & Hv & ->)]; [by apply Hobj|].
      rewrite lookup_insert_eq. by intros [= <-]. }
  2:{ destruct (dp_objects d !! _) as [b|]; [right|by left]. exists b. split; [done|]. by apply Hobj. }
  apply verified_spec in Hver as [Hlen Hhash].
  unfold finalize_crash, validate_id. rewrite pbind_plift, Hp, pbind_read_doc, Hleg, Hd, pbind_read_doc, Hleg, pbind_plift, Hidx. cbn [ok_or]. rewrite pbind_plift, Hu, pbind_plift, Hdecl.
  cbn [ok_or]. rewrite pbind_plift, Hsize, pbind_plift, Hsha, pbind_plift, Hdig, pbind_read_doc, Hleg, pbind_plift, Hdoc. cbn [ok_or]. rewrite pbind_plift, Ha.
  unfold accepted_package_for_assignment, validate_id. rewrite pbind_assoc, pbind_plift, Hta, pbind_read_at, Hleg, Hfind. rewrite pbind_pwhen.
  replace (match other with Some q => negb (String.eqb q p) | None => false end) with false by (destruct Hother as [-> | ->]; [done|by rewrite String.eqb_refl]).
  unfold read_ranges. rewrite pbind_read_at, Hleg, Hrs, pbind_pwhen, Hcom, Z.eqb_refl. cbn [negb]. unfold pbind at 1, stream. rewrite (legible_stream d u ranges Hleg), Hstr. cbn [ok_or].
  rewrite pbind_pwhen, Hlen, Z.eqb_refl. cbn [negb]. rewrite pbind_pwhen, Hhash, String.eqb_refl. cbn [negb]. rewrite pbind_plift, Htouch, pbind_plift, Hnet, pbind_plift, Hbm.
  cbv zeta. unfold pbind at 1. symmetry. unfold pbind at 1. symmetry. destruct (publish_object _ _ _ _ _ _ d) as [[t|e] d1]; [|reflexivity]. rewrite !pbind_pwhen.
  destruct (bool_decide _); [reflexivity|]. by rewrite pbind_plift, Hslot, pbind_plift, Hgen, pbind_plift, pbind_plift, Hmed, pbind_plift, Hunc, pbind_plift, Hman.
Qed.
Lemma publish_object_runs key size sha u ranges d :
  (dp_objects d !! key = None \/ exists b, dp_objects d !! key = Some b /\ verified sha256 size sha b = true) ->
  (exists b, chunk_stream (dp_chunks d) u ranges = Some b /\ verified sha256 size sha b = true) -> dp_faults d = [] -> legible d ->
  exists d1, publish_object sha256 key size sha u ranges d = (Ok tt, d1) /\ dp_faults d1 = [].
Proof.
  intros [Hn|(b & Hb & Hv)] (c & Hc & Hcv) Hf Hleg; unfold publish_object; unfold pbind at 1, object_at.
  - rewrite Hn. unfold pbind at 1, stream. rewrite (legible_stream d u ranges Hleg), Hc. cbn [ok_or]. rewrite pbind_pwhen, Hcv. cbn [negb]. unfold publish, take_fault. rewrite Hf. by eexists.
  - rewrite Hb. unfold read_object. rewrite pbind_read_at, Hleg, Hb. cbn [ok_or]. unfold pwhen. rewrite Hv. by eexists.
Qed.
(** Without faults it ends with a receipt. *)
Lemma ready_finalizes p now d : ready d p -> is_Ok (finalized p None now (with_faults [] d)).1 = true.
Proof.
  intros Hr. assert (Hr' : ready (with_faults [] d) p) by (destruct Hr; econstructor; eassumption).
  destruct (finalize_runs p None now _ Hr') as (key & size & sha & u & ranges & doc & -> & Ho & Hs & _). destruct (publish_object_runs key size sha u ranges _ Ho Hs eq_refl ltac:(by destruct Hr')) as (d1 & Hp & Hf).
  unfold pbind at 1. rewrite Hp, pbind_pwhen. rewrite bool_decide_eq_false_2 by done. unfold pbind, write_doc_atomic, take_fault. by rewrite Hf.
Qed.
Lemma ready_faults d p fs : ready d p <-> ready (with_faults fs d) p.
Proof. split; intros []; econstructor; eassumption. Qed.
Lemma publish_object_leaves key size sha u ranges d r d' : publish_object sha256 key size sha u ranges d = (r, d') ->
  same_docs d d' /\ dp_ledgers d' = dp_ledgers d /\ dp_chunks d' = dp_chunks d /\ dp_unread d' = dp_unread d /\
  (dp_objects d' = dp_objects d \/ exists b, verified sha256 size sha b = true /\ dp_objects d' = <[key := b]> (dp_objects d)).
Proof.
  unfold publish_object. unfold pbind at 1, object_at. destruct (dp_objects d !! key).
  { unfold read_object. rewrite pbind_read_at. destruct (dp_unread d (SObject key)); [intros [= _ <-]; by split_and!; [..|left]|].
    destruct (ok_or _ _); [unfold pwhen|]; intros [= _ <-]; by split_and!; [..|left]. }
  unfold pbind at 1, stream. destruct (existsb _ ranges); [intros [= _ <-]; by split_and!; [..|left]|]. destruct (ok_or _ _) as [b|]; [|intros [= _ <-]; by split_and!; [..|left]]. rewrite pbind_pwhen.
  destruct (verified sha256 size sha b) eqn:Hv; cbn [negb]; [|intros [= _ <-]; by split_and!; [..|left]]. unfold publish.
  pose proof (take_fault_unread d) as Hun. destruct (take_fault_same d) as [Hs (Hl & Hc & Ho)]. destruct (take_fault d) as [f d1]. cbn [snd] in *.
  destruct f; intros [= _ <-]; do 4 (split; [done|]); try (by left); right; exists b; simpl; by rewrite Ho.
Qed.
(** The step of a failed saga. *)
Lemma finalize_leaves (Hperm : listing_perm) gone p crash now d r d1 : depot_ok gone d -> depot_ok gone d1 -> ready d p -> no_torn d1 -> finalized p crash now d = (r, d1) ->
  is_Some (dp_docs d1 !! DAcceptance p) \/ ready d1 p.
Proof.
  intros Hok Hok1 Hr Hn Hf. assert (Hnone : dp_docs d !! DAcceptance p = None) by (by destruct Hr).
  destruct (finalize_runs p crash now d Hr) as (key & size & sha & u & ranges & doc & E & _ & _ & Hkeep). rewrite E in Hf. clear E.
  assert (Hpub : forall r0 d0, publish_object sha256 key size sha u ranges d = (r0, d0) -> depot_ok gone d0 -> no_torn d0 -> ready d0 p).
  { intros r0 d0 Hp Hok0 Hn0. destruct (publish_object_leaves _ _ _ _ _ _ _ _ Hp) as ([Hd Ht] & Hl & Hc & Hu & Ho). apply (Hkeep Hperm gone); try done.
    split; [by rewrite Hd|by intros n _; rewrite Hd|done|done|done|]. intros q v. unfold entry. rewrite Hd, Ht. by left. }
  apply pbind_inv in Hf as [([] & d0 & Hp & Hf)|(e & Hp & ->)]; [|right; by eapply Hpub].
  rewrite pbind_pwhen in Hf. destruct (bool_decide _); [injection Hf as <- <-; right; by eapply Hpub|].
  assert (Hw : exists rw, write_doc_atomic (DAcceptance p) doc d0 = (rw, d1)).
  { apply pbind_inv in Hf as [(t & d2 & Hw & Hf)|(e & Hw & _)]; [|by eexists]. injection Hf as _ <-. by eexists. }
  destruct Hw as [rw Hw]. assert (Hwr : doc_written (DAcceptance p) doc d0 d1) by (by eapply write_doc_atomic_written). destruct (publish_object_leaves _ _ _ _ _ _ _ _ Hp) as ([Hd Ht] & Hl & Hc & Hu & Ho).
  destruct (dp_docs d1 !! DAcceptance p) as [v|] eqn:Hv; [left; by eexists|right]. pose proof Hwr as [(Wl & Wc & Wo) Wd].
  destruct Wd as [[Wd _]|[Wd _]]; [rewrite Wd, lookup_insert_eq in Hv; done|].
  apply (Hkeep Hperm gone); [done..| |by rewrite Wo]. split; [done|by intros n _; rewrite Wd, Hd|by rewrite Wl|by rewrite Wc|by rewrite (write_doc_unread _ _ _ _ _ Hw)|].
  intros q v [He|[[= ->] _]]%(doc_written_entry _ _ _ _ _ _ Hwr); [left|by right]. revert He. unfold entry. by rewrite Hd, Ht.
Qed.

Lemma finalize_unread p crash now d r d1 : ready d p -> finalized p crash now d = (r, d1) -> dp_unread d1 = dp_unread d.
Proof.
  intros Hr. destruct (finalize_runs p crash now d Hr) as (key & size & sha & u & ranges & doc & -> & _).
  intros [([] & d0 & Hp & H)|(e & Hp & _)]%pbind_inv; pose proof (publish_object_leaves _ _ _ _ _ _ _ _ Hp) as (_ & _ & _ & Hu & _); [|done].
  rewrite pbind_pwhen in H. destruct (bool_decide _); [by injection H as _ <-|].
  apply pbind_inv in H as [(t & d2 & Hw & H)|(e & Hw & _)]; apply write_doc_unread in Hw; [injection H as _ <-|]; congruence.
Qed.

(** ** Properties *)

(** C34. What the pool has acknowledged of an upload it keeps.  When [put_chunk]
    answers an offset and no earlier append of that ledger was cut short, the
    ledger on the disk reaches that offset; and in every later state in which the
    ledger can be read, after whatever operations and faults, it reaches at least
    as far, and the stream of stored chunks still holds, at the chunk's offset, a
    chunk of its length and its hash. *)
Theorem acknowledged_bytes_are_kept u offset sha bytes crash fs d n d1 d2 :
  listing_perm -> reads_back -> prints_objects -> glued_is_no_json ->
  rtc stepped empty_depot d -> op_ok (OpPut u offset sha bytes crash) = true -> lf_tail (default no_ledger (dp_ledgers d !! u)) = "" ->
  put_chunk_crash sha256 to_string from_str u offset sha bytes crash (with_faults fs d) = (Ok n, d1) -> rtc stepped d1 d2 ->
  (exists rs, (read_ranges from_str u d1).1 = Ok rs /\ committed_offset rs = n) /\
  forall rs, (read_ranges from_str u d2).1 = Ok rs -> n <= committed_offset rs /\
    exists pre part post, chunk_stream (dp_chunks d2) u rs = Some (pre ++ part ++ post) /\
      Z.of_nat (length pre) = offset /\ length part = length bytes /\ sha256_hex sha256 part = sha.
Proof.
  intros Hperm Hback Hbrace Hglued Hreach Hop Htail Hput Hlater. pose proof (history_ok Hperm d Hreach) as Hok.
  set (r := MkRange offset (Z.of_nat (length bytes)) sha). pose proof (put_Ok _ _ _ _ _ _ _ _ Hput) as (Hrd & Hun & _). cbn [dp_unread with_faults] in Hrd, Hun.
  cbn [fst read_ranges read_at]. rewrite Hun, Hrd.
  assert (Hch : rtc (changed anything) d d1).
  { eapply rtc_l; [by apply (change_faults _ _ _ _ _ _ (with_faults fs d))|]. pose proof (op_changes sha256 to_string from_str unzstd tar_entries listing root_display anything _ (with_faults fs d) Hop) as H.
    simpl in H. unfold after in H. by rewrite Hput in H. }
  pose proof (changes_ok Hperm _ _ _ Hok Hch) as Hok1. pose proof (steps_changed _ _ Hlater) as Hch2. pose proof (changes_ok Hperm _ _ _ Hok1 Hch2) as Hok2.
  assert (Hnow : exists rs, ranges_of from_str (default no_ledger (dp_ledgers d1 !! u)) = Ok rs /\ committed_offset rs = n /\ r ∈ rs).
  { destruct (put_Ok _ _ _ _ _ _ _ _ Hput) as (_ & _ & rs & Hrs & [(-> & -> & _ & Hin)|(Ho & -> & Hpos & Hl)]); simpl in Hrs; [by exists rs|].
    rewrite Hl. exists (rs ++ [r]). simpl. unfold append_line, ranges_of. simpl in Htail. rewrite Htail. cbn [lf_lines].
    change (String.append "" ?x) with x. rewrite foldM_app. unfold ranges_of in Hrs. rewrite Hrs. cbn [foldM].
    rewrite (read_range_own Hback Hbrace) by (unfold range_ok; simpl; apply andb_true_iff in Hop as [-> ->]; by apply Z.ltb_lt).
    simpl. rewrite <- Ho, Z.eqb_refl. split; [done|]. split; [by rewrite committed_snoc|]. apply elem_of_app. right. by left. }
  destruct Hnow as (rs1 & Hrs1 & Hn & Hin). split; [by exists rs1|]. intros rs Hrs. destruct (dp_unread d2 _); [done|].
  destruct (ledger_grows _ _ _ u rs Hch2 Hrs) as (rs1' & more & E & ->). assert (rs1' = rs1) as -> by congruence.
  pose proof (ranges_stored Hback Hbrace Hglued _ _ _ _ Hok2 Hrs) as Hst. destruct (stored_at _ _ _ _ _ Hst Hin) as (Hle & pre & part & post & Hs & H1 & H2 & H3).
  simpl in H1, H2, H3. split; [lia|]. exists pre, part, post. split_and!; [done|done|lia|done].
Qed.

(** A torn append loses the ledger.  When an append was cut short and the pool
    goes on, the next chunk is acknowledged all the same -- and from then on the
    ledger cannot be read: the acknowledged offset is nowhere on the disk. *)
Theorem torn_append_loses_the_ledger u offset sha bytes crash fs d n d1 d2 :
  prints_objects -> glued_is_no_json ->
  torn_start (lf_tail (default no_ledger (dp_ledgers d !! u))) -> (forall rs, (read_ranges from_str u d).1 = Ok rs -> offset = committed_offset rs) ->
  put_chunk_crash sha256 to_string from_str u offset sha bytes crash (with_faults fs d) = (Ok n, d1) -> rtc stepped d1 d2 ->
  n = offset + Z.of_nat (length bytes) /\ (read_ranges from_str u d2).1 = Err storage.
Proof.
  intros Hbrace Hglued Htorn Hoff Hput Hlater. destruct (put_Ok _ _ _ _ _ _ _ _ Hput) as (Hrd & _ & rs & Hrs & Hcase). cbn [dp_unread dp_ledgers with_faults] in Hrd, Hrs.
  cbn [fst read_ranges read_at] in *. rewrite Hrd in Hoff. enough (Hend : n = offset + Z.of_nat (length bytes) /\ ranges_of from_str (default no_ledger (dp_ledgers d2 !! u)) = Err storage)
    by (destruct Hend as [-> ->]; by destruct (dp_unread d2 _)).
  destruct Hcase as [(_ & _ & Hlt & _)|(Ho & -> & _ & Hl)]; [rewrite (Hoff rs Hrs) in Hlt; lia|]. split; [done|]. simpl in Hl.
  destruct (changes_lines _ _ _ u (steps_changed _ _ Hlater)) as [more Hm]. unfold ranges_of in *. rewrite Hm, Hl. simpl. rewrite <- app_assoc, foldM_app, Hrs. cbn [foldM app].
  by rewrite (read_range_torn Hbrace Hglued).
Qed.


(** A receipt never changes.  Once [finalize] has answered with a receipt, every
    later call for the package that can read its record, at any time and after any
    operations and faults, answers with the same text and writes nothing. *)
Theorem receipt_never_changes p crash now fs d o d1 d2 crash' now' fs' :
  finalized p crash now (with_faults fs d) = (Ok o, d1) -> rtc stepped d1 d2 -> dp_unread d2 (SDoc (DAcceptance p)) = false ->
  finalized p crash' now' (with_faults fs' d2) = (Ok (MkFinalize (fo_receipt_json o) false), with_faults fs' d2).
Proof.
  intros Hf Hr Hun. destruct (finalize_Ok _ _ _ _ _ _ Hf) as (v & Hv & -> & Hrec & Hp). apply finalize_again; [done|done| |done].
  apply (changes_keep_acceptance _ d1 d2 p v (steps_changed _ _ Hr) Hv).
Qed.

(** A slot is offered again only at the next generation, and only where a record
    of acceptance -- committed, or whole in a temporary file -- releases the
    generation the slot is at. *)
Lemma count_releases_pos entries slot g n : count_releases entries slot g = Ok (S n) -> exists v, Some v ∈ entries /\ releases slot g v = true.
Proof.
  revert n. induction entries as [|[v|] rest IH]; intros n; cbn [count_releases]; [done| |done]. destruct (count_releases rest slot g) as [m|] eqn:E; [|done].
  destruct (releases slot g v) eqn:Hv; [intros _; exists v; split; [by left|done]|]. intros [= Hm]. simpl in Hm. subst m. destruct (IH n eq_refl) as (w & ? & ?). exists w. split; [by right|done].
Qed.
Theorem slot_offered_after_a_record slot a d next d' :
  listing_perm -> offer_slot listing slot a d = (Ok next, d') ->
  exists doc g p v, dp_docs d !! DSlot slot = Some doc /\ field_u64 doc "generation" = Ok g /\ next = g + 1 /\
    entry d p v /\ releases slot g v = true /\ dp_docs d' !! DSlot slot = Some (slot_doc slot next "RESERVED" a).
Proof.
  intros Hperm H. unfold offer_slot in H. rewrite pbind_plift in H. destruct (validate_id a); [|done]. apply pbind_inv in H as [(view & d1 & Hview & H)|(? & _ & ?)]; [|done].
  unfold slot_view in Hview. rewrite pbind_plift in Hview. destruct (validate_id slot); [|done]. rewrite pbind_read_doc in Hview. destruct (dp_unread d _); [done|]. rewrite pbind_plift in Hview.
  destruct (dp_docs d !! DSlot slot) as [doc|] eqn:Hdoc; [|done]. cbn [ok_or] in Hview. rewrite pbind_plift in Hview. destruct (field_u64 doc "generation") as [g|] eqn:Hg; [|done].
  unfold release_count in Hview. rewrite pbind_read_at in Hview. destruct (dp_unread d _); [done|]. destruct (count_releases _ slot g) as [k|] eqn:Hk; [|done]. rewrite pbind_plift in Hview. destruct (field_str doc _) as [asg|]; [|done].
  injection Hview as <- <-. rewrite pbind_pwhen in H. simpl in H. destruct k as [|k]; [done|]. simpl in H. apply pbind_inv in H as [([] & d2 & Hw & [= <- <-])|(? & _ & ?)]; [|done].
  destruct (count_releases_pos _ _ _ _ Hk) as (v & [p Hp]%(listed_entry Hperm) & Hv). exists doc, g, p, v. split_and!; try done. by apply write_doc_atomic_Ok in Hw.
Qed.

(** Acceptance survives its interruptions.  When a package could be finalized,
    and the attempt to is interrupted at any of its writes, in any way but one,
    then finalizing it again succeeds: before and after the publication, with the
    record written and not renamed, or committed and the answer lost.  The one
    exception is a record cut short in its temporary file.  The disk can be read. *)
Theorem finalize_can_be_retried p crash now fs now0 d r d1 now1 :
  listing_perm -> rtc stepped empty_depot d -> legible d -> is_Ok (finalized p None now0 (with_faults [] d)).1 = true ->
  finalized p crash now (with_faults fs d) = (r, d1) -> no_torn d1 ->
  is_Ok (finalized p None now1 (with_faults [] d1)).1 = true.
Proof.
  intros Hperm Hreach Hleg Hcan Hf Hn. pose proof (history_ok Hperm d Hreach) as Hok.
  assert (Hok1 : depot_ok anything d1).
  { eapply changes_ok; [done|exact Hok|]. apply steps_changed, rtc_once. pose proof (pool_op sha256 to_string from_str unzstd tar_entries listing root_display d (OpFinalize p crash now) fs eq_refl) as H.
    simpl in H. unfold after in H. by rewrite Hf in H. }
  destruct (finalized p None now0 (with_faults [] d)) as [[o|] d0] eqn:E0; [|done].
  assert (Hp : is_token p = true) by (by destruct (finalize_Ok _ _ _ _ _ _ E0) as (_ & _ & _ & _ & ?)).
  assert (Hcommitted : is_Some (dp_docs d1 !! DAcceptance p) -> dp_unread d1 = dp_unread d -> is_Ok (finalized p None now1 (with_faults [] d1)).1 = true).
  { intros [v Hv] Hu. rewrite (finalize_again p None now1 (with_faults [] d1) v Hp); [done| |done|]; [cbn; rewrite Hu; apply Hleg|].
    destruct (do_accepted _ _ Hok1 p v) as [a Ha]; [by left|]. by apply accepts_reads in Ha as (_ & _ & ?). }
  destruct (finalize_needs _ _ _ _ _ _ (Hleg : legible (with_faults [] d)) E0) as [[v Hv]|Hr].
  - simpl in Hv. destruct (do_accepted _ _ Hok p v) as [a Ha]; [by left|]. pose proof (accepts_reads _ _ _ Ha) as (_ & _ & Hrv).
    rewrite (finalize_again p crash now (with_faults fs d) v Hp (Hleg _) Hv Hrv) in Hf. injection Hf as _ <-. by apply Hcommitted; [eexists|].
  - assert (Hrf : ready (with_faults fs d) p) by (by apply ready_faults, (ready_faults d p [])).
    assert (Hokf : depot_ok anything (with_faults fs d)) by (eapply change_ok; [done|exact Hok|by apply change_faults]).
    destruct (finalize_leaves Hperm anything p crash now _ r d1 Hokf Hok1 Hrf Hn Hf) as [Hc|Hr1]; [|by apply ready_finalizes].
    apply Hcommitted; [done|]. by rewrite (finalize_unread _ _ _ _ _ _ Hrf Hf).
Qed.

Lemma find_accepted_torn entries a : None ∈ entries -> (forall v, Some v ∈ entries -> str_at "assignment_id" (receipt_of v) <> Some a) ->
  find_accepted entries a = Err storage.
Proof.
  induction entries as [|[v|] rest IH]; intros Hin Hall; cbn [find_accepted]; [by apply not_elem_of_nil in Hin| |done]. apply elem_of_cons in Hin as [?|Hin]; [done|].
  rewrite bool_decide_eq_false_2 by (apply (Hall v); by left). apply IH; [done|]. intros w Hw. apply Hall. by right.
Qed.
Lemma count_releases_torn entries slot g : None ∈ entries -> count_releases entries slot g = Err storage.
Proof.
  induction entries as [|[v|] rest IH]; intros Hin; cbn [count_releases]; [by apply not_elem_of_nil in Hin| |done]. apply elem_of_cons in Hin as [?|Hin]; [done|]. by rewrite IH.
Qed.
Lemma torn_listed (Hperm : listing_perm) d q : dp_tmp d !! DAcceptance q = Some None -> None ∈ acceptance_dir listing d.
Proof.
  intros Hq. unfold acceptance_dir. rewrite (Hperm _). unfold acceptance_files. rewrite elem_of_app. right. apply list_elem_of_omap.
  exists (DAcceptance q, None). split; [by apply elem_of_map_to_list|done].
Qed.
(** The assignment a declared package is for. *)
Definition assignment_of (d : Depot) (p : string) : option string :=
  and_then (dp_docs d !! DByPackage p) (fun index => and_then (json_get "declaration" index) (fun decl =>
    and_then (str_at "assignment_digest" decl) (fun digest => and_then (dp_docs d !! DAssignment digest) (str_at "assignment_id")))).

(** A record cut short stops every acceptance.  While the temporary file of one
    package's record cannot be read, no package of any assignment that has none
    accepted can be finalized, and no slot can be seen or offered: every attempt
    ends with an error and leaves the disk as it was. *)
Theorem torn_record_blocks_acceptance d q p a crash now fs slot asg :
  listing_perm -> dp_tmp d !! DAcceptance q = Some None -> dp_docs d !! DAcceptance p = None -> assignment_of d p = Some a ->
  (forall p' v, entry d p' v -> str_at "assignment_id" (receipt_of v) <> Some a) ->
  (exists e, finalized p crash now (with_faults fs d) = (Err e, with_faults fs d)) /\
  (exists e, slot_view listing slot d = (Err e, d)) /\ exists e, offer_slot listing slot asg d = (Err e, d).
Proof.
  intros Hperm Hq Hp Ha Hnone. pose proof (torn_listed Hperm d q Hq) as Hin.
  assert (Hview : exists e, slot_view listing slot d = (Err e, d)).
  { unfold slot_view. rewrite pbind_plift. destruct (validate_id slot); [|by eexists]. rewrite pbind_read_doc. destruct (dp_unread d (SDoc _)); [by eexists|]. rewrite pbind_plift. destruct (ok_or _ _) as [doc|]; [|by eexists].
    rewrite pbind_plift. destruct (field_u64 doc _) as [g|]; [|by eexists]. unfold release_count. rewrite pbind_read_at, count_releases_torn by done. destruct (dp_unread d _); by eexists. }
  split; [|split; [done|]].
  2:{ unfold offer_slot. rewrite pbind_plift. destruct (validate_id asg); [|by eexists]. destruct Hview as [e He]. unfold pbind at 1. rewrite He. by eexists. }
  unfold assignment_of in Ha. apply and_then_Some in Ha as (index & Hidx & Ha). apply and_then_Some in Ha as (decl & Hdecl & Ha). apply and_then_Some in Ha as (digest & Hdig & Ha).
  apply and_then_Some in Ha as (doc & Hdoc & Ha). set (df := with_faults fs d). assert (Hdir : acceptance_dir listing df = acceptance_dir listing d) by done.
  unfold finalize_crash. rewrite pbind_plift. destruct (validate_id p); [|by eexists]. rewrite pbind_read_doc. destruct (dp_unread df (SDoc (DAcceptance p))); [by eexists|]. simpl. rewrite Hp, pbind_read_doc.
  destruct (dp_unread df (SDoc (DByPackage p))); [by eexists|]. rewrite pbind_plift. simpl. rewrite Hidx. simpl.
  rewrite pbind_plift. destruct (field_str index _) as [u|]; [|by eexists]. rewrite pbind_plift, Hdecl. simpl. rewrite pbind_plift. destruct (field_u64 decl _); [|by eexists].
  rewrite pbind_plift. destruct (field_str decl "package_sha256"); [|by eexists]. rewrite pbind_plift. unfold field_str at 1. fold (str_at "assignment_digest" decl). rewrite Hdig. simpl.
  rewrite pbind_read_doc. destruct (dp_unread df (SDoc (DAssignment digest))); [by eexists|]. rewrite pbind_plift. simpl. rewrite Hdoc. simpl. rewrite pbind_plift. unfold field_str at 1. fold (str_at "assignment_id" doc). rewrite Ha. simpl.
  unfold accepted_package_for_assignment. rewrite pbind_assoc, pbind_plift. destruct (validate_id a); [|by eexists]. rewrite pbind_read_at. destruct (dp_unread df SAcceptances); [by eexists|].
  rewrite Hdir, find_accepted_torn; [by eexists|done|]. intros v [p' Hv]%(listed_entry Hperm). by apply (Hnone p').
Qed.
End history.

(** ** A run *)

(** A printer and a reader of ledger lines, a hash and an archive, all simple
    enough to compute with. *)
Definition toy_sha256 (l : list Z) : list Z := replicate 32 (foldr Z.add 0 l mod 256).
Definition range_text (o l : Z) (h : string) : string :=
  String.append (u64_text o) (String.append "," (String.append (u64_text l) (String.append "," (to_hex (as_bytes h))))).
Definition toy_print (v : Value) : string :=
  match and_then (json_get "offset" v) json_as_u64, and_then (json_get "length" v) json_as_u64, and_then (json_get "sha256" v) json_as_str with
  | Some o, Some l, Some h => String (Ascii.ascii_of_N 123) (range_text o l h)
  | _, _, _ => "{}"
  end.
Definition toy_parse (s : string) : option Value :=
  match s with
  | String c rest =>
      if negb (Ascii.eqb c (Ascii.ascii_of_N 123)) || str_contains "{" rest then None
      else
        and_then (split_once "," rest) (fun o => and_then (split_once "," o.2) (fun l =>
          and_then (parse_u64 o.1) (fun offset => and_then (parse_u64 l.1) (fun length =>
            Some (range_json (MkRange offset length (string_of_bytes (parse_pairs l.2))))))))
  | EmptyString => None
  end.
Definition toy_unzstd (_ : Z) (l : list Z) : option (list Z) := Some l.
Definition toy_entries (l : list Z) : option (list (option (option string * option (list Z)))) := Some [Some (Some "manifest.json", Some l)].
Definition toy_listing (l : list (option Value)) : list (option Value) := l.

Lemma contains_avoids c s : avoids c s -> str_contains (String c "") s = false.
Proof.
  unfold avoids. induction s as [|x s IH]; [done|]. cbn [all_bytes str_contains]. intros [Hx Hs]%andb_true_iff. rewrite IH by done. rewrite orb_false_r.
  cbn [String.prefix]. destruct (Ascii.ascii_dec c x) as [->|]; [|done]. by rewrite Ascii.eqb_refl in Hx.
Qed.
Lemma contains_append c s t : str_contains (String c "") (String.append s (String c t)) = true.
Proof.
  induction s as [|x s IH]; cbn [String.append str_contains]; [|change (String.append (String x s) (String c t)) with (String x (String.append s (String c t))); cbn [str_contains]; rewrite IH; apply orb_true_r].
  change (String.append "" (String c t)) with (String c t). cbn [str_contains String.prefix]. destruct (Ascii.ascii_dec c c); [|done]. by destruct t.
Qed.
Lemma avoids_append c s t : avoids c s -> avoids c t -> avoids c (String.append s t).
Proof. unfold avoids. rewrite all_bytes_app. by intros -> ->. Qed.
Lemma hex_avoids c l : is_lower_hex c = false -> Forall (fun b => is_u8 b = true) l -> avoids c (to_hex l).
Proof.
  intros Hc Hl. eapply all_bytes_impl; [|by apply to_hex_lower]. intros x Hx. apply negb_true_iff, Ascii.eqb_neq. intros ->. congruence.
Qed.
Lemma toy_reads_back : reads_back toy_print toy_parse.
Proof.
  intros [o l h] Hr. unfold range_ok in Hr. simpl in Hr. apply andb_true_iff in Hr as [[Ho Hl]%andb_true_iff _].
  change (toy_print (range_json (MkRange o l h))) with (String (Ascii.ascii_of_N 123) (range_text o l h)). unfold toy_parse. rewrite Ascii.eqb_refl. cbn [negb orb].
  assert (Hu : forall n, 0 <= n <= u64_max -> parse_u64 (u64_text n) = Some n) by (intros; by apply u64_text_parses).
  unfold in_unsigned in Ho, Hl. apply andb_true_iff in Ho as [Ho1%Z.leb_le Ho2%Z.leb_le], Hl as [Hl1%Z.leb_le Hl2%Z.leb_le].
  rewrite contains_avoids by (unfold range_text, u64_text; repeat apply avoids_append; try (apply pretty_avoids; done); try done; by apply hex_avoids; [|apply as_bytes_u8]).
  unfold range_text. rewrite (split_once_append (Ascii.ascii_of_N 44) "") by (by apply pretty_avoids). cbn [and_then fst snd].
  rewrite (split_once_append (Ascii.ascii_of_N 44) "") by (by apply pretty_avoids). cbn [and_then fst snd]. rewrite !Hu by done. cbn [and_then].
  by rewrite parse_to_hex, string_of_as_bytes by apply as_bytes_u8.
Qed.
Lemma toy_prints_objects : prints_objects toy_print.
Proof. intros r. eexists. reflexivity. Qed.
Lemma toy_glued : glued_is_no_json toy_print toy_parse.
Proof.
  intros q [|n] s r Hn; [lia|]. destruct (toy_prints_objects q) as [x ->]. destruct (toy_prints_objects r) as [y ->].
  change (String.substring 0 (S n) (String (Ascii.ascii_of_N 123) x)) with (String (Ascii.ascii_of_N 123) (String.substring 0 n x)).
  change (String.append (String ?c ?a) ?b) with (String c (String.append a b)). unfold toy_parse. rewrite <- append_assoc.
  change "{" with (String (Ascii.ascii_of_N 123) ""). by rewrite contains_append, orb_true_r.
Qed.
Lemma toy_listing_perm : listing_perm toy_listing.
Proof. intros l. reflexivity. Qed.
Abbreviation toy_step := (pool_step toy_sha256 toy_print toy_parse toy_unzstd toy_entries toy_listing "/pool").
Abbreviation toy_run := (run_op toy_sha256 toy_print toy_parse toy_unzstd toy_entries toy_listing "/pool").
Abbreviation toy_put := (put_chunk_crash toy_sha256 toy_print toy_parse).
Abbreviation toy_finalize := (finalize_crash toy_sha256 toy_print toy_parse toy_unzstd toy_entries toy_listing "/pool").
Definition toy_hash (l : list Z) : string := Merkle.sha256_hex toy_sha256 l.
Definition toy_assignment (id digest : string) : Value :=
  json_object [("assignment_digest", JString digest); ("assignment_id", JString id); ("benchmark_id", JString "b1"); ("slot_id", JString "s1");
               ("network", JString "testnet"); ("slot_generation", json_u64 1)].
Definition toy_declaration (package digest : string) : Value :=
  json_object [("package_id", JString package); ("assignment_digest", JString digest); ("package_sha256", JString (toy_hash [1; 2; 3]));
               ("manifest_sha256", JString (toy_hash [1; 2; 3])); ("compressed_size_bytes", json_u64 3); ("uncompressed_size_bytes", json_u64 3);
               ("media_type", JString "application/zstd")].
Definition toy_upload : string := upload_id_of toy_sha256 toy_print (toy_declaration "p1" "d1").
Definition toy_declared : list PoolOp := [OpRegister (toy_assignment "a1" "d1"); OpCreate (toy_declaration "p1" "d1")].
Definition toy_first : PoolOp := OpPut toy_upload 0 (toy_hash [1; 2]) [1; 2] None.
Definition toy_second : PoolOp := OpPut toy_upload 2 (toy_hash [3]) [3] None.
Definition run_ops (ops : list (list Fault * PoolOp)) (d : Depot) : Depot := fold_left (fun d fo => toy_run fo.2 (with_faults fo.1 d)) ops d.
Definition clean (ops : list PoolOp) : list (list Fault * PoolOp) := map (fun op => ([], op)) ops.
Lemma run_ops_reach ops d : forallb (fun fo => op_ok fo.2) ops = true -> rtc toy_step d (run_ops ops d).
Proof.
  revert d. induction ops as [|[fs op] ops IH]; intros d; [intros _; apply rtc_refl|]. cbn [forallb]. intros [Hop Hops]%andb_true_iff.
  eapply rtc_l; [by apply (pool_op _ _ _ _ _ _ _ d op fs)|]. by apply IH.
Qed.
(** The package is declared; its first chunk is stored; all of it is. *)
Definition toy_open : Depot := run_ops (clean toy_declared) empty_depot.
Definition toy_half : Depot := run_ops (clean [toy_first]) toy_open.
Definition toy_full : Depot := run_ops (clean [toy_second]) toy_half.
Example toy_accepts : is_Ok (toy_finalize "p1" None 0 (with_faults [] toy_full)).1 = true.
Proof. vm_compute. reflexivity. Qed.
Lemma toy_full_reach : rtc toy_step empty_depot toy_full.
Proof. transitivity toy_half; [transitivity toy_open|]; by apply run_ops_reach. Qed.
Lemma toy_half_reach : rtc toy_step empty_depot toy_half.
Proof. transitivity toy_open; by apply run_ops_reach. Qed.

Lemma toy_full_legible : legible toy_full.
Proof. intros sp. vm_compute. reflexivity. Qed.

(** A computation that ended with [a], as a pair. *)
Lemma ended {A B} (x : A * B) a : x.1 = a -> x = (a, x.2).
Proof. destruct x. simpl. by intros ->. Qed.

Abbreviation toy_put_again := (toy_put toy_upload 2 (toy_hash [3]) [3] None (with_faults [Done] toy_half)).
Lemma toy_put_again_Ok : toy_put_again.1 = Ok 3.
Proof. vm_compute. reflexivity. Qed.
Lemma toy_half_tail : lf_tail (default no_ledger (dp_ledgers toy_half !! toy_upload)) = "".
Proof. vm_compute. reflexivity. Qed.
Example acknowledged_bytes_are_kept_witness : toy_put_again.1 = Ok 3 /\
  exists rs, (read_ranges toy_parse toy_upload toy_put_again.2).1 = Ok rs /\ committed_offset rs = 3.
Proof.
  split; [exact toy_put_again_Ok|].
  exact (proj1 (acknowledged_bytes_are_kept toy_sha256 toy_print toy_parse toy_unzstd toy_entries toy_listing "/pool"
    toy_upload 2 (toy_hash [3]) [3] None [Done] toy_half 3 toy_put_again.2 toy_put_again.2 toy_listing_perm toy_reads_back toy_prints_objects toy_glued toy_half_reach
    eq_refl toy_half_tail (ended toy_put_again (Ok 3) toy_put_again_Ok) (rtc_refl _ _))).
Defined.

(** The second chunk's line is cut after five bytes; the chunk is sent again,
    acknowledged, and lost. *)
Definition toy_torn : Depot := run_ops [([Done; Torn 5], toy_second)] toy_half.
Abbreviation toy_glue := (toy_put toy_upload 2 (toy_hash [3]) [3] None (with_faults [] toy_torn)).
Lemma toy_torn_tail : torn_start toy_print (lf_tail (default no_ledger (dp_ledgers toy_torn !! toy_upload))).
Proof. exists (MkRange 2 1 (toy_hash [3])), 5%nat, "". split; [lia|vm_compute; reflexivity]. Qed.
Lemma toy_torn_ranges : (read_ranges toy_parse toy_upload toy_torn).1 = Ok [MkRange 0 2 (toy_hash [1; 2])].
Proof. vm_compute. reflexivity. Qed.
Lemma toy_glue_Ok : toy_glue.1 = Ok 3.
Proof. vm_compute. reflexivity. Qed.
Lemma toy_torn_offset rs : (read_ranges toy_parse toy_upload toy_torn).1 = Ok rs -> 2 = committed_offset rs.
Proof. rewrite toy_torn_ranges. by intros [= <-]. Qed.
Example torn_append_loses_the_ledger_witness :
  (read_ranges toy_parse toy_upload toy_torn).1 = Ok [MkRange 0 2 (toy_hash [1; 2])] /\ toy_glue.1 = Ok 3 /\ (read_ranges toy_parse toy_upload toy_glue.2).1 = Err storage.
Proof.
  split; [exact toy_torn_ranges|]. split; [exact toy_glue_Ok|].
  exact (proj2 (torn_append_loses_the_ledger toy_sha256 toy_print toy_parse toy_unzstd toy_entries toy_listing "/pool"
    toy_upload 2 (toy_hash [3]) [3] None [] toy_torn 3 toy_glue.2 toy_glue.2 toy_prints_objects toy_glued toy_torn_tail toy_torn_offset
    (ended toy_glue (Ok 3) toy_glue_Ok) (rtc_refl _ _))).
Defined.

Abbreviation toy_accepted := (toy_finalize "p1" None 7 (with_faults [] toy_full)).
Lemma toy_accepted_step : toy_step toy_full toy_accepted.2.
Proof. exact (pool_op toy_sha256 toy_print toy_parse toy_unzstd toy_entries toy_listing "/pool" toy_full (OpFinalize "p1" None 7) [] eq_refl). Qed.
Definition toy_record : Value := default JNull (dp_docs toy_accepted.2 !! DAcceptance "p1").
Lemma toy_record_there : dp_docs toy_accepted.2 !! DAcceptance "p1" = Some toy_record.
Proof. vm_compute. reflexivity. Qed.
Definition toy_outcome : FinalizeOutcome := match toy_accepted.1 with Ok o => o | Err _ => MkFinalize "" false end.
Lemma toy_accepted_Ok : toy_accepted.1 = Ok toy_outcome.
Proof. vm_compute. reflexivity. Qed.
Example receipt_never_changes_witness :
  toy_finalize "p1" None 99 (with_faults [FailedBefore] toy_accepted.2) = (Ok (MkFinalize (fo_receipt_json toy_outcome) false), with_faults [FailedBefore] toy_accepted.2).
Proof.
  exact (receipt_never_changes toy_sha256 toy_print toy_parse toy_unzstd toy_entries toy_listing "/pool" "p1" None 7 [] toy_full toy_outcome toy_accepted.2 toy_accepted.2 None 99 [FailedBefore]
    (ended toy_accepted _ toy_accepted_Ok) (rtc_refl _ _) ltac:(vm_compute; reflexivity)).
Defined.
(** The record is written and not renamed; the retry commits it. *)
Abbreviation toy_broken := (toy_finalize "p1" None 7 (with_faults [Done; NotRenamed] toy_full)).
Lemma toy_broken_tmp : map fst (map_to_list (dp_tmp toy_broken.2)) = [DAcceptance "p1"] /\ dp_tmp toy_broken.2 !! DAcceptance "p1" <> Some None.
Proof. split; [vm_compute; reflexivity|vm_compute; discriminate]. Qed.
Lemma toy_broken_whole : no_torn toy_broken.2.
Proof.
  intros q Hq. destruct toy_broken_tmp as [Hk Hp]. assert (Hin : DAcceptance q ∈ map fst (map_to_list (dp_tmp toy_broken.2))).
  { apply list_elem_of_fmap. exists (DAcceptance q, None). split; [done|]. by apply elem_of_map_to_list. }
  rewrite Hk in Hin. apply list_elem_of_singleton in Hin as [= ->]. exact (Hp Hq).
Qed.
Lemma toy_broken_Err : is_Ok toy_broken.1 = false.
Proof. vm_compute. reflexivity. Qed.
Example finalize_can_be_retried_witness : is_Ok toy_broken.1 = false /\ is_Ok (toy_finalize "p1" None 8 (with_faults [] toy_broken.2)).1 = true.
Proof.
  split; [exact toy_broken_Err|].
  exact (finalize_can_be_retried toy_sha256 toy_print toy_parse toy_unzstd toy_entries toy_listing "/pool" "p1" None 7 [Done; NotRenamed] 0 toy_full toy_broken.1 toy_broken.2 8
    toy_listing_perm toy_full_reach toy_full_legible toy_accepts (surjective_pairing toy_broken) toy_broken_whole).
Defined.

(** The accepted package's slot is offered to another assignment, at generation 2. *)
Abbreviation toy_offer := (offer_slot toy_listing "s1" "a9" toy_accepted.2).
Lemma toy_offer_Ok : toy_offer.1 = Ok 2.
Proof. vm_compute. reflexivity. Qed.
Example slot_offered_after_a_record_witness : toy_offer.1 = Ok 2 /\ exists doc g p v, dp_docs toy_accepted.2 !! DSlot "s1" = Some doc /\ field_u64 doc "generation" = Ok g /\ 2 = g + 1 /\
  entry toy_accepted.2 p v /\ releases "s1" g v = true /\ dp_docs toy_offer.2 !! DSlot "s1" = Some (slot_doc "s1" 2 "RESERVED" "a9").
Proof.
  split; [exact toy_offer_Ok|].
  exact (slot_offered_after_a_record toy_listing "s1" "a9" toy_accepted.2 2 toy_offer.2 toy_listing_perm (ended toy_offer (Ok 2) toy_offer_Ok)).
Defined.
(** A record that is written whole and not renamed already releases the slot:
    [finalize] has answered with an error, and the slot is offered again. *)
Example slot_is_offered_before_the_commit :
  toy_broken.1 = Err storage /\ dp_docs toy_broken.2 !! DAcceptance "p1" = None /\ (offer_slot toy_listing "s1" "a9" toy_broken.2).1 = Ok 2.
Proof. vm_compute. split_and!; reflexivity. Qed.

(** The record is cut short in its temporary file: the same package cannot be
    finalized again, and its slot cannot be seen. *)
Abbreviation toy_cut := (toy_finalize "p1" None 7 (with_faults [Done; Torn 0] toy_full)).
Lemma toy_cut_tmp : dp_tmp toy_cut.2 !! DAcceptance "p1" = Some None.
Proof. vm_compute. reflexivity. Qed.
Lemma toy_cut_docs : dp_docs toy_cut.2 !! DAcceptance "p1" = None.
Proof. vm_compute. reflexivity. Qed.
Lemma toy_cut_for : assignment_of toy_cut.2 "p1" = Some "a1".
Proof. vm_compute. reflexivity. Qed.
Lemma toy_cut_entries : omap id (acceptance_dir toy_listing toy_cut.2) = [].
Proof. vm_compute. reflexivity. Qed.
Lemma toy_cut_none p v : entry toy_cut.2 p v -> str_at "assignment_id" (receipt_of v) <> Some "a1".
Proof.
  intros Hp. assert (Hin : v ∈ omap id (acceptance_dir toy_listing toy_cut.2)).
  { apply list_elem_of_omap. exists (Some v). split; [|done]. apply (legible_listed _ toy_listing_perm _ p); [|done]. intros sp. vm_compute. reflexivity. }
  rewrite toy_cut_entries in Hin. by apply not_elem_of_nil in Hin.
Qed.
Example torn_record_blocks_acceptance_witness :
  is_Ok (toy_finalize "p1" None 0 (with_faults [] toy_full)).1 = true /\
  (exists e, toy_finalize "p1" None 9 (with_faults [] toy_cut.2) = (Err e, with_faults [] toy_cut.2)) /\
  (exists e, slot_view toy_listing "s1" toy_cut.2 = (Err e, toy_cut.2)) /\ exists e, offer_slot toy_listing "s1" "a9" toy_cut.2 = (Err e, toy_cut.2).
Proof.
  split; [exact toy_accepts|].
  exact (torn_record_blocks_acceptance toy_sha256 toy_print toy_parse toy_unzstd toy_entries toy_listing "/pool" toy_cut.2 "p1" "p1" "a1" None 9 [] "s1" "a9"
    toy_listing_perm toy_cut_tmp toy_cut_docs toy_cut_for toy_cut_none).
Defined.

(** An assignment refused because its slot is occupied has been written all the
    same: its package is declared, stored and accepted, and its record releases
    the slot from under the assignment that holds it. *)
Definition toy_refused : Value := toy_assignment "a2" "d2".
Definition toy_registered : Depot := run_ops (clean [OpRegister (toy_assignment "a1" "d1")]) empty_depot.
Definition toy_declared2 : Value := toy_declaration "p2" "d2".
Definition toy_upload2 : string := upload_id_of toy_sha256 toy_print toy_declared2.
Definition toy_intruded : Depot := run_ops (clean [OpRegister toy_refused; OpCreate toy_declared2; OpPut toy_upload2 0 (toy_hash [1; 2; 3]) [1; 2; 3] None]) toy_registered.
Example refused_assignment_releases_the_slot :
  (register_assignment toy_refused toy_registered).1 = Err (err SlotOccupied) /\
  is_Ok (toy_finalize "p2" None 7 toy_intruded).1 = true /\
  (slot_view toy_listing "s1" toy_intruded).1 = Ok (MkSlotView "s1" 1 true "a1") /\
  (slot_view toy_listing "s1" (toy_finalize "p2" None 7 toy_intruded).2).1 = Ok (MkSlotView "s1" 1 false "a1").
Proof. vm_compute. split_and!; reflexivity. Qed.
