(* ===== verification/Package.v ===== *)
(** * The retained package: [crates/spike/src/active.rs] and the package files
    of [crates/spike/src/member.rs]

    A member writes four files, packs them into a tar archive and compresses it;
    the pool reads them back from the accepted object, checks everything that can
    be recomputed, and answers TIG with the commitment and the sampled proofs.
    Besides the parameters of [Merkle] and [Upload], the writers of tar archives
    and Zstandard frames are parameters.  The errors are cases rather than
    messages; timings and the reading of [/proc] are left to arguments. *)
From stdpp Require Import pretty.
From S2P Require Import Prelude Text BTreeMap Json Domain Payload Rfc3339 KeyFile IdentityStore Merkle Upload FakeTig.
Open Scope Z_scope.

Section package.
Context (blake3 sha256 : list Z -> list Z) (to_string : Value -> string) (from_str : string -> option Value).
Context (unzstd : Z -> list Z -> option (list Z)) (tar_entries : list Z -> option (list (option (option string * option (list Z))))).
Abbreviation leaf_hash := (Merkle.leaf_hash blake3 to_string).
Abbreviation sha256_hex := (Merkle.sha256_hex sha256).

(** ** The member's files: [member.rs] *)

Definition qualities_bytes (qualities : list Z) : list Z := flat_map (fun q => le_bytes 4 (q mod 2 ^ 32)) qualities.
Definition leaf_hashes_bytes (leaves : list (list Z)) : list Z := concat leaves.
Definition outputs_ndjson (records : list OutputRecord) : list Z :=
  flat_map (fun r => as_bytes (jsonify to_string (to_wire_value r)) ++ [10]) records.
Definition file_entry (name encoding : string) (data : list Z) (record_count : Z) : Value :=
  json_object [("name", JString name); ("size_bytes", json_u64 (Z.of_nat (length data))); ("sha256", JString (sha256_hex data));
               ("record_count", json_u64 record_count); ("encoding", JString encoding)].
Record PackageIdentity := MkIdentity {
  pi_benchmark_id : string; pi_assignment_digest : string; pi_member_id : string; pi_worker_id : string; pi_slot_id : string;
  pi_assignment_id : string; pi_package_id : string; pi_qualification_id : string; pi_qualification_spec_digest : string;
  pi_slot_generation : Z; pi_compute : Value; pi_member_agent_version : string; pi_tig_upstream_commit : string;
  pi_benchmarker_version : string; pi_algorithm_binary_sha256 : string; pi_runtime_image_manifest_digest : string;
  pi_runtime_image_platform_digest : string; pi_runtime_platform : string; pi_created_at : string }.
Definition build_manifest (id : PackageIdentity) (num_nonces : Z) (root qualities leaf_hashes outputs : list Z) : Value :=
  json_object
    [("protocol_version", JString "0.1.0"); ("package_format", JString "proof-material-v1"); ("package_id", JString (pi_package_id id));
     ("assignment_id", JString (pi_assignment_id id)); ("assignment_digest", JString (pi_assignment_digest id));
     ("benchmark_id", JString (pi_benchmark_id id)); ("member_id", JString (pi_member_id id)); ("worker_id", JString (pi_worker_id id));
     ("slot_id", JString (pi_slot_id id)); ("slot_generation", json_u64 (pi_slot_generation id)); ("compute", pi_compute id);
     ("qualification_id", JString (pi_qualification_id id)); ("qualification_spec_digest", JString (pi_qualification_spec_digest id));
     ("network", JString "testnet"); ("tig_api_base_url", JString "https://testnet-api.tig.foundation");
     ("nonce_range", json_object [("start", json_u64 0); ("end_exclusive", json_u64 num_nonces); ("num_nonces", json_u64 num_nonces)]);
     ("merkle", json_object [("algorithm", JString "tig-merkle-blake3-v1"); ("leaf_encoding", JString "tig-output-metadata-v1");
                             ("tree_capacity", json_u64 (tree_capacity num_nonces)); ("root", JString (hex root))]);
     ("versions", json_object
       [("member_agent_version", JString (pi_member_agent_version id)); ("tig_upstream_commit", JString (pi_tig_upstream_commit id));
        ("benchmarker_version", JString (pi_benchmarker_version id)); ("algorithm_binary_sha256", JString (pi_algorithm_binary_sha256 id));
        ("runtime_image_manifest_digest", JString (pi_runtime_image_manifest_digest id));
        ("runtime_image_platform_digest", JString (pi_runtime_image_platform_digest id)); ("runtime_platform", JString (pi_runtime_platform id))]);
     ("files", json_object
       [("qualities", file_entry "qualities.i32le" "signed-i32-little-endian" qualities num_nonces);
        ("leaf_hashes", file_entry "leaf-hashes.bin" "raw-32-byte-blake3-hashes" leaf_hashes num_nonces);
        ("outputs", file_entry "outputs.ndjson" "rfc8785-json-lines-lf" outputs num_nonces)]);
     ("created_at", JString (pi_created_at id))].
Definition build_tar (tar_build : list (string * list Z) -> list Z) (manifest qualities leaf_hashes outputs : list Z) : list Z :=
  tar_build [("manifest.json", manifest); ("qualities.i32le", qualities); ("leaf-hashes.bin", leaf_hashes); ("outputs.ndjson", outputs)].
Definition compress_zstd (zstd : Z -> list Z -> list Z) (tar_bytes : list Z) (level : Z) : list Z := zstd level tar_bytes.

(** ** Reading the accepted object: [load_accepted_package] *)

Inductive PackageError :=
| ReadingAcceptance | NoAcceptance | NoArtifact | ArtifactLacks (key : string) | ReadingObject | IntegrityFailure | NotZstd | WrongSize
| BadTar | UnexpectedMember (name : string) | MissingMember (name : string) | ManifestNotJson | ManifestLacks (pointer : string)
| OtherBenchmark | WrongQualities | OutputsNotUtf8 | LineNotJson (line : nat) | BadRecord (why : string) | WrongNonce (line : nat) (nonce : Z)
| WrongCount | WrongLeaves | NoRoot (why : string) | WrongRoot | RootNotHex | NothingSampled | OutOfRange (nonce : Z) | Twice (nonce : Z)
| Panicked | BadBranch (why : string) | Unresolved (nonce : Z) | NotActive (benchmark_id : string) | DeletingObject.

Record AcceptedPackage := MkPackage {
  ap_package_id : string; ap_benchmark_id : string; ap_package_sha256 : string; ap_object_key : string; ap_acceptance : Value;
  ap_manifest : Value; ap_num_nonces : Z; ap_qualities : list Z; ap_records : list OutputRecord; ap_leaves : list (list Z); ap_root_hex : string }.

(** [std::str::from_utf8], and [serde_json::from_slice]. *)
Definition from_utf8 (bytes : list Z) : option string := if utf8_valid bytes then Some (string_of_bytes bytes) else None.
Definition from_slice (bytes : list Z) : option Value := and_then (from_utf8 bytes) from_str.
Definition manifest_str (manifest : Value) (path : list string) (pointer : string) : result PackageError string :=
  ok_or (and_then (json_path path manifest) json_as_str) (ManifestLacks pointer).

(** The four members: the last of a name stands. *)
Record Members := MkMembers { mb_manifest : option (list Z); mb_qualities : option (list Z); mb_leaf_hashes : option (list Z); mb_outputs : option (list Z) }.
Definition take_member (m : Members) (entry : option (option string * option (list Z))) : result PackageError Members :=
  let? entry := ok_or entry BadTar in
  let? name := ok_or entry.1 BadTar in
  let? data := ok_or entry.2 BadTar in
  if String.eqb name "manifest.json" then Ok (MkMembers (Some data) (mb_qualities m) (mb_leaf_hashes m) (mb_outputs m))
  else if String.eqb name "qualities.i32le" then Ok (MkMembers (mb_manifest m) (Some data) (mb_leaf_hashes m) (mb_outputs m))
  else if String.eqb name "leaf-hashes.bin" then Ok (MkMembers (mb_manifest m) (mb_qualities m) (Some data) (mb_outputs m))
  else if String.eqb name "outputs.ndjson" then Ok (MkMembers (mb_manifest m) (mb_qualities m) (mb_leaf_hashes m) (Some data))
  else Err (UnexpectedMember name).
(** [i32::from_le_bytes] over [as_chunks::<4>]. *)
Definition i32_of (n : Z) : Z := if n <? 2 ^ 31 then n else n - 2 ^ 32.
Fixpoint read_qualities (bytes : list Z) : list Z :=
  match bytes with a :: b :: c :: d :: rest => i32_of (from_le_bytes [a; b; c; d]) :: read_qualities rest | _ => [] end.
Fixpoint read_records (i : nat) (ls : list string) : result PackageError (list OutputRecord) :=
  match ls with
  | [] => Ok []
  | line :: rest =>
      let? v := ok_or (from_str line) (LineNotJson i) in
      let? record := map_err BadRecord (from_wire_json v) in
      if negb (or_nonce record =? Z.of_nat i) then Err (WrongNonce i (or_nonce record))
      else let? records := read_records (S i) rest in Ok (record :: records)
  end.
Definition load_accepted_package (d : Depot) (package_id : string) : result PackageError AcceptedPackage :=
  let? acceptance := match (Upload.acceptance package_id d).1 with Ok (Some a) => Ok a | Ok None => Err NoAcceptance | Err _ => Err ReadingAcceptance end in
  let? artifact := ok_or (json_get "artifact" acceptance) NoArtifact in
  let? object_key := ok_or (and_then (json_get "object_key" artifact) json_as_str) (ArtifactLacks "object_key") in
  let? declared_sha := ok_or (and_then (json_get "sha256" artifact) json_as_str) (ArtifactLacks "sha256") in
  let? benchmark_id := ok_or (and_then (json_get "benchmark_id" artifact) json_as_str) (ArtifactLacks "benchmark_id") in
  let? uncompressed_size := ok_or (and_then (json_get "uncompressed_size" artifact) json_as_u64) (ArtifactLacks "uncompressed_size") in
  let? bytes := map_err (fun _ => ReadingObject) (read_object object_key d).1 in
  let package_sha256 := sha256_hex bytes in
  if negb (String.eqb package_sha256 declared_sha) then Err IntegrityFailure
  else
    let? tar_bytes := ok_or (unzstd (wrap64 (uncompressed_size + 1)) bytes) NotZstd in
    if negb (Z.of_nat (length tar_bytes) =? uncompressed_size) then Err WrongSize
    else
      let? entries := ok_or (tar_entries tar_bytes) BadTar in
      let? members := foldM take_member (MkMembers None None None None) entries in
      let? manifest_data := ok_or (mb_manifest members) (MissingMember "manifest.json") in
      let? qualities_data := ok_or (mb_qualities members) (MissingMember "qualities.i32le") in
      let? leaf_hash_data := ok_or (mb_leaf_hashes members) (MissingMember "leaf-hashes.bin") in
      let? outputs_data := ok_or (mb_outputs members) (MissingMember "outputs.ndjson") in
      let? manifest := ok_or (from_slice manifest_data) ManifestNotJson in
      let? named := manifest_str manifest ["benchmark_id"] "/benchmark_id" in
      if negb (String.eqb named benchmark_id) then Err OtherBenchmark
      else
        let? num_nonces := ok_or (and_then (json_path ["nonce_range"; "num_nonces"] manifest) json_as_u64) (ManifestLacks "nonce_range.num_nonces") in
        if negb (Z.of_nat (length qualities_data) =? wrap64 (num_nonces * 4)) then Err WrongQualities
        else
          let qualities := read_qualities qualities_data in
          let? outputs_text := ok_or (from_utf8 outputs_data) OutputsNotUtf8 in
          let? records := read_records 0 (str_lines outputs_text) in
          if negb (Z.of_nat (length records) =? num_nonces) then Err WrongCount
          else
            let leaves := map leaf_hash records in
            if negb (bool_decide (leaf_hashes_bytes leaves = leaf_hash_data)) then Err WrongLeaves
            else
              let? root := map_err NoRoot (merkle_root blake3 leaves) in
              let root_hex := hex root in
              let? stated := manifest_str manifest ["merkle"; "root"] "/merkle/root" in
              if negb (String.eqb stated root_hex) then Err WrongRoot
              else Ok (MkPackage package_id benchmark_id package_sha256 object_key acceptance manifest num_nonces qualities records leaves root_hex).

(** ** What TIG is sent *)

Definition commitment_body (pkg : AcceptedPackage) : result PackageError Value :=
  if negb (String.length (ap_root_hex pkg) =? 64)%nat || negb (all_bytes is_lower_hex (ap_root_hex pkg)) then Err RootNotHex
  else Ok (json_object [("benchmark_id", JString (ap_benchmark_id pkg)); ("stopped", JBool false); ("merkle_root", JString (ap_root_hex pkg));
                        ("solution_quality", JArray (map json_i64 (ap_qualities pkg)))]).
Definition proof_entry (r : OutputRecord) (branch : Branch) : Value :=
  json_object [("leaf", json_object [("nonce", json_u64 (or_nonce r)); ("runtime_signature", json_u64 (or_runtime_signature r));
                                     ("fuel_consumed", json_u64 (or_fuel_consumed r)); ("solution", JString (or_solution r)); ("cpu_arch", JString (or_cpu_arch r))]);
               ("branch", JString (branch_hex branch))].
(** One round of the loop: an index past the end of a vector panics. *)
Definition prove_nonce (pkg : AcceptedPackage) (st : gset Z * list Value) (nonce : Z) : result PackageError (gset Z * list Value) :=
  let (seen, proofs) := st in
  if ap_num_nonces pkg <=? nonce then Err (OutOfRange nonce)
  else if bool_decide (nonce ∈ seen) then Err (Twice nonce)
  else
    let idx := Z.to_nat nonce in
    let? record := ok_or (ap_records pkg !! idx) Panicked in
    let? branch := map_err BadBranch (merkle_branch blake3 (ap_leaves pkg) idx) in
    let? leaf := ok_or (ap_leaves pkg !! idx) Panicked in
    let? recomputed := map_err BadBranch (branch_root blake3 leaf idx branch) in
    if negb (String.eqb (hex recomputed) (ap_root_hex pkg)) then Err (Unresolved nonce)
    else Ok ({[nonce]} ∪ seen, proofs ++ [proof_entry record branch]).
Definition build_proof_payload (pkg : AcceptedPackage) (sampled_nonces : list Z) : result PackageError Value :=
  match sampled_nonces with
  | [] => Err NothingSampled
  | _ =>
      let? st := foldM (prove_nonce pkg) (∅, []) sampled_nonces in
      Ok (json_object [("benchmark_id", JString (ap_benchmark_id pkg)); ("merkle_proofs", JArray st.2)])
  end.

(** ** Retention *)

Definition active_benchmarks (block : Value) : list string :=
  match and_then (json_path ["data"; "active_ids"; "benchmark"] block) json_as_array with Some a => omap json_as_str a | None => [] end.
Definition retention_record (block : Value) (package_id benchmark_id object_key : string) (existed deleted : bool) (now : Z) : Value :=
  json_object
    [("retention_rule", JString "mining_system.md §9 v0: delete large proof material once TIG confirms the benchmark ACTIVE");
     ("condition", JString "benchmark_id in block.data.active_ids.benchmark");
     ("evidence", json_object [("block_id", JString (default "?" (and_then (json_get "id" block) json_as_str)));
                               ("block_height", json_u64 (default 0 (and_then (json_path ["details"; "height"] block) json_as_u64)));
                               ("benchmark_id", JString benchmark_id)]);
     ("package_id", JString package_id); ("object_key", JString object_key); ("object_existed", JBool existed); ("deleted", JBool deleted);
     ("deleted_at", JString (rfc3339_utc now))].
Definition apply_retention (package_id : string) (block : Value) (now : Z) (d : Depot) : result PackageError Value * Depot :=
  match
    let? acceptance := match (Upload.acceptance package_id d).1 with Ok (Some a) => Ok a | Ok None => Err NoAcceptance | Err _ => Err ReadingAcceptance end in
    let? artifact := ok_or (json_get "artifact" acceptance) NoArtifact in
    let? benchmark_id := ok_or (and_then (json_get "benchmark_id" artifact) json_as_str) (ArtifactLacks "benchmark_id") in
    let? object_key := ok_or (and_then (json_get "object_key" artifact) json_as_str) (ArtifactLacks "object_key") in
    if negb (bool_decide (benchmark_id ∈ active_benchmarks block)) then Err (NotActive benchmark_id) else Ok (benchmark_id, object_key)
  with
  | Err e => (Err e, d)
  | Ok (benchmark_id, object_key) =>
      let existed := bool_decide (is_Some (dp_objects d !! object_key)) in
      let (removed, d) := if existed then remove_object object_key d else (true, d) in
      if removed then
        let deleted := negb (bool_decide (is_Some (dp_objects d !! object_key))) in
        (Ok (retention_record block package_id benchmark_id object_key existed deleted now), d)
      else (Err DeletingObject, d)
  end.
(** [vm_hwm_kib] on the text of [/proc/self/status]. *)
Definition vm_hwm_line (l : string) : option Z :=
  and_then (strip_prefix "VmHWM:" l) (fun s => and_then (strip_suffix "kB" (unicode_trim s)) (fun s => parse_u64 (unicode_trim s))).
Fixpoint find_map {A B} (f : A -> option B) (l : list A) : option B :=
  match l with [] => None | x :: l' => match f x with Some b => Some b | None => find_map f l' end end.
Definition vm_hwm_kib (status : option string) : option Z := and_then status (fun s => find_map vm_hwm_line (str_lines s)).

(** ** What a loaded package is *)

(** A read that went through: each step and each test passed. *)
Ltac went_through H :=
  repeat (cbv zeta in H; match type of H with
  | (let? _ := ok_or ?o _ in _) = Ok _ => destruct o eqn:?; [cbn [ok_or] in H|discriminate H]
  | (let? _ := ?r in _) = Ok _ => destruct r eqn:?; [|discriminate H]
  | (if negb ?b then Err _ else _) = Ok _ => destruct b eqn:?; [cbn [negb] in H|discriminate H]
  end).

(** Everything that could be recomputed was. *)
Record package_ok (d : Depot) (pkg : AcceptedPackage) : Prop := {
  po_accepted : dp_docs d !! DAcceptance (ap_package_id pkg) = Some (ap_acceptance pkg);
  po_object : exists bytes, dp_objects d !! ap_object_key pkg = Some bytes /\ sha256_hex bytes = ap_package_sha256 pkg;
  po_count : Z.of_nat (length (ap_records pkg)) = ap_num_nonces pkg;
  po_nonces : forall i r, ap_records pkg !! i = Some r -> or_nonce r = Z.of_nat i;
  po_leaves : ap_leaves pkg = map leaf_hash (ap_records pkg);
  po_root : exists root, merkle_root blake3 (ap_leaves pkg) = Ok root /\ ap_root_hex pkg = hex root;
}.
Lemma read_records_nonces ls : forall i records, read_records i ls = Ok records ->
  length records = length ls /\ forall j r, records !! j = Some r -> or_nonce r = Z.of_nat (i + j).
Proof.
  induction ls as [|line ls IH]; intros i records; cbn [read_records]; [by intros [= <-]|].
  intros E. destruct (ok_or (from_str line) _) as [v|]; [|done]. destruct (map_err BadRecord _) as [r0|]; [|done].
  destruct (Z.eqb_spec (or_nonce r0) (Z.of_nat i)) as [Hn|]; [|done]. cbn [negb] in E. destruct (read_records (S i) ls) as [rs|] eqn:Er; [|done].
  injection E as <-. destruct (IH _ _ Er) as [Hlen Hall]. split; [cbn; by rewrite Hlen|].
  intros [|j] r; cbn; [intros [= <-]; by rewrite Nat.add_0_r|]. intros Hj. rewrite (Hall _ _ Hj). f_equal. lia.
Qed.
Lemma loaded_ok d package_id pkg : load_accepted_package d package_id = Ok pkg -> package_ok d pkg /\ ap_package_id pkg = package_id.
Proof.
  unfold load_accepted_package. intros E.
  destruct (Upload.acceptance package_id d) as [ra d1] eqn:Ea. unfold Upload.acceptance in Ea. rewrite pbind_plift in Ea.
  destruct (validate_id package_id); [|by injection Ea as <- <-]. unfold Upload.read_doc, read_at in Ea. injection Ea as <- <-. cbn [fst] in E. destruct (dp_unread d _); [done|].
  destruct (dp_docs d !! DAcceptance package_id) as [doc|] eqn:Hdoc; [|done]. went_through E. injection E as <-.
  match goal with H : read_records _ _ = Ok _ |- _ => destruct (read_records_nonces _ _ _ H) as [_ Hn] end.
  match goal with H : map_err NoRoot ?m = Ok _ |- _ => destruct m as [rt|] eqn:Hroot; [|done]; injection H as <- end.
  split; [|done]. constructor; cbn; try done.
  - match goal with H : map_err _ (read_object ?k d).1 = Ok _ |- _ => unfold read_object, read_at in H; cbn [fst] in H; destruct (dp_unread d _); [done|];
      destruct (dp_objects d !! k) as [bs|] eqn:Hbs; [|done]; injection H as <- end.
    eexists. split; [reflexivity|reflexivity].
  - by apply Z.eqb_eq.
  - by exists rt.
Qed.
(** The proof of a nonce: its record, and a branch that leads from the record's
    leaf to the package's root. *)
Definition proves (pkg : AcceptedPackage) (nonce : Z) (v : Value) : Prop := exists record branch root,
  ap_records pkg !! Z.to_nat nonce = Some record /\ or_nonce record = nonce /\ v = proof_entry record branch /\
  merkle_branch blake3 (ap_leaves pkg) (Z.to_nat nonce) = Ok branch /\ branch_root blake3 (leaf_hash record) (Z.to_nat nonce) branch = Ok root /\
  merkle_root blake3 (ap_leaves pkg) = Ok root /\ hex root = ap_root_hex pkg.
Lemma sampled_proved d pkg nonce seen proofs : package_ok d pkg -> ap_num_nonces pkg <= 2 ^ 64 -> 0 <= nonce < ap_num_nonces pkg -> nonce ∉ seen ->
  exists v, proves pkg nonce v /\ prove_nonce pkg (seen, proofs) nonce = Ok ({[nonce]} ∪ seen, proofs ++ [v]).
Proof.
  intros [_ _ Hc Hn Hl (root & Hr & Hx)] Hmax Hin Hs. destruct (lookup_lt_is_Some_2 (ap_records pkg) (Z.to_nat nonce)) as [record Hrec]; [lia|].
  assert (Hleaf : ap_leaves pkg !! Z.to_nat nonce = Some (leaf_hash record)) by (by rewrite Hl, list_lookup_fmap, Hrec).
  destruct (merkle_resolves blake3 _ _ _ Hleaf) as (branch & root' & Hb & Hr' & Hres); [rewrite Hl, length_map; lia|].
  assert (root' = root) as -> by congruence. exists (proof_entry record branch). split.
  - exists record, branch, root. repeat split; try done. rewrite (Hn _ _ Hrec). lia.
  - unfold prove_nonce. rewrite (proj2 (Z.leb_gt _ _)) by lia. rewrite bool_decide_eq_false_2 by done. rewrite Hrec, Hb, Hleaf. cbn [ok_or map_err].
    rewrite Hres. cbn [map_err]. by rewrite Hx, String.eqb_refl.
Qed.
Lemma prove_nonce_Ok pkg seen proofs nonce st : prove_nonce pkg (seen, proofs) nonce = Ok st ->
  nonce < ap_num_nonces pkg /\ nonce ∉ seen /\ st.1 = {[nonce]} ∪ seen.
Proof.
  unfold prove_nonce. destruct (Z.leb_spec (ap_num_nonces pkg) nonce); [done|]. destruct (bool_decide_reflect (nonce ∈ seen)); [done|].
  intros E. went_through E. injection E as <-. by split_and!.
Qed.
Lemma all_proved d pkg : package_ok d pkg -> ap_num_nonces pkg <= 2 ^ 64 -> forall sampled seen proofs,
  NoDup sampled -> Forall (in_range (ap_num_nonces pkg)) sampled -> Forall (fun n => n ∉ seen) sampled ->
  exists seen' vs, foldM (prove_nonce pkg) (seen, proofs) sampled = Ok (seen', proofs ++ vs) /\ Forall2 (proves pkg) sampled vs.
Proof.
  intros Hok Hmax. induction sampled as [|n sampled IH]; intros seen proofs Hnd Hr Hs.
  - exists seen, []. rewrite app_nil_r. by split.
  - apply NoDup_cons in Hnd as [Hn Hnd]. inversion_clear Hr as [|?? Hr1 Hr2]. inversion_clear Hs as [|?? Hs1 Hs2].
    destruct (sampled_proved d pkg n seen proofs Hok Hmax Hr1 Hs1) as (v & Hv & E). destruct (IH ({[n]} ∪ seen) (proofs ++ [v]) Hnd Hr2) as (seen' & vs & E' & Hvs).
    { apply Forall_forall. intros m Hm. rewrite Forall_forall in Hs2. pose proof (Hs2 m Hm). assert (m <> n) by (by intros ->). set_solver. }
    exists seen', (v :: vs). cbn [foldM]. rewrite E, E', <- app_assoc. split; [done|]. by constructor.
Qed.
Lemma all_proved_Ok pkg sampled : forall st st', foldM (prove_nonce pkg) st sampled = Ok st' ->
  NoDup sampled /\ Forall (fun n => n < ap_num_nonces pkg /\ n ∉ st.1) sampled.
Proof.
  induction sampled as [|n sampled IH]; intros [seen proofs] st' E; [by split; constructor|]. cbn [foldM] in E.
  destruct (prove_nonce pkg (seen, proofs) n) as [st1|] eqn:E1; [|done]. apply prove_nonce_Ok in E1 as (Hlt & Hns & Hst). destruct (IH _ _ E) as [Hnd Hall]. rewrite Hst in Hall.
  split; [apply NoDup_cons; split; [|done]|constructor; [done|]].
  - intros Hin. rewrite Forall_forall in Hall. destruct (Hall n Hin) as [_ H]. set_solver.
  - eapply Forall_impl; [exact Hall|]. intros m [Hm H]. split; [done|]. simpl. set_solver.
Qed.

(** A retained package answers every sample TIG can ask for, and no other.  From a
    package that loads, the proof payload can be built exactly when the sample is
    a nonempty list of distinct nonces of the benchmark; it then holds, nonce by
    nonce, the record of the nonce and the branch that leads from the record's
    leaf to the committed root. *)
Theorem accepted_package_answers_every_sample d package_id pkg sampled :
  load_accepted_package d package_id = Ok pkg -> ap_num_nonces pkg <= 2 ^ 64 -> Forall (fun n => 0 <= n) sampled ->
  (is_Ok (build_proof_payload pkg sampled) = true <-> sampled <> [] /\ NoDup sampled /\ Forall (in_range (ap_num_nonces pkg)) sampled) /\
  forall payload, build_proof_payload pkg sampled = Ok payload ->
    exists vs, payload = json_object [("benchmark_id", JString (ap_benchmark_id pkg)); ("merkle_proofs", JArray vs)] /\ Forall2 (proves pkg) sampled vs.
Proof.
  intros [Hok _]%loaded_ok Hmax Hpos.
  assert (Hneeds : forall payload, build_proof_payload pkg sampled = Ok payload -> sampled <> [] /\ NoDup sampled /\ Forall (in_range (ap_num_nonces pkg)) sampled).
  { intros payload E. unfold build_proof_payload in E. destruct sampled as [|n rest]; [done|]. destruct (foldM _ _ _) as [st|] eqn:Ef; [|done].
    destruct (all_proved_Ok _ _ _ _ Ef) as [Hnd Hall]. split_and!; [done|done|]. eapply Forall_impl; [exact (proj2 (Forall_and _ _) (conj Hpos Hall))|]. unfold in_range. naive_solver. }
  assert (Hdoes : sampled <> [] /\ NoDup sampled /\ Forall (in_range (ap_num_nonces pkg)) sampled ->
    exists vs, build_proof_payload pkg sampled = Ok (json_object [("benchmark_id", JString (ap_benchmark_id pkg)); ("merkle_proofs", JArray vs)]) /\ Forall2 (proves pkg) sampled vs).
  { intros (Hne & Hnd & Hr). destruct (all_proved d pkg Hok Hmax sampled ∅ [] Hnd Hr) as (seen & vs & E & Hvs); [apply Forall_forall; set_solver|].
    exists vs. split; [|done]. unfold build_proof_payload. destruct sampled; [done|]. by rewrite E. }
  split; [split|].
  - destruct (build_proof_payload pkg sampled) as [payload|] eqn:E; [intros _; by eapply Hneeds|done].
  - intros (vs & -> & _)%Hdoes. done.
  - intros payload E. destruct (Hdoes (Hneeds _ E)) as (vs & E' & Hvs). exists vs. split; [congruence|done].
Qed.

(** ** What the member wrote is what the pool reads *)

(** The archive and the frame are read back, and a printed value is read back
    from one line of valid UTF-8. *)
Abbreviation are_bytes := (Forall (fun b => is_u8 b = true)).
Definition tar_reads_back (tar_build : list (string * list Z) -> list Z) : Prop := forall l, Forall (fun nd => are_bytes nd.2) l -> tar_entries (tar_build l) = Some (map (fun nd => Some (Some nd.1, Some nd.2)) l).
Definition zstd_reads_back (zstd : Z -> list Z -> list Z) : Prop := forall level l, unzstd (Z.of_nat (length l) + 1) (zstd level l) = Some l.
Record prints_back (v : Value) : Prop := {
  pb_reads : from_str (to_string v) = Some v;
  pb_utf8 : utf8_valid (as_bytes (to_string v)) = true;
  pb_nl : avoids nl (to_string v);
  pb_cr : avoids (Ascii.ascii_of_N 13) (to_string v);
}.
Lemma utf8_valid_app_len n : forall a b, (length a <= n)%nat -> utf8_valid a = true -> utf8_valid (a ++ b) = utf8_valid b.
Proof.
  induction n as [|n IH]; intros a b Hn Ha; [by destruct a; [|simpl in Hn; lia]|].
  destruct a as [|x1 a1]; [done|]. cbn [utf8_valid app] in *. simpl in Hn. destruct (between 0 x1 127); [apply IH; [lia|done]|].
  destruct a1 as [|x2 a2]; [done|]. cbn [app]. simpl in Hn. destruct (between 194 x1 223).
  { apply andb_true_iff in Ha as [-> Ha]. cbn [andb]. apply IH; [lia|done]. }
  destruct a2 as [|x3 a3]; [done|]. cbn [app]. simpl in Hn. destruct (_ || _).
  { apply andb_true_iff in Ha as [-> Ha]. cbn [andb]. apply IH; [lia|done]. }
  destruct a3 as [|x4 a4]; [done|]. cbn [app]. simpl in Hn. apply andb_true_iff in Ha as [Ha1 Ha]. rewrite Ha1. cbn [andb]. apply IH; [lia|done].
Qed.
Lemma utf8_valid_app a b : utf8_valid a = true -> utf8_valid (a ++ b) = utf8_valid b.
Proof. by apply (utf8_valid_app_len (length a)). Qed.
Lemma from_utf8_as_bytes s : utf8_valid (as_bytes s) = true -> from_utf8 (as_bytes s) = Some s.
Proof. unfold from_utf8. intros ->. by rewrite string_of_as_bytes. Qed.
Lemma as_bytes_app s t : as_bytes (String.append s t) = as_bytes s ++ as_bytes t.
Proof. induction s as [|c s IH]; [done|]. change (String.append (String c s) t) with (String c (String.append s t)). unfold as_bytes in *. cbn. by rewrite IH. Qed.
(** The text of the output file. *)
Fixpoint ndjson_text (records : list OutputRecord) : string :=
  match records with [] => "" | r :: rest => String.append (to_string (to_wire_value r)) (String nl (ndjson_text rest)) end.
Lemma ndjson_bytes records : outputs_ndjson records = as_bytes (ndjson_text records).
Proof.
  induction records as [|r records IH]; [done|]. cbn [outputs_ndjson flat_map ndjson_text]. rewrite as_bytes_app. unfold outputs_ndjson in IH. rewrite IH, <- app_assoc. done.
Qed.
Lemma ndjson_utf8 records : Forall (fun r => prints_back (to_wire_value r)) records -> utf8_valid (as_bytes (ndjson_text records)) = true.
Proof.
  induction 1 as [|r records Hr _ IH]; [done|]. cbn [ndjson_text]. rewrite as_bytes_app, utf8_valid_app by apply Hr. exact IH.
Qed.
Lemma split_on_line c s t : avoids c s -> split_on c (String.append s (String c t)) = s :: split_on c t.
Proof.
  unfold avoids. induction s as [|x s IH]; [intros _; change (String.append "" (String c t)) with (String c t); cbn [split_on]; by rewrite Ascii.eqb_refl|].
  cbn [all_bytes]. intros [Hx Hs]%andb_true_iff. change (String.append (String x s) (String c t)) with (String x (String.append s (String c t))). cbn [split_on].
  rewrite (IH Hs). apply negb_true_iff in Hx. rewrite Ascii.eqb_sym in Hx. by rewrite Hx.
Qed.
Lemma ndjson_pieces records : Forall (fun r => prints_back (to_wire_value r)) records ->
  split_on nl (ndjson_text records) = map (fun r => to_string (to_wire_value r)) records ++ [""].
Proof. induction 1 as [|r records Hr _ IH]; [done|]. cbn [ndjson_text map app]. by rewrite split_on_line, IH by apply Hr. Qed.
Lemma rev_string_avoids c s : forall acc, avoids c acc -> avoids c s -> avoids c (rev_string acc s).
Proof.
  unfold avoids. induction s as [|x s IH]; intros acc Ha; [done|]. cbn [all_bytes rev_string]. intros [Hx Hs]%andb_true_iff. apply IH; [|done]. cbn [all_bytes]. by rewrite Hx.
Qed.
Lemma no_return s : avoids (Ascii.ascii_of_N 13) s -> strip_suffix cr s = None.
Proof.
  intros Hs. unfold strip_suffix. change (rev_string "" cr) with cr. assert (Hr : avoids (Ascii.ascii_of_N 13) (rev_string "" s)) by (by apply rev_string_avoids).
  destruct (rev_string "" s) as [|x t]; [done|]. unfold avoids in Hr. cbn [all_bytes] in Hr. apply andb_true_iff in Hr as [Hx _]. unfold cr. cbn [strip_prefix].
  apply negb_true_iff in Hx. by rewrite Hx.
Qed.
Lemma ndjson_lines records : Forall (fun r => prints_back (to_wire_value r)) records -> str_lines (ndjson_text records) = map (fun r => to_string (to_wire_value r)) records.
Proof.
  intros Hall. unfold str_lines. rewrite (ndjson_pieces _ Hall). unfold drop_empty_last. rewrite last_snoc, removelast_last, map_map.
  induction Hall as [|r records Hr _ IH]; [done|]. cbn [map]. by rewrite IH, no_return by apply Hr.
Qed.
Lemma ndjson_records records : Forall (fun r => prints_back (to_wire_value r) /\ record_ok r) records -> forall i, (forall j r, records !! j = Some r -> or_nonce r = Z.of_nat (i + j)) ->
  read_records i (map (fun r => to_string (to_wire_value r)) records) = Ok records.
Proof.
  induction 1 as [|r records [Hr Hok] _ IH]; intros i Hn; [done|]. cbn [map read_records]. rewrite (pb_reads _ Hr). cbn [ok_or]. rewrite output_roundtrip by done. cbn [map_err].
  rewrite (Hn 0%nat r) by done. rewrite Nat.add_0_r, Z.eqb_refl. cbn [negb]. rewrite (IH (S i)); [done|]. intros j r' Hj. rewrite (Hn (S j) r') by done. f_equal. lia.
Qed.
Lemma i32_bytes q : - 2 ^ 31 <= q < 2 ^ 31 -> i32_of (from_le_bytes (le_bytes 4 (q mod 2 ^ 32))) = q.
Proof.
  intros Hq. set (n := q mod 2 ^ 32). assert (Hn : 0 <= n < 2 ^ 32) by (apply Z.mod_pos_bound; lia).
  assert (E : from_le_bytes (le_bytes 4 n) = n).
  { cbn [le_bytes from_le_bytes]. change (2 ^ 32) with (256 * (256 * (256 * 256))) in Hn.
    pose proof (Z.div_mod n 256). pose proof (Z.div_mod (n / 256) 256). pose proof (Z.div_mod (n / 256 / 256) 256). pose proof (Z.div_mod (n / 256 / 256 / 256) 256).
    assert (n / 256 / 256 / 256 / 256 = 0) by (rewrite !Z.div_div by lia; apply Z.div_small; lia). lia. }
  rewrite E. unfold i32_of, n. destruct (Z.ltb_spec (q mod 2 ^ 32) (2 ^ 31)); destruct (Z.lt_ge_cases q 0);
    [rewrite <- (Z_mod_plus_full q 1) in *; rewrite Z.mod_small in * by lia; lia|by apply Z.mod_small; lia|rewrite <- (Z_mod_plus_full q 1), Z.mod_small by lia; lia|rewrite Z.mod_small in * by lia; lia].
Qed.
Lemma qualities_read qualities : Forall (fun q => - 2 ^ 31 <= q < 2 ^ 31) qualities -> read_qualities (qualities_bytes qualities) = qualities.
Proof. induction 1 as [|q qualities Hq _ IH]; [done|]. cbn [qualities_bytes flat_map]. cbn [le_bytes app read_qualities]. f_equal; [by apply i32_bytes|exact IH]. Qed.
Lemma qualities_length qualities : length (qualities_bytes qualities) = (4 * length qualities)%nat.
Proof. induction qualities as [|q qualities IH]; [done|]. cbn [qualities_bytes flat_map]. rewrite length_app. unfold qualities_bytes in IH. rewrite IH. simpl. lia. Qed.
Lemma le_bytes_u8 n : forall x, are_bytes (le_bytes n x).
Proof. induction n as [|n IH]; intros x; [constructor|]. constructor; [|apply IH]. apply is_u8_spec. pose proof (Z.mod_pos_bound x 256). lia. Qed.
Lemma qualities_u8 qualities : are_bytes (qualities_bytes qualities).
Proof. induction qualities as [|q qualities IH]; [constructor|]. apply Forall_app. split; [apply le_bytes_u8|exact IH]. Qed.
(** A BLAKE3 hash is thirty-two bytes. *)
Definition hashes_bytes : Prop := forall l, bytes_ok 32 (blake3 l).
Lemma leaf_hashes_u8 records : hashes_bytes -> are_bytes (leaf_hashes_bytes (map leaf_hash records)).
Proof. intros Hh. induction records as [|r records IH]; [constructor|]. apply Forall_app. split; [apply Hh|exact IH]. Qed.

Lemma acceptance_artifact artifact receipt slot g : json_get "artifact" (acceptance_json artifact receipt slot g) = Some artifact.
Proof. done. Qed.
Lemma artifact_reads root_display p a b key media sha size uncompressed msha at' :
  let artifact := artifact_json sha256 root_display p a b key media sha size uncompressed msha at' in
  and_then (json_get "object_key" artifact) json_as_str = Some key /\ and_then (json_get "sha256" artifact) json_as_str = Some sha /\
  and_then (json_get "benchmark_id" artifact) json_as_str = Some b /\ and_then (json_get "uncompressed_size" artifact) json_as_u64 = Some uncompressed.
Proof. split_and!; reflexivity. Qed.
Lemma manifest_reads id n root q l o : let manifest := build_manifest id n root q l o in
  manifest_str manifest ["benchmark_id"] "/benchmark_id" = Ok (pi_benchmark_id id) /\
  and_then (json_path ["nonce_range"; "num_nonces"] manifest) json_as_u64 = Some n /\ manifest_str manifest ["merkle"; "root"] "/merkle/root" = Ok (hex root).
Proof. split_and!; reflexivity. Qed.
Lemma four_members m q l o : foldM take_member (MkMembers None None None None)
  (map (fun nd => Some (Some nd.1, Some nd.2)) [("manifest.json", m); ("qualities.i32le", q); ("leaf-hashes.bin", l); ("outputs.ndjson", o)]) = Ok (MkMembers (Some m) (Some q) (Some l) (Some o)).
Proof. reflexivity. Qed.

(** What a member packs is what the pool loads: the records, the qualities, the
    leaves and the root come back from the accepted object as they were written,
    for any number of nonces and whatever else the record of acceptance says. *)
Theorem member_package_loads tar_build zstd id qualities records level d package_id assignment_id benchmark_id object_key media_type manifest_sha accepted_at root_display receipt slot g root :
  let leaves := map leaf_hash records in
  let n := Z.of_nat (length records) in
  let manifest := build_manifest id n root (qualities_bytes qualities) (leaf_hashes_bytes leaves) (outputs_ndjson records) in
  let tar := build_tar tar_build (as_bytes (jsonify to_string manifest)) (qualities_bytes qualities) (leaf_hashes_bytes leaves) (outputs_ndjson records) in
  let package := compress_zstd zstd tar level in
  tar_reads_back tar_build -> zstd_reads_back zstd -> hashes_bytes -> prints_back manifest -> Forall (fun r => prints_back (to_wire_value r) /\ record_ok r) records ->
  (forall i r, records !! i = Some r -> or_nonce r = Z.of_nat i) -> length qualities = length records -> Forall (fun q => - 2 ^ 31 <= q < 2 ^ 31) qualities ->
  n * 4 < 2 ^ 64 -> Z.of_nat (length tar) + 1 < 2 ^ 64 -> merkle_root blake3 leaves = Ok root -> is_token package_id = true -> pi_benchmark_id id = benchmark_id ->
  dp_docs d !! DAcceptance package_id = Some (acceptance_json
    (artifact_json sha256 root_display package_id assignment_id benchmark_id object_key media_type (sha256_hex package) (Z.of_nat (length package)) (Z.of_nat (length tar)) manifest_sha accepted_at)
    receipt slot g) ->
  dp_objects d !! object_key = Some package -> (forall sp, dp_unread d sp = false) ->
  exists pkg, load_accepted_package d package_id = Ok pkg /\ ap_benchmark_id pkg = benchmark_id /\ ap_num_nonces pkg = n /\
    ap_qualities pkg = qualities /\ ap_records pkg = records /\ ap_leaves pkg = leaves /\ ap_root_hex pkg = hex root /\ ap_manifest pkg = manifest.
Proof.
  intros leaves n manifest tar package Htar Hzstd Hhash Hman Hrec Hnonce Hlen Hq Hn Hsize Hroot Htoken Hid Hdoc Hobj Hun.
  unfold load_accepted_package, Upload.acceptance. rewrite pbind_plift. unfold validate_id. rewrite Htoken. unfold Upload.read_doc, read_at. cbn [fst]. rewrite Hun, Hdoc, acceptance_artifact. cbn [ok_or].
  match goal with |- context [artifact_json ?a ?b ?c ?d ?e ?f ?g ?h ?i ?j ?k ?l] => destruct (artifact_reads b c d e f g h i j k l) as (Ha1 & Ha2 & Ha3 & Ha4) end.
  rewrite Ha1, Ha2, Ha3, Ha4. cbn [ok_or]. clear Hdoc Ha1 Ha2 Ha3 Ha4.
  unfold read_object, read_at. cbn [fst]. rewrite Hun, Hobj. cbn [ok_or map_err]. rewrite String.eqb_refl. cbn [negb]. unfold wrap64. rewrite Z.mod_small by lia. unfold package, compress_zstd. rewrite Hzstd. cbn [ok_or].
  rewrite Z.eqb_refl. cbn [negb]. unfold tar, build_tar. rewrite Htar by (repeat (constructor; [first [apply as_bytes_u8|apply qualities_u8|by apply leaf_hashes_u8|rewrite ndjson_bytes; apply as_bytes_u8]|]); constructor). cbn [ok_or]. rewrite four_members. cbn [ok_or mb_manifest mb_qualities mb_leaf_hashes mb_outputs].
  unfold from_slice. unfold jsonify at 1. rewrite from_utf8_as_bytes by apply Hman. cbn [and_then]. rewrite (pb_reads _ Hman). cbn [ok_or].
  destruct (manifest_reads id n root (qualities_bytes qualities) (leaf_hashes_bytes leaves) (outputs_ndjson records)) as (Hm1 & Hm2 & Hm3). fold manifest in Hm1, Hm2, Hm3.
  rewrite Hm1, Hm2. cbn [ok_or]. rewrite Hid, String.eqb_refl. cbn [negb].
  rewrite qualities_length, Hlen. rewrite Z.mod_small by lia. replace (Z.of_nat (4 * length records)) with (n * 4) by lia. rewrite Z.eqb_refl. cbn [negb].
  assert (Hp : Forall (fun r => prints_back (to_wire_value r)) records) by (eapply Forall_impl; [exact Hrec|]; by intros ? [? _]).
  rewrite ndjson_bytes, from_utf8_as_bytes by by apply ndjson_utf8. cbn [ok_or]. rewrite ndjson_lines by done. rewrite ndjson_records by done.
  fold n. rewrite Z.eqb_refl. cbn [negb]. rewrite bool_decide_eq_true_2 by done. cbn [negb]. fold leaves. rewrite Hroot. cbn [map_err]. rewrite Hm3, String.eqb_refl. cbn [negb].
  eexists. split; [reflexivity|]. cbn [ap_benchmark_id ap_num_nonces ap_qualities ap_records ap_leaves ap_root_hex ap_manifest]. by rewrite qualities_read.
Qed.

(** ** What TIG makes of it *)

(** The reader of archives yields bytes. *)
Definition reads_bytes : Prop := forall t es name data, tar_entries t = Some es -> Some (name, Some data) ∈ es -> are_bytes data.
Lemma members_read entries : forall m m' data, foldM take_member m entries = Ok m' -> mb_qualities m' = Some data ->
  mb_qualities m = Some data \/ exists name, Some (name, Some data) ∈ entries.
Proof.
  induction entries as [|e entries IH]; intros m m' data E Hq; [injection E as <-; by left|]. cbn [foldM] in E.
  destruct (take_member m e) as [m1|] eqn:E1; [|done]. destruct (IH _ _ _ E Hq) as [H1|[name H1]]; [|right; exists name; by right].
  unfold take_member in E1. destruct e as [[[name|] [x|]]|]; try done. cbn [ok_or fst snd] in E1.
  repeat match type of E1 with (if ?b then _ else _) = _ => destruct b end; try discriminate E1; injection E1 as <-; simpl in H1; try (by left).
  injection H1 as ->. right. exists (Some name). by left.
Qed.
Lemma read_qualities_length k : forall bytes, length bytes = (4 * k)%nat -> length (read_qualities bytes) = k.
Proof.
  induction k as [|k IH]; intros bytes Hb; [by destruct bytes|]. destruct bytes as [|x1 [|x2 [|x3 [|x4 bytes]]]]; simpl in Hb; try lia. cbn [read_qualities length]. rewrite IH by lia. done.
Qed.
Lemma read_qualities_range n : forall bytes, (length bytes <= n)%nat -> Forall (fun b => is_u8 b = true) bytes -> Forall (fun q => - 2 ^ 31 <= q < 2 ^ 31) (read_qualities bytes).
Proof.
  induction n as [|n IH]; intros bytes Hn Hb; [by destruct bytes; [constructor|simpl in Hn; lia]|].
  destruct bytes as [|x1 [|x2 [|x3 [|x4 bytes]]]]; try constructor.
  - repeat match goal with H : Forall _ (_ :: _) |- _ => inversion_clear H end. repeat match goal with H : is_u8 _ = true |- _ => apply is_u8_spec in H end.
    cbn [from_le_bytes]. unfold i32_of. destruct (Z.ltb_spec (x1 + 256 * (x2 + 256 * (x3 + 256 * (x4 + 256 * 0)))) (2 ^ 31)); lia.
  - apply IH; [simpl in Hn; lia|]. by do 4 (inversion_clear Hb as [|?? _ Hb']; rename Hb' into Hb).
Qed.
Lemma loaded_qualities d package_id pkg : reads_bytes -> load_accepted_package d package_id = Ok pkg -> ap_num_nonces pkg * 4 < 2 ^ 64 ->
  Z.of_nat (length (ap_qualities pkg)) = ap_num_nonces pkg /\ Forall (fun q => - 2 ^ 31 <= q < 2 ^ 31) (ap_qualities pkg).
Proof.
  intros Hread E Hmax. pose proof (proj1 (loaded_ok _ _ _ E)) as [_ _ Hc _ _ _]. unfold load_accepted_package in E. went_through E. injection E as <-. cbn in *.
  match goal with H : foldM take_member _ _ = Ok ?m, Hq : mb_qualities ?m = Some _ |- _ => destruct (members_read _ _ _ _ H Hq) as [?|[name Hin]]; [done|] end.
  match goal with H : (Z.of_nat (length _) =? wrap64 _) = true |- _ => apply Z.eqb_eq in H; unfold wrap64 in H; rewrite Z.mod_small in H by lia; rename H into Hlen end.
  split; [|eapply read_qualities_range; [reflexivity|eapply Hread; eassumption]].
  match goal with H : (Z.of_nat (length ?rs) =? ?z) = true |- _ => apply Z.eqb_eq in H; rewrite <- H in *; rewrite (read_qualities_length (length rs)) by lia; done end.
Qed.
Lemma pair_up_all (Q : list Z -> Prop) (Hq : forall l, Q (blake3 l)) level : Forall Q level -> Forall Q (pair_up blake3 level).
Proof. induction level as [|a|a b l IH] using Merkle.pair_ind; intros H; [done|done|]. do 2 (inversion_clear H as [|?? _ H']; rename H' into H). constructor; [apply Hq|by apply IH]. Qed.
Lemma root_is_a_hash (Q : list Z -> Prop) (Hq : forall l, Q (blake3 l)) leaves root : Forall Q leaves -> merkle_root blake3 leaves = Ok root -> Q root.
Proof.
  intros Hall E. assert (Hc : forall fuel level, Forall Q level -> Forall Q (climb blake3 fuel level)).
  { induction fuel as [|fuel IH]; intros level Hl; [done|]. cbn [climb]. destruct (_ <? _)%nat; [|done]. by apply IH, pair_up_all. }
  specialize (Hc (length leaves) leaves Hall). unfold merkle_root in E. destruct leaves as [|x leaves]; [done|]. destruct (climb _ _ _) as [|y level]; [done|]. injection E as <-. by inversion Hc.
Qed.
Lemma commitment_Ok d pkg : hashes_bytes -> package_ok d pkg -> exists body, commitment_body pkg = Ok body /\
  body = json_object [("benchmark_id", JString (ap_benchmark_id pkg)); ("stopped", JBool false); ("merkle_root", JString (ap_root_hex pkg));
                      ("solution_quality", JArray (map json_i64 (ap_qualities pkg)))] /\
  String.length (ap_root_hex pkg) = 64%nat /\ all_bytes is_lower_hex (ap_root_hex pkg) = true.
Proof.
  intros Hh [_ _ _ _ Hl (root & Hr & Hx)]. assert (Hlv : Forall (bytes_ok 32) (ap_leaves pkg)) by (rewrite Hl; apply Forall_forall; intros x (r & -> & _)%list_elem_of_fmap; apply Hh).
  destruct (root_is_a_hash (bytes_ok 32) Hh _ _ Hlv Hr) as [Hlen Hu8].
  assert (H64 : String.length (ap_root_hex pkg) = 64%nat) by (rewrite Hx; unfold hex; rewrite to_hex_length, Hlen; done).
  assert (Hhex : all_bytes is_lower_hex (ap_root_hex pkg) = true) by (rewrite Hx; by apply to_hex_lower).
  eexists. split; [|done]. unfold commitment_body. by rewrite H64, Hhex.
Qed.
Lemma qualities_mapM qs : Forall (fun q => - 2 ^ 31 <= q < 2 ^ 31) qs -> mapM json_as_i64 (map json_i64 qs) = Some qs.
Proof.
  induction 1 as [|q qs Hq _ IH]; [done|]. assert (E : json_as_i64 (json_i64 q) = Some q).
  { unfold json_i64. destruct (0 <=? q); [|done]. cbn [json_as_i64]. rewrite (proj2 (Z.leb_le _ _)); [done|]. unfold i64_max. lia. }
  change (mapM json_as_i64 (map json_i64 (q :: qs))) with (y ← json_as_i64 (json_i64 q); ys ← mapM json_as_i64 (map json_i64 qs); mret (y :: ys)). rewrite E, IH. done.
Qed.
Lemma proofs_provided pkg sampled vs : Forall2 (proves pkg) sampled vs -> mapM_res proof_nonce vs = Ok sampled.
Proof.
  induction 1 as [|n v sampled vs (record & branch & root & _ & <- & -> & _) _ IH]; [done|]. cbn [mapM_res]. rewrite IH. reflexivity.
Qed.

Lemma commitment_reads id root qualities :
  let body := json_object [("benchmark_id", JString id); ("stopped", JBool false); ("merkle_root", JString root); ("solution_quality", JArray qualities)] in
  body_str body "benchmark_id" = Ok id /\ and_then (json_get "stopped" body) json_as_bool = Some false /\
  json_get "merkle_root" body = Some (JString root) /\ json_get "solution_quality" body = Some (JArray qualities).
Proof. split_and!; reflexivity. Qed.
Lemma payload_reads id vs : let body := json_object [("benchmark_id", JString id); ("merkle_proofs", JArray vs)] in
  body_str body "benchmark_id" = Ok id /\ and_then (json_get "merkle_proofs" body) json_as_array = Some vs.
Proof. split_and!; reflexivity. Qed.

(** C29. The accepted work is taken.  For a package that loads, the stand-in for TIG
    takes the commitment built from it, for a benchmark with as many nonces whose
    precommit is confirmed and that has no commitment; and once it publishes any
    sample of distinct nonces, it takes the proof payload built from the package.
    Nothing of the member's is needed but the accepted object. *)
Theorem accepted_work_is_taken d package_id pkg w b :
  reads_bytes -> hashes_bytes -> load_accepted_package d package_id = Ok pkg -> ap_num_nonces pkg * 4 < 2 ^ 64 ->
  bt_get (ap_benchmark_id pkg) (fw_benchmarks w) = Some b -> be_num_nonces b = ap_num_nonces pkg ->
  (is_Some (be_precommit_confirmed b) -> be_submission b = None ->
   exists body s w', commitment_body pkg = Ok body /\ apply_benchmark body w = Ok (json_object [("ok", JBool true)], w') /\
     bt_get (ap_benchmark_id pkg) (fw_benchmarks w') = Some (with_submission s b) /\ bs_stopped s = false /\
     bs_root s = Some (ap_root_hex pkg) /\ bs_quality s = Some (ap_qualities pkg)) /\
  (forall s sampled, be_submission b = Some s -> bs_stopped s = false -> is_Some (bs_confirmed s) -> bs_sampled_nonces s = Some sampled -> be_proof b = None ->
   sampled <> [] -> NoDup sampled -> Forall (in_range (be_num_nonces b)) sampled ->
   exists payload p w', build_proof_payload pkg sampled = Ok payload /\
     apply_proof payload w = Ok (json_object [("ok", JBool true); ("verified", JBool true)], w') /\
     bt_get (ap_benchmark_id pkg) (fw_benchmarks w') = Some (with_proof p b)).
Proof.
  intros Hread Hh Hload Hmax Hb Hn. pose proof (proj1 (loaded_ok _ _ _ Hload)) as Hok. destruct (loaded_qualities _ _ _ Hread Hload Hmax) as [Hlen Hq]. split.
  - intros [hc Hc] Hs. destruct (commitment_Ok d pkg Hh Hok) as (body & Hbody & -> & H64 & Hhex). eexists _, _, _. split; [exact Hbody|]. split.
    + destruct (commitment_reads (ap_benchmark_id pkg) (ap_root_hex pkg) (map json_i64 (ap_qualities pkg))) as (R1 & R2 & R3 & R4).
      unfold apply_benchmark. rewrite R1, R2. cbn [ok_or]. rewrite Hb. cbn [ok_or]. rewrite Hc, Hs. rewrite bool_decide_eq_false_2 by done. cbn [refuse_if]. rewrite R3, R4. cbn [from_option id json_as_str json_as_array ok_or].
      unfold submission_of. cbn [from_option id json_as_str json_as_array ok_or]. rewrite H64, Hhex. cbn [Nat.eqb negb orb refuse_if]. rewrite length_map, Hlen. rewrite Hn. unfold wrap64. rewrite Z.mod_small by lia. rewrite Z.eqb_refl. cbn [negb refuse_if].
      rewrite qualities_mapM by done. reflexivity.
    + cbn [fw_benchmarks with_benchmarks]. rewrite bt_get_insert_eq. done.
  - intros s sampled Hs Hst [hc Hc] Hsam Hp Hne Hnd Hr. rewrite Hn in Hr.
    destruct (all_proved d pkg Hok ltac:(lia) sampled ∅ [] Hnd Hr) as (seen & vs & E & Hvs); [apply Forall_forall; set_solver|].
    assert (Hpay : build_proof_payload pkg sampled = Ok (json_object [("benchmark_id", JString (ap_benchmark_id pkg)); ("merkle_proofs", JArray vs)])) by (unfold build_proof_payload; destruct sampled; [done|]; by rewrite E).
    eexists _, _, _. split; [exact Hpay|]. split.
    + destruct (payload_reads (ap_benchmark_id pkg) vs) as (R1 & R2). unfold apply_proof. rewrite R1, R2. rewrite Hb. cbn [ok_or]. rewrite Hs. cbn [ok_or]. rewrite Hst. cbn [refuse_if]. rewrite Hc, bool_decide_eq_false_2 by done. cbn [refuse_if].
      rewrite Hsam. cbn [ok_or]. rewrite Hp. cbn [refuse_if]. rewrite (proofs_provided pkg sampled vs Hvs). rewrite bool_decide_eq_true_2 by done. reflexivity.
    + cbn [fw_benchmarks with_benchmarks]. rewrite bt_get_insert_eq. done.
Qed.

(** A package is deleted only when the presented block lists its benchmark as
    active: whatever the deletion comes to, nothing but that object is touched,
    and an answer says that it is gone. *)
Theorem retention_deletes_the_active_only package_id block now d r d' :
  apply_retention package_id block now d = (r, d') ->
  same_docs d d' /\ dp_ledgers d' = dp_ledgers d /\ dp_chunks d' = dp_chunks d /\
  (is_Ok r = false /\ dp_objects d' = dp_objects d \/
   exists acceptance artifact benchmark_id key, dp_docs d !! DAcceptance package_id = Some acceptance /\ json_get "artifact" acceptance = Some artifact /\
     and_then (json_get "benchmark_id" artifact) json_as_str = Some benchmark_id /\ benchmark_id ∈ active_benchmarks block /\
     and_then (json_get "object_key" artifact) json_as_str = Some key /\ dp_objects d' = delete key (dp_objects d)).
Proof.
  unfold apply_retention, Upload.acceptance. rewrite pbind_plift.
  assert (Hrefused : forall e, (Err e, d) = (r, d') -> same_docs d d' /\ dp_ledgers d' = dp_ledgers d /\ dp_chunks d' = dp_chunks d /\ is_Ok r = false /\ dp_objects d' = dp_objects d) by (by intros e [= <- <-]).
  destruct (validate_id package_id); [|intros (? & ? & ? & ? & ?)%Hrefused; split_and!; try done; by left]. unfold Upload.read_doc, read_at. cbn [fst].
  destruct (dp_unread d _); [intros (? & ? & ? & ? & ?)%Hrefused; split_and!; try done; by left|].
  destruct (dp_docs d !! DAcceptance package_id) as [acc|] eqn:Hacc; [|intros (? & ? & ? & ? & ?)%Hrefused; split_and!; try done; by left]. destruct (json_get "artifact" acc) as [art|] eqn:Hart; [|intros (? & ? & ? & ? & ?)%Hrefused; split_and!; try done; by left]. cbn [ok_or].
  destruct (and_then (json_get "benchmark_id" art) json_as_str) as [b|] eqn:Hb; [|intros (? & ? & ? & ? & ?)%Hrefused; split_and!; try done; by left]. cbn [ok_or].
  destruct (and_then (json_get "object_key" art) json_as_str) as [key|] eqn:Hk; [|intros (? & ? & ? & ? & ?)%Hrefused; split_and!; try done; by left]. cbn [ok_or].
  destruct (bool_decide_reflect (b ∈ active_benchmarks block)) as [Hin|]; cbn [negb]; [|intros (? & ? & ? & ? & ?)%Hrefused; split_and!; try done; by left]. clear Hrefused.
  assert (Hgone : forall d1, dp_objects d1 = delete key (dp_objects d) -> exists acceptance artifact benchmark_id k, Some acc = Some acceptance /\ json_get "artifact" acceptance = Some artifact /\
     and_then (json_get "benchmark_id" artifact) json_as_str = Some benchmark_id /\ benchmark_id ∈ active_benchmarks block /\
     and_then (json_get "object_key" artifact) json_as_str = Some k /\ dp_objects d1 = delete k (dp_objects d)) by (intros d1 Hd1; by exists acc, art, b, key).
  destruct (bool_decide_reflect (is_Some (dp_objects d !! key))) as [Hex|Hex].
  - unfold remove_object, take_fault. destruct (dp_faults d) as [|[] fs]; cbn; intros [= <- <-]; (split_and!; try done); first [by right; apply Hgone|by left].
  - intros [= <- <-]. split_and!; try done. right. apply Hgone. rewrite delete_id; [done|]. by apply eq_None_not_Some.
Qed.
(** The retention rule is a step of the pool's disk. *)
Lemma retention_is_a_step listing root_display package_id block now fs d :
  rtc (pool_step sha256 to_string from_str unzstd tar_entries listing root_display) d (apply_retention package_id block now (with_faults fs d)).2.
Proof.
  assert (Hrefused : rtc (pool_step sha256 to_string from_str unzstd tar_entries listing root_display) d (with_faults fs d)).
  { apply rtc_once. exact (pool_op sha256 to_string from_str unzstd tar_entries listing root_display d (OpOffer "/" "/") fs eq_refl). }
  unfold apply_retention, Upload.acceptance. rewrite pbind_plift. destruct (validate_id package_id); [|done]. unfold Upload.read_doc, read_at. cbn [fst].
  destruct (dp_unread _ _); [done|]. destruct (dp_docs (with_faults fs d) !! DAcceptance package_id) as [acc|] eqn:Hacc; [|done].
  destruct (json_get "artifact" acc) as [art|] eqn:Hart; [|done]. cbn [ok_or]. destruct (and_then (json_get "benchmark_id" art) json_as_str) as [b|]; [|done]. cbn [ok_or].
  destruct (and_then (json_get "object_key" art) json_as_str) as [key|] eqn:Hk; [|done]. cbn [ok_or]. destruct (negb _); [done|].
  destruct (bool_decide (is_Some (dp_objects (with_faults fs d) !! key))); [|done].
  assert (Hstep : pool_step sha256 to_string from_str unzstd tar_entries listing root_display d (remove_object key (with_faults fs d)).2).
  { apply (pool_retire _ _ _ _ _ _ _ d package_id acc key fs); [exact Hacc|]. unfold object_named. by rewrite Hart. }
  destruct (remove_object key (with_faults fs d)) as [removed d']. cbn [snd] in *. destruct removed; by apply rtc_once.
Qed.
End package.

(** ** A package of two nonces *)

(** A hash that keeps the first thirty-two bytes; an archive in which every name
    and every member stands after its length; texts that name the record. *)
Definition toy_hash32 (l : list Z) : list Z := take 32 (map (fun b => b mod 256) l ++ replicate 32 0).
Lemma toy_hash32_bytes : hashes_bytes toy_hash32.
Proof.
  intros l. unfold toy_hash32. split; [rewrite length_take, length_app, length_replicate; lia|]. apply Forall_take, Forall_app. split; [|by apply Forall_replicate].
  apply Forall_forall. intros b (x & -> & _)%list_elem_of_fmap. apply is_u8_spec. pose proof (Z.mod_pos_bound x 256). lia.
Qed.
Definition counted (l : list Z) : list Z := Z.of_nat (length l) :: l.
Definition toy_tar (l : list (string * list Z)) : list Z := flat_map (fun nd => counted (as_bytes nd.1) ++ counted nd.2) l.
Fixpoint toy_untar (fuel : nat) (t : list Z) : list (option (option string * option (list Z))) :=
  match fuel, t with
  | S fuel', n :: t =>
      let rest := drop (Z.to_nat n) t in
      match rest with
      | m :: u => let data := take (Z.to_nat m) u in
          (if forallb is_u8 data then Some (Some (string_of_bytes (take (Z.to_nat n) t)), Some data) else None) :: toy_untar fuel' (drop (Z.to_nat m) u)
      | [] => [None]
      end
  | _, _ => []
  end.
Definition toy_members (t : list Z) : option (list (option (option string * option (list Z)))) := Some (toy_untar (length t) t).
Lemma toy_untar_tar l : Forall (fun nd => Forall (fun b => is_u8 b = true) nd.2) l -> forall fuel, (length l <= fuel)%nat ->
  toy_untar fuel (toy_tar l) = map (fun nd => Some (Some nd.1, Some nd.2)) l.
Proof.
  induction 1 as [|[name data] l Hd _ IH]; intros fuel Hf; [by destruct fuel|]. destruct fuel as [|fuel]; [simpl in Hf; lia|].
  cbn [toy_tar flat_map fst snd map]. unfold counted at 1. cbn [app toy_untar]. rewrite Nat2Z.id, <- !app_assoc, drop_app_length, take_app_length. unfold counted. cbn [app].
  rewrite Nat2Z.id, drop_app_length, take_app_length, string_of_as_bytes. replace (forallb is_u8 data) with true by (symmetry; apply forallb_forall; intros b Hb; rewrite Forall_forall in Hd; by apply Hd, list_elem_of_In).
  f_equal. apply IH. simpl in Hf. lia.
Qed.
Lemma toy_tar_length l : (length l <= length (toy_tar l))%nat.
Proof. induction l as [|nd l IH]; [done|]. change (toy_tar (nd :: l)) with ((counted (as_bytes nd.1) ++ counted nd.2) ++ toy_tar l). rewrite !length_app. unfold counted at 1. cbn [length]. lia. Qed.
Lemma toy_tar_reads_back : tar_reads_back toy_members toy_tar.
Proof. intros l Hl. unfold toy_members. f_equal. apply toy_untar_tar; [done|apply toy_tar_length]. Qed.
Lemma toy_reads_bytes : reads_bytes toy_members.
Proof.
  intros t es name data [= <-]. generalize (length t). intros fuel. revert t. induction fuel as [|fuel IH]; intros t; [by intros ?%not_elem_of_nil|]. cbn [toy_untar].
  destruct t as [|n t]; [by intros ?%not_elem_of_nil|]. destruct (drop _ t) as [|m u]; [by intros ?%list_elem_of_singleton|]. intros [H|H]%elem_of_cons; [|by apply (IH _ H)].
  destruct (forallb is_u8 _) eqn:Hb; [|done]. injection H as _ ->. apply Forall_forall. intros b Hin. rewrite forallb_forall in Hb. by apply Hb, list_elem_of_In.
Qed.
Definition toy_text (v : Value) : string :=
  match and_then (json_get "nonce" v) json_as_u64, json_get "solution" v, v with
  | Some n, Some _, _ => String.append "w" (u64_text n)
  | Some n, None, _ => String.append "l" (u64_text n)
  | None, _, JObject _ => "m"
  | None, _, _ => "s"
  end.
Definition toy_pack (level : Z) (l : list Z) : list Z := l.
Definition toy_unpack (cap : Z) (l : list Z) : option (list Z) := Some (take (Z.to_nat cap) l).
Lemma toy_zstd_reads_back : zstd_reads_back toy_unpack toy_pack.
Proof. intros level l. unfold toy_unpack, toy_pack. rewrite take_ge; [done|]. lia. Qed.
Definition toy_records : list OutputRecord := [sample_output 0; sample_output 1].
Definition toy_qualities : list Z := [-5; 70000].
Definition toy_identity : PackageIdentity :=
  MkIdentity "b1" "d1" "m1" "w1" "s1" "a1" "p1" "q1" "qd1" 1 (json_object [("kind", JString "CPU")]) "agent" "upstream" "bench" "bin" "img" "plat" "linux/arm64" "2026-01-01T00:00:00Z".
Abbreviation toy_leaf := (Merkle.leaf_hash toy_hash32 toy_text).
Definition toy_package_leaves : list (list Z) := map toy_leaf toy_records.
Definition toy_root : list Z := match merkle_root toy_hash32 toy_package_leaves with Ok r => r | Err _ => [] end.
Abbreviation toy_manifest := (build_manifest toy_hash32 toy_identity 2 toy_root (qualities_bytes toy_qualities) (leaf_hashes_bytes toy_package_leaves) (outputs_ndjson toy_text toy_records)).
Definition toy_from (s : string) : option Value :=
  if String.eqb s "m" then Some toy_manifest else if String.eqb s "w0" then Some (to_wire_value (sample_output 0)) else if String.eqb s "w1" then Some (to_wire_value (sample_output 1)) else None.
Abbreviation toy_archive := (build_tar toy_tar (as_bytes (jsonify toy_text toy_manifest)) (qualities_bytes toy_qualities) (leaf_hashes_bytes toy_package_leaves) (outputs_ndjson toy_text toy_records)).
Abbreviation toy_object := (compress_zstd toy_pack toy_archive 3).
Abbreviation toy_acceptance := (acceptance_json
  (artifact_json toy_hash32 "/pool" "p1" "a1" "b1" "accepted/k" "application/zstd" (Merkle.sha256_hex toy_hash32 toy_object) (Z.of_nat (length toy_object)) (Z.of_nat (length toy_archive)) "ms" "t")
  JNull "s1" 1).
Definition toy_depot : Depot := MkDepot {[DAcceptance "p1" := toy_acceptance]} ∅ ∅ ∅ {["accepted/k" := toy_object]} [] (fun _ => false).
Abbreviation toy_load := (load_accepted_package toy_hash32 toy_hash32 toy_text toy_from toy_unpack toy_members toy_depot "p1").
Lemma toy_manifest_prints : prints_back toy_text toy_from toy_manifest.
Proof. constructor; reflexivity. Qed.
Lemma toy_record_prints n : n = 0 \/ n = 1 -> prints_back toy_text toy_from (to_wire_value (sample_output n)) /\ record_ok (sample_output n).
Proof. intros [-> | ->]; (split; [constructor; reflexivity|]); split; vm_compute; split; discriminate. Qed.
Lemma toy_records_print : Forall (fun r => prints_back toy_text toy_from (to_wire_value r) /\ record_ok r) toy_records.
Proof. repeat constructor; try reflexivity; vm_compute; discriminate. Qed.
Lemma toy_records_nonces i r : toy_records !! i = Some r -> or_nonce r = Z.of_nat i.
Proof. destruct i as [|[|i]]; [by intros [= <-]|by intros [= <-]|done]. Qed.
Lemma toy_qualities_i32 : Forall (fun q => - 2 ^ 31 <= q < 2 ^ 31) toy_qualities.
Proof. repeat constructor; vm_compute; (reflexivity || discriminate). Qed.
Lemma toy_root_Ok : merkle_root toy_hash32 toy_package_leaves = Ok toy_root.
Proof. vm_compute. reflexivity. Qed.
Lemma toy_archive_small : Z.of_nat (length toy_archive) + 1 < 2 ^ 64.
Proof. vm_compute. reflexivity. Qed.
Lemma toy_accepted_doc : dp_docs toy_depot !! DAcceptance "p1" = Some toy_acceptance.
Proof. reflexivity. Qed.
Lemma toy_object_there : dp_objects toy_depot !! "accepted/k" = Some toy_object.
Proof. reflexivity. Qed.
Lemma toy_count : Z.of_nat (length toy_records) * 4 < 2 ^ 64.
Proof. reflexivity. Qed.
Example member_package_loads_witness : exists pkg, toy_load = Ok pkg /\ ap_benchmark_id pkg = "b1" /\ ap_num_nonces pkg = 2 /\
  ap_qualities pkg = toy_qualities /\ ap_records pkg = toy_records /\ ap_leaves pkg = toy_package_leaves /\ ap_root_hex pkg = hex toy_root /\ ap_manifest pkg = toy_manifest.
Proof.
  exact (member_package_loads toy_hash32 toy_hash32 toy_text toy_from toy_unpack toy_members toy_tar toy_pack toy_identity toy_qualities toy_records 3 toy_depot "p1" "a1" "b1" "accepted/k" "application/zstd" "ms" "t" "/pool" JNull "s1" 1 toy_root
    toy_tar_reads_back toy_zstd_reads_back toy_hash32_bytes toy_manifest_prints toy_records_print toy_records_nonces eq_refl toy_qualities_i32 toy_count toy_archive_small toy_root_Ok eq_refl eq_refl toy_accepted_doc toy_object_there (fun _ => eq_refl)).
Defined.
Definition toy_package : AcceptedPackage :=
  MkPackage "p1" "b1" (Merkle.sha256_hex toy_hash32 toy_object) "accepted/k" toy_acceptance toy_manifest 2 toy_qualities toy_records toy_package_leaves (hex toy_root).
Lemma toy_package_loads : toy_load = Ok toy_package.
Proof. vm_compute. reflexivity. Qed.
Abbreviation toy_answer := (build_proof_payload toy_hash32 toy_package).
Lemma toy_sample_ok : [1; 0] <> [] /\ NoDup [1; 0] /\ Forall (in_range 2) [1; 0].
Proof. split_and!; [done|apply (bool_decide_unpack _); reflexivity|]. unfold in_range. repeat constructor; lia. Qed.
Example accepted_package_answers_every_sample_witness : is_Ok (toy_answer [1; 0]) = true /\ is_Ok (toy_answer [1; 1]) = false.
Proof.
  split; [|reflexivity].
  exact (proj2 (proj1 (accepted_package_answers_every_sample toy_hash32 toy_hash32 toy_text toy_from toy_unpack toy_members toy_depot "p1" toy_package [1; 0]
    toy_package_loads ltac:(discriminate) ltac:(repeat constructor; discriminate))) toy_sample_ok).
Defined.
Definition toy_bench (s : option BenchmarkSubmission) : Bench :=
  MkBench "b1" JNull "c001" 2 1 7 JNull "CPU" "0" "rh" 5 (Some 6) s None None None None None false false.
Definition toy_world (s : option BenchmarkSubmission) : World :=
  MkFakeWorld (MkSettings "key" 1 None) (MkFixture JNull JNull JNull JNull JNull JNull) 8 0 0 60 10 2 [("b1", toy_bench s)] ∅ ∅.
Definition toy_committed : BenchmarkSubmission := MkBenchSubmission false (Some (hex toy_root)) (Some toy_qualities) 6 (Some 7) (Some [0; 1]).
Lemma toy_published : [0; 1] <> [] /\ NoDup [0; 1] /\ Forall (in_range 2) [0; 1].
Proof. split_and!; [done|apply (bool_decide_unpack _); reflexivity|]. unfold in_range. repeat constructor; lia. Qed.
Example accepted_work_is_taken_witness :
  (exists body s w', commitment_body toy_package = Ok body /\ apply_benchmark body (toy_world None) = Ok (json_object [("ok", JBool true)], w') /\
     bt_get "b1" (fw_benchmarks w') = Some (with_submission s (toy_bench None)) /\ bs_stopped s = false /\ bs_root s = Some (hex toy_root) /\ bs_quality s = Some toy_qualities) /\
  exists payload p w', toy_answer [0; 1] = Ok payload /\ apply_proof payload (toy_world (Some toy_committed)) = Ok (json_object [("ok", JBool true); ("verified", JBool true)], w') /\
     bt_get "b1" (fw_benchmarks w') = Some (with_proof p (toy_bench (Some toy_committed))).
Proof.
  split.
  - exact (proj1 (accepted_work_is_taken toy_hash32 toy_hash32 toy_text toy_from toy_unpack toy_members toy_depot "p1" toy_package (toy_world None) (toy_bench None)
      toy_reads_bytes toy_hash32_bytes toy_package_loads eq_refl eq_refl eq_refl) ltac:(by eexists) eq_refl).
  - exact (proj2 (accepted_work_is_taken toy_hash32 toy_hash32 toy_text toy_from toy_unpack toy_members toy_depot "p1" toy_package (toy_world (Some toy_committed)) (toy_bench (Some toy_committed))
      toy_reads_bytes toy_hash32_bytes toy_package_loads eq_refl eq_refl eq_refl) toy_committed [0; 1] eq_refl eq_refl ltac:(by eexists) eq_refl eq_refl
      (proj1 toy_published) (proj1 (proj2 toy_published)) (proj2 (proj2 toy_published))).
Defined.
Definition toy_block (ids : list string) : Value := json_object [("id", JString "block_9"); ("data", json_object [("active_ids", json_object [("benchmark", JArray (map JString ids))])])].
Example retention_deletes_the_active_only_witness :
  is_Ok (apply_retention "p1" (toy_block []) 0 toy_depot).1 = false /\ dp_objects (apply_retention "p1" (toy_block ["b1"]) 0 toy_depot).2 = ∅ /\
  dp_chunks (apply_retention "p1" (toy_block ["b1"]) 0 toy_depot).2 = dp_chunks toy_depot.
Proof.
  split; [reflexivity|]. split; [vm_compute; reflexivity|].
  apply (retention_deletes_the_active_only "p1" (toy_block ["b1"]) 0 toy_depot _ _ (surjective_pairing _)).
Defined.
