(* ===== verification/SpikeGateway.v ===== *)
(** * The prototype's gateway: [crates/spike/src/lib.rs]

    The writes of the protocol spike: durable intents and attempts in append-only
    ledgers, the requests to TIG, and their reconciliation from confirmed reads.

    A ledger is a file of JSON lines.  It is kept as its pieces, a piece being a
    record that can be read or a text that cannot, and whether the last piece
    lacks its line feed: what is appended next is then glued to it, and two
    objects on one line, or a cut one, are not JSON.  An append can fail before
    it writes, be cut short, lack the line feed, or take effect and report an
    error.  The replies of TIG are arguments; the requests that left are kept in
    the state.  SHA-256 and the JSON printer are parameters.  The status lines
    are cases rather than texts, and the counting of calls is left out. *)
From stdpp Require Import pretty.
From S2P Require Import Prelude Text BTreeMap Json Domain Merkle FakeTig.
Open Scope Z_scope.

(** ** The ledgers *)

Record JFile := MkJFile { jf_pieces : list (option Value); jf_open : bool }.
Definition no_file : JFile := MkJFile [] false.
Inductive WriteFault := WDone | WFailed | WCut | WOpen | WReported.
Record GwState := MkGw { gs_files : gmap string JFile; gs_docs : gmap string (option Value); gs_sent : list (string * Value); gs_faults : list WriteFault }.
Definition with_files (m : gmap string JFile) (s : GwState) : GwState := MkGw m (gs_docs s) (gs_sent s) (gs_faults s).
Definition with_gdocs (m : gmap string (option Value)) (s : GwState) : GwState := MkGw (gs_files s) m (gs_sent s) (gs_faults s).
Definition with_sent (l : list (string * Value)) (s : GwState) : GwState := MkGw (gs_files s) (gs_docs s) l (gs_faults s).
Definition take_wfault (s : GwState) : WriteFault * GwState :=
  match gs_faults s with [] => (WDone, s) | f :: rest => (f, MkGw (gs_files s) (gs_docs s) (gs_sent s) rest) end.

Inductive GwError :=
| LedgerIo | CorruptLedger | CorruptDoc | LaneBusy (intent_id : string) | ReconcileFirst (intent_id : string) | OtherWrite (intent_id : string)
| MissingField (key : string) | Refused4 (why : string) | Refused5 (why : string) | ReadFailed | UnknownKind (kind : string)
| NotActiveChallenge | UnknownChallenge | BadChallenge (why : string).
Definition G (A : Type) : Type := GwState -> result GwError A * GwState.
Definition gret {A} (a : A) : G A := fun s => (Ok a, s).
Definition gfail {A} (e : GwError) : G A := fun s => (Err e, s).
Definition glift {A} (r : result GwError A) : G A := fun s => (r, s).
Definition gbind {A B} (m : G A) (k : A -> G B) : G B := fun s => match m s with (Ok a, s') => k a s' | (Err e, s') => (Err e, s') end.
Notation "'let^' x ':=' m 'in' k" := (gbind m (fun x => k))
  (at level 10, x pattern, m at level 200, k at level 200, format "'[v' 'let^'  x  ':='  m  'in' '/' k ']'") : pool_scope.
Definition gwhen (b : bool) (e : GwError) : G unit := fun s => (if b then Err e else Ok tt, s).
(** [for x in l { .. }] with a value each. *)
Fixpoint geach {A B} (f : A -> G B) (l : list A) : G (list B) :=
  match l with [] => gret [] | x :: l' => let^ y := f x in let^ ys := geach f l' in gret (y :: ys) end.

Definition file_of (name : string) (s : GwState) : JFile := default no_file (gs_files s !! name).
Definition extend (piece : option Value) (open : bool) (f : JFile) : JFile :=
  if jf_open f then MkJFile (removelast (jf_pieces f) ++ [None]) open else MkJFile (jf_pieces f ++ [piece]) open.
Definition append (name : string) (record : Value) : G unit := fun s =>
  let (f, s) := take_wfault s in
  let put piece open := with_files (<[name := extend piece open (file_of name s)]> (gs_files s)) s in
  match f with
  | WDone => (Ok tt, put (Some record) false)
  | WFailed => (Err LedgerIo, s)
  | WCut => (Err LedgerIo, put None true)
  | WOpen => (Err LedgerIo, put (Some record) true)
  | WReported => (Err LedgerIo, put (Some record) false)
  end.
Definition records (f : JFile) : option (list Value) := mapM id (jf_pieces f).
Definition read_all (name : string) : G (list Value) := fun s => (ok_or (records (file_of name s)) CorruptLedger, s).
(** [File::create] truncates: a write that is cut short leaves no document. *)
Definition write_doc (name : string) (doc : Value) : G unit := fun s =>
  let (f, s) := take_wfault s in
  match f with
  | WDone => (Ok tt, with_gdocs (<[name := Some doc]> (gs_docs s)) s)
  | WFailed => (Err LedgerIo, s)
  | WCut => (Err LedgerIo, with_gdocs (<[name := None]> (gs_docs s)) s)
  | WOpen | WReported => (Err LedgerIo, with_gdocs (<[name := Some doc]> (gs_docs s)) s)
  end.
Definition read_doc (name : string) : G (option Value) := fun s =>
  (match gs_docs s !! name with None => Ok None | Some (Some v) => Ok (Some v) | Some None => Err CorruptDoc end, s).

Definition str_field (k : string) (v : Value) : option string := and_then (json_get k v) json_as_str.
Definition fold_intents (rs : list Value) : btree Value :=
  fold_left (fun out r => match str_field "intent_id" r with Some id => bt_insert id r out | None => out end) rs [].
Definition is_unresolved (state : string) : bool := String.eqb state "PENDING" || String.eqb state "SUBMITTED" || String.eqb state "OUTCOME_UNKNOWN".
Definition state_of (rec : Value) : string := default "" (str_field "state" rec).
Record WriteResult := MkWrite { wr_intent_id : string; wr_sent : bool; wr_state : string }.

Section gateway.
Context (sha256 : list Z -> list Z) (to_string : Value -> string) (from_str : string -> option Value).

(** ** The client *)

(** What a GET came to: no response, a body that is not JSON, or a status and a body. *)
Inductive GetReply := GetFailed | GetNotJson | GetGot (status : Z) (body : Value).
Definition is_success (status : Z) : bool := (200 <=? status) && (status <? 300).
Definition client_get (reply : GetReply) : result GwError Value :=
  match reply with GetGot status body => if is_success status then Ok body else Err ReadFailed | _ => Err ReadFailed end.
Definition latest_block (reply : GetReply) : result GwError Value :=
  let? v := client_get reply in ok_or (json_get "block" v) (MissingField "block").
Definition challenges (reply : GetReply) : result GwError (list Value) :=
  let? v := client_get reply in ok_or (and_then (json_get "challenges" v) json_as_array) (MissingField "challenges").
Definition benchmarks (reply : GetReply) : result GwError Value := client_get reply.
(** What a POST came to: an error of the transport, or a status and a text. *)
Definition PostReply : Type := result string (Z * string).
Definition outcome_of (reply : PostReply) : result string (Z * Value) :=
  match reply with Ok (status, text) => Ok (status, default (JString text) (from_str text)) | Err e => Err e end.
Definition post_write (path : string) (body : Value) (reply : PostReply) : G (result string (Z * Value)) := fun s =>
  (Ok (outcome_of reply), with_sent (gs_sent s ++ [(path, body)]) s).

(** ** Planning a precommit *)

Record PrecommitPlan := MkPlan { pp_body : Value; pp_fee_by_track : list (string * Z * Z); pp_max_per_bundle : Z; pp_max_per_nonce : Z }.
Definition precise (v : Value) (key : string) : Z := default 0 (and_then (and_then (json_get key v) json_as_str) (parse_unsigned u128_max)).
Definition plan_track (cfg : Value) (track : string * Value) : (string * Value) * (string * Z * Z) :=
  let per_bundle := u64_or 0 "num_nonces_per_bundle" track.2 in
  let num_bundles := Z.max (u64_or 1 "min_num_bundles" cfg) 1 in
  let num_nonces := wrap64 (num_bundles * per_bundle) in
  let fee n := wrap128 (precise cfg "base_fee" + wrap128 (precise cfg "per_nonce_fee" * n)) in
  ((track.1, json_object [("hyperparameters", JNull); ("fuel_budget", json_u64 (u64_or 0 "max_fuel_budget" cfg)); ("num_bundles", json_u64 num_bundles)]),
   (track.1, fee num_bundles, fee num_nonces)).
Definition plan_precommit (block : Value) (challenges : list Value) (player_id challenge_id algorithm_id compute_type : string) : result GwError PrecommitPlan :=
  let? block_id := ok_or (str_field "id" block) (MissingField "id") in
  let active := match and_then (json_path ["data"; "active_ids"; "challenge"] block) json_as_array with Some a => omap json_as_str a | None => [] end in
  if negb (bool_decide (challenge_id ∈ active)) then Err NotActiveChallenge
  else
    let? ch := ok_or (List.find (fun c => bool_decide (str_field "id" c = Some challenge_id)) challenges) UnknownChallenge in
    let? cfg := ok_or (json_get "config" ch) (BadChallenge "config") in
    let? tracks := ok_or (and_then (json_get "active_tracks" cfg) json_as_object) (BadChallenge "active_tracks") in
    let planned := map (plan_track cfg) tracks in
    let fees := map snd planned in
    Ok (MkPlan
      (json_object
        [("settings", json_object [("player_id", JString player_id); ("block_id", JString block_id); ("challenge_id", JString challenge_id);
                                   ("algorithm_id", JString algorithm_id); ("track_id", JString "")]);
         ("track_settings", JObject (bt_collect (map fst planned))); ("compute_type", JString compute_type)])
      fees (default 0 (max_list (map (fun f => f.1.2) fees))) (default 0 (max_list (map snd fees)))).

Definition payload_hash (body : Value) : string := hex (sha256 (as_bytes (to_string body))).
Definition first16 (hash : string) : string := String.substring 0 16 hash.

(** ** The precommit lane *)

Definition lane_busy (intents : btree Value) : option string := fst <$> List.find (fun kv => is_unresolved (state_of kv.2)) intents.
Definition assert_lane_free : G unit :=
  let^ rs := read_all "intents" in
  match lane_busy (fold_intents rs) with Some id => gfail (LaneBusy id) | None => gret tt end.
Definition fee_json (f : string * Z * Z) : Value :=
  json_object [("track", JString f.1.1); ("fee_per_bundle_basis", JString (u64_text f.1.2)); ("fee_per_nonce_basis", JString (u64_text f.2))].
Definition precommit_id (plan : PrecommitPlan) : string := String.append "intent_" (first16 (payload_hash (pp_body plan))).
Definition precommit_pending (plan : PrecommitPlan) : Value :=
  json_object
    [("intent_id", JString (precommit_id plan)); ("write_kind", JString "PRECOMMIT"); ("state", JString "PENDING"); ("payload_sha256", JString (payload_hash (pp_body plan)));
     ("payload", pp_body plan); ("fee_by_track", JArray (map fee_json (pp_fee_by_track plan)));
     ("max_collateral_per_bundle_basis", JString (u64_text (pp_max_per_bundle plan))); ("max_collateral_per_nonce_basis", JString (u64_text (pp_max_per_nonce plan)))].
Definition attempt_json (intent_id endpoint hash : string) : Value :=
  json_object [("intent_id", JString intent_id); ("phase", JString "attempt"); ("endpoint", JString endpoint); ("payload_sha256", JString hash)].
Definition response_json (intent_id : string) (outcome : result string (Z * Value)) : Value :=
  match outcome with
  | Ok (status, body) => json_object [("intent_id", JString intent_id); ("phase", JString "response"); ("http_status", json_u64 status); ("body", body)]
  | Err e => json_object [("intent_id", JString intent_id); ("phase", JString "response"); ("transport_error", JString e)]
  end.
Definition precommit_after (plan : PrecommitPlan) (outcome : result string (Z * Value)) : Value :=
  let hash := payload_hash (pp_body plan) in
  match outcome with
  | Ok (status, body) =>
      if is_success status then
        json_object [("intent_id", JString (precommit_id plan)); ("write_kind", JString "PRECOMMIT"); ("state", JString "SUBMITTED");
                     ("benchmark_id", match str_field "benchmark_id" body with Some b => JString b | None => JNull end);
                     ("payload_sha256", JString hash); ("payload", pp_body plan)]
      else
        json_object [("intent_id", JString (precommit_id plan)); ("write_kind", JString "PRECOMMIT"); ("state", JString (if 500 <=? status then "OUTCOME_UNKNOWN" else "FAILED"));
                     ("http_status", json_u64 status); ("payload_sha256", JString hash); ("payload", pp_body plan)]
  | Err _ =>
      json_object [("intent_id", JString (precommit_id plan)); ("write_kind", JString "PRECOMMIT"); ("state", JString "OUTCOME_UNKNOWN");
                   ("payload_sha256", JString hash); ("payload", pp_body plan)]
  end.
Definition submit_precommit (plan : PrecommitPlan) (reply : PostReply) : G string :=
  let^ _ := assert_lane_free in
  let intent_id := precommit_id plan in
  let^ _ := append "intents" (precommit_pending plan) in
  let^ _ := append "attempts" (attempt_json intent_id "submit-precommit" (payload_hash (pp_body plan))) in
  let^ outcome := post_write "submit-precommit" (pp_body plan) reply in
  let^ _ := append "attempts" (response_json intent_id outcome) in
  let^ _ := append "intents" (precommit_after plan outcome) in
  gret intent_id.

(** ** Benchmark and proof writes *)

Definition other_unresolved (intents : btree Value) (benchmark_id exclude : string) : option string :=
  fst <$> List.find (fun kv => negb (String.eqb kv.1 exclude) && bool_decide (str_field "benchmark_id" kv.2 = Some benchmark_id) && is_unresolved (state_of kv.2)) intents.
Definition unresolved_for_benchmark (benchmark_id exclude : string) : G (option string) :=
  let^ rs := read_all "intents" in gret (other_unresolved (fold_intents rs) benchmark_id exclude).
Definition lifecycle_id (write_kind : string) (body : Value) : string :=
  String.concat "_" ["intent"; to_ascii_lowercase write_kind; first16 (payload_hash body)].
Definition confirmed_name (write_kind benchmark_id : string) : string := String.concat "" [to_ascii_lowercase write_kind; "-confirmed-"; benchmark_id; ".json"].
Definition lifecycle_json (intent_id write_kind state benchmark_id hash : string) (evidence : Value) : Value :=
  json_object [("intent_id", JString intent_id); ("write_kind", JString write_kind); ("state", JString state); ("benchmark_id", JString benchmark_id);
               ("payload_sha256", JString hash); ("evidence", evidence)].
Definition append_presend_records (intent_id write_kind endpoint benchmark_id hash : string) (evidence : Value) : G unit :=
  let^ _ := append "intents" (lifecycle_json intent_id write_kind "PENDING" benchmark_id hash evidence) in
  append "attempts" (attempt_json intent_id endpoint hash).
Definition outcome_state (outcome : result string (Z * Value)) : string :=
  match outcome with
  | Ok (status, _) => if is_success status then "SUBMITTED" else if 500 <=? status then "OUTCOME_UNKNOWN" else "FAILED"
  | Err _ => "OUTCOME_UNKNOWN"
  end.
Definition suppressed_json (intent_id write_kind benchmark_id hash : string) : Value :=
  json_object [("intent_id", JString intent_id); ("write_kind", JString write_kind); ("state", JString "CONFIRMED"); ("benchmark_id", JString benchmark_id);
               ("payload_sha256", JString hash); ("note", JString "confirmed entry already observed from confirmed reads; write suppressed")].
Definition submit_lifecycle_write (write_kind endpoint benchmark_id : string) (body evidence : Value) (reply : PostReply) : G WriteResult :=
  let hash := payload_hash body in
  let intent_id := lifecycle_id write_kind body in
  let^ rs := read_all "intents" in
  let known := state_of <$> bt_get intent_id (fold_intents rs) in
  if bool_decide (known = Some "CONFIRMED") then gret (MkWrite intent_id false "CONFIRMED")
  else
    let^ _ := gwhen (match known with Some st => is_unresolved st | None => false end) (ReconcileFirst intent_id) in
    let^ doc := read_doc (confirmed_name write_kind benchmark_id) in
    match doc with
    | Some _ =>
        let^ _ := append "intents" (suppressed_json intent_id write_kind benchmark_id hash) in
        gret (MkWrite intent_id false "CONFIRMED")
    | None =>
        let^ other := unresolved_for_benchmark benchmark_id intent_id in
        match other with
        | Some id => gfail (OtherWrite id)
        | None =>
            let^ _ := append_presend_records intent_id write_kind endpoint benchmark_id hash evidence in
            let^ outcome := post_write endpoint body reply in
            let^ _ := append "attempts" (response_json intent_id outcome) in
            let^ _ := append "intents" (lifecycle_json intent_id write_kind (outcome_state outcome) benchmark_id hash evidence) in
            gret (MkWrite intent_id true (outcome_state outcome))
        end
    end.
Definition simulate_crash_before_send (write_kind endpoint benchmark_id : string) (body evidence : Value) : G string :=
  let intent_id := lifecycle_id write_kind body in
  let^ _ := append_presend_records intent_id write_kind endpoint benchmark_id (payload_hash body) evidence in
  gret intent_id.
Definition submit_benchmark_stopped (benchmark_id : string) (stop_evidence : Value) (reply : PostReply) : G WriteResult :=
  submit_lifecycle_write "BENCHMARK" "submit-benchmark" benchmark_id
    (json_object [("benchmark_id", JString benchmark_id); ("stopped", JBool true); ("merkle_root", JNull); ("solution_quality", JNull)])
    (json_object [("stopped", JBool true); ("stop_decision", stop_evidence)]) reply.
Definition submit_benchmark_commitment (acceptance body : Value) (reply : PostReply) : G WriteResult :=
  let^ benchmark_id := glift (ok_or (str_field "benchmark_id" body) (MissingField "benchmark_id")) in
  let^ receipt := glift (ok_or (json_get "receipt" acceptance) (Refused4 "no receipt")) in
  let^ _ := gwhen (negb (bool_decide (str_field "assignment_state" acceptance = Some "PACKAGE_DURABLY_ACCEPTED"))) (Refused4 "not accepted") in
  let^ _ := gwhen (negb (bool_decide (str_field "benchmark_id" receipt = Some benchmark_id))) (Refused4 "other benchmark") in
  let^ package_sha256 := glift (ok_or (str_field "package_sha256" receipt) (MissingField "package_sha256")) in
  let field k := default JNull (json_get k receipt) in
  submit_lifecycle_write "BENCHMARK" "submit-benchmark" benchmark_id body
    (json_object [("durable_acceptance", json_object [("receipt_id", field "receipt_id"); ("package_id", field "package_id");
                                                      ("package_sha256", JString package_sha256); ("accepted_at", field "accepted_at")])]) reply.
Definition payload_name (benchmark_id : string) : string := String.concat "" ["proof-payload-"; benchmark_id; ".json"].
Definition submit_proof (benchmark_id : string) (reply : PostReply) : G WriteResult :=
  let^ payload := read_doc (payload_name benchmark_id) in
  let^ payload := glift (ok_or payload (Refused5 "no payload")) in
  let^ _ := gwhen (negb (bool_decide (str_field "benchmark_id" payload = Some benchmark_id))) (Refused5 "other benchmark") in
  let n := match and_then (json_get "merkle_proofs" payload) json_as_array with Some l => length l | None => 0%nat end in
  let^ _ := gwhen (Nat.eqb n 0) (Refused5 "no proofs") in
  submit_lifecycle_write "PROOF" "submit-proof" benchmark_id payload
    (json_object [("proof_payload_doc", JString (payload_name benchmark_id)); ("num_proofs", json_u64 (Z.of_nat n))]) reply.

(** ** Reconciliation *)

Inductive Status :=
| IsTerminal | NotCovered | LeftForReconcile | NoBenchmarkId | SeenByTig | MarkedFailed
| NotVisible | NotConfirmed | Confirmed (benchmark_id : string) (height : Z) | ManyEntries (n : nat).
(** Where TIG lists what a write of the kind makes. *)
Definition section_of (write_kind : string) : option (string * string) :=
  if String.eqb write_kind "BENCHMARK" then Some ("benchmarks", "id") else if String.eqb write_kind "PROOF" then Some ("proofs", "benchmark_id") else None.
Definition listed (benches : Value) (section id_key benchmark_id : string) : option Value :=
  and_then (and_then (json_get section benches) json_as_array) (List.find (fun e => bool_decide (str_field id_key e = Some benchmark_id))).
Definition has_response (attempts : list Value) (intent_id : string) : bool :=
  existsb (fun a => bool_decide (str_field "intent_id" a = Some intent_id) && bool_decide (str_field "phase" a = Some "response")) attempts.
Definition unsent_json (intent_id write_kind benchmark_id : string) : Value :=
  json_object [("intent_id", JString intent_id); ("write_kind", JString write_kind); ("state", JString "FAILED"); ("benchmark_id", JString benchmark_id);
               ("note", JString "restart recovery: intent persisted, no send response recorded, no server-side entry — nothing was applied; the lane may resend the identical payload once (tig_integration.md §10 step 7)")].
Definition recover_one (benches : Value) (attempts : list Value) (kv : string * Value) : G Status :=
  let (intent_id, rec) := kv in
  let write_kind := default "" (str_field "write_kind" rec) in
  match section_of write_kind with
  | None => gret NotCovered
  | Some (section, id_key) =>
      if has_response attempts intent_id then gret LeftForReconcile
      else match str_field "benchmark_id" rec with
           | None => gret NoBenchmarkId
           | Some benchmark_id =>
               match listed benches section id_key benchmark_id with
               | Some _ => gret SeenByTig
               | None => let^ _ := append "intents" (unsent_json intent_id write_kind benchmark_id) in gret MarkedFailed
               end
           end
  end.
Definition recover_unsent_intents (block_reply benches_reply : GetReply) : G (list Status) :=
  let^ block := glift (latest_block block_reply) in
  let^ _ := glift (ok_or (str_field "id" block) (MissingField "id")) in
  let^ benches := glift (benchmarks benches_reply) in
  let^ attempts := read_all "attempts" in
  let^ rs := read_all "intents" in
  geach (recover_one benches attempts) (List.filter (fun kv => is_unresolved (state_of kv.2)) (fold_intents rs)).

Definition block_confirmed_of (entry : Value) : option Z := and_then (json_path ["state"; "block_confirmed"] entry) json_as_u64.
Definition json_or_null (o : option Value) : Value := default JNull o.
Definition confirmed_json (intent_id write_kind benchmark_id : string) (height : Z) : Value :=
  json_object [("intent_id", JString intent_id); ("write_kind", JString write_kind); ("state", JString "CONFIRMED"); ("benchmark_id", JString benchmark_id);
               ("confirmed_at_block", json_u64 height)].
Definition reconcile_lifecycle_intent (intent_id write_kind : string) (rec benches : Value) (block_id : string) (block_height : Z) : G Status :=
  let^ benchmark_id := glift (ok_or (str_field "benchmark_id" rec) (MissingField "benchmark_id")) in
  match section_of write_kind with
  | None => gfail (UnknownKind write_kind)
  | Some (section, id_key) =>
      match listed benches section id_key benchmark_id with
      | None => gret NotVisible
      | Some entry =>
          match block_confirmed_of entry with
          | None => gret NotConfirmed
          | Some height =>
              let^ _ := write_doc (confirmed_name write_kind benchmark_id)
                          (json_object [("benchmark_id", JString benchmark_id); ("intent_id", JString intent_id); ("confirmed_at_block", json_u64 height); ("entry", entry);
                                        ("observed_via", json_object [("block_id", JString block_id); ("block_height", json_u64 block_height)])]) in
              let^ _ := append "intents" (confirmed_json intent_id write_kind benchmark_id height) in
              gret (Confirmed benchmark_id height)
          end
      end
  end.
(** The precommit an entry of TIG could be: by its id where it is known, by the
    settings where the response was lost. *)
Definition precommit_match (rec p : Value) : bool :=
  match str_field "benchmark_id" rec with
  | Some id => bool_decide (str_field "benchmark_id" p = Some id)
  | None =>
      let wanted := json_or_null (json_path ["payload"; "settings"] rec) in
      let s := json_get "settings" p in
      forallb (fun k => bool_decide (and_then s (json_get k) = json_get k wanted)) ["player_id"; "challenge_id"; "algorithm_id"; "block_id"]
  end.
Definition assignment_name (benchmark_id : string) : string := String.concat "" ["assignment-"; benchmark_id; ".json"].
Definition reconcile_one (benches : Value) (block_id : string) (block_height : Z) (kv : string * Value) : G Status :=
  let (intent_id, rec) := kv in
  if negb (is_unresolved (state_of rec)) then gret IsTerminal
  else
    let write_kind := default "PRECOMMIT" (str_field "write_kind" rec) in
    if negb (String.eqb write_kind "PRECOMMIT") then reconcile_lifecycle_intent intent_id write_kind rec benches block_id block_height
    else
      let precommits := default [] (and_then (json_get "precommits" benches) json_as_array) in
      match List.filter (precommit_match rec) precommits with
      | [p] =>
          match block_confirmed_of p with
          | Some height =>
              let benchmark_id := default "?" (str_field "benchmark_id" p) in
              let^ _ := write_doc (assignment_name benchmark_id)
                          (json_object [("benchmark_id", JString benchmark_id); ("intent_id", JString intent_id); ("confirmed_at_block", json_u64 height);
                                        ("settings", json_or_null (json_get "settings" p)); ("details", json_or_null (json_get "details" p));
                                        ("observed_via", json_object [("block_id", JString block_id)])]) in
              let^ _ := append "intents" (confirmed_json intent_id "PRECOMMIT" benchmark_id height) in
              gret (Confirmed benchmark_id height)
          | None => gret NotConfirmed
          end
      | [] => gret NotVisible
      | many => gret (ManyEntries (length many))
      end.
Definition reconcile (block_reply benches_reply : GetReply) : G (list Status) :=
  let^ block := glift (latest_block block_reply) in
  let^ block_id := glift (ok_or (str_field "id" block) (MissingField "id")) in
  let block_height := default 0 (and_then (json_path ["details"; "height"] block) json_as_u64) in
  let^ benches := glift (benchmarks benches_reply) in
  let^ rs := read_all "intents" in
  geach (reconcile_one benches block_id block_height) (fold_intents rs).

(** ** The operations *)

Inductive GwOp :=
| OpPrecommit (plan : PrecommitPlan) (reply : PostReply)
| OpStopped (benchmark_id : string) (stop_evidence : Value) (reply : PostReply)
| OpCommitment (acceptance body : Value) (reply : PostReply)
| OpProof (benchmark_id : string) (reply : PostReply)
| OpRecover (block benches : GetReply)
| OpReconcile (block benches : GetReply)
(** The controller's payload, written by [spike_active]. *)
| OpPayload (benchmark_id : string) (payload : Value).
Definition left {A} (m : G A) (s : GwState) : GwState := (m s).2.
Definition run_gw (op : GwOp) : GwState -> GwState :=
  match op with
  | OpPrecommit plan reply => left (submit_precommit plan reply)
  | OpStopped b e reply => left (submit_benchmark_stopped b e reply)
  | OpCommitment a body reply => left (submit_benchmark_commitment a body reply)
  | OpProof b reply => left (submit_proof b reply)
  | OpRecover block benches => left (recover_unsent_intents block benches)
  | OpReconcile block benches => left (reconcile block benches)
  | OpPayload b v => left (write_doc (payload_name b) v)
  end.
Definition with_wfaults (fs : list WriteFault) (s : GwState) : GwState := MkGw (gs_files s) (gs_docs s) (gs_sent s) fs.
Definition gw_empty : GwState := MkGw ∅ ∅ [] [].
(** An operation, with what becomes of each of its writes. *)
Inductive spike_step (s : GwState) : GwState -> Prop :=
| spike_op op fs : spike_step s (run_gw op (with_wfaults fs s)).

(** ** What a program does to the intent ledger

    It appends a prefix of [vs] -- all of it where it succeeds -- and sends the
    requests of [posts] in their order, each after so many of the records.  A
    record that says CONFIRMED has its document. *)

Definition intents (s : GwState) : option (list Value) := records (file_of "intents" s).
Definition kind_of (rec : Value) : string := default "PRECOMMIT" (str_field "write_kind" rec).
Definition document_of (rec : Value) : string :=
  let b := default "" (str_field "benchmark_id" rec) in
  if String.eqb (kind_of rec) "PRECOMMIT" then assignment_name b else confirmed_name (kind_of rec) b.
Definition backed (s : GwState) (rec : Value) : Prop := state_of rec = "CONFIRMED" -> is_Some (gs_docs s !! document_of rec).
Definition docs_kept (s s' : GwState) : Prop := forall n, is_Some (gs_docs s !! n) -> is_Some (gs_docs s' !! n).
Definition effect {A} (m : G A) (s : GwState) (vs : list Value) (posts : list (nat * (string * Value))) : Prop :=
  docs_kept s (m s).2 /\ exists j, (j <= length posts)%nat /\ gs_sent (m s).2 = gs_sent s ++ map snd (take j posts) /\ (is_Ok (m s).1 = true -> j = length posts) /\
  forall rs', intents (m s).2 = Some rs' -> exists rs k, (k <= length vs)%nat /\ intents s = Some rs /\ rs' = rs ++ take k vs /\ (is_Ok (m s).1 = true -> k = length vs) /\
    Forall (fun p => p.1 <= k)%nat (take j posts) /\ Forall (backed (m s).2) (take k vs).
Lemma docs_kept_refl s : docs_kept s s.
Proof. by intros n. Qed.
Lemma docs_kept_trans s1 s2 s3 : docs_kept s1 s2 -> docs_kept s2 s3 -> docs_kept s1 s3.
Proof. intros H1 H2 n Hn. by apply H2, H1. Qed.
Lemma backed_kept s s' rec : docs_kept s s' -> backed s rec -> backed s' rec.
Proof. intros Hd Hb Hc. by apply Hd, Hb. Qed.
(** A program that leaves ledgers, documents and requests alone. *)
Lemma effect_quiet {A} (m : G A) s : intents (m s).2 = intents s -> gs_sent (m s).2 = gs_sent s -> docs_kept s (m s).2 -> effect m s [] [].
Proof.
  intros Hi Hs Hd. split; [done|]. exists 0%nat. split; [done|]. split; [by rewrite Hs, app_nil_r|]. split; [done|]. intros rs' Hr. exists rs', 0%nat. rewrite <- Hi, app_nil_r. by split_and!.
Qed.
Lemma effect_bind {A B} (m : G A) (k : A -> G B) s vs1 vs2 posts1 posts2 :
  effect m s vs1 posts1 -> (forall a s1, m s = (Ok a, s1) -> effect (k a) s1 vs2 posts2) ->
  effect (gbind m k) s (vs1 ++ vs2) (posts1 ++ map (fun p => (length vs1 + p.1, p.2)%nat) posts2).
Proof.
  intros (Hd & j & Hjl & Hs & Hj & Hr) Hk. unfold effect, gbind in *. destruct (m s) as [[a|e] s1] eqn:E; cbn [fst snd] in *.
  - specialize (Hj eq_refl) as ->. destruct (Hk a s1 eq_refl) as (Hd2 & j2 & Hjl2 & Hs2 & Hj2 & Hr2). split; [by eapply docs_kept_trans|].
    exists (length posts1 + j2)%nat. rewrite take_app_add, firstn_map, length_app, length_map. rewrite take_ge in Hs, Hr by lia. split_and!.
    + lia.
    + by rewrite Hs2, Hs, map_app, <- app_assoc, map_map.
    + intros Ho. by rewrite (Hj2 Ho).
    + intros rs' Hrs'. destruct (Hr2 _ Hrs') as (rs1 & k2 & Hkl2 & Hi1 & -> & Hk2 & Hp2 & Hb2). destruct (Hr _ Hi1) as (rs & k1 & Hkl1 & Hi & -> & Hk1 & Hp1 & Hb1).
      specialize (Hk1 eq_refl) as ->. exists rs, (length vs1 + k2)%nat. rewrite take_app_add, length_app. rewrite take_ge in * by lia. split_and!.
      * lia.
      * done.
      * by rewrite <- app_assoc.
      * intros Ho. by rewrite (Hk2 Ho).
      * apply Forall_app. split; [eapply Forall_impl; [exact Hp1|]; simpl; lia|]. apply Forall_map. eapply Forall_impl; [exact Hp2|]. simpl. lia.
      * apply Forall_app. split; [|done]. eapply Forall_impl; [exact Hb1|]. intros r. by apply backed_kept.
  - split; [done|]. exists j. rewrite take_app_le, length_app by lia. split_and!; [lia|done|done|].
    intros rs' Hrs'. destruct (Hr _ Hrs') as (rs & k1 & Hkl & Hi & -> & _ & Hp1 & Hb1). exists rs, k1. rewrite take_app_le, length_app by lia. split_and!; [lia|done..].
Qed.
(** What is read back after an append. *)
Lemma extend_records piece open f rs' : records (extend piece open f) = Some rs' -> exists rs r, records f = Some rs /\ piece = Some r /\ rs' = rs ++ [r].
Proof.
  unfold records, extend. destruct (jf_open f); cbn [jf_pieces]; intros H%mapM_Some_1; apply Forall2_app_inv_l in H as (l1 & l2 & H1 & H2 & ->); [by inversion H2|].
  inversion H2 as [|? r ? ? Hr Hn]; subst. inversion Hn; subst. exists l1, r. split; [by apply mapM_Some_2|done].
Qed.
Lemma take_wfault_same s f s1 : take_wfault s = (f, s1) -> gs_files s1 = gs_files s /\ gs_docs s1 = gs_docs s /\ gs_sent s1 = gs_sent s.
Proof. unfold take_wfault. destruct (gs_faults s); by intros [= <- <-]. Qed.
Lemma effect_append v s : backed s v -> effect (append "intents" v) s [v] [].
Proof.
  intros Hb. destruct (take_wfault s) as [f s1] eqn:E. destruct (take_wfault_same _ _ _ E) as (Hf & Hd & Hs).
  assert (Hput : forall piece open (r : result GwError unit), (forall r', piece = Some r' -> r' = v) ->
    effect (fun _ => (r, with_files (<["intents" := extend piece open (file_of "intents" s1)]> (gs_files s1)) s1)) s [v] []).
  { intros piece open r Hp. split; [intros n; simpl; by rewrite Hd|]. exists 0%nat. split_and!; [done|simpl; by rewrite Hs, app_nil_r|done|].
    intros rs' Hr. unfold intents, file_of in Hr. simpl in Hr. rewrite lookup_insert_eq in Hr. apply extend_records in Hr as (rs & r' & Hi & Hp' & ->). rewrite (Hp r' Hp').
    exists rs, 1%nat. unfold intents, file_of. rewrite <- Hf. split_and!; try done. constructor; [|done]. eapply backed_kept; [|exact Hb]. intros n. simpl. by rewrite Hd. }
  unfold effect, append. rewrite E. destruct f; try (apply (Hput _ _ _); by intros r [= <-]).
  split; [intros n; simpl; by rewrite Hd|]. exists 0%nat. split_and!; [done|simpl; by rewrite Hs, app_nil_r|done|]. intros rs' Hr. exists rs', 0%nat. simpl in Hr. unfold intents, file_of in *.
  rewrite Hf in Hr. rewrite app_nil_r. split_and!; [simpl; lia|done..].
Qed.
Lemma effect_append_other name v s : name <> "intents" -> effect (append name v) s [] [].
Proof.
  intros Hne. assert (H : intents (append name v s).2 = intents s /\ gs_sent (append name v s).2 = gs_sent s /\ gs_docs (append name v s).2 = gs_docs s).
  { unfold append, take_wfault, intents, file_of. destruct (gs_faults s) as [|[] fs]; simpl; rewrite ?lookup_insert_ne by done; done. }
  destruct H as (H1 & H2 & H3). apply effect_quiet; [done|done|]. intros n. by rewrite H3.
Qed.
Lemma effect_write_doc name v s : effect (write_doc name v) s [] [].
Proof.
  assert (H : intents (write_doc name v s).2 = intents s /\ gs_sent (write_doc name v s).2 = gs_sent s /\ docs_kept s (write_doc name v s).2).
  { unfold write_doc, take_wfault, intents, file_of, docs_kept. destruct (gs_faults s) as [|[] fs]; simpl; (split_and!; try done); intros n Hn; destruct (decide (n = name)) as [-> |];
      rewrite ?lookup_insert_eq, ?lookup_insert_ne by done; first [done|by eexists]. }
  destruct H as (H1 & H2 & H3). by apply effect_quiet.
Qed.
Lemma effect_post path body reply s : effect (post_write path body reply) s [] [(0%nat, (path, body))].
Proof.
  split; [by intros n|]. exists 1%nat. split_and!; [done|done|done|]. intros rs' Hr. exists rs', 0%nat. rewrite app_nil_r. split_and!; try done; by repeat constructor.
Qed.
Lemma effect_same {A} (m : G A) s : (m s).2 = s -> effect m s [] [].
Proof. intros H. apply effect_quiet; rewrite H; [done|done|apply docs_kept_refl]. Qed.
Lemma write_doc_there name v s s' : write_doc name v s = (Ok tt, s') -> is_Some (gs_docs s' !! name).
Proof. unfold write_doc. destruct (take_wfault s) as [[] s1]; intros [= <-]; simpl; rewrite lookup_insert_eq; by eexists. Qed.

(** ** The operations, record by record *)

Abbreviation later n := (map (fun p : nat * (string * Value) => ((n + p.1)%nat, p.2))).
Lemma later_0 (posts : list (nat * (string * Value))) : later 0%nat posts = posts.
Proof. induction posts as [|[n r] posts IH]; [done|]. cbn [map]. by rewrite IH. Qed.
(** A step that only reads, an append and a request, and what follows. *)
Lemma then_quiet {A B} (m : G A) (k : A -> G B) s vs posts :
  effect m s [] [] -> (forall a s1, m s = (Ok a, s1) -> effect (k a) s1 vs posts) -> effect (gbind m k) s vs posts.
Proof. intros Hm Hk. pose proof (effect_bind m k s [] vs [] posts Hm Hk) as H. cbn [app length] in H. by rewrite later_0 in H. Qed.
Lemma then_append {B} v (k : unit -> G B) s vs posts :
  backed s v -> (forall s1, append "intents" v s = (Ok tt, s1) -> effect (k tt) s1 vs posts) -> effect (gbind (append "intents" v) k) s (v :: vs) (later 1%nat posts).
Proof. intros Hb Hk. apply (effect_bind _ k s [v] vs [] posts (effect_append v s Hb)). intros [] s1. apply Hk. Qed.
Lemma then_post {B} path body reply (k : result string (Z * Value) -> G B) s vs :
  (forall s1, effect (k (outcome_of reply)) s1 vs []) -> effect (gbind (post_write path body reply) k) s vs [(0%nat, (path, body))].
Proof. intros Hk. apply (effect_bind _ k s [] vs [(0%nat, (path, body))] [] (effect_post path body reply s)). intros o s1 [= <- <-]. apply Hk. Qed.
Lemma assert_lane_free_reads s : assert_lane_free s =
  (match intents s with Some rs => match lane_busy (fold_intents rs) with Some id => Err (LaneBusy id) | None => Ok tt end | None => Err CorruptLedger end, s).
Proof. unfold assert_lane_free, gbind, read_all, intents. destruct (records _) as [rs|]; [|done]. cbn [ok_or]. by destruct (lane_busy _). Qed.
Lemma read_intents s : read_all "intents" s = (ok_or (intents s) CorruptLedger, s).
Proof. done. Qed.
Lemma precommit_effect plan reply s : (submit_precommit plan reply s).2 = s \/
  exists rs, intents s = Some rs /\ lane_busy (fold_intents rs) = None /\
    effect (submit_precommit plan reply) s [precommit_pending plan; precommit_after plan (outcome_of reply)] [(1%nat, ("submit-precommit", pp_body plan))].
Proof.
  unfold submit_precommit. destruct (intents s) as [rs|] eqn:Hi; [|left; unfold gbind at 1; rewrite assert_lane_free_reads, Hi; done].
  destruct (lane_busy (fold_intents rs)) as [id|] eqn:Hl; [left; unfold gbind at 1; rewrite assert_lane_free_reads, Hi, Hl; done|]. right. exists rs. split_and!; [done|done|].
  apply then_quiet; [apply effect_same; by rewrite assert_lane_free_reads|]. intros _ s1 _.
  apply (then_append _ _ s1 [precommit_after plan (outcome_of reply)] [(0%nat, ("submit-precommit", pp_body plan))]); [done|]. intros s2 _.
  apply then_quiet; [by apply effect_append_other|]. intros _ s3 _. apply then_post. intros s4. apply then_quiet; [by apply effect_append_other|]. intros _ s5 _.
  apply (then_append _ _ s5 [] []); [|intros s6 _; by apply effect_same].
  unfold backed, precommit_after. destruct (outcome_of reply) as [[status body]|]; [|done]. destruct (is_success status); [done|]. by destruct (500 <=? status).
Qed.
Definition lifecycle_kind (k : string) : Prop := k = "BENCHMARK" \/ k = "PROOF".
(** The intent a write maps to must be read as settled and not confirmed. *)
Definition known_state (rs : list Value) (id : string) : option string := state_of <$> bt_get id (fold_intents rs).
Definition known_busy (rs : list Value) (id : string) : bool := match known_state rs id with Some st => is_unresolved st | None => false end.
Definition send_lifecycle (kind endpoint b : string) (body evidence : Value) (reply : PostReply) : G WriteResult :=
  let id := lifecycle_id kind body in
  let^ _ := append_presend_records id kind endpoint b (payload_hash body) evidence in
  let^ outcome := post_write endpoint body reply in
  let^ _ := append "attempts" (response_json id outcome) in
  let^ _ := append "intents" (lifecycle_json id kind (outcome_state outcome) b (payload_hash body) evidence) in
  gret (MkWrite id true (outcome_state outcome)).
Lemma lifecycle_cases kind endpoint b body evidence reply s : let id := lifecycle_id kind body in
  submit_lifecycle_write kind endpoint b body evidence reply s =
  match intents s with
  | None => (Err CorruptLedger, s)
  | Some rs =>
      if bool_decide (known_state rs id = Some "CONFIRMED") then (Ok (MkWrite id false "CONFIRMED"), s)
      else if known_busy rs id then (Err (ReconcileFirst id), s)
      else match gs_docs s !! confirmed_name kind b with
           | Some (Some _) => (let^ _ := append "intents" (suppressed_json id kind b (payload_hash body)) in gret (MkWrite id false "CONFIRMED")) s
           | Some None => (Err CorruptDoc, s)
           | None => match other_unresolved (fold_intents rs) b id with
                     | Some o => (Err (OtherWrite o), s)
                     | None => send_lifecycle kind endpoint b body evidence reply s
                     end
           end
  end.
Proof.
  intros id. unfold submit_lifecycle_write. unfold gbind at 1. rewrite read_intents. destruct (intents s) as [rs|] eqn:Hi; [|done]. cbn [ok_or]. fold id. fold (known_state rs id).
  destruct (bool_decide _); [done|]. unfold gbind at 1, gwhen. fold (known_busy rs id). destruct (known_busy rs id); [done|].
  unfold gbind at 1, read_doc. destruct (gs_docs s !! _) as [[doc|]|]; [done|done|]. unfold gbind at 1, unresolved_for_benchmark. unfold gbind at 1. rewrite read_intents, Hi. cbn [ok_or gret].
  by destruct (other_unresolved _ _ _).
Qed.
Lemma send_lifecycle_effect kind endpoint b body evidence reply s : let id := lifecycle_id kind body in
  effect (send_lifecycle kind endpoint b body evidence reply) s
    [lifecycle_json id kind "PENDING" b (payload_hash body) evidence; lifecycle_json id kind (outcome_state (outcome_of reply)) b (payload_hash body) evidence] [(1%nat, (endpoint, body))].
Proof.
  intros id. unfold send_lifecycle, append_presend_records. fold id. apply (effect_bind _ _ s [_] [_] [] [(0%nat, (endpoint, body))]).
  - apply (then_append _ _ s [] []); [done|]. intros s1 _. by apply effect_append_other.
  - intros _ s1 _. apply then_post. intros s2. apply then_quiet; [by apply effect_append_other|]. intros _ s3 _.
    apply (then_append _ _ s3 [] []); [|intros s4 _; by apply effect_same]. intros Hc. exfalso. revert Hc. change (state_of _) with (outcome_state (outcome_of reply)). unfold outcome_state.
    destruct (outcome_of reply) as [[status ?]|]; [|done]. destruct (is_success status); [done|]. by destruct (500 <=? status).
Qed.
Lemma lifecycle_effect kind endpoint b body evidence reply s : lifecycle_kind kind ->
  let id := lifecycle_id kind body in let m := submit_lifecycle_write kind endpoint b body evidence reply in
  (m s).2 = s \/ effect m s [suppressed_json id kind b (payload_hash body)] [] \/
  exists rs, intents s = Some rs /\ known_busy rs id = false /\ other_unresolved (fold_intents rs) b id = None /\
    effect m s [lifecycle_json id kind "PENDING" b (payload_hash body) evidence; lifecycle_json id kind (outcome_state (outcome_of reply)) b (payload_hash body) evidence] [(1%nat, (endpoint, body))].
Proof.
  intros Hkind id m. pose proof (lifecycle_cases kind endpoint b body evidence reply s) as E. cbv zeta in E. fold m id in E.
  destruct (intents s) as [rs|] eqn:Hi; [|left; by rewrite E]. destruct (bool_decide _); [left; by rewrite E|]. destruct (known_busy rs id) eqn:Hbusy; [left; by rewrite E|].
  destruct (gs_docs s !! confirmed_name kind b) as [[doc|]|] eqn:Hdoc; [|left; by rewrite E|].
  - right. left. unfold effect. rewrite E. apply (then_append _ _ s [] []); [|intros s1 _; by apply effect_same].
    intros _. assert (Hn : document_of (suppressed_json id kind b (payload_hash body)) = confirmed_name kind b) by (by destruct Hkind as [-> | ->]). rewrite Hn. by eexists.
  - destruct (other_unresolved (fold_intents rs) b id) as [o|] eqn:Ho; [left; by rewrite E|]. right. right. exists rs. split_and!; [done..|].
    unfold effect. rewrite E. apply send_lifecycle_effect.
Qed.
(** Reconciliation and recovery only settle. *)
Definition settles {A} (m : G A) (s : GwState) : Prop := exists vs, Forall (fun v => is_unresolved (state_of v) = false) vs /\ effect m s vs [].
Lemma settles_same {A} (m : G A) s : (m s).2 = s -> settles m s.
Proof. intros H. exists []. split; [constructor|by apply effect_same]. Qed.
Lemma settles_bind {A B} (m : G A) (k : A -> G B) s : settles m s -> (forall a s1, m s = (Ok a, s1) -> settles (k a) s1) -> settles (gbind m k) s.
Proof.
  intros (vs1 & H1 & E1) Hk. destruct (m s) as [[a|e] s1] eqn:E.
  - destruct (Hk a s1 eq_refl) as (vs2 & H2 & E2). exists (vs1 ++ vs2). split; [by apply Forall_app|]. apply (effect_bind m k s vs1 vs2 [] [] E1). intros a' s1' E'. assert (a' = a) as -> by congruence. by assert (s1' = s1) as -> by congruence.
  - exists (vs1 ++ []). split; [by rewrite app_nil_r|]. apply (effect_bind m k s vs1 [] [] [] E1). intros a' s1' E'. congruence.
Qed.
Lemma settles_quiet {A} (m : G A) s : effect m s [] [] -> settles m s.
Proof. intros H. exists []. by split. Qed.
Lemma settles_append v s : is_unresolved (state_of v) = false -> backed s v -> settles (append "intents" v) s.
Proof. intros Hv Hb. exists [v]. split; [by constructor|by apply effect_append]. Qed.
Lemma settles_each {A B} (f : A -> G B) l : (forall x s, settles (f x) s) -> forall s, settles (geach f l) s.
Proof.
  intros Hf. induction l as [|x l IH]; intros s; [by apply settles_same|]. cbn [geach]. apply settles_bind; [apply Hf|]. intros y s1 _. apply settles_bind; [apply IH|]. intros ys s2 _. by apply settles_same.
Qed.
Lemma recover_settles block benches s : settles (recover_unsent_intents block benches) s.
Proof.
  unfold recover_unsent_intents. do 5 (apply settles_bind; [by apply settles_same|intros ? ? _]). apply settles_each. intros [id rec] t. unfold recover_one.
  destruct (section_of _) as [[sec key]|]; [|by apply settles_same]. destruct (has_response _ _); [by apply settles_same|].
  destruct (str_field "benchmark_id" rec); [|by apply settles_same]. destruct (listed _ _ _ _); [by apply settles_same|]. apply settles_bind; [by apply settles_append|]. intros [] t2 _. by apply settles_same.
Qed.
Lemma reconcile_lifecycle_settles id kind rec benches block h s : kind <> "PRECOMMIT" -> settles (reconcile_lifecycle_intent id kind rec benches block h) s.
Proof.
  intros Hk. unfold reconcile_lifecycle_intent. apply settles_bind; [by apply settles_same|]. intros b s1 _. destruct (section_of kind) as [[sec key]|]; [|by apply settles_same].
  destruct (listed _ _ _ _); [|by apply settles_same]. destruct (block_confirmed_of _) as [height|]; [|by apply settles_same].
  apply settles_bind; [by apply settles_quiet, effect_write_doc|]. intros [] s2 Hw. apply write_doc_there in Hw. apply settles_bind; [|intros [] s3 _; by apply settles_same].
  apply settles_append; [done|]. intros _. assert (Hn : document_of (confirmed_json id kind b height) = confirmed_name kind b); [|by rewrite Hn].
  unfold document_of. change (kind_of _) with kind. destruct (String.eqb_spec kind "PRECOMMIT"); [done|]. done.
Qed.
Lemma reconcile_settles block benches s : settles (reconcile block benches) s.
Proof.
  unfold reconcile. do 4 (apply settles_bind; [by apply settles_same|intros ? ? _]). apply settles_each. intros [id rec] t. unfold reconcile_one.
  destruct (negb (is_unresolved _)); [by apply settles_same|]. destruct (String.eqb_spec (default "PRECOMMIT" (str_field "write_kind" rec)) "PRECOMMIT") as [|Hk]; cbn [negb]; [|by apply reconcile_lifecycle_settles].
  destruct (List.filter _ _) as [|p [|]]; [by apply settles_same| |by apply settles_same]. destruct (block_confirmed_of p) as [height|]; [|by apply settles_same].
  apply settles_bind; [by apply settles_quiet, effect_write_doc|]. intros [] t2 Hw. apply write_doc_there in Hw. apply settles_bind; [|intros [] t3 _; by apply settles_same].
  apply settles_append; [done|]. intros _. exact Hw.
Qed.
End gateway.
