(* ===== verification/SpikeHistory.v ===== *)
(** * Histories of the prototype's gateway

    What holds of every history of the operations of [SpikeGateway], with any
    replies of TIG and any failures of the writes: the lanes are serialized,
    every request is on record before it leaves, a confirmation has its document,
    and a confirmed write is never sent again. *)
From S2P Require Import Prelude Text BTreeMap Json Domain Merkle FakeTig SpikeGateway.
Open Scope Z_scope.

(** ** The folded ledger *)

Lemma elem_of_prefix {A} (x : A) n l : x ∈ take n l -> x ∈ l.
Proof. intros (i & Hi & _)%elem_of_take. by apply list_elem_of_lookup_2 in Hi. Qed.

Lemma fold_intents_snoc rs v :
  fold_intents (rs ++ [v]) = match str_field "intent_id" v with Some id => bt_insert id v (fold_intents rs) | None => fold_intents rs end.
Proof. unfold fold_intents. by rewrite fold_left_app. Qed.
Definition unsettled (v : Value) : bool := is_unresolved (state_of v).
Definition open_in (rs : list Value) (id : string) (v : Value) : Prop := bt_get id (fold_intents rs) = Some v /\ unsettled v = true.
(** Two writes that may not be in flight together. *)
Definition conflict (v w : Value) : Prop :=
  (kind_of v = "PRECOMMIT" /\ kind_of w = "PRECOMMIT") \/ exists b, str_field "benchmark_id" v = Some b /\ str_field "benchmark_id" w = Some b.
Definition lane_ok (rs : list Value) : Prop := forall id1 id2 v w, open_in rs id1 v -> open_in rs id2 w -> conflict v w -> id1 = id2.
Lemma conflict_sym v w : conflict v w -> conflict w v.
Proof. intros [[H1 H2]|(b & H1 & H2)]; [by left|right; by exists b]. Qed.
Lemma open_app rs vs id v :
  open_in (rs ++ vs) id v -> (v ∈ vs /\ str_field "intent_id" v = Some id /\ unsettled v = true) \/ open_in rs id v.
Proof.
  revert id v. induction vs as [|w vs IH] using rev_ind; intros id v; [rewrite app_nil_r; by right|]. rewrite app_assoc. unfold open_in at 1. rewrite fold_intents_snoc. intros [Hg Hu].
  destruct (str_field "intent_id" w) as [wid|] eqn:Hw; [rewrite bt_get_insert in Hg; case_decide as E|].
  - injection Hg as <-. subst. left. split; [set_solver|done].
  - destruct (IH id v) as [(?&?&?)|?]; [done|left; set_solver|by right].
  - destruct (IH id v) as [(?&?&?)|?]; [done|left; set_solver|by right].
Qed.
Lemma lane_ok_settled rs vs : Forall (fun v => unsettled v = false) vs -> lane_ok rs -> lane_ok (rs ++ vs).
Proof.
  intros Hs Hl id1 id2 v w H1 H2. assert (Hkeep : forall id u, open_in (rs ++ vs) id u -> open_in rs id u).
  { intros id u Hu. apply open_app in Hu as [(Hin & _ & Hu)|]; [|done]. rewrite Forall_forall in Hs. by rewrite (Hs u Hin) in Hu. }
  apply Hl; by apply Hkeep.
Qed.
(** Records of one intent, when nothing in flight conflicts with them. *)
Lemma lane_ok_one rs vs vid :
  (forall v, v ∈ vs -> str_field "intent_id" v = Some vid) -> (forall v id w, v ∈ vs -> open_in rs id w -> ~ conflict v w) -> lane_ok rs -> lane_ok (rs ++ vs).
Proof.
  intros Hid Hfree Hl id1 id2 v w H1 H2 Hc. apply open_app in H1 as [(Hv & Hi1 & _)|H1]; apply open_app in H2 as [(Hw & Hi2 & _)|H2].
  - rewrite (Hid v Hv) in Hi1. rewrite (Hid w Hw) in Hi2. congruence.
  - by destruct (Hfree v id2 w Hv H2).
  - destruct (Hfree w id1 v Hw H1). by apply conflict_sym.
  - by apply (Hl id1 id2 v w).
Qed.
Lemma lane_busy_none m id v : lane_busy m = None -> bt_get id m = Some v -> unsettled v = false.
Proof.
  unfold lane_busy. destruct (List.find _ m) eqn:E; [done|]. intros _ Hg. apply bt_get_elem, list_elem_of_In in Hg. apply (find_none _ _ E) in Hg. done.
Qed.
Lemma other_unresolved_none m b x id v :
  other_unresolved m b x = None -> bt_get id m = Some v -> id <> x -> str_field "benchmark_id" v = Some b -> unsettled v = false.
Proof.
  unfold other_unresolved. destruct (List.find _ m) eqn:E; [done|]. intros _ Hg Hne Hb. apply bt_get_elem, list_elem_of_In in Hg. apply (find_none _ _ E) in Hg. cbn [fst snd] in Hg.
  destruct (String.eqb_spec id x); [done|]. by rewrite bool_decide_true in Hg.
Qed.


(** ** What reconciliation comes to *)

(** The record that settles an intent, when TIG shows what it made as confirmed. *)
Definition confirmation (benches : Value) (kv : string * Value) : option Value :=
  let (id, rec) := kv in
  if negb (unsettled rec) then None
  else if String.eqb (kind_of rec) "PRECOMMIT" then
    match List.filter (precommit_match rec) (default [] (and_then (json_get "precommits" benches) json_as_array)) with
    | [p] => and_then (block_confirmed_of p) (fun h => Some (confirmed_json id "PRECOMMIT" (default "?" (str_field "benchmark_id" p)) h))
    | _ => None
    end
  else
    and_then (str_field "benchmark_id" rec) (fun b => and_then (section_of (kind_of rec)) (fun sk =>
      and_then (listed benches sk.1 sk.2 b) (fun entry => and_then (block_confirmed_of entry) (fun h => Some (confirmed_json id (kind_of rec) b h))))).
(** The ledger is whole, and the writes succeed. *)
Definition healthy (s : GwState) (rs : list Value) : Prop := gs_faults s = [] /\ jf_open (file_of "intents" s) = false /\ intents s = Some rs.
Lemma healthy_append s rs v : healthy s rs -> exists s', append "intents" v s = (Ok tt, s') /\ healthy s' (rs ++ [v]).
Proof.
  intros (Hf & Ho & Hi). unfold append, take_wfault. rewrite Hf. eexists. split; [reflexivity|]. unfold healthy, intents, file_of. cbn [gs_faults gs_files with_files]. rewrite lookup_insert_eq.
  change (default no_file (Some ?x)) with x. unfold extend. unfold file_of in Ho. rewrite Ho. split_and!; [done|done|]. unfold records. cbn [jf_pieces].
  apply mapM_Some_2, Forall2_app; [by apply mapM_Some_1|]. by repeat constructor.
Qed.
Lemma healthy_doc s rs name v : healthy s rs -> exists s', write_doc name v s = (Ok tt, s') /\ healthy s' rs.
Proof. intros (Hf & Ho & Hi). unfold write_doc, take_wfault. rewrite Hf. eexists. split; [reflexivity|done]. Qed.
Definition maybe (o : option Value) : list Value := match o with Some v => [v] | None => [] end.
Lemma confirm_healthy s rs name doc v (st0 st : Status) s' :
  healthy s rs -> (let^ _ := write_doc name doc in let^ _ := append "intents" v in gret st0) s = (Ok st, s') -> healthy s' (rs ++ [v]).
Proof.
  intros Hh. destruct (healthy_doc s rs name doc Hh) as (s1 & E1 & H1). destruct (healthy_append s1 rs v H1) as (s2 & E2 & H2). unfold gbind. rewrite E1, E2. by intros [= _ <-].
Qed.
Lemma reconcile_one_healthy benches block h kv s rs st s' :
  healthy s rs -> reconcile_one benches block h kv s = (Ok st, s') -> healthy s' (rs ++ maybe (confirmation benches kv)).
Proof.
  intros Hh. destruct kv as [id rec]. unfold reconcile_one, confirmation. fold (unsettled rec). destruct (unsettled rec); cbn [negb]; [|intros [= <- <-]; by rewrite app_nil_r].
  fold (kind_of rec). destruct (String.eqb_spec (kind_of rec) "PRECOMMIT") as [|Hk]; cbn [negb].
  - destruct (List.filter _ _) as [|p [|]]; [intros [= _ <-]; by rewrite app_nil_r| |intros [= _ <-]; by rewrite app_nil_r].
    destruct (block_confirmed_of p); [|intros [= _ <-]; by rewrite app_nil_r]. by apply confirm_healthy.
  - unfold reconcile_lifecycle_intent. unfold gbind at 1, glift at 1. destruct (str_field "benchmark_id" rec) as [b|]; [|done]. cbn [ok_or and_then].
    destruct (section_of _) as [[sec key]|]; [|done]. cbn [and_then fst snd]. destruct (listed _ _ _ _) as [entry|]; [|intros [= _ <-]; by rewrite app_nil_r]. cbn [and_then].
    destruct (block_confirmed_of entry); [|intros [= _ <-]; by rewrite app_nil_r]. by apply confirm_healthy.
Qed.
Lemma reconcile_each_healthy benches block h l : forall s rs sts s', healthy s rs ->
  geach (reconcile_one benches block h) l s = (Ok sts, s') -> healthy s' (rs ++ omap (confirmation benches) l).
Proof.
  induction l as [|kv l IH]; intros s rs sts s' Hh; [intros [= _ <-]; by rewrite app_nil_r|]. cbn [geach]. unfold gbind at 1.
  destruct (reconcile_one benches block h kv s) as [[st|] s1] eqn:E1; [|done]. pose proof (reconcile_one_healthy _ _ _ _ _ _ _ _ Hh E1) as H1. unfold gbind at 1.
  destruct (geach _ l s1) as [[sts'|] s2] eqn:E2; [|done]. intros [= _ <-]. pose proof (IH _ _ _ _ H1 E2) as H2. rewrite <- app_assoc in H2. cbn [omap list_omap].
  by destruct (confirmation benches kv).
Qed.
Lemma confirmation_settles benches kv v : confirmation benches kv = Some v -> str_field "intent_id" v = Some kv.1 /\ state_of v = "CONFIRMED" /\ unsettled kv.2 = true.
Proof.
  destruct kv as [id rec]. unfold confirmation. cbn [fst snd]. destruct (unsettled rec); [|done]. cbn [negb]. destruct (String.eqb _ _).
  - destruct (List.filter _ _) as [|p [|]]; [done| |done]. by intros (h & _ & [= <-])%and_then_Some.
  - intros (b & _ & (sk & _ & (e & _ & (h & _ & [= <-])%and_then_Some)%and_then_Some)%and_then_Some)%and_then_Some. done.
Qed.
Lemma fold_confirmations benches rs l id : NoDup l.*1 ->
  bt_get id (fold_intents (rs ++ omap (confirmation benches) l)) =
  match and_then (bt_get id l) (fun rec => confirmation benches (id, rec)) with Some v => Some v | None => bt_get id (fold_intents rs) end.
Proof.
  revert rs. induction l as [|[k rec] l IH]; intros rs Hn; [by rewrite app_nil_r|]. apply NoDup_cons in Hn as [Hk Hn]. cbn [omap list_omap bt_get].
  destruct (confirmation benches (k, rec)) as [v|] eqn:E.
  - destruct (confirmation_settles _ _ _ E) as (Hv & _ & _). cbn [fst] in Hv. change (v :: ?t) with ([v] ++ t). rewrite app_assoc, IH, fold_intents_snoc, Hv, bt_get_insert by done.
    case_decide; [|done]. subst. cbn [and_then]. rewrite E. replace (bt_get k l) with (@None Value); [done|]. symmetry. by apply bt_get_None.
  - rewrite IH by done. case_decide; [|done]. subst. cbn [and_then]. rewrite E. replace (bt_get k l) with (@None Value); [done|]. symmetry. by apply bt_get_None.
Qed.
Lemma fold_intents_wf rs : bt_wf (fold_intents rs).
Proof.
  induction rs as [|v rs IH] using rev_ind; [apply bt_wf_empty|]. rewrite fold_intents_snoc. destruct (str_field _ v); [by apply bt_insert_wf|done].
Qed.


Lemma bind_lift {A B} (r : result GwError A) (k : A -> G B) s : gbind (glift r) k s = match r with Ok a => k a s | Err e => (Err e, s) end.
Proof. by destruct r. Qed.
Lemma bind_when {B} (b : bool) e (k : unit -> G B) s : gbind (gwhen b e) k s = if b then (Err e, s) else k tt s.
Proof. by destruct b. Qed.
Lemma bind_doc {B} name (k : option Value -> G B) s :
  gbind (read_doc name) k s = match gs_docs s !! name with None => k None s | Some (Some v) => k (Some v) s | Some None => (Err CorruptDoc, s) end.
Proof. unfold gbind, read_doc. by destruct (gs_docs s !! name) as [[v|]|]. Qed.
(** Where the writes succeed, reconciliation settles exactly the intents whose
    effect TIG shows as confirmed and leaves the others as they were; with no
    other in flight, the lane is free again. *)
Theorem reconcile_confirms_what_tig_shows s rs block benches body sts s' :
  healthy s rs -> client_get benches = Ok body -> reconcile block benches s = (Ok sts, s') -> exists rs', intents s' = Some rs' /\
  (forall id rec, bt_get id (fold_intents rs) = Some rec -> bt_get id (fold_intents rs') = Some (default rec (confirmation body (id, rec)))) /\
  ((forall id rec, open_in rs id rec -> is_Some (confirmation body (id, rec))) -> lane_busy (fold_intents rs') = None).
Proof.
  intros Hh Hb. unfold reconcile. rewrite bind_lift. destruct (latest_block block) as [bl|]; [|done]. rewrite bind_lift. destruct (ok_or _ _) as [bid|]; [|done]. rewrite bind_lift.
  unfold benchmarks. rewrite Hb. unfold gbind at 1. rewrite read_intents. pose proof Hh as (_ & _ & Hi). rewrite Hi. cbn [ok_or]. intros E.
  destruct (reconcile_each_healthy _ _ _ _ _ _ _ _ Hh E) as (_ & _ & Hi'). eexists. split; [exact Hi'|]. pose proof (bt_keys_NoDup _ (fold_intents_wf rs)) as Hn.
  pose proof (fun id => fold_confirmations body rs (fold_intents rs) id Hn) as Hget. split.
  - intros id rec Hrec. rewrite Hget, Hrec. cbn [and_then]. by destruct (confirmation body (id, rec)).
  - intros Hall. unfold lane_busy. destruct (List.find _ _) as [[id v]|] eqn:F; [|done]. apply find_some in F as [Hin Hu]. cbn [snd] in Hu. exfalso.
    apply list_elem_of_In, (bt_elem_get _ _ _ (fold_intents_wf _)) in Hin. rewrite Hget in Hin. destruct (bt_get id (fold_intents rs)) as [rec|] eqn:Hrec; [|done]. cbn [and_then] in Hin.
    destruct (confirmation body (id, rec)) as [w|] eqn:Hw.
    + injection Hin as ->. apply confirmation_settles in Hw as (_ & Hc & _). by rewrite Hc in Hu.
    + injection Hin as ->. destruct (Hall id v) as [x Hx]; [by split|]. congruence.
Qed.

Section gateway.
Context (sha256 : list Z -> list Z) (to_string : Value -> string) (from_str : string -> option Value).
Abbreviation step := (spike_step sha256 to_string from_str).
Abbreviation run := (run_gw sha256 to_string from_str).
Abbreviation hash_of := (payload_hash sha256 to_string).

(** ** The invariant *)

(** A PENDING record with the digest of the request. *)
Definition on_record (rs : list Value) (req : string * Value) : Prop :=
  exists v, v ∈ rs /\ state_of v = "PENDING" /\ str_field "payload_sha256" v = Some (hash_of req.2).
Definition ledger_ok (s : GwState) : Prop :=
  forall rs, intents s = Some rs -> lane_ok rs /\ Forall (backed s) rs /\ Forall (on_record rs) (gs_sent s).
Lemma on_record_app rs rs' req : on_record rs req -> on_record (rs ++ rs') req.
Proof. intros (v & Hv & H). exists v. split; [set_solver|done]. Qed.
Lemma effect_ledger_ok {A} (m : G A) s vs posts :
  effect m s vs posts -> (forall rs k, intents s = Some rs -> lane_ok rs -> lane_ok (rs ++ take k vs)) ->
  Forall (fun p => on_record (take p.1 vs) p.2) posts -> ledger_ok s -> ledger_ok (m s).2.
Proof.
  intros (Hd & j & Hjl & Hs & _ & Hr) Hlane Hrec Hinv rs' Hrs'. destruct (Hr rs' Hrs') as (rs & k & Hk & Hi & -> & _ & Hp & Hb). destruct (Hinv rs Hi) as (H1 & H2 & H3). split_and!.
  - by apply Hlane.
  - apply Forall_app. split; [|done]. eapply Forall_impl; [exact H2|]. intros v. by apply backed_kept.
  - rewrite Hs. apply Forall_app. split; [eapply Forall_impl; [exact H3|]; intros q; apply on_record_app|]. apply Forall_map. apply Forall_forall. intros [n q] Hin.
    rewrite Forall_forall in Hp. pose proof (Hp _ Hin) as Hn. cbn [fst] in Hn. assert (Hin' : (n, q) ∈ posts) by (by eapply elem_of_prefix). clear Hp.
    rewrite Forall_forall in Hrec. destruct (Hrec _ Hin') as (v & Hv & Hv'). cbn [fst snd] in *. exists v. split; [|done]. apply elem_of_app. right.
    replace (take n vs) with (take n (take k vs)) in Hv by (rewrite take_take; f_equal; lia). by eapply elem_of_prefix.
Qed.
Lemma settles_ledger_ok {A} (m : G A) s : settles m s -> ledger_ok s -> ledger_ok (m s).2.
Proof.
  intros (vs & Hv & He). apply (effect_ledger_ok m s vs [] He); [|constructor]. intros rs k _. apply lane_ok_settled. by apply Forall_take.
Qed.
Lemma precommit_ledger_ok plan reply s : ledger_ok s -> ledger_ok (submit_precommit sha256 to_string from_str plan reply s).2.
Proof.
  intros Hinv. destruct (precommit_effect sha256 to_string from_str plan reply s) as [-> |(rs & Hi & Hbusy & He)]; [done|].
  apply (effect_ledger_ok _ s _ _ He); [| |done].
  - intros rs' k Hi' Hl. rewrite Hi in Hi'. injection Hi' as <-. apply (lane_ok_one rs _ (precommit_id sha256 to_string plan)); [| |done].
    + intros v Hv%elem_of_prefix. apply list_elem_of_In in Hv as [<-|[<-|[]]]; [done|]. unfold precommit_after. destruct (outcome_of _ _) as [[status body]|]; [|done]. by destruct (is_success status).
    + intros v id w _ [Hg Hu]. by rewrite (lane_busy_none _ _ _ Hbusy Hg) in Hu.
  - repeat constructor. exists (precommit_pending sha256 to_string plan). split; [cbn; set_solver|done].
Qed.
Lemma lifecycle_ledger_ok kind endpoint b body evidence reply s :
  lifecycle_kind kind -> ledger_ok s -> ledger_ok (submit_lifecycle_write sha256 to_string from_str kind endpoint b body evidence reply s).2.
Proof.
  intros Hkind Hinv. destruct (lifecycle_effect sha256 to_string from_str kind endpoint b body evidence reply s Hkind) as [-> |[He|(rs & Hi & Hbusy & Hother & He)]]; [done| |].
  - apply (settles_ledger_ok _ s); [|done]. eexists. split; [|exact He]. by repeat constructor.
  - apply (effect_ledger_ok _ s _ _ He); [| |done].
    + intros rs' k Hi' Hl. rewrite Hi in Hi'. injection Hi' as <-. apply (lane_ok_one rs _ (lifecycle_id sha256 to_string kind body)); [| |done].
      * intros v Hv%elem_of_prefix. apply list_elem_of_In in Hv as [<-|[<-|[]]]; done.
      * intros v id w Hv%elem_of_prefix [Hg Hu] Hc. assert (Hkv : kind_of v = kind /\ str_field "benchmark_id" v = Some b) by (apply list_elem_of_In in Hv as [<-|[<-|[]]]; done).
        destruct Hkv as [Hk Hb]. destruct Hc as [[Hc _]|(b' & Hb' & Hw)]; [rewrite Hk in Hc; by destruct Hkind as [-> | ->]|]. assert (b' = b) as -> by congruence.
        destruct (decide (id = lifecycle_id sha256 to_string kind body)) as [-> |Hne]; [|by rewrite (other_unresolved_none _ _ _ _ _ Hother Hg Hne Hw) in Hu].
        unfold known_busy, known_state in Hbusy. rewrite Hg in Hbusy. cbn in Hbusy. unfold unsettled in Hu. congruence.
    + repeat constructor. eexists. split; [cbn; apply list_elem_of_singleton; reflexivity|done].
Qed.

(** ** The operations *)

Abbreviation lifecycle_write := (submit_lifecycle_write sha256 to_string from_str).
Definition endpoint_of (kind : string) : string := if String.eqb kind "BENCHMARK" then "submit-benchmark" else "submit-proof".
(** What the commitment of a benchmark needs of its acceptance. *)
Definition acceptance_binds (acceptance : Value) (b : string) : Prop :=
  str_field "assignment_state" acceptance = Some "PACKAGE_DURABLY_ACCEPTED" /\
  exists receipt, json_get "receipt" acceptance = Some receipt /\ str_field "benchmark_id" receipt = Some b /\ is_Some (str_field "package_sha256" receipt).
Lemma commitment_cases acceptance body reply s : left (submit_benchmark_commitment sha256 to_string from_str acceptance body reply) s = s \/
  exists b evidence, str_field "benchmark_id" body = Some b /\ acceptance_binds acceptance b /\
    left (submit_benchmark_commitment sha256 to_string from_str acceptance body reply) s = left (lifecycle_write "BENCHMARK" (endpoint_of "BENCHMARK") b body evidence reply) s.
Proof.
  unfold left, submit_benchmark_commitment. rewrite bind_lift. destruct (str_field "benchmark_id" body) as [b|] eqn:Hb; [|by left]. cbn [ok_or].
  rewrite bind_lift. destruct (json_get "receipt" acceptance) as [receipt|] eqn:Hr; [|by left]. cbn [ok_or]. rewrite bind_when. case_bool_decide as Ha; [|by left]. cbn [negb].
  rewrite bind_when. case_bool_decide as Hrb; [|by left]. cbn [negb]. rewrite bind_lift. destruct (str_field "package_sha256" receipt) as [p|] eqn:Hp; [|by left]. cbn [ok_or].
  right. exists b. eexists. split_and!; [done|split; [done|]|reflexivity]. exists receipt. split_and!; [done|done|by eexists].
Qed.
Lemma proof_cases b reply s : left (submit_proof sha256 to_string from_str b reply) s = s \/
  exists body evidence, str_field "benchmark_id" body = Some b /\ left (submit_proof sha256 to_string from_str b reply) s = left (lifecycle_write "PROOF" (endpoint_of "PROOF") b body evidence reply) s.
Proof.
  unfold left, submit_proof. rewrite bind_doc. destruct (gs_docs s !! payload_name b) as [[payload|]|]; [|by left|by left]. rewrite bind_lift. cbn [ok_or].
  rewrite bind_when. case_bool_decide as Hb; [|by left]. cbn [negb]. rewrite bind_when. destruct (Nat.eqb _ 0); [by left|]. right. by repeat eexists.
Qed.
Inductive op_case (op : GwOp) (s : GwState) : Prop :=
| does_nothing : run op s = s -> op_case op s
| does_precommit plan reply : run op s = left (submit_precommit sha256 to_string from_str plan reply) s -> op_case op s
| does_lifecycle kind b body evidence reply : lifecycle_kind kind -> str_field "benchmark_id" body = Some b ->
    run op s = left (lifecycle_write kind (endpoint_of kind) b body evidence reply) s -> op_case op s
| does_settle {A} (m : G A) : settles m s -> run op s = left m s -> op_case op s.
Lemma op_cases op s : op_case op s.
Proof.
  destruct op; cbn [run_gw].
  - eapply does_precommit. reflexivity.
  - eapply (does_lifecycle _ _ "BENCHMARK" benchmark_id); [by left| |reflexivity]. done.
  - destruct (commitment_cases acceptance body reply s) as [H|(b & ev & Hb & _ & H)]; [by apply does_nothing|]. by apply (does_lifecycle _ _ "BENCHMARK" b body ev reply); [left| |].
  - destruct (proof_cases benchmark_id reply s) as [H|(body & ev & Hb & H)]; [by apply does_nothing|]. by apply (does_lifecycle _ _ "PROOF" benchmark_id body ev reply); [right| |].
  - eapply does_settle; [apply recover_settles|reflexivity].
  - eapply does_settle; [apply reconcile_settles|reflexivity].
  - eapply does_settle; [apply settles_quiet, effect_write_doc|reflexivity].
Qed.
Lemma step_ledger_ok s s' : step s s' -> ledger_ok s -> ledger_ok s'.
Proof.
  intros [op fs] Hinv. assert (Hw : ledger_ok (with_wfaults fs s)) by exact Hinv.
  destruct (op_cases op (with_wfaults fs s)) as [->|? ? ->|? ? ? ? ? Hk ? ->|? ? Hs ->]; [done|by apply precommit_ledger_ok|by apply lifecycle_ledger_ok|by apply settles_ledger_ok].
Qed.
Lemma history_ledger_ok s : rtc step gw_empty s -> ledger_ok s.
Proof.
  intros H. assert (H0 : ledger_ok gw_empty) by (intros rs [= <-]; split_and!; [by intros id1 id2 v w []|constructor|constructor]).
  revert H0. induction H as [|s1 s2 s3 H12 _ IH]; [done|]. intros H1. by apply IH, (step_ledger_ok s1).
Qed.

(** ** The properties *)

Lemma effect_sends {A} (m : G A) s vs posts : effect m s vs posts ->
  docs_kept s (m s).2 /\ (intents s = None -> intents (m s).2 = None) /\ exists j, gs_sent (m s).2 = gs_sent s ++ map snd (take j posts).
Proof.
  intros (Hd & j & _ & Hs & _ & Hr). split_and!; [done| |by exists j]. intros Hi. destruct (intents (m s).2) as [rs'|] eqn:E; [|done]. destruct (Hr rs' eq_refl) as (rs & k & _ & Hi' & _). congruence.
Qed.
(** A lifecycle write whose confirmation was seen, or whose ledger cannot be read, is not sent. *)
Lemma lifecycle_is_not_sent kind endpoint b body evidence reply s : intents s = None \/ is_Some (gs_docs s !! confirmed_name kind b) ->
  gs_sent (lifecycle_write kind endpoint b body evidence reply s).2 = gs_sent s.
Proof.
  intros H. rewrite lifecycle_cases. destruct (intents s) as [rs|]; [|done]. destruct H as [|[d Hd]]; [done|]. rewrite Hd. case_bool_decide; [done|]. destruct (known_busy _ _); [done|]. destruct d; [|done].
  unfold gbind, append, take_wfault. by destruct (gs_faults s) as [|[] ?].
Qed.
Lemma lifecycle_sends kind endpoint b body evidence reply s : lifecycle_kind kind ->
  let s' := (lifecycle_write kind endpoint b body evidence reply s).2 in
  docs_kept s s' /\ (intents s = None -> intents s' = None) /\ exists j, gs_sent s' = gs_sent s ++ take j [(endpoint, body)].
Proof.
  intros Hk s'. destruct (lifecycle_effect sha256 to_string from_str kind endpoint b body evidence reply s Hk) as [E|[E|(rs & _ & _ & _ & E)]].
  - unfold s'. rewrite E. split_and!; [apply docs_kept_refl|done|]. exists 0%nat. by rewrite app_nil_r.
  - apply effect_sends in E as (? & ? & j & E). split_and!; [done..|]. exists 0%nat. unfold s'. rewrite E. by rewrite take_nil.
  - apply effect_sends in E as (? & ? & j & E). split_and!; [done..|]. exists j. unfold s'. rewrite E. by rewrite <- firstn_map.
Qed.
Lemma precommit_sends plan reply s : let s' := (submit_precommit sha256 to_string from_str plan reply s).2 in
  docs_kept s s' /\ (intents s = None -> s' = s) /\ exists j, gs_sent s' = gs_sent s ++ take j [("submit-precommit", pp_body plan)].
Proof.
  intros s'. destruct (precommit_effect sha256 to_string from_str plan reply s) as [E|(rs & Hi & _ & E)].
  - unfold s'. rewrite E. split_and!; [apply docs_kept_refl|done|]. exists 0%nat. by rewrite app_nil_r.
  - apply effect_sends in E as (? & _ & j & E). split_and!; [done|intros Hn; congruence|]. exists j. unfold s'. rewrite E. by rewrite <- firstn_map.
Qed.
Lemma endpoint_inj kind kind' : lifecycle_kind kind -> lifecycle_kind kind' -> endpoint_of kind = endpoint_of kind' -> kind = kind'.
Proof. by intros [-> | ->] [-> | ->]. Qed.
Lemma step_keeps s s' : step s s' -> docs_kept s s' /\ (intents s = None -> intents s' = None /\ gs_sent s' = gs_sent s) /\
  forall kind b, lifecycle_kind kind -> is_Some (gs_docs s !! confirmed_name kind b) ->
    exists l, gs_sent s' = gs_sent s ++ l /\ Forall (fun req => ~ (req.1 = endpoint_of kind /\ str_field "benchmark_id" req.2 = Some b)) l.
Proof.
  intros [op fs]. change (docs_kept s) with (docs_kept (with_wfaults fs s)). change (intents s) with (intents (with_wfaults fs s)).
  change (gs_sent s) with (gs_sent (with_wfaults fs s)). change (gs_docs s) with (gs_docs (with_wfaults fs s)). generalize (with_wfaults fs s). clear s fs. intros s. unfold left.
  destruct (op_cases op s) as [->|plan reply ->|kind' b' body ev reply Hk' Hb' ->|A m (vs & _ & He) ->].
  - split_and!; [apply docs_kept_refl|done|]. intros kind b _ _. exists []. by rewrite app_nil_r.
  - destruct (precommit_sends plan reply s) as (Hd & Hn & j & E). unfold left. split_and!; [done|intros Hi; by rewrite (Hn Hi)|]. intros kind b Hk _. eexists. split; [exact E|].
    apply Forall_take. repeat constructor. cbn [fst]. intros [H _]. by destruct Hk as [-> | ->].
  - destruct (lifecycle_sends kind' (endpoint_of kind') b' body ev reply s Hk') as (Hd & Hn & j & E). unfold left. split_and!; [done| |].
    + intros Hi. split; [by apply Hn|]. apply lifecycle_is_not_sent. by left.
    + intros kind b Hk Hdoc. destruct (decide (kind' = kind /\ b' = b)) as [[-> ->]|Hne].
      * exists []. rewrite app_nil_r. split; [|done]. apply lifecycle_is_not_sent. by right.
      * eexists. split; [exact E|]. apply Forall_take. repeat constructor. cbn [fst snd]. intros [H1 H2]. apply Hne. split; [by apply endpoint_inj|congruence].
  - apply effect_sends in He as (Hd & Hn & j & E). unfold left. rewrite take_nil, app_nil_r in E. split_and!; [done|intros Hi; by split; [apply Hn|]|]. intros kind b _ _. exists []. by rewrite app_nil_r.
Qed.

(** Of the intents of one ledger, at most one precommit is unresolved, and no two
    unresolved intents are for the same benchmark. *)
Theorem lane_is_serialized s rs : rtc step gw_empty s -> intents s = Some rs -> lane_ok rs.
Proof. intros H Hi. by destruct (history_ledger_ok s H rs Hi). Qed.

(** Every request that left has a PENDING intent with the digest of its body. *)
Theorem requests_are_on_record s rs : rtc step gw_empty s -> intents s = Some rs -> Forall (on_record rs) (gs_sent s).
Proof. intros H Hi. by destruct (history_ledger_ok s H rs Hi) as (_ & _ & H3). Qed.

(** Every record that says CONFIRMED has the document of what was confirmed. *)
Theorem confirmed_has_its_document s rs v :
  rtc step gw_empty s -> intents s = Some rs -> v ∈ rs -> state_of v = "CONFIRMED" -> is_Some (gs_docs s !! document_of v).
Proof. intros H Hi Hv Hc. destruct (history_ledger_ok s H rs Hi) as (_ & H2 & _). rewrite Forall_forall in H2. by apply (H2 v). Qed.

(** Once a write is confirmed, no request of its kind for the benchmark leaves. *)
Theorem confirmed_write_is_final kind b s s' :
  lifecycle_kind kind -> is_Some (gs_docs s !! confirmed_name kind b) -> rtc step s s' ->
  exists l, gs_sent s' = gs_sent s ++ l /\ Forall (fun req => ~ (req.1 = endpoint_of kind /\ str_field "benchmark_id" req.2 = Some b)) l.
Proof.
  intros Hk Hd H. induction H as [|s1 s2 s3 H12 _ IH]; [exists []; by rewrite app_nil_r|]. destruct (step_keeps s1 s2 H12) as (Hkeep & _ & Hsend).
  destruct (Hsend kind b Hk Hd) as (l1 & H1 & F1). destruct IH as (l2 & H2 & F2); [by apply Hkeep|]. exists (l1 ++ l2). rewrite H2, H1, app_assoc. split; [done|]. by apply Forall_app.
Qed.

(** A commitment does something only with the acceptance of its own package. *)
Theorem commitment_needs_acceptance acceptance body reply s :
  left (submit_benchmark_commitment sha256 to_string from_str acceptance body reply) s <> s ->
  exists b, str_field "benchmark_id" body = Some b /\ acceptance_binds acceptance b.
Proof. intros H. destruct (commitment_cases acceptance body reply s) as [|(b & ev & Hb & Ha & _)]; [done|by exists b]. Qed.

(** A ledger that cannot be read stays so, and nothing is sent. *)
Theorem unreadable_ledger_stops_the_gateway s s' : intents s = None -> rtc step s s' -> intents s' = None /\ gs_sent s' = gs_sent s.
Proof.
  intros Hi H. induction H as [|s1 s2 s3 H12 _ IH]; [done|]. destruct (step_keeps s1 s2 H12) as (_ & Hn & _). destruct (Hn Hi) as [Hi2 E]. rewrite <- E. by apply IH.
Qed.
(** A run: each operation with what becomes of its writes. *)
Definition gw_run (ops : list (GwOp * list WriteFault)) (s : GwState) : GwState := fold_left (fun s o => run o.1 (with_wfaults o.2 s)) ops s.
Lemma runs_are_histories ops : forall s, rtc step s (gw_run ops s).
Proof. induction ops as [|o ops IH]; intros s; [constructor|]. econstructor; [apply spike_op|apply IH]. Qed.
End gateway.

(** ** A run *)

Definition gw_sha (l : list Z) : list Z := replicate 32 (foldr Z.add 0 l mod 256).
(** A body is told by its benchmark, or by its kind of compute. *)
Definition gw_print (v : Value) : string := match str_field "benchmark_id" v with Some b => b | None => default "?" (str_field "compute_type" v) end.
Definition gw_parse (t : string) : option Value := Some (json_object [("benchmark_id", JString t)]).
Abbreviation toy_run := (gw_run gw_sha gw_print gw_parse).
Definition gw_plan (compute : string) : PrecommitPlan :=
  MkPlan (json_object [("settings", json_object [("player_id", JString "p"); ("block_id", JString "x"); ("challenge_id", JString "c001"); ("algorithm_id", JString "a"); ("track_id", JString "")]);
                       ("compute_type", JString compute)]) [] 0 0.
Definition gw_block : GetReply := GetGot 200 (json_object [("block", json_object [("id", JString "x"); ("details", json_object [("height", json_u64 7)])])]).
Definition gw_seen : Value := json_object [("block_confirmed", json_u64 7)].
Definition gw_precommits : Value :=
  json_object [("precommits", JArray [json_object [("benchmark_id", JString "b1"); ("state", gw_seen);
    ("settings", json_object [("player_id", JString "p"); ("block_id", JString "x"); ("challenge_id", JString "c001"); ("algorithm_id", JString "a"); ("track_id", JString "t")])]])].
Definition gw_benchmarks : Value := json_object [("benchmarks", JArray [json_object [("id", JString "b1"); ("state", gw_seen)]])].
(** A precommit and its confirmation, a stopped benchmark whose response is lost. *)
Definition gw_ops : list (GwOp * list WriteFault) :=
  [(OpPrecommit (gw_plan "cpu") (Ok (200, "b1")), []); (OpReconcile gw_block (GetGot 200 gw_precommits), []); (OpStopped "b1" JNull (Err "reset"), [])].
Definition gw_ops2 : list (GwOp * list WriteFault) := gw_ops ++ [(OpReconcile gw_block (GetGot 200 gw_benchmarks), [])].
Abbreviation gw_lost := (toy_run gw_ops gw_empty).
Abbreviation gw_settled := (toy_run gw_ops2 gw_empty).
Abbreviation read_intents_of s := (default [] (intents s)).
Lemma gw_lost_reads : intents gw_lost = Some (read_intents_of gw_lost).
Proof. vm_compute. reflexivity. Qed.
Lemma gw_settled_reads : intents gw_settled = Some (read_intents_of gw_settled).
Proof. vm_compute. reflexivity. Qed.

Lemma lane_is_serialized_witness : length (gs_sent gw_lost) = 2%nat /\ lane_ok (read_intents_of gw_lost).
Proof. split; [vm_compute; reflexivity|]. exact (lane_is_serialized gw_sha gw_print gw_parse gw_lost _ (runs_are_histories _ _ _ gw_ops gw_empty) gw_lost_reads). Defined.
Lemma requests_are_on_record_witness : Forall (on_record gw_sha gw_print (read_intents_of gw_lost)) (gs_sent gw_lost).
Proof. exact (requests_are_on_record gw_sha gw_print gw_parse gw_lost _ (runs_are_histories _ _ _ gw_ops gw_empty) gw_lost_reads). Defined.
Definition gw_confirmed : Value := confirmed_json (lifecycle_id gw_sha gw_print "BENCHMARK" (json_object [("benchmark_id", JString "b1")])) "BENCHMARK" "b1" 7.
Lemma gw_confirmed_there : gw_confirmed ∈ read_intents_of gw_settled.
Proof. apply list_elem_of_In. vm_compute. tauto. Qed.
Lemma confirmed_has_its_document_witness : is_Some (gs_docs gw_settled !! document_of gw_confirmed).
Proof. exact (confirmed_has_its_document gw_sha gw_print gw_parse gw_settled _ gw_confirmed (runs_are_histories _ _ _ gw_ops2 gw_empty) gw_settled_reads gw_confirmed_there eq_refl). Defined.
Lemma gw_document_there : is_Some (gs_docs gw_settled !! confirmed_name "BENCHMARK" "b1").
Proof. vm_compute. by eexists. Qed.
Definition gw_again : list (GwOp * list WriteFault) := [(OpStopped "b1" (JBool true) (Ok (200, "b1")), []); (OpPrecommit (gw_plan "gpu") (Err "reset"), [])].
Lemma confirmed_write_is_final_witness : exists l, gs_sent (toy_run gw_again gw_settled) = gs_sent gw_settled ++ l /\
  Forall (fun req => ~ (req.1 = endpoint_of "BENCHMARK" /\ str_field "benchmark_id" req.2 = Some "b1")) l.
Proof. exact (confirmed_write_is_final gw_sha gw_print gw_parse "BENCHMARK" "b1" gw_settled _ (or_introl eq_refl) gw_document_there (runs_are_histories _ _ _ gw_again gw_settled)). Defined.
Definition gw_torn_ops : list (GwOp * list WriteFault) := [(OpStopped "b1" JNull (Ok (200, "b1")), [WCut])].
Abbreviation gw_torn := (toy_run gw_torn_ops gw_empty).
Lemma gw_torn_unreadable : intents gw_torn = None.
Proof. vm_compute. reflexivity. Qed.
Lemma unreadable_ledger_stops_the_gateway_witness : intents (toy_run gw_ops gw_torn) = None /\ gs_sent (toy_run gw_ops gw_torn) = gs_sent gw_torn.
Proof. exact (unreadable_ledger_stops_the_gateway gw_sha gw_print gw_parse gw_torn _ gw_torn_unreadable (runs_are_histories _ _ _ gw_ops gw_torn)). Defined.
Definition gw_acceptance : Value :=
  json_object [("assignment_state", JString "PACKAGE_DURABLY_ACCEPTED"); ("receipt", json_object [("benchmark_id", JString "b1"); ("package_sha256", JString "aa")])].
Definition gw_body : Value := json_object [("benchmark_id", JString "b1"); ("merkle_root", JString "aa")].
Lemma gw_commits : left (submit_benchmark_commitment gw_sha gw_print gw_parse gw_acceptance gw_body (Ok (200, "b1"))) gw_empty <> gw_empty.
Proof. intros H. apply (f_equal (fun s => length (gs_sent s))) in H. vm_compute in H. discriminate. Qed.
Lemma commitment_needs_acceptance_witness : exists b, str_field "benchmark_id" gw_body = Some b /\ acceptance_binds gw_acceptance b.
Proof. exact (commitment_needs_acceptance gw_sha gw_print gw_parse gw_acceptance gw_body (Ok (200, "b1")) gw_empty gw_commits). Defined.
Lemma gw_lost_healthy : healthy gw_lost (read_intents_of gw_lost).
Proof. split; [vm_compute; reflexivity|]. split; [vm_compute; reflexivity|exact gw_lost_reads]. Qed.
Abbreviation gw_reconciled := (reconcile gw_block (GetGot 200 gw_benchmarks) gw_lost).
Lemma pair_ended {A B} (x : A * B) a : x.1 = a -> x = (a, x.2).
Proof. destruct x. by intros [= <-]. Qed.
Lemma gw_reconciled_ends : gw_reconciled = (Ok [IsTerminal; Confirmed "b1" 7], gw_reconciled.2).
Proof. apply pair_ended. vm_compute. reflexivity. Qed.
Lemma reconcile_confirms_what_tig_shows_witness : exists rs', intents gw_reconciled.2 = Some rs' /\
  (forall id rec, bt_get id (fold_intents (read_intents_of gw_lost)) = Some rec -> bt_get id (fold_intents rs') = Some (default rec (confirmation gw_benchmarks (id, rec)))) /\
  ((forall id rec, open_in (read_intents_of gw_lost) id rec -> is_Some (confirmation gw_benchmarks (id, rec))) -> lane_busy (fold_intents rs') = None).
Proof. exact (reconcile_confirms_what_tig_shows gw_lost _ gw_block (GetGot 200 gw_benchmarks) gw_benchmarks _ _ gw_lost_healthy eq_refl gw_reconciled_ends). Defined.

(** ** Runs that do not end well *)

Abbreviation settled_states s := (map (fun kv => state_of kv.2) (fold_intents (read_intents_of s))).
(** A write refused by TIG, then tried again with a crash before it is sent: the
    old response is taken for the new attempt's, recovery passes the intent over,
    TIG never shows it, and the write is refused from then on. *)
Definition gw_retry_ops : list (GwOp * list WriteFault) := [(OpStopped "b1" JNull (Ok (404, "no")), []); (OpStopped "b1" JNull (Ok (200, "b1")), [WDone; WFailed])].
Abbreviation gw_retry := (toy_run gw_retry_ops gw_empty).
Example old_response_blocks_recovery :
  length (gs_sent gw_retry) = 1%nat /\ settled_states gw_retry = ["PENDING"] /\
  (recover_unsent_intents gw_block (GetGot 200 (JObject [])) gw_retry).1 = Ok [LeftForReconcile] /\
  (reconcile gw_block (GetGot 200 (JObject [])) gw_retry).1 = Ok [NotVisible] /\
  is_Ok (submit_benchmark_stopped gw_sha gw_print gw_parse "b1" JNull (Ok (200, "b1")) gw_retry).1 = false.
Proof. vm_compute. by repeat split. Qed.
(** Two plans on one block that differ in what the settings search does not
    compare: the second never reaches TIG, and is confirmed by the first's benchmark. *)
Definition gw_adopt_ops : list (GwOp * list WriteFault) :=
  [(OpPrecommit (gw_plan "cpu") (Ok (200, "b1")), []); (OpReconcile gw_block (GetGot 200 gw_precommits), []);
   (OpPrecommit (gw_plan "gpu") (Err "reset"), []); (OpReconcile gw_block (GetGot 200 gw_precommits), [])].
Abbreviation gw_adopt := (toy_run gw_adopt_ops gw_empty).
Example lost_precommit_adopts_another : settled_states gw_adopt = ["CONFIRMED"; "CONFIRMED"] /\
  map (fun kv => str_field "benchmark_id" kv.2) (fold_intents (read_intents_of gw_adopt)) = [Some "b1"; Some "b1"].
Proof. vm_compute. by repeat split. Qed.
(** A record whose line feed was lost: the next one is glued to it and reported as
    written, so its request leaves and the ledger cannot be read any more. *)
Definition gw_glue_ops : list (GwOp * list WriteFault) := [(OpStopped "b1" JNull (Ok (404, "no")), [WDone; WDone; WDone; WOpen]); (OpStopped "b2" JNull (Ok (200, "b2")), [])].
Example glued_intent_is_sent : let s := toy_run gw_glue_ops gw_empty in map fst (gs_sent s) = ["submit-benchmark"; "submit-benchmark"] /\ intents s = None.
Proof. vm_compute. by repeat split. Qed.
