(* ===== verification/SpikeTrust.v ===== *)
(** * The prototype's member trust: [crates/spike/src/trust.rs]

    The screening of a member's package, the ledger of the outcomes, and the
    circuit breaker that stands before every precommit for the member's work.

    The trust ledger and the gateway's have their own directories, each with what
    becomes of its writes.  The two parts are shown to work together: a package is
    charged exactly when it has no solution of the minimum quality, and once the
    charges exceed the tier no history of screenings and guarded precommits gets a
    request past the breaker. *)
From S2P Require Import Prelude Text BTreeMap Json Domain Merkle FakeTig SpikeGateway.
Open Scope Z_scope.

Record PolicyStandIn := MkPolicy { tier_k : Z; min_verification_quality : Z; failure_charge_x_attotig : Z }.
Definition fixture_v1 : PolicyStandIn := MkPolicy 2 40 2000000000000000000.
Record Screening := MkScreening { outcome : string; attribution : string; fraud : bool; chargeable_tier_failure : bool; method_loss : bool; detail : Value }.
Inductive TrustError := NothingToScreen | Undivided | SampleSets | NonceOrder (a b : Z).

(** ** Screening *)

Definition json_int (n : Z) : Value := if n <? 0 then JNumber (NegInt n) else JNumber (PosInt n).
Definition bundles_meeting (policy : PolicyStandIn) (per_bundle : nat) (qualities : list Z) : nat :=
  length (List.filter (existsb (fun q => min_verification_quality policy <=? q)) (chunks (length qualities) per_bundle qualities)).
Definition screen_solution_quality (qualities : list Z) (num_bundles : Z) (policy : PolicyStandIn) : result TrustError Screening :=
  if (num_bundles =? 0) || Nat.eqb (length qualities) 0 then Err NothingToScreen
  else
    let len := Z.of_nat (length qualities) in
    let per_bundle := len / num_bundles in
    if (per_bundle =? 0) || negb (len mod num_bundles =? 0) then Err Undivided
    else
      let meeting := bundles_meeting policy (Z.to_nat per_bundle) qualities in
      if Nat.eqb meeting 0 then
        Ok (MkScreening "SOLUTION_INVALID" "NONE" false true false
          (json_object [("bundles_meeting_min_quality", json_u64 0); ("num_bundles", json_u64 num_bundles);
                        ("min_verification_quality_stand_in", json_int (min_verification_quality policy));
                        ("rule", JString "mining_system.md §8: zero bundles meeting TIG's minimum verification quality is a chargeable tier failure even though it is not fraud; invariant 18 forbids the fraud label")]))
      else
        Ok (MkScreening "PASS" "NONE" false false false
          (json_object [("bundles_meeting_min_quality", json_u64 (Z.of_nat meeting)); ("num_bundles", json_u64 num_bundles)])).
(** The nonces whose signature differs, the two samples being in one order. *)
Fixpoint mismatched (packaged reproduced : list (Z * Z)) : result TrustError (list Z) :=
  match packaged, reproduced with
  | (nonce_a, sig_a) :: packaged', (nonce_b, sig_b) :: reproduced' =>
      if negb (nonce_a =? nonce_b) then Err (NonceOrder nonce_a nonce_b)
      else let? rest := mismatched packaged' reproduced' in Ok (if sig_a =? sig_b then rest else nonce_a :: rest)
  | _, _ => Ok []
  end.
Definition screen_reproduction (packaged reproduced : list (Z * Z)) : result TrustError Screening :=
  if Nat.eqb (length packaged) 0 || negb (Nat.eqb (length packaged) (length reproduced)) then Err SampleSets
  else
    let? nonces := mismatched packaged reproduced in
    match nonces with
    | [] => Ok (MkScreening "PASS" "NONE" false false false (json_object [("mismatched_nonces", JArray [])]))
    | _ => Ok (MkScreening "METHOD_NON_REPRODUCIBLE" "MEMBER" false false true
             (json_object [("mismatched_nonces", JArray (map json_u64 nonces));
                           ("rule", JString "member_protocol.md §15 row 2 -> MEMBER via the method-loss rule; mining_system.md §8: does not also consume X unless an independently evidenced tier failure occurred; the FRAUDULENT terminal state is declared by TIG confirmation, never by local screening")]))
    end.

(** ** The ledger and the breaker *)

Definition screening_json (member_id benchmark_ref : string) (sc : Screening) (policy : PolicyStandIn) : Value :=
  json_object [("member_id", JString member_id); ("benchmark_ref", JString benchmark_ref); ("outcome", JString (outcome sc)); ("attribution", JString (attribution sc));
               ("fraud", JBool (fraud sc)); ("chargeable_tier_failure", JBool (chargeable_tier_failure sc)); ("method_loss", JBool (method_loss sc));
               ("charge_x_attotig_stand_in", if chargeable_tier_failure sc then JString (u64_text (failure_charge_x_attotig policy)) else JNull); ("detail", detail sc)].
Definition record_screening (member_id benchmark_ref : string) (sc : Screening) (policy : PolicyStandIn) : G unit :=
  append "member-trust" (screening_json member_id benchmark_ref sc policy).
Definition counts_for (key member_id : string) (r : Value) : bool :=
  bool_decide (str_field "member_id" r = Some member_id) && bool_decide (and_then (json_get key r) json_as_bool = Some true).
Definition count_of (key member_id : string) (rs : list Value) : Z := Z.of_nat (length (List.filter (counts_for key member_id) rs)).
Definition chargeable_failures (member_id : string) : G Z := let^ rs := read_all "member-trust" in gret (count_of "chargeable_tier_failure" member_id rs).
Definition method_loss_events (member_id : string) : G Z := let^ rs := read_all "member-trust" in gret (count_of "method_loss" member_id rs).
Definition breaker_open (member_id : string) (policy : PolicyStandIn) : G bool := let^ f := chargeable_failures member_id in gret (tier_k policy <? f).
Inductive GuardDecision := Submitted (intent_id : string) | Refused (member_id : string) (failures k : Z).
Definition refusal_json (member_id : string) (failures k : Z) : Value :=
  json_object [("member_id", JString member_id); ("event", JString "PRECOMMIT_REFUSED_BREAKER_OPEN"); ("chargeable_failures", json_u64 failures); ("tier_k_stand_in", json_u64 k);
               ("rule", JString "mining_system.md §8: f > k removes tier membership — no new precommits; the refusal precedes any intent or TIG write")].
Section trust.
Context (sha256 : list Z -> list Z) (to_string : Value -> string) (from_str : string -> option Value).
(** The trust ledger, and the gateway. *)
Definition Both : Type := GwState * GwState.
Definition guard_precommit (member_id : string) (policy : PolicyStandIn) (plan : PrecommitPlan) (reply : PostReply) (st : Both) : result GwError GuardDecision * Both :=
  let (t, g) := st in
  match chargeable_failures member_id t with
  | (Err e, t) => (Err e, (t, g))
  | (Ok failures, t) =>
      if tier_k policy <? failures then
        match append "member-trust" (refusal_json member_id failures (tier_k policy)) t with
        | (Err e, t) => (Err e, (t, g))
        | (Ok _, t) => (Ok (Refused member_id failures (tier_k policy)), (t, g))
        end
      else
        match submit_precommit sha256 to_string from_str plan reply g with
        | (Err e, g) => (Err e, (t, g))
        | (Ok id, g) => (Ok (Submitted id), (t, g))
        end
  end.
(** A screening that is recorded, or a precommit for a member, with what becomes
    of the writes. *)
Inductive trust_step (st : Both) : Both -> Prop :=
| step_record m b sc p fs : trust_step st (left (record_screening m b sc p) (with_wfaults fs st.1), st.2)
| step_guard m p plan reply fs fs' : trust_step st (guard_precommit m p plan reply (with_wfaults fs st.1, with_wfaults fs' st.2)).2.

(** ** The properties *)

Definition trust_records (t : GwState) : option (list Value) := records (file_of "member-trust" t).
(** The breaker of the member does not close below [k], and is not read past. *)
Definition tripped (m : string) (k : Z) (t : GwState) : Prop := forall rs, trust_records t = Some rs -> k < count_of "chargeable_tier_failure" m rs.
Lemma count_app key m rs rs' : count_of key m (rs ++ rs') = count_of key m rs + count_of key m rs'.
Proof. unfold count_of. rewrite List.filter_app, length_app. lia. Qed.
Lemma count_nonneg key m rs : 0 <= count_of key m rs.
Proof. unfold count_of. lia. Qed.
Lemma append_tripped m k v t : tripped m k t -> tripped m k (append "member-trust" v t).2.
Proof.
  intros Ht rs'. unfold append. destruct (take_wfault t) as [f t1] eqn:E. destruct (take_wfault_same _ _ _ E) as (Hf & _ & _).
  assert (Hput : forall piece open, records (extend piece open (file_of "member-trust" t1)) = Some rs' -> k < count_of "chargeable_tier_failure" m rs').
  { intros piece open (rs & r & Hr & _ & ->)%extend_records. unfold file_of in Hr. rewrite Hf in Hr. pose proof (Ht rs Hr). rewrite count_app.
    pose proof (count_nonneg "chargeable_tier_failure" m [r]). lia. }
  destruct f; cbn [snd]; unfold trust_records, file_of; cbn [gs_files with_files]; rewrite ?lookup_insert_eq; try (by apply Hput). rewrite Hf. by apply Ht.
Qed.
Lemma chargeable_reads m t : chargeable_failures m t = (match trust_records t with Some rs => Ok (count_of "chargeable_tier_failure" m rs) | None => Err CorruptLedger end, t).
Proof. unfold chargeable_failures, gbind, read_all. fold (trust_records t). by destruct (trust_records t). Qed.
Lemma guard_keeps_trust m k m' p plan reply st : tripped m k st.1 -> tripped m k (guard_precommit m' p plan reply st).2.1.
Proof.
  destruct st as [t g]. cbn [fst]. intros Ht. unfold guard_precommit. rewrite chargeable_reads. destruct (trust_records t) as [rs|]; [|done]. destruct (_ <? _).
  - pose proof (append_tripped m k (refusal_json m' (count_of "chargeable_tier_failure" m' rs) (tier_k p)) t Ht) as Ha. destruct (append _ _ t) as [[[]|e] t']; exact Ha.
  - destruct (submit_precommit _ _ _ _ _ _) as [[id|e] g']; exact Ht.
Qed.
Lemma tripped_guard_refuses m p plan reply st : tripped m (tier_k p) st.1 ->
  (guard_precommit m p plan reply st).2.2 = st.2 /\ forall id, (guard_precommit m p plan reply st).1 <> Ok (Submitted id).
Proof.
  destruct st as [t g]. cbn [fst snd]. intros Ht. unfold guard_precommit. rewrite chargeable_reads. destruct (trust_records t) as [rs|] eqn:E; [|done]. pose proof (Ht rs E) as H.
  apply Z.ltb_lt in H. rewrite H. destruct (append _ _ t) as [[[]|e] t']; done.
Qed.

(** Once the charges of a member exceed its tier, no history of screenings and
    guarded precommits, whatever their writes come to, lets a precommit for the
    member through: the gateway's ledgers and its requests stay as they are. *)
Theorem open_breaker_is_final m p st st' plan reply : tripped m (tier_k p) st.1 -> rtc trust_step st st' ->
  (guard_precommit m p plan reply st').2.2 = st'.2 /\ forall id, (guard_precommit m p plan reply st').1 <> Ok (Submitted id).
Proof.
  intros Ht H. apply tripped_guard_refuses. induction H as [|st1 st2 st3 H12 _ IH]; [done|]. apply IH. destruct H12; cbn [fst].
  - by apply append_tripped.
  - by apply guard_keeps_trust.
Qed.
End trust.

(** ** What is screened and charged *)

Lemma chunks_cover n : (1 <= n)%nat -> forall fuel l, (length l <= fuel)%nat -> concat (chunks fuel n l) = l.
Proof.
  intros Hn. induction fuel as [|fuel IH]; intros [|x l] Hl; cbn [length] in Hl; [done|lia|done|]. cbn [chunks concat]. rewrite IH; [by rewrite take_drop|]. rewrite length_drop. cbn [length]. lia.
Qed.
Lemma no_bundle_meets (f : Z -> bool) ls : length (List.filter (existsb f) ls) = 0%nat <-> Forall (fun q => f q = false) (concat ls).
Proof.
  induction ls as [|l ls IH]; [by cbn|]. cbn [List.filter concat]. rewrite Forall_app, <- IH. destruct (existsb f l) eqn:E.
  - split; [done|]. intros [H _]. apply existsb_exists in E as (x & Hx & Hf). rewrite Forall_forall in H. apply list_elem_of_In in Hx. by rewrite (H x Hx) in Hf.
  - split; [|tauto]. intros H. split; [|done]. apply Forall_forall. intros x Hx%list_elem_of_In. destruct (f x) eqn:Hf; [|done]. rewrite <- E. symmetry. apply existsb_exists. by exists x.
Qed.

(** The qualities are screened when they divide into the bundles, and the package
    is charged exactly when no quality reaches the minimum; it is never fraud. *)
Theorem charged_when_no_solution_counts qualities n policy : 0 <= n ->
  match screen_solution_quality qualities n policy with
  | Ok sc => (n | Z.of_nat (length qualities)) /\ qualities <> [] /\ fraud sc = false /\ method_loss sc = false /\
      (chargeable_tier_failure sc = true <-> Forall (fun q => q < min_verification_quality policy) qualities)
  | Err _ => qualities = [] \/ ~ (n | Z.of_nat (length qualities))
  end.
Proof.
  intros Hn. unfold screen_solution_quality. destruct (n =? 0) eqn:E0; cbn [orb].
  { apply Z.eqb_eq in E0 as ->. destruct qualities; [by left|]. right. intros H%Z.divide_0_l. done. }
  apply Z.eqb_neq in E0. destruct qualities as [|q qs]; [by left|]. set (l := q :: qs). change (Nat.eqb (length l) 0) with false. cbv iota.
  assert (Hpos : 0 < Z.of_nat (length l)) by (cbn; lia). destruct (Z.of_nat (length l) mod n =? 0) eqn:Em.
  - apply Z.eqb_eq, Z.mod_divide in Em; [|done]. assert (Hq : 0 < Z.of_nat (length l) / n) by (apply Z.div_str_pos; split; [lia|by apply Z.divide_pos_le]).
    destruct (_ / n =? 0) eqn:Ez; [apply Z.eqb_eq in Ez; lia|]. cbn [orb negb].
    assert (Hm : bundles_meeting policy (Z.to_nat (Z.of_nat (length l) / n)) l = 0%nat <-> Forall (fun q => q < min_verification_quality policy) l).
    { unfold bundles_meeting. rewrite no_bundle_meets, chunks_cover by lia. apply Forall_iff. intros x. apply Z.leb_gt. }
    destruct (Nat.eqb_spec (bundles_meeting policy (Z.to_nat (Z.of_nat (length l) / n)) l) 0) as [H|H]; cbn [fraud method_loss chargeable_tier_failure]; split_and!; try done.
    + split; [intros _; by apply Hm|done].
    + split; [done|]. intros F. by apply Hm in F.
  - rewrite orb_true_r. right. intros H. apply Z.mod_divide in H; [|done]. by rewrite H in Em.
Qed.

(** What is not reproduced is the method's loss, never a charge and never fraud. *)
Lemma mismatched_spec packaged : forall reproduced nonces, length packaged = length reproduced -> mismatched packaged reproduced = Ok nonces ->
  packaged.*1 = reproduced.*1 /\ (nonces = [] <-> packaged = reproduced).
Proof.
  induction packaged as [|[a sa] ps IH]; intros [|[b sb] rs] nonces Hl; cbn [length] in Hl; try done; [by intros [= <-]|]. cbn [mismatched]. destruct (Z.eqb_spec a b) as [-> |]; [|done]. cbn [negb].
  destruct (mismatched ps rs) as [rest|] eqn:E; [|done]. destruct (IH rs rest ltac:(lia) E) as [H1 H2]. intros [= <-]. cbn. split; [by rewrite H1|]. destruct (Z.eqb_spec sa sb) as [-> |Hne].
  - rewrite H2. split; [by intros ->|by intros [= ->]].
  - split; [done|]. by intros [= ? ?].
Qed.
Theorem method_loss_when_not_reproduced packaged reproduced sc : screen_reproduction packaged reproduced = Ok sc ->
  packaged.*1 = reproduced.*1 /\ fraud sc = false /\ chargeable_tier_failure sc = false /\ (method_loss sc = true <-> packaged <> reproduced).
Proof.
  unfold screen_reproduction. destruct (Nat.eqb_spec (length packaged) (length reproduced)) as [Hl|]; [|by rewrite orb_true_r]. destruct (Nat.eqb _ 0); [done|]. cbn [orb negb].
  destruct (mismatched packaged reproduced) as [nonces|] eqn:E; [|done]. destruct (mismatched_spec _ _ _ Hl E) as [H1 H2]. cbn. destruct nonces as [|x nonces]; intros [= <-]; cbn; split_and!; try done.
  - split; [done|]. intros Hne. destruct Hne. by apply H2.
  - split; [|done]. intros _ Heq. by apply H2 in Heq.
Qed.

(** A screening that is recorded counts for its member alone, and once: as a
    charge or as a method loss, whichever it is. *)
Theorem recorded_screening_counts_once t rs m b sc p : gs_faults t = [] -> jf_open (file_of "member-trust" t) = false -> trust_records t = Some rs ->
  exists rs', trust_records (record_screening m b sc p t).2 = Some rs' /\
  forall m', count_of "chargeable_tier_failure" m' rs' = count_of "chargeable_tier_failure" m' rs + Z.b2z (bool_decide (m' = m) && chargeable_tier_failure sc) /\
             count_of "method_loss" m' rs' = count_of "method_loss" m' rs + Z.b2z (bool_decide (m' = m) && method_loss sc).
Proof.
  intros Hf Ho Hr. exists (rs ++ [screening_json m b sc p]). split.
  - unfold record_screening, append, take_wfault. rewrite Hf. unfold trust_records, file_of. cbn [snd gs_files with_files]. rewrite lookup_insert_eq. change (default no_file (Some ?x)) with x.
    unfold extend. unfold file_of in Ho. rewrite Ho. unfold records. cbn [jf_pieces]. apply mapM_Some_2, Forall2_app; [by apply mapM_Some_1|]. by repeat constructor.
  - intros m'. rewrite !count_app. assert (H : forall key bit, json_get key (screening_json m b sc p) = Some (JBool bit) ->
      count_of key m' [screening_json m b sc p] = Z.b2z (bool_decide (m' = m) && bit)); [|by rewrite (H _ (chargeable_tier_failure sc)), (H _ (method_loss sc))].
    intros key bit Hk. unfold count_of, counts_for. cbn [List.filter]. rewrite Hk. cbn [and_then json_as_bool]. change (str_field "member_id" _) with (Some m).
    destruct (decide (m' = m)) as [-> |Hne]; [rewrite (bool_decide_true (Some m = Some m)) by done; rewrite (bool_decide_true (m = m)) by done; by destruct bit|].
    rewrite (bool_decide_false (Some m = Some m')) by (intros [= ->]; done). by rewrite (bool_decide_false (m' = m)).
Qed.

(** ** A run *)

Definition tr_sha (l : list Z) : list Z := replicate 32 (foldr Z.add 0 l mod 256).
Definition tr_print (v : Value) : string := default "?" (str_field "compute_type" v).
Definition tr_parse (t : string) : option Value := Some (json_object [("benchmark_id", JString t)]).
Definition worthless : Screening := default (MkScreening "" "" true true true JNull) (match screen_solution_quality [1; 2; 39; 0] 2 fixture_v1 with Ok sc => Some sc | Err _ => None end).
Lemma charged_when_no_solution_counts_witness : screen_solution_quality [1; 2; 39; 0] 2 fixture_v1 = Ok worthless /\ fraud worthless = false /\
  (chargeable_tier_failure worthless = true <-> Forall (fun q => q < 40) [1; 2; 39; 0]).
Proof.
  assert (E : screen_solution_quality [1; 2; 39; 0] 2 fixture_v1 = Ok worthless) by (vm_compute; reflexivity).
  pose proof (charged_when_no_solution_counts [1; 2; 39; 0] 2 fixture_v1 ltac:(lia)) as H. rewrite E in H. destruct H as (_ & _ & H1 & _ & H2). exact (conj E (conj H1 H2)).
Defined.
Definition unlike : Screening := default worthless (match screen_reproduction [(1, 7); (2, 8)] [(1, 7); (2, 9)] with Ok sc => Some sc | Err _ => None end).
Lemma method_loss_when_not_reproduced_witness : chargeable_tier_failure unlike = false /\ (method_loss unlike = true <-> [(1, 7); (2, 8)] <> [(1, 7); (2, 9)]).
Proof. exact (proj2 (proj2 (method_loss_when_not_reproduced [(1, 7); (2, 8)] [(1, 7); (2, 9)] unlike eq_refl))). Defined.
Definition tr_record (t : GwState) : GwState := left (record_screening "alpha" "b1" worthless fixture_v1) (with_wfaults [] t).
Lemma recorded_screening_counts_once_witness : exists rs', trust_records (record_screening "alpha" "b1" worthless fixture_v1 gw_empty).2 = Some rs' /\
  forall m', count_of "chargeable_tier_failure" m' rs' = count_of "chargeable_tier_failure" m' [] + Z.b2z (bool_decide (m' = "alpha") && chargeable_tier_failure worthless) /\
             count_of "method_loss" m' rs' = count_of "method_loss" m' [] + Z.b2z (bool_decide (m' = "alpha") && method_loss worthless).
Proof. exact (recorded_screening_counts_once gw_empty [] "alpha" "b1" worthless fixture_v1 eq_refl eq_refl eq_refl). Defined.
(** The third charge of a member of the second tier. *)
Abbreviation charged := (tr_record (tr_record (tr_record gw_empty))).
Lemma charged_is_tripped : tripped "alpha" (tier_k fixture_v1) charged.
Proof. intros rs H. vm_compute in H. injection H as <-. vm_compute. reflexivity. Qed.
Definition tr_plan : PrecommitPlan := MkPlan (json_object [("compute_type", JString "cpu")]) [] 0 0.
Abbreviation tr_guard m st := (guard_precommit tr_sha tr_print tr_parse m fixture_v1 tr_plan (Ok (200, "b2")) st).
(** Another member's precommit goes through in the meantime. *)
Abbreviation tr_later := ((tr_guard "beta" (with_wfaults [] charged, with_wfaults [] gw_empty)).2).
Lemma tr_later_history : rtc (trust_step tr_sha tr_print tr_parse) (charged, gw_empty) tr_later.
Proof. apply rtc_once. exact (step_guard tr_sha tr_print tr_parse (charged, gw_empty) "beta" fixture_v1 tr_plan (Ok (200, "b2")) [] []). Qed.
Lemma open_breaker_is_final_witness : (tr_guard "alpha" tr_later).2.2 = tr_later.2 /\ forall id, (tr_guard "alpha" tr_later).1 <> Ok (Submitted id).
Proof. exact (open_breaker_is_final tr_sha tr_print tr_parse "alpha" fixture_v1 (charged, gw_empty) tr_later tr_plan (Ok (200, "b2")) charged_is_tripped tr_later_history). Defined.
Example second_tier_refuses_after_three : length (gs_sent tr_later.2) = 1%nat /\ (tr_guard "alpha" (charged, gw_empty)).1 = Ok (Refused "alpha" 3 2) /\
  is_Ok (tr_guard "alpha" (tr_record (tr_record gw_empty), gw_empty)).1 = true.
Proof. vm_compute. by repeat split. Qed.
