(* ===== verification/Authed.v ===== *)
(** * The authenticated upload path: [crates/spike/src/authed.rs]

    The bridge between the identity service ([Identity]) and the pool's storage
    ([Upload]): every operation of a member is verified, scoped to the worker it
    was issued to, and then carried out by the pool.

    The state is the two stores, each with what becomes of its writes; an
    operation is a program over both.  [issuance] is the lock that makes an
    issuance one step.  A panic (a field set on a value that is not an object)
    is an error of its own.  The texts of the errors are left out. *)
From S2P Require Import Prelude Text BTreeMap Json Domain Rfc3339 Merkle IdentityStore Identity IdentityHistory FakeTig Upload UploadHistory Package.
Open Scope Z_scope.

Inductive AuthedError := AIdentity (code : IdentityErrorCode) | APool (e : PoolError) | APanicked.
Definition identity_code (e : AuthedError) : option IdentityErrorCode := match e with AIdentity c => Some c | _ => None end.
Definition pool_code (e : AuthedError) : option ErrorCode := match e with APool e => Some (pe_code e) | _ => None end.
Definition unknown_resource : AuthedError := AIdentity UnknownResource.

Definition Both : Type := Depot * Store.
Definition AM (A : Type) : Type := Both -> result AuthedError A * Both.
Definition aret {A} (a : A) : AM A := fun st => (Ok a, st).
Definition afail {A} (e : AuthedError) : AM A := fun st => (Err e, st).
Definition alift {A} (r : result AuthedError A) : AM A := fun st => (r, st).
Definition abind {A B} (m : AM A) (k : A -> AM B) : AM B := fun st => match m st with (Ok a, st') => k a st' | (Err e, st') => (Err e, st') end.
Notation "'let@' x ':=' m 'in' k" := (abind m (fun x => k))
  (at level 10, x pattern, m at level 200, k at level 200, format "'[v' 'let@'  x  ':='  m  'in' '/' k ']'") : pool_scope.
Definition awhen (b : bool) (e : AuthedError) : AM unit := fun st => (if b then Err e else Ok tt, st).
Definition on_pool {A} (m : P A) : AM A := fun st => let (r, d) := m st.1 in (map_err APool r, (d, st.2)).
Definition on_identity {A} (m : M A) : AM A := fun st => let (r, s) := m st.2 in (map_err AIdentity r, (st.1, s)).

(** ** Identifiers *)

Definition member_uuid_char (i : nat) (c : Ascii.ascii) : bool :=
  if existsb (Nat.eqb i) [8; 13; 18; 23]%nat then byte c =? 45
  else ((48 <=? byte c) && (byte c <=? 57)) || ((97 <=? byte c) && (byte c <=? 102)).
Definition valid_member_uuid (id : string) : bool :=
  let bytes := String.list_ascii_of_string id in Nat.eqb (length bytes) 36 && forallb (fun b => b) (imap member_uuid_char bytes).
Definition path_id (path prefix suffix : string) : option string :=
  and_then (strip_prefix prefix path) (fun rest => and_then (strip_suffix suffix rest) (fun id =>
    if is_empty id || str_contains "/" id then None else Some id)).
Definition body_str (body : Value) (key : string) : result AuthedError string := ok_or (and_then (json_get key body) json_as_str) unknown_resource.
(** [value[key] = v]: null becomes an object, another value that is not an object panics. *)
Definition index_set (key : string) (v doc : Value) : result AuthedError Value :=
  match doc with JObject m => Ok (JObject (bt_insert key v m)) | JNull => Ok (JObject [(key, v)]) | _ => Err APanicked end.
Record AssignmentIssuance := MkIssuance {
  ai_issuance_id : string; ai_worker_id : string; ai_slot_id : string; ai_benchmark_id : string; ai_assignment_digest : string; ai_network : string }.

Section authed.
Context (sha256 : list Z -> list Z) (to_string : Value -> string) (from_str : string -> option Value).
Context (unzstd : Z -> list Z -> option (list Z)) (tar_entries : list Z -> option (list (option (option string * option (list Z))))).
Context (listing : list (option Value) -> list (option Value)) (root_display : string).
Context {Key : Type} (b64_decode : string -> option (list Z)) (key_from_bytes : list Z -> option Key) (verify_strict : Key -> list Z -> list Z -> bool).
Context (keyed_hash : list Z -> list Z -> list Z) (server_key : list Z).
Abbreviation verify_request := (Identity.verify_request sha256 b64_decode key_from_bytes verify_strict).
Abbreviation issue_assignment := (Identity.issue_assignment sha256 keyed_hash server_key).
Abbreviation from_slice := (Package.from_slice from_str).
Definition scoped_package_id (assignment_id package_id : string) : string :=
  String.substring 0 32 (Merkle.sha256_hex sha256 (as_bytes (String.concat ":" [assignment_id; package_id]))).

(** ** Issuance *)

(** The slot as it is, [None] before its first assignment. *)
Definition known_slot (slot_id : string) : P (option SlotView) := fun d =>
  match slot_view listing slot_id d with
  | (Ok v, d) => (Ok (Some v), d)
  | (Err e, d) => (if bool_decide (pe_code e = SlotUnknown) then Ok None else Err e, d)
  end.
Definition assignment_context (req : AssignmentIssuance) (grant : AssignmentGrant) (generation : Z) : Value :=
  json_object [("assignment_digest", JString (ai_assignment_digest req)); ("assignment_id", JString (ag_assignment_id grant)); ("benchmark_id", JString (ag_benchmark_id grant));
               ("member_id", JString (ag_member_id grant)); ("worker_id", JString (ag_worker_id grant)); ("slot_id", JString (ag_slot_id grant));
               ("slot_generation", json_u64 generation); ("network", JString (ai_network req))].
Definition issue_and_register_assignment (req : AssignmentIssuance) (now : Z) : AM AssignmentGrant :=
  let@ view := on_pool (known_slot (ai_slot_id req)) in
  let@ prior := on_identity (assignment_issuance (ai_issuance_id req)) in
  let replay := bool_decide (is_Some prior) in
  let@ _ := awhen (negb replay && match view with Some v => sv_occupied v | None => false end) (APool (err SlotOccupied)) in
  let facts := MkAssignmentFacts (ai_worker_id req) (ai_slot_id req) (ai_benchmark_id req) (ai_assignment_digest req) (ai_network req) in
  let@ grant := on_identity (issue_assignment (ai_issuance_id req) facts now) in
  let register generation := let@ _ := on_pool (register_assignment (assignment_context req grant generation)) in aret grant in
  match view, replay with
  | Some v, _ =>
      if String.eqb (sv_assignment_id v) (ag_assignment_id grant) then register (sv_generation v)
      else if replay then aret grant
      else if negb (sv_occupied v) then let@ next := on_pool (offer_slot listing (ai_slot_id req) (ag_assignment_id grant)) in register next
      else afail (APool (err SlotOccupied))
  | None, true => aret grant
  | None, false => register 1
  end.

(** ** Authorization *)

Definition reject {A} (caller : VerifiedWorker) (kind : string) (now : Z) : AM A := on_identity (reject_unknown_resource caller kind now).
(** What the service finds of a resource, errors included, if it is the caller's. *)
Definition authorized {A} (lookup : M (option A)) (worker_of : A -> string) (caller : VerifiedWorker) (kind : string) (now : Z) : AM A := fun st =>
  match lookup st.2 with
  | (Ok (Some a), s) => if String.eqb (worker_of a) (vw_worker_id caller) then (Ok a, (st.1, s)) else reject caller kind now (st.1, s)
  | (_, s) => reject caller kind now (st.1, s)
  end.
Definition authorize_assignment (caller : VerifiedWorker) (assignment_id : string) (now : Z) : AM AssignmentGrant :=
  authorized (assignment_grant assignment_id) ag_worker_id caller "assignment" now.
Definition authorize_upload (caller : VerifiedWorker) (upload_id : string) (now : Z) : AM UploadBinding :=
  authorized (upload_binding upload_id) ub_worker_id caller "upload" now.
Definition routed (sr : SignedRequest) (method prefix suffix : string) : result AuthedError string :=
  ok_or (if String.eqb (sq_method sr) method then path_id (sq_path sr) prefix suffix else None) unknown_resource.

(** ** The members' operations *)

Definition offer_response (record : OfferRecord) (caller : VerifiedWorker) (now : Z) : Value :=
  json_object [("protocol_version", JString "0.1.0"); ("offer_id", JString (of_offer_id record)); ("worker_id", JString (vw_worker_id caller)); ("slot_id", JString (of_slot_id record));
               ("offer_state", JString "NO_ACTION"); ("precommit_state", JString "NOT_STARTED"); ("reason_code", JString "NO_APPLICABLE_ADMISSION_POLICY");
               ("server_time", JString (rfc3339_utc now))].
Definition offer_capacity (sr : SignedRequest) (body : list Z) (now : Z) : AM Value :=
  let@ caller := on_identity (verify_request sr body now) in
  let@ _ := awhen (negb (String.eqb (sq_method sr) "POST") || negb (String.eqb (sq_path sr) "/member/v0/capacity-offers")) unknown_resource in
  let@ parsed := alift (ok_or (from_slice body) unknown_resource) in
  let@ offer_id := alift (body_str parsed "offer_id") in
  let@ slot_id := alift (body_str parsed "slot_id") in
  let@ _ := authorized (slot_grant slot_id) sg_worker_id caller "slot" now in
  let@ view := on_pool (known_slot slot_id) in
  let@ _ := awhen (match view with Some v => sv_occupied v | None => false end) (APool (err SlotOccupied)) in
  let@ record := on_identity (record_capacity_offer caller offer_id slot_id now) in
  aret (offer_response record caller now).
Definition create_upload (sr : SignedRequest) (body : list Z) (now : Z) : AM UploadSession :=
  let@ caller := on_identity (verify_request sr body now) in
  let@ assignment_id := alift (routed sr "POST" "/member/v0/assignments/" "/uploads") in
  let@ grant := authorize_assignment caller assignment_id now in
  let@ declaration := alift (ok_or (from_slice body) unknown_resource) in
  let@ digest := alift (body_str declaration "assignment_digest") in
  let@ registered := on_pool (assignment_by_digest digest) in
  let@ registered := match registered with Some r => aret r | None => reject caller "assignment" now end in
  let@ _ := if bool_decide (and_then (json_get "assignment_id" registered) json_as_str = Some (ag_assignment_id grant)) then aret tt else reject caller "assignment" now in
  let@ package_id := alift (body_str declaration "package_id") in
  let@ _ := if valid_member_uuid package_id then aret tt else reject caller "package" now in
  let pool_package_id := scoped_package_id (ag_assignment_id grant) package_id in
  let@ accepted := on_pool (accepted_package_for_assignment listing (ag_assignment_id grant)) in
  let@ _ := awhen (match accepted with Some a => negb (String.eqb a pool_package_id) | None => false end) (APool (err AssignmentAlreadyAccepted)) in
  let@ pool_declaration := alift (index_set "package_id" (JString pool_package_id) declaration) in
  let@ session := on_pool (Upload.create_upload sha256 to_string from_str pool_declaration) in
  let@ _ := on_identity (bind_upload (MkUploadBinding (us_upload_id session) package_id pool_package_id (ag_assignment_id grant) (vw_worker_id caller))) in
  aret session.
Definition put_chunk (sr : SignedRequest) (offset : Z) (chunk_sha256 : string) (body : list Z) (now : Z) : AM Z :=
  let@ caller := on_identity (verify_request sr body now) in
  let@ upload_id := alift (routed sr "PUT" "/member/v0/uploads/" "") in
  let@ _ := authorize_upload caller upload_id now in
  on_pool (Upload.put_chunk sha256 to_string from_str upload_id offset chunk_sha256 body).
Definition member_receipt (binding : UploadBinding) (receipt_json : string) : result AuthedError string :=
  let? receipt := ok_or (from_str receipt_json) (APool storage) in
  let? receipt := index_set "package_id" (JString (ub_package_id binding)) receipt in
  Ok (to_string receipt).
(** The caller may finalize the upload. *)
Definition finalize_bound (body : list Z) (clock : Z) (upload_id : string) (binding : UploadBinding) : AM FinalizeOutcome :=
  let@ parsed := alift (ok_or (from_slice body) unknown_resource) in
  let@ declaration := on_pool (Upload.declaration upload_id) in
  let@ echoed_sha := alift (body_str parsed "package_sha256") in
  let@ echoed_size := alift (ok_or (and_then (json_get "compressed_size_bytes" parsed) json_as_u64) unknown_resource) in
  let@ _ := awhen (negb (bool_decide (Some echoed_sha = and_then (json_get "package_sha256" declaration) json_as_str)) ||
                   negb (bool_decide (Some echoed_size = and_then (json_get "compressed_size_bytes" declaration) json_as_u64))) (APool (err DeclarationConflict)) in
  let@ outcome := on_pool (Upload.finalize sha256 to_string from_str unzstd tar_entries listing root_display (ub_pool_package_id binding) clock) in
  let@ receipt_json := alift (member_receipt binding (fo_receipt_json outcome)) in
  aret (MkFinalize receipt_json (fo_fresh outcome)).
Definition finalize (sr : SignedRequest) (body : list Z) (now clock : Z) : AM FinalizeOutcome :=
  let@ caller := on_identity (verify_request sr body now) in
  let@ upload_id := alift (routed sr "POST" "/member/v0/uploads/" "/finalize") in
  let@ binding := authorize_upload caller upload_id now in
  finalize_bound body clock upload_id binding.
Definition upload_status (sr : SignedRequest) (body : list Z) (now : Z) : AM Value :=
  let@ caller := on_identity (verify_request sr body now) in
  let@ upload_id := alift (routed sr "POST" "/member/v0/uploads/" "/status") in
  let@ binding := authorize_upload caller upload_id now in
  let@ status := on_pool (Upload.upload_status from_str upload_id) in
  let@ status := alift (index_set "package_id" (JString (ub_package_id binding)) status) in
  let@ accepted := on_pool (acceptance (ub_pool_package_id binding)) in
  match and_then accepted (json_get "receipt") with
  | Some receipt =>
      let@ rewritten := alift (member_receipt binding (to_string receipt)) in
      let@ v := alift (ok_or (from_str rewritten) (APool storage)) in
      alift (index_set "acceptance_receipt" v status)
  | None => aret status
  end.

(** ** The operations *)

Inductive AuthedOp :=
| AIssue (req : AssignmentIssuance) (now : Z)
| AOffer (sr : SignedRequest) (body : list Z) (now : Z)
| ACreate (sr : SignedRequest) (body : list Z) (now : Z)
| APut (sr : SignedRequest) (offset : Z) (chunk_sha256 : string) (body : list Z) (now : Z)
| AFinalize (sr : SignedRequest) (body : list Z) (now clock : Z)
| AStatus (sr : SignedRequest) (body : list Z) (now : Z).
Definition run_authed (op : AuthedOp) (st : Both) : Both :=
  match op with
  | AIssue req now => (issue_and_register_assignment req now st).2
  | AOffer sr body now => (offer_capacity sr body now st).2
  | ACreate sr body now => (create_upload sr body now st).2
  | APut sr offset sha body now => (put_chunk sr offset sha body now st).2
  | AFinalize sr body now clock => (finalize sr body now clock st).2
  | AStatus sr body now => (upload_status sr body now st).2
  end.
(** The arguments are [u64]s. *)
Definition authed_ok (op : AuthedOp) : bool := match op with APut _ offset _ body _ => is_u64 offset && is_u64 (Z.of_nat (length body)) | _ => true end.

Context (b64url : list Z -> string) (enroll_text : EnrollRequest -> string).
Abbreviation changed := (disk_change sha256 to_string listing root_display (fun _ => True)).
Abbreviation stepped := (pool_step sha256 to_string from_str unzstd tar_entries listing root_display).
Abbreviation called := (IdentityHistory.called sha256 b64_decode b64url key_from_bytes verify_strict keyed_hash enroll_text server_key any).
(** A request, an operation of one of the two services, or a turn of the pool's disk. *)
Inductive bridge_step (st : Both) : Both -> Prop :=
| bridge_op op : authed_ok op = true -> bridge_step st (run_authed op st)
| bridge_pool d' : stepped st.1 d' -> bridge_step st (d', st.2)
| bridge_identity s' : called st.2 s' -> bridge_step st (st.1, s')
| bridge_disk fs : bridge_step st (with_faults fs st.1, st.2).

(** ** An operation moves each store by that store's own operations *)

Definition moves {A} (m : AM A) : Prop := forall st, rtc changed st.1 (m st).2.1 /\ rtc called st.2 (m st).2.2.
Lemma moves_same {A} (m : AM A) : (forall st, (m st).2 = st) -> moves m.
Proof. intros H st. rewrite H. by split. Qed.
Lemma moves_bind {A B} (m : AM A) (k : A -> AM B) : moves m -> (forall a, moves (k a)) -> moves (abind m k).
Proof.
  intros Hm Hk st. specialize (Hm st). unfold abind. destruct (m st) as [[a|e] st1]; [|exact Hm]. cbn [snd] in Hm. destruct (Hk a st1) as [H1 H2]. destruct Hm. split; by etransitivity.
Qed.
Lemma moves_pool {A} (m : P A) : changes sha256 to_string listing root_display (fun _ => True) m -> moves (on_pool m).
Proof. intros Hm [d s]. specialize (Hm d). unfold on_pool, after in *. cbn [fst snd]. destruct (m d) as [r d']. by split. Qed.
Lemma moves_reads {A} (m : P A) : reads m -> moves (on_pool m).
Proof. intros H. by apply moves_pool, reads_changes. Qed.
Lemma moves_identity {A} (m : M A) : (forall s, rtc called s (m s).2) -> moves (on_identity m).
Proof. intros Hm [d s]. specialize (Hm s). unfold on_identity. cbn [fst snd]. destruct (m s) as [r s']. by split. Qed.
Lemma call_moves c {A} (m : M A) : call sha256 b64_decode b64url key_from_bytes verify_strict keyed_hash enroll_text server_key c = bind m (fun _ => ret tt) ->
  forall s, rtc called s (m s).2.
Proof.
  intros E s. apply rtc_once. apply (called_call _ _ _ _ _ _ _ _ any s _ c (bind m (fun _ => ret tt) s).1); [done|]. rewrite E. unfold bind. by destruct (m s) as [[a|e] s'].
Qed.
Lemma reject_moves {A} caller kind now s : rtc called s ((@reject_unknown_resource A caller kind now) s).2.
Proof.
  apply rtc_once. apply (called_call _ _ _ _ _ _ _ _ any s _ (CRefuse caller kind now) (@reject_unknown_resource unit caller kind now s).1); [done|]. cbn [call].
  unfold reject_unknown_resource, bind. by destruct (audit _ _ _ s) as [[[]|e] s'].
Qed.
Lemma bind_upload_moves b s : rtc called s (bind_upload b s).2.
Proof. apply rtc_once. eapply (called_call _ _ _ _ _ _ _ _ any s _ (CBindUpload b)); [done|]. cbn [call]. apply surjective_pairing. Qed.
(** A lookup leaves the store. *)
Definition looks {A} (m : M A) : Prop := forall s, (m s).2 = s.
Lemma found_looks {A} (v : result IdentityErrorCode unit) rel (f : Value -> M (option A)) : (forall doc, looks (f doc)) ->
  looks (let! _ := lift v in let! found := IdentityStore.read_doc rel in match found with Some doc => f doc | None => ret None end).
Proof. intros Hf s. unfold bind, lift, IdentityStore.read_doc, IdentityStore.read_at. destruct v; [|done]. destruct (st_unread s _); [done|]. destruct (st_docs s !! rel); [apply Hf|done]. Qed.
Lemma lifted_looks {A B} (r : result IdentityErrorCode A) (f : A -> B) : looks (let! a := lift r in ret (f a)).
Proof. intros s. unfold bind, lift. by destruct r. Qed.

Lemma upload_binding_looks u : looks (upload_binding u).
Proof. apply found_looks. intros doc. apply lifted_looks. Qed.
Lemma assignment_grant_looks a : looks (assignment_grant a).
Proof. apply found_looks. intros doc. apply lifted_looks. Qed.
Lemma slot_grant_looks a : looks (slot_grant a).
Proof. apply found_looks. intros doc. apply lifted_looks. Qed.
Lemma assignment_issuance_looks a : looks (assignment_issuance a).
Proof. apply found_looks. intros doc s. unfold bind at 1, lift. destruct (ok_or _ _); [apply lifted_looks|done]. Qed.
Lemma moves_looks {A} (m : M A) : looks m -> moves (on_identity m).
Proof. intros H. apply moves_identity. intros s. by rewrite H. Qed.
Lemma moves_reject {A} caller kind now : moves (@reject A caller kind now).
Proof. apply moves_identity. intros s. apply reject_moves. Qed.
Lemma moves_authorized {A} (lookup : M (option A)) w caller kind now : looks lookup -> moves (authorized lookup w caller kind now).
Proof.
  intros H [d s]. unfold authorized. cbn [fst snd]. specialize (H s). destruct (lookup s) as [r s']. cbn [snd] in H. subst s'. pose proof (moves_reject (A:=A) caller kind now (d, s)) as Hr.
  destruct r as [[a|]|e]; [|exact Hr|exact Hr]. destruct (String.eqb _ _); [by split|exact Hr].
Qed.
Lemma moves_verify sr body now : moves (on_identity (verify_request sr body now)).
Proof. apply moves_identity. by apply (call_moves (CVerify sr body now)). Qed.
Lemma moves_known_slot slot : moves (on_pool (known_slot slot)).
Proof.
  apply moves_reads. intros d. unfold after, known_slot. pose proof (reads_slot_view listing slot d) as H. unfold after in H. destruct (slot_view listing slot d) as [[v|e] d']; exact H.
Qed.
Lemma moves_if {A} (b : bool) (m k : AM A) : moves m -> moves k -> moves (if b then m else k).
Proof. by destruct b. Qed.
Create HintDb bridge.
Hint Resolve moves_verify moves_known_slot moves_reject moves_authorized upload_binding_looks assignment_grant_looks slot_grant_looks assignment_issuance_looks moves_looks : bridge.
Ltac moving := repeat match goal with
  | |- moves (abind _ _) => apply moves_bind; [|intros ?]
  | |- moves (if _ then _ else _) => apply moves_if
  | |- moves (match ?x with _ => _ end) => destruct x
  | |- moves (let _ := _ in _) => cbv zeta
  | |- moves _ => first [solve [eauto with bridge]|apply moves_same; intros ?; reflexivity]
  end.
Lemma moves_issue req now : moves (issue_and_register_assignment req now).
Proof.
  assert (Hi : forall facts, moves (on_identity (issue_assignment (ai_issuance_id req) facts now))) by (intros facts; apply moves_identity; by apply (call_moves (CIssueAssignment (ai_issuance_id req) facts now))).
  assert (Hreg : forall v, moves (on_pool (register_assignment v))) by (intros v; apply moves_pool, (register_changes sha256 to_string from_str)).
  assert (Ho : forall a b, moves (on_pool (offer_slot listing a b))) by (intros a b; apply moves_pool, (offer_changes sha256 to_string from_str)).
  unfold issue_and_register_assignment. moving.
Qed.
Lemma moves_offer sr body now : moves (offer_capacity sr body now).
Proof.
  assert (Hr : forall caller a b, moves (on_identity (record_capacity_offer caller a b now))) by (intros caller a b; apply moves_identity; by apply (call_moves (COffer caller a b now))).
  unfold offer_capacity. moving.
Qed.
Lemma moves_create sr body now : moves (create_upload sr body now).
Proof.
  assert (Hc : forall v, moves (on_pool (Upload.create_upload sha256 to_string from_str v))) by (intros v; apply moves_pool, create_changes).
  assert (Hb : forall b, moves (on_identity (bind_upload b))) by (intros b; apply moves_identity, bind_upload_moves).
  assert (Ha : forall a, moves (on_pool (accepted_package_for_assignment listing a))) by (intros a; apply moves_reads, reads_accepted).
  assert (Hd : forall a, moves (on_pool (assignment_by_digest a))) by (intros a; apply moves_reads; apply reads_bind; [done|by intros ? ?]).
  unfold create_upload, authorize_assignment. moving.
Qed.
Lemma moves_upload_ops :
  (forall sr offset sha body now, is_u64 offset && is_u64 (Z.of_nat (length body)) = true -> moves (put_chunk sr offset sha body now)) /\
  (forall sr body now clock, moves (finalize sr body now clock)) /\ (forall sr body now, moves (upload_status sr body now)).
Proof.
  split_and!.
  - intros sr offset sha body now Hok. unfold put_chunk, authorize_upload. do 3 (apply moves_bind; [solve [moving]|intros ?]). apply moves_pool. by apply put_changes.
  - intros sr body now clock. assert (Hf : forall p, moves (on_pool (Upload.finalize sha256 to_string from_str unzstd tar_entries listing root_display p clock))) by (intros p; apply moves_pool, finalize_changes).
    assert (Hd : forall u, moves (on_pool (Upload.declaration u))) by (intros u; apply moves_reads, reads_declaration).
    unfold finalize, finalize_bound, authorize_upload. moving.
  - intros sr body now. assert (Hs : forall u, moves (on_pool (Upload.upload_status from_str u))).
    { intros u. apply moves_reads. unfold Upload.upload_status. repeat (apply reads_bind; [first [apply reads_declaration|done]|]; intros ?). done. }
    assert (Ha : forall p, moves (on_pool (acceptance p))) by (intros p; apply moves_reads; apply reads_bind; [done|by intros ? ?]).
    unfold upload_status, authorize_upload. moving.
Qed.

Lemma bridge_moves st st' : rtc bridge_step st st' -> rtc changed st.1 st'.1 /\ rtc called st.2 st'.2.
Proof.
  induction 1 as [|st1 st2 st3 H12 _ [IH1 IH2]]; [by split|]. destruct moves_upload_ops as (Hput & Hfin & Hst).
  assert (H : rtc changed st1.1 st2.1 /\ rtc called st1.2 st2.2); [|destruct H; split; by etransitivity].
  destruct H12 as [op Hok|d' Hd|s' Hs|fs]; cbn [fst snd].
  - destruct op; cbn [run_authed]; [apply moves_issue|apply moves_offer|apply moves_create|by apply Hput|apply Hfin|apply Hst].
  - split; [by eapply pool_step_changes|constructor].
  - split; [constructor|by apply rtc_once].
  - split; [apply rtc_once; by apply change_faults|constructor].
Qed.

(** ** What an operation on an upload comes to *)

Definition bound (docs : gmap Rel Value) (u : string) (b : UploadBinding) : Prop := exists doc, docs !! RUploadBinding u = Some doc /\ UploadBinding_from_value doc = Some b.
Lemma abind_identity {A B} (m : M A) (k : A -> AM B) d s :
  abind (on_identity m) k (d, s) = match m s with (Ok a, s') => k a (d, s') | (Err e, s') => (Err (AIdentity e), (d, s')) end.
Proof. unfold abind, on_identity. cbn [fst snd]. by destruct (m s) as [[a|e] s']. Qed.
Lemma abind_pool {A B} (m : P A) (k : A -> AM B) d s :
  abind (on_pool m) k (d, s) = match m d with (Ok a, d') => k a (d', s) | (Err e, d') => (Err (APool e), (d', s)) end.
Proof. unfold abind, on_pool. cbn [fst snd]. by destruct (m d) as [[a|e] d']. Qed.
Lemma abind_lift {A B} (r : result AuthedError A) (k : A -> AM B) st : abind (alift r) k st = match r with Ok a => k a st | Err e => (Err e, st) end.
Proof. by destruct r. Qed.
Lemma abind_when {B} b e (k : unit -> AM B) st : abind (awhen b e) k st = if b then (Err e, st) else k tt st.
Proof. by destruct b. Qed.
Lemma upload_binding_found u s b s' : upload_binding u s = (Ok (Some b), s') -> bound (st_docs s) u b /\ is_token u = true.
Proof.
  unfold upload_binding, bind, lift, IdentityStore.read_doc, IdentityStore.read_at, validate_token. destruct (is_token u); [|done]. destruct (st_unread s _); [done|]. destruct (st_docs s !! RUploadBinding u) as [doc|] eqn:E; [|done].
  destruct (UploadBinding_from_value doc) as [b'|] eqn:Eb; [|done]. intros [= <- <-]. split; [by exists doc|done].
Qed.
Lemma reject_refuses {A} caller kind now d s : let x := @reject A caller kind now (d, s) in x.2.1 = d /\ is_Ok x.1 = false.
Proof.
  unfold reject, on_identity, reject_unknown_resource. cbn [fst snd]. unfold bind. destruct (audit _ _ _ s) as [[[]|e] s']; done.
Qed.
Lemma authorized_cases {A} (lookup : M (option A)) w caller kind now d s : looks lookup -> let x := authorized lookup w caller kind now (d, s) in
  (x.2.1 = d /\ is_Ok x.1 = false) \/ exists a, lookup s = (Ok (Some a), s) /\ w a = vw_worker_id caller /\ x = (Ok a, (d, s)).
Proof.
  intros Hl x. unfold x, authorized. cbn [fst snd]. specialize (Hl s). destruct (lookup s) as [r s']. cbn [snd] in Hl. subst s'. destruct r as [[a|]|e]; [|left; apply reject_refuses|left; apply reject_refuses].
  destruct (String.eqb_spec (w a) (vw_worker_id caller)); [|left; apply reject_refuses]. right. by exists a.
Qed.
Abbreviation authentic := (IdentityHistory.authentic sha256 b64_decode key_from_bytes verify_strict).
(** The request stands for a worker, who is the one the upload is bound to. *)
Definition owns (docs : gmap Rel Value) (sr : SignedRequest) (body : list Z) (now : Z) (u : string) : Prop :=
  exists who b, authentic docs sr body now who /\ bound docs u b /\ ub_worker_id b = vw_worker_id who /\ vw_worker_id who = sq_worker_id sr.
Lemma verify_keeps_binding sr body now s who s' u : verify_request sr body now s = (Ok who, s') -> st_docs s' !! RUploadBinding u = st_docs s !! RUploadBinding u.
Proof. unfold Identity.verify_request, check_replay. intros H. unwind; subst; [done|]. by docs. Qed.
(** An operation on an upload is refused, or is the owner's and goes on. *)
Lemma upload_cases {A} sr method prefix suffix body now (k : string -> UploadBinding -> AM A) d s :
  let m := let@ caller := on_identity (verify_request sr body now) in let@ u := alift (routed sr method prefix suffix) in let@ b := authorize_upload caller u now in k u b in
  ((m (d, s)).2.1 = d /\ is_Ok (m (d, s)).1 = false) \/
  exists u b s1, routed sr method prefix suffix = Ok u /\ owns (st_docs s) sr body now u /\ bound (st_docs s) u b /\ ub_worker_id b = sq_worker_id sr /\ rtc called s s1 /\ m (d, s) = k u b (d, s1).
Proof.
  intros m. unfold m. rewrite abind_identity. destruct (verify_request sr body now s) as [[who|e] s1] eqn:Ev; [|by left]. rewrite abind_lift. destruct (routed _ _ _ _) as [u|]; [|by left].
  unfold abind, authorize_upload. destruct (authorized_cases (upload_binding u) ub_worker_id who "upload" now d s1 (upload_binding_looks u)) as [[H1 H2]|(b & Hb & Hw & E)].
  - left. destruct (authorized _ _ _ _ _ _) as [[b|e] st]; done.
  - right. apply upload_binding_found in Hb as [(doc & Hd & Hb) _]. rewrite (verify_keeps_binding _ _ _ _ _ _ u Ev) in Hd. destruct (verify_sound _ _ _ _ _ _ _ _ _ _ Ev) as [Ha _].
    assert (Hwho : vw_worker_id who = sq_worker_id sr) by (destruct Ha as (_ & _ & _ & _ & _ & c & w & e & key & Ha); by destruct_and!). exists u, b, s1. rewrite E. split_and!; [done| |by exists doc|congruence| |done].
    + exists who, b. split_and!; [done|by exists doc|done|done].
    + pose proof (call_moves (CVerify sr body now) (verify_request sr body now) eq_refl s) as Hc. by rewrite Ev in Hc.
Qed.
Lemma routed_path sr method prefix suffix u : routed sr method prefix suffix = Ok u -> path_id (sq_path sr) prefix suffix = Some u.
Proof. unfold routed. destruct (String.eqb _ _); [|done]. destruct (path_id _ _ _); [by intros [= ->]|done]. Qed.
Lemma put_cases sr offset sha body now d s :
  ((put_chunk sr offset sha body now (d, s)).2.1 = d /\ is_Ok (put_chunk sr offset sha body now (d, s)).1 = false) \/
  exists u b, path_id (sq_path sr) "/member/v0/uploads/" "" = Some u /\ owns (st_docs s) sr body now u /\ bound (st_docs s) u b /\ ub_worker_id b = sq_worker_id sr.
Proof.
  destruct (upload_cases sr "PUT" "/member/v0/uploads/" "" body now (fun u _ => on_pool (Upload.put_chunk sha256 to_string from_str u offset sha body)) d s) as [H|(u & b & s1 & Hr & Ho & Hb & Hw & _)]; [by left|].
  right. exists u, b. split_and!; [by apply routed_path in Hr|done..].
Qed.
Lemma finalize_cases sr body now clock d s :
  ((finalize sr body now clock (d, s)).2.1 = d /\ is_Ok (finalize sr body now clock (d, s)).1 = false) \/
  exists u b, path_id (sq_path sr) "/member/v0/uploads/" "/finalize" = Some u /\ owns (st_docs s) sr body now u /\ bound (st_docs s) u b /\ ub_worker_id b = sq_worker_id sr /\
    forall o st', finalize sr body now clock (d, s) = (Ok o, st') -> exists o0,
      Upload.finalize sha256 to_string from_str unzstd tar_entries listing root_display (ub_pool_package_id b) clock d = (Ok o0, st'.1) /\
      member_receipt b (fo_receipt_json o0) = Ok (fo_receipt_json o) /\ fo_fresh o = fo_fresh o0.
Proof.
  destruct (upload_cases sr "POST" "/member/v0/uploads/" "/finalize" body now (finalize_bound body clock) d s) as [H|(u & b & s1 & Hr & Ho & Hb & Hw & _ & E)]; [by left|].
  right. exists u, b. split_and!; [by apply routed_path in Hr|done..|].
  intros o st'. unfold finalize. rewrite E. unfold finalize_bound. rewrite abind_lift. destruct (ok_or (from_slice body) _); [|done]. rewrite abind_pool. unfold Upload.declaration. rewrite pbind_read_doc. destruct (dp_unread d _); [done|]. unfold plift.
  destruct (dp_docs d !! DDeclaration u) as [decl|]; [|done]. cbn [ok_or]. rewrite abind_lift. destruct (body_str _ _); [|done]. rewrite abind_lift. destruct (ok_or _ _); [|done]. rewrite abind_when.
  destruct (_ || _); [done|]. rewrite abind_pool. destruct (Upload.finalize _ _ _ _ _ _ _ _ _ d) as [[o0|e] d'] eqn:Ef; [|done]. rewrite abind_lift.
  destruct (member_receipt b _) as [r|] eqn:Em; [|done]. intros [= <- <-]. exists o0. by split_and!.
Qed.

Lemma bound_kept s s' u b : rtc called s s' -> bound (st_docs s) u b -> bound (st_docs s') u b.
Proof. intros Hs (doc & Hd & Hb). exists doc. split; [|done]. by apply (called_keeps _ _ _ _ _ _ _ _ any s s' (RUploadBinding u) eq_refl Hs). Qed.
Lemma bound_inj docs u b b' : bound docs u b -> bound docs u b' -> b = b'.
Proof. intros (v & Hv & Hb) (v' & Hv' & Hb'). congruence. Qed.
(** A request that was carried out for an upload. *)
Inductive acted (u : string) (sr : SignedRequest) (st : Both) : Both -> Prop :=
| acted_put offset sha body now n st' : is_u64 offset && is_u64 (Z.of_nat (length body)) = true -> path_id (sq_path sr) "/member/v0/uploads/" "" = Some u ->
    put_chunk sr offset sha body now st = (Ok n, st') -> acted u sr st st'
| acted_finalize body now clock o st' : path_id (sq_path sr) "/member/v0/uploads/" "/finalize" = Some u -> finalize sr body now clock st = (Ok o, st') -> acted u sr st st'.
Lemma acted_is_bound u sr st st' : acted u sr st st' -> exists b, bound (st_docs st.2) u b /\ ub_worker_id b = sq_worker_id sr /\ rtc called st.2 st'.2.
Proof.
  destruct st as [d s]. destruct moves_upload_ops as (Hmp & Hmf & _). intros [offset sha body now n st1 Hok Hp E|body now clock o st1 Hp E].
  - pose proof (Hmp sr offset sha body now Hok (d, s)) as [_ Hc]. rewrite E in Hc. destruct (put_cases sr offset sha body now d s) as [[_ H]|(u' & b & Hp' & _ & Hb & Hw)]; [by rewrite E in H|].
    rewrite Hp in Hp'. injection Hp' as <-. by exists b.
  - pose proof (Hmf sr body now clock (d, s)) as [_ Hc]. rewrite E in Hc. destruct (finalize_cases sr body now clock d s) as [[_ H]|(u' & b & Hp' & _ & Hb & Hw & _)]; [by rewrite E in H|].
    rewrite Hp in Hp'. injection Hp' as <-. by exists b.
Qed.

(** ** The properties *)

(** The pool's storage changes, or a request is answered, only for a request whose
    signature verifies and whose worker the upload is bound to. *)
Theorem only_the_owner_uploads sr body now st : (forall u, ~ owns (st_docs st.2) sr body now u) ->
  (forall offset sha, (put_chunk sr offset sha body now st).2.1 = st.1 /\ is_Ok (put_chunk sr offset sha body now st).1 = false) /\
  (forall clock, (finalize sr body now clock st).2.1 = st.1 /\ is_Ok (finalize sr body now clock st).1 = false).
Proof.
  destruct st as [d s]. intros Hno. split.
  - intros offset sha. destruct (put_cases sr offset sha body now d s) as [H|(u & b & _ & Ho & _)]; [exact H|]. by destruct (Hno u).
  - intros clock. destruct (finalize_cases sr body now clock d s) as [H|(u & b & _ & Ho & _)]; [exact H|]. by destruct (Hno u).
Qed.

(** C16. An upload has one worker.  Two requests that were carried out for the same
    upload, chunks put or the upload finalized, are signed by the same worker,
    whatever the pool and the identity service have done in between. *)
Theorem upload_has_one_worker u sr sr' st st1 st2 st3 : acted u sr st st1 -> rtc bridge_step st1 st2 -> acted u sr' st2 st3 -> sq_worker_id sr' = sq_worker_id sr.
Proof.
  intros (b & Hb & Hw & Hc)%acted_is_bound [_ Hs]%bridge_moves (b' & Hb' & Hw' & _)%acted_is_bound.
  assert (b' = b) as ->; [|congruence]. apply (bound_inj (st_docs st2.2) u); [done|]. apply (bound_kept st.2 st2.2); [by etransitivity|done].
Qed.

(** The receipt a member gets never changes: a later answer, to whatever request
    for the upload and after whatever both services have done, is the same text. *)
Theorem member_receipt_is_final u sr body now clock sr' body' now' clock' st o st1 st2 o' st3 :
  path_id (sq_path sr) "/member/v0/uploads/" "/finalize" = Some u -> finalize sr body now clock st = (Ok o, st1) -> rtc bridge_step st1 st2 ->
  path_id (sq_path sr') "/member/v0/uploads/" "/finalize" = Some u -> finalize sr' body' now' clock' st2 = (Ok o', st3) -> o' = MkFinalize (fo_receipt_json o) false.
Proof.
  intros Hp E Hh Hp' E'. destruct st as [d s], st2 as [d2 s2]. destruct (bridge_moves _ _ Hh) as [Hd Hs]. destruct moves_upload_ops as (_ & Hmf & _).
  pose proof (Hmf sr body now clock (d, s)) as [_ Hc]. rewrite E in Hc. cbn [fst snd] in *.
  destruct (finalize_cases sr body now clock d s) as [[_ H]|(v & b & Hv & _ & Hb & _ & Ho)]; [by rewrite E in H|].
  destruct (finalize_cases sr' body' now' clock' d2 s2) as [[_ H]|(v' & b' & Hv' & _ & Hb' & _ & Ho')]; [by rewrite E' in H|].
  assert (v = u) as -> by congruence. assert (v' = u) as -> by congruence. assert (b' = b) as ->.
  { apply (bound_inj (st_docs s2) u); [done|]. apply (bound_kept s s2); [by etransitivity|done]. }
  destruct (Ho _ _ E) as (o0 & Ef & Em & _). destruct (Ho' _ _ E') as (o0' & Ef' & Em' & Hfr').
  destruct (finalize_Ok _ _ _ _ _ _ _ _ _ _ _ _ _ Ef) as (doc & Hdoc & Ht & Hr & Htok).
  pose proof (changes_keep_acceptance _ _ _ _ _ _ _ _ _ Hd Hdoc) as Hdoc2.
  pose proof (finalize_Ok_read _ _ _ _ _ _ _ _ _ _ _ _ _ Ef') as Hread. unfold Upload.finalize in Ef'. rewrite (finalize_again _ _ _ _ _ _ _ _ _ _ d2 doc Htok Hread Hdoc2 Hr) in Ef'. injection Ef' as Eo _. subst o0'. cbn [fo_receipt_json fo_fresh] in *.
  rewrite <- Ht, Em in Em'. injection Em' as Er. destruct o' as [r f]. cbn in *. by subst.
Qed.

Lemma bind_upload_bound b s s' : bind_upload b s = (Ok tt, s') -> bound (st_docs s') (ub_upload_id b) b.
Proof.
  assert (Hrt : UploadBinding_from_value (UploadBinding_to_value b) = Some b) by (by destruct b). unfold bind_upload. intros H. unwind; subst.
  - match goal with B : bool_decide _ = true |- _ => apply bool_decide_eq_true in B; subst end. by exists (UploadBinding_to_value b).
  - exists (UploadBinding_to_value b). split; [by docs|done].
Qed.
(** An upload that was opened is bound to the worker who asked, under an assignment
    granted to that worker, and stored under a name of that assignment. *)
Theorem created_upload_is_bound sr body now st session st' : create_upload sr body now st = (Ok session, st') ->
  exists a grant b, path_id (sq_path sr) "/member/v0/assignments/" "/uploads" = Some a /\ (exists s1, assignment_grant a s1 = (Ok (Some grant), s1) /\ rtc called st.2 s1) /\
    ag_worker_id grant = sq_worker_id sr /\ bound (st_docs st'.2) (us_upload_id session) b /\ ub_assignment_id b = ag_assignment_id grant /\ ub_worker_id b = sq_worker_id sr /\
    ub_pool_package_id b = scoped_package_id (ag_assignment_id grant) (ub_package_id b) /\ valid_member_uuid (ub_package_id b) = true.
Proof.
  destruct st as [d s]. unfold create_upload. rewrite abind_identity. destruct (verify_request sr body now s) as [[who|e] s1] eqn:Ev; [|done]. rewrite abind_lift.
  destruct (routed _ _ _ _) as [a|] eqn:Hr; [|done]. apply routed_path in Hr. unfold abind at 1, authorize_assignment.
  destruct (authorized_cases (assignment_grant a) ag_worker_id who "assignment" now d s1 (assignment_grant_looks a)) as [[_ H2]|(grant & Hg & Hw & E)].
  { destruct (authorized _ _ _ _ _ _) as [[b|e] st]; [done|]. intros H. discriminate H. }
  rewrite E. rewrite abind_lift. destruct (ok_or (from_slice body) _) as [decl|]; [|done]. rewrite abind_lift. destruct (body_str decl "assignment_digest") as [digest|]; [|done]. rewrite abind_pool.
  destruct (assignment_by_digest digest d) as [[registered|e] d1]; [|done].
  assert (Hrej : forall A B (k : A -> AM B) st x kind, abind (reject who kind now) k st = (Ok x, st') -> False).
  { intros A B k [d0 s0] x kind H. unfold abind in H. destruct (reject_refuses (A:=A) who kind now d0 s0) as [_ Hn]. destruct (reject who kind now (d0, s0)) as [[y|y] z]; done. }
  destruct registered as [reg|]; [|by intros H%Hrej]. unfold abind at 1, aret at 1. destruct (bool_decide _); [|by intros H%Hrej]. unfold abind at 1, aret at 1. rewrite abind_lift.
  destruct (body_str decl "package_id") as [p|]; [|done]. destruct (valid_member_uuid p) eqn:Hu; [|by intros H%Hrej]. unfold abind at 1, aret at 1. cbv zeta. rewrite abind_pool.
  destruct (accepted_package_for_assignment _ _ d1) as [[acc|e] d2]; [|done]. rewrite abind_when. destruct (match acc with Some _ => _ | None => _ end); [done|]. rewrite abind_lift.
  destruct (index_set _ _ _) as [pd|]; [|done]. rewrite abind_pool. destruct (Upload.create_upload _ _ _ pd d2) as [[ses|e] d3]; [|done]. rewrite abind_identity.
  destruct (bind_upload _ s1) as [[[]|e] s2] eqn:Eb; [|done]. intros [= <- <-]. apply bind_upload_bound in Eb. cbn [ub_upload_id] in Eb.
  assert (Hwho : vw_worker_id who = sq_worker_id sr) by (destruct (verify_sound _ _ _ _ _ _ _ _ _ _ Ev) as [(_ & _ & _ & _ & _ & c & w & e & key & Ha) _]; by destruct_and!).
  exists a, grant. eexists. split_and!; [done| |congruence|exact Eb|done|done|done|done]. exists s1. split; [done|].
  pose proof (call_moves (CVerify sr body now) (verify_request sr body now) eq_refl s) as Hc. by rewrite Ev in Hc.
Qed.
End authed.

(** ** A run *)

Definition au_package : list Z := [1; 2; 3].
Definition au_hash : string := to_hex au_package.
Definition au_id (n : string) : string := String.append "00000000-0000-0000-0000-0000000000" n.
Definition au_declaration : Value :=
  json_object [("package_id", JString (au_id "aa")); ("assignment_digest", JString digest64); ("package_sha256", JString au_hash); ("manifest_sha256", JString au_hash);
               ("compressed_size_bytes", json_u64 3); ("uncompressed_size_bytes", json_u64 3); ("media_type", JString "application/zstd")].
Definition au_print (v : Value) : string :=
  match json_get "offset" v, json_get "receipt_id" v with Some _, _ => toy_print v | _, Some _ => "R" | _, _ => "D" end.
Definition au_parse (t : string) : option Value :=
  if String.eqb t "D" then Some au_declaration
  else if String.eqb t "R" then Some (json_object [("receipt_id", JString "r"); ("package_id", JString "scoped")])
  else if String.eqb t "F" then Some (json_object [("package_sha256", JString au_hash); ("compressed_size_bytes", json_u64 3)])
  else toy_parse t.
Definition au_assignment : string := toy_uuid ["assignment"; sample_request_id].
Definition au_upload : string := "44".
Definition au_signed (method path id : string) (body : list Z) : SignedRequest :=
  MkSignedRequest method path PROTOCOL_VERSION sample_worker sample_credential id 1200 (to_hex body) (IdentityHistory.zeros 64).
Definition au_create_body : list Z := as_bytes "D".
Definition au_create : SignedRequest := au_signed "POST" (String.concat "" ["/member/v0/assignments/"; au_assignment; "/uploads"]) (au_id "11") au_create_body.
Definition au_put : SignedRequest := au_signed "PUT" (String.append "/member/v0/uploads/" au_upload) (au_id "12") au_package.
Definition au_body : list Z := as_bytes "F".
Definition au_finalize (id : string) : SignedRequest := au_signed "POST" (String.concat "" ["/member/v0/uploads/"; au_upload; "/finalize"]) (au_id id) au_body.
Definition au_issuance : AssignmentIssuance := MkIssuance sample_request_id sample_worker sample_slot "bench-1" digest64 "testnet".
Abbreviation au_run := (run_authed id au_print au_parse toy_unzstd toy_entries toy_listing "/pool" toy_decode Some toy_verify toy_keyed []).
Abbreviation au_step := (bridge_step id au_print au_parse toy_unzstd toy_entries toy_listing "/pool" toy_decode Some toy_verify toy_keyed [] toy_b64url er_worker_name).
Abbreviation au_finalized sr st := (finalize id au_print au_parse toy_unzstd toy_entries toy_listing "/pool" toy_decode Some toy_verify sr au_body 1200 1210 st).
Abbreviation au_stored sr st := (put_chunk id au_print au_parse toy_decode Some toy_verify sr 0 au_hash au_package 1200 st).
Definition au_ready : Both := au_run (ACreate au_create au_create_body 1200) (au_run (AIssue au_issuance 1190) (empty_depot, qualified)).
Abbreviation au_there := (au_stored au_put au_ready).
Abbreviation au_done := (au_finalized (au_finalize "13") au_there.2).
Example au_flow : au_there.1 = Ok 3 /\ au_done.1 = Ok (MkFinalize "R" true).
Proof. vm_compute. split; reflexivity. Qed.

Lemma au_there_ends : au_there = (Ok 3, au_there.2).
Proof. apply ended. vm_compute. reflexivity. Qed.
Lemma au_done_ends : au_done = (Ok (MkFinalize "R" true), au_done.2).
Proof. apply ended. vm_compute. reflexivity. Qed.
Definition au_stranger : SignedRequest :=
  MkSignedRequest "PUT" (String.append "/member/v0/uploads/" au_upload) PROTOCOL_VERSION (au_id "99") sample_credential (au_id "12") 1200 (to_hex au_package) (IdentityHistory.zeros 64).
Lemma au_stranger_owns_nothing u : ~ owns id toy_decode Some toy_verify (st_docs au_ready.2) au_stranger au_package 1200 u.
Proof.
  intros (who & b & (_ & _ & _ & _ & _ & c & w & e & k & _ & H & _) & _). assert (E : st_docs au_ready.2 !! RWorker (sq_worker_id au_stranger) = None) by (vm_compute; reflexivity). congruence.
Qed.
Lemma only_the_owner_uploads_witness : (au_stored au_stranger au_ready).2.1 = au_ready.1 /\ is_Ok (au_stored au_stranger au_ready).1 = false.
Proof.
  exact (proj1 (only_the_owner_uploads id au_print au_parse toy_unzstd toy_entries toy_listing "/pool" toy_decode Some toy_verify toy_keyed [] toy_b64url er_worker_name au_stranger au_package 1200 au_ready au_stranger_owns_nothing) 0 au_hash).
Defined.
Abbreviation au_acted := (acted id au_print au_parse toy_unzstd toy_entries toy_listing "/pool" toy_decode Some toy_verify).
Lemma au_put_acted : au_acted au_upload au_put au_ready au_there.2.
Proof. refine (acted_put _ _ _ _ _ _ _ _ _ _ _ _ _ 0 au_hash au_package 1200 3 _ _ _ au_there_ends); reflexivity. Qed.
Lemma au_finalize_acted : au_acted au_upload (au_finalize "13") au_there.2 au_done.2.
Proof. refine (acted_finalize _ _ _ _ _ _ _ _ _ _ _ _ _ au_body 1200 1210 _ _ _ au_done_ends); reflexivity. Qed.
Lemma upload_has_one_worker_witness : sq_worker_id (au_finalize "13") = sq_worker_id au_put.
Proof.
  exact (upload_has_one_worker id au_print au_parse toy_unzstd toy_entries toy_listing "/pool" toy_decode Some toy_verify toy_keyed [] toy_b64url er_worker_name au_upload au_put (au_finalize "13") _ _ _ _
    au_put_acted (rtc_refl _ _) au_finalize_acted).
Defined.
(** The pool's disk fails and the worker asks again. *)
Abbreviation au_later := (with_faults [Upload.FailedBefore] au_done.2.1, au_done.2.2).
Lemma au_later_history : rtc au_step au_done.2 au_later.
Proof. apply rtc_once. apply bridge_disk. Qed.
Abbreviation au_again := (au_finalized (au_finalize "14") au_later).
Lemma au_again_ends : au_again = (Ok (MkFinalize "R" false), au_again.2).
Proof. apply ended. vm_compute. reflexivity. Qed.
Lemma member_receipt_is_final_witness : MkFinalize "R" false = MkFinalize (fo_receipt_json (MkFinalize "R" true)) false.
Proof.
  exact (member_receipt_is_final id au_print au_parse toy_unzstd toy_entries toy_listing "/pool" toy_decode Some toy_verify toy_keyed [] toy_b64url er_worker_name
    au_upload (au_finalize "13") au_body 1200 1210 (au_finalize "14") au_body 1200 1210 _ _ _ _ _ _ eq_refl au_done_ends au_later_history eq_refl au_again_ends).
Defined.
Abbreviation au_issued := (au_run (AIssue au_issuance 1190) (empty_depot, qualified)).
Abbreviation au_opened := (create_upload id au_print au_parse toy_listing toy_decode Some toy_verify au_create au_create_body 1200 au_issued).
Lemma au_opened_ends : au_opened = (Ok (MkSession au_upload 0 false), au_opened.2).
Proof. apply ended. vm_compute. reflexivity. Qed.
Lemma created_upload_is_bound_witness : exists a grant b, path_id (sq_path au_create) "/member/v0/assignments/" "/uploads" = Some a /\
  (exists s1, assignment_grant a s1 = (Ok (Some grant), s1) /\ rtc (toy_called any) au_issued.2 s1) /\
  ag_worker_id grant = sq_worker_id au_create /\ bound (st_docs au_opened.2.2) au_upload b /\ ub_assignment_id b = ag_assignment_id grant /\ ub_worker_id b = sq_worker_id au_create /\
  ub_pool_package_id b = scoped_package_id id (ag_assignment_id grant) (ub_package_id b) /\ valid_member_uuid (ub_package_id b) = true.
Proof.
  exact (created_upload_is_bound id au_print au_parse toy_listing toy_decode Some toy_verify toy_keyed [] toy_b64url er_worker_name au_create au_create_body 1200 _ _ _ au_opened_ends).
Defined.
