(* ===== verification/SpikeActive.v ===== *)
(** * The prototype's driver: [crates/spike/src/bin/spike_active.rs]

    The commands that take a benchmark from its precommit to its retirement,
    composed of the gateway ([SpikeGateway]) and the retained package ([Package]).

    A command is a program over the gateway's state, the pool's disk and a record
    of the times at which the lane was taken, which the code does not keep.  What
    the outside shows it -- replies of TIG, clock readings, how long a sleep
    overran -- is in its environment.  A polling loop is given its observations;
    where they end before the loop does, it is still polling.  Times are far below
    2^64.  What is printed is left out. *)
From S2P Require Import Prelude Text BTreeMap Json Domain Rfc3339 Merkle FakeTig Upload Package SpikeGateway.
Open Scope Z_scope.

(** ** Arguments *)

Record Args := MkArgs {
  ar_cmd : string; ar_base_url : string; ar_api_key_file : string; ar_player : string; ar_data_dir : string; ar_challenge : option string; ar_algorithm : option string;
  ar_compute_type : string; ar_package_id : option string; ar_benchmark_id : option string; ar_pool_root : option string; ar_poll_secs : option Z; ar_max_secs : option Z }.
Inductive CmdError :=
| CGw (e : GwError) | CPackage (e : PackageError) | CPool (e : PoolError) | CRequired (name : string) | CMissingCommand | CNeedsValue (flag : string) | CBadNumber (flag : string) | CUnknownFlag (flag : string)
| CUnknownCommand (cmd : string) | CNoConfirmedEntry | CNoSampledNonces | CEmptySample | CNothingToStop | CNotStopped | CProofExists | CFraudListed | CTimedOut | CStillPolling.
Definition default_args (cmd : string) : Args :=
  MkArgs cmd "https://testnet-api.tig.foundation" "secrets/tig-testnet-api-key" "" "data/spike-active/gateway" None None "aws_t4g" None None None None None.
Definition set_flag (a : Args) (flag v : string) : result CmdError Args :=
  let 'MkArgs cmd base key player dir challenge algorithm compute package benchmark root poll max := a in
  if String.eqb flag "--base-url" then Ok (MkArgs cmd v key player dir challenge algorithm compute package benchmark root poll max)
  else if String.eqb flag "--api-key-file" then Ok (MkArgs cmd base v player dir challenge algorithm compute package benchmark root poll max)
  else if String.eqb flag "--player" then Ok (MkArgs cmd base key v dir challenge algorithm compute package benchmark root poll max)
  else if String.eqb flag "--data-dir" then Ok (MkArgs cmd base key player v challenge algorithm compute package benchmark root poll max)
  else if String.eqb flag "--challenge" then Ok (MkArgs cmd base key player dir (Some v) algorithm compute package benchmark root poll max)
  else if String.eqb flag "--algorithm" then Ok (MkArgs cmd base key player dir challenge (Some v) compute package benchmark root poll max)
  else if String.eqb flag "--compute-type" then Ok (MkArgs cmd base key player dir challenge algorithm v package benchmark root poll max)
  else if String.eqb flag "--package-id" then Ok (MkArgs cmd base key player dir challenge algorithm compute (Some v) benchmark root poll max)
  else if String.eqb flag "--benchmark-id" then Ok (MkArgs cmd base key player dir challenge algorithm compute package (Some v) root poll max)
  else if String.eqb flag "--pool-root" then Ok (MkArgs cmd base key player dir challenge algorithm compute package benchmark (Some v) poll max)
  else if String.eqb flag "--poll-secs" then let? n := ok_or (parse_u64 v) (CBadNumber flag) in Ok (MkArgs cmd base key player dir challenge algorithm compute package benchmark root (Some n) max)
  else if String.eqb flag "--max-secs" then let? n := ok_or (parse_u64 v) (CBadNumber flag) in Ok (MkArgs cmd base key player dir challenge algorithm compute package benchmark root poll (Some n))
  else Err (CUnknownFlag flag).
Fixpoint parse_flags (a : Args) (argv : list string) : result CmdError Args :=
  match argv with
  | [] => Ok a
  | [flag] => Err (CNeedsValue flag)
  | flag :: v :: rest => let? a := set_flag a flag v in parse_flags a rest
  end.
Definition parse_args (argv : list string) : result CmdError Args :=
  match argv with
  | [] => Err CMissingCommand
  | cmd :: rest => let? a := parse_flags (default_args cmd) rest in if is_empty (ar_player a) then Err (CRequired "--player") else Ok a
  end.
Definition require (v : option string) (name : string) : result CmdError string := ok_or v (CRequired name).

(** ** Commands *)

Record World := MkActive { wo_gw : GwState; wo_depot : Depot; wo_lane : list Z }.
Definition C (A : Type) : Type := World -> result CmdError A * World.
Definition cret {A} (a : A) : C A := fun w => (Ok a, w).
Definition cfail {A} (e : CmdError) : C A := fun w => (Err e, w).
Definition clift {A} (r : result CmdError A) : C A := fun w => (r, w).
Definition cbind {A B} (m : C A) (k : A -> C B) : C B := fun w => match m w with (Ok a, w') => k a w' | (Err e, w') => (Err e, w') end.
Notation "'let%' x ':=' m 'in' k" := (cbind m (fun x => k))
  (at level 10, x pattern, m at level 200, k at level 200, format "'[v' 'let%'  x  ':='  m  'in' '/' k ']'") : pool_scope.
Definition on_gw {A} (m : G A) : C A := fun w => let (r, g) := m (wo_gw w) in (map_err CGw r, MkActive g (wo_depot w) (wo_lane w)).

(** What an iteration of a loop sees, and when. *)
Record Poll := MkPoll { po_block : GetReply; po_benches : GetReply; po_latest : GetReply; po_now : Z }.
Record Env := MkEnv {
  en_started : Z; en_block : GetReply; en_challenges : GetReply; en_benches : GetReply; en_post : PostReply; en_lane_now : Z; en_overslept : Z; en_finished : Z; en_wall : Z; en_calls : Value;
  en_now : Z; en_polls : list Poll; en_proof_polls : list Poll; en_hwm_before : option Z; en_hwm_after : option Z; en_construction_us : Z }.

Definition MIN_POST_SPACING_SECS : Z := 5.
Definition last_post (doc : Value) : Z := default 0 (and_then (json_get "last_post_unix" doc) json_as_u64).
(** How long the lane sleeps, when the clock says [now]. *)
Definition lane_wait (doc : option Value) (now : Z) : Z :=
  match doc with Some doc => if now <? last_post doc + MIN_POST_SPACING_SECS then last_post doc + MIN_POST_SPACING_SECS - now else 0 | None => 0 end.
Definition pace_post_lane (e : Env) : C unit := fun w =>
  (let% doc := on_gw (read_doc "post-lane.json") in
   let at_ := en_lane_now e + lane_wait doc (en_lane_now e) + en_overslept e in
   let% _ := on_gw (write_doc "post-lane.json" (json_object [("last_post_unix", json_u64 at_)])) in
   fun w => (Ok tt, MkActive (wo_gw w) (wo_depot w) (wo_lane w ++ [at_]))) w.
Definition record_step (e : Env) (step : string) (detail : Value) : C unit :=
  on_gw (append "steps" (json_object
    [("step", JString step); ("started_at", JString (rfc3339_utc (en_started e))); ("finished_at", JString (rfc3339_utc (en_finished e)));
     ("wall_secs", json_u64 (Z.max 0 (en_wall e - en_started e))); ("api_calls", en_calls e); ("detail", detail)])).
Definition latest_height (reply : GetReply) : result CmdError (string * Z) :=
  let? block := map_err CGw (latest_block reply) in
  Ok (default "?" (str_field "id" block), default 0 (and_then (json_path ["details"; "height"] block) json_as_u64)).
(** How long a loop sleeps between its iterations. *)
Definition poll_secs (a : Args) (usual : Z) : Z := Z.max 1 (default usual (ar_poll_secs a)).
(** Waiting is over: [unix_now().saturating_sub(started) > max]. *)
Definition past (e : Env) (p : Poll) (max : Z) : bool := max <? Z.max 0 (po_now p - en_started e).

Section active.
Context (blake3 sha256 : list Z -> list Z) (to_string : Value -> string) (from_str : string -> option Value).
Context (unzstd : Z -> list Z -> option (list Z)) (tar_entries : list Z -> option (list (option (option string * option (list Z))))).
(** [Pool::open] on the root that was given. *)
Definition with_pool {A} (a : Args) (k : Depot -> result CmdError A) : C A := fun w => (let? _ := require (ar_pool_root a) "--pool-root" in k (wo_depot w), w).
Definition loaded (a : Args) (package_id : string) : C AcceptedPackage :=
  with_pool a (fun d => map_err CPackage (load_accepted_package blake3 sha256 to_string from_str unzstd tar_entries d package_id)).

Definition cmd_precommit (a : Args) (e : Env) : C unit :=
  let% challenge := clift (require (ar_challenge a) "--challenge") in
  let% algorithm := clift (require (ar_algorithm a) "--algorithm") in
  let% block := clift (map_err CGw (latest_block (en_block e))) in
  let% block_id := clift (ok_or (str_field "id" block) (CGw (MissingField "id"))) in
  let height := default 0 (and_then (json_path ["details"; "height"] block) json_as_u64) in
  let% chs := clift (map_err CGw (challenges (en_challenges e))) in
  let% plan := clift (map_err CGw (plan_precommit block chs (ar_player a) challenge algorithm (ar_compute_type a))) in
  let% _ := pace_post_lane e in
  let% intent_id := on_gw (submit_precommit sha256 to_string from_str plan (en_post e)) in
  record_step e "precommit" (json_object
    [("intent_id", JString intent_id); ("anchor_block_id", JString block_id); ("anchor_height", json_u64 height); ("challenge", JString challenge); ("algorithm", JString algorithm)]).

(** The confirmed intents that are neither a benchmark's nor a proof's. *)
Definition confirmed_assignments (rs : list Value) : list (string * string) :=
  omap (fun kv : string * Value =>
    if negb (bool_decide (str_field "write_kind" kv.2 = Some "BENCHMARK")) && negb (bool_decide (str_field "write_kind" kv.2 = Some "PROOF")) && bool_decide (str_field "state" kv.2 = Some "CONFIRMED")
    then (fun b => (kv.1, b)) <$> str_field "benchmark_id" kv.2 else None) (fold_intents rs).
Definition timed_out {A} (e : Env) (step : string) (detail : list (string * Value)) : C A :=
  let% _ := record_step e step (json_object (("timed_out", JBool true) :: detail)) in cfail CTimedOut.
(** A loop that looks with [look] after each reconciliation, until it finds what
    it waits for, or the time is up. *)
Fixpoint poll_until {A} (e : Env) (max : Z) (look : Poll -> C (option A)) (late : C A) (polls : list Poll) : C A :=
  match polls with
  | [] => cfail CStillPolling
  | p :: rest =>
      let% _ := on_gw (reconcile (po_block p) (po_benches p)) in
      let% found := look p in
      match found with Some x => cret x | None => if past e p max then late else poll_until e max look late rest end
  end.
Definition cmd_await_assignment (a : Args) (e : Env) : C unit :=
  let max := default 900 (ar_max_secs a) in
  poll_until e max
    (fun p =>
       let% rs := on_gw (read_all "intents") in
       match last (confirmed_assignments rs) with
       | Some (intent_id, benchmark_id) =>
           let% (block_id, height) := clift (latest_height (po_latest p)) in
           let% _ := record_step e "await-assignment" (json_object
             [("benchmark_id", JString benchmark_id); ("intent_id", JString intent_id); ("observed_block_id", JString block_id); ("observed_height", json_u64 height)]) in
           cret (Some tt)
       | None => cret None
       end)
    (timed_out e "await-assignment" []) (en_polls e).
Definition cmd_commit (a : Args) (e : Env) : C unit :=
  let% package_id := clift (require (ar_package_id a) "--package-id") in
  let% pkg := loaded a package_id in
  let% body := clift (map_err CPackage (commitment_body pkg)) in
  let% (block_id, height) := clift (latest_height (en_block e)) in
  let% _ := pace_post_lane e in
  let% r := on_gw (submit_benchmark_commitment sha256 to_string from_str (ap_acceptance pkg) body (en_post e)) in
  record_step e "commit" (json_object
    [("benchmark_id", JString (ap_benchmark_id pkg)); ("package_id", JString package_id); ("package_sha256_recomputed", JString (ap_package_sha256 pkg)); ("merkle_root", JString (ap_root_hex pkg));
     ("num_nonces", json_u64 (ap_num_nonces pkg)); ("intent_id", JString (wr_intent_id r)); ("state", JString (wr_state r)); ("sent", JBool (wr_sent r)); ("block_id", JString block_id); ("height", json_u64 height)]).
Definition sampled_of (doc : Value) : option (list Value) := and_then (json_path ["entry"; "details"; "sampled_nonces"] doc) json_as_array.
Definition cmd_await_sampled (a : Args) (e : Env) : C unit :=
  let% benchmark_id := clift (require (ar_benchmark_id a) "--benchmark-id") in
  let max := default 1800 (ar_max_secs a) in
  poll_until e max
    (fun p =>
       let% doc := on_gw (read_doc (confirmed_name "BENCHMARK" benchmark_id)) in
       match doc with
       | Some doc =>
           let sampled := default [] (sampled_of doc) in
           if Nat.eqb (length sampled) 0 then cret None
           else
             let% _ := record_step e "await-sampled" (json_object
               [("benchmark_id", JString benchmark_id); ("confirmed_at_block", json_or_null (json_get "confirmed_at_block" doc)); ("sampled_nonces", JArray sampled);
                ("observed_via", json_or_null (json_get "observed_via" doc))]) in
             cret (Some tt)
       | None => cret None
       end)
    (timed_out e "await-sampled" []) (en_polls e).
Definition json_kib (o : option Z) : Value := match o with Some n => json_u64 n | None => JNull end.
Definition provenance_json (e : Env) (package_id : string) (pkg : AcceptedPackage) (sampled : list Z) : Value :=
  json_object
    [("benchmark_id", JString (ap_benchmark_id pkg)); ("package_id", JString package_id); ("package_sha256_recomputed", JString (ap_package_sha256 pkg));
     ("sampled_nonces", JArray (map json_u64 sampled)); ("merkle_root", JString (ap_root_hex pkg)); ("construction_us", json_u64 (en_construction_us e));
     ("vm_hwm_kib_before", json_kib (en_hwm_before e)); ("vm_hwm_kib_after", json_kib (en_hwm_after e)); ("created_at", JString (rfc3339_utc (en_now e)))].
Definition provenance_name (benchmark_id : string) : string := String.concat "" ["proof-provenance-"; benchmark_id; ".json"].
Definition cmd_prove (a : Args) (e : Env) : C unit :=
  let% package_id := clift (require (ar_package_id a) "--package-id") in
  let% pkg := loaded a package_id in
  let benchmark_id := ap_benchmark_id pkg in
  let% confirmed := on_gw (read_doc (confirmed_name "BENCHMARK" benchmark_id)) in
  let% confirmed := clift (ok_or confirmed CNoConfirmedEntry) in
  let% sampled := clift (ok_or (sampled_of confirmed) CNoSampledNonces) in
  let sampled := omap json_as_u64 sampled in
  let% _ := if Nat.eqb (length sampled) 0 then cfail CEmptySample else cret tt in
  let% payload := clift (map_err CPackage (build_proof_payload blake3 pkg sampled)) in
  let% _ := on_gw (write_doc (payload_name benchmark_id) payload) in
  let% _ := on_gw (write_doc (provenance_name benchmark_id) (provenance_json e package_id pkg sampled)) in
  record_step e "prove" (provenance_json e package_id pkg sampled).

Definition cmd_submit_proof (a : Args) (e : Env) : C unit :=
  let% benchmark_id := clift (require (ar_benchmark_id a) "--benchmark-id") in
  let% (block_id, height) := clift (latest_height (en_block e)) in
  let% _ := pace_post_lane e in
  let% r := on_gw (submit_proof sha256 to_string from_str benchmark_id (en_post e)) in
  record_step e "submit-proof" (json_object
    [("benchmark_id", JString benchmark_id); ("intent_id", JString (wr_intent_id r)); ("state", JString (wr_state r)); ("sent", JBool (wr_sent r)); ("block_id", JString block_id); ("height", json_u64 height)]).
(** The first phase of [await-active]: the document is looked for before and
    after each reconciliation. *)
Fixpoint await_proof (e : Env) (max : Z) (benchmark_id : string) (polls : list Poll) : C Value :=
  let name := confirmed_name "PROOF" benchmark_id in
  let% doc := on_gw (read_doc name) in
  match doc, polls with
  | Some doc, _ => cret doc
  | None, [] => cfail CStillPolling
  | None, p :: rest =>
      let% _ := on_gw (reconcile (po_block p) (po_benches p)) in
      let% doc := on_gw (read_doc name) in
      match doc with
      | Some doc => cret doc
      | None => if past e p max then timed_out e "await-active" [("phase", JString "proof-confirmation")] else await_proof e max benchmark_id rest
      end
  end.
Definition evidence_name (benchmark_id : string) : string := String.concat "" ["active-evidence-"; benchmark_id; ".json"].
Definition height_of (block : Value) : Z := default 0 (and_then (json_path ["details"; "height"] block) json_as_u64).
Fixpoint await_listed (e : Env) (max : Z) (benchmark_id : string) (proof_doc : Value) (polls : list Poll) : C unit :=
  match polls with
  | [] => cfail CStillPolling
  | p :: rest =>
      let% block := clift (map_err CGw (latest_block (po_block p))) in
      if bool_decide (benchmark_id ∈ active_benchmarks block) then
        let evidence := json_object
          [("benchmark_id", JString benchmark_id); ("block_id", JString (default "?" (str_field "id" block))); ("block_height", json_u64 (height_of block));
           ("observed_at", JString (rfc3339_utc (en_now e))); ("proof_confirmed_at_block", json_or_null (json_get "confirmed_at_block" proof_doc));
           ("proof_details", json_or_null (json_path ["entry"; "details"] proof_doc))] in
        let% _ := on_gw (write_doc (evidence_name benchmark_id) evidence) in
        record_step e "await-active" evidence
      else if past e p max then timed_out e "await-active" [("phase", JString "active-set"); ("last_height", json_u64 (height_of block))]
      else await_listed e max benchmark_id proof_doc rest
  end.
Definition cmd_await_active (a : Args) (e : Env) : C unit :=
  let% benchmark_id := clift (require (ar_benchmark_id a) "--benchmark-id") in
  let max := default 3900 (ar_max_secs a) in
  let% proof_doc := await_proof e max benchmark_id (en_proof_polls e) in
  await_listed e max benchmark_id proof_doc (en_polls e).
Definition cmd_retire (a : Args) (e : Env) : C unit :=
  let% package_id := clift (require (ar_package_id a) "--package-id") in
  let% _ := clift (require (ar_pool_root a) "--pool-root") in
  let% block := clift (map_err CGw (latest_block (en_block e))) in
  let% record := (fun w => let (r, d) := apply_retention package_id block (en_now e) (wo_depot w) in (map_err CPackage r, MkActive (wo_gw w) d (wo_lane w))) in
  let% _ := on_gw (append "retention" record) in
  record_step e "retire" record.
Definition stop_evidence (assignment : Value) (block_id : string) (height : Z) : Value :=
  json_object
    [("reason", JString "spike S5 deliberate stop: member produced no usable package for this assignment; explicit stopped submission per tig_integration.md §6.2");
     ("confirmed_assignment_block", json_or_null (json_get "confirmed_at_block" assignment));
     ("decided_at_block", json_object [("block_id", JString block_id); ("height", json_u64 height)])].
Definition cmd_stop (a : Args) (e : Env) : C unit :=
  let% benchmark_id := clift (require (ar_benchmark_id a) "--benchmark-id") in
  let% assignment := on_gw (read_doc (assignment_name benchmark_id)) in
  let% assignment := clift (ok_or assignment CNothingToStop) in
  let% (block_id, height) := clift (latest_height (en_block e)) in
  let% _ := pace_post_lane e in
  let% r := on_gw (submit_benchmark_stopped sha256 to_string from_str benchmark_id (stop_evidence assignment block_id height) (en_post e)) in
  record_step e "stop" (json_object
    [("benchmark_id", JString benchmark_id); ("intent_id", JString (wr_intent_id r)); ("state", JString (wr_state r)); ("sent", JBool (wr_sent r)); ("block_id", JString block_id); ("height", json_u64 height)]).
Definition proof_intents (rs : list Value) (benchmark_id : string) : list string :=
  map fst (List.filter (fun kv => bool_decide (str_field "write_kind" kv.2 = Some "PROOF") && bool_decide (str_field "benchmark_id" kv.2 = Some benchmark_id)) (fold_intents rs)).
Definition fraud_entries (benches : Value) (benchmark_id : string) : nat :=
  match and_then (json_get "frauds" benches) json_as_array with
  | Some arr => length (List.filter (fun v => bool_decide (str_field "benchmark_id" v = Some benchmark_id) || bool_decide (str_field "id" v = Some benchmark_id)) arr)
  | None => 0%nat
  end.
Definition classification_json (benchmark_id : string) (confirmed : Value) (proofs frauds : nat) (block_id : string) (height : Z) : Value :=
  json_object
    [("benchmark_id", JString benchmark_id); ("terminal_state", JString "STOPPED"); ("confirmed_at_block", json_or_null (json_get "confirmed_at_block" confirmed));
     ("observed_via", json_or_null (json_get "observed_via" confirmed)); ("details_stopped", JBool true);
     ("sampled_nonces", json_or_null (json_path ["entry"; "details"; "sampled_nonces"] confirmed)); ("fraud", JBool false);
     ("fault_classification", json_object
       [("attribution", JString "MEMBER-chargeable capacity outcome (charge X under the tier policy), explicitly NOT fraud"); ("chargeable_tier_failure", JBool true);
        ("rules", JArray (map JString
          ["mining_system.md §8: 'A benchmark with no bundles meeting TIG's minimum verification quality counts as a chargeable failure for this tier policy even though it is not described as fraud'";
           "mining_system.md §10 invariant 18: valid low-quality or non-qualifying work is not mislabeled as fraud"; "tig_integration.md §7: 'If details.stopped is true, no proof is sent'";
           "fixtures/queue-lifecycle/v1 lifecycle.json case stopped_benchmark_no_proof"]))]);
     ("evidence", json_object [("proof_write_intents_created", json_u64 (Z.of_nat proofs)); ("fraud_entries_for_benchmark", json_u64 (Z.of_nat frauds));
                               ("frauds_observed_at", json_object [("block_id", JString block_id); ("height", json_u64 height)])])].
Definition classification_name (benchmark_id : string) : string := String.concat "" ["stopped-classification-"; benchmark_id; ".json"].
Definition cmd_await_stopped (a : Args) (e : Env) : C unit :=
  let% benchmark_id := clift (require (ar_benchmark_id a) "--benchmark-id") in
  let max := default 1800 (ar_max_secs a) in
  let% confirmed := poll_until e max (fun _ => on_gw (read_doc (confirmed_name "BENCHMARK" benchmark_id))) (timed_out e "await-stopped" []) (en_polls e) in
  let% _ := if bool_decide (and_then (json_path ["entry"; "details"; "stopped"] confirmed) json_as_bool = Some true) then cret tt else cfail CNotStopped in
  let% rs := on_gw (read_all "intents") in
  let proofs := proof_intents rs benchmark_id in
  let% (block_id, height) := clift (latest_height (en_block e)) in
  let% benches := clift (map_err CGw (benchmarks (en_benches e))) in
  let frauds := fraud_entries benches benchmark_id in
  let classification := classification_json benchmark_id confirmed (length proofs) frauds block_id height in
  let% _ := if Nat.eqb (length proofs) 0 then cret tt else cfail CProofExists in
  let% _ := if Nat.eqb frauds 0 then cret tt else cfail CFraudListed in
  let% _ := on_gw (write_doc (classification_name benchmark_id) classification) in
  record_step e "await-stopped" classification.
Definition cmd_status : C (list (string * string * string * string)) :=
  let% rs := on_gw (read_all "intents") in
  cret (map (fun kv => (kv.1, default "?" (str_field "state" kv.2), default "?" (str_field "write_kind" kv.2), default "-" (str_field "benchmark_id" kv.2))) (fold_intents rs)).
Definition main (a : Args) (e : Env) : C unit :=
  let named c := String.eqb (ar_cmd a) c in
  if named "precommit" then cmd_precommit a e
  else if named "await-assignment" then cmd_await_assignment a e
  else if named "commit" then cmd_commit a e
  else if named "await-sampled" then cmd_await_sampled a e
  else if named "prove" then cmd_prove a e
  else if named "submit-proof" then cmd_submit_proof a e
  else if named "await-active" then cmd_await_active a e
  else if named "retire" then cmd_retire a e
  else if named "stop" then cmd_stop a e
  else if named "await-stopped" then cmd_await_stopped a e
  else if named "status" then let% _ := cmd_status in cret tt
  else cfail (CUnknownCommand (ar_cmd a)).

(** The pool's disk at first, and what the pool may do to it between invocations. *)
Context (d0 : Depot) (pool_step : Depot -> Depot -> Prop).
(** One invocation, with what becomes of its writes; the pool may work in between. *)
Inductive active_step (w : World) : World -> Prop :=
| active_main a e fs : 0 <= en_overslept e -> active_step w (main a e (MkActive (with_wfaults fs (wo_gw w)) (wo_depot w) (wo_lane w))).2
| active_pool d : pool_step (wo_depot w) d -> active_step w (MkActive (wo_gw w) d (wo_lane w)).

(** ** What a program of the gateway sends and writes *)

(** It sends at most [n] requests, each with [P], and leaves the documents. *)
Definition posts {A} (n : nat) (P : string * Value -> Prop) (m : G A) (s : GwState) : Prop :=
  gs_docs (m s).2 = gs_docs s /\ exists l, gs_sent (m s).2 = gs_sent s ++ l /\ (length l <= n)%nat /\ Forall P l.
(** It sends nothing, and writes documents of other names than the lane's and the payloads'. *)
Definition other_name (n : string) : Prop := n <> "post-lane.json" /\ forall b, n <> payload_name b.
Definition writes_others {A} (m : G A) : Prop := forall s, gs_sent (m s).2 = gs_sent s /\ forall n, gs_docs (m s).2 !! n = gs_docs s !! n \/ other_name n.
Lemma posts_same {A} n P (m : G A) s : (m s).2 = s -> posts n P m s.
Proof. intros E. unfold posts. rewrite E. split; [done|]. exists []. rewrite app_nil_r. split_and!; [done|simpl; lia|constructor]. Qed.
Lemma posts_bind {A B} n n' P (m : G A) (k : A -> G B) s : posts n P m s -> (forall a s1, m s = (Ok a, s1) -> gs_docs s1 = gs_docs s -> posts n' P (k a) s1) -> posts (n + n') P (gbind m k) s.
Proof.
  intros (Hd & l & Hs & Hl & Hp) Hk. unfold posts, gbind. destruct (m s) as [[a|e] s1] eqn:E; cbn [fst snd] in *.
  - destruct (Hk a s1 eq_refl Hd) as (Hd2 & l2 & Hs2 & Hl2 & Hp2). split; [congruence|]. exists (l ++ l2). rewrite Hs2, Hs, app_assoc, length_app. split_and!; [done|lia|by apply Forall_app].
  - split; [done|]. exists l. split_and!; [done|lia|done].
Qed.
Lemma posts_append P name v s : posts 0 P (append name v) s.
Proof. unfold posts, append, take_wfault. destruct (gs_faults s) as [|[] fs]; (split; [done|]); exists []; simpl; rewrite app_nil_r; by split_and!. Qed.
Lemma posts_post P path body reply s : P (path, body) -> posts 1 P (post_write from_str path body reply) s.
Proof. intros H. split; [done|]. exists [(path, body)]. split_and!; [done|done|by constructor]. Qed.
Lemma posts_quiet {A B} n P (m : G A) (k : A -> G B) s : posts 0 P m s -> (forall a s1, m s = (Ok a, s1) -> gs_docs s1 = gs_docs s -> posts n P (k a) s1) -> posts n P (gbind m k) s.
Proof. apply (posts_bind 0 n). Qed.
Lemma posts_more {A} n n' P (m : G A) s : (n <= n')%nat -> posts n P m s -> posts n' P m s.
Proof. intros Hn (Hd & l & Hs & Hl & Hp). split; [done|]. exists l. split_and!; [done|lia|done]. Qed.
Lemma posts_precommit P plan reply s : P ("submit-precommit", pp_body plan) -> posts 1 P (submit_precommit sha256 to_string from_str plan reply) s.
Proof.
  intros H. unfold submit_precommit. apply posts_quiet; [apply posts_same; by rewrite assert_lane_free_reads|]. intros ? s1 _ _. cbv zeta. do 2 (apply posts_quiet; [apply posts_append|intros ? ? _ _]).
  apply (posts_bind 1 0); [by apply posts_post|]. intros ? ? _ _. do 2 (apply posts_quiet; [apply posts_append|intros ? ? _ _]). by apply posts_same.
Qed.
Lemma posts_lifecycle P kind endpoint b body evidence reply s : P (endpoint, body) -> posts 1 P (submit_lifecycle_write sha256 to_string from_str kind endpoint b body evidence reply) s.
Proof.
  intros H. unfold submit_lifecycle_write. apply posts_quiet; [by apply posts_same|]. intros rs s1 _ _. cbv zeta. destruct (bool_decide _); [by apply posts_same|].
  apply posts_quiet; [by apply posts_same|]. intros ? ? _ _. apply posts_quiet; [by apply posts_same|]. intros doc ? _ _. destruct doc.
  { apply posts_quiet; [apply posts_append|]. intros ? ? _ _. by apply posts_same. }
  apply posts_quiet; [apply posts_same; unfold unresolved_for_benchmark, gbind, read_all; by destruct (ok_or _ _)|]. intros other ? _ _. destruct other; [by apply posts_same|].
  unfold append_presend_records. apply posts_quiet; [do 1 (apply posts_quiet; [apply posts_append|intros ? ? _ _]); apply posts_append|]. intros ? ? _ _.
  apply (posts_bind 1 0); [by apply posts_post|]. intros ? ? _ _. do 2 (apply posts_quiet; [apply posts_append|intros ? ? _ _]). by apply posts_same.
Qed.
Lemma writes_bind {A B} (m : G A) (k : A -> G B) : writes_others m -> (forall a, writes_others (k a)) -> writes_others (gbind m k).
Proof.
  intros Hm Hk s. destruct (Hm s) as [H1 H2]. unfold gbind. destruct (m s) as [[a|e] s1]; [|done]. cbn [snd] in *. destruct (Hk a s1) as [H3 H4]. split; [congruence|].
  intros n. destruct (H4 n) as [->|]; [apply H2|by right].
Qed.
Lemma writes_same {A} (m : G A) : (forall s, (m s).2 = s) -> writes_others m.
Proof. intros H s. rewrite H. split; [done|by left]. Qed.
Lemma writes_append name v : writes_others (append name v).
Proof. intros s. unfold append, take_wfault. destruct (gs_faults s) as [|[] fs]; (split; [done|by left]). Qed.
Lemma writes_doc name v : other_name name -> writes_others (write_doc name v).
Proof.
  intros Hn s. unfold write_doc, take_wfault. destruct (gs_faults s) as [|[] fs]; (split; [done|]); intros n; cbn [snd gs_docs with_gdocs];
    (destruct (decide (n = name)) as [-> |]; [by right|left; by rewrite ?lookup_insert_ne by done]).
Qed.
Lemma writes_each {A B} (f : A -> G B) l : (forall x, writes_others (f x)) -> writes_others (geach f l).
Proof. intros Hf. induction l as [|x l IH]; [by apply writes_same|]. cbn [geach]. apply writes_bind; [apply Hf|]. intros y. apply writes_bind; [apply IH|]. intros ys. by apply writes_same. Qed.
Lemma assignment_is_other b : other_name (assignment_name b).
Proof. by split. Qed.
Lemma confirmed_is_other kind b : kind = "BENCHMARK" \/ kind = "PROOF" -> other_name (confirmed_name kind b).
Proof. by intros [-> | ->]. Qed.
Lemma writes_reconcile block benches : writes_others (reconcile block benches).
Proof.
  unfold reconcile. do 4 (apply writes_bind; [by apply writes_same|intros ?]). apply writes_each. intros [id rec]. unfold reconcile_one.
  destruct (negb _); [by apply writes_same|]. destruct (negb _) eqn:Hk.
  - unfold reconcile_lifecycle_intent. apply writes_bind; [by apply writes_same|]. intros b. destruct (section_of _) as [[sec key]|] eqn:Hsec; [|by apply writes_same].
    destruct (listed _ _ _ _); [|by apply writes_same]. destruct (block_confirmed_of _); [|by apply writes_same]. apply writes_bind; [apply writes_doc, confirmed_is_other|].
    + unfold section_of in Hsec. destruct (String.eqb_spec (default "PRECOMMIT" (str_field "write_kind" rec)) "BENCHMARK"); [by left|]. destruct (String.eqb_spec (default "PRECOMMIT" (str_field "write_kind" rec)) "PROOF"); [by right|done].
    + intros _. apply writes_bind; [apply writes_append|]. intros _. by apply writes_same.
  - destruct (List.filter _ _) as [|p [|]]; [by apply writes_same| |by apply writes_same]. destruct (block_confirmed_of p); [|by apply writes_same].
    apply writes_bind; [apply writes_doc, assignment_is_other|]. intros _. apply writes_bind; [apply writes_append|]. intros _. by apply writes_same.
Qed.

(** ** The invariant *)

Abbreviation load := (load_accepted_package blake3 sha256 to_string from_str unzstd tar_entries).
(** The disks the pool and the deletions of [retire] can have led to. *)
Definition disk_step (d d' : Depot) : Prop := pool_step d d' \/ exists package_id block now, d' = (apply_retention package_id block now d).2.
Definition package_of (d : Depot) (package_id : string) (pkg : AcceptedPackage) : Prop := rtc disk_step d0 d /\ load d package_id = Ok pkg.
(** The proofs of a sample, from the bytes of an accepted package. *)
Definition proof_sourced (v : Value) : Prop := exists d p pkg sampled, package_of d p pkg /\ build_proof_payload blake3 pkg sampled = Ok v.
Definition stopped_body (b : string) : Value := json_object [("benchmark_id", JString b); ("stopped", JBool true); ("merkle_root", JNull); ("solution_quality", JNull)].
Definition request_sourced (req : string * Value) : Prop :=
  (req.1 = "submit-precommit" /\ exists block chs player challenge algorithm compute plan, plan_precommit block chs player challenge algorithm compute = Ok plan /\ req.2 = pp_body plan) \/
  (req.1 = "submit-benchmark" /\ ((exists d p pkg, package_of d p pkg /\ commitment_body pkg = Ok req.2) \/ exists b, req.2 = stopped_body b)) \/
  (req.1 = "submit-proof" /\ proof_sourced req.2).
Definition gap (a b : Z) : Prop := a + MIN_POST_SPACING_SECS <= b.
Definition lane_read (doc : option (option Value)) (lane : list Z) : Prop :=
  match doc with None => lane = [] | Some None => True | Some (Some v) => Forall (fun t => t <= last_post v) lane end.
(** [k] requests may still leave for the times the lane was taken. *)
Record active_ok (k : nat) (w : World) : Prop := {
  ao_payloads : forall b v, gs_docs (wo_gw w) !! payload_name b = Some (Some v) -> proof_sourced v;
  ao_requests : Forall request_sourced (gs_sent (wo_gw w));
  ao_lane : lane_read (gs_docs (wo_gw w) !! "post-lane.json") (wo_lane w);
  ao_spaced : StronglySorted gap (wo_lane w);
  ao_credit : (length (gs_sent (wo_gw w)) + k <= length (wo_lane w))%nat;
  ao_disk : rtc disk_step d0 (wo_depot w);
}.
Lemma active_ok_less k k' w : (k' <= k)%nat -> active_ok k w -> active_ok k' w.
Proof. intros Hk []. split; try done. lia. Qed.
Definition hoare {A} (k : nat) (m : C A) (k' : nat) (Q : A -> Prop) : Prop :=
  forall w, active_ok k w -> match m w with (Ok a, w') => active_ok k' w' /\ Q a | (Err _, w') => active_ok 0 w' end.
Lemma hoare_bind {A B} k k' k'' (m : C A) (f : A -> C B) Q R : hoare k m k' Q -> (forall a, Q a -> hoare k' (f a) k'' R) -> hoare k (cbind m f) k'' R.
Proof. intros Hm Hf w Hw. specialize (Hm w Hw). unfold cbind. destruct (m w) as [[a|e] w1]; [|done]. destruct Hm as [H1 H2]. by apply (Hf a H2 w1 H1). Qed.
Lemma hoare_ret {A} k (a : A) (Q : A -> Prop) : Q a -> hoare k (cret a) k Q.
Proof. by intros H w Hw. Qed.
Lemma hoare_fail {A} k k' e (Q : A -> Prop) : hoare k (cfail e) k' Q.
Proof. intros w Hw. apply (active_ok_less k); [lia|done]. Qed.
Lemma hoare_lift {A} k (r : result CmdError A) : hoare k (clift r) k (fun a => r = Ok a).
Proof. intros w Hw. unfold clift. destruct r; [by split|]. apply (active_ok_less k); [lia|done]. Qed.
Definition anyway {A} (a : A) : Prop := True.
Lemma hoare_weak {A} k k1 k2 (m : C A) (Q R : A -> Prop) : (k2 <= k1)%nat -> (forall a, Q a -> R a) -> hoare k m k1 Q -> hoare k m k2 R.
Proof. intros Hk HQ Hm w Hw. specialize (Hm w Hw). destruct (m w) as [[a|e] w']; [|done]. destruct Hm. split; [by apply (active_ok_less k1)|auto]. Qed.
Lemma active_ok_others k w g : active_ok k w -> gs_sent g = gs_sent (wo_gw w) -> (forall n, gs_docs g !! n = gs_docs (wo_gw w) !! n \/ other_name n) -> active_ok k (MkActive g (wo_depot w) (wo_lane w)).
Proof.
  intros [H1 H2 H3 H4 H5 H6] Hs Hd. split; cbn [wo_gw wo_lane]; [|by rewrite Hs| |done|by rewrite Hs|done].
  - intros b v. destruct (Hd (payload_name b)) as [->|[_ Hn]]; [apply H1|by destruct (Hn b)].
  - destruct (Hd "post-lane.json") as [->|[Hn _]]; done.
Qed.
Lemma hoare_others {A} k (m : G A) : writes_others m -> hoare k (on_gw m) k anyway.
Proof.
  intros Hm w Hw. destruct (Hm (wo_gw w)) as [Hs Hd]. unfold on_gw. destruct (m (wo_gw w)) as [[a|e] g]; cbn [snd map_err] in *.
  - split; [|done]. by apply active_ok_others.
  - apply (active_ok_less k); [lia|]. by apply active_ok_others.
Qed.
Lemma hoare_posts {A} (m : G A) : (forall w, active_ok 1 w -> posts 1 request_sourced m (wo_gw w)) -> hoare 1 (on_gw m) 0 anyway.
Proof.
  intros Hm w Hw. destruct (Hm w Hw) as (Hd & l & Hs & Hl & Hp). destruct Hw as [H1 H2 H3 H4 H5 H6]. unfold on_gw. destruct (m (wo_gw w)) as [r g]. cbn [snd] in *.
  assert (H : active_ok 0 (MkActive g (wo_depot w) (wo_lane w))).
  { split; cbn [wo_gw wo_lane]; rewrite ?Hd, ?Hs; try done; [by apply Forall_app|rewrite length_app; lia]. }
  destruct r; [by split|done].
Qed.
Lemma lane_wait_gap v now over : 0 <= over -> last_post v + MIN_POST_SPACING_SECS <= now + lane_wait (Some v) now + over.
Proof. intros Ho. unfold lane_wait. destruct (Z.ltb_spec now (last_post v + MIN_POST_SPACING_SECS)); lia. Qed.
Lemma spaced_snoc l x : StronglySorted gap l -> Forall (fun t => t + MIN_POST_SPACING_SECS <= x) l -> StronglySorted gap (l ++ [x]).
Proof.
  induction 1 as [|a l Hl IH Ha]; intros Hx; [by repeat constructor|]. apply Forall_cons in Hx as [Hx1 Hx]. cbn. constructor; [by apply IH|]. apply Forall_app. split; [done|by constructor].
Qed.
Lemma lane_written g d lane at_ : active_ok 0 (MkActive g d lane) -> Forall (fun t => t + MIN_POST_SPACING_SECS <= at_) lane ->
  match write_doc "post-lane.json" (json_object [("last_post_unix", json_u64 at_)]) g with
  | (Ok _, g') => active_ok 1 (MkActive g' d (lane ++ [at_]))
  | (Err _, g') => active_ok 0 (MkActive g' d lane)
  end.
Proof.
  intros [H1 H2 H3 H4 H5 H6] Hat. cbn [wo_gw wo_lane] in *. assert (Hle : Forall (fun t => t <= at_) lane) by (eapply Forall_impl; [exact Hat|]; unfold MIN_POST_SPACING_SECS; simpl; lia).
  assert (Hput : forall dv fs, (dv = None \/ dv = Some (json_object [("last_post_unix", json_u64 at_)])) ->
    active_ok 0 (MkActive (MkGw (gs_files g) (<["post-lane.json" := dv]> (gs_docs g)) (gs_sent g) fs) d lane)).
  { intros dv fs Hdv. split; cbn [wo_gw wo_lane gs_docs gs_sent]; try done.
    - intros b v. rewrite lookup_insert_ne by done. apply H1.
    - rewrite lookup_insert_eq. by destruct Hdv as [-> | ->]. }
  assert (Hok : forall fs, active_ok 1 (MkActive (MkGw (gs_files g) (<["post-lane.json" := Some (json_object [("last_post_unix", json_u64 at_)])]> (gs_docs g)) (gs_sent g) fs) d (lane ++ [at_]))).
  { intros fs. destruct (Hput (Some (json_object [("last_post_unix", json_u64 at_)])) fs (or_intror eq_refl)) as [G1 G2 G3 G4 G5 G6]. cbn [wo_gw wo_lane gs_docs gs_sent] in *. split; cbn [wo_gw wo_lane gs_docs gs_sent]; try done.
    - rewrite lookup_insert_eq. cbn [lane_read]. apply Forall_app. split; [done|]. constructor; [|constructor]. change (last_post _) with at_. lia.
    - by apply spaced_snoc.
    - rewrite length_app. cbn [length]. lia. }
  unfold write_doc, take_wfault. destruct (gs_faults g) as [|[] fs]; [apply Hok|apply Hok|by split|apply Hput; by left|apply Hput; by right|apply Hput; by right].
Qed.
Lemma hoare_pace e : 0 <= en_overslept e -> hoare 0 (pace_post_lane e) 1 anyway.
Proof.
  intros Ho [g d lane] Hw. pose proof (ao_lane _ _ Hw) as H3. cbn [wo_gw wo_lane] in H3. unfold pace_post_lane, cbind at 1, on_gw at 1, read_doc. cbn [wo_gw wo_depot wo_lane].
  assert (Hgo : forall doc, Forall (fun t => t + MIN_POST_SPACING_SECS <= en_lane_now e + lane_wait doc (en_lane_now e) + en_overslept e) lane -> forall at_, at_ = en_lane_now e + lane_wait doc (en_lane_now e) + en_overslept e ->
    match (let% _ := on_gw (write_doc "post-lane.json" (json_object [("last_post_unix", json_u64 at_)])) in fun w => (Ok tt, MkActive (wo_gw w) (wo_depot w) (wo_lane w ++ [at_]))) (MkActive g d lane) with
    | (Ok a, w') => active_ok 1 w' /\ anyway a | (Err _, w') => active_ok 0 w' end).
  { intros doc Hl at_ ->. pose proof (lane_written g d lane _ Hw Hl) as Hwr. unfold cbind, on_gw. cbn [wo_gw wo_depot wo_lane].
    destruct (write_doc _ _ g) as [[[]|err] g']; cbn [map_err wo_gw wo_depot wo_lane]; [by split|done]. }
  destruct (gs_docs g !! "post-lane.json") as [[v|]|]; cbn [map_err]; [|exact Hw|].
  - apply (Hgo (Some v)); [|done]. cbn [lane_read] in H3. eapply Forall_impl; [exact H3|]. intros t Ht. cbn beta in *. pose proof (lane_wait_gap v (en_lane_now e) (en_overslept e) Ho). unfold MIN_POST_SPACING_SECS in *. lia.
  - apply (Hgo None); [|done]. cbn [lane_read] in H3. by subst.
Qed.

(** ** The commands keep it *)

Lemma hoare_step e step detail k : hoare k (record_step e step detail) k anyway.
Proof. apply hoare_others, writes_append. Qed.
Lemma hoare_read {A} (m : G A) k : (forall s, (m s).2 = s) -> hoare k (on_gw m) k anyway.
Proof. intros H. by apply hoare_others, writes_same. Qed.
Lemma hoare_late {A} e step detail k : hoare k (@timed_out A e step detail) 0 anyway.
Proof. apply (hoare_bind _ k _ _ _ anyway); [apply hoare_step|]. intros _ _. apply hoare_fail. Qed.
Lemma hoare_loaded a p k : hoare k (loaded a p) k (fun pkg => exists d, package_of d p pkg).
Proof.
  intros w Hw. unfold loaded, with_pool. destruct (require _ _); cbn; [|apply (active_ok_less k); [lia|done]].
  destruct (load (wo_depot w) p) as [pkg|] eqn:E; cbn; [split; [done|exists (wo_depot w); split; [apply Hw|exact E]]|apply (active_ok_less k); [lia|done]].
Qed.
Lemma hoare_lift_any {A} k (r : result CmdError A) : hoare k (clift r) k anyway.
Proof. apply (hoare_weak k k k _ (fun a => r = Ok a)); [lia|done|apply hoare_lift]. Qed.
Lemma hoare_lifted {A E} k (f : E -> CmdError) (r : result E A) : hoare k (clift (map_err f r)) k (fun a => r = Ok a).
Proof. intros w Hw. unfold clift. destruct r; [by split|]. apply (active_ok_less k); [lia|done]. Qed.
Lemma hoare_if k k' (b : bool) {A} (m n : C A) Q : hoare k m k' Q -> hoare k n k' Q -> hoare k (if b then m else n) k' Q.
Proof. by destruct b. Qed.
Ltac quiet := first
  [ apply hoare_lift_any | apply hoare_step | apply hoare_late | apply hoare_loaded
  | apply hoare_others, writes_reconcile | apply hoare_others, writes_append | apply hoare_read; intros ?; reflexivity
  | apply hoare_ret; exact I | apply hoare_fail ].
(** Goes past a step that posts nothing. *)
Ltac past_step := eapply (hoare_bind _ _ _ _ _ anyway); [quiet|intros ? _]; cbv zeta.
Lemma hoare_poll {A} e max (look : Poll -> C (option A)) late polls :
  (forall p, hoare 0 (look p) 0 anyway) -> hoare 0 late 0 anyway -> hoare 0 (poll_until e max look late polls) 0 anyway.
Proof.
  intros Hl Hla. induction polls as [|p polls IH]; [apply hoare_fail|]. cbn [poll_until]. past_step. apply (hoare_bind _ 0 _ _ _ anyway); [apply Hl|]. intros found _.
  destruct found; [by apply hoare_ret|]. by apply hoare_if.
Qed.
Lemma hoare_precommit a e : 0 <= en_overslept e -> hoare 0 (cmd_precommit a e) 0 anyway.
Proof.
  intros Ho. unfold cmd_precommit. do 5 past_step.
  eapply hoare_bind; [apply hoare_lifted|].
  intros plan Hplan. apply (hoare_bind _ 1 _ _ _ anyway); [by apply hoare_pace|]. intros _ _.
  apply (hoare_bind _ 0 _ _ _ anyway); [|intros ? _; apply hoare_step]. apply hoare_posts. intros w _. apply posts_precommit. left. split; [done|]. do 7 eexists. split; [exact Hplan|done].
Qed.
Lemma posts_commitment P acceptance body reply s : P ("submit-benchmark", body) -> posts 1 P (submit_benchmark_commitment sha256 to_string from_str acceptance body reply) s.
Proof. intros H. unfold submit_benchmark_commitment. do 5 (apply posts_quiet; [by apply posts_same|intros ? ? _ _]). by apply posts_lifecycle. Qed.
Lemma hoare_commit a e : 0 <= en_overslept e -> hoare 0 (cmd_commit a e) 0 anyway.
Proof.
  intros Ho. unfold cmd_commit. past_step. apply (hoare_bind _ 0 _ _ _ _ _ (hoare_loaded a a0 0)). intros pkg [d Hd].
  eapply hoare_bind; [apply hoare_lifted|].
  intros body Hb. past_step. destruct a1 as [bid height]. apply (hoare_bind _ 1 _ _ _ anyway); [by apply hoare_pace|]. intros _ _.
  apply (hoare_bind _ 0 _ _ _ anyway); [|intros ? _; apply hoare_step]. apply hoare_posts. intros w _. apply posts_commitment. right. left. split; [done|]. left. by exists d, a0, pkg.
Qed.

Lemma hoare_payload b v : proof_sourced v -> hoare 0 (on_gw (write_doc (payload_name b) v)) 0 anyway.
Proof.
  intros Hv [g d lane] [H1 H2 H3 H4 H5 H6]. cbn [wo_gw wo_lane] in *.
  assert (Hput : forall dv fs, dv = None \/ dv = Some v -> active_ok 0 (MkActive (MkGw (gs_files g) (<[payload_name b := dv]> (gs_docs g)) (gs_sent g) fs) d lane)).
  { intros dv fs Hdv. split; cbn [wo_gw wo_lane gs_docs gs_sent]; try done.
    - intros b' v'. destruct (decide (payload_name b' = payload_name b)) as [-> |]; [rewrite lookup_insert_eq|rewrite lookup_insert_ne by done; apply H1]. destruct Hdv as [-> | ->]; [done|]. by intros [= <-].
    - by rewrite lookup_insert_ne by done. }
  unfold on_gw, write_doc, take_wfault. cbn [wo_gw]. destruct (gs_faults g) as [|[] fs]; cbn [map_err wo_depot wo_lane];
    [split; [|done]; apply Hput; by right|split; [|done]; apply Hput; by right|by split|apply Hput; by left|apply Hput; by right|apply Hput; by right].
Qed.
Lemma hoare_prove a e : hoare 0 (cmd_prove a e) 0 anyway.
Proof.
  unfold cmd_prove. past_step. apply (hoare_bind _ 0 _ _ _ _ _ (hoare_loaded a a0 0)). intros pkg [d Hd]. cbv zeta. do 3 past_step.
  eapply (hoare_bind _ _ _ _ _ anyway); [apply hoare_if; quiet|]. intros _ _. eapply hoare_bind; [apply hoare_lifted|]. intros payload Hp.
  eapply (hoare_bind _ _ _ _ _ anyway); [apply hoare_payload; do 4 eexists; split; [exact Hd|exact Hp]|]. intros _ _.
  eapply (hoare_bind _ _ _ _ _ anyway); [apply hoare_others, writes_doc; by split|]. intros _ _. quiet.
Qed.
Lemma posts_proof P b reply s : (forall v, gs_docs s !! payload_name b = Some (Some v) -> P ("submit-proof", v)) -> posts 1 P (submit_proof sha256 to_string from_str b reply) s.
Proof.
  intros H. unfold submit_proof. apply posts_quiet; [by apply posts_same|]. intros payload s1 E _. apply posts_quiet; [by apply posts_same|]. intros v s2 E2 _.
  do 2 (apply posts_quiet; [by apply posts_same|intros ? ? _ _]). apply posts_lifecycle, H. unfold read_doc in E. unfold glift in E2.
  destruct (gs_docs s !! payload_name b) as [[w|]|]; [|done|]; injection E as <- <-; [|done]. by injection E2 as <- <-.
Qed.
Lemma hoare_submit_proof a e : 0 <= en_overslept e -> hoare 0 (cmd_submit_proof a e) 0 anyway.
Proof.
  intros Ho. unfold cmd_submit_proof. do 2 past_step. destruct a1 as [bid height]. apply (hoare_bind _ 1 _ _ _ anyway); [by apply hoare_pace|]. intros _ _.
  apply (hoare_bind _ 0 _ _ _ anyway); [|intros ? _; apply hoare_step]. apply hoare_posts. intros w Hw. apply posts_proof. intros v Hv. right. right. split; [done|]. by eapply (ao_payloads _ _ Hw).
Qed.
Lemma hoare_stop a e : 0 <= en_overslept e -> hoare 0 (cmd_stop a e) 0 anyway.
Proof.
  intros Ho. unfold cmd_stop. do 4 past_step. destruct a3 as [bid height]. apply (hoare_bind _ 1 _ _ _ anyway); [by apply hoare_pace|]. intros _ _.
  apply (hoare_bind _ 0 _ _ _ anyway); [|intros ? _; apply hoare_step]. apply hoare_posts. intros w _. apply posts_lifecycle. right. left. split; [done|]. right. by eexists.
Qed.
Lemma hoare_awaits a e :
  hoare 0 (cmd_await_assignment a e) 0 anyway /\ hoare 0 (cmd_await_sampled a e) 0 anyway /\ hoare 0 (cmd_await_stopped a e) 0 anyway.
Proof.
  split_and!.
  - apply hoare_poll; [|quiet]. intros p. past_step. destruct (last _) as [[i b]|]; [|by apply hoare_ret]. past_step. destruct a1 as [bid height]. past_step. by apply hoare_ret.
  - unfold cmd_await_sampled. past_step. apply hoare_poll; [|quiet]. intros p. past_step. destruct a1 as [doc|]; [|by apply hoare_ret]. apply hoare_if; [by apply hoare_ret|]. past_step. by apply hoare_ret.
  - unfold cmd_await_stopped. past_step. eapply (hoare_bind _ _ _ _ _ anyway); [apply hoare_poll; [intros p; quiet|quiet]|]. intros confirmed _.
    eapply (hoare_bind _ _ _ _ _ anyway); [apply hoare_if; quiet|]. intros _ _. do 2 past_step. destruct a2 as [bid height]. past_step.
    do 2 (eapply (hoare_bind _ _ _ _ _ anyway); [apply hoare_if; quiet|]; intros _ _). eapply (hoare_bind _ _ _ _ _ anyway); [apply hoare_others, writes_doc; by split|]. intros _ _. quiet.
Qed.
Lemma hoare_await_active a e : hoare 0 (cmd_await_active a e) 0 anyway.
Proof.
  unfold cmd_await_active. past_step. apply (hoare_bind _ 0 _ _ _ anyway).
  - generalize (default 3900 (ar_max_secs a)). intros max. induction (en_proof_polls e) as [|p polls IH]; cbn [await_proof]; past_step; (destruct a1 as [doc|]; [by apply hoare_ret|]); [quiet|].
    do 2 past_step. destruct a2; [by apply hoare_ret|]. apply hoare_if; [quiet|exact IH].
  - intros doc _. generalize (default 3900 (ar_max_secs a)). intros max. induction (en_polls e) as [|p polls IH]; cbn [await_listed]; [quiet|]. past_step.
    apply hoare_if; [|apply hoare_if; [quiet|exact IH]]. eapply (hoare_bind _ _ _ _ _ anyway); [apply hoare_others, writes_doc; by split|]. intros _ _. quiet.
Qed.
Lemma hoare_retire a e : hoare 0 (cmd_retire a e) 0 anyway.
Proof.
  unfold cmd_retire. do 3 past_step. eapply (hoare_bind _ 0 _ _ _ anyway).
  - intros [g d lane] [H1 H2 H3 H4 H5 H6]. cbn [wo_depot] in *. destruct (apply_retention _ _ _ d) as [r d'] eqn:E. assert (Hd : rtc disk_step d0 d').
    { eapply rtc_r; [exact H6|]. right. do 3 eexists. by rewrite E. }
    destruct r; [split; [|done]|]; by split.
  - intros record _. past_step. quiet.
Qed.
Lemma main_keeps a e : 0 <= en_overslept e -> hoare 0 (main a e) 0 anyway.
Proof.
  intros Ho. destruct (hoare_awaits a e) as (Ha & Hs & Hst). unfold main. cbv zeta.
  repeat (apply hoare_if; [first [by apply hoare_precommit|exact Ha|by apply hoare_commit|exact Hs|apply hoare_prove|by apply hoare_submit_proof|apply hoare_await_active|apply hoare_retire|by apply hoare_stop|exact Hst|idtac]|]); [|quiet].
  unfold cmd_status. eapply (hoare_bind _ 0 _ _ _ anyway); [past_step; by apply hoare_ret|]. intros _ _. quiet.
Qed.
Lemma active_history w w' : rtc active_step w w' -> active_ok 0 w -> active_ok 0 w'.
Proof.
  induction 1 as [|w1 w2 w3 H12 _ IH]; [done|]. intros H1. apply IH. destruct H12 as [a e fs Ho|d Hd].
  - pose proof (main_keeps a e Ho (MkActive (with_wfaults fs (wo_gw w1)) (wo_depot w1) (wo_lane w1))) as H. destruct (main a e _) as [[[]|err] w']; apply H; by destruct H1.
  - destruct H1 as [? ? ? ? ? H6]. split; try done. eapply rtc_r; [exact H6|by left].
Qed.
Definition active_empty : World := MkActive gw_empty d0 [].
Lemma active_empty_ok : active_ok 0 active_empty.
Proof. split; try done; constructor. Qed.

(** ** The properties *)

(** C33. In every history of invocations, whatever writes fail and whatever the pool
    does in between, each request that leaves for TIG comes from where it should: a
    precommit from a plan; a commitment from an accepted package that was on the
    pool's disk, loaded and verified, unless it is a stop; the proofs of a sample
    from such a package, and from nothing else. *)
Theorem every_request_has_its_source w req : rtc active_step active_empty w -> req ∈ gs_sent (wo_gw w) -> request_sourced req.
Proof. intros H Hin. pose proof (active_history _ _ H active_empty_ok) as [_ H2 _ _ _ _]. rewrite Forall_forall in H2. by apply H2. Qed.

(** Each request was preceded by taking the lane, and the lane is taken at least
    five seconds apart, whatever the clock does and in however many invocations. *)
Theorem posts_are_spaced w : rtc active_step active_empty w -> (length (gs_sent (wo_gw w)) <= length (wo_lane w))%nat /\ StronglySorted gap (wo_lane w).
Proof. intros H. pose proof (active_history _ _ H active_empty_ok) as [_ _ _ H4 H5 _]. split; [lia|done]. Qed.

(** ** Waiting ends *)

Definition settles_for {A} (m : C A) : Prop := forall w, (m w).1 <> Err CStillPolling.
Lemma settles_for_bind {A B} (m : C A) (k : A -> C B) : settles_for m -> (forall a, settles_for (k a)) -> settles_for (cbind m k).
Proof. intros Hm Hk w. specialize (Hm w). unfold cbind. destruct (m w) as [[a|e] w1]; [apply Hk|]. cbn in *. congruence. Qed.
Lemma settles_for_gw {A} (m : G A) : settles_for (on_gw m).
Proof. intros w. unfold on_gw. by destruct (m (wo_gw w)) as [[a|e] g]. Qed.
Lemma settles_for_ret {A} (a : A) : settles_for (cret a).
Proof. done. Qed.
Lemma settles_for_height reply : settles_for (clift (latest_height reply)).
Proof. intros w. unfold clift, latest_height. by destruct (latest_block reply). Qed.
Lemma settles_for_late {A} e step detail : settles_for (@timed_out A e step detail).
Proof. apply settles_for_bind; [apply settles_for_gw|]. by intros _ w. Qed.
Lemma settles_for_require v name : settles_for (clift (require v name)).
Proof. intros w. by destruct v. Qed.
Lemma poll_settles {A} e max (look : Poll -> C (option A)) late polls : (exists p, p ∈ polls /\ past e p max = true) ->
  (forall p, settles_for (look p)) -> settles_for late -> settles_for (poll_until e max look late polls).
Proof.
  intros (q & Hq & Hpast) Hl Hla. induction polls as [|p polls IH]; [by apply elem_of_nil in Hq|]. cbn [poll_until]. apply settles_for_bind; [apply settles_for_gw|]. intros _.
  apply settles_for_bind; [apply Hl|]. intros [x|]; [apply settles_for_ret|]. destruct (past e p max) eqn:E; [done|]. apply IH. apply elem_of_cons in Hq as [-> |]; [congruence|done].
Qed.
(** Every iteration but the first comes after another sleep. *)
Definition slept (e : Env) (every : Z) (polls : list Poll) : Prop := forall i p, polls !! i = Some p -> en_started e + Z.of_nat i * every <= po_now p.
Lemma slept_past e every max polls : 1 <= every -> slept e every polls -> 0 <= max -> max / every + 1 < Z.of_nat (length polls) -> exists p, p ∈ polls /\ past e p max = true.
Proof.
  intros He Hs Hm Hl. assert (Hd : 0 <= max / every) by (apply Z.div_pos; lia). destruct (lookup_lt_is_Some_2 polls (Z.to_nat (max / every + 1))) as [p Hp]; [lia|]. exists p. split; [by eapply list_elem_of_lookup_2|].
  specialize (Hs _ _ Hp). unfold past. apply Z.ltb_lt. rewrite Z2Nat.id in Hs by lia. pose proof (Z.mod_pos_bound max every). pose proof (Z.div_mod max every). nia.
Qed.

(** A loop that waits returns: after [max / poll + 2] iterations at most, with
    what it waited for, the time-out or an error of its own. *)
Theorem waiting_ends a e w : slept e (poll_secs a 15) (en_polls e) -> 
  (0 <= default 900 (ar_max_secs a) -> default 900 (ar_max_secs a) / poll_secs a 15 + 1 < Z.of_nat (length (en_polls e)) -> (cmd_await_assignment a e w).1 <> Err CStillPolling) /\
  (0 <= default 1800 (ar_max_secs a) -> default 1800 (ar_max_secs a) / poll_secs a 15 + 1 < Z.of_nat (length (en_polls e)) ->
    (cmd_await_sampled a e w).1 <> Err CStillPolling).
Proof.
  intros Hs. assert (H1 : 1 <= poll_secs a 15) by (unfold poll_secs; lia). split; intros Hm Hl; pose proof (slept_past e _ _ _ H1 Hs Hm Hl) as Hp.
  - revert w. apply poll_settles; [done| |apply settles_for_late]. intros p. apply settles_for_bind; [apply settles_for_gw|]. intros rs. destruct (last _) as [[i b]|]; [|apply settles_for_ret].
    apply settles_for_bind; [apply settles_for_height|]. intros [bid h]. apply settles_for_bind; [apply settles_for_gw|]. intros _. apply settles_for_ret.
  - revert w. unfold cmd_await_sampled. apply settles_for_bind; [apply settles_for_require|]. intros b. cbv zeta. apply poll_settles; [done| |apply settles_for_late]. intros p.
    apply settles_for_bind; [apply settles_for_gw|]. intros [doc|]; [|apply settles_for_ret]. destruct (Nat.eqb _ 0); [apply settles_for_ret|]. apply settles_for_bind; [apply settles_for_gw|]. intros _. apply settles_for_ret.
Qed.
End active.

(** ** A run *)

Definition ac_receipt : Value := json_object [("benchmark_id", JString "b1"); ("package_sha256", JString "aa")].
Abbreviation ac_acceptance := (acceptance_json
  (artifact_json toy_hash32 "/pool" "p1" "a1" "b1" "accepted/k" "application/zstd" (Merkle.sha256_hex toy_hash32 toy_object) (Z.of_nat (length toy_object)) (Z.of_nat (length toy_archive)) "ms" "t")
  ac_receipt "s1" 1).
Definition ac_depot : Depot := MkDepot {[DAcceptance "p1" := ac_acceptance]} ∅ ∅ ∅ {["accepted/k" := toy_object]} [] (fun _ => false).
Definition ac_args (cmd : string) : Args := MkArgs cmd "url" "key" "p" "dir" None None "cpu" (Some "p1") (Some "b1") (Some "/pool") (Some 15) (Some 20).
Definition ac_block : GetReply := GetGot 200 (json_object [("block", json_object [("id", JString "x"); ("details", json_object [("height", json_u64 7)])])]).
Definition ac_benches : GetReply := GetGot 200 (json_object [("benchmarks", JArray [json_object
  [("id", JString "b1"); ("state", json_object [("block_confirmed", json_u64 7)]); ("details", json_object [("sampled_nonces", JArray [json_u64 1; json_u64 0])])]])]).
Definition ac_none : GetReply := GetGot 200 (JObject []).
(** Every invocation reads the clock at the same second, and oversleeps by one. *)
Definition ac_env (polls : list Poll) : Env := MkEnv 100 ac_block ac_none ac_none (Ok (200, "b1")) 100 1 101 101 JNull 101 polls [] None None 3.
Definition ac_poll (benches : GetReply) (now : Z) : Poll := MkPoll ac_block benches ac_block now.
Abbreviation ac_main := (main toy_hash32 toy_hash32 toy_text toy_from toy_unpack toy_members).
Abbreviation ac_step := (active_step toy_hash32 toy_hash32 toy_text toy_from toy_unpack toy_members (fun _ _ => False)).
Definition ac_run (cmds : list (string * list Poll)) (w : World) : World :=
  fold_left (fun w c => (ac_main (ac_args c.1) (ac_env c.2) (MkActive (with_wfaults [] (wo_gw w)) (wo_depot w) (wo_lane w))).2) cmds w.
Lemma ac_run_history cmds : forall w, rtc ac_step w (ac_run cmds w).
Proof. induction cmds as [|c cmds IH]; intros w; [constructor|]. econstructor; [apply (active_main _ _ _ _ _ _ _ w (ac_args c.1) (ac_env c.2) []); done|apply IH]. Qed.
Definition ac_cmds : list (string * list Poll) := [("commit", []); ("await-sampled", [ac_poll ac_none 100; ac_poll ac_benches 115]); ("prove", []); ("submit-proof", [])].
Abbreviation ac_world := (ac_run ac_cmds (active_empty ac_depot)).
(** Two requests leave, five seconds and the overrun apart. *)
Lemma ac_flow : map fst (gs_sent (wo_gw ac_world)) = ["submit-benchmark"; "submit-proof"] /\ wo_lane ac_world = [101; 107].
Proof. vm_compute. split; reflexivity. Qed.
Abbreviation ac_request := (default ("", JNull) (last (gs_sent (wo_gw ac_world)))).
Lemma ac_request_sent : ac_request ∈ gs_sent (wo_gw ac_world).
Proof. apply list_elem_of_In. vm_compute. tauto. Qed.
Lemma every_request_has_its_source_witness : request_sourced toy_hash32 toy_hash32 toy_text toy_from toy_unpack toy_members ac_depot (fun _ _ => False) ac_request.
Proof. exact (every_request_has_its_source toy_hash32 toy_hash32 toy_text toy_from toy_unpack toy_members ac_depot (fun _ _ => False) ac_world ac_request (ac_run_history ac_cmds _) ac_request_sent). Defined.
Lemma posts_are_spaced_witness : (length (gs_sent (wo_gw ac_world)) <= length (wo_lane ac_world))%nat /\ StronglySorted gap (wo_lane ac_world).
Proof. exact (posts_are_spaced toy_hash32 toy_hash32 toy_text toy_from toy_unpack toy_members ac_depot (fun _ _ => False) ac_world (ac_run_history ac_cmds _)). Defined.
(** Nothing is ever confirmed: the wait of twenty seconds ends with the third look. *)
Definition ac_waits : Env := ac_env [ac_poll ac_none 100; ac_poll ac_none 115; ac_poll ac_none 130].
Lemma ac_slept : slept ac_waits (poll_secs (ac_args "await-assignment") 15) (en_polls ac_waits).
Proof. intros [|[|[|i]]] p; [intros [= <-]|intros [= <-]|intros [= <-]|done]; vm_compute; discriminate. Qed.
Lemma waiting_ends_witness : (cmd_await_assignment (ac_args "await-assignment") ac_waits (active_empty ac_depot)).1 <> Err CStillPolling /\
  (cmd_await_assignment (ac_args "await-assignment") ac_waits (active_empty ac_depot)).1 = Err CTimedOut.
Proof.
  split; [|vm_compute; reflexivity]. exact (proj1 (waiting_ends (ac_args "await-assignment") ac_waits (active_empty ac_depot) ac_slept) ltac:(vm_compute; discriminate) eq_refl).
Defined.

(** A second precommit is in flight, and the wait for its assignment ends at once
    with the first one's, which was confirmed before. *)
Definition ac_plan (compute : string) : PrecommitPlan := MkPlan (json_object [("settings", json_object [("player_id", JString "p")]); ("compute_type", JString compute)]) [] 0 0.
Definition ac_print (v : Value) : string := default "?" (str_field "compute_type" v).
Definition ac_parse (t : string) : option Value := Some (json_object [("benchmark_id", JString t)]).
Abbreviation ac_gw op s := (run_gw toy_hash32 ac_print ac_parse op s).
Definition ac_precommits : GetReply := GetGot 200 (json_object [("precommits", JArray [json_object [("benchmark_id", JString "b1"); ("state", json_object [("block_confirmed", json_u64 7)])]])]).
Definition ac_second : GwState := ac_gw (OpPrecommit (ac_plan "gpu") (Ok (200, "b2"))) (ac_gw (OpReconcile ac_block ac_precommits) (ac_gw (OpPrecommit (ac_plan "cpu") (Ok (200, "b1"))) gw_empty)).
Abbreviation ac_awaited := (cmd_await_assignment (ac_args "await-assignment") (ac_env [ac_poll ac_precommits 101]) (MkActive ac_second ac_depot [])).
Example wait_ends_with_an_old_assignment : length (gs_sent ac_second) = 2%nat /\ ac_awaited.1 = Ok tt /\
  map (fun v => and_then (json_get "detail" v) (str_field "benchmark_id")) (default [] (records (file_of "steps" (wo_gw ac_awaited.2)))) = [Some "b1"].
Proof. vm_compute. by repeat split. Qed.
